(* ===== verification/_CoqProject ===== *)
-Q . S2P
Prelude.v
Ssh.v
Buffer.v
Mpint.v
BufferProps.v
BigNum.v
CircBuffer.v
Queue.v
DList.v
Packet.v
PacketProps.v
PacketRoundtrip.v
PacketStream.v
Timeouts.v
Ident.v
Session.v
ProcessPacket.v
Algo.v
Kex.v
KexProps.v
KexSafe.v
Channel.v
ChannelProps.v
ChannelSafe.v
Base64.v
AuthKeys.v
AuthKeysProps.v
Auth.v
AuthProps.v
ChanSess.v
ChanSessSafe.v
ChanSessProps.v
NetIO.v
Forward.v
ForwardSafe.v
Server.v
Jni.v
Daemon.v
RunOpts.v
BufferSu.v
SignKey.v
SignKeyProps.v
SignKeyRound.v
SignKeySign.v
SignKeyDsa.v
SignKeyVerify.v
SignKeyWitness.v
HostKeys.v
HostKeysGen.v
NumTheory.v
GenKeys.v
AuthSign.v
SshBuf.v
Sftp.v
SftpProps.v
SftpReply.v
SftpServer.v
SftpReadonly.v
SftpHandles.v
