(* ===== verification/Prelude.v ===== *)
(** * SimpleSSHD: a verification development

    SimpleSSHD is an Android application around three C programs: the Dropbear
    SSH server ([src/dropbear], patched by the application), OpenSSH's
    [sftp-server] ([src/openssh]) and [rsync] ([src/rsync]), started by a small
    native library ([src/jni]).  The server owns the program's core logic: it
    reads packets from the network, negotiates algorithms and keys,
    authenticates the user and multiplexes channels.  This development models
    that core as it is built for the application: server only, zlib on, no
    [writev], no PAM, one user, agent and X11 forwarding off, a fixed password
    when there is no [authorized_keys].  It also models [sftp-server], which the
    server starts for the subsystem of that name.

    ** How the code is modelled

    A C routine is a function in a state-and-error monad [M S A] over the state
    it works on ([Prelude]).  It returns, ends the process through
    [dropbear_exit] ([Exit], with the message), or performs an undefined access
    ([UB]: outside an allocation, signed overflow, null or freed pointer, fuel
    that ran out).  [wp] is partial correctness without undefined behaviour,
    [twp] says that the routine returns, [ewp E] that the process ends only for a
    reason [E].  [unsigned int] is [Z] with its
    wrap-around written out ([u32]); bytes are [Z] in lists.  Loops that are not
    structural take fuel; the theorems show that the fuel given at the call is
    enough, since running out of it counts as undefined.

    Code outside [src/] and the cryptographic primitives are parameters: ciphers,
    HMAC, hashes, zlib, the random generator, the clock, what system calls
    return.  What the code relies on is stated as a hypothesis where it is used
    and instantiated in the witnesses: for packets, that the ciphers of the two
    ends are inverse ([cipher_inverse]), that the zlib streams of the two ends
    are ([zlib_inverse]), and that they count their output as documented
    ([deflate_ok], [inflate_ok]); of libtommath, its modular power on numbers
    that are not negative ([MpLaws]); of the file system of [sftp-server],
    [os_ok].

    ** The files

    - [Prelude]: outcomes, the monad, [wp], [twp] and [ewp], machine integers,
      bytes in memory, C strings.
    - [Ssh]: the message numbers of [ssh.h].
    - [Buffer]: [buffer.c], with the invariant [buf_wf]; the classes [Reader]
      (a routine that reads refines a parser of the unread bytes) and [Writer]
      (a routine that writes appends its encoding), which the handlers' proofs
      use.  [Mpint]: the parts of libtommath behind [buf_getmpint] and
      [buf_putmpint].  [BufferProps]: no sequence of buffer operations leaves
      the allocation; fields written are read back.
    - [CircBuffer]: [circbuffer.c] refines a bounded queue of bytes.
    - [Queue]: [queue.c] over a heap refines a list.  [DList]: [list.c], doubly
      linked, refines a sequence.
    - [Packet], [PacketProps], [PacketRoundtrip], [PacketStream]: [packet.c],
      both directions: what one side encrypts the other decrypts, for any
      fragmentation of the stream, with and without compression; [read_packet]
      is safe on any input, and a payload is what the bytes taken from the
      socket decrypt to, with the right MAC at their end; replies held back
      during a key exchange go out in order with the keys it ends with.
    - [Timeouts], [Ident]: of [common-session.c], how long the main loop sleeps and
      which time limits it enforces: a session ends for a limit at the moment
      of the turn that reaches it; and the identification strings.
    - [Session]: the interface [HasIO] the handlers have to the packet layer.
    - [ProcessPacket]: [process-packet.c] and the dispatch table: the decision
      is compared with a specification; before authentication [process_packet]
      runs only the handlers of the transport and authentication.
    - [Algo]: [common-algo.c]: offering and matching of algorithm lists; both
      sides agree.
    - [Kex], [KexProps], [KexSafe]: [common-kex.c], [svr-kex.c] and the random
      numbers of [bignum.c]: both sides derive the same keys and reject degenerate
      Diffie-Hellman values; the handlers are safe for any sequence of messages.
    - [Channel], [ChannelProps], [ChannelSafe]: [common-channel.c]: data is
      delivered in order and within the windows.  The callbacks of a channel
      type are the interface [callbacks_ok], with an invariant of the client
      over the kinds of the open channels; channels whose types satisfy it keep
      the table's invariant for any sequence of packets and descriptor events.
      Connections in progress hold a pointer to the channel that asked for them
      ([pending_conns]): a callback for a channel that was removed is undefined,
      and [cancel_connect] is what prevents it.
    - [Base64]: libtomcrypt's base64.
    - [AuthKeys], [AuthKeysProps]: [authorized_keys]: [buf_getline], the line
      parser and its options ([svr-authpubkey.c], [svr-authpubkeyoptions.c]):
      which keys are accepted, and two lines that are not handled as meant (the
      end of a line that is too long is taken for a line).
    - [Auth], [AuthProps]: [svr-auth.c], [svr-authpasswd.c],
      [svr-authpubkey.c], [svr-service.c]: nobody gets in without a credential;
      guesses are limited; the delay of a refusal.  Public keys are the class
      [SignKey].
    - [ChanSess], [ChanSessSafe], [ChanSessProps]: [svr-chansession.c] with the
      parts of [dbutil.c], [sshpty.c] and [termcodes.c] it calls: requests of a
      session, terminals, children, exit reports.  Its callbacks keep an
      invariant of the sessions on the heap and the table of children; the end
      of a child is reported to its own session.
    - [NetIO]: the connections in progress of [netio.c]: the owner of each is
      told once, and no socket is lost.
    - [Forward], [ForwardSafe]: [listener.c], [tcp-accept.c], [svr-tcpfwd.c]
      and [dropbear_listen].  With [ChanSessSafe] they discharge [callbacks_ok]
      for the server; what the two requests do that it does not survive
      ([cancel_crashes], [listeners_overrun]).
    - [Server]: turns of [session_loop] on channels, sessions and forwarding
      together: memory safety and shutdown, and that the restrictions put on a
      key are enforced.  The two requests above and a terminal for which
      [ptsname] has no name ([pty_unnamed]) are excluded.
    - [BigNum]: the operations of libtommath the keys use.  [SignKey]:
      [signkey.c], [rsa.c], [dss.c], [ecdsa.c], [ecc.c]; [SignKeyProps] and
      [SignKeyRound]: reading is safe and checks what it should, keys are read
      back as written; [SignKeySign], [SignKeyDsa], [SignKeyVerify],
      [SignKeyWitness]: verification accepts exactly what the equations of RSA,
      DSS and ECDSA say, and accepts what signing makes.  [AuthSign]: the class
      [SignKey] of [Auth] with these keys: a login by key needs a signature of
      this session by a listed key.
    - [Daemon]: [main_noinetd] of [svr-main.c]: the clients that have not
      authenticated yet are a bounded set, with a process for each, and which
      descriptors the daemon and the processes hold (a process inherits the
      reading ends of earlier clients' pipes, [readers_inherited]).
    - [Jni]: [jni/interface.c], how the application's options become the
      arguments of the server.  [RunOpts]: [svr-runopts.c], which reads them, with
      [buf_readfile] and [m_str_to_uint] of [dbutil.c]: what the application
      asks for is what the server does, and the options are in range.
    - [HostKeys]: loading the host keys ([svr-runopts.c], [common-runopts.c]),
      which of the algorithms of [common-algo.c] stay, and [gensignkey.c] and
      [svr_ensure_hostkey], which make a key when one is missing, over a map of
      files; the class [KeyGen] stands for the making of the numbers.
      [HostKeysGen]: the key that is made is the one that later starts read.
      [NumTheory], [GenKeys]: [genrsa.c], [gendss.c] and [gen_ecdsa_priv_key]:
      what holds of the numbers of a new key, when their loops end, and that
      they implement [KeyGen].
    - [BufferSu]: [jni/buffersu.c], the wrapper that
      buffers the input and output of [rsync]: it loses nothing it has read, and
      ends.
    - [SshBuf]: OpenSSH's [sshbuf.c] and [sshbuf-getput-basic.c], with the
      allocations that can fail: a buffer refines a bounded queue.
    - [Sftp]: [sftp-server.c] with the parts of [sftp-common.c], [buffer.c],
      [bufaux.c], [match.c], [xmalloc.c], [pwcache.c] and [strmode.c] it uses:
      the handlers, the table of handles, dispatch and the main loop over a file
      system that is a parameter.  [SftpProps]: arguments refine their grammar,
      attributes survive the wire, the free list of the handles.  [SftpReply]:
      what is assumed of the file system ([os_ok]) and that every handler sends
      one reply; [SftpServer]: a session is a sequence of requests and the
      sequence of their replies, and a request that follows the grammar is
      answered, when the names of users and groups can be stored ([names_kept]);
      [SftpReadonly]: in read-only mode a session is that on a file system that
      refuses every change, except through an [open] for reading that creates or
      truncates ([write_protected]); [SftpHandles]: the table of handles refines
      a map.

    ** Bounds and fuel

    Buffers hold at most [BUF_MAX_SIZE] bytes, so positions and lengths stay
    below [2^30] and their 32-bit sums do not wrap; each lemma on a range check
    starts from that.  The fuel of a loop over a buffer is its length, of a loop
    over the channel table [MAX_CHANNELS + CHAN_EXTEND_SIZE], of a loop over a
    file the length of the file plus one, of the terminal modes the bytes left,
    of a connection the addresses left, and of [waitpid] the children left plus
    one.  The loops of RSA, DSS and ECDSA that draw random numbers until one fits
    take a bound on the draws as hypothesis; those that make keys are cut off
    after a number of turns, and the theorems say which draws end them.  The
    daemon uses [select], so its descriptors must stay below [FD_SETSIZE]: that
    those of the start and those lost by failed forks leave room for 30 clients
    is a hypothesis.

    A buffer of OpenSSH holds at most [SSHBUF_SIZE_MAX] bytes, so that [size_t]
    of 32 bits is enough for every sum.  The loop over a directory is given as
    fuel the entries left and one; a message of 100 entries, with names of at
    most 255 and lines of at most 1023 bytes, is shorter than
    [SFTP_MAX_MSG_LENGTH].  The table of handles is followed up to [MAX_HANDLES]
    entries, the number that fits in [SSHBUF_SIZE_MAX] bytes: beyond it the
    allocation may fail.

    ** Not modelled

    Of the main loop the sets of descriptors of [select], of the daemon its
    listening sockets, signals and pid file; the lookup of names and addresses
    in [netio.c]; the signal handler of [svr-chansession.c] and the controlling
    terminal of its children; the arithmetic of curve25519; the options and the
    log of [sftp-server]; [rsync]. Not at all: the Java application, the client
    of Dropbear ([cli-*.c], not built), the key tools, the cipher, hash and
    big-number libraries but for the pieces above, logging and login records,
    and in [jni] the calls of the Java interface and the start of processes.
    [rsync] is a program of its own, which the application packages unchanged;
    what is left of the server is system calls and their arguments, with little
    logic between them. *)
From Stdlib Require Export ZArith Lia.
From stdpp Require Export base gmap strings numbers list.

#[global] Open Scope Z_scope.
#[export] Set Warnings "-clear-no-such-hyp".

(** ** Outcomes and the state-and-error monad

    A C routine either returns ([Ok]), ends the process through
    [dropbear_exit], [dropbear_close] or a failed [dropbear_assert] ([Exit],
    with the format string of the call), or performs an access the C standard
    leaves undefined ([UB]): a read or a write outside an allocation, a signed
    overflow, a division by zero, a use of a null pointer. *)
Inductive outcome (A : Type) : Type :=
| Ok (a : A)
| Exit (msg : string)
| UB (why : string).
Arguments Ok {A} a.
Arguments Exit {A} msg.
Arguments UB {A} why.

Definition obind {A B} (f : A → outcome B) (m : outcome A) : outcome B :=
  match m with Ok a => f a | Exit e => Exit e | UB e => UB e end.
#[global] Instance outcome_ret : MRet outcome := λ A a, Ok a.
#[global] Instance outcome_bind : MBind outcome := λ A B, obind.
#[global] Instance outcome_fmap : FMap outcome := λ A B f, obind (λ a, Ok (f a)).

Lemma obind_ok {A B} (o : outcome A) (f : A → outcome B) a : o = Ok a → (o ≫= f) = f a.
Proof. by intros ->. Qed.
Lemma obind_exit {A B} (o : outcome A) (f : A → outcome B) e : o = Exit e → (o ≫= f) = Exit e.
Proof. by intros ->. Qed.

Definition M (S A : Type) : Type := S → outcome (A * S).

#[global] Instance M_ret {S} : MRet (M S) := λ A a s, Ok (a, s).
#[global] Instance M_bind {S} : MBind (M S) := λ A B f m s,
  match m s with
  | Ok (a, s') => f a s'
  | Exit e => Exit e
  | UB e => UB e
  end.

Definition get {S} : M S S := λ s, Ok (s, s).
Definition gets {S A} (f : S → A) : M S A := λ s, Ok (f s, s).
Definition put {S} (s : S) : M S () := λ _, Ok (tt, s).
Definition modify {S} (f : S → S) : M S () := λ s, Ok (tt, f s).
Definition dropbear_exit {S A} (msg : string) : M S A := λ _, Exit msg.
Definition undefined {S A} (why : string) : M S A := λ _, UB why.
Definition lift {S A} (o : outcome A) : M S A := λ s,
  match o with Ok a => Ok (a, s) | Exit e => Exit e | UB e => UB e end.
(** [dropbear_assert(X)]: a failed assertion is a [dropbear_exit]. *)
Definition dropbear_assert {S} (b : bool) : M S () :=
  if b then mret tt else dropbear_exit "Failed assertion".
Definition when {S} (b : bool) (m : M S ()) : M S () := if b then m else mret tt.

(** Run a routine on an object of its own and keep the object. *)
Definition exec {S A} (m : M S A) (s : S) : outcome S := snd <$> m s.

(** Run a computation on a component of the state. *)
Definition zoom {S T A} (view : S → T) (upd : T → S → S) (m : M T A) : M S A :=
  λ s, match m (view s) with
       | Ok (a, t) => Ok (a, upd t s)
       | Exit e => Exit e
       | UB e => UB e
       end.

(** Equations of the monad: the library runs a computation one call at a
    time with these. *)
Section monad_lemmas.
Context {S A B : Type}.
Implicit Types (m : M S A) (f : A → M S B) (s : S).

Lemma bind_ok m f s a s' : m s = Ok (a, s') → (m ≫= f) s = f a s'.
Proof. unfold mbind, M_bind. by intros ->. Qed.

Lemma bind_exit m f s e : m s = Exit e → (m ≫= f) s = Exit e.
Proof. unfold mbind, M_bind. by intros ->. Qed.

Lemma bind_ext m f (g : A → M S B) s : (∀ a s, f a s = g a s) → (m ≫= f) s = (m ≫= g) s.
Proof. unfold mbind, M_bind. intros He. by destruct (m s) as [[]| |]. Qed.

Lemma bind_assoc {C} m f (g : B → M S C) s :
  ((m ≫= f) ≫= g) s = (m ≫= λ a, f a ≫= g) s.
Proof. unfold mbind, M_bind. by destruct (m s) as [[]| |]. Qed.

Lemma bind_inv m f s b s2 :
  (m ≫= f) s = Ok (b, s2) → ∃ a s1, m s = Ok (a, s1) ∧ f a s1 = Ok (b, s2).
Proof. unfold mbind, M_bind. destruct (m s) as [[a s1]| |]; naive_solver. Qed.

Lemma zoom_ok {T} (view : S → T) (upd : T → S → S) (m : M T A) s a t :
  m (view s) = Ok (a, t) → zoom view upd m s = Ok (a, upd t s).
Proof. unfold zoom. by intros ->. Qed.

Lemma lift_ok (a : A) s : lift (Ok a) s = Ok (a, s).
Proof. done. Qed.

Lemma assert_ok (c : bool) s : c = true → dropbear_assert c s = Ok (tt, s).
Proof. by intros ->. Qed.
End monad_lemmas.

(** Equality of two computations up to re-association. *)
Ltac assoc := repeat (rewrite !bind_assoc || (apply bind_ext; intros) || reflexivity).

(** ** Weakest preconditions

    [wp m Q s]: run from [s], [m] has no undefined behaviour, and if it
    returns, the result and the final state satisfy [Q].  The process may
    still end through [dropbear_exit], so a claim that a routine returns is
    stated as an equation with [Ok], never with [wp]. *)
Definition wp {S A} (m : M S A) (Q : A → S → Prop) (s : S) : Prop :=
  match m s with
  | Ok (a, s') => Q a s'
  | Exit _ => True
  | UB _ => False
  end.

Section wp_lemmas.
Context {S : Type}.

Lemma wp_ret {A} (a : A) Q (s : S) : Q a s → wp (mret a) Q s.
Proof. done. Qed.

Lemma wp_bind {A B} (m : M S A) (f : A → M S B) Q s :
  wp m (λ a s', wp (f a) Q s') s → wp (m ≫= f) Q s.
Proof. unfold wp, mbind, M_bind. by destruct (m s) as [[]| |]. Qed.

Lemma wp_mono {A} (m : M S A) (P Q : A → S → Prop) s :
  wp m P s → (∀ a s', P a s' → Q a s') → wp m Q s.
Proof. unfold wp. destruct (m s) as [[]| |]; auto. Qed.

Lemma wp_exit {A} e Q (s : S) : wp (@dropbear_exit S A e) Q s.
Proof. done. Qed.

Lemma wp_gets {A} (f : S → A) Q s : Q (f s) s → wp (gets f) Q s.
Proof. done. Qed.

Lemma wp_get Q (s : S) : Q s s → wp get Q s.
Proof. done. Qed.

Lemma wp_put (s' : S) Q s : Q tt s' → wp (put s') Q s.
Proof. done. Qed.

Lemma wp_modify (f : S → S) Q s : Q tt (f s) → wp (modify f) Q s.
Proof. done. Qed.

Lemma wp_assert (b : bool) Q (s : S) :
  (b = true → Q tt s) → wp (dropbear_assert b) Q s.
Proof. destruct b; cbn; auto. Qed.

Lemma wp_when (b : bool) (m : M S ()) Q s :
  (b = true → wp m Q s) → (b = false → Q tt s) → wp (when b m) Q s.
Proof. destruct b; cbn; auto. Qed.

Lemma wp_if {A} (b : bool) (m1 m2 : M S A) Q s :
  (b = true → wp m1 Q s) → (b = false → wp m2 Q s) → wp (if b then m1 else m2) Q s.
Proof. destruct b; auto. Qed.

Lemma wp_zoom {T A} (view : S → T) (upd : T → S → S) (m : M T A) Q s :
  wp m (λ a t, Q a (upd t s)) (view s) → wp (zoom view upd m) Q s.
Proof. unfold wp, zoom. by destruct (m (view s)) as [[]| |]. Qed.

Lemma wp_lift {A} (o : outcome A) Q (s : S) :
  match o with Ok a => Q a s | Exit _ => True | UB _ => False end → wp (lift o) Q s.
Proof. unfold wp, lift. by destruct o. Qed.

Lemma wp_ok {A} (m : M S A) Q s a s' : m s = Ok (a, s') → Q a s' → wp m Q s.
Proof. unfold wp. by intros ->. Qed.

Lemma wp_ext {A} (m m' : M S A) Q s : m s = m' s → wp m' Q s → wp m Q s.
Proof. unfold wp. by intros ->. Qed.

Lemma wp_goto {A} (m m' : M S A) Q s s' : m s = m' s' → wp m' Q s' → wp m Q s.
Proof. unfold wp. by intros ->. Qed.

Lemma wp_exec {T A B} (m : M T A) (f : T → M S B) Q (t : T) (s : S) :
  wp m (λ _ t', wp (f t') Q s) t → wp (lift (exec m t) ≫= f) Q s.
Proof. unfold wp, exec, lift, mbind, M_bind. cbn. by destruct (m t) as [[]| |]. Qed.

Lemma wp_run {T A} (m : M T A) Q (t : T) (s : S) : wp m (λ a t', Q (a, t') s) t → wp (lift (m t)) Q s.
Proof. unfold wp, lift. by destruct (m t) as [[]| |]. Qed.

Lemma wp_elim {A} (m : M S A) Q s a s' : wp m Q s → m s = Ok (a, s') → Q a s'.
Proof. unfold wp. by intros H E; rewrite E in H. Qed.

(** The equation of the run, kept with the postcondition. *)
Lemma wp_keep {A} (m : M S A) Q s : wp m Q s → wp m (λ a s', Q a s' ∧ m s = Ok (a, s')) s.
Proof. unfold wp. by destruct (m s) as [[]| |]. Qed.
End wp_lemmas.

(** [wp_step] applies the rule for the head of the computation; [wp_auto]
    repeats it and splits the conditionals the code branches on. *)
Ltac wp_step :=
  lazymatch goal with
  | |- wp (mret _) _ _ => apply wp_ret
  | |- wp (_ ≫= _) _ _ => apply wp_bind
  | |- wp (dropbear_exit _) _ _ => apply wp_exit
  | |- wp (gets _) _ _ => apply wp_gets
  | |- wp get _ _ => apply wp_get
  | |- wp (put _) _ _ => apply wp_put
  | |- wp (modify _) _ _ => apply wp_modify
  | |- wp (dropbear_assert _) _ _ => apply wp_assert; intro
  | |- wp (when _ _) _ _ => apply wp_when; intro
  | |- wp (if _ then _ else _) _ _ => apply wp_if; intro
  | |- wp (zoom _ _ _) _ _ => apply wp_zoom
  | |- wp (match ?x with _ => _ end) _ _ => destruct x eqn:?
  end.
Ltac wp_auto := repeat wp_step.

(** ** Total weakest preconditions

    [twp m Q s]: run from [s], [m] returns, and the result and the final state
    satisfy [Q]. *)
Definition twp {S A} (m : M S A) (Q : A → S → Prop) (s : S) : Prop :=
  match m s with
  | Ok (a, s') => Q a s'
  | _ => False
  end.

Section twp_lemmas.
Context {S : Type}.

Lemma twp_iff {A} (m : M S A) Q s : twp m Q s ↔ ∃ a s', m s = Ok (a, s') ∧ Q a s'.
Proof. unfold twp. destruct (m s) as [[a s']| |]; naive_solver. Qed.

Lemma twp_ok {A} (m : M S A) Q s a s' : m s = Ok (a, s') → Q a s' → twp m Q s.
Proof. unfold twp. by intros ->. Qed.

Lemma twp_ret {A} (a : A) Q (s : S) : Q a s → twp (mret a) Q s.
Proof. done. Qed.

Lemma twp_bind {A B} (m : M S A) (f : A → M S B) Q s :
  twp m (λ a s', twp (f a) Q s') s → twp (m ≫= f) Q s.
Proof. unfold twp, mbind, M_bind. by destruct (m s) as [[]| |]. Qed.

Lemma twp_mono {A} (m : M S A) (P Q : A → S → Prop) s :
  twp m P s → (∀ a s', P a s' → Q a s') → twp m Q s.
Proof. unfold twp. destruct (m s) as [[]| |]; auto. Qed.

Lemma twp_gets {A} (f : S → A) Q s : Q (f s) s → twp (gets f) Q s.
Proof. done. Qed.
Lemma twp_get Q (s : S) : Q s s → twp get Q s.
Proof. done. Qed.
Lemma twp_put (s' : S) Q s : Q tt s' → twp (put s') Q s.
Proof. done. Qed.
Lemma twp_modify (f : S → S) Q s : Q tt (f s) → twp (modify f) Q s.
Proof. done. Qed.
Lemma twp_assert (b : bool) Q (s : S) : b = true → Q tt s → twp (dropbear_assert b) Q s.
Proof. by intros ->. Qed.
Lemma twp_lift {A} (o : outcome A) Q (s : S) a : o = Ok a → Q a s → twp (lift o) Q s.
Proof. unfold twp. by intros ->. Qed.
Lemma twp_zoom {T A} (view : S → T) (upd : T → S → S) (m : M T A) Q s :
  twp m (λ a t, Q a (upd t s)) (view s) → twp (zoom view upd m) Q s.
Proof. unfold twp, zoom. by destruct (m (view s)) as [[]| |]. Qed.
Lemma twp_exec {T A B} (m : M T A) (f : T → M S B) Q (t : T) (s : S) :
  twp m (λ _ t', twp (f t') Q s) t → twp (lift (exec m t) ≫= f) Q s.
Proof. unfold twp, exec, lift, mbind, M_bind. cbn. by destruct (m t) as [[]| |]. Qed.
Lemma twp_ext {A} (m m' : M S A) Q s s' : m s = m' s' → twp m' Q s' → twp m Q s.
Proof. unfold twp. by intros ->. Qed.
Lemma twp_elim {A} (m : M S A) Q s a s' : twp m Q s → m s = Ok (a, s') → Q a s'.
Proof. unfold twp. by intros H E; rewrite E in H. Qed.
End twp_lemmas.

(** Conditionals are left alone: the proof says which branch is taken. *)
Ltac twp_step :=
  lazymatch goal with
  | |- twp (mret _) _ _ => apply twp_ret
  | |- twp (_ ≫= _) _ _ => apply twp_bind
  | |- twp (gets _) _ _ => apply twp_gets
  | |- twp get _ _ => apply twp_get
  | |- twp (put _) _ _ => apply twp_put
  | |- twp (modify _) _ _ => apply twp_modify
  | |- twp (zoom _ _ _) _ _ => apply twp_zoom
  end.

(** ** Weakest preconditions with a reason to exit

    [ewp E m Q s]: as [wp], but the process ends only if [E]; [wp] is [ewp True]
    and [twp] is [ewp False]. *)
Definition ewp {S A} (E : Prop) (m : M S A) (Q : A → S → Prop) (s : S) : Prop :=
  match m s with
  | Ok (a, s') => Q a s'
  | Exit _ => E
  | UB _ => False
  end.

Section ewp_lemmas.
Context {S : Type} (E : Prop).

Lemma ewp_wp {A} (m : M S A) Q s : ewp E m Q s → wp m Q s.
Proof. unfold ewp, wp. by destruct (m s) as [[]| |]. Qed.
Lemma ewp_twp {A} (m : M S A) Q s : ¬ E → ewp E m Q s → twp m Q s.
Proof. unfold ewp, twp. by destruct (m s) as [[]| |]. Qed.
Lemma ewp_weaken {A} (E' : Prop) (m : M S A) Q s : (E → E') → ewp E m Q s → ewp E' m Q s.
Proof. unfold ewp. destruct (m s) as [[]| |]; auto. Qed.
Lemma ewp_mono {A} (m : M S A) (P Q : A → S → Prop) s : ewp E m P s → (∀ a s', P a s' → Q a s') → ewp E m Q s.
Proof. unfold ewp. destruct (m s) as [[]| |]; auto. Qed.
Lemma ewp_ok {A} (m : M S A) Q s a s' : m s = Ok (a, s') → Q a s' → ewp E m Q s.
Proof. unfold ewp. by intros ->. Qed.
Lemma ewp_ret {A} (a : A) Q (s : S) : Q a s → ewp E (mret a) Q s.
Proof. done. Qed.
Lemma ewp_bind {A B} (m : M S A) (f : A → M S B) Q s : ewp E m (λ a s', ewp E (f a) Q s') s → ewp E (m ≫= f) Q s.
Proof. unfold ewp, mbind, M_bind. by destruct (m s) as [[]| |]. Qed.
Lemma ewp_exit {A} e Q (s : S) : E → ewp E (@dropbear_exit S A e) Q s.
Proof. done. Qed.
Lemma ewp_get Q (s : S) : Q s s → ewp E get Q s.
Proof. done. Qed.
Lemma ewp_put (s' : S) Q s : Q tt s' → ewp E (put s') Q s.
Proof. done. Qed.
Lemma ewp_modify (f : S → S) Q s : Q tt (f s) → ewp E (modify f) Q s.
Proof. done. Qed.
Lemma ewp_when (b : bool) (m : M S ()) Q s :
  (b = true → ewp E m Q s) → (b = false → Q tt s) → ewp E (when b m) Q s.
Proof. destruct b; cbn; auto. Qed.
Lemma ewp_if {A} (b : bool) (m1 m2 : M S A) Q s :
  (b = true → ewp E m1 Q s) → (b = false → ewp E m2 Q s) → ewp E (if b then m1 else m2) Q s.
Proof. destruct b; auto. Qed.
Lemma ewp_zoom {T A} (view : S → T) (upd : T → S → S) (m : M T A) Q s :
  ewp E m (λ a t, Q a (upd t s)) (view s) → ewp E (zoom view upd m) Q s.
Proof. unfold ewp, zoom. by destruct (m (view s)) as [[]| |]. Qed.
Lemma ewp_lift {A} (o : outcome A) Q (s : S) :
  match o with Ok a => Q a s | Exit _ => E | UB _ => False end → ewp E (lift o) Q s.
Proof. unfold ewp, lift. by destruct o. Qed.
Lemma ewp_exec {T A B} (m : M T A) (f : T → M S B) Q (t : T) (s : S) :
  ewp E m (λ _ t', ewp E (f t') Q s) t → ewp E (lift (exec m t) ≫= f) Q s.
Proof. unfold ewp, exec, lift, mbind, M_bind. cbn. by destruct (m t) as [[]| |]. Qed.
Lemma ewp_run {T A} (m : M T A) Q (t : T) (s : S) : ewp E m (λ a t', Q (a, t') s) t → ewp E (lift (m t)) Q s.
Proof. unfold ewp, lift. by destruct (m t) as [[]| |]. Qed.
End ewp_lemmas.

(** As [twp_step]: conditionals are left alone. *)
Ltac ewp_step :=
  lazymatch goal with
  | |- ewp _ (mret _) _ _ => apply ewp_ret
  | |- ewp _ (_ ≫= _) _ _ => apply ewp_bind
  | |- ewp _ get _ _ => apply ewp_get
  | |- ewp _ (put _) _ _ => apply ewp_put
  | |- ewp _ (modify _) _ _ => apply ewp_modify
  | |- ewp _ (zoom _ _ _) _ _ => apply ewp_zoom
  end.

(** The same for a routine without state. *)
Definition owp {A} (P : A → Prop) (r : outcome A) : Prop := match r with Ok a => P a | Exit _ => True | UB _ => False end.
Lemma owp_bind {A B} (P : B → Prop) (r : outcome A) (f : A → outcome B) : owp (λ a, owp P (f a)) r → owp P (r ≫= f).
Proof. by destruct r. Qed.
Lemma owp_mono {A} (P Q : A → Prop) (r : outcome A) : owp P r → (∀ a, P a → Q a) → owp Q r.
Proof. destruct r; cbn; auto. Qed.

(** ** Machine integers *)

(** [unsigned int] is 32 bits wide on every ABI the application is built for. *)
Definition U32 : Z := 4294967296.
Definition u32 (x : Z) : Z := x mod U32.
(** Conversion to [int] (two's complement, as the compilers define it). *)
Definition i32 (x : Z) : Z :=
  let y := u32 x in if y <? 2147483648 then y else y - U32.
Definition in_i32 (x : Z) : bool := (-2147483648 <=? x) && (x <=? 2147483647).
(** Signed addition: an overflow is undefined. *)
Definition sadd {S} (x y : Z) : M S Z :=
  if in_i32 (x + y) then mret (x + y) else undefined "signed overflow".
Definition u8 (x : Z) : Z := x mod 256.

Definition is_byte (b : Z) : Prop := 0 ≤ b < 256.
#[global] Instance is_byte_dec b : Decision (is_byte b).
Proof. unfold is_byte. apply _. Defined.

Create HintDb ssh.

Lemma u32_small x : 0 ≤ x < U32 → u32 x = x.
Proof. apply Z.mod_small. Qed.
Lemma u32_range x : 0 ≤ u32 x < U32.
Proof. apply Z.mod_pos_bound. done. Qed.
Lemma i32_small x : 0 ≤ x < 2147483648 → i32 x = x.
Proof. intros. unfold i32. rewrite u32_small by (unfold U32; lia). case_match; lia. Qed.
Lemma u8_small x : is_byte x → u8 x = x.
Proof. apply Z.mod_small. Qed.
Lemma u8_byte x : is_byte (u8 x).
Proof. apply Z.mod_pos_bound. done. Qed.
Lemma sadd_ok {S} x y (s : S) :
  -2147483648 ≤ x + y ≤ 2147483647 → sadd x y s = Ok (x + y, s).
Proof. intros. unfold sadd, in_i32. case_match; [done|]. lia. Qed.
#[export] Hint Resolve u8_byte u32_range : ssh.

(** Split on the first conditional of the goal. *)
Ltac case_if :=
  match goal with |- context [if ?c then _ else _] => destruct c eqn:? end.

(** Turn the boolean tests of the code into propositions [lia] reads. *)
Ltac bool_lia :=
  repeat match goal with
  | H : _ && _ = true |- _ => apply andb_true_iff in H as [??]
  | H : _ || _ = false |- _ => apply orb_false_iff in H as [??]
  | H : _ || _ = true |- _ => apply orb_true_iff in H
  | H : negb _ = true |- _ => apply negb_true_iff in H
  | H : negb _ = false |- _ => apply negb_false_iff in H
  end; rewrite ?Z.ltb_lt, ?Z.leb_le, ?Z.ltb_ge, ?Z.leb_gt, ?Z.eqb_eq, ?Z.eqb_neq, ?Z.gtb_lt,
       ?Z.gtb_ltb in *; unfold U32 in *; try lia.

(** ** Byte sequences *)

Abbreviation zlen l := (Z.of_nat (length l)).

(** [LOAD32H] and [STORE32H] of libtomcrypt's [tomcrypt_macros.h]: a 32-bit
    word in network byte order. *)
Definition STORE32H (x : Z) : list Z :=
  [Z.land (Z.shiftr x 24) 255; Z.land (Z.shiftr x 16) 255;
   Z.land (Z.shiftr x 8) 255; Z.land x 255].
Definition LOAD32H (y : list Z) : Z :=
  match y with
  | [a; b; c; d] =>
      Z.lor (Z.lor (Z.shiftl (Z.land a 255) 24) (Z.shiftl (Z.land b 255) 16))
            (Z.lor (Z.shiftl (Z.land c 255) 8) (Z.land d 255))
  | _ => 0
  end.

Lemma land_255 x : Z.land x 255 = x mod 256.
Proof. change 255 with (Z.ones 8). by rewrite Z.land_ones. Qed.

Lemma STORE32H_bytes x : Forall is_byte (STORE32H x).
Proof. unfold STORE32H. rewrite !land_255. repeat constructor; apply Z.mod_pos_bound; done. Qed.

Lemma STORE32H_length x : length (STORE32H x) = 4%nat.
Proof. done. Qed.

Lemma lor_add a b n : 0 ≤ n → 0 ≤ b < 2 ^ n → Z.lor (Z.shiftl a n) b = a * 2 ^ n + b.
Proof.
  intros Hn Hb. rewrite Z.shiftl_mul_pow2 by done.
  rewrite <- Z.lxor_lor, <- Z.add_nocarry_lxor; [done| |].
  all: apply Z.bits_inj'; intros k Hk; rewrite Z.land_spec, Z.bits_0;
    destruct (Z.lt_ge_cases k n);
    [by rewrite Z.mul_pow2_bits_low|
     rewrite <- (Z.mod_small b (2 ^ n)), Z.mod_pow2_bits_high, andb_false_r by lia; done].
Qed.

Lemma LOAD32H_val a b c d :
  is_byte a → is_byte b → is_byte c → is_byte d →
  LOAD32H [a; b; c; d] = ((a * 256 + b) * 256 + c) * 256 + d.
Proof.
  unfold is_byte. intros. unfold LOAD32H. rewrite !land_255, !Z.mod_small by lia.
  rewrite (lor_add c d 8) by lia.
  replace (Z.shiftl a 24) with (Z.shiftl (Z.shiftl a 8) 16) by (by rewrite Z.shiftl_shiftl).
  rewrite <- Z.shiftl_lor, (lor_add a b 8), lor_add by lia. lia.
Qed.

Lemma STORE32H_val x : 0 ≤ x < U32 →
  STORE32H x = [x / 16777216; (x / 65536) mod 256; (x / 256) mod 256; x mod 256].
Proof.
  intros H. unfold STORE32H, U32 in *. rewrite !land_255, !Z.shiftr_div_pow2 by lia.
  change (2 ^ 24) with 16777216. change (2 ^ 16) with 65536. change (2 ^ 8) with 256.
  repeat f_equal. apply Z.mod_small. split; [apply Z.div_pos; lia|apply Z.div_lt_upper_bound; lia].
Qed.

Lemma LOAD32H_STORE32H x : 0 ≤ x < U32 → LOAD32H (STORE32H x) = x.
Proof.
  intros H. pose proof (STORE32H_bytes x) as Hb. rewrite STORE32H_val by done.
  rewrite STORE32H_val in Hb by done.
  unfold U32 in *. rewrite !Forall_cons in Hb. destruct Hb as (?&?&?&?&_).
  rewrite LOAD32H_val by done.
  Z.to_euclidean_division_equations. lia.
Qed.

Lemma LOAD32H_range y : 0 ≤ LOAD32H y < U32.
Proof.
  destruct y as [|a [|b [|c [|d [|]]]]]; try (unfold U32; cbn; lia).
  assert (LOAD32H [a; b; c; d] = LOAD32H [u8 a; u8 b; u8 c; u8 d]) as ->.
  { unfold LOAD32H, u8. rewrite !land_255. by rewrite !Z.mod_mod. }
  rewrite LOAD32H_val by apply u8_byte.
  pose proof (u8_byte a); pose proof (u8_byte b); pose proof (u8_byte c); pose proof (u8_byte d).
  unfold is_byte, U32 in *. lia.
Qed.
#[export] Hint Resolve STORE32H_bytes : ssh.

Lemma STORE32H_LOAD32H y : length y = 4%nat → Forall is_byte y → STORE32H (LOAD32H y) = y.
Proof.
  intros Hl Hb. rewrite STORE32H_val by apply LOAD32H_range. destruct y as [|a [|b [|c [|d [|]]]]]; try done.
  rewrite !Forall_cons in Hb. destruct Hb as (?&?&?&?&_). rewrite LOAD32H_val by done. unfold is_byte in *.
  repeat f_equal; Z.to_euclidean_division_equations; lia.
Qed.

(** ** Reading and writing an allocation of bytes

    An allocation is the list of its bytes; an access outside it is
    undefined. *)
Definition mem_load (data : list Z) (off n : Z) : outcome (list Z) :=
  if (0 <=? off) && (0 <=? n) && (off + n <=? zlen data)
  then Ok (take (Z.to_nat n) (drop (Z.to_nat off) data))
  else UB "read outside the allocation".

Definition mem_store (data : list Z) (off : Z) (bs : list Z) : outcome (list Z) :=
  if (0 <=? off) && (off + zlen bs <=? zlen data)
  then Ok (take (Z.to_nat off) data ++ bs ++ drop (Z.to_nat (off + zlen bs)) data)
  else UB "write outside the allocation".

Lemma mem_load_ok data off n : 0 ≤ off → 0 ≤ n → off + n ≤ zlen data →
  mem_load data off n = Ok (take (Z.to_nat n) (drop (Z.to_nat off) data)).
Proof. intros. unfold mem_load. case_match; [done|]. lia. Qed.

Lemma mem_store_ok data off bs : 0 ≤ off → off + zlen bs ≤ zlen data →
  mem_store data off bs =
  Ok (take (Z.to_nat off) data ++ bs ++ drop (Z.to_nat (off + zlen bs)) data).
Proof. intros. unfold mem_store. case_match; [done|]. lia. Qed.

(** ** C strings

    A C string is carried as the bytes in front of its terminator or of the
    end of the object; [cstr] cuts it at its first NUL. *)
Fixpoint cstr (l : list Z) : list Z :=
  match l with
  | [] => []
  | c :: l => if c =? 0 then [] else c :: cstr l
  end.
Definition strlen (l : list Z) : Z := zlen (cstr l).
Definition strcmp_eq (a b : list Z) : bool := bool_decide (cstr a = cstr b).
(** [strncmp(a, b, n) == 0]: compares at most [n] characters and stops at a
    terminator. *)
Fixpoint strncmp_eq (n : nat) (a b : list Z) : bool :=
  match n with
  | O => true
  | S n =>
      let ca := default 0 (head a) in
      let cb := default 0 (head b) in
      if ca =? cb then (if ca =? 0 then true else strncmp_eq n (tail a) (tail b)) else false
  end.
Definition bytes_of_string (s : string) : list Z :=
  (λ a, Z.of_N (Ascii.N_of_ascii a)) <$> String.list_ascii_of_string s.
Arguments bytes_of_string s%_string.

Lemma bytes_of_string_bytes s : Forall is_byte (bytes_of_string s).
Proof.
  unfold bytes_of_string. apply Forall_fmap, Forall_true. intros a. unfold is_byte; cbn.
  pose proof (Ascii.N_ascii_bounded a). lia.
Qed.
#[export] Hint Resolve bytes_of_string_bytes : ssh.

Lemma cstr_id l : Forall (λ c, c ≠ 0) l → cstr l = l.
Proof. induction 1; cbn; [done|]. case_match; [lia|]. by f_equal. Qed.

Lemma strlen_le l : 0 ≤ strlen l ≤ zlen l.
Proof. unfold strlen. induction l as [|c l IH]; cbn; [lia|]. case_if; cbn; lia. Qed.
Lemma cstr_bytes l : Forall is_byte l → Forall is_byte (cstr l).
Proof. induction 1 as [|c l Hc Hl IH]; cbn; [done|]. case_if; by constructor. Qed.
Lemma cstr_take l : cstr l = take (length (cstr l)) l.
Proof. induction l as [|c l IH]; cbn; [done|]. case_if; cbn; [done|]. by f_equal. Qed.

(** ** Lists *)
Section lists.
Context {A : Type}.
Implicit Types l : list A.

Lemma take_drop_split l (i n : nat) :
  take i l ++ take n (drop i l) ++ drop (i + n) l = l.
Proof. rewrite <- drop_drop, take_drop. apply take_drop. Qed.

Lemma Forall_take_drop (P : A → Prop) l (i n : nat) :
  Forall P l → Forall P (take n (drop i l)).
Proof. intros. by apply Forall_take, Forall_drop. Qed.

Lemma splice_length l bs (i : nat) :
  (i + length bs ≤ length l)%nat →
  length (take i l ++ bs ++ drop (i + length bs) l) = length l.
Proof. intros. rewrite !length_app, length_take, length_drop. lia. Qed.

Lemma Forall_splice (P : A → Prop) l bs (i j : nat) :
  Forall P l → Forall P bs → Forall P (take i l ++ bs ++ drop j l).
Proof. intros. rewrite !Forall_app. auto using Forall_take, Forall_drop. Qed.
End lists.
#[export] Hint Resolve Forall_take_drop Forall_splice Forall_take Forall_drop Forall_app_2 : ssh.
