(* ===== verification/Buffer.v ===== *)
(** * Packet buffers ([dropbear/buffer.c], [dropbear/buffer.h])

    The state of a buffer, one definition per routine of [buffer.c] over the
    state-and-error monad of the prelude, the well-formedness invariant, the
    exact behaviour of every routine on a well-formed buffer, and the codec
    interface through which the message handlers use buffers. *)
From S2P Require Import Prelude.

(** ** State: [struct buf].  [buf_data] is the allocation. *)
Record buffer := mkBuf {
  buf_data : list Z;
  buf_len : Z;   (* the used size *)
  buf_pos : Z;
  buf_size : Z   (* the memory size *)
}.
Definition set_data (d : list Z) (b : buffer) := mkBuf d (buf_len b) (buf_pos b) (buf_size b).
Definition set_len (n : Z) (b : buffer) := mkBuf (buf_data b) n (buf_pos b) (buf_size b).
Definition set_pos (n : Z) (b : buffer) := mkBuf (buf_data b) (buf_len b) n (buf_size b).

Definition BUF_MAX_INCR : Z := 1000000000.
Definition BUF_MAX_SIZE : Z := 1000000000.
Definition BUF_MAX_MPINT : Z := 8240 / 8.
Definition MAX_STRING_LEN : Z := Z.max 9000 2400.

(** Access through a pointer into the allocation of the buffer. *)
Definition buf_load (off n : Z) : M buffer (list Z) :=
  b ← get; lift (mem_load (buf_data b) off n).
Definition buf_store (off : Z) (bs : list Z) : M buffer () :=
  b ← get; d ← lift (mem_store (buf_data b) off bs); put (set_data d b).

(** ** Operations *)

(** [m_malloc] returns zeroed memory. *)
Definition buf_new (size : Z) : outcome buffer :=
  if size >? BUF_MAX_SIZE then Exit "buf->size too big"
  else Ok (mkBuf (replicate (Z.to_nat size) 0) 0 0 size).

Definition buf_burn : M buffer () :=
  b ← get; put (set_data (replicate (length (buf_data b)) 0) b).

(** [m_realloc] keeps the old contents up to the new size; [junk] is what the
    allocator leaves in the new part. *)
Definition buf_resize (junk : nat → Z) (newsize : Z) : M buffer () :=
  if newsize >? BUF_MAX_SIZE then dropbear_exit "buf->size too big"
  else b ← get;
       let n := Z.to_nat newsize in
       let old := length (buf_data b) in
       put (mkBuf (take n (buf_data b) ++ (junk <$> seq old (n - old)))
              (Z.min newsize (buf_len b)) (Z.min newsize (buf_pos b)) newsize).

Definition buf_newcopy (b : buffer) : outcome buffer :=
  ret ← buf_new (buf_len b);
  if buf_len b >? 0
  then src ← mem_load (buf_data b) 0 (buf_len b);
       d ← mem_store (buf_data ret) 0 src;
       mret (set_data d (set_len (buf_len b) ret))
  else mret (set_len (buf_len b) ret).

Definition buf_setlen (len : Z) : M buffer () :=
  b ← get;
  if len >? buf_size b then dropbear_exit "Bad buf_setlen"
  else put (set_pos (Z.min (buf_pos b) len) (set_len len b)).

Definition buf_incrlen (incr : Z) : M buffer () :=
  b ← get;
  if (incr >? BUF_MAX_INCR) || (u32 (buf_len b + incr) >? buf_size b)
  then dropbear_exit "Bad buf_incrlen"
  else put (set_len (u32 (buf_len b + incr)) b).

Definition buf_setpos (pos : Z) : M buffer () :=
  b ← get;
  if pos >? buf_len b then dropbear_exit "Bad buf_setpos" else put (set_pos pos b).

Definition buf_incrwritepos (incr : Z) : M buffer () :=
  b ← get;
  if (incr >? BUF_MAX_INCR) || (u32 (buf_pos b + incr) >? buf_size b)
  then dropbear_exit "Bad buf_incrwritepos"
  else let p := u32 (buf_pos b + incr) in
       put (set_len (if p >? buf_len b then p else buf_len b) (set_pos p b)).

(** [incr] is an [int]: callers that pass an [unsigned int] convert it. *)
Definition buf_incrpos (incr : Z) : M buffer () :=
  b ← get;
  if (incr >? BUF_MAX_INCR) || (incr <? - BUF_MAX_INCR)
  then dropbear_exit "Bad buf_incrpos"
  else p ← sadd (i32 (buf_pos b)) incr;
       if (u32 p >? buf_len b) || (p <? 0)
       then dropbear_exit "Bad buf_incrpos"
       else put (set_pos (u32 (buf_pos b + incr)) b).

Definition buf_getbyte : M buffer Z :=
  b ← get;
  if buf_pos b >=? buf_len b then dropbear_exit "Bad buf_getbyte"
  else c ← buf_load (buf_pos b) 1;
       put (set_pos (u32 (buf_pos b + 1)) b);;
       mret (default 0 (head c)).

Definition buf_getbool : M buffer Z :=
  b ← buf_getbyte; mret (if b =? 0 then 0 else 1).

Definition buf_putbyte (val : Z) : M buffer () :=
  b ← get;
  when (buf_pos b >=? buf_len b) (buf_incrlen 1);;
  b ← get;
  buf_store (buf_pos b) [val];;
  modify (λ b, set_pos (u32 (buf_pos b + 1)) b).

(** Pointers into the buffer are offsets into its allocation. *)
Definition buf_getptr (len : Z) : M buffer Z :=
  b ← get;
  if (len >? BUF_MAX_INCR) || (u32 (buf_pos b + len) >? buf_len b)
  then dropbear_exit "Bad buf_getptr" else mret (buf_pos b).

Definition buf_getwriteptr (len : Z) : M buffer Z :=
  b ← get;
  if (len >? BUF_MAX_INCR) || (u32 (buf_pos b + len) >? buf_size b)
  then dropbear_exit "Bad buf_getwriteptr" else mret (buf_pos b).

Definition buf_getint : M buffer Z :=
  p ← buf_getptr 4;
  y ← buf_load p 4;
  buf_incrpos 4;;
  mret (LOAD32H y).

Definition buf_putint (val : Z) : M buffer () :=
  p ← buf_getwriteptr 4;
  buf_store p (STORE32H val);;
  buf_incrwritepos 4.

Definition buf_putbytes (bytes : list Z) (len : Z) : M buffer () :=
  p ← buf_getwriteptr len;
  src ← lift (mem_load bytes 0 len);
  buf_store p src;;
  buf_incrwritepos len.

(** The returned C string is the [len] bytes followed by a terminator. *)
Definition buf_getstring : M buffer (list Z) :=
  len ← buf_getint;
  if len >? MAX_STRING_LEN then dropbear_exit "String too long"
  else src ← buf_getptr len;
       ret ← buf_load src len;
       buf_incrpos (i32 len);;
       mret ret.

Definition buf_getstringbuf : M buffer buffer :=
  len ← buf_getint;
  if len >? MAX_STRING_LEN then dropbear_exit "String too long"
  else ret ← lift (buf_new len);
       src ← buf_getptr len;
       bs ← buf_load src len;
       ret ← lift (exec (p ← buf_getwriteptr len; buf_store p bs) ret);
       buf_incrpos (i32 len);;
       ret ← lift (exec (buf_incrlen len) ret);
       mret ret.

Definition buf_eatstring : M buffer () :=
  n ← buf_getint; buf_incrpos (i32 n).

Definition buf_putstring (str : list Z) (len : Z) : M buffer () :=
  buf_putint len;;
  buf_putbytes str len.

Definition buf_putbufstring (s : buffer) : M buffer () :=
  buf_putstring (buf_data s) (buf_len s).

(** ** Multiple-precision integers ([libtommath])

    An [mp_int] is its sign and its [used] digits, least significant first;
    [DIGIT_BIT] is 28 or 60, depending on the ABI. *)
Record mp_int := mkMp { mp_neg : bool; mp_dp : list Z }.
Definition mp_used (a : mp_int) : Z := zlen (mp_dp a).

Section mp.
Variable DIGIT_BIT : Z.

Fixpoint dp_val (dp : list Z) : Z :=
  match dp with [] => 0 | d :: dp => d + 2 ^ DIGIT_BIT * dp_val dp end.
Definition mp_val (a : mp_int) : Z := dp_val (mp_dp a).

(** [while (q > 0) { ++r; q >>= 1; }]: a digit has at most [DIGIT_BIT] bits. *)
Fixpoint count_bits_loop (fuel : nat) (r q : Z) : Z :=
  match fuel with
  | O => r
  | S fuel => if q >? 0 then count_bits_loop fuel (r + 1) (Z.shiftr q 1) else r
  end.
Definition mp_count_bits (a : mp_int) : Z :=
  match last (mp_dp a) with
  | None => 0
  | Some q => count_bits_loop (Z.to_nat DIGIT_BIT) ((mp_used a - 1) * DIGIT_BIT) q
  end.

(** The copy [t] is carried by its value: [t.dp[0]] is the value modulo
    [2^DIGIT_BIT] and [mp_div_2d(t, 8)] shifts it right by a byte. *)
Fixpoint to_bin_loop (fuel : nat) (t : Z) : list Z :=
  match fuel with
  | O => []
  | S fuel =>
      if t =? 0 then []
      else Z.land (t mod 2 ^ DIGIT_BIT) 255 :: to_bin_loop fuel (Z.shiftr t 8)
  end.
Definition mp_to_unsigned_bin (a : mp_int) : list Z :=
  reverse (to_bin_loop (Z.to_nat (mp_used a * DIGIT_BIT)) (mp_val a)).

Definition mp_zero : mp_int := mkMp false [].

(** The digits of a value after [mp_clamp]. *)
Fixpoint mp_digits (fuel : nat) (v : Z) : list Z :=
  match fuel with
  | O => []
  | S fuel =>
      if v =? 0 then [] else v mod 2 ^ DIGIT_BIT :: mp_digits fuel (v / 2 ^ DIGIT_BIT)
  end.
(** The loop shifts the number by a byte and ors the next byte in. *)
Definition mp_read_unsigned_bin (b : list Z) : mp_int :=
  mkMp false (mp_digits (length b) (foldl (λ a c, Z.lor (Z.shiftl a 8) c) 0 b)).

Definition buf_putmpint (mp : mp_int) : M buffer () :=
  if mp_neg mp then dropbear_exit "negative bignum"
  else
    let zero := (mp_used mp =? 1) && (default 0 (head (mp_dp mp)) =? 0) in
    let bits := mp_count_bits mp in
    let pad := if zero then 0 else (if bits mod 8 =? 0 then 1 else 0) in
    let len := if zero then 0 else bits / 8 + 1 in
    buf_putint len;;
    when (len >? 0)
      (when (negb (pad =? 0)) (buf_putbyte 0);;
       p ← buf_getwriteptr (u32 (len - pad));
       buf_store p (mp_to_unsigned_bin mp);;
       buf_incrwritepos (u32 (len - pad))).

(** [None] is [DROPBEAR_FAILURE]. *)
Definition buf_getmpint : M buffer (option mp_int) :=
  len ← buf_getint;
  if len =? 0 then mret (Some mp_zero)
  else if len >? BUF_MAX_MPINT then mret None
  else
    p ← buf_getptr 1;
    c ← buf_load p 1;
    if negb (Z.land (default 0 (head c)) (Z.shiftl 1 7) =? 0) then mret None
    else
      p ← buf_getptr len;
      b ← buf_load p len;
      buf_incrpos (i32 len);;
      mret (Some (mp_read_unsigned_bin b)).
End mp.

(** ** The invariant *)
Record buf_wf (b : buffer) : Prop := {
  wf_pos : 0 ≤ buf_pos b ≤ buf_len b;
  wf_len : buf_len b ≤ buf_size b;
  wf_size : buf_size b ≤ BUF_MAX_SIZE;
  wf_data : zlen (buf_data b) = buf_size b;
  wf_bytes : Forall is_byte (buf_data b)
}.

Ltac buf_facts :=
  repeat match goal with
  | H : buf_wf ?b |- _ =>
      pose proof (wf_pos b H); pose proof (wf_len b H); pose proof (wf_size b H);
      pose proof (wf_data b H); pose proof (wf_bytes b H); revert H
  end; intros; unfold BUF_MAX_SIZE, BUF_MAX_INCR, U32 in *.

(** Unfold the primitive steps of the monad. *)
Ltac run := unfold mbind, M_bind, mret, M_ret, get, gets, put, modify, lift, when,
  dropbear_exit, undefined; cbn -[u32 i32 sadd Z.to_nat take drop].
Ltac split_tests :=
  repeat match goal with
  | |- context [if ?c then _ else _] => let E := fresh "E" in destruct c eqn:E
  end.
(** Decide the range checks of the code with [lia]. *)
Ltac tests := rewrite ?u32_small, ?i32_small by (unfold U32; lia);
  split_tests; rewrite ?u32_small, ?i32_small in * by (unfold U32; lia);
  bool_lia.

(** The exact behaviour of the range checks: on a well-formed buffer the
    32-bit additions do not wrap, so each check is the comparison of the
    mathematical sums. *)
Section checks.
Context (b : buffer) (Hwf : buf_wf b).

Lemma buf_getptr_eq n : 0 ≤ n < U32 →
  buf_getptr n b = if buf_pos b + n <=? buf_len b then Ok (buf_pos b, b)
                   else Exit "Bad buf_getptr".
Proof. intros. unfold buf_getptr. buf_facts. run. destruct (Z.gtb_spec n 1000000000); cbn; tests; done. Qed.

Lemma buf_getwriteptr_eq n : 0 ≤ n < U32 →
  buf_getwriteptr n b = if buf_pos b + n <=? buf_size b then Ok (buf_pos b, b)
                        else Exit "Bad buf_getwriteptr".
Proof. intros. unfold buf_getwriteptr. buf_facts. run. destruct (Z.gtb_spec n 1000000000); cbn; tests; done. Qed.

Lemma buf_incrlen_eq n : 0 ≤ n < U32 →
  buf_incrlen n b = if buf_len b + n <=? buf_size b then Ok (tt, set_len (buf_len b + n) b)
                    else Exit "Bad buf_incrlen".
Proof. intros. unfold buf_incrlen. buf_facts. run. destruct (Z.gtb_spec n 1000000000); cbn; tests; done. Qed.

Lemma buf_incrwritepos_eq n : 0 ≤ n < U32 →
  buf_incrwritepos n b =
  if buf_pos b + n <=? buf_size b
  then Ok (tt, set_len (Z.max (buf_len b) (buf_pos b + n)) (set_pos (buf_pos b + n) b))
  else Exit "Bad buf_incrwritepos".
Proof.
  intros. unfold buf_incrwritepos. buf_facts. run. destruct (Z.gtb_spec n 1000000000); cbn; tests.
  all: try done; repeat f_equal; lia.
Qed.

Lemma buf_incrpos_eq n : -2147483648 ≤ n ≤ 2147483647 →
  buf_incrpos n b =
  if (0 <=? buf_pos b + n) && (buf_pos b + n <=? buf_len b)
  then Ok (tt, set_pos (buf_pos b + n) b) else Exit "Bad buf_incrpos".
Proof.
  intros. unfold buf_incrpos. buf_facts. run.
  destruct (Z.gtb_spec n 1000000000); cbn; [tests; done|].
  destruct (Z.ltb_spec n (- (1000000000))); cbn; [tests; done|].
  rewrite i32_small by lia. rewrite sadd_ok by lia.
  destruct (Z.ltb_spec (buf_pos b + n) 0); [rewrite orb_true_r; tests; done|].
  cbn. tests; done.
Qed.

Lemma buf_load_eq n : 0 ≤ n → buf_pos b + n ≤ buf_size b →
  buf_load (buf_pos b) n b =
  Ok (take (Z.to_nat n) (drop (Z.to_nat (buf_pos b)) (buf_data b)), b).
Proof. intros. unfold buf_load. buf_facts. run. rewrite mem_load_ok by lia. done. Qed.

Lemma buf_store_eq off bs : 0 ≤ off → off + zlen bs ≤ buf_size b →
  buf_store off bs b =
  Ok (tt, set_data (take (Z.to_nat off) (buf_data b) ++ bs ++
                    drop (Z.to_nat (off + zlen bs)) (buf_data b)) b).
Proof. intros. unfold buf_store. buf_facts. run. rewrite mem_store_ok by lia. done. Qed.

Lemma buf_wf_store off bs : 0 ≤ off → off + zlen bs ≤ buf_size b → Forall is_byte bs →
  buf_wf (set_data (take (Z.to_nat off) (buf_data b) ++ bs ++
                    drop (Z.to_nat (off + zlen bs)) (buf_data b)) b).
Proof.
  intros. buf_facts. split; cbn; auto with ssh.
  replace (Z.to_nat (off + zlen bs)) with (Z.to_nat off + length bs)%nat by lia.
  rewrite splice_length; lia.
Qed.

Lemma buf_wf_set_len n : buf_pos b ≤ n ≤ buf_size b → buf_wf (set_len n b).
Proof. intros. buf_facts. split; cbn; auto; lia. Qed.

Lemma buf_wf_set_pos n : 0 ≤ n ≤ buf_len b → buf_wf (set_pos n b).
Proof. intros. buf_facts. split; cbn; auto; lia. Qed.
End checks.

(** ** Views: the unread bytes, the contents, and the two ways a buffer moves *)
Definition buf_content (b : buffer) : list Z := take (Z.to_nat (buf_len b)) (buf_data b).
Definition buf_rest (b : buffer) : list Z :=
  take (Z.to_nat (buf_len b - buf_pos b)) (drop (Z.to_nat (buf_pos b)) (buf_data b)).
Definition buf_advance (b : buffer) (n : Z) : buffer := set_pos (buf_pos b + n) b.
Definition buf_append (b : buffer) (bs : list Z) : buffer :=
  let e := buf_len b + zlen bs in
  mkBuf (take (Z.to_nat (buf_len b)) (buf_data b) ++ bs ++ drop (Z.to_nat e) (buf_data b))
    e e (buf_size b).

Section views.
Context (b : buffer) (Hwf : buf_wf b).

Lemma buf_rest_length : zlen (buf_rest b) = buf_len b - buf_pos b.
Proof. unfold buf_rest. buf_facts. rewrite length_take, length_drop. lia. Qed.

Lemma buf_rest_bytes : Forall is_byte (buf_rest b).
Proof. unfold buf_rest. buf_facts. auto with ssh. Qed.

Lemma buf_wf_advance n : 0 ≤ buf_pos b + n → buf_pos b + n ≤ buf_len b → buf_wf (buf_advance b n).
Proof. buf_facts. split; cbn; auto; lia. Qed.

Lemma buf_rest_advance n : 0 ≤ n → buf_pos b + n ≤ buf_len b →
  buf_rest (buf_advance b n) = drop (Z.to_nat n) (buf_rest b).
Proof.
  intros. unfold buf_rest, buf_advance; cbn. buf_facts.
  rewrite skipn_firstn_comm, drop_drop.
  f_equal; [lia|]. f_equal. lia.
Qed.

Lemma buf_rest_load n : 0 ≤ n → buf_pos b + n ≤ buf_len b →
  take (Z.to_nat n) (drop (Z.to_nat (buf_pos b)) (buf_data b)) = take (Z.to_nat n) (buf_rest b).
Proof. intros. unfold buf_rest. rewrite take_take. f_equal. lia. Qed.

Lemma buf_content_rest : buf_content b = take (Z.to_nat (buf_pos b)) (buf_data b) ++ buf_rest b.
Proof.
  unfold buf_content, buf_rest. buf_facts.
  replace (Z.to_nat (buf_len b)) with (Z.to_nat (buf_pos b) + Z.to_nat (buf_len b - buf_pos b))%nat by lia.
  by rewrite take_take_drop.
Qed.

Lemma buf_wf_append bs : Forall is_byte bs → buf_len b + zlen bs ≤ buf_size b →
  buf_wf (buf_append b bs).
Proof.
  intros Hbs Hfit. buf_facts. unfold buf_append. split; cbn; [lia|lia|unfold BUF_MAX_SIZE; lia| |auto with ssh].
  replace (Z.to_nat (buf_len b + zlen bs)) with (Z.to_nat (buf_len b) + length bs)%nat by lia.
  rewrite splice_length; lia.
Qed.

Lemma buf_content_append bs : buf_len b + zlen bs ≤ buf_size b →
  buf_content (buf_append b bs) = buf_content b ++ bs.
Proof.
  intros. unfold buf_content, buf_append; cbn. buf_facts.
  rewrite app_assoc, take_app_le by (rewrite length_app, length_take; lia).
  rewrite take_ge; [done|]. rewrite length_app, length_take; lia.
Qed.

Lemma buf_append_append xs ys : buf_len b + zlen xs + zlen ys ≤ buf_size b →
  buf_append (buf_append b xs) ys = buf_append b (xs ++ ys).
Proof.
  intros. unfold buf_append; cbn. buf_facts. rewrite !length_app.
  replace (buf_len b + Z.of_nat (length xs + length ys)) with (buf_len b + zlen xs + zlen ys) by lia.
  f_equal.
  rewrite (app_assoc (take (Z.to_nat (buf_len b)) (buf_data b)) xs).
  rewrite take_app_le by (rewrite length_app, length_take; lia).
  rewrite take_ge by (rewrite length_app, length_take; lia).
  rewrite drop_app_ge by (rewrite length_app, length_take; lia).
  rewrite drop_drop, length_app, length_take, <- !app_assoc.
  do 3 f_equal. f_equal. lia.
Qed.
End views.

(** ** Readers refine parsers of the unread bytes

    [Reader op spec]: on a well-formed buffer, [op] returns exactly when the
    parser [spec] accepts the unread bytes, with the parser's result; it moves
    the position past what the parser consumed and changes nothing else.
    Otherwise it ends the process. *)
Definition parser (A : Type) := list Z → option (A * list Z).
Class Reader {A} (op : M buffer A) (spec : parser A) : Prop :=
  reader_refines : ∀ b, buf_wf b →
    match spec (buf_rest b) with
    | Some (v, tl) =>
        ∃ n, 0 ≤ n ∧ buf_pos b + n ≤ buf_len b ∧ tl = drop (Z.to_nat n) (buf_rest b) ∧
             op b = Ok (v, buf_advance b n)
    | None => ∃ e, op b = Exit e
    end.

Definition p_ret {A} (a : A) : parser A := λ l, Some (a, l).
Definition p_bind {A B} (p : parser A) (f : A → parser B) : parser B :=
  λ l, '(a, l) ← p l; f a l.
Definition p_fail {A} : parser A := λ _, None.
(** The next [n] bytes. *)
Definition p_bytes (n : Z) : parser (list Z) := λ l,
  if n <=? zlen l then Some (take (Z.to_nat n) l, drop (Z.to_nat n) l) else None.
Definition p_byte : parser Z := λ l,
  match l with [] => None | c :: l => Some (c, l) end.
Definition p_bool : parser Z := p_bind p_byte (λ c, p_ret (if c =? 0 then 0 else 1)).
Definition p_int : parser Z := p_bind (p_bytes 4) (λ y, p_ret (LOAD32H y)).
Definition p_string : parser (list Z) :=
  p_bind p_int (λ n, if n >? MAX_STRING_LEN then p_fail else p_bytes n).

Lemma buf_advance_0 b : buf_advance b 0 = b.
Proof. destruct b. unfold buf_advance, set_pos; cbn. by rewrite Z.add_0_r. Qed.
Lemma buf_advance_advance b n m : buf_advance (buf_advance b n) m = buf_advance b (n + m).
Proof. unfold buf_advance, set_pos; cbn. by rewrite Z.add_assoc. Qed.

#[global] Instance reader_ret {A} (a : A) : Reader (mret a) (p_ret a).
Proof.
  intros b Hwf. exists 0. buf_facts. rewrite buf_advance_0. repeat split; try lia.
Qed.

#[global] Instance reader_exit {A} e : Reader (@dropbear_exit buffer A e) p_fail.
Proof. intros b Hwf. by exists e. Qed.

(** Sequencing; [P] holds of every value the first parser returns. *)
Lemma reader_bind_post {A B} (P : A → Prop) (m : M buffer A) (f : A → M buffer B) p q :
  Reader m p → (∀ l a tl, p l = Some (a, tl) → P a) →
  (∀ a, P a → Reader (f a) (q a)) → Reader (m ≫= f) (p_bind p q).
Proof.
  intros Hm HP Hf b Hwf. specialize (Hm b Hwf). unfold p_bind.
  destruct (p (buf_rest b)) as [[a tl]|] eqn:Ep; cbn.
  - destruct Hm as (n & Hn & Hfit & -> & Em).
    assert (Hwf' : buf_wf (buf_advance b n)) by (apply buf_wf_advance; [done|buf_facts; lia..]).
    specialize (Hf a (HP _ _ _ Ep) _ Hwf'). rewrite buf_rest_advance in Hf by done.
    destruct (q a _) as [[v tl]|].
    + destruct Hf as (k & Hk & Hfit' & -> & Ef). cbn in Hfit'. exists (n + k). split_and!; [lia|lia| |].
      * rewrite drop_drop. f_equal. lia.
      * rewrite (bind_ok _ _ _ _ _ Em), Ef. by rewrite buf_advance_advance.
    + destruct Hf as [e Ef]. exists e. by rewrite (bind_ok _ _ _ _ _ Em).
  - destruct Hm as [e Em]. exists e. by apply bind_exit.
Qed.

#[global] Instance reader_bind {A B} (m : M buffer A) (f : A → M buffer B) p q :
  Reader m p → (∀ a, Reader (f a) (q a)) → Reader (m ≫= f) (p_bind p q).
Proof. intros. by apply (reader_bind_post (λ _, True)). Qed.

#[global] Instance reader_if {A} (c : bool) (m1 m2 : M buffer A) p1 p2 :
  Reader m1 p1 → Reader m2 p2 → Reader (if c then m1 else m2) (if c then p1 else p2).
Proof. by destruct c. Qed.

(** [buf_getptr] followed by the copy and [buf_incrpos], the step every
    multi-byte reader is made of. *)
Definition buf_take (n : Z) : M buffer (list Z) :=
  p ← buf_getptr n; bs ← buf_load p n; buf_incrpos (i32 n);; mret bs.

Lemma buf_take_reader n : 0 ≤ n < U32 → Reader (buf_take n) (p_bytes n).
Proof.
  intros Hn b Hwf. pose proof (buf_rest_length b Hwf) as Hlen. unfold p_bytes, buf_take.
  destruct (Z.leb_spec n (zlen (buf_rest b))) as [Hle|Hgt].
  - exists n. split_and!; [lia|lia|done|]. pose proof Hwf. buf_facts.
    erewrite bind_ok by (rewrite buf_getptr_eq by done; case_match; [done|lia]).
    erewrite bind_ok by (apply buf_load_eq; [done|lia..]).
    rewrite i32_small by lia.
    erewrite bind_ok by (rewrite buf_incrpos_eq by (done || lia); case_match; [done|lia]).
    rewrite buf_rest_load by lia. done.
  - exists "Bad buf_getptr". apply bind_exit. rewrite buf_getptr_eq by done. case_match; [lia|done].
Qed.

Lemma reader_ext {A} (m m' : M buffer A) p : (∀ b, m b = m' b) → Reader m p → Reader m' p.
Proof. intros He Hm b Hwf. specialize (Hm b Hwf). by rewrite He in Hm. Qed.
Lemma reader_spec_ext {A} (m : M buffer A) p p' : (∀ l, p l = p' l) → Reader m p → Reader m p'.
Proof. intros He Hm b Hwf. specialize (Hm b Hwf). by rewrite He in Hm. Qed.
(** The parser sees only byte strings. *)
Lemma reader_spec_ext_bytes {A} (m : M buffer A) p p' :
  (∀ l, Forall is_byte l → p l = p' l) → Reader m p → Reader m p'.
Proof.
  intros He Hm b Hwf. specialize (Hm b Hwf).
  rewrite He in Hm; [done|]. by apply buf_rest_bytes.
Qed.

#[global] Instance reader_getbyte : Reader buf_getbyte p_byte.
Proof.
  intros b Hwf. pose proof (buf_rest_length b Hwf) as Hlen. unfold buf_getbyte.
  pose proof Hwf. buf_facts. erewrite !bind_ok by done.
  destruct (buf_rest b) as [|c tl] eqn:Er; cbn [p_byte length] in *.
  - eexists. case_match; [done|lia].
  - exists 1. split_and!; [lia|lia|done|]. destruct (Z.geb_spec (buf_pos b) (buf_len b)); [lia|].
    erewrite bind_ok by (apply buf_load_eq; [done|lia..]).
    erewrite bind_ok by done. rewrite buf_rest_load, Er by lia. rewrite u32_small by (unfold U32; lia). done.
Qed.

#[global] Instance reader_getbool : Reader buf_getbool p_bool.
Proof. unfold buf_getbool, p_bool. apply _. Qed.

#[global] Instance reader_getint : Reader buf_getint p_int.
Proof.
  eapply (reader_ext (buf_take 4 ≫= λ y, mret (LOAD32H y))).
  - intros b. unfold buf_take, buf_getint. assoc.
  - apply reader_bind; [|apply _]. apply buf_take_reader. done.
Qed.

(** What a reader returned, as a fact about the parser. *)
Lemma reader_inv {A} (m : M buffer A) p b v b' `{!Reader m p} :
  buf_wf b → m b = Ok (v, b') →
  buf_wf b' ∧ p (buf_rest b) = Some (v, buf_rest b') ∧
  ∃ n, 0 ≤ n ∧ buf_pos b + n ≤ buf_len b ∧ b' = buf_advance b n.
Proof.
  intros Hwf E. pose proof (reader_refines b Hwf) as Hr.
  destruct (p (buf_rest b)) as [[v' tl]|].
  - destruct Hr as (n & ? & ? & -> & E'). rewrite E in E'. injection E' as -> ->.
    split_and!; [apply buf_wf_advance; [done|buf_facts; lia..]| |eauto].
    by rewrite buf_rest_advance.
  - destruct Hr as [e E']. congruence.
Qed.

(** A reader never reads outside the buffer and leaves it well formed. *)
Lemma reader_wp {A} (m : M buffer A) p b (Q : A → buffer → Prop) `{!Reader m p} :
  buf_wf b →
  (∀ v n, 0 ≤ n → buf_pos b + n ≤ buf_len b → buf_wf (buf_advance b n) →
     p (buf_rest b) = Some (v, buf_rest (buf_advance b n)) → Q v (buf_advance b n)) →
  wp m Q b.
Proof.
  intros Hwf HQ. pose proof (reader_refines b Hwf) as Hr. unfold wp.
  destruct (m b) as [[v b']| |] eqn:E; [|done|].
  - destruct (reader_inv m p b v b' Hwf E) as (? & ? & n & ? & ? & ->). auto.
  - destruct (p (buf_rest b)) as [[]|]; [destruct Hr as (? & ? & ? & ? & ?)|destruct Hr]; congruence.
Qed.


Lemma p_int_range l v tl : p_int l = Some (v, tl) → 0 ≤ v < U32.
Proof.
  unfold p_int, p_bind, p_bytes, p_ret. case_match; [|done]. cbn. intros [= <- _].
  apply LOAD32H_range.
Qed.

#[global] Instance reader_getstring : Reader buf_getstring p_string.
Proof.
  eapply (reader_ext (n ← buf_getint; if n >? MAX_STRING_LEN then dropbear_exit "String too long" else buf_take n)).
  - intros b. unfold buf_take, buf_getstring. apply bind_ext. intros n s. case_match; done.
  - eapply reader_bind_post; [apply _|apply p_int_range|]. cbn. intros n Hn.
    apply reader_if; [apply _|by apply buf_take_reader].
Qed.

(** Parsing what was written. *)
Lemma p_bytes_app bs tl : p_bytes (zlen bs) (bs ++ tl) = Some (bs, tl).
Proof.
  unfold p_bytes. rewrite length_app, (proj2 (Z.leb_le _ _)) by lia. rewrite Nat2Z.id.
  by rewrite take_app_length, drop_app_length.
Qed.
Lemma p_int_app v tl : 0 ≤ v < U32 → p_int (STORE32H v ++ tl) = Some (v, tl).
Proof.
  intros. unfold p_int, p_bind. change 4 with (zlen (STORE32H v)). rewrite p_bytes_app.
  change (Some (LOAD32H (STORE32H v), tl) = Some (v, tl)). by rewrite LOAD32H_STORE32H.
Qed.
Lemma p_int_inv l v tl : Forall is_byte l → p_int l = Some (v, tl) → l = STORE32H v ++ tl.
Proof.
  intros Hb. unfold p_int, p_bind, p_bytes, p_ret. case_if; [|done]. cbn [mbind option_bind]. intros [= <- <-].
  rewrite STORE32H_LOAD32H; [by rewrite take_drop|rewrite length_take; lia|by apply Forall_take].
Qed.
Lemma p_string_app bs tl : zlen bs ≤ MAX_STRING_LEN →
  p_string (STORE32H (zlen bs) ++ bs ++ tl) = Some (bs, tl).
Proof.
  intros H. unfold MAX_STRING_LEN in *. unfold p_string, p_bind. rewrite p_int_app by (unfold U32; lia).
  cbn [mbind option_bind]. unfold MAX_STRING_LEN.
  destruct (Z.gtb_spec (zlen bs) (Z.max 9000 2400)); [lia|]. apply p_bytes_app.
Qed.

(** ** Writers append their encoding

    [Writer op enc]: at the end of a well-formed buffer, [op] appends exactly
    the bytes [enc] when they fit and ends the process otherwise. *)
Class Writer (op : M buffer ()) (enc : list Z) : Prop := {
  writer_bytes : Forall is_byte enc;
  writer_appends : ∀ b, buf_wf b → buf_pos b = buf_len b →
    if buf_len b + zlen enc <=? buf_size b
    then op b = Ok (tt, buf_append b enc)
    else ∃ e, op b = Exit e
}.

#[global] Instance writer_seq op1 op2 e1 e2 :
  Writer op1 e1 → Writer op2 e2 → Writer (op1 ≫= λ _, op2) (e1 ++ e2).
Proof.
  intros [Hb1 H1] [Hb2 H2]. split; [auto with ssh|]. intros b Hwf Hpos.
  specialize (H1 b Hwf Hpos). rewrite length_app.
  destruct (Z.leb_spec (buf_len b + zlen e1) (buf_size b)) as [Hfit|Hno].
  - rewrite (bind_ok _ _ _ _ _ H1).
    specialize (H2 (buf_append b e1) (buf_wf_append _ Hwf _ Hb1 Hfit) eq_refl). cbn in H2.
    rewrite Nat2Z.inj_add, Z.add_assoc.
    destruct (buf_len b + zlen e1 + zlen e2 <=? buf_size b) eqn:E; [|done].
    rewrite H2, buf_append_append; [done..|lia].
  - destruct H1 as [e E]. rewrite (proj2 (Z.leb_gt (buf_len b + Z.of_nat (length e1 + length e2)) (buf_size b))) by lia. exists e. by apply bind_exit.
Qed.

(** Any operation that comes down to a writer is one. *)
Lemma writer_ext op op' e : (∀ b, op b = op' b) → Writer op' e → Writer op e.
Proof. intros E [H1 H2]. split; [done|]. intros b Hb Hp. rewrite E. by apply H2. Qed.

Lemma buf_append_nil b : buf_wf b → buf_pos b = buf_len b → buf_append b [] = b.
Proof.
  intros Hwf Hpos. destruct b; unfold buf_append; cbn in *. rewrite !Z.add_0_r, take_drop.
  by rewrite Hpos.
Qed.

#[global] Instance writer_nop : Writer (mret tt) [].
Proof.
  split; [done|]. intros b Hwf Hpos. cbn [length]. pose proof Hwf. buf_facts.
  rewrite (proj2 (Z.leb_le _ _)) by lia. by rewrite buf_append_nil.
Qed.

(** Storing at the write pointer and moving past it. *)
Lemma writer_store (n : Z) bs (op : M buffer ()) :
  zlen bs = n → 0 ≤ n < U32 → Forall is_byte bs →
  (∀ b, op b = (p ← buf_getwriteptr n; buf_store p bs;; buf_incrwritepos n) b) →
  Writer op bs.
Proof.
  intros Hlen Hn Hb He. split; [done|]. intros b Hwf Hpos. rewrite He. pose proof Hwf. buf_facts.
  destruct (Z.leb_spec (buf_len b + zlen bs) (buf_size b)).
  - erewrite bind_ok by (rewrite buf_getwriteptr_eq by done; case_match; [done|lia]).
    erewrite bind_ok by (apply buf_store_eq; [done|lia..]).
    rewrite buf_incrwritepos_eq by (try apply buf_wf_store; done || lia). cbn.
    case_match; [|lia]. unfold buf_append, set_len, set_pos, set_data; cbn.
    rewrite Hpos, Hlen, Z.max_r by lia. done.
  - eexists. apply bind_exit. rewrite buf_getwriteptr_eq by done. case_match; [lia|done].
Qed.

#[global] Instance writer_putint v : Writer (buf_putint v) (STORE32H v).
Proof. apply (writer_store 4); auto with ssh; done. Qed.

Lemma writer_putbytes bs : Forall is_byte bs → zlen bs < U32 → Writer (buf_putbytes bs (zlen bs)) bs.
Proof.
  intros. apply (writer_store (zlen bs)); [done|lia|done|].
  intros b. unfold buf_putbytes. apply bind_ext. intros p s.
  erewrite bind_ok; [done|]. unfold lift. rewrite mem_load_ok by lia.
  rewrite take_ge by (rewrite length_drop; lia). done.
Qed.

Lemma writer_putstring bs : Forall is_byte bs → zlen bs < U32 →
  Writer (buf_putstring bs (zlen bs)) (STORE32H (zlen bs) ++ bs).
Proof. intros. apply writer_seq; [apply _|by apply writer_putbytes]. Qed.

Lemma writer_putbyte v : is_byte v → Writer (buf_putbyte v) [v].
Proof.
  intros Hv. split; [by apply Forall_singleton|]. intros b Hwf Hpos. pose proof Hwf. buf_facts. cbn [length].
  unfold buf_putbyte. erewrite bind_ok by done. rewrite Hpos, Z.geb_leb, Z.leb_refl. cbn [when].
  destruct (Z.leb_spec (buf_len b + Z.of_nat 1) (buf_size b)).
  - erewrite bind_ok by (rewrite buf_incrlen_eq by done; case_match; [done|lia]).
    erewrite bind_ok by done.
    erewrite bind_ok by (apply buf_store_eq; [apply buf_wf_set_len; [done|lia]|cbn; lia..]).
    unfold modify, buf_append, set_pos, set_len, set_data; cbn -[u32 take drop].
    rewrite u32_small by (unfold U32; lia). rewrite Hpos. done.
  - eexists. apply bind_exit. rewrite buf_incrlen_eq by done. case_match; [lia|done].
Qed.

(** A writer at the end of a buffer: it appends, or ends the process. *)
Lemma writer_wp op enc b (Q : () → buffer → Prop) : Writer op enc → buf_wf b → buf_pos b = buf_len b →
  (buf_len b + zlen enc ≤ buf_size b → Q tt (buf_append b enc)) → wp op Q b.
Proof.
  intros Hw Hb Hp HQ. pose proof (writer_appends (op := op) (enc := enc) b Hb Hp) as H. unfold wp.
  destruct (Z.leb_spec (buf_len b + zlen enc) (buf_size b)); [|by destruct H as (e & ->)]. rewrite H. by apply HQ.
Qed.

(** ** Rules of the weakest precondition for the routines, as the handlers
    use them: each gives what the check it makes has established. *)
Section wp_buf.
Context (b : buffer) (Hwf : buf_wf b).

Lemma wp_setpos n (Q : () → buffer → Prop) : 0 ≤ n →
  (n ≤ buf_len b → buf_wf (set_pos n b) → Q tt (set_pos n b)) → wp (buf_setpos n) Q b.
Proof using Hwf.
  intros Hn HQ. unfold buf_setpos, wp. erewrite bind_ok by done. case_if; [done|].
  apply HQ; [lia|]. apply buf_wf_set_pos; [done|lia].
Qed.

Lemma wp_setlen n (Q : () → buffer → Prop) : 0 ≤ n →
  (n ≤ buf_size b → buf_wf (set_pos (Z.min (buf_pos b) n) (set_len n b)) →
   Q tt (set_pos (Z.min (buf_pos b) n) (set_len n b))) →
  wp (buf_setlen n) Q b.
Proof using Hwf.
  intros Hn HQ. unfold buf_setlen, wp. erewrite bind_ok by done. case_if; [done|].
  apply HQ; [lia|]. buf_facts. split; cbn; auto; unfold BUF_MAX_SIZE; lia.
Qed.

Lemma wp_getptr n (Q : Z → buffer → Prop) : 0 ≤ n < U32 →
  (buf_pos b + n ≤ buf_len b → Q (buf_pos b) b) → wp (buf_getptr n) Q b.
Proof using Hwf. intros Hn HQ. unfold wp. rewrite buf_getptr_eq by done. case_if; [|done]. apply HQ; lia. Qed.

Lemma wp_getwriteptr n (Q : Z → buffer → Prop) : 0 ≤ n < U32 →
  (buf_pos b + n ≤ buf_size b → Q (buf_pos b) b) → wp (buf_getwriteptr n) Q b.
Proof using Hwf. intros Hn HQ. unfold wp. rewrite buf_getwriteptr_eq by done. case_if; [|done]. apply HQ; lia. Qed.

Lemma wp_load off n (Q : list Z → buffer → Prop) : 0 ≤ off → 0 ≤ n → off + n ≤ buf_size b →
  (∀ bs, bs = take (Z.to_nat n) (drop (Z.to_nat off) (buf_data b)) → zlen bs = n → Forall is_byte bs →
    Q bs b) → wp (buf_load off n) Q b.
Proof using Hwf.
  intros Ho Hn Hfit HQ. unfold wp, buf_load. erewrite bind_ok by done. unfold lift. buf_facts.
  rewrite mem_load_ok by lia. apply HQ; [done| |auto with ssh]. rewrite length_take, length_drop. lia.
Qed.

Lemma wp_store off bs (Q : () → buffer → Prop) : 0 ≤ off → off + zlen bs ≤ buf_size b →
  Forall is_byte bs →
  (let b' := set_data (take (Z.to_nat off) (buf_data b) ++ bs ++
                       drop (Z.to_nat (off + zlen bs)) (buf_data b)) b in
   buf_wf b' → Q tt b') → wp (buf_store off bs) Q b.
Proof using Hwf.
  intros Ho Hfit Hb HQ. unfold wp. rewrite buf_store_eq by done. by apply HQ, buf_wf_store.
Qed.

Lemma wp_incrwritepos n (Q : () → buffer → Prop) : 0 ≤ n < U32 →
  (let b' := set_len (Z.max (buf_len b) (buf_pos b + n)) (set_pos (buf_pos b + n) b) in
   buf_pos b + n ≤ buf_size b → buf_wf b' → Q tt b') → wp (buf_incrwritepos n) Q b.
Proof using Hwf.
  intros Hn HQ. unfold wp. rewrite buf_incrwritepos_eq by done. case_if; [|done].
  apply HQ; [lia|]. buf_facts. split; cbn; auto; unfold BUF_MAX_SIZE; lia.
Qed.

Lemma wp_incrlen n (Q : () → buffer → Prop) : 0 ≤ n < U32 →
  (buf_len b + n ≤ buf_size b → buf_wf (set_len (buf_len b + n) b) → Q tt (set_len (buf_len b + n) b)) →
  wp (buf_incrlen n) Q b.
Proof using Hwf.
  intros Hn HQ. unfold wp. rewrite buf_incrlen_eq by done. case_if; [|done].
  apply HQ; [lia|]. apply buf_wf_set_len; [done|buf_facts; lia].
Qed.

Lemma wp_incrpos n (Q : () → buffer → Prop) : -2147483648 ≤ n ≤ 2147483647 →
  (0 ≤ buf_pos b + n ≤ buf_len b → buf_wf (set_pos (buf_pos b + n) b) →
   Q tt (set_pos (buf_pos b + n) b)) → wp (buf_incrpos n) Q b.
Proof using Hwf.
  intros Hn HQ. unfold wp. rewrite buf_incrpos_eq by done. case_if; [|done].
  apply HQ; [lia|]. apply buf_wf_set_pos; [done|lia].
Qed.

Lemma wp_resize junk n (Q : () → buffer → Prop) : 0 ≤ n → (∀ i, is_byte (junk i)) →
  (∀ b', buf_wf b' → buf_size b' = n → buf_len b' = Z.min n (buf_len b) →
    buf_pos b' = Z.min n (buf_pos b) →
    take (Z.to_nat n) (buf_data b) `prefix_of` buf_data b' → Q tt b') →
  wp (buf_resize junk n) Q b.
Proof using Hwf.
  intros Hn Hj HQ. unfold wp, buf_resize. case_if; [done|]. erewrite bind_ok by done.
  apply HQ; [|done..|by eexists]. buf_facts.
  split; cbn; [lia|lia|unfold BUF_MAX_SIZE; lia| |].
  - rewrite length_app, length_take, length_fmap, length_seq. lia.
  - apply Forall_app_2; [auto with ssh|]. apply Forall_fmap, Forall_true. intros. apply Hj.
Qed.
End wp_buf.

(** A new buffer: empty, of the size asked for. *)
Lemma buf_new_ok size : 0 ≤ size ≤ BUF_MAX_SIZE → ∃ b, buf_new size = Ok b ∧ buf_wf b ∧
  buf_len b = 0 ∧ buf_pos b = 0 ∧ buf_size b = size.
Proof.
  intros H. unfold buf_new. destruct (Z.gtb_spec size BUF_MAX_SIZE); [lia|]. eexists. split; [done|].
  split_and!; [|done..]. split; cbn; [lia..|rewrite length_replicate; lia|].
  by apply Forall_replicate.
Qed.

(** A copy: the same contents, positioned at the beginning. *)
Lemma buf_newcopy_wf b : buf_wf b → ∃ c, buf_newcopy b = Ok c ∧ buf_wf c ∧
  buf_len c = buf_len b ∧ buf_content c = buf_content b.
Proof.
  intros Hwf. pose proof Hwf. buf_facts. unfold buf_newcopy.
  destruct (buf_new_ok (buf_len b)) as (r & E & Hr & Hl & Hp & Hs); [unfold BUF_MAX_SIZE; lia|].
  rewrite (obind_ok _ _ _ E).
  pose proof (wf_data r Hr) as Hd. pose proof (wf_bytes r Hr) as Hby. unfold buf_content.
  destruct (Z.gtb_spec (buf_len b) 0).
  - rewrite mem_load_ok by lia. erewrite obind_ok by done.
    assert (Hl2 : zlen (take (Z.to_nat (buf_len b)) (drop (Z.to_nat 0) (buf_data b))) = buf_len b)
      by (rewrite length_take, length_drop; lia).
    rewrite mem_store_ok by lia. erewrite obind_ok by done. eexists. split; [done|]. cbn -[take drop].
    rewrite Hl2 in *. rewrite drop_0 in *. rewrite (drop_ge (buf_data r)), app_nil_r by lia.
    change (Z.to_nat 0) with 0%nat. rewrite take_0, app_nil_l.
    split_and!; [|done|by rewrite take_take, Nat.min_id].
    split; cbn -[take drop]; [lia|lia|unfold BUF_MAX_SIZE; lia|lia|]. auto with ssh.
  - eexists. split; [done|]. cbn -[take]. replace (buf_len b) with 0 by lia. cbn. split_and!; [|done..].
    destruct Hr. split; cbn; auto; lia.
Qed.

Lemma wp_new {S} size (s : S) (Q : buffer → S → Prop) : 0 ≤ size →
  (∀ b, buf_wf b → buf_len b = 0 → buf_pos b = 0 → buf_size b = size → Q b s) →
  wp (lift (buf_new size)) Q s.
Proof.
  intros Hs HQ. apply wp_lift. destruct (Z.gtb_spec size BUF_MAX_SIZE) as [Hgt|Hle].
  - unfold buf_new. by rewrite (proj2 (Z.gtb_lt _ _)).
  - destruct (buf_new_ok size) as (b & -> & ? & ? & ? & ?); [lia|auto].
Qed.

(** ** Rules for routines that return, each with the check it passes *)
Section twp_buf.
Context (b : buffer) (Hwf : buf_wf b).

Lemma twp_setpos n (Q : () → buffer → Prop) : 0 ≤ n ≤ buf_len b →
  (buf_wf (set_pos n b) → Q tt (set_pos n b)) → twp (buf_setpos n) Q b.
Proof using Hwf.
  intros Hn HQ. unfold buf_setpos, twp. erewrite bind_ok by done. case_if; [lia|].
  by apply HQ, buf_wf_set_pos.
Qed.

Lemma twp_setlen n (Q : () → buffer → Prop) : 0 ≤ n ≤ buf_size b →
  (buf_wf (set_pos (Z.min (buf_pos b) n) (set_len n b)) →
   Q tt (set_pos (Z.min (buf_pos b) n) (set_len n b))) →
  twp (buf_setlen n) Q b.
Proof using Hwf.
  intros Hn HQ. unfold buf_setlen, twp. erewrite bind_ok by done. case_if; [lia|].
  apply HQ. buf_facts. split; cbn; auto; unfold BUF_MAX_SIZE; lia.
Qed.

Lemma twp_getptr n (Q : Z → buffer → Prop) : 0 ≤ n → buf_pos b + n ≤ buf_len b →
  Q (buf_pos b) b → twp (buf_getptr n) Q b.
Proof using Hwf.
  intros Hn Hfit HQ. unfold twp. rewrite buf_getptr_eq by (done || buf_facts; unfold U32; lia). case_if; [done|lia].
Qed.

Lemma twp_getwriteptr n (Q : Z → buffer → Prop) : 0 ≤ n → buf_pos b + n ≤ buf_size b →
  Q (buf_pos b) b → twp (buf_getwriteptr n) Q b.
Proof using Hwf.
  intros Hn Hfit HQ. unfold twp. rewrite buf_getwriteptr_eq by (done || buf_facts; unfold U32; lia). case_if; [done|lia].
Qed.

Lemma twp_load off n (Q : list Z → buffer → Prop) : 0 ≤ off → 0 ≤ n → off + n ≤ buf_size b →
  Q (take (Z.to_nat n) (drop (Z.to_nat off) (buf_data b))) b → twp (buf_load off n) Q b.
Proof using Hwf.
  intros Ho Hn Hfit HQ. unfold twp, buf_load. erewrite bind_ok by done. unfold lift. buf_facts.
  by rewrite mem_load_ok by lia.
Qed.

Lemma twp_store off bs (Q : () → buffer → Prop) : 0 ≤ off → off + zlen bs ≤ buf_size b →
  Forall is_byte bs →
  (let b' := set_data (take (Z.to_nat off) (buf_data b) ++ bs ++
                       drop (Z.to_nat (off + zlen bs)) (buf_data b)) b in
   buf_wf b' → Q tt b') → twp (buf_store off bs) Q b.
Proof using Hwf.
  intros Ho Hfit Hb HQ. unfold twp. rewrite buf_store_eq by done. by apply HQ, buf_wf_store.
Qed.

Lemma twp_incrwritepos n (Q : () → buffer → Prop) : 0 ≤ n → buf_pos b + n ≤ buf_size b →
  (let b' := set_len (Z.max (buf_len b) (buf_pos b + n)) (set_pos (buf_pos b + n) b) in
   buf_wf b' → Q tt b') → twp (buf_incrwritepos n) Q b.
Proof using Hwf.
  intros Hn Hfit HQ. unfold twp. rewrite buf_incrwritepos_eq by (done || buf_facts; unfold U32; lia).
  case_if; [|lia]. apply HQ. buf_facts. split; cbn; auto; unfold BUF_MAX_SIZE; lia.
Qed.

Lemma twp_incrpos n (Q : () → buffer → Prop) : -2147483648 ≤ n ≤ 2147483647 →
  0 ≤ buf_pos b + n ≤ buf_len b →
  (buf_wf (set_pos (buf_pos b + n) b) → Q tt (set_pos (buf_pos b + n) b)) → twp (buf_incrpos n) Q b.
Proof using Hwf.
  intros Hn Hr HQ. unfold twp. rewrite buf_incrpos_eq by done. case_if; [|lia].
  apply HQ, buf_wf_set_pos; [done|lia].
Qed.

Lemma twp_resize junk n (Q : () → buffer → Prop) : 0 ≤ n ≤ BUF_MAX_SIZE → (∀ i, is_byte (junk i)) →
  (∀ b' tl, buf_wf b' → buf_size b' = n → buf_len b' = Z.min n (buf_len b) →
    buf_pos b' = Z.min n (buf_pos b) → buf_data b' = take (Z.to_nat n) (buf_data b) ++ tl → Q tt b') →
  twp (buf_resize junk n) Q b.
Proof using Hwf.
  intros Hn Hj HQ. pose proof (wp_resize b Hwf junk n Q) as Hr. unfold wp in Hr.
  unfold twp. unfold buf_resize in *. rewrite Z.gtb_ltb, (proj2 (Z.ltb_ge _ _)) in * by lia.
  apply Hr; [lia|done|]. intros b' ? ? ? ? [tl Htl]. by eapply HQ.
Qed.

Lemma twp_reader {A} (m : M buffer A) p (Q : A → buffer → Prop) v tl `{!Reader m p} :
  p (buf_rest b) = Some (v, tl) →
  (∀ n, 0 ≤ n → buf_pos b + n ≤ buf_len b → buf_wf (buf_advance b n) →
     tl = buf_rest (buf_advance b n) → Q v (buf_advance b n)) →
  twp m Q b.
Proof using Hwf.
  intros Hp HQ. pose proof (reader_refines b Hwf) as Hr. rewrite Hp in Hr.
  destruct Hr as (n & ? & ? & -> & E). unfold twp. rewrite E. apply HQ; [done..| |].
  - apply buf_wf_advance; [done|buf_facts; lia..].
  - by rewrite buf_rest_advance.
Qed.
End twp_buf.
