(* ===== verification/Mpint.v ===== *)
(** * Multiple-precision integers in buffers

    The number theory behind [buf_putmpint] and [buf_getmpint]: the value of
    the digits of an [mp_int], its bit count, its big-endian bytes, and the
    writer and reader laws of the two routines. *)
From S2P Require Import Prelude Buffer.

(** ** Big-endian values and the mpint encoding *)
Fixpoint le_val (l : list Z) : Z :=
  match l with [] => 0 | c :: l => c + 256 * le_val l end.
Definition be_val (l : list Z) : Z := foldl (λ a c, Z.lor (Z.shiftl a 8) c) 0 l.

Lemma be_val_snoc l c : is_byte c → be_val (l ++ [c]) = be_val l * 256 + c.
Proof. intros. unfold be_val. rewrite foldl_app. cbn. by rewrite lor_add. Qed.

Lemma be_val_reverse l : Forall is_byte l → be_val (reverse l) = le_val l.
Proof.
  induction 1; [done|]. rewrite reverse_cons, be_val_snoc by done.
  rewrite IHForall. cbn. lia.
Qed.

Lemma be_val_bound l : Forall is_byte l → 0 ≤ be_val l < 256 ^ zlen l.
Proof.
  intros Hl. rewrite <- (reverse_involutive l). apply Forall_reverse in Hl as Hk.
  revert Hk. generalize (reverse l). intros k Hk.
  rewrite be_val_reverse, length_reverse by done.
  induction Hk as [|c k Hc Hk IH]; cbn [le_val length]; [done|].
  rewrite Nat2Z.inj_succ, Z.pow_succ_r by lia. unfold is_byte in Hc. nia.
Qed.

Lemma be_val_zeros n l : be_val (replicate n 0 ++ l) = be_val l.
Proof. unfold be_val. rewrite foldl_app. f_equal. induction n; [done|]. by cbn. Qed.

Section mp_facts.
Context (DIGIT_BIT : Z) (HDB : 8 ≤ DIGIT_BIT).

(** A clamped number: digits in range, no leading zero digit. *)
Definition mp_wf (a : mp_int) : Prop :=
  Forall (λ d, 0 ≤ d < 2 ^ DIGIT_BIT) (mp_dp a) ∧ last (mp_dp a) ≠ Some 0.

Lemma count_bits_loop_eq fuel r q : 0 ≤ q < 2 ^ Z.of_nat fuel →
  count_bits_loop fuel r q = r + (if q =? 0 then 0 else Z.log2 q + 1).
Proof.
  revert r q. induction fuel as [|fuel IH]; intros r q Hq; cbn [count_bits_loop].
  - change (2 ^ Z.of_nat 0) with 1 in Hq. case_match; lia.
  - destruct (Z.eqb_spec q 0) as [->|Hne]; [cbn; lia|].
    destruct (Z.gtb_spec q 0); [|lia]. rewrite Nat2Z.inj_succ, Z.pow_succ_r in Hq by lia.
    rewrite IH by (rewrite Z.shiftr_div_pow2 by lia; change (2 ^ 1) with 2;
                   Z.to_euclidean_division_equations; lia).
    destruct (Z.eq_dec q 1) as [->|Hne1].
    { change (Z.shiftr 1 1 =? 0) with true. change (Z.log2 1) with 0. lia. }
    pose proof (Z.log2_le_mono 2 q). cbn in *.
    destruct (Z.eqb_spec (Z.shiftr q 1) 0) as [E|E].
    + rewrite Z.shiftr_div_pow2 in E by lia. apply Z.div_small_iff in E; lia.
    + rewrite Z.log2_shiftr, Z.max_r by lia. lia.
Qed.

Lemma dp_val_bound dp : Forall (λ d, 0 ≤ d < 2 ^ DIGIT_BIT) dp →
  0 ≤ dp_val DIGIT_BIT dp < 2 ^ (zlen dp * DIGIT_BIT).
Proof.
  induction 1 as [|d dp Hd Hdp IH]; cbn [dp_val length]; [done|].
  rewrite Nat2Z.inj_succ, Z.mul_succ_l, Z.pow_add_r by lia.
  pose proof (Z.pow_pos_nonneg 2 DIGIT_BIT). nia.
Qed.

Lemma dp_val_snoc dp d :
  dp_val DIGIT_BIT (dp ++ [d]) = dp_val DIGIT_BIT dp + 2 ^ (zlen dp * DIGIT_BIT) * d.
Proof.
  induction dp as [|x dp IH]; cbn [dp_val app length].
  { change (2 ^ (Z.of_nat 0 * DIGIT_BIT)) with 1. lia. }
  rewrite IH, Nat2Z.inj_succ, Z.mul_succ_l, (Z.pow_add_r 2 _ DIGIT_BIT) by lia. lia.
Qed.

Lemma mp_count_bits_eq a : mp_wf a →
  mp_count_bits DIGIT_BIT a =
  if mp_val DIGIT_BIT a =? 0 then 0 else Z.log2 (mp_val DIGIT_BIT a) + 1.
Proof.
  destruct a as [neg dp]. unfold mp_wf, mp_count_bits, mp_used, mp_val. cbn.
  intros [Hd Hl]. destruct dp as [|q dp _] using rev_ind; [done|].
  rewrite last_snoc in *. rewrite length_app, dp_val_snoc.
  apply Forall_app in Hd as [Hdp Hq]. rewrite Forall_singleton in Hq.
  pose proof (dp_val_bound dp Hdp). assert (q ≠ 0) by congruence.
  set (k := zlen dp * DIGIT_BIT) in *. assert (0 ≤ k) by lia.
  rewrite count_bits_loop_eq by (rewrite Z2Nat.id by lia; lia).
  destruct (Z.eqb_spec q 0); [lia|].
  assert (2 ^ k ≤ dp_val DIGIT_BIT dp + 2 ^ k * q) by nia.
  assert (0 < 2 ^ k) by lia.
  destruct (Z.eqb_spec (dp_val DIGIT_BIT dp + 2 ^ k * q) 0); [lia|].
  cbn [length]. replace ((Z.of_nat (length dp + 1) - 1) * DIGIT_BIT) with k by lia.
  rewrite (Z.log2_unique (dp_val DIGIT_BIT dp + 2 ^ k * q) (k + Z.log2 q)); [lia| |].
  - pose proof (Z.log2_nonneg q). lia.
  - pose proof (Z.log2_nonneg q). rewrite Z.pow_succ_r, Z.pow_add_r by lia.
    pose proof (Z.log2_spec q ltac:(lia)). rewrite Z.pow_succ_r in * by lia. nia.
Qed.

Lemma to_bin_loop_spec fuel t : 0 ≤ t < 256 ^ Z.of_nat fuel →
  let l := to_bin_loop DIGIT_BIT fuel t in
  Forall is_byte l ∧ le_val l = t ∧
  zlen l = if t =? 0 then 0 else Z.log2 t / 8 + 1.
Proof.
  revert t. induction fuel as [|fuel IH]; intros t Ht; cbn [to_bin_loop].
  - change (256 ^ Z.of_nat 0) with 1 in Ht. assert (t = 0) as -> by lia. done.
  - destruct (Z.eqb_spec t 0) as [->|Hne]; [done|].
    assert (Z.land (t mod 2 ^ DIGIT_BIT) 255 = t mod 256) as ->.
    { rewrite land_255. replace (2 ^ DIGIT_BIT) with (256 * 2 ^ (DIGIT_BIT - 8))
        by (change 256 with (2 ^ 8); rewrite <- Z.pow_add_r by lia; f_equal; lia).
      rewrite Z.rem_mul_r, (Z.mul_comm 256 ((t / 256) mod _)), Z.mod_add by lia.
      by rewrite Z.mod_mod. }
    rewrite Z.shiftr_div_pow2 by lia. change (2 ^ 8) with 256.
    rewrite Nat2Z.inj_succ, Z.pow_succ_r in Ht by lia.
    destruct (IH (t / 256)) as (Hb & Hv & Hlen).
    { split; [apply Z.div_pos; lia|apply Z.div_lt_upper_bound; lia]. }
    split_and!.
    + constructor; [apply Z.mod_pos_bound; done|done].
    + cbn. rewrite Hv. pose proof (Z.div_mod t 256). lia.
    + cbn [length]. rewrite Nat2Z.inj_succ, Hlen.
      destruct (Z.eqb_spec (t / 256) 0) as [E|E].
      * apply Z.div_small_iff in E; [|done]. assert (Z.log2 t < 8) by (apply Z.log2_lt_pow2; lia).
        pose proof (Z.log2_nonneg t). rewrite (Z.div_small (Z.log2 t)); lia.
      * replace (t / 256) with (Z.shiftr t 8) by (by rewrite Z.shiftr_div_pow2).
        assert (256 ≤ t) by (destruct (Z.le_gt_cases 256 t); [done|]; rewrite Z.div_small in E by lia; lia).
        assert (8 ≤ Z.log2 t) by (apply Z.log2_le_pow2; lia).
        rewrite Z.log2_shiftr by lia. rewrite Z.max_r by lia.
        replace (Z.log2 t) with (Z.log2 t - 8 + 1 * 8) at 2 by lia. rewrite Z.div_add by lia. lia.
Qed.

Lemma mp_digits_val fuel v : 0 ≤ v < 2 ^ (Z.of_nat fuel * DIGIT_BIT) →
  dp_val DIGIT_BIT (mp_digits DIGIT_BIT fuel v) = v.
Proof.
  revert v. induction fuel as [|fuel IH]; intros v Hv; cbn [mp_digits dp_val].
  - change (2 ^ (Z.of_nat 0 * DIGIT_BIT)) with 1 in Hv. lia.
  - destruct (Z.eqb_spec v 0) as [->|]; [done|].
    rewrite Nat2Z.inj_succ, Z.mul_succ_l, Z.pow_add_r in Hv by lia.
    pose proof (Z.pow_pos_nonneg 2 DIGIT_BIT).
    cbn [dp_val]. rewrite IH.
    + pose proof (Z.div_mod v (2 ^ DIGIT_BIT)). lia.
    + split; [apply Z.div_pos; lia|apply Z.div_lt_upper_bound; lia].
Qed.

(** [mp_read_unsigned_bin] reads the big-endian value. *)
Lemma mp_read_unsigned_bin_val l : Forall is_byte l →
  mp_val DIGIT_BIT (mp_read_unsigned_bin DIGIT_BIT l) = be_val l.
Proof.
  intros Hl. unfold mp_val, mp_read_unsigned_bin. cbn. apply mp_digits_val.
  fold (be_val l). pose proof (be_val_bound l Hl). split; [lia|].
  eapply Z.lt_le_trans; [apply H|]. change 256 with (2 ^ 8). rewrite <- Z.pow_mul_r by lia.
  apply Z.pow_le_mono_r; nia.
Qed.

(** [mp_to_unsigned_bin] writes the shortest big-endian form. *)
Lemma mp_to_unsigned_bin_spec a : mp_wf a →
  let l := mp_to_unsigned_bin DIGIT_BIT a in
  let v := mp_val DIGIT_BIT a in
  Forall is_byte l ∧ be_val l = v ∧ zlen l = if v =? 0 then 0 else Z.log2 v / 8 + 1.
Proof.
  intros [Hd _]. unfold mp_to_unsigned_bin. pose proof (dp_val_bound _ Hd) as Hv.
  fold (mp_val DIGIT_BIT a) in Hv. fold (mp_used a) in Hv. assert (0 ≤ mp_used a) by (unfold mp_used; lia).
  destruct (to_bin_loop_spec (Z.to_nat (mp_used a * DIGIT_BIT)) (mp_val DIGIT_BIT a)) as (Hb & Hval & Hl).
  { rewrite Z2Nat.id by lia. split; [lia|]. eapply Z.lt_le_trans; [apply Hv|].
    apply Z.pow_le_mono_l. lia. }
  cbn zeta. rewrite be_val_reverse, length_reverse by done. split_and!; [|done..].
  by apply Forall_reverse.
Qed.
End mp_facts.

Section mpint_codec.
Context (DIGIT_BIT : Z) (HDB : 8 ≤ DIGIT_BIT).

(** The bytes [buf_putmpint] writes for a clamped non-negative number. *)
Definition enc_mpint (a : mp_int) : list Z :=
  let bits := mp_count_bits DIGIT_BIT a in
  STORE32H (bits / 8 + 1) ++ (if bits mod 8 =? 0 then [0] else []) ++
  mp_to_unsigned_bin DIGIT_BIT a.

Lemma mp_count_bits_nonneg a : mp_wf DIGIT_BIT a → 0 ≤ mp_count_bits DIGIT_BIT a.
Proof.
  intros. rewrite mp_count_bits_eq by done. case_match; [lia|].
  pose proof (Z.log2_nonneg (mp_val DIGIT_BIT a)). lia.
Qed.

Lemma mp_bin_length a : mp_wf DIGIT_BIT a →
  let bits := mp_count_bits DIGIT_BIT a in
  zlen (mp_to_unsigned_bin DIGIT_BIT a) = bits / 8 + 1 - (if bits mod 8 =? 0 then 1 else 0).
Proof.
  intros Hwf. cbn zeta. destruct (mp_to_unsigned_bin_spec DIGIT_BIT HDB a Hwf) as (_ & _ & ->).
  rewrite mp_count_bits_eq by done. destruct (mp_val DIGIT_BIT a =? 0); [done|].
  set (l := Z.log2 _). assert (0 ≤ l) by apply Z.log2_nonneg. clearbody l.
  destruct (Z.eqb_spec ((l + 1) mod 8) 0); Z.to_euclidean_division_equations; lia.
Qed.

Lemma writer_putmpint a : mp_wf DIGIT_BIT a → mp_neg a = false →
  mp_count_bits DIGIT_BIT a < 8 * BUF_MAX_SIZE →
  Writer (buf_putmpint DIGIT_BIT a) (enc_mpint a).
Proof.
  intros Hwf Hneg Hbig. unfold buf_putmpint, enc_mpint. rewrite Hneg.
  pose proof (mp_count_bits_nonneg a Hwf). pose proof (mp_bin_length a Hwf) as Hl. cbn zeta in Hl.
  destruct (mp_to_unsigned_bin_spec DIGIT_BIT HDB a Hwf) as (Hb & _ & _).
  set (bits := mp_count_bits DIGIT_BIT a) in *. unfold BUF_MAX_SIZE in *.
  assert (0 ≤ bits / 8 < 1000000000) by (split; [apply Z.div_pos|apply Z.div_lt_upper_bound]; lia).
  replace ((mp_used a =? 1) && (default 0 (head (mp_dp a)) =? 0)) with false.
  2: { symmetry. apply andb_false_iff. destruct a as [neg [|d [|d' dp]]]; unfold mp_used; cbn -[Z.eqb].
       - by left.
       - right. destruct Hwf as [_ Hlast]. cbn in Hlast. apply Z.eqb_neq. congruence.
       - left. apply Z.eqb_neq. lia. }
  cbn zeta. apply writer_seq; [apply _|].
  destruct (Z.gtb_spec (bits / 8 + 1) 0); [|lia]. cbn [when].
  set (pad := if bits mod 8 =? 0 then 1 else 0) in *.
  assert (Hp : pad = 0 ∨ pad = 1) by (unfold pad; case_match; lia).
  rewrite u32_small by (unfold U32; lia).
  assert (Writer (p ← buf_getwriteptr (bits / 8 + 1 - pad);
                  buf_store p (mp_to_unsigned_bin DIGIT_BIT a);;
                  buf_incrwritepos (bits / 8 + 1 - pad)) (mp_to_unsigned_bin DIGIT_BIT a)).
  { eapply writer_store; [exact Hl|unfold U32; lia|done|done]. }
  unfold pad in *. destruct (bits mod 8 =? 0); cbn [negb Z.eqb when].
  - apply writer_seq; [by apply writer_putbyte|done].
  - apply (writer_seq (mret tt) _ []); [apply writer_nop|done].
Qed.

Definition p_peek : parser Z := λ l, match l with [] => None | c :: _ => Some (c, l) end.
Definition p_mpint : parser (option mp_int) :=
  p_bind p_int (λ len,
    if len =? 0 then p_ret (Some mp_zero)
    else if len >? BUF_MAX_MPINT then p_ret None
    else p_bind p_peek (λ c,
      if negb (Z.land c (Z.shiftl 1 7) =? 0) then p_ret None
      else p_bind (p_bytes len) (λ b, p_ret (Some (mp_read_unsigned_bin DIGIT_BIT b))))).

Lemma reader_peek : Reader (p ← buf_getptr 1; c ← buf_load p 1; mret (default 0 (head c))) p_peek.
Proof.
  intros b Hwf. pose proof (buf_rest_length b Hwf) as Hlen. pose proof Hwf. buf_facts.
  destruct (buf_rest b) as [|c tl] eqn:Er; cbn [p_peek length] in *.
  - eexists. apply bind_exit. rewrite buf_getptr_eq by done. rewrite (proj2 (Z.leb_gt _ _)) by lia. done.
  - exists 0. rewrite buf_advance_0. split_and!; [lia|lia|done|].
    erewrite bind_ok by (rewrite buf_getptr_eq, (proj2 (Z.leb_le _ _)) by (done || lia); done).
    erewrite bind_ok by (apply buf_load_eq; [done|lia..]).
    by rewrite buf_rest_load, Er by lia.
Qed.

#[global] Instance reader_getmpint : Reader (buf_getmpint DIGIT_BIT) p_mpint.
Proof.
  unfold p_mpint. eapply (reader_ext (len ← buf_getint;
    if len =? 0 then mret (Some mp_zero)
    else if len >? BUF_MAX_MPINT then mret None
    else c ← (p ← buf_getptr 1; c ← buf_load p 1; mret (default 0 (head c)));
         if negb (Z.land c (Z.shiftl 1 7) =? 0) then mret None
         else b ← buf_take len; mret (Some (mp_read_unsigned_bin DIGIT_BIT b)))).
  - intros b. unfold buf_getmpint, buf_take. apply bind_ext. intros n s.
    do 2 (case_match; [done|]). assoc.
    erewrite bind_ok by done. case_match; [done|]. assoc.
  - eapply reader_bind_post; [apply _|apply p_int_range|]. cbn. intros n Hn.
    do 2 (apply reader_if; [apply _|]). apply reader_bind; [apply reader_peek|]. intros c.
    apply reader_if; [apply _|]. apply reader_bind; [by apply buf_take_reader|apply _].
Qed.
End mpint_codec.
