(* ===== verification/BufferProps.v ===== *)
(** * Properties of packet buffers

    Message fields are read back as they were written; every routine of
    [buffer.c] keeps the buffer well formed and stays inside its allocation. *)
From S2P Require Import Prelude Buffer Mpint.

(** ** Message fields: what is put is what is got *)
Inductive kind := KByte | KBool | KInt | KString | KMpint.
Inductive field :=
| FByte (v : Z)
| FBool (v : bool)
| FInt (v : Z)
| FString (s : list Z)
| FMpint (v : Z).
Definition kind_of (f : field) : kind :=
  match f with
  | FByte _ => KByte | FBool _ => KBool | FInt _ => KInt | FString _ => KString | FMpint _ => KMpint
  end.

Section fields.
Context (DIGIT_BIT : Z) (HDB : 8 ≤ DIGIT_BIT).

Definition mp_of_Z (v : Z) : mp_int := mkMp false (mp_digits DIGIT_BIT (Z.to_nat (Z.log2 v + 1)) v).

Definition put_field (f : field) : M buffer () :=
  match f with
  | FByte v => buf_putbyte v
  | FBool v => buf_putbyte (if v then 1 else 0)
  | FInt v => buf_putint v
  | FString s => buf_putstring s (zlen s)
  | FMpint v => buf_putmpint DIGIT_BIT (mp_of_Z v)
  end.
(** [buf_getmpint] reports a failure; a handler that gets one gives up. *)
Definition get_field (k : kind) : M buffer field :=
  match k with
  | KByte => v ← buf_getbyte; mret (FByte v)
  | KBool => v ← buf_getbool; mret (FBool (negb (v =? 0)))
  | KInt => v ← buf_getint; mret (FInt v)
  | KString => s ← buf_getstring; mret (FString s)
  | KMpint =>
      m ← buf_getmpint DIGIT_BIT;
      match m with
      | Some a => mret (FMpint (mp_val DIGIT_BIT a))
      | None => dropbear_exit "bad mpint"
      end
  end.
Definition field_ok (f : field) : Prop :=
  match f with
  | FByte v => is_byte v
  | FBool _ => True
  | FInt v => 0 ≤ v < U32
  | FString s => Forall is_byte s ∧ zlen s ≤ MAX_STRING_LEN
  | FMpint v => 0 ≤ v < 2 ^ (8 * BUF_MAX_MPINT - 1)
  end.

Fixpoint put_fields (fs : list field) : M buffer () :=
  match fs with [] => mret tt | f :: fs => put_field f ≫= λ _, put_fields fs end.
Fixpoint get_fields (ks : list kind) : M buffer (list field) :=
  match ks with
  | [] => mret []
  | k :: ks => f ← get_field k; fs ← get_fields ks; mret (f :: fs)
  end.

Definition enc_field (f : field) : list Z :=
  match f with
  | FByte v => [v]
  | FBool v => [if v then 1 else 0]
  | FInt v => STORE32H v
  | FString s => STORE32H (zlen s) ++ s
  | FMpint v => enc_mpint DIGIT_BIT (mp_of_Z v)
  end.
Definition p_field (k : kind) : parser field :=
  match k with
  | KByte => p_bind p_byte (λ v, p_ret (FByte v))
  | KBool => p_bind p_bool (λ v, p_ret (FBool (negb (v =? 0))))
  | KInt => p_bind p_int (λ v, p_ret (FInt v))
  | KString => p_bind p_string (λ s, p_ret (FString s))
  | KMpint => p_bind (p_mpint DIGIT_BIT) (λ m,
      match m with Some a => p_ret (FMpint (mp_val DIGIT_BIT a)) | None => p_fail end)
  end.

Lemma mp_digits_wf fuel v : 0 ≤ v < 2 ^ (Z.of_nat fuel * DIGIT_BIT) →
  mp_wf DIGIT_BIT (mkMp false (mp_digits DIGIT_BIT fuel v)).
Proof.
  unfold mp_wf; cbn. revert v. induction fuel as [|fuel IH]; intros v Hv; cbn [mp_digits]; [done|].
  destruct (Z.eqb_spec v 0) as [->|Hne]; [done|].
  rewrite Nat2Z.inj_succ, Z.mul_succ_l, Z.pow_add_r in Hv by lia.
  pose proof (Z.pow_pos_nonneg 2 DIGIT_BIT). 
  assert (Hv' : 0 ≤ v / 2 ^ DIGIT_BIT < 2 ^ (Z.of_nat fuel * DIGIT_BIT))
    by (split; [apply Z.div_pos; lia|apply Z.div_lt_upper_bound; lia]).
  destruct (IH _ Hv') as [Hd Hl]. split.
  - constructor; [apply Z.mod_pos_bound; lia|done].
  - pose proof (mp_digits_val _ HDB _ _ Hv') as Hval. rewrite last_cons.
    destruct (last _) eqn:El; [done|]. apply last_None in El. rewrite El in Hval. cbn in Hval.
    symmetry in Hval. apply Z.div_small_iff in Hval; [|lia]. rewrite Z.mod_small by lia. congruence.
Qed.

Lemma mp_of_Z_fuel v : 0 ≤ v → 0 ≤ v < 2 ^ (Z.of_nat (Z.to_nat (Z.log2 v + 1)) * DIGIT_BIT).
Proof.
  intros. pose proof (Z.log2_nonneg v). rewrite Z2Nat.id by lia. split; [done|].
  destruct (Z.eq_dec v 0) as [->|]; [lia|]. pose proof (Z.log2_spec v).
  eapply Z.lt_le_trans; [apply H1; lia|]. apply Z.pow_le_mono_r; nia.
Qed.

Lemma mp_of_Z_wf v : 0 ≤ v → mp_wf DIGIT_BIT (mp_of_Z v).
Proof. intros. by apply mp_digits_wf, mp_of_Z_fuel. Qed.
Lemma mp_of_Z_val v : 0 ≤ v → mp_val DIGIT_BIT (mp_of_Z v) = v.
Proof. intros. unfold mp_val. cbn. by apply mp_digits_val, mp_of_Z_fuel. Qed.

Lemma mpint_bits v : 0 ≤ v < 2 ^ (8 * BUF_MAX_MPINT - 1) →
  0 ≤ mp_count_bits DIGIT_BIT (mp_of_Z v) < 8 * BUF_MAX_MPINT.
Proof.
  intros. rewrite mp_count_bits_eq, mp_of_Z_val by (try apply mp_of_Z_wf; lia).
  unfold BUF_MAX_MPINT in *. change (8240 / 8) with 1030 in *.
  destruct (Z.eqb_spec v 0); [lia|]. pose proof (Z.log2_nonneg v).
  assert (Z.log2 v < 8 * 1030 - 1) by (apply Z.log2_lt_pow2; lia). lia.
Qed.

#[local] Instance reader_match_option {A B} (m : option A) (f : A → M buffer B) g p q :
  (∀ a, Reader (f a) (p a)) → Reader g q →
  Reader (match m with Some a => f a | None => g end) (match m with Some a => p a | None => q end).
Proof. by destruct m. Qed.

#[global] Instance reader_field k : Reader (get_field k) (p_field k).
Proof. destruct k; cbn; apply _. Qed.

Lemma writer_field f : field_ok f → Writer (put_field f) (enc_field f).
Proof.
  destruct f as [v|v|v|s|v]; cbn [put_field enc_field field_ok]; intros Hok.
  - by apply writer_putbyte.
  - apply writer_putbyte. by destruct v.
  - apply _.
  - destruct Hok. apply writer_putstring; [done|]. unfold MAX_STRING_LEN, U32 in *. lia.
  - apply writer_putmpint; [done|apply mp_of_Z_wf; lia|done|].
    pose proof (mpint_bits v Hok). unfold BUF_MAX_SIZE, BUF_MAX_MPINT in *. change (8240 / 8) with 1030 in *. lia.
Qed.

(** The first byte of the big-endian part has its sign bit clear: the
    padding byte is what guarantees it. *)
Lemma mpint_top_clear v c tl : 0 ≤ v < 2 ^ (8 * BUF_MAX_MPINT - 1) →
  let bits := mp_count_bits DIGIT_BIT (mp_of_Z v) in
  (if bits mod 8 =? 0 then [0] else []) ++ mp_to_unsigned_bin DIGIT_BIT (mp_of_Z v) = c :: tl →
  Z.land c (Z.shiftl 1 7) = 0.
Proof.
  intros Hv bits E. pose proof (mpint_bits v Hv) as Hbits. pose proof (mp_of_Z_wf v ltac:(lia)) as Hwf.
  destruct (mp_to_unsigned_bin_spec DIGIT_BIT HDB _ Hwf) as (Hb & Hval & _).
  pose proof (mp_bin_length DIGIT_BIT HDB _ Hwf) as Hlen. cbn zeta in *. fold bits in Hlen, Hbits.
  rewrite mp_of_Z_val in Hval by lia.
  destruct (Z.eqb_spec (bits mod 8) 0) as [E8|E8]; [by injection E as <- _|].
  cbn [app] in E. rewrite E in *. apply Forall_cons in Hb as [Hc Htl].
  assert (Hbt : c * 256 ^ zlen tl ≤ v).
  { rewrite <- Hval. change (c :: tl) with ([c] ++ tl). clear -Hc Htl.
    induction tl as [|x tl IH] using rev_ind.
    { pose proof (be_val_snoc [] c Hc) as E. cbn -[be_val] in *. rewrite E. cbn. lia. }
    rewrite Forall_app, Forall_singleton in Htl. destruct Htl as [Htl Hx]. specialize (IH Htl).
    rewrite app_assoc, be_val_snoc, length_app by done. cbn [length].
    rewrite Nat2Z.inj_add, Z.pow_add_r by lia. change (256 ^ Z.of_nat 1) with 256. unfold is_byte in *. lia. }
  assert (Hbv : v < 2 ^ bits).
  { unfold bits. rewrite mp_count_bits_eq, mp_of_Z_val by (done || lia).
    destruct (Z.eqb_spec v 0); [change (2 ^ 0) with 1; lia|]. apply Z.log2_spec. lia. }
  assert (c < 128).
  { cbn [length] in Hlen. replace bits with (8 * zlen tl + bits mod 8) in Hbv
      by (pose proof (Z.div_mod bits 8); lia).
    rewrite Z.pow_add_r, Z.pow_mul_r in Hbv by (pose proof (Z.mod_pos_bound bits 8); lia).
    change (2 ^ 8) with 256 in Hbv. pose proof (Z.pow_pos_nonneg 256 (zlen tl)).
    assert (2 ^ (bits mod 8) ≤ 2 ^ 7) by (apply Z.pow_le_mono_r; pose proof (Z.mod_pos_bound bits 8); lia).
    change (2 ^ 7) with 128 in *. nia. }
  unfold is_byte in Hc. apply Z.bits_inj'. intros i Hi. rewrite Z.land_spec, Z.bits_0.
  change (Z.shiftl 1 7) with (2 ^ 7). destruct (Z.eq_dec i 7) as [->|].
  - rewrite <- (Z.mod_small c (2 ^ 7)), Z.mod_pow2_bits_high by lia. done.
  - rewrite Z.pow2_bits_false by lia. apply andb_false_r.
Qed.

Lemma p_field_enc f tl : field_ok f → p_field (kind_of f) (enc_field f ++ tl) = Some (f, tl).
Proof.
  destruct f as [v|v|v|s|v]; cbn [kind_of enc_field field_ok p_field]; intros Hok.
  - done.
  - by destruct v.
  - unfold p_bind. by rewrite p_int_app.
  - destruct Hok as [_ Hs]. unfold p_bind, p_string, p_bind.
    rewrite <- app_assoc, p_int_app by (unfold MAX_STRING_LEN, U32 in *; lia). cbn.
    destruct (Z.gtb_spec (zlen s) MAX_STRING_LEN); [lia|]. by rewrite p_bytes_app.
  - pose proof (mpint_bits v Hok) as Hbits. pose proof (mp_of_Z_wf v ltac:(lia)) as Hwf.
    destruct (mp_to_unsigned_bin_spec DIGIT_BIT HDB _ Hwf) as (Hb & Hval & _).
    pose proof (mp_bin_length DIGIT_BIT HDB _ Hwf) as Hlen. cbn zeta in *.
    rewrite mp_of_Z_val in Hval by lia. pose proof (λ c tl, mpint_top_clear v c tl Hok) as Htop. cbn zeta in Htop.
    unfold enc_mpint, p_mpint, p_bind. set (bits := mp_count_bits DIGIT_BIT (mp_of_Z v)) in *.
    set (body := (if bits mod 8 =? 0 then [0] else []) ++ mp_to_unsigned_bin DIGIT_BIT (mp_of_Z v)) in *.
    assert (Hbl : zlen body = bits / 8 + 1).
    { unfold body. rewrite length_app. destruct (bits mod 8 =? 0); cbn [length]; lia. }
    assert (Hbv : mp_val DIGIT_BIT (mp_read_unsigned_bin DIGIT_BIT body) = v).
    { rewrite mp_read_unsigned_bin_val by (try done; unfold body; case_match; auto with ssh; by apply Forall_cons).
      unfold body. case_match; [|done]. by rewrite (be_val_zeros 1). }
    unfold BUF_MAX_MPINT in *. change (8240 / 8) with 1030 in *.
    assert (0 ≤ bits / 8 < 1030) by (split; [apply Z.div_pos|apply Z.div_lt_upper_bound]; lia).
    fold body. rewrite <- app_assoc. rewrite p_int_app by (unfold U32; lia). cbn.
    destruct (Z.eqb_spec (bits / 8 + 1) 0); [lia|]. destruct (Z.gtb_spec (bits / 8 + 1) 1030); [lia|].
    destruct body as [|c rest] eqn:Ebody; [cbn in Hbl; lia|]. cbn [app p_peek mbind option_bind].
    rewrite (Htop c rest eq_refl). cbn [negb Z.eqb]. rewrite <- Hbl.
    change (c :: rest ++ tl) with ((c :: rest) ++ tl). rewrite p_bytes_app. cbn -[mp_read_unsigned_bin mp_val]. by rewrite Hbv.
Qed.
End fields.

(** ** Every operation keeps the invariant *)
Inductive bufop :=
| OpBurn
| OpResize (junk : nat → Z) (n : Z)
| OpSetlen (n : Z)
| OpIncrlen (n : Z)
| OpSetpos (n : Z)
| OpIncrpos (n : Z)
| OpIncrwritepos (n : Z)
| OpEatstring
| OpGetstringbuf
| OpPutbytes (bs : list Z) (n : Z)
| OpPutbufstring (s : buffer)
| OpGet (DIGIT_BIT : Z) (k : kind)
| OpPutbyte (v : Z)
| OpPutint (v : Z)
| OpPutmpint (DIGIT_BIT : Z) (a : mp_int).

Definition run_bufop (o : bufop) : M buffer () :=
  match o with
  | OpBurn => buf_burn
  | OpResize junk n => buf_resize junk n
  | OpSetlen n => buf_setlen n
  | OpIncrlen n => buf_incrlen n
  | OpSetpos n => buf_setpos n
  | OpIncrpos n => buf_incrpos n
  | OpIncrwritepos n => buf_incrwritepos n
  | OpEatstring => buf_eatstring
  | OpGetstringbuf => buf_getstringbuf;; mret tt
  | OpPutbytes bs n => buf_putbytes bs n
  | OpPutbufstring s => buf_putbufstring s
  | OpGet DB k => get_field DB k;; mret tt
  | OpPutbyte v => buf_putbyte v
  | OpPutint v => buf_putint v
  | OpPutmpint DB a => buf_putmpint DB a
  end.
Fixpoint run_bufops (os : list bufop) : M buffer () :=
  match os with [] => mret tt | o :: os => run_bufop o;; run_bufops os end.

(** What the C types and the callers guarantee of the arguments. *)
Definition u32_arg (n : Z) : Prop := 0 ≤ n < U32.
Definition bufop_ok (o : bufop) : Prop :=
  match o with
  | OpResize junk n => (∀ i, is_byte (junk i)) ∧ u32_arg n
  | OpSetlen n | OpIncrlen n | OpSetpos n | OpIncrwritepos n | OpPutint n => u32_arg n
  | OpIncrpos n => -2147483648 ≤ n ≤ 2147483647
  | OpPutbytes bs n => 0 ≤ n ≤ zlen bs ∧ Forall is_byte bs
  | OpPutbufstring s => buf_wf s
  | OpGet DB _ => 8 ≤ DB
  | OpPutbyte v => is_byte v
  | OpPutmpint DB a => 8 ≤ DB ∧ mp_wf DB a ∧ mp_count_bits DB a < 8 * BUF_MAX_SIZE
  | _ => True
  end.

Section safety.
Abbreviation keeps m := (∀ b, buf_wf b → wp m (λ _ b', buf_wf b') b).

Lemma keeps_bind {A B} (m : M buffer A) (f : A → M buffer B) :
  keeps m → (∀ a, keeps (f a)) → keeps (m ≫= f).
Proof. intros Hm Hf b Hwf. apply wp_bind. eapply wp_mono; [by apply Hm|]. intros. by apply Hf. Qed.

Lemma keeps_reader {A} (m : M buffer A) p : Reader m p → keeps m.
Proof. intros Hr b Hwf. by eapply reader_wp. Qed.

Lemma keeps_ret {A} (a : A) : keeps (mret a).
Proof. by intros b Hwf. Qed.

(** A write through the write pointer, wherever the position is. *)
Lemma keeps_store n bs : 0 ≤ n < U32 → zlen bs ≤ n → Forall is_byte bs →
  keeps (p ← buf_getwriteptr n; buf_store p bs;; buf_incrwritepos n).
Proof.
  intros Hn Hl Hb b Hwf. apply wp_bind. unfold wp at 1. rewrite buf_getwriteptr_eq by done.
  destruct (Z.leb_spec (buf_pos b + n) (buf_size b)); [|done]. pose proof Hwf. buf_facts.
  apply wp_bind. eapply wp_ok; [apply buf_store_eq; [done|lia..]|].
  unfold wp. rewrite buf_incrwritepos_eq by (try apply buf_wf_store; done || lia). cbn.
  rewrite (proj2 (Z.leb_le _ _)) by done. pose proof (buf_wf_store b Hwf (buf_pos b) bs ltac:(lia) ltac:(lia) Hb) as [].
  split; cbn in *; auto; lia.
Qed.

Lemma keeps_putint v : keeps (buf_putint v).
Proof. apply keeps_store; auto with ssh; done. Qed.

Lemma keeps_putbytes bs n : 0 ≤ n ≤ zlen bs → Forall is_byte bs → keeps (buf_putbytes bs n).
Proof.
  intros Hn Hb b Hwf. destruct (Z.lt_ge_cases n U32).
  - eapply wp_ext; [|apply (keeps_store n (take (Z.to_nat n) bs)); auto with ssh].
    + unfold buf_putbytes. apply bind_ext. intros p s.
      erewrite bind_ok; [done|]. unfold lift. rewrite mem_load_ok by lia. done.
    + lia.
    + rewrite length_take. lia.
  - unfold buf_putbytes, buf_getwriteptr. apply wp_bind, wp_bind, wp_get, wp_if; intros E; [done|].
    exfalso. unfold BUF_MAX_INCR, U32 in *. bool_lia.
Qed.

Lemma keeps_putbyte v : is_byte v → keeps (buf_putbyte v).
Proof.
  intros Hv b Hwf. unfold buf_putbyte. apply wp_bind, wp_get, wp_bind.
  assert (Hpost : ∀ b', buf_wf b' → buf_pos b' < buf_len b' →
    wp (b ← get; buf_store (buf_pos b) [v];; modify (λ b, set_pos (u32 (buf_pos b + 1)) b)) (λ _ b', buf_wf b') b').
  { intros b' Hwf' Hlt. apply wp_bind, wp_get, wp_bind. pose proof Hwf'. buf_facts.
    eapply wp_ok; [apply buf_store_eq; [done|cbn; lia..]|]. apply wp_modify. cbn -[u32 take drop].
    rewrite u32_small by (unfold U32; lia).
    apply buf_wf_set_pos; [|cbn; lia]. apply (buf_wf_store b' Hwf' (buf_pos b') [v]); cbn; [lia..|].
    by apply Forall_singleton. }
  pose proof Hwf. buf_facts. apply wp_when; intros E.
  - unfold wp. rewrite buf_incrlen_eq by done. destruct (Z.leb_spec (buf_len b + 1) (buf_size b)); [|done].
    apply Hpost; cbn; [apply buf_wf_set_len; [done|lia]|lia].
  - apply Hpost; [done|]. lia.
Qed.

Lemma keeps_putstring bs n : 0 ≤ n ≤ zlen bs → Forall is_byte bs → keeps (buf_putstring bs n).
Proof. intros Hn Hb. apply keeps_bind; [apply keeps_putint|]. intros. by apply keeps_putbytes. Qed.

Lemma keeps_incrpos n : -2147483648 ≤ n ≤ 2147483647 → keeps (buf_incrpos n).
Proof.
  intros Hn b Hwf. unfold wp. rewrite buf_incrpos_eq by done. case_if; [|done].
  apply buf_wf_set_pos; [done|]. lia.
Qed.

Lemma i32_range n : -2147483648 ≤ i32 n ≤ 2147483647.
Proof. unfold i32. pose proof (u32_range n). unfold U32 in *. case_match; lia. Qed.

Lemma buf_new_wf n b : 0 ≤ n → buf_new n = Ok b →
  buf_wf b ∧ buf_pos b = 0 ∧ buf_len b = 0 ∧ buf_size b = n.
Proof.
  unfold buf_new. intros Hn. destruct (Z.gtb_spec n BUF_MAX_SIZE); [done|]. intros [= <-].
  split_and!; try done. split; cbn; try lia; [rewrite length_replicate; lia|].
  by apply Forall_replicate.
Qed.

Lemma wp_getstringbuf b : buf_wf b → wp buf_getstringbuf (λ r b', buf_wf b' ∧ buf_wf r) b.
Proof.
  intros Hwf. unfold buf_getstringbuf. apply wp_bind. eapply reader_wp; [apply _|done|].
  intros n k _ _ Hwf' Hp%p_int_range. apply wp_if; intros E; [done|].
  unfold MAX_STRING_LEN in E. apply wp_bind, wp_lift.
  destruct (buf_new n) as [r| |] eqn:Er; [|done|unfold buf_new in Er; case_match; done].
  apply buf_new_wf in Er as (Hr & Hrp & Hrl & Hrs); [|lia].
  apply wp_bind. unfold wp at 1. rewrite buf_getptr_eq by done. case_if; [|done].
  pose proof Hwf'. buf_facts. apply wp_bind. eapply wp_ok; [apply buf_load_eq; [done|lia..]|].
  set (bs := take _ _). assert (Hbs : Forall is_byte bs) by (unfold bs; auto with ssh).
  assert (zlen bs = n) by (unfold bs; rewrite length_take, length_drop; lia).
  apply wp_exec, wp_bind. eapply wp_ok; [rewrite buf_getwriteptr_eq by done|].
  { rewrite (proj2 (Z.leb_le _ _)) by lia. done. }
  eapply wp_ok; [apply buf_store_eq; [done|lia..]|].
  apply wp_bind. eapply wp_mono; [apply keeps_incrpos; [apply i32_range|done]|]. intros ? b' Hb'.
  apply wp_exec. unfold wp at 1. rewrite buf_incrlen_eq by (try apply buf_wf_store; done || lia).
  case_if; [|done]. split; [done|].
  apply buf_wf_set_len; [by apply buf_wf_store; try lia|cbn; lia].
Qed.
Lemma keeps_getstringbuf : keeps buf_getstringbuf.
Proof. intros b Hwf. eapply wp_mono; [by apply wp_getstringbuf|]. by intros ? ? [? ?]. Qed.

Lemma keeps_resize junk n : (∀ i, is_byte (junk i)) → u32_arg n → keeps (buf_resize junk n).
Proof.
  unfold u32_arg. intros Hj Hn b Hwf. unfold buf_resize. apply wp_if; intros E; [done|].
  apply wp_bind, wp_get, wp_put. buf_facts. split; cbn -[take].
  - lia.
  - lia.
  - unfold BUF_MAX_SIZE in *; lia.
  - rewrite length_app, length_take, length_fmap, length_seq. lia.
  - apply Forall_app_2; [by apply Forall_take|]. by apply Forall_fmap, Forall_true.
Qed.

Lemma keeps_putmpint DB a : 8 ≤ DB → mp_wf DB a → mp_count_bits DB a < 8 * BUF_MAX_SIZE →
  keeps (buf_putmpint DB a).
Proof.
  intros HDB Hwf Hbig b Hb. unfold buf_putmpint. apply wp_if; intros _; [done|].
  pose proof (mp_count_bits_nonneg DB HDB a Hwf). pose proof (mp_bin_length DB HDB a Hwf) as Hl.
  destruct (mp_to_unsigned_bin_spec DB HDB a Hwf) as (Hbs & _ & _). cbn zeta in *.
  set (bits := mp_count_bits DB a) in *. unfold BUF_MAX_SIZE in *.
  assert (0 ≤ bits / 8 < 1000000000) by (split; [apply Z.div_pos|apply Z.div_lt_upper_bound]; lia).
  revert b Hb. apply keeps_bind; [apply keeps_putint|]. intros _ b Hb.
  destruct ((mp_used a =? 1) && _); [done|]. destruct (Z.gtb_spec (bits / 8 + 1) 0); [|lia]. cbn [when].
  set (pad := if bits mod 8 =? 0 then 1 else 0) in *.
  assert (pad = 0 ∨ pad = 1) by (unfold pad; case_match; lia).
  revert b Hb. apply keeps_bind.
  - intros b Hb. apply wp_when; intros; [by apply keeps_putbyte|done].
  - intros _. rewrite u32_small by (unfold U32; lia). apply keeps_store; [unfold U32; lia|lia|done].
Qed.

Lemma keeps_bufop o : bufop_ok o → keeps (run_bufop o).
Proof.
  destruct o; cbn [bufop_ok run_bufop]; unfold u32_arg; intros Hok.
  - intros b Hwf. buf_facts. split; cbn; unfold BUF_MAX_SIZE; rewrite ?length_replicate; try lia.
    by apply Forall_replicate.
  - destruct Hok. by apply keeps_resize.
  - intros b Hwf. unfold buf_setlen. apply wp_bind, wp_get, wp_if; intros; [done|].
    apply wp_put. buf_facts. split; cbn; auto; lia.
  - intros b Hwf. unfold wp. rewrite buf_incrlen_eq by done. case_if; [|done].
    pose proof Hwf; buf_facts. apply buf_wf_set_len; [done|lia].
  - intros b Hwf. unfold buf_setpos. apply wp_bind, wp_get, wp_if; intros; [done|].
    apply wp_put, buf_wf_set_pos; [done|lia].
  - by apply keeps_incrpos.
  - intros b Hwf. unfold wp. rewrite buf_incrwritepos_eq by done. case_if; [|done].
    buf_facts. split; cbn; auto; lia.
  - apply keeps_bind; [by eapply keeps_reader, reader_getint|]. intros n. apply keeps_incrpos, i32_range.
  - apply keeps_bind; [apply keeps_getstringbuf|]. intros a. apply keeps_ret.
  - destruct Hok. by apply keeps_putbytes.
  - destruct Hok. apply keeps_putstring; [lia|done].
  - apply keeps_bind; [|intros a; apply keeps_ret]. eapply keeps_reader, reader_field; done.
  - by apply keeps_putbyte.
  - apply keeps_putint.
  - destruct Hok as (? & ? & ?). by apply keeps_putmpint.
Qed.

Lemma keeps_bufops os : Forall bufop_ok os → keeps (run_bufops os).
Proof.
  induction 1; cbn [run_bufops]; [apply keeps_ret|]. apply keeps_bind; [by apply keeps_bufop|done].
Qed.
End safety.

(** ** The claims *)
Fixpoint p_fields (DB : Z) (ks : list kind) : parser (list field) :=
  match ks with
  | [] => p_ret []
  | k :: ks => p_bind (p_field DB k) (λ f, p_bind (p_fields DB ks) (λ fs, p_ret (f :: fs)))
  end.

Lemma reader_fields DB ks : 8 ≤ DB → Reader (get_fields DB ks) (p_fields DB ks).
Proof. intros. induction ks; cbn [get_fields p_fields]; apply _. Qed.

Lemma writer_fields DB fs : 8 ≤ DB → Forall field_ok fs →
  Writer (put_fields DB fs) (concat (enc_field DB <$> fs)).
Proof.
  intros HDB. induction 1; cbn [put_fields concat fmap list_fmap].
  - apply writer_nop.
  - apply writer_seq; [by apply writer_field|done].
Qed.

Lemma p_fields_enc DB fs tl : 8 ≤ DB → Forall field_ok fs →
  p_fields DB (kind_of <$> fs) (concat (enc_field DB <$> fs) ++ tl) = Some (fs, tl).
Proof.
  intros HDB. induction 1 as [|f fs Hf Hfs IH]; [done|].
  cbn [p_fields concat fmap list_fmap]. unfold p_bind. rewrite <- app_assoc, p_field_enc by done.
  cbn [mbind option_bind]. by rewrite IH.
Qed.

(** C10. Whatever sequence of buffer operations runs on a fresh buffer, with
    arguments of their C types, no operation reads or writes outside the
    allocation or overflows, and if none ends the process, the position, the
    length and the size stay ordered and match the allocation. *)
Theorem buf_ops_safe size b os :
  u32_arg size → buf_new size = Ok b → Forall bufop_ok os →
  wp (run_bufops os) (λ _ b', buf_wf b') b.
Proof. intros [? _] Hb%buf_new_wf Hos; [|done]. apply keeps_bufops; [done|]. apply Hb. Qed.

Lemma buf_ops_safe_witness :
  ∃ b, buf_new 64 = Ok b ∧
    wp (run_bufops [OpPutint 7; OpPutbytes [1; 2; 3] 3; OpSetpos 0; OpGet 28 KInt; OpIncrpos (-2)])
      (λ _ b', buf_wf b') b.
Proof.
  eexists. split; [reflexivity|]. apply (buf_ops_safe 64); [done|reflexivity|].
  repeat constructor; cbn; try lia; done.
Defined.

(** C37. A message written field by field (bytes, booleans, 32-bit integers,
    strings, big integers) into a fresh buffer large enough for it is read
    back field by field with exactly the values written, and nothing is left. *)
Theorem fields_roundtrip DB size b fs :
  8 ≤ DB → 0 ≤ size → buf_new size = Ok b → Forall field_ok fs →
  zlen (concat (enc_field DB <$> fs)) ≤ size →
  ∃ b1 b2 b3, put_fields DB fs b = Ok (tt, b1) ∧ buf_setpos 0 b1 = Ok (tt, b2) ∧
    get_fields DB (kind_of <$> fs) b2 = Ok (fs, b3) ∧ buf_rest b3 = [].
Proof.
  intros HDB Hsize Hb%buf_new_wf Hfs Hfit; [|done]. destruct Hb as (Hwf & Hpos & Hlen & Hsz).
  set (bs := concat (enc_field DB <$> fs)) in *.
  destruct (writer_fields DB fs HDB Hfs) as [Hbytes Hput]. specialize (Hput b Hwf ltac:(lia)).
  fold bs in Hput, Hbytes. rewrite (proj2 (Z.leb_le _ _)) in Hput by lia.
  assert (Hw1 : buf_wf (buf_append b bs)) by (apply buf_wf_append; [done..|lia]).
  assert (Hw2 : buf_wf (set_pos 0 (buf_append b bs))) by (apply buf_wf_set_pos; [done|cbn; lia]).
  pose proof (reader_fields DB (kind_of <$> fs) HDB _ Hw2) as Hr.
  assert (Hrest : buf_rest (set_pos 0 (buf_append b bs)) = bs ++ []).
  { pose proof (buf_content_append b Hwf bs ltac:(lia)) as Hc.
    unfold buf_content in Hc at 2. rewrite Hlen in Hc. rewrite app_nil_r.
    unfold buf_rest. cbn -[take buf_append] in *. by rewrite Z.sub_0_r. }
  rewrite Hrest in Hr. unfold bs in Hr. rewrite p_fields_enc in Hr by done.
  destruct Hr as (n & Hn & Hn' & Htl & Eget).
  exists (buf_append b bs), (set_pos 0 (buf_append b bs)). eexists. split_and!; [done| |exact Eget|].
  - unfold buf_setpos. erewrite bind_ok by done. case_if; [|done]. cbn in *. lia.
  - rewrite buf_rest_advance by done. transitivity (drop (Z.to_nat n) (bs ++ [])); [|by symmetry].
    f_equal. exact Hrest.
Qed.

Lemma fields_roundtrip_witness :
  let fs := [FByte 94; FInt 7; FString [115; 115; 104]; FBool true; FMpint 40000] in
  ∃ b b1 b2 b3, buf_new 40 = Ok b ∧ put_fields 28 fs b = Ok (tt, b1) ∧ buf_setpos 0 b1 = Ok (tt, b2) ∧
    get_fields 28 (kind_of <$> fs) b2 = Ok (fs, b3) ∧ buf_rest b3 = [].
Proof.
  intros fs. eexists.
  destruct (fields_roundtrip 28 40 _ fs ltac:(done) ltac:(done) eq_refl) as (b1 & b2 & b3 & H).
  - repeat constructor; cbn; try lia; done.
  - vm_compute. discriminate.
  - exists b1, b2, b3. split; [reflexivity|exact H].
Defined.

(** Reading is memory safe and exact: on every well-formed buffer a
    sequence of reads returns precisely when the grammar of its fields accepts
    the unread bytes, with the grammar's values, consuming what the grammar
    consumes; otherwise the session ends. *)
Theorem get_fields_refines DB ks b :
  8 ≤ DB → buf_wf b →
  match p_fields DB ks (buf_rest b) with
  | Some (fs, tl) => ∃ b', get_fields DB ks b = Ok (fs, b') ∧ buf_rest b' = tl ∧ buf_wf b' ∧
      buf_data b' = buf_data b ∧ buf_len b' = buf_len b
  | None => ∃ e, get_fields DB ks b = Exit e
  end.
Proof.
  intros HDB Hwf. pose proof (reader_fields DB ks HDB b Hwf) as Hr.
  destruct (p_fields DB ks (buf_rest b)) as [[fs tl]|]; [|done].
  destruct Hr as (n & Hn & Hn' & -> & E). exists (buf_advance b n). split_and!; try done.
  - by apply buf_rest_advance.
  - buf_facts. apply buf_wf_advance; [done|lia..].
Qed.

Lemma get_fields_refines_witness :
  let b := mkBuf [0; 0; 0; 9; 1] 5 0 5 in
  buf_wf b ∧ ∃ e, get_fields 28 [KInt; KString] b = Exit e.
Proof.
  intros b. assert (Hwf : buf_wf b) by (split; cbn; unfold BUF_MAX_SIZE; try lia; repeat constructor; done).
  split; [done|]. exact (get_fields_refines 28 [KInt; KString] b ltac:(done) Hwf).
Defined.

(** [buf_eatstring] skips a string exactly as [buf_getstring] reads it
    whenever [buf_getstring] accepts it. *)
Theorem buf_eatstring_skips b s b' :
  buf_wf b → buf_getstring b = Ok (s, b') → buf_eatstring b = Ok (tt, b').
Proof.
  intros Hwf E. destruct (reader_inv _ p_string _ _ _ Hwf E) as (Hwf' & Hp & n & Hn & Hn' & ->).
  pose proof (reader_refines (op:=buf_getint) b Hwf) as Hi. unfold p_string, p_bind in Hp.
  destruct (p_int (buf_rest b)) as [[v tl]|] eqn:Ei; [|done]. cbn in Hp.
  pose proof (p_int_range _ _ _ Ei). destruct Hi as (k & Hk & Hk' & -> & Eint).
  destruct (Z.gtb_spec v MAX_STRING_LEN) as [|Hmax]; [done|]. unfold p_bytes in Hp.
  destruct (Z.leb_spec v (zlen (drop (Z.to_nat k) (buf_rest b)))) as [Hv|]; [|done].
  injection Hp as <- Htl. pose proof (buf_rest_length b Hwf) as Hlen. rewrite length_drop in Hv.
  rewrite drop_drop, buf_rest_advance in Htl by done.
  assert (Z.to_nat k + Z.to_nat v = Z.to_nat n)%nat as Hkv.
  { apply (f_equal length) in Htl. rewrite !length_drop in Htl. lia. }
  unfold buf_eatstring. rewrite (bind_ok _ _ _ _ _ Eint). unfold MAX_STRING_LEN in *.
  rewrite i32_small by lia. pose proof Hwf. buf_facts.
  rewrite buf_incrpos_eq by (try apply buf_wf_advance; done || lia). cbn [buf_advance set_pos buf_pos buf_len].
  rewrite (proj2 (andb_true_iff _ _)) by (split; apply Z.leb_le; lia).
  do 2 f_equal. unfold buf_advance, set_pos; cbn. f_equal. lia.
Qed.

Lemma buf_eatstring_skips_witness :
  let b := mkBuf [0; 0; 0; 2; 104; 105; 9] 7 0 7 in
  buf_eatstring b = Ok (tt, mkBuf [0; 0; 0; 2; 104; 105; 9] 7 6 7).
Proof.
  intros b. apply (buf_eatstring_skips b [104; 105]); [|reflexivity].
  split; cbn; unfold BUF_MAX_SIZE; try lia. repeat constructor; done.
Defined.

(** The two routines part on a length of at least 2^31: [buf_getstring]
    ends the session, but [buf_eatstring] converts the length to a negative
    [int] and moves the position backwards over bytes already read. *)
Theorem buf_eatstring_backwards b k :
  buf_wf b → 4 ≤ k ≤ BUF_MAX_INCR → buf_pos b + 4 ≤ buf_len b → k ≤ buf_pos b + 4 →
  LOAD32H (take 4 (buf_rest b)) = U32 - k →
  (∃ e, buf_getstring b = Exit e) ∧ buf_eatstring b = Ok (tt, buf_advance b (4 - k)).
Proof.
  intros Hwf Hk Hfit Hback Hload. pose proof (buf_rest_length b Hwf) as Hlen.
  assert (Hi : p_int (buf_rest b) = Some (U32 - k, drop 4 (buf_rest b))).
  { unfold p_int, p_bind, p_bytes. rewrite (proj2 (Z.leb_le _ _)) by lia.
    change (Some (LOAD32H (take 4 (buf_rest b)), drop 4 (buf_rest b)) =
            Some (U32 - k, drop 4 (buf_rest b))). by rewrite Hload. }
  unfold BUF_MAX_INCR, U32 in *. split.
  - pose proof (reader_refines (op:=buf_getstring) b Hwf) as Hr. unfold p_string, p_bind in Hr.
    rewrite Hi in Hr. cbn -[Z.sub Z.gtb] in Hr.
    destruct (Z.gtb_spec (4294967296 - k) MAX_STRING_LEN); [done|]. unfold MAX_STRING_LEN in *. lia.
  - pose proof (reader_refines (op:=buf_getint) b Hwf) as Hr. rewrite Hi in Hr.
    destruct Hr as (n & Hn & Hn' & Hd & E). assert (n = 4) as ->.
    { apply (f_equal length) in Hd. rewrite !length_drop in Hd. lia. }
    unfold buf_eatstring. rewrite (bind_ok _ _ _ _ _ E).
    assert (i32 (4294967296 - k) = - k) as ->.
    { unfold i32. rewrite u32_small by (unfold U32; lia). unfold U32. case_match; lia. }
    pose proof Hwf. buf_facts.
    rewrite buf_incrpos_eq by (try apply buf_wf_advance; done || lia). cbn [buf_advance set_pos buf_pos buf_len].
    rewrite (proj2 (andb_true_iff _ _)) by (split; apply Z.leb_le; lia).
    do 2 f_equal. unfold buf_advance, set_pos; cbn. f_equal. lia.
Qed.

Lemma buf_eatstring_backwards_witness :
  let b := mkBuf [1; 2; 3; 4; 255; 255; 255; 248] 8 4 8 in
  (∃ e, buf_getstring b = Exit e) ∧ buf_eatstring b = Ok (tt, buf_advance b (-4)).
Proof.
  intros b. apply (buf_eatstring_backwards b 8); cbn; unfold BUF_MAX_INCR; try lia; [|reflexivity].
  split; cbn; unfold BUF_MAX_SIZE; try lia. repeat constructor; done.
Defined.

(** ** Strings in a buffer *)
Definition str (bs : list Z) : list Z := STORE32H (zlen bs) ++ bs.

Lemma p_string_inv l bs tl : Forall is_byte l → p_string l = Some (bs, tl) → l = str bs ++ tl ∧ zlen bs ≤ MAX_STRING_LEN.
Proof.
  intros Hb. unfold p_string, p_bind. destruct (p_int l) as [[n tl0]|] eqn:E; [|done]. cbn [mbind option_bind].
  apply p_int_range in E as Hn. apply p_int_inv in E; [|done]. destruct (Z.gtb_spec n MAX_STRING_LEN); [done|].
  unfold p_bytes. destruct (Z.leb_spec n (zlen tl0)); [|done]. intros [= <- <-].
  assert (Hl : zlen (take (Z.to_nat n) tl0) = n) by (rewrite length_take; lia).
  unfold str. rewrite Hl. split; [|done]. by rewrite <- app_assoc, take_drop.
Qed.
Lemma content_length b : buf_wf b → zlen (buf_content b) = buf_len b.
Proof. intros Hb. unfold buf_content. buf_facts. rewrite length_take. lia. Qed.
Lemma buf_content_bytes b : buf_wf b → Forall is_byte (buf_content b).
Proof. intros Hb. unfold buf_content. buf_facts. auto with ssh. Qed.
Lemma writer_putbufstring b : buf_wf b → Writer (buf_putbufstring b) (str (buf_content b)).
Proof.
  intros Hb. pose proof (content_length b Hb) as Hl. pose proof (buf_content_bytes b Hb) as Hc. pose proof Hb as Hb'. buf_facts.
  assert (Hw : Writer (buf_putstring (buf_content b) (zlen (buf_content b))) (str (buf_content b)))
    by (apply writer_putstring; [done|unfold U32; lia]).
  destruct Hw as [Hw1 Hw2]. split; [done|]. intros b' Hb1 Hp1. specialize (Hw2 b' Hb1 Hp1).
  assert (E : ∀ x, buf_putbufstring b x = buf_putstring (buf_content b) (zlen (buf_content b)) x); [|by rewrite E].
  intros x. unfold buf_putbufstring, buf_putstring. rewrite Hl. apply bind_ext. intros _ y. unfold buf_putbytes. apply bind_ext. intros q z.
  rewrite !mem_load_ok by lia. rewrite !drop_0. fold (buf_content b). rewrite (take_ge (buf_content b)) by lia. done.
Qed.

(** The number zero as libtommath keeps it (no digits in use) is written
    as a one-byte mpint holding 0: the test for zero in [buf_putmpint] looks
    for one digit in use and does not see it.  The reader still takes the
    result for zero. *)
Theorem putmpint_zero_not_canonical DB b :
  8 ≤ DB → buf_wf b → buf_pos b = buf_len b → buf_len b + 5 ≤ buf_size b →
  buf_putmpint DB mp_zero b = Ok (tt, buf_append b [0; 0; 0; 1; 0]) ∧
  ∃ a, p_mpint DB [0; 0; 0; 1; 0] = Some (Some a, []) ∧ mp_val DB a = 0.
Proof.
  intros HDB Hwf Hpos Hfit. split.
  - assert (Hmp : mp_wf DB mp_zero) by done.
    destruct (writer_putmpint DB HDB mp_zero Hmp eq_refl) as [_ Hw]; [done|].
    specialize (Hw b Hwf Hpos). change (enc_mpint DB mp_zero) with [0; 0; 0; 1; 0] in Hw.
    rewrite (proj2 (Z.leb_le _ _)) in Hw by (cbn; lia). exact Hw.
  - eexists. split; [reflexivity|]. done.
Qed.

Lemma putmpint_zero_not_canonical_witness :
  let b := mkBuf [0; 0; 0; 0; 0; 0] 0 0 6 in
  buf_putmpint 28 mp_zero b = Ok (tt, buf_append b [0; 0; 0; 1; 0]) ∧
  ∃ a, p_mpint 28 [0; 0; 0; 1; 0] = Some (Some a, []) ∧ mp_val 28 a = 0.
Proof.
  intros b. apply (putmpint_zero_not_canonical 28 b); cbn; try lia.
  split; cbn; unfold BUF_MAX_SIZE; try lia. repeat constructor; done.
Defined.
