(* ===== verification/BigNum.v ===== *)
(** * Big-number arithmetic of the signing keys

    The comparisons of libtommath and [gen_random_mpint] ([dbrandom.c]) are
    modelled; its modular arithmetic is the class [BigNum], with the laws
    [BigNumLaws] that the documentation of the library states.  A result other
    than [MP_OKAY] is [None]. *)
From Stdlib Require Import Zpow_facts.
From S2P Require Import Prelude Buffer Mpint BufferProps.

(** ** Comparisons ([libtommath]) *)

(** The digits, most significant first. *)
Fixpoint cmp_digits (a b : list Z) : comparison :=
  match a, b with
  | x :: a, y :: b => if x >? y then Gt else if x <? y then Lt else cmp_digits a b
  | _, _ => Eq
  end.
Definition mp_cmp_mag (a b : mp_int) : comparison :=
  if mp_used a >? mp_used b then Gt
  else if mp_used a <? mp_used b then Lt
  else cmp_digits (reverse (mp_dp a)) (reverse (mp_dp b)).
Definition mp_cmp (a b : mp_int) : comparison :=
  if negb (Bool.eqb (mp_neg a) (mp_neg b)) then (if mp_neg a then Lt else Gt)
  else if mp_neg a then mp_cmp_mag b a else mp_cmp_mag a b.
(** A number without digits still has a first digit, which is 0. *)
Definition mp_cmp_d (a : mp_int) (b : Z) : comparison :=
  if mp_neg a then Lt
  else if mp_used a >? 1 then Gt
  else let d := default 0 (head (mp_dp a)) in
       if d >? b then Gt else if d <? b then Lt else Eq.

Section bignum.
Context (DIGIT_BIT : Z) (HDB : 8 ≤ DIGIT_BIT).

Definition mp_unsigned_bin_size (a : mp_int) : Z :=
  let size := mp_count_bits DIGIT_BIT a in
  size / 8 + (if negb (Z.land size 7 =? 0) then 1 else 0).

(** A clamped number that is not negative. *)
Definition mp_nat (a : mp_int) : Prop := mp_wf DIGIT_BIT a ∧ mp_neg a = false.
Abbreviation mpv := (mp_val DIGIT_BIT).

Lemma mp_nat_nonneg a : mp_nat a → 0 ≤ mpv a.
Proof. intros [[H _] _]. by apply (dp_val_bound DIGIT_BIT HDB). Qed.

Lemma cmp_digits_val a b : length a = length b →
  Forall (λ d, 0 ≤ d < 2 ^ DIGIT_BIT) a → Forall (λ d, 0 ≤ d < 2 ^ DIGIT_BIT) b →
  cmp_digits (reverse a) (reverse b) = (dp_val DIGIT_BIT a ?= dp_val DIGIT_BIT b).
Proof.
  revert b. induction a as [|x a IH] using rev_ind; intros b Hl Ha Hb.
  { destruct b; [done|]. done. }
  rewrite length_app in Hl. cbn in Hl. destruct b as [|y b _] using rev_ind; [cbn in Hl; lia|]. rewrite length_app in Hl. cbn in Hl.
  apply Forall_app in Ha as [Ha Hx], Hb as [Hb Hy]. rewrite Forall_singleton in Hx, Hy. rewrite !reverse_snoc. cbn [cmp_digits].
  rewrite !dp_val_snoc by done. assert (E : length a = length b) by lia. rewrite E.
  pose proof (dp_val_bound DIGIT_BIT HDB a Ha) as Va. pose proof (dp_val_bound DIGIT_BIT HDB b Hb) as Vb. rewrite E in Va.
  set (k := 2 ^ (zlen b * DIGIT_BIT)) in *.
  destruct (Z.gtb_spec x y); [symmetry; apply Z.compare_gt_iff; nia|]. destruct (Z.ltb_spec x y); [symmetry; apply Z.compare_lt_iff; nia|].
  assert (x = y) as -> by lia. rewrite IH by done. symmetry. rewrite !(Z.add_comm _ (k * y)). apply Z.add_compare_mono_l.
Qed.
Lemma mp_val_lower a : mp_wf DIGIT_BIT a → 0 < mp_used a → 2 ^ ((mp_used a - 1) * DIGIT_BIT) ≤ mpv a.
Proof.
  destruct a as [neg dp]. unfold mp_wf, mp_used, mp_val. cbn. intros [Hd Hl] Hn. destruct dp as [|q dp _] using rev_ind; [cbn in Hn; lia|].
  rewrite last_snoc in Hl. apply Forall_app in Hd as [Hd Hq]. rewrite Forall_singleton in Hq. rewrite length_app, dp_val_snoc by done.
  pose proof (dp_val_bound DIGIT_BIT HDB dp Hd). assert (q ≠ 0) by congruence. cbn [length].
  replace (Z.of_nat (length dp + 1) - 1) with (zlen dp) by lia. nia.
Qed.
Lemma mp_cmp_mag_val a b : mp_wf DIGIT_BIT a → mp_wf DIGIT_BIT b → mp_cmp_mag a b = (mpv a ?= mpv b).
Proof.
  intros Ha Hb. unfold mp_cmp_mag.
  assert (Hlt : ∀ a b, mp_wf DIGIT_BIT a → mp_wf DIGIT_BIT b → mp_used b < mp_used a → mpv b < mpv a).
  { clear a b Ha Hb. intros a b Ha Hb Hu. pose proof (mp_val_lower a Ha ltac:(unfold mp_used in *; lia)).
    pose proof (dp_val_bound DIGIT_BIT HDB (mp_dp b) (proj1 Hb)) as Hv. fold (mp_val DIGIT_BIT b) (mp_used b) in Hv.
    eapply Z.lt_le_trans; [apply Hv|]. etrans; [|done]. apply Z.pow_le_mono_r; nia. }
  destruct (Z.gtb_spec (mp_used a) (mp_used b)); [symmetry; apply Z.compare_gt_iff; auto|].
  destruct (Z.ltb_spec (mp_used a) (mp_used b)); [symmetry; apply Z.compare_lt_iff; auto|].
  unfold mp_val. apply cmp_digits_val; [unfold mp_used in *; lia|apply Ha|apply Hb].
Qed.
Lemma mp_cmp_val a b : mp_nat a → mp_nat b → mp_cmp a b = (mpv a ?= mpv b).
Proof. intros [Ha Ea] [Hb Eb]. unfold mp_cmp. rewrite Ea, Eb. by apply mp_cmp_mag_val. Qed.
Lemma mp_cmp_d_val a d : mp_nat a → 0 ≤ d < 2 ^ DIGIT_BIT → mp_cmp_d a d = (mpv a ?= d).
Proof.
  intros [Ha Ea] Hd. unfold mp_cmp_d. rewrite Ea. destruct (Z.gtb_spec (mp_used a) 1) as [Hu|Hu].
  - symmetry. apply Z.compare_gt_iff. pose proof (mp_val_lower a Ha ltac:(lia)). eapply Z.lt_le_trans; [apply Hd|]. etrans; [|done].
    apply Z.pow_le_mono_r; nia.
  - destruct a as [neg dp]. unfold mp_used, mp_val in *. cbn [mp_dp] in *. destruct dp as [|x [|]]; [| |cbn in Hu; lia]; cbn [dp_val].
    + change (default 0 (head [])) with 0. destruct (Z.gtb_spec 0 d); [lia|]. destruct (Z.ltb_spec 0 d); [symmetry; by apply Z.compare_lt_iff|]. assert (d = 0) as -> by lia. done.
    + change (default 0 (head [x])) with x. rewrite Z.mul_0_r, Z.add_0_r. destruct (Z.gtb_spec x d); [symmetry; by apply Z.compare_gt_iff|].
      destruct (Z.ltb_spec x d); [symmetry; by apply Z.compare_lt_iff|]. symmetry. apply Z.compare_eq_iff. lia.
Qed.

(** Clamped numbers are determined by their values. *)
Lemma cmp_digits_eq a b : length a = length b → cmp_digits a b = Eq → a = b.
Proof.
  revert b. induction a as [|x a IH]; intros [|y b] Hl; try done. cbn. destruct (Z.gtb_spec x y); [done|]. destruct (Z.ltb_spec x y); [done|].
  intros H'. f_equal; [lia|]. apply IH; [by injection Hl|done].
Qed.
Lemma mp_nat_inj a b : mp_nat a → mp_nat b → mpv a = mpv b → a = b.
Proof.
  intros [Ha Ea] [Hb Eb] E. pose proof (mp_cmp_mag_val a b Ha Hb) as H. rewrite E, Z.compare_refl in H. unfold mp_cmp_mag in H.
  destruct (Z.gtb_spec (mp_used a) (mp_used b)); [done|]. destruct (Z.ltb_spec (mp_used a) (mp_used b)); [done|].
  destruct a as [na da], b as [nb db]. cbn in *. subst. f_equal. unfold mp_used in *. cbn in *.
  apply (inj reverse). apply cmp_digits_eq; [rewrite !length_reverse; lia|done].
Qed.

(** ** Random numbers ([dbrandom.c])

    [draw i len]: the bytes of the [i]-th call of [genrandom]. *)
Definition masks : list Z := [255; 1; 3; 7; 15; 31; 63; 127].
Fixpoint random_loop (draw : nat → Z → list Z) (max : mp_int) (mask len : Z) (fuel i : nat) : outcome mp_int :=
  match fuel with
  | O => UB "fuel"
  | S fuel =>
      match draw i len with
      | [] => UB "randbuf[0]"
      | c :: tl =>
          let rand := mp_read_unsigned_bin DIGIT_BIT (Z.land c mask :: tl) in
          match mp_cmp rand max, mp_cmp_d rand 0 with
          | Lt, Gt => Ok rand
          | _, _ => random_loop draw max mask len fuel (S i)
          end
      end
  end.
Definition gen_random_mpint (draw : nat → Z → list Z) (fuel : nat) (max : mp_int) : outcome mp_int :=
  let size_bits := mp_count_bits DIGIT_BIT max in
  let len := size_bits / 8 + (if negb (size_bits mod 8 =? 0) then 1 else 0) in
  random_loop draw max (default 0 (masks !! Z.to_nat (size_bits mod 8))) len fuel 0.

Lemma mp_read_nat l : Forall is_byte l → mp_nat (mp_read_unsigned_bin DIGIT_BIT l).
Proof.
  intros Hl. split; [|done]. unfold mp_read_unsigned_bin. apply mp_digits_wf; [done|]. pose proof (be_val_bound l Hl) as H. unfold be_val in H. split; [lia|].
  eapply Z.lt_le_trans; [apply H|]. change 256 with (2 ^ 8). rewrite <- Z.pow_mul_r by lia. apply Z.pow_le_mono_r; nia.
Qed.
Lemma gen_random_range draw fuel max r : mp_nat max → (∀ i len, Forall is_byte (draw i len)) →
  gen_random_mpint draw fuel max = Ok r → mp_nat r ∧ 0 < mpv r < mpv max.
Proof.
  intros Hm Hd. unfold gen_random_mpint. cbn zeta. set (mask := default 0 _). set (len := _ + _). generalize 0%nat as i. clearbody mask len.
  induction fuel as [|fuel IH]; intros i; [done|]. cbn [random_loop]. destruct (draw i len) as [|c tl] eqn:E; [done|].
  assert (Hb : Forall is_byte (Z.land c mask :: tl)).
  { pose proof (Hd i len) as Hi. rewrite E in Hi. apply Forall_cons in Hi as [Hc Ht]. apply Forall_cons. split; [|done].
    assert (E' : Z.land c mask = Z.land c mask mod 256); [|rewrite E'; apply Z.mod_pos_bound; done].
    rewrite <- land_255, <- Z.land_assoc, (Z.land_comm mask), Z.land_assoc, land_255, Z.mod_small by apply Hc. done. }
  pose proof (mp_read_nat _ Hb) as Hr. rewrite mp_cmp_val, mp_cmp_d_val by (done || lia).
  destruct (Z.compare_spec (mpv (mp_read_unsigned_bin DIGIT_BIT (Z.land c mask :: tl))) (mpv max)); [apply IH| |apply IH].
  destruct (Z.compare_spec (mpv (mp_read_unsigned_bin DIGIT_BIT (Z.land c mask :: tl))) 0); [apply IH..|]. intros [= <-]. split; [done|lia].
Qed.
End bignum.

(** ** Numbers in buffers *)
Section codec.
Context (DIGIT_BIT : Z) (HDB : 8 ≤ DIGIT_BIT).
(** A number [buf_getmpint] can read back. *)
Definition mp_small (a : mp_int) : Prop := mp_nat DIGIT_BIT a ∧ mp_val DIGIT_BIT a < 2 ^ (8 * BUF_MAX_MPINT - 1).
Lemma mp_small_of_Z a : mp_small a → a = mp_of_Z DIGIT_BIT (mp_val DIGIT_BIT a) ∧ 0 ≤ mp_val DIGIT_BIT a < 2 ^ (8 * BUF_MAX_MPINT - 1).
Proof.
  intros [Ha Hv]. pose proof (mp_nat_nonneg DIGIT_BIT HDB a Ha). split; [|done]. apply (mp_nat_inj DIGIT_BIT HDB); [done|split; [by apply mp_of_Z_wf|done]|].
  by rewrite mp_of_Z_val.
Qed.
Lemma mp_small_field a : mp_small a → field_ok (FMpint (mp_val DIGIT_BIT a)) ∧ enc_field DIGIT_BIT (FMpint (mp_val DIGIT_BIT a)) = enc_mpint DIGIT_BIT a.
Proof. intros [E H]%mp_small_of_Z. split; [exact H|]. cbn. by rewrite <- E. Qed.
Lemma writer_small a : mp_small a → Writer (buf_putmpint DIGIT_BIT a) (enc_mpint DIGIT_BIT a).
Proof. intros Ha. destruct (mp_small_field a Ha) as [Hf <-]. destruct (mp_small_of_Z a Ha) as [E _]. rewrite E at 1. exact (writer_field DIGIT_BIT HDB _ Hf). Qed.
Lemma p_mpint_cases l a tl : Forall is_byte l → p_mpint DIGIT_BIT l = Some (Some a, tl) → Forall is_byte tl ∧
  (a = mp_zero ∨ ∃ c r, a = mp_read_unsigned_bin DIGIT_BIT (c :: r) ∧ zlen (c :: r) ≤ BUF_MAX_MPINT ∧ Z.land c (Z.shiftl 1 7) = 0 ∧ Forall is_byte (c :: r)).
Proof.
  intros Hl. unfold p_mpint, p_bind. destruct (p_int l) as [[n tl1]|] eqn:E; [|done]. cbn [mbind option_bind].
  pose proof (p_int_range _ _ _ E) as Hn. apply p_int_inv in E; [|done].
  assert (Hb : Forall is_byte tl1) by (rewrite E in Hl; by apply Forall_app in Hl as [_ ?]).
  destruct (Z.eqb_spec n 0); [intros [= <- <-]; by split; [|left]|]. destruct (Z.gtb_spec n BUF_MAX_MPINT); [done|].
  unfold p_peek. destruct tl1 as [|c tl1]; [done|]. cbn [mbind option_bind]. destruct (Z.eqb_spec (Z.land c (Z.shiftl 1 7)) 0) as [Hc|]; [|done].
  cbn [negb]. unfold p_bytes. destruct (Z.leb_spec n (zlen (c :: tl1))) as [Hle|]; [|done]. cbn [mbind option_bind p_ret]. intros [= <- <-].
  split; [by apply Forall_drop|]. right. destruct (Z.to_nat n) as [|k] eqn:Ek; [lia|]. cbn [take]. exists c, (take k tl1). split; [done|].
  split; [cbn [length] in *; rewrite length_take; lia|]. split; [done|]. by apply (Forall_take _ (S k)) in Hb.
Qed.
Lemma p_mpint_nat l a tl : Forall is_byte l → p_mpint DIGIT_BIT l = Some (Some a, tl) → mp_nat DIGIT_BIT a.
Proof.
  intros Hl E. destruct (p_mpint_cases l a tl Hl E) as [_ [->|(c & r & -> & _ & _ & Hb)]]; [by split|by apply mp_read_nat].
Qed.
Lemma be_val_cons c r : Forall is_byte (c :: r) → be_val (c :: r) = c * 256 ^ zlen r + be_val r.
Proof.
  intros [Hc Hr]%Forall_cons. induction r as [|x r IH] using rev_ind.
  - change [c] with ([] ++ [c]). rewrite be_val_snoc by done. cbn. lia.
  - apply Forall_app in Hr as [Hr Hx]. rewrite Forall_singleton in Hx. change (c :: r ++ [x]) with ((c :: r) ++ [x]).
    rewrite !be_val_snoc, IH, length_app by done. cbn [length]. rewrite Nat2Z.inj_add, Z.pow_add_r by lia. change (256 ^ Z.of_nat 1) with 256. lia.
Qed.
Lemma top_clear c : is_byte c → Z.land c (Z.shiftl 1 7) = 0 → c < 128.
Proof.
  intros Hc H. destruct (Z.lt_ge_cases c 128) as [|Hge]; [done|]. exfalso. assert (Ht : Z.testbit (Z.land c (Z.shiftl 1 7)) 7 = true).
  { rewrite Z.land_spec. change (Z.testbit (Z.shiftl 1 7) 7) with true. rewrite andb_true_r. apply Z.testbit_true; [done|].
    change (2 ^ 7) with 128. unfold is_byte in Hc. assert (c / 128 = 1) as -> by (symmetry; apply Z.div_unique with (c - 128); lia). done. }
  rewrite H in Ht. done.
Qed.
Lemma p_mpint_small l a tl : Forall is_byte l → p_mpint DIGIT_BIT l = Some (Some a, tl) → mp_small a ∧ Forall is_byte tl.
Proof.
  intros Hl E. split; [|by eapply p_mpint_cases]. split; [by eapply p_mpint_nat|].
  destruct (p_mpint_cases l a tl Hl E) as [_ [->|(c & r & -> & Hz & Hc & Hb)]]; [cbn; by apply Z.pow_pos_nonneg|].
  rewrite mp_read_unsigned_bin_val, be_val_cons by done. apply Forall_cons in Hb as [Hcb Hr]. pose proof (top_clear c Hcb Hc). pose proof (be_val_bound r Hr).
  cbn [length] in Hz. apply Z.lt_le_trans with (2 ^ (8 * (zlen r + 1) - 1)); [|apply Z.pow_le_mono_r; lia].
  replace (8 * (zlen r + 1) - 1) with (7 + 8 * zlen r) by lia. rewrite Z.pow_add_r, (Z.pow_mul_r 2 8) by lia. change (2 ^ 7) with 128. change (2 ^ 8) with 256. unfold is_byte in Hcb. nia.
Qed.
Lemma enc_mpint_bytes a : mp_small a → Forall is_byte (enc_mpint DIGIT_BIT a).
Proof. intros Ha. apply (writer_small a Ha). Qed.
Lemma p_mpint_enc a tl : mp_small a → Forall is_byte tl → p_mpint DIGIT_BIT (enc_mpint DIGIT_BIT a ++ tl) = Some (Some a, tl).
Proof.
  intros Ha Ht. destruct (mp_small_field a Ha) as [Hf He]. pose proof (p_field_enc DIGIT_BIT HDB _ tl Hf) as H. rewrite He in H. cbn [kind_of p_field] in H.
  unfold p_bind at 1 in H. destruct (p_mpint DIGIT_BIT (enc_mpint DIGIT_BIT a ++ tl)) as [[[a'|] tl']|] eqn:E; [|done|done]. injection H as Hv ->.
  apply p_mpint_nat in E; [|auto using enc_mpint_bytes with ssh]. do 3 f_equal. by apply (mp_nat_inj DIGIT_BIT HDB); [|apply Ha|].
Qed.
End codec.

(** ** Modular arithmetic *)
Class BigNum := {
  mp_exptmod : mp_int → mp_int → mp_int → option mp_int;
  mp_invmod : mp_int → mp_int → option mp_int;
  mp_mulmod : mp_int → mp_int → mp_int → option mp_int;
  mp_addmod : mp_int → mp_int → mp_int → option mp_int;
  mp_mod : mp_int → mp_int → option mp_int;
  mp_add : mp_int → mp_int → option mp_int
}.
(** The operation succeeds with a number of value [v]. *)
Definition mp_result (DIGIT_BIT : Z) (o : option mp_int) (v : Z) : Prop :=
  ∃ r, o = Some r ∧ mp_nat DIGIT_BIT r ∧ mp_val DIGIT_BIT r = v.
Class BigNumLaws (DIGIT_BIT : Z) `{!BigNum} : Prop := {
  exptmod_law a e m : mp_nat DIGIT_BIT a → mp_nat DIGIT_BIT e → mp_nat DIGIT_BIT m → 1 < mp_val DIGIT_BIT m →
    mp_result DIGIT_BIT (mp_exptmod a e m) (mp_val DIGIT_BIT a ^ mp_val DIGIT_BIT e mod mp_val DIGIT_BIT m);
  invmod_law a m : mp_nat DIGIT_BIT a → mp_nat DIGIT_BIT m → 1 < mp_val DIGIT_BIT m → Z.gcd (mp_val DIGIT_BIT a) (mp_val DIGIT_BIT m) = 1 →
    ∃ v, 0 ≤ v < mp_val DIGIT_BIT m ∧ mp_val DIGIT_BIT a * v mod mp_val DIGIT_BIT m = 1 ∧ mp_result DIGIT_BIT (mp_invmod a m) v;
  invmod_none a m : mp_nat DIGIT_BIT a → mp_nat DIGIT_BIT m → 1 < mp_val DIGIT_BIT m → Z.gcd (mp_val DIGIT_BIT a) (mp_val DIGIT_BIT m) ≠ 1 →
    mp_invmod a m = None;
  mulmod_law a b m : mp_nat DIGIT_BIT a → mp_nat DIGIT_BIT b → mp_nat DIGIT_BIT m → 0 < mp_val DIGIT_BIT m →
    mp_result DIGIT_BIT (mp_mulmod a b m) (mp_val DIGIT_BIT a * mp_val DIGIT_BIT b mod mp_val DIGIT_BIT m);
  addmod_law a b m : mp_nat DIGIT_BIT a → mp_nat DIGIT_BIT b → mp_nat DIGIT_BIT m → 0 < mp_val DIGIT_BIT m →
    mp_result DIGIT_BIT (mp_addmod a b m) ((mp_val DIGIT_BIT a + mp_val DIGIT_BIT b) mod mp_val DIGIT_BIT m);
  mod_law a m : mp_nat DIGIT_BIT a → mp_nat DIGIT_BIT m → 0 < mp_val DIGIT_BIT m →
    mp_result DIGIT_BIT (mp_mod a m) (mp_val DIGIT_BIT a mod mp_val DIGIT_BIT m);
  add_law a b : mp_nat DIGIT_BIT a → mp_nat DIGIT_BIT b →
    mp_result DIGIT_BIT (mp_add a b) (mp_val DIGIT_BIT a + mp_val DIGIT_BIT b)
}.

(** ** Congruences behind the signatures *)
Section congruence.
Context (n : Z).
Definition cong (a b : Z) : Prop := a mod n = b mod n.
#[global] Instance cong_equiv : Equivalence cong.
Proof. split; [by intros a|by intros a b|]. unfold cong. intros a b c -> ->. done. Qed.
#[global] Instance cong_add : Proper (cong ==> cong ==> cong) Z.add.
Proof. intros a a' Ha b b' Hb. unfold cong in *. by rewrite Zplus_mod, Ha, Hb, <- Zplus_mod. Qed.
#[global] Instance cong_mul : Proper (cong ==> cong ==> cong) Z.mul.
Proof. intros a a' Ha b b' Hb. unfold cong in *. by rewrite Zmult_mod, Ha, Hb, <- Zmult_mod. Qed.
Lemma cong_pow a a' e : 0 ≤ e → cong a a' → cong (a ^ e) (a' ^ e).
Proof. intros He Ha. revert e He. apply natlike_ind; [done|]. intros e He IH. rewrite !Z.pow_succ_r by done. by rewrite IH, Ha. Qed.
Lemma cong_mod a : cong (a mod n) a.
Proof. apply Zmod_mod. Qed.

(** Inverses are unique. *)
Lemma inverse_unique s w w' : 1 < n → s * w mod n = 1 → s * w' mod n = 1 → cong w w'.
Proof.
  intros Hn H1 H2. assert (C1 : cong (s * w) 1) by (unfold cong; by rewrite H1, Z.mod_small by lia). assert (C2 : cong (s * w') 1) by (unfold cong; by rewrite H2, Z.mod_small by lia).
  transitivity (w * (s * w')); [by rewrite C2, Z.mul_1_r|]. transitivity (s * w * w'); [apply eq_subrelation; [apply _|ring]|by rewrite C1, Z.mul_1_l].
Qed.
Lemma inverse_gcd s w : 1 < n → s * w mod n = 1 → Z.gcd s n = 1.
Proof.
  intros Hn H. apply Z.bezout_1_gcd. exists w, (- (s * w / n)). pose proof (Z.div_mod (s * w) n ltac:(lia)). lia.
Qed.
Lemma inverse_exists s : 1 < n → Z.gcd s n = 1 → ∃ w, 0 ≤ w < n ∧ s * w mod n = 1.
Proof.
  intros Hn [a [b Hab]]%Z.gcd_bezout. exists (a mod n). split; [apply Z.mod_pos_bound; lia|]. rewrite Zmult_mod_idemp_r.
  replace (s * a) with (1 + (- b) * n) by lia. rewrite Z_mod_plus_full, Z.mod_small by lia. done.
Qed.
(** RSA with a blinding factor [r] and its inverse [ri]. *)
Lemma rsa_blinding em r ri e d : 1 < n → 0 ≤ em < n → 0 ≤ e → 0 ≤ d → r * ri mod n = 1 →
  (∀ x, 0 ≤ x < n → x ^ (d * e) mod n = x) →
  ((em * (r ^ e mod n) mod n) ^ d mod n * ri mod n) ^ e mod n = em.
Proof.
  intros Hn Hem He Hd Hr Hkey. set (x := em * (r ^ e mod n) mod n).
  assert (Hx : cong (x ^ (d * e)) x) by (unfold cong; rewrite Hkey, Z.mod_small; [done|..]; apply Z.mod_pos_bound; lia).
  assert (Hri : cong (r * ri) 1) by (unfold cong; rewrite Hr, Z.mod_small by lia; done).
  transitivity (em mod n); [|by rewrite Z.mod_small by lia]. change (cong ((x ^ d mod n * ri mod n) ^ e) em).
  rewrite (cong_pow _ (x ^ d * ri) e He) by (rewrite !cong_mod; reflexivity).
  rewrite Z.pow_mul_l, <- Z.pow_mul_r, Hx by done. unfold x. rewrite cong_mod, (cong_mod (r ^ e)).
  rewrite <- Z.mul_assoc, <- Z.pow_mul_l, (cong_pow _ 1 e He Hri), Z.pow_1_l by done. by rewrite Z.mul_1_r.
Qed.
(** The exponent a DSA or ECDSA verifier works with is the signer's nonce. *)
Lemma dsa_nonce h x r k ki w s : ki * k mod n = 1 → s = ki * ((h + r * x mod n) mod n) mod n → s * w mod n = 1 → 1 < n →
  cong (h * w mod n + x * (r * w mod n)) k.
Proof.
  intros Hk -> Hw Hn. rewrite !cong_mod.
  assert (H1 : cong (ki * k) 1) by (unfold cong; rewrite Hk, Z.mod_small by lia; done).
  assert (H2 : cong (ki * (h + r * x) * w) 1).
  { transitivity (ki * ((h + r * x mod n) mod n) mod n * w); [by rewrite !cong_mod|]. unfold cong. rewrite Hw, Z.mod_small by lia. done. }
  transitivity (k * (ki * (h + r * x) * w)); [|rewrite H2, Z.mul_1_r; reflexivity].
  transitivity ((ki * k) * ((h + r * x) * w)); [rewrite H1|]; (apply eq_subrelation; [apply _|ring]).
Qed.
End congruence.

(** Powers of an element of order [q]. *)
Lemma pow_mod_order g p q a b : 1 < p → 0 < q → g ^ q mod p = 1 → 0 ≤ a → 0 ≤ b → a mod q = b mod q → g ^ a mod p = g ^ b mod p.
Proof.
  intros Hp Hq Hg Ha Hb E. assert (H : ∀ c, 0 ≤ c → cong p (g ^ c) (g ^ (c mod q))).
  { intros c Hc. rewrite (Z.div_mod c q) at 1 by lia. pose proof (Z.mod_pos_bound c q Hq). assert (0 ≤ c / q) by (apply Z.div_pos; lia).
    rewrite Z.pow_add_r, Z.pow_mul_r by lia. rewrite (cong_pow p _ 1 (c / q)); [by rewrite Z.pow_1_l, Z.mul_1_l by done|done|].
    unfold cong. rewrite Hg, Z.mod_small by lia. done. }
  change (cong p (g ^ a) (g ^ b)). by rewrite (H a Ha), (H b Hb), E.
Qed.
