(* ===== verification/CircBuffer.v ===== *)
(** * Circular buffers ([dropbear/circbuffer.c], [dropbear/circbuffer.h])

    Every routine of [circbuffer.c] with its 32-bit arithmetic, its asserts
    and its lazily allocated memory, the well-formedness invariant, and the
    refinement to a queue of bytes: the channel code is verified against the
    queue. *)
From S2P Require Import Prelude.

(** ** State: [struct circbuf].  [cb_data] is [None] until the first write. *)
Record circbuffer := mkCbuf {
  cb_size : Z;
  cb_readpos : Z;
  cb_writepos : Z;
  cb_used : Z;
  cb_data : option (list Z)
}.

Definition MAX_CBUF_SIZE : Z := 100000000.

(** [a % b] on [unsigned int]. *)
Definition umod {S} (a b : Z) : M S Z :=
  if b =? 0 then undefined "division by zero" else mret (a mod b).

(** ** Operations *)
Definition cbuf_new (size : Z) : outcome circbuffer :=
  if size >? MAX_CBUF_SIZE then Exit "Bad cbuf size"
  else Ok (mkCbuf size 0 0 0 None).

Definition cbuf_getused (c : circbuffer) : Z := cb_used c.
Definition cbuf_getavail (c : circbuffer) : Z := u32 (cb_size c - cb_used c).

Definition cbuf_writelen : M circbuffer Z :=
  c ← get;
  dropbear_assert (cb_used c <=? cb_size c);;
  a ← umod (u32 (2 * cb_size c + cb_writepos c - cb_readpos c)) (cb_size c);
  u ← umod (cb_used c) (cb_size c);
  dropbear_assert (a =? u);;
  a ← umod (u32 (2 * cb_size c + cb_readpos c - cb_writepos c)) (cb_size c);
  u ← umod (u32 (cb_size c - cb_used c)) (cb_size c);
  dropbear_assert (a =? u);;
  if cb_used c =? cb_size c then mret 0
  else if cb_writepos c <? cb_readpos c then mret (u32 (cb_readpos c - cb_writepos c))
  else mret (u32 (cb_size c - cb_writepos c)).

(** The two readable blocks, as offsets into the memory and lengths: the
    second is [None] for a null pointer. *)
Definition cbuf_readptrs (c : circbuffer) : (Z * Z) * (option Z * Z) :=
  let len1 := Z.min (cb_used c) (u32 (cb_size c - cb_readpos c)) in
  if len1 <? cb_used c
  then ((cb_readpos c, len1), (Some 0, u32 (cb_used c - len1)))
  else ((cb_readpos c, len1), (None, 0)).

Definition cbuf_writeptr (len : Z) : M circbuffer Z :=
  n ← cbuf_writelen;
  if len >? n then dropbear_exit "Bad cbuf write"
  else
    c ← get;
    match cb_data c with
    | Some _ => mret tt
    | None => put (mkCbuf (cb_size c) (cb_readpos c) (cb_writepos c) (cb_used c)
                     (Some (replicate (Z.to_nat (cb_size c)) 0)))
    end;;
    mret (cb_writepos c).

Definition cbuf_incrwrite (len : Z) : M circbuffer () :=
  n ← cbuf_writelen;
  if len >? n then dropbear_exit "Bad cbuf write"
  else
    c ← get;
    let used := u32 (cb_used c + len) in
    dropbear_assert (used <=? cb_size c);;
    w ← umod (u32 (cb_writepos c + len)) (cb_size c);
    put (mkCbuf (cb_size c) (cb_readpos c) w used (cb_data c)).

Definition cbuf_incrread (len : Z) : M circbuffer () :=
  c ← get;
  dropbear_assert (cb_used c >=? len);;
  r ← umod (u32 (cb_readpos c + len)) (cb_size c);
  put (mkCbuf (cb_size c) r (cb_writepos c) (u32 (cb_used c - len)) (cb_data c)).

(** Access through the pointers the routines return. *)
Definition cbuf_store (off : Z) (bs : list Z) : M circbuffer () :=
  c ← get;
  match cb_data c with
  | None => if zlen bs =? 0 then mret tt else undefined "null pointer"
  | Some d =>
      d ← lift (mem_store d off bs);
      put (mkCbuf (cb_size c) (cb_readpos c) (cb_writepos c) (cb_used c) (Some d))
  end.
Definition cbuf_load (off n : Z) : M circbuffer (list Z) :=
  c ← get;
  match cb_data c with
  | None => if n =? 0 then mret [] else undefined "null pointer"
  | Some d => lift (mem_load d off n)
  end.

(** Both blocks of [cbuf_readptrs], as a reader of the queue sees them. *)
Definition cbuf_read : M circbuffer (list Z) :=
  c ← get;
  let '((p1, len1), (p2, len2)) := cbuf_readptrs c in
  b1 ← cbuf_load p1 len1;
  match p2 with
  | None => mret b1
  | Some p2 => b2 ← cbuf_load p2 len2; mret (b1 ++ b2)
  end.

(** ** The invariant and the queue a circular buffer stands for *)
Definition wrap (size x : Z) : Z := if x <? size then x else x - size.

Record cbuf_wf (c : circbuffer) : Prop := {
  cwf_size : 0 < cb_size c ≤ MAX_CBUF_SIZE;
  cwf_read : 0 ≤ cb_readpos c < cb_size c;
  cwf_used : 0 ≤ cb_used c ≤ cb_size c;
  cwf_write : cb_writepos c = wrap (cb_size c) (cb_readpos c + cb_used c);
  cwf_data : match cb_data c with Some d => zlen d = cb_size c | None => cb_used c = 0 end
}.

(** Byte [i] of the queue is at [readpos + i] modulo the size. *)
Definition cbuf_contents (c : circbuffer) : list Z :=
  match cb_data c with
  | None => []
  | Some d => (λ i, d !!! Z.to_nat (wrap (cb_size c) (cb_readpos c + i))) <$> seqZ 0 (cb_used c)
  end.

(** The free space that can be written without wrapping. *)
Definition cbuf_space (c : circbuffer) : Z :=
  if cb_used c =? cb_size c then 0
  else if cb_writepos c <? cb_readpos c then cb_readpos c - cb_writepos c
  else cb_size c - cb_writepos c.

Ltac cbuf_facts :=
  repeat match goal with
  | H : cbuf_wf ?c |- _ =>
      pose proof (cwf_size c H); pose proof (cwf_read c H); pose proof (cwf_used c H);
      pose proof (cwf_write c H); pose proof (cwf_data c H); revert H
  end; intros; unfold MAX_CBUF_SIZE, wrap in *.

Ltac wrap_lia :=
  unfold wrap in *;
  repeat match goal with
  | H : context [?a <? ?b] |- _ => destruct (Z.ltb_spec a b)
  | |- context [?a <? ?b] => destruct (Z.ltb_spec a b)
  | H : context [?a =? ?b] |- _ => destruct (Z.eqb_spec a b)
  | |- context [?a =? ?b] => destruct (Z.eqb_spec a b)
  end; lia.

Lemma wrap_mod size x : 0 ≤ x < 2 * size → x mod size = wrap size x.
Proof.
  intros. unfold wrap. destruct (Z.ltb_spec x size); [apply Z.mod_small; lia|].
  symmetry. apply (Z.mod_unique_pos _ _ 1); lia.
Qed.

Lemma umod_wrap {S} size x (s : S) : 0 < size → 0 ≤ x < 2 * size →
  umod x size s = Ok (wrap size x, s).
Proof. intros. unfold umod. case_if; [lia|]. by rewrite wrap_mod. Qed.

Lemma umod_wrap2 {S} size x (s : S) : 0 < size → 0 ≤ x < 3 * size →
  umod x size s = Ok (wrap size (wrap (2 * size) x), s).
Proof.
  intros. unfold umod. case_if; [lia|]. rewrite <- (wrap_mod size) by wrap_lia.
  unfold wrap. destruct (Z.ltb_spec x (2 * size)); [done|].
  replace x with (x - 2 * size + 2 * size) at 1 by lia. by rewrite Z_mod_plus_full.
Qed.

Section lemmas.
Context (c : circbuffer) (Hwf : cbuf_wf c).

(** The asserts of [cbuf_writelen] never fire on a well-formed buffer. *)
Lemma cbuf_writelen_eq : cbuf_writelen c = Ok (cbuf_space c, c).
Proof using Hwf.
  unfold cbuf_writelen. cbuf_facts. erewrite bind_ok by done.
  rewrite (u32_small (2 * _ + cb_writepos c - _)), (u32_small (2 * _ + cb_readpos c - _)),
    (u32_small (cb_size c - cb_used c)), (u32_small (cb_size c - cb_writepos c)) by (unfold U32; wrap_lia).
  erewrite bind_ok by (apply assert_ok; lia).
  erewrite bind_ok by (apply umod_wrap2; wrap_lia).
  erewrite bind_ok by (apply umod_wrap; wrap_lia).
  erewrite bind_ok by (apply assert_ok, Z.eqb_eq; wrap_lia).
  erewrite bind_ok by (apply umod_wrap2; wrap_lia).
  erewrite bind_ok by (apply umod_wrap; wrap_lia).
  erewrite bind_ok by (apply assert_ok, Z.eqb_eq; wrap_lia).
  unfold cbuf_space. repeat case_if; try done.
  bool_lia. rewrite u32_small by (unfold U32; wrap_lia). done.
Qed.

Lemma cbuf_space_range : 0 ≤ cbuf_space c ≤ cb_size c - cb_used c.
Proof using Hwf. cbuf_facts. unfold cbuf_space. wrap_lia. Qed.

Lemma cbuf_space_pos : cb_used c < cb_size c → 0 < cbuf_space c.
Proof using Hwf. cbuf_facts. unfold cbuf_space. wrap_lia. Qed.

Lemma cbuf_contents_length : zlen (cbuf_contents c) = cb_used c.
Proof using Hwf.
  cbuf_facts. unfold cbuf_contents. destruct (cb_data c); [|by cbn].
  rewrite length_fmap, length_seqZ. lia.
Qed.

Lemma cbuf_getavail_eq : cbuf_getavail c = cb_size c - zlen (cbuf_contents c).
Proof using Hwf.
  rewrite cbuf_contents_length. cbuf_facts. unfold cbuf_getavail.
  rewrite u32_small by (unfold U32; lia). lia.
Qed.

Lemma cbuf_contents_lookup d (i : nat) : cb_data c = Some d → Z.of_nat i < cb_used c →
  cbuf_contents c !! i = Some (d !!! Z.to_nat (wrap (cb_size c) (cb_readpos c + Z.of_nat i))).
Proof.
  intros E Hi. unfold cbuf_contents. rewrite E, list_lookup_fmap.
  rewrite lookup_seqZ_lt by lia. cbn. by rewrite Z.add_0_l.
Qed.
End lemmas.

(** ** Writing appends to the queue, reading takes from its front *)
Definition cbuf_put (bs : list Z) : M circbuffer () :=
  p ← cbuf_writeptr (zlen bs); cbuf_store p bs;; cbuf_incrwrite (zlen bs).

Definition cbuf_mem (c : circbuffer) : list Z :=
  default (replicate (Z.to_nat (cb_size c)) 0) (cb_data c).

Definition cbuf_alloc (c : circbuffer) : circbuffer :=
  mkCbuf (cb_size c) (cb_readpos c) (cb_writepos c) (cb_used c) (Some (cbuf_mem c)).

Definition cbuf_push (bs : list Z) (c : circbuffer) : circbuffer :=
  mkCbuf (cb_size c) (cb_readpos c) (wrap (cb_size c) (cb_writepos c + zlen bs))
    (cb_used c + zlen bs)
    (Some (take (Z.to_nat (cb_writepos c)) (cbuf_mem c) ++ bs ++
           drop (Z.to_nat (cb_writepos c + zlen bs)) (cbuf_mem c))).

Definition cbuf_pop (n : Z) (c : circbuffer) : circbuffer :=
  mkCbuf (cb_size c) (wrap (cb_size c) (cb_readpos c + n)) (cb_writepos c) (cb_used c - n)
    (cb_data c).

Lemma lookup_total_splice (d bs : list Z) (w i : nat) : (w + length bs ≤ length d)%nat →
  (take w d ++ bs ++ drop (w + length bs) d) !!! i =
  if decide (w ≤ i < w + length bs)%nat then bs !!! (i - w)%nat else d !!! i.
Proof.
  intros Hfit. rewrite !list_lookup_total_alt. f_equal. case_decide.
  - rewrite lookup_app_r, lookup_app_l by (rewrite length_take; lia).
    by rewrite length_take_le by lia.
  - destruct (decide (i < w)%nat).
    + rewrite lookup_app_l by (rewrite length_take; lia). by rewrite lookup_take_lt by lia.
    + rewrite !lookup_app_r by (rewrite ?length_take; lia). rewrite lookup_drop.
      rewrite length_take_le by lia. by replace (w + length bs + (i - w - length bs))%nat with i by lia.
Qed.

Section queue.
Context (c : circbuffer) (Hwf : cbuf_wf c).

Lemma cbuf_mem_length : zlen (cbuf_mem c) = cb_size c.
Proof using Hwf.
  unfold cbuf_mem. cbuf_facts. destruct (cb_data c); cbn; [done|]. rewrite length_replicate. lia.
Qed.

Lemma cbuf_wf_alloc : cbuf_wf (cbuf_alloc c).
Proof using Hwf. pose proof cbuf_mem_length. cbuf_facts. split; cbn; done. Qed.

Lemma cbuf_space_fits : 0 ≤ cb_writepos c ∧ cb_writepos c + cbuf_space c ≤ cb_size c.
Proof using Hwf. cbuf_facts. unfold cbuf_space. wrap_lia. Qed.

Lemma cbuf_writeptr_eq n : n ≤ cbuf_space c →
  cbuf_writeptr n c = Ok (cb_writepos c, cbuf_alloc c).
Proof using Hwf.
  intros Hn. unfold cbuf_writeptr. erewrite bind_ok by (by apply cbuf_writelen_eq).
  case_if; [lia|]. erewrite bind_ok by done. unfold cbuf_alloc, cbuf_mem.
  destruct c as [? ? ? ? [|]]; done.
Qed.

Lemma cbuf_wf_push bs : zlen bs ≤ cbuf_space c → cbuf_wf (cbuf_push bs c).
Proof using Hwf.
  intros Hn. pose proof cbuf_mem_length as Hm. pose proof cbuf_space_fits.
  pose proof (cbuf_space_range c Hwf). cbuf_facts. split; cbn; [done|done|lia| |].
  - destruct (Z.eq_dec (cb_used c) (cb_size c)); wrap_lia.
  - replace (Z.to_nat (cb_writepos c + zlen bs)) with (Z.to_nat (cb_writepos c) + length bs)%nat by lia.
    rewrite splice_length; lia.
Qed.

Lemma cbuf_contents_mem : cbuf_contents c =
  (λ i, cbuf_mem c !!! Z.to_nat (wrap (cb_size c) (cb_readpos c + i))) <$> seqZ 0 (cb_used c).
Proof using Hwf.
  unfold cbuf_contents, cbuf_mem. cbuf_facts. destruct (cb_data c); [done|].
  by replace (cb_used c) with 0.
Qed.

Lemma cbuf_contents_push bs : zlen bs ≤ cbuf_space c →
  cbuf_contents (cbuf_push bs c) = cbuf_contents c ++ bs.
Proof using Hwf.
  intros Hn. pose proof cbuf_mem_length as Hm. pose proof cbuf_space_fits.
  pose proof (cbuf_space_range c Hwf). rewrite cbuf_contents_mem.
  unfold cbuf_contents, cbuf_push; cbn [cb_data cb_size cb_readpos cb_used]. cbuf_facts.
  rewrite seqZ_app, fmap_app by lia. f_equal.
  - apply list_fmap_ext. intros _ i Hi%list_elem_of_lookup_2%elem_of_seqZ.
    replace (Z.to_nat (cb_writepos c + zlen bs)) with (Z.to_nat (cb_writepos c) + length bs)%nat by lia.
    rewrite lookup_total_splice by lia. rewrite decide_False; [done|].
    unfold cbuf_space in *. wrap_lia.
  - apply list_eq. intros i. rewrite list_lookup_fmap.
    destruct (decide (Z.of_nat i < zlen bs)) as [Hi|Hi].
    + rewrite lookup_seqZ_lt by lia. cbn.
      replace (Z.to_nat (cb_writepos c + zlen bs)) with (Z.to_nat (cb_writepos c) + length bs)%nat by lia.
      rewrite lookup_total_splice by lia.
      assert (E : Z.to_nat (if cb_readpos c + (0 + cb_used c + Z.of_nat i) <? cb_size c
        then cb_readpos c + (0 + cb_used c + Z.of_nat i)
        else cb_readpos c + (0 + cb_used c + Z.of_nat i) - cb_size c) =
        (Z.to_nat (cb_writepos c) + i)%nat).
      { unfold cbuf_space in *. wrap_lia. }
      rewrite E. rewrite decide_True by lia. rewrite Nat.add_comm, Nat.add_sub.
      symmetry. apply list_lookup_lookup_total_lt. lia.
    + rewrite lookup_seqZ_ge by lia. symmetry. apply lookup_ge_None_2. lia.
Qed.

(** The write step of every producer: pointer, copy, increment. *)
Lemma cbuf_put_eq bs : zlen bs ≤ cbuf_space c → cbuf_put bs c = Ok (tt, cbuf_push bs c).
Proof using Hwf.
  intros Hn. pose proof cbuf_mem_length as Hm. pose proof cbuf_space_fits as Hf.
  pose proof (cbuf_space_range c Hwf). unfold cbuf_put.
  erewrite bind_ok by (apply cbuf_writeptr_eq; lia).
  erewrite bind_ok by (unfold cbuf_store; erewrite bind_ok by done; cbn [cbuf_alloc cb_data];
    erewrite bind_ok by (unfold lift; rewrite mem_store_ok by lia; done); done).
  unfold cbuf_incrwrite.
  set (c1 := mkCbuf _ _ _ _ _).
  assert (Hwf1 : cbuf_wf c1).
  { cbuf_facts. split; cbn; [done..|].
    replace (Z.to_nat (cb_writepos c + zlen bs)) with (Z.to_nat (cb_writepos c) + length bs)%nat by lia.
    rewrite splice_length; lia. }
  erewrite bind_ok by (by apply cbuf_writelen_eq).
  replace (cbuf_space c1) with (cbuf_space c) by done. case_if; [lia|].
  erewrite bind_ok by done. cbuf_facts. subst c1; cbn [cb_used cb_size cb_writepos cb_readpos cb_data cbuf_alloc].
  rewrite !u32_small by (unfold U32; lia).
  erewrite bind_ok by (apply assert_ok; lia).
  erewrite bind_ok by (apply umod_wrap; lia). done.
Qed.

Lemma cbuf_incrread_eq n : 0 ≤ n ≤ cb_used c → cbuf_incrread n c = Ok (tt, cbuf_pop n c).
Proof using Hwf.
  intros. cbuf_facts. unfold cbuf_incrread. erewrite bind_ok by done.
  erewrite bind_ok by (apply assert_ok; lia). rewrite !u32_small by (unfold U32; lia).
  erewrite bind_ok by (apply umod_wrap; lia). done.
Qed.

Lemma cbuf_wf_pop n : 0 ≤ n ≤ cb_used c → cbuf_wf (cbuf_pop n c).
Proof using Hwf.
  intros. cbuf_facts. split; cbn; [done|wrap_lia|lia|wrap_lia|].
  destruct (cb_data c); lia.
Qed.

Lemma cbuf_contents_pop n : 0 ≤ n ≤ cb_used c →
  cbuf_contents (cbuf_pop n c) = drop (Z.to_nat n) (cbuf_contents c).
Proof using Hwf.
  intros. cbuf_facts. unfold cbuf_contents, cbuf_pop; cbn [cb_data cb_size cb_readpos cb_used].
  destruct (cb_data c) as [d|]; [|by rewrite drop_nil].
  replace (seqZ 0 (cb_used c)) with (seqZ 0 n ++ seqZ (0 + n) (cb_used c - n))
    by (rewrite <- seqZ_app by lia; f_equal; lia).
  rewrite fmap_app, drop_app_length' by (rewrite length_fmap, length_seqZ; lia).
  apply list_eq. intros i. rewrite !list_lookup_fmap.
  destruct (decide (Z.of_nat i < cb_used c - n)).
  - rewrite !lookup_seqZ_lt by lia. cbn. do 2 f_equal. wrap_lia.
  - by rewrite !lookup_seqZ_ge by lia.
Qed.
End queue.

(** ** Reading: the two blocks are the queue, in order *)
Lemma seqZ_block (d : list Z) (r n : Z) : 0 ≤ r → 0 ≤ n → r + n ≤ zlen d →
  (λ i, d !!! Z.to_nat i) <$> seqZ r n = take (Z.to_nat n) (drop (Z.to_nat r) d).
Proof.
  intros. apply list_eq. intros i. rewrite list_lookup_fmap.
  destruct (decide (Z.of_nat i < n)).
  - rewrite lookup_seqZ_lt, lookup_take_lt, lookup_drop by lia. cbn.
    replace (Z.to_nat (r + Z.of_nat i)) with (Z.to_nat r + i)%nat by lia.
    symmetry. apply list_lookup_lookup_total_lt. lia.
  - rewrite lookup_seqZ_ge by lia. symmetry. apply lookup_take_ge. lia.
Qed.

(** Positions [a .. a+n-1] counted from the read position, none of them or
    all of them past the end of the memory. *)
Lemma cbuf_block (d : list Z) (size r a n : Z) (k : Z) :
  zlen d = size → 0 ≤ n → 0 ≤ r + a - k → r + a - k + n ≤ size →
  (k = 0 ∨ (k = size ∧ size ≤ r + a)) →
  (λ i, d !!! Z.to_nat (wrap size (r + i))) <$> seqZ a n =
  take (Z.to_nat n) (drop (Z.to_nat (r + a - k)) d).
Proof.
  intros Hd Hn Hlo Hhi Hk. rewrite <- seqZ_block by lia.
  apply list_eq. intros i. rewrite !list_lookup_fmap.
  destruct (decide (Z.of_nat i < n)); [|by rewrite !lookup_seqZ_ge by lia].
  rewrite !lookup_seqZ_lt by lia. cbn. do 2 f_equal. wrap_lia.
Qed.

Lemma take_seqZ n k : 0 ≤ k ≤ n → take (Z.to_nat k) (seqZ 0 n) = seqZ 0 k.
Proof.
  intros. replace n with (k + (n - k)) by lia.
  by rewrite seqZ_app, take_app_length' by (rewrite ?length_seqZ; lia).
Qed.
Lemma drop_seqZ n k : 0 ≤ k ≤ n → drop (Z.to_nat k) (seqZ 0 n) = seqZ k (n - k).
Proof.
  intros. replace n with (k + (n - k)) at 1 by lia.
  rewrite seqZ_app, drop_app_length' by (rewrite ?length_seqZ; lia). by rewrite Z.add_0_l.
Qed.

Section read.
Context (c : circbuffer) (Hwf : cbuf_wf c).

Definition cbuf_len1 : Z := Z.min (cb_used c) (cb_size c - cb_readpos c).

Lemma cbuf_readptrs_eq : cbuf_readptrs c =
  if cbuf_len1 <? cb_used c
  then ((cb_readpos c, cbuf_len1), (Some 0, cb_used c - cbuf_len1))
  else ((cb_readpos c, cbuf_len1), (None, 0)).
Proof using Hwf.
  cbuf_facts. unfold cbuf_readptrs. fold cbuf_len1.
  rewrite (u32_small (cb_size c - cb_readpos c)) by (unfold U32; lia).
  fold cbuf_len1. case_if; [|done].
  rewrite u32_small; [done|]. unfold cbuf_len1, U32 in *. lia.
Qed.

(** The first block alone is the front of the queue. *)
Lemma cbuf_load_block1 : cbuf_load (cb_readpos c) cbuf_len1 c =
  Ok (take (Z.to_nat cbuf_len1) (cbuf_contents c), c).
Proof using Hwf.
  cbuf_facts. unfold cbuf_load. erewrite bind_ok by done. unfold cbuf_contents, cbuf_len1.
  destruct (cb_data c) as [d|].
  - unfold lift. rewrite mem_load_ok by lia. do 2 f_equal.
    rewrite <- fmap_take, take_seqZ, (cbuf_block d _ _ _ _ 0) by lia. do 2 f_equal. lia.
  - case_if; [by rewrite take_nil|]. lia.
Qed.

Lemma cbuf_read_eq : cbuf_read c = Ok (cbuf_contents c, c).
Proof using Hwf.
  unfold cbuf_read. erewrite bind_ok by done. rewrite cbuf_readptrs_eq.
  pose proof cbuf_load_block1 as Hb. unfold cbuf_len1 in *. pose proof (cbuf_contents_length c Hwf).
  destruct (Z.ltb_spec (Z.min (cb_used c) (cb_size c - cb_readpos c)) (cb_used c)).
  - rewrite (bind_ok _ _ _ _ _ Hb). cbuf_facts.
    unfold cbuf_contents in *. destruct (cb_data c) as [d|] eqn:Ed; [|lia].
    erewrite bind_ok by (unfold cbuf_load; erewrite bind_ok by done;
      rewrite Ed; unfold lift; rewrite mem_load_ok by lia; done).
    unfold mret, M_ret. do 2 f_equal. rewrite Z.min_r in * by lia.
    rewrite <- (take_drop (Z.to_nat (cb_size c - cb_readpos c)) (_ <$> seqZ 0 _)) at 2. f_equal.
    rewrite <- fmap_drop, drop_seqZ, (cbuf_block d _ _ _ _ (cb_size c)) by lia. do 2 f_equal. lia.
  - rewrite (bind_ok _ _ _ _ _ Hb). rewrite take_ge; [done|lia].
Qed.
End read.

(** ** Filling: [common_recv_msg_channel_data] stores a block in rounds, each
    as long as the memory reaches.  Two rounds are enough. *)
Fixpoint cbuf_fill (rounds : nat) (bs : list Z) : M circbuffer () :=
  match bs with
  | [] => mret tt
  | _ :: _ =>
      match rounds with
      | O => undefined "out of rounds"
      | S rounds =>
          n ← cbuf_writelen;
          let buflen := Z.min n (zlen bs) in
          cbuf_put (take (Z.to_nat buflen) bs);;
          cbuf_fill rounds (drop (Z.to_nat buflen) bs)
      end
  end.

Lemma cbuf_space_next c bs : cbuf_wf c → zlen bs = cbuf_space c →
  cbuf_space (cbuf_push bs c) = cb_size c - cb_used c - zlen bs.
Proof.
  intros Hwf Hb. cbuf_facts. unfold cbuf_space, cbuf_push in *; cbn. wrap_lia.
Qed.

(** A round stores as much as fits: what [cbuf_fill] does first. *)
Lemma cbuf_fill_round c rounds bs : cbuf_wf c → bs ≠ [] →
  let n := Z.to_nat (Z.min (cbuf_space c) (zlen bs)) in
  cbuf_fill (S rounds) bs c = cbuf_fill rounds (drop n bs) (cbuf_push (take n bs) c) ∧
  zlen (take n bs) ≤ cbuf_space c.
Proof.
  intros Hwf Hb n. pose proof (cbuf_space_range c Hwf).
  assert (Hn : zlen (take n bs) ≤ cbuf_space c) by (rewrite length_take; lia).
  split; [|done]. destruct bs as [|x bs]; [done|]. cbn [cbuf_fill].
  erewrite bind_ok by (by apply cbuf_writelen_eq).
  erewrite bind_ok by (by apply cbuf_put_eq). done.
Qed.

Lemma cbuf_fill_ok c bs : cbuf_wf c → zlen bs ≤ cb_size c - cb_used c →
  ∃ c', cbuf_fill 2 bs c = Ok (tt, c') ∧ cbuf_wf c' ∧ cb_size c' = cb_size c ∧
        cb_used c' = cb_used c + zlen bs ∧
        cbuf_contents c' = cbuf_contents c ++ bs.
Proof.
  intros Hwf Hfit. destruct (decide (bs = [])) as [->|Hne].
  { exists c. cbn. rewrite app_nil_r, Z.add_0_r. done. }
  destruct (cbuf_fill_round c 1 bs Hwf Hne) as [-> Hn].
  set (n := Z.to_nat (Z.min (cbuf_space c) (zlen bs))) in *.
  set (c1 := cbuf_push (take n bs) c).
  pose proof (cbuf_wf_push c Hwf _ Hn) as Hwf1. fold c1 in Hwf1.
  pose proof (cbuf_contents_push c Hwf _ Hn) as Hc1. fold c1 in Hc1.
  assert (Hl : zlen (take n bs) + zlen (drop n bs) = zlen bs)
    by (rewrite length_take, length_drop; lia).
  destruct (decide (drop n bs = [])) as [Hnil|Hne1].
  { rewrite Hnil in *. exists c1. split_and!; [done..|cbn in *; lia|].
    rewrite Hc1. f_equal. rewrite <- (take_drop n bs) at 2. by rewrite Hnil, app_nil_r. }
  assert (Hfull : zlen (take n bs) = cbuf_space c).
  { pose proof (cbuf_space_range c Hwf).
    destruct (decide (n < length bs)%nat); [rewrite length_take; lia|].
    by rewrite drop_ge in Hne1 by lia. }
  pose proof (cbuf_space_next c (take n bs) Hwf Hfull) as Hs1. fold c1 in Hs1.
  destruct (cbuf_fill_round c1 0 (drop n bs) Hwf1 Hne1) as [-> Hn1].
  rewrite Z.min_r, Nat2Z.id, take_ge, drop_ge in * by lia. cbn [cbuf_fill].
  eexists. split_and!; [done|by apply cbuf_wf_push|done|subst c1; cbn; lia|].
  rewrite cbuf_contents_push, Hc1 by (done || lia). by rewrite <- app_assoc, take_drop.
Qed.

(** ** The abstract queue and the refinement *)
Inductive cbuf_op := CWrite (bs : list Z) | CRead | CSkip (n : Z).

Definition cbuf_exec (o : cbuf_op) : M circbuffer (list Z) :=
  match o with
  | CWrite bs => cbuf_fill 2 bs;; mret []
  | CRead => cbuf_read
  | CSkip n => cbuf_incrread n;; mret []
  end.
Definition cbuf_execs (os : list cbuf_op) : M circbuffer (list (list Z)) :=
  foldr (λ o m, r ← cbuf_exec o; rs ← m; mret (r :: rs)) (mret []) os.

(** A bounded queue of bytes: what it holds and what the operation returns. *)
Definition queue_step (cap : Z) (q : list Z) (o : cbuf_op) : option (list Z * list Z) :=
  match o with
  | CWrite bs => if zlen q + zlen bs <=? cap then Some (q ++ bs, []) else None
  | CRead => Some (q, q)
  | CSkip n => if (0 <=? n) && (n <=? zlen q) then Some (drop (Z.to_nat n) q, []) else None
  end.
Fixpoint queue_steps (cap : Z) (q : list Z) (os : list cbuf_op) : option (list Z * list (list Z)) :=
  match os with
  | [] => Some (q, [])
  | o :: os => '(q, r) ← queue_step cap q o; '(q, rs) ← queue_steps cap q os; Some (q, r :: rs)
  end.

Lemma cbuf_exec_refines c o q r : cbuf_wf c →
  queue_step (cb_size c) (cbuf_contents c) o = Some (q, r) →
  ∃ c', cbuf_exec o c = Ok (r, c') ∧ cbuf_wf c' ∧ cb_size c' = cb_size c ∧ cbuf_contents c' = q.
Proof.
  intros Hwf. pose proof (cbuf_contents_length c Hwf) as Hl. destruct o; cbn; rewrite ?Hl.
  - case_if; [|done]. intros [= <- <-].
    destruct (cbuf_fill_ok c bs) as (c' & E & ? & ? & ? & ?); [done|lia|].
    exists c'. rewrite (bind_ok _ _ _ _ _ E). done.
  - intros [= <- <-]. exists c. by rewrite cbuf_read_eq.
  - case_if; [|done]. intros [= <- <-]. exists (cbuf_pop n c).
    rewrite (bind_ok _ _ _ _ _ (cbuf_incrread_eq c Hwf n ltac:(lia))).
    rewrite cbuf_contents_pop by (done || lia). split_and!; [done|apply cbuf_wf_pop; [done|lia]|done..].
Qed.

Lemma cbuf_execs_refines os c q rs : cbuf_wf c →
  queue_steps (cb_size c) (cbuf_contents c) os = Some (q, rs) →
  ∃ c', cbuf_execs os c = Ok (rs, c') ∧ cbuf_wf c' ∧ cbuf_contents c' = q.
Proof.
  revert c q rs. induction os as [|o os IH]; intros c q rs Hwf; cbn [queue_steps].
  { intros [= <- <-]. by exists c. }
  destruct (queue_step _ _ _) as [[q1 r]|] eqn:E1; [|done]; cbn.
  destruct (queue_steps _ _ _) as [[q2 rs2]|] eqn:E2; [|done]; cbn. intros [= <- <-].
  destruct (cbuf_exec_refines _ _ _ _ Hwf E1) as (c1 & R1 & Hwf1 & Hs1 & <-).
  rewrite <- Hs1 in E2. destruct (IH _ _ _ Hwf1 E2) as (c2 & R2 & Hwf2 & <-).
  exists c2. rewrite (bind_ok _ _ _ _ _ R1), (bind_ok _ _ _ _ _ R2). done.
Qed.

Lemma cbuf_wf_new size c : 0 < size → cbuf_new size = Ok c →
  cbuf_wf c ∧ cb_size c = size ∧ cbuf_contents c = [].
Proof.
  intros Hs. unfold cbuf_new. case_if; [done|]. intros [= <-].
  split_and!; [|done..]. unfold MAX_CBUF_SIZE in *. split; cbn; unfold MAX_CBUF_SIZE; wrap_lia.
Qed.

(** C27. A circular buffer of positive size is a bounded queue of bytes: any
    sequence of stores, reads of the two blocks and skips that the queue
    admits runs to completion (no assertion fails, no access leaves the
    memory, storing takes at most two rounds), and every read returns the
    bytes of the queue in order. *)
Theorem cbuf_refines_queue size c os q rs :
  0 < size → cbuf_new size = Ok c → queue_steps size [] os = Some (q, rs) →
  ∃ c', cbuf_execs os c = Ok (rs, c') ∧ cbuf_wf c' ∧ cbuf_contents c' = q.
Proof.
  intros Hs Hn Hq. destruct (cbuf_wf_new _ _ Hs Hn) as (Hwf & <- & Hc).
  apply cbuf_execs_refines; [done|]. by rewrite Hc.
Qed.
Lemma cbuf_refines_queue_witness :
  ∃ c', cbuf_execs [CWrite [1; 2; 3]; CSkip 2; CWrite [4; 5; 6]; CRead; CSkip 3]
          (mkCbuf 4 0 0 0 None) = Ok ([[]; []; []; [3; 4; 5; 6]; []], c') ∧
        cbuf_wf c' ∧ cbuf_contents c' = [6].
Proof. apply (cbuf_refines_queue 4 (mkCbuf 4 0 0 0 None)); [lia|reflexivity..]. Defined.
