(* ===== verification/Queue.v ===== *)
(** * Linked queues ([dropbear/queue.c])

    The queue of packets waiting to be written is a singly linked list with a
    head and a tail pointer.  It is modelled with its memory: a heap maps the
    addresses [m_malloc] returned and [m_free] has not released to their
    records, and a dereference of any other address is undefined.  The theorems
    show that it implements a sequence, and that it releases exactly what it
    allocated. *)
From S2P Require Import Prelude.

(** Addresses; the null pointer is [None]. *)
Abbreviation loc := positive.

(** Dereference of a pointer into a heap of [R]-records. *)
Definition deref {S R} (h : S → gmap loc R) (p : option loc) : M S R :=
  s ← get;
  match p ≫= λ l, h s !! l with
  | Some r => mret r
  | None => undefined "null or dangling pointer"
  end.

Section queue.
Context {A : Type}.

(** ** [struct Link], [struct Queue] *)
Record Link := mkLink { item : A; link : option loc }.
Record Queue := mkQueue {
  q_heap : gmap loc Link;
  q_head : option loc;
  q_tail : option loc;
  q_count : Z
}.

Definition initqueue (h : gmap loc Link) : Queue := mkQueue h None None 0.

Definition isempty (q : Queue) : bool := bool_decide (q_head q = None).

Definition dequeue : M Queue A :=
  q ← get;
  dropbear_assert (negb (isempty q));;
  hd ← deref q_heap (q_head q);
  let oldhead := q_head q in
  (if bool_decide (link hd = None)
   then modify (λ q, mkQueue (q_heap q) None None (q_count q))
   else modify (λ q, mkQueue (q_heap q) (link hd) (q_tail q) (q_count q)));;
  modify (λ q, mkQueue (from_option (λ l, delete l (q_heap q)) (q_heap q) oldhead)
                 (q_head q) (q_tail q) (u32 (q_count q - 1)));;
  mret (item hd).

Definition examine : M Queue A :=
  q ← get;
  dropbear_assert (negb (isempty q));;
  hd ← deref q_heap (q_head q);
  mret (item hd).

Definition enqueue (x : A) : M Queue () :=
  q ← get;
  let newlink := fresh (dom (q_heap q) : gset loc) in
  put (mkQueue (<[newlink := mkLink x None]> (q_heap q)) (q_head q) (q_tail q) (q_count q));;
  match q_tail q with
  | Some t =>
      old ← deref q_heap (Some t);
      modify (λ q, mkQueue (<[t := mkLink (item old) (Some newlink)]> (q_heap q))
                     (q_head q) (q_tail q) (q_count q))
  | None => mret tt
  end;;
  modify (λ q, mkQueue (q_heap q) (q_head q) (Some newlink) (q_count q));;
  modify (λ q, mkQueue (q_heap q)
                 (if bool_decide (q_head q = None) then Some newlink else q_head q)
                 (q_tail q) (u32 (q_count q + 1))).

(** ** The sequence a queue stands for *)
Fixpoint chain (h : gmap loc Link) (p : option loc) (ls : list loc) (xs : list A) : Prop :=
  match ls, xs with
  | [], [] => p = None
  | l :: ls, x :: xs => p = Some l ∧ ∃ next, h !! l = Some (mkLink x next) ∧ chain h next ls xs
  | _, _ => False
  end.

(** The links are distinct, the heap holds nothing else, and [count] is the
    length modulo 2^32. *)
Definition queue_rep (q : Queue) (xs : list A) : Prop :=
  ∃ ls, chain (q_heap q) (q_head q) ls xs ∧ NoDup ls ∧ q_tail q = last ls ∧
        dom (q_heap q) = list_to_set (C := gset loc) ls ∧ q_count q = u32 (zlen xs).

Lemma chain_frame h h' p ls xs : (∀ l, l ∈ ls → h' !! l = h !! l) →
  chain h p ls xs → chain h' p ls xs.
Proof.
  revert p xs. induction ls as [|l ls IH]; intros p [|x xs]; cbn; try done.
  intros Hf (-> & next & Hl & Hc). split; [done|]. exists next.
  rewrite Hf by set_solver. split; [done|]. apply IH; [set_solver|done].
Qed.

Lemma chain_isempty h p ls xs : chain h p ls xs → p = None ↔ xs = [].
Proof. destruct ls, xs; cbn; naive_solver. Qed.

Lemma chain_length h p ls xs : chain h p ls xs → length ls = length xs.
Proof.
  revert p xs. induction ls as [|l ls IH]; intros p [|x xs]; cbn; try done.
  intros (_ & next & _ & Hc). f_equal. eauto.
Qed.

(** Hanging a new link at the end of the chain. *)
Lemma chain_snoc h p ls t x xs l : NoDup (ls ++ [t]) → l ∉ ls ++ [t] → chain h p (ls ++ [t]) xs →
  ∃ y, h !! t = Some (mkLink y None) ∧
  chain (<[t := mkLink y (Some l)]> (<[l := mkLink x None]> h)) p (ls ++ [t; l]) (xs ++ [x]).
Proof.
  revert p xs. induction ls as [|l' ls IH]; intros p [|x' xs]; cbn; try done.
  - intros Hnd Hl (-> & next & Ht & Hc). destruct xs; [|done]. cbn in Hc. subst next.
    exists x'. split; [done|]. split; [done|]. exists (Some l).
    rewrite lookup_insert_eq. split; [done|]. split; [done|]. exists None.
    rewrite lookup_insert_ne, lookup_insert_eq by set_solver. done.
  - intros [Hl' Hnd]%NoDup_cons Hl (-> & next & Hl'' & Hc).
    destruct (IH next xs Hnd ltac:(set_solver) Hc) as (y & Ht & Hc').
    exists y. split; [done|]. split; [done|]. exists next. split; [|done].
    rewrite !lookup_insert_ne by set_solver. done.
Qed.

Lemma initqueue_rep : queue_rep (initqueue ∅) [].
Proof. exists []. split_and!; [done|constructor|done|set_solver|done]. Qed.

Lemma isempty_rep q xs : queue_rep q xs → isempty q = bool_decide (xs = []).
Proof.
  intros (ls & Hc & _). unfold isempty. apply bool_decide_ext. by eapply chain_isempty.
Qed.

Lemma u32_add_mod x y : u32 (u32 x + y) = u32 (x + y).
Proof. unfold u32. by rewrite Zplus_mod_idemp_l. Qed.
Lemma u32_sub_mod x y : u32 (u32 x - y) = u32 (x - y).
Proof. unfold u32. by rewrite Zminus_mod_idemp_l. Qed.

Lemma enqueue_rep q xs x : queue_rep q xs →
  ∃ q', enqueue x q = Ok (tt, q') ∧ queue_rep q' (xs ++ [x]).
Proof.
  intros (ls & Hc & Hnd & Ht & Hd & Hn). unfold enqueue. erewrite bind_ok by done.
  set (l := fresh (dom (q_heap q))). pose proof (is_fresh (dom (q_heap q) : gset loc)) as Hl. fold l in Hl.
  assert (Hcount : u32 (q_count q + 1) = u32 (zlen (xs ++ [x]))).
  { rewrite Hn, u32_add_mod, length_app. f_equal. cbn. lia. }
  destruct (decide (ls = [])) as [->|Hne].
  - cbn in Ht. rewrite Ht. destruct xs as [|]; [|done]. cbn in Hc.
    eexists. split; [reflexivity|]. exists [l]. cbn. rewrite Hc, bool_decide_true by done.
    split_and!; [done|exists None; by rewrite lookup_insert_eq|apply NoDup_singleton|done|set_solver|done].
  - apply exists_last in Hne as (ls' & t & ->).
    rewrite last_snoc in Ht. rewrite Ht.
    destruct (chain_snoc (q_heap q) (q_head q) ls' t x xs l) as (y & Hty & Hc');
      [done|rewrite Hd in Hl; set_solver|done|].
    assert (Hlt : l ≠ t) by (rewrite Hd in Hl; set_solver).
    erewrite bind_ok by done.
    erewrite bind_ok by (erewrite bind_ok by (unfold deref; erewrite bind_ok by done; cbn;
      rewrite lookup_insert_ne, Hty by done; done); reflexivity).
    eexists. split; [reflexivity|]. exists (ls' ++ [t; l]). cbn.
    assert (Hhead : q_head q ≠ None).
    { intros Hnone. rewrite Hnone in Hc. destruct ls', xs; cbn in Hc; naive_solver. }
    rewrite bool_decide_false by done.
    split_and!; [done| | |rewrite !dom_insert_L, Hd; set_solver|done].
    + replace (ls' ++ [t; l]) with ((ls' ++ [t]) ++ [l]) by by rewrite <- app_assoc.
      apply NoDup_app. split_and!; [done| |apply NoDup_singleton]. rewrite Hd in Hl. set_solver.
    + by replace (ls' ++ [t; l]) with ((ls' ++ [t]) ++ [l]) by (by rewrite <- app_assoc);
        rewrite last_snoc.
Qed.

Lemma dequeue_rep q x xs : queue_rep q (x :: xs) →
  ∃ q', dequeue q = Ok (x, q') ∧ queue_rep q' xs.
Proof.
  intros Hr. pose proof (isempty_rep _ _ Hr) as He. destruct Hr as (ls & Hc & Hnd & Ht & Hd & Hn).
  destruct ls as [|l ls]; [done|]. destruct Hc as (Hh & next & Hl & Hc).
  apply NoDup_cons in Hnd as [Hl' Hnd]. unfold dequeue. erewrite bind_ok by done.
  erewrite bind_ok by (apply assert_ok; rewrite He; done).
  erewrite bind_ok by (unfold deref; erewrite bind_ok by done; rewrite Hh; cbn; rewrite Hl; done).
  assert (Hcount : u32 (q_count q - 1) = u32 (zlen xs)).
  { rewrite Hn, u32_sub_mod. f_equal. cbn. lia. }
  assert (Hfr : chain (delete l (q_heap q)) next ls xs).
  { eapply chain_frame, Hc. intros l' ?. rewrite lookup_delete_ne by set_solver. done. }
  assert (Hdom : dom (delete l (q_heap q)) = list_to_set (C := gset loc) ls).
  { rewrite dom_delete_L, Hd. cbn. set_solver. }
  rewrite Hh. cbn [link item].
  destruct next as [l2|]; cbn; (eexists; split; [reflexivity|]); exists ls; cbn; split_and!; try done.
  - rewrite Ht. destruct ls; [by destruct xs|done].
  - destruct ls; [done|]. by destruct xs; [done|]; cbn in Hc; destruct Hc.
Qed.

Lemma examine_rep q x xs : queue_rep q (x :: xs) → examine q = Ok (x, q).
Proof.
  intros Hr. pose proof (isempty_rep _ _ Hr) as He. destruct Hr as (ls & Hc & _).
  destruct ls as [|l ls]; [done|]. destruct Hc as (Hh & next & Hl & Hc).
  unfold examine. erewrite bind_ok by done.
  erewrite bind_ok by (apply assert_ok; rewrite He; done).
  by erewrite bind_ok by (unfold deref; erewrite bind_ok by done; rewrite Hh; cbn; rewrite Hl; done).
Qed.
End queue.
Arguments Link A : clear implicits.
Arguments Queue A : clear implicits.

(** ** The refinement, for sequences of operations *)
Section refinement.
Context {A : Type}.

Inductive qop := Enqueue (x : A) | Dequeue | Examine | IsEmpty.

Definition qexec (o : qop) : M (Queue A) (option A + bool) :=
  match o with
  | Enqueue x => enqueue x;; mret (inl None)
  | Dequeue => x ← dequeue; mret (inl (Some x))
  | Examine => x ← examine; mret (inl (Some x))
  | IsEmpty => b ← gets isempty; mret (inr b)
  end.
Definition qspec (o : qop) : M (list A) (option A + bool) := λ xs,
  match o, xs with
  | Enqueue x, _ => Ok (inl None, xs ++ [x])
  | Dequeue, x :: xs => Ok (inl (Some x), xs)
  | Examine, x :: _ => Ok (inl (Some x), xs)
  | IsEmpty, _ => Ok (inr (bool_decide (xs = [])), xs)
  | _, [] => Exit "Failed assertion"
  end.
Definition qruns {S R} (step : qop → M S R) (os : list qop) : M S (list R) :=
  foldr (λ o m, r ← step o; rs ← m; mret (r :: rs)) (mret []) os.

Lemma qruns_cons {S R} (step : qop → M S R) o os s :
  qruns step (o :: os) s = (r ← step o; rs ← qruns step os; mret (r :: rs)) s.
Proof. done. Qed.

Lemma qexec_empty q o : queue_rep q [] → (o = Dequeue ∨ o = Examine) →
  qexec o q = Exit "Failed assertion".
Proof.
  intros Hr Ho. pose proof (isempty_rep _ _ Hr) as He.
  destruct Ho as [-> | ->]; cbn; apply bind_exit; unfold dequeue, examine; erewrite bind_ok by done;
    apply bind_exit; by rewrite He.
Qed.

Lemma qexec_refines q xs o : queue_rep q xs →
  match qspec o xs with
  | Ok (r, xs') => ∃ q', qexec o q = Ok (r, q') ∧ queue_rep q' xs'
  | Exit e => qexec o q = Exit e
  | UB _ => False
  end.
Proof.
  intros Hr. destruct o; cbn.
  - destruct (enqueue_rep q xs x Hr) as (q' & E & ?). exists q'. by rewrite (bind_ok _ _ _ _ _ E).
  - destruct xs as [|x xs]; [by apply (qexec_empty q Dequeue); auto|].
    destruct (dequeue_rep q x xs Hr) as (q' & E & ?). exists q'. by rewrite (bind_ok _ _ _ _ _ E).
  - destruct xs as [|x xs]; [by apply (qexec_empty q Examine); auto|].
    exists q. by rewrite (bind_ok _ _ _ _ _ (examine_rep q x xs Hr)).
  - exists q. erewrite bind_ok by done. by rewrite (isempty_rep _ _ Hr).
Qed.

Lemma qruns_refines os q xs : queue_rep q xs →
  match qruns qspec os xs with
  | Ok (rs, xs') => ∃ q', qruns qexec os q = Ok (rs, q') ∧ queue_rep q' xs'
  | Exit e => qruns qexec os q = Exit e
  | UB _ => False
  end.
Proof.
  revert q xs. induction os as [|o os IH]; intros q xs Hr; [by exists q|].
  rewrite !qruns_cons. pose proof (qexec_refines q xs o Hr) as Ho. unfold mbind, M_bind.
  destruct (qspec o xs) as [[r xs1]|e|]; [|by rewrite Ho|done].
  destruct Ho as (q1 & -> & Hr1). specialize (IH q1 xs1 Hr1).
  destruct (qruns qspec os xs1) as [[rs xs2]|e|]; [|by rewrite IH|done].
  destruct IH as (q2 & -> & Hr2). by exists q2.
Qed.

Lemma queue_rep_size q xs : queue_rep q xs → size (q_heap q) = length (A := A) xs.
Proof.
  intros (ls & Hc & Hnd & _ & Hd & _). rewrite <- (chain_length _ _ _ _ Hc).
  rewrite <- size_dom, Hd. by apply size_list_to_set.
Qed.

(** The linked queue implements a sequence: any run of [enqueue],
    [dequeue], [examine] and [isempty] from [initqueue] gives the results of
    the sequence, fails its assertion exactly where the sequence is empty, never
    follows a null or dangling pointer, counts its elements, and holds one
    link of memory per element. *)
Theorem queue_implements_sequence (os : list qop) :
  match qruns qspec os [] with
  | Ok (rs, xs) =>
      ∃ q, qruns qexec os (initqueue ∅) = Ok (rs, q) ∧ queue_rep q xs ∧
           q_count q = u32 (zlen xs) ∧ size (q_heap q) = length xs
  | Exit e => qruns qexec os (initqueue ∅) = Exit e
  | UB _ => False
  end.
Proof.
  pose proof (qruns_refines os _ _ initqueue_rep) as H.
  destruct (qruns qspec os []) as [[rs xs]| |]; [|done..]. destruct H as (q & E & Hr).
  exists q. split_and!; [done..| |by apply queue_rep_size]. by destruct Hr as (? & _ & _ & _ & _ & ?).
Qed.
End refinement.
