(* ===== verification/DList.v ===== *)
(** * Doubly linked lists ([dropbear/list.c])

    A heap maps the addresses that [m_malloc] returned and [m_free] has not
    released to their elements; a dereference of any other address is undefined.
    The list of pending connections is such a list, and so are the buffers of
    [jni/buffersu.c].  Every element of a list here has that list as its
    [elem->list]. *)
From S2P Require Import Prelude Queue.

Section dlist.
Context {A : Type}.

Record m_list_elem := mkElem { e_item : A; e_next : option loc; e_prev : option loc }.
Record m_list := mkList { l_heap : gmap loc m_list_elem; l_first : option loc; l_last : option loc }.

Definition set_heap (h : gmap loc m_list_elem) (l : m_list) : m_list := mkList h (l_first l) (l_last l).
Definition set_first (p : option loc) (l : m_list) : m_list := mkList (l_heap l) p (l_last l).
Definition set_last (p : option loc) (l : m_list) : m_list := mkList (l_heap l) (l_first l) p.
(** Assignment through a pointer. *)
Definition upd_elem (p : option loc) (f : m_list_elem → m_list_elem) : M m_list () :=
  e ← deref l_heap p;
  match p with Some l => modify (λ s, set_heap (<[l := f e]> (l_heap s)) s) | None => undefined "null pointer" end.
Definition set_next (p : option loc) (e : m_list_elem) : m_list_elem := mkElem (e_item e) p (e_prev e).
Definition set_prev (p : option loc) (e : m_list_elem) : m_list_elem := mkElem (e_item e) (e_next e) p.

Definition list_new : m_list := mkList ∅ None None.

Definition list_append (item : A) : M m_list () :=
  s ← get;
  let elem := fresh (dom (l_heap s) : gset loc) in
  (if bool_decide (l_first s = None) then
     modify (λ s, set_heap (<[elem := mkElem item None None]> (l_heap s)) s);;
     modify (set_first (Some elem))
   else
     modify (λ s, set_heap (<[elem := mkElem item None (l_last s)]> (l_heap s)) s);;
     upd_elem (l_last s) (set_next (Some elem)));;
  modify (set_last (Some elem)).

Definition list_remove (elem : loc) : M m_list A :=
  e ← deref l_heap (Some elem);
  s ← get;
  when (bool_decide (l_first s = Some elem)) (modify (set_first (e_next e)));;
  s ← get;
  when (bool_decide (l_last s = Some elem)) (modify (set_last (e_prev e)));;
  when (bool_decide (is_Some (e_prev e))) (upd_elem (e_prev e) (set_next (e_next e)));;
  when (bool_decide (is_Some (e_next e))) (upd_elem (e_next e) (set_prev (e_prev e)));;
  modify (λ s, set_heap (delete elem (l_heap s)) s);;
  mret (e_item e).

(** The loop [for (iter = list->first; iter; iter = iter->next)], as far as
    element [i]. *)
Fixpoint walk (i : nat) (p : option loc) : M m_list (option loc) :=
  match i with
  | O => mret p
  | S i => match p with None => mret None | Some _ => e ← deref l_heap p; walk i (e_next e) end
  end.

(** ** The sequence a list stands for *)

(** The elements [ls] from [p] to before [q]; [prev] is in front of the first,
    [last] is the last of them. *)
Fixpoint dseg (h : gmap loc m_list_elem) (prev p : option loc) (ls : list loc) (xs : list A) (q last : option loc) : Prop :=
  match ls, xs with
  | [], [] => p = q ∧ last = prev
  | l :: ls, x :: xs => p = Some l ∧ ∃ n, h !! l = Some (mkElem x n prev) ∧ dseg h (Some l) n ls xs q last
  | _, _ => False
  end.
Definition list_at (s : m_list) (ls : list loc) (xs : list A) : Prop :=
  dseg (l_heap s) None (l_first s) ls xs None (l_last s) ∧ NoDup ls ∧ dom (l_heap s) = list_to_set (C := gset loc) ls.
Definition list_rep (s : m_list) (xs : list A) : Prop := ∃ ls, list_at s ls xs.

Lemma dseg_frame h h' prev p ls xs q last : (∀ l, l ∈ ls → h' !! l = h !! l) →
  dseg h prev p ls xs q last → dseg h' prev p ls xs q last.
Proof.
  revert prev p xs. induction ls as [|l ls IH]; intros prev p [|x xs]; cbn; try done.
  intros Hf (-> & n & Hl & Hc). split; [done|]. exists n. rewrite Hf by set_solver. split; [done|]. apply IH; [set_solver|done].
Qed.
Lemma dseg_app h prev p ls1 ls2 xs q last :
  dseg h prev p (ls1 ++ ls2) xs q last ↔
  ∃ xs1 xs2 m last1, xs = xs1 ++ xs2 ∧ dseg h prev p ls1 xs1 m last1 ∧ dseg h last1 m ls2 xs2 q last.
Proof.
  revert prev p xs. induction ls1 as [|l ls1 IH]; intros prev p xs; cbn [app].
  - split; [intros H; by exists [], xs, p, prev|]. intros (xs1 & xs2 & m & last1 & -> & H1 & H2). destruct xs1; [|done]. by destruct H1 as [-> ->].
  - split.
    + destruct xs as [|x xs]; [done|]. cbn. intros (-> & n & Hl & Hc). apply IH in Hc as (xs1 & xs2 & m & last1 & -> & H1 & H2).
      exists (x :: xs1), xs2, m, last1. split; [done|]. split; [|done]. cbn. eauto.
    + intros (xs1 & xs2 & m & last1 & -> & H1 & H2). destruct xs1 as [|x xs1]; [done|]. cbn in *. destruct H1 as (-> & n & Hl & H1).
      split; [done|]. exists n. split; [done|]. apply IH. by exists xs1, xs2, m, last1.
Qed.
Lemma dseg_length h prev p ls xs q last : dseg h prev p ls xs q last → length ls = length xs.
Proof. revert prev p xs. induction ls as [|l ls IH]; intros prev p [|x xs]; cbn; try done. intros (_ & n & _ & H). f_equal. eauto. Qed.
Lemma dseg_last h prev p ls xs q last : dseg h prev p ls xs q last → last = match list.last ls with Some l => Some l | None => prev end.
Proof.
  revert prev p xs. induction ls as [|l ls IH]; intros prev p [|x xs]; cbn [dseg]; try done; [by intros [_ ->]|].
  intros (_ & n & _ & H). apply IH in H. rewrite H, last_cons. by destruct (list.last ls).
Qed.
Lemma dseg_first h prev p ls xs q last : dseg h prev p ls xs q last → p = match head ls with Some l => Some l | None => q end.
Proof. destruct ls, xs; cbn; naive_solver. Qed.

(** The first element with another item. *)
Lemma list_at_set_first s l ls x xs y : list_at s (l :: ls) (x :: xs) →
  ∃ n, l_heap s !! l = Some (mkElem x n None) ∧
    list_at (set_heap (<[l := mkElem y n None]> (l_heap s)) s) (l :: ls) (y :: xs).
Proof.
  intros (Hc & Hnd & Hd). destruct Hc as (Hf & n & Hl & Hc). exists n. split; [done|]. apply NoDup_cons in Hnd as [Hni Hnd].
  split; [|split; [by constructor|cbn; rewrite dom_insert_L, Hd; set_solver]]. cbn. split; [done|]. exists n. rewrite lookup_insert_eq. split; [done|].
  eapply dseg_frame; [|exact Hc]. intros k Hk. apply lookup_insert_ne. by intros <-.
Qed.

(** The segment with another element behind it, or another in front. *)
Lemma dseg_relink_next h prev p ls xs q q' last l : NoDup (ls ++ [l]) → ∀ x, dseg h prev p (ls ++ [l]) (xs ++ [x]) q last →
  ∃ pr, h !! l = Some (mkElem x q pr) ∧ dseg (<[l := mkElem x q' pr]> h) prev p (ls ++ [l]) (xs ++ [x]) q' last.
Proof.
  intros Hnd x H. apply dseg_app in H as (xs1 & xs2 & m & last1 & E & H1 & H2).
  pose proof (dseg_length _ _ _ _ _ _ _ H2) as Hl2. destruct xs2 as [|y [|]]; try done. apply app_inj_tail in E as [<- <-].
  cbn in H2. destruct H2 as (-> & n & Hl & -> & ->). exists last1. split; [done|]. apply dseg_app. exists xs, [x], (Some l), last1. split; [done|].
  split.
  - eapply dseg_frame; [|exact H1]. intros l' Hl'. apply lookup_insert_ne. apply NoDup_app in Hnd as (_ & Hd & _). intros <-. apply (Hd l Hl'). by left.
  - cbn. split; [done|]. exists q'. by rewrite lookup_insert_eq.
Qed.
Lemma dseg_relink_prev h prev prev' p ls xs q last : NoDup ls → dseg h prev p ls xs q last →
  match ls, xs with
  | l :: _, x :: _ => ∃ n, h !! l = Some (mkElem x n prev) ∧ dseg (<[l := mkElem x n prev']> h) prev' p ls xs q last
  | _, _ => True
  end.
Proof.
  destruct ls as [|l ls], xs as [|x xs]; try done. cbn. intros [Hl Hnd]%NoDup_cons (-> & n & E & H). exists n. split; [done|]. split; [done|].
  exists n. rewrite lookup_insert_eq. split; [done|]. eapply dseg_frame; [|exact H]. intros l' Hl'. apply lookup_insert_ne. by intros <-.
Qed.

Lemma deref_ok (s : m_list) l e : l_heap s !! l = Some e → deref l_heap (Some l) s = Ok (e, s).
Proof. intros H. unfold deref. erewrite bind_ok by done. cbn. by rewrite H. Qed.
Lemma upd_elem_ok (s : m_list) l e f : l_heap s !! l = Some e → upd_elem (Some l) f s = Ok (tt, set_heap (<[l := f e]> (l_heap s)) s).
Proof. intros H. unfold upd_elem. by erewrite bind_ok by (by apply deref_ok). Qed.

Lemma upd_elem_cases (s : m_list) l f : upd_elem (Some l) f s =
  match l_heap s !! l with Some e => Ok (tt, set_heap (<[l := f e]> (l_heap s)) s) | None => UB "null or dangling pointer" end.
Proof. destruct (l_heap s !! l) eqn:E; [by apply upd_elem_ok|]. unfold upd_elem, deref, mbind, M_bind, get. simpl option_bind. unfold option_bind. by rewrite E. Qed.

Lemma list_append_at s ls xs x : list_at s ls xs →
  ∃ s' l, list_append x s = Ok (tt, s') ∧ list_at s' (ls ++ [l]) (xs ++ [x]).
Proof.
  intros (Hc & Hnd & Hd). set (l := fresh (dom (l_heap s))). pose proof (is_fresh (dom (l_heap s) : gset loc)) as Hf. fold l in Hf.
  assert (Hl : l ∉ ls) by (rewrite Hd in Hf; set_solver).
  unfold list_append. erewrite bind_ok by done. fold l. destruct s as [h fi la]. cbn [l_heap l_first l_last] in *.
  destruct ls as [|l0 ls0] eqn:Els; [destruct xs; [|done]|].
  - destruct Hc as [-> ->]. rewrite bool_decide_eq_true_2 by done. eexists _, l. split; [done|]. unfold list_at. cbn.
    split_and!; [done|exists None; by rewrite lookup_insert_eq|apply NoDup_singleton|set_solver].
  - rewrite <- Els in *. assert (Hfi : fi = Some l0) by (rewrite Els in Hc; destruct xs; [done|by destruct Hc]).
    rewrite Hfi, bool_decide_eq_false_2 by done.
    destruct (exists_last (l := ls)) as (ls' & t & ->); [by rewrite Els|]. pose proof (dseg_length _ _ _ _ _ _ _ Hc) as Hlen.
    destruct (exists_last (l := xs)) as (xs' & y & ->); [intros ->; rewrite length_app in Hlen; cbn in Hlen; lia|].
    pose proof (dseg_last _ _ _ _ _ _ _ Hc) as Hla. rewrite last_snoc in Hla. subst la.
    assert (Hc' : dseg (<[l := mkElem x None (Some t)]> h) None fi (ls' ++ [t]) (xs' ++ [y]) None (Some t)).
    { eapply dseg_frame; [|exact Hc]. intros l' Hl'. apply lookup_insert_ne. by intros <-. }
    destruct (dseg_relink_next _ _ _ _ _ _ (Some l) _ t Hnd y Hc') as (pr & Ht & Hc2).
    erewrite bind_ok; [|erewrite bind_ok by done; apply upd_elem_ok; exact Ht].
    eexists _, l. split; [done|]. unfold list_at, set_last, set_heap, set_next. cbn [l_heap l_first l_last e_item e_prev]. split_and!.
    + rewrite <- Hfi. apply dseg_app. exists (xs' ++ [y]), [x], (Some l), (Some t). split; [done|]. split; [exact Hc2|].
      cbn. split; [done|]. exists None. rewrite lookup_insert_ne by (intros ->; set_solver). by rewrite lookup_insert_eq.
    + apply NoDup_app. split_and!; [done|set_solver|apply NoDup_singleton].
    + rewrite !dom_insert_L, Hd. set_solver.
Qed.
(** Unlinking the element between two segments, from the left and from the
    right. *)
Lemma unlink_prev h fi la fi' la' l (ls1 ls2 : list loc) xs1 xs2 n last1 : NoDup ls1 → (∀ k, k ∈ ls1 → k ∉ ls2) →
  dseg h None fi ls1 xs1 (Some l) last1 → dseg h (Some l) n ls2 xs2 None la →
  (ls1 = [] → fi' = n) → (ls1 ≠ [] → fi' = fi) →
  ∃ h1, when (bool_decide (is_Some last1)) (upd_elem last1 (set_next n)) (mkList h fi' la') = Ok (tt, mkList h1 fi' la') ∧
    dseg h1 None fi' ls1 xs1 n last1 ∧ dseg h1 (Some l) n ls2 xs2 None la ∧ dom h1 = dom h.
Proof.
  intros Hnd Hdis H1 H2 Hf1 Hf2. destruct (decide (ls1 = [])) as [->|Hne].
  - destruct xs1; [|done]. cbn in H1. destruct H1 as [_ ->]. rewrite bool_decide_eq_false_2 by (by intros []). exists h. rewrite Hf1 by done. by split_and!.
  - rewrite (Hf2 Hne) in *. destruct (exists_last Hne) as (ls' & t & ->). pose proof (dseg_length _ _ _ _ _ _ _ H1) as Hlen.
    destruct (exists_last (l := xs1)) as (xs' & y & ->); [intros ->; rewrite length_app in Hlen; cbn in Hlen; lia|].
    pose proof (dseg_last _ _ _ _ _ _ _ H1) as Hla. rewrite last_snoc in Hla. subst last1. rewrite bool_decide_eq_true_2 by done. cbn [when].
    destruct (dseg_relink_next _ _ _ _ _ _ n _ t Hnd y H1) as (pr & Ht & H1').
    exists (<[t := mkElem y n pr]> h). split; [by erewrite upd_elem_ok by exact Ht|]. split_and!; [done| |].
    + eapply dseg_frame; [|exact H2]. intros k Hk. apply lookup_insert_ne. intros <-. apply (Hdis t); set_solver.
    + rewrite dom_insert_L. apply elem_of_dom_2 in Ht. set_solver.
Qed.
Lemma unlink_next h fi la' l (ls1 ls2 : list loc) xs1 xs2 n la last1 fi' : NoDup ls2 → (∀ k, k ∈ ls1 → k ∉ ls2) →
  dseg h None fi ls1 xs1 n last1 → dseg h (Some l) n ls2 xs2 None la →
  (ls2 = [] → la' = last1) → (ls2 ≠ [] → la' = la) →
  ∃ h1, when (bool_decide (is_Some n)) (upd_elem n (set_prev last1)) (mkList h fi' la') = Ok (tt, mkList h1 fi' la') ∧
    dseg h1 None fi ls1 xs1 n last1 ∧ dseg h1 last1 n ls2 xs2 None la' ∧ dom h1 = dom h.
Proof.
  intros Hnd Hdis H1 H2 Hl1 Hl2. destruct ls2 as [|u ls2], xs2 as [|x2 xs2]; try done.
  - cbn in H2. destruct H2 as [-> ->]. rewrite bool_decide_eq_false_2 by (by intros []). exists h. rewrite Hl1 by done. by split_and!.
  - rewrite Hl2 by done. pose proof (dseg_relink_prev h (Some l) last1 n (u :: ls2) (x2 :: xs2) None la Hnd H2) as (n2 & Hu & H2').
    destruct H2 as (-> & _). rewrite bool_decide_eq_true_2 by done. cbn [when].
    exists (<[u := mkElem x2 n2 last1]> h). split; [by erewrite upd_elem_ok by exact Hu|]. split_and!; [|done|].
    + eapply dseg_frame; [|exact H1]. intros k Hk. apply lookup_insert_ne. intros <-. apply (Hdis u Hk). by left.
    + rewrite dom_insert_L. apply elem_of_dom_2 in Hu. set_solver.
Qed.
Lemma list_remove_at s ls1 l ls2 xs : list_at s (ls1 ++ l :: ls2) xs →
  ∃ xs1 x xs2 s', xs = xs1 ++ x :: xs2 ∧ length xs1 = length ls1 ∧ list_remove l s = Ok (x, s') ∧ list_at s' (ls1 ++ ls2) (xs1 ++ xs2).
Proof.
  intros (Hc & Hnd & Hd). destruct s as [h fi la]. cbn [l_heap l_first l_last] in *.
  apply dseg_app in Hc as (xs1 & xs2' & m & last1 & -> & H1 & H2). destruct xs2' as [|x xs2]; [done|]. cbn in H2. destruct H2 as (-> & n & Hl & H2).
  pose proof (dseg_length _ _ _ _ _ _ _ H1) as Hlen. pose proof (dseg_first _ _ _ _ _ _ _ H1) as Hfi. pose proof (dseg_last _ _ _ _ _ _ _ H2) as Hla.
  apply NoDup_app in Hnd as (Hnd1 & Hdis & Hnd2). apply NoDup_cons in Hnd2 as [Hl2 Hnd2].
  assert (Hl1 : l ∉ ls1) by (intros H; apply (Hdis l H); by left).
  assert (Hdis2 : ∀ k, k ∈ ls1 → k ∉ ls2) by (intros k Hk Hk2; apply (Hdis k Hk); by right).
  set (fi' := if bool_decide (fi = Some l) then n else fi). set (la' := if bool_decide (la = Some l) then last1 else la).
  assert (Hf1 : ls1 = [] → fi' = n) by (intros ->; cbn in Hfi; unfold fi'; by rewrite bool_decide_eq_true_2).
  assert (Hf2 : ls1 ≠ [] → fi' = fi).
  { intros Hne. unfold fi'. rewrite bool_decide_eq_false_2; [done|]. destruct ls1 as [|k ls1]; [done|]. cbn in Hfi. rewrite Hfi. intros [= ->]. by apply Hl1; left. }
  assert (Hg1 : ls2 = [] → la' = last1) by (intros ->; cbn in Hla; unfold la'; by rewrite bool_decide_eq_true_2).
  assert (Hg2 : ls2 ≠ [] → la' = la).
  { intros Hne. unfold la'. rewrite bool_decide_eq_false_2; [done|]. destruct (exists_last Hne) as (l2' & t & ->). rewrite last_snoc in Hla. rewrite Hla.
    intros [= ->]. apply Hl2. set_solver. }
  destruct (unlink_prev h fi la fi' la' l ls1 ls2 xs1 xs2 n last1) as (h1 & E1 & A1 & A2 & A3); [done..|].
  destruct (unlink_next h1 fi' la' l ls1 ls2 xs1 xs2 n la last1 fi') as (h2 & E2 & B1 & B2 & B3); [done..|].
  exists xs1, x, xs2, (mkList (delete l h2) fi' la'). split_and!; [done|done| |].
  - unfold list_remove. erewrite bind_ok by (by apply deref_ok). cbn [e_next e_prev e_item]. erewrite bind_ok by done. cbn [l_first].
    rewrite (bind_ok _ _ _ tt (mkList h fi' la)); [|unfold fi'; by destruct (bool_decide (fi = Some l))]. erewrite bind_ok by done. cbn [l_last].
    rewrite (bind_ok _ _ _ tt (mkList h fi' la')); [|unfold la'; by destruct (bool_decide (la = Some l))].
    erewrite bind_ok by exact E1. erewrite bind_ok by exact E2. done.
  - unfold list_at. cbn [l_heap l_first l_last]. split_and!.
    + apply dseg_app. exists xs1, xs2, n, last1. split; [done|].
      split; (eapply dseg_frame; [|eassumption]); intros k Hk; apply lookup_delete_ne; by intros <-.
    + apply NoDup_app. by split_and!.
    + rewrite dom_delete_L, B3, A3, Hd. apply set_eq. intros k. rewrite elem_of_difference, !elem_of_list_to_set, !elem_of_app, elem_of_cons, elem_of_singleton.
      naive_solver.
Qed.
Lemma walk_at s ls1 l ls2 xs : list_at s (ls1 ++ l :: ls2) xs → walk (length ls1) (l_first s) s = Ok (Some l, s).
Proof.
  intros (Hc & _ & _). revert Hc. generalize (@None loc) at 1. generalize (l_first s) as p. revert xs.
  induction ls1 as [|k ls1 IH]; intros xs p prev Hc; (destruct xs as [|x xs]; [done|]); cbn [length walk app dseg] in *.
  - by destruct Hc as [-> _].
  - destruct Hc as (-> & n & Hk & Hc). erewrite bind_ok by (by apply deref_ok). by eapply IH.
Qed.
Lemma walk_past s ls xs i : list_at s ls xs → (length ls ≤ i)%nat → walk i (l_first s) s = Ok (None, s).
Proof.
  intros (Hc & _ & _). revert Hc. generalize (@None loc) at 1. generalize (l_first s) as p. revert xs i.
  induction ls as [|k ls IH]; intros xs i p prev Hc Hi; (destruct xs as [|x xs]; [try done|try done]).
  - destruct Hc as [-> _]. by destruct i.
  - destruct Hc as (-> & n & Hk & Hc). destruct i as [|i]; [cbn in Hi; lia|]. cbn [walk]. erewrite bind_ok by (by apply deref_ok). eapply IH; [done|cbn in Hi; lia].
Qed.
Lemma list_new_at : list_at list_new [] [].
Proof. split; [done|]. split; [constructor|done]. Qed.
Lemma list_at_size s ls xs : list_at s ls xs → size (l_heap s) = length xs.
Proof. intros (Hc & Hnd & Hd). rewrite <- size_dom, Hd, size_list_to_set by done. by eapply dseg_length. Qed.

(** ** Sequences of operations *)

(** [Append] is [list_append]; [Remove] walks to an element, as the users of a
    list do, and unlinks it. *)
Inductive list_op := Append (item : A) | Remove (i : nat).
Definition list_step (op : list_op) : M m_list (option A) :=
  match op with
  | Append x => list_append x;; mret None
  | Remove i =>
      s ← get; p ← walk i (l_first s);
      match p with None => mret None | Some elem => x ← list_remove elem; mret (Some x) end
  end.
Fixpoint list_run (ops : list list_op) : M m_list (list (option A)) :=
  match ops with
  | [] => mret []
  | op :: ops => r ← list_step op; rs ← list_run ops; mret (r :: rs)
  end.
(** The same on a sequence. *)
Definition seq_step (op : list_op) (xs : list A) : option A * list A :=
  match op with
  | Append x => (None, xs ++ [x])
  | Remove i => (xs !! i, delete i xs)
  end.
Fixpoint seq_run (ops : list list_op) (xs : list A) : list (option A) * list A :=
  match ops with
  | [] => ([], xs)
  | op :: ops => let '(r, xs) := seq_step op xs in let '(rs, xs) := seq_run ops xs in (r :: rs, xs)
  end.

Lemma list_step_ok op s xs : list_rep s xs →
  ∃ s', list_step op s = Ok ((seq_step op xs).1, s') ∧ list_rep s' (seq_step op xs).2.
Proof.
  intros [ls H]. destruct op as [x|i]; cbn.
  - destruct (list_append_at s ls xs x H) as (s' & l & E & H'). exists s'. erewrite bind_ok by exact E. split; [done|]. by exists (ls ++ [l]).
  - erewrite bind_ok by done. pose proof (dseg_length _ _ _ _ _ _ _ (proj1 H)) as Hlen. destruct (decide (i < length ls)%nat) as [Hi|Hi].
    + destruct (lookup_lt_is_Some_2 ls i Hi) as [l Hl]. pose proof (take_drop_middle ls i l Hl) as Els. rewrite <- Els in H.
      assert (Ht : length (take i ls) = i) by (rewrite length_take; lia).
      erewrite bind_ok by (rewrite <- Ht; by eapply walk_at).
      apply list_remove_at in H as (xs1 & x & xs2 & s' & -> & Hx1 & E & H'). rewrite Ht in Hx1. subst i. exists s'.
      erewrite bind_ok by exact E. rewrite list_lookup_middle by done. split; [done|].
      rewrite delete_middle. by eexists.
    + erewrite bind_ok by (eapply walk_past; [exact H|lia]). exists s. rewrite lookup_ge_None_2 by lia.
      split; [done|]. rewrite delete_take_drop, take_ge, drop_ge, app_nil_r by lia. by exists ls.
Qed.
Lemma list_run_ok ops s xs : list_rep s xs →
  ∃ s', list_run ops s = Ok ((seq_run ops xs).1, s') ∧ list_rep s' (seq_run ops xs).2.
Proof.
  revert s xs. induction ops as [|op ops IH]; intros s xs H; [by exists s|]. cbn.
  destruct (list_step_ok op s xs H) as (s1 & E1 & H1). destruct (seq_step op xs) as [r xs1]. cbn in *.
  destruct (IH _ _ H1) as (s2 & E2 & H2). destruct (seq_run ops xs1) as [rs xs2]. cbn in *.
  exists s2. erewrite bind_ok by exact E1. by erewrite bind_ok by exact E2.
Qed.

(** Lists are sequences.  Any sequence of appends and removals on a new
    list returns, follows no null or freed pointer, gives the results it gives
    on a sequence, and leaves a list whose links, in both directions, are
    those of that sequence; its heap holds exactly the elements that have not
    been removed. *)
Theorem list_refines_sequence ops :
  ∃ s, list_run ops list_new = Ok ((seq_run ops []).1, s) ∧ list_rep s (seq_run ops []).2 ∧
    size (l_heap s) = length (seq_run ops []).2.
Proof.
  destruct (list_run_ok ops list_new []) as (s & E & H); [exists []; apply list_new_at|]. exists s. split; [exact E|].
  split; [exact H|]. destruct H as [ls H]. by eapply list_at_size.
Qed.
End dlist.
Arguments m_list_elem : clear implicits.
Arguments m_list : clear implicits.
