(* ===== verification/Packet.v ===== *)
(** * The binary packet protocol ([dropbear/packet.c])

    One definition per function of [packet.c], in the configuration the
    application is built with (no [writev], zlib enabled).  The transmit side
    and the receive side of [struct sshsession] share no field that
    [packet.c] writes, so each has a state of its own.

    The ciphers and HMAC of libtomcrypt, zlib and the random generator are
    parameters; what the theorems need of them is stated as hypotheses.  The
    sockets are modelled by what the system calls return: any chunking,
    short write, interruption or error. *)
From S2P Require Import Prelude Ssh Buffer.

Definition RECV_MAX_PAYLOAD_LEN : Z := 32768.
Definition RECV_MAX_PACKET_LEN : Z := Z.max 35000 (RECV_MAX_PAYLOAD_LEN + 100).
Definition TRANS_MAX_PAYLOAD_LEN : Z := 16384.
Definition MIN_PACKET_LEN : Z := 16.
Definition MAX_MAC_LEN : Z := 64.
Definition PACKET_PADDING_OFF : Z := 4.
Definition PACKET_PAYLOAD_OFF : Z := 5.
Definition INIT_READBUF : Z := 128.
Definition ZLIB_COMPRESS_EXPANSION : Z := (RECV_MAX_PAYLOAD_LEN / 16384 + 1) * 5 + 6.
Definition ZLIB_DECOMPRESS_INCR : Z := 1024.


Definition DROPBEAR_COMP_NONE : Z := 0.
Definition DROPBEAR_COMP_ZLIB : Z := 1.
Definition DROPBEAR_COMP_ZLIB_DELAY : Z := 2.

(** zlib's return codes. *)
Definition Z_OK : Z := 0.
Definition Z_BUF_ERROR : Z := -5.

(** What a [read] system call returns: data (none at end of file), or an
    error, which is retried ([EINTR], [EAGAIN]) or not. *)
Inductive rdres := RData (bs : list Z) | RErr (retry : bool).
(** What a [write] system call accepts: a number of bytes, or an error. *)
Inductive wrres := WCount (n : Z) | WErr (retry : bool).

(** [read(fd, p, n)] against the pending results: a result longer than [n] is
    returned in parts, and when nothing is pending the call would block. *)
Definition sys_read (ev : list rdres) (n : Z) : rdres * list rdres :=
  match ev with
  | [] => (RErr true, [])
  | RErr r :: ev => (RErr r, ev)
  | RData bs :: ev' =>
      if zlen bs <=? n then (RData bs, if zlen bs =? 0 then ev else ev')
      else (RData (take (Z.to_nat n) bs), RData (drop (Z.to_nat n) bs) :: ev')
  end.

(** [constant_time_memcmp] of [dbutil.c]. *)
Definition constant_time_memcmp (a b : list Z) : Z :=
  foldl (λ c '(x, y), Z.lor c (Z.lxor x y)) 0 (zip a b).

(** The descriptors of libtomcrypt are carried by their names; [None] is a
    null pointer. *)
Record dropbear_cipher := mkCipher { cipherdesc : option string; keysize : Z; blocksize : Z }.
Record dropbear_hash := mkHash { hash_desc : option string; hash_keysize : Z; hashsize : Z }.
Definition dropbear_nocipher : dropbear_cipher := mkCipher None 16 8.
Definition dropbear_nohash : dropbear_hash := mkHash None 16 0.

(** The code [packet.c] only calls: HMAC ([None] is a result other than
    [CRYPT_OK]), the random generator, and zlib with [Z_SYNC_FLUSH], which
    takes input and room for output to a result code, the output, the
    remaining input and the new stream.  [CS], [ZS], [HS] and [RS] are the
    states of ciphers, zlib streams, HMACs and the random generator. *)
Class Externals (CS ZS HS RS : Type) := {
  hmac_init : Z → list Z → option HS;
  hmac_process : HS → list Z → option HS;
  hmac_done : HS → option (list Z);
  genrandom : RS → Z → list Z * RS;
  deflate : ZS → list Z → Z → Z * list Z * list Z * ZS;
  inflate : ZS → list Z → Z → Z * list Z * list Z * ZS
}.

Section packet.
Context {CS ZS HS RS : Type} `{!Externals CS ZS HS RS}.

(** [struct dropbear_cipher_mode]: [None] is a result other than [CRYPT_OK]. *)
Record dropbear_cipher_mode := mkMode {
  mode_encrypt : CS → list Z → option (list Z * CS);
  mode_decrypt : CS → list Z → option (list Z * CS)
}.

Record key_context_directional := mkKeys {
  algo_crypt : dropbear_cipher;
  crypt_mode : dropbear_cipher_mode;
  algo_mac : dropbear_hash;
  hash_index : Z;
  algo_comp : Z;
  zstream : ZS;
  cipher_state : CS;
  mackey : list Z
}.
Definition set_cipher_state (c : CS) (k : key_context_directional) : key_context_directional :=
  mkKeys (algo_crypt k) (crypt_mode k) (algo_mac k) (hash_index k) (algo_comp k) (zstream k) c (mackey k).
Definition set_zstream (z : ZS) (k : key_context_directional) : key_context_directional :=
  mkKeys (algo_crypt k) (crypt_mode k) (algo_mac k) (hash_index k) (algo_comp k) z (cipher_state k) (mackey k).

(** The transmit side of [struct sshsession]; [sock_out] is everything the
    socket accepted and [wr_events] what the next writes return. *)
Record txstate := mkTx {
  writepayload : buffer;
  writequeue : list buffer;
  writequeue_len : Z;
  trans : key_context_directional;
  transseq : Z;
  dataallowed : bool;
  reply_queue : list buffer;
  datatrans : Z;
  tx_authdone : bool;
  last_packet_time_any_sent : Z;
  last_packet_time_idle : Z;
  monotonic_now : Z;
  rng : RS;
  sock_out : list Z;
  wr_events : list wrres
}.
Definition set_writepayload (b : buffer) (s : txstate) : txstate :=
  mkTx b (writequeue s) (writequeue_len s) (trans s) (transseq s) (dataallowed s) (reply_queue s)
    (datatrans s) (tx_authdone s) (last_packet_time_any_sent s) (last_packet_time_idle s)
    (monotonic_now s) (rng s) (sock_out s) (wr_events s).
Definition set_queue (q : list buffer) (n : Z) (s : txstate) : txstate :=
  mkTx (writepayload s) q n (trans s) (transseq s) (dataallowed s) (reply_queue s)
    (datatrans s) (tx_authdone s) (last_packet_time_any_sent s) (last_packet_time_idle s)
    (monotonic_now s) (rng s) (sock_out s) (wr_events s).
Definition set_trans (k : key_context_directional) (s : txstate) : txstate :=
  mkTx (writepayload s) (writequeue s) (writequeue_len s) k (transseq s) (dataallowed s) (reply_queue s)
    (datatrans s) (tx_authdone s) (last_packet_time_any_sent s) (last_packet_time_idle s)
    (monotonic_now s) (rng s) (sock_out s) (wr_events s).
Definition set_reply_queue (q : list buffer) (s : txstate) : txstate :=
  mkTx (writepayload s) (writequeue s) (writequeue_len s) (trans s) (transseq s) (dataallowed s) q
    (datatrans s) (tx_authdone s) (last_packet_time_any_sent s) (last_packet_time_idle s)
    (monotonic_now s) (rng s) (sock_out s) (wr_events s).
Definition set_counts (seq dtrans any idle : Z) (s : txstate) : txstate :=
  mkTx (writepayload s) (writequeue s) (writequeue_len s) (trans s) seq (dataallowed s) (reply_queue s)
    dtrans (tx_authdone s) any idle
    (monotonic_now s) (rng s) (sock_out s) (wr_events s).
Definition set_rng (r : RS) (s : txstate) : txstate :=
  mkTx (writepayload s) (writequeue s) (writequeue_len s) (trans s) (transseq s) (dataallowed s) (reply_queue s)
    (datatrans s) (tx_authdone s) (last_packet_time_any_sent s) (last_packet_time_idle s)
    (monotonic_now s) r (sock_out s) (wr_events s).
Definition set_out (o : list Z) (ev : list wrres) (s : txstate) : txstate :=
  mkTx (writepayload s) (writequeue s) (writequeue_len s) (trans s) (transseq s) (dataallowed s) (reply_queue s)
    (datatrans s) (tx_authdone s) (last_packet_time_any_sent s) (last_packet_time_idle s)
    (monotonic_now s) (rng s) o ev.

(** The receive side; [rd_events] is what the next reads of the socket return. *)
Record rxstate := mkRx {
  readbuf : option buffer;
  payload : option buffer;
  payload_beginning : Z;
  recv : key_context_directional;
  recvseq : Z;
  datarecv : Z;
  rx_authdone : bool;
  rd_events : list rdres
}.
Definition set_readbuf (b : option buffer) (s : rxstate) : rxstate :=
  mkRx b (payload s) (payload_beginning s) (recv s) (recvseq s) (datarecv s) (rx_authdone s) (rd_events s).
Definition set_payload (b : option buffer) (n : Z) (s : rxstate) : rxstate :=
  mkRx (readbuf s) b n (recv s) (recvseq s) (datarecv s) (rx_authdone s) (rd_events s).
Definition set_recv (k : key_context_directional) (s : rxstate) : rxstate :=
  mkRx (readbuf s) (payload s) (payload_beginning s) k (recvseq s) (datarecv s) (rx_authdone s) (rd_events s).
Definition set_recvcounts (seq drecv : Z) (s : rxstate) : rxstate :=
  mkRx (readbuf s) (payload s) (payload_beginning s) (recv s) seq drecv (rx_authdone s) (rd_events s).
Definition set_rd_events (ev : list rdres) (s : rxstate) : rxstate :=
  mkRx (readbuf s) (payload s) (payload_beginning s) (recv s) (recvseq s) (datarecv s) (rx_authdone s) ev.

(** Routines of [buffer.c] applied to a buffer of the session. *)
Definition wp_ {A} (m : M buffer A) : M txstate A := zoom writepayload set_writepayload m.
Definition on_readbuf {A} (m : M buffer A) : M rxstate A := λ s,
  match readbuf s with
  | None => UB "null readbuf"
  | Some b =>
      match m b with
      | Ok (a, b) => Ok (a, set_readbuf (Some b) s)
      | Exit e => Exit e
      | UB e => UB e
      end
  end.

(** [common-kex.c] *)
Definition is_compress_trans (s : txstate) : bool :=
  (algo_comp (trans s) =? DROPBEAR_COMP_ZLIB)
  || (tx_authdone s && (algo_comp (trans s) =? DROPBEAR_COMP_ZLIB_DELAY)).
Definition is_compress_recv (s : rxstate) : bool :=
  (algo_comp (recv s) =? DROPBEAR_COMP_ZLIB)
  || (rx_authdone s && (algo_comp (recv s) =? DROPBEAR_COMP_ZLIB_DELAY)).

(** A result other than [CRYPT_OK] ends the process. *)
Definition or_exit {S A} (msg : string) (o : option A) : M S A :=
  match o with Some a => mret a | None => dropbear_exit msg end.

(** Runs on the cleartext buffer; returns [mac_bytes] as far as it was
    written. *)
Definition make_mac (seqno : Z) (key : key_context_directional) (clear_len : Z) : M buffer (list Z) :=
  if hashsize (algo_mac key) >? 0 then
    k ← lift (mem_load (mackey key) 0 (hash_keysize (algo_mac key)));
    h ← or_exit "HMAC error" (hmac_init (hash_index key) k);
    h ← or_exit "HMAC error" (hmac_process h (STORE32H seqno));
    buf_setpos 0;;
    p ← buf_getptr clear_len;
    bs ← buf_load p clear_len;
    h ← or_exit "HMAC error" (hmac_process h bs);
    or_exit "HMAC error" (hmac_done h)
  else mret [].

(** ** Receiving *)
Definition checkmac : M rxstate bool :=
  s ← get;
  let mac_size := hashsize (algo_mac (recv s)) in
  len ← on_readbuf (gets buf_len);
  let contents_len := u32 (len - mac_size) in
  on_readbuf (buf_setpos 0);;
  mac_bytes ← on_readbuf (make_mac (recvseq s) (recv s) contents_len);
  on_readbuf (buf_setpos contents_len);;
  p ← on_readbuf (buf_getptr mac_size);
  a ← lift (mem_load mac_bytes 0 mac_size);
  b ← on_readbuf (buf_load p mac_size);
  mret (constant_time_memcmp a b =? 0).

(** The loop of [buf_decompress]; [inp] is what [next_in]/[avail_in] describe.
    Every round that goes on enlarges the buffer or follows a call that left
    input and room for output. *)
Fixpoint decompress_loop (junk : nat → Z) (fuel : nat) (z : ZS) (inp : list Z)
    : M buffer (option ZS) :=
  match fuel with
  | O => mret None
  | S fuel =>
      ret ← get;
      let avail_out := u32 (buf_size ret - buf_pos ret) in
      p ← buf_getwriteptr avail_out;
      let '(result, out, inp, z) := inflate z inp avail_out in
      buf_store p out;;
      let avail_out := avail_out - zlen out in
      buf_setlen (u32 (buf_size ret - avail_out));;
      len ← gets buf_len;
      buf_setpos len;;
      if negb (result =? Z_BUF_ERROR) && negb (result =? Z_OK) then dropbear_exit "zlib error"
      else if (zlen inp =? 0) && (negb (avail_out =? 0) || (result =? Z_BUF_ERROR))
      then mret (Some z)
      else
        when (avail_out =? 0)
          (ret ← get;
           if buf_size ret >=? RECV_MAX_PAYLOAD_LEN
           then dropbear_exit "bad packet, oversized decompressed"
           else buf_resize junk (Z.min RECV_MAX_PAYLOAD_LEN (buf_size ret + ZLIB_DECOMPRESS_INCR)));;
        decompress_loop junk fuel z inp
  end.
(** At most 32 enlargements by 1024 bytes reach the largest payload. *)
Definition decompress_rounds : nat := 34.

Definition buf_decompress (junk : nat → Z) (z : ZS) (len : Z) (buf : buffer) : outcome (buffer * option ZS) :=
  ret ← buf_new len;
  '(p, _) ← buf_getptr len buf;
  '(inp, _) ← buf_load p len buf;
  '(z, ret) ← decompress_loop junk decompress_rounds z inp ret;
  Ok (ret, z).

Definition decrypt_packet (junk : nat → Z) : M rxstate () :=
  s ← get;
  let bs := blocksize (algo_crypt (recv s)) in
  let macsize := hashsize (algo_mac (recv s)) in
  rlen ← on_readbuf (gets buf_len);
  modify (λ s, set_recvcounts (recvseq s) (u32 (datarecv s + rlen)) s);;
  on_readbuf (buf_setpos bs);;
  pos ← on_readbuf (gets buf_pos);
  let len := u32 (rlen - macsize - pos) in
  p ← on_readbuf (buf_getptr len);
  ct ← on_readbuf (buf_load p len);
  q ← on_readbuf (buf_getwriteptr len);
  '(pt, c) ← or_exit "Error decrypting" (mode_decrypt (crypt_mode (recv s)) (cipher_state (recv s)) ct);
  on_readbuf (buf_store q pt);;
  modify (λ s, set_recv (set_cipher_state c (recv s)) s);;
  on_readbuf (buf_incrpos (i32 len));;
  ok ← checkmac;
  if negb ok then dropbear_exit "Integrity error"
  else
    on_readbuf (buf_setpos PACKET_PADDING_OFF);;
    padlen ← on_readbuf buf_getbyte;
    let len := u32 (rlen - padlen - 4 - 1 - macsize) in
    if (len >? RECV_MAX_PAYLOAD_LEN + ZLIB_COMPRESS_EXPANSION) || (len <? 1)
    then dropbear_exit "Bad packet size"
    else
      on_readbuf (buf_setpos PACKET_PAYLOAD_OFF);;
      rb ← on_readbuf get;
      s ← get;
      (if is_compress_recv s then
         '(pl, z) ← lift (buf_decompress junk (zstream (recv s)) len rb);
         match z with
         | None => undefined "zlib does not return"
         | Some z =>
             pl ← lift (exec (buf_setpos 0) pl);
             put (set_recv (set_zstream z (recv s)) (set_payload (Some pl) 0 s))
         end
       else
         pl ← lift (exec (buf_setlen (u32 (buf_pos rb + len))) rb);
         put (set_payload (Some pl) (buf_pos rb) s));;
      modify (set_readbuf None);;
      modify (λ s, set_recvcounts (u32 (recvseq s + 1)) (datarecv s) s).

(** [read] on [sock_in] into the read buffer at offset [p]; end of file calls
    [remoteclosed], which ends the session.  [None]: try again later. *)
Definition read_sock (p maxlen : Z) : M rxstate (option Z) :=
  s ← get;
  let '(r, ev) := sys_read (rd_events s) maxlen in
  put (set_rd_events ev s);;
  match r with
  | RData bs =>
      on_readbuf (buf_store p bs);;
      if zlen bs =? 0 then dropbear_exit "Exited normally" else mret (Some (zlen bs))
  | RErr true => mret None
  | RErr false => dropbear_exit "Error reading"
  end.

(** [true] is [DROPBEAR_SUCCESS]: the length is known. *)
Definition read_packet_init (junk : nat → Z) : M rxstate bool :=
  s ← get;
  let bs := blocksize (algo_crypt (recv s)) in
  let macsize := hashsize (algo_mac (recv s)) in
  match readbuf s with
  | None => b ← lift (buf_new INIT_READBUF); put (set_readbuf (Some b) s)
  | Some _ => mret tt
  end;;
  pos ← on_readbuf (gets buf_pos);
  let maxlen := u32 (bs - pos) in
  p ← on_readbuf (buf_getwriteptr maxlen);
  slen ← read_sock p maxlen;
  match slen with
  | None => mret false
  | Some slen =>
      on_readbuf (buf_incrwritepos slen);;
      if negb (slen =? maxlen) then mret false
      else
        on_readbuf (buf_setpos 0);;
        p ← on_readbuf (buf_getptr bs);
        ct ← on_readbuf (buf_load p bs);
        q ← on_readbuf (buf_getwriteptr bs);
        '(pt, c) ← or_exit "Error decrypting"
                     (mode_decrypt (crypt_mode (recv s)) (cipher_state (recv s)) ct);
        on_readbuf (buf_store q pt);;
        modify (λ s, set_recv (set_cipher_state c (recv s)) s);;
        n ← on_readbuf buf_getint;
        let len := u32 (n + 4 + macsize) in
        if (len >? RECV_MAX_PACKET_LEN) || (len <? MIN_PACKET_LEN + macsize)
           || negb (u32 (len - macsize) mod bs =? 0)
        then dropbear_exit "Integrity error (bad packet size)"
        else
          size ← on_readbuf (gets buf_size);
          when (len >? size) (on_readbuf (buf_resize junk len));;
          on_readbuf (buf_setlen len);;
          on_readbuf (buf_setpos bs);;
          mret true
  end.

(** The remainder of the packet, once its length is known. *)
Definition read_packet_rest (junk : nat → Z) : M rxstate () :=
  b ← on_readbuf get;
  let maxlen := u32 (buf_len b - buf_pos b) in
  len ← (if maxlen =? 0 then mret (Some 0)
         else
           p ← on_readbuf (buf_getptr maxlen);
           len ← read_sock p maxlen;
           match len with
           | None => mret None
           | Some len => on_readbuf (buf_incrpos len);; mret (Some len)
           end);
  match len with
  | None => mret tt
  | Some len => when (u32 len =? maxlen) (decrypt_packet junk)
  end.

Definition read_packet (junk : nat → Z) : M rxstate () :=
  s ← get;
  let bs := blocksize (algo_crypt (recv s)) in
  ready ← (match readbuf s with
           | None => read_packet_init junk
           | Some b => if buf_len b <? bs then read_packet_init junk else mret true
           end);
  if negb ready then mret tt else read_packet_rest junk.

(** ** Transmitting *)
Definition packet_is_okay_kex (type : Z) : bool :=
  if type >=? SSH_MSG_USERAUTH_REQUEST then false
  else if (type =? SSH_MSG_SERVICE_REQUEST) || (type =? SSH_MSG_SERVICE_ACCEPT) then false
  else if type =? SSH_MSG_KEXINIT then false
  else true.

Definition enqueue_reply_packet : M txstate () :=
  s ← get;
  b ← lift (buf_newcopy (writepayload s));
  wp_ (buf_setpos 0);;
  wp_ (buf_setlen 0);;
  modify (λ s, set_reply_queue (reply_queue s ++ [b]) s).

(** [dest] and [src] are the two buffers; the result is both, and the stream. *)
Definition buf_compress (z : ZS) (dest src : buffer) (len : Z) : outcome (buffer * buffer * ZS) :=
  let endpos := u32 (buf_pos src + len) in
  if negb (u32 (buf_size dest - buf_pos dest) >=? u32 (len + ZLIB_COMPRESS_EXPANSION))
  then Exit "Failed assertion"
  else
    let avail_in := u32 (endpos - buf_pos src) in
    '(p, _) ← buf_getptr avail_in src;
    '(inp, _) ← buf_load p avail_in src;
    let avail_out := u32 (buf_size dest - buf_pos dest) in
    '(q, _) ← buf_getwriteptr avail_out dest;
    let '(result, out, inp, z) := deflate z inp avail_out in
    let avail_out := avail_out - zlen out in
    dest ← exec (buf_store q out) dest;
    src ← exec (buf_setpos (u32 (endpos - zlen inp))) src;
    dest ← exec (buf_setlen (u32 (buf_size dest - avail_out))) dest;
    dest ← exec (buf_setpos (buf_len dest)) dest;
    if negb (result =? Z_OK) then Exit "zlib error"
    else if negb (zlen inp =? 0) then Exit "Failed assertion"
    else Ok (dest, src, z).

Definition writebuf_enqueue (writebuf : buffer) : M txstate () :=
  writebuf ← lift (exec (buf_setpos 0) writebuf);
  modify (λ s, set_queue (writequeue s ++ [writebuf]) (u32 (writequeue_len s + buf_len writebuf)) s).

(** The padding length: [unsigned char] arithmetic. *)
Definition packet_padlen (bs len : Z) : Z :=
  let padlen := u8 (bs - len mod bs) in
  let padlen := if padlen <? 4 then u8 (padlen + bs) else padlen in
  if u32 (len + padlen) <? MIN_PACKET_LEN then u8 (padlen + bs) else padlen.

(** The packet around the payload: length, padding length, padding. *)
Definition frame_packet (padlen : Z) (pad : list Z) : M buffer () :=
  b ← get;
  buf_setpos 0;;
  buf_putint (u32 (buf_len b + padlen - 4));;
  buf_putbyte padlen;;
  len ← gets buf_len;
  buf_setpos len;;
  buf_incrlen padlen;;
  p ← buf_getptr padlen;
  buf_store p pad.

(** The MAC of the framed packet, the encryption in place, and the MAC behind
    it. *)
Definition seal_packet (key : key_context_directional) (seqno : Z) (writebuf : buffer)
    : outcome (buffer * CS) :=
  '(mac_bytes, writebuf) ← make_mac seqno key (buf_len writebuf) writebuf;
  writebuf ← exec (buf_setpos 0) writebuf;
  let len := buf_len writebuf in
  '(p, _) ← buf_getptr len writebuf;
  '(pt, _) ← buf_load p len writebuf;
  '(q, _) ← buf_getwriteptr len writebuf;
  match mode_encrypt (crypt_mode key) (cipher_state key) pt with
  | None => Exit "Error encrypting"
  | Some (ct, c) =>
      writebuf ← exec (buf_store q ct;; buf_incrpos (i32 len);;
                       buf_putbytes mac_bytes (hashsize (algo_mac key))) writebuf;
      Ok (writebuf, c)
  end.

(** The second half of [encrypt_packet], once the payload is in [writebuf]:
    padding, MAC, encryption, queueing and the counts. *)
Definition finish_packet (packet_type bs : Z) (writebuf : buffer) : M txstate () :=
  wp_ (buf_setpos 0);;
  wp_ (buf_setlen 0);;
  let padlen := packet_padlen bs (buf_len writebuf) in
  s ← get;
  let '(pad, r) := genrandom (rng s) padlen in
  put (set_rng r s);;
  writebuf ← lift (exec (frame_packet padlen pad) writebuf);
  '(writebuf, c) ← lift (seal_packet (trans s) (transseq s) writebuf);
  modify (λ s, set_trans (set_cipher_state c (trans s)) s);;
  modify (λ s, set_counts (transseq s) (u32 (datatrans s + buf_len writebuf))
                 (last_packet_time_any_sent s) (last_packet_time_idle s) s);;
  writebuf_enqueue writebuf;;
  s ← get;
  let idle := if negb (packet_type =? SSH_MSG_REQUEST_FAILURE)
                 && negb (packet_type =? SSH_MSG_UNIMPLEMENTED)
                 && negb (packet_type =? SSH_MSG_IGNORE)
              then monotonic_now s else last_packet_time_idle s in
  put (set_counts (u32 (transseq s + 1)) (datatrans s) (monotonic_now s) idle s).

Definition encrypt_packet : M txstate () :=
  wp_ (buf_setpos 0);;
  packet_type ← wp_ buf_getbyte;
  wp_ (buf_setpos 0);;
  s ← get;
  if negb (dataallowed s) && negb (packet_is_okay_kex packet_type) then enqueue_reply_packet
  else
    let bs := blocksize (algo_crypt (trans s)) in
    let mac_size := hashsize (algo_mac (trans s)) in
    let wlen := buf_len (writepayload s) in
    let encrypt_buf_size :=
      u32 (wlen + 4 + 1 + Z.max MIN_PACKET_LEN bs + 3 + mac_size + ZLIB_COMPRESS_EXPANSION + 1) in
    writebuf ← lift (buf_new encrypt_buf_size);
    writebuf ← lift (exec (buf_setlen PACKET_PAYLOAD_OFF;; buf_setpos PACKET_PAYLOAD_OFF) writebuf);
    writebuf ←
      (if is_compress_trans s then
         '(wb, src, z) ← lift (buf_compress (zstream (trans s)) writebuf (writepayload s) wlen);
         put (set_trans (set_zstream z (trans s)) (set_writepayload src s));;
         mret wb
       else
         p ← wp_ (buf_getptr wlen);
         src ← wp_ (buf_load p wlen);
         lift (exec (q ← buf_getwriteptr wlen; buf_store q src;; buf_incrwritepos wlen) writebuf));
    finish_packet packet_type bs writebuf.

Fixpoint flush_loop (q : list buffer) : M txstate () :=
  match q with
  | [] => mret tt
  | item :: q =>
      wp_ (buf_putbytes (buf_data item) (buf_len item));;
      encrypt_packet;;
      flush_loop q
  end.
Definition maybe_flush_reply_queue : M txstate () :=
  s ← get;
  if negb (dataallowed s) then mret tt
  else flush_loop (reply_queue s);; modify (set_reply_queue []).

(** The branch without [writev].  The socket accepts at most [len] bytes. *)
Definition write_packet : M txstate () :=
  s ← get;
  match writequeue s with
  | [] => dropbear_exit "Failed assertion"
  | writebuf :: rest =>
      let len := i32 (buf_len writebuf - buf_pos writebuf) in
      dropbear_assert (len >? 0);;
      '(p, _) ← lift (buf_getptr (u32 len) writebuf);
      '(bs, _) ← lift (buf_load p len writebuf);
      match wr_events s with
      | [] | WErr true :: _ => modify (set_out (sock_out s) (tail (wr_events s)))
      | WErr false :: _ => dropbear_exit "Error writing"
      | WCount n :: ev =>
          let written := Z.max 0 (Z.min n len) in
          modify (set_out (sock_out s ++ take (Z.to_nat written) bs) ev);;
          if written =? 0 then dropbear_exit "Exited normally"
          else
            let wl := u32 (writequeue_len s - written) in
            if written =? len then modify (set_queue rest wl)
            else
              writebuf ← lift (exec (buf_incrpos written) writebuf);
              modify (set_queue (writebuf :: rest) wl)
      end
  end.
End packet.

(** [void_cipher] of [common-algo.c], the cipher before the first key
    exchange. *)
Definition void_cipher {CS} (cipher_state : CS) (inp : list Z) : option (list Z * CS) :=
  Some (inp, cipher_state).
Definition dropbear_mode_none {CS} : @dropbear_cipher_mode CS := mkMode void_cipher void_cipher.
