(* ===== verification/PacketProps.v ===== *)
(** * Properties of the packet protocol

    Receiving: whatever the peer sends and however the socket cuts it, each
    routine stays inside its buffers; how the state relates to the bytes taken
    from the socket for the current packet ([receiving]), and what holds of a
    packet whose payload is let through ([decrypts], [accepted]).  Transmitting:
    the shape of a packet and the order of packets across a key exchange. *)
From S2P Require Import Prelude Ssh Buffer Packet.

Section props.
Context {CS ZS HS RS : Type} `{!Externals CS ZS HS RS}.
Abbreviation keys := (@key_context_directional CS ZS).
Abbreviation rx := (@rxstate CS ZS).

(** ** What is relied on *)

(** A negotiated set of algorithms: the sizes of the tables of
    [common-algo.c], ciphers that keep the length of what they process, and
    HMACs that produce at least the bytes that are compared. *)
Record keys_wf (k : keys) : Prop := {
  kw_block : blocksize (algo_crypt k) = 8 ∨ 16 ≤ blocksize (algo_crypt k) ≤ 64;
  kw_hash : 0 ≤ hashsize (algo_mac k) ≤ MAX_MAC_LEN;
  kw_mackey : 0 ≤ hash_keysize (algo_mac k) ≤ zlen (mackey k);
  kw_enc : ∀ c x y c', mode_encrypt (crypt_mode k) c x = Some (y, c') → Forall is_byte x →
    zlen y = zlen x ∧ Forall is_byte y;
  kw_dec : ∀ c x y c', mode_decrypt (crypt_mode k) c x = Some (y, c') → Forall is_byte x →
    zlen y = zlen x ∧ Forall is_byte y;
  kw_hmac : ∀ key h0 x h1 y h2 d, hmac_init (hash_index k) key = Some h0 →
    hmac_process h0 x = Some h1 → hmac_process h1 y = Some h2 → hmac_done h2 = Some d →
    hashsize (algo_mac k) ≤ zlen d ∧ Forall is_byte d
}.

(** zlib's documentation of [inflate]: it writes at most the room it is given,
    consumes input from the front, and when it reports no error it stopped
    because the input was used up or the room was. *)
Definition inflate_ok : Prop := ∀ z inp room r out rest z',
  inflate z inp room = (r, out, rest, z') → 0 ≤ room → Forall is_byte inp →
  zlen out ≤ room ∧ Forall is_byte out ∧ rest `suffix_of` inp ∧
  (r = Z_OK ∨ r = Z_BUF_ERROR → rest = [] ∨ zlen out = room).

(** ** Rules *)
Lemma wp_on_readbuf {A} (m : M buffer A) b (Q : A → rx → Prop) (s : rx) :
  readbuf s = Some b → wp m (λ a b', Q a (set_readbuf (Some b') s)) b → wp (on_readbuf m) Q s.
Proof. unfold wp, on_readbuf. intros ->. by destruct (m b) as [[]| |]. Qed.

Lemma wp_or_exit {S A} msg (o : option A) (Q : A → S → Prop) s :
  (∀ a, o = Some a → Q a s) → wp (or_exit msg o) Q s.
Proof. destruct o; cbn; [|done]. intros H. by apply H. Qed.

Lemma wp_lift_run {S A} (m : M buffer A) b (Q : A * buffer → S → Prop) s :
  wp m (λ a b', Q (a, b') s) b → wp (lift (m b)) Q s.
Proof. unfold wp, lift. by destruct (m b) as [[]| |]. Qed.

Lemma set_readbuf_set x y (s : rx) : set_readbuf x (set_readbuf y s) = set_readbuf x s.
Proof. done. Qed.

(** The MAC of a packet: HMAC of the sequence number and the cleartext. *)
Definition mac_of (k : keys) (seq : Z) (clear : list Z) : option (list Z) :=
  if hashsize (algo_mac k) >? 0 then
    h ← hmac_init (hash_index k) (take (Z.to_nat (hash_keysize (algo_mac k))) (mackey k));
    h ← hmac_process h (STORE32H seq);
    h ← hmac_process h clear;
    hmac_done h
  else Some [].

Lemma mac_of_length k seq clear d : keys_wf k → mac_of k seq clear = Some d →
  hashsize (algo_mac k) ≤ zlen d ∧ Forall is_byte d.
Proof.
  intros Hk. unfold mac_of. case_if; [|intros [= <-]; cbn; split; [lia|done]].
  destruct (hmac_init _ _) as [h0|] eqn:E0; [|done]; cbn.
  destruct (hmac_process h0 _) as [h1|] eqn:E1; [|done]; cbn.
  destruct (hmac_process h1 _) as [h2|] eqn:E2; [|done]; cbn.
  intros E3. by eapply kw_hmac.
Qed.

Lemma make_mac_eq seq k n b : keys_wf k → buf_wf b → 0 ≤ n ≤ buf_len b →
  make_mac seq k n b =
  match mac_of k seq (take (Z.to_nat n) (buf_data b)) with
  | Some d => Ok (d, if hashsize (algo_mac k) >? 0 then set_pos 0 b else b)
  | None => Exit "HMAC error"
  end.
Proof.
  intros Hk Hwf Hn. unfold make_mac, mac_of. pose proof (kw_mackey k Hk). case_if; [|done].
  erewrite bind_ok by (unfold lift; rewrite mem_load_ok by lia; done). cbn [drop Z.to_nat].
  destruct (hmac_init _ _) as [h0|]; [|done]; cbn. erewrite bind_ok by done.
  destruct (hmac_process h0 _) as [h1|]; [|done]; cbn. erewrite bind_ok by done.
  erewrite bind_ok by (unfold buf_setpos; erewrite bind_ok by done; case_if; [buf_facts; lia|done]).
  assert (Hwf0 : buf_wf (set_pos 0 b)) by (apply buf_wf_set_pos; [done|buf_facts; lia]).
  erewrite bind_ok by (rewrite buf_getptr_eq by (done || buf_facts; lia); case_if; [done|cbn in *; lia]).
  erewrite bind_ok by (apply buf_load_eq; [done|lia|cbn; buf_facts; lia]). cbn.
  destruct (hmac_process h1 _) as [h2|]; [|done]; cbn. erewrite bind_ok by done.
  by destruct (hmac_done h2).
Qed.

Lemma lor_0_iff a b : Z.lor a b = 0 ↔ a = 0 ∧ b = 0.
Proof. apply Z.lor_eq_0_iff. Qed.

Lemma constant_time_memcmp_spec a b : length a = length b →
  constant_time_memcmp a b = 0 ↔ a = b.
Proof.
  intros Hl. unfold constant_time_memcmp.
  assert (Hg : ∀ c, foldl (λ c '(x, y), Z.lor c (Z.lxor x y)) c (zip a b) = 0 ↔ c = 0 ∧ a = b); [|by rewrite Hg; naive_solver].
  revert b Hl. induction a as [|x a IH]; intros [|y b] Hl c; cbn in *; try done; [naive_solver|].
  rewrite IH by lia. rewrite lor_0_iff, Z.lxor_eq_0_iff. naive_solver.
Qed.

(** The bytes of a packet carry the MAC of the bytes before it. *)
Definition mac_matches (k : keys) (seq : Z) (packet : list Z) : Prop :=
  let n := Z.to_nat (zlen packet - hashsize (algo_mac k)) in
  ∃ d, mac_of k seq (take n packet) = Some d ∧
       take (Z.to_nat (hashsize (algo_mac k))) d = drop n packet.

(** ** Decompression ends and is bounded *)
(** [inflated z inp out z']: calls of [inflate] from the stream [z] turn all of
    [inp] into [out] and leave the stream [z']. *)
Inductive inflated : ZS → list Z → list Z → ZS → Prop :=
| inflated_last z inp room r out z' : inflate z inp room = (r, out, [], z') → r = Z_OK ∨ r = Z_BUF_ERROR → inflated z inp out z'
| inflated_more z inp room r out rest z1 out' z' : inflate z inp room = (r, out, rest, z1) → r = Z_OK ∨ r = Z_BUF_ERROR →
    inflated z1 rest out' z' → inflated z inp (out ++ out') z'.
Definition MAX_PAYLOAD : Z := RECV_MAX_PAYLOAD_LEN + ZLIB_COMPRESS_EXPANSION.

Lemma wp_decompress_round junk fuel z inp b (Q : option ZS → buffer → Prop) :
  inflate_ok → (∀ i, is_byte (junk i)) → buf_wf b → buf_pos b = buf_len b → Forall is_byte inp →
  (∀ z' out b', buf_wf b' → buf_pos b' = buf_len b' → buf_size b' = buf_size b →
     buf_content b' = buf_content b ++ out → inflated z inp out z' → Q (Some z') b') →
  (∀ z1 out rest b', buf_wf b' → buf_pos b' = buf_len b' → Forall is_byte rest →
     buf_size b < RECV_MAX_PAYLOAD_LEN →
     buf_size b' = Z.min RECV_MAX_PAYLOAD_LEN (buf_size b + ZLIB_DECOMPRESS_INCR) →
     buf_content b' = buf_content b ++ out → (∀ out' z', inflated z1 rest out' z' → inflated z inp (out ++ out') z') →
     wp (decompress_loop junk fuel z1 rest) Q b') →
  wp (decompress_loop junk (S fuel) z inp) Q b.
Proof.
  intros Hz Hj Hwf Hpos Hinp HQ Hnext. cbn [decompress_loop]. wp_step. wp_step.
  pose proof Hwf. buf_facts.
  rewrite (u32_small (buf_size b - buf_pos b)) by (unfold U32; lia).
  wp_step. apply wp_getwriteptr; [done|unfold U32; lia|]. intros _.
  destruct (inflate z inp _) as [[[r out] rest] z'] eqn:E.
  destruct (Hz _ _ _ _ _ _ _ E) as (Hout & Hbytes & Hsuf & Hend); [lia|done|].
  wp_step. apply wp_store; [done|lia|lia|done|]. intros b1 Hwf1.
  rewrite (u32_small (buf_size b - _)) by (unfold U32; lia).
  wp_step. apply wp_setlen; [done|lia|]. subst b1. cbn. intros _.
  rewrite Z.min_l by lia. intros Hwf2.
  wp_step. wp_step. cbn. wp_step. apply wp_setpos; [done|cbn; lia|]. intros _ Hwf3. cbn.
  match type of Hwf3 with buf_wf ?x => set (b3 := x) in * end.
  assert (Hc3 : buf_content b3 = buf_content b ++ out).
  { unfold buf_content, b3. cbn. replace (Z.to_nat (buf_size b - (buf_size b - buf_pos b - zlen out))) with (Z.to_nat (buf_pos b) + length out)%nat by lia.
    rewrite app_assoc, take_app_length' by (rewrite length_app, length_take; lia). by rewrite Hpos. }
  assert (Hl3 : buf_pos b3 = buf_len b3 ∧ buf_len b3 = buf_len b + zlen out ∧ buf_size b3 = buf_size b) by (unfold b3; cbn; lia). clearbody b3.
  wp_step; [by apply wp_exit|]. assert (Hr : r = Z_OK ∨ r = Z_BUF_ERROR) by (unfold Z_OK, Z_BUF_ERROR in *; bool_lia).
  wp_step.
  { apply wp_ret. match goal with H : _ && _ = true |- _ => apply andb_true_iff in H as [Hz0%Z.eqb_eq _] end.
    assert (rest = []) as -> by (destruct rest; [done|cbn in Hz0; lia]). apply (HQ _ out); [done|lia|lia|done|by eapply inflated_last]. }
  assert (Hfull : zlen out = buf_size b - buf_pos b).
  { destruct Hend as [->|?]; [unfold Z_OK, Z_BUF_ERROR in *; bool_lia| |done].
    match goal with Hd : (zlen [] =? 0) && _ = false |- _ => apply andb_false_iff in Hd as [Hd|Hd] end; [done|]. bool_lia. }
  rewrite (proj2 (Z.eqb_eq (_ - _ - _) 0)) by lia. cbn [when]. wp_step. wp_step. wp_step. cbn.
  wp_step; [by apply wp_exit|]. apply wp_resize; [done|unfold RECV_MAX_PAYLOAD_LEN, ZLIB_DECOMPRESS_INCR; lia|done|].
  intros b' Hb' Hs' Hl' Hp' [tl Htl]. destruct Hl3 as (Hp3 & Hl3 & Hs3). pose proof (wf_data _ Hwf3) as Hd3.
  apply (Hnext _ out); [done|unfold RECV_MAX_PAYLOAD_LEN, ZLIB_DECOMPRESS_INCR in *; lia| |bool_lia|by rewrite Hs', Hs3| |].
  - destruct Hsuf as [k ->]. by apply Forall_app in Hinp as [_ ?].
  - rewrite <- Hc3. unfold buf_content. rewrite Htl, Hl'. unfold RECV_MAX_PAYLOAD_LEN, ZLIB_DECOMPRESS_INCR in *.
    rewrite (take_ge (buf_data b3)) by (bool_lia). rewrite Z.min_r by bool_lia. rewrite take_app_le by lia. done.
  - intros out' z'' Hi. by eapply inflated_more.
Qed.

Lemma wp_decompress_loop junk fuel z inp b (Q : option ZS → buffer → Prop) :
  inflate_ok → (∀ i, is_byte (junk i)) → buf_wf b → buf_pos b = buf_len b → Forall is_byte inp →
  buf_size b ≤ MAX_PAYLOAD →
  RECV_MAX_PAYLOAD_LEN ≤ buf_size b + ZLIB_DECOMPRESS_INCR * Z.of_nat fuel →
  (∀ z' out b', buf_wf b' → buf_pos b' = buf_len b' → buf_size b' ≤ MAX_PAYLOAD →
     buf_content b' = buf_content b ++ out → inflated z inp out z' → Q (Some z') b') →
  wp (decompress_loop junk (S fuel) z inp) Q b.
Proof.
  intros Hz Hj. revert z inp b. unfold MAX_PAYLOAD, ZLIB_DECOMPRESS_INCR.
  induction fuel as [|fuel IH]; intros z inp b Hwf Hpos Hinp Hsz Hfuel HQ;
    (apply wp_decompress_round; [done..|intros z' out b' ? ? ? ? ?; apply (HQ _ out); [done|done|lia|done|done]|];
     intros z1 out rest b' Hwf' Hpos' Hrest Hlt Hs' Hc' Hi'; unfold ZLIB_DECOMPRESS_INCR in *).
  - lia.
  - apply IH; [done..| |lia|].
    + change ZLIB_COMPRESS_EXPANSION with 21. lia.
    + intros z' out' b2 ? ? ? Hc2 Hi2. apply (HQ _ (out ++ out')); [done..|by rewrite Hc2, Hc', app_assoc|by apply Hi'].
Qed.

(** ** The state of the receive side between calls

    Either no packet has begun, or less than one block has arrived, or the
    length is known, was checked, and at least the first block is there. *)
Definition readbuf_wf (k : keys) (b : buffer) : Prop :=
  buf_wf b ∧
  ((buf_pos b = buf_len b ∧ buf_len b < blocksize (algo_crypt k) ∧ buf_size b = INIT_READBUF) ∨
   (blocksize (algo_crypt k) ≤ buf_pos b ∧
    MIN_PACKET_LEN + hashsize (algo_mac k) ≤ buf_len b ≤ RECV_MAX_PACKET_LEN ∧
    blocksize (algo_crypt k) + hashsize (algo_mac k) ≤ buf_len b ∧
    (buf_len b - hashsize (algo_mac k)) mod blocksize (algo_crypt k) = 0)).
Definition event_wf (e : rdres) : Prop :=
  match e with RData bs => Forall is_byte bs | RErr _ => True end.
Record rx_wf (s : rx) : Prop := {
  rw_keys : keys_wf (recv s);
  rw_readbuf : ∀ b, readbuf s = Some b → readbuf_wf (recv s) b;
  rw_events : Forall event_wf (rd_events s)
}.

(** What is promised of a payload that is handed on. *)
Definition payload_ok (s : rx) : Prop :=
  ∃ b, payload s = Some b ∧ buf_wf b ∧ buf_pos b = payload_beginning s ∧
       buf_size b ≤ Z.max MAX_PAYLOAD (Z.max INIT_READBUF RECV_MAX_PACKET_LEN).

Lemma keys_wf_state c (k : keys) : keys_wf k → keys_wf (set_cipher_state c k).
Proof. by intros []; split. Qed.
Lemma keys_wf_zstream z (k : keys) : keys_wf k → keys_wf (set_zstream z k).
Proof. by intros []; split. Qed.

Lemma u32_sub_small a b : 0 ≤ b ≤ a → a < U32 → u32 (a - b) = a - b.
Proof. intros. apply u32_small. lia. Qed.

Lemma wp_checkmac (s : rx) b (Q : bool → rx → Prop) :
  keys_wf (recv s) → readbuf s = Some b → buf_wf b → hashsize (algo_mac (recv s)) ≤ buf_len b →
  (∀ ok p, buf_wf (set_pos p b) → (ok = true → mac_matches (recv s) (recvseq s) (buf_content b)) →
    Q ok (set_readbuf (Some (set_pos p b)) s)) →
  wp checkmac Q s.
Proof.
  intros Hk Hb Hwf Hlen HQ. pose proof (kw_hash _ Hk). unfold MAX_MAC_LEN in *.
  unfold checkmac. wp_step. wp_step. wp_step.
  apply (wp_on_readbuf _ b); [done|]. wp_step. pose proof Hwf. buf_facts.
  rewrite u32_sub_small by (unfold U32; lia). set (mac := hashsize (algo_mac (recv s))) in *.
  wp_step. apply (wp_on_readbuf _ b); [done|]. apply wp_setpos; [done|lia|]. intros _ Hwf0.
  wp_step. eapply wp_on_readbuf; [done|].
  unfold wp at 1. rewrite make_mac_eq by (done || cbn; lia). cbn [buf_data set_pos].
  destruct (mac_of _ _ _) as [d|] eqn:Ed; [|done]. destruct (mac_of_length _ _ _ _ Hk Ed) as [Hd Hdb].
  rewrite !set_readbuf_set.
  assert (Hb0 : (if mac >? 0 then set_pos 0 (set_pos 0 b) else set_pos 0 b) = set_pos 0 b) by (by case_if).
  fold mac. rewrite Hb0. wp_step. eapply wp_on_readbuf; [done|]. apply wp_setpos; [done|lia|]. intros _ Hwf1.
  wp_step. eapply wp_on_readbuf; [done|]. apply wp_getptr; [done|unfold U32; lia|]. cbn. intros _.
  wp_step. apply wp_lift. rewrite mem_load_ok by lia.
  wp_step. eapply wp_on_readbuf; [done|]. apply wp_load; [done|cbn; lia..|]. intros bs Hbs Hbl Hbb.
  apply wp_ret. apply HQ; [done|]. intros Hz%Z.eqb_eq.
  apply constant_time_memcmp_spec in Hz; [|rewrite length_take, length_drop; lia].
  assert (Hc : zlen (buf_content b) = buf_len b) by (unfold buf_content; rewrite length_take; lia).
  exists d. rewrite Hc. fold mac. unfold buf_content. rewrite take_take, Nat.min_l by lia.
  split; [done|]. change (drop (Z.to_nat 0) d) with d in Hz. cbn in Hbs. rewrite Hz, Hbs, skipn_firstn_comm. f_equal. lia.
Qed.

(** The payload of a decrypted packet: what is between the padding length and
    the padding. *)
Definition payload_len (mac : Z) (packet : list Z) : Z :=
  zlen packet - packet !!! 4%nat - 4 - 1 - mac.
Definition packet_payload (mac : Z) (packet : list Z) : list Z :=
  take (Z.to_nat (payload_len mac packet)) (drop 5 packet).

(** A payload accepted in state [s] and held in state [s']: the MAC of the
    packet was right for the sequence number, the payload has at least one
    byte and at most the maximum, and it is the payload of the packet or what
    it decompresses to. *)
Definition accepted (s s' : rx) (packet : list Z) : Prop :=
  let mac := hashsize (algo_mac (recv s)) in
  mac_matches (recv s) (recvseq s) packet ∧
  1 ≤ payload_len mac packet ≤ MAX_PAYLOAD ∧
  recvseq s' = u32 (recvseq s + 1) ∧
  ∃ b, payload s' = Some b ∧ buf_wf b ∧ buf_pos b = payload_beginning s' ∧
       (is_compress_recv s = true → buf_size b ≤ MAX_PAYLOAD ∧
          inflated (zstream (recv s)) (packet_payload mac packet) (buf_rest b) (zstream (recv s'))) ∧
       (is_compress_recv s = false → buf_rest b = packet_payload mac packet).

Lemma buf_content_nth b (i : nat) : buf_wf b → Z.of_nat i < buf_len b →
  buf_content b !!! i = buf_data b !!! i.
Proof.
  intros. rewrite !list_lookup_total_alt. f_equal. unfold buf_content. apply lookup_take_lt. lia.
Qed.

Lemma getbyte_at b i Q : buf_wf b → 0 ≤ i < buf_len b →
  Q (buf_data b !!! Z.to_nat i) (set_pos (i + 1) b) → wp buf_getbyte Q (set_pos i b).
Proof.
  intros Hwf Hi HQ. assert (Hwf' : buf_wf (set_pos i b)) by (apply buf_wf_set_pos; [done|lia]).
  apply (reader_wp buf_getbyte p_byte _ _ Hwf'). cbn. intros v n Hn Hfit Hwfn Hp.
  pose proof (buf_rest_length _ Hwf') as Hl. pose proof (buf_rest_length _ Hwfn) as Hl'.
  unfold p_byte in Hp. destruct (buf_rest (set_pos i b)) as [|c tl] eqn:Er; [done|].
  injection Hp as -> Htl. rewrite <- Htl in Hl'. cbn in Hl, Hl'.
  assert (n = 1) as -> by lia. replace v with (buf_data b !!! Z.to_nat i); [done|].
  assert (Hlk : buf_rest (set_pos i b) !! 0%nat = Some v) by by rewrite Er.
  unfold buf_rest in Hlk. cbn in Hlk. rewrite lookup_take_lt, lookup_drop, Nat.add_0_r in Hlk by lia.
  by apply list_lookup_total_correct.
Qed.

Lemma buf_decompress_spec junk z len b :
  inflate_ok → (∀ i, is_byte (junk i)) → buf_wf b → 0 < len ≤ MAX_PAYLOAD →
  buf_pos b + len ≤ buf_len b →
  match buf_decompress junk z len b with
  | Ok (pl, z') => (∃ z1, z' = Some z1 ∧ inflated z (take (Z.to_nat len) (buf_rest b)) (buf_content pl) z1) ∧
      buf_wf pl ∧ buf_pos pl = buf_len pl ∧ buf_size pl ≤ MAX_PAYLOAD
  | Exit _ => True
  | UB _ => False
  end.
Proof.
  intros Hz Hj Hwf Hlen Hfit. unfold MAX_PAYLOAD, RECV_MAX_PAYLOAD_LEN in Hlen.
  change ZLIB_COMPRESS_EXPANSION with 21 in Hlen. pose proof Hwf as Hwf'. buf_facts.
  unfold buf_decompress. destruct (buf_new_ok len) as (ret & -> & Hret & Hl & Hp & Hs); [unfold BUF_MAX_SIZE; lia|].
  unfold mbind, outcome_bind; cbn [obind]. rewrite buf_getptr_eq by (done || unfold U32; lia).
  rewrite (proj2 (Z.leb_le _ _)) by lia. cbn [obind].
  rewrite (buf_load_eq b) by (done || lia). cbn [obind].
  set (inp := take _ _).
  assert (Hd : wp (decompress_loop junk decompress_rounds z inp)
    (λ z' b', (∃ z1, z' = Some z1 ∧ inflated z inp (buf_content b') z1) ∧ buf_wf b' ∧ buf_pos b' = buf_len b' ∧ buf_size b' ≤ MAX_PAYLOAD) ret).
  { apply wp_decompress_loop; [done..|lia|subst inp; auto with ssh| | |].
    3: { intros z1 out b' ? ? ? Hc ?. split_and!; [|done..]. exists z1. split; [done|]. rewrite Hc. unfold buf_content at 1. by rewrite Hl. }
    - unfold MAX_PAYLOAD, RECV_MAX_PAYLOAD_LEN. change ZLIB_COMPRESS_EXPANSION with 21. lia.
    - unfold RECV_MAX_PAYLOAD_LEN, ZLIB_DECOMPRESS_INCR. lia. }
  assert (Hinp : inp = take (Z.to_nat len) (buf_rest b)) by (by rewrite <- buf_rest_load by lia). rewrite <- Hinp.
  unfold wp in Hd. destruct (decompress_loop _ _ _ _ _) as [[z' ret']| |]; done.
Qed.

(** After the checks: strip the padding, decompress or not, hand on. *)
Lemma wp_deliver junk (s : rx) b (Q : () → rx → Prop) len :
  inflate_ok → (∀ i, is_byte (junk i)) → buf_wf b → 0 < len ≤ MAX_PAYLOAD → 5 + len ≤ buf_len b →
  readbuf s = Some (set_pos PACKET_PAYLOAD_OFF b) →
  (∀ pl n z, buf_wf pl → buf_pos pl = n →
     (is_compress_recv s = true → buf_size pl ≤ MAX_PAYLOAD ∧
        inflated (zstream (recv s)) (take (Z.to_nat len) (drop 5 (buf_data b))) (buf_rest pl) z) →
     (is_compress_recv s = false → z = zstream (recv s) ∧ buf_rest pl = take (Z.to_nat len) (drop 5 (buf_data b))) →
     Q tt (set_recvcounts (u32 (recvseq s + 1)) (datarecv s)
             (set_readbuf None (set_recv (set_zstream z (recv s)) (set_payload (Some pl) n s))))) →
  wp (rb ← on_readbuf get;
      s ← get;
      (if is_compress_recv s then
         '(pl, z) ← lift (buf_decompress junk (zstream (recv s)) len rb);
         match z with
         | None => undefined "zlib does not return"
         | Some z =>
             pl ← lift (exec (buf_setpos 0) pl);
             put (set_recv (set_zstream z (recv s)) (set_payload (Some pl) 0 s))
         end
       else
         pl ← lift (exec (buf_setlen (u32 (buf_pos rb + len))) rb);
         put (set_payload (Some pl) (buf_pos rb) s));;
      modify (set_readbuf None);;
      modify (λ s, set_recvcounts (u32 (recvseq s + 1)) (datarecv s) s)) Q s.
Proof.
  intros Hz Hj Hwf Hlen Hfit Hrb HQ. unfold MAX_PAYLOAD, RECV_MAX_PAYLOAD_LEN, PACKET_PAYLOAD_OFF in *.
  change ZLIB_COMPRESS_EXPANSION with 21 in *. pose proof Hwf as Hwf'. buf_facts.
  assert (Hwf5 : buf_wf (set_pos 5 b)) by (apply buf_wf_set_pos; [done|lia]).
  wp_step. eapply wp_on_readbuf; [done|]. wp_step.
  replace (set_readbuf _ s) with s by (destruct s; cbn in *; by rewrite Hrb).
  wp_step. wp_step. wp_step. wp_step.
  - wp_step. apply wp_lift.
    pose proof (buf_decompress_spec junk (zstream (recv s)) len (set_pos 5 b) Hz Hj Hwf5) as Hd.
    unfold MAX_PAYLOAD, RECV_MAX_PAYLOAD_LEN in Hd. change ZLIB_COMPRESS_EXPANSION with 21 in Hd.
    specialize (Hd ltac:(lia) ltac:(cbn; lia)).
    destruct (buf_decompress _ _ _ _) as [[pl z']| |]; [|done..].
    destruct Hd as ((z & -> & Hinf) & Hwfr & Hpr & Hsr). rewrite <- buf_rest_load in Hinf by (cbn; lia). buf_facts.
    apply wp_exec, wp_setpos; [done|lia|]. intros _ Hwf0. wp_auto.
    apply (HQ (set_pos 0 pl) 0 z); [done|done|intros _; split; [done|]|congruence].
    unfold buf_rest, buf_content in *. cbn in *. by rewrite Z.sub_0_r.
  - rewrite u32_small by (unfold U32; cbn; lia).
    apply wp_exec, wp_setlen; [done|cbn; lia|]. cbn. rewrite Z.min_l by lia. intros _ Hwf6. wp_auto. cbn.
    eassert (HQ' : Q tt _) by (apply (HQ _ 5 (zstream (recv s)) Hwf6); [done|congruence|intros _; split; [done|]];
      unfold buf_rest; cbn; f_equal; lia).
    destruct s as [? ? ? [] ? ? ? ?]. exact HQ'.
Qed.

(** [packet] is [body] with all but its first block and the MAC decrypted. *)
Definition opened (k : keys) (body packet : list Z) (c : CS) : Prop :=
  let bs := blocksize (algo_crypt k) in
  let mac := hashsize (algo_mac k) in
  ∃ pt, mode_decrypt (crypt_mode k) (cipher_state k) (take (Z.to_nat (zlen body - mac - bs)) (drop (Z.to_nat bs) body)) = Some (pt, c) ∧
    packet = take (Z.to_nat bs) body ++ pt ++ drop (Z.to_nat (zlen body - mac)) body.
Lemma opened_store b bs mac (pt : list Z) : buf_wf b → 0 ≤ bs → 0 ≤ mac → bs + mac ≤ buf_len b → zlen pt = buf_len b - mac - bs →
  take (Z.to_nat (buf_len b)) (take (Z.to_nat bs) (buf_data b) ++ pt ++ drop (Z.to_nat (bs + zlen pt)) (buf_data b)) =
  take (Z.to_nat bs) (buf_content b) ++ pt ++ drop (Z.to_nat (buf_len b - mac)) (buf_content b).
Proof.
  intros Hwf Hbs Hmac Hfit Hpt. buf_facts. unfold buf_content. rewrite take_take, Nat.min_l, skipn_firstn_comm by lia.
  rewrite !app_assoc. replace (Z.to_nat (bs + zlen pt)) with (Z.to_nat (buf_len b - mac)) by lia.
  set (X := take _ _ ++ pt). assert (HX : length X = Z.to_nat (buf_len b - mac)) by (unfold X; rewrite length_app, length_take; lia).
  replace (Z.to_nat (buf_len b)) with (length X + Z.to_nat mac)%nat by lia. rewrite take_app_add. f_equal. f_equal. lia.
Qed.
Lemma wp_decrypt_packet junk (s : rx) b (Q : () → rx → Prop) :
  inflate_ok → (∀ i, is_byte (junk i)) → keys_wf (recv s) → readbuf s = Some b → buf_wf b →
  16 + hashsize (algo_mac (recv s)) ≤ buf_len b →
  blocksize (algo_crypt (recv s)) + hashsize (algo_mac (recv s)) ≤ buf_len b →
  (∀ s' packet, keys_wf (recv s') → readbuf s' = None → rd_events s' = rd_events s →
     opened (recv s) (buf_content b) packet (cipher_state (recv s')) → accepted s s' packet → Q tt s') →
  wp (decrypt_packet junk) Q s.
Proof.
  intros Hz Hj Hk Hrb Hwf Hmin Hblk HQ. pose proof (kw_hash _ Hk). pose proof (kw_block _ Hk).
  unfold MAX_MAC_LEN in *. unfold decrypt_packet. pose proof Hwf as Hwf'. buf_facts.
  wp_step. wp_step. set (bs := blocksize (algo_crypt (recv s))) in *. set (mac := hashsize (algo_mac (recv s))) in *.
  wp_step. eapply wp_on_readbuf; [done|]. wp_step. wp_step. wp_step.
  wp_step. eapply wp_on_readbuf; [done|]. apply wp_setpos; [done|lia|]. intros _ Hwf1.
  wp_step. eapply wp_on_readbuf; [done|]. wp_step. cbn [buf_pos set_pos].
  rewrite (u32_small (buf_len b - mac - bs)) by (unfold U32; lia).
  wp_step. eapply wp_on_readbuf; [done|]. apply wp_getptr; [done|unfold U32; lia|]. intros _.
  wp_step. eapply wp_on_readbuf; [done|]. apply wp_load; [done|cbn; lia..|]. intros ct Hctd Hct Hctb.
  wp_step. eapply wp_on_readbuf; [done|]. apply wp_getwriteptr; [done|unfold U32; lia|]. intros _.
  wp_step. apply wp_or_exit. intros [pt c] Ed. destruct (kw_dec _ Hk _ _ _ _ Ed Hctb) as [Hpt Hptb].
  wp_step. eapply wp_on_readbuf; [done|]. apply wp_store; [done|cbn; lia|cbn; lia|done|]. intros b2 Hwf2.
  wp_step. wp_step.
  wp_step. eapply wp_on_readbuf; [done|]. rewrite i32_small by lia. apply wp_incrpos; [done|lia|]. cbn. intros _ Hwf3.
  wp_step. eapply wp_checkmac; [by apply keys_wf_state|reflexivity|done|cbn; lia|].
  intros ok p Hwf4 Hmac. wp_step; [by apply wp_exit|]. destruct ok; [|done]. specialize (Hmac eq_refl).
  wp_step. eapply wp_on_readbuf; [reflexivity|]. apply wp_setpos; [done|done|]. intros _ Hwf5.
  change (set_pos PACKET_PADDING_OFF (set_pos p (set_pos (bs + (buf_len b - mac - bs)) b2)))
    with (set_pos 4 b2).
  wp_step. eapply wp_on_readbuf; [reflexivity|]. apply getbyte_at; [done|cbn; lia|].
  set (padlen := buf_data b2 !!! Z.to_nat 4).
  assert (Hpad : is_byte padlen).
  { eapply Forall_lookup_total_1; [apply Hwf2|]. pose proof (wf_data _ Hwf2) as Hd. cbn in Hd. cbn. lia. }
  assert (Hn : zlen (buf_content b2) = buf_len b).
  { unfold buf_content. pose proof (wf_data _ Hwf2) as Hd. subst b2. cbn in *. rewrite length_take. lia. }
  assert (Hpl : payload_len mac (buf_content b2) = buf_len b - padlen - 4 - 1 - mac).
  { unfold payload_len. rewrite Hn, buf_content_nth by (done || cbn; lia). done. }
  wp_step; [by apply wp_exit|]. unfold is_byte in Hpad.
  set (n := buf_len b - padlen - 4 - 1 - mac) in *.
  assert (Hu : u32 n = n ∧ 1 ≤ n ≤ MAX_PAYLOAD).
  { unfold MAX_PAYLOAD, RECV_MAX_PAYLOAD_LEN in *. change ZLIB_COMPRESS_EXPANSION with 21 in *.
    destruct (Z.lt_ge_cases n 0); [|rewrite u32_small in * by (unfold U32; lia); lia].
    exfalso. replace (u32 n) with (n + U32) in *; [unfold U32 in *; bool_lia|].
    unfold u32. apply (Z.mod_unique_pos _ _ (-1)); unfold U32; lia. }
  destruct Hu as [-> Hnr].
  wp_step. eapply wp_on_readbuf; [reflexivity|].
  apply wp_setpos; [apply buf_wf_set_pos; [done|cbn; lia]|done|]. intros _ _.
  change (set_pos PACKET_PAYLOAD_OFF (set_pos (4 + 1) b2)) with (set_pos PACKET_PAYLOAD_OFF b2).
  eapply wp_deliver; [done|done|exact Hwf2|lia|cbn; lia|reflexivity|].
  assert (Hpp : packet_payload mac (buf_content b2) = take (Z.to_nat n) (drop 5 (buf_data b2))).
  { unfold packet_payload. rewrite Hpl. unfold buf_content. change (buf_len b2) with (buf_len b).
    rewrite skipn_firstn_comm, take_take. f_equal. lia. }
  intros pl beg z Hpwf Hpos Hcomp Hplain. apply (HQ _ (buf_content b2)); [|done|done| |].
  { cbn. by apply keys_wf_zstream, keys_wf_state. }
  { pose proof (opened_store b bs mac pt Hwf' ltac:(lia) ltac:(lia) ltac:(lia) ltac:(lia)) as Ho. exists pt. fold bs mac.
    assert (Hbl : zlen (buf_content b) = buf_len b) by (unfold buf_content; rewrite length_take; lia). rewrite Hbl. split; [|exact Ho].
    etransitivity; [|exact Ed]. f_equal. rewrite Hctd. cbn. unfold buf_content. rewrite skipn_firstn_comm, take_take. f_equal. lia. }
  unfold accepted. fold mac. rewrite Hpl. split_and!; [exact Hmac|lia|lia|done|].
  exists pl. rewrite Hpp. split_and!; [done..|exact Hcomp|]. intros Hc. by destruct (Hplain Hc) as [_ ->].
Qed.

(** The bytes the socket still has. *)
Definition stream (ev : list rdres) : list Z :=
  ev ≫= λ e, match e with RData bs => bs | RErr _ => [] end.
Lemma sys_read_wf ev n r ev' : 0 < n → Forall event_wf ev → sys_read ev n = (r, ev') →
  Forall event_wf ev' ∧ event_wf r ∧
  match r with RData bs => zlen bs ≤ n ∧ stream ev = bs ++ stream ev' | RErr _ => stream ev = stream ev' end.
Proof.
  intros Hn Hev. unfold sys_read. destruct ev as [|[bs|e] ev].
  - by intros [= <- <-].
  - apply Forall_cons in Hev as [Hb Hev]. case_if; [case_if|]; intros [= <- <-].
    + split_and!; [by apply Forall_cons|done|lia|]. by destruct bs.
    + split_and!; [done|done|lia|done].
    + split_and!; [apply Forall_cons; split; [by apply Forall_drop|done]|by apply Forall_take|rewrite length_take; lia|].
      cbn. by rewrite app_assoc, take_drop.
  - apply Forall_cons in Hev as [_ Hev]. by intros [= <- <-].
Qed.

(** The bytes [bs] at offset [off] of the data. *)
Definition data_store (off : Z) (bs : list Z) (b : buffer) : buffer :=
  set_data (take (Z.to_nat off) (buf_data b) ++ bs ++ drop (Z.to_nat (off + zlen bs)) (buf_data b)) b.

Lemma wp_read_sock p maxlen (s : rx) b (Q : option Z → rx → Prop) :
  Forall event_wf (rd_events s) → readbuf s = Some b → buf_wf b → 0 < maxlen → 0 ≤ p →
  p + maxlen ≤ buf_size b →
  (∀ ev, Forall event_wf ev → stream (rd_events s) = stream ev → Q None (set_rd_events ev s)) →
  (∀ ev bs, Forall event_wf ev → 0 < zlen bs ≤ maxlen → Forall is_byte bs → stream (rd_events s) = bs ++ stream ev →
     buf_wf (data_store p bs b) →
     Q (Some (zlen bs)) (set_readbuf (Some (data_store p bs b)) (set_rd_events ev s))) →
  wp (read_sock p maxlen) Q s.
Proof.
  intros Hev Hrb Hwf Hm Hp Hfit HN Hsome. unfold read_sock. wp_step. wp_step.
  destruct (sys_read _ _) as [r ev] eqn:E. destruct (sys_read_wf _ _ _ _ Hm Hev E) as (Hev' & Hr & Hlen).
  wp_step. wp_step. destruct r as [bs|[]].
  - destruct Hlen as [Hlen Hst]. wp_step. eapply wp_on_readbuf; [done|]. apply wp_store; [done..|lia|done|]. intros b' Hwf'.
    wp_step; [by apply wp_exit|]. apply wp_ret. apply Hsome; [done|lia|done..].
  - by apply wp_ret, HN.
  - by apply wp_exit.
Qed.

(** ** The bytes of the packet that is being received

    [receiving k W s]: since it began to receive a packet with the keys [k],
    the receive side has taken the bytes [W] from the socket.  They are in the
    read buffer; once the first block is complete it has been decrypted, and
    its length field is the length of the packet. *)
Definition receiving (k : keys) (W : list Z) (s : rx) : Prop :=
  let bs := Z.to_nat (blocksize (algo_crypt k)) in
  match readbuf s with
  | None => W = [] ∧ recv s = k
  | Some b => zlen W = buf_pos b ∧
      if buf_len b <? blocksize (algo_crypt k) then recv s = k ∧ buf_content b = W
      else ∃ first c, mode_decrypt (crypt_mode k) (cipher_state k) (take bs W) = Some (first, c) ∧
        recv s = set_cipher_state c k ∧ take (Z.to_nat (buf_pos b)) (buf_data b) = first ++ drop bs W ∧
        zlen first = blocksize (algo_crypt k) ∧ buf_len b = LOAD32H (take 4 first) + 4 + hashsize (algo_mac k)
  end.
(** [packet] is what the bytes [wire] of the socket decrypt to, but for the MAC
    at their end, and their number is what the length field says. *)
Definition decrypts (k : keys) (wire packet : list Z) (c : CS) : Prop :=
  let bs := blocksize (algo_crypt k) in
  let mac := hashsize (algo_mac k) in
  ∃ first c1 pt,
    mode_decrypt (crypt_mode k) (cipher_state k) (take (Z.to_nat bs) wire) = Some (first, c1) ∧
    mode_decrypt (crypt_mode k) c1 (take (Z.to_nat (zlen wire - mac - bs)) (drop (Z.to_nat bs) wire)) = Some (pt, c) ∧
    packet = first ++ pt ++ drop (Z.to_nat (zlen wire - mac)) wire ∧
    zlen wire = LOAD32H (take 4 first) + 4 + mac.
(** The whole packet has arrived. *)
Lemma receiving_opened (k : keys) W (s : rx) b packet c : keys_wf k → receiving k W s → readbuf s = Some b → buf_wf b →
  blocksize (algo_crypt k) + hashsize (algo_mac k) ≤ buf_len b → buf_pos b = buf_len b →
  opened (recv s) (buf_content b) packet c → decrypts k W packet c.
Proof.
  intros Hk Hr Hb Hwf Hlen Hpos. unfold receiving in Hr. rewrite Hb in Hr. destruct Hr as [HW Hr]. pose proof (kw_hash _ Hk). pose proof (kw_block _ Hk).
  destruct (Z.ltb_spec (buf_len b) (blocksize (algo_crypt k))); [lia|]. destruct Hr as (first & c1 & Hd & Hrecv & Hdata & Hf & Hl).
  rewrite Hpos in Hdata. fold (buf_content b) in Hdata. unfold opened. rewrite Hrecv. cbn. intros (pt & Hpt & ->).
  rewrite Hdata in Hpt |- *. set (bs := blocksize (algo_crypt k)) in *.
  assert (Hz : zlen (first ++ drop (Z.to_nat bs) W) = zlen W) by (rewrite length_app, length_drop; lia). rewrite Hz in *.
  exists first, c1, pt. fold bs. split_and!; [done| | |lia].
  - etransitivity; [|exact Hpt]. f_equal. f_equal. by rewrite drop_app_length' by lia.
  - rewrite take_app_length' by lia. do 2 f_equal. set (m := Z.to_nat _).
    rewrite drop_app_ge by lia. rewrite drop_drop. f_equal. lia.
Qed.
(** More of the packet arrives. *)
Lemma stored_after b bs : buf_wf b → buf_pos b + zlen bs ≤ buf_size b →
  take (Z.to_nat (buf_pos b + zlen bs)) (buf_data (data_store (buf_pos b) bs b)) = take (Z.to_nat (buf_pos b)) (buf_data b) ++ bs.
Proof.
  intros Hwf Hfit. buf_facts. cbn. rewrite app_assoc. apply take_app_length'. rewrite length_app, length_take. lia.
Qed.

(** What [read_packet_init] leaves when the length is known. *)
Definition known_length (k : keys) (b : buffer) : Prop :=
  buf_wf b ∧ buf_pos b = blocksize (algo_crypt k) ∧
  MIN_PACKET_LEN + hashsize (algo_mac k) ≤ buf_len b ≤ RECV_MAX_PACKET_LEN ∧
  blocksize (algo_crypt k) + hashsize (algo_mac k) ≤ buf_len b ∧
  (buf_len b - hashsize (algo_mac k)) mod blocksize (algo_crypt k) = 0.

Lemma length_check n mac bs : 8 ≤ bs ≤ 64 → 0 ≤ mac ≤ 64 → 0 ≤ n < U32 →
  (n >? RECV_MAX_PACKET_LEN) || (n <? MIN_PACKET_LEN + mac) || negb (u32 (n - mac) mod bs =? 0) = false →
  MIN_PACKET_LEN + mac ≤ n ≤ RECV_MAX_PACKET_LEN ∧ bs + mac ≤ n ∧ (n - mac) mod bs = 0.
Proof.
  intros Hbs Hmac Hn. change RECV_MAX_PACKET_LEN with 35000. unfold MIN_PACKET_LEN. intros Hc.
  apply orb_false_iff in Hc as [Hc Hmod]. apply negb_false_iff, Z.eqb_eq in Hmod. bool_lia.
  rewrite u32_small in Hmod by (unfold U32; lia). split_and!; [lia..| |done].
  apply Z.mod_divide in Hmod as [q Hq]; [|lia]. destruct (Z.le_gt_cases q 0); nia.
Qed.

Lemma wp_read_packet_init junk (k0 : keys) W (s : rx) (Q : bool → rx → Prop) :
  (∀ i, is_byte (junk i)) → rx_wf s → receiving k0 W s →
  (∀ b, readbuf s = Some b → buf_len b < blocksize (algo_crypt (recv s))) →
  (∀ s' new, rx_wf s' → payload s' = payload s → recvseq s' = recvseq s →
     stream (rd_events s) = new ++ stream (rd_events s') → receiving k0 (W ++ new) s' → Q false s') →
  (∀ s' b new, rx_wf s' → payload s' = payload s → recvseq s' = recvseq s →
     stream (rd_events s) = new ++ stream (rd_events s') → receiving k0 (W ++ new) s' →
     set_cipher_state (cipher_state (recv s)) (recv s') = recv s →
     rx_authdone s' = rx_authdone s →
     readbuf s' = Some b → known_length (recv s') b → Q true s') →
  wp (read_packet_init junk) Q s.
Proof.
  intros Hj Hwf Hrcv Hshort HF HT.
  assert (recv s = k0 ∧ match readbuf s with Some b => buf_content b = W | None => W = [] end) as [Hk0 HW].
  { unfold receiving in Hrcv. destruct (readbuf s) as [b|] eqn:Eb; [|by destruct Hrcv]. specialize (Hshort b eq_refl).
    destruct Hrcv as [_ Hr]. destruct (Z.ltb_spec (buf_len b) (blocksize (algo_crypt k0))) as [?|Hge]; [done|].
    destruct Hr as (first & c & _ & E & _). exfalso. rewrite E in Hshort. cbn in Hshort. lia. }
  pose proof (rw_keys _ Hwf) as Hk. pose proof (kw_block _ Hk).
  pose proof (kw_hash _ Hk). unfold MAX_MAC_LEN in *. unfold read_packet_init. wp_step. wp_step.
  set (bs := blocksize (algo_crypt (recv s))) in *. set (mac := hashsize (algo_mac (recv s))) in *.
  wp_step.
  apply (wp_mono _ (λ _ s1, ∃ b, s1 = set_readbuf (Some b) s ∧ buf_wf b ∧ buf_pos b = buf_len b ∧
    buf_len b < bs ∧ buf_size b = INIT_READBUF ∧ buf_content b = W)).
  { destruct (readbuf s) as [b|] eqn:Erb.
    - apply wp_ret. exists b. destruct (rw_readbuf _ Hwf b Erb) as [Hbwf Hb]. specialize (Hshort b eq_refl).
      split_and!; [by destruct s; cbn in *; rewrite Erb|done|..]; fold bs in Hb; buf_facts;
        destruct Hb as [(?&?&?)|(?&?&?&?)]; done || lia.
    - wp_step. apply wp_new; [done|]. intros b Hb Hl Hp Hs. wp_step. exists b. split_and!; [done..|lia|lia|done|]. subst W. unfold buf_content. by rewrite Hl. }
  intros _ s1 (b & -> & Hbwf & Hpos & Hlen & Hsize & Hbc). unfold INIT_READBUF in *. pose proof Hbwf. buf_facts.
  wp_step. eapply wp_on_readbuf; [done|]. wp_step.
  rewrite (u32_small (bs - buf_pos b)) by (unfold U32; lia).
  wp_step. eapply wp_on_readbuf; [done|]. apply wp_getwriteptr; [done|unfold U32; lia|]. intros _.
  wp_step. eapply wp_read_sock; [apply Hwf|reflexivity|done|lia|lia|lia| |].
  { intros ev Hev Hst. wp_step. apply (HF _ []); [|done|done|done|].
    - split; [done| |done]. intros b' [= <-]. split; [done|]. left. done.
    - rewrite app_nil_r. unfold receiving. cbn. rewrite <- Hbc at 1. split; [unfold buf_content; rewrite length_take; lia|].
      rewrite <- Hk0. fold bs. by rewrite (proj2 (Z.ltb_lt _ _)). }
  intros ev bytes Hev Hbl Hbb Hst Hwf1.
  wp_step. eapply wp_on_readbuf; [done|]. apply wp_incrwritepos; [done|unfold U32; lia|].
  intros b2 Hfit2 Hwf2.
  assert (Hc2 : buf_content b2 = W ++ bytes).
  { pose proof (stored_after b bytes Hbwf ltac:(lia)) as Hsa. rewrite <- Hbc. unfold buf_content at 2. rewrite <- Hpos.
    etransitivity; [|exact Hsa]. unfold buf_content, b2. cbn [buf_len set_len buf_data set_pos]. do 2 f_equal.
    change (buf_pos (data_store _ _ b)) with (buf_pos b). change (buf_len (data_store _ _ b)) with (buf_len b). lia. }
  assert (HWl : zlen (W ++ bytes) = buf_pos b + zlen bytes) by (rewrite <- Hbc, length_app; unfold buf_content; rewrite length_take; lia).
  wp_step.
  { apply wp_ret. apply (HF _ bytes); [|done|done|done|].
    - split; [done| |done]. intros b' [= <-]. split; [done|].
      left. subst b2. cbn in *. unfold INIT_READBUF. bool_lia.
    - unfold receiving. cbn [readbuf set_readbuf]. split; [rewrite HWl; done|]. rewrite (proj2 (Z.ltb_lt _ _)); [by split|].
      rewrite <- Hk0. fold bs. subst b2. cbn in *. bool_lia. }
  assert (zlen bytes = bs - buf_pos b) as Hfull by bool_lia.
  assert (Hl2 : buf_len b2 = bs) by (subst b2; cbn; lia).
  assert (Hs2 : buf_size b2 = 128) by done. clearbody b2.
  wp_step. eapply wp_on_readbuf; [done|]. apply wp_setpos; [done..|]. intros _ Hwf3.
  wp_step. eapply wp_on_readbuf; [done|]. apply wp_getptr; [done|unfold U32; lia|]. intros _.
  wp_step. eapply wp_on_readbuf; [done|]. apply wp_load; [done|cbn; lia..|]. intros ct Hctd Hct Hctb.
  assert (Hcw : ct = take (Z.to_nat bs) (W ++ bytes)).
  { rewrite Hctd. cbn. change (drop (Z.to_nat 0) (buf_data b2)) with (buf_data b2). rewrite <- Hc2. unfold buf_content. by rewrite Hl2, take_take, Nat.min_id. }
  wp_step. eapply wp_on_readbuf; [done|]. apply wp_getwriteptr; [done|unfold U32; lia|]. intros _.
  wp_step. apply wp_or_exit. intros [pt c] Ed. destruct (kw_dec _ Hk _ _ _ _ Ed Hctb) as [Hpt Hptb].
  wp_step. eapply wp_on_readbuf; [done|]. apply wp_store; [done|cbn; lia|cbn; lia|done|]. intros b4 Hwf4.
  assert (Hd4 : take (Z.to_nat bs) (buf_data b4) = pt) 
    by (subst b4; cbn [buf_data set_data set_pos buf_pos]; change (take (Z.to_nat 0) (buf_data b2)) with (@nil Z); apply (take_app_length' pt); lia).
  assert (Hr4 : buf_rest b4 = pt) 
    by (etransitivity; [|exact Hd4]; unfold buf_rest; subst b4; cbn [buf_len buf_pos set_data set_pos]; by rewrite Hl2, Z.sub_0_r).
  wp_step. wp_step.
  wp_step. eapply wp_on_readbuf; [done|]. apply (reader_wp buf_getint p_int _ _ Hwf4).
  intros v n Hn Hnfit Hwf5 Hv. pose proof (p_int_range _ _ _ Hv).
  assert (Hvl : v = LOAD32H (take 4 pt)).
  { rewrite Hr4 in Hv. unfold p_int, p_bind, p_bytes in Hv. rewrite (proj2 (Z.leb_le _ _)) in Hv by lia. by injection Hv as <- _. }
  wp_step; [by apply wp_exit|].
  match goal with H : _ || _ = false |- _ =>
    destruct (length_check _ mac bs ltac:(lia) ltac:(done) (u32_range _) H) as (Hr & Hblk & Hmod) end.
  set (len := u32 (v + 4 + mac)) in *. change RECV_MAX_PACKET_LEN with 35000 in Hr. unfold MIN_PACKET_LEN in Hr.
  wp_step. eapply wp_on_readbuf; [done|]. wp_step.
  set (s5 := set_readbuf _ _). wp_step.
  apply (wp_mono _ (λ _ s', ∃ b6, s' = set_readbuf (Some b6) s5 ∧ buf_wf b6 ∧ take (Z.to_nat bs) (buf_data b6) = pt)).
  { wp_step.
    - eapply wp_on_readbuf; [done|]. apply wp_resize; [done|lia|done|]. intros b6 Hwf6 Hs6 _ _ [tl Htl]. exists b6. split_and!; [done..|].
      rewrite <- Hd4, Htl. cbn [buf_data buf_advance set_pos]. pose proof (wf_data _ Hwf4) as Hz4. change (buf_size b4) with (buf_size b2) in Hz4.
      rewrite take_app_le by (rewrite length_take; lia). rewrite take_take. f_equal. lia.
    - eexists. by split_and!. }
  intros _ s' (b6 & -> & Hwf6 & Hd6).
  wp_step. eapply wp_on_readbuf; [done|]. apply wp_setlen; [done|lia|]. intros Hl6 Hwf7.
  wp_step. eapply wp_on_readbuf; [done|]. apply wp_setpos; [done|lia|]. intros Hbl8 Hwf8.
  assert (Hlv : len = v + 4 + mac).
  { unfold len in *. unfold u32, U32 in *. destruct (Z.lt_ge_cases (v + 4 + mac) 4294967296); [rewrite Z.mod_small; lia|].
    exfalso. assert ((v + 4 + mac) mod 4294967296 = v + 4 + mac - 4294967296) as E by (symmetry; apply (Z.mod_unique_pos _ _ 1); lia). lia. }
  apply wp_ret. eapply (HT _ _ bytes); [|reflexivity|reflexivity|exact Hst| |by destruct s as [? ? ? [] ? ? ? ?]|reflexivity|reflexivity|].
  - split; [by apply keys_wf_state| |done]. intros b' [= <-]. split; [done|]. right. done.
  - unfold receiving. cbn [readbuf set_readbuf buf_pos set_pos buf_len set_len]. rewrite <- Hk0. fold bs mac. split; [lia|]. rewrite (proj2 (Z.ltb_ge _ _)) by lia.
    exists pt, c. rewrite <- Hcw, drop_ge, app_nil_r by lia. split_and!; [done|done|done|lia|rewrite <- Hvl; exact Hlv].
  - done.
Qed.

Lemma accepted_state (s s1 s' : rx) packet :
  set_cipher_state (cipher_state (recv s)) (recv s1) = recv s → rx_authdone s1 = rx_authdone s →
  recvseq s1 = recvseq s → accepted s1 s' packet → accepted s s' packet.
Proof.
  destruct s, s1; cbn. intros <- -> ->. exact (λ H, H).
Qed.

(** A receive side that has begun a packet still has the keys it began with. *)
Lemma receiving_keys (k0 : keys) W (s : rx) : receiving k0 W s → ∃ c, recv s = set_cipher_state c k0.
Proof.
  unfold receiving. destruct (readbuf s) as [b|]; [|intros [_ ->]; by exists (cipher_state k0); destruct k0].
  intros [_ Hr]. destruct (_ <? _); [destruct Hr as [-> _]; by exists (cipher_state k0); destruct k0|].
  destruct Hr as (first & c & _ & E & _). by exists c.
Qed.
(** More bytes of a packet whose length is known. *)
Lemma receiving_more (k0 : keys) W (s s' : rx) b bytes : receiving k0 W s → readbuf s = Some b → buf_wf b →
  0 < blocksize (algo_crypt k0) ≤ buf_pos b → buf_pos b + zlen bytes ≤ buf_len b → recv s' = recv s →
  readbuf s' = Some (set_pos (buf_pos b + zlen bytes) (data_store (buf_pos b) bytes b)) → receiving k0 (W ++ bytes) s'.
Proof.
  unfold receiving. intros Hr Hrb Hwf Hp Hfit Hk ->. rewrite Hrb in Hr. destruct Hr as [HW Hr]. pose proof Hwf as Hwf'. buf_facts.
  cbn [buf_pos set_pos buf_len data_store set_data]. split; [rewrite length_app; lia|]. rewrite (proj2 (Z.ltb_ge _ _)) in * by lia.
  destruct Hr as (first & c & Hd & Hrecv & Hdata & Hf & Hl). exists first, c. rewrite Hk. split_and!; [|done| |done|done].
  - by rewrite take_app_le by lia.
  - etransitivity; [exact (stored_after b bytes Hwf' ltac:(lia))|]. rewrite Hdata.
    by rewrite drop_app_le, app_assoc by lia.
Qed.
(** Whatever the peer sends, [read_packet] stays inside its buffers; a payload
    appears only from an accepted packet. *)
Lemma wp_read_rest junk (k0 : keys) W (s : rx) b : inflate_ok → (∀ i, is_byte (junk i)) → keys_wf k0 → rx_wf s → receiving k0 W s →
  readbuf s = Some b → blocksize (algo_crypt k0) ≤ buf_len b →
  wp (read_packet_rest junk)
    (λ _ s', rx_wf s' ∧ ∃ new, stream (rd_events s) = new ++ stream (rd_events s') ∧
       ((payload s' = payload s ∧ recvseq s' = recvseq s ∧ receiving k0 (W ++ new) s') ∨
        (readbuf s' = None ∧ zlen (W ++ new) ≤ RECV_MAX_PACKET_LEN ∧
         ∃ packet, decrypts k0 (W ++ new) packet (cipher_state (recv s')) ∧ accepted s s' packet))) s.
Proof.
  intros Hz Hj Hk0 Hwf Hrcv Hb Hlen. destruct (receiving_keys _ _ _ Hrcv) as [c0 Hc0].
  assert (algo_crypt (recv s) = algo_crypt k0 ∧ algo_mac (recv s) = algo_mac k0) as [E1 E2] by (by rewrite Hc0).
  pose proof (kw_block _ Hk0). pose proof (kw_hash _ Hk0).
  destruct (rw_readbuf _ Hwf b Hb) as [Hbwf [(_ & Hlt & _)|Hfull]]; [rewrite E1 in Hlt; lia|].
  destruct Hfull as (Hbpos & Hr & Hblk & Hmod). unfold MIN_PACKET_LEN in Hr. rewrite E1, E2 in *.
  pose proof Hbwf. buf_facts. unfold read_packet_rest. wp_step. eapply wp_on_readbuf; [done|]. wp_step.
  replace (set_readbuf (Some b) s) with s by (destruct s; cbn in *; by rewrite Hb).
  rewrite (u32_small (buf_len b - buf_pos b)) by (unfold U32; lia).
  wp_step.
  apply (wp_mono _ (λ len s2, rx_wf s2 ∧ payload s2 = payload s ∧ recvseq s2 = recvseq s ∧
    recv s2 = recv s ∧ rx_authdone s2 = rx_authdone s ∧
    ∃ b2 new, readbuf s2 = Some b2 ∧ buf_wf b2 ∧ buf_len b2 = buf_len b ∧ stream (rd_events s) = new ++ stream (rd_events s2) ∧
      receiving k0 (W ++ new) s2 ∧ (∀ n, len = Some n → buf_pos b2 = buf_pos b + n ∧ 0 ≤ n ≤ buf_len b - buf_pos b))).
  { wp_step.
    - apply wp_ret. split_and!; [done..|]. exists b, []. rewrite app_nil_r. split_and!; [done..|]. intros n [= <-]. lia.
    - wp_step. eapply wp_on_readbuf; [done|]. apply wp_getptr; [done|unfold U32; lia|]. intros _.
      replace (set_readbuf (Some b) s) with s by (destruct s; cbn in *; by rewrite Hb).
      wp_step. eapply wp_read_sock; [apply Hwf|done|done|bool_lia|lia|lia| |].
      + intros ev Hev Hst. apply wp_ret. split_and!; [|done..|].
        * split; [apply Hwf|intros b'; cbn; intros; by apply Hwf|done].
        * exists b, []. rewrite app_nil_r. by split_and!.
      + intros ev bytes Hev Hbl Hbb Hst Hwfb. wp_step. eapply wp_on_readbuf; [done|].
        apply wp_incrpos; [done|lia|]. intros Hpos2 Hwf2. apply wp_ret. split_and!; [|done..|].
        * split; [apply Hwf| |done]. intros b' [= <-]. split; [done|]. right. unfold MIN_PACKET_LEN. cbn in *. rewrite E1, E2. split_and!; (done || lia).
        * eexists _, bytes. split_and!; [done..| |].
          -- eapply receiving_more; [done|done|done|lia|lia|done|done].
          -- intros n [= <-]. split; [done|lia]. }
  intros len s2 (Hwf2 & Hp2 & Hq2 & Hr2 & Ha2 & b2 & new & Hb2 & Hbwf2 & Hl2 & Hst & Hrcv2 & Hn).
  assert (Hout : rx_wf s2 ∧ ∃ new, stream (rd_events s) = new ++ stream (rd_events s2) ∧
    ((payload s2 = payload s ∧ recvseq s2 = recvseq s ∧ receiving k0 (W ++ new) s2) ∨
        (readbuf s2 = None ∧ zlen (W ++ new) ≤ RECV_MAX_PACKET_LEN ∧
         ∃ packet, decrypts k0 (W ++ new) packet (cipher_state (recv s2)) ∧ accepted s s2 packet)))
    by (split; [done|]; exists new; split; [done|]; by left).
  destruct len as [len|]; [|by apply wp_ret]. destruct (Hn len eq_refl) as [Hpos2 Hlr]. wp_step; [|exact Hout].
  match goal with H : (u32 len =? _) = true |- _ => rewrite u32_small in H by (unfold U32; lia) end.
  eapply wp_decrypt_packet; [done|done|apply Hwf2|done|done|rewrite Hr2, E2; lia|rewrite Hr2, E1, E2; lia|].
  intros s' packet Hk' Hrb' Hev' Hpk Hacc. split.
  - split; [done|congruence|]. rewrite Hev'. apply Hwf2.
  - exists new. rewrite Hev'. split; [done|]. right. split; [done|].
    assert (HWl : zlen (W ++ new) = buf_pos b2) by (unfold receiving in Hrcv2; rewrite Hb2 in Hrcv2; apply Hrcv2).
    split; [bool_lia|]. exists packet. split; [eapply receiving_opened; [done|done|done|done|lia|bool_lia|done]|].
    eapply (accepted_state s s2); [|congruence..|done]. rewrite Hr2. by destruct (recv s).
Qed.
Lemma wp_read_packet junk (k0 : keys) W (s : rx) :
  inflate_ok → (∀ i, is_byte (junk i)) → rx_wf s → receiving k0 W s →
  wp (read_packet junk)
    (λ _ s', rx_wf s' ∧ ∃ new, stream (rd_events s) = new ++ stream (rd_events s') ∧
       ((payload s' = payload s ∧ recvseq s' = recvseq s ∧ receiving k0 (W ++ new) s') ∨
        (readbuf s' = None ∧ zlen (W ++ new) ≤ RECV_MAX_PACKET_LEN ∧
         ∃ packet, decrypts k0 (W ++ new) packet (cipher_state (recv s')) ∧ accepted s s' packet))) s.
Proof.
  intros Hz Hj Hwf Hrcv. destruct (receiving_keys _ _ _ Hrcv) as [c0 Hc0].
  assert (Hk0 : keys_wf k0) by (replace k0 with (set_cipher_state (cipher_state k0) (recv s)) by (rewrite Hc0; by destruct k0); apply keys_wf_state, Hwf).
  unfold read_packet. wp_step. wp_step. wp_step. replace (blocksize (algo_crypt (recv s))) with (blocksize (algo_crypt k0)) by (by rewrite Hc0).
  set (Q := λ (_ : ()) (s' : rx), _).
  assert (Hinit : (∀ b, readbuf s = Some b → buf_len b < blocksize (algo_crypt k0)) → wp (read_packet_init junk)
    (λ (ready : bool) s1, wp (if negb ready then mret tt else read_packet_rest junk) Q s1) s).
  { intros Hs. eapply (wp_read_packet_init junk k0 W); [done|done|done|by rewrite Hc0|..].
    - intros s' new Hwf' Hp Hq Hst Hr. apply wp_ret. split; [done|]. exists new. split; [done|]. by left.
    - intros s1 b new Hwf1 Hp1 Hq1 Hst1 Hr1 Hc1 Ha1 Hb (_ & _ & _ & Hl & _). cbn [negb].
      assert (recv s = set_cipher_state (cipher_state (recv s)) (recv s1)) as E by done.
      assert (algo_crypt (recv s1) = algo_crypt k0 ∧ algo_mac (recv s1) = algo_mac k0) as [E1 E2] by (rewrite Hc0 in E; destruct k0, (recv s1); by injection E).
      pose proof (kw_hash _ Hk0). rewrite E1, E2 in Hl.
      eapply wp_mono; [eapply (wp_read_rest junk k0 (W ++ new)); [done..|lia]|]. intros [] s' (Hwf' & new' & Hst' & Hcase). split; [done|].
      exists (new ++ new'). rewrite Hst1, Hst', !app_assoc. split; [done|]. destruct Hcase as [(Hp & Hq & Hr)|(Hn & Hl' & packet & Hd & Hacc)].
      + left. split_and!; congruence || done.
      + right. split_and!; [done..|]. exists packet. split; [done|]. by eapply accepted_state. }
  destruct (readbuf s) as [b|] eqn:Eb; [|by apply Hinit].
  wp_step; [apply Hinit; intros b' [= <-]; lia|]. apply wp_ret. cbn [negb]. eapply wp_read_rest; [done..|lia].
Qed.

(** ** The shape of a packet *)
Lemma packet_padlen_spec bs len :
  bs = 8 ∨ 16 ≤ bs ≤ 64 → 6 ≤ len ≤ BUF_MAX_SIZE →
  let p := packet_padlen bs len in
  4 ≤ p ≤ 255 ∧ (len + p) mod bs = 0 ∧ MIN_PACKET_LEN ≤ len + p ∧
  p ≤ Z.max MIN_PACKET_LEN bs + 3.
Proof.
  intros Hbs Hlen. unfold packet_padlen, MIN_PACKET_LEN, BUF_MAX_SIZE in *.
  pose proof (Z.mod_pos_bound len bs ltac:(lia)) as Hr.
  pose proof (Z.mod_le len bs ltac:(lia) ltac:(lia)) as Hle.
  pose proof (Z.div_mod len bs ltac:(lia)) as Hd.
  set (r := len mod bs) in *. set (q := len / bs) in *.
  rewrite (u8_small (bs - r)) by (unfold is_byte; lia).
  assert (Hmod : ∀ k, (len + (k * bs - r)) mod bs = 0).
  { intros k. replace (len + (k * bs - r)) with ((q + k) * bs) by lia. apply Z.mod_mul. lia. }
  destruct (Z.ltb_spec (bs - r) 4).
  - rewrite (u8_small (bs - r + bs)) by (unfold is_byte; lia).
    rewrite u32_small by (unfold U32; lia). destruct (Z.ltb_spec (len + (bs - r + bs)) 16); [lia|].
    split_and!; [lia..| |lia|lia]. rewrite <- (Hmod 2). f_equal. lia.
  - rewrite u32_small by (unfold U32; lia). destruct (Z.ltb_spec (len + (bs - r)) 16).
    + destruct Hbs as [->|]; [|lia]. lia.
    + split_and!; [lia..| |lia|lia]. rewrite <- (Hmod 1). f_equal. lia.
Qed.

End props.

(** Padding: for a block size of 8, or from 16 to 64, and every packet that
    holds at least one byte of payload, the padding is between 4 and 255 bytes,
    the packet is a multiple of the block size and at least 16 bytes, and the
    padding is at most a block and 3 bytes (or 19), which is what
    [encrypt_packet] reserves for it. *)
Theorem packet_padlen_ok bs len :
  bs = 8 ∨ 16 ≤ bs ≤ 64 → 6 ≤ len ≤ BUF_MAX_SIZE →
  let p := packet_padlen bs len in
  4 ≤ p ≤ 255 ∧ (len + p) mod bs = 0 ∧ MIN_PACKET_LEN ≤ len + p ∧
  p ≤ Z.max MIN_PACKET_LEN bs + 3.
Proof. intros. by apply packet_padlen_spec. Qed.
Lemma packet_padlen_ok_witness :
  (4 ≤ packet_padlen 16 21 ≤ 255 ∧ (21 + packet_padlen 16 21) mod 16 = 0 ∧
   MIN_PACKET_LEN ≤ 21 + packet_padlen 16 21 ∧
   packet_padlen 16 21 ≤ Z.max MIN_PACKET_LEN 16 + 3) ∧ packet_padlen 16 21 = 11.
Proof.
  split; [|reflexivity].
  apply (packet_padlen_ok 16 21); [right; lia|unfold BUF_MAX_SIZE; lia].
Defined.
