(* ===== verification/PacketRoundtrip.v ===== *)
(** * From [encrypt_packet] to [read_packet]

    The exact packet that [encrypt_packet] queues, its delivery by
    [write_packet], and the round trip: a receiver in step with the sender
    gets the payloads in order, whatever way the socket cuts the stream. *)
From S2P Require Import Prelude Ssh Buffer Packet PacketProps.

(** ** Buffers with their contents written out *)
Lemma mem_store_at pre old post bs : zlen old = zlen bs →
  mem_store (pre ++ old ++ post) (zlen pre) bs = Ok (pre ++ bs ++ post).
Proof.
  intros Hl. rewrite mem_store_ok by (rewrite ?length_app; lia). do 2 f_equal; [|f_equal].
  - rewrite Nat2Z.id. by rewrite take_app_length.
  - replace (Z.to_nat (zlen pre + zlen bs)) with (length pre + length old)%nat by lia.
    rewrite app_assoc, <- length_app. by rewrite drop_app_length.
Qed.

Lemma mem_load_at pre bs post : mem_load (pre ++ bs ++ post) (zlen pre) (zlen bs) = Ok bs.
Proof.
  rewrite mem_load_ok by (rewrite ?length_app; lia). rewrite !Nat2Z.id, drop_app_length.
  by rewrite take_app_length.
Qed.

Lemma buf_wf_mk d len pos : 0 ≤ pos ≤ len → len ≤ zlen d → zlen d ≤ BUF_MAX_SIZE → Forall is_byte d →
  buf_wf (mkBuf d len pos (zlen d)).
Proof. intros. by split. Qed.

(** Overwriting bytes in the middle, through the write pointer. *)
Lemma overwrite_eq pre old post bs len :
  zlen old = zlen bs → zlen pre + zlen old ≤ len → len ≤ zlen (pre ++ old ++ post) ≤ BUF_MAX_SIZE →
  Forall is_byte (pre ++ old ++ post) → Forall is_byte bs →
  (p ← buf_getwriteptr (zlen bs); buf_store p bs;; buf_incrwritepos (zlen bs))
    (mkBuf (pre ++ old ++ post) len (zlen pre) (zlen (pre ++ old ++ post))) =
  Ok (tt, mkBuf (pre ++ bs ++ post) len (zlen pre + zlen bs) (zlen (pre ++ bs ++ post))).
Proof.
  intros Hl Hlen Hsz Hb Hbs. unfold BUF_MAX_SIZE in Hsz.
  assert (Hz : zlen (pre ++ bs ++ post) = zlen (pre ++ old ++ post)) by (rewrite !length_app; lia).
  assert (Hwf : buf_wf (mkBuf (pre ++ old ++ post) len (zlen pre) (zlen (pre ++ old ++ post))))
    by (apply buf_wf_mk; [lia|lia|unfold BUF_MAX_SIZE; lia|done]).
  erewrite bind_ok by (rewrite buf_getwriteptr_eq by (done || unfold U32; lia); cbn [buf_pos buf_size];
    rewrite (proj2 (Z.leb_le _ _)) by lia; reflexivity).
  erewrite bind_ok by (unfold buf_store; erewrite bind_ok by done; cbn [buf_data];
    erewrite bind_ok by (unfold lift; rewrite mem_store_at by done; reflexivity); reflexivity).
  assert (Hwf' : buf_wf (mkBuf (pre ++ bs ++ post) len (zlen pre) (zlen (pre ++ old ++ post)))).
  { rewrite <- Hz. apply buf_wf_mk; [lia|lia|unfold BUF_MAX_SIZE; lia|].
    rewrite !Forall_app in *. naive_solver. }
  unfold set_data; cbn [buf_len buf_pos buf_size]. rewrite buf_incrwritepos_eq by (done || unfold U32; lia).
  cbn [buf_pos buf_size]. rewrite (proj2 (Z.leb_le _ _)) by lia.
  unfold set_len, set_pos; cbn [buf_data buf_len buf_pos buf_size]. rewrite Z.max_l by lia. by rewrite Hz.
Qed.

(** The cleartext packet. *)
Definition packet_bytes (padlen : Z) (payload pad : list Z) : list Z :=
  STORE32H (5 + zlen payload + padlen - 4) ++ [padlen] ++ payload ++ pad.

Lemma setpos_mk n d len pos size : n ≤ len →
  buf_setpos n (mkBuf d len pos size) = Ok (tt, mkBuf d len n size).
Proof.
  intros. unfold buf_setpos. erewrite bind_ok by done. cbn [buf_len].
  by rewrite Z.gtb_ltb, (proj2 (Z.ltb_ge _ _)) by lia.
Qed.

Lemma store_mk pre old post bs off len pos size : off = zlen pre → zlen old = zlen bs →
  buf_store off bs (mkBuf (pre ++ old ++ post) len pos size) =
  Ok (tt, mkBuf (pre ++ bs ++ post) len pos size).
Proof.
  intros -> Hl. unfold buf_store. erewrite bind_ok by done. cbn [buf_data].
  by erewrite bind_ok by (unfold lift; rewrite mem_store_at by done; reflexivity).
Qed.

(** The length and the padding length, over the five bytes kept for them. *)
Lemma frame_header_eq h rest len pos v padlen :
  zlen h = 5 → 5 ≤ len ≤ zlen (h ++ rest) → zlen (h ++ rest) ≤ BUF_MAX_SIZE →
  Forall is_byte (h ++ rest) →
  (buf_setpos 0;; buf_putint v;; buf_putbyte padlen) (mkBuf (h ++ rest) len pos (zlen (h ++ rest))) =
  Ok (tt, mkBuf (STORE32H v ++ [padlen] ++ rest) len 5 (zlen (h ++ rest))).
Proof.
  intros Hh Hlen Hsz Hb. unfold BUF_MAX_SIZE in Hsz.
  destruct (exists_last (l := h)) as (h0 & x & ->); [by intros ->|].
  rewrite length_app in Hh. cbn in Hh. rewrite <- app_assoc in *.
  erewrite bind_ok by (apply setpos_mk; lia).
  erewrite bind_ok by (apply (overwrite_eq [] h0 ([x] ++ rest) (STORE32H v));
    [cbn; lia|cbn; lia|cbn [app] in *; unfold BUF_MAX_SIZE; lia|done|apply STORE32H_bytes]).
  cbn [app]. change (zlen [] + zlen (STORE32H v)) with 4.
  unfold buf_putbyte. erewrite bind_ok by done. cbn [buf_pos buf_len].
  rewrite Z.geb_leb, (proj2 (Z.leb_gt _ _)) by lia. cbn [when].
  erewrite bind_ok by done. erewrite bind_ok by done. cbn [buf_pos].
  change (x :: rest) with ([x] ++ rest).
  erewrite bind_ok by (by apply store_mk).
  unfold modify, set_pos; cbn [buf_pos buf_data buf_len buf_size]. do 3 f_equal.
  rewrite !length_app. cbn in *. lia.
Qed.

Lemma frame_packet_eq h payload z0 z1 padlen pad :
  zlen h = 5 → zlen z0 = padlen → zlen pad = padlen → 0 ≤ padlen < 256 →
  zlen (h ++ payload ++ z0 ++ z1) ≤ BUF_MAX_SIZE →
  Forall is_byte (h ++ payload ++ z0 ++ z1) →
  let N := zlen (h ++ payload ++ z0 ++ z1) in
  let n := 5 + zlen payload in
  frame_packet padlen pad (mkBuf (h ++ payload ++ z0 ++ z1) n n N) =
  Ok (tt, mkBuf (packet_bytes padlen payload pad ++ z1) (n + padlen) n N).
Proof.
  intros Hh Hz Hp Hpad Hsz Hb N n. unfold BUF_MAX_SIZE in Hsz.
  assert (HN : N = 5 + zlen payload + padlen + zlen z1) by (subst N; rewrite !length_app; lia).
  transitivity ((((buf_setpos 0;; buf_putint (n + padlen - 4);; buf_putbyte padlen);;
    len ← gets buf_len; buf_setpos len;; buf_incrlen padlen;; p ← buf_getptr padlen; buf_store p pad)
    (mkBuf (h ++ payload ++ z0 ++ z1) n n N))).
  { unfold frame_packet. erewrite bind_ok by done. cbn [buf_len].
    rewrite u32_small by (unfold U32; lia). rewrite bind_assoc. apply bind_ext. intros _ ?. by rewrite bind_assoc. }
  erewrite bind_ok by (apply frame_header_eq; [done|lia|done|done]). fold N.
  set (v := STORE32H (n + padlen - 4)). erewrite bind_ok by done. cbn [buf_len].
  erewrite bind_ok by (apply setpos_mk; lia).
  assert (Hd : zlen (v ++ [padlen] ++ payload ++ z0 ++ z1) = N) by (rewrite !length_app; cbn; lia).
  assert (Hwf : ∀ len, n ≤ len ≤ N → buf_wf (mkBuf (v ++ [padlen] ++ payload ++ z0 ++ z1) len n N)).
  { intros len ?. rewrite <- Hd. apply buf_wf_mk; [lia|lia|unfold BUF_MAX_SIZE; lia|].
    rewrite Forall_app in Hb. rewrite !Forall_app, Forall_singleton in *.
    split_and!; [apply STORE32H_bytes|done|apply Hb..]. }
  erewrite bind_ok by (rewrite buf_incrlen_eq; [|apply Hwf; lia|unfold U32; lia]; cbn [buf_len buf_size];
    rewrite (proj2 (Z.leb_le _ _)) by lia; reflexivity).
  unfold set_len; cbn [buf_data buf_len buf_pos buf_size].
  erewrite bind_ok by (rewrite buf_getptr_eq; [|apply Hwf; lia|unfold U32; lia]; cbn [buf_pos buf_len];
    rewrite (proj2 (Z.leb_le _ _)) by lia; reflexivity).
  replace (v ++ [padlen] ++ payload ++ z0 ++ z1) with ((v ++ [padlen] ++ payload) ++ z0 ++ z1)
    by (by rewrite <- !app_assoc).
  rewrite store_mk; [|rewrite !length_app; cbn; lia|lia].
  unfold packet_bytes. do 3 f_equal. by rewrite <- !app_assoc.
Qed.

Section tx.
Context {CS ZS HS RS : Type} `{!Externals CS ZS HS RS}.
Abbreviation keys := (@key_context_directional CS ZS).
Abbreviation tx := (@txstate CS ZS RS).
Abbreviation rx := (@rxstate CS ZS).

(** The generator fills the whole block it is asked for. *)
Definition genrandom_ok : Prop := ∀ (r : RS) n pad r', genrandom r n = (pad, r') → 0 ≤ n →
  zlen pad = n ∧ Forall is_byte pad.

(** zlib's documentation of [deflate] with [Z_SYNC_FLUSH]: it writes at most
    the room it is given and consumes input from the front; and what
    [packet.c] relies on: when it takes all of the input, with room for the
    expansion of data that cannot be compressed, it writes something and
    expands the input by no more than that. *)
Definition deflate_ok : Prop := ∀ (z : ZS) inp room r out rest z',
  deflate z inp room = (r, out, rest, z') → 0 ≤ room → Forall is_byte inp →
  zlen out ≤ room ∧ Forall is_byte out ∧ rest `suffix_of` inp ∧
  (r = Z_OK → rest = [] → 1 ≤ zlen inp → zlen inp + ZLIB_COMPRESS_EXPANSION ≤ room →
   1 ≤ zlen out ≤ zlen inp + ZLIB_COMPRESS_EXPANSION).

(** A payload is ready in [writepayload]. *)
Record tx_ready (s : tx) : Prop := {
  tr_wf : buf_wf (writepayload s);
  tr_len : 1 ≤ buf_len (writepayload s) ≤ 1000000;
  tr_keys : keys_wf (trans s)
}.
Definition tx_type (s : tx) : Z := default 0 (head (buf_content (writepayload s))).

(** [wb] is a queued packet: the bytes [bs] to be written, from the start. *)
Definition queued (wb : buffer) (bs : list Z) : Prop :=
  buf_wf wb ∧ buf_pos wb = 0 ∧ buf_content wb = bs.

Definition cleared (b : buffer) : buffer := mkBuf (buf_data b) 0 0 (buf_size b).

Lemma clear_eq (s : tx) : buf_wf (writepayload s) → ∀ A (f : () → M tx A),
  (wp_ (buf_setpos 0);; wp_ (buf_setlen 0) ≫= f) s =
  f tt (set_writepayload (cleared (writepayload s)) s).
Proof.
  intros Hwf A f. unfold wp_. destruct (writepayload s) as [d len pos size] eqn:E. buf_facts. cbn in *.
  erewrite bind_ok by (apply zoom_ok; rewrite E; apply setpos_mk; lia).
  erewrite bind_ok by (apply zoom_ok; cbn; unfold buf_setlen; erewrite bind_ok by done; cbn;
    rewrite Z.gtb_ltb, (proj2 (Z.ltb_ge _ _)) by lia; reflexivity). done.
Qed.

Lemma buf_content_length b : buf_wf b → zlen (buf_content b) = buf_len b.
Proof. intros. unfold buf_content. buf_facts. rewrite length_take. lia. Qed.

(** The packet type is read and the position is put back. *)
Lemma peek_type_eq (s : tx) : buf_wf (writepayload s) → 1 ≤ buf_len (writepayload s) →
  ∀ A (f : Z → M tx A),
  (wp_ (buf_setpos 0);; t ← wp_ buf_getbyte; wp_ (buf_setpos 0);; f t) s =
  f (tx_type s) (set_writepayload (set_pos 0 (writepayload s)) s).
Proof.
  intros Hwf Hl A f. unfold wp_, tx_type. destruct (writepayload s) as [d len pos size] eqn:E.
  buf_facts. cbn [buf_len buf_pos buf_size buf_data] in *.
  assert (Hwf0 : buf_wf (mkBuf d len 0 size)) by (split; cbn; auto; lia).
  erewrite bind_ok by (apply zoom_ok; rewrite E; apply setpos_mk; lia).
  assert (Hg : buf_getbyte (mkBuf d len 0 size) = Ok (default 0 (head (take (Z.to_nat len) d)), mkBuf d len 1 size)).
  { unfold buf_getbyte. erewrite bind_ok by done. cbn [buf_pos buf_len].
    rewrite Z.geb_leb, (proj2 (Z.leb_gt _ _)) by lia.
    erewrite bind_ok by (apply (buf_load_eq _ Hwf0 1); cbn; lia). cbn [buf_pos buf_data].
    erewrite bind_ok by done. unfold set_pos; cbn [buf_data buf_len buf_pos buf_size].
    change (u32 (0 + 1)) with 1. do 2 f_equal. destruct d as [|x d]; cbn in *; [lia|].
    destruct (Z.to_nat len) eqn:En; [lia|done]. }
  erewrite bind_ok by (apply zoom_ok; cbn; apply Hg).
  erewrite bind_ok by (apply zoom_ok; cbn; apply setpos_mk; lia).
  unfold buf_content, set_pos; cbn [buf_len buf_data buf_size]. done.
Qed.

(** ** What [encrypt_packet] queues *)

(** The bytes on the wire for a cleartext packet, and for a payload, with the
    next cipher state. *)
Definition seal_bytes (k : keys) (seq : Z) (clear : list Z) : option (list Z * CS) :=
  d ← mac_of k seq clear;
  '(ct, c) ← mode_encrypt (crypt_mode k) (cipher_state k) clear;
  Some (ct ++ take (Z.to_nat (hashsize (algo_mac k))) d, c).
Definition sealed (k : keys) (seq : Z) (payload pad : list Z) : option (list Z * CS) :=
  seal_bytes k seq
    (packet_bytes (packet_padlen (blocksize (algo_crypt k)) (5 + zlen payload)) payload pad).

Definition tx_sent (s : tx) (wb : buffer) (c : CS) (r : RS) : tx :=
  mkTx (cleared (writepayload s)) (writequeue s ++ [wb]) (u32 (writequeue_len s + buf_len wb))
    (set_cipher_state c (trans s)) (u32 (transseq s + 1)) (dataallowed s) (reply_queue s)
    (u32 (datatrans s + buf_len wb)) (tx_authdone s) (monotonic_now s)
    (if negb (tx_type s =? SSH_MSG_REQUEST_FAILURE) && negb (tx_type s =? SSH_MSG_UNIMPLEMENTED)
        && negb (tx_type s =? SSH_MSG_IGNORE) then monotonic_now s else last_packet_time_idle s)
    (monotonic_now s) r (sock_out s) (wr_events s).

(** The buffer before framing: five bytes, the payload, and room. *)
Lemma fill_payload_eq payload N : 5 + zlen payload ≤ N ≤ BUF_MAX_SIZE → Forall is_byte payload →
  exec (buf_setlen PACKET_PAYLOAD_OFF;; buf_setpos PACKET_PAYLOAD_OFF)
    (mkBuf (replicate (Z.to_nat N) 0) 0 0 N) = Ok (mkBuf (replicate (Z.to_nat N) 0) 5 5 N) ∧
  exec (q ← buf_getwriteptr (zlen payload); buf_store q payload;; buf_incrwritepos (zlen payload))
    (mkBuf (replicate (Z.to_nat N) 0) 5 5 N) =
  Ok (mkBuf (replicate 5 0 ++ payload ++ replicate (Z.to_nat (N - 5 - zlen payload)) 0)
        (5 + zlen payload) (5 + zlen payload) N).
Proof.
  intros HN Hb. unfold BUF_MAX_SIZE in HN. split.
  - unfold exec. erewrite bind_ok by (unfold buf_setlen, PACKET_PAYLOAD_OFF; erewrite bind_ok by done; cbn [buf_size];
      rewrite Z.gtb_ltb, (proj2 (Z.ltb_ge _ _)) by lia; reflexivity).
    change (set_pos _ (set_len 5 _)) with (mkBuf (replicate (Z.to_nat N) 0) 5 0 N).
    by rewrite (setpos_mk PACKET_PAYLOAD_OFF).
  - set (n := zlen payload) in *.
    assert (Hwf : buf_wf (mkBuf (replicate (Z.to_nat N) 0) 5 5 N)).
    { split; cbn; [lia|lia|unfold BUF_MAX_SIZE; lia|rewrite length_replicate; lia|by apply Forall_replicate]. }
    pose proof (writer_store n payload _ eq_refl ltac:(unfold U32; lia) Hb (λ b, eq_refl)) as [_ Hw].
    specialize (Hw _ Hwf eq_refl). cbn [buf_len buf_size] in Hw.
    rewrite (proj2 (Z.leb_le _ _)) in Hw by (fold n; lia). unfold exec. rewrite Hw. cbn [fmap outcome_fmap obind snd].
    unfold buf_append; cbn [buf_len buf_data buf_size]. fold n.
    rewrite take_replicate, drop_replicate. do 2 f_equal. change (replicate 5 0) with (replicate (Z.to_nat 5) 0). f_equal; [f_equal; lia|f_equal; f_equal; lia].
Qed.

(** The ciphertext in place of the cleartext, and the MAC behind it. *)
Lemma seal_eq clear ct z1 d mac :
  zlen ct = zlen clear → 0 ≤ mac ≤ zlen z1 → mac ≤ zlen d → zlen (clear ++ z1) ≤ BUF_MAX_SIZE →
  Forall is_byte ct → Forall is_byte z1 → Forall is_byte d →
  exec (buf_store 0 ct;; buf_incrpos (i32 (zlen clear));; buf_putbytes d mac)
    (mkBuf (clear ++ z1) (zlen clear) 0 (zlen (clear ++ z1))) =
  Ok (mkBuf (ct ++ take (Z.to_nat mac) d ++ drop (Z.to_nat mac) z1) (zlen clear + mac) (zlen clear + mac)
        (zlen (clear ++ z1))).
Proof.
  intros Hct Hmac Hd Hsz Hbc Hbz Hbd. unfold BUF_MAX_SIZE in Hsz. rewrite length_app in Hsz. unfold exec.
  erewrite bind_ok by (apply (store_mk [] clear z1 ct); [done|lia]). cbn [app].
  assert (Hl : zlen (clear ++ z1) = zlen (ct ++ z1)) by (rewrite !length_app; lia). rewrite Hl.
  rewrite length_app in Hl.
  assert (Hwf : ∀ p, 0 ≤ p ≤ zlen ct → buf_wf (mkBuf (ct ++ z1) (zlen ct) p (zlen (ct ++ z1)))).
  { intros. apply buf_wf_mk; [lia|rewrite length_app; lia|rewrite length_app; unfold BUF_MAX_SIZE; lia|].
    by apply Forall_app. }
  rewrite <- Hct, i32_small by lia.
  erewrite bind_ok by (rewrite buf_incrpos_eq; [|apply Hwf; lia|lia]; cbn [buf_pos buf_len];
    rewrite Z.add_0_l, (proj2 (Z.leb_le 0 _)), (proj2 (Z.leb_le _ _)) by lia; reflexivity).
  unfold set_pos; cbn [buf_data buf_len buf_size buf_pos]. rewrite ?Z.add_0_l.
  unfold buf_putbytes. rewrite length_app in *.
  pose proof (Hwf (zlen ct) ltac:(lia)) as Hwf1. rewrite ?length_app in Hwf1.
  erewrite bind_ok by (rewrite buf_getwriteptr_eq; [|done|unfold U32; lia]; cbn [buf_pos buf_size];
    rewrite (proj2 (Z.leb_le _ _)) by lia; reflexivity).
  erewrite bind_ok by (unfold lift; rewrite mem_load_ok by lia; reflexivity). cbn [buf_pos].
  change (drop (Z.to_nat 0) d) with d.
  rewrite <- (take_drop (Z.to_nat mac) z1) at 1 2.
  erewrite bind_ok by (apply store_mk; [done|rewrite !length_take; lia]).
  rewrite take_drop.
  assert (Hwf2 : buf_wf (mkBuf (ct ++ take (Z.to_nat mac) d ++ drop (Z.to_nat mac) z1) (zlen ct) (zlen ct)
    (Z.of_nat (length ct + length z1)))).
  { split; cbn; [lia|lia|unfold BUF_MAX_SIZE; lia|rewrite !length_app, length_take, length_drop; lia|].
    rewrite !Forall_app. auto with ssh. }
  rewrite buf_incrwritepos_eq; [|done|unfold U32; lia]. cbn [buf_pos buf_size].
  rewrite (proj2 (Z.leb_le _ _)) by lia. unfold set_len, set_pos; cbn [buf_pos buf_len buf_size buf_data].
  rewrite Z.max_r by lia. cbn [fmap outcome_fmap obind snd]. by rewrite Hct.
Qed.

(** [seal_packet] on a framed packet with room behind it for the MAC. *)
Lemma seal_packet_eq (k : keys) seq clear z1 pos :
  keys_wf k → 0 ≤ pos ≤ zlen clear → hashsize (algo_mac k) ≤ zlen z1 →
  zlen (clear ++ z1) ≤ BUF_MAX_SIZE → Forall is_byte clear → Forall is_byte z1 →
  let mac := hashsize (algo_mac k) in
  match seal_bytes k seq clear with
  | Some (bytes, c) => zlen bytes = zlen clear + mac ∧ Forall is_byte bytes ∧
      seal_packet k seq (mkBuf (clear ++ z1) (zlen clear) pos (zlen (clear ++ z1))) =
      Ok (mkBuf (bytes ++ drop (Z.to_nat mac) z1) (zlen clear + mac) (zlen clear + mac) (zlen (clear ++ z1)), c)
  | None => ∃ e, seal_packet k seq (mkBuf (clear ++ z1) (zlen clear) pos (zlen (clear ++ z1))) = Exit e
  end.
Proof.
  intros Hk Hpos Hmz Hsz Hcb Hzb mac. fold mac in Hmz. pose proof (kw_hash _ Hk) as Hmac. fold mac in Hmac.
  unfold BUF_MAX_SIZE in Hsz. set (N := zlen (clear ++ z1)) in *.
  assert (HN : N = zlen clear + zlen z1) by (subst N; rewrite length_app; lia).
  assert (Hwfb : ∀ p, 0 ≤ p ≤ zlen clear → buf_wf (mkBuf (clear ++ z1) (zlen clear) p N)).
  { intros. apply buf_wf_mk; [lia..|unfold BUF_MAX_SIZE; lia|]. by apply Forall_app. }
  assert (Hpre : take (Z.to_nat (zlen clear)) (clear ++ z1) = clear) by (rewrite Nat2Z.id; apply take_app_length).
  pose proof (make_mac_eq seq k (zlen clear) _ Hk (Hwfb pos Hpos) ltac:(cbn; lia)) as Em.
  cbn [buf_data] in Em. rewrite Hpre in Em. unfold seal_packet, seal_bytes. cbn [buf_len].
  destruct (mac_of k seq clear) as [d|] eqn:Ed; [|eexists; by apply obind_exit].
  destruct (mac_of_length _ _ _ _ Hk Ed) as [Hd Hdb]. fold mac in Hd. rewrite (obind_ok _ _ _ Em). cbn beta iota.
  assert (Hsp : exec (buf_setpos 0) (if hashsize (algo_mac k) >? 0 then set_pos 0 (mkBuf (clear ++ z1) (zlen clear) pos N)
    else mkBuf (clear ++ z1) (zlen clear) pos N) = Ok (mkBuf (clear ++ z1) (zlen clear) 0 N)).
  { unfold exec. case_if; unfold set_pos; cbn [buf_data buf_len buf_size]; by rewrite setpos_mk by lia. }
  rewrite (obind_ok _ _ _ Hsp). cbn [buf_len]. pose proof (Hwfb 0 ltac:(lia)) as Hwf0.
  erewrite obind_ok by (rewrite buf_getptr_eq by (done || unfold U32; lia); cbn [buf_pos buf_len];
    rewrite Z.add_0_l, Z.leb_refl; reflexivity). cbn beta iota.
  erewrite obind_ok by (rewrite (buf_load_eq _ Hwf0) by (cbn; lia); cbn [buf_pos buf_data];
    change (drop (Z.to_nat 0) (clear ++ z1)) with (clear ++ z1); rewrite Hpre; reflexivity). cbn beta iota.
  erewrite obind_ok by (rewrite buf_getwriteptr_eq by (done || unfold U32; lia); cbn [buf_pos buf_size];
    rewrite Z.add_0_l, (proj2 (Z.leb_le _ _)) by lia; reflexivity). cbn beta iota.
  change (Some d ≫= ?f) with (f d). cbn beta.
  destruct (mode_encrypt _ _ clear) as [[ct c]|] eqn:Ee; [|by eexists].
  change (Some (ct, c) ≫= ?f) with (f (ct, c)). cbn beta iota.
  destruct (kw_enc _ Hk _ _ _ _ Ee Hcb) as [Hct Hctb].
  split_and!; [rewrite length_app, length_take; lia|apply Forall_app; auto with ssh|].
  erewrite obind_ok by (apply seal_eq; done || unfold BUF_MAX_SIZE; lia).
  by rewrite <- app_assoc.
Qed.

Lemma finish_packet_eq (s : tx) payload N pad r :
  let k := trans s in
  let padlen := packet_padlen (blocksize (algo_crypt k)) (5 + zlen payload) in
  let mac := hashsize (algo_mac k) in
  keys_wf k → buf_wf (writepayload s) → Forall is_byte payload → 1 ≤ zlen payload →
  N ≤ BUF_MAX_SIZE → 5 + zlen payload + padlen + mac ≤ N →
  genrandom (rng s) padlen = (pad, r) → zlen pad = padlen → Forall is_byte pad →
  let wb0 := mkBuf (replicate 5 0 ++ payload ++ replicate (Z.to_nat (N - 5 - zlen payload)) 0)
               (5 + zlen payload) (5 + zlen payload) N in
  match sealed k (transseq s) payload pad with
  | Some (bytes, c) => ∃ wb, queued wb bytes ∧
      finish_packet (tx_type s) (blocksize (algo_crypt k)) wb0 s = Ok (tt, tx_sent s wb c r)
  | None => ∃ e, finish_packet (tx_type s) (blocksize (algo_crypt k)) wb0 s = Exit e
  end.
Proof.
  intros k padlen mac Hk Hwf Hpb Hp1 HN Hfit Hr Hpl Hpadb wb0. unfold BUF_MAX_SIZE in HN.
  pose proof (kw_hash _ Hk) as Hmac. fold mac in Hmac.
  assert (Hpad : 4 ≤ padlen ≤ 255) by (destruct (packet_padlen_spec (blocksize (algo_crypt k))
    (5 + zlen payload)) as (? & _); [apply Hk|unfold BUF_MAX_SIZE; lia|done]).
  set (z0 := replicate (Z.to_nat padlen) 0). set (z1 := replicate (Z.to_nat (N - 5 - zlen payload - padlen)) 0).
  assert (Hz : replicate (Z.to_nat (N - 5 - zlen payload)) 0 = z0 ++ z1)
    by (unfold z0, z1; rewrite <- replicate_add; f_equal; lia).
  assert (Hz0 : zlen z0 = padlen) by (subst z0; rewrite length_replicate; lia).
  assert (Hz1 : zlen z1 = N - 5 - zlen payload - padlen) by (subst z1; rewrite length_replicate; lia).
  assert (Hzb : Forall is_byte (z0 ++ z1)) by (rewrite <- Hz; by apply Forall_replicate).
  set (clear := packet_bytes padlen payload pad).
  assert (Hcl : zlen clear = 5 + zlen payload + padlen)
    by (unfold clear, packet_bytes; rewrite !length_app; cbn; lia).
  assert (HNz : zlen (clear ++ z1) = N) by (rewrite length_app; lia).
  assert (Hcb : Forall is_byte clear).
  { unfold clear, packet_bytes. rewrite !Forall_app, Forall_singleton.
    split_and!; [apply STORE32H_bytes|unfold is_byte; lia|done..]. }
  unfold finish_packet. rewrite clear_eq by done. cbn [buf_len wb0]. fold padlen.
  erewrite bind_ok by done. cbn [rng set_writepayload]. rewrite Hr. erewrite bind_ok by done.
  assert (Hframe : exec (frame_packet padlen pad) wb0 = Ok (mkBuf (clear ++ z1) (zlen clear) (5 + zlen payload) N)).
  { unfold wb0, exec. rewrite Hz. assert (HN' : N = zlen (replicate 5 0 ++ payload ++ z0 ++ z1))
      by (rewrite !length_app, !length_replicate in *; lia).
    rewrite Forall_app in Hzb. rewrite HN' at 1.
    rewrite frame_packet_eq; [|done|done|done|lia|rewrite <- HN'; unfold BUF_MAX_SIZE; lia|].
    - cbn [fmap outcome_fmap obind snd]. rewrite Hcl. do 2 f_equal. by rewrite <- HN'.
    - rewrite !Forall_app. split_and!; [by apply Forall_replicate|done|apply Hzb..]. }
  erewrite bind_ok by (rewrite Hframe; apply lift_ok).
  pose proof (seal_packet_eq k (transseq s) clear z1 (5 + zlen payload) Hk ltac:(lia)) as Hs.
  fold mac in Hs. rewrite HNz in Hs. specialize (Hs ltac:(lia) ltac:(unfold BUF_MAX_SIZE; lia) Hcb).
  rewrite Forall_app in Hzb. specialize (Hs (proj2 Hzb)). unfold sealed. fold k padlen clear.
  change (trans (set_writepayload _ s)) with k. change (transseq (set_writepayload _ s)) with (transseq s).
  destruct (seal_bytes k (transseq s) clear) as [[bytes c]|].
  - destruct Hs as (Hbl & Hbb & Hs). erewrite bind_ok by (rewrite Hs; apply lift_ok). cbn beta iota.
    erewrite bind_ok by done. erewrite bind_ok by done.
    erewrite bind_ok by (unfold writebuf_enqueue, exec; erewrite bind_ok by
      (rewrite setpos_mk by lia; apply lift_ok); reflexivity).
    exists (mkBuf (bytes ++ drop (Z.to_nat mac) z1) (zlen clear + mac) 0 N).
    split; [|erewrite bind_ok by done; reflexivity].
    split_and!; [|done|].
    + split; cbn [buf_pos buf_len buf_size buf_data];
        [lia|lia|unfold BUF_MAX_SIZE; lia|rewrite length_app, length_drop; lia|].
      apply Forall_app. split; [done|]. apply Forall_drop, Hzb.
    + unfold buf_content; cbn [buf_len buf_data]. replace (Z.to_nat (zlen clear + mac)) with (length bytes) by lia. apply take_app_length.
  - destruct Hs as [e Hs]. exists e. apply bind_exit. by rewrite Hs.
Qed.

(** The compression into the packet, behind the five bytes of its head. *)
Lemma buf_compress_eq (z : ZS) src N : deflate_ok → buf_wf src → buf_pos src = 0 → 1 ≤ buf_len src →
  buf_len src + ZLIB_COMPRESS_EXPANSION ≤ N - 5 → N ≤ BUF_MAX_SIZE →
  let '(r, out, rest, z') := deflate z (buf_content src) (N - 5) in
  let run := buf_compress z (mkBuf (replicate (Z.to_nat N) 0) 5 5 N) src (buf_len src) in
  if (r =? Z_OK) && (zlen rest =? 0)
  then run = Ok (mkBuf (replicate 5 0 ++ out ++ replicate (Z.to_nat (N - 5 - zlen out)) 0) (5 + zlen out) (5 + zlen out) N,
                 set_pos (buf_len src) src, z')
  else ∃ e, run = Exit e.
Proof.
  intros Hz Hwf Hpos Hlen HN Hmax. change ZLIB_COMPRESS_EXPANSION with 21 in HN. unfold BUF_MAX_SIZE in Hmax.
  destruct (deflate z (buf_content src) (N - 5)) as [[[r out] rest] z'] eqn:Ez.
  destruct (Hz _ _ _ _ _ _ _ Ez) as (Hout & Hob & Hsuf & _); [lia|apply Forall_take, Hwf|]. cbv zeta.
  assert (Hrest : zlen rest ≤ buf_len src) by (apply suffix_length in Hsuf; pose proof (buf_content_length _ Hwf); lia).
  pose proof Hwf as Hwf'. buf_facts. unfold buf_compress. rewrite Hpos, Z.add_0_l, (u32_small (buf_len src)) by (unfold U32; lia).
  cbn [buf_size buf_pos]. rewrite (u32_small (N - 5)) by (unfold U32; lia). change ZLIB_COMPRESS_EXPANSION with 21.
  rewrite (u32_small (buf_len src + 21)) by (unfold U32; lia). rewrite Z.geb_leb, (proj2 (Z.leb_le _ _)) by lia. cbn [negb].
  rewrite Z.sub_0_r, (u32_small (buf_len src)) by (unfold U32; lia).
  erewrite obind_ok by (rewrite buf_getptr_eq by (done || unfold U32; lia); rewrite (proj2 (Z.leb_le _ _)) by lia; reflexivity). cbn beta iota.
  erewrite obind_ok by (rewrite (buf_load_eq _ Hwf') by lia; reflexivity). cbn beta iota. rewrite Hpos. change (drop (Z.to_nat 0) ?l) with l.
  fold (buf_content src).
  assert (Hwfd : buf_wf (mkBuf (replicate (Z.to_nat N) 0) 5 5 N)).
  { split; cbn; [lia|lia|unfold BUF_MAX_SIZE; lia|rewrite length_replicate; lia|by apply Forall_replicate]. }
  erewrite obind_ok by (rewrite buf_getwriteptr_eq by (done || unfold U32; lia); cbn [buf_pos buf_size];
    rewrite (proj2 (Z.leb_le _ _)) by lia; reflexivity). cbn beta iota. rewrite Ez. cbn [buf_pos].
  assert (Hsplit : replicate (Z.to_nat N) 0 = replicate 5 0 ++ replicate (length out) 0 ++ replicate (Z.to_nat (N - 5 - zlen out)) 0)
    by (rewrite <- !replicate_add; f_equal; lia).
  erewrite obind_ok by (unfold exec; rewrite Hsplit, store_mk by (done || rewrite length_replicate; lia); reflexivity).
  rewrite (u32_small (buf_len src - zlen rest)) by (unfold U32; lia).
  assert (Esrc : exec (buf_setpos (buf_len src - zlen rest)) src = Ok (set_pos (buf_len src - zlen rest) src)).
  { clear - Hrest. unfold exec. destruct src as [d len pos size]; cbn in *. by rewrite setpos_mk by lia. }
  rewrite (obind_ok _ _ _ Esrc). cbn [snd buf_size]. replace (N - (N - 5 - zlen out)) with (5 + zlen out) by lia. rewrite u32_small by (unfold U32; lia).
  erewrite obind_ok by (unfold exec, buf_setlen; erewrite bind_ok by done; cbn [buf_size];
    rewrite Z.gtb_ltb, (proj2 (Z.ltb_ge _ _)) by lia; reflexivity).
  cbn [snd buf_len set_len set_pos modify fmap outcome_fmap obind].
  erewrite obind_ok by (unfold exec, set_pos, set_len; cbn [buf_data buf_len buf_pos buf_size]; rewrite setpos_mk by lia; reflexivity).
  cbn [snd]. destruct (Z.eqb_spec r Z_OK); cbn [negb andb]; [|by eexists]. destruct (Z.eqb_spec (zlen rest) 0) as [E0|]; cbn [negb]; [|by eexists].
  by rewrite E0, Z.sub_0_r.
Qed.

(** What is put into the packet, with the next stream: the payload or what
    [deflate] makes of it. *)
Definition packed (s : tx) : option (list Z * ZS) :=
  let payload := buf_content (writepayload s) in
  if is_compress_trans s then
    let room := zlen payload + Z.max MIN_PACKET_LEN (blocksize (algo_crypt (trans s))) + 3 +
                hashsize (algo_mac (trans s)) + ZLIB_COMPRESS_EXPANSION + 1 in
    let '(r, out, rest, z) := deflate (zstream (trans s)) payload room in
    if (r =? Z_OK) && (zlen rest =? 0) then Some (out, z) else None
  else Some (payload, zstream (trans s)).
Definition with_zstream (z : ZS) (s : tx) : tx := set_trans (set_zstream z (trans s)) s.

Lemma packed_body (s : tx) body z : tx_ready s → deflate_ok → packed s = Some (body, z) →
  Forall is_byte body ∧ 1 ≤ zlen body ≤ buf_len (writepayload s) + ZLIB_COMPRESS_EXPANSION.
Proof.
  intros [Hwf Hlen Hk] Hz. unfold packed. pose proof (buf_content_length _ Hwf) as Hpl. pose proof (kw_block _ Hk). pose proof (kw_hash _ Hk).
  change ZLIB_COMPRESS_EXPANSION with 21 in *. unfold MIN_PACKET_LEN.
  assert (Hpb : Forall is_byte (buf_content (writepayload s))) by apply Forall_take, Hwf.
  destruct (is_compress_trans s); [|intros [= <- <-]; split; [done|lia]]. set (room := _ + 1).
  destruct (deflate _ _ room) as [[[r out] rest] z'] eqn:Ez. destruct (Hz _ _ _ _ _ _ _ Ez) as (_ & Hob & _ & Hbound); [subst room; lia|done|].
  destruct ((r =? Z_OK) && _) eqn:E; [|done]. apply andb_true_iff in E as [Hr%Z.eqb_eq Hrest%Z.eqb_eq]. intros [= <- <-].
  destruct rest; [|cbn in Hrest; lia]. split; [done|]. change ZLIB_COMPRESS_EXPANSION with 21 in Hbound. rewrite <- Hpl. apply Hbound; [done|done|lia|subst room; lia].
Qed.
Lemma with_zstream_id (s : tx) : with_zstream (zstream (trans s)) s = s.
Proof. by destruct s as [? ? ? [] ? ? ? ? ? ? ? ? ? ? ?]. Qed.

Lemma encrypt_packet_eq (s : tx) : tx_ready s → genrandom_ok → deflate_ok →
  dataallowed s || packet_is_okay_kex (tx_type s) = true →
  match packed s with
  | None => ∃ e, encrypt_packet s = Exit e
  | Some (body, z) =>
      let '(pad, r) := genrandom (rng s) (packet_padlen (blocksize (algo_crypt (trans s))) (5 + zlen body)) in
      match sealed (trans s) (transseq s) body pad with
      | Some (bytes, c) => ∃ wb, queued wb bytes ∧ encrypt_packet s = Ok (tt, tx_sent (with_zstream z s) wb c r)
      | None => ∃ e, encrypt_packet s = Exit e
      end
  end.
Proof.
  intros Ht Hr Hdef Hok. pose proof Ht as [Hwf Hlen Hk]. pose proof (packed_body s) as Hbody.
  set (payload := buf_content (writepayload s)) in *.
  pose proof (kw_block _ Hk) as Hbs. pose proof (kw_hash _ Hk) as Hmac. unfold MAX_MAC_LEN in Hmac.
  assert (Hpl : zlen payload = buf_len (writepayload s)) by (by apply buf_content_length).
  assert (Hpb : Forall is_byte payload) by (apply Forall_take, Hwf).
  set (room := zlen payload + Z.max MIN_PACKET_LEN (blocksize (algo_crypt (trans s))) + 3 +
               hashsize (algo_mac (trans s)) + ZLIB_COMPRESS_EXPANSION + 1).
  set (N := zlen payload + 4 + 1 + Z.max MIN_PACKET_LEN (blocksize (algo_crypt (trans s))) + 3 +
            hashsize (algo_mac (trans s)) + ZLIB_COMPRESS_EXPANSION + 1).
  assert (Hroom : N - 5 = room) by (subst N room; lia).
  assert (HN : zlen payload + 21 + 5 ≤ N ≤ BUF_MAX_SIZE).
  { subst N. unfold MIN_PACKET_LEN, BUF_MAX_SIZE in *. change ZLIB_COMPRESS_EXPANSION with 21. lia. }
  set (s1 := set_writepayload (set_pos 0 (writepayload s)) s).
  assert (Hwf1 : buf_wf (writepayload s1)) by (apply buf_wf_set_pos; [done|lia]).
  (* Once the body is in the packet, the rest is [finish_packet]. *)
  assert (Hfin : ∀ body z s2, packed s = Some (body, z) → buf_wf (writepayload s2) → trans s2 = set_zstream z (trans s) → transseq s2 = transseq s →
    rng s2 = rng s → tx_type s2 = tx_type s → (∀ wb c r, tx_sent s2 wb c r = tx_sent (with_zstream z s) wb c r) →
    let '(pad, r) := genrandom (rng s) (packet_padlen (blocksize (algo_crypt (trans s))) (5 + zlen body)) in
    let run := finish_packet (tx_type s) (blocksize (algo_crypt (trans s)))
      (mkBuf (replicate 5 0 ++ body ++ replicate (Z.to_nat (N - 5 - zlen body)) 0) (5 + zlen body) (5 + zlen body) N) s2 in
    match sealed (trans s) (transseq s) body pad with
    | Some (bytes, c) => ∃ wb, queued wb bytes ∧ run = Ok (tt, tx_sent (with_zstream z s) wb c r)
    | None => ∃ e, run = Exit e
    end).
  { intros body z s2 Hp Hw2 Hk2 Hq2 Hg2 Ht2 Hsent. destruct (Hbody body z Ht Hdef Hp) as [Hbb Hbl]. rewrite <- Hpl in Hbl.
    set (padlen := packet_padlen (blocksize (algo_crypt (trans s))) (5 + zlen body)). change ZLIB_COMPRESS_EXPANSION with 21 in Hbl.
    destruct (packet_padlen_spec (blocksize (algo_crypt (trans s))) (5 + zlen body) Hbs
      ltac:(unfold BUF_MAX_SIZE in *; lia)) as (Hp1 & _ & _ & Hp2). fold padlen in Hp1, Hp2.
    destruct (genrandom (rng s) padlen) as [pad r] eqn:Er. destruct (Hr _ _ _ _ Er ltac:(lia)) as [Hpadl Hpadb].
    assert (Hfit : 5 + zlen body + padlen + hashsize (algo_mac (trans s)) ≤ N).
    { subst N. unfold MIN_PACKET_LEN in *. change ZLIB_COMPRESS_EXPANSION with 21. lia. }
    pose proof (finish_packet_eq s2 body N pad r) as Hf. rewrite Hk2, Hg2, Hq2, Ht2 in Hf. cbv zeta in Hf.
    change (blocksize (algo_crypt (set_zstream z (trans s)))) with (blocksize (algo_crypt (trans s))) in Hf. fold padlen in Hf.
    change (sealed (set_zstream z (trans s))) with (sealed (trans s)) in Hf.
    specialize (Hf (keys_wf_zstream _ _ Hk) Hw2 Hbb ltac:(lia) ltac:(lia) Hfit Er Hpadl Hpadb).
    cbv zeta. destruct (sealed _ _ body pad) as [[bytes c]|]; [|done]. destruct Hf as (wb & Hq & Hf). exists wb. split; [done|]. by rewrite Hf, Hsent. }
  (* The packet that is ready for the body. *)
  destruct (fill_payload_eq payload N ltac:(lia) Hpb) as [Hf1 Hf2]. unfold BUF_MAX_SIZE in HN.
  assert (Hrun : ∀ o, (if is_compress_trans s then
         '(wb, src, z) ← lift (buf_compress (zstream (trans s)) (mkBuf (replicate (Z.to_nat N) 0) 5 5 N) (writepayload s1) (zlen payload));
         put (set_trans (set_zstream z (trans s1)) (set_writepayload src s1));;
         mret wb
       else
         p ← wp_ (buf_getptr (zlen payload));
         src ← wp_ (buf_load p (zlen payload));
         lift (exec (q ← buf_getwriteptr (zlen payload); buf_store q src;; buf_incrwritepos (zlen payload))
           (mkBuf (replicate (Z.to_nat N) 0) 5 5 N))) s1 = o →
     encrypt_packet s = obind (λ '(wb, s2), finish_packet (tx_type s) (blocksize (algo_crypt (trans s))) wb s2) o).
  { intros o Ho. unfold encrypt_packet. rewrite peek_type_eq by (done || lia). fold s1. erewrite bind_ok by done.
    change (dataallowed s1) with (dataallowed s). rewrite <- negb_orb, Hok. cbn [negb].
    change (trans s1) with (trans s) in *. change (is_compress_trans s1) with (is_compress_trans s).
    change (buf_len (writepayload s1)) with (buf_len (writepayload s)). rewrite <- Hpl. fold N.
    rewrite (u32_small N) by (unfold U32 in *; lia).
    erewrite bind_ok by (unfold buf_new, BUF_MAX_SIZE; rewrite Z.gtb_ltb, (proj2 (Z.ltb_ge _ _)) by lia; apply lift_ok).
    erewrite bind_ok by (rewrite Hf1; apply lift_ok). unfold mbind at 1, M_bind at 1. rewrite Ho. by destruct o as [[]| |]. }
  unfold packed in *. fold payload room in Hfin |- *. destruct (is_compress_trans s).
  - pose proof (buf_compress_eq (zstream (trans s)) (writepayload s1) N Hdef Hwf1 eq_refl) as Hc.
    change (buf_len (writepayload s1)) with (buf_len (writepayload s)) in Hc. change (buf_content (writepayload s1)) with payload in Hc.
    change ZLIB_COMPRESS_EXPANSION with 21 in Hc. specialize (Hc ltac:(lia) ltac:(lia) ltac:(unfold BUF_MAX_SIZE; lia)). rewrite Hroom, <- Hpl in Hc.
    destruct (deflate (zstream (trans s)) payload room) as [[[rc out] rest] z] eqn:Ez. cbv zeta in Hc.
    destruct ((rc =? Z_OK) && (zlen rest =? 0)).
    + rewrite <- Hroom in Hc.
      set (s2 := set_trans (set_zstream z (trans s1)) (set_writepayload (set_pos (zlen payload) (writepayload s1)) s1)).
      erewrite Hrun by (erewrite bind_ok by (rewrite Hc; apply lift_ok); reflexivity). cbn [obind].
      apply (Hfin out z s2); try done. apply buf_wf_set_pos; [done|]. cbn. lia.
    + destruct Hc as [e Hc]. exists e. erewrite Hrun by (apply bind_exit; rewrite Hc; reflexivity). done.
  - assert (Hplain : ∀ X, X = s1 → (p ← wp_ (buf_getptr (zlen payload));
         src ← wp_ (buf_load p (zlen payload));
         lift (exec (q ← buf_getwriteptr (zlen payload); buf_store q src;; buf_incrwritepos (zlen payload))
           (mkBuf (replicate (Z.to_nat N) 0) 5 5 N))) s1 =
         Ok (mkBuf (replicate 5 0 ++ payload ++ replicate (Z.to_nat (N - 5 - zlen payload)) 0) (5 + zlen payload) (5 + zlen payload) N, X)).
    { intros X ->. unfold wp_. erewrite bind_ok by (apply zoom_ok; rewrite buf_getptr_eq by (done || unfold U32; lia);
      change (buf_pos (writepayload s1)) with 0; change (buf_len (writepayload s1)) with (buf_len (writepayload s));
      rewrite (proj2 (Z.leb_le _ _)) by lia; reflexivity).
      erewrite bind_ok by (apply zoom_ok; apply (buf_load_eq _ Hwf1); [lia|];
        change (buf_size _) with (buf_size (writepayload s)); change (buf_pos (writepayload s1)) with 0; buf_facts; lia).
      cbn [buf_pos writepayload s1 set_writepayload set_pos buf_data]. change (drop (Z.to_nat 0) ?l) with l.
      replace (take (Z.to_nat (zlen payload)) (buf_data (writepayload s))) with payload by (rewrite Hpl; reflexivity).
      rewrite Hf2. done. }
    rewrite (Hrun _ (Hplain s1 eq_refl)). cbn [obind]. apply (Hfin payload (zstream (trans s)) s1); try done.
    change (trans s1) with (trans s). by destruct (trans s).
Qed.

(** While a key exchange is under way, other packets wait in the reply queue. *)
Lemma encrypt_packet_queued (s : tx) : tx_ready s →
  dataallowed s || packet_is_okay_kex (tx_type s) = false →
  ∃ b, buf_wf b ∧ buf_content b = buf_content (writepayload s) ∧
    encrypt_packet s = Ok (tt, set_reply_queue (reply_queue s ++ [b])
                                 (set_writepayload (cleared (writepayload s)) s)).
Proof.
  intros [Hwf Hlen Hk] Hok. unfold encrypt_packet. rewrite peek_type_eq by (done || lia).
  erewrite bind_ok by done. change (dataallowed (set_writepayload _ s)) with (dataallowed s).
  rewrite <- negb_orb, Hok. cbn [negb]. unfold enqueue_reply_packet. erewrite bind_ok by done.
  destruct (writepayload s) as [d len pos size] eqn:E. buf_facts. cbn [buf_len buf_pos buf_size buf_data] in *.
  set (b := mkBuf (take (Z.to_nat len) d) len 0 len).
  assert (Hcopy : buf_newcopy (mkBuf d len 0 size) = Ok b).
  { unfold buf_newcopy, buf_new. cbn [buf_len]. unfold BUF_MAX_SIZE.
    rewrite (Z.gtb_ltb len 1000000000), (proj2 (Z.ltb_ge 1000000000 len)) by lia.
    rewrite (obind_ok _ _ _ eq_refl). rewrite Z.gtb_ltb, (proj2 (Z.ltb_lt 0 len)) by lia. cbn [buf_data].
    erewrite obind_ok by (apply mem_load_ok; lia). change (drop (Z.to_nat 0) d) with d.
    erewrite obind_ok by (apply mem_store_ok; [lia|rewrite length_take, length_replicate; lia]).
    unfold b, set_data, set_len; cbn [buf_pos buf_size buf_len]. do 2 f_equal. unfold mret, outcome_ret. do 2 f_equal.
    rewrite drop_ge by (rewrite length_replicate, length_take; lia). by rewrite app_nil_r. }
  erewrite bind_ok by (cbn [writepayload set_writepayload set_pos buf_data buf_len buf_size];
    unfold set_pos; cbn [buf_data buf_len buf_size]; rewrite Hcopy; apply lift_ok).
  rewrite clear_eq by (split; cbn; auto; lia).
  exists b. split_and!; [|unfold b, buf_content; cbn; by rewrite take_take, Nat.min_id|done].
  unfold b. split; cbn; [lia|lia|unfold BUF_MAX_SIZE; lia|rewrite length_take; lia|by apply Forall_take].
Qed.
End tx.
