(* ===== verification/PacketStream.v ===== *)
(** * The round trip over a stream socket

    A receiver whose keys are in step with the sender's gets back exactly the
    payload that was sent, for every way the socket may cut the bytes into
    reads and interrupt them, and is in step for the next packet, with and
    without compression.  Also what is let through on any input, and the
    messages that are held back during a key exchange. *)
From S2P Require Import Prelude Ssh Buffer Packet PacketProps PacketRoundtrip.

Section stream.
Context {CS ZS HS RS : Type} `{!Externals CS ZS HS RS}.
Abbreviation keys := (@key_context_directional CS ZS).
Abbreviation tx := (@txstate CS ZS RS).
Abbreviation rx := (@rxstate CS ZS).

Lemma twp_on_readbuf {A} (m : M buffer A) b (Q : A → rx → Prop) (s : rx) :
  readbuf s = Some b → twp m (λ a b', Q a (set_readbuf (Some b') s)) b → twp (on_readbuf m) Q s.
Proof. unfold twp, on_readbuf. intros ->. by destruct (m b) as [[]| |]. Qed.

(** Compute the fields of a receive state that is written out. *)
Ltac rx_simpl :=
  unfold set_readbuf, set_payload, set_recv, set_recvcounts, set_rd_events;
  cbn [readbuf Packet.payload payload_beginning recv recvseq datarecv rx_authdone rd_events].
Ltac on_rb := eapply twp_on_readbuf; [reflexivity|]; rx_simpl.

Lemma twp_or_exit {S A} msg (o : option A) (Q : A → S → Prop) s a :
  o = Some a → Q a s → twp (or_exit msg o) Q s.
Proof. by intros ->. Qed.

(** The MAC of a packet that carries its MAC is accepted. *)
Lemma twp_checkmac (s : rx) b clear tag junk d (Q : bool → rx → Prop) :
  keys_wf (recv s) → readbuf s = Some b → buf_wf b →
  buf_data b = clear ++ tag ++ junk → buf_len b = zlen clear + zlen tag →
  zlen tag = hashsize (algo_mac (recv s)) →
  mac_of (recv s) (recvseq s) clear = Some d → tag = take (Z.to_nat (hashsize (algo_mac (recv s)))) d →
  Q true (set_readbuf (Some (set_pos (zlen clear) b)) s) →
  twp checkmac Q s.
Proof.
  intros Hk Hb Hwf Hd Hl Ht Hm Htag HQ. destruct (mac_of_length _ _ _ _ Hk Hm) as [Hdl _].
  pose proof (kw_hash _ Hk). unfold checkmac. do 3 twp_step.
  apply (twp_on_readbuf _ b); [done|]. twp_step. pose proof Hwf. buf_facts.
  rewrite u32_small by (unfold U32; lia). set (mac := hashsize (algo_mac (recv s))) in *.
  replace (buf_len b - mac) with (zlen clear) by lia.
  twp_step. apply (twp_on_readbuf _ b); [done|]. apply twp_setpos; [done|lia|]. intros Hwf0.
  twp_step. eapply twp_on_readbuf; [done|].
  assert (Hpre : take (Z.to_nat (zlen clear)) (buf_data b) = clear) by (rewrite Hd, Nat2Z.id; apply take_app_length).
  eapply twp_ok; [rewrite make_mac_eq by (done || cbn; lia); cbn [buf_data set_pos]; rewrite Hpre, Hm; reflexivity|].
  assert (Hb0 : (if hashsize (algo_mac (recv s)) >? 0 then set_pos 0 (set_pos 0 b) else set_pos 0 b) = set_pos 0 b) by (by case_if).
  rewrite Hb0. twp_step. eapply twp_on_readbuf; [done|]. apply twp_setpos; [done|cbn; lia|]. intros Hwf1.
  twp_step. eapply twp_on_readbuf; [done|]. apply twp_getptr; [done|lia|cbn; lia|].
  twp_step. eapply twp_lift; [apply mem_load_ok; lia|].
  twp_step. eapply twp_on_readbuf; [done|]. apply twp_load; [done|cbn; lia..|]. cbn [buf_data set_pos buf_pos].
  change (drop (Z.to_nat 0) d) with d. rewrite Hd, Nat2Z.id, drop_app_length, <- Ht, Nat2Z.id, take_app_length.
  assert (Etag : take (length tag) d = tag) by (rewrite Htag at 2; f_equal; lia). rewrite Etag.
  apply twp_ret. rewrite (proj2 (constant_time_memcmp_spec tag tag eq_refl) eq_refl). exact HQ.
Qed.

(** ** Compression *)

(** What the two streams of zlib promise each other.  [zsync e d]: the
    decompressor [d] has followed the compressor [e]; [inflating d inp out d']:
    from [d], the bytes [inp] decompress to [out] and lead to [d'].  What
    [deflate] makes of some input inflates to it, and [inflate] gives as much
    of it as it has room for: less than the room only at the end, and no error
    but the one that says that nothing could be done. *)
Record zlib_pair (zsync : ZS → ZS → Prop) (inflating : ZS → list Z → list Z → ZS → Prop) : Prop := {
  zp_deflate : ∀ e d inp room out e', zsync e d → deflate e inp room = (Z_OK, out, [], e') → Forall is_byte inp →
    1 ≤ zlen inp → zlen inp + ZLIB_COMPRESS_EXPANSION ≤ room → ∃ d', inflating d out inp d' ∧ zsync e' d';
  zp_inflate : ∀ d inp out d' room r o rest d1, inflating d inp out d' → 0 < room → inflate d inp room = (r, o, rest, d1) →
    (r = Z_OK ∨ r = Z_BUF_ERROR ∧ o = []) ∧ zlen o ≤ room ∧
    ∃ out', out = o ++ out' ∧ inflating d1 rest out' d' ∧ (zlen o < room → rest = [] ∧ out' = [] ∧ d1 = d')
}.
Definition zlib_inverse (zsync : ZS → ZS → Prop) : Prop := ∃ inflating, zlib_pair zsync inflating.

Section unpack.
Context (zsync : ZS → ZS → Prop) (inflating : ZS → list Z → list Z → ZS → Prop) (junk : nat → Z).
Context (Hzp : zlib_pair zsync inflating) (Hjunk : ∀ i, is_byte (junk i)).

(** Less than the largest payload decompresses completely. *)
Lemma twp_decompress_loop fuel z inp out zf b (Q : option ZS → buffer → Prop) :
  buf_wf b → buf_pos b = buf_len b → buf_len b < buf_size b → inflating z inp out zf → Forall is_byte out →
  buf_len b + zlen out < RECV_MAX_PAYLOAD_LEN → buf_size b ≤ MAX_PAYLOAD →
  RECV_MAX_PAYLOAD_LEN ≤ buf_size b + ZLIB_DECOMPRESS_INCR * Z.of_nat fuel →
  (∀ b', buf_wf b' → buf_pos b' = buf_len b' → buf_content b' = buf_content b ++ out → Q (Some zf) b') →
  twp (decompress_loop junk (S fuel) z inp) Q b.
Proof using Hzp Hjunk.
  change RECV_MAX_PAYLOAD_LEN with 32768. change ZLIB_DECOMPRESS_INCR with 1024. change MAX_PAYLOAD with 32789.
  revert z inp out b. induction fuel as [|fuel IH]; intros z inp out b Hwf Hpos Hroom Hinf Hob Hmax Hsz Hfuel HQ;
    cbn [decompress_loop]; do 2 twp_step; pose proof Hwf; buf_facts; (rewrite (u32_small (buf_size b - buf_pos b)) by (unfold U32; lia)).
  all: twp_step; (apply twp_getwriteptr; [done|lia|lia|]); destruct (inflate z inp _) as [[[r o] rest] z1] eqn:E.
  all: assert (Hrm : 0 < buf_size b - buf_pos b) by lia.
  all: destruct (zp_inflate _ _ Hzp _ _ _ _ _ _ _ _ _ Hinf Hrm E) as (Hr & Hol & out' & -> & Hinf' & Hend).
  all: apply Forall_app in Hob as [Hob Hob']; rewrite length_app in *.
  all: twp_step; (apply twp_store; [done|lia|lia|done|]); intros b1 Hwf1; (rewrite (u32_small (buf_size b - _)) by (unfold U32; lia)).
  all: twp_step; (apply twp_setlen; [done|subst b1; cbn; lia|]); intros Hwf2; do 3 twp_step; (apply twp_setpos; [done|cbn; lia|]); intros Hwf3.
  all: match type of Hwf3 with buf_wf ?x => set (b3 := x) in * end.
  all: assert (Hc3 : buf_content b3 = buf_content b ++ o) by
    (unfold buf_content, b3, b1; cbn; replace (Z.to_nat (buf_size b - (buf_size b - buf_pos b - zlen o))) with (Z.to_nat (buf_pos b) + length o)%nat by lia;
     rewrite app_assoc, take_app_length' by (rewrite length_app, length_take; lia); by rewrite Hpos).
  all: assert (Hl3 : buf_pos b3 = buf_len b3 ∧ buf_len b3 = buf_len b + zlen o ∧ buf_size b3 = buf_size b) by (unfold b3, b1; cbn; lia); clearbody b3.
  all: destruct Hl3 as (Hp3 & Hl3 & Hs3).
  all: assert (Hok : negb (r =? Z_BUF_ERROR) && negb (r =? Z_OK) = false) by (by destruct Hr as [->|[-> _]]); rewrite Hok.
  all: destruct (Z.lt_ge_cases (zlen o) (buf_size b - buf_pos b)) as [Hlt|Hge].
  1, 3: destruct (Hend Hlt) as (-> & -> & ->); (rewrite (proj2 (Z.eqb_neq (_ - _ - _) 0)) by lia); cbn; apply HQ; [done|done|by rewrite app_nil_r].
  - lia.
  - assert (r = Z_OK) as -> by (destruct Hr as [?|[_ ->]]; [done|cbn in Hge; lia]).
    rewrite (proj2 (Z.eqb_eq (_ - _ - _) 0)) by lia. rewrite andb_false_r. cbn [when]. do 3 twp_step.
    rewrite Hs3, Z.geb_leb, (proj2 (Z.leb_gt _ _)) by (unfold RECV_MAX_PAYLOAD_LEN; lia). unfold RECV_MAX_PAYLOAD_LEN, ZLIB_DECOMPRESS_INCR.
    apply twp_resize; [done|unfold BUF_MAX_SIZE; lia|done|]. intros b' tl Hwf' Hs' Hl' Hp' Hd'.
    eapply (IH z1 rest out'); [done|lia|lia|done|done|lia|lia|lia|]. intros b4 Hwf4 Hp4 Hc4. apply HQ; [done|done|].
    rewrite Hc4, app_assoc, <- Hc3. f_equal. unfold buf_content. pose proof (wf_data _ Hwf3).
    rewrite Hd', Hl', (take_ge (buf_data b3)), Z.min_r by lia. by rewrite take_app_le by lia.
Qed.
Lemma buf_decompress_eq z len b payload zf : buf_wf b → 0 < len ≤ MAX_PAYLOAD → buf_pos b + len ≤ buf_len b →
  inflating z (take (Z.to_nat len) (buf_rest b)) payload zf → Forall is_byte payload → zlen payload < RECV_MAX_PAYLOAD_LEN →
  ∃ pl, buf_decompress junk z len b = Ok (pl, Some zf) ∧ buf_wf pl ∧ buf_content pl = payload.
Proof using Hzp Hjunk.
  intros Hwf Hlen Hfit Hinf Hpb Hpl. change MAX_PAYLOAD with 32789 in Hlen. pose proof Hwf as Hwf'. buf_facts.
  unfold buf_decompress. destruct (buf_new_ok len) as (ret & -> & Hret & Hl & Hp & Hs); [unfold BUF_MAX_SIZE; lia|].
  rewrite (obind_ok _ _ _ eq_refl). rewrite buf_getptr_eq by (done || unfold U32; lia). rewrite (proj2 (Z.leb_le _ _)) by lia.
  rewrite (obind_ok _ _ _ eq_refl). cbn beta iota. rewrite (buf_load_eq b) by (done || lia). rewrite (obind_ok _ _ _ eq_refl). cbn beta iota.
  rewrite buf_rest_load by lia.
  assert (Hd : twp (decompress_loop junk decompress_rounds z (take (Z.to_nat len) (buf_rest b)))
    (λ z' b', z' = Some zf ∧ buf_wf b' ∧ buf_content b' = payload) ret).
  { change decompress_rounds with (S 33). apply (twp_decompress_loop 33 z _ payload zf); [done|lia|lia|done|done|lia|change MAX_PAYLOAD with 32789; lia| |].
    - unfold RECV_MAX_PAYLOAD_LEN, ZLIB_DECOMPRESS_INCR. lia.
    - intros b' Hb' _ Hc. split_and!; [done..|]. rewrite Hc. unfold buf_content. by rewrite Hl. }
  apply twp_iff in Hd as (z' & pl & -> & -> & Hplw & Hplc). rewrite (obind_ok _ _ _ eq_refl). cbn beta iota. by exists pl.
Qed.
End unpack.
(** [payload] is what the body of a packet stands for, [zf] the stream after
    it. *)
Definition unpacked (inflating : ZS → list Z → list Z → ZS → Prop) (s : rx) (body payload : list Z) (zf : ZS) : Prop :=
  Forall is_byte payload ∧
  if is_compress_recv s then inflating (zstream (recv s)) body payload zf ∧ zlen payload < RECV_MAX_PAYLOAD_LEN
  else payload = body ∧ zf = zstream (recv s).

(** A packet as the receiver finds it: cleartext, ciphertext and MAC. *)
Record wire_packet (k : keys) (seq : Z) (body : list Z) (clear ct tag : list Z) (c0 c1 c2 : CS) : Prop := {
  wp_pad : ∃ pad, clear = packet_bytes (zlen pad) body pad ∧ zlen pad < 256 ∧ Forall is_byte pad;
  wp_body : 1 ≤ zlen body ≤ MAX_PAYLOAD;
  wp_bytes : Forall is_byte clear ∧ Forall is_byte ct ∧ Forall is_byte tag;
  wp_len : zlen ct = zlen clear;
  wp_mod : zlen clear mod blocksize (algo_crypt k) = 0;
  wp_min : MIN_PACKET_LEN ≤ zlen clear;
  wp_tag : zlen tag = hashsize (algo_mac k);
  wp_mac : ∃ d, mac_of k seq clear = Some d ∧ tag = take (Z.to_nat (hashsize (algo_mac k))) d;
  wp_first : mode_decrypt (crypt_mode k) c0 (take (Z.to_nat (blocksize (algo_crypt k))) ct) =
             Some (take (Z.to_nat (blocksize (algo_crypt k))) clear, c1);
  wp_rest : mode_decrypt (crypt_mode k) c1 (drop (Z.to_nat (blocksize (algo_crypt k))) ct) =
            Some (drop (Z.to_nat (blocksize (algo_crypt k))) clear, c2)
}.

Lemma packet_bytes_length padlen payload pad : zlen (packet_bytes padlen payload pad) = 5 + zlen payload + zlen pad.
Proof. unfold packet_bytes. rewrite !length_app. cbn. lia. Qed.

(** The whole packet is in the buffer, its first block decrypted. *)
Lemma twp_decrypt_packet zsync inflating junk (s : rx) b payload body clear ct tag more c0 c1 c2 zf (Q : () → rx → Prop) :
  let k := recv s in
  let bs := blocksize (algo_crypt k) in
  keys_wf k → cipher_state k = c1 → wire_packet k (recvseq s) body clear ct tag c0 c1 c2 →
  (∀ i, is_byte (junk i)) → (is_compress_recv s = true → zlib_pair zsync inflating) → unpacked inflating s body payload zf → readbuf s = Some b → buf_wf b →
  buf_data b = take (Z.to_nat bs) clear ++ drop (Z.to_nat bs) ct ++ tag ++ more →
  buf_len b = zlen clear + zlen tag → bs ≤ zlen clear →
  (∀ pl n, buf_wf pl → buf_pos pl = n → buf_rest pl = payload →
     Q tt (mkRx None (Some pl) n (set_zstream zf (set_cipher_state c2 k)) (u32 (recvseq s + 1))
             (u32 (datarecv s + buf_len b)) (rx_authdone s) (rd_events s))) →
  twp (decrypt_packet junk) Q s.
Proof.
  intros k bs Hk Hks [(pad & Hclear & Hpad & Hpadb) Hpay (Hcb & Hctb & Htb) Hct Hmod Hmin Htag (d & Hmac & Htagd) _ Hdec]
    Hj Hzp Hun Hrb Hwf Hd Hl Hbs HQ.
  destruct s as [rb pl0 pb k0 seq drecv auth ev]. cbn in k, Hmac, Hrb, HQ. subst rb.
  pose proof (kw_block _ Hk). fold bs in H. unfold decrypt_packet. pose proof Hwf as Hwf'. buf_facts.
  change MAX_PAYLOAD with 32789 in Hpay.
  pose proof (kw_hash _ Hk) as Hmacr. fold bs in Hdec. set (mac := hashsize (algo_mac k)) in *. unfold MAX_MAC_LEN in Hmacr.
  do 2 twp_step. rx_simpl. change k0 with k. fold bs mac. rewrite Hks.
  twp_step. on_rb. do 3 twp_step.
  twp_step. on_rb. apply twp_setpos; [done|lia|]. intros Hwf1.
  twp_step. on_rb. twp_step. cbn [buf_pos set_pos].
  rewrite (u32_small (buf_len b - mac - bs)) by (unfold U32; lia).
  replace (buf_len b - mac - bs) with (zlen (drop (Z.to_nat bs) ct)) by (rewrite length_drop; lia).
  set (ct2 := drop (Z.to_nat bs) ct) in *.
  assert (Hct2 : zlen ct2 = zlen clear - bs) by (unfold ct2; rewrite length_drop; lia).
  twp_step. on_rb. apply twp_getptr; [done|lia|cbn; lia|].
  twp_step. on_rb. apply twp_load; [done|cbn; lia..|]. cbn [buf_pos set_pos buf_data].
  assert (Hpre : length (take (Z.to_nat bs) clear) = Z.to_nat bs) by (rewrite length_take; lia).
  replace (take _ (drop _ _)) with ct2 by (rewrite Hd, drop_app_length' by done; rewrite Nat2Z.id; by rewrite take_app_length).
  twp_step. on_rb. apply twp_getwriteptr; [done|lia|cbn; lia|].
  twp_step. eapply twp_or_exit; [done|].
  set (cl2 := drop (Z.to_nat bs) clear) in *.
  assert (Hcl2 : zlen cl2 = zlen ct2) by (unfold cl2; rewrite length_drop; lia). cbn beta iota.
  twp_step. on_rb. apply twp_store; [done|cbn; lia|cbn; lia|by apply Forall_drop|]. intros b2 Hwf2.
  assert (Hd2 : buf_data b2 = clear ++ tag ++ more).
  { subst b2. cbn [buf_data set_data set_pos buf_pos]. rewrite Hd, take_app_length' by done.
    replace (Z.to_nat (bs + zlen cl2)) with (length (take (Z.to_nat bs) clear) + length ct2)%nat by lia.
    rewrite (app_assoc (take _ _) ct2), <- length_app, drop_app_length, app_assoc.
    unfold cl2. by rewrite take_drop. }
  assert (Hl2 : buf_len b2 = buf_len b) by done. assert (Hp2 : buf_pos b2 = bs) by done.
  assert (Hs2 : buf_size b2 = buf_size b) by done. clearbody b2.
  do 2 twp_step.
  twp_step. on_rb. rewrite i32_small by lia. apply twp_incrpos; [done|lia|cbn; lia|]. intros Hwf3.
  twp_step. eapply (twp_checkmac _ _ clear tag more d);
    [by apply keys_wf_state|reflexivity|done|done|cbn; lia|done|done|done|]. rx_simpl.
  cbn [negb]. twp_step. on_rb.
  assert (Hwf4 : buf_wf (set_pos (zlen clear) b2)) by (apply buf_wf_set_pos; [done|lia]).
  apply twp_setpos; [exact Hwf4|cbn; unfold PACKET_PADDING_OFF, MIN_PACKET_LEN in *; lia|]. intros Hwf5.
  change (buf_wf (set_pos 4 b2)) in Hwf5.
  twp_step. on_rb.
  assert (Hpl : zlen clear = 5 + zlen body + zlen pad) by (rewrite Hclear; apply packet_bytes_length).
  assert (Hrest : buf_rest (set_pos 4 b2) = zlen pad :: body ++ pad ++ tag).
  { unfold buf_rest; cbn [buf_len buf_pos set_pos buf_data]. rewrite Hd2, Hclear. unfold packet_bytes.
    rewrite <- !app_assoc. change (drop (Z.to_nat 4) (STORE32H _ ++ ?l)) with l.
    change ([zlen pad] ++ ?l) with (zlen pad :: l). rewrite !app_comm_cons, !app_assoc, take_app_length'; [done|].
    rewrite !length_app. cbn. lia. }
  refine (twp_reader (set_pos 4 b2) Hwf5 buf_getbyte p_byte _ _ _ (f_equal p_byte Hrest) _).
  intros n Hn Hnfit Hwf6 Htl.
  assert (n = 1) as -> by (pose proof (buf_rest_length _ Hwf6) as Hl6; rewrite <- Htl in Hl6;
    pose proof (buf_rest_length _ Hwf5) as Hl5; rewrite Hrest in Hl5; cbn in *; lia).
  rewrite (u32_small (buf_len b - zlen pad - 4 - 1 - mac)) by (unfold U32; lia).
  replace (buf_len b - zlen pad - 4 - 1 - mac) with (zlen body) by lia.
  change (RECV_MAX_PAYLOAD_LEN + ZLIB_COMPRESS_EXPANSION) with 32789.
  rewrite Z.gtb_ltb, (proj2 (Z.ltb_ge _ _)), (proj2 (Z.ltb_ge _ 1)) by lia. cbn [orb].
  twp_step. on_rb.
  apply twp_setpos; [done|cbn; unfold PACKET_PAYLOAD_OFF; lia|]. intros Hwf7.
  twp_step. on_rb. twp_step. do 2 twp_step. destruct Hun as [Hpb Hun].
  match goal with |- context [is_compress_recv ?s'] => change (is_compress_recv s') with
    (is_compress_recv (mkRx (Some b) pl0 pb k0 seq drecv auth ev)) end.
  set (b8 := set_pos PACKET_PAYLOAD_OFF _) in *. assert (Hb8 : buf_wf b8) by done.
  assert (Hr8 : take (Z.to_nat (zlen body)) (drop (Z.to_nat 5) (buf_data b8)) = body).
  { unfold b8. cbn [buf_data set_pos buf_advance]. rewrite Hd2, Hclear. unfold packet_bytes. rewrite <- !app_assoc.
    change (drop (Z.to_nat 5) (STORE32H _ ++ [_] ++ ?l)) with l. apply take_app_length'. lia. }
  destruct (is_compress_recv _) eqn:Hcomp.
  - destruct Hun as [Hinf Hpl2].
    destruct (buf_decompress_eq zsync inflating junk (Hzp eq_refl) Hj (zstream k) (zlen body) b8 payload zf) as (pl & Edec & Hplw & Hplc);
      [done|change MAX_PAYLOAD with 32789; lia|unfold b8, PACKET_PAYLOAD_OFF; cbn; lia| |done|done|].
    { rewrite <- buf_rest_load by (unfold b8, PACKET_PAYLOAD_OFF; cbn; lia). change (buf_pos b8) with 5. rewrite Hr8. exact Hinf. }
    twp_step. twp_step. eapply twp_lift; [exact Edec|]. cbn beta iota. pose proof (wf_pos _ Hplw). apply twp_exec, twp_setpos; [done|lia|]. intros Hwf8. do 4 twp_step.
    apply (HQ (set_pos 0 pl) 0); [done|done|]. unfold buf_rest. cbn. rewrite Z.sub_0_r. exact Hplc.
  - destruct Hun as [-> ->]. twp_step.
    change (buf_pos b8) with 5. rewrite (u32_small (5 + zlen body)) by (unfold U32; lia).
    apply twp_exec, twp_setlen; [done|unfold b8; cbn; lia|]. intros Hwf8.
    change (buf_pos b8) with 5 in *. rewrite Z.min_l in * by lia. do 3 twp_step. twp_step.
    apply (HQ (set_pos 5 (set_len (5 + zlen body) b8)) 5); [exact Hwf8|done|].
    unfold buf_rest; cbn [buf_len buf_pos set_pos set_len buf_data]. replace (5 + zlen body - 5) with (zlen body) by lia. exact Hr8.
Qed.

(** ** The socket: chunks of a stream, and interruptions *)
Definition live (ev : list rdres) : Prop :=
  Forall (λ e, match e with RData bs => bs ≠ [] ∧ Forall is_byte bs | RErr r => r = true end) ev.
(** Every read that does not block makes this smaller. *)
Definition pending (ev : list rdres) : nat :=
  sum_list_with (λ e, match e with RData bs => length bs | RErr _ => 1%nat end) ev.

Lemma sys_read_live ev n : live ev → stream ev ≠ [] → 0 < n →
  ∃ r ev', sys_read ev n = (r, ev') ∧ live ev' ∧ (pending ev' < pending ev)%nat ∧
    ((r = RErr true ∧ stream ev' = stream ev) ∨
     (∃ bs, r = RData bs ∧ 0 < zlen bs ≤ n ∧ Forall is_byte bs ∧ stream ev = bs ++ stream ev')).
Proof.
  intros Hl Hs Hn. destruct ev as [|[bs|e] ev]; [done| |].
  - apply Forall_cons in Hl as [[Hne Hb] Hl]. unfold sys_read.
    assert (0 < zlen bs) by (destruct bs; [done|cbn; lia]). case_if.
    + case_if; [lia|]. eexists _, _. split_and!; [done|done|unfold pending; cbn; lia|]. right. exists bs.
      split_and!; [done|lia|lia|done|done].
    + eexists _, _. split_and!; [done| |unfold pending; cbn; rewrite length_drop; lia|].
      * apply Forall_cons. split; [|done]. split; [|by apply Forall_drop].
        intros E. apply (f_equal length) in E. rewrite length_drop in E. cbn in E. lia.
      * right. eexists. split_and!; [done|rewrite length_take; lia|rewrite length_take; lia|by apply Forall_take|].
        cbn. by rewrite app_assoc, take_drop.
  - apply Forall_cons in Hl as [-> Hl]. eexists _, _. split_and!; [done|done|unfold pending; cbn; lia|]. left. done.
Qed.

(** The next bytes of the stream are the next bytes of the packet. *)
Lemma stream_split (W rest bs tl : list Z) (i : Z) :
  0 ≤ i → drop (Z.to_nat i) W ++ rest = bs ++ tl → i + zlen bs ≤ zlen W →
  take (Z.to_nat i) W ++ bs = take (Z.to_nat (i + zlen bs)) W ∧
  tl = drop (Z.to_nat (i + zlen bs)) W ++ rest.
Proof.
  intros Hi E Hl.
  assert (Hbs : bs = take (length bs) (drop (Z.to_nat i) W)).
  { apply (f_equal (take (length bs))) in E. rewrite take_app_length, take_app_le in E; [done|].
    rewrite length_drop. lia. }
  replace (Z.to_nat (i + zlen bs)) with (Z.to_nat i + length bs)%nat by lia. split.
  - rewrite Hbs at 1. by rewrite take_take_drop.
  - apply (f_equal (drop (length bs))) in E. rewrite drop_app_length in E. subst tl.
    rewrite drop_app_le by (rewrite length_drop; lia). by rewrite drop_drop.
Qed.

Lemma twp_read_sock p maxlen b (r : rx) (Q : option Z → rx → Prop) :
  live (rd_events r) → stream (rd_events r) ≠ [] → readbuf r = Some b → buf_wf b → 0 < maxlen → 0 ≤ p →
  p + maxlen ≤ buf_size b →
  (∀ ev, live ev → (pending ev < pending (rd_events r))%nat → stream ev = stream (rd_events r) →
     Q None (set_rd_events ev r)) →
  (∀ ev bs, live ev → (pending ev < pending (rd_events r))%nat → 0 < zlen bs ≤ maxlen →
     stream (rd_events r) = bs ++ stream ev → buf_wf (data_store p bs b) →
     Q (Some (zlen bs)) (set_readbuf (Some (data_store p bs b)) (set_rd_events ev r))) →
  twp (read_sock p maxlen) Q r.
Proof.
  intros Hl Hs Hrb Hwf Hm Hp Hfit HN Hsome. unfold read_sock. do 2 twp_step.
  destruct (sys_read_live (rd_events r) maxlen Hl Hs Hm) as (res & ev & -> & Hl' & Hpend & [[-> Hst]|(bs & -> & Hbl & Hbb & Hst)]).
  - do 2 twp_step. by apply twp_ret, HN.
  - do 2 twp_step. twp_step. eapply twp_on_readbuf; [done|]. apply twp_store; [done..|lia|done|]. intros b' Hwf'.
    rewrite (proj2 (Z.eqb_neq _ _)) by lia. apply twp_ret. by apply Hsome.
Qed.

(** ** Receiving one packet *)
Section receive.
Context (r0 : rx) (junk : nat → Z) (Hjunk : ∀ i, is_byte (junk i)).
Context (zsync : ZS → ZS → Prop) (inflating : ZS → list Z → list Z → ZS → Prop).
Context (payload body clear ct tag rest : list Z) (c0 c1 c2 : CS) (zf : ZS).
Abbreviation k := (recv r0).
Abbreviation bs := (blocksize (algo_crypt k)).
Abbreviation mac := (hashsize (algo_mac k)).
Abbreviation W := (ct ++ tag).
Context (Hk : keys_wf k) (Hzp : is_compress_recv r0 = true → zlib_pair zsync inflating).
Context (Hun : unpacked inflating r0 body payload zf) (Hpkt : wire_packet k (recvseq r0) body clear ct tag c0 c1 c2).

Definition rxs (rb : option buffer) (c : CS) (ev : list rdres) : rx :=
  mkRx rb (Packet.payload r0) (payload_beginning r0) (set_cipher_state c k) (recvseq r0) (datarecv r0)
    (rx_authdone r0) ev.

(** Less than the first block has arrived. *)
Definition partial (i : Z) (b : buffer) : Prop :=
  buf_wf b ∧ 0 ≤ i < bs ∧ buf_pos b = i ∧ buf_len b = i ∧ buf_size b = INIT_READBUF ∧
  take (Z.to_nat i) (buf_data b) = take (Z.to_nat i) W.
(** The first block is decrypted and [i] bytes have arrived. *)
Definition full (i : Z) (b : buffer) : Prop :=
  buf_wf b ∧ bs ≤ i ≤ zlen W ∧ buf_pos b = i ∧ buf_len b = zlen W ∧
  take (Z.to_nat i) (buf_data b) = take (Z.to_nat bs) clear ++ take (Z.to_nat (i - bs)) (drop (Z.to_nat bs) W).

(** The states a call of [read_packet] may leave, with [n] bounding what is
    pending on the socket. *)
Inductive received (n : nat) : rx → Prop :=
| rcv_partial i b ev : partial i b → live ev → (pending ev < n)%nat →
    stream ev = drop (Z.to_nat i) W ++ rest → received n (rxs (Some b) c0 ev)
| rcv_full i b ev : full i b → i < zlen W → live ev → (pending ev < n)%nat →
    stream ev = drop (Z.to_nat i) W ++ rest → received n (rxs (Some b) c1 ev)
| rcv_done pl m ev : buf_wf pl → buf_pos pl = m → buf_rest pl = payload → live ev → stream ev = rest →
    received n (mkRx None (Some pl) m (set_zstream zf (set_cipher_state c2 k)) (u32 (recvseq r0 + 1))
                  (u32 (datarecv r0 + zlen W)) (rx_authdone r0) ev).

Lemma sizes : (bs = 8 ∨ 16 ≤ bs ≤ 64) ∧ 0 ≤ mac ≤ 64 ∧ zlen W = zlen clear + mac ∧ bs ≤ zlen clear ∧
  16 ≤ zlen clear ∧ 5 + zlen body ≤ zlen clear ∧ zlen W ≤ 35000 ∧ zlen tag = mac ∧ zlen ct = zlen clear.
Proof using Hk Hpkt.
  destruct Hpkt as [(pad & Hcl & Hpad & _) Hpay _ Hct Hmod Hmin Htag _ _ _].
  pose proof (kw_block _ Hk) as Hb. pose proof (kw_hash _ Hk) as Hm. unfold MAX_MAC_LEN, MIN_PACKET_LEN in *.
  assert (Hcll : zlen clear = 5 + zlen body + zlen pad) by (rewrite Hcl; apply packet_bytes_length).
  change MAX_PAYLOAD with 32789 in Hpay. rewrite length_app.
  apply Z.mod_divide in Hmod as [q Hq]; [|lia].
  assert (bs ≤ zlen clear) by (destruct (Z.le_gt_cases q 0); nia).
  split_and!; lia || done.
Qed.

Lemma full_data i b : full i b → i = zlen W → ∃ more,
  buf_data b = take (Z.to_nat bs) clear ++ drop (Z.to_nat bs) ct ++ tag ++ more.
Proof using Hk Hpkt.
  intros (Hwf & Hi & _ & _ & Hd) ->. destruct sizes as (? & ? & ? & ? & ? & ? & ? & ? & Hctl).
  exists (drop (Z.to_nat (zlen W)) (buf_data b)).
  rewrite <- (take_drop (Z.to_nat (zlen W)) (buf_data b)) at 1. rewrite Hd, (take_ge (drop _ _)) by (rewrite length_drop; lia).
  rewrite drop_app_le by lia. by rewrite <- !app_assoc.
Qed.

Lemma twp_deliver i b ev (Q : () → rx → Prop) : full i b → i = zlen W →
  (∀ r, (∀ n, received n r) → Q tt r) → live ev → stream ev = rest →
  twp (decrypt_packet junk) Q (rxs (Some b) c1 ev).
Proof using Hk Hjunk Hzp Hun Hpkt.
  intros Hf Hi HQ Hl Hst. destruct (full_data i b Hf Hi) as [more Hd]. destruct Hf as (Hwf & ? & Hpos & Hlen & _).
  destruct sizes as (? & ? & HW & ? & ? & ? & ? & Htl & ?).
  eapply (twp_decrypt_packet zsync inflating junk (rxs (Some b) c1 ev) b payload body clear ct tag more c0 c1 c2 zf);
    [by apply keys_wf_state|done| |done|done|done|done|done|exact Hd|rewrite Hlen; lia|done|].
  - destruct Hpkt. by split.
  - intros pl n Hwfp Hpp Hrp. apply HQ. intros m. rewrite Hlen. by apply rcv_done.
Qed.

Lemma full_store i b bytes : full i b → i + zlen bytes ≤ zlen W →
  take (Z.to_nat i) W ++ bytes = take (Z.to_nat (i + zlen bytes)) W →
  buf_wf (set_pos (i + zlen bytes) (data_store i bytes b)) →
  full (i + zlen bytes) (set_pos (i + zlen bytes) (data_store i bytes b)).
Proof using Hk Hpkt.
  intros (Hwf & Hi & Hpos & Hlen & Hd) Hfit Hb Hwf'. destruct sizes as (? & ? & ? & ? & ? & ? & ? & ? & ?).
  buf_facts. split_and!; [done|lia|lia|done|done|]. unfold data_store; cbn [buf_data set_pos set_data].
  replace (Z.to_nat (i + zlen bytes)) with (Z.to_nat i + length bytes)%nat at 1 by lia.
  rewrite app_assoc, take_app_length' by (rewrite length_app, length_take; lia).
  rewrite Hd, <- app_assoc. f_equal.
  apply (f_equal (drop (Z.to_nat bs))) in Hb. rewrite drop_app_le in Hb by (rewrite length_take; lia).
  rewrite !skipn_firstn_comm in Hb. replace (Z.to_nat (i - bs)) with (Z.to_nat i - Z.to_nat bs)%nat by lia.
  rewrite Hb. f_equal. lia.
Qed.

Lemma twp_read_rest i b ev n (Q : () → rx → Prop) : full i b → live ev →
  stream ev = drop (Z.to_nat i) W ++ rest → (i < zlen W → (pending ev ≤ n)%nat) →
  (∀ r, received n r → Q tt r) → twp (read_packet_rest junk) Q (rxs (Some b) c1 ev).
Proof using Hk Hjunk Hzp Hun Hpkt.
  intros Hf Hl Hst Hn HQ. pose proof Hf as (Hwf & Hi & Hpos & Hlen & _).
  destruct sizes as (? & ? & HW & ? & ? & ? & ? & Htl & ?). pose proof Hwf. buf_facts.
  unfold read_packet_rest, rxs. twp_step. on_rb. twp_step.
  rewrite (u32_small (buf_len b - buf_pos b)) by (unfold U32; lia).
  destruct (Z.eqb_spec (buf_len b - buf_pos b) 0) as [Hz|Hz].
  { do 2 twp_step. rewrite Hz. apply (twp_deliver i b); [done|lia|by intros r Hr; apply HQ|done|].
    rewrite Hst, drop_ge by lia. done. }
  do 2 twp_step. on_rb. apply twp_getptr; [done|lia|lia|].
  twp_step. eapply (twp_read_sock _ _ b); [done| |done|done|lia|lia|lia|..]; rx_simpl.
  { rewrite Hst. intros E. apply (f_equal length) in E. rewrite length_app, length_drop in E. cbn in E. lia. }
  { intros ev' Hl' Hp' Hst'. do 2 apply twp_ret. apply HQ. eapply (rcv_full n i b); [done|lia|done|lia|]. by rewrite Hst'. }
  intros ev' bytes Hl' Hp' Hbl Hst' Hwf1. rewrite Hst in Hst'. rewrite Hpos in *.
  destruct (stream_split _ _ _ _ i ltac:(lia) Hst' ltac:(lia)) as [Hb Hrest'].
  twp_step. on_rb. apply twp_incrpos; [done|lia|cbn; lia|]. intros Hwf2.
  change (buf_pos (data_store i bytes b)) with (buf_pos b) in *. rewrite Hpos in *.
  pose proof (full_store i b bytes Hf ltac:(lia) Hb Hwf2) as Hf2.
  twp_step. rewrite u32_small by (unfold U32; lia).
  destruct (Z.eqb_spec (zlen bytes) (buf_len b - i)) as [Heq|Hne]; cbn [when].
  - apply (twp_deliver (i + zlen bytes) _ ev'); [done|lia|by intros r Hr; apply HQ|done|].
    rewrite Hrest', drop_ge by lia. done.
  - apply twp_ret. apply HQ. eapply rcv_full; [done|lia|done|lia|done].
Qed.
Lemma partial_store i b bytes : partial i b → i + zlen bytes ≤ bs →
  take (Z.to_nat i) W ++ bytes = take (Z.to_nat (i + zlen bytes)) W →
  take (Z.to_nat (i + zlen bytes)) (buf_data (data_store i bytes b)) = take (Z.to_nat (i + zlen bytes)) W.
Proof using Hk.
  intros (Hwf & Hi & Hpos & Hlen & Hs & Hd) Hfit Hb. pose proof (kw_block _ Hk). unfold INIT_READBUF in Hs. buf_facts.
  unfold data_store; cbn [buf_data set_data].
  replace (Z.to_nat (i + zlen bytes)) with (Z.to_nat i + length bytes)%nat at 1 by lia.
  rewrite app_assoc, take_app_length' by (rewrite length_app, length_take; lia). by rewrite Hd.
Qed.

(** The length field of the first block. *)
Lemma clear_length : ∃ tl, take (Z.to_nat bs) clear = STORE32H (zlen clear - 4) ++ tl ∧ zlen tl = bs - 4.
Proof using Hk Hpkt.
  destruct sizes as (? & ? & ? & ? & ? & ? & ? & ? & ?).
  destruct Hpkt as [(pad & Hcl & Hpad & _) _ _ _ _ _ _ _ _ _].
  assert (Hcll : zlen clear = 5 + zlen body + zlen pad) by (rewrite Hcl; apply packet_bytes_length).
  exists (take (Z.to_nat (bs - 4)) (drop 4 clear)). split.
  - rewrite Hcll, Hcl. unfold packet_bytes.
    replace (Z.to_nat bs) with (length (STORE32H (5 + zlen body + zlen pad - 4)) + Z.to_nat (bs - 4))%nat by (cbn; lia).
    by rewrite take_app_add.
  - rewrite length_take, length_drop. lia.
Qed.

(** From the first block to the known length. *)
Lemma twp_first_block b ev (Q : bool → rx → Prop) :
  buf_wf b → buf_len b = bs → buf_size b = INIT_READBUF →
  take (Z.to_nat bs) (buf_data b) = take (Z.to_nat bs) W →
  (∀ b', full bs b' → Q true (rxs (Some b') c1 ev)) →
  twp (on_readbuf (buf_setpos 0);;
       p ← on_readbuf (buf_getptr bs);
       ct ← on_readbuf (buf_load p bs);
       q ← on_readbuf (buf_getwriteptr bs);
       '(pt, c) ← or_exit "Error decrypting" (mode_decrypt (crypt_mode k) c0 ct);
       on_readbuf (buf_store q pt);;
       modify (λ s, set_recv (set_cipher_state c (recv s)) s);;
       n ← on_readbuf buf_getint;
       let len := u32 (n + 4 + mac) in
       if (len >? RECV_MAX_PACKET_LEN) || (len <? MIN_PACKET_LEN + mac)
          || negb (u32 (len - mac) mod bs =? 0)
       then dropbear_exit "Integrity error (bad packet size)"
       else
         size ← on_readbuf (gets buf_size);
         when (len >? size) (on_readbuf (buf_resize junk len));;
         on_readbuf (buf_setlen len);;
         on_readbuf (buf_setpos bs);;
         mret true) Q (rxs (Some b) c0 ev).
Proof using Hk Hjunk Hpkt.
  intros Hwf Hlen Hsize Hd HQ. destruct sizes as (? & ? & HW & ? & ? & ? & ? & Htl & Hctl).
  destruct clear_length as (tl & Hfirst & Htll). destruct Hpkt as [_ _ (Hcb & _) _ Hmod _ _ _ Hdec _].
  unfold INIT_READBUF in Hsize. pose proof Hwf. buf_facts. unfold rxs.
  twp_step. on_rb. apply twp_setpos; [done|lia|]. intros Hwf0.
  twp_step. on_rb. apply twp_getptr; [done|lia|cbn; lia|].
  twp_step. on_rb. apply twp_load; [done|cbn; lia..|]. cbn [buf_pos set_pos buf_data].
  change (drop (Z.to_nat 0) (buf_data b)) with (buf_data b). rewrite Hd, take_app_le by lia.
  twp_step. on_rb. apply twp_getwriteptr; [done|lia|cbn; lia|].
  twp_step. eapply twp_or_exit; [exact Hdec|]. cbn beta iota.
  assert (Hcl1 : zlen (take (Z.to_nat bs) clear) = bs) by (rewrite length_take; lia).
  twp_step. on_rb. apply twp_store; [done|cbn; lia|cbn; lia|by apply Forall_take|]. intros b1 Hwf1.
  assert (Hb1 : buf_data b1 = take (Z.to_nat bs) clear ++ drop (Z.to_nat bs) (buf_data b)).
  { subst b1. cbn [buf_data set_data set_pos buf_pos]. rewrite Hcl1. done. }
  assert (buf_len b1 = bs ∧ buf_pos b1 = 0 ∧ buf_size b1 = 128) as (Hl1 & Hp1 & Hs1) by done. clearbody b1.
  do 2 twp_step. rx_simpl. twp_step. on_rb.
  assert (Hr1 : buf_rest b1 = STORE32H (zlen clear - 4) ++ tl).
  { unfold buf_rest. rewrite Hl1, Hp1, Hb1, Z.sub_0_r. change (drop (Z.to_nat 0) ?l) with l.
    rewrite take_app_length' by lia. done. }
  assert (Hint : p_int (buf_rest b1) = Some (zlen clear - 4, tl)).
  { rewrite Hr1. unfold p_int, p_bind, p_bytes. rewrite length_app.
    rewrite (proj2 (Z.leb_le _ _)) by (cbn; lia). cbn [mbind option_bind p_ret].
    change (take (Z.to_nat 4) (STORE32H ?v ++ ?l)) with (STORE32H v).
    change (drop (Z.to_nat 4) (STORE32H ?v ++ ?l)) with l.
    by rewrite LOAD32H_STORE32H by (unfold U32; lia). }
  refine (twp_reader b1 Hwf1 buf_getint p_int _ _ _ Hint _). intros n Hn Hnfit Hwf2 _. cbv zeta.
  replace (zlen clear - 4 + 4 + mac) with (zlen W) by lia. rewrite (u32_small (zlen W)) by (unfold U32; lia).
  change RECV_MAX_PACKET_LEN with 35000. unfold MIN_PACKET_LEN. rewrite (u32_small (zlen W - mac)) by (unfold U32; lia).
  replace (zlen W - mac) with (zlen clear) by lia.
  rewrite Hmod, (Z.gtb_ltb (zlen W) 35000), (proj2 (Z.ltb_ge 35000 (zlen W))),
    (proj2 (Z.ltb_ge (zlen W) (16 + mac))) by lia. cbn [orb negb Z.eqb].
  twp_step. on_rb. twp_step. cbn [buf_size buf_advance set_pos]. rewrite Hs1.
  twp_step.
  apply (twp_mono _ (λ _ s', ∃ b3 more, s' = rxs (Some b3) c1 ev ∧ buf_wf b3 ∧ zlen W ≤ buf_size b3 ∧
    buf_data b3 = take (Z.to_nat bs) clear ++ more)).
  { destruct (Z.gtb_spec (zlen W) 128); cbn [when].
    - on_rb. apply twp_resize; [done|unfold BUF_MAX_SIZE; lia|done|]. intros b3 tl3 Hwf3 Hs3 _ _ Hd3.
      exists b3, (drop (Z.to_nat bs) (buf_data b) ++ tl3). split_and!; [done|done|lia|].
      rewrite Hd3. cbn [buf_data buf_advance set_pos]. rewrite take_ge by (pose proof (wf_data _ Hwf1); lia).
      by rewrite Hb1, app_assoc.
    - apply twp_ret. eexists _, _. split_and!; [reflexivity|done|cbn; lia|done]. }
  intros _ s' (b3 & more & -> & Hwf3 & Hs3 & Hd3). unfold rxs.
  twp_step. on_rb. apply twp_setlen; [done|lia|]. intros Hwf4.
  twp_step. on_rb. apply twp_setpos; [done|cbn; lia|]. intros Hwf5.
  apply twp_ret. apply HQ. split_and!; [done|lia|lia|done|done|].
  cbn [buf_data set_pos set_len]. rewrite Hd3, take_app_length' by lia. by rewrite Z.sub_diag, app_nil_r.
Qed.

Lemma twp_init rb i ev n (Q : bool → rx → Prop) :
  (rb = None ∧ i = 0) ∨ (∃ b, rb = Some b ∧ partial i b) → live ev →
  stream ev = drop (Z.to_nat i) W ++ rest → (pending ev ≤ n)%nat →
  (∀ r, received n r → Q false r) →
  (∀ b ev', full bs b → live ev' → (pending ev' < n)%nat → stream ev' = drop (Z.to_nat bs) W ++ rest →
     Q true (rxs (Some b) c1 ev')) →
  twp (read_packet_init junk) Q (rxs rb c0 ev).
Proof using Hk Hjunk Hpkt.
  intros Hstart Hl Hst Hn HF HT. destruct sizes as (? & ? & HW & ? & ? & ? & ? & Htl & Hctl).
  unfold read_packet_init, rxs. do 2 twp_step. rx_simpl. twp_step.
  apply (twp_mono _ (λ _ s', ∃ b, s' = rxs (Some b) c0 ev ∧ partial i b)).
  { destruct Hstart as [[-> ->]|(b & -> & Hb)].
    - twp_step. destruct (buf_new_ok INIT_READBUF) as (b & Hnew & Hwf & Hlb & Hpb & Hsb);
        [unfold INIT_READBUF, BUF_MAX_SIZE; lia|].
      eapply twp_lift; [exact Hnew|]. twp_step. exists b. split; [done|]. split_and!; [done|lia|lia|done..].
    - apply twp_ret. by exists b. }
  intros _ s' (b & -> & Hb). pose proof Hb as (Hwf & Hi & Hpos & Hlen & Hsize & Hd). unfold INIT_READBUF in Hsize.
  pose proof Hwf. buf_facts. unfold rxs. twp_step. on_rb. twp_step.
  change (blocksize (algo_crypt (set_cipher_state c0 k))) with bs. rewrite Hpos.
  rewrite (u32_small (bs - i)) by (unfold U32; lia).
  twp_step. on_rb. apply twp_getwriteptr; [done|lia|lia|]. rewrite Hpos.
  twp_step. eapply (twp_read_sock _ _ b); [done| |done|done|lia|lia|lia|..]; rx_simpl.
  { rewrite Hst. intros E. apply (f_equal length) in E. rewrite length_app, length_drop in E. cbn in E. lia. }
  { intros ev' Hl' Hp' Hst'. apply twp_ret. apply HF. eapply (rcv_partial n i b); [done|done|lia|]. by rewrite Hst'. }
  intros ev' bytes Hl' Hp' Hbl Hst' Hwf1. rewrite Hst in Hst'.
  destruct (stream_split _ _ _ _ i ltac:(lia) Hst' ltac:(lia)) as [Hbb Hrest'].
  pose proof (partial_store i b bytes Hb ltac:(lia) Hbb) as Hd1.
  twp_step. on_rb. apply twp_incrwritepos; [done|lia|cbn; lia|]. intros b2 Hwf2.
  assert (Hd2 : take (Z.to_nat (i + zlen bytes)) (buf_data b2) = take (Z.to_nat (i + zlen bytes)) W) by exact Hd1.
  assert (buf_pos b2 = i + zlen bytes ∧ buf_len b2 = i + zlen bytes ∧ buf_size b2 = 128) as (Hp2 & Hl2 & Hs2)
    by (subst b2; cbn; lia). clearbody b2.
  destruct (Z.eqb_spec (zlen bytes) (bs - i)) as [Heq|Hne]; cbn [negb].
  - apply (twp_first_block b2 ev'); [done|lia|done| |].
    + by replace bs with (i + zlen bytes) by lia.
    + intros b' Hf. apply HT; [done|done|lia|]. by replace bs with (i + zlen bytes) by lia.
  - apply twp_ret. apply HF. apply (rcv_partial n (i + zlen bytes) b2); [|done|lia|done].
    split_and!; [done|lia|lia|done..].
Qed.
(** Before a call: no packet begun, or part of one. *)
Inductive waiting : rx → Prop :=
| wait_none ev : live ev → stream ev = W ++ rest → waiting (rxs None c0 ev)
| wait_partial i b ev : partial i b → live ev → stream ev = drop (Z.to_nat i) W ++ rest →
    waiting (rxs (Some b) c0 ev)
| wait_full i b ev : full i b → i < zlen W → live ev → stream ev = drop (Z.to_nat i) W ++ rest →
    waiting (rxs (Some b) c1 ev).

Lemma received_cases n r : received n r →
  (waiting r ∧ (pending (rd_events r) < n)%nat) ∨ (received 0 r ∧ Packet.payload r ≠ None).
Proof.
  intros [i b ev ? ? ? ?|i b ev ? ? ? ? ?|pl m ev ? ? ? ? ?].
  - left. split; [|done]. by eapply wait_partial.
  - left. split; [|done]. by eapply wait_full.
  - right. split; [|done]. by apply rcv_done.
Qed.

Lemma twp_read_packet r : waiting r →
  twp (read_packet junk) (λ _ r', received (pending (rd_events r)) r') r.
Proof using Hk Hjunk Hzp Hun Hpkt.
  intros Hw. destruct sizes as (? & ? & HW & ? & ? & ? & ? & Htl & Hctl).
  unfold read_packet. do 2 twp_step.
  assert (Hinit : ∀ rb i ev, (rb = None ∧ i = 0) ∨ (∃ b, rb = Some b ∧ partial i b) → live ev →
    stream ev = drop (Z.to_nat i) W ++ rest →
    twp (read_packet_init junk) (λ ready s', twp (if negb ready then mret tt else read_packet_rest junk)
      (λ _ r', received (pending ev) r') s') (rxs rb c0 ev)).
  { intros rb i ev Hrb Hl Hst. eapply twp_init; [done|done|done|reflexivity| |].
    - intros r' Hr'. by apply twp_ret.
    - intros b ev' Hf Hl' Hp' Hst'. cbn [negb]. eapply (twp_read_rest _ _ _ (pending ev)); [done|done|done|intros; lia|done]. }
  assert (Hbs : ∀ rb c ev, blocksize (algo_crypt (recv (rxs rb c ev))) = bs) by done.
  destruct Hw as [ev Hl Hst|i b ev Hb Hl Hst|i b ev Hf Hi Hl Hst]; rewrite Hbs; cbn [readbuf rxs]; twp_step.
  - apply (Hinit None 0); [by left|done|done].
  - rewrite (proj2 (Z.ltb_lt (buf_len b) _)) by (destruct Hb as (_ & ? & _ & -> & _); lia).
    apply (Hinit (Some b) i); [right; eauto|done|done].
  - rewrite (proj2 (Z.ltb_ge (buf_len b) _)) by (destruct Hf as (_ & ? & _ & -> & _); lia).
    apply twp_ret. cbn [negb]. by eapply twp_read_rest.
Qed.

(** The main loop calls [read_packet] until there is a payload. *)
Fixpoint read_until (fuel : nat) : M rx () :=
  r ← get;
  match Packet.payload r, fuel with
  | Some _, _ | None, O => mret tt
  | None, S fuel => read_packet junk;; read_until fuel
  end.

Lemma twp_read_until fuel r : Packet.payload r0 = None → waiting r → (pending (rd_events r) < fuel)%nat →
  twp (read_until fuel) (λ _ r', received 0 r' ∧ Packet.payload r' ≠ None) r.
Proof using Hk Hjunk Hzp Hun Hpkt.
  intros Hp0. revert r. induction fuel as [|fuel IH]; intros r Hw Hf; [lia|]. cbn [read_until].
  do 2 twp_step. assert (Hp : Packet.payload r = None) by (by destruct Hw). rewrite Hp.
  twp_step. eapply twp_mono; [by apply twp_read_packet|]. cbn. intros _ r' Hr'.
  destruct (received_cases _ _ Hr') as [[Hw' Hp']|[Hd Hpl]]; [apply IH; [done|lia]|].
  destruct (Packet.payload r') as [pl|] eqn:Epl; [|done].
  destruct fuel; cbn [read_until]; do 2 twp_step; rewrite Epl; apply twp_ret; (split; [done|congruence]).
Qed.
End receive.

(** ** The round trip *)

(** [sync e d]: the decryption state [d] follows the encryption state [e].
    Decryption inverts encryption block by block, so it may be done in two
    parts, and leaves the states in step. *)
Definition cipher_inverse (kt kr : keys) (sync : CS → CS → Prop) : Prop :=
  ∀ e d x y e', sync e d → mode_encrypt (crypt_mode kt) e x = Some (y, e') → Forall is_byte x →
  zlen x mod blocksize (algo_crypt kr) = 0 →
  ∃ d1 d2,
    mode_decrypt (crypt_mode kr) d (take (Z.to_nat (blocksize (algo_crypt kr))) y) =
      Some (take (Z.to_nat (blocksize (algo_crypt kr))) x, d1) ∧
    mode_decrypt (crypt_mode kr) d1 (drop (Z.to_nat (blocksize (algo_crypt kr))) y) =
      Some (drop (Z.to_nat (blocksize (algo_crypt kr))) x, d2) ∧
    sync e' d2.

(** Both sides agree on the algorithms, the MAC key, the sequence number and
    whether packets are compressed, and the receiver's cipher and stream have
    followed the sender's. *)
Record in_step (sync : CS → CS → Prop) (zsync : ZS → ZS → Prop) (t : tx) (r : rx) : Prop := {
  is_block : blocksize (algo_crypt (trans t)) = blocksize (algo_crypt (recv r));
  is_mac : algo_mac (trans t) = algo_mac (recv r);
  is_hash : hash_index (trans t) = hash_index (recv r);
  is_mackey : mackey (trans t) = mackey (recv r);
  is_seq : transseq t = recvseq r;
  is_comp : is_compress_trans t = is_compress_recv r;
  is_sync : sync (cipher_state (trans t)) (cipher_state (recv r));
  is_zsync : zsync (zstream (trans t)) (zstream (recv r))
}.

(** A receiver between packets. *)
Record rx_idle (r : rx) : Prop := {
  ri_keys : keys_wf (recv r);
  ri_readbuf : readbuf r = None;
  ri_payload : payload r = None;
  ri_live : live (rd_events r)
}.

Lemma mac_of_same (kt kr : keys) seq x : algo_mac kt = algo_mac kr → hash_index kt = hash_index kr →
  mackey kt = mackey kr → mac_of kt seq x = mac_of kr seq x.
Proof. unfold mac_of. by intros -> -> ->. Qed.

(** What the sender packs is what the receiver in step unpacks. *)
Lemma packed_unpacked sync zsync inflating (t : tx) (r : rx) body z : tx_ready t → in_step sync zsync t r →
  (is_compress_trans t = true → zlib_pair zsync inflating ∧ buf_len (writepayload t) < RECV_MAX_PAYLOAD_LEN) →
  packed t = Some (body, z) →
  ∃ zf, unpacked inflating r body (buf_content (writepayload t)) zf ∧ zsync z zf.
Proof.
  intros [Hwf Hlen Hk] [_ _ _ _ _ Hcomp _ Hzs] Hz. unfold packed, unpacked. rewrite <- Hcomp.
  pose proof (buf_content_length _ Hwf) as Hpl. assert (Hpb : Forall is_byte (buf_content (writepayload t))) by apply Forall_take, Hwf.
  destruct (is_compress_trans t); [|intros [= <- <-]; by exists (zstream (recv r))]. destruct (Hz eq_refl) as [Hzp Hmax]. set (room := _ + 1).
  destruct (deflate _ _ room) as [[[rc out] rest] z'] eqn:Ez. destruct ((rc =? Z_OK) && _) eqn:E; [|done].
  apply andb_true_iff in E as [->%Z.eqb_eq Hrest%Z.eqb_eq]. destruct rest; [|cbn in Hrest; lia]. intros [= <- <-].
  pose proof (kw_block _ Hk). pose proof (kw_hash _ Hk). unfold MIN_PACKET_LEN in room.
  destruct (zp_deflate _ _ Hzp _ _ _ _ _ _ Hzs Ez Hpb) as (zf & Hinf & Hzs'); [lia|subst room; lia|]. exists zf. rewrite Hpl. by split_and!.
Qed.

(** A sealed payload is a packet the receiver in step accepts. *)
Lemma sealed_wire sync zsync (t : tx) (r : rx) payload pad bytes c :
  keys_wf (trans t) → keys_wf (recv r) → in_step sync zsync t r → cipher_inverse (trans t) (recv r) sync →
  1 ≤ zlen payload ≤ MAX_PAYLOAD → Forall is_byte payload →
  zlen pad = packet_padlen (blocksize (algo_crypt (trans t))) (5 + zlen payload) → Forall is_byte pad →
  sealed (trans t) (transseq t) payload pad = Some (bytes, c) →
  ∃ clear ct tag d1 d2, bytes = ct ++ tag ∧
    wire_packet (recv r) (recvseq r) payload clear ct tag (cipher_state (recv r)) d1 d2 ∧ sync c d2.
Proof.
  intros Hkt Hkr [Hb Hm Hh Hmk Hseq _ Hsync _] Hinv Hpay Hpb Hpadl Hpadb. change MAX_PAYLOAD with 32789 in *.
  unfold sealed, seal_bytes. rewrite <- Hpadl. set (clear := packet_bytes _ _ _).
  assert (Hcl : zlen clear = 5 + zlen payload + zlen pad) by apply packet_bytes_length.
  destruct (packet_padlen_spec _ (5 + zlen payload) (kw_block _ Hkt) ltac:(unfold BUF_MAX_SIZE; lia))
    as (Hp1 & Hp2 & Hp3 & _). rewrite <- Hpadl in *.
  assert (Hcb : Forall is_byte clear).
  { unfold clear, packet_bytes. rewrite !Forall_app, Forall_singleton. split_and!; [apply STORE32H_bytes|unfold is_byte; lia|done..]. }
  destruct (mac_of _ _ clear) as [d|] eqn:Ed; [|done]. cbn [mbind option_bind].
  destruct (mode_encrypt _ _ clear) as [[ct c']|] eqn:Ee; [|done]. cbn. intros [= <- <-].
  destruct (mac_of_length _ _ _ _ Hkt Ed) as [Hdl Hdb]. destruct (kw_enc _ Hkt _ _ _ _ Ee Hcb) as [Hctl Hctb].
  rewrite Hb in Hp2. rewrite <- Hcl in Hp2, Hp3.
  destruct (Hinv _ _ _ _ _ Hsync Ee Hcb Hp2) as (d1 & d2 & Hd1 & Hd2 & Hs2).
  exists clear, ct, (take (Z.to_nat (hashsize (algo_mac (trans t)))) d), d1, d2. split_and!; [done| |done].
  pose proof (kw_hash _ Hkt). rewrite (mac_of_same _ (recv r)) in Ed by done. rewrite Hseq in Ed.
  split; try done; [exists pad; split_and!; [done|lia|done]|auto with ssh| |].
  - rewrite length_take, <- Hm. lia.
  - exists d. by rewrite <- Hm.
Qed.
(** One packet from the sender to the receiver. *)
Lemma roundtrip_step sync zsync junk (t t' : tx) (r : rx) :
  @genrandom_ok CS ZS HS RS _ → @deflate_ok CS ZS HS RS _ → (∀ i, is_byte (junk i)) → tx_ready t → rx_idle r → in_step sync zsync t r →
  cipher_inverse (trans t) (recv r) sync →
  (is_compress_trans t = true → zlib_inverse zsync ∧ buf_len (writepayload t) < RECV_MAX_PAYLOAD_LEN) →
  dataallowed t || packet_is_okay_kex (tx_type t) = true →
  buf_len (writepayload t) ≤ RECV_MAX_PAYLOAD_LEN →
  encrypt_packet t = Ok (tt, t') →
  ∃ wb c rg z, t' = tx_sent (with_zstream z t) wb c rg ∧
    ∀ rest, stream (rd_events r) = buf_content wb ++ rest →
    ∃ r' pl, read_until junk (S (pending (rd_events r))) r = Ok (tt, r') ∧
      payload r' = Some pl ∧ buf_wf pl ∧ buf_rest pl = buf_content (writepayload t) ∧
      readbuf r' = None ∧ stream (rd_events r') = rest ∧ crypt_mode (recv r') = crypt_mode (recv r) ∧
      blocksize (algo_crypt (recv r')) = blocksize (algo_crypt (recv r)) ∧
      in_step sync zsync t' r' ∧ rx_idle (set_payload None 0 r').
Proof.
  intros Hr Hdef Hj Ht Hri His Hinv Hzi Hok Hmax Henc. pose proof (encrypt_packet_eq t Ht Hr Hdef Hok) as He.
  pose proof (packed_body t) as Hpbody. pose proof (λ infl, packed_unpacked sync zsync infl t r) as Hunp. pose proof Ht as [Hwf Hlen Hkt].
  destruct (packed t) as [[body z]|]; [|destruct He; congruence]. destruct (Hpbody body z Ht Hdef eq_refl) as [Hbb Hbl].
  change RECV_MAX_PAYLOAD_LEN with 32768 in Hmax. change ZLIB_COMPRESS_EXPANSION with 21 in Hbl.
  set (padlen := packet_padlen _ _) in He. destruct (genrandom (rng t) padlen) as [pad rg] eqn:Er.
  assert (Hpadr : 4 ≤ padlen) by (destruct (packet_padlen_spec (blocksize (algo_crypt (trans t))) (5 + zlen body))
    as (? & _); [apply Hkt|unfold BUF_MAX_SIZE; lia|lia]).
  destruct (Hr _ _ _ _ Er ltac:(lia)) as [Hpadl Hpadb].
  destruct (sealed _ _ _ _) as [[bytes c]|] eqn:Es; [|destruct He; congruence].
  destruct He as (wb & (_ & _ & Hwb) & He). rewrite Henc in He. injection He as ->.
  exists wb, c, rg, z. split; [done|]. intros rest Hst. rewrite Hwb in Hst.
  destruct Hri as [Hkr Hrb Hrp Hrl].
  assert (∃ infl zf, (is_compress_recv r = true → zlib_pair zsync infl) ∧ unpacked infl r body (buf_content (writepayload t)) zf ∧ zsync z zf)
    as (infl & zf & Hzp & Hun & Hzs).
  { rewrite <- (is_comp _ _ _ _ His). destruct (is_compress_trans t) eqn:Ec.
    - destruct (Hzi eq_refl) as [[infl Hzp] Hlt]. destruct (Hunp infl body z) as (zf & ? & ?); [done..|]. by exists infl, zf.
    - destruct (Hunp (λ _ _ _ _, False) body z) as (zf & ? & ?); [done..|]. by exists (λ _ _ _ _, False), zf. }
  destruct (sealed_wire sync zsync t r body pad bytes c) as (clear & ct & tag & d1 & d2 & -> & Hw & Hs2);
    [done|done|done|done|change MAX_PAYLOAD with 32789; lia|done|done|done|done|].
  pose proof (twp_read_until r junk Hj zsync infl (buf_content (writepayload t)) body clear ct tag rest _ d1 d2 zf Hkr Hzp Hun Hw
    (S (pending (rd_events r))) r Hrp) as Hrun.
  rewrite twp_iff in Hrun. destruct Hrun as ([] & r' & Hrun & Hrcv & Hpn); [|lia|].
  { assert (Hr0 : rxs r None (cipher_state (recv r)) (rd_events r) = r)
      by (destruct r as [? ? ? [] ? ? ? ?]; cbn in *; unfold rxs; cbn; by rewrite Hrb).
    pose proof (wait_none r clear ct tag rest (cipher_state (recv r)) d1 (rd_events r) Hrl Hst) as Hw0.
    by rewrite Hr0 in Hw0. }
  destruct Hrcv as [i b ev _ _ Hp _|i b ev _ _ _ Hp _|pl m ev Hplwf _ Hplr Hpll Hplst]; [lia..|].
  eexists _, pl. split; [by rewrite Hrun|]. split_and!; [done..| |].
  - destruct His as [Hb Hm Hh Hmk Hseq Hcomp Hsync _]. split; cbn; [done..|by rewrite Hseq|exact Hcomp|done|done].
  - split; [by apply keys_wf_zstream, keys_wf_state|done|done|done].
Qed.

(** ** Replies that waited for the end of a key exchange *)

(** The peer's main loop: read a packet, hand its payload on, free it. *)
Fixpoint recv_all (junk : nat → Z) (n : nat) : M rx (list (list Z)) :=
  match n with
  | O => mret []
  | S n =>
      r ← get;
      read_until junk (S (pending (rd_events r)));;
      r ← get;
      match payload r with
      | None => undefined "no payload"
      | Some pl =>
          put (set_payload None 0 r);;
          ps ← recv_all junk n;
          mret (buf_rest pl :: ps)
      end
  end.

(** Nothing is being built in [writepayload]. *)
Record tx_idle (t : tx) : Prop := {
  ti_wf : buf_wf (writepayload t);
  ti_empty : buf_len (writepayload t) = 0;
  ti_keys : keys_wf (trans t)
}.
Definition reply_ok (t : tx) (b : buffer) : Prop :=
  buf_wf b ∧ 1 ≤ buf_len b < RECV_MAX_PAYLOAD_LEN ∧ buf_len b ≤ buf_size (writepayload t).

Lemma load_reply (t : tx) item : tx_idle t → reply_ok t item →
  ∃ t1, wp_ (buf_putbytes (buf_data item) (buf_len item)) t = Ok (tt, t1) ∧
    t1 = set_writepayload (writepayload t1) t ∧
    buf_content (writepayload t1) = buf_content item ∧ buf_len (writepayload t1) = buf_len item ∧
    buf_size (writepayload t1) = buf_size (writepayload t) ∧ tx_ready t1.
Proof.
  intros [Hwf He Hk] (Hiwf & Hil & Hfit). change RECV_MAX_PAYLOAD_LEN with 32768 in Hil.
  assert (Hpos : buf_pos (writepayload t) = buf_len (writepayload t)) by (buf_facts; lia).
  assert (Hic : zlen (buf_content item) = buf_len item) by (by apply buf_content_length).
  assert (Hbytes : Forall is_byte (buf_content item)) by (apply Forall_take, Hiwf).
  assert (Hw : Writer (buf_putbytes (buf_data item) (buf_len item)) (buf_content item)).
  { apply (writer_store (buf_len item)); [done|unfold U32; lia|done|]. intros b. unfold buf_putbytes.
    apply bind_ext. intros p s. erewrite bind_ok; [done|]. unfold lift. buf_facts. by rewrite mem_load_ok by lia. }
  destruct Hw as [_ Hw]. specialize (Hw _ Hwf Hpos). rewrite Hic, He, (proj2 (Z.leb_le _ _)) in Hw by lia.
  eexists. split; [by apply zoom_ok|]. cbn.
  assert (Hfit' : buf_len (writepayload t) + zlen (buf_content item) ≤ buf_size (writepayload t)) by lia.
  split_and!; [done| |rewrite Hic; lia|done|].
  - change (mkBuf _ _ _ _) with (buf_append (writepayload t) (buf_content item)).
    rewrite buf_content_append by done. unfold buf_content at 1. by rewrite He.
  - split; cbn; [by apply buf_wf_append|rewrite Hic; lia|done].
Qed.

Lemma cleared_wf b : buf_wf b → buf_wf (cleared b).
Proof. intros. buf_facts. split; cbn; [lia|lia|unfold BUF_MAX_SIZE; lia|done|done]. Qed.
Lemma tx_sent_idle (t : tx) wb c rg z : tx_ready t → tx_idle (tx_sent (with_zstream z t) wb c rg).
Proof. intros [Hwf _ Hk]. split; cbn; [by apply cleared_wf|done|by apply keys_wf_state, keys_wf_zstream]. Qed.

(** ** Keys with which every packet can be sent *)

(** [deflate] succeeds, given room for the expansion, on a stream that was set
    up ([ok]), and leaves such a stream. *)
Definition deflates (ok : ZS → Prop) : Prop := ∀ z inp room, ok z → Forall is_byte inp → 1 ≤ zlen inp →
  zlen inp + ZLIB_COMPRESS_EXPANSION ≤ room → ∃ out z', deflate z inp room = (Z_OK, out, [], z') ∧ ok z'.
(** The cipher takes whole blocks, the MAC anything, and the stream was set up
    if there is one. *)
Record keys_ready (ok : ZS → Prop) (k : keys) : Prop := {
  kr_wf : keys_wf k;
  kr_enc : ∀ c x, zlen x mod blocksize (algo_crypt k) = 0 → is_Some (mode_encrypt (crypt_mode k) c x);
  kr_mac : ∀ seq x, is_Some (mac_of k seq x);
  kr_comp : algo_comp k ≠ DROPBEAR_COMP_NONE → ok (zstream k)
}.
Lemma packed_total ok (t : tx) : tx_ready t → deflates ok → keys_ready ok (trans t) →
  ∃ body z, packed t = Some (body, z) ∧ keys_ready ok (set_zstream z (trans t)).
Proof.
  intros [Hwf Hlen Hk] Hd Hkr. pose proof Hkr as [_ He Hm Hc]. unfold packed. pose proof (buf_content_length _ Hwf) as Hpl.
  pose proof (kw_block _ Hk). pose proof (kw_hash _ Hk). destruct (is_compress_trans t) eqn:Ec.
  - assert (Hok : ok (zstream (trans t))).
    { apply Hc. intros E. unfold is_compress_trans in Ec. rewrite E in Ec. cbn in Ec. by rewrite andb_false_r in Ec. }
    set (room := _ + 1). unfold MIN_PACKET_LEN in room.
    destruct (Hd (zstream (trans t)) (buf_content (writepayload t)) room) as (out & z & -> & Hz); [done|apply Forall_take, Hwf|lia|subst room; lia|].
    exists out, z. split; [done|]. split; [by apply keys_wf_zstream|done|done|done].
  - eexists _, _. split; [done|]. by destruct (trans t).
Qed.
Lemma encrypt_total ok (t : tx) : tx_ready t → @genrandom_ok CS ZS HS RS _ → @deflate_ok CS ZS HS RS _ → deflates ok → keys_ready ok (trans t) →
  dataallowed t || packet_is_okay_kex (tx_type t) = true →
  ∃ wb c rg z, encrypt_packet t = Ok (tt, tx_sent (with_zstream z t) wb c rg) ∧
    keys_ready ok (trans (tx_sent (with_zstream z t) wb c rg)).
Proof.
  intros Ht Hr Hdef Hd Hkr Hok. pose proof (encrypt_packet_eq t Ht Hr Hdef Hok) as He.
  destruct (packed_total ok t Ht Hd Hkr) as (body & z & Hp & Hkz). destruct (packed_body t body z Ht Hdef Hp) as [_ Hbl]. rewrite Hp in He.
  destruct Ht as [Hwf Hlen Hk]. change ZLIB_COMPRESS_EXPANSION with 21 in Hbl.
  set (padlen := packet_padlen _ _) in He. destruct (genrandom (rng t) padlen) as [pad rg] eqn:Er.
  destruct (packet_padlen_spec (blocksize (algo_crypt (trans t))) (5 + zlen body) (kw_block _ Hk) ltac:(unfold BUF_MAX_SIZE; lia)) as (Hp1 & Hp2 & _).
  fold padlen in Hp1, Hp2. destruct (Hr _ _ _ _ Er ltac:(lia)) as [Hpadl _].
  unfold sealed, seal_bytes in He. fold padlen in He. set (clear := packet_bytes padlen body pad) in He.
  destruct (kr_mac _ _ Hkr (transseq t) clear) as [d Hd']. destruct (kr_enc _ _ Hkr (cipher_state (trans t)) clear) as [[ct c] Hc].
  { unfold clear. rewrite packet_bytes_length, Hpadl. done. }
  rewrite Hd' in He. cbn [mbind option_bind] in He. rewrite Hc in He. cbn beta iota in He. destruct He as (wb & _ & He). exists wb, c, rg, z. split; [done|].
  cbn. destruct Hkz as [? ? ? ?]. split; [by apply keys_wf_state|done|done|done].
Qed.

Lemma flush_delivers ok sync zsync junk q (t : tx) :
  @genrandom_ok CS ZS HS RS _ → @deflate_ok CS ZS HS RS _ → deflates ok → (∀ i, is_byte (junk i)) →
  tx_idle t → keys_ready ok (trans t) → dataallowed t = true → Forall (reply_ok t) q →
  ∃ t' wbs, flush_loop q t = Ok (tt, t') ∧ writequeue t' = writequeue t ++ wbs ∧
    ∀ r rest, rx_idle r → in_step sync zsync t r → cipher_inverse (trans t) (recv r) sync →
      (is_compress_trans t = true → zlib_inverse zsync) →
      stream (rd_events r) = (wbs ≫= buf_content) ++ rest →
      ∃ r', recv_all junk (length q) r = Ok (buf_content <$> q, r') ∧ stream (rd_events r') = rest ∧
        in_step sync zsync t' r'.
Proof.
  intros Hg Hdef Hd Hj. revert t. induction q as [|item q IH]; intros t Ht Hkr Hal Hq.
  - exists t, []. rewrite app_nil_r. split_and!; [done..|]. intros r rest Hri His _ _ Hst. by exists r.
  - apply Forall_cons in Hq as [Hitem Hq]. cbn [flush_loop].
    destruct (load_reply t item Ht Hitem) as (t1 & E1 & Ht1 & Hc1 & Hl1 & Hs1 & Hr1).
    assert (Hal1 : dataallowed t1 = true) by (by rewrite Ht1).
    destruct (encrypt_total ok t1) as (wb & c & rg & z & Henc & Hkr2); [done..|by rewrite Ht1|by rewrite Hal1|].
    set (t2 := tx_sent (with_zstream z t1) wb c rg) in *.
    destruct (IH t2) as (t' & wbs & Hrun & Hwbs & Hdel); [by apply tx_sent_idle|done|done| |].
    { eapply Forall_impl; [done|]. intros b (? & [? ?] & ?). split_and!; [done..|]. cbn. by rewrite Hs1. }
    exists t', (wb :: wbs). rewrite (bind_ok _ _ _ _ _ E1), (bind_ok _ _ _ _ _ Henc). split; [done|].
    split; [rewrite Hwbs; cbn; rewrite Ht1; cbn; by rewrite <- app_assoc|].
    intros r rest Hri His Hinv Hzi Hst. cbn in Hst. rewrite <- app_assoc in Hst. destruct Hitem as (_ & Hil & _).
    assert (His1 : in_step sync zsync t1 r) by (rewrite Ht1; by destruct His).
    assert (Hcomp : is_compress_trans t1 = is_compress_trans t) by (by rewrite Ht1).
    destruct (roundtrip_step sync zsync junk t1 t2 r) as (wb' & c' & rg' & z' & Eq & Hrt);
      [done..|by rewrite Ht1| |by rewrite Hal1|rewrite Hl1; lia|done|].
    { rewrite Hcomp, Hl1. intros Hc. split; [by apply Hzi|lia]. }
    assert (wb' = wb) as -> by (apply (f_equal writequeue), app_inj_2 in Eq as [_ [=]]; done).
    destruct (Hrt _ Hst) as (r1 & pl & Hr1' & Hpl & _ & Hplr & _ & Hst1 & Hm1 & Hb1 & His2 & Hri2).
    destruct (Hdel (set_payload None 0 r1) rest) as (r' & Hr' & Hst' & His'); [done|by destruct His2| | |done|].
    { intros e d x y e'. cbn. rewrite Hm1, Hb1. rewrite Ht1. apply Hinv. }
    { change (is_compress_trans t2) with (is_compress_trans t1). by rewrite Hcomp. }
    exists r'. split_and!; [|done..]. cbn [length recv_all]. erewrite bind_ok by done.
    rewrite (bind_ok _ _ _ _ _ Hr1'). erewrite bind_ok by done. rewrite Hpl. erewrite bind_ok by done.
    rewrite (bind_ok _ _ _ _ _ Hr'). cbn. by rewrite Hplr, Hc1.
Qed.

(** A handler writes its message into [writepayload] and calls
    [encrypt_packet]; [set_dataallowed] ends the key exchange. *)
Definition send (p : list Z) : M tx () := wp_ (buf_putbytes p (zlen p));; encrypt_packet.
Definition set_dataallowed (b : bool) (s : tx) : tx :=
  mkTx (writepayload s) (writequeue s) (writequeue_len s) (trans s) (transseq s) b (reply_queue s)
    (datatrans s) (tx_authdone s) (last_packet_time_any_sent s) (last_packet_time_idle s)
    (monotonic_now s) (rng s) (sock_out s) (wr_events s).
(** What happens on the transmit side during a key exchange: messages are sent,
    those of the exchange and others, and [switch_keys] installs new keys. *)
Inductive kex_step := KSend (p : list Z) | KSwitch (k : keys).
Definition run_kex_step (e : kex_step) : M tx () :=
  match e with KSend p => send p | KSwitch k => modify (set_trans k) end.
Definition kex_steps (es : list kex_step) : M tx () := foldr (λ e m, run_kex_step e;; m) (mret tt) es.
(** The message, if it has to wait for the end of the exchange, or if not. *)
Definition waits (e : kex_step) : option (list Z) :=
  match e with KSend p => if packet_is_okay_kex (default 0 (head p)) then None else Some p | KSwitch _ => None end.
Definition at_once (e : kex_step) : option (list Z) :=
  match e with KSend p => if packet_is_okay_kex (default 0 (head p)) then Some p else None | KSwitch _ => None end.
Definition kex_step_ok (ok : ZS → Prop) (size : Z) (e : kex_step) : Prop :=
  match e with
  | KSend p => Forall is_byte p ∧ 1 ≤ zlen p < RECV_MAX_PAYLOAD_LEN ∧ zlen p ≤ size
  | KSwitch k => keys_ready ok k
  end.

Lemma run_kex_step_ok ok (t : tx) e : @genrandom_ok CS ZS HS RS _ → @deflate_ok CS ZS HS RS _ → deflates ok →
  tx_idle t → keys_ready ok (trans t) → dataallowed t = false → kex_step_ok ok (buf_size (writepayload t)) e →
  ∃ t1 bs kbs, run_kex_step e t = Ok (tt, t1) ∧ tx_idle t1 ∧ keys_ready ok (trans t1) ∧ dataallowed t1 = false ∧
    buf_size (writepayload t1) = buf_size (writepayload t) ∧
    reply_queue t1 = reply_queue t ++ bs ∧ buf_content <$> bs = option_list (waits e) ∧ Forall (reply_ok t) bs ∧
    writequeue t1 = writequeue t ++ kbs ∧ length kbs = length (option_list (at_once e)).
Proof.
  intros Hg Hdef Hd Ht Hkr Ha He. destruct e as [p|k]; cbn [run_kex_step kex_step_ok] in *.
  2: { exists (set_trans k t), [], []. rewrite !app_nil_r. split_and!; try done. destruct Ht. split; [done|done|apply He]. }
  destruct He as (Hb & Hl & Hfit). set (item := mkBuf p (zlen p) 0 (zlen p)). change RECV_MAX_PAYLOAD_LEN with 32768 in Hl.
  assert (Hi : buf_wf item) by (split; cbn; unfold BUF_MAX_SIZE; done || lia).
  assert (Hc : buf_content item = p) by (unfold buf_content; cbn; rewrite Nat2Z.id; apply firstn_all).
  destruct (load_reply t item Ht) as (t1 & E & Ht1 & Hc1 & Hl1 & Hs1 & Hr1); [split_and!; done || (change RECV_MAX_PAYLOAD_LEN with 32768; cbn; lia)|].
  assert (Htype : tx_type t1 = default 0 (head p)) by (unfold tx_type; by rewrite Hc1, Hc).
  assert (Hk1 : keys_ready ok (trans t1)) by (by rewrite Ht1).
  assert (Ha1 : dataallowed t1 = false) by (by rewrite Ht1). unfold send, waits, at_once.
  change (buf_putbytes p (zlen p)) with (buf_putbytes (buf_data item) (buf_len item)). rewrite (bind_ok _ _ _ _ _ E).
  destruct (packet_is_okay_kex (default 0 (head p))) eqn:Hok.
  - destruct (encrypt_total ok t1) as (wb & c & rg & z & Henc & Hkr2); [done..|by rewrite Htype, Hok, orb_true_r|].
    eexists _, [], [wb]. split; [exact Henc|]. rewrite app_nil_r. split_and!; [by apply tx_sent_idle|done|done|done| |done|done| |done]; cbn; by rewrite Ht1.
  - destruct (encrypt_packet_queued t1) as (b & Hbwf & Hbc & Henc); [done|by rewrite Htype, Hok, Ha1|].
    eexists _, [b], []. split; [exact Henc|]. rewrite app_nil_r. destruct Hr1 as [Hw1 _ Hkw1].
    split_and!; [|done|done|done| | |constructor; [|done]| |done]; cbn; try (by rewrite Ht1).
    + split; cbn; [by apply cleared_wf|done|done].
    + by rewrite Hbc, Hc1, Hc.
    + split; [done|]. pose proof (buf_content_length _ Hbwf) as Hbl. rewrite Hbc, Hc1, Hc in Hbl. change RECV_MAX_PAYLOAD_LEN with 32768. lia.
Qed.
Lemma kex_steps_ok ok es (t : tx) : @genrandom_ok CS ZS HS RS _ → @deflate_ok CS ZS HS RS _ → deflates ok →
  tx_idle t → keys_ready ok (trans t) → dataallowed t = false → Forall (kex_step_ok ok (buf_size (writepayload t))) es →
  ∃ t1 bs kbs, kex_steps es t = Ok (tt, t1) ∧ tx_idle t1 ∧ keys_ready ok (trans t1) ∧ dataallowed t1 = false ∧
    buf_size (writepayload t1) = buf_size (writepayload t) ∧
    reply_queue t1 = reply_queue t ++ bs ∧ buf_content <$> bs = omap waits es ∧ Forall (reply_ok t) bs ∧
    writequeue t1 = writequeue t ++ kbs ∧ length kbs = length (omap at_once es).
Proof.
  intros Hg Hdef Hd. revert t. induction es as [|e es IH]; intros t Ht Hkr Ha Hes.
  { exists t, [], []. by rewrite !app_nil_r. }
  apply Forall_cons in Hes as [He Hes]. cbn [kex_steps foldr].
  destruct (run_kex_step_ok ok t e) as (t1 & bs & kbs & E & Ht1 & Hk1 & Ha1 & Hs1 & Hq1 & Hc1 & Hb1 & Hw1 & Hl1); [done..|].
  destruct (IH t1) as (t2 & bs2 & kbs2 & E2 & Ht2 & Hk2 & Ha2 & Hs2 & Hq2 & Hc2 & Hb2 & Hw2 & Hl2); [done..|by rewrite Hs1|].
  exists t2, (bs ++ bs2), (kbs ++ kbs2). rewrite (bind_ok _ _ _ _ _ E). split_and!; [done..|congruence| | | | |].
  - by rewrite Hq2, Hq1, app_assoc.
  - rewrite fmap_app, Hc1, Hc2. cbn. by destruct (waits e).
  - apply Forall_app. split; [done|]. eapply Forall_impl; [done|]. intros b (? & [? ?] & ?). split_and!; [done..|]. by rewrite <- Hs1.
  - by rewrite Hw2, Hw1, app_assoc.
  - rewrite length_app, Hl1, Hl2. cbn. by destruct (at_once e).
Qed.
End stream.

(** ** A small instance

    A cipher with a counter, a MAC of four bytes, and a compressor that
    disguises its input, to evaluate the definitions on. *)
Fixpoint toy_cipher (f : Z → Z → Z) (c : Z) (l : list Z) : list Z :=
  match l with [] => [] | x :: l => f x c mod 256 :: toy_cipher f (c + 1) l end.
Definition toy_mode : @dropbear_cipher_mode Z :=
  mkMode (λ c l, Some (toy_cipher Z.add c l, c + zlen l)) (λ c l, Some (toy_cipher Z.sub c l, c + zlen l)).
Definition toy_sum (l : list Z) : Z := foldr Z.add 0 l.
#[global] Instance toy_ext : Externals Z Z (list Z) () := {|
  hmac_init _ key := Some key;
  hmac_process h x := Some (h ++ x);
  hmac_done h := Some [toy_sum h mod 256; (toy_sum h / 256) mod 256; zlen h mod 256; 7];
  genrandom r n := (replicate (Z.to_nat n) 0, r);
  deflate z inp room := (Z_OK, (λ x, (x + z) mod 256) <$> take (Z.to_nat room) inp, drop (Z.to_nat room) inp, z);
  inflate z inp room := (Z_OK, (λ x, (x - z) mod 256) <$> take (Z.to_nat room) inp, drop (Z.to_nat room) inp, z)
|}.
Definition toy_keys (comp counter : Z) : @key_context_directional Z Z :=
  mkKeys (mkCipher (Some "toy"%string) 16 16) toy_mode (mkHash (Some "toy"%string) 16 4) 0 comp 5 counter (replicate 64 9).
Definition toy_tx (wp : buffer) (allowed : bool) : @txstate Z Z () :=
  mkTx wp [] 0 (toy_keys DROPBEAR_COMP_ZLIB 3) 0 allowed [] 0 false 0 0 0 tt [] [].
Definition toy_rx (ev : list rdres) : @rxstate Z Z :=
  mkRx None None 0 (toy_keys DROPBEAR_COMP_ZLIB 3) 0 0 false ev.

Lemma toy_cipher_length f c l : length (toy_cipher f c l) = length l.
Proof. revert c. induction l as [|x l IH]; intros c; cbn; [done|]. by rewrite IH. Qed.
Lemma toy_cipher_bytes f c l : Forall is_byte (toy_cipher f c l).
Proof.
  revert c. induction l as [|x l IH]; intros c; cbn; [done|]. apply Forall_cons. split; [|done]. unfold is_byte.
  pose proof (Z.mod_pos_bound (f x c) 256). lia.
Qed.
Lemma toy_cipher_app f c l1 l2 : toy_cipher f c (l1 ++ l2) = toy_cipher f c l1 ++ toy_cipher f (c + zlen l1) l2.
Proof.
  revert c. induction l1 as [|x l1 IH]; intros c; cbn; [by rewrite Z.add_0_r|]. rewrite IH. do 3 f_equal. lia.
Qed.
Lemma byte_undo x c : is_byte x → ((x + c) mod 256 - c) mod 256 = x.
Proof. unfold is_byte. intros. rewrite Zminus_mod_idemp_l. replace (x + c - c) with x by lia. apply Z.mod_small. lia. Qed.
Lemma toy_cipher_undo c l : Forall is_byte l → toy_cipher Z.sub c (toy_cipher Z.add c l) = l.
Proof.
  intros Hl. revert c. induction Hl as [|x l Hx Hl IH]; intros c; cbn; [done|]. by rewrite IH, byte_undo.
Qed.
Lemma toy_keys_wf comp c : keys_wf (toy_keys comp c).
Proof.
  split; [cbn; lia|cbn; unfold MAX_MAC_LEN; lia|cbn; lia|..].
  - intros c0 x y c' [= <- <-] Hx. split; [by rewrite toy_cipher_length|apply toy_cipher_bytes].
  - intros c0 x y c' [= <- <-] Hx. split; [by rewrite toy_cipher_length|apply toy_cipher_bytes].
  - intros key h0 x h1 y h2 d _ _ _ [= <-]. split; [cbn; lia|]. assert (Hm : ∀ n, is_byte (n mod 256)) by
      (intros n; unfold is_byte; pose proof (Z.mod_pos_bound n 256); lia). by repeat (apply Forall_cons; split; [auto|]).
Qed.
Lemma toy_inverse comp c comp' c' : cipher_inverse (toy_keys comp c) (toy_keys comp' c') eq.
Proof.
  intros e d x y e' -> [= <- <-] Hb _. cbn [algo_crypt toy_keys blocksize]. set (n := Z.to_nat 16). clearbody n.
  set (y1 := toy_cipher Z.add d (take n x)). set (d1 := d + zlen (take n x)). set (y2 := toy_cipher Z.add d1 (drop n x)).
  assert (Hy : toy_cipher Z.add d x = y1 ++ y2) by (unfold y1, y2, d1; by rewrite <- toy_cipher_app, take_drop). rewrite Hy.
  exists d1, (d1 + zlen y2). cbn [mode_decrypt crypt_mode toy_keys toy_mode].
  assert (take n (y1 ++ y2) = y1 ∧ drop n (y1 ++ y2) = y2) as [-> ->].
  { assert (Hl1 : length y1 = length (take n x)) by apply toy_cipher_length. assert (Hl2 : length y2 = length (drop n x)) by apply toy_cipher_length.
    rewrite length_take in Hl1. rewrite length_drop in Hl2. destruct (decide (n ≤ length x)%nat).
    - by rewrite take_app_length', drop_app_length' by lia.
    - assert (y2 = []) as -> by (by apply length_zero_iff_nil; lia). rewrite app_nil_r, take_ge, drop_ge by lia. done. }
  unfold y1, y2. rewrite !toy_cipher_undo by auto with ssh. rewrite !toy_cipher_length. split_and!; [done|done|].
  unfold d1. rewrite length_take, length_drop. lia.
Qed.
Lemma toy_genrandom : @genrandom_ok Z Z (list Z) () _.
Proof. intros r n pad r' [= <- <-] Hn. rewrite length_replicate. split; [lia|]. by apply Forall_replicate. Qed.
Lemma mod_bytes (f : Z → Z) l : Forall is_byte ((λ x, f x mod 256) <$> l).
Proof. apply Forall_fmap, Forall_true. intros x. unfold is_byte. cbn. pose proof (Z.mod_pos_bound (f x) 256). lia. Qed.
Lemma toy_inflate : @inflate_ok Z Z (list Z) () _.
Proof.
  intros z inp room r out rest z' [= <- <- <- <-] Hn Hb. rewrite length_fmap, length_take. split_and!; [lia|apply mod_bytes| |].
  - exists (take (Z.to_nat room) inp). by rewrite take_drop.
  - intros _. destruct (decide (length inp ≤ Z.to_nat room)%nat); [left; apply drop_ge; lia|right; lia].
Qed.
Lemma toy_deflate : @deflate_ok Z Z (list Z) () _.
Proof.
  intros z inp room r out rest z' [= <- <- <- <-] Hn Hb. rewrite length_fmap, length_take. change ZLIB_COMPRESS_EXPANSION with 21. split_and!; [lia|apply mod_bytes| |lia].
  exists (take (Z.to_nat room) inp). by rewrite take_drop.
Qed.
Lemma toy_zlib : @zlib_inverse Z Z (list Z) () _ eq.
Proof.
  exists (λ d inp out d', d' = d ∧ out = (λ x, (x - d) mod 256) <$> inp). split.
  - intros e d inp room out e' -> [= <- Hr <-] Hb _ _. exists d. split_and!; [done| |done]. assert (Hlen : (length inp ≤ Z.to_nat room)%nat).
    { apply (f_equal length) in Hr. rewrite length_drop in Hr. cbn in Hr. lia. }
    rewrite take_ge by done. rewrite <- list_fmap_compose. symmetry. rewrite <- (list_fmap_id inp) at 2. apply list_fmap_ext.
    intros i x Hx. cbn. rewrite byte_undo; [done|]. by eapply Forall_lookup_1.
  - intros d inp out d' room r o rest d1 [-> ->] Hroom [= <- <- <- <-]. rewrite length_fmap, length_take. split; [by left|]. split; [lia|].
    exists ((λ x, (x - d) mod 256) <$> drop (Z.to_nat room) inp). rewrite <- fmap_app, take_drop. split_and!; [done..|].
    intros Hlt. rewrite drop_ge by lia. done.
Qed.
Lemma toy_deflates : @deflates Z Z (list Z) () _ (λ _, True).
Proof.
  intros z inp room _ Hb Hl Hroom. change ZLIB_COMPRESS_EXPANSION with 21 in Hroom. eexists _, _. split; [|done]. cbn. by rewrite drop_ge by lia.
Qed.
Lemma toy_keys_ready comp c : keys_ready (λ _, True) (toy_keys comp c).
Proof. split; [apply toy_keys_wf|by eexists|by eexists|done]. Qed.
Lemma toy_in_step wp allowed ev : in_step eq eq (toy_tx wp allowed) (toy_rx ev).
Proof. by split. Qed.
Lemma toy_rx_idle ev : live ev → rx_idle (toy_rx ev).
Proof. intros. split; try done. apply toy_keys_wf. Qed.

Definition run_state {S A} (m : M S A) (s : S) : S := match m s with Ok (_, s') => s' | _ => s end.

(** An [SSH_MSG_IGNORE] of five bytes; its packet is read in three pieces
    around an interruption. *)
Definition ignore_tx : @txstate Z Z () := toy_tx (mkBuf [2; 0; 0; 0; 0] 5 5 5) false.
Definition ignore_wire : list Z := writequeue (run_state encrypt_packet ignore_tx) ≫= buf_content.
Definition ignore_rx : @rxstate Z Z :=
  toy_rx [RData (take 3 ignore_wire); RErr true; RData (take 9 (drop 3 ignore_wire)); RData (drop 12 ignore_wire ++ [99])].
Lemma ignore_live : live (rd_events ignore_rx).
Proof.
  assert (H : ∀ bs, bool_decide (bs ≠ [] ∧ Forall is_byte bs) = true → bs ≠ [] ∧ Forall is_byte bs) by (intros bs; apply bool_decide_eq_true_1).
  repeat (apply Forall_cons; split); try (apply H; by vm_compute); done.
Qed.



(** A payload of the largest length that has to be supported is refused when it
    was compressed: the buffer is full, and [buf_decompress] does not wait to
    see that there is no more. *)
Example full_payload_refused :
  let n := Z.to_nat RECV_MAX_PAYLOAD_LEN in
  buf_decompress (λ _, 0) 5 RECV_MAX_PAYLOAD_LEN
    (mkBuf (replicate n 0) RECV_MAX_PAYLOAD_LEN 0 RECV_MAX_PAYLOAD_LEN) = Exit "bad packet, oversized decompressed".
Proof. by vm_compute. Qed.

(** Two messages wait, one of the exchange and new keys come between them. *)
Definition kex_wit : list (@kex_step Z Z) :=
  [KSend [94; 0; 1]; KSend [SSH_MSG_NEWKEYS]; KSwitch (toy_keys DROPBEAR_COMP_ZLIB 77); KSend [93; 7]].

(** ** Writing the queue to the socket *)

(** The bytes of the queue that the socket has not accepted yet. *)
Definition unsent {CS ZS RS} (s : @txstate CS ZS RS) : list Z := writequeue s ≫= buf_rest.
Definition queue_wf {CS ZS RS} (s : @txstate CS ZS RS) : Prop :=
  Forall (λ b, buf_wf b ∧ buf_pos b < buf_len b) (writequeue s).

(** Whatever the socket accepts, refuses or interrupts, [write_packet]
    loses, repeats and reorders nothing: what was accepted followed by what is
    still queued does not change, and [writequeue_len] stays the number of
    queued bytes. *)
Theorem write_packet_stream {CS ZS RS} (s : @txstate CS ZS RS) :
  queue_wf s → writequeue_len s = u32 (zlen (unsent s)) →
  wp write_packet
    (λ _ s', queue_wf s' ∧ sock_out s' ++ unsent s' = sock_out s ++ unsent s ∧
       writequeue_len s' = u32 (zlen (unsent s')) ∧
       sock_out s `prefix_of` sock_out s') s.
Proof.
  intros Hq Hn. unfold write_packet. wp_step. wp_step.
  destruct (writequeue s) as [|wb rest] eqn:Eq; [by apply wp_exit|].
  unfold queue_wf in *. rewrite Eq, Forall_cons in Hq. destruct Hq as [[Hwf Hlt] Hrest].
  pose proof (buf_rest_length wb Hwf) as Hrl. pose proof Hwf as Hwf'. buf_facts.
  assert (Hu : unsent s = buf_rest wb ++ (rest ≫= buf_rest)) by (unfold unsent; by rewrite Eq).
  rewrite i32_small by lia. set (len := buf_len wb - buf_pos wb) in *.
  wp_step. wp_step. rewrite u32_small by (unfold U32; lia).
  wp_step. apply wp_lift. rewrite buf_getptr_eq by (done || unfold U32; lia).
  rewrite (proj2 (Z.leb_le _ _)) by lia. wp_step. apply wp_lift. rewrite (buf_load_eq _ Hwf) by lia.
  rewrite buf_rest_load by lia. rewrite take_ge by lia.
  assert (Hsame : queue_wf s) by (unfold queue_wf; rewrite Eq; by apply Forall_cons).
  destruct (wr_events s) as [|[n|[]] ev] eqn:Eev; [by wp_step| |by wp_step|by apply wp_exit].
  wp_step. wp_step. set (w := Z.max 0 (Z.min n len)). wp_step; [by apply wp_exit|].
  assert (Hw : 0 < w ≤ len) by (bool_lia).
  assert (Hlen' : u32 (writequeue_len s - w) = u32 (zlen (drop (Z.to_nat w) (buf_rest wb) ++ (rest ≫= buf_rest)))).
  { rewrite Hn, Hu. unfold u32. rewrite Zminus_mod_idemp_l. f_equal. rewrite !length_app, length_drop. lia. }
  assert (Hpre : sock_out s `prefix_of` sock_out s ++ take (Z.to_nat w) (buf_rest wb)) by apply prefix_app_r, reflexivity.
  wp_step.
  - wp_step. unfold unsent; cbn. split_and!; [done| |by rewrite Hlen', drop_ge by (bool_lia)|done].
    rewrite take_ge by (bool_lia). rewrite <- app_assoc. f_equal. unfold unsent in Hu. by rewrite Hu.
  - apply wp_exec. apply wp_incrpos; [done|lia|]. intros _ Hwf1. wp_step. unfold unsent; cbn.
    assert (Hadv : buf_rest (set_pos (buf_pos wb + w) wb) = drop (Z.to_nat w) (buf_rest wb)).
    { apply (buf_rest_advance wb Hwf w); lia. }
    rewrite Hadv. split_and!; [|rewrite <- app_assoc, (app_assoc (take _ _)), take_drop; unfold unsent in Hu; by rewrite Hu|done|done].
    apply Forall_cons. split; [split; [done|]|done]. cbn. bool_lia.
Qed.
Lemma write_packet_stream_witness :
  let b := mkBuf [7; 8; 9; 10] 4 1 4 in
  let s := @set_out Z Z () [6; 7] [WCount 2] (set_queue [b] 3 (toy_tx b true)) in
  wp write_packet
    (λ _ s', queue_wf s' ∧ sock_out s' ++ unsent s' = sock_out s ++ unsent s ∧
       writequeue_len s' = u32 (zlen (unsent s')) ∧
       sock_out s `prefix_of` sock_out s') s.
Proof.
  intros b s. apply (write_packet_stream s); [|reflexivity].
  apply Forall_cons. split; [|constructor]. split; [|cbn; lia].
  split; cbn; [lia|lia|unfold BUF_MAX_SIZE; lia|done|repeat constructor; done].
Defined.

(** C11. Receiving is safe and checked.  [W] are the bytes of the current packet
    that the receive side, which began it with the keys [k], has taken from the
    socket so far ([receiving]; none between packets).  For any further bytes,
    chunks, interruptions and errors the socket returns, [read_packet] never
    leaves its buffers, and takes some bytes [new] from the socket.  Either
    there is no payload yet, and the state is again such a state, for [W] and
    [new]; or [W] and [new] are one whole packet of the length its first four
    decrypted bytes say, at most the maximum, the MAC at its end is the MAC of
    the sequence number and of what the rest decrypts to, and the payload,
    which appears together with the next sequence number, is exactly what the
    decrypted packet carries between the padding length and the padding, or
    what [inflate] makes of it. *)
Theorem read_packet_safe {CS ZS HS RS} `{!Externals CS ZS HS RS} junk k W (s : @rxstate CS ZS) :
  @inflate_ok CS ZS HS RS _ → (∀ i, is_byte (junk i)) → rx_wf s → receiving k W s →
  wp (read_packet junk)
    (λ _ s', rx_wf s' ∧ ∃ new, stream (rd_events s) = new ++ stream (rd_events s') ∧
       ((payload s' = payload s ∧ recvseq s' = recvseq s ∧ receiving k (W ++ new) s') ∨
        (readbuf s' = None ∧ zlen (W ++ new) ≤ RECV_MAX_PACKET_LEN ∧
         ∃ packet, decrypts k (W ++ new) packet (cipher_state (recv s')) ∧ accepted s s' packet))) s.
Proof. intros. by apply wp_read_packet. Qed.
(** The first piece of a packet with a MAC. *)
Lemma read_packet_safe_witness :
  receiving (toy_keys DROPBEAR_COMP_ZLIB 3) [] ignore_rx ∧
  wp (read_packet (λ _, 0))
    (λ _ s', rx_wf s' ∧ ∃ new, stream (rd_events ignore_rx) = new ++ stream (rd_events s') ∧
       ((payload s' = None ∧ recvseq s' = 0 ∧ receiving (toy_keys DROPBEAR_COMP_ZLIB 3) new s') ∨
        (readbuf s' = None ∧ zlen new ≤ RECV_MAX_PACKET_LEN ∧
         ∃ packet, decrypts (toy_keys DROPBEAR_COMP_ZLIB 3) new packet (cipher_state (recv s')) ∧ accepted ignore_rx s' packet)))
    ignore_rx.
Proof.
  split; [done|].
  apply (read_packet_safe (λ _, 0) (toy_keys DROPBEAR_COMP_ZLIB 3) [] ignore_rx); [exact toy_inflate|done| |done].
  split; [apply toy_keys_wf|done|]. eapply Forall_impl; [exact ignore_live|]. intros [bs|e]; [by intros [_ ?]|done].
Defined.
(** A changed byte of the MAC ends the session. *)
Example wrong_mac_refused :
  read_until (λ _, 0) 9 (toy_rx [RData (take 19 ignore_wire ++ [8])]) = Exit "Integrity error".
Proof. by vm_compute. Qed.
