(* ===== verification/Timeouts.v ===== *)
(** * Time limits of a session ([common-session.c])

    [select_timeout] and [checktimeouts]: how long the main loop may sleep, and
    what is done when a limit is reached: authentication, a new key exchange,
    keepalives, a session that is idle.  Times are seconds of a monotonic clock
    in a signed type up to [TIME_MAX]; sums and products beyond it are undefined.
    Of the packets that are sent and received only the times and the lengths
    are kept. *)
From S2P Require Import Prelude Ssh Buffer Packet.

Definition KEX_REKEY_TIMEOUT : Z := 3600 * 8.
Definition KEX_REKEY_DATA : Z := 2 ^ 30.
Definition AUTH_TIMEOUT : Z := 300.
Definition DEFAULT_KEEPALIVE_LIMIT : Z := 3.

Inductive notice := NKexinit | NKeepalive.
(** What [ses] holds of times and of the data since the last key exchange. *)
Record timers := mkTimers {
  connect_time : Z;
  remoteident : option (list Z);
  sentkexinit : bool;
  lastkextime : Z;
  datarecv : Z;
  datatrans : Z;
  authdone : bool;
  dataallowed : bool;
  keepalive_recv : Z;
  keepalive_sent : Z;
  any_sent : Z;
  idle : Z;
  notices : list (notice * Z)
}.
Definition set_connect_time (v : Z) (s : timers) : timers :=
  mkTimers v (remoteident s) (sentkexinit s) (lastkextime s) (datarecv s) (datatrans s) (authdone s)
    (dataallowed s) (keepalive_recv s) (keepalive_sent s) (any_sent s) (idle s) (notices s).
Definition set_remoteident (v : option (list Z)) (s : timers) : timers :=
  mkTimers (connect_time s) v (sentkexinit s) (lastkextime s) (datarecv s) (datatrans s)
    (authdone s) (dataallowed s) (keepalive_recv s) (keepalive_sent s) (any_sent s) (idle s)
    (notices s).
Definition set_sentkexinit (v : bool) (s : timers) : timers :=
  mkTimers (connect_time s) (remoteident s) v (lastkextime s) (datarecv s) (datatrans s)
    (authdone s) (dataallowed s) (keepalive_recv s) (keepalive_sent s) (any_sent s) (idle s)
    (notices s).
Definition set_lastkextime (v : Z) (s : timers) : timers :=
  mkTimers (connect_time s) (remoteident s) (sentkexinit s) v (datarecv s) (datatrans s)
    (authdone s) (dataallowed s) (keepalive_recv s) (keepalive_sent s) (any_sent s) (idle s)
    (notices s).
Definition set_datarecv (v : Z) (s : timers) : timers :=
  mkTimers (connect_time s) (remoteident s) (sentkexinit s) (lastkextime s) v (datatrans s)
    (authdone s) (dataallowed s) (keepalive_recv s) (keepalive_sent s) (any_sent s) (idle s)
    (notices s).
Definition set_datatrans (v : Z) (s : timers) : timers :=
  mkTimers (connect_time s) (remoteident s) (sentkexinit s) (lastkextime s) (datarecv s) v
    (authdone s) (dataallowed s) (keepalive_recv s) (keepalive_sent s) (any_sent s) (idle s)
    (notices s).
Definition set_authdone (v : bool) (s : timers) : timers :=
  mkTimers (connect_time s) (remoteident s) (sentkexinit s) (lastkextime s) (datarecv s)
    (datatrans s) v (dataallowed s) (keepalive_recv s) (keepalive_sent s) (any_sent s) (idle s)
    (notices s).
Definition set_dataallowed (v : bool) (s : timers) : timers :=
  mkTimers (connect_time s) (remoteident s) (sentkexinit s) (lastkextime s) (datarecv s)
    (datatrans s) (authdone s) v (keepalive_recv s) (keepalive_sent s) (any_sent s) (idle s)
    (notices s).
Definition set_keepalive_recv (v : Z) (s : timers) : timers :=
  mkTimers (connect_time s) (remoteident s) (sentkexinit s) (lastkextime s) (datarecv s)
    (datatrans s) (authdone s) (dataallowed s) v (keepalive_sent s) (any_sent s) (idle s)
    (notices s).
Definition set_keepalive_sent (v : Z) (s : timers) : timers :=
  mkTimers (connect_time s) (remoteident s) (sentkexinit s) (lastkextime s) (datarecv s)
    (datatrans s) (authdone s) (dataallowed s) (keepalive_recv s) v (any_sent s) (idle s)
    (notices s).
Definition set_any_sent (v : Z) (s : timers) : timers :=
  mkTimers (connect_time s) (remoteident s) (sentkexinit s) (lastkextime s) (datarecv s)
    (datatrans s) (authdone s) (dataallowed s) (keepalive_recv s) (keepalive_sent s) v (idle s)
    (notices s).
Definition set_idle (v : Z) (s : timers) : timers :=
  mkTimers (connect_time s) (remoteident s) (sentkexinit s) (lastkextime s) (datarecv s)
    (datatrans s) (authdone s) (dataallowed s) (keepalive_recv s) (keepalive_sent s) (any_sent s) v
    (notices s).
Definition set_notices (v : list (notice * Z)) (s : timers) : timers :=
  mkTimers (connect_time s) (remoteident s) (sentkexinit s) (lastkextime s) (datarecv s)
    (datatrans s) (authdone s) (dataallowed s) (keepalive_recv s) (keepalive_sent s) (any_sent s)
    (idle s) v.
Section timeouts.
Context (TIME_MAX keepalive_secs idle_timeout_secs : Z).
(** The lengths of the two messages on the wire. *)
Context (kexinit_len keepalive_len : Z).

(** Signed arithmetic. *)
Definition time_checked (v : Z) : outcome Z := if (- TIME_MAX - 1 <=? v) && (v <=? TIME_MAX) then Ok v else UB "signed overflow".

(** ** Messages *)
(** What [encrypt_packet] does to the times: during a key exchange a message
    that is not part of it is only queued, and the answers to keepalives do not
    keep the session from being idle. *)
Definition packet_out (now packet_type len : Z) (c : timers) : timers :=
  if negb (dataallowed c) && negb (packet_is_okay_kex packet_type) then c
  else
    let c := set_any_sent now (set_datatrans (u32 (datatrans c + len)) c) in
    if negb (packet_type =? SSH_MSG_REQUEST_FAILURE) && negb (packet_type =? SSH_MSG_UNIMPLEMENTED)
       && negb (packet_type =? SSH_MSG_IGNORE)
    then set_idle now c else c.
Definition send_msg_kexinit (now : Z) (c : timers) : timers :=
  let c := packet_out now SSH_MSG_KEXINIT kexinit_len c in
  set_notices (notices c ++ [(NKexinit, now)]) (set_sentkexinit true (set_dataallowed false c)).
(** A global request; a request on a channel, which is sent when there is one,
    has the same effect on the times. *)
Definition send_msg_keepalive (now : Z) (c : timers) : timers :=
  let old_time_idle := idle c in
  let c := packet_out now SSH_MSG_GLOBAL_REQUEST keepalive_len c in
  set_notices (notices c ++ [(NKeepalive, now)]) (set_idle old_time_idle (set_keepalive_sent now c)).

(** ** Limits *)
Definition check_rekey (now : Z) : M timers () :=
  c ← get;
  when (negb (sentkexinit c) && ((now - lastkextime c >=? KEX_REKEY_TIMEOUT) || (u32 (datarecv c + datatrans c) >=? KEX_REKEY_DATA)))
    (modify (send_msg_kexinit now)).
Definition check_keepalive (now : Z) : M timers () :=
  c ← get;
  when (now - any_sent c >=? keepalive_secs) (modify (send_msg_keepalive now));;
  c ← get;
  when ((now - keepalive_recv c >=? keepalive_secs) && (now - keepalive_sent c >=? keepalive_secs)) (modify (send_msg_keepalive now));;
  c ← get;
  limit ← lift (time_checked (keepalive_secs * DEFAULT_KEEPALIVE_LIMIT));
  when (now - keepalive_recv c >=? limit) (dropbear_exit "Keepalive timeout").
Definition checktimeouts (now : Z) : M timers () :=
  c ← get;
  if negb (connect_time c =? 0) && (now - connect_time c >=? AUTH_TIMEOUT) then dropbear_exit "Timeout before auth"
  else
    match remoteident c with
    | None => mret tt
    | Some _ =>
        check_rekey now;;
        c ← get;
        when ((keepalive_secs >? 0) && authdone c) (check_keepalive now);;
        c ← get;
        when ((idle_timeout_secs >? 0) && (now - idle c >=? idle_timeout_secs)) (dropbear_exit "Idle timeout")
    end.
Definition update_timeout (limit now last_event timeout : Z) : outcome Z :=
  if (last_event >? 0) && (limit >? 0) then at_ ← time_checked (last_event + limit); Ok (Z.min timeout (at_ - now)) else Ok timeout.
Definition select_timeout (now : Z) (c : timers) : outcome Z :=
  timeout ← (if negb (sentkexinit c) then update_timeout KEX_REKEY_TIMEOUT now (lastkextime c) KEX_REKEY_TIMEOUT else Ok KEX_REKEY_TIMEOUT);
  timeout ← (if negb (authdone c) then update_timeout AUTH_TIMEOUT now (connect_time c) timeout else Ok timeout);
  timeout ← (if authdone c then update_timeout keepalive_secs now (Z.max (keepalive_recv c) (keepalive_sent c)) timeout else Ok timeout);
  timeout ← update_timeout idle_timeout_secs now (idle c) timeout;
  Ok (Z.max timeout 0).

(** ** Turns of the main loop *)
(** What happens between two checks: the identification string arrives, packets
    are received, which is only done after that and may complete the
    authentication or a key exchange, and packets are sent. *)
Inductive effect := NoEffect | AuthSuccess | KexStart | NewkeysSent | KexDone.
Inductive activity :=
| Identified (ident : list Z)
| Received (len : Z) (counts : bool) (e : effect)
| Sent (packet_type len : Z).
Definition apply_effect (now : Z) (e : effect) (c : timers) : timers :=
  match e with
  | NoEffect => c
  | AuthSuccess => set_connect_time 0 (set_authdone true c)
  | KexStart => if sentkexinit c then c else send_msg_kexinit now c
  | NewkeysSent => set_dataallowed true c
  | KexDone => set_lastkextime now (set_datarecv 0 (set_datatrans 0 (set_sentkexinit false c)))
  end.
Definition act (now : Z) (a : activity) (c : timers) : timers :=
  match a with
  | Identified i => set_remoteident (Some i) c
  | Received len counts e =>
      match remoteident c with
      | None => c
      | Some _ =>
          let c := set_keepalive_recv now (set_datarecv (u32 (datarecv c + len)) c) in
          apply_effect now e (if counts then set_idle now c else c)
      end
  | Sent packet_type len => packet_out now packet_type len c
  end.
Definition acts (now : Z) (l : list activity) (c : timers) : timers := foldl (λ c a, act now a c) c l.
(** The loop from one check to the next: [select] returns after at most its
    timeout. *)
Definition wake (now delay timeout : Z) : Z := now + Z.min (Z.max delay 0) timeout.
Definition turn (t : list activity * Z) : M (Z * timers) () :=
  s ← get;
  let c := acts s.1 t.1 s.2 in
  timeout ← lift (select_timeout s.1 c);
  let now := wake s.1 t.2 timeout in
  r ← lift (checktimeouts now c);
  put (now, r.2).
Fixpoint turns (ts : list (list activity * Z)) : M (Z * timers) () :=
  match ts with [] => mret tt | t :: ts => turn t;; turns ts end.
(** The times as [common_session_init] and the first [kexinitialise] set them. *)
Definition session_times (now : Z) : timers := mkTimers now None false now 0 0 false true now 0 0 now [].
(** [svr_session] sends the first message of the key exchange before it enters
    the main loop. *)
Definition session_start (now : Z) : Z * timers := (now, send_msg_kexinit now (session_times now)).
End timeouts.

(** ** The limits *)
Section limits.
Context (TIME_MAX keepalive_secs idle_timeout_secs : Z) (Hkeep : 0 ≤ keepalive_secs) (Hidle : 0 ≤ idle_timeout_secs) (Hmul : 3 * keepalive_secs ≤ TIME_MAX).
Context (kexinit_len keepalive_len : Z).
Abbreviation check := (checktimeouts TIME_MAX keepalive_secs idle_timeout_secs kexinit_len keepalive_len).
Abbreviation sleep := (select_timeout TIME_MAX keepalive_secs idle_timeout_secs).

(** Times lie in the past; whoever has authenticated has identified itself. *)
Record sane (now : Z) (c : timers) : Prop := {
  sn_recv : 0 < keepalive_recv c ≤ now;
  sn_sent : 0 ≤ keepalive_sent c ≤ now;
  sn_any : 0 ≤ any_sent c ≤ now;
  sn_kex : 0 < lastkextime c ≤ now;
  sn_idle : 0 < idle c ≤ now;
  sn_auth : if authdone c then connect_time c = 0 ∧ is_Some (remoteident c) else 0 < connect_time c ≤ now
}.
(** No limit has been reached. *)
Record within (now : Z) (c : timers) : Prop := {
  wi_auth : authdone c = false → now < connect_time c + AUTH_TIMEOUT;
  wi_kex : is_Some (remoteident c) → sentkexinit c = false → now < lastkextime c + KEX_REKEY_TIMEOUT;
  wi_alive : authdone c = true → 0 < keepalive_secs → now < keepalive_recv c + 3 * keepalive_secs;
  wi_quiet : authdone c = true → 0 < keepalive_secs → now < Z.max (keepalive_recv c) (keepalive_sent c) + keepalive_secs;
  wi_idle : is_Some (remoteident c) → 0 < idle_timeout_secs → now < idle c + idle_timeout_secs
}.
(** A limit for which the process ends. *)
Definition expired (now : Z) (c : timers) : Prop :=
  (authdone c = false ∧ connect_time c + AUTH_TIMEOUT ≤ now) ∨
  (authdone c = true ∧ 0 < keepalive_secs ∧ keepalive_recv c + 3 * keepalive_secs ≤ now) ∨
  (is_Some (remoteident c) ∧ 0 < idle_timeout_secs ∧ idle c + idle_timeout_secs ≤ now).
Lemma sane_mono now now' c : now ≤ now' → sane now c → sane now' c.
Proof. intros Hn [? ? ? ? ? Ha]. split; try lia. destruct (authdone c); [done|lia]. Qed.
Lemma sane_out now type len c : 0 < now → sane now c → sane now (packet_out now type len c).
Proof. intros Hn Hs. unfold packet_out. case_if; [done|]. destruct Hs as [? ? ? ? ? Ha]. case_if; split; cbn; (done || lia). Qed.
Lemma sane_kexinit now c : 0 < now → sane now c → sane now (send_msg_kexinit kexinit_len now c).
Proof. intros Hn Hs. unfold send_msg_kexinit. pose proof (sane_out now SSH_MSG_KEXINIT kexinit_len c Hn Hs) as [? ? ? ? ? Ha]. by split. Qed.
Lemma sane_keepalive now c : 0 < now → sane now c → sane now (send_msg_keepalive keepalive_len now c).
Proof. intros Hn Hs. unfold send_msg_keepalive. pose proof (sane_out now SSH_MSG_GLOBAL_REQUEST keepalive_len c Hn Hs) as [? ? ? ? ? Ha]. destruct Hs. split; cbn; (done || lia). Qed.
Lemma sane_effect now e c : 0 < now → is_Some (remoteident c) → sane now c → sane now (apply_effect kexinit_len now e c).
Proof.
  intros Hn Hi Hs. destruct e; cbn [apply_effect]; [done| |case_if; [done|by apply sane_kexinit]|by destruct Hs; split|]; destruct Hs as [? ? ? ? ? Ha]; (split; cbn; (done || lia)).
Qed.
Lemma sane_act now a c : 0 < now → sane now c → sane now (act kexinit_len now a c).
Proof.
  intros Hn Hs. destruct a as [i|len cnt e|type len]; cbn [act].
  - destruct Hs as [? ? ? ? ? Ha]. split; cbn; try done. by destruct (authdone c); [destruct Ha|].
  - destruct (remoteident c) as [i|] eqn:Ei; [|done]. apply sane_effect; [done|destruct cnt; cbn; by eexists|]. destruct Hs as [? ? ? ? ? Ha]. destruct cnt; (split; cbn; (done || lia)).
  - by apply sane_out.
Qed.
(** Activity keeps the two limits that need no message. *)
Definition calm (now : Z) (c : timers) : Prop :=
  (authdone c = false → now < connect_time c + AUTH_TIMEOUT) ∧ (authdone c = true → 0 < keepalive_secs → now < keepalive_recv c + 3 * keepalive_secs).
Lemma out_facts now type len c : let c' := packet_out now type len c in
  connect_time c' = connect_time c ∧ remoteident c' = remoteident c ∧ authdone c' = authdone c ∧ keepalive_recv c' = keepalive_recv c ∧
  keepalive_sent c' = keepalive_sent c ∧ sentkexinit c' = sentkexinit c ∧ lastkextime c' = lastkextime c ∧ datarecv c' = datarecv c ∧
  (idle c' = idle c ∨ idle c' = now).
Proof. unfold packet_out. cbn zeta. case_if; [by split_and!; try left|]. case_if; split_and!; try done; cbn; auto. Qed.
Lemma kexinit_facts now c : let c' := send_msg_kexinit kexinit_len now c in
  connect_time c' = connect_time c ∧ remoteident c' = remoteident c ∧ authdone c' = authdone c ∧ keepalive_recv c' = keepalive_recv c ∧
  keepalive_sent c' = keepalive_sent c ∧ sentkexinit c' = true ∧ (idle c' = idle c ∨ idle c' = now).
Proof. unfold send_msg_kexinit. destruct (out_facts now SSH_MSG_KEXINIT kexinit_len c) as (? & ? & ? & ? & ? & ? & ? & ? & ?). by split_and!. Qed.
Lemma calm_same now c c' : connect_time c' = connect_time c → authdone c' = authdone c → keepalive_recv c' = keepalive_recv c → calm now c → calm now c'.
Proof. unfold calm. by intros -> -> ->. Qed.
Lemma calm_act now a c : calm now c → calm now (act kexinit_len now a c).
Proof.
  intros Hc. destruct a as [i|len cnt e|type len]; cbn [act]; [done| |by destruct (out_facts now type len c) as (? & ? & ? & ? & _); eapply calm_same].
  destruct (remoteident c) as [i|] eqn:Ei; [|done]. set (c1 := if cnt then _ else _).
  assert (H1 : calm now c1) by (destruct Hc as [Ha Hk]; unfold c1; destruct cnt; (split; cbn; intros; [auto|lia])).
  assert (Hr : keepalive_recv c1 = now) by (unfold c1; by destruct cnt). destruct e; cbn [apply_effect]; try done.
  - split; cbn; [done|intros; lia].
  - case_if; [done|]. destruct (kexinit_facts now c1) as (? & ? & ? & ? & _). by eapply calm_same.
Qed.
Lemma acts_ok now l c : 0 < now → sane now c → calm now c → sane now (acts kexinit_len now l c) ∧ calm now (acts kexinit_len now l c).
Proof. intros Hn. revert c. induction l as [|a l IH]; intros c Hs Hc; [done|]. cbn. apply IH; [by apply sane_act|by apply calm_act]. Qed.

(** ** The check *)
Lemma keepalive_facts now c : let c' := send_msg_keepalive keepalive_len now c in
  connect_time c' = connect_time c ∧ remoteident c' = remoteident c ∧ authdone c' = authdone c ∧ keepalive_recv c' = keepalive_recv c ∧ keepalive_sent c' = now ∧ sentkexinit c' = sentkexinit c ∧
  idle c' = idle c ∧ lastkextime c' = lastkextime c ∧ datarecv c' = datarecv c.
Proof. unfold send_msg_keepalive. destruct (out_facts now SSH_MSG_GLOBAL_REQUEST keepalive_len c) as (? & ? & ? & ? & ? & ? & ? & ? & ?). by split_and!. Qed.
Record same_peer (c c' : timers) : Prop := {
  sp_connect : connect_time c' = connect_time c;
  sp_ident : remoteident c' = remoteident c;
  sp_auth : authdone c' = authdone c;
  sp_recv : keepalive_recv c' = keepalive_recv c
}.
Record rekeyed (w : Z) (c c' : timers) : Prop := {
  rk_peer : same_peer c c';
  rk_sent : keepalive_sent c' = keepalive_sent c;
  rk_time : sentkexinit c' = false → w < lastkextime c' + KEX_REKEY_TIMEOUT;
  rk_data : KEX_REKEY_DATA ≤ u32 (datarecv c + datatrans c) → sentkexinit c' = true;
  rk_idle : idle c' = idle c ∨ idle c' = w
}.
Lemma check_rekey_ok E w c : 0 < w → sane w c → ewp E (check_rekey kexinit_len w) (λ _ c', sane w c' ∧ rekeyed w c c') c.
Proof.
  intros Hw Hs. unfold check_rekey. ewp_step. ewp_step. destruct (kexinit_facts w c) as (? & ? & ? & ? & ? & ? & ?). cbn zeta in *.
  destruct (negb (sentkexinit c) && _) eqn:Ec; cbn [when]; ewp_step.
  - split; [by apply sane_kexinit|]. split; [by split|done|congruence|done|done].
  - split; [done|]. apply andb_false_iff in Ec. rewrite negb_false_iff, orb_false_iff, !Z.geb_leb, !Z.leb_gt in Ec. split; [by split|done| | |by left].
    + intros Hn. destruct Ec as [|]; [congruence|lia].
    + intros Hd. destruct Ec as [|]; [done|lia].
Qed.
Record kept_alive (w : Z) (c c' : timers) : Prop := {
  ka_peer : same_peer c c';
  ka_kex : sentkexinit c' = sentkexinit c ∧ lastkextime c' = lastkextime c ∧ idle c' = idle c;
  ka_alive : w < keepalive_recv c' + 3 * keepalive_secs;
  ka_quiet : w < Z.max (keepalive_recv c') (keepalive_sent c') + keepalive_secs
}.
Lemma maybe_keepalive E w (b : bool) c Q : 0 < w → sane w c →
  (∀ c', sane w c' → same_peer c c' → sentkexinit c' = sentkexinit c ∧ lastkextime c' = lastkextime c ∧ idle c' = idle c → keepalive_sent c' = (if b then w else keepalive_sent c) → Q tt c') →
  ewp E (when b (modify (send_msg_keepalive keepalive_len w))) Q c.
Proof.
  intros Hw Hs HQ. destruct (keepalive_facts w c) as (? & ? & ? & ? & ? & ? & ? & ? & ?). cbn zeta in *. destruct b; cbn [when]; ewp_step; apply HQ; try done; by apply sane_keepalive.
Qed.
Lemma same_peer_trans c c1 c2 : same_peer c c1 → same_peer c1 c2 → same_peer c c2.
Proof. intros [? ? ? ?] [? ? ? ?]. split; congruence. Qed.
Lemma check_keepalive_ok w c : 0 < w → 0 < keepalive_secs → sane w c →
  ewp (keepalive_recv c + 3 * keepalive_secs ≤ w) (check_keepalive TIME_MAX keepalive_secs keepalive_len w) (λ _ c', sane w c' ∧ kept_alive w c c') c.
Proof.
  intros Hw Hk Hs. unfold check_keepalive. ewp_step. ewp_step. ewp_step. apply maybe_keepalive; [done|done|]. intros c1 S1 P1 (K1 & L1 & I1) _.
  ewp_step. ewp_step. ewp_step. apply maybe_keepalive; [done|done|]. intros c2 S2 P2 (K2 & L2 & I2) Hsent. ewp_step. ewp_step. ewp_step.
  assert (Et : time_checked TIME_MAX (keepalive_secs * DEFAULT_KEEPALIVE_LIMIT) = Ok (3 * keepalive_secs)).
  { unfold time_checked, DEFAULT_KEEPALIVE_LIMIT. rewrite (proj2 (Z.leb_le _ _)), (proj2 (Z.leb_le (keepalive_secs * 3) _)) by lia. cbn. f_equal. lia. }
  rewrite Et. eapply ewp_ok; [reflexivity|]. pose proof (same_peer_trans _ _ _ P1 P2) as P. destruct P2 as [_ _ _ R2]. rewrite Z.geb_leb. destruct (Z.leb_spec (3 * keepalive_secs) (w - keepalive_recv c2)); cbn [when].
  { apply ewp_exit. destruct P as [_ _ _ Hr]. lia. }
  ewp_step. split; [done|]. split; [done|by rewrite K2, L2, I2|lia|]. revert Hsent. rewrite !Z.geb_leb. destruct (Z.leb_spec keepalive_secs (w - keepalive_recv c1)), (Z.leb_spec keepalive_secs (w - keepalive_sent c1)); cbn [andb]; intros; lia.
Qed.
Lemma check_ok w c : 0 < w → sane w c →
  ewp (expired w c) (check w) (λ _ c', sane w c' ∧ within w c' ∧ same_peer c c' ∧
    (is_Some (remoteident c) → KEX_REKEY_DATA ≤ u32 (datarecv c + datatrans c) → sentkexinit c' = true)) c.
Proof.
  intros Hw Hs. unfold checktimeouts. ewp_step. ewp_step. destruct (negb (connect_time c =? 0) && _) eqn:Ec.
  { apply ewp_exit. left. apply andb_true_iff in Ec as [E1 E2]. apply negb_true_iff, Z.eqb_neq in E1. rewrite Z.geb_leb, Z.leb_le in E2. pose proof (sn_auth _ _ Hs) as Ha. destruct (authdone c); [lia|]. split; [done|lia]. }
  assert (Hauth : authdone c = false → w < connect_time c + AUTH_TIMEOUT).
  { intros Ea. pose proof (sn_auth _ _ Hs) as Ha. rewrite Ea in Ha. apply andb_false_iff in Ec as [E1|E2]; [apply negb_false_iff, Z.eqb_eq in E1; lia|rewrite Z.geb_leb, Z.leb_gt in E2; lia]. }
  destruct (remoteident c) as [i|] eqn:Ei.
  2:{ ewp_step. pose proof (sn_auth _ _ Hs) as Ha. destruct (authdone c) eqn:Ea; [rewrite Ei in Ha; by destruct Ha as [_ [? ?]]|]. split; [done|]. split; [|split; [by split|by intros [? ?]]].
      split; rewrite ?Ea; try done; rewrite Ei; by intros [? ?]. }
  ewp_step. eapply ewp_mono; [by apply check_rekey_ok|]. intros [] c1 [S1 [P1 Es1 T1 D1 I1]]. ewp_step. ewp_step. ewp_step.
  apply (ewp_mono _ _ (λ _ c2, sane w c2 ∧ same_peer c1 c2 ∧ (sentkexinit c2 = sentkexinit c1 ∧ lastkextime c2 = lastkextime c1 ∧ idle c2 = idle c1) ∧
    (authdone c2 = true → 0 < keepalive_secs → kept_alive w c1 c2))).
  { destruct (Z.gtb_spec keepalive_secs 0); cbn [andb when]; [|ewp_step; split_and!; try done; lia]. destruct (authdone c1) eqn:Ea; cbn [when].
    - eapply ewp_weaken; [|eapply ewp_mono; [by apply check_keepalive_ok|]].
      + intros Hx. right. left. destruct P1 as [_ _ Pa Pr]. split_and!; [congruence|done|lia].
      + intros [] c2 [S2 K2]. pose proof (ka_peer _ _ _ K2). destruct (ka_kex _ _ _ K2) as (? & ? & ?). by split_and!.
    - ewp_step. split_and!; try done. congruence. }
  intros [] c2 (S2 & P2 & (K2 & L2 & I2) & A2). pose proof (same_peer_trans _ _ _ P1 P2) as P. ewp_step. ewp_step.
  destruct ((idle_timeout_secs >? 0) && _) eqn:Ex; cbn [when].
  { apply ewp_exit. right. right. apply andb_true_iff in Ex as [E1 E2]. apply Z.gtb_lt in E1. rewrite Z.geb_leb, Z.leb_le in E2. rewrite Ei. split_and!; [by eexists|done|]. rewrite I2 in E2. destruct I1; lia. }
  ewp_step. split; [done|]. destruct P as [Pc Pi Pa Pr]. split; [|split; [by split|intros _ Hd; rewrite K2; auto]]. split.
  - rewrite Pa, Pc. done.
  - intros _. rewrite K2, L2. done.
  - intros Ha Hk. by apply A2.
  - intros Ha Hk. by apply A2.
  - intros _ Hi. apply andb_false_iff in Ex as [E1|E2]; [rewrite Z.gtb_ltb, Z.ltb_ge in E1; lia|rewrite Z.geb_leb, Z.leb_gt in E2; lia].
Qed.

(** ** The sleep *)
Lemma update_ok limit now last_event timeout : 0 ≤ limit → 0 ≤ last_event → last_event + limit ≤ TIME_MAX →
  ∃ t, update_timeout TIME_MAX limit now last_event timeout = Ok t ∧ t ≤ timeout ∧ (0 < last_event → 0 < limit → now + t ≤ last_event + limit).
Proof.
  intros Hl He Hm. unfold update_timeout. destruct (Z.gtb_spec last_event 0), (Z.gtb_spec limit 0); cbn [andb]; [|eexists; split; [done|lia]..].
  unfold time_checked. rewrite (proj2 (Z.leb_le _ _)), (proj2 (Z.leb_le (last_event + limit) _)) by lia. eexists. split; [done|]. lia.
Qed.
Lemma sleep_ok now c : sane now c → now + KEX_REKEY_TIMEOUT + keepalive_secs + idle_timeout_secs ≤ TIME_MAX → ∃ t, sleep now c = Ok t ∧ 0 ≤ t ≤ KEX_REKEY_TIMEOUT ∧
  (sentkexinit c = false → now + t ≤ Z.max now (lastkextime c + KEX_REKEY_TIMEOUT)) ∧
  (authdone c = false → now + t ≤ Z.max now (connect_time c + AUTH_TIMEOUT)) ∧
  (authdone c = true → 0 < keepalive_secs → now + t ≤ Z.max now (Z.max (keepalive_recv c) (keepalive_sent c) + keepalive_secs)) ∧
  (0 < idle_timeout_secs → now + t ≤ Z.max now (idle c + idle_timeout_secs)).
Proof.
  intros [Hr Hs _ Hk Hi Ha] Hm. unfold select_timeout. assert (HA : AUTH_TIMEOUT ≤ KEX_REKEY_TIMEOUT) by done. assert (0 < AUTH_TIMEOUT) by done. assert (0 < KEX_REKEY_TIMEOUT) by done.
  assert (H1 : ∃ t1, (if negb (sentkexinit c) then update_timeout TIME_MAX KEX_REKEY_TIMEOUT now (lastkextime c) KEX_REKEY_TIMEOUT else Ok KEX_REKEY_TIMEOUT) = Ok t1 ∧ t1 ≤ KEX_REKEY_TIMEOUT ∧
    (sentkexinit c = false → now + t1 ≤ lastkextime c + KEX_REKEY_TIMEOUT)).
  { destruct (sentkexinit c); cbn [negb]; [by eexists|]. destruct (update_ok KEX_REKEY_TIMEOUT now (lastkextime c) KEX_REKEY_TIMEOUT) as (t & ? & ? & ?); [lia..|]. exists t. split_and!; [done|done|lia]. }
  destruct H1 as (t1 & E1 & L1 & B1). rewrite (obind_ok _ _ _ E1).
  assert (H2 : ∃ t2, (if negb (authdone c) then update_timeout TIME_MAX AUTH_TIMEOUT now (connect_time c) t1 else Ok t1) = Ok t2 ∧ t2 ≤ t1 ∧ (authdone c = false → now + t2 ≤ connect_time c + AUTH_TIMEOUT)).
  { destruct (authdone c); cbn [negb]; [by eexists|]. destruct (update_ok AUTH_TIMEOUT now (connect_time c) t1) as (t & ? & ? & ?); [lia..|]. exists t. split_and!; [done|done|lia]. }
  destruct H2 as (t2 & E2 & L2 & B2). rewrite (obind_ok _ _ _ E2).
  assert (H3 : ∃ t3, (if authdone c then update_timeout TIME_MAX keepalive_secs now (Z.max (keepalive_recv c) (keepalive_sent c)) t2 else Ok t2) = Ok t3 ∧ t3 ≤ t2 ∧
    (authdone c = true → 0 < keepalive_secs → now + t3 ≤ Z.max (keepalive_recv c) (keepalive_sent c) + keepalive_secs)).
  { destruct (authdone c); [|by eexists]. destruct (update_ok keepalive_secs now (Z.max (keepalive_recv c) (keepalive_sent c)) t2) as (t & ? & ? & ?); [lia..|]. exists t. split_and!; [done|done|lia]. }
  destruct H3 as (t3 & E3 & L3 & B3). rewrite (obind_ok _ _ _ E3).
  destruct (update_ok idle_timeout_secs now (idle c) t3) as (t4 & E4 & L4 & B4); [lia..|]. rewrite (obind_ok _ _ _ E4).
  exists (Z.max t4 0). split; [done|]. split; [lia|]. split_and!; intros; [specialize (B1 ltac:(done))|specialize (B2 ltac:(done))|specialize (B3 ltac:(done) ltac:(done))|]; lia.
Qed.

(** ** Runs *)
Abbreviation step := (turn TIME_MAX keepalive_secs idle_timeout_secs kexinit_len keepalive_len).
Abbreviation steps := (turns TIME_MAX keepalive_secs idle_timeout_secs kexinit_len keepalive_len).
(** The moment [w] at which the process ends: a limit is reached, and was not
    slept over.  Silence is noticed between the third and the fourth keepalive. *)
Definition due (now w : Z) (c : timers) : Prop :=
  (authdone c = false ∧ w = connect_time c + AUTH_TIMEOUT) ∨
  (authdone c = true ∧ 0 < keepalive_secs ∧ keepalive_recv c + 3 * keepalive_secs ≤ w < keepalive_recv c + 4 * keepalive_secs) ∨
  (is_Some (remoteident c) ∧ 0 < idle_timeout_secs ∧ idle c + idle_timeout_secs ≤ w ≤ Z.max now (idle c + idle_timeout_secs)).
Definition room (n : nat) (now : Z) : Prop := now + KEX_REKEY_TIMEOUT * (Z.of_nat n + 1) + keepalive_secs + idle_timeout_secs ≤ TIME_MAX.
Record on_time (s : Z * timers) : Prop := {
  ot_pos : 0 < s.1;
  ot_sane : sane s.1 s.2;
  ot_within : within s.1 s.2
}.
(** The process ends at the moment the loop wakes up, and a limit is due then. *)
Definition ends_due (s : Z * timers) (t : list activity * Z) : Prop :=
  let c := acts kexinit_len s.1 t.1 s.2 in
  ∃ timeout, sleep s.1 c = Ok timeout ∧ due s.1 (wake s.1 t.2 timeout) c.
Lemma turn_ok t s n : on_time s → room n s.1 →
  ewp (ends_due s t) (step t)
    (λ _ s', on_time s' ∧ s.1 ≤ s'.1 ≤ s.1 + KEX_REKEY_TIMEOUT ∧
      (let c := acts kexinit_len s.1 t.1 s.2 in is_Some (remoteident c) → KEX_REKEY_DATA ≤ u32 (datarecv c + datatrans c) → sentkexinit s'.2 = true)) s.
Proof.
  destruct s as [now c0], t as [l delay]. intros [Hp Hs Hw] Hroom. cbn [fst snd] in *. unfold room in Hroom. unfold turn. ewp_step. ewp_step. cbn [fst snd].
  destruct (acts_ok now l c0 Hp Hs) as [Sc [Ca Ck]]; [split; apply Hw|]. set (c := acts kexinit_len now l c0) in *. assert (0 < KEX_REKEY_TIMEOUT) by done.
  destruct (sleep_ok now c Sc ltac:(lia)) as (t & Et & Ht & _ & Ba & Bk & Bi). ewp_step. rewrite Et. eapply ewp_ok; [reflexivity|]. set (w := wake now delay t). assert (Hwk : now ≤ w ≤ now + t) by (unfold w, wake; lia).
  ewp_step. apply ewp_run. eapply ewp_weaken; [|eapply ewp_mono; [apply check_ok; [lia|by apply (sane_mono now); [lia|]]|]].
  - intros Hx. exists t. cbn [fst snd]. fold c. split; [exact Et|]. fold w. destruct Hx as [[Ha Hx]|[(Ha & Hk & Hx)|(Hi & H0 & Hx)]].
    + left. split; [done|]. specialize (Ca Ha). specialize (Ba Ha). lia.
    + right. left. specialize (Ck Ha Hk). specialize (Bk Ha Hk). destruct Sc as [? ? _ _ _ _]. split_and!; [done|done|lia|lia].
    + right. right. specialize (Bi H0). split_and!; [done|done|lia|lia].
  - intros [] c' (S' & W' & _ & D'). cbv beta iota. ewp_step. cbn [fst snd]. split; [by split; cbn; [lia|..]|]. split; [lia|done].
Qed.
(** C30. The time limits.  For every run of the main loop from the start of a
    session (packets received and sent, the authentication and key exchanges
    they complete, [select] returning at any time up to its timeout), after each
    check: a client that has not authenticated has been connected for less than
    300 seconds; if no key exchange is under way the keys are less than 8 hours
    old; with keepalives, a peer has been heard within three intervals, and in
    the last interval something was heard or a keepalive sent; with an idle
    limit, a session was not idle that long.  And in the next turn, whatever
    happens, the process ends only if at the moment the loop wakes up ([wake],
    after the sleep that [select_timeout] allowed) a limit has been reached, and
    it was not slept over: the limit of the authentication is reached at exactly
    that moment, silence is noticed within one further interval, and an idle
    session at the limit or, if it had been reached before, at once; and a key
    exchange is started when the data since the last one reaches
    [KEX_REKEY_DATA].  The work between two sleeps takes no time of the clock. *)
Theorem limits_kept t0 ts : 0 < t0 → room (S (length ts)) t0 →
  wp (steps ts) (λ _ s, within s.1 s.2 ∧ ∀ t, let c := acts kexinit_len s.1 t.1 s.2 in
    ewp (∃ timeout, sleep s.1 c = Ok timeout ∧ due s.1 (wake s.1 t.2 timeout) c) (step t)
      (λ _ s', within s'.1 s'.2 ∧ (is_Some (remoteident c) → KEX_REKEY_DATA ≤ u32 (datarecv c + datatrans c) → sentkexinit s'.2 = true)) s)
    (session_start kexinit_len t0).
Proof.
  intros H0 Hroom. assert (Hstart : on_time (session_start kexinit_len t0)).
  { assert (0 < AUTH_TIMEOUT) by done. assert (0 < KEX_REKEY_TIMEOUT) by done.
    split; [done|apply sane_kexinit; [done|]; split; cbn; lia|]. split; cbn; try done; lia. }
  change t0 with (session_start kexinit_len t0).1 in Hroom. revert Hstart Hroom. generalize (session_start kexinit_len t0).
  induction ts as [|t ts IH]; intros s Hs Hroom; cbn [turns].
  - wp_step. split; [apply Hs|]. intros t. eapply ewp_mono; [by apply (turn_ok t s 1)|]. intros [] s' (Hs' & _ & Hd). split; [apply Hs'|done].
  - wp_step. apply (ewp_wp (ends_due s t)). eapply ewp_mono; [by apply (turn_ok t s (S (length (t :: ts))))|]. intros [] s' (Hs' & Hn & _). apply IH; [done|].
    unfold room in *. cbn [length] in Hroom. assert (0 < KEX_REKEY_TIMEOUT) by done. lia.
Qed.
End limits.

(** ** Cases *)
(** With keepalives of 60 seconds, a peer that says nothing after the first key
    exchange and its authentication: keepalives after 60 and 120 seconds, and
    the end at 180. *)
Definition silent_peer : list (list activity * Z) :=
  [([Identified []; Received 300 true NewkeysSent; Sent SSH_MSG_NEWKEYS 16; Received 16 true KexDone; Received 100 true AuthSuccess], 1000); ([], 1000)].
Example keepalives_sent : ∃ s, turns (2 ^ 31 - 1) 60 0 500 80 silent_peer (session_start 500 1000) = Ok (tt, s) ∧ s.1 = 1120 ∧
  notices s.2 = [(NKexinit, 1000); (NKeepalive, 1060); (NKeepalive, 1120)] ∧
  turn (2 ^ 31 - 1) 60 0 500 80 ([], 1000) s = Exit "Keepalive timeout".
Proof. eexists. split; [vm_compute; reflexivity|]. by vm_compute. Qed.
Lemma limits_kept_witness : ∃ s, turns (2 ^ 31 - 1) 60 0 500 80 silent_peer (session_start 500 1000) = Ok (tt, s) ∧ within 60 0 s.1 s.2 ∧
  ∃ timeout, select_timeout (2 ^ 31 - 1) 60 0 s.1 s.2 = Ok timeout ∧ due 60 0 s.1 (wake s.1 1000 timeout) s.2.
Proof.
  pose proof (limits_kept (2 ^ 31 - 1) 60 0 ltac:(lia) ltac:(lia) ltac:(lia) 500 80 1000 silent_peer ltac:(lia) ltac:(vm_compute; discriminate)) as Hw.
  destruct keepalives_sent as (s & E & _ & _ & Ex). exists s. split; [exact E|]. destruct (wp_elim _ _ _ _ _ Hw E) as [Hin Hnext]. split; [exact Hin|].
  specialize (Hnext ([], 1000)). cbv zeta in Hnext. unfold ewp in Hnext. rewrite Ex in Hnext. exact Hnext.
Defined.
(** A client that connects and sends nothing, with an idle limit of 10 seconds:
    the limit is not checked before the identification string has arrived, but
    the main loop no longer sleeps. *)
Example idle_spins : let s := session_start 500 1000 in
  select_timeout (2 ^ 31 - 1) 0 10 1010 s.2 = Ok 0 ∧ checktimeouts (2 ^ 31 - 1) 0 10 500 80 1010 s.2 = Ok (tt, s.2).
Proof. vm_compute. auto. Qed.
(** Data is not transmitted every [keepalive_secs]: after a packet was received
    the loop sleeps for a whole interval. *)
Example keepalive_late : let c := acts 500 1159 [Received 100 true NoEffect] (mkTimers 0 (Some []) true 1000 0 0 true true 1100 1100 1100 1100 []) in
  select_timeout (2 ^ 31 - 1) 60 0 1159 c = Ok 60 ∧ any_sent c = 1100.
Proof. vm_compute. auto. Qed.
(** A [time_t] of 32 bits does not hold three times an admitted interval. *)
Example keepalive_overflows : let c := mkTimers 0 (Some []) true 1000 0 0 true true 1000 1000 1000 1000 [] in
  checktimeouts (2 ^ 31 - 1) 1000000000 0 500 80 1001 c = UB "signed overflow".
Proof. vm_compute. auto. Qed.
