(* ===== verification/Ident.v ===== *)
(** * The identification string ([common-session.c])

    [send_session_identification], [read_session_identification] and
    [ident_readln], which reads the socket a byte at a time and blocks.  What
    [select] and [read] return, and when, is a list of events; [errno] is kept as
    far as it is looked at, since the end of the file does not set it. *)
From S2P Require Import Prelude Ssh Buffer BufferProps Packet Timeouts.

Definition CRLF : list Z := [13; 10].
Definition send_session_identification {CS ZS RS : Type} : M (@txstate CS ZS RS) () :=
  let s := LOCAL_IDENT ++ CRLF in
  writebuf ← lift (buf_new (zlen s + 1));
  writebuf ← lift (exec (buf_putbytes s (zlen s)) writebuf);
  writebuf_enqueue writebuf.

(** A call of [select], and of [read] if the socket is ready. *)
Inductive selected := SelError (eintr : bool) | SelTimeout | ReadError (eintr : bool) | ReadEof | ReadByte (b : Z).
Abbreviation event := ((Z * selected)%type).
(** What a line leaves: the result, [linebuf], the events to come, whether
    [errno] is [EINTR], and the times. *)
Record readln := mkReadln { rl_len : Z; rl_buf : list Z; rl_events : list event; rl_eintr : bool; rl_timers : timers }.
Definition LINEBUF : Z := 256.
Definition store (i v : Z) (buf : list Z) : outcome (list Z) :=
  if (0 <=? i) && (i <? zlen buf) then Ok (<[Z.to_nat i := v]> buf) else UB "linebuf".

Section ident.
Context (TIME_MAX keepalive_secs idle_timeout_secs kexinit_len keepalive_len : Z).
Abbreviation check := (checktimeouts TIME_MAX keepalive_secs idle_timeout_secs kexinit_len keepalive_len).

Definition end_line (pos : Z) (buf : list Z) (evs : list event) (eintr : bool) (c : timers) : outcome readln :=
  buf ← store pos 0 buf; Ok (mkReadln (pos + 1) buf evs eintr c).
Fixpoint readln_loop (count : Z) (evs : list event) (pos : Z) (buf : list Z) (eintr : bool) (c : timers) : outcome readln :=
  if negb (pos <? count - 1) then end_line pos buf evs eintr c
  else
    match evs with
    | [] => UB "blocked"
    | (_, SelError true) :: evs => readln_loop count evs pos buf true c
    | (_, SelError false) :: evs => Ok (mkReadln (-1) buf evs false c)
    | (now, e) :: evs =>
        r ← check now c;
        match e with
        | SelError _ | SelTimeout => readln_loop count evs pos buf eintr r.2
        | ReadError true => readln_loop count evs pos buf true r.2
        | ReadError false => Ok (mkReadln (-1) buf evs false r.2)
        | ReadEof => Ok (mkReadln (-1) buf evs eintr r.2)
        | ReadByte b =>
            if b =? 10 then end_line pos buf evs eintr r.2
            else if b =? 13 then readln_loop count evs pos buf eintr r.2
            else buf ← store pos b buf; readln_loop count evs (pos + 1) buf eintr r.2
        end
    end.
Definition ident_readln (evs : list event) (buf : list Z) (count : Z) (eintr : bool) (c : timers) : outcome readln :=
  if count <? 1 then Ok (mkReadln (-1) buf evs eintr c) else readln_loop count evs 0 buf eintr c.
Definition SSH_ : list Z := bytes_of_string "SSH-".
(** [i] more lines: the last line read, if it is the one. *)
Fixpoint ident_loop (i : nat) (evs : list event) (buf : list Z) (eintr : bool) (c : timers) : outcome (bool * readln) :=
  match i with
  | O => Ok (false, mkReadln 0 buf evs eintr c)
  | S i =>
      r ← ident_readln evs buf LINEBUF eintr c;
      if (rl_len r <? 0) && negb (rl_eintr r) then Ok (false, r)
      else if (rl_len r >=? 4) && bool_decide (take 4 (rl_buf r) = SSH_) then Ok (true, r)
      else ident_loop i (rl_events r) (rl_buf r) (rl_eintr r) (rl_timers r)
  end.
Definition SSH_2 : list Z := bytes_of_string "SSH-2.".
Definition SSH_1_99 : list Z := bytes_of_string "SSH-1.99-".
Definition read_session_identification (evs : list event) (linebuf : list Z) (eintr : bool) (c : timers) : outcome (list event * timers) :=
  d ← ident_loop 50 evs linebuf eintr c;
  if negb d.1 then Exit "Exited normally"
  else
    let ident := take (Z.to_nat (rl_len d.2)) (rl_buf d.2) in
    if negb (strncmp_eq 6 ident SSH_2) && negb (strncmp_eq 9 ident SSH_1_99) then Exit "Incompatible remote version"
    else Ok (rl_events d.2, set_remoteident (Some ident) (rl_timers d.2)).
End ident.

(** ** What is read *)
Definition event_bytes (e : event) : list Z := match e.2 with ReadByte b => [b] | _ => [] end.
Definition bytes_of (evs : list event) : list Z := evs ≫= event_bytes.
(** A line of at most [n] characters, without its end and carriage returns; what
    is longer is the next line. *)
Fixpoint line (n : nat) (bs : list Z) : option (list Z * list Z) :=
  match n with
  | O => Some ([], bs)
  | S n' =>
      (fix go (bs : list Z) : option (list Z * list Z) :=
         match bs with
         | [] => None
         | b :: bs => if b =? 10 then Some ([], bs) else if b =? 13 then go bs else r ← line n' bs; Some (b :: r.1, r.2)
         end) bs
  end.
(** The first of [i] lines that starts as it should. *)
Fixpoint find_ident (i : nat) (bs : list Z) : option (list Z * list Z) :=
  match i with
  | O => None
  | S i => r ← line 255 bs; if bool_decide (SSH_ `prefix_of` r.1) then Some r else find_ident i r.2
  end.
Definition version_ok (l : list Z) : Prop := SSH_2 `prefix_of` l ∨ SSH_1_99 `prefix_of` l.
#[global] Instance version_ok_dec l : Decision (version_ok l).
Proof. unfold version_ok. apply _. Defined.
Lemma line_cr n bs : line (S n) (13 :: bs) = line (S n) bs.
Proof. done. Qed.
Lemma line_char n b bs : b ≠ 10 → b ≠ 13 → line (S n) (b :: bs) = r ← line n bs; Some (b :: r.1, r.2).
Proof. intros H1%Z.eqb_neq H2%Z.eqb_neq. cbn. by rewrite H1, H2. Qed.
Lemma strncmp_prefix lit l : Forall (λ b, b ≠ 0) lit → strncmp_eq (length lit) (l ++ [0]) lit = true ↔ lit `prefix_of` l.
Proof.
  revert l. induction lit as [|b lit IH]; intros l Hl; [split; [intros _; apply prefix_nil|done]|]. apply Forall_cons in Hl as [Hb Hl].
  destruct l as [|a l]; cbn [length strncmp_eq app head tail default from_option id].
  - destruct (Z.eqb_spec 0 b); [congruence|]. split; [done|]. intros [k Hk]. done.
  - destruct (Z.eqb_spec a b) as [->|Hne]; [|split; [done|]; intros [k [=]]; congruence]. rewrite (proj2 (Z.eqb_neq b 0)) by done. rewrite IH by done.
    split; [apply prefix_cons|apply prefix_cons_inv_2].
Qed.

Section props.
Context (TIME_MAX keepalive_secs idle_timeout_secs kexinit_len keepalive_len : Z).
Abbreviation check := (checktimeouts TIME_MAX keepalive_secs idle_timeout_secs kexinit_len keepalive_len).
Abbreviation loop := (readln_loop TIME_MAX keepalive_secs idle_timeout_secs kexinit_len keepalive_len).
Abbreviation readlns := (ident_readln TIME_MAX keepalive_secs idle_timeout_secs kexinit_len keepalive_len).
Abbreviation idents := (ident_loop TIME_MAX keepalive_secs idle_timeout_secs kexinit_len keepalive_len).
Abbreviation identify := (read_session_identification TIME_MAX keepalive_secs idle_timeout_secs kexinit_len keepalive_len).

(** Before the identification only the limit of the authentication is checked. *)
Definition deadline (c : timers) : Z := connect_time c + AUTH_TIMEOUT.
Lemma check_early now c : remoteident c = None → connect_time c ≠ 0 → check now c = if deadline c <=? now then Exit "Timeout before auth" else Ok (tt, c).
Proof.
  intros Hi Hc. unfold checktimeouts. unfold mbind, M_bind, get. rewrite (proj2 (Z.eqb_neq _ _)) by done. cbn [negb andb]. unfold deadline, AUTH_TIMEOUT. rewrite Z.geb_leb.
  destruct (Z.leb_spec 300 (now - connect_time c)), (Z.leb_spec (connect_time c + 300) now); try lia; [done|]. by rewrite Hi.
Qed.
(** An event that ends the wait at the latest. *)
Definition overdue (c : timers) (e : event) : Prop := e.2 ≠ SelError true ∧ deadline c ≤ e.1.
Lemma store_ok i v buf : 0 ≤ i < zlen buf → store i v buf = Ok (<[Z.to_nat i := v]> buf).
Proof. intros Hi. unfold store. rewrite (proj2 (Z.leb_le _ _)), (proj2 (Z.ltb_lt _ _)) by lia. done. Qed.
Lemma take_insert_snoc (buf : list Z) i v : 0 ≤ i < zlen buf → take (Z.to_nat (i + 1)) (<[Z.to_nat i := v]> buf) = take (Z.to_nat i) buf ++ [v].
Proof.
  intros Hi. replace (Z.to_nat (i + 1)) with (S (Z.to_nat i)) by lia. rewrite (take_S_r _ _ v) by (apply list_lookup_insert_eq; lia). by rewrite take_insert_ge.
Qed.
(** What has been read of a line. *)
Definition clean_line (l : list Z) : Prop := Forall (λ b, b ≠ 10 ∧ b ≠ 13) l.
Definition stopped (r : readln) : Prop := rl_len r = -1 ∧ rl_eintr r = false.
Record line_read (count : Z) (c : timers) (r : readln) : Prop := {
  lr_timers : rl_timers r = c;
  lr_events : Exists (overdue c) (rl_events r);
  lr_buf : zlen (rl_buf r) = count;
  lr_line : rl_len r = -1 ∨ ∃ l, clean_line l ∧ rl_len r = zlen l + 1 ∧ zlen l ≤ count - 1 ∧ take (Z.to_nat (rl_len r)) (rl_buf r) = l ++ [0]
}.
Lemma end_line_ok count evs pos buf eintr c : 0 ≤ pos ≤ count - 1 → zlen buf = count → clean_line (take (Z.to_nat pos) buf) → Exists (overdue c) evs →
  ∃ r, end_line pos buf evs eintr c = Ok r ∧ line_read count c r.
Proof.
  intros Hp Hl Hc He. unfold end_line. rewrite store_ok by lia. eexists. split; [done|]. split; cbn; [done|done|by rewrite length_insert|]. right. exists (take (Z.to_nat pos) buf). rewrite length_take.
  split_and!; [done|lia|lia|apply take_insert_snoc; lia].
Qed.
Lemma readln_safe count evs pos buf eintr c : remoteident c = None → connect_time c ≠ 0 → 0 ≤ pos ≤ count - 1 → zlen buf = count → clean_line (take (Z.to_nat pos) buf) →
  Exists (overdue c) evs → owp (λ r, stopped r ∨ line_read count c r) (loop count evs pos buf eintr c).
Proof.
  intros Hi Ht. revert pos buf eintr. induction evs as [|[now e] evs IH]; intros pos buf eintr Hp Hl Hc He; [by apply Exists_nil in He|]. cbn [readln_loop].
  destruct (Z.ltb_spec pos (count - 1)) as [Hlt|Hge]; cbn [negb]; [|destruct (end_line_ok count ((now, e) :: evs) pos buf eintr c) as (r & -> & Hr); [done..|by right]].
  assert (Hrest : e ≠ SelError true → (deadline c <=? now) = false → Exists (overdue c) evs).
  { intros Hne Hd%Z.leb_gt. apply Exists_cons in He as [[_ Ho]|]; [cbn in Ho; lia|done]. }
  destruct e as [[]| |[]| |b]; [apply IH; try done; by apply Exists_cons in He as [[? _]|]|by left|..]; rewrite check_early by done; destruct (deadline c <=? now) eqn:Hd; try done; specialize (Hrest ltac:(done) eq_refl); cbn [mbind outcome_bind obind snd].
  - by apply IH.
  - by apply IH.
  - by left.
  - destruct eintr; [|by left]. right. split; cbn; auto.
  - destruct (Z.eqb_spec b 10); [destruct (end_line_ok count evs pos buf eintr c) as (r & -> & Hr); [done..|by right]|]. destruct (Z.eqb_spec b 13); [by apply IH|].
    rewrite store_ok by lia. cbn [mbind outcome_bind obind]. apply IH; [lia|by rewrite length_insert| |done]. rewrite take_insert_snoc by lia. apply Forall_app_2; [done|by apply Forall_singleton].
Qed.
Lemma starts_prefix (l : list Z) : (zlen l + 1 >=? 4) && bool_decide (take 4 (l ++ [0]) = SSH_) = bool_decide (SSH_ `prefix_of` l).
Proof.
  symmetry. destruct (decide (SSH_ `prefix_of` l)) as [Hp|Hn].
  - rewrite bool_decide_eq_true_2 by done. destruct Hp as [k ->]. symmetry. apply andb_true_iff. split; [rewrite Z.geb_leb, Z.leb_le, length_app; cbn; lia|]. by apply bool_decide_eq_true_2.
  - rewrite bool_decide_eq_false_2 by done. symmetry. apply andb_false_iff. right. apply bool_decide_eq_false_2. intros E. destruct Hn. destruct l as [|a [|b [|d [|e l]]]]; try discriminate E. cbn in E. injection E as -> -> -> ->. by exists l.
Qed.
Lemma ident_loop_safe i evs buf eintr c : remoteident c = None → connect_time c ≠ 0 → zlen buf = LINEBUF → Exists (overdue c) evs →
  owp (λ d, d.1 = true → rl_timers d.2 = c ∧ ∃ l, clean_line l ∧ rl_len d.2 = zlen l + 1 ∧ zlen l ≤ 255 ∧ SSH_ `prefix_of` l ∧ take (Z.to_nat (rl_len d.2)) (rl_buf d.2) = l ++ [0]) (idents i evs buf eintr c).
Proof.
  intros Hi Ht. revert evs buf eintr. induction i as [|i IH]; intros evs buf eintr Hl He; cbn [ident_loop]; [done|]. apply owp_bind. unfold ident_readln. change (LINEBUF <? 1) with false. cbv iota.
  eapply owp_mono; [apply (readln_safe LINEBUF); [done|done|by unfold LINEBUF; lia|done|apply Forall_nil_2|done]|]. intros r [[-> ->]|Hr]; [done|].
  destruct Hr as [Et Hev Hb Hline]. rewrite Et. destruct ((rl_len r <? 0) && _); [done|]. assert (Hgo : owp (λ d : bool * readln, d.1 = true → _) (idents i (rl_events r) (rl_buf r) (rl_eintr r) c)) by (by apply IH).
  destruct Hline as [E|(l & Hcl & Elen & Hle & Htk)]; [by rewrite E|].
  assert (E4 : (rl_len r >=? 4) = true → take 4 (rl_buf r) = take 4 (l ++ [0])) by (rewrite Z.geb_leb, Z.leb_le; intros; rewrite <-Htk, take_take; f_equal; lia).
  pose proof (starts_prefix l) as Hs. rewrite <-Elen in Hs. destruct (rl_len r >=? 4); cbn [andb] in *; [|done]. rewrite (E4 eq_refl), Hs. destruct (bool_decide (SSH_ `prefix_of` l)) eqn:Ep; [|done].
  apply bool_decide_eq_true in Ep. intros _. split; [done|]. exists l. unfold LINEBUF in Hle. split_and!; [done|done|lia|done|done].
Qed.

(** ** What is accepted *)
(** Events that neither end the connection nor come too late. *)
Definition usual (c : timers) (e : event) : Prop :=
  e.1 < deadline c ∧ match e.2 with SelError eintr | ReadError eintr => eintr = true | ReadEof => False | SelTimeout | ReadByte _ => True end.
Record got_line (count : Z) (c : timers) (pre l tl : list Z) (r : readln) : Prop := {
  gl_timers : rl_timers r = c;
  gl_usual : Forall (usual c) (rl_events r);
  gl_rest : bytes_of (rl_events r) = tl;
  gl_buf : zlen (rl_buf r) = count;
  gl_len : rl_len r = zlen (pre ++ l) + 1;
  gl_line : take (Z.to_nat (rl_len r)) (rl_buf r) = pre ++ l ++ [0]
}.
Lemma end_line_got count evs pos buf eintr c : 0 ≤ pos ≤ count - 1 → zlen buf = count → Forall (usual c) evs →
  ∃ r, end_line pos buf evs eintr c = Ok r ∧ got_line count c (take (Z.to_nat pos) buf) [] (bytes_of evs) r.
Proof.
  intros Hp Hl He. unfold end_line. rewrite store_ok by lia. eexists. split; [done|]. split; cbn; [done|done|done|by rewrite length_insert| |].
  - rewrite app_nil_r, length_take. lia.
  - apply take_insert_snoc. lia.
Qed.
Lemma readln_line count n evs pos buf eintr c l tl : remoteident c = None → connect_time c ≠ 0 → 0 ≤ pos → pos + Z.of_nat n = count - 1 → zlen buf = count → Forall (usual c) evs →
  line n (bytes_of evs) = Some (l, tl) → ∃ r, loop count evs pos buf eintr c = Ok r ∧ got_line count c (take (Z.to_nat pos) buf) l tl r.
Proof.
  intros Hi Ht. revert n pos buf eintr l. induction evs as [|[now e] evs IH]; intros n pos buf eintr l Hp Hn Hl He Eline.
  { destruct n as [|n]; [|done]. injection Eline as <- <-. cbn [readln_loop]. rewrite (proj2 (Z.ltb_ge _ _)) by lia. apply end_line_got; [lia|done|done]. }
  destruct n as [|n].
  { injection Eline as <- <-. cbn [readln_loop]. rewrite (proj2 (Z.ltb_ge _ _)) by lia. apply end_line_got; [lia|done|done]. }
  apply Forall_cons in He as [[Hd He'] He]. cbn [fst snd] in *. cbn [readln_loop]. rewrite (proj2 (Z.ltb_lt _ _)) by lia. cbn [negb].
  assert (Hchk : check now c = Ok (tt, c)) by (rewrite check_early, (proj2 (Z.leb_gt _ _)) by done; done).
  destruct e as [[]| |[]| |b]; try done; rewrite ?Hchk; cbn [mbind outcome_bind obind snd]; [by apply (IH (S n))..|].
  change (bytes_of ((now, ReadByte b) :: evs)) with (b :: bytes_of evs) in Eline. destruct (Z.eqb_spec b 10) as [->|H10]; [injection Eline as <- <-; apply end_line_got; [lia|done|done]|].
  destruct (Z.eqb_spec b 13) as [->|H13]; [rewrite line_cr in Eline; by apply (IH (S n))|]. rewrite line_char in Eline by done. destruct (line n (bytes_of evs)) as [[l' tl']|] eqn:El; [|done]. injection Eline as <- <-.
  rewrite store_ok by lia. cbn [mbind outcome_bind obind]. destruct (IH n (pos + 1) (<[Z.to_nat pos := b]> buf) eintr l') as (r & E & [? ? ? ? Hlen Hline]); [lia|lia|by rewrite length_insert|done|done|].
  exists r. split; [done|]. rewrite take_insert_snoc, <-!app_assoc in Hline, Hlen by lia. by split.
Qed.
Lemma ident_loop_finds i evs buf eintr c l tl : remoteident c = None → connect_time c ≠ 0 → zlen buf = LINEBUF → Forall (usual c) evs → find_ident i (bytes_of evs) = Some (l, tl) →
  ∃ r, idents i evs buf eintr c = Ok (true, r) ∧ got_line LINEBUF c [] l tl r.
Proof.
  intros Hi Ht. revert evs buf eintr. induction i as [|i IH]; intros evs buf eintr Hl He Ef; [done|]. cbn [find_ident ident_loop] in *. destruct (line 255 (bytes_of evs)) as [[l1 tl1]|] eqn:El; [|done]. cbn [mbind option_bind fst snd] in Ef.
  unfold ident_readln. change (LINEBUF <? 1) with false. cbv iota. destruct (readln_line LINEBUF 255 evs 0 buf eintr c l1 tl1) as (r & E & Hg); [done|done|done|done|done|done|done|].
  rewrite (obind_ok _ _ _ E). change (take (Z.to_nat 0) buf) with (@nil Z) in Hg. pose proof Hg as [Et Hu Hrest Hb Hlen Hline]. cbn [app] in Hlen, Hline. rewrite (proj2 (Z.ltb_ge (rl_len r) 0)) by lia. cbn [andb].
  assert (E4 : (rl_len r >=? 4) && bool_decide (take 4 (rl_buf r) = SSH_) = bool_decide (SSH_ `prefix_of` l1)).
  { rewrite <-starts_prefix, Hlen, Z.geb_leb. destruct (Z.leb_spec 4 (zlen l1 + 1)); cbn [andb]; [|done]. by rewrite <-Hline, take_take, (Nat.min_l 4) by lia. }
  rewrite E4. destruct (bool_decide (SSH_ `prefix_of` l1)); [injection Ef as <- <-; by exists r|]. rewrite Et. subst tl1. by apply IH.
Qed.
(** C31. The identification string of the client.  Whatever arrives, and however
    [select] and [read] fail, the read stays inside its buffer of 256 bytes and
    ends, at the latest when the time for the authentication is over; if the
    session goes on, the string is a line of at most 255 characters without
    line ends that starts with [SSH-2.] or [SSH-1.99-].  And if nothing goes wrong
    before that time, the string is the first of at most 50 lines that starts
    with [SSH-], whatever pieces it arrives in, and the bytes after that line are
    left for the first packet. *)
Theorem identification evs linebuf eintr c : remoteident c = None → connect_time c ≠ 0 → zlen linebuf = LINEBUF →
  (Exists (overdue c) evs →
    owp (λ r, ∃ l, r.2 = set_remoteident (Some (l ++ [0])) c ∧ zlen l ≤ 255 ∧ clean_line l ∧ version_ok l) (identify evs linebuf eintr c)) ∧
  (∀ l tl, Forall (usual c) evs → find_ident 50 (bytes_of evs) = Some (l, tl) →
    if decide (version_ok l) then ∃ rest, identify evs linebuf eintr c = Ok (rest, set_remoteident (Some (l ++ [0])) c) ∧ bytes_of rest = tl
    else identify evs linebuf eintr c = Exit "Incompatible remote version").
Proof.
  intros Hi Ht Hl. assert (Hver : ∀ l, negb (strncmp_eq 6 (l ++ [0]) SSH_2) && negb (strncmp_eq 9 (l ++ [0]) SSH_1_99) = negb (bool_decide (version_ok l))).
  { intros l. rewrite <-negb_orb. f_equal. apply eq_bool_prop_intro. rewrite bool_decide_spec, orb_True, !Is_true_true. unfold version_ok. change 9%nat with (length SSH_1_99). change (strncmp_eq 6) with (strncmp_eq (length SSH_2)).
    rewrite !strncmp_prefix by (apply (bool_decide_unpack _); by vm_compute). reflexivity. }
  split.
  - intros He. unfold read_session_identification. apply owp_bind. eapply owp_mono; [by apply ident_loop_safe|]. intros [[] r] Hr; cbn [fst snd negb] in *; [|done].
    destruct (Hr eq_refl) as (Et & l & Hc & Hlen & Hle & _ & Htk). rewrite Htk, Hver. destruct (bool_decide (version_ok l)) eqn:Ev; cbn [negb]; [|done]. apply bool_decide_eq_true in Ev. exists l. rewrite Et. by split_and!.
  - intros l tl He Ef. unfold read_session_identification. destruct (ident_loop_finds 50 evs linebuf eintr c l tl Hi Ht Hl He Ef) as (r & E & [Et _ Hrest _ _ Hline]). rewrite (obind_ok _ _ _ E). cbn [fst snd negb]. cbn [app] in Hline. rewrite Hline, Hver, Et.
    case_decide as Hv; [rewrite bool_decide_eq_true_2 by done|by rewrite bool_decide_eq_false_2 by done]. cbn [negb]. by eexists.
Qed.
End props.

(** ** Cases *)
Definition typed (t : Z) (s : string) : list event := (λ b, (t, ReadByte b)) <$> bytes_of_string s.
Definition wit_events : list event :=
  (1001, SelTimeout) :: typed 1002 "Welcome" ++ [(1003, SelError true); (1003, ReadByte 13); (1003, ReadByte 10)] ++ typed 1004 "SSH-2.0-x" ++ [(1005, ReadError true); (1005, ReadByte 13); (1006, ReadByte 10); (1006, ReadByte 0)].
Lemma identification_witness : let c := (session_start 500 1000).2 in
  ∃ rest, read_session_identification (2 ^ 31 - 1) 0 0 500 80 wit_events (replicate 256 0) false c = Ok (rest, set_remoteident (Some (bytes_of_string "SSH-2.0-x" ++ [0])) c) ∧ bytes_of rest = [0].
Proof.
  intros c. destruct (identification (2 ^ 31 - 1) 0 0 500 80 wit_events (replicate 256 0) false c) as [_ H]; [reflexivity|discriminate|reflexivity|].
  apply (H (bytes_of_string "SSH-2.0-x") [0]); [|reflexivity]. apply (Forall_impl (λ e, e.1 < 1300 ∧ match e.2 with SelError eintr | ReadError eintr => eintr = true | ReadEof => False | SelTimeout | ReadByte _ => True end)); [|done].
  unfold wit_events, typed. cbn. repeat (apply Forall_cons; split; [cbn; split; (lia || done)|]). apply Forall_nil_2.
Defined.
(** The local string is the first thing in the queue. *)
Lemma send_identification {CS ZS RS} (s : @txstate CS ZS RS) : ∃ b, send_session_identification s = Ok (tt, set_queue (writequeue s ++ [b]) (u32 (writequeue_len s + 26)) s) ∧ buf_rest b = LOCAL_IDENT ++ CRLF.
Proof. eexists. split; reflexivity. Qed.
(** The end of the file with [errno] left at [EINTR] by an earlier call is
    taken for an interrupted read, and tried again. *)
Example eof_tried_again : let c := (session_start 500 1000).2 in
  ∃ r, ident_loop (2 ^ 31 - 1) 0 0 500 80 50 ((1001, ReadError true) :: replicate 50 (1001, ReadEof)) (replicate 256 0) false c = Ok (false, r) ∧ rl_events r = [].
Proof. eexists. split; [vm_compute; reflexivity|done]. Qed.
