(* ===== verification/Session.v ===== *)
(** * What the message handlers see of the session

    The handlers of [process-packet.c], [common-channel.c], [svr-auth.c] and
    the key exchange read the payload of the current packet ([ses.payload]),
    write a message into [ses.writepayload] and call [encrypt_packet].  For
    them [encrypt_packet] takes the message away: it is appended to the
    messages sent, and [writepayload] is empty again.  [Packet.v] and
    [PacketStream.v] show that the packet layer delivers the messages so handed
    over, in order, to a peer in step ([packet_roundtrip],
    [kex_replies_in_order]).

    [HasIO] is that interface: a component's state has an [msgio] in it. *)
From S2P Require Import Prelude Buffer.

Record msgio := mkIO {
  io_payload : buffer;        (* the packet being processed *)
  io_writepayload : buffer;   (* the message being built *)
  io_sent : list (list Z)     (* messages handed to [encrypt_packet], in order *)
}.
Definition io_set_payload (b : buffer) (i : msgio) : msgio := mkIO b (io_writepayload i) (io_sent i).
Definition io_set_writepayload (b : buffer) (i : msgio) : msgio := mkIO (io_payload i) b (io_sent i).

Class HasIO (S : Type) := {
  get_io : S → msgio;
  set_io : msgio → S → S;
  get_set_io i s : get_io (set_io i s) = i;
  set_set_io i j s : set_io i (set_io j s) = set_io i s;
  set_get_io s : set_io (get_io s) s = s
}.

#[global] Instance msgio_has_io : HasIO msgio.
Proof. refine {| get_io := id; set_io i _ := i |}; done. Defined.

(** No message is being built: [writepayload] is empty. *)
Definition io_idle (i : msgio) : Prop :=
  buf_wf (io_writepayload i) ∧ buf_len (io_writepayload i) = 0.

Section session.
Context {S : Type} `{!HasIO S}.

(** Routines of [buffer.c] on [ses.payload] and on [ses.writepayload]. *)
Definition ses_payload {A} (m : M buffer A) : M S A :=
  zoom get_io set_io (zoom io_payload io_set_payload m).
Definition ses_write {A} (m : M buffer A) : M S A :=
  zoom get_io set_io (zoom io_writepayload io_set_writepayload m).

(** The call of [encrypt_packet], as the handlers see it: the message is taken, and an
    empty message is refused. *)
Definition encrypt_msg : M S () :=
  ses_write (buf_setpos 0);;
  ses_write buf_getbyte;;
  b ← ses_write get;
  i ← gets get_io;
  modify (set_io (mkIO (io_payload i) (io_writepayload i) (io_sent i ++ [buf_content b])));;
  ses_write (buf_setpos 0);;
  ses_write (buf_setlen 0).

Lemma wp_ses_payload {A} (m : M buffer A) (Q : A → S → Prop) s :
  wp m (λ a b, Q a (set_io (io_set_payload b (get_io s)) s)) (io_payload (get_io s)) →
  wp (ses_payload m) Q s.
Proof. intros. by do 2 apply wp_zoom. Qed.
Lemma twp_ses_payload {A} (m : M buffer A) (Q : A → S → Prop) s :
  twp m (λ a b, Q a (set_io (io_set_payload b (get_io s)) s)) (io_payload (get_io s)) →
  twp (ses_payload m) Q s.
Proof. intros. by do 2 apply twp_zoom. Qed.

(** [encrypt_packet] takes what [writepayload] holds. *)
Lemma twp_encrypt_msg (Q : () → S → Prop) s :
  buf_wf (io_writepayload (get_io s)) → 0 < buf_len (io_writepayload (get_io s)) →
  (∀ w, buf_wf w → buf_len w = 0 → buf_size w = buf_size (io_writepayload (get_io s)) →
     Q tt (set_io (mkIO (io_payload (get_io s)) w
       (io_sent (get_io s) ++ [buf_content (io_writepayload (get_io s))])) s)) →
  twp encrypt_msg Q s.
Proof.
  intros Hwf1 Hl1 HQ. set (w1 := io_writepayload (get_io s)) in *. unfold encrypt_msg, ses_write.
  twp_step. do 2 apply twp_zoom. apply twp_setpos; [done|fold w1; lia|]. fold w1. intros Hwf2.
  twp_step. do 2 apply twp_zoom. rewrite !get_set_io. cbn [io_set_writepayload io_writepayload].
  assert (Hr : ∃ c tl, buf_rest (set_pos 0 w1) = c :: tl).
  { destruct (buf_rest (set_pos 0 w1)) eqn:E; [|eauto].
    pose proof (buf_rest_length _ Hwf2) as Hl. rewrite E in Hl. cbn in Hl, Hl1. lia. }
  destruct Hr as (c & tl & Hr).
  refine (twp_reader _ Hwf2 buf_getbyte p_byte _ _ _ (f_equal p_byte Hr) _). intros n Hn Hnf Hwf3 _.
  twp_step. do 2 apply twp_zoom. rewrite !get_set_io. cbn [io_set_writepayload io_writepayload]. do 4 twp_step.
  rewrite !get_set_io. cbn [io_set_writepayload io_writepayload io_payload io_sent]. do 2 twp_step.
  do 2 apply twp_zoom. rewrite !get_set_io. cbn [io_set_writepayload io_writepayload].
  apply twp_setpos; [done|buf_facts; cbn in *; lia|]. intros Hwf4.
  do 2 apply twp_zoom. rewrite !get_set_io. cbn [io_set_writepayload io_writepayload].
  apply twp_setlen; [done|buf_facts; cbn in *; lia|]. intros Hwf5.
  rewrite !set_set_io. cbn [io_set_writepayload io_payload io_sent].
  change (buf_content (buf_advance (set_pos 0 w1) n)) with (buf_content w1).
  by apply HQ.
Qed.

(** A whole message: what the writers append, as the next message sent. *)
Lemma twp_send (op : M buffer ()) enc (Q : () → S → Prop) s `{!Writer op enc} :
  io_idle (get_io s) → enc ≠ [] → zlen enc ≤ buf_size (io_writepayload (get_io s)) →
  (∀ w, buf_wf w → buf_len w = 0 → buf_size w = buf_size (io_writepayload (get_io s)) →
     Q tt (set_io (mkIO (io_payload (get_io s)) w (io_sent (get_io s) ++ [enc])) s)) →
  twp (ses_write op;; encrypt_msg) Q s.
Proof.
  intros [Hwf He] Hne Hfit HQ. destruct Writer0 as [Hb Hw].
  assert (Hpos : buf_pos (io_writepayload (get_io s)) = buf_len (io_writepayload (get_io s))) by (buf_facts; lia).
  specialize (Hw _ Hwf Hpos). rewrite He, (proj2 (Z.leb_le _ _)) in Hw by lia.
  set (w0 := io_writepayload (get_io s)) in *. set (w1 := buf_append w0 enc) in *.
  assert (Hwf1 : buf_wf w1) by (apply buf_wf_append; [done|done|lia]).
  assert (Hc : buf_content w1 = enc).
  { unfold w1. rewrite buf_content_append by (done || lia). unfold buf_content. by rewrite He. }
  assert (Hl1 : buf_len w1 = zlen enc) by (unfold w1; cbn; lia).
  assert (0 < zlen enc) by (destruct enc; [done|cbn; lia]).
  twp_step. do 2 apply twp_zoom. eapply twp_ok; [exact Hw|].
  apply twp_encrypt_msg; rewrite !get_set_io; cbn [io_set_writepayload io_writepayload io_payload io_sent]; [done|lia|].
  intros w ? ? ?. rewrite Hc, set_set_io. by apply HQ.
Qed.

(** A message under construction: [writepayload] holds [enc]. *)
Definition building (enc : list Z) (i : msgio) : Prop :=
  buf_wf (io_writepayload i) ∧ buf_pos (io_writepayload i) = buf_len (io_writepayload i) ∧ buf_content (io_writepayload i) = enc.
Lemma building_idle i : io_idle i → building [] i.
Proof.
  intros [Hb Hl]. split_and!; [done|buf_facts; lia|]. unfold buf_content. by rewrite Hl.
Qed.
Lemma wp_ses_append (op : M buffer ()) enc e (Q : () → S → Prop) s : Writer op e → building enc (get_io s) →
  (∀ w, building (enc ++ e) (io_set_writepayload w (get_io s)) → Q tt (set_io (io_set_writepayload w (get_io s)) s)) →
  wp (ses_write op) Q s.
Proof.
  intros Hw (Hb & Hp & Hc) HQ. do 2 apply wp_zoom. pose proof (writer_bytes (op := op)) as Hbe.
  eapply writer_wp; [done|done|done|]. intros Hfit. apply HQ. split_and!; [apply buf_wf_append; [done|done|lia]|done|].
  cbn [io_set_writepayload io_writepayload]. rewrite buf_content_append by (done || lia). by rewrite Hc.
Qed.
Lemma wp_encrypt_built enc (Q : () → S → Prop) s : building enc (get_io s) → enc ≠ [] →
  (∀ w, io_idle (mkIO (io_payload (get_io s)) w (io_sent (get_io s) ++ [enc])) →
    Q tt (set_io (mkIO (io_payload (get_io s)) w (io_sent (get_io s) ++ [enc])) s)) → wp encrypt_msg Q s.
Proof.
  intros (Hb & Hp & Hc) Hne HQ.
  assert (Hl : 0 < buf_len (io_writepayload (get_io s))).
  { buf_facts. destruct (Z.eq_dec (buf_len (io_writepayload (get_io s))) 0) as [E|]; [|lia].
    unfold buf_content in Hc. rewrite E in Hc. by subst enc. }
  assert (Ht : twp encrypt_msg Q s); [|unfold twp, wp in *; by destruct (encrypt_msg s) as [[]| |]].
  apply twp_encrypt_msg; [done|done|]. intros w Hw Hw0 _. rewrite Hc. by apply HQ.
Qed.
Lemma wp_payload_reader {A} (m : M buffer A) p (Q : A → S → Prop) s : Reader m p → buf_wf (io_payload (get_io s)) →
  (∀ v n, let b := io_payload (get_io s) in 0 ≤ n → buf_pos b + n ≤ buf_len b → buf_wf (buf_advance b n) →
     p (buf_rest b) = Some (v, buf_rest (buf_advance b n)) → Q v (set_io (io_set_payload (buf_advance b n) (get_io s)) s)) →
  wp (ses_payload m) Q s.
Proof. intros Hr Hb HQ. apply wp_ses_payload. eapply reader_wp; [done|done|]. intros. by apply HQ. Qed.
(** The run itself: a field that is there is read, and what follows it is left. *)
Lemma run_payload {A} (m : M buffer A) p s v tl : Reader m p → buf_wf (io_payload (get_io s)) →
  p (buf_rest (io_payload (get_io s))) = Some (v, tl) →
  ∃ b, buf_wf b ∧ buf_rest b = tl ∧ ses_payload m s = Ok (v, set_io (io_set_payload b (get_io s)) s).
Proof.
  intros Hr Hw Hp.
  assert (Ht : twp m (λ a b, a = v ∧ buf_wf b ∧ buf_rest b = tl) (io_payload (get_io s))).
  { eapply twp_reader; [done|exact Hr|exact Hp|]. intros n _ _ Hw' ->. done. }
  apply twp_iff in Ht as (a & b & E & -> & Hb & Hrest). exists b. split; [done|]. split; [done|].
  unfold ses_payload. apply zoom_ok. by rewrite (zoom_ok _ _ _ _ _ _ E).
Qed.
End session.
