(* ===== verification/ProcessPacket.v ===== *)
(** * Packet dispatch ([dropbear/process-packet.c], [svr_packettypes])

    [process_packet] with its fields of the session, over an arbitrary rest of
    the session [X] and an arbitrary table of handlers, and the table of the
    server.  The decision the code takes is compared with a specification of
    which packets reach which handler. *)
From S2P Require Import Prelude Ssh Buffer Session.

Definition MAX_UNAUTH_PACKET_TYPE : Z := SSH_MSG_USERAUTH_PK_OK.

Section process.
Context {X : Type}.

Record pses := mkPses {
  pp_io : msgio;
  lastpacket : Z;
  monotonic_now : Z;
  last_packet_time_keepalive_recv : Z;
  last_packet_time_idle : Z;
  requirenext : Z;
  ignorenext : bool;
  authdone : bool;
  recvseq : Z;
  rest : X
}.
#[global] Instance pses_has_io : HasIO pses.
Proof.
  refine {| get_io := pp_io;
            set_io i s := mkPses i (lastpacket s) (monotonic_now s) (last_packet_time_keepalive_recv s)
                            (last_packet_time_idle s) (requirenext s) (ignorenext s) (authdone s)
                            (recvseq s) (rest s) |}; try done. by intros [].
Defined.
Definition set_lastpacket (t : Z) (s : pses) : pses :=
  mkPses (pp_io s) t (monotonic_now s) (monotonic_now s) (last_packet_time_idle s) (requirenext s)
    (ignorenext s) (authdone s) (recvseq s) (rest s).
Definition set_idle (t : Z) (s : pses) : pses :=
  mkPses (pp_io s) (lastpacket s) (monotonic_now s) (last_packet_time_keepalive_recv s) t (requirenext s)
    (ignorenext s) (authdone s) (recvseq s) (rest s).
Definition set_requirenext (t : Z) (s : pses) : pses :=
  mkPses (pp_io s) (lastpacket s) (monotonic_now s) (last_packet_time_keepalive_recv s)
    (last_packet_time_idle s) t (ignorenext s) (authdone s) (recvseq s) (rest s).
Definition set_ignorenext (b : bool) (s : pses) : pses :=
  mkPses (pp_io s) (lastpacket s) (monotonic_now s) (last_packet_time_keepalive_recv s)
    (last_packet_time_idle s) (requirenext s) b (authdone s) (recvseq s) (rest s).

(** The table: message number and handler, ended by number 0. *)
Definition packettype : Type := Z * M pses ().

Definition recv_unimplemented : M pses () :=
  s ← get;
  ses_write (buf_putbyte SSH_MSG_UNIMPLEMENTED;; buf_putint (u32 (recvseq s - 1)));;
  encrypt_msg.

(** The search for the handler; [None] at the end of the table. *)
Fixpoint find_handler (table : list packettype) (type : Z) : option (M pses ()) :=
  match table with
  | [] => None
  | (t, h) :: table =>
      if t =? 0 then None else if t =? type then Some h else find_handler table type
  end.

(** [out:] frees the payload: what is left of it cannot be read any more. *)
Definition free_payload : M pses () :=
  modify (λ s, set_io (io_set_payload (mkBuf [] 0 0 0) (get_io s)) s).

Definition process_packet (table : list packettype) : M pses () :=
  type ← ses_payload buf_getbyte;
  modify (set_lastpacket type);;
  if (type =? SSH_MSG_IGNORE) || (type =? SSH_MSG_DEBUG) || (type =? SSH_MSG_UNIMPLEMENTED)
  then free_payload
  else if type =? SSH_MSG_DISCONNECT then dropbear_exit "Disconnect received"
  else
    when (negb ((type =? SSH_MSG_GLOBAL_REQUEST) || (type =? SSH_MSG_REQUEST_FAILURE)))
      (modify (λ s, set_idle (monotonic_now s) s));;
    s ← get;
    if negb (requirenext s =? 0) && negb (requirenext s =? type) then
      if (type >=? 1) && (type <=? 49) && negb (type =? SSH_MSG_SERVICE_REQUEST)
         && negb (type =? SSH_MSG_SERVICE_ACCEPT) && negb (type =? SSH_MSG_KEXINIT)
      then recv_unimplemented;; free_payload
      else dropbear_exit "Unexpected packet type"
    else if ignorenext s then modify (set_ignorenext false);; free_payload
    else
      when (negb (requirenext s =? 0) && (requirenext s =? type)) (modify (set_requirenext 0));;
      s ← get;
      if negb (authdone s) && (type >? MAX_UNAUTH_PACKET_TYPE)
      then dropbear_exit "Received message before userauth"
      else
        match find_handler table type with
        | Some handler => handler;; free_payload
        | None => recv_unimplemented;; free_payload
        end.

(** ** The specification: what becomes of a packet *)
Inductive verdict :=
| Ignored                    (* allowed at any time, nothing to do *)
| Disconnect                 (* the peer ends the session *)
| Refused                    (* the session ends *)
| Unimplemented              (* answered with SSH_MSG_UNIMPLEMENTED *)
| Skipped                    (* a wrong first guess of the key exchange *)
| Handled (h : M pses ()).   (* given to its handler *)

(** RFC 4253, section 7.1: what may arrive while a particular message of the
    key exchange is required. *)
Definition transport_generic (type : Z) : bool :=
  (1 <=? type) && (type <=? 49) && negb (type =? SSH_MSG_SERVICE_REQUEST)
  && negb (type =? SSH_MSG_SERVICE_ACCEPT) && negb (type =? SSH_MSG_KEXINIT).

Definition decide_packet (table : list packettype) (s : pses) (type : Z) : verdict :=
  if bool_decide (type ∈ [SSH_MSG_IGNORE; SSH_MSG_DEBUG; SSH_MSG_UNIMPLEMENTED]) then Ignored
  else if type =? SSH_MSG_DISCONNECT then Disconnect
  else
    let wanted := (requirenext s =? 0) || (requirenext s =? type) in
    if negb wanted then (if transport_generic type then Unimplemented else Refused)
    else if ignorenext s then Skipped
    else if negb (authdone s || (type <=? MAX_UNAUTH_PACKET_TYPE)) then Refused
    else match find_handler table type with Some h => Handled h | None => Unimplemented end.

(** The packet is noted, and keeps the session from being idle. *)
Definition seen (type : Z) (s : pses) : pses :=
  let s := set_lastpacket type s in
  if (type =? SSH_MSG_GLOBAL_REQUEST) || (type =? SSH_MSG_REQUEST_FAILURE)
  then s else set_idle (monotonic_now s) s.

(** The state in which a handler runs: what was required has arrived. *)
Definition on_dispatch (type : Z) (s : pses) : pses :=
  let s := seen type s in if requirenext s =? type then set_requirenext 0 s else s.

(** The handlers of the server, and its table ([svr-session.c]). *)
Record svr_handlers := mkHandlers {
  recv_msg_channel_data : M pses ();
  recv_msg_channel_window_adjust : M pses ();
  recv_msg_userauth_request : M pses ();
  recv_msg_service_request : M pses ();
  recv_msg_kexinit : M pses ();
  recv_msg_kexdh_init : M pses ();
  recv_msg_newkeys : M pses ();
  recv_msg_global_request_remotetcp : M pses ();
  recv_msg_channel_request : M pses ();
  recv_msg_channel_open : M pses ();
  recv_msg_channel_eof : M pses ();
  recv_msg_channel_close : M pses ();
  ignore_recv_response : M pses ();
  recv_msg_channel_open_confirmation : M pses ();
  recv_msg_channel_open_failure : M pses ()
}.
Definition svr_packettypes (h : svr_handlers) : list packettype := [
  (SSH_MSG_CHANNEL_DATA, recv_msg_channel_data h);
  (SSH_MSG_CHANNEL_WINDOW_ADJUST, recv_msg_channel_window_adjust h);
  (SSH_MSG_USERAUTH_REQUEST, recv_msg_userauth_request h);
  (SSH_MSG_SERVICE_REQUEST, recv_msg_service_request h);
  (SSH_MSG_KEXINIT, recv_msg_kexinit h);
  (SSH_MSG_KEXDH_INIT, recv_msg_kexdh_init h);
  (SSH_MSG_NEWKEYS, recv_msg_newkeys h);
  (SSH_MSG_GLOBAL_REQUEST, recv_msg_global_request_remotetcp h);
  (SSH_MSG_CHANNEL_REQUEST, recv_msg_channel_request h);
  (SSH_MSG_CHANNEL_OPEN, recv_msg_channel_open h);
  (SSH_MSG_CHANNEL_EOF, recv_msg_channel_eof h);
  (SSH_MSG_CHANNEL_CLOSE, recv_msg_channel_close h);
  (SSH_MSG_CHANNEL_SUCCESS, ignore_recv_response h);
  (SSH_MSG_CHANNEL_FAILURE, ignore_recv_response h);
  (SSH_MSG_REQUEST_FAILURE, ignore_recv_response h);
  (SSH_MSG_REQUEST_SUCCESS, ignore_recv_response h);
  (SSH_MSG_CHANNEL_OPEN_CONFIRMATION, recv_msg_channel_open_confirmation h);
  (SSH_MSG_CHANNEL_OPEN_FAILURE, recv_msg_channel_open_failure h);
  (0, mret tt)].

Lemma find_handler_elem table type h : find_handler table type = Some h → (type, h) ∈ table ∧ type ≠ 0.
Proof.
  induction table as [|[t h'] table IH]; [done|]. cbn [find_handler].
  destruct (Z.eqb_spec t 0); [done|]. destruct (Z.eqb_spec t type) as [->|].
  - intros [= ->]. split; [constructor|done].
  - intros [? ?]%IH. split; [by constructor|done].
Qed.

Lemma on_dispatch_authdone type s : authdone (on_dispatch type s) = authdone s.
Proof. unfold on_dispatch, seen. by repeat case_if. Qed.

Lemma clear_required type s r : requirenext (seen type s) = r → (r =? 0) || (r =? type) = true →
  when (negb (r =? 0) && (r =? type)) (modify (set_requirenext 0)) (seen type s) =
  Ok (tt, on_dispatch type s).
Proof.
  intros Hr Hw. unfold on_dispatch. rewrite Hr.
  destruct (Z.eqb_spec r 0) as [->|H0]; cbn [negb andb orb] in *; [|by rewrite Hw].
  destruct (Z.eqb_spec 0 type) as [<-|]; [|done]. cbn [when]. unfold mret, M_ret. do 2 f_equal.
  revert Hr. destruct (seen _ s); cbn. by intros ->.
Qed.

(** The packet is one that may come now. *)
Definition wanted (s : pses) (type : Z) : bool := (requirenext s =? 0) || (requirenext s =? type).

Lemma process_packet_run table s type b :
  buf_getbyte (io_payload (pp_io s)) = Ok (type, b) →
  let s1 := set_io (io_set_payload b (pp_io s)) s in
  process_packet table s =
  match decide_packet table s type with
  | Ignored => free_payload (set_lastpacket type s1)
  | Disconnect => Exit "Disconnect received"
  | Refused => Exit (if wanted s type then "Received message before userauth" else "Unexpected packet type")
  | Unimplemented =>
      (recv_unimplemented;; free_payload) (if wanted s type then on_dispatch type s1 else seen type s1)
  | Skipped => free_payload (set_ignorenext false (seen type s1))
  | Handled h => (h;; free_payload) (on_dispatch type s1)
  end.
Proof.
  intros Hb s1. unfold process_packet, decide_packet.
  erewrite bind_ok by (apply zoom_ok, zoom_ok; exact Hb). erewrite bind_ok by done.
  fold s1. set (s2 := set_lastpacket type s1).
  assert (Hany : bool_decide (type ∈ [SSH_MSG_IGNORE; SSH_MSG_DEBUG; SSH_MSG_UNIMPLEMENTED]) =
    (type =? SSH_MSG_IGNORE) || (type =? SSH_MSG_DEBUG) || (type =? SSH_MSG_UNIMPLEMENTED)).
  { apply eq_bool_prop_intro. rewrite bool_decide_spec, !orb_True, !Is_true_true, !Z.eqb_eq. set_solver. }
  rewrite Hany. case_if; [done|]. destruct (Z.eqb_spec type SSH_MSG_DISCONNECT) as [->|Hd]; [done|].
  assert (Hseen : when (negb ((type =? SSH_MSG_GLOBAL_REQUEST) || (type =? SSH_MSG_REQUEST_FAILURE)))
    (modify (λ s, set_idle (monotonic_now s) s)) s2 = Ok (tt, seen type s1)).
  { unfold seen. fold s2. by destruct ((type =? SSH_MSG_GLOBAL_REQUEST) || (type =? SSH_MSG_REQUEST_FAILURE)). }
  rewrite (bind_ok _ _ _ _ _ Hseen). erewrite bind_ok by done.
  assert (Hr : requirenext (seen type s1) = requirenext s ∧ ignorenext (seen type s1) = ignorenext s ∧
    authdone (seen type s1) = authdone s) by (unfold seen; by case_if).
  destruct Hr as (Hr & -> & Ha). rewrite Hr, <- negb_orb.
  fold (wanted s type). destruct (wanted s type) eqn:Ew; cbn [negb].
  - destruct (ignorenext s); [done|].
    rewrite (bind_ok _ _ _ _ _ (clear_required type s1 (requirenext s) Hr Ew)). erewrite bind_ok by done.
    rewrite on_dispatch_authdone. change (authdone s1) with (authdone s).
    replace (negb (authdone s || (type <=? MAX_UNAUTH_PACKET_TYPE)))
      with (negb (authdone s) && (type >? MAX_UNAUTH_PACKET_TYPE))
      by (rewrite negb_orb, Z.gtb_ltb, Z.leb_antisym, negb_involutive; done).
    case_if; [done|]. by destruct (find_handler table type).
  - unfold transport_generic. rewrite Z.geb_leb. by case_if.
Qed.

(** A packet that neither table handles is treated alike with both. *)
Lemma process_packet_unhandled table table' s :
  (∀ type b, buf_getbyte (io_payload (pp_io s)) = Ok (type, b) →
     decide_packet table' s type = decide_packet table s type ∧
     ∀ h, decide_packet table s type ≠ Handled h) →
  process_packet table' s = process_packet table s.
Proof.
  intros Hun. destruct (buf_getbyte (io_payload (pp_io s))) as [[type b]|e|e] eqn:Eb.
  - rewrite !(process_packet_run _ s type b) by done. destruct (Hun type b eq_refl) as [-> Hh].
    destruct (decide_packet table s type) as [| | | | |h]; [done..|]. by destruct (Hh h).
  - unfold process_packet, mbind, M_bind, ses_payload, zoom. cbn. by rewrite Eb.
  - unfold process_packet, mbind, M_bind, ses_payload, zoom. cbn. by rewrite Eb.
Qed.

(** Which packets have a handler does not depend on what the handlers do. *)
Lemma find_handler_none hs hs' type :
  find_handler (svr_packettypes hs) type = None → find_handler (svr_packettypes hs') type = None.
Proof. unfold svr_packettypes. cbn [find_handler]. repeat (case_if; [done|]). done. Qed.

Lemma unhandled_any hs hs' s type : (∀ h, decide_packet (svr_packettypes hs) s type ≠ Handled h) →
  decide_packet (svr_packettypes hs') s type = decide_packet (svr_packettypes hs) s type.
Proof.
  intros Hun. unfold decide_packet in *. repeat (case_if; [done|]).
  destruct (find_handler (svr_packettypes hs) type) as [h|] eqn:E; [by destruct (Hun h)|].
  by rewrite (find_handler_none _ _ _ E).
Qed.

Lemma preauth_handled hs s type h :
  authdone s = false → decide_packet (svr_packettypes hs) s type = Handled h →
  (requirenext s ≠ 0 → type = requirenext s) ∧
  (type, h) ∈ [(SSH_MSG_SERVICE_REQUEST, recv_msg_service_request hs);
               (SSH_MSG_KEXINIT, recv_msg_kexinit hs);
               (SSH_MSG_NEWKEYS, recv_msg_newkeys hs);
               (SSH_MSG_KEXDH_INIT, recv_msg_kexdh_init hs);
               (SSH_MSG_USERAUTH_REQUEST, recv_msg_userauth_request hs)].
Proof.
  intros Ha. unfold decide_packet. rewrite Ha. cbn [orb negb].
  do 2 (case_if; [done|]). destruct ((requirenext s =? 0) || (requirenext s =? type)) eqn:Ew; cbn [negb].
  2: { case_if; done. }
  destruct (ignorenext s); [done|]. case_if; [done|].
  assert (Hle : type ≤ 60) by (unfold MAX_UNAUTH_PACKET_TYPE, SSH_MSG_USERAUTH_PK_OK in *; bool_lia).
  destruct (find_handler (svr_packettypes hs) type) as [h'|] eqn:Eh; [|done]. intros [= <-].
  split; [bool_lia|]. apply find_handler_elem in Eh as [Eh H0]. unfold svr_packettypes in Eh.
  repeat (apply elem_of_cons in Eh as [[= -> ->]|Eh]; [
    first [done | unfold SSH_MSG_CHANNEL_DATA, SSH_MSG_CHANNEL_WINDOW_ADJUST, SSH_MSG_GLOBAL_REQUEST,
      SSH_MSG_CHANNEL_REQUEST, SSH_MSG_CHANNEL_OPEN, SSH_MSG_CHANNEL_EOF, SSH_MSG_CHANNEL_CLOSE,
      SSH_MSG_CHANNEL_SUCCESS, SSH_MSG_CHANNEL_FAILURE, SSH_MSG_REQUEST_FAILURE, SSH_MSG_REQUEST_SUCCESS,
      SSH_MSG_CHANNEL_OPEN_CONFIRMATION, SSH_MSG_CHANNEL_OPEN_FAILURE in Hle; lia | set_solver]|]).
  by apply elem_of_nil in Eh.
Qed.
End process.
Arguments pses X : clear implicits.
Arguments packettype X : clear implicits.
Arguments verdict X : clear implicits.

(** C18. Dispatch refines its specification: for every state, every table of
    handlers and every packet that has a type byte, [process_packet] does what
    [decide_packet] says: it ignores, ends the session, answers
    [SSH_MSG_UNIMPLEMENTED], skips the packet, or runs exactly the handler of
    the table, in the state in which the required message has been noted, and
    then frees the payload. *)
Theorem process_packet_refines {X} (table : list (packettype X)) (s : pses X) type b :
  0 ≤ type → buf_getbyte (io_payload (pp_io s)) = Ok (type, b) →
  let s1 := set_io (io_set_payload b (pp_io s)) s in
  match decide_packet table s type with
  | Ignored => process_packet table s = free_payload (set_lastpacket type s1)
  | Disconnect => process_packet table s = Exit "Disconnect received"
  | Refused => ∃ e, process_packet table s = Exit e
  | Unimplemented => ∃ s2, (s2 = seen type s1 ∨ s2 = on_dispatch type s1) ∧
      process_packet table s = (recv_unimplemented;; free_payload) s2
  | Skipped => process_packet table s = free_payload (set_ignorenext false (seen type s1))
  | Handled h => process_packet table s = (h;; free_payload) (on_dispatch type s1)
  end.
Proof.
  intros _ Hb s1. rewrite (process_packet_run table s type b Hb). fold s1.
  destruct (decide_packet table s type); [done|done|by eexists| |done|done].
  eexists. split; [|reflexivity]. case_if; auto.
Qed.

(** A session that waits for [SSH_MSG_KEXINIT] and has received one. *)
Definition demo_pses (payload : list Z) (require : Z) (auth : bool) : pses () :=
  mkPses (mkIO (mkBuf payload (zlen payload) 0 (zlen payload)) (mkBuf (replicate 16 0) 0 0 16) [])
    0 100 0 0 require false auth 5 tt.
Definition demo_handlers : @svr_handlers () :=
  let h := mret tt in mkHandlers h h h h h h h h h h h h h h h.
Lemma process_packet_refines_witness :
  process_packet (svr_packettypes demo_handlers) (demo_pses [20; 1; 2] 20 false) =
  (recv_msg_kexinit demo_handlers;; free_payload)
    (on_dispatch 20 (set_io (io_set_payload (mkBuf [20; 1; 2] 3 1 3) (pp_io (demo_pses [20; 1; 2] 20 false)))
       (demo_pses [20; 1; 2] 20 false))).
Proof.
  apply (process_packet_refines (svr_packettypes demo_handlers) (demo_pses [20; 1; 2] 20 false) 20
    (mkBuf [20; 1; 2] 3 1 3)); [lia|reflexivity].
Defined.

(** C9. Before authentication the server runs no handler but those of the
    transport and the authentication request.  For every packet, either what
    [process_packet] does is the same whatever the handlers of the table are,
    so none of them runs; or it runs the handler of the packet's type, which is
    that of [SSH_MSG_SERVICE_REQUEST], [SSH_MSG_KEXINIT], [SSH_MSG_NEWKEYS],
    [SSH_MSG_KEXDH_INIT] or [SSH_MSG_USERAUTH_REQUEST], and, while a message of
    the key exchange is required, only if it is that message. *)
Theorem preauth_handlers {X} (hs : @svr_handlers X) (s : pses X) :
  authdone s = false →
  (∀ hs', process_packet (svr_packettypes hs') s = process_packet (svr_packettypes hs) s) ∨
  (∃ type b h, buf_getbyte (io_payload (pp_io s)) = Ok (type, b) ∧
     (type, h) ∈ [(SSH_MSG_SERVICE_REQUEST, recv_msg_service_request hs);
                  (SSH_MSG_KEXINIT, recv_msg_kexinit hs);
                  (SSH_MSG_NEWKEYS, recv_msg_newkeys hs);
                  (SSH_MSG_KEXDH_INIT, recv_msg_kexdh_init hs);
                  (SSH_MSG_USERAUTH_REQUEST, recv_msg_userauth_request hs)] ∧
     (requirenext s ≠ 0 → type = requirenext s) ∧
     process_packet (svr_packettypes hs) s =
       (h;; free_payload) (on_dispatch type (set_io (io_set_payload b (pp_io s)) s))).
Proof.
  intros Ha. destruct (buf_getbyte (io_payload (pp_io s))) as [[type b]|e|e] eqn:Eb.
  2, 3: left; intros hs'; apply process_packet_unhandled; intros t' b'; by rewrite Eb.
  destruct (decide_packet (svr_packettypes hs) s type) as [| | | | |h] eqn:Ed.
  1-5: left; intros hs'; apply process_packet_unhandled; intros t' b'; rewrite Eb; intros [= <- <-];
       (split; [apply unhandled_any|]; intros h; by rewrite Ed).
  right. destruct (preauth_handled hs s type h Ha Ed) as [Hreq Hin]. exists type, b, h.
  split_and!; [done..|]. by rewrite (process_packet_run _ s type b Eb), Ed.
Qed.
Lemma preauth_handlers_witness :
  (∀ hs', process_packet (svr_packettypes hs') (demo_pses [50; 7] 0 false) =
          process_packet (svr_packettypes demo_handlers) (demo_pses [50; 7] 0 false)) ∨
  (∃ type b h, buf_getbyte (io_payload (pp_io (demo_pses [50; 7] 0 false))) = Ok (type, b) ∧
     (type, h) ∈ [(SSH_MSG_SERVICE_REQUEST, recv_msg_service_request demo_handlers);
                  (SSH_MSG_KEXINIT, recv_msg_kexinit demo_handlers);
                  (SSH_MSG_NEWKEYS, recv_msg_newkeys demo_handlers);
                  (SSH_MSG_KEXDH_INIT, recv_msg_kexdh_init demo_handlers);
                  (SSH_MSG_USERAUTH_REQUEST, recv_msg_userauth_request demo_handlers)] ∧
     (0 ≠ 0 → type = 0) ∧
     process_packet (svr_packettypes demo_handlers) (demo_pses [50; 7] 0 false) =
       (h;; free_payload) (on_dispatch type (set_io (io_set_payload b (pp_io (demo_pses [50; 7] 0 false)))
                                               (demo_pses [50; 7] 0 false)))).
Proof. apply (preauth_handlers demo_handlers (demo_pses [50; 7] 0 false)). reflexivity. Defined.
