(* ===== verification/Algo.v ===== *)
(** * Algorithm negotiation ([dropbear/common-algo.c], [dropbear/algo.h])

    The lists of algorithms, how they are offered ([buf_put_algolist]) and how
    the peer's list is matched against ours ([buf_match_algo]), on either side
    of the connection.  The theorems compare the matching loop with the rule
    of RFC 4253, section 7.1, and two such peers with each other. *)
From S2P Require Import Prelude Buffer.

Definition MAX_PROPOSED_ALGO : Z := 20.
Definition MAX_NAME_LEN : Z := 64.
Definition KEXGUESS2_ALGO_NAME : list Z := bytes_of_string "kexguess2@matt.ucc.asn.au".
Definition KEXGUESS2_ALGO_ID : Z := 99.

Inductive kexguess2_used := KEXGUESS2_LOOK | KEXGUESS2_NO | KEXGUESS2_YES.
#[global] Instance kexguess2_used_eq_dec : EqDecision kexguess2_used.
Proof. solve_decision. Defined.

(** [struct Algo_Type]; [D] and [Mo] are what [data] and [mode] point to.  An
    array of algorithms is the list of the entries in front of the one whose
    name is null. *)
Record algo_type (D Mo : Type) := mkAlgo {
  name : list Z;
  val : Z;
  data : D;
  usable : bool;
  mode : Mo
}.
Arguments mkAlgo {D Mo}. Arguments name {D Mo}. Arguments val {D Mo}.
Arguments data {D Mo}. Arguments usable {D Mo}. Arguments mode {D Mo}.

Section algo.
Context {D Mo : Type}.
Abbreviation algos_t := (list (algo_type D Mo)).

(** [true] is [DROPBEAR_SUCCESS]. *)
Fixpoint have_algo (algo : list Z) (algolen : Z) (algos : algos_t) : bool :=
  match algos with
  | [] => false
  | a :: algos =>
      if (strlen (name a) =? algolen) && strncmp_eq (Z.to_nat algolen) (name a) algo
      then true else have_algo algo algolen algos
  end.

(** The loop of [buf_put_algolist] over [localalgos]. *)
Fixpoint put_algos (donefirst : bool) (localalgos : algos_t) : M buffer () :=
  match localalgos with
  | [] => mret tt
  | a :: localalgos =>
      if usable a then
        when donefirst (buf_putbyte 44);;
        buf_putbytes (name a) (strlen (name a));;
        put_algos true localalgos
      else put_algos donefirst localalgos
  end.
Definition buf_put_algolist (localalgos : algos_t) : M buffer () :=
  algolist ← lift (buf_new 300);
  algolist ← lift (exec (put_algos false localalgos) algolist);
  buf_putstring (buf_data algolist) (buf_len algolist).

(** The loop that cuts the peer's list at its commas: [cur] is the part of the
    current name already seen.  At the last slot of [remotenames] the loop
    ends, and the last name reaches to the next terminator.  [None] is the
    jump to [out] on a NUL byte. *)
Fixpoint split_names (remotecount : Z) (cur l : list Z) : option (list (list Z)) :=
  match l with
  | [] => Some [cur]
  | c :: l =>
      if c =? 0 then None
      else if c =? 44 then
        if remotecount + 1 >=? MAX_PROPOSED_ALGO then Some [cur; cstr l]
        else cons cur <$> split_names (remotecount + 1) [] l
      else if remotecount >=? MAX_PROPOSED_ALGO then Some [cur ++ cstr (c :: l)]
      else split_names remotecount (cur ++ [c]) l
  end.

Definition look_kexguess2 (remotenames : list (list Z)) (k : option kexguess2_used) : option kexguess2_used :=
  match k with
  | Some KEXGUESS2_LOOK =>
      if existsb (λ n, strcmp_eq n KEXGUESS2_ALGO_NAME) remotenames
      then Some KEXGUESS2_YES else Some KEXGUESS2_NO
  | k => k
  end.

(** [localnames]: the array has [MAX_PROPOSED_ALGO] slots. *)
Definition local_names (localalgos : algos_t) : outcome (list (option (list Z))) :=
  if zlen localalgos <=? MAX_PROPOSED_ALGO
  then Ok ((λ a, if usable a then Some (name a) else None) <$> localalgos)
  else UB "write outside localnames".

(** The two nested loops: the first pair of equal names. *)
Fixpoint match_serv (cli : option (list Z)) (servnames : list (option (list Z))) (j : nat) : option nat :=
  match servnames with
  | [] => None
  | serv :: servnames =>
      match serv, cli with
      | Some s, Some c => if strcmp_eq s c then Some j else match_serv cli servnames (S j)
      | _, _ => match_serv cli servnames (S j)
      end
  end.
Fixpoint match_names (clinames servnames : list (option (list Z))) (i : nat) : option (nat * nat) :=
  match clinames with
  | [] => None
  | cli :: clinames =>
      match match_serv cli servnames 0 with
      | Some j => Some (i, j)
      | None => match_names clinames servnames (S i)
      end
  end.

(** The result, [kexguess2] (null when [None]) and [goodguess] (asked for when
    [want_guess]) after the call; [is_server] is [IS_DROPBEAR_SERVER]. *)
Definition buf_match_algo (is_server : bool) (localalgos : algos_t)
    (kexguess2 : option kexguess2_used) (want_guess : bool)
    : M buffer (option (algo_type D Mo) * option kexguess2_used * bool) :=
  algolist ← buf_getstring;
  if zlen algolist >? MAX_PROPOSED_ALGO * (MAX_NAME_LEN + 1) then mret (None, kexguess2, false)
  else
    match split_names 1 [] algolist with
    | None => mret (None, kexguess2, false)
    | Some remotenames =>
        let kexguess2 := look_kexguess2 remotenames kexguess2 in
        localnames ← lift (local_names localalgos);
        let remotenames := Some <$> remotenames in
        let clinames := if is_server then remotenames else localnames in
        let servnames := if is_server then localnames else remotenames in
        match match_names clinames servnames 0 with
        | None => mret (None, kexguess2, false)
        | Some (i, j) =>
            let good :=
              match kexguess2 with
              | Some KEXGUESS2_YES => want_guess && (i =? 0)%nat
              | Some _ => want_guess && (i =? 0)%nat && (j =? 0)%nat
              | None => false
              end in
            mret (localalgos !! (if is_server then j else i), kexguess2, good)
        end
    end.

(** ** The specification *)

(** A name-list: its names, separated by commas. *)
Fixpoint comma_split (l : list Z) : list (list Z) :=
  match l with
  | [] => [[]]
  | c :: l =>
      if c =? 44 then [] :: comma_split l
      else match comma_split l with h :: t => (c :: h) :: t | [] => [[c]] end
  end.
Fixpoint comma_join (ns : list (list Z)) : list Z :=
  match ns with
  | [] => []
  | [n] => n
  | n :: ns => n ++ 44 :: comma_join ns
  end.

(** The names of the peer that take part: no NUL byte may occur in the first
    [n]; what follows them counts as one name, up to a NUL byte. *)
Definition offered_names (n : nat) (ns : list (list Z)) : option (list (list Z)) :=
  if decide (Forall (λ x, 0 ∉ x) (take n ns))
  then Some (take n ns ++ match drop n ns with [] => [] | r => [cstr (comma_join r)] end)
  else None.
Definition offered (l : list Z) : option (list (list Z)) :=
  if zlen l <=? 1300 then offered_names 19 (comma_split l) else None.

(** An algorithm we can use under this name. *)
Definition provides (localalgos : algos_t) (n : list Z) : Prop :=
  ∃ a, a ∈ localalgos ∧ usable a = true ∧ name a = n.

(** RFC 4253, 7.1: the first algorithm on the client's list that the server's
    list has too. *)
Definition agreed (clinames servnames : list (list Z)) (r : option (list Z)) : Prop :=
  match r with
  | Some n => ∃ pre post, clinames = pre ++ n :: post ∧ n ∈ servnames ∧ (∀ m, m ∈ pre → m ∉ servnames)
  | None => ∀ m, m ∈ clinames → m ∉ servnames
  end.
Definition usable_names (localalgos : algos_t) : list (list Z) :=
  name <$> filter (λ a, usable a = true) localalgos.

(** Names are C strings without commas. *)
Definition good_name (n : list Z) : Prop := n ≠ [] ∧ (0 ∉ n) ∧ (44 ∉ n) ∧ Forall is_byte n.
Definition algos_ok (localalgos : algos_t) : Prop :=
  zlen localalgos ≤ MAX_PROPOSED_ALGO ∧ Forall (λ a, good_name (name a)) localalgos.
End algo.

(** ** Cutting the list *)
Section split.
Lemma comma_split_cons l : ∃ h t, comma_split l = h :: t.
Proof. destruct l as [|c l]; [by do 2 eexists|]. cbn. case_if; [eauto|]. destruct (comma_split l); eauto. Qed.

Lemma cstr_comma_free l h t : comma_split l = h :: t → comma_join (h :: t) = l.
Proof.
  revert h t. induction l as [|c l IH]; intros h t; cbn [comma_split]; [by intros [= <- <-]|].
  destruct (comma_split_cons l) as (h' & t' & E). rewrite E. specialize (IH _ _ E).
  destruct (Z.eqb_spec c 44) as [->|]; intros [= <- <-].
  - cbn. by rewrite <- IH.
  - rewrite <- IH. by destruct t'.
Qed.
Lemma comma_join_split l : comma_join (comma_split l) = l.
Proof. destruct (comma_split_cons l) as (h & t & E). rewrite E. by apply cstr_comma_free. Qed.

Lemma comma_split_app n l : 44 ∉ n → comma_split (n ++ 44 :: l) = n :: comma_split l.
Proof.
  induction n as [|c n IH]; intros Hn; cbn [app comma_split]; [done|].
  rewrite IH by set_solver. destruct (Z.eqb_spec c 44) as [->|]; [set_solver|done].
Qed.
Lemma comma_split_one n : 44 ∉ n → comma_split n = [n].
Proof.
  induction n as [|c n IH]; intros Hn; cbn [comma_split]; [done|].
  rewrite IH by set_solver. destruct (Z.eqb_spec c 44) as [->|]; [set_solver|done].
Qed.
Lemma comma_split_join ns : ns ≠ [] → Forall (λ n, 44 ∉ n) ns → comma_split (comma_join ns) = ns.
Proof.
  intros Hne H. induction H as [|n ns Hn Hns IH]; [done|]. destruct ns as [|m ns].
  - by apply comma_split_one.
  - cbn [comma_join]. rewrite comma_split_app by done. f_equal. by apply IH.
Qed.

(** What is already seen of the current name. *)
Definition prepend (cur : list Z) (ns : list (list Z)) : list (list Z) :=
  match ns with h :: t => (cur ++ h) :: t | [] => [cur] end.
Lemma comma_split_prepend c l : c ≠ 44 → comma_split (c :: l) = prepend [c] (comma_split l).
Proof. intros. cbn. by rewrite (proj2 (Z.eqb_neq _ _)). Qed.

Lemma split_names_spec l : ∀ (k : nat) cur, (k < 19)%nat → 0 ∉ cur →
  split_names (Z.of_nat k + 1) cur l = offered_names (19 - k) (prepend cur (comma_split l)).
Proof.
  induction l as [|c l IH]; intros k cur Hk Hcur.
  - cbn [split_names comma_split prepend]. rewrite app_nil_r. unfold offered_names.
    destruct (19 - k)%nat as [|n] eqn:En; [lia|]. cbn [take drop]. rewrite take_nil.
    rewrite decide_True by (constructor; [done|constructor]). by destruct n.
  - cbn [split_names]. destruct (19 - k)%nat as [|n] eqn:En; [lia|].
    destruct (Z.eqb_spec c 0) as [->|H0].
    { change (comma_split (0 :: l)) with (prepend [0] (comma_split l)).
      destruct (comma_split_cons l) as (h & t & ->). cbn [prepend]. unfold offered_names. cbn [take].
      rewrite decide_False; [done|]. rewrite Forall_cons. set_solver. }
    destruct (Z.eqb_spec c 44) as [->|H44].
    + change (comma_split (44 :: l)) with ([] :: comma_split l). cbn [prepend]. rewrite app_nil_r.
      destruct n as [|n].
      * rewrite (proj2 (Z.geb_le _ _)) by (unfold MAX_PROPOSED_ALGO; lia).
        unfold offered_names. cbn [take drop]. rewrite take_0.
        rewrite decide_True by (constructor; [done|constructor]).
        pose proof (comma_join_split l) as Hj. destruct (comma_split_cons l) as (h & t & E).
        rewrite E in *. change (drop 0 (h :: t)) with (h :: t). cbn iota. by rewrite Hj.
      * rewrite Z.geb_leb, (proj2 (Z.leb_gt _ _)) by (unfold MAX_PROPOSED_ALGO; lia).
        replace (Z.of_nat k + 1 + 1) with (Z.of_nat (S k) + 1) by lia.
        rewrite IH by (lia || set_solver). replace (19 - S k)%nat with (S n) by lia.
        destruct (comma_split_cons l) as (h & t & ->). cbn [prepend app]. unfold offered_names.
        change (take (S (S n)) (cur :: h :: t)) with (cur :: take (S n) (h :: t)).
        change (drop (S (S n)) (cur :: h :: t)) with (drop (S n) (h :: t)).
        destruct (decide (Forall _ (take (S n) (h :: t)))) as [Hf|Hf].
        -- rewrite decide_True by (by constructor). done.
        -- rewrite decide_False by (by inversion 1). done.
    + rewrite Z.geb_leb, (proj2 (Z.leb_gt _ _)) by (unfold MAX_PROPOSED_ALGO; lia).
      rewrite comma_split_prepend, IH by (lia || set_solver). rewrite En. f_equal.
      destruct (comma_split_cons l) as (h & t & ->). cbn. by rewrite <- app_assoc.
Qed.

Lemma split_names_offered l : zlen l ≤ 1300 → split_names 1 [] l = offered l.
Proof.
  intros Hl. unfold offered. rewrite (proj2 (Z.leb_le _ _)) by done.
  change 1 with (Z.of_nat 0 + 1). rewrite split_names_spec by (lia || set_solver).
  by destruct (comma_split_cons l) as (h & t & ->).
Qed.
Lemma cstr_no_nul l : 0 ∉ cstr l.
Proof. induction l as [|c l IH]; cbn; [set_solver|]. destruct (Z.eqb_spec c 0); set_solver. Qed.
Lemma offered_no_nul l ns : offered l = Some ns → Forall (λ n, 0 ∉ n) ns.
Proof.
  unfold offered, offered_names. case_if; [|done]. case_decide; [|done]. intros [= <-].
  apply Forall_app_2; [done|]. destruct (drop _ _); constructor; [apply cstr_no_nul|done].
Qed.
End split.

(** ** The matching loops find the agreed algorithm *)
Section matching.
Abbreviation onames := (list (option (list Z))).
Definition nul_free (l : onames) : Prop := ∀ n, Some n ∈ l → 0 ∉ n.

Lemma strcmp_eq_nul_free a b : 0 ∉ a → 0 ∉ b → strcmp_eq a b = bool_decide (a = b).
Proof. intros. unfold strcmp_eq. by rewrite !cstr_id by (apply Forall_forall; set_solver). Qed.

Lemma match_serv_spec c (servs : onames) : 0 ∉ c → nul_free servs → ∀ j,
  match match_serv (Some c) servs j with
  | Some j' => ∃ k, j' = (j + k)%nat ∧ servs !! k = Some (Some c) ∧ Some c ∉ take k servs
  | None => Some c ∉ servs
  end.
Proof.
  intros Hc. induction servs as [|s servs IH]; intros Hs j; cbn [match_serv]; [set_solver|].
  assert (Hs' : nul_free servs) by (intros n Hn; apply Hs; set_solver).
  assert (Hskip : s ≠ Some c → match match_serv (Some c) servs (S j) with
    | Some j' => ∃ k, j' = (j + k)%nat ∧ (s :: servs) !! k = Some (Some c) ∧ Some c ∉ take k (s :: servs)
    | None => Some c ∉ s :: servs end).
  { intros Hne. specialize (IH Hs' (S j)). destruct (match_serv _ _ _) as [j'|]; [|set_solver].
    destruct IH as (k & -> & ? & ?). exists (S k). split_and!; [lia|done|]. cbn. set_solver. }
  destruct s as [s|]; [|by apply Hskip]. rewrite strcmp_eq_nul_free by (done || apply Hs; set_solver).
  case_bool_decide as E; [subst s|apply Hskip; congruence].
  exists 0%nat. split_and!; [lia|done|]. cbn. set_solver.
Qed.
Lemma match_serv_none (servs : onames) j : match_serv None servs j = None.
Proof. revert j. induction servs as [|[]]; cbn; auto. Qed.

Lemma match_names_spec (clis servs : onames) : nul_free clis → nul_free servs → ∀ i,
  match match_names clis servs i with
  | Some (i', j) => ∃ k c, i' = (i + k)%nat ∧ clis !! k = Some (Some c) ∧ servs !! j = Some (Some c) ∧
      (Some c ∉ take j servs) ∧ (∀ m, Some m ∈ take k clis → Some m ∉ servs)
  | None => ∀ m, Some m ∈ clis → Some m ∉ servs
  end.
Proof.
  intros Hc Hs. induction clis as [|c clis IH]; intros i; cbn [match_names]; [set_solver|].
  assert (Hc' : nul_free clis) by (intros n Hn; apply Hc; set_solver).
  assert (Hskip : (∀ m, c = Some m → Some m ∉ servs) →
    match match_names clis servs (S i) with
    | Some (i', j) => ∃ k m, i' = (i + k)%nat ∧ (c :: clis) !! k = Some (Some m) ∧ servs !! j = Some (Some m) ∧
        (Some m ∉ take j servs) ∧ (∀ m', Some m' ∈ take k (c :: clis) → Some m' ∉ servs)
    | None => ∀ m, Some m ∈ c :: clis → Some m ∉ servs end).
  { intros Hno. specialize (IH Hc' (S i)). destruct (match_names _ _ _) as [[i' j]|]; [|set_solver].
    destruct IH as (k & m & -> & ? & ? & ? & ?). exists (S k), m. split_and!; [lia|done..|]. cbn. set_solver. }
  destruct c as [c|]; [|rewrite match_serv_none; apply Hskip; congruence].
  pose proof (match_serv_spec c servs ltac:(apply Hc; set_solver) Hs 0) as Hm.
  destruct (match_serv _ _ _) as [j|]; [|apply Hskip; congruence].
  destruct Hm as (k & -> & ? & ?). exists 0%nat, c. split_and!; [lia|done..|]. cbn. set_solver.
Qed.

(** In terms of the names that are there. *)
Abbreviation names_of l := (omap (M:=list) (A:=option (list Z)) id l).
Lemma elem_of_names_of (l : onames) n : n ∈ names_of l ↔ Some n ∈ l.
Proof. rewrite list_elem_of_omap. split; [by intros (? & ? & [= ->])|eauto]. Qed.
Lemma names_of_some ns : names_of (Some <$> ns) = ns.
Proof. induction ns; cbn; [done|]. by f_equal. Qed.

Lemma match_names_agreed (clis servs : onames) : nul_free clis → nul_free servs →
  match match_names clis servs 0 with
  | Some (i, j) => ∃ c, clis !! i = Some (Some c) ∧ servs !! j = Some (Some c) ∧
      (Some c ∉ take j servs) ∧ agreed (names_of clis) (names_of servs) (Some c)
  | None => agreed (names_of clis) (names_of servs) None
  end.
Proof.
  intros Hc Hs. pose proof (match_names_spec clis servs Hc Hs 0) as Hm.
  destruct (match_names _ _ _) as [[i j]|].
  - destruct Hm as (k & c & -> & Hi & Hj & Hf & Hpre). exists c. split_and!; [done..|].
    exists (names_of (take k clis)), (names_of (drop (S k) clis)). split_and!.
    + rewrite <- (take_drop_middle clis k (Some c) Hi) at 1. by rewrite omap_app.
    + apply elem_of_names_of. by eapply list_elem_of_lookup_2.
    + intros m. rewrite !elem_of_names_of. apply Hpre.
  - intros m. rewrite !elem_of_names_of. apply Hm.
Qed.

Lemma agreed_unique clis servs r1 r2 : agreed clis servs r1 → agreed clis servs r2 → r1 = r2.
Proof.
  assert (Hone : ∀ a b, agreed clis servs (Some a) → agreed clis servs b → Some a = b).
  { intros a b (pre & post & -> & Ha & Hpre) Hb. destruct b as [b|]; [|specialize (Hb a); set_solver].
    destruct Hb as (pre' & post' & E & Hb & Hpre'). f_equal.
    apply app_eq_inv in E as [(k & -> & E)|(k & -> & E)]; destruct k as [|x k]; cbn in E; simplify_eq; try done.
    - specialize (Hpre x). set_solver.
    - specialize (Hpre' x). set_solver. }
  destruct r1 as [a|]; [auto|]. destruct r2 as [b|]; [|done]. intros. symmetry. by apply Hone.
Qed.
End matching.

(** ** Our list as it is sent *)
Section sending.
Context {D Mo : Type}.
Implicit Types l : list (algo_type D Mo).

Lemma buf_putstring_take d n b : 0 ≤ n ≤ zlen d →
  buf_putstring d n b = buf_putstring (take (Z.to_nat n) d) (zlen (take (Z.to_nat n) d)) b.
Proof.
  intros Hn. assert (Hl : zlen (take (Z.to_nat n) d) = n) by (rewrite length_take; lia).
  rewrite Hl. unfold buf_putstring. apply bind_ext. intros [] s. unfold buf_putbytes.
  apply bind_ext. intros p s'. do 2 rewrite mem_load_ok by lia. rewrite !drop_0, take_take.
  by rewrite Nat.min_id.
Qed.

Lemma comma_join_cons n ns : comma_join (n :: ns) = n ++ concat (cons 44 <$> ns).
Proof.
  revert n. induction ns as [|m ns IH]; intros n; [by cbn; rewrite app_nil_r|].
  change (comma_join (n :: m :: ns)) with (n ++ 44 :: comma_join (m :: ns)). by rewrite IH.
Qed.

Lemma writer_put_algos l donefirst : Forall (λ a, good_name (name a)) l → zlen (comma_join (usable_names l)) < U32 →
  Writer (put_algos donefirst l)
    (if donefirst then concat (cons 44 <$> usable_names l) else comma_join (usable_names l)).
Proof.
  intros Hl. revert donefirst. induction Hl as [|a l (Hne & H0 & H44 & Hb) Hl IH]; intros donefirst Hlen.
  { destruct donefirst; apply writer_nop. }
  cbn [put_algos]. unfold usable_names in *. cbn [filter list_filter] in *.
  destruct (usable a) eqn:Eu; [rewrite decide_True in * by done|rewrite decide_False in * by done; auto].
  cbn [fmap list_fmap] in *. set (ns := name <$> filter (λ x, usable x = true) l) in *.
  rewrite comma_join_cons, length_app in Hlen.
  assert (Hns : zlen (comma_join ns) < U32).
  { revert Hlen. destruct ns as [|n ns]; [done|]. rewrite comma_join_cons. cbn. rewrite !length_app. lia. }
  assert (Hn : strlen (name a) = zlen (name a)).
  { unfold strlen. rewrite cstr_id; [done|]. apply Forall_forall. set_solver. }
  assert (Hp : Writer (buf_putbytes (name a) (strlen (name a));; put_algos true l)
                 (name a ++ concat (cons 44 <$> ns))).
  { rewrite Hn. apply writer_seq; [apply writer_putbytes; [done|lia]|]. by apply (IH true). }
  destruct donefirst; cbn [when].
  - cbn [concat app]. apply (writer_seq (buf_putbyte 44) _ [44]); [by apply writer_putbyte|].
    exact Hp.
  - rewrite comma_join_cons. apply (writer_seq (mret tt) _ []); [apply writer_nop|exact Hp].
Qed.

(** Our list on the wire: a string of at most 300 bytes. *)
Definition sendable l : Prop := algos_ok l ∧ zlen (comma_join (usable_names l)) ≤ 300.

Lemma buf_put_algolist_eq l b : sendable l →
  Forall is_byte (comma_join (usable_names l)) ∧ zlen (comma_join (usable_names l)) < U32 ∧
  buf_put_algolist l b = buf_putstring (comma_join (usable_names l)) (zlen (comma_join (usable_names l))) b.
Proof.
  intros [[Hn Hl] Hfit]. set (ns := comma_join (usable_names l)) in *.
  assert (Hu : zlen ns < U32) by (unfold U32; lia).
  destruct (writer_put_algos l false Hl Hu) as [Hb Hw]. fold ns in Hb, Hw.
  destruct (buf_new_ok 300) as (b0 & E0 & Hwf & Hl0 & Hp0 & Hs0); [unfold BUF_MAX_SIZE; lia|].
  specialize (Hw b0 Hwf ltac:(lia)). rewrite Hl0, Hs0, (proj2 (Z.leb_le _ _)) in Hw by lia.
  assert (Hb1 : buf_wf (buf_append b0 ns)) by (apply buf_wf_append; [done|done|lia]).
  assert (Hc : buf_content (buf_append b0 ns) = ns).
  { rewrite buf_content_append by (done || lia). unfold buf_content. by rewrite Hl0. }
  assert (Hlen : buf_len (buf_append b0 ns) = zlen ns) by (cbn; lia).
  split_and!; [done..|]. unfold buf_put_algolist. rewrite E0. erewrite bind_ok by apply lift_ok.
  unfold exec. rewrite Hw. erewrite bind_ok by apply lift_ok. cbn [snd].
  buf_facts. rewrite buf_putstring_take by lia. unfold buf_content in Hc. rewrite Hc. done.
Qed.
Lemma writer_put_algolist l : sendable l →
  Writer (buf_put_algolist l)
    (STORE32H (zlen (comma_join (usable_names l))) ++ comma_join (usable_names l)).
Proof.
  intros Hs. destruct (buf_put_algolist_eq l (mkBuf [] 0 0 0) Hs) as (Hb & Hu & _).
  destruct (writer_putstring _ Hb Hu) as [Hb' Hw']. split; [done|]. intros b Hwf Hpos.
  destruct (buf_put_algolist_eq l b Hs) as (_ & _ & ->). by apply Hw'.
Qed.
End sending.

(** ** [buf_match_algo] *)
Section match_algo.
Context {D Mo : Type}.
Implicit Types l : list (algo_type D Mo).

Definition local_slots l : list (option (list Z)) :=
  (λ a, if usable a then Some (name a) else None) <$> l.
Lemma names_of_local l : omap (M:=list) id (local_slots l) = usable_names l.
Proof.
  induction l as [|a l IH]; [done|]. unfold usable_names, local_slots in *. cbn.
  destruct (usable a) eqn:E; [rewrite decide_True by done|rewrite decide_False by done]; cbn; by rewrite IH.
Qed.
Lemma local_slots_lookup l i n : local_slots l !! i = Some (Some n) ↔
  ∃ a, l !! i = Some a ∧ usable a = true ∧ name a = n.
Proof.
  unfold local_slots. rewrite list_lookup_fmap. destruct (l !! i) as [a|]; cbn; [|split; [done|by intros (? & ? & _)]].
  destruct (usable a) eqn:E; (split; [intros [= <-]; by eauto|intros (? & [= <-] & ? & <-); congruence]).
Qed.
Lemma local_slots_nul_free l : algos_ok l → nul_free (local_slots l).
Proof.
  intros [_ Hl] n Hn. apply list_elem_of_lookup in Hn as [i Hi].
  apply local_slots_lookup in Hi as (a & Ha & _ & <-).
  rewrite Forall_lookup in Hl. by destruct (Hl _ _ Ha) as (_ & ? & _).
Qed.

(** What the caller of [buf_match_algo] gets, as a function of the peer's list. *)
Definition match_outcome (srv : bool) l (kg : option kexguess2_used) (wg : bool) (lst : list Z)
    (r : option (algo_type D Mo)) (kg' : option kexguess2_used) (good : bool) : Prop :=
  match offered lst with
  | None => r = None ∧ kg' = kg ∧ good = false
  | Some names =>
      kg' = look_kexguess2 names kg ∧
      agreed (if srv then names else usable_names l) (if srv then usable_names l else names) (name <$> r) ∧
      (∀ a, r = Some a → a ∈ l ∧ usable a = true) ∧
      (srv = true → good = true ↔ wg = true ∧ is_Some kg' ∧ ∃ a, r = Some a ∧ head names = Some (name a) ∧
                      (kg' ≠ Some KEXGUESS2_YES → head l = Some a))
  end.

Lemma match_found (srv : bool) l (names : list (list Z)) (i j : nat) c : algos_ok l →
  (if srv then Some <$> names else local_slots l) !! i = Some (Some c) →
  (if srv then local_slots l else Some <$> names) !! j = Some (Some c) →
  ∃ a, l !! (if srv then j else i) = Some a ∧ usable a = true ∧ name a = c.
Proof. intros Hok Hi Hj. destruct srv; by apply local_slots_lookup. Qed.

Lemma head_lookup {A} (l : list A) : head l = l !! 0%nat.
Proof. by destruct l. Qed.

Lemma buf_match_algo_run srv l kg wg b lst tl : algos_ok l → buf_wf b →
  p_string (buf_rest b) = Some (lst, tl) →
  twp (buf_match_algo srv l kg wg) (λ '(r, kg', good) b', buf_wf b' ∧ buf_rest b' = tl ∧
    match_outcome srv l kg wg lst r kg' good) b.
Proof.
  intros Hok Hwf Hp. unfold buf_match_algo. twp_step.
  refine (twp_reader b Hwf buf_getstring p_string _ _ _ Hp _). intros n Hn Hfit Hwf' ->.
  change (MAX_PROPOSED_ALGO * (MAX_NAME_LEN + 1)) with 1300. unfold match_outcome.
  destruct (Z.gtb_spec (zlen lst) 1300) as [Hgt|Hle].
  { twp_step. unfold offered. by rewrite (proj2 (Z.leb_gt _ _)). }
  rewrite split_names_offered by done. destruct (offered lst) as [names|] eqn:Eo; [|by twp_step].
  pose proof (offered_no_nul _ _ Eo) as Hnul. rewrite Forall_forall in Hnul.
  cbv zeta. twp_step. unfold local_names. rewrite (proj2 (Z.leb_le _ _)) by apply Hok.
  eapply twp_lift; [reflexivity|]. fold (local_slots l).
  set (clis := if srv then Some <$> names else local_slots l).
  set (servs := if srv then local_slots l else Some <$> names).
  assert (Hnf : nul_free (Some <$> names)) by (intros m (? & [= <-] & ?)%list_elem_of_fmap; auto).
  assert (Hc : nul_free clis) by (destruct srv; [done|by apply local_slots_nul_free]).
  assert (Hs : nul_free servs) by (destruct srv; [by apply local_slots_nul_free|done]).
  pose proof (match_names_agreed clis servs Hc Hs) as Hm.
  pose proof (match_names_spec clis servs Hc Hs 0) as Hsp.
  assert (Enames : omap (M:=list) id clis = (if srv then names else usable_names l) ∧
    omap (M:=list) id servs = (if srv then usable_names l else names)).
  { unfold clis, servs. destruct srv; by rewrite names_of_local, names_of_some. }
  destruct Enames as [Ec Es]. rewrite Ec, Es in Hm.
  destruct (match_names clis servs 0) as [[i j]|] eqn:Em; twp_step; (split; [done|split; [done|]]).
  2: { split_and!; [done..|]. intros. split; [done|]. by intros (_ & _ & ? & ? & _). }
  destruct Hm as (c & Hi & Hj & Hfirst & Hag).
  destruct (match_found srv l names i j c Hok Hi Hj) as (a & Ha & Hu & <-). rewrite Ha.
  split_and!; [done|done| |].
  { intros ? [= <-]. split; [by eapply list_elem_of_lookup_2|done]. }
  intros ->. cbn in *.
  assert (Hi0 : (i =? 0)%nat = true ↔ head names = Some (name a)).
  { unfold clis in *. rewrite Nat.eqb_eq, head_lookup. split; [intros ->|].
    - rewrite list_lookup_fmap in Hi. destruct (names !! 0%nat); cbn in Hi; congruence.
    - intros H0. destruct i as [|i]; [done|]. exfalso.
      destruct Hsp as (k & c & Hk & _ & _ & _ & Hpre). apply (Hpre (name a)).
      + apply list_elem_of_lookup. exists 0%nat. rewrite lookup_take, decide_True by lia.
        by rewrite list_lookup_fmap, H0.
      + by eapply list_elem_of_lookup_2. }
  assert (Hj0 : (j =? 0)%nat = true ↔ head l = Some a).
  { rewrite Nat.eqb_eq, head_lookup. split; [by intros ->|]. intros H0. destruct j as [|j]; [done|].
    exfalso. apply Hfirst, list_elem_of_lookup. exists 0%nat. rewrite lookup_take, decide_True by lia.
    unfold servs. apply local_slots_lookup. eauto. }
  destruct (look_kexguess2 names kg) as [[]|].
  all: rewrite ?andb_true_iff, ?Hi0, ?Hj0; split.
  all: try (intros (? & ? & a' & [= <-] & ? & Hd)); try (intros [[? ?] ?]); try (intros [? ?]).
  all: try (split_and!; [done|by eexists|eauto]); try done.
  all: try (split_and!; [done..|by apply Hd]). exists a. split_and!; [done..|]. intros []. done.
Qed.
End match_algo.

(** C21. [buf_match_algo] refines the rule of RFC 4253, section 7.1, on either
    side: for every list the peer may send, the call returns, leaves the
    position behind the list, and chooses the first name on the client's list
    that the server's list has too (the peer's list as [offered] reads it, our
    list as [buf_put_algolist] sends it), or nothing when there is none; what
    it chooses is one of our usable algorithms. *)
Theorem buf_match_algo_refines {D Mo} (srv : bool) (l : list (algo_type D Mo)) kg wg b lst tl :
  algos_ok l → buf_wf b → p_string (buf_rest b) = Some (lst, tl) →
  ∃ r kg' good b', buf_match_algo srv l kg wg b = Ok ((r, kg', good), b') ∧ buf_rest b' = tl ∧
    match offered lst with
    | None => r = None
    | Some names =>
        agreed (if srv then names else usable_names l) (if srv then usable_names l else names) (name <$> r) ∧
        (∀ a, r = Some a → a ∈ l ∧ usable a = true)
    end.
Proof.
  intros Hok Hwf Hp. pose proof (buf_match_algo_run srv l kg wg b lst tl Hok Hwf Hp) as Hr.
  apply twp_iff in Hr as ([[r kg'] good] & b' & E & Hwf' & Hrest & Ho). exists r, kg', good, b'.
  split_and!; [done..|]. unfold match_outcome in Ho. case_match; naive_solver.
Qed.

(** Two algorithms of which the first is not usable, and a client that offers
    the second, the first, and a third. *)
Definition demo_algos : list (algo_type () ()) :=
  [mkAlgo [97; 97] 1 tt false tt; mkAlgo [98; 98] 2 tt true tt].
Definition demo_offer : buffer :=
  let d := [0; 0; 0; 8; 98; 98; 44; 97; 97; 44; 99; 99; 7] in mkBuf d 13 0 13.
Lemma demo_algos_ok : algos_ok demo_algos.
Proof. split; [done|]. repeat constructor; try done; intros H; set_unfold in H; lia. Qed.
Lemma demo_offer_wf : buf_wf demo_offer.
Proof. split; cbn; unfold BUF_MAX_SIZE; try lia; try done. repeat constructor; done. Qed.
Lemma buf_match_algo_refines_witness :
  p_string (buf_rest demo_offer) = Some ([98; 98; 44; 97; 97; 44; 99; 99], [7]) ∧
  ∃ r kg' good b', buf_match_algo true demo_algos None false demo_offer = Ok ((r, kg', good), b') ∧
    buf_rest b' = [7] ∧ agreed [[98; 98]; [97; 97]; [99; 99]] [[98; 98]] (name <$> r) ∧
    (∀ a, r = Some a → a ∈ demo_algos ∧ usable a = true).
Proof.
  split; [reflexivity|].
  apply (buf_match_algo_refines true demo_algos None false demo_offer
    [98; 98; 44; 97; 97; 44; 99; 99] [7] demo_algos_ok demo_offer_wf). reflexivity.
Defined.

(** Our own list is read back by the peer; an empty one as one empty name. *)
Lemma offered_own {D Mo} (l : list (algo_type D Mo)) : sendable l →
  offered (comma_join (usable_names l)) = Some (if decide (usable_names l = []) then [[]] else usable_names l).
Proof.
  intros [[Hn Hl] Hfit]. unfold offered. rewrite (proj2 (Z.leb_le _ _)) by lia.
  destruct (decide (usable_names l = [])) as [->|Hne].
  { cbn [comma_join comma_split]. unfold offered_names. rewrite decide_True; [done|].
    constructor; [set_solver|constructor]. }
  assert (Hlen : (length (usable_names l) ≤ 20)%nat).
  { unfold usable_names, MAX_PROPOSED_ALGO in *. rewrite length_fmap.
    pose proof (length_filter (λ a, usable a = true) l). lia. }
  assert (Hg : Forall good_name (usable_names l)).
  { unfold usable_names. apply Forall_fmap, Forall_forall. intros a [_ Ha]%list_elem_of_filter.
    rewrite Forall_forall in Hl. by apply Hl. }
  rewrite comma_split_join; [|done|by eapply Forall_impl; [exact Hg|intros ? (_ & _ & ? & _)]].
  assert (Hz : Forall (λ n, 0 ∉ n) (usable_names l)).
  { by eapply Forall_impl; [exact Hg|intros ? (_ & ? & _ & _)]. }
  unfold offered_names. rewrite decide_True by by apply Forall_take. f_equal.
  rewrite <- (take_drop 19 (usable_names l)) at 3. f_equal.
  destruct (drop 19 (usable_names l)) as [|n [|]] eqn:E; [done| |].
  - cbn [comma_join]. rewrite cstr_id; [done|]. apply (Forall_drop _ 19) in Hz. rewrite E in Hz.
    inversion Hz; subst. apply Forall_forall. set_solver.
  - apply (f_equal length) in E. rewrite length_drop in E. cbn in E. lia.
Qed.

(** An empty list and the list of one empty name match nothing. *)
Lemma agreed_empty_name clis servs r : [] ∉ servs → [] ∉ clis →
  agreed (if decide (clis = []) then [[]] else clis) servs r → agreed clis servs r.
Proof.
  intros Hs Hc. case_decide as E; [subst|done]. destruct r as [n|]; cbn.
  - intros (pre & post & Hx & Hn & _). destruct pre; cbn in Hx; simplify_eq; [done|]. by destruct pre.
  - set_solver.
Qed.
Lemma agreed_empty_name_r clis servs r : [] ∉ clis →
  agreed clis (if decide (servs = []) then [[]] else servs) r → agreed clis servs r.
Proof.
  intros Hc. case_decide as E; [subst|done]. destruct r as [n|]; cbn; [|set_solver].
  intros (pre & post & -> & Hn & _). set_solver.
Qed.
Lemma usable_names_nonempty {D Mo} (l : list (algo_type D Mo)) : algos_ok l → [] ∉ usable_names l.
Proof.
  intros [_ Hl]. unfold usable_names. intros (a & Ha & [_ Hin]%list_elem_of_filter)%list_elem_of_fmap.
  rewrite Forall_forall in Hl. by destruct (Hl a Hin).
Qed.

(** C22. Both ends agree: of two peers, each given the list that the other
    one's [buf_put_algolist] writes, the client and the server choose
    algorithms of the same name, and neither chooses one when the other finds
    none. *)
Theorem negotiation_agrees {D Mo} (client server : list (algo_type D Mo)) bc bs tlc tls kc ks wc ws :
  sendable client → sendable server →
  buf_wf bc → buf_rest bc = STORE32H (zlen (comma_join (usable_names server))) ++
                            comma_join (usable_names server) ++ tlc →
  buf_wf bs → buf_rest bs = STORE32H (zlen (comma_join (usable_names client))) ++
                            comma_join (usable_names client) ++ tls →
  ∃ rc kc' gc bc' rs ks' gs bs',
    buf_match_algo false client kc wc bc = Ok ((rc, kc', gc), bc') ∧
    buf_match_algo true server ks ws bs = Ok ((rs, ks', gs), bs') ∧
    name <$> rc = name <$> rs ∧ buf_rest bc' = tlc ∧ buf_rest bs' = tls.
Proof.
  intros Hc Hs Hwc Hrc Hws Hrs. pose proof (offered_own _ Hc) as Oc. pose proof (offered_own _ Hs) as Os.
  destruct Hc as [Hc Lc], Hs as [Hs Ls].
  assert (Pc : p_string (buf_rest bc) = Some (comma_join (usable_names server), tlc))
    by (rewrite Hrc; apply p_string_app; unfold MAX_STRING_LEN; lia).
  assert (Ps : p_string (buf_rest bs) = Some (comma_join (usable_names client), tls))
    by (rewrite Hrs; apply p_string_app; unfold MAX_STRING_LEN; lia).
  pose proof (buf_match_algo_run false client kc wc bc _ _ Hc Hwc Pc) as Rc.
  pose proof (buf_match_algo_run true server ks ws bs _ _ Hs Hws Ps) as Rs.
  apply twp_iff in Rc as ([[rc kc'] gc] & bc' & Ec & _ & Hrc' & Ac).
  apply twp_iff in Rs as ([[rs ks'] gs] & bs' & Es & _ & Hrs' & As).
  exists rc, kc', gc, bc', rs, ks', gs, bs'. split_and!; [done..| |done|done].
  unfold match_outcome in Ac, As. rewrite Os in Ac. rewrite Oc in As.
  destruct Ac as (_ & Ac & _), As as (_ & As & _).
  apply agreed_empty_name_r in Ac; [|by apply usable_names_nonempty].
  apply agreed_empty_name in As; [|by apply usable_names_nonempty..].
  by eapply agreed_unique.
Qed.
Definition demo_server_list : buffer := mkBuf [0; 0; 0; 2; 98; 98] 6 0 6.
Lemma demo_sendable : sendable demo_algos.
Proof. split; [apply demo_algos_ok|]. vm_compute. discriminate. Qed.
Lemma demo_server_list_wf : buf_wf demo_server_list.
Proof. split; cbn; unfold BUF_MAX_SIZE; try lia; try done. repeat constructor; done. Qed.
Lemma negotiation_agrees_witness :
  buf_rest demo_server_list = STORE32H (zlen (comma_join (usable_names demo_algos))) ++
                              comma_join (usable_names demo_algos) ++ [] ∧
  ∃ rc kc' gc bc' rs ks' gs bs',
    buf_match_algo false demo_algos None false demo_server_list = Ok ((rc, kc', gc), bc') ∧
    buf_match_algo true demo_algos (Some KEXGUESS2_LOOK) true demo_server_list = Ok ((rs, ks', gs), bs') ∧
    name <$> rc = name <$> rs ∧ buf_rest bc' = [] ∧ buf_rest bs' = [].
Proof.
  split; [reflexivity|].
  apply (negotiation_agrees demo_algos demo_algos demo_server_list demo_server_list [] [] None
    (Some KEXGUESS2_LOOK) false true demo_sendable demo_sendable demo_server_list_wf eq_refl
    demo_server_list_wf eq_refl).
Defined.

(** What the server takes for a good first guess: with the
    [kexguess2] extension, the algorithm chosen is the first one on the
    client's list; without it, the algorithm chosen must also be the first
    entry of the server's array.  That entry may be one the server cannot use
    and does not send: then no guess is good, not even that of a client whose
    first name is the first name the server sent. *)
Theorem goodguess_first_entry {D Mo} (l : list (algo_type D Mo)) kg b lst tl names :
  algos_ok l → buf_wf b → p_string (buf_rest b) = Some (lst, tl) → offered lst = Some names →
  ∃ r kg' good b', buf_match_algo true l (Some kg) true b = Ok ((r, kg', good), b') ∧
    (kg' = Some KEXGUESS2_YES → good = true ↔ is_Some r ∧ head names = name <$> r) ∧
    (kg' = Some KEXGUESS2_NO → good = true ↔ is_Some r ∧ head names = name <$> r ∧ head l = r) ∧
    (kg' = Some KEXGUESS2_NO → (∃ a, head l = Some a ∧ usable a = false) → good = false).
Proof.
  intros Hok Hwf Hp Ho. pose proof (buf_match_algo_run true l (Some kg) true b lst tl Hok Hwf Hp) as Hr.
  apply twp_iff in Hr as ([[r kg'] good] & b' & E & Hwf' & Hrest & Hm). exists r, kg', good, b'.
  unfold match_outcome in Hm. rewrite Ho in Hm. destruct Hm as (_ & _ & Hu & Hg). specialize (Hg eq_refl).
  split; [done|].
  assert (H2 : kg' = Some KEXGUESS2_NO → good = true ↔ is_Some r ∧ head names = name <$> r ∧ head l = r).
  { intros ->. rewrite Hg. split.
    - intros (_ & _ & a & -> & ? & Hd). split_and!; [by eexists|done|by apply Hd].
    - intros ([a ->] & ? & ?). split_and!; [done|by eexists|]. exists a. by split_and!. }
  split_and!; [|done|].
  - intros ->. rewrite Hg. split; [intros (_ & _ & a & -> & ? & _); split; [by eexists|done]|].
    intros [[a ->] ?]. split_and!; [done|by eexists|]. exists a. split_and!; [done..|]. intros []. done.
  - intros Hk (a & Ha & Hau). destruct good; [|done]. destruct (proj1 (H2 Hk) eq_refl) as (_ & _ & Hl).
    destruct (Hu a) as [_ ?]; congruence.
Qed.
(** The client's first name is the first name the server sent, and yet the
    guess is called wrong. *)
Lemma goodguess_first_entry_witness :
  head (usable_names demo_algos) = Some [98; 98] ∧
  ∃ r kg' good b', buf_match_algo true demo_algos (Some KEXGUESS2_LOOK) true demo_offer = Ok ((r, kg', good), b') ∧
    (kg' = Some KEXGUESS2_YES → good = true ↔ is_Some r ∧ Some [98; 98] = name <$> r) ∧
    (kg' = Some KEXGUESS2_NO → good = true ↔ is_Some r ∧ Some [98; 98] = name <$> r ∧ head demo_algos = r) ∧
    (kg' = Some KEXGUESS2_NO → (∃ a, head demo_algos = Some a ∧ usable a = false) → good = false).
Proof.
  split; [reflexivity|].
  apply (goodguess_first_entry demo_algos KEXGUESS2_LOOK demo_offer [98; 98; 44; 97; 97; 44; 99; 99] [7]
    [[98; 98]; [97; 97]; [99; 99]] demo_algos_ok demo_offer_wf); reflexivity.
Defined.
