(* ===== verification/Kex.v ===== *)
(** * The key exchange ([dropbear/common-kex.c], [dropbear/svr-kex.c])

    The handlers of the key exchange over the session state of
    [ProcessPacket.v]: what is negotiated, hashed, derived and switched.  The
    arrays of algorithms are parameters (they depend on the build and on the
    host keys loaded), and so are the hash functions, the cipher set-up, the
    big-integer and elliptic-curve arithmetic, zlib and the host key.
    [is_client] is [IS_DROPBEAR_CLIENT]: the routines both ends share are
    modelled for both. *)
From S2P Require Import Prelude Ssh Buffer Packet Session ProcessPacket Algo.

Definition MAX_HASH_SIZE : Z := 64.
Definition MAX_KEY_LEN : Z := 32.
Definition MAX_IV_LEN : Z := 20.
Definition KEXHASHBUF_MAX_INTS : Z := 1700 + 130 + 130 + 130.
Definition CURVE25519_LEN : Z := 32.
Definition DH_G_VAL : Z := 2.

Inductive dropbear_kex_mode := DROPBEAR_KEX_NORMAL_DH | DROPBEAR_KEX_ECDH | DROPBEAR_KEX_CURVE25519.

(** [struct ltc_hash_descriptor]: the routines of a hash function. *)
Record hash_descriptor (HS : Type) := mkHD {
  hd_hashsize : Z;
  hd_init : HS;
  hd_process : HS → list Z → HS;
  hd_done : HS → list Z
}.
Arguments mkHD {HS}. Arguments hd_hashsize {HS}. Arguments hd_init {HS}.
Arguments hd_process {HS}. Arguments hd_done {HS}.

Record dropbear_kex (HS CV : Type) := mkKex {
  kex_mode : dropbear_kex_mode;
  dh_p_bytes : list Z;
  ecc_curve : CV;
  kex_hash_desc : hash_descriptor HS
}.
Arguments mkKex {HS CV}. Arguments kex_mode {HS CV}. Arguments dh_p_bytes {HS CV}.
Arguments ecc_curve {HS CV}. Arguments kex_hash_desc {HS CV}.

(** The code the key exchange only calls.  [None] is a result other than
    success.  [EK] is an elliptic-curve key pair, [EP] a public point. *)
Class KexExternals (CS ZS HS RS CV EK EP : Type) := {
  find_cipher : string → Z;
  find_hash : string → Z;
  mode_start : @dropbear_cipher_mode CS → Z → list Z → list Z → Z → option CS;
  inflateInit : option ZS;
  inflateEnd : ZS → bool;       (* false is Z_STREAM_ERROR *)
  deflateInit2 : option ZS;
  deflateEnd : ZS → bool;
  kex_genrandom : RS → Z → list Z * RS;
  gen_random_mpint : RS → mp_int → mp_int * RS;
  mp_set_int : Z → option mp_int;
  mp_sub_d : mp_int → Z → option mp_int;
  mp_div_2 : mp_int → option mp_int;
  mp_exptmod : mp_int → mp_int → mp_int → option mp_int;
  mp_cmp : mp_int → mp_int → comparison;
  mp_cmp_d : mp_int → Z → comparison;
  curve25519_donna : list Z → list Z → list Z;
  ecc_make_key : RS → CV → option (EK * RS);
  buf_get_ecc_raw_pubkey : buffer → CV → option EP;
  dropbear_ecc_shared_secret : EP → EK → mp_int;
  ecc_point_of_key : EK → EP;
  buf_put_ecc_raw_pubkey_string : EP → M buffer ();
  buf_put_pub_key : Z → M buffer ();            (* the host key, by its type *)
  buf_put_sign : Z → buffer → M buffer ();
  svr_ensure_hostkey : Z → outcome ()
}.

Section kex.
Context {CS ZS HS RS CV EK EP : Type} `{!KexExternals CS ZS HS RS CV EK EP}.
Variable DIGIT_BIT : Z.
Variable is_client : bool.
Abbreviation kexalgo := (dropbear_kex HS CV).
Abbreviation cipher_mode := (@dropbear_cipher_mode CS).

(** [struct key_context_directional] with its pointers; [None] is null. *)
Record keydir := mkDir {
  d_crypt : option dropbear_cipher;
  d_mode : option cipher_mode;
  d_mac : option dropbear_hash;
  d_hash_index : Z;
  d_comp : Z;
  d_zstream : option ZS;
  d_cipher_state : option CS;
  d_mackey : list Z;
  d_valid : bool
}.
Definition set_d_hash_index (v : Z) (s : keydir) : keydir :=
  mkDir (d_crypt s) (d_mode s) (d_mac s) v (d_comp s) (d_zstream s) (d_cipher_state s) (d_mackey s)
    (d_valid s).
Definition set_d_zstream (v : option ZS) (s : keydir) : keydir :=
  mkDir (d_crypt s) (d_mode s) (d_mac s) (d_hash_index s) (d_comp s) v (d_cipher_state s)
    (d_mackey s) (d_valid s).
Definition set_d_cipher_state (v : option CS) (s : keydir) : keydir :=
  mkDir (d_crypt s) (d_mode s) (d_mac s) (d_hash_index s) (d_comp s) (d_zstream s) v (d_mackey s)
    (d_valid s).
Definition set_d_mackey (v : list Z) (s : keydir) : keydir :=
  mkDir (d_crypt s) (d_mode s) (d_mac s) (d_hash_index s) (d_comp s) (d_zstream s)
    (d_cipher_state s) v (d_valid s).
Definition set_d_valid (v : bool) (s : keydir) : keydir :=
  mkDir (d_crypt s) (d_mode s) (d_mac s) (d_hash_index s) (d_comp s) (d_zstream s)
    (d_cipher_state s) (d_mackey s) v.
(** [memset(..., 0x0, ...)] and [m_malloc]. *)
Definition keydir_zero : keydir := mkDir None None None 0 0 None None (replicate 64 0) false.

Record key_context := mkKC {
  kc_recv : keydir;
  kc_trans : keydir;
  algo_kex : option kexalgo;
  algo_hostkey : Z;
  allow_compress : Z
}.
Definition set_kc_recv (v : keydir) (s : key_context) : key_context :=
  mkKC v (kc_trans s) (algo_kex s) (algo_hostkey s) (allow_compress s).
Definition set_kc_trans (v : keydir) (s : key_context) : key_context :=
  mkKC (kc_recv s) v (algo_kex s) (algo_hostkey s) (allow_compress s).
Definition set_algo_kex (v : option kexalgo) (s : key_context) : key_context :=
  mkKC (kc_recv s) (kc_trans s) v (algo_hostkey s) (allow_compress s).
Definition set_algo_hostkey (v : Z) (s : key_context) : key_context :=
  mkKC (kc_recv s) (kc_trans s) (algo_kex s) v (allow_compress s).
Definition set_allow_compress (v : Z) (s : key_context) : key_context :=
  mkKC (kc_recv s) (kc_trans s) (algo_kex s) (algo_hostkey s) v.
Definition key_context_zero : key_context := mkKC keydir_zero keydir_zero None 0 0.

(** The arrays of [common-algo.c]. *)
Variable sshkex : list (algo_type (option kexalgo) ()).
Variable sshhostkey : list (algo_type () ()).
Variable sshciphers : list (algo_type dropbear_cipher cipher_mode).
Variable sshhashes : list (algo_type dropbear_hash ()).

(** The fields of the session the key exchange owns ([struct KEXState] and the
    pointers next to it). *)
Record kses := mkKses {
  sentkexinit : bool;
  recvkexinit : bool;
  them_firstfollows : bool;
  sentnewkeys : bool;
  recvnewkeys : bool;
  donefirstkex : bool;
  our_first_follows_matches : bool;
  kx_dataallowed : bool;
  lastkextime : Z;
  kx_datatrans : Z;
  kx_datarecv : Z;
  kx_payload_beginning : Z;
  keys : option key_context;
  newkeys : option key_context;
  session_id : option buffer;
  dh_K : option mp_int;
  kx_hash : option buffer;
  kexhashbuf : option buffer;
  transkexinit : option buffer;
  remoteident : list Z;
  compress_algos : list (algo_type () ());
  kx_rng : RS
}.
Definition set_sentkexinit (v : bool) (s : kses) : kses :=
  mkKses v (recvkexinit s) (them_firstfollows s) (sentnewkeys s) (recvnewkeys s) (donefirstkex s)
    (our_first_follows_matches s) (kx_dataallowed s) (lastkextime s) (kx_datatrans s)
    (kx_datarecv s) (kx_payload_beginning s) (keys s) (newkeys s) (session_id s) (dh_K s)
    (kx_hash s) (kexhashbuf s) (transkexinit s) (remoteident s) (compress_algos s) (kx_rng s).
Definition set_recvkexinit (v : bool) (s : kses) : kses :=
  mkKses (sentkexinit s) v (them_firstfollows s) (sentnewkeys s) (recvnewkeys s) (donefirstkex s)
    (our_first_follows_matches s) (kx_dataallowed s) (lastkextime s) (kx_datatrans s)
    (kx_datarecv s) (kx_payload_beginning s) (keys s) (newkeys s) (session_id s) (dh_K s)
    (kx_hash s) (kexhashbuf s) (transkexinit s) (remoteident s) (compress_algos s) (kx_rng s).
Definition set_them_firstfollows (v : bool) (s : kses) : kses :=
  mkKses (sentkexinit s) (recvkexinit s) v (sentnewkeys s) (recvnewkeys s) (donefirstkex s)
    (our_first_follows_matches s) (kx_dataallowed s) (lastkextime s) (kx_datatrans s)
    (kx_datarecv s) (kx_payload_beginning s) (keys s) (newkeys s) (session_id s) (dh_K s)
    (kx_hash s) (kexhashbuf s) (transkexinit s) (remoteident s) (compress_algos s) (kx_rng s).
Definition set_sentnewkeys (v : bool) (s : kses) : kses :=
  mkKses (sentkexinit s) (recvkexinit s) (them_firstfollows s) v (recvnewkeys s) (donefirstkex s)
    (our_first_follows_matches s) (kx_dataallowed s) (lastkextime s) (kx_datatrans s)
    (kx_datarecv s) (kx_payload_beginning s) (keys s) (newkeys s) (session_id s) (dh_K s)
    (kx_hash s) (kexhashbuf s) (transkexinit s) (remoteident s) (compress_algos s) (kx_rng s).
Definition set_recvnewkeys (v : bool) (s : kses) : kses :=
  mkKses (sentkexinit s) (recvkexinit s) (them_firstfollows s) (sentnewkeys s) v (donefirstkex s)
    (our_first_follows_matches s) (kx_dataallowed s) (lastkextime s) (kx_datatrans s)
    (kx_datarecv s) (kx_payload_beginning s) (keys s) (newkeys s) (session_id s) (dh_K s)
    (kx_hash s) (kexhashbuf s) (transkexinit s) (remoteident s) (compress_algos s) (kx_rng s).
Definition set_donefirstkex (v : bool) (s : kses) : kses :=
  mkKses (sentkexinit s) (recvkexinit s) (them_firstfollows s) (sentnewkeys s) (recvnewkeys s) v
    (our_first_follows_matches s) (kx_dataallowed s) (lastkextime s) (kx_datatrans s)
    (kx_datarecv s) (kx_payload_beginning s) (keys s) (newkeys s) (session_id s) (dh_K s)
    (kx_hash s) (kexhashbuf s) (transkexinit s) (remoteident s) (compress_algos s) (kx_rng s).
Definition set_our_first_follows_matches (v : bool) (s : kses) : kses :=
  mkKses (sentkexinit s) (recvkexinit s) (them_firstfollows s) (sentnewkeys s) (recvnewkeys s)
    (donefirstkex s) v (kx_dataallowed s) (lastkextime s) (kx_datatrans s) (kx_datarecv s)
    (kx_payload_beginning s) (keys s) (newkeys s) (session_id s) (dh_K s) (kx_hash s) (kexhashbuf s)
    (transkexinit s) (remoteident s) (compress_algos s) (kx_rng s).
Definition set_kx_dataallowed (v : bool) (s : kses) : kses :=
  mkKses (sentkexinit s) (recvkexinit s) (them_firstfollows s) (sentnewkeys s) (recvnewkeys s)
    (donefirstkex s) (our_first_follows_matches s) v (lastkextime s) (kx_datatrans s)
    (kx_datarecv s) (kx_payload_beginning s) (keys s) (newkeys s) (session_id s) (dh_K s)
    (kx_hash s) (kexhashbuf s) (transkexinit s) (remoteident s) (compress_algos s) (kx_rng s).
Definition set_keys (v : option key_context) (s : kses) : kses :=
  mkKses (sentkexinit s) (recvkexinit s) (them_firstfollows s) (sentnewkeys s) (recvnewkeys s)
    (donefirstkex s) (our_first_follows_matches s) (kx_dataallowed s) (lastkextime s)
    (kx_datatrans s) (kx_datarecv s) (kx_payload_beginning s) v (newkeys s) (session_id s) (dh_K s)
    (kx_hash s) (kexhashbuf s) (transkexinit s) (remoteident s) (compress_algos s) (kx_rng s).
Definition set_newkeys (v : option key_context) (s : kses) : kses :=
  mkKses (sentkexinit s) (recvkexinit s) (them_firstfollows s) (sentnewkeys s) (recvnewkeys s)
    (donefirstkex s) (our_first_follows_matches s) (kx_dataallowed s) (lastkextime s)
    (kx_datatrans s) (kx_datarecv s) (kx_payload_beginning s) (keys s) v (session_id s) (dh_K s)
    (kx_hash s) (kexhashbuf s) (transkexinit s) (remoteident s) (compress_algos s) (kx_rng s).
Definition set_session_id (v : option buffer) (s : kses) : kses :=
  mkKses (sentkexinit s) (recvkexinit s) (them_firstfollows s) (sentnewkeys s) (recvnewkeys s)
    (donefirstkex s) (our_first_follows_matches s) (kx_dataallowed s) (lastkextime s)
    (kx_datatrans s) (kx_datarecv s) (kx_payload_beginning s) (keys s) (newkeys s) v (dh_K s)
    (kx_hash s) (kexhashbuf s) (transkexinit s) (remoteident s) (compress_algos s) (kx_rng s).
Definition set_dh_K (v : option mp_int) (s : kses) : kses :=
  mkKses (sentkexinit s) (recvkexinit s) (them_firstfollows s) (sentnewkeys s) (recvnewkeys s)
    (donefirstkex s) (our_first_follows_matches s) (kx_dataallowed s) (lastkextime s)
    (kx_datatrans s) (kx_datarecv s) (kx_payload_beginning s) (keys s) (newkeys s) (session_id s) v
    (kx_hash s) (kexhashbuf s) (transkexinit s) (remoteident s) (compress_algos s) (kx_rng s).
Definition set_kx_hash (v : option buffer) (s : kses) : kses :=
  mkKses (sentkexinit s) (recvkexinit s) (them_firstfollows s) (sentnewkeys s) (recvnewkeys s)
    (donefirstkex s) (our_first_follows_matches s) (kx_dataallowed s) (lastkextime s)
    (kx_datatrans s) (kx_datarecv s) (kx_payload_beginning s) (keys s) (newkeys s) (session_id s)
    (dh_K s) v (kexhashbuf s) (transkexinit s) (remoteident s) (compress_algos s) (kx_rng s).
Definition set_kexhashbuf (v : option buffer) (s : kses) : kses :=
  mkKses (sentkexinit s) (recvkexinit s) (them_firstfollows s) (sentnewkeys s) (recvnewkeys s)
    (donefirstkex s) (our_first_follows_matches s) (kx_dataallowed s) (lastkextime s)
    (kx_datatrans s) (kx_datarecv s) (kx_payload_beginning s) (keys s) (newkeys s) (session_id s)
    (dh_K s) (kx_hash s) v (transkexinit s) (remoteident s) (compress_algos s) (kx_rng s).
Definition set_transkexinit (v : option buffer) (s : kses) : kses :=
  mkKses (sentkexinit s) (recvkexinit s) (them_firstfollows s) (sentnewkeys s) (recvnewkeys s)
    (donefirstkex s) (our_first_follows_matches s) (kx_dataallowed s) (lastkextime s)
    (kx_datatrans s) (kx_datarecv s) (kx_payload_beginning s) (keys s) (newkeys s) (session_id s)
    (dh_K s) (kx_hash s) (kexhashbuf s) v (remoteident s) (compress_algos s) (kx_rng s).
Definition set_kx_rng (v : RS) (s : kses) : kses :=
  mkKses (sentkexinit s) (recvkexinit s) (them_firstfollows s) (sentnewkeys s) (recvnewkeys s)
    (donefirstkex s) (our_first_follows_matches s) (kx_dataallowed s) (lastkextime s)
    (kx_datatrans s) (kx_datarecv s) (kx_payload_beginning s) (keys s) (newkeys s) (session_id s)
    (dh_K s) (kx_hash s) (kexhashbuf s) (transkexinit s) (remoteident s) (compress_algos s) v.
Abbreviation kst := (pses kses).
Definition set_rest (r : kses) (s : kst) : kst :=
  mkPses (pp_io s) (lastpacket s) (ProcessPacket.monotonic_now s) (last_packet_time_keepalive_recv s)
    (ProcessPacket.last_packet_time_idle s) (requirenext s) (ignorenext s) (authdone s)
    (ProcessPacket.recvseq s) r.
Definition kx {A} (f : kses → A) : M kst A := gets (λ s, f (rest s)).
Definition kmod (f : kses → kses) : M kst () := modify (λ s, set_rest (f (rest s)) s).

(** Following a pointer. *)
Definition deref {A} (what : string) (o : option A) : M kst A :=
  match o with Some a => mret a | None => undefined what end.
(** A routine of [buffer.c] on a buffer the session points to. *)
Definition on_buf {A} (g : kses → option buffer) (upd : option buffer → kses → kses) (m : M buffer A) : M kst A :=
  b ← kx g;
  b ← deref "null buffer" b;
  r ← lift (m b);
  kmod (upd (Some r.2));;
  mret r.1.
Definition on_kexhashbuf {A} (m : M buffer A) : M kst A := on_buf kexhashbuf set_kexhashbuf m.
(** [ses.newkeys->...]. *)
Definition get_newkeys : M kst key_context := k ← kx newkeys; deref "null newkeys" k.
Definition get_algo_kex : M kst kexalgo := k ← get_newkeys; deref "null algo_kex" (algo_kex k).
Definition upd_newkeys (f : key_context → key_context) : M kst () :=
  k ← get_newkeys; kmod (set_newkeys (Some (f k))).
Definition get_keys : M kst key_context := k ← kx keys; deref "null keys" k.
Definition upd_keys (f : key_context → key_context) : M kst () :=
  k ← get_keys; kmod (set_keys (Some (f k))).

Definition genrandom_bytes (n : Z) : M kst (list Z) :=
  r ← kx kx_rng;
  let '(bs, r) := kex_genrandom r n in
  kmod (set_kx_rng r);;
  mret bs.

(** [send_kex_first_guess]: null on the server. *)
Variable send_kex_first_guess : option (M kst ()).

Definition kexinitialise : M kst () :=
  now ← gets ProcessPacket.monotonic_now;
  kmod (λ k, mkKses false false false false false (donefirstkex k) false (kx_dataallowed k) now 0 0
    (kx_payload_beginning k) (keys k) (newkeys k) (session_id k) (dh_K k) (kx_hash k) (kexhashbuf k)
    (transkexinit k) (remoteident k) (compress_algos k) (kx_rng k)).

Definition send_msg_kexinit : M kst () :=
  ses_write (buf_putbyte SSH_MSG_KEXINIT);;
  p ← ses_write (buf_getwriteptr 16);
  cookie ← genrandom_bytes 16;
  ses_write (buf_store p cookie);;
  ses_write (buf_incrwritepos 16);;
  ses_write (buf_put_algolist sshkex);;
  ses_write (buf_put_algolist sshhostkey);;
  ses_write (buf_put_algolist sshciphers);;
  ses_write (buf_put_algolist sshciphers);;
  ses_write (buf_put_algolist sshhashes);;
  ses_write (buf_put_algolist sshhashes);;
  ca ← kx compress_algos;
  ses_write (buf_put_algolist ca);;
  ses_write (buf_put_algolist ca);;
  ses_write (buf_putstring [] 0);;
  ses_write (buf_putstring [] 0);;
  ses_write (buf_putbyte (match send_kex_first_guess with Some _ => 1 | None => 0 end));;
  ses_write (buf_putint 0);;
  w ← ses_write get;
  t ← lift (buf_newcopy w);
  kmod (set_transkexinit (Some t));;
  encrypt_msg;;
  kmod (set_kx_dataallowed false);;
  kmod (set_sentkexinit true);;
  kmod (set_newkeys (Some key_context_zero));;
  match send_kex_first_guess with
  | Some guess =>
      k0 ← deref "sshkex[0]" (head sshkex);
      h0 ← deref "sshhostkey[0]" (head sshhostkey);
      upd_newkeys (λ k, set_algo_hostkey (val h0) (set_algo_kex (data k0) k));;
      guess
  | None => mret tt
  end.

Definition uses_zlib (d : keydir) : bool :=
  (d_comp d =? DROPBEAR_COMP_ZLIB) || (d_comp d =? DROPBEAR_COMP_ZLIB_DELAY).

Definition gen_new_zstream_recv : M kst () :=
  n ← get_newkeys;
  (if uses_zlib (kc_recv n) then
     match inflateInit with
     | Some z => upd_newkeys (λ n, set_kc_recv (set_d_zstream (Some z) (kc_recv n)) n)
     | None => dropbear_exit "zlib error"
     end
   else upd_newkeys (λ n, set_kc_recv (set_d_zstream None (kc_recv n)) n));;
  k ← get_keys;
  match d_zstream (kc_recv k) with
  | Some z => if inflateEnd z then upd_keys (λ k, set_kc_recv (set_d_zstream None (kc_recv k)) k)
              else dropbear_exit "Crypto error"
  | None => mret tt
  end.

Definition gen_new_zstream_trans : M kst () :=
  n ← get_newkeys;
  (if uses_zlib (kc_trans n) then
     match deflateInit2 with
     | Some z => upd_newkeys (λ n, set_kc_trans (set_d_zstream (Some z) (kc_trans n)) n)
     | None => dropbear_exit "zlib error"
     end
   else upd_newkeys (λ n, set_kc_trans (set_d_zstream None (kc_trans n)) n));;
  k ← get_keys;
  match d_zstream (kc_trans k) with
  | Some z => if deflateEnd z then upd_keys (λ k, set_kc_trans (set_d_zstream None (kc_trans k)) k)
              else dropbear_exit "Crypto error"
  | None => mret tt
  end.

Definition switch_keys : M kst () :=
  k ← kx id;
  if negb (sentkexinit k && recvkexinit k) then dropbear_exit "Unexpected newkeys message"
  else
    (match keys k with None => kmod (set_keys (Some key_context_zero)) | Some _ => mret tt end);;
    (if recvnewkeys k then
       n ← get_newkeys;
       if d_valid (kc_recv n) then
         gen_new_zstream_recv;;
         n ← get_newkeys;
         upd_keys (set_kc_recv (kc_recv n));;
         upd_newkeys (set_kc_recv keydir_zero)
       else mret tt
     else mret tt);;
    (if sentnewkeys k then
       n ← get_newkeys;
       if d_valid (kc_trans n) then
         gen_new_zstream_trans;;
         n ← get_newkeys;
         upd_keys (set_kc_trans (kc_trans n));;
         upd_newkeys (set_kc_trans keydir_zero)
       else mret tt
     else mret tt);;
    if sentnewkeys k && recvnewkeys k then
      n ← get_newkeys;
      upd_keys (λ k, set_allow_compress 0 (set_algo_hostkey (algo_hostkey n) (set_algo_kex (algo_kex n) k)));;
      kmod (set_newkeys None);;
      kexinitialise
    else mret tt.

(** [hash_process_mp] of [bignum.c]. *)
Definition hash_process_mp (hd : hash_descriptor HS) (hs : HS) (mp : mp_int) : outcome HS :=
  buf ← buf_new (512 + 20);
  buf ← exec (buf_putmpint DIGIT_BIT mp) buf;
  bs ← mem_load (buf_data buf) 0 (buf_len buf);
  mret (hd_process hd hs bs).

(** The loop that extends a key; [out] is what is there up to [offset]. *)
Fixpoint hashkeys_loop (fuel : nat) (hd : hash_descriptor HS) (hs : HS) (outlen : Z) (out : list Z) : list Z :=
  match fuel with
  | O => out
  | S fuel =>
      if zlen out <? outlen then
        let tmpout := hd_done hd (hd_process hd hs out) in
        hashkeys_loop fuel hd hs outlen
          (out ++ take (Z.to_nat (Z.min (outlen - zlen out) (hd_hashsize hd))) tmpout)
      else out
  end.
Definition hashkeys (hd : hash_descriptor HS) (sid : list Z) (outlen : Z) (hs : HS) (X : Z) : list Z :=
  let hs2 := hd_process hd (hd_process hd hs [X]) sid in
  let tmpout := hd_done hd hs2 in
  hashkeys_loop (Z.to_nat outlen) hd hs outlen (take (Z.to_nat (Z.min (hd_hashsize hd) outlen)) tmpout).

Definition oderef {A} (what : string) (o : option A) : outcome A :=
  match o with Some a => Ok a | None => UB what end.
(** The set-up of one direction's cipher. *)
Definition start_cipher (d : keydir) (IV key : list Z) : outcome keydir :=
  c ← oderef "null algo_crypt" (d_crypt d);
  match cipherdesc c with
  | None => mret d
  | Some desc =>
      let cipher := find_cipher desc in
      if cipher <? 0 then Exit "Crypto error"
      else
        m ← oderef "null crypt_mode" (d_mode d);
        match mode_start m cipher IV key (keysize c) with
        | Some cs => mret (set_d_cipher_state (Some cs) d)
        | None => Exit "Crypto error"
        end
  end.
(** One direction's MAC key: [hashkeys] writes [keysize] bytes into the
    [MAX_MAC_LEN] bytes of [mackey]. *)
Definition mac_key (hd : hash_descriptor HS) (sid : list Z) (hs : HS) (letter : Z) (d : keydir) : outcome keydir :=
  a ← oderef "null algo_mac" (d_mac d);
  match hash_desc a with
  | None => mret d
  | Some desc =>
      key ← mem_store (d_mackey d) 0 (hashkeys hd sid (hash_keysize a) hs letter);
      mret (set_d_hash_index (find_hash desc) (set_d_mackey key d))
  end.

Definition gen_new_keys : M kst () :=
  kex ← get_algo_kex;
  let hd := kex_hash_desc kex in
  dhk ← kx dh_K;
  dhk ← deref "null dh_K" dhk;
  hs ← lift (hash_process_mp hd (hd_init hd) dhk);
  kmod (set_dh_K None);;
  h ← kx kx_hash;
  h ← deref "null hash" h;
  hbytes ← lift (mem_load (buf_data h) 0 (buf_len h));
  let hs := hd_process hd hs hbytes in
  kmod (set_kx_hash None);;
  sid ← kx session_id;
  sid ← deref "null session_id" sid;
  sid ← lift (mem_load (buf_data sid) 0 (buf_len sid));
  let mactransletter := if is_client then 69 else 70 in
  let macrecvletter := if is_client then 70 else 69 in
  let C2S_IV := hashkeys hd sid MAX_IV_LEN hs 65 in
  let S2C_IV := hashkeys hd sid MAX_IV_LEN hs 66 in
  let C2S_key := hashkeys hd sid MAX_KEY_LEN hs 67 in
  let S2C_key := hashkeys hd sid MAX_KEY_LEN hs 68 in
  let trans_IV := if is_client then C2S_IV else S2C_IV in
  let recv_IV := if is_client then S2C_IV else C2S_IV in
  let trans_key := if is_client then C2S_key else S2C_key in
  let recv_key := if is_client then S2C_key else C2S_key in
  n ← get_newkeys;
  r ← lift (start_cipher (kc_recv n) recv_IV recv_key);
  upd_newkeys (set_kc_recv r);;
  n ← get_newkeys;
  t ← lift (start_cipher (kc_trans n) trans_IV trans_key);
  upd_newkeys (set_kc_trans t);;
  n ← get_newkeys;
  t ← lift (mac_key hd sid hs mactransletter (kc_trans n));
  upd_newkeys (set_kc_trans t);;
  n ← get_newkeys;
  r ← lift (mac_key hd sid hs macrecvletter (kc_recv n));
  upd_newkeys (set_kc_recv r);;
  upd_newkeys (λ n, set_kc_trans (set_d_valid true (kc_trans n)) n);;
  upd_newkeys (λ n, set_kc_recv (set_d_valid true (kc_recv n)) n).

Definition send_msg_newkeys : M kst () :=
  ses_write (buf_putbyte SSH_MSG_NEWKEYS);;
  encrypt_msg;;
  kmod (set_sentnewkeys true);;
  kmod (set_donefirstkex true);;
  kmod (set_kx_dataallowed true);;
  gen_new_keys;;
  switch_keys.

Definition recv_msg_newkeys : M kst () :=
  kmod (set_recvnewkeys true);;
  switch_keys.

Definition match_kex {D Mo} (l : list (algo_type D Mo)) (kg : kexguess2_used) : M kst (option (algo_type D Mo) * kexguess2_used * bool) :=
  '(a, kg', good) ← ses_payload (buf_match_algo (negb is_client) l (Some kg) true);
  mret (a, default kg kg', good).
Definition match_plain {D Mo} (l : list (algo_type D Mo)) : M kst (option (algo_type D Mo)) :=
  '(a, _, _) ← ses_payload (buf_match_algo (negb is_client) l None false);
  mret a.
(** [if (algo == NULL) { erralgo = ...; goto error; }] *)
Definition required {A} (erralgo : string) (o : option A) : M kst A :=
  match o with Some a => mret a | None => dropbear_exit ("No matching algo " ++ erralgo)%string end.

Definition read_kex_algos : M kst () :=
  ses_payload (buf_incrpos 16);;
  get_newkeys;;
  kmod (set_newkeys (Some key_context_zero));;
  '(algo, kexguess2, goodguess) ← match_kex sshkex KEXGUESS2_LOOK;
  let allgood := goodguess in
  kex ← required "kex" algo;
  if val kex =? KEXGUESS2_ALGO_ID then dropbear_exit "No matching algo kex"
  else
    upd_newkeys (set_algo_kex (data kex));;
    '(algo, kexguess2, goodguess) ← match_kex sshhostkey kexguess2;
    let allgood := allgood && goodguess in
    hostkey ← required "hostkey" algo;
    upd_newkeys (set_algo_hostkey (val hostkey));;
    a ← match_plain sshciphers; c2s_cipher_algo ← required "enc c->s" a;
    a ← match_plain sshciphers; s2c_cipher_algo ← required "enc s->c" a;
    a ← match_plain sshhashes; c2s_hash_algo ← required "mac c->s" a;
    a ← match_plain sshhashes; s2c_hash_algo ← required "mac s->c" a;
    ca ← kx compress_algos;
    a ← match_plain ca; c2s_comp_algo ← required "comp c->s" a;
    a ← match_plain ca; s2c_comp_algo ← required "comp s->c" a;
    ses_payload buf_eatstring;;
    ses_payload buf_eatstring;;
    firstfollows ← ses_payload buf_getbool;
    when (negb (firstfollows =? 0))
      (kmod (set_them_firstfollows true);;
       when (negb allgood) (modify (set_ignorenext true)));;
    let recv_cipher := if is_client then s2c_cipher_algo else c2s_cipher_algo in
    let trans_cipher := if is_client then c2s_cipher_algo else s2c_cipher_algo in
    let recv_hash := if is_client then s2c_hash_algo else c2s_hash_algo in
    let trans_hash := if is_client then c2s_hash_algo else s2c_hash_algo in
    let recv_comp := if is_client then s2c_comp_algo else c2s_comp_algo in
    let trans_comp := if is_client then c2s_comp_algo else s2c_comp_algo in
    upd_newkeys (λ n, set_kc_recv (mkDir (Some (data recv_cipher)) (Some (mode recv_cipher))
      (Some (data recv_hash)) (d_hash_index (kc_recv n)) (val recv_comp) (d_zstream (kc_recv n))
      (d_cipher_state (kc_recv n)) (d_mackey (kc_recv n)) (d_valid (kc_recv n))) n);;
    upd_newkeys (λ n, set_kc_trans (mkDir (Some (data trans_cipher)) (Some (mode trans_cipher))
      (Some (data trans_hash)) (d_hash_index (kc_trans n)) (val trans_comp) (d_zstream (kc_trans n))
      (d_cipher_state (kc_trans n)) (d_mackey (kc_trans n)) (d_valid (kc_trans n))) n);;
    ses_payload buf_getint;;
    match send_kex_first_guess with
    | Some _ => when allgood (kmod (set_our_first_follows_matches true))
    | None => mret tt
    end.

(** The payload of the packet, from its beginning. *)
Definition payload_string : M kst (list Z) :=
  beg ← kx kx_payload_beginning;
  ses_payload (buf_setpos beg);;
  b ← ses_payload get;
  let n := u32 (buf_len b - buf_pos b) in
  p ← ses_payload (buf_getptr n);
  ses_payload (buf_load p n).

Definition recv_msg_kexinit : M kst () :=
  sent ← kx sentkexinit;
  when (negb sent) send_msg_kexinit;;
  t ← kx transkexinit;
  t ← deref "null transkexinit" t;
  p ← ses_payload get;
  remote ← kx remoteident;
  kb ← lift (buf_new (u32 (strlen LOCAL_IDENT + strlen remote + buf_len t + buf_len p + KEXHASHBUF_MAX_INTS)));
  kmod (set_kexhashbuf (Some kb));;
  read_kex_algos;;
  let put_transkexinit := on_kexhashbuf (buf_putstring (buf_data t) (buf_len t)) in
  let put_payload :=
    bs ← payload_string;
    on_kexhashbuf (buf_putstring bs (zlen bs)) in
  (if is_client then
     on_kexhashbuf (buf_putstring LOCAL_IDENT (strlen LOCAL_IDENT));;
     on_kexhashbuf (buf_putstring remote (strlen remote));;
     put_transkexinit;;
     put_payload;;
     modify (set_requirenext SSH_MSG_KEXDH_REPLY)
   else
     on_kexhashbuf (buf_putstring remote (strlen remote));;
     on_kexhashbuf (buf_putstring LOCAL_IDENT (strlen LOCAL_IDENT));;
     put_payload;;
     put_transkexinit;;
     modify (set_requirenext SSH_MSG_KEXDH_INIT));;
  kmod (set_transkexinit None);;
  kmod (set_recvkexinit true).

Definition finish_kexhashbuf : M kst () :=
  kex ← get_algo_kex;
  let hd := kex_hash_desc kex in
  on_kexhashbuf (buf_setpos 0);;
  n ← on_kexhashbuf (gets buf_len);
  p ← on_kexhashbuf (buf_getptr n);
  bs ← on_kexhashbuf (buf_load p n);
  h ← lift (buf_new (hd_hashsize hd));
  h ← lift (exec (p ← buf_getwriteptr (hd_hashsize hd);
                  buf_store p (hd_done hd (hd_process hd (hd_init hd) bs));;
                  buf_setlen (hd_hashsize hd)) h);
  kmod (set_kx_hash (Some h));;
  on_kexhashbuf buf_burn;;
  kmod (set_kexhashbuf None);;
  sid ← kx session_id;
  match sid with
  | None => c ← lift (buf_newcopy h); kmod (set_session_id (Some c))
  | Some _ => mret tt
  end.

Definition crypt_ok {A} (err : string) (o : option A) : M kst A :=
  match o with Some a => mret a | None => dropbear_exit err end.

Definition load_dh_p : M kst mp_int :=
  kex ← get_algo_kex; mret (mp_read_unsigned_bin DIGIT_BIT (dh_p_bytes kex)).

(** [struct kex_dh_param]: the public and the private value. *)
Definition gen_kexdh_param : M kst (mp_int * mp_int) :=
  dh_p ← load_dh_p;
  dh_g ← crypt_ok "Diffie-Hellman error" (mp_set_int DH_G_VAL);
  priv ← crypt_ok "Diffie-Hellman error" (mp_sub_d dh_p 1);
  dh_q ← crypt_ok "Diffie-Hellman error" (mp_div_2 priv);
  r ← kx kx_rng;
  let '(priv, r) := gen_random_mpint r dh_q in
  kmod (set_kx_rng r);;
  pub ← crypt_ok "Diffie-Hellman error" (mp_exptmod dh_g priv dh_p);
  mret (pub, priv).

(** The host key, in front of the exchange values. *)
Definition hash_hostkey : M kst () :=
  n ← get_newkeys; on_kexhashbuf (buf_put_pub_key (algo_hostkey n)).
Definition put_dh_K : M kst () :=
  k ← kx dh_K;
  k ← deref "null dh_K" k;
  on_kexhashbuf (buf_putmpint DIGIT_BIT k).

Definition kexdh_comb_key (param : mp_int * mp_int) (dh_pub_them : mp_int) : M kst () :=
  dh_p ← load_dh_p;
  dh_p_min1 ← crypt_ok "Diffie-Hellman error" (mp_sub_d dh_p 1);
  match mp_cmp dh_pub_them dh_p_min1, mp_cmp_d dh_pub_them 1 with
  | Lt, Gt =>
      K ← crypt_ok "Diffie-Hellman error" (mp_exptmod dh_pub_them param.2 dh_p);
      kmod (set_dh_K (Some K));;
      let dh_e := if is_client then param.1 else dh_pub_them in
      let dh_f := if is_client then dh_pub_them else param.1 in
      hash_hostkey;;
      on_kexhashbuf (buf_putmpint DIGIT_BIT dh_e);;
      on_kexhashbuf (buf_putmpint DIGIT_BIT dh_f);;
      put_dh_K;;
      finish_kexhashbuf
  | _, _ => dropbear_exit "Diffie-Hellman error"
  end.

Definition gen_kexecdh_param : M kst EK :=
  kex ← get_algo_kex;
  r ← kx kx_rng;
  '(key, r) ← crypt_ok "ECC error" (ecc_make_key r (ecc_curve kex));
  kmod (set_kx_rng r);;
  mret key.

Definition kexecdh_comb_key (param : EK) (pub_them : buffer) : M kst () :=
  kex ← get_algo_kex;
  Q_them ← crypt_ok "ECC error" (buf_get_ecc_raw_pubkey pub_them (ecc_curve kex));
  kmod (set_dh_K (Some (dropbear_ecc_shared_secret Q_them param)));;
  let Q_C := if is_client then ecc_point_of_key param else Q_them in
  let Q_S := if is_client then Q_them else ecc_point_of_key param in
  hash_hostkey;;
  on_kexhashbuf (buf_put_ecc_raw_pubkey_string Q_C);;
  on_kexhashbuf (buf_put_ecc_raw_pubkey_string Q_S);;
  put_dh_K;;
  finish_kexhashbuf.

(** Bits of the first and the last byte of the private value are fixed. *)
Definition clamp25519 (priv : list Z) : list Z :=
  let priv := alter (λ c, Z.land c 248) 0%nat priv in
  let priv := alter (λ c, Z.land c 127) 31%nat priv in
  alter (λ c, Z.lor c 64) 31%nat priv.
Definition basepoint : list Z := 9 :: replicate 31 0.
(** [struct kex_curve25519_param]: the public and the private value. *)
Definition gen_kexcurve25519_param : M kst (list Z * list Z) :=
  priv ← genrandom_bytes CURVE25519_LEN;
  let priv := clamp25519 priv in
  mret (curve25519_donna priv basepoint, priv).

Definition kexcurve25519_comb_key (param : list Z * list Z) (buf_pub_them : buffer) : M kst () :=
  if negb (buf_len buf_pub_them =? CURVE25519_LEN) then dropbear_exit "Bad curve25519"
  else
    them ← lift (mem_load (buf_data buf_pub_them) 0 CURVE25519_LEN);
    let out := curve25519_donna param.2 them in
    if constant_time_memcmp (replicate 32 0) out =? 0 then dropbear_exit "Bad curve25519"
    else
      kmod (set_dh_K (Some (mp_read_unsigned_bin DIGIT_BIT out)));;
      let Q_C := if is_client then param.1 else them in
      let Q_S := if is_client then them else param.1 in
      hash_hostkey;;
      on_kexhashbuf (buf_putstring Q_C CURVE25519_LEN);;
      on_kexhashbuf (buf_putstring Q_S CURVE25519_LEN);;
      put_dh_K;;
      finish_kexhashbuf.

(** ** The server's side ([svr-kex.c]) *)
Variable delay_hostkey : bool.

Definition send_msg_kexdh_reply (dh_e : mp_int) (ecdh_qs : option buffer) : M kst () :=
  (if delay_hostkey then n ← get_newkeys; lift (svr_ensure_hostkey (algo_hostkey n)) else mret tt);;
  ses_write (buf_putbyte SSH_MSG_KEXDH_REPLY);;
  n ← get_newkeys;
  ses_write (buf_put_pub_key (algo_hostkey n));;
  kex ← get_algo_kex;
  (match kex_mode kex with
   | DROPBEAR_KEX_NORMAL_DH =>
       dh_param ← gen_kexdh_param;
       kexdh_comb_key dh_param dh_e;;
       ses_write (buf_putmpint DIGIT_BIT dh_param.1)
   | DROPBEAR_KEX_ECDH =>
       ecdh_param ← gen_kexecdh_param;
       qs ← deref "null ecdh_qs" ecdh_qs;
       kexecdh_comb_key ecdh_param qs;;
       ses_write (buf_put_ecc_raw_pubkey_string (ecc_point_of_key ecdh_param))
   | DROPBEAR_KEX_CURVE25519 =>
       param ← gen_kexcurve25519_param;
       qs ← deref "null ecdh_qs" ecdh_qs;
       kexcurve25519_comb_key param qs;;
       ses_write (buf_putstring param.1 CURVE25519_LEN)
   end);;
  n ← get_newkeys;
  h ← kx kx_hash;
  h ← deref "null hash" h;
  ses_write (buf_put_sign (algo_hostkey n) h);;
  encrypt_msg.

Definition recv_msg_kexdh_init : M kst () :=
  r ← kx recvkexinit;
  if negb r then dropbear_exit "Premature kexdh_init message received"
  else
    kex ← get_algo_kex;
    '(dh_e, ecdh_qs) ←
      (match kex_mode kex with
       | DROPBEAR_KEX_NORMAL_DH =>
           e ← ses_payload (buf_getmpint DIGIT_BIT);
           e ← crypt_ok "Bad kex value" e;
           mret (e, None)
       | _ => qs ← ses_payload buf_getstringbuf; mret (mp_zero, Some qs)
       end);
    p ← ses_payload get;
    if negb (buf_pos p =? buf_len p) then dropbear_exit "Bad kex value"
    else
      send_msg_kexdh_reply dh_e ecdh_qs;;
      send_msg_newkeys;;
      modify (set_requirenext SSH_MSG_NEWKEYS).
End kex.
