(* ===== verification/KexProps.v ===== *)
(** * Properties of the key exchange

    Key derivation against RFC 4253, section 7.2; agreement of the two ends;
    the key exchange as a state machine driven by the packets of the peer. *)
From S2P Require Import Prelude Ssh Buffer Mpint BufferProps BigNum Packet Session ProcessPacket Algo Kex.

(** ** Key derivation *)
Section derivation.
Context {HS : Type} (hd : hash_descriptor HS).

(** What the library documents of a hash function: it may be fed in pieces,
    and its result is [hashsize] bytes. *)
Class HashLaws : Prop := {
  hash_stream : ∀ s a b, hd_process hd (hd_process hd s a) b = hd_process hd s (a ++ b);
  hash_length : ∀ s, zlen (hd_done hd s) = hd_hashsize hd;
  hash_bytes : ∀ s, Forall is_byte (hd_done hd s);
  hash_size : 0 < hd_hashsize hd ≤ MAX_HASH_SIZE
}.
Context `{!HashLaws}.

Definition HASH (x : list Z) : list Z := hd_done hd (hd_process hd (hd_init hd) x).

(** RFC 4253, 7.2: [K1 = HASH(K || H || X || session_id)],
    [K(n+1) = HASH(K || H || K1 || ... || Kn)], and the key is taken from the
    front of [K1 || K2 || ...]; [KH] is [K || H]. *)
Fixpoint key_stream (KH sid : list Z) (X : Z) (n : nat) : list Z :=
  match n with
  | O => HASH (KH ++ [X] ++ sid)
  | S n => let k := key_stream KH sid X n in k ++ HASH (KH ++ k)
  end.

Section stream.
Context (KH sid : list Z) (X : Z).
Abbreviation stream := (key_stream KH sid X).

Lemma key_stream_length n : zlen (stream n) = (Z.of_nat n + 1) * hd_hashsize hd.
Proof.
  induction n as [|n IH]; cbn [key_stream].
  - unfold HASH. rewrite hash_length. lia.
  - rewrite length_app, Nat2Z.inj_add, IH. unfold HASH. rewrite hash_length. lia.
Qed.
Lemma key_stream_prefix n m : stream n `prefix_of` stream (n + m).
Proof.
  induction m as [|m IH]; [by rewrite Nat.add_0_r|]. rewrite Nat.add_succ_r. cbn [key_stream].
  by apply prefix_app_r.
Qed.
Lemma take_key_stream L n m : L ≤ zlen (stream n) →
  take (Z.to_nat L) (stream (n + m)) = take (Z.to_nat L) (stream n).
Proof. intros. destruct (key_stream_prefix n m) as [k ->]. rewrite take_app_le; [done|lia]. Qed.

Lemma hashkeys_loop_stream L fuel k : 0 ≤ L →
  hashkeys_loop fuel hd (hd_process hd (hd_init hd) KH) L (take (Z.to_nat L) (stream k)) =
  take (Z.to_nat L) (stream (k + fuel)).
Proof.
  intros HL. revert k. induction fuel as [|fuel IH]; intros k; [by rewrite Nat.add_0_r|].
  cbn [hashkeys_loop]. rewrite length_take. destruct (Z.ltb_spec (Z.of_nat (Z.to_nat L `min` length (stream k))) L).
  - rewrite (take_ge (stream k)) by lia. rewrite Nat.min_r by lia. rewrite <- Nat.add_succ_comm, <- IH. f_equal.
    cbn [key_stream]. rewrite hash_stream. fold (HASH (KH ++ stream k)).
    assert (Hl : zlen (HASH (KH ++ stream k)) = hd_hashsize hd) by apply hash_length.
    rewrite take_app, (take_ge (stream k)) by lia. f_equal.
    destruct (Z.le_ge_cases (L - zlen (stream k)) (hd_hashsize hd)).
    + rewrite Z.min_l by done. f_equal. lia.
    + rewrite Z.min_r, !take_ge by lia. done.
  - rewrite take_key_stream by lia. done.
Qed.

Lemma hashkeys_stream L n : 0 ≤ L ≤ zlen (stream n) →
  hashkeys hd sid L (hd_process hd (hd_init hd) KH) X = take (Z.to_nat L) (stream n).
Proof.
  intros [HL Hn]. unfold hashkeys. rewrite !hash_stream. fold (HASH (KH ++ [X] ++ sid)).
  assert (E : take (Z.to_nat (Z.min (hd_hashsize hd) L)) (HASH (KH ++ [X] ++ sid)) =
    take (Z.to_nat L) (stream 0)).
  { cbn [key_stream]. assert (Hl : zlen (HASH (KH ++ [X] ++ sid)) = hd_hashsize hd) by apply hash_length.
    destruct (Z.le_ge_cases L (hd_hashsize hd)); [by rewrite Z.min_r|].
    rewrite Z.min_l, !take_ge by lia. done. }
  rewrite E, hashkeys_loop_stream by done. cbn [Nat.add].
  pose proof (key_stream_length (Z.to_nat L)) as Hl. pose proof hash_size.
  destruct (Nat.le_ge_cases (Z.to_nat L) n) as [Hle|Hle].
  - replace n with (Z.to_nat L + (n - Z.to_nat L))%nat by lia. rewrite take_key_stream; [done|]. nia.
  - replace (Z.to_nat L) with (n + (Z.to_nat L - n))%nat at 2 by lia. by rewrite take_key_stream.
Qed.
Lemma hashkeys_length L : 0 ≤ L → zlen (hashkeys hd sid L (hd_process hd (hd_init hd) KH) X) = L.
Proof.
  intros HL. pose proof (key_stream_length (Z.to_nat L)). pose proof hash_size.
  rewrite (hashkeys_stream L (Z.to_nat L)) by nia. rewrite length_take. nia.
Qed.
End stream.
End derivation.
Arguments HashLaws {HS} hd.

Section keys.
Context {CS ZS HS RS CV EK EP : Type} `{!KexExternals CS ZS HS RS CV EK EP}.
Abbreviation keydir := (@keydir CS ZS).
Abbreviation kstate := (pses (@kses CS ZS HS RS CV)).
Abbreviation kctx := (@key_context CS ZS HS CV).
Implicit Types (s : kstate) (d : keydir) (n : kctx).

(** The keys of one direction: RFC 4253, 7.2, letters A, C and E for
    client to server, B, D and F for server to client. *)
Definition derive_dir (hd : hash_descriptor HS) (sid : list Z) (hs : HS) (c2s : bool) d : outcome keydir :=
  d ← start_cipher d (hashkeys hd sid MAX_IV_LEN hs (if c2s then 65 else 66))
                     (hashkeys hd sid MAX_KEY_LEN hs (if c2s then 67 else 68));
  d ← mac_key hd sid hs (if c2s then 69 else 70) d;
  mret (set_d_valid true d).

(** What the derivation starts from: the negotiated key exchange, the shared
    secret, the exchange hash and the session identifier. *)
Record kex_secrets (DIGIT_BIT : Z) s (n : kctx) (hd : hash_descriptor HS) (sid : list Z) (hs : HS) : Prop := {
  sec_newkeys : newkeys (rest s) = Some n;
  sec_kex : ∃ kex, algo_kex n = Some kex ∧ kex_hash_desc kex = hd;
  sec_hash : ∃ K h hb hs0, dh_K (rest s) = Some K ∧ kx_hash (rest s) = Some h ∧
    mem_load (buf_data h) 0 (buf_len h) = Ok hb ∧
    hash_process_mp DIGIT_BIT hd (hd_init hd) K = Ok hs0 ∧ hs = hd_process hd hs0 hb;
  sec_sid : ∃ b, session_id (rest s) = Some b ∧ mem_load (buf_data b) 0 (buf_len b) = Ok sid
}.

(** The state after the derivation. *)
Definition derived s (n : kctx) (r t : keydir) : kstate :=
  set_rest (set_newkeys (Some (mkKC r t (algo_kex n) (algo_hostkey n) (allow_compress n)))
    (set_kx_hash None (set_dh_K None (rest s)))) s.

Lemma start_cipher_valid d iv key d' : start_cipher d iv key = Ok d' →
  d_mac d' = d_mac d ∧ d_mackey d' = d_mackey d ∧ d_crypt d' = d_crypt d ∧ d_mode d' = d_mode d.
Proof.
  unfold start_cipher. destruct (d_crypt d) as [c|] eqn:Ec; cbn; [|done].
  destruct (cipherdesc c); [|intros [= <-]; by rewrite Ec].
  case_if; [done|]. destruct (d_mode d) eqn:Em; cbn; [|done].
  destruct (mode_start _ _ _ _ _); [|done]. intros [= <-]. by cbn.
Qed.

Lemma get_newkeys_ok s n : newkeys (rest s) = Some n → get_newkeys s = Ok (n, s).
Proof. intros H. unfold get_newkeys. erewrite bind_ok by done. by rewrite H. Qed.
Lemma upd_newkeys_ok f s n : newkeys (rest s) = Some n →
  upd_newkeys f s = Ok (tt, set_rest (set_newkeys (Some (f n)) (rest s)) s).
Proof. intros H. unfold upd_newkeys. by erewrite bind_ok by (by apply get_newkeys_ok). Qed.

Lemma gen_new_keys_eq DIGIT_BIT is_client s n hd sid hs r t :
  kex_secrets DIGIT_BIT s n hd sid hs →
  derive_dir hd sid hs (negb is_client) (kc_recv n) = Ok r →
  derive_dir hd sid hs is_client (kc_trans n) = Ok t →
  gen_new_keys DIGIT_BIT is_client s = Ok (tt, derived s n r t).
Proof.
  intros [Hn (kex & Hkex & <-) (K & h & hb & hs0 & HK & Hh & Hhb & Hhs & ->) (b & Hb & Hsid)] Hr Ht.
  unfold derive_dir in Hr, Ht.
  destruct (start_cipher (kc_recv n) _ _) as [r1| |] eqn:Er1; [|done..]. cbn in Hr.
  destruct (mac_key _ _ _ _ r1) as [r2| |] eqn:Er2; [|done..]. cbn in Hr. injection Hr as <-.
  destruct (start_cipher (kc_trans n) _ _) as [t1| |] eqn:Et1; [|done..]. cbn in Ht.
  destruct (mac_key _ _ _ _ t1) as [t2| |] eqn:Et2; [|done..]. cbn in Ht. injection Ht as <-.
  unfold gen_new_keys.
  erewrite bind_ok by (unfold get_algo_kex; erewrite bind_ok by (by apply get_newkeys_ok); rewrite Hkex; reflexivity).
  cbv zeta. erewrite bind_ok by reflexivity. rewrite HK. erewrite bind_ok by reflexivity.
  rewrite Hhs. erewrite bind_ok by reflexivity. erewrite bind_ok by reflexivity.
  erewrite bind_ok by reflexivity. cbn [set_rest rest set_dh_K kx_hash]. rewrite Hh.
  erewrite bind_ok by reflexivity. rewrite Hhb. do 3 erewrite bind_ok by reflexivity.
  cbn [set_rest rest set_kx_hash session_id set_dh_K]. rewrite Hb.
  erewrite bind_ok by reflexivity. rewrite Hsid. erewrite bind_ok by reflexivity.
  destruct n as [nr nt na nh nc]. cbn [kc_recv kc_trans algo_kex algo_hostkey allow_compress] in *. subst na.
  erewrite bind_ok by (apply get_newkeys_ok; exact Hn). cbn [kc_recv kc_trans].
  destruct is_client; cbn [negb] in *.
  all: rewrite Er1; erewrite bind_ok by reflexivity.
  all: erewrite bind_ok by (apply upd_newkeys_ok; exact Hn).
  all: erewrite bind_ok by (by apply get_newkeys_ok); cbn [kc_trans kc_recv set_kc_recv].
  all: rewrite Et1; erewrite bind_ok by reflexivity.
  all: erewrite bind_ok by (by apply upd_newkeys_ok).
  all: erewrite bind_ok by (by apply get_newkeys_ok); cbn [kc_trans kc_recv set_kc_trans set_kc_recv].
  all: rewrite Et2; erewrite bind_ok by reflexivity.
  all: erewrite bind_ok by (by apply upd_newkeys_ok).
  all: erewrite bind_ok by (by apply get_newkeys_ok); cbn [kc_trans kc_recv set_kc_trans set_kc_recv].
  all: rewrite Er2; erewrite bind_ok by reflexivity.
  all: erewrite bind_ok by (by apply upd_newkeys_ok).
  all: erewrite bind_ok by (by apply upd_newkeys_ok).
  all: erewrite upd_newkeys_ok by reflexivity.
  all: destruct s as [? ? ? ? ? ? ? ? ? []]; reflexivity.
Qed.

(** ** Two ends in the same state

    [same s t]: the two sessions agree on what the exchange hash is computed
    from.  A computation that reads no more than that keeps them in step. *)
Definition shared (k : @kses CS ZS HS RS CV) :=
  ((λ n, (algo_kex n, algo_hostkey n)) <$> newkeys k, kexhashbuf k, session_id k, dh_K k, kx_hash k).
Definition same s t : Prop := shared (rest s) = shared (rest t).
Class InStep {A} (m : M kstate A) : Prop :=
  in_step : ∀ s t a s', same s t → m s = Ok (a, s') → ∃ t', m t = Ok (a, t') ∧ same s' t'.

#[local] Instance in_step_ret {A} (a : A) : InStep (mret a).
Proof. intros s t ? s' H [= <- <-]. eauto. Qed.
#[local] Instance in_step_exit {A} e : InStep (@dropbear_exit kstate A e).
Proof. intros s t ? s' H. done. Qed.
#[local] Instance in_step_bind {A B} (m : M kstate A) (f : A → M kstate B) :
  InStep m → (∀ a, InStep (f a)) → InStep (m ≫= f).
Proof.
  intros Hm Hf s t b s2 H (a & s1 & E1 & E2)%bind_inv.
  destruct (Hm _ _ _ _ H E1) as (t1 & Et & H1). destruct (Hf _ _ _ _ _ H1 E2) as (t2 & Et2 & H2).
  exists t2. by rewrite (bind_ok _ _ _ _ _ Et).
Qed.
#[local] Instance in_step_lift {A} (o : outcome A) : InStep (lift o).
Proof. intros s t a s' H. unfold lift. destruct o; [|done..]. intros [= <- <-]. eauto. Qed.
#[local] Instance in_step_deref {A} e (o : option A) : InStep (deref e o).
Proof. destruct o; [apply _|by intros ????]. Qed.
#[local] Instance in_step_crypt_ok {A} e (o : option A) : InStep (crypt_ok e o).
Proof. destruct o; apply _. Qed.
Lemma in_step_kx {A B} (f : @kses CS ZS HS RS CV → A) (g : A → M kstate B) :
  (∀ j k, shared j = shared k → f j = f k) → (∀ a, InStep (g a)) → InStep (kx f ≫= g).
Proof.
  intros Hf Hg s t b s' H E. erewrite bind_ok in E by done. erewrite bind_ok by done.
  rewrite <- (Hf _ _ H). by eapply Hg.
Qed.
Lemma in_step_kmod (f : @kses CS ZS HS RS CV → @kses CS ZS HS RS CV) :
  (∀ j k, shared j = shared k → shared (f j) = shared (f k)) → InStep (kmod f).
Proof. intros Hf s t [] s' H [= <-]. eexists. split; [reflexivity|]. by apply Hf. Qed.
Ltac shared_tac := intros [] []; unfold shared; cbn; intros [=]; congruence.
#[local] Instance in_step_on_kexhashbuf {A} (m : M buffer A) : InStep (on_kexhashbuf m).
Proof.
  assert (Hk : ∀ b, InStep (kmod (set_kexhashbuf b))) by (intros; apply in_step_kmod; shared_tac).
  apply in_step_kx; [shared_tac|]. intros b. apply _.
Qed.

(** The key exchange algorithm and the host key type, all that is read of [newkeys]. *)
Lemma newkeys_run {A} (f : kctx → M kstate A) s :
  (get_newkeys ≫= f) s = match newkeys (rest s) with Some n => f n s | None => UB "null newkeys" end.
Proof. unfold get_newkeys, mbind, M_bind, kx, gets; cbn. by destruct (newkeys (rest s)). Qed.
Lemma same_newkeys s t : same s t →
  match newkeys (rest s), newkeys (rest t) with
  | Some n, Some n' => algo_kex n = algo_kex n' ∧ algo_hostkey n = algo_hostkey n'
  | None, None => True
  | _, _ => False
  end.
Proof. unfold same, shared. repeat case_match; cbn; naive_solver. Qed.
Lemma in_step_newkeys {A B} (g : kctx → A) (f : A → M kstate B) :
  (∀ n n', algo_kex n = algo_kex n' → algo_hostkey n = algo_hostkey n' → g n = g n') →
  (∀ a, InStep (f a)) → InStep (get_newkeys ≫= λ n, f (g n)).
Proof.
  intros Hg Hf s t a s' H. rewrite !newkeys_run. pose proof (same_newkeys _ _ H) as Hn.
  destruct (newkeys (rest s)) as [n|], (newkeys (rest t)) as [n'|]; try done.
  destruct Hn as [? ?]. rewrite (Hg n n') by done. by apply Hf.
Qed.
#[local] Instance in_step_algo_kex : InStep get_algo_kex.
Proof. apply (in_step_newkeys algo_kex); [done|apply _]. Qed.
#[local] Instance in_step_hash_hostkey : InStep hash_hostkey.
Proof. apply (in_step_newkeys algo_hostkey (λ h, on_kexhashbuf (buf_put_pub_key h))); [done|apply _]. Qed.
#[local] Instance in_step_put_dh_K DIGIT_BIT : InStep (put_dh_K DIGIT_BIT).
Proof. apply in_step_kx; [shared_tac|]. intros b. apply _. Qed.
#[local] Instance in_step_finish : InStep finish_kexhashbuf.
Proof.
  unfold finish_kexhashbuf.
  assert (Hk : ∀ b, InStep (kmod (set_kexhashbuf b))) by (intros; apply in_step_kmod; shared_tac).
  assert (Hh : ∀ b, InStep (kmod (set_kx_hash b))) by (intros; apply in_step_kmod; shared_tac).
  assert (Hs : ∀ b, InStep (kmod (set_session_id b))) by (intros; apply in_step_kmod; shared_tac).
  repeat (apply in_step_bind; [apply _|intros]).
  apply in_step_kx; [shared_tac|]. intros [|]; apply _.
Qed.

(** The part of the three [..._comb_key] routines that both ends share. *)
Definition comb_tail DIGIT_BIT (K : mp_int) (puts : list (M buffer ())) : M kstate () :=
  kmod (set_dh_K (Some K));;
  hash_hostkey;;
  foldr (λ p m, on_kexhashbuf p;; m) (put_dh_K DIGIT_BIT;; finish_kexhashbuf) puts.
#[local] Instance in_step_comb_tail DIGIT_BIT K puts : InStep (comb_tail DIGIT_BIT K puts).
Proof.
  unfold comb_tail. assert (InStep (kmod (set_dh_K (CS:=CS) (ZS:=ZS) (HS:=HS) (RS:=RS) (CV:=CV) (Some K)))).
  { apply in_step_kmod. shared_tac. }
  assert (InStep (foldr (λ p m, on_kexhashbuf p;; m) (put_dh_K DIGIT_BIT;; finish_kexhashbuf) puts)).
  { induction puts; cbn; apply _. }
  apply _.
Qed.

(** The shared secret, once computed, stays until the keys are derived. *)
Class KeepsK {A} (m : M kstate A) : Prop :=
  keeps_K : ∀ s a s', m s = Ok (a, s') → dh_K (rest s') = dh_K (rest s).
#[local] Instance keeps_K_ret {A} (a : A) : KeepsK (mret a).
Proof. intros s ? s' [= <- <-]. done. Qed.
#[local] Instance keeps_K_bind {A B} (m : M kstate A) (f : A → M kstate B) :
  KeepsK m → (∀ a, KeepsK (f a)) → KeepsK (m ≫= f).
Proof. intros Hm Hf s b s2 (a & s1 & E1 & E2)%bind_inv. by rewrite (Hf _ _ _ _ E2), (Hm _ _ _ E1). Qed.
#[local] Instance keeps_K_lift {A} (o : outcome A) : KeepsK (lift o).
Proof. intros s a s'. unfold lift. destruct o; [|done..]. by intros [= <- <-]. Qed.
#[local] Instance keeps_K_deref {A} e (o : option A) : KeepsK (deref e o).
Proof. destruct o; [apply _|by intros ???]. Qed.
#[local] Instance keeps_K_kx {A} (f : @kses CS ZS HS RS CV → A) : KeepsK (kx f).
Proof. by intros s a s' [= <- <-]. Qed.
#[local] Instance keeps_K_kexhashbuf b : KeepsK (kmod (set_kexhashbuf b)).
Proof. by intros s a s' [= <- <-]. Qed.
#[local] Instance keeps_K_hash b : KeepsK (kmod (set_kx_hash b)).
Proof. by intros s a s' [= <- <-]. Qed.
#[local] Instance keeps_K_sid b : KeepsK (kmod (set_session_id b)).
Proof. by intros s a s' [= <- <-]. Qed.
#[local] Instance keeps_K_finish : KeepsK finish_kexhashbuf.
Proof.
  unfold finish_kexhashbuf, get_algo_kex, get_newkeys, on_kexhashbuf, on_buf. cbv zeta.
  repeat (apply keeps_K_bind; [apply _|intros]). case_match; apply _.
Qed.
Lemma comb_tail_K DIGIT_BIT K puts s s' : comb_tail DIGIT_BIT K puts s = Ok (tt, s') → dh_K (rest s') = Some K.
Proof.
  unfold comb_tail. intros ([] & s1 & [= <-] & E2)%bind_inv.
  assert (Hp : ∀ p : M buffer (), KeepsK (on_kexhashbuf p)) by (intros; unfold on_kexhashbuf, on_buf; apply _).
  assert (Hk : KeepsK (put_dh_K DIGIT_BIT;; finish_kexhashbuf)) by (unfold put_dh_K; apply _).
  assert (Hf : KeepsK (foldr (λ p m, on_kexhashbuf p;; m) (put_dh_K DIGIT_BIT;; finish_kexhashbuf) puts)).
  { clear E2. induction puts; cbn; apply _. }
  apply bind_inv in E2 as ([] & s1 & E1 & E2). rewrite (Hf _ _ _ E2).
  assert (Hh : KeepsK hash_hostkey) by (unfold hash_hostkey, get_newkeys; apply _).
  by rewrite (Hh _ _ _ E1).
Qed.

(** [mp_exptmod] as libtommath documents it, on what the key exchange gives
    it: for numbers that are not negative and a modulus greater than 1 it
    succeeds, and the result is the power. *)
Class MpLaws (DIGIT_BIT : Z) : Prop :=
  mp_exptmod_law b e m : mp_nat DIGIT_BIT b → mp_nat DIGIT_BIT e → mp_nat DIGIT_BIT m → 1 < mp_val DIGIT_BIT m →
    mp_result DIGIT_BIT (mp_exptmod b e m) (mp_val DIGIT_BIT b ^ mp_val DIGIT_BIT e mod mp_val DIGIT_BIT m).

(** [[2, p-2]], as [kexdh_comb_key] checks it. *)
Definition dh_in_range (p1 pub : mp_int) : Prop := mp_cmp pub p1 = Lt ∧ mp_cmp_d pub 1 = Gt.

Lemma kexdh_comb_key_eq DIGIT_BIT is_client s n kex p1 K param them :
  newkeys (rest s) = Some n → algo_kex n = Some kex →
  mp_sub_d (mp_read_unsigned_bin DIGIT_BIT (dh_p_bytes kex)) 1 = Some p1 → dh_in_range p1 them →
  mp_exptmod them param.2 (mp_read_unsigned_bin DIGIT_BIT (dh_p_bytes kex)) = Some K →
  kexdh_comb_key DIGIT_BIT is_client param them s =
  comb_tail DIGIT_BIT K [buf_putmpint DIGIT_BIT (if is_client then param.1 else them);
                         buf_putmpint DIGIT_BIT (if is_client then them else param.1)] s.
Proof.
  intros Hn Hk Hp1 [Hlt Hgt] HK. unfold kexdh_comb_key.
  erewrite bind_ok.
  2: { unfold load_dh_p. erewrite bind_ok; [reflexivity|]. unfold get_algo_kex. rewrite newkeys_run, Hn, Hk.
       reflexivity. }
  rewrite Hp1. erewrite bind_ok by reflexivity. rewrite Hlt, Hgt, HK. erewrite bind_ok by reflexivity.
  reflexivity.
Qed.

(** Both ends compute the same power. *)
Lemma dh_power_comm g x y p : 0 ≤ x → 0 ≤ y → (g ^ x mod p) ^ y mod p = (g ^ y mod p) ^ x mod p.
Proof.
  intros. rewrite !Z.mod_pow_l, <- !Z.pow_mul_r by done. by rewrite Z.mul_comm.
Qed.
End keys.

(** ** The claims *)

(** [hashkeys] derives keys as RFC 4253, section 7.2, prescribes: for a hash
    function that may be fed in pieces, the key for the letter [X] is the first
    [outlen] bytes of [K1 || K2 || ...] with
    [K1 = HASH(K || H || X || session_id)] and
    [K(n+1) = HASH(K || H || K1 || ... || Kn)], for any number of blocks that is
    enough, whatever the size of the hash. *)
Theorem hashkeys_rfc4253 {HS} (hd : hash_descriptor HS) (KH sid : list Z) X outlen n :
  HashLaws hd → 0 ≤ outlen ≤ (Z.of_nat n + 1) * hd_hashsize hd →
  hashkeys hd sid outlen (hd_process hd (hd_init hd) KH) X =
  take (Z.to_nat outlen) (key_stream hd KH sid X n).
Proof.
  intros Hl Hn. rewrite <- (key_stream_length hd KH sid X n) in Hn. by apply hashkeys_stream.
Qed.

(** A toy hash of four bytes: the sum, twice. *)
Definition toy_hash : hash_descriptor (list Z) :=
  mkHD 4 [] app (λ s, STORE32H (foldr Z.add 0 s * 65537)).
Lemma toy_hash_laws : HashLaws toy_hash.
Proof.
  split; cbn; [intros; by rewrite app_assoc|done| |unfold MAX_HASH_SIZE; lia].
  intros s. apply STORE32H_bytes.
Qed.
Lemma hashkeys_rfc4253_witness :
  hashkeys toy_hash [7] 20 [1; 2; 3] 65 = take 20 (key_stream toy_hash [1; 2; 3] [7] 65 4).
Proof. apply (hashkeys_rfc4253 toy_hash [1; 2; 3] [7] 65 20 4 toy_hash_laws). cbn. lia. Defined.

(** A small instance of the parameters: arithmetic on integers, the toy hash,
    no cipher set-up, and the group of order 11 modulo 23. *)
Definition mp28 (v : Z) : option mp_int := if 0 <=? v then Some (mp_of_Z 28 v) else None.
Definition toy_kex_externals : KexExternals () () (list Z) () () () () := {|
  find_cipher _ := 0;
  find_hash _ := 0;
  mode_start _ _ _ _ _ := Some tt;
  inflateInit := Some tt;
  inflateEnd _ := true;
  deflateInit2 := Some tt;
  deflateEnd _ := true;
  kex_genrandom r n := (replicate (Z.to_nat n) 5, r);
  gen_random_mpint r m := (mp_of_Z 28 3, r);
  mp_set_int v := mp28 v;
  mp_sub_d a d := mp28 (mp_val 28 a - d);
  mp_div_2 a := mp28 (mp_val 28 a / 2);
  mp_exptmod b e m := mp28 (mp_val 28 b ^ mp_val 28 e mod mp_val 28 m);
  mp_cmp a b := (mp_val 28 a ?= mp_val 28 b);
  mp_cmp_d a d := (mp_val 28 a ?= d);
  curve25519_donna priv pub := replicate 32 9;
  ecc_make_key r c := Some (tt, r);
  buf_get_ecc_raw_pubkey b c := Some tt;
  dropbear_ecc_shared_secret p k := mp_of_Z 28 7;
  ecc_point_of_key k := k;
  buf_put_ecc_raw_pubkey_string p := buf_putint 5;
  buf_put_pub_key t := buf_putint 6;
  buf_put_sign t h := buf_putint 7;
  svr_ensure_hostkey t := Ok tt
|}.
#[local] Existing Instance toy_kex_externals.
Lemma toy_mp_laws : MpLaws 28.
Proof.
  intros b e m Hb He Hm H1. cbn. unfold mp28.
  pose proof (Z.mod_pos_bound (mp_val 28 b ^ mp_val 28 e) (mp_val 28 m) ltac:(lia)) as Hr.
  rewrite (proj2 (Z.leb_le _ _)) by apply Hr. eexists. split; [done|]. split; [|apply mp_of_Z_val; lia].
  split; [apply mp_of_Z_wf; lia|done].
Qed.

(** A session in the middle of its first key exchange. *)
Definition toy_kex : dropbear_kex (list Z) () := mkKex DROPBEAR_KEX_NORMAL_DH [23] tt toy_hash.
Definition toy_dir : @keydir () () :=
  mkDir (Some dropbear_nocipher) None (Some dropbear_nohash) 0 0 None None (replicate 64 0) false.
Definition toy_newkeys : @key_context () () (list Z) () := mkKC toy_dir toy_dir (Some toy_kex) 1 0.
Definition toy_kses (K : option mp_int) (h sid kb : option buffer) : @kses () () (list Z) () () :=
  mkKses true true false false false false false false 0 0 0 0 (Some (mkKC toy_dir toy_dir None 0 0))
    (Some toy_newkeys) sid K h kb None [83; 83; 72] [] tt.
Definition toy_io : msgio := mkIO (mkBuf [] 0 0 0) (mkBuf (replicate 64 0) 0 0 64) [].
Definition toy_session K h sid kb : pses (@kses () () (list Z) () ()) :=
  mkPses toy_io 0 0 0 0 0 false false 0 (toy_kses K h sid kb).
Definition toy_hashing := toy_session None None None (Some (mkBuf (replicate 64 0) 0 0 64)).
Definition toy_buf4 : buffer := mkBuf [1; 2; 3; 4] 4 4 4.
Definition toy_hashed := toy_session (Some (mp_of_Z 28 18)) (Some toy_buf4) (Some toy_buf4) None.

Section agreement.
Context {CS ZS HS RS CV EK EP : Type} `{!KexExternals CS ZS HS RS CV EK EP}.

(** C16. Diffie-Hellman agreement: a client and a server whose sessions agree
    so far ([same]: key exchange algorithm, host key, exchange hash buffer,
    session identifier), each with a secret exponent of its own and a public
    value that is the power of the generator and passes the range check of the
    other end, compute the same shared secret, the same exchange hash and the
    same session identifier; the secret is [g^(xy) mod p].  The generator and
    the exponents are not negative and the modulus is greater than 1, which is
    where libtommath documents its modular power. *)
Theorem dh_agreement DIGIT_BIT (sc ss sc' : pses (@kses CS ZS HS RS CV)) n kex p1 g pc ps :
  8 ≤ DIGIT_BIT → MpLaws DIGIT_BIT → same sc ss →
  newkeys (rest sc) = Some n → algo_kex n = Some kex →
  let p := mp_read_unsigned_bin DIGIT_BIT (dh_p_bytes kex) in
  Forall is_byte (dh_p_bytes kex) → 1 < mp_val DIGIT_BIT p →
  mp_nat DIGIT_BIT g → mp_nat DIGIT_BIT pc.2 → mp_nat DIGIT_BIT ps.2 →
  mp_exptmod g pc.2 p = Some pc.1 → mp_exptmod g ps.2 p = Some ps.1 →
  mp_sub_d p 1 = Some p1 → dh_in_range p1 pc.1 → dh_in_range p1 ps.1 →
  kexdh_comb_key DIGIT_BIT true pc ps.1 sc = Ok (tt, sc') →
  ∃ ss' K, kexdh_comb_key DIGIT_BIT false ps pc.1 ss = Ok (tt, ss') ∧ same sc' ss' ∧
    dh_K (rest ss') = Some K ∧
    mp_val DIGIT_BIT K = mp_val DIGIT_BIT g ^ (mp_val DIGIT_BIT pc.2 * mp_val DIGIT_BIT ps.2) mod mp_val DIGIT_BIT p.
Proof.
  intros HDB Hl Hs Hn Hk p Hpb Hp2 Ng Nx Ny Hpc Hps Hp1 Hrc Hrs Hrun.
  pose proof (mp_read_nat DIGIT_BIT HDB _ Hpb) as Np. fold p in Np.
  destruct (mp_exptmod_law g pc.2 p Ng Nx Np Hp2) as (? & E & Nc & Vc). rewrite Hpc in E. injection E as <-.
  destruct (mp_exptmod_law g ps.2 p Ng Ny Np Hp2) as (? & E & Ns & Vs). rewrite Hps in E. injection E as <-.
  destruct (mp_exptmod_law ps.1 pc.2 p Ns Nx Np Hp2) as (K & HK & NK & VK).
  destruct (mp_exptmod_law pc.1 ps.2 p Nc Ny Np Hp2) as (K' & HK' & NK' & VK').
  pose proof (mp_nat_nonneg DIGIT_BIT HDB _ Nx) as Hx. pose proof (mp_nat_nonneg DIGIT_BIT HDB _ Ny) as Hy.
  assert (K' = K) as -> by (apply (mp_nat_inj DIGIT_BIT HDB); [done..|]; rewrite VK, VK', Vc, Vs; by apply dh_power_comm).
  assert (Hsn : ∃ n', newkeys (rest ss) = Some n' ∧ algo_kex n' = Some kex).
  { pose proof (same_newkeys _ _ Hs) as Hsame. rewrite Hn in Hsame.
    destruct (newkeys (rest ss)) as [n'|]; [|done]. destruct Hsame as [E _]. exists n'. split; [done|congruence]. }
  destruct Hsn as (n' & Hn' & Hk').
  rewrite (kexdh_comb_key_eq DIGIT_BIT true sc n kex p1 K) in Hrun by done.
  destruct (in_step_comb_tail _ _ _ _ _ _ _ Hs Hrun) as (ss' & Hss' & Hsame). exists ss', K.
  rewrite (kexdh_comb_key_eq DIGIT_BIT false ss n' kex p1 K) by done. split_and!; [done..| |].
  - by eapply comb_tail_K.
  - rewrite VK, Vs, Z.mod_pow_l, <- Z.pow_mul_r by done. by rewrite Z.mul_comm.
Qed.
End agreement.

Lemma dh_agreement_witness :
  let pc := (mp_of_Z 28 8, mp_of_Z 28 3) in let ps := (mp_of_Z 28 9, mp_of_Z 28 5) in
  ∃ sc', kexdh_comb_key 28 true pc ps.1 toy_hashing = Ok (tt, sc') ∧
  ∃ ss' K, kexdh_comb_key 28 false ps pc.1 toy_hashing = Ok (tt, ss') ∧ same sc' ss' ∧
    dh_K (rest ss') = Some K ∧ mp_val 28 K = 2 ^ (3 * 5) mod 23.
Proof.
  eexists. split; [vm_compute; reflexivity|].
  eapply (dh_agreement 28 toy_hashing toy_hashing _ toy_newkeys toy_kex (mp_of_Z 28 22) (mp_of_Z 28 2)
    (mp_of_Z 28 8, mp_of_Z 28 3) (mp_of_Z 28 9, mp_of_Z 28 5));
    first [lia | exact toy_mp_laws | reflexivity | by repeat constructor | by split; [apply mp_of_Z_wf; lia|] | by split].
Defined.

Section agreement2.
Context {CS ZS HS RS CV EK EP : Type} `{!KexExternals CS ZS HS RS CV EK EP}.

(** C14. Both ends derive the same keys, crossed: from sessions that agree on the
    secret, the hash and the session identifier, and in which what the client
    sends with is what the server receives with, [gen_new_keys] succeeds on
    both ends when the ciphers can be set up, leaves the client's sending keys
    equal to the server's receiving keys and the other way round, marks them
    valid, and erases the secret and the hash. *)
Theorem keys_agree DIGIT_BIT (sc ss : pses (@kses CS ZS HS RS CV)) nc ns hd sid hs c2s s2c :
  same sc ss → kex_secrets DIGIT_BIT sc nc hd sid hs → newkeys (rest ss) = Some ns →
  kc_trans nc = kc_recv ns → kc_recv nc = kc_trans ns →
  derive_dir hd sid hs true (kc_trans nc) = Ok c2s →
  derive_dir hd sid hs false (kc_recv nc) = Ok s2c →
  ∃ sc' ss' nc' ns',
    gen_new_keys DIGIT_BIT true sc = Ok (tt, sc') ∧ newkeys (rest sc') = Some nc' ∧
    gen_new_keys DIGIT_BIT false ss = Ok (tt, ss') ∧ newkeys (rest ss') = Some ns' ∧
    kc_trans nc' = kc_recv ns' ∧ kc_recv nc' = kc_trans ns' ∧
    d_valid (kc_trans nc') = true ∧ d_valid (kc_recv nc') = true ∧
    dh_K (rest ss') = None ∧ kx_hash (rest ss') = None.
Proof.
  intros Hs Hsec Hns Ect Ecr Hc Hd.
  assert (Hsec' : kex_secrets DIGIT_BIT ss ns hd sid hs).
  { destruct Hsec as [Hn Hkex Hh Hsid]. pose proof (same_newkeys _ _ Hs) as Hk. rewrite Hn, Hns in Hk.
    unfold same, shared in Hs. injection Hs as _ _ Hss HsK Hsh.
    split; [done|by destruct Hk as [<- _]|by rewrite <- HsK, <- Hsh|by rewrite <- Hss]. }
  rewrite (gen_new_keys_eq DIGIT_BIT true sc nc hd sid hs s2c c2s Hsec Hd Hc).
  rewrite (gen_new_keys_eq DIGIT_BIT false ss ns hd sid hs c2s s2c Hsec').
  2,3: cbn [negb]; congruence.
  do 4 eexists. split_and!; [reflexivity..| | |done|done].
  all: revert Hc Hd; unfold derive_dir; cbn [kc_trans kc_recv]; intros Hc Hd.
  - destruct (start_cipher (kc_trans nc) _ _); [|done..]. cbn in Hc.
    destruct (mac_key _ _ _ _ _); [|done..]. cbn in Hc. by injection Hc as <-.
  - destruct (start_cipher (kc_recv nc) _ _); [|done..]. cbn in Hd.
    destruct (mac_key _ _ _ _ _); [|done..]. cbn in Hd. by injection Hd as <-.
Qed.
End agreement2.
Lemma keys_agree_witness :
  ∃ sc' ss' nc' ns',
    gen_new_keys 28 true toy_hashed = Ok (tt, sc') ∧ newkeys (rest sc') = Some nc' ∧
    gen_new_keys 28 false toy_hashed = Ok (tt, ss') ∧ newkeys (rest ss') = Some ns' ∧
    kc_trans nc' = kc_recv ns' ∧ kc_recv nc' = kc_trans ns' ∧
    d_valid (kc_trans nc') = true ∧ d_valid (kc_recv nc') = true ∧
    dh_K (rest ss') = None ∧ kx_hash (rest ss') = None.
Proof.
  eapply (keys_agree 28 toy_hashed toy_hashed toy_newkeys toy_newkeys toy_hash [1; 2; 3; 4]);
    [reflexivity| |reflexivity..].
  split; [reflexivity|by exists toy_kex| |by exists toy_buf4].
  do 4 eexists. split_and!; [reflexivity|reflexivity|reflexivity|vm_compute; reflexivity|reflexivity].
Defined.
