(* ===== verification/KexSafe.v ===== *)
(** * The key exchange as a state machine

    Driven by arbitrary packets of the peer and by the rekey timer, the server
    follows no null pointer and stays inside its buffers: the order in which
    [process_packet] admits the messages of the key exchange is what the
    handlers of [Kex.v] rely on. *)
From S2P Require Import Prelude Ssh Buffer Mpint BufferProps Packet Session ProcessPacket Algo Kex KexProps.

Section safe.
Context {CS ZS HS RS CV EK EP : Type} `{!KexExternals CS ZS HS RS CV EK EP}.
Variable DIGIT_BIT : Z.
Variable sshkex : list (algo_type (option (dropbear_kex HS CV)) ()).
Variable sshhostkey : list (algo_type () ()).
Variable sshciphers : list (algo_type dropbear_cipher (@dropbear_cipher_mode CS)).
Variable sshhashes : list (algo_type dropbear_hash ()).
Variable delay_hostkey : bool.
Abbreviation ks := (@kses CS ZS HS RS CV).
Abbreviation kstate := (pses ks).
Abbreviation kctx := (@key_context CS ZS HS CV).
Implicit Types (s : kstate) (n : kctx).
Abbreviation keeps m := (∀ b, buf_wf b → wp m (λ _ b', buf_wf b') b).

Definition mp_ok (a : mp_int) : Prop := mp_wf DIGIT_BIT a ∧ mp_count_bits DIGIT_BIT a < 8 * BUF_MAX_SIZE.

(** A key exchange algorithm: its hash function, and powers modulo its prime. *)
Definition kex_fine (kex : dropbear_kex HS CV) : Prop :=
  HashLaws (kex_hash_desc kex) ∧
  ∀ a b r, mp_exptmod a b (mp_read_unsigned_bin DIGIT_BIT (dh_p_bytes kex)) = Some r → mp_ok r.

(** What the handlers rely on: the arrays are well formed, and the code they
    call writes through the buffer routines and returns what it documents. *)
Record kex_env : Prop := {
  env_digit : 8 ≤ DIGIT_BIT;
  env_random : ∀ r m, 0 ≤ m → zlen (kex_genrandom r m).1 = m ∧ Forall is_byte (kex_genrandom r m).1;
  env_pubkey : ∀ t, keeps (buf_put_pub_key t);
  env_sign : ∀ t h, keeps (buf_put_sign t h);
  env_point : ∀ p, keeps (buf_put_ecc_raw_pubkey_string p);
  env_hostkey : ∀ t e, svr_ensure_hostkey t ≠ UB e;
  env_donna : ∀ a b, zlen (curve25519_donna a b) = 32 ∧ Forall is_byte (curve25519_donna a b);
  env_ecdh : ∀ p k, mp_ok (dropbear_ecc_shared_secret p k);
  env_kex : ∀ a, a ∈ sshkex → val a ≠ KEXGUESS2_ALGO_ID → ∃ k, data a = Some k ∧ kex_fine k;
  env_hash : ∀ a, a ∈ sshhashes → 0 ≤ hash_keysize (data a) ≤ MAX_MAC_LEN;
  env_lists : sendable sshkex ∧ sendable sshhostkey ∧ sendable sshciphers ∧ sendable sshhashes
}.
Context (Henv : kex_env).

(** ** Facts the handlers keep *)
Definition io_ok (i : msgio) : Prop := buf_wf (io_payload i) ∧ buf_wf (io_writepayload i).
Definition opt_wf (o : option buffer) : Prop := ∀ b, o = Some b → buf_wf b.
Definition comp_ok (k : ks) : Prop := sendable (compress_algos k) ∧ Forall is_byte (remoteident k).

(** One direction of the negotiated keys. *)
Definition dir_ok (d : @keydir CS ZS) : Prop :=
  is_Some (d_crypt d) ∧ is_Some (d_mode d) ∧
  (∃ a, d_mac d = Some a ∧ 0 ≤ hash_keysize a ≤ MAX_MAC_LEN) ∧ zlen (d_mackey d) = MAX_MAC_LEN.
Record new_ok n : Prop := {
  no_kex : ∃ kex, algo_kex n = Some kex ∧ kex_fine kex;
  no_recv : dir_ok (kc_recv n);
  no_trans : dir_ok (kc_trans n)
}.

(** In the middle of the exchange of secrets; [snk]: whether we have sent and
    received NEWKEYS. *)
Record hashing (n : kctx) (snk : bool * bool) (K : option mp_int) s : Prop := {
  hg_io : io_ok (pp_io s);
  hg_flags : sentkexinit (rest s) = true ∧ recvkexinit (rest s) = true ∧
             sentnewkeys (rest s) = snk.1 ∧ recvnewkeys (rest s) = snk.2;
  hg_keys : is_Some (keys (rest s));
  hg_new : newkeys (rest s) = Some n;
  hg_K : dh_K (rest s) = K;
  hg_sid : opt_wf (session_id (rest s));
  hg_comp : comp_ok (rest s);
  hg_beg : 0 ≤ kx_payload_beginning (rest s)
}.

Lemma wp_kx {A} (f : ks → A) (Q : A → kstate → Prop) s : Q (f (rest s)) s → wp (kx f) Q s.
Proof. done. Qed.
Lemma wp_kmod f (Q : () → kstate → Prop) s : Q tt (set_rest (f (rest s)) s) → wp (kmod f) Q s.
Proof. done. Qed.
Lemma wp_deref {A} e (o : option A) a (Q : A → kstate → Prop) s : o = Some a → Q a s → wp (deref e o) Q s.
Proof. by intros ->. Qed.
Lemma wp_newkeys n (Q : kctx → kstate → Prop) s : newkeys (rest s) = Some n → Q n s → wp get_newkeys Q s.
Proof. intros Hn HQ. by eapply wp_ok; [apply get_newkeys_ok|]. Qed.
Lemma wp_algo_kex n kex (Q : _ → kstate → Prop) s :
  newkeys (rest s) = Some n → algo_kex n = Some kex → Q kex s → wp get_algo_kex Q s.
Proof. intros Hn Hk HQ. apply wp_bind. eapply wp_newkeys; [done|]. by eapply wp_deref. Qed.
Lemma wp_updnewkeys f n (Q : () → kstate → Prop) s : newkeys (rest s) = Some n →
  Q tt (set_rest (set_newkeys (Some (f n)) (rest s)) s) → wp (upd_newkeys f) Q s.
Proof. intros Hn HQ. by eapply wp_ok; [apply upd_newkeys_ok|]. Qed.
Lemma wp_crypt_ok {A} e (o : option A) (Q : A → kstate → Prop) s :
  (∀ a, o = Some a → Q a s) → wp (crypt_ok e o) Q s.
Proof. destruct o; [|done]. intros HQ. by apply HQ. Qed.

Lemma wp_ses_write_io {A} (m : M buffer A) (Q : A → kstate → Prop) s :
  io_ok (pp_io s) → (∀ b, buf_wf b → wp m (λ _ b', buf_wf b') b) →
  (∀ a io, io_ok io → Q a (set_io io s)) → wp (ses_write m) Q s.
Proof.
  intros [Hp Hw] Hm HQ. do 2 apply wp_zoom. eapply wp_mono; [by apply Hm|].
  intros a b' Hb. apply HQ. by split.
Qed.
Lemma wp_ses_payload_io {A} (m : M buffer A) (Q : A → kstate → Prop) s :
  io_ok (pp_io s) → (∀ b, buf_wf b → wp m (λ _ b', buf_wf b') b) →
  (∀ a io, io_ok io → Q a (set_io io s)) → wp (ses_payload m) Q s.
Proof.
  intros [Hp Hw] Hm HQ. do 2 apply wp_zoom. eapply wp_mono; [by apply Hm|].
  intros a b' Hb. apply HQ. by split.
Qed.
Lemma wp_encrypt_msg (Q : () → kstate → Prop) s :
  io_ok (pp_io s) → (∀ io, io_ok io → Q tt (set_io io s)) → wp encrypt_msg Q s.
Proof.
  intros Hio HQ. unfold encrypt_msg. apply wp_bind. apply wp_ses_write_io; [done|apply (keeps_bufop (OpSetpos 0)); done|].
  intros u io1 H1. apply wp_bind, wp_ses_write_io; [done|by eapply keeps_reader, reader_getbyte|].
  intros c io2 H2. apply wp_bind. apply wp_ses_write_io; [done|done|]. intros b io3 H3.
  apply wp_bind, wp_gets, wp_bind, wp_modify, wp_bind, wp_ses_write_io;
    [|apply (keeps_bufop (OpSetpos 0)); done|].
  { destruct H3; by split. }
  intros u4 io4 H4. apply wp_ses_write_io; [done|apply (keeps_bufop (OpSetlen 0)); done|].
  intros [] io5 H5. exact (HQ io5 H5).
Qed.

(** ** Hashing the exchange and computing the secret *)
Ltac hg H := destruct H; split; cbn; auto.
Definition hashbuf_ok s : Prop := ∃ kb, kexhashbuf (rest s) = Some kb ∧ buf_wf kb.
Definition hashed n snk K s : Prop :=
  hashing n snk (Some K) s ∧ mp_ok K ∧ (∃ h, kx_hash (rest s) = Some h ∧ buf_wf h) ∧ is_Some (session_id (rest s)).

Lemma hashing_io n snk K s io : hashing n snk K s → io_ok io → hashing n snk K (set_io io s).
Proof. intros H Hio. hg H. Qed.
Lemma hashed_io n snk K s io : hashed n snk K s → io_ok io → hashed n snk K (set_io io s).
Proof. intros (H & ? & ? & ?) Hio. split_and!; [by apply hashing_io|done..]. Qed.
Lemma hashing_mod n snk K f s : hashing n snk K s →
  (keys (f (rest s)) = keys (rest s) ∧ newkeys (f (rest s)) = newkeys (rest s) ∧ dh_K (f (rest s)) = dh_K (rest s)) →
  (sentkexinit (f (rest s)) = sentkexinit (rest s) ∧ recvkexinit (f (rest s)) = recvkexinit (rest s) ∧
   sentnewkeys (f (rest s)) = sentnewkeys (rest s) ∧ recvnewkeys (f (rest s)) = recvnewkeys (rest s)) →
  opt_wf (session_id (f (rest s))) →
  compress_algos (f (rest s)) = compress_algos (rest s) ∧ remoteident (f (rest s)) = remoteident (rest s) →
  kx_payload_beginning (f (rest s)) = kx_payload_beginning (rest s) →
  hashing n snk K (set_rest (f (rest s)) s).
Proof.
  intros [] (E1 & E2 & E3) (F1 & F2 & F3 & F4) Hs [Hc1 Hc2] Hb.
  split; cbn; rewrite ?E1, ?E2, ?E3, ?F1, ?F2, ?F3, ?F4, ?Hb; auto. unfold comp_ok in *. by rewrite Hc1, Hc2.
Qed.

Lemma safe_on_kexhashbuf {A} (m : M buffer A) n snk K s : keeps m → hashing n snk K s → hashbuf_ok s →
  wp (on_kexhashbuf m) (λ _ s', hashing n snk K s' ∧ hashbuf_ok s') s.
Proof.
  intros Hm Hs (kb & Hk & Hwf). unfold on_kexhashbuf, on_buf. apply wp_bind, wp_kx, wp_bind.
  eapply wp_deref; [exact Hk|]. apply wp_bind, wp_lift. specialize (Hm kb Hwf). unfold wp in Hm.
  destruct (m kb) as [[a b']| |]; [|done|done]. apply wp_bind, wp_kmod, wp_ret.
  split; [|by exists b']. apply (hashing_mod n snk K (set_kexhashbuf (Some b'))); try done. by destruct Hs.
Qed.
Lemma safe_hash_hostkey n snk K s : hashing n snk K s → hashbuf_ok s →
  wp hash_hostkey (λ _ s', hashing n snk K s' ∧ hashbuf_ok s') s.
Proof.
  intros Hs Hb. apply wp_bind. eapply wp_newkeys; [apply Hs|].
  apply safe_on_kexhashbuf; [apply Henv|done|done].
Qed.
Lemma safe_put_dh_K n snk K s : mp_ok K → hashing n snk (Some K) s → hashbuf_ok s →
  wp (put_dh_K DIGIT_BIT) (λ _ s', hashing n snk (Some K) s' ∧ hashbuf_ok s') s.
Proof.
  intros [HK Hbig] Hs Hb. apply wp_bind, wp_kx, wp_bind. eapply wp_deref; [apply Hs|].
  apply safe_on_kexhashbuf; [|done|done]. apply keeps_putmpint; [apply Henv|done|done].
Qed.

Lemma safe_finish n K s : new_ok n → mp_ok K → hashing n (false, false) (Some K) s → hashbuf_ok s →
  wp finish_kexhashbuf (λ _ s', hashed n (false, false) K s') s.
Proof.
  intros [(kex & Hkex & Hl & _) _ _] HK Hs Hb. unfold finish_kexhashbuf. apply wp_bind.
  eapply wp_algo_kex; [apply Hs|done|]. cbv zeta. set (hd := kex_hash_desc kex) in *.
  pose proof (hash_size hd) as Hsz. unfold MAX_HASH_SIZE in Hsz.
  apply wp_bind. eapply wp_mono; [apply (safe_on_kexhashbuf _ n (false, false) (Some K)); [apply (keeps_bufop (OpSetpos 0)); done|done|done]|].
  intros [] s1 [Hs1 Hb1]. destruct Hb1 as (kb & Hkb & Hwf).
  assert (Hrun : ∀ A (m : M buffer A) s' kb (Q : A → kstate → Prop), kexhashbuf (rest s') = Some kb →
    wp m (λ a b', Q a (set_rest (set_kexhashbuf (Some b') (rest s')) s')) kb → wp (on_kexhashbuf m) Q s').
  { intros A m s' kb' Q Hk Hm. apply wp_bind, wp_kx, wp_bind. eapply wp_deref; [exact Hk|].
    apply wp_bind, wp_lift. unfold wp in Hm. by destruct (m kb') as [[a b']| |]. }
  apply wp_bind. eapply Hrun; [exact Hkb|]. apply wp_gets.
  apply wp_bind. eapply Hrun; [reflexivity|]. pose proof Hwf. buf_facts.
  apply wp_getptr; [done|unfold U32; lia|]. intros Hpos.
  apply wp_bind. eapply Hrun; [reflexivity|]. apply wp_load; [done|lia..|]. intros bs _ _ Hbs.
  set (s2 := set_rest _ _). assert (Hs2 : hashing n (false, false) (Some K) s2).
  { unfold s2. cbn. destruct Hs1. by split. }
  assert (Hb2 : hashbuf_ok s2) by (eexists; split; [reflexivity|done]). clearbody s2. clear Hs1 Hkb.
  apply wp_bind. apply wp_new; [lia|]. intros h Hh Hl0 Hp0 Hsz0.
  apply wp_exec.
  assert (Hdone : ∀ x, zlen (hd_done hd x) = hd_hashsize hd ∧ Forall is_byte (hd_done hd x))
    by (intros; split; [by apply hash_length|by apply hash_bytes]).
  destruct (Hdone (hd_process hd (hd_init hd) bs)) as [Hdl Hdb].
  apply wp_bind, wp_getwriteptr; [done|unfold U32; lia|]. intros _.
  apply wp_bind, wp_store; [done|lia..|done|]. intros h1 Hh1.
  apply wp_setlen; [done|lia|]. intros _ Hh2. set (h3 := set_pos _ _) in *. clearbody h3.
  apply wp_bind, wp_kmod. set (s3 := set_rest _ s2).
  assert (Hs3 : hashing n (false, false) (Some K) s3 ∧ hashbuf_ok s3 ∧ kx_hash (rest s3) = Some h3).
  { split_and!; [|by destruct Hb2 as (k2 & ? & ?); exists k2|done].
    apply (hashing_mod n (false, false) (Some K) (set_kx_hash (Some h3))); try done. by destruct Hs2. }
  destruct Hs3 as (Hs3 & (k3 & Hk3 & Hwf3) & Hh3). clearbody s3.
  apply wp_bind. eapply Hrun; [exact Hk3|].
  eapply wp_mono; [by apply (keeps_bufop OpBurn)|]. intros [] b4 Hb4.
  apply wp_bind, wp_kmod, wp_bind, wp_kx. cbn [rest set_rest set_kexhashbuf session_id].
  destruct Hs3 as [Hio Hfl Hke Hnew HdK Hsid Hcomp Hbeg].
  destruct (session_id (rest s3)) as [sid|] eqn:Esid.
  - apply wp_ret. split_and!; [|done|by exists h3|by cbn; rewrite Esid]. split; cbn; auto. by rewrite Esid.
  - apply wp_bind, wp_lift. destruct (buf_newcopy_wf h3 Hh2) as (c & -> & Hc & _). apply wp_kmod.
    split_and!; [|done|by exists h3|by cbn]. split; cbn; auto. by intros ? [= <-].
Qed.

Lemma safe_comb_tail n K0 K puts s : new_ok n → mp_ok K → Forall (λ p : M buffer (), keeps p) puts →
  hashing n (false, false) K0 s → hashbuf_ok s →
  wp (comb_tail DIGIT_BIT K puts) (λ _ s', hashed n (false, false) K s') s.
Proof.
  intros Hn HK Hputs Hs Hb. unfold comb_tail. apply wp_bind, wp_kmod. set (s1 := set_rest _ s).
  assert (Hs1 : hashing n (false, false) (Some K) s1 ∧ hashbuf_ok s1) by (split; [hg Hs|done]).
  clearbody s1. destruct Hs1 as [Hs1 Hb1].
  apply wp_bind. eapply wp_mono; [by eapply safe_hash_hostkey|]. intros [] s2 [Hs2 Hb2].
  clear Hs1 Hb1. revert s2 Hs2 Hb2. induction Hputs as [|p puts Hp _ IH]; intros s2 Hs2 Hb2; cbn [foldr].
  - apply wp_bind. eapply wp_mono; [by eapply safe_put_dh_K|]. intros [] s3 [Hs3 Hb3]. by apply safe_finish.
  - apply wp_bind. eapply wp_mono; [by apply safe_on_kexhashbuf|]. intros [] s3 [Hs3 Hb3]. by apply IH.
Qed.

Lemma keeps_mp a : mp_ok a → keeps (buf_putmpint DIGIT_BIT a).
Proof. intros [? ?]. apply keeps_putmpint; [apply Henv|done|done]. Qed.

Lemma hashing_rng n snk K r s : hashing n snk K s → hashbuf_ok s →
  hashing n snk K (set_rest (set_kx_rng r (rest s)) s) ∧ hashbuf_ok (set_rest (set_kx_rng r (rest s)) s).
Proof. intros Hs Hb. split; [hg Hs|done]. Qed.

Lemma safe_gen_kexdh n snk K s : new_ok n → hashing n snk K s → hashbuf_ok s →
  wp (gen_kexdh_param DIGIT_BIT) (λ p s', mp_ok p.1 ∧ hashing n snk K s' ∧ hashbuf_ok s') s.
Proof.
  intros [(kex & Hk & _ & Hpow) _ _] Hs Hb. unfold gen_kexdh_param, load_dh_p. apply wp_bind, wp_bind.
  eapply wp_algo_kex; [apply Hs|done|]. apply wp_ret.
  do 3 (apply wp_bind, wp_crypt_ok; intros ? ?). apply wp_bind, wp_kx.
  destruct (gen_random_mpint _ _) as [priv r]. apply wp_bind, wp_kmod, wp_bind, wp_crypt_ok. intros pub Hpub.
  apply wp_ret. split; [by eapply Hpow|]. by apply hashing_rng.
Qed.

Lemma safe_kexdh_comb n K0 param them s : new_ok n → mp_ok param.1 → mp_ok them →
  hashing n (false, false) K0 s → hashbuf_ok s →
  wp (kexdh_comb_key DIGIT_BIT false param them) (λ _ s', ∃ K, hashed n (false, false) K s') s.
Proof.
  intros Hn Hp Ht Hs Hb. pose proof Hn as [(kex & Hk & _ & Hpow) _ _]. unfold kexdh_comb_key, load_dh_p.
  apply wp_bind, wp_bind. eapply wp_algo_kex; [apply Hs|done|]. apply wp_ret, wp_bind, wp_crypt_ok. intros p1 _.
  destruct (mp_cmp them p1); [done| |done]. destruct (mp_cmp_d them 1); [done|done|].
  apply wp_bind, wp_crypt_ok. intros K HK%Hpow.
  eapply wp_mono; [apply (safe_comb_tail n K0 K [buf_putmpint DIGIT_BIT them; buf_putmpint DIGIT_BIT param.1])|];
    [done|done| |done|done|intros ? ? Hx; eexists; exact Hx].
  repeat constructor; by apply keeps_mp.
Qed.

Lemma safe_kexecdh_comb n K0 param them s : new_ok n → hashing n (false, false) K0 s → hashbuf_ok s →
  wp (kexecdh_comb_key DIGIT_BIT false param them) (λ _ s', ∃ K, hashed n (false, false) K s') s.
Proof.
  intros Hn Hs Hb. pose proof Hn as [(kex & Hk & _) _ _]. unfold kexecdh_comb_key. apply wp_bind.
  eapply wp_algo_kex; [apply Hs|done|]. apply wp_bind, wp_crypt_ok. intros Q _. cbv zeta.
  eapply wp_mono; [apply (safe_comb_tail n K0 (dropbear_ecc_shared_secret Q param)
    [buf_put_ecc_raw_pubkey_string Q; buf_put_ecc_raw_pubkey_string (ecc_point_of_key param)])|];
    [done|apply Henv| |done|done|intros ? ? Hx; eexists; exact Hx].
  repeat constructor; apply Henv.
Qed.

Lemma mp_read_ok l : Forall is_byte l → zlen l ≤ 65536 → mp_ok (mp_read_unsigned_bin DIGIT_BIT l).
Proof.
  intros Hl Hlen. pose proof (env_digit Henv) as HDB. pose proof (be_val_bound l Hl) as Hb.
  assert (Hwf : mp_wf DIGIT_BIT (mp_read_unsigned_bin DIGIT_BIT l)).
  { apply mp_digits_wf; [done|]. fold (be_val l). split; [lia|]. eapply Z.lt_le_trans; [apply Hb|].
    change 256 with (2 ^ 8). rewrite <- Z.pow_mul_r by lia. apply Z.pow_le_mono_r; nia. }
  split; [done|]. rewrite mp_count_bits_eq, mp_read_unsigned_bin_val by done. unfold BUF_MAX_SIZE.
  destruct (Z.eqb_spec (be_val l) 0); [lia|].
  assert (Z.log2 (be_val l) < 8 * zlen l); [|lia]. apply Z.log2_lt_pow2; [lia|].
  rewrite Z.pow_mul_r by lia. apply Hb.
Qed.

Lemma safe_kexcurve_comb n K0 param them s : new_ok n → zlen param.1 = 32 → Forall is_byte param.1 →
  buf_wf them → hashing n (false, false) K0 s → hashbuf_ok s →
  wp (kexcurve25519_comb_key DIGIT_BIT false param them) (λ _ s', ∃ K, hashed n (false, false) K s') s.
Proof.
  intros Hn Hl Hb1 Ht Hs Hb. unfold kexcurve25519_comb_key. apply wp_if; intros E; [done|].
  apply negb_false_iff, Z.eqb_eq in E. buf_facts.
  apply wp_bind, wp_lift. rewrite mem_load_ok by (unfold CURVE25519_LEN in *; lia).
  set (q := take _ _). assert (Hq : zlen q = 32) by (unfold q, CURVE25519_LEN in *; rewrite length_take, length_drop; lia).
  assert (Hqb : Forall is_byte q) by (unfold q; auto with ssh). clearbody q.
  destruct (env_donna Henv param.2 q) as [Hdl Hdb].
  cbv zeta. apply wp_if; intros _; [done|].
  eapply wp_mono; [apply (safe_comb_tail n K0 (mp_read_unsigned_bin DIGIT_BIT (curve25519_donna param.2 q))
    [buf_putstring q CURVE25519_LEN; buf_putstring param.1 CURVE25519_LEN])|];
    [done|apply mp_read_ok; [done|lia]| |done|done|intros ? ? Hx; eexists; exact Hx].
  repeat constructor; (apply keeps_putstring; [unfold CURVE25519_LEN; lia|done]).
Qed.

(** ** Deriving the keys *)
Definition safe_out {A} (o : outcome A) (P : A → Prop) : Prop :=
  match o with Ok a => P a | Exit _ => True | UB _ => False end.
Lemma wp_lift_out {A} (o : outcome A) P (Q : A → kstate → Prop) s :
  safe_out o P → (∀ a, P a → Q a s) → wp (lift o) Q s.
Proof. intros Ho HQ. apply wp_lift. destruct o; [by apply HQ|done|done]. Qed.

Lemma safe_hash_mp (hd : hash_descriptor HS) K : HashLaws hd → mp_ok K →
  safe_out (hash_process_mp DIGIT_BIT hd (hd_init hd) K) (λ hs, ∃ x, hs = hd_process hd (hd_init hd) x).
Proof.
  intros Hl HK. unfold hash_process_mp. destruct (buf_new_ok (512 + 20)) as (b & E & Hwf & _); [unfold BUF_MAX_SIZE; lia|].
  rewrite (obind_ok _ _ _ E). pose proof (keeps_mp K HK b Hwf) as Hk. unfold wp in Hk. unfold exec.
  destruct (buf_putmpint DIGIT_BIT K b) as [[[] b']| |]; [|done|done]. cbn -[mem_load].
  buf_facts. rewrite mem_load_ok by lia. cbn. eauto.
Qed.
Lemma safe_start_cipher d iv key : dir_ok d → safe_out (start_cipher d iv key) dir_ok.
Proof.
  intros ([c Hc] & [m Hm] & (a & Ha & Hk) & Hl). unfold start_cipher. rewrite Hc, Hm. cbn.
  assert (Hd : dir_ok d) by (split_and!; eauto).
  destruct (cipherdesc c); [|done]. case_if; [done|]. cbn. destruct (mode_start _ _ _ _ _); [|done]. cbn.
  unfold dir_ok. cbn. rewrite Hc, Hm. split_and!; eauto.
Qed.
Lemma safe_mac_key (hd : hash_descriptor HS) sid x X d : HashLaws hd → dir_ok d →
  safe_out (mac_key hd sid (hd_process hd (hd_init hd) x) X d) dir_ok.
Proof.
  intros Hh ([c Hc] & [m Hm] & (a & Ha & Hk) & Hl). unfold mac_key. rewrite Ha. cbn -[mem_store].
  assert (Hd : dir_ok d) by (split_and!; eauto).
  destruct (hash_desc a); [|done]. unfold MAX_MAC_LEN in *. set (key := hashkeys _ _ _ _ _).
  assert (Hkl : zlen key = hash_keysize a) by (by apply hashkeys_length; [|lia]).
  rewrite mem_store_ok by lia. cbn -[take drop]. unfold dir_ok. cbn -[take drop]. rewrite Hc, Hm.
  split_and!; eauto. rewrite !length_app, length_take, length_drop. unfold MAX_MAC_LEN. lia.
Qed.

Lemma safe_gen_new_keys n snk K s : new_ok n → hashed n snk K s →
  wp (gen_new_keys DIGIT_BIT false) (λ _ s', ∃ n', new_ok n' ∧ hashing n' snk None s' ∧
    kc_recv n' = set_d_valid true (kc_recv n')) s.
Proof.
  intros Hn (Hs & HK & (h & Hh & Hwfh) & [sid Hsid]). pose proof Hn as [(kex & Hk & Hl & Hpow) Hr Ht].
  unfold gen_new_keys. apply wp_bind. eapply wp_algo_kex; [apply Hs|done|]. cbv zeta.
  set (hd := kex_hash_desc kex) in *. apply wp_bind, wp_kx, wp_bind. eapply wp_deref; [apply Hs|].
  apply wp_bind. eapply wp_lift_out; [by apply safe_hash_mp|]. intros hs0 (x & ->).
  apply wp_bind, wp_kmod, wp_bind, wp_kx, wp_bind. eapply wp_deref; [exact Hh|].
  buf_facts. apply wp_bind, wp_lift. rewrite mem_load_ok by lia. set (hb := take _ _). clearbody hb.
  apply wp_bind, wp_kmod, wp_bind, wp_kx, wp_bind. eapply wp_deref; [exact Hsid|].
  pose proof (hg_sid _ _ _ _ Hs _ Hsid) as Hwfs. buf_facts.
  apply wp_bind, wp_lift. rewrite mem_load_ok by lia. set (sb := take _ _). clearbody sb.
  rewrite hash_stream by done. set (s1 := set_rest _ _).
  assert (Hs1 : hashing n snk None s1) by (unfold s1; hg Hs). clearbody s1. clear Hs.
  assert (Hset : ∀ n n' s, hashing n snk None s → hashing n' snk None (set_rest (set_newkeys (Some n') (rest s)) s)).
  { intros n1 n2 s' Hs'. hg Hs'. }
  apply wp_bind. eapply wp_newkeys; [apply Hs1|].
  apply wp_bind. eapply wp_lift_out; [by apply safe_start_cipher|]. intros r1 Hr1.
  apply wp_bind. eapply wp_updnewkeys; [apply Hs1|]. apply (Hset _ (set_kc_recv r1 n)) in Hs1.
  apply wp_bind. eapply wp_newkeys; [apply Hs1|].
  apply wp_bind. eapply wp_lift_out; [by apply safe_start_cipher|]. intros t1 Ht1.
  apply wp_bind. eapply wp_updnewkeys; [apply Hs1|]. apply (Hset _ (set_kc_trans t1 (set_kc_recv r1 n))) in Hs1.
  apply wp_bind. eapply wp_newkeys; [apply Hs1|].
  apply wp_bind. eapply wp_lift_out; [by apply safe_mac_key|]. intros t2 Ht2.
  apply wp_bind. eapply wp_updnewkeys; [apply Hs1|].
  apply (Hset _ (set_kc_trans t2 (set_kc_trans t1 (set_kc_recv r1 n)))) in Hs1.
  apply wp_bind. eapply wp_newkeys; [apply Hs1|].
  apply wp_bind. eapply wp_lift_out; [by apply safe_mac_key|]. intros r2 Hr2.
  apply wp_bind. eapply wp_updnewkeys; [apply Hs1|].
  apply (Hset _ (set_kc_recv r2 (set_kc_trans t2 (set_kc_trans t1 (set_kc_recv r1 n))))) in Hs1.
  apply wp_bind. eapply wp_updnewkeys; [apply Hs1|].
  eapply Hset in Hs1. eapply wp_updnewkeys; [apply Hs1|]. eapply Hset in Hs1.
  eexists. split_and!; [|exact Hs1|done].
  split; cbn; [by exists kex|exact Hr2|exact Ht2].
Qed.

(** ** The reply, and the switch to the new keys *)
Lemma hashed_hashing n snk K s : hashed n snk K s → hashing n snk (Some K) s.
Proof. by intros (? & _). Qed.

Lemma safe_kexdh_reply n K0 s e qs : new_ok n → mp_ok e → (∀ b, qs = Some b → buf_wf b) →
  (∀ kex, algo_kex n = Some kex → kex_mode kex ≠ DROPBEAR_KEX_NORMAL_DH → is_Some qs) →
  hashing n (false, false) K0 s → hashbuf_ok s →
  wp (send_msg_kexdh_reply DIGIT_BIT false delay_hostkey e qs) (λ _ s', ∃ K, hashed n (false, false) K s') s.
Proof.
  intros Hn He Hqs Hqs' Hs Hb. unfold send_msg_kexdh_reply. pose proof Hn as [(kex & Hk & _) _ _].
  apply wp_bind. eapply (wp_mono _ (λ _ s', s' = s)).
  { apply wp_if; intros _; [|done]. apply wp_bind. eapply wp_newkeys; [apply Hs|].
    apply wp_lift. destruct (svr_ensure_hostkey _) eqn:Eh; [done..|]. by destruct (env_hostkey Henv _ _ Eh). }
  intros [] ? ->. apply wp_bind, wp_ses_write_io; [apply Hs|by apply keeps_putbyte|].
  intros ? io1 H1. apply (hashing_io _ _ _ _ io1) in Hs; [|done].
  apply wp_bind. eapply wp_newkeys; [apply Hs|].
  apply wp_bind, wp_ses_write_io; [apply Hs|apply Henv|]. intros ? io2 H2.
  apply (hashing_io _ _ _ _ io2) in Hs; [|done]. apply wp_bind. eapply wp_algo_kex; [apply Hs|done|].
  apply wp_bind. eapply (wp_mono _ (λ _ s', ∃ K, hashed n (false, false) K s')).
  { assert (Hw : ∀ A (m : M buffer A) K s, keeps m → hashed n (false, false) K s → wp (ses_write m) (λ _ s', ∃ K, hashed n (false, false) K s') s).
    { intros A m K s' Hm Hs'. apply wp_ses_write_io; [apply Hs'|done|]. intros ? io3 ?. exists K. by apply hashed_io. }
    destruct (kex_mode kex) eqn:Emode.
    - apply wp_bind. eapply wp_mono; [by eapply safe_gen_kexdh|]. intros p s1 (Hp & Hs1 & Hb1).
      apply wp_bind. eapply wp_mono; [by eapply safe_kexdh_comb|]. intros [] s2 (K & Hs2).
      eapply Hw; [by apply keeps_mp|done].
    - unfold gen_kexecdh_param. apply wp_bind, wp_bind. eapply wp_algo_kex; [apply Hs|done|].
      apply wp_bind, wp_kx, wp_bind, wp_crypt_ok. intros [key r] _. apply wp_bind, wp_kmod, wp_ret.
      destruct (hashing_rng n (false, false) K0 r _ Hs Hb) as [Hs1 Hb1].
      destruct (Hqs' kex Hk) as [q Hq]; [by rewrite Emode|]. apply wp_bind. eapply wp_deref; [exact Hq|].
      apply wp_bind. eapply wp_mono; [by eapply safe_kexecdh_comb|]. intros [] s2 (K & Hs2).
      eapply Hw; [apply Henv|done].
    - unfold gen_kexcurve25519_param, genrandom_bytes. apply wp_bind, wp_bind, wp_bind, wp_kx.
      destruct (kex_genrandom _ _) as [bs r]. apply wp_bind, wp_kmod, wp_ret, wp_ret.
      destruct (hashing_rng n (false, false) K0 r _ Hs Hb) as [Hs1 Hb1].
      destruct (Hqs' kex Hk) as [q Hq]; [by rewrite Emode|]. apply wp_bind. eapply wp_deref; [exact Hq|].
      destruct (env_donna Henv (clamp25519 bs) basepoint) as [Hdl Hdb].
      apply wp_bind. eapply wp_mono; [by eapply safe_kexcurve_comb; eauto|]. intros [] s2 (K & Hs2).
      eapply Hw; [|done]. cbn. apply keeps_putstring; [unfold CURVE25519_LEN; lia|done]. }
  clear Hs Hb. intros [] s1 (K & Hs). apply wp_bind. eapply wp_newkeys; [apply Hs|].
  apply wp_bind, wp_kx, wp_bind. pose proof Hs as (Hs0 & HK & (h & Hh & _) & _). eapply wp_deref; [exact Hh|].
  apply wp_bind, wp_ses_write_io; [apply Hs0|apply Henv|]. intros ? io3 H3.
  apply wp_encrypt_msg; [done|]. intros io4 H4. exists K. rewrite set_set_io. by apply hashed_io.
Qed.

(** After our NEWKEYS, until the peer's. *)
Definition waiting s : Prop := ∃ n, hashing n (true, false) None s.

(** One direction of [switch_keys]. *)
Lemma safe_zstream_trans n snk K s : hashing n snk K s →
  wp gen_new_zstream_trans (λ _ s', ∃ z, hashing (set_kc_trans (set_d_zstream z (kc_trans n)) n) snk K s') s.
Proof.
  intros Hs. unfold gen_new_zstream_trans. apply wp_bind. eapply wp_newkeys; [apply Hs|].
  apply wp_bind. eapply (wp_mono _ (λ _ s', ∃ z, hashing (set_kc_trans (set_d_zstream z (kc_trans n)) n) snk K s')).
  { assert (Hset : ∀ z, wp (upd_newkeys (λ n, set_kc_trans (set_d_zstream z (kc_trans n)) n))
      (λ _ s', ∃ z, hashing (set_kc_trans (set_d_zstream z (kc_trans n)) n) snk K s') s).
    { intros z. eapply wp_updnewkeys; [apply Hs|]. exists z. hg Hs. }
    apply wp_if; intros _; [|by apply Hset]. destruct deflateInit2; [by apply Hset|done]. }
  clear Hs. intros [] s1 (z & Hs). destruct (hg_keys _ _ _ _ Hs) as [k Hk].
  assert (Hget : ∀ (Q : kctx → kstate → Prop), Q k s1 → wp get_keys Q s1).
  { intros Q HQ. unfold get_keys. apply wp_bind, wp_kx. by eapply wp_deref. }
  apply wp_bind, Hget. destruct (d_zstream (kc_trans k)); [|by exists z].
  apply wp_if; intros _; [|done]. unfold upd_keys. apply wp_bind, Hget, wp_kmod. exists z. hg Hs.
Qed.
Lemma safe_zstream_recv n snk K s : hashing n snk K s →
  wp gen_new_zstream_recv (λ _ s', ∃ z, hashing (set_kc_recv (set_d_zstream z (kc_recv n)) n) snk K s') s.
Proof.
  intros Hs. unfold gen_new_zstream_recv. apply wp_bind. eapply wp_newkeys; [apply Hs|].
  apply wp_bind. eapply (wp_mono _ (λ _ s', ∃ z, hashing (set_kc_recv (set_d_zstream z (kc_recv n)) n) snk K s')).
  { assert (Hset : ∀ z, wp (upd_newkeys (λ n, set_kc_recv (set_d_zstream z (kc_recv n)) n))
      (λ _ s', ∃ z, hashing (set_kc_recv (set_d_zstream z (kc_recv n)) n) snk K s') s).
    { intros z. eapply wp_updnewkeys; [apply Hs|]. exists z. hg Hs. }
    apply wp_if; intros _; [|by apply Hset]. destruct inflateInit; [by apply Hset|done]. }
  clear Hs. intros [] s1 (z & Hs). destruct (hg_keys _ _ _ _ Hs) as [k Hk].
  assert (Hget : ∀ (Q : kctx → kstate → Prop), Q k s1 → wp get_keys Q s1).
  { intros Q HQ. unfold get_keys. apply wp_bind, wp_kx. by eapply wp_deref. }
  apply wp_bind, Hget. destruct (d_zstream (kc_recv k)); [|by exists z].
  apply wp_if; intros _; [|done]. unfold upd_keys. apply wp_bind, Hget, wp_kmod. exists z. hg Hs.
Qed.

(** Between key exchanges; we may already have sent our KEXINIT. *)
Record resting s : Prop := {
  rs_io : io_ok (pp_io s);
  rs_flags : recvkexinit (rest s) = false ∧ sentnewkeys (rest s) = false ∧ recvnewkeys (rest s) = false;
  rs_keys : is_Some (keys (rest s));
  rs_sent : sentkexinit (rest s) = true →
    is_Some (newkeys (rest s)) ∧ ∃ t, transkexinit (rest s) = Some t ∧ buf_wf t;
  rs_sid : opt_wf (session_id (rest s));
  rs_comp : comp_ok (rest s);
  rs_beg : 0 ≤ kx_payload_beginning (rest s)
}.

(** Copying one direction into [keys] and erasing it in [newkeys]. *)
Lemma safe_take_dir (put : @keydir CS ZS → kctx → kctx) d n snk K s : hashing n snk K s →
  wp (upd_keys (put d);; upd_newkeys (put keydir_zero)) (λ _ s', hashing (put keydir_zero n) snk K s') s.
Proof.
  intros Hs. destruct (hg_keys _ _ _ _ Hs) as [k Hk]. unfold upd_keys, get_keys.
  do 3 apply wp_bind. apply wp_kx. eapply wp_deref; [exact Hk|]. apply wp_kmod.
  eapply wp_updnewkeys; [apply Hs|]. hg Hs.
Qed.
Lemma safe_switch_recv_dir n snk K s : hashing n snk K s →
  wp (n ← get_newkeys; if d_valid (kc_recv n) then gen_new_zstream_recv;; n ← get_newkeys;
      upd_keys (set_kc_recv (kc_recv n));; upd_newkeys (set_kc_recv keydir_zero) else mret tt)
    (λ _ s', ∃ n, hashing n snk K s') s.
Proof.
  intros Hs. apply wp_bind. eapply wp_newkeys; [apply Hs|]. apply wp_if; intros _; [|by exists n].
  apply wp_bind. eapply wp_mono; [by apply safe_zstream_recv|]. intros [] s1 (z & Hs1).
  apply wp_bind. eapply wp_newkeys; [apply Hs1|].
  eapply wp_mono; [by apply (safe_take_dir set_kc_recv)|]. intros [] s2 Hs2. by eexists.
Qed.
Lemma safe_switch_trans_dir n snk K s : hashing n snk K s →
  wp (n ← get_newkeys; if d_valid (kc_trans n) then gen_new_zstream_trans;; n ← get_newkeys;
      upd_keys (set_kc_trans (kc_trans n));; upd_newkeys (set_kc_trans keydir_zero) else mret tt)
    (λ _ s', ∃ n, hashing n snk K s') s.
Proof.
  intros Hs. apply wp_bind. eapply wp_newkeys; [apply Hs|]. apply wp_if; intros _; [|by exists n].
  apply wp_bind. eapply wp_mono; [by apply safe_zstream_trans|]. intros [] s1 (z & Hs1).
  apply wp_bind. eapply wp_newkeys; [apply Hs1|].
  eapply wp_mono; [by apply (safe_take_dir set_kc_trans)|]. intros [] s2 Hs2. by eexists.
Qed.

Lemma safe_switch_sent n s : hashing n (true, false) None s → wp switch_keys (λ _ s', waiting s') s.
Proof.
  intros Hs. unfold switch_keys. apply wp_bind, wp_kx. unfold id.
  destruct (hg_flags _ _ _ _ Hs) as (-> & -> & -> & ->). cbn [andb negb fst snd].
  destruct (hg_keys _ _ _ _ Hs) as [k Hk]. rewrite Hk. apply wp_bind, wp_ret, wp_bind, wp_ret.
  apply wp_bind. eapply wp_mono; [by eapply safe_switch_trans_dir|]. by intros [] s' ?.
Qed.

Lemma safe_recv_newkeys s : waiting s → wp recv_msg_newkeys (λ _ s', resting s') s.
Proof.
  intros (n & Hs). unfold recv_msg_newkeys. apply wp_bind, wp_kmod.
  set (s1 := set_rest _ s). assert (Hs1 : hashing n (true, true) None s1).
  { destruct Hs as [? (? & ? & ? & ?)]. by split; cbn. }
  clearbody s1. clear Hs. unfold switch_keys. apply wp_bind, wp_kx. unfold id.
  destruct (hg_flags _ _ _ _ Hs1) as (-> & -> & -> & ->). cbn [andb negb fst snd].
  destruct (hg_keys _ _ _ _ Hs1) as [k Hk]. rewrite Hk. apply wp_bind, wp_ret.
  apply wp_bind. eapply wp_mono; [by eapply safe_switch_recv_dir|]. intros [] s2 (n2 & Hs2).
  apply wp_bind. eapply wp_mono; [by eapply safe_switch_trans_dir|]. intros [] s3 (n3 & Hs3).
  apply wp_bind. eapply wp_newkeys; [apply Hs3|]. unfold upd_keys, get_keys.
  destruct (hg_keys _ _ _ _ Hs3) as [k3 Hk3]. do 3 apply wp_bind. apply wp_kx.
  eapply wp_deref; [exact Hk3|]. apply wp_kmod, wp_bind, wp_kmod, wp_bind, wp_gets, wp_kmod.
  destruct Hs3. split; cbn; auto. done.
Qed.

Lemma safe_send_newkeys n K s : new_ok n → hashed n (false, false) K s →
  wp (send_msg_newkeys DIGIT_BIT false) (λ _ s', waiting s') s.
Proof.
  intros Hn Hs. unfold send_msg_newkeys.
  apply wp_bind, wp_ses_write_io; [apply Hs|by apply keeps_putbyte|]. intros ? io1 H1.
  apply wp_bind, wp_encrypt_msg; [done|]. intros io2 H2. rewrite set_set_io.
  apply (hashed_io _ _ _ _ io2) in Hs; [|done]. do 3 apply wp_bind, wp_kmod.
  set (s1 := set_rest _ _). assert (Hs1 : hashed n (true, false) K s1).
  { destruct Hs as ([? (? & ? & ? & ?)] & ? & ? & ?). split_and!; [by split; cbn|done..]. }
  clearbody s1. apply wp_bind. eapply wp_mono; [by eapply safe_gen_new_keys|].
  intros [] s2 (n' & _ & Hs2 & _). by eapply safe_switch_sent.
Qed.

(** ** The client's public value *)
Lemma wp_ses_payload_post {A} (m : M buffer A) (P : A → Prop) (Q : A → kstate → Prop) s :
  io_ok (pp_io s) → (∀ b, buf_wf b → wp m (λ a b', buf_wf b' ∧ P a) b) →
  (∀ a io, io_ok io → P a → Q a (set_io io s)) → wp (ses_payload m) Q s.
Proof.
  intros [Hp Hw] Hm HQ. do 2 apply wp_zoom. eapply wp_mono; [by apply Hm|].
  intros a b' [Hb Ha]. by apply HQ.
Qed.

Lemma p_mpint_ok l v tl : Forall is_byte l → p_mpint DIGIT_BIT l = Some (Some v, tl) → mp_ok v.
Proof.
  intros Hl. unfold p_mpint, p_bind. destruct (p_int l) as [[len l1]|] eqn:Ei; [|done]. cbn.
  assert (Hl1 : Forall is_byte l1).
  { revert Ei. unfold p_int, p_bind, p_bytes, p_ret. case_if; [|done]. cbn. intros [= _ <-].
    by apply (Forall_drop is_byte 4). }
  case_if; [|case_if; [done|]].
  - intros [= <- <-]. split; [by split|]. unfold mp_zero. cbn. unfold BUF_MAX_SIZE. lia.
  - destruct (p_peek l1) as [[c l2]|] eqn:Ep; [|done]. cbn. case_if; [done|].
    assert (l2 = l1) as -> by (destruct l1; [done|]; by injection Ep).
    unfold p_bytes. case_if; [|done]. cbn. intros [= <- <-].
    apply mp_read_ok; [by apply Forall_take|]. unfold BUF_MAX_MPINT in *. change (8240 / 8) with 1030 in *.
    rewrite length_take. lia.
Qed.
Lemma wp_getmpint b : buf_wf b →
  wp (buf_getmpint DIGIT_BIT) (λ o b', buf_wf b' ∧ ∀ v, o = Some v → mp_ok v) b.
Proof.
  intros Hwf. refine (reader_wp _ (p_mpint DIGIT_BIT) b _ Hwf _).
  intros o k Hk Hk' Hwf' Hp. split; [done|]. intros v ->. eapply p_mpint_ok; [|exact Hp].
  by apply buf_rest_bytes.
Qed.

Definition exchanging s : Prop := ∃ n K0, new_ok n ∧ hashing n (false, false) K0 s ∧ hashbuf_ok s.

Lemma safe_recv_kexdh_init s : exchanging s →
  wp (recv_msg_kexdh_init DIGIT_BIT false delay_hostkey)
    (λ _ s', waiting s' ∧ requirenext s' = SSH_MSG_NEWKEYS) s.
Proof.
  intros (n & K0 & Hn & Hs & Hb). unfold recv_msg_kexdh_init. pose proof Hn as [(kex & Hk & _) _ _].
  apply wp_bind, wp_kx. destruct (hg_flags _ _ _ _ Hs) as (_ & -> & _). cbn [negb].
  apply wp_bind. eapply wp_algo_kex; [apply Hs|done|]. apply wp_bind.
  eapply (wp_mono _ (λ '(e, qs) s', mp_ok e ∧ (∀ b, qs = Some b → buf_wf b) ∧
    (kex_mode kex ≠ DROPBEAR_KEX_NORMAL_DH → is_Some qs) ∧ hashing n (false, false) K0 s' ∧ hashbuf_ok s')).
  { assert (Hbuf : wp (qs ← ses_payload buf_getstringbuf; mret (mp_zero, Some qs))
      (λ '(e, qs) s', mp_ok e ∧ (∀ b, qs = Some b → buf_wf b) ∧
        (kex_mode kex ≠ DROPBEAR_KEX_NORMAL_DH → is_Some qs) ∧ hashing n (false, false) K0 s' ∧ hashbuf_ok s') s).
    { apply wp_bind. eapply (wp_ses_payload_post _ buf_wf); [apply Hs|apply wp_getstringbuf|].
      intros qs io Hio Hqs. apply wp_ret. split_and!.
      - split; [by split|]. unfold mp_zero, BUF_MAX_SIZE. cbn. lia.
      - by intros ? [= <-].
      - by eexists.
      - by apply hashing_io.
      - done. }
    destruct (kex_mode kex); [|done|done]. apply wp_bind.
    eapply (wp_ses_payload_post _ (λ o, ∀ v, o = Some v → mp_ok v)); [apply Hs|apply wp_getmpint|].
    intros o io Hio Ho. apply wp_bind, wp_crypt_ok. intros e ->. apply wp_ret. split_and!; [by apply Ho|done|done| |done].
    by apply hashing_io. }
  clear Hs Hb. intros [e qs] s1 (He & Hqs & Hqs' & Hs & Hb). apply wp_bind.
  apply wp_ses_payload_io; [apply Hs|done|]. intros p io Hio. apply (hashing_io _ _ _ _ io) in Hs; [|done].
  apply wp_if; intros _; [done|]. apply wp_bind.
  eapply wp_mono; [eapply (safe_kexdh_reply n K0); try done|].
  { intros kex' Hk'. rewrite Hk in Hk'. injection Hk' as <-. done. }
  intros [] s2 (K & Hs2). apply wp_bind. eapply wp_mono; [by eapply safe_send_newkeys|].
  intros [] s3 (n3 & Hs3). apply wp_modify. split; [|done]. exists n3. hg Hs3.
Qed.

(** ** KEXINIT *)
Lemma keeps_put_algolist {D Mo} (l : list (algo_type D Mo)) : sendable l → keeps (buf_put_algolist l).
Proof.
  intros Hl b Hwf. destruct (buf_put_algolist_eq l b Hl) as (Hb & Hu & E). unfold wp. rewrite E.
  apply (keeps_putstring (comma_join (usable_names l))); [lia|done|done].
Qed.

Lemma resting_io s io : resting s → io_ok io → resting (set_io io s).
Proof. intros [] ?. by split. Qed.

Lemma wp_rest_write {A} (m : M buffer A) (Q : A → kstate → Prop) s r : resting s ∧ requirenext s = r → keeps m →
  (∀ a s', resting s' ∧ requirenext s' = r → Q a s') → wp (ses_write m) Q s.
Proof.
  intros [Hs Hr] Hm HQ. apply wp_ses_write_io; [apply Hs|done|]. intros a io Hio. apply HQ.
  split; [by apply resting_io|done].
Qed.

Lemma safe_send_kexinit s : resting s →
  wp (send_msg_kexinit sshkex sshhostkey sshciphers sshhashes None)
    (λ _ s', resting s' ∧ sentkexinit (rest s') = true ∧ requirenext s' = requirenext s) s.
Proof.
  intros Hs. destruct (env_lists Henv) as (L1 & L2 & L3 & L4). unfold send_msg_kexinit.
  apply wp_bind, wp_ses_write_io; [apply Hs|by apply keeps_putbyte|]. intros ? io1 H1.
  apply wp_bind. do 2 apply wp_zoom. cbn [get_io set_io pses_has_io pp_io].
  apply wp_getwriteptr; [apply H1|done|]. intros Hfit.
  unfold genrandom_bytes. apply wp_bind, wp_bind, wp_kx. cbn [rest].
  destruct (kex_genrandom _ 16) as [bs r] eqn:Eg.
  assert (Hbs : zlen bs = 16 ∧ Forall is_byte bs).
  { pose proof (env_random Henv (kx_rng (rest s)) 16 ltac:(lia)) as Hr. cbn in Eg. by rewrite Eg in Hr. }
  destruct Hbs as [Hbl Hbb]. apply wp_bind, wp_kmod, wp_ret, wp_bind. do 2 apply wp_zoom.
  cbn [get_io set_io pses_has_io pp_io set_rest io_set_writepayload io_writepayload].
  pose proof H1 as [H1p H1w]. buf_facts.
  apply wp_store; [done|lia|lia|done|]. intros b' Hb'.
  match goal with |- wp _ _ ?st => set (s1 := st) end.
  assert (Hs1 : resting s1 ∧ requirenext s1 = requirenext s) by (split; [destruct Hs; by split|done]).
  clearbody s1. clear Hs.
  apply wp_bind, (wp_rest_write _ _ _ _ Hs1); [by apply (keeps_bufop (OpIncrwritepos 16))|]. clear s1 Hs1. intros ? s1 Hs1.
  do 6 (apply wp_bind, (wp_rest_write _ _ _ _ Hs1); [by apply keeps_put_algolist|]; clear s1 Hs1; intros ? s1 Hs1).
  apply wp_bind, wp_kx. destruct (rs_comp _ (proj1 Hs1)) as [Hca _].
  set (ca := compress_algos (rest s1)) in *. clearbody ca.
  do 2 (apply wp_bind, (wp_rest_write _ _ _ _ Hs1); [by apply keeps_put_algolist|]; clear s1 Hs1; intros ? s1 Hs1).
  do 2 (apply wp_bind, (wp_rest_write _ _ _ _ Hs1); [by apply keeps_putstring|]; clear s1 Hs1; intros ? s1 Hs1).
  apply wp_bind, (wp_rest_write _ _ _ _ Hs1); [by apply keeps_putbyte|]. clear s1 Hs1. intros ? s1 Hs1.
  apply wp_bind, (wp_rest_write _ _ _ _ Hs1); [apply keeps_putint|]. clear s1 Hs1. intros ? s1 [Hs1 Hr1].
  apply wp_bind. do 2 apply wp_zoom. apply wp_get. pose proof (rs_io _ Hs1) as [_ Hw].
  destruct (buf_newcopy_wf _ Hw) as (t & Et & Ht & _).
  apply wp_bind, wp_lift. cbn [get_io pses_has_io] in Et |- *. rewrite Et.
  apply wp_bind, wp_kmod. destruct Hs1 as [? ? ? ? ? ? ?].
  apply wp_bind, wp_encrypt_msg; [done|]. intros io2 Hio2. do 2 apply wp_bind, wp_kmod.
  apply wp_bind, wp_kmod, wp_ret. split_and!; [|done|done].
  split; cbn; auto. intros _. split; [by eexists|]. by exists t.
Qed.

(** ** The peer's KEXINIT *)
Lemma safe_match {D Mo} (l : list (algo_type D Mo)) srv kg wg b : algos_ok l → buf_wf b →
  wp (buf_match_algo srv l kg wg) (λ r b', buf_wf b' ∧ ∀ a, r.1.1 = Some a → a ∈ l) b.
Proof.
  intros Hl Hwf. destruct (p_string (buf_rest b)) as [[lst tl]|] eqn:Ep.
  - pose proof (buf_match_algo_run srv l kg wg b lst tl Hl Hwf Ep) as Hr. unfold twp in Hr. unfold wp.
    destruct (buf_match_algo srv l kg wg b) as [[[[r kg'] good] b']| |]; [|done|done].
    destruct Hr as (Hwf' & _ & Hm). split; [done|]. cbn. intros a ->. unfold match_outcome in Hm.
    destruct (offered lst); [|by destruct Hm]. by apply Hm.
  - pose proof (reader_refines (op:=buf_getstring) b Hwf) as Hr. rewrite Ep in Hr. destruct Hr as [e He].
    unfold wp, buf_match_algo. by rewrite (bind_exit _ _ _ _ He).
Qed.

Record reading n s : Prop := {
  rd_io : io_ok (pp_io s);
  rd_flags : sentkexinit (rest s) = true ∧ recvkexinit (rest s) = false ∧
             sentnewkeys (rest s) = false ∧ recvnewkeys (rest s) = false;
  rd_keys : is_Some (keys (rest s));
  rd_new : newkeys (rest s) = Some n;
  rd_kb : hashbuf_ok s;
  rd_sid : opt_wf (session_id (rest s));
  rd_comp : comp_ok (rest s);
  rd_beg : 0 ≤ kx_payload_beginning (rest s)
}.
Lemma wp_reading_upd f n s (Q : () → kstate → Prop) : reading n s →
  (∀ s', reading (f n) s' → Q tt s') → wp (upd_newkeys f) Q s.
Proof. intros Hs HQ. eapply wp_updnewkeys; [apply Hs|]. apply HQ. destruct Hs. by split. Qed.
Lemma wp_reading_payload {A} (m : M buffer A) n s (Q : A → kstate → Prop) : reading n s → keeps m →
  (∀ a s', reading n s' → Q a s') → wp (ses_payload m) Q s.
Proof.
  intros Hs Hm HQ. apply wp_ses_payload_io; [apply Hs|done|]. intros a io Hio. apply HQ. destruct Hs. by split.
Qed.
Lemma wp_reading_hash {A} (m : M buffer A) n s (Q : A → kstate → Prop) : reading n s → keeps m →
  (∀ a s', reading n s' → Q a s') → wp (on_kexhashbuf m) Q s.
Proof.
  intros Hs Hm HQ. destruct (rd_kb _ _ Hs) as (kb & Hk & Hwf). apply wp_bind, wp_kx, wp_bind.
  eapply wp_deref; [exact Hk|]. apply wp_bind, wp_lift. specialize (Hm kb Hwf). unfold wp in Hm.
  destruct (m kb) as [[a b']| |]; [|done|done]. apply wp_bind, wp_kmod, wp_ret, HQ.
  destruct Hs. split; cbn; auto. by exists b'.
Qed.
Lemma wp_reading_match {D Mo} (l : list (algo_type D Mo)) n s (Q : option (algo_type D Mo) → kstate → Prop) :
  algos_ok l → reading n s → (∀ o s', reading n s' → (∀ a, o = Some a → a ∈ l) → Q o s') → wp (match_plain false l) Q s.
Proof.
  intros Hl Hs HQ. unfold match_plain. apply wp_bind.
  eapply (wp_ses_payload_post _ (λ r, ∀ a, r.1.1 = Some a → a ∈ l)); [apply Hs|by intros; apply safe_match|].
  intros [[o k] g] io Hio Ho. apply wp_ret, HQ; [|done]. destruct Hs. by split.
Qed.
Lemma wp_reading_match_kex {D Mo} (l : list (algo_type D Mo)) kg n s (Q : _ → kstate → Prop) :
  algos_ok l → reading n s → (∀ o k g s', reading n s' → (∀ a, o = Some a → a ∈ l) → Q (o, k, g) s') →
  wp (match_kex false l kg) Q s.
Proof.
  intros Hl Hs HQ. unfold match_kex. apply wp_bind.
  eapply (wp_ses_payload_post _ (λ r, ∀ a, r.1.1 = Some a → a ∈ l)); [apply Hs|by intros; apply safe_match|].
  intros [[o k] g] io Hio Ho. apply wp_ret, HQ; [|done]. destruct Hs. by split.
Qed.
Lemma wp_required {A} e (o : option A) (Q : A → kstate → Prop) s :
  (∀ a, o = Some a → Q a s) → wp (required e o) Q s.
Proof. destruct o; [|done]. intros HQ. by apply HQ. Qed.

Lemma keeps_eatstring : keeps buf_eatstring.
Proof. apply (keeps_bufop OpEatstring). done. Qed.

Lemma safe_read_kex_algos n s : reading n s →
  wp (read_kex_algos false sshkex sshhostkey sshciphers sshhashes None)
    (λ _ s', ∃ n', new_ok n' ∧ reading n' s') s.
Proof.
  intros Hs. destruct (env_lists Henv) as ([L1 _] & [L2 _] & [L3 _] & [L4 _]).
  unfold read_kex_algos. apply wp_bind, (wp_reading_payload _ n); [done|by apply keeps_incrpos|].
  clear s Hs. intros ? s Hs. apply wp_bind. eapply wp_newkeys; [apply Hs|]. apply wp_bind, wp_kmod.
  set (s1 := set_rest _ s). assert (Hs1 : reading key_context_zero s1) by (destruct Hs; by split).
  clearbody s1. clear s Hs n.
  apply wp_bind, (wp_reading_match_kex _ _ _ _ _ L1 Hs1). clear s1 Hs1. intros o1 k1 g1 s Hs Ho1.
  apply wp_bind, wp_required. intros kex ->. apply wp_if; intros Ev; [done|]. apply Z.eqb_neq in Ev.
  destruct (env_kex Henv kex (Ho1 _ eq_refl) Ev) as (kx0 & Hd & Hlaw). rewrite Hd.
  apply wp_bind, (wp_reading_upd _ _ _ _ Hs). clear s Hs. intros s Hs.
  apply wp_bind, (wp_reading_match_kex _ _ _ _ _ L2 Hs). clear s Hs. intros o2 k2 g2 s Hs Ho2.
  apply wp_bind, wp_required. intros hk _. apply wp_bind, (wp_reading_upd _ _ _ _ Hs). clear s Hs. intros s Hs.
  apply wp_bind, (wp_reading_match _ _ _ _ L3 Hs). clear s Hs. intros ? s Hs _. apply wp_bind, wp_required. intros c1 _.
  apply wp_bind, (wp_reading_match _ _ _ _ L3 Hs). clear s Hs. intros ? s Hs _. apply wp_bind, wp_required. intros c2 _.
  apply wp_bind, (wp_reading_match _ _ _ _ L4 Hs). clear s Hs. intros ? s Hs Hh1. apply wp_bind, wp_required. intros h1 ->.
  apply wp_bind, (wp_reading_match _ _ _ _ L4 Hs). clear s Hs. intros ? s Hs Hh2. apply wp_bind, wp_required. intros h2 ->.
  apply wp_bind, wp_kx. pose proof (rd_comp _ _ Hs) as [[Lc _] _].
  set (ca := compress_algos (rest s)) in *. clearbody ca.
  apply wp_bind, (wp_reading_match _ _ _ _ Lc Hs). clear s Hs. intros ? s Hs _. apply wp_bind, wp_required. intros p1 _.
  apply wp_bind, (wp_reading_match _ _ _ _ Lc Hs). clear s Hs. intros ? s Hs _. apply wp_bind, wp_required. intros p2 _.
  do 2 (apply wp_bind, (wp_reading_payload _ _ _ _ Hs keeps_eatstring); clear s Hs; intros ? s Hs).
  apply wp_bind, (wp_reading_payload _ _ _ _ Hs); [by eapply keeps_reader, reader_getbool|]. clear s Hs. intros ff s Hs.
  apply wp_bind. eapply (wp_mono _ (λ _ s', reading _ s')).
  { apply wp_when; intros _; [|exact Hs]. apply wp_bind, wp_kmod.
    apply wp_when; intros _; [apply wp_modify|]; destruct Hs; by split. }
  clear s Hs. intros _ s Hs. cbv zeta.
  apply wp_bind, (wp_reading_upd _ _ _ _ Hs). clear s Hs. intros s Hs.
  apply wp_bind, (wp_reading_upd _ _ _ _ Hs). clear s Hs. intros s Hs.
  apply wp_bind, (wp_reading_payload _ _ _ _ Hs); [by eapply keeps_reader, reader_getint|]. clear s Hs. intros ? s Hs.
  apply wp_ret. eexists. split; [|exact Hs].
  pose proof (env_hash Henv h1 (Hh1 _ eq_refl)). pose proof (env_hash Henv h2 (Hh2 _ eq_refl)).
  split; cbn; [by exists kx0| |]; (split_and!; cbn; [by eexists|by eexists|by eexists|done]).
Qed.

Lemma safe_payload_string n s (Q : list Z → kstate → Prop) : reading n s →
  (∀ bs s', Forall is_byte bs → reading n s' → Q bs s') → wp payload_string Q s.
Proof.
  intros Hs HQ. unfold payload_string. apply wp_bind, wp_kx, wp_bind. pose proof (rd_io _ _ Hs) as [Hp Hw].
  do 2 apply wp_zoom. apply wp_setpos; [done|apply Hs|]. intros Hle Hb.
  apply wp_bind. do 2 apply wp_zoom. apply wp_get.
  cbn [get_io set_io pses_has_io pp_io io_payload io_set_payload].
  set (b := set_pos _ _) in *. pose proof Hb. buf_facts. rewrite u32_small by (unfold U32; lia).
  apply wp_bind. do 2 apply wp_zoom. cbn [get_io set_io pses_has_io pp_io io_payload io_set_payload].
  apply wp_getptr; [done|unfold U32; lia|]. intros _. do 2 apply wp_zoom.
  cbn [get_io set_io pses_has_io pp_io io_payload io_set_payload].
  apply wp_load; [done|lia..|]. intros bs _ _ Hbs. apply HQ; [done|]. destruct Hs. by split.
Qed.

Lemma safe_recv_kexinit s : resting s →
  wp (recv_msg_kexinit false sshkex sshhostkey sshciphers sshhashes None)
    (λ _ s', exchanging s' ∧ requirenext s' = SSH_MSG_KEXDH_INIT) s.
Proof.
  intros Hs. unfold recv_msg_kexinit. apply wp_bind, wp_kx, wp_bind.
  eapply (wp_mono _ (λ _ s', resting s' ∧ sentkexinit (rest s') = true)).
  { apply wp_when; intros E; [|by apply negb_false_iff in E].
    eapply wp_mono; [by apply safe_send_kexinit|]. by intros [] s' (? & ? & _). }
  clear s Hs. intros [] s [Hs Hsent]. destruct (rs_sent _ Hs Hsent) as ([n Hn] & t & Ht & Htw).
  apply wp_bind, wp_kx, wp_bind. eapply wp_deref; [exact Ht|].
  apply wp_bind. apply wp_ses_payload_io; [apply Hs|done|]. intros p io Hio.
  apply (resting_io _ _ Hs) in Hio as Hs1. apply wp_bind, wp_kx. cbn [rest set_io pses_has_io].
  set (remote := remoteident (rest s)). assert (Hremote : Forall is_byte remote) by apply Hs1.
  apply wp_bind, wp_new; [apply u32_range|]. intros kb Hkb _ _ _. apply wp_bind, wp_kmod.
  match goal with |- wp _ _ ?st => set (s1 := st) end.
  assert (Hr1 : reading n s1).
  { destruct Hs1 as [? (F1 & F2 & F3) ? ? ? ? ?]. split; cbn; auto. by exists kb. }
  clearbody s1. clear Hs Hsent Hn Ht Hs1 Hio.
  apply wp_bind. eapply wp_mono; [by eapply safe_read_kex_algos|]. clear s1 Hr1 n. intros [] s1 (n & Hnew & Hs).
  cbv zeta. apply wp_bind. cbn iota.
  apply wp_bind, (wp_reading_hash _ _ _ _ Hs); [apply keeps_putstring; [pose proof (strlen_le remote); lia|done]|].
  clear s1 Hs. intros ? s1 Hs.
  apply wp_bind, (wp_reading_hash _ _ _ _ Hs);
    [apply keeps_putstring; [pose proof (strlen_le LOCAL_IDENT); lia|apply bytes_of_string_bytes]|].
  clear s1 Hs. intros ? s1 Hs. apply wp_bind, wp_bind, (safe_payload_string _ _ _ Hs).
  clear s1 Hs. intros bs s1 Hbs Hs. apply (wp_reading_hash _ _ _ _ Hs); [apply keeps_putstring; [lia|done]|].
  clear s1 Hs. intros ? s1 Hs. pose proof Htw. buf_facts.
  apply wp_bind, (wp_reading_hash _ _ _ _ Hs); [apply keeps_putstring; [lia|done]|]. clear s1 Hs. intros ? s1 Hs.
  apply wp_modify, wp_bind, wp_kmod, wp_kmod. split; [|done]. destruct Hs as [? (F1 & F2 & F3 & F4) ? ? (kb1 & ? & ?) ? ? ?].
  exists n, (dh_K (rest s1)). split_and!; [done| |by exists kb1]. by split.
Qed.

(** ** The state machine *)
Definition kinv s : Prop :=
  (resting s ∧ (requirenext s = 0 ∨ requirenext s = SSH_MSG_KEXINIT)) ∨
  (exchanging s ∧ requirenext s = SSH_MSG_KEXDH_INIT) ∨
  (waiting s ∧ requirenext s = SSH_MSG_NEWKEYS).

(** The phases depend on the buffers and on the fields of the key exchange. *)
Lemma resting_ext s s' : io_ok (pp_io s') → rest s' = rest s → resting s → resting s'.
Proof. intros Hio Hr []. by split; rewrite ?Hr. Qed.
Lemma hashing_ext n snk K s s' : io_ok (pp_io s') → rest s' = rest s → hashing n snk K s → hashing n snk K s'.
Proof. intros Hio Hr []. by split; rewrite ?Hr. Qed.
Lemma exchanging_ext s s' : io_ok (pp_io s') → rest s' = rest s → exchanging s → exchanging s'.
Proof.
  intros Hio Hr (n & K0 & ? & ? & Hb). exists n, K0. split_and!; [done|by eapply hashing_ext|].
  unfold hashbuf_ok in *. by rewrite Hr.
Qed.
Lemma waiting_ext s s' : io_ok (pp_io s') → rest s' = rest s → waiting s → waiting s'.
Proof. intros Hio Hr (n & ?). exists n. by eapply hashing_ext. Qed.
Lemma kinv_ext s s' : io_ok (pp_io s') → rest s' = rest s → requirenext s' = requirenext s → kinv s → kinv s'.
Proof.
  intros Hio Hr Hq. unfold kinv. rewrite Hq.
  intros [[??]|[[??]|[??]]]; [left|right; left|right; right]; (split; [|done]).
  - by eapply resting_ext.
  - by eapply exchanging_ext.
  - by eapply waiting_ext.
Qed.
Lemma kinv_io s : kinv s → io_ok (pp_io s).
Proof. intros [[[] _]|[[(? & ? & _ & [] & _) _]|[(? & []) _]]]; done. Qed.

(** A handler that leaves the key exchange alone. *)
Definition frames (h : M kstate ()) : Prop :=
  ∀ s, io_ok (pp_io s) → wp h (λ _ s', io_ok (pp_io s') ∧ rest s' = rest s ∧ requirenext s' = requirenext s) s.
Definition kex_handlers (hs : @svr_handlers ks) : Prop :=
  ProcessPacket.recv_msg_kexinit hs = recv_msg_kexinit false sshkex sshhostkey sshciphers sshhashes None ∧
  ProcessPacket.recv_msg_kexdh_init hs = recv_msg_kexdh_init DIGIT_BIT false delay_hostkey ∧
  ProcessPacket.recv_msg_newkeys hs = recv_msg_newkeys ∧
  Forall frames [recv_msg_channel_data hs; recv_msg_channel_window_adjust hs; recv_msg_userauth_request hs;
    recv_msg_service_request hs; recv_msg_global_request_remotetcp hs; recv_msg_channel_request hs;
    recv_msg_channel_open hs; recv_msg_channel_eof hs; recv_msg_channel_close hs; ignore_recv_response hs;
    recv_msg_channel_open_confirmation hs; recv_msg_channel_open_failure hs].

(** What happens to the session: a packet arrives, or the rekey timer expires
    ([checktimeouts]: only when no key exchange is going on). *)
Inductive kevent := KRecv (payload : buffer) (beginning : Z) | KRekey.
Definition kex_step (hs : @svr_handlers ks) (e : kevent) : M kstate () :=
  match e with
  | KRecv b beg =>
      modify (λ s : kstate, set_io (io_set_payload b (get_io s)) s);;
      kmod (λ k : ks, mkKses (sentkexinit k) (recvkexinit k) (them_firstfollows k) (sentnewkeys k) (recvnewkeys k)
        (donefirstkex k) (our_first_follows_matches k) (kx_dataallowed k) (lastkextime k) (kx_datatrans k)
        (kx_datarecv k) beg (keys k) (newkeys k) (session_id k) (dh_K k) (kx_hash k) (kexhashbuf k)
        (transkexinit k) (remoteident k) (compress_algos k) (kx_rng k));;
      process_packet (svr_packettypes hs)
  | KRekey => sent ← kx sentkexinit; when (negb sent) (send_msg_kexinit sshkex sshhostkey sshciphers sshhashes None)
  end.
Definition event_ok (e : kevent) : Prop :=
  match e with KRecv b beg => buf_wf b ∧ 0 ≤ beg | KRekey => True end.
Fixpoint kex_run (hs : @svr_handlers ks) (es : list kevent) : M kstate () :=
  match es with [] => mret tt | e :: es => kex_step hs e;; kex_run hs es end.

(** [recv_msg_newkeys] changes only fields of the key exchange. *)
Class KeepsReq {A} (m : M kstate A) : Prop :=
  keeps_req : ∀ s a s', m s = Ok (a, s') → requirenext s' = requirenext s.
#[local] Instance keeps_req_ret {A} (a : A) : KeepsReq (mret a).
Proof. by intros s ? s' [= <- <-]. Qed.
#[local] Instance keeps_req_exit {A} e : KeepsReq (@dropbear_exit kstate A e).
Proof. done. Qed.
#[local] Instance keeps_req_bind {A B} (m : M kstate A) (f : A → M kstate B) :
  KeepsReq m → (∀ a, KeepsReq (f a)) → KeepsReq (m ≫= f).
Proof. intros Hm Hf s b s2 (a & s1 & E1 & E2)%bind_inv. by rewrite (Hf _ _ _ _ E2), (Hm _ _ _ E1). Qed.
#[local] Instance keeps_req_gets {A} (f : kstate → A) : KeepsReq (gets f).
Proof. by intros s a s' [= <- <-]. Qed.
#[local] Instance keeps_req_kmod f : KeepsReq (kmod f).
Proof. by intros s a s' [= <- <-]. Qed.
#[local] Instance keeps_req_deref {A} e (o : option A) : KeepsReq (deref e o).
Proof. destruct o; [apply _|done]. Qed.
#[local] Instance keeps_req_if {A} (b : bool) (m1 m2 : M kstate A) : KeepsReq m1 → KeepsReq m2 → KeepsReq (if b then m1 else m2).
Proof. by destruct b. Qed.
Lemma keeps_req_newkeys : KeepsReq recv_msg_newkeys.
Proof.
  assert (Hz1 : KeepsReq gen_new_zstream_recv).
  { unfold gen_new_zstream_recv, upd_newkeys, get_newkeys, upd_keys, get_keys, kx.
    apply keeps_req_bind; [apply _|]. intros n. apply keeps_req_bind.
    - destruct inflateInit; apply _.
    - intros _. apply keeps_req_bind; [apply _|]. intros k. destruct (d_zstream (kc_recv k)); apply _. }
  assert (Hz2 : KeepsReq gen_new_zstream_trans).
  { unfold gen_new_zstream_trans, upd_newkeys, get_newkeys, upd_keys, get_keys, kx.
    apply keeps_req_bind; [apply _|]. intros n. apply keeps_req_bind.
    - destruct deflateInit2; apply _.
    - intros _. apply keeps_req_bind; [apply _|]. intros k. destruct (d_zstream (kc_trans k)); apply _. }
  unfold recv_msg_newkeys, switch_keys, upd_newkeys, get_newkeys, upd_keys, get_keys, kexinitialise, kx.
  apply keeps_req_bind; [apply _|]. intros _. apply keeps_req_bind; [apply _|]. intros k.
  apply keeps_req_if; [apply _|]. destruct (keys k); apply _.
Qed.

(** A handler of the server, run in a phase in which it was dispatched. *)
Lemma safe_handler hs type h s : kex_handlers hs → find_handler (svr_packettypes hs) type = Some h →
  (requirenext s = 0 ∨ requirenext s = type) → kinv s →
  wp h (λ _ s', kinv s') (if requirenext s =? type then set_requirenext 0 s else s).
Proof.
  intros (E1 & E2 & E3 & Hf) [Hin H0]%find_handler_elem Hreq Hs. pose proof (kinv_io _ Hs) as Hio.
  set (s0 := if requirenext s =? type then set_requirenext 0 s else s).
  assert (Hs0 : io_ok (pp_io s0) ∧ rest s0 = rest s) by (unfold s0; by case_if).
  destruct Hs0 as [Hio0 Hr0].
  assert (Hframe : frames h → requirenext s ≠ type → wp h (λ _ s', kinv s') s0).
  { intros Hfr Hne. unfold s0 in *. rewrite (proj2 (Z.eqb_neq _ _) Hne) in *.
    eapply wp_mono; [by apply Hfr|]. intros [] s' (? & ? & ?). by eapply kinv_ext. }
  assert (Hother : frames h → type ≠ SSH_MSG_KEXINIT → type ≠ SSH_MSG_KEXDH_INIT → type ≠ SSH_MSG_NEWKEYS →
    wp h (λ _ s', kinv s') s0).
  { intros Hfr N1 N2 N3. apply Hframe; [done|]. intros <-. destruct Hs as [[_ [?|?]]|[[_ ?]|[_ ?]]]; congruence. }
  rewrite !Forall_cons in Hf. destruct Hf as (?&?&?&?&?&?&?&?&?&?&?&?&_). unfold svr_packettypes in Hin.
  repeat (apply elem_of_cons in Hin as [[= -> ->]|Hin]; [first [by apply Hother | idtac]|]);
    [| | |by apply elem_of_nil in Hin].
  - rewrite E1. destruct Hs as [[Hs _]|[[_ Hq]|[_ Hq]]]; [|rewrite Hq in Hreq; destruct Hreq; done..].
    eapply wp_mono; [apply safe_recv_kexinit; by eapply resting_ext|]. intros [] s' [? ?]. right. by left.
  - rewrite E2. destruct Hs as [[Hs _]|[[Hs _]|[_ Hq]]]; [| |rewrite Hq in Hreq; destruct Hreq; done].
    + apply (resting_ext s s0) in Hs; [|done..]. apply wp_bind, wp_kx.
      destruct (rs_flags _ Hs) as (-> & _). done.
    + eapply wp_mono; [apply safe_recv_kexdh_init; by eapply exchanging_ext|]. intros [] s' [? ?]. right. by right.
  - rewrite E3. destruct Hs as [[Hs _]|[[_ Hq]|[Hs Hq]]]; [|rewrite Hq in Hreq; destruct Hreq; done|].
    + apply (resting_ext s s0) in Hs; [|done..]. destruct (rs_flags _ Hs) as (F & _).
      apply wp_bind, wp_kmod, wp_bind, wp_kx. unfold id. cbn [rest set_rest set_recvnewkeys recvkexinit sentkexinit].
      by rewrite F, andb_false_r.
    + assert (Hq0 : requirenext s0 = 0) by (unfold s0; rewrite Hq; done).
      eapply wp_mono; [apply wp_keep, safe_recv_newkeys; by eapply waiting_ext|]. intros [] s' [Hs' Hrun]. left.
      split; [done|]. left. by rewrite (keeps_req_newkeys _ _ _ Hrun).
Qed.

Lemma io_ok_freed i : io_ok i → io_ok (io_set_payload (mkBuf [] 0 0 0) i).
Proof. intros [_ Hw]. split; [|done]. split; cbn; unfold BUF_MAX_SIZE; try lia; done. Qed.
Lemma safe_freed (m : M kstate ()) s : wp m (λ _ s', kinv s') s → wp (m;; free_payload) (λ _ s', kinv s') s.
Proof.
  intros Hm. apply wp_bind. eapply wp_mono; [exact Hm|]. intros [] s' Hs. apply wp_modify.
  eapply (kinv_ext s'); [by apply io_ok_freed, kinv_io|done|done|done].
Qed.
Lemma safe_unimplemented s : kinv s → wp recv_unimplemented (λ _ s', kinv s') s.
Proof.
  intros Hs. unfold recv_unimplemented. apply wp_bind, wp_get, wp_bind, wp_ses_write_io; [by apply kinv_io| |].
  { apply keeps_bind; [by apply keeps_putbyte|]. intros _. apply keeps_putint. }
  intros ? io Hio. apply wp_encrypt_msg; [done|]. intros io2 Hio2. by eapply (kinv_ext s).
Qed.

(** The bookkeeping of [process_packet]. *)
Lemma kinv_seen type s : kinv s → kinv (seen type s).
Proof. intros Hs. pose proof (kinv_io _ Hs). unfold seen. case_if; by eapply (kinv_ext s). Qed.

Lemma requirenext_seen type s : requirenext (seen type s) = requirenext s.
Proof. unfold seen. by case_if. Qed.

Lemma safe_process_packet hs s : kex_handlers hs → kinv s →
  wp (process_packet (svr_packettypes hs)) (λ _ s', kinv s') s.
Proof.
  intros Hh Hs. pose proof (kinv_io _ Hs) as [Hp Hw]. pose proof (reader_refines (op:=buf_getbyte) _ Hp) as Hr.
  destruct (p_byte (buf_rest (io_payload (pp_io s)))) as [[type tl]|] eqn:Eb.
  2: { destruct Hr as [e He]. unfold wp, process_packet, ses_payload, zoom, mbind, M_bind. cbn. by rewrite He. }
  destruct Hr as (k & Hk & Hk' & _ & Hrun).
  unfold wp. rewrite (process_packet_run (svr_packettypes hs) s type _ Hrun).
  set (s1 := set_io _ s).
  assert (Hs1 : kinv s1).
  { eapply (kinv_ext s); [|done..]. split; cbn; [|done]. apply buf_wf_advance; [done|buf_facts; lia..]. }
  assert (Hq : requirenext s1 = requirenext s) by done.
  pose proof (kinv_seen type _ Hs1) as Hseen. pose proof (kinv_io _ Hs1) as Hio1.
  assert (Hdisp : find_handler (svr_packettypes hs) type = None → kinv (on_dispatch type s1)).
  { intros Hnone. unfold on_dispatch. rewrite requirenext_seen.
    destruct (Z.eqb_spec (requirenext s1) type) as [E|]; [|done].
    destruct Hs1 as [[? [E'|E']]|[[? E']|[? E']]]; rewrite E' in E; subst type; try done.
    left. split; [|by left]. eapply (resting_ext s1); [|unfold seen; by case_if|done]. unfold seen; by case_if. }
  assert (Hunim : ∀ s2, kinv s2 → wp (recv_unimplemented;; free_payload) (λ _ s', kinv s') s2).
  { intros s2 Hs2. by apply safe_freed, safe_unimplemented. }
  unfold decide_packet. case_if.
  { eapply (kinv_ext s1); [by apply io_ok_freed|done..]. }
  case_if; [done|]. fold (wanted s type). destruct (wanted s type) eqn:Ew; cbn [negb].
  - destruct (ignorenext s).
    { eapply (kinv_ext (seen type s1)); [apply io_ok_freed; exact (kinv_io _ Hseen)|done..]. }
    case_if; [done|]. destruct (find_handler (svr_packettypes hs) type) as [h|] eqn:Eh.
    + apply safe_freed. unfold on_dispatch. unfold wanted in Ew.
      eapply safe_handler; [done|done| |done]. rewrite requirenext_seen, Hq. bool_lia.
    + by apply Hunim, Hdisp.
  - case_if; [by apply Hunim|done].
Qed.

Lemma safe_kex_step hs e s : kex_handlers hs → event_ok e → kinv s → wp (kex_step hs e) (λ _ s', kinv s') s.
Proof.
  intros Hh He Hs. pose proof (kinv_io _ Hs) as Hio. destruct e as [b beg|]; cbn [kex_step].
  - destruct He as [Hb Hbeg]. apply wp_bind, wp_modify, wp_bind, wp_kmod. apply safe_process_packet; [done|].
    destruct Hs as [[Hs Hq]|[[(n & K0 & Hn & Hs & Hkb) Hq]|[(n & Hs) Hq]]].
    + left. split; [|done]. destruct Hs, Hio. by split.
    + right. left. split; [|done]. exists n, K0. split_and!; [done| |done]. destruct Hs, Hio. by split.
    + right. right. split; [|done]. exists n. destruct Hs, Hio. by split.
  - apply wp_bind, wp_kx. apply wp_when; intros E; [|done]. apply negb_true_iff in E.
    destruct Hs as [[Hs Hq]|[[(n & K0 & Hn & Hs & Hkb) Hq]|[(n & Hs) Hq]]].
    + eapply wp_mono; [by apply safe_send_kexinit|]. intros [] s' (? & _ & Hq'). left. by rewrite Hq'.
    + destruct (hg_flags _ _ _ _ Hs) as [F _]. congruence.
    + destruct (hg_flags _ _ _ _ Hs) as [F _]. congruence.
Qed.
Lemma safe_kex_run hs es s : kex_handlers hs → Forall event_ok es → kinv s →
  wp (kex_run hs es) (λ _ s', kinv s') s.
Proof.
  intros Hh He. revert s. induction He as [|e es He _ IH]; intros s Hs; [done|].
  apply wp_bind. eapply wp_mono; [by apply safe_kex_step|]. intros [] s' Hs'. by apply IH.
Qed.
End safe.

(** A session as [common_session_init] and [kexfirstinitialise] leave it. *)
Definition fresh {CS ZS HS RS CV} (s : pses (@kses CS ZS HS RS CV)) : Prop :=
  requirenext s = SSH_MSG_KEXINIT ∧ io_ok (pp_io s) ∧ is_Some (keys (rest s)) ∧ session_id (rest s) = None ∧
  sentkexinit (rest s) = false ∧ recvkexinit (rest s) = false ∧ sentnewkeys (rest s) = false ∧
  recvnewkeys (rest s) = false ∧ comp_ok (rest s) ∧ 0 ≤ kx_payload_beginning (rest s).

Lemma fresh_kinv {CS ZS HS RS CV EK EP} `{!KexExternals CS ZS HS RS CV EK EP} DIGIT_BIT
    (s : pses (@kses CS ZS HS RS CV)) : fresh s → kinv DIGIT_BIT s.
Proof.
  intros (Hq & Hio & Hk & Hsid & F1 & F2 & F3 & F4 & Hc & Hb). left. split; [|by right].
  split; try done; [by rewrite F1|]. intros b. by rewrite Hsid.
Qed.

(** C13. The key exchange is safe against any peer: from a fresh session, for
    every sequence of packets (any bytes, in any order) and rekey timeouts, the
    server never follows a null pointer, reads or writes outside a buffer, or
    otherwise runs into undefined behaviour: it goes on or ends the session.
    When it goes on, it is in one of three phases, and the phase decides which
    message of the key exchange [process_packet] lets through next. *)
Theorem kex_session_safe {CS ZS HS RS CV EK EP} `{!KexExternals CS ZS HS RS CV EK EP}
    DIGIT_BIT sshkex sshhostkey sshciphers sshhashes delay_hostkey hs es
    (s : pses (@kses CS ZS HS RS CV)) :
  kex_env DIGIT_BIT sshkex sshhostkey sshciphers sshhashes →
  kex_handlers DIGIT_BIT sshkex sshhostkey sshciphers sshhashes delay_hostkey hs →
  Forall event_ok es → fresh s →
  match kex_run sshkex sshhostkey sshciphers sshhashes hs es s with
  | Ok (_, s') =>
      (resting s' ∧ (requirenext s' = 0 ∨ requirenext s' = SSH_MSG_KEXINIT)) ∨
      (exchanging DIGIT_BIT s' ∧ requirenext s' = SSH_MSG_KEXDH_INIT) ∨
      (waiting s' ∧ requirenext s' = SSH_MSG_NEWKEYS)
  | Exit _ => True
  | UB _ => False
  end.
Proof.
  intros Henv Hh He Hs. apply (fresh_kinv DIGIT_BIT) in Hs.
  exact (safe_kex_run DIGIT_BIT sshkex sshhostkey sshciphers sshhashes delay_hostkey Henv hs es s Hh He Hs).
Qed.

Section toy.
#[local] Existing Instance toy_kex_externals.
Definition toy_algo {D Mo} (c : Z) (d : D) (m : Mo) : list (algo_type D Mo) := [mkAlgo [c] 1 d true m].
Definition toy_mode : @dropbear_cipher_mode () := mkMode (λ c l, Some (l, c)) (λ c l, Some (l, c)).
Definition toy_sshkex := toy_algo 107 (Some toy_kex) tt.
Definition toy_sshhostkey := toy_algo 104 tt tt.
Definition toy_sshciphers := toy_algo 99 dropbear_nocipher toy_mode.
Definition toy_sshhashes := toy_algo 109 dropbear_nohash tt.
Definition toy_fresh : pses (@kses () () (list Z) () ()) :=
  mkPses (mkIO (mkBuf [] 0 0 0) (mkBuf (replicate 200 0) 0 0 200) []) 0 0 0 0 SSH_MSG_KEXINIT false false 0
    (mkKses false false false false false false false true 0 0 0 0 (Some (mkKC toy_dir toy_dir None 0 0)) None
       None None None None None [83] (toy_algo 122 tt tt) tt).
Definition toy_handlers : @svr_handlers (@kses () () (list Z) () ()) :=
  let h := mret tt in
  mkHandlers h h h h (recv_msg_kexinit false toy_sshkex toy_sshhostkey toy_sshciphers toy_sshhashes None)
    (recv_msg_kexdh_init 28 false false) recv_msg_newkeys h h h h h h h h.

Lemma toy_sendable {D Mo} c (d : D) (m : Mo) : is_byte c → c ≠ 0 → c ≠ 44 → sendable (toy_algo c d m).
Proof.
  intros. split; [split; [done|]|]; [|vm_compute; discriminate].
  constructor; [|constructor]. cbn. unfold good_name. cbn. split_and!; [done|set_solver|set_solver|].
  by apply Forall_singleton.
Qed.
Lemma toy_mp_ok v : 0 ≤ v < 2 ^ 100 → mp_ok 28 (mp_of_Z 28 v).
Proof.
  intros Hv. split; [apply mp_of_Z_wf; lia|]. rewrite mp_count_bits_eq, mp_of_Z_val by (try apply mp_of_Z_wf; lia).
  unfold BUF_MAX_SIZE. case_if; [lia|].
  assert (Z.log2 v < 100) by (apply Z.log2_lt_pow2; lia). lia.
Qed.
Lemma toy_kex_env : kex_env 28 toy_sshkex toy_sshhostkey toy_sshciphers toy_sshhashes.
Proof.
  split; cbn -[Z.to_nat].
  - lia.
  - intros _ n Hn. rewrite length_replicate. split; [lia|]. by apply Forall_replicate.
  - intros t. apply keeps_putint.
  - intros t h. apply keeps_putint.
  - intros p. apply keeps_putint.
  - done.
  - intros _ _. split; [done|]. by apply (Forall_replicate is_byte 32).
  - intros _ _. apply toy_mp_ok. lia.
  - intros a ->%list_elem_of_singleton _. eexists. split; [done|]. split; [apply toy_hash_laws|].
    intros a b r. cbn [mp_exptmod toy_kex_externals dh_p_bytes toy_kex]. unfold mp28.
    replace (mp_val 28 (mp_read_unsigned_bin 28 [23])) with 23 by (vm_compute; reflexivity).
    pose proof (Z.mod_pos_bound (mp_val 28 a ^ mp_val 28 b) 23 ltac:(lia)). case_if; [|done].
    intros [= <-]. apply toy_mp_ok. lia.
  - intros a ->%list_elem_of_singleton. cbn. unfold MAX_MAC_LEN. lia.
  - split_and!; apply toy_sendable; done.
Qed.
Lemma toy_kex_handlers : kex_handlers 28 toy_sshkex toy_sshhostkey toy_sshciphers toy_sshhashes false toy_handlers.
Proof.
  assert (Hf : frames (mret tt : M (pses (@kses () () (list Z) () ())) ())) by (intros s Hs; by apply wp_ret).
  split; [done|split; [done|split; [done|]]]. rewrite !Forall_cons. split_and!; try done.
Qed.
Lemma toy_fresh_ok : fresh toy_fresh.
Proof.
  unfold fresh. cbn. split_and!; try done; [|].
  - split; split; cbn; unfold BUF_MAX_SIZE; try lia; try done. by apply (Forall_replicate is_byte 200).
  - split; [by apply toy_sendable|]. by apply Forall_singleton.
Qed.
Definition toy_events : list kevent := [KRekey; KRecv (mkBuf [21] 1 0 1) 0].
Lemma kex_session_safe_witness :
  match kex_run toy_sshkex toy_sshhostkey toy_sshciphers toy_sshhashes toy_handlers toy_events toy_fresh with
  | Ok (_, s') =>
      (resting s' ∧ (requirenext s' = 0 ∨ requirenext s' = SSH_MSG_KEXINIT)) ∨
      (exchanging 28 s' ∧ requirenext s' = SSH_MSG_KEXDH_INIT) ∨
      (waiting s' ∧ requirenext s' = SSH_MSG_NEWKEYS)
  | Exit _ => True
  | UB _ => False
  end.
Proof.
  apply (kex_session_safe 28 toy_sshkex toy_sshhostkey toy_sshciphers toy_sshhashes false toy_handlers toy_events
    toy_fresh toy_kex_env toy_kex_handlers); [|apply toy_fresh_ok].
  repeat constructor; cbn; unfold BUF_MAX_SIZE; try lia; by apply Forall_singleton.
Defined.
End toy.
