(* ===== verification/Channel.v ===== *)
(** * Channels ([dropbear/common-channel.c], [dropbear/channel.h])

    The table of channels and every handler and routine of
    [common-channel.c] that the server runs (no [writev]), with
    [update_channel_prio] of [common-session.c].  A pointer to a channel is its
    index in the table: a use of a channel that has been removed is undefined.
    A connection in progress is an entry of [pending_conns] with the callback it
    will make, which points to the channel until it is cancelled.  The callbacks
    of a channel type and the listeners are parameters.  File
    descriptors are modelled by what the system calls return (any chunking,
    interruption or error, from two scripts) and by a log of what was done to
    them. *)
From S2P Require Import Prelude Ssh Buffer CircBuffer Packet Session Algo.

Definition FD_UNINIT : Z := -2.
Definition FD_CLOSED : Z := -1.
Definition RECV_MAX_CHANNEL_DATA_LEN : Z := RECV_MAX_PAYLOAD_LEN - (1 + 4 + 4).
Definition TRANS_MAX_WINDOW : Z := 500000000.
Definition TRANS_MAX_WIN_INCR : Z := 500000000.
Definition MAX_CHANNELS : Z := 1000.
Definition CHAN_EXTEND_SIZE : Z := 3.
Definition SSH_OPEN_ADMINISTRATIVELY_PROHIBITED : Z := 1.
Definition SSH_OPEN_CONNECT_FAILED : Z := 2.
Definition SSH_OPEN_UNKNOWN_CHANNEL_TYPE : Z := 3.
Definition SSH_OPEN_RESOURCE_SHORTAGE : Z := 4.
Definition SSH_OPEN_IN_PROGRESS : Z := 99.
Definition SSH_EXTENDED_DATA_STDERR : Z := 1.
Definition SHUT_RD : Z := 0.
Definition SHUT_WR : Z := 1.
Definition SHUT_RDWR : Z := 2.

Inductive dropbear_channel_prio :=
| DROPBEAR_CHANNEL_PRIO_INTERACTIVE
| DROPBEAR_CHANNEL_PRIO_UNKNOWABLE
| DROPBEAR_CHANNEL_PRIO_BULK
| DROPBEAR_CHANNEL_PRIO_EARLY.
#[global] Instance channel_prio_eq_dec : EqDecision dropbear_channel_prio.
Proof. solve_decision. Defined.
Inductive dropbear_prio := DROPBEAR_PRIO_DEFAULT | DROPBEAR_PRIO_LOWDELAY | DROPBEAR_PRIO_BULK.
#[global] Instance prio_eq_dec : EqDecision dropbear_prio.
Proof. solve_decision. Defined.

(** What [read] and [write] on a descriptor return; [FdErr] is an error other
    than [EINTR], and other than [EAGAIN] for a write. *)
Inductive fdread := FdData (bs : list Z) | FdEintr | FdErr.
Inductive fdwrite := FdWrote (n : Z) | FdRetry | FdFail.
(** What was done to the descriptors. *)
Inductive fdevent :=
| EvWrite (fd : Z) (bs : list Z)
| EvShutdown (fd how : Z)
| EvClose (fd : Z)
| EvNonblock (fd : Z)
| EvPriority (fd : Z) (prio : dropbear_prio).

(** What a [dropbear_progress_connection] calls when it is there or has failed:
    [channel_connect_done] with the pointer to a channel, or [cancel_callback];
    [ConnFreed] is one that [remove_connect] has freed. *)
Inductive conn_cb := CbChannel (i : Z) | CbCancelled | ConnFreed.

Section channels.
(** [TD] is what [typedata] points to, [X] the rest of the session. *)
Context {TD X : Type}.

(** [struct Channel]; [type] is a number of a channel type.  The
    [read_mangler] returns the new length. *)
Record Channel := mkChan {
  index : Z;
  remotechan : Z;
  recvwindow : Z;
  transwindow : Z;
  recvdonelen : Z;
  recvmaxpacket : Z;
  transmaxpacket : Z;
  typedata : option TD;
  writefd : Z;
  readfd : Z;
  errfd : Z;
  writebuf : circbuffer;
  extrabuf : option circbuffer;
  sent_close : bool;
  recv_close : bool;
  recv_eof : bool;
  sent_eof : bool;
  conn_pending : option Z;
  await_open : bool;
  flushing : bool;
  read_mangler : option (list Z → Z);
  type : nat;
  prio : dropbear_channel_prio
}.
Definition set_remotechan (v : Z) (s : Channel) : Channel :=
  mkChan (index s) v (recvwindow s) (transwindow s) (recvdonelen s) (recvmaxpacket s)
    (transmaxpacket s) (typedata s) (writefd s) (readfd s) (errfd s) (writebuf s) (extrabuf s)
    (sent_close s) (recv_close s) (recv_eof s) (sent_eof s) (conn_pending s) (await_open s)
    (flushing s) (read_mangler s) (type s) (prio s).
Definition set_recvwindow (v : Z) (s : Channel) : Channel :=
  mkChan (index s) (remotechan s) v (transwindow s) (recvdonelen s) (recvmaxpacket s)
    (transmaxpacket s) (typedata s) (writefd s) (readfd s) (errfd s) (writebuf s) (extrabuf s)
    (sent_close s) (recv_close s) (recv_eof s) (sent_eof s) (conn_pending s) (await_open s)
    (flushing s) (read_mangler s) (type s) (prio s).
Definition set_transwindow (v : Z) (s : Channel) : Channel :=
  mkChan (index s) (remotechan s) (recvwindow s) v (recvdonelen s) (recvmaxpacket s)
    (transmaxpacket s) (typedata s) (writefd s) (readfd s) (errfd s) (writebuf s) (extrabuf s)
    (sent_close s) (recv_close s) (recv_eof s) (sent_eof s) (conn_pending s) (await_open s)
    (flushing s) (read_mangler s) (type s) (prio s).
Definition set_recvdonelen (v : Z) (s : Channel) : Channel :=
  mkChan (index s) (remotechan s) (recvwindow s) (transwindow s) v (recvmaxpacket s)
    (transmaxpacket s) (typedata s) (writefd s) (readfd s) (errfd s) (writebuf s) (extrabuf s)
    (sent_close s) (recv_close s) (recv_eof s) (sent_eof s) (conn_pending s) (await_open s)
    (flushing s) (read_mangler s) (type s) (prio s).
Definition set_transmaxpacket (v : Z) (s : Channel) : Channel :=
  mkChan (index s) (remotechan s) (recvwindow s) (transwindow s) (recvdonelen s) (recvmaxpacket s) v
    (typedata s) (writefd s) (readfd s) (errfd s) (writebuf s) (extrabuf s) (sent_close s)
    (recv_close s) (recv_eof s) (sent_eof s) (conn_pending s) (await_open s) (flushing s)
    (read_mangler s) (type s) (prio s).
Definition set_typedata (v : option TD) (s : Channel) : Channel :=
  mkChan (index s) (remotechan s) (recvwindow s) (transwindow s) (recvdonelen s) (recvmaxpacket s)
    (transmaxpacket s) v (writefd s) (readfd s) (errfd s) (writebuf s) (extrabuf s) (sent_close s)
    (recv_close s) (recv_eof s) (sent_eof s) (conn_pending s) (await_open s) (flushing s)
    (read_mangler s) (type s) (prio s).
Definition set_writefd (v : Z) (s : Channel) : Channel :=
  mkChan (index s) (remotechan s) (recvwindow s) (transwindow s) (recvdonelen s) (recvmaxpacket s)
    (transmaxpacket s) (typedata s) v (readfd s) (errfd s) (writebuf s) (extrabuf s) (sent_close s)
    (recv_close s) (recv_eof s) (sent_eof s) (conn_pending s) (await_open s) (flushing s)
    (read_mangler s) (type s) (prio s).
Definition set_readfd (v : Z) (s : Channel) : Channel :=
  mkChan (index s) (remotechan s) (recvwindow s) (transwindow s) (recvdonelen s) (recvmaxpacket s)
    (transmaxpacket s) (typedata s) (writefd s) v (errfd s) (writebuf s) (extrabuf s) (sent_close s)
    (recv_close s) (recv_eof s) (sent_eof s) (conn_pending s) (await_open s) (flushing s)
    (read_mangler s) (type s) (prio s).
Definition set_errfd (v : Z) (s : Channel) : Channel :=
  mkChan (index s) (remotechan s) (recvwindow s) (transwindow s) (recvdonelen s) (recvmaxpacket s)
    (transmaxpacket s) (typedata s) (writefd s) (readfd s) v (writebuf s) (extrabuf s)
    (sent_close s) (recv_close s) (recv_eof s) (sent_eof s) (conn_pending s) (await_open s)
    (flushing s) (read_mangler s) (type s) (prio s).
Definition set_writebuf (v : circbuffer) (s : Channel) : Channel :=
  mkChan (index s) (remotechan s) (recvwindow s) (transwindow s) (recvdonelen s) (recvmaxpacket s)
    (transmaxpacket s) (typedata s) (writefd s) (readfd s) (errfd s) v (extrabuf s) (sent_close s)
    (recv_close s) (recv_eof s) (sent_eof s) (conn_pending s) (await_open s) (flushing s)
    (read_mangler s) (type s) (prio s).
Definition set_extrabuf (v : option circbuffer) (s : Channel) : Channel :=
  mkChan (index s) (remotechan s) (recvwindow s) (transwindow s) (recvdonelen s) (recvmaxpacket s)
    (transmaxpacket s) (typedata s) (writefd s) (readfd s) (errfd s) (writebuf s) v (sent_close s)
    (recv_close s) (recv_eof s) (sent_eof s) (conn_pending s) (await_open s) (flushing s)
    (read_mangler s) (type s) (prio s).
Definition set_sent_close (v : bool) (s : Channel) : Channel :=
  mkChan (index s) (remotechan s) (recvwindow s) (transwindow s) (recvdonelen s) (recvmaxpacket s)
    (transmaxpacket s) (typedata s) (writefd s) (readfd s) (errfd s) (writebuf s) (extrabuf s) v
    (recv_close s) (recv_eof s) (sent_eof s) (conn_pending s) (await_open s) (flushing s)
    (read_mangler s) (type s) (prio s).
Definition set_recv_close (v : bool) (s : Channel) : Channel :=
  mkChan (index s) (remotechan s) (recvwindow s) (transwindow s) (recvdonelen s) (recvmaxpacket s)
    (transmaxpacket s) (typedata s) (writefd s) (readfd s) (errfd s) (writebuf s) (extrabuf s)
    (sent_close s) v (recv_eof s) (sent_eof s) (conn_pending s) (await_open s) (flushing s)
    (read_mangler s) (type s) (prio s).
Definition set_recv_eof (v : bool) (s : Channel) : Channel :=
  mkChan (index s) (remotechan s) (recvwindow s) (transwindow s) (recvdonelen s) (recvmaxpacket s)
    (transmaxpacket s) (typedata s) (writefd s) (readfd s) (errfd s) (writebuf s) (extrabuf s)
    (sent_close s) (recv_close s) v (sent_eof s) (conn_pending s) (await_open s) (flushing s)
    (read_mangler s) (type s) (prio s).
Definition set_sent_eof (v : bool) (s : Channel) : Channel :=
  mkChan (index s) (remotechan s) (recvwindow s) (transwindow s) (recvdonelen s) (recvmaxpacket s)
    (transmaxpacket s) (typedata s) (writefd s) (readfd s) (errfd s) (writebuf s) (extrabuf s)
    (sent_close s) (recv_close s) (recv_eof s) v (conn_pending s) (await_open s) (flushing s)
    (read_mangler s) (type s) (prio s).
Definition set_conn_pending (v : option Z) (s : Channel) : Channel :=
  mkChan (index s) (remotechan s) (recvwindow s) (transwindow s) (recvdonelen s) (recvmaxpacket s)
    (transmaxpacket s) (typedata s) (writefd s) (readfd s) (errfd s) (writebuf s) (extrabuf s)
    (sent_close s) (recv_close s) (recv_eof s) (sent_eof s) v (await_open s) (flushing s)
    (read_mangler s) (type s) (prio s).
Definition set_await_open (v : bool) (s : Channel) : Channel :=
  mkChan (index s) (remotechan s) (recvwindow s) (transwindow s) (recvdonelen s) (recvmaxpacket s)
    (transmaxpacket s) (typedata s) (writefd s) (readfd s) (errfd s) (writebuf s) (extrabuf s)
    (sent_close s) (recv_close s) (recv_eof s) (sent_eof s) (conn_pending s) v (flushing s)
    (read_mangler s) (type s) (prio s).
Definition set_flushing (v : bool) (s : Channel) : Channel :=
  mkChan (index s) (remotechan s) (recvwindow s) (transwindow s) (recvdonelen s) (recvmaxpacket s)
    (transmaxpacket s) (typedata s) (writefd s) (readfd s) (errfd s) (writebuf s) (extrabuf s)
    (sent_close s) (recv_close s) (recv_eof s) (sent_eof s) (conn_pending s) (await_open s) v
    (read_mangler s) (type s) (prio s).
Definition set_prio (v : dropbear_channel_prio) (s : Channel) : Channel :=
  mkChan (index s) (remotechan s) (recvwindow s) (transwindow s) (recvdonelen s) (recvmaxpacket s)
    (transmaxpacket s) (typedata s) (writefd s) (readfd s) (errfd s) (writebuf s) (extrabuf s)
    (sent_close s) (recv_close s) (recv_eof s) (sent_eof s) (conn_pending s) (await_open s)
    (flushing s) (read_mangler s) (type s) v.

(** The fields of the session the channels use; [pending_conns] are the
    connections [connect_remote] has made, by number: those of
    [ses.conn_pending] and those that are gone. *)
Record cses := mkCses {
  cs_io : msgio;
  channels : list (option Channel);
  chancount : Z;
  cs_dataallowed : bool;
  cs_sock_out : Z;
  socket_prio : dropbear_prio;
  maxfd : Z;
  channel_signal_pending : bool;
  fd_reads : list fdread;
  fd_writes : list fdwrite;
  fd_log : list fdevent;
  pending_conns : list conn_cb;
  cs_rest : X
}.
Definition set_channels (v : list (option Channel)) (s : cses) : cses :=
  mkCses (cs_io s) v (chancount s) (cs_dataallowed s) (cs_sock_out s) (socket_prio s) (maxfd s)
    (channel_signal_pending s) (fd_reads s) (fd_writes s) (fd_log s) (pending_conns s) (cs_rest s).
Definition set_chancount (v : Z) (s : cses) : cses :=
  mkCses (cs_io s) (channels s) v (cs_dataallowed s) (cs_sock_out s) (socket_prio s) (maxfd s)
    (channel_signal_pending s) (fd_reads s) (fd_writes s) (fd_log s) (pending_conns s) (cs_rest s).
Definition set_socket_prio (v : dropbear_prio) (s : cses) : cses :=
  mkCses (cs_io s) (channels s) (chancount s) (cs_dataallowed s) (cs_sock_out s) v (maxfd s)
    (channel_signal_pending s) (fd_reads s) (fd_writes s) (fd_log s) (pending_conns s) (cs_rest s).
Definition set_maxfd (v : Z) (s : cses) : cses :=
  mkCses (cs_io s) (channels s) (chancount s) (cs_dataallowed s) (cs_sock_out s) (socket_prio s) v
    (channel_signal_pending s) (fd_reads s) (fd_writes s) (fd_log s) (pending_conns s) (cs_rest s).
Definition set_fd_reads (v : list fdread) (s : cses) : cses :=
  mkCses (cs_io s) (channels s) (chancount s) (cs_dataallowed s) (cs_sock_out s) (socket_prio s)
    (maxfd s) (channel_signal_pending s) v (fd_writes s) (fd_log s) (pending_conns s) (cs_rest s).
Definition set_fd_writes (v : list fdwrite) (s : cses) : cses :=
  mkCses (cs_io s) (channels s) (chancount s) (cs_dataallowed s) (cs_sock_out s) (socket_prio s)
    (maxfd s) (channel_signal_pending s) (fd_reads s) v (fd_log s) (pending_conns s) (cs_rest s).
Definition set_fd_log (v : list fdevent) (s : cses) : cses :=
  mkCses (cs_io s) (channels s) (chancount s) (cs_dataallowed s) (cs_sock_out s) (socket_prio s)
    (maxfd s) (channel_signal_pending s) (fd_reads s) (fd_writes s) v (pending_conns s) (cs_rest s).
Definition set_pending_conns (v : list conn_cb) (s : cses) : cses :=
  mkCses (cs_io s) (channels s) (chancount s) (cs_dataallowed s) (cs_sock_out s) (socket_prio s)
    (maxfd s) (channel_signal_pending s) (fd_reads s) (fd_writes s) (fd_log s) v (cs_rest s).
#[global] Instance cses_has_io : HasIO cses.
Proof.
  refine {| get_io := cs_io;
            set_io i s := mkCses i (channels s) (chancount s) (cs_dataallowed s) (cs_sock_out s) (socket_prio s)
                            (maxfd s) (channel_signal_pending s) (fd_reads s) (fd_writes s) (fd_log s)
                            (pending_conns s) (cs_rest s) |}; try done. by intros [].
Defined.

(** ** System calls *)
Definition log (e : fdevent) : M cses () := modify (λ s, set_fd_log (fd_log s ++ [e]) s).
(** [m_close] of [dbutil.c]; [close] does not fail with [EIO]. *)
Definition m_close (fd : Z) : M cses () := if fd <? 0 then mret tt else log (EvClose fd).
(** [read(fd, p, n)]: at most [n] bytes; with nothing left in the script the
    call would block ([EAGAIN]). *)
Definition sys_fd_read (n : Z) : M cses fdread :=
  s ← get;
  match fd_reads s with
  | [] => mret FdErr
  | FdData bs :: ev =>
      if zlen bs <=? n then put (set_fd_reads ev s);; mret (FdData bs)
      else put (set_fd_reads (FdData (drop (Z.to_nat n) bs) :: ev) s);; mret (FdData (take (Z.to_nat n) bs))
  | e :: ev => put (set_fd_reads ev s);; mret e
  end.
(** [write(fd, p, n)]: any number of the bytes is accepted. *)
Definition sys_fd_write (fd : Z) (bs : list Z) : M cses fdwrite :=
  s ← get;
  match fd_writes s with
  | [] => mret FdRetry
  | FdWrote n :: ev =>
      let n := Z.max 0 (Z.min n (zlen bs)) in
      put (set_fd_writes ev s);; log (EvWrite fd (take (Z.to_nat n) bs));; mret (FdWrote n)
  | e :: ev => put (set_fd_writes ev s);; mret e
  end.

(** ** Pointers to channels *)
Definition getchan (i : Z) : M cses Channel :=
  s ← get;
  match channels s !! Z.to_nat i with
  | Some (Some c) => mret c
  | _ => undefined "dangling channel"
  end.
Definition setchan (i : Z) (c : option Channel) : M cses () :=
  modify (λ s, set_channels (<[Z.to_nat i := c]> (channels s)) s).
Definition updchan (i : Z) (f : Channel → Channel) : M cses () := c ← getchan i; setchan i (Some (f c)).

Definition ERRFD_IS_READ (c : Channel) : bool := match extrabuf c with None => true | Some _ => false end.
Definition ERRFD_IS_WRITE (c : Channel) : bool := negb (ERRFD_IS_READ c).

(** ** [opts.recv_window], the channel types with their callbacks, listeners *)
Variable recv_window : Z.
Record ChanType := mkType {
  sepfds : bool;
  ct_name : list Z;
  inithandler : option (Z → M cses Z);
  ct_check_close : option (Z → M cses bool);
  reqhandler : option (Z → M cses ());
  closehandler : option (Z → M cses ());
  cleanup : option (Z → M cses ())
}.
(** All channel types, by number, and [ses.chantypes], those a peer may open. *)
Variable types : list ChanType.
Variable chantypes : list nat.
Variable handle_listeners : list Z → M cses ().
Variable set_listener_fds : list Z → list Z.

Definition RECV_WINDOWEXTEND : Z := recv_window / 3.
Definition chantype (c : Channel) : M cses ChanType :=
  match types !! type c with Some t => mret t | None => undefined "dangling type" end.

Definition chaninitialise : M cses () :=
  modify (λ s, set_chancount 0 (set_channels [None] s)).

(** ** Messages *)
Definition msg_chan (t remote : Z) : M buffer () := buf_putbyte t;; buf_putint remote.
Definition send_msg_channel_window_adjust (c : Channel) (incr : Z) : M cses () :=
  ses_write (msg_chan SSH_MSG_CHANNEL_WINDOW_ADJUST (remotechan c);; buf_putint incr);;
  encrypt_msg.
Definition send_msg_channel_failure (i : Z) : M cses () :=
  c ← getchan i;
  if sent_close c then mret tt
  else ses_write (msg_chan SSH_MSG_CHANNEL_FAILURE (remotechan c));; encrypt_msg.
Definition send_msg_channel_success (i : Z) : M cses () :=
  c ← getchan i;
  if sent_close c then mret tt
  else ses_write (msg_chan SSH_MSG_CHANNEL_SUCCESS (remotechan c));; encrypt_msg.
Definition send_msg_channel_open_failure (remote reason : Z) (text lang : list Z) : M cses () :=
  ses_write (msg_chan SSH_MSG_CHANNEL_OPEN_FAILURE remote;; buf_putint reason;;
             buf_putstring text (strlen text);; buf_putstring lang (strlen lang));;
  encrypt_msg.
Definition send_msg_channel_open_confirmation (i : Z) (rwindow rmaxpacket : Z) : M cses () :=
  c ← getchan i;
  ses_write (msg_chan SSH_MSG_CHANNEL_OPEN_CONFIRMATION (remotechan c);; buf_putint (index c);;
             buf_putint rwindow;; buf_putint rmaxpacket);;
  encrypt_msg.
Definition send_msg_request_success : M cses () :=
  ses_write (buf_putbyte SSH_MSG_REQUEST_SUCCESS);; encrypt_msg.
Definition send_msg_request_failure : M cses () :=
  ses_write (buf_putbyte SSH_MSG_REQUEST_FAILURE);; encrypt_msg.
Definition start_send_channel_request (i : Z) (kind : list Z) : M cses () :=
  c ← getchan i;
  ses_write (msg_chan SSH_MSG_CHANNEL_REQUEST (remotechan c);; buf_putstring kind (strlen kind)).

(** ** The table *)
(** The first free slot, or the size of the table. *)
Fixpoint free_slot (l : list (option Channel)) : nat :=
  match l with
  | [] => 0
  | None :: _ => 0
  | Some _ :: l => S (free_slot l)
  end.
Definition newchannel (remote : Z) (ty : nat) (twindow tmaxpacket : Z) : M cses (option Z) :=
  s ← get;
  let i := free_slot (channels s) in
  if (i =? length (channels s))%nat && (zlen (channels s) >=? MAX_CHANNELS) then mret None
  else
    when (i =? length (channels s))%nat
      (modify (λ s, set_channels (channels s ++ replicate (Z.to_nat CHAN_EXTEND_SIZE) None) s));;
    wb ← lift (cbuf_new recv_window);
    setchan (Z.of_nat i) (Some (mkChan (Z.of_nat i) remote recv_window twindow 0 RECV_MAX_CHANNEL_DATA_LEN
      tmaxpacket None FD_UNINIT FD_UNINIT FD_CLOSED wb None false false false false None false false None ty
      DROPBEAR_CHANNEL_PRIO_EARLY));;
    modify (λ s, set_chancount (u32 (chancount s + 1)) s);;
    mret (Some (Z.of_nat i)).

Definition getchannel_msg (kind : string) : M cses Z :=
  chan ← ses_payload buf_getint;
  s ← get;
  match channels s !! Z.to_nat chan with
  | Some (Some _) => mret chan
  | _ => dropbear_exit (kind ++ " for unknown channel")%string
  end.
Definition getchannel : M cses Z := getchannel_msg "".

(** The loop of [update_channel_prio]: whether any channel is set up, and the
    priority. *)
Fixpoint channel_prio_loop (l : list (option Channel)) (any : bool) (new_prio : dropbear_prio) : bool * dropbear_prio :=
  match l with
  | [] => (any, new_prio)
  | None :: l => channel_prio_loop l any new_prio
  | Some c :: l =>
      match prio c with
      | DROPBEAR_CHANNEL_PRIO_EARLY => channel_prio_loop l any new_prio
      | DROPBEAR_CHANNEL_PRIO_INTERACTIVE => (true, DROPBEAR_PRIO_LOWDELAY)
      | DROPBEAR_CHANNEL_PRIO_UNKNOWABLE =>
          channel_prio_loop l true
            (if decide (new_prio = DROPBEAR_PRIO_BULK) then DROPBEAR_PRIO_DEFAULT else new_prio)
      | DROPBEAR_CHANNEL_PRIO_BULK => channel_prio_loop l true new_prio
      end
  end.
Definition update_channel_prio : M cses () :=
  s ← get;
  if cs_sock_out s <? 0 then mret tt
  else
    let '(any, new_prio) := channel_prio_loop (channels s) false DROPBEAR_PRIO_BULK in
    let new_prio := if any then new_prio else DROPBEAR_PRIO_LOWDELAY in
    if decide (new_prio = socket_prio s) then mret tt
    else log (EvPriority (cs_sock_out s) new_prio);; modify (set_socket_prio new_prio).

(** ** Connections in progress, as the channels see them ([NetIO] has the
    connections themselves) *)
Definition getconn (p : Z) : M cses conn_cb :=
  s ← get;
  match pending_conns s !! Z.to_nat p with Some cb => mret cb | None => undefined "dangling connection" end.
Definition setconn (p : Z) (cb : conn_cb) : M cses () :=
  modify (λ s, set_pending_conns (<[Z.to_nat p := cb]> (pending_conns s)) s).
(** [connect_remote(..., channel_connect_done, channel, ...)]. *)
Definition add_connect (i : Z) : M cses Z :=
  s ← get;
  put (set_pending_conns (pending_conns s ++ [CbChannel i]) s);;
  mret (zlen (pending_conns s)).
Definition cancel_pending (p : Z) : M cses () :=
  cb ← getconn p;
  match cb with ConnFreed => undefined "dangling connection" | _ => setconn p CbCancelled end.

(** [m_free]: the slot is empty from here on. *)
Definition remove_channel (i : Z) : M cses () :=
  c ← getchan i;
  m_close (writefd c);;
  m_close (readfd c);;
  m_close (errfd c);;
  t ← chantype c;
  (match cleanup t with Some h => h i | None => mret tt end);;
  c ← getchan i;
  (match conn_pending c with Some p => cancel_pending p | None => mret tt end);;
  setchan (index c) None;;
  modify (λ s, set_chancount (u32 (chancount s - 1)) s);;
  update_channel_prio.

Fixpoint cleanup_loop (n : nat) (i : Z) : M cses () :=
  match n with
  | O => mret tt
  | S n =>
      s ← get;
      (match channels s !! Z.to_nat i with
       | Some (Some _) => remove_channel i
       | _ => mret tt
       end);;
      cleanup_loop n (i + 1)
  end.
Definition chancleanup : M cses () :=
  s ← get;
  cleanup_loop (length (channels s)) 0;;
  modify (set_channels []).

(** ** Closing *)
Definition close_chan_fd (i fd how : Z) : M cses () :=
  c ← getchan i;
  t ← chantype c;
  let closeout := if sepfds t then how =? 0 else true in
  let closein := if sepfds t then negb (how =? 0) else true in
  (if sepfds t then log (EvShutdown fd how) else m_close fd);;
  c ← getchan i;
  when (closeout && (fd =? readfd c)) (updchan i (set_readfd FD_CLOSED));;
  c ← getchan i;
  when (closeout && ERRFD_IS_READ c && (fd =? errfd c)) (updchan i (set_errfd FD_CLOSED));;
  c ← getchan i;
  when (closein && (fd =? writefd c)) (updchan i (set_writefd FD_CLOSED));;
  c ← getchan i;
  when (closein && ERRFD_IS_WRITE c && (fd =? errfd c)) (updchan i (set_errfd FD_CLOSED));;
  c ← getchan i;
  when (sepfds t && (readfd c =? FD_CLOSED) && (writefd c =? FD_CLOSED) && (errfd c =? FD_CLOSED)) (m_close fd).

Definition send_msg_channel_eof (i : Z) : M cses () :=
  c ← getchan i;
  ses_write (msg_chan SSH_MSG_CHANNEL_EOF (remotechan c));;
  encrypt_msg;;
  updchan i (set_sent_eof true).

Definition send_msg_channel_close (i : Z) : M cses () :=
  c ← getchan i;
  t ← chantype c;
  (match closehandler t with Some h => h i | None => mret tt end);;
  c ← getchan i;
  ses_write (msg_chan SSH_MSG_CHANNEL_CLOSE (remotechan c));;
  encrypt_msg;;
  updchan i (set_sent_eof true);;
  updchan i (set_sent_close true);;
  c ← getchan i; close_chan_fd i (readfd c) SHUT_RD;;
  c ← getchan i; close_chan_fd i (errfd c) SHUT_RDWR;;
  c ← getchan i; close_chan_fd i (writefd c) SHUT_WR.

Definition write_pending (c : Channel) : bool :=
  if (writefd c >=? 0) && (cbuf_getused (writebuf c) >? 0) then true
  else match extrabuf c with
       | Some eb => (errfd c >=? 0) && (cbuf_getused eb >? 0)
       | None => false
       end.

(** ** Data from the program to the peer *)
Definition discard_message : M cses () := ses_write (buf_setpos 0);; ses_write (buf_setlen 0).

Definition send_msg_channel_data (i : Z) (isextended : bool) : M cses () :=
  c ← getchan i;
  dropbear_assert (negb (sent_close c));;
  let fd := if isextended then errfd c else readfd c in
  dropbear_assert (fd >=? 0);;
  w ← ses_write get;
  let maxlen := Z.min (transwindow c) (transmaxpacket c) in
  let maxlen := Z.min maxlen (u32 (buf_size w - 1 - 4 - 4 - (if isextended then 4 else 0))) in
  if maxlen =? 0 then mret tt
  else
    ses_write (msg_chan (if isextended then SSH_MSG_CHANNEL_EXTENDED_DATA else SSH_MSG_CHANNEL_DATA) (remotechan c));;
    when isextended (ses_write (buf_putint SSH_EXTENDED_DATA_STDERR));;
    w ← ses_write get;
    let size_pos := buf_pos w in
    ses_write (buf_putint 0);;
    p ← ses_write (buf_getwriteptr maxlen);
    r ← sys_fd_read maxlen;
    let bs := match r with FdData bs => bs | _ => [] end in
    if zlen bs <=? 0 then
      (match r with FdEintr => mret tt | _ => close_chan_fd i fd SHUT_RD end);;
      discard_message
    else
      ses_write (buf_store p bs);;
      c ← getchan i;
      len ←
        (match read_mangler c with
         | Some mangler =>
             p ← ses_write (buf_getwriteptr (zlen bs));
             b ← ses_write (buf_load p (zlen bs));
             mret (mangler b)
         | None => mret (zlen bs)
         end);
      if len =? 0 then discard_message
      else
        ses_write (buf_incrwritepos len);;
        ses_write (buf_setpos size_pos);;
        ses_write (buf_putint len);;
        updchan i (λ c, set_transwindow (u32 (transwindow c - len)) c);;
        encrypt_msg;;
        c ← getchan i;
        when (flushing c && (len <? maxlen)) (close_chan_fd i fd SHUT_RD).

(** [channel->type->check_close(channel)], when there is one. *)
Definition type_check_close (i : Z) (dflt : bool) : M cses bool :=
  c ← getchan i;
  t ← chantype c;
  match ct_check_close t with Some h => h i | None => mret dflt end.

Definition check_close (i : Z) : M cses () :=
  c ← getchan i;
  flush ← (if negb (flushing c) && negb (sent_close c) then type_check_close i false else mret false);
  when flush (updchan i (set_flushing true));;
  c ← getchan i;
  t ← chantype c;
  close_allowed ←
    (match ct_check_close t with
     | None => mret true
     | Some _ => if sent_close c then mret true else type_check_close i true
     end);
  c ← getchan i;
  if recv_close c && negb (write_pending c) && close_allowed then
    when (negb (sent_close c)) (send_msg_channel_close i);;
    remove_channel i
  else
    when ((recv_eof c && negb (write_pending c)) ||
          (match ct_check_close t with Some _ => true | None => false end && close_allowed))
      (close_chan_fd i (writefd c) SHUT_WR);;
    c ← getchan i;
    when (flushing c)
      (when ((readfd c >=? 0) && (transwindow c >? 0)) (send_msg_channel_data i false);;
       c ← getchan i;
       when (ERRFD_IS_READ c && (errfd c >=? 0) && (transwindow c >? 0)) (send_msg_channel_data i true));;
    c ← getchan i;
    when (negb (sent_eof c) && (readfd c =? FD_CLOSED) && (ERRFD_IS_WRITE c || (errfd c =? FD_CLOSED)))
      (send_msg_channel_eof i);;
    c ← getchan i;
    when ((readfd c =? FD_CLOSED) && (writefd c =? FD_CLOSED) && (ERRFD_IS_WRITE c || (errfd c =? FD_CLOSED))
          && negb (sent_close c) && close_allowed && negb (write_pending c))
      (send_msg_channel_close i).

(** ** Data from the peer to the program *)

(** The circular buffer a descriptor is fed from: [extra] selects [extrabuf]. *)
Definition getcbuf (i : Z) (extra : bool) : M cses circbuffer :=
  c ← getchan i;
  if extra then match extrabuf c with Some b => mret b | None => undefined "null cbuf" end
  else mret (writebuf c).
Definition on_cbuf {A} (i : Z) (extra : bool) (m : M circbuffer A) : M cses A :=
  b ← getcbuf i extra;
  r ← lift (m b);
  updchan i (if extra then set_extrabuf (Some r.2) else set_writebuf r.2);;
  mret r.1.

(** [true] is [DROPBEAR_SUCCESS]; nothing of the caller's data is consumed. *)
Definition writechannel_fallback (i fd : Z) (extra : bool) : M cses bool :=
  b ← getcbuf i extra;
  let '((p1, len1), _) := cbuf_readptrs b in
  bs ← on_cbuf i extra (cbuf_load p1 len1);
  w ← sys_fd_write fd bs;
  match w with
  | FdWrote n =>
      on_cbuf i extra (cbuf_incrread n);;
      updchan i (λ c, set_recvdonelen (u32 (recvdonelen c + n)) c);;
      mret true
  | FdRetry => mret true
  | FdFail => close_chan_fd i fd SHUT_WR;; mret false
  end.

Definition writechannel (i fd : Z) (extra : bool) : M cses bool :=
  ret ← writechannel_fallback i fd extra;
  c ← getchan i;
  when (recvdonelen c >=? RECV_WINDOWEXTEND)
    (send_msg_channel_window_adjust c (recvdonelen c);;
     updchan i (λ c, set_recvwindow (u32 (recvwindow c + recvdonelen c)) c);;
     updchan i (set_recvdonelen 0));;
  c ← getchan i;
  dropbear_assert (recvwindow c <=? recv_window);;
  dropbear_assert (recvwindow c <=? cbuf_getavail (writebuf c));;
  dropbear_assert (match extrabuf c with None => true | Some eb => recvwindow c <=? cbuf_getavail eb end);;
  mret ret.

(** The copy into the circular buffer: at most two rounds are needed. *)
Fixpoint store_loop (rounds : nat) (i : Z) (extra : bool) (len : Z) : M cses () :=
  if len >? 0 then
    match rounds with
    | O => undefined "more rounds"
    | S rounds =>
        buflen ← on_cbuf i extra cbuf_writelen;
        let buflen := Z.min buflen len in
        w ← on_cbuf i extra (cbuf_writeptr buflen);
        p ← ses_payload (buf_getptr buflen);
        bs ← ses_payload (buf_load p buflen);
        on_cbuf i extra (cbuf_store w bs);;
        on_cbuf i extra (cbuf_incrwrite buflen);;
        ses_payload (buf_incrpos buflen);;
        store_loop rounds i extra (u32 (len - buflen))
    end
  else mret tt.

Definition common_recv_msg_channel_data (i fd : Z) (extra : bool) : M cses () :=
  c ← getchan i;
  if recv_eof c then dropbear_exit "Received data after eof"
  else if (fd <? 0) || (extra && ERRFD_IS_READ c) then mret tt
  else
    datalen ← ses_payload buf_getint;
    cb ← getcbuf i extra;
    let maxdata := cbuf_getavail cb in
    if datalen >? maxdata then dropbear_exit "Oversized packet"
    else
      dropbear_assert (recvwindow c >=? datalen);;
      updchan i (λ c, set_recvwindow (u32 (recvwindow c - datalen)) c);;
      c ← getchan i;
      dropbear_assert (recvwindow c <=? recv_window);;
      ses_payload (buf_getptr datalen);;
      res ← writechannel i fd extra;
      ses_payload (buf_incrpos 0);;
      when res (store_loop 2 i extra datalen).

Definition recv_msg_channel_data : M cses () :=
  i ← getchannel;
  c ← getchan i;
  common_recv_msg_channel_data i (writefd c) false.

Definition recv_msg_channel_window_adjust : M cses () :=
  i ← getchannel;
  incr ← ses_payload buf_getint;
  let incr := Z.min incr TRANS_MAX_WIN_INCR in
  updchan i (λ c, set_transwindow (u32 (transwindow c + incr)) c);;
  updchan i (λ c, set_transwindow (Z.min (transwindow c) TRANS_MAX_WINDOW) c).

Definition recv_msg_channel_eof : M cses () :=
  i ← getchannel_msg "EOF";
  updchan i (set_recv_eof true);;
  check_close i.
Definition recv_msg_channel_close : M cses () :=
  i ← getchannel_msg "Close";
  updchan i (set_recv_eof true);;
  updchan i (set_recv_close true);;
  check_close i.

Definition recv_msg_channel_request : M cses () :=
  i ← getchannel;
  c ← getchan i;
  t ← chantype c;
  match reqhandler t with
  | Some h => h i
  | None =>
      ses_payload buf_eatstring;;
      wantreply ← ses_payload buf_getbool;
      when (negb (wantreply =? 0)) (send_msg_channel_failure i)
  end.

(** ** Opening *)
(** The first of [ses.chantypes] with this name. *)
Fixpoint find_type (l : list nat) (name : list Z) : option nat :=
  match l with
  | [] => None
  | n :: l =>
      match types !! n with
      | Some t => if strcmp_eq name (ct_name t) then Some n else find_type l name
      | None => None
      end
  end.

Definition unset_early (i : Z) : M cses () :=
  c ← getchan i;
  when (bool_decide (prio c = DROPBEAR_CHANNEL_PRIO_EARLY)) (updchan i (set_prio DROPBEAR_CHANNEL_PRIO_BULK)).

Definition recv_msg_channel_open : M cses () :=
  ty ← ses_payload buf_getstring;
  remote ← ses_payload buf_getint;
  twindow ← ses_payload buf_getint;
  let twindow := Z.min twindow TRANS_MAX_WINDOW in
  tmaxpacket ← ses_payload buf_getint;
  let tmaxpacket := Z.min tmaxpacket TRANS_MAX_PAYLOAD_LEN in
  let failure errtype := send_msg_channel_open_failure remote errtype [] [] in
  (if zlen ty >? MAX_NAME_LEN then failure SSH_OPEN_UNKNOWN_CHANNEL_TYPE
   else
     match find_type chantypes ty with
     | None => failure SSH_OPEN_UNKNOWN_CHANNEL_TYPE
     | Some n =>
         o ← newchannel remote n twindow tmaxpacket;
         match o with
         | None => failure SSH_OPEN_RESOURCE_SHORTAGE
         | Some i =>
             c ← getchan i;
             t ← chantype c;
             ret ← (match inithandler t with Some h => h i | None => mret 0 end);
             if (match inithandler t with Some _ => true | None => false end) && (ret =? SSH_OPEN_IN_PROGRESS) then mret tt
             else if ret >? 0 then remove_channel i;; failure ret
             else
               unset_early i;;
               c ← getchan i;
               send_msg_channel_open_confirmation i (recvwindow c) (recvmaxpacket c)
         end
     end);;
  update_channel_prio.

Definition channel_connect_done (success : bool) (sock : Z) (i : Z) : M cses () :=
  if success then
    updchan i (λ c, set_readfd sock (set_writefd sock c));;
    updchan i (set_conn_pending None);;
    c ← getchan i;
    send_msg_channel_open_confirmation i (recvwindow c) (recvmaxpacket c)
  else
    c ← getchan i;
    send_msg_channel_open_failure (remotechan c) SSH_OPEN_CONNECT_FAILED [] [];;
    remove_channel i.

(** The connection [p] is there or has failed ([set_connect_fds] and
    [handle_connect_fds]): its callback is called, then it is freed.  The
    callback follows its pointer to the channel that asked for the connection;
    when that channel was removed, another one in its slot is not it. *)
Definition connect_settled (success : bool) (sock p : Z) : M cses () :=
  s ← get;
  match pending_conns s !! Z.to_nat p with
  | Some (CbChannel i) =>
      c ← getchan i;
      (if bool_decide (conn_pending c = Some p) then channel_connect_done success sock i
       else undefined "dangling channel");;
      setconn p ConnFreed
  | Some CbCancelled => when success (m_close sock);; setconn p ConnFreed
  | _ => mret tt
  end.
(** [remove_connect_pending] frees what is left. *)
Definition remove_connect_pending : M cses () :=
  modify (λ s, set_pending_conns ((λ _, ConnFreed) <$> pending_conns s) s).

(** [true] is [DROPBEAR_SUCCESS]; the caller completes the message. *)
Definition send_msg_channel_open_init (fd : Z) (ty : nat) : M cses bool :=
  o ← newchannel 0 ty 0 0;
  match o with
  | None => mret false
  | Some i =>
      log (EvNonblock fd);;
      updchan i (λ c, set_writefd fd (set_readfd fd c));;
      modify (λ s, set_maxfd (Z.max (maxfd s) fd) s);;
      updchan i (set_await_open true);;
      c ← getchan i;
      t ← chantype c;
      ses_write (buf_putbyte SSH_MSG_CHANNEL_OPEN;; buf_putstring (ct_name t) (strlen (ct_name t));;
                 buf_putint (index c);; buf_putint recv_window;; buf_putint RECV_MAX_CHANNEL_DATA_LEN);;
      mret true
  end.

Definition recv_msg_channel_open_confirmation : M cses () :=
  i ← getchannel;
  c ← getchan i;
  if negb (await_open c) then dropbear_exit "Unexpected channel reply"
  else
    updchan i (set_await_open false);;
    remote ← ses_payload buf_getint; updchan i (set_remotechan remote);;
    twindow ← ses_payload buf_getint; updchan i (set_transwindow twindow);;
    tmaxpacket ← ses_payload buf_getint; updchan i (set_transmaxpacket tmaxpacket);;
    t ← chantype c;
    ret ← (match inithandler t with Some h => h i | None => mret 0 end);
    if ret >? 0 then remove_channel i
    else unset_early i;; update_channel_prio.

Definition recv_msg_channel_open_failure : M cses () :=
  i ← getchannel;
  c ← getchan i;
  if negb (await_open c) then dropbear_exit "Unexpected channel reply"
  else updchan i (set_await_open false);; remove_channel i.

(** ** The main loop *)
Definition FD_ISSET (fd : Z) (fds : list Z) : bool := bool_decide (fd ∈ fds).

(** What [setchannelfds] adds for one channel. *)
Definition chan_readfds (dataallowed allow_reads : bool) (c : Channel) : list Z :=
  if (transwindow c >? 0) && ((dataallowed && allow_reads) || bool_decide (is_Some (read_mangler c)))
  then (if readfd c >=? 0 then [readfd c] else []) ++
       (if ERRFD_IS_READ c && (errfd c >=? 0) then [errfd c] else [])
  else [].
Definition chan_writefds (c : Channel) : list Z :=
  (if (writefd c >=? 0) && (cbuf_getused (writebuf c) >? 0) then [writefd c] else []) ++
  (match extrabuf c with
   | Some eb => if (errfd c >=? 0) && (cbuf_getused eb >? 0) then [errfd c] else []
   | None => []
   end).
Definition setchannelfds (allow_reads : bool) (s : cses) (readfds writefds : list Z) : list Z * list Z :=
  let cs := omap id (channels s) in
  (set_listener_fds (readfds ++ concat (chan_readfds (cs_dataallowed s) allow_reads <$> cs)),
   writefds ++ concat (chan_writefds <$> cs)).

Definition channelio_one (readfds writefds : list Z) (i : Z) : M cses () :=
  c ← getchan i;
  let r1 := (readfd c >=? 0) && FD_ISSET (readfd c) readfds in
  when r1 (send_msg_channel_data i false);;
  c ← getchan i;
  let r2 := ERRFD_IS_READ c && (errfd c >=? 0) && FD_ISSET (errfd c) readfds in
  when r2 (send_msg_channel_data i true);;
  c ← getchan i;
  let w1 := (writefd c >=? 0) && FD_ISSET (writefd c) writefds in
  when w1 (writechannel i (writefd c) false;; mret tt);;
  c ← getchan i;
  let w2 := ERRFD_IS_WRITE c && (errfd c >=? 0) && FD_ISSET (errfd c) writefds in
  when w2 (writechannel i (errfd c) true;; mret tt);;
  s ← get;
  when (r1 || r2 || w1 || w2 || channel_signal_pending s) (check_close i).

(** [for (i = 0; i < ses.chansize; i++)]: the table never has more than
    [MAX_CHANNELS + CHAN_EXTEND_SIZE] slots. *)
Fixpoint channelio_loop (fuel : nat) (readfds writefds : list Z) (i : Z) : M cses () :=
  s ← get;
  if i <? zlen (channels s) then
    match fuel with
    | O => undefined "out of fuel"
    | S fuel =>
        (match channels s !! Z.to_nat i with
         | Some (Some _) => channelio_one readfds writefds i
         | _ => mret tt
         end);;
        channelio_loop fuel readfds writefds (i + 1)
    end
  else mret tt.
Definition channelio (readfds writefds : list Z) : M cses () :=
  channelio_loop (Z.to_nat (MAX_CHANNELS + CHAN_EXTEND_SIZE)) readfds writefds 0;;
  handle_listeners readfds.

Fixpoint ready_channel (l : list (option Channel)) : option Z :=
  match l with
  | [] => None
  | Some c :: l =>
      if negb (sent_eof c || recv_eof c) && negb (await_open c) then Some (index c) else ready_channel l
  | None :: l => ready_channel l
  end.
Definition get_any_ready_channel (s : cses) : option Z :=
  if chancount s =? 0 then None else ready_channel (channels s).
End channels.
