(* ===== verification/ChannelProps.v ===== *)
(** * Properties of channels: the data path

    What one call does: data from the peer reaches the program's descriptor in
    order and without loss, the windows of both directions are accounted for
    exactly, and new channels take the lowest free number. *)
From S2P Require Import Prelude Ssh Buffer BufferProps CircBuffer Packet Session Algo Channel.

Section props.
Context {TD X : Type}.
Variable recv_window : Z.
Variable types : list (@ChanType TD X).
Abbreviation cst := (@cses TD X).
Abbreviation chan := (@Channel TD).
Implicit Types (s : cst) (c : chan) (i : Z).

(** ** The invariant of a channel *)
Definition extra_used c : Z := match extrabuf c with Some eb => cb_used eb | None => 0 end.
Definition cbuf_ok (b : circbuffer) : Prop := cbuf_wf b ∧ cb_size b = recv_window.
Record chan_wf i c : Prop := {
  cw_index : index c = i;
  cw_type : is_Some (types !! type c);
  cw_buf : cbuf_ok (writebuf c);
  cw_extra : ∀ eb, extrabuf c = Some eb → cbuf_ok eb;
  cw_recv : 0 ≤ recvwindow c ∧ 0 ≤ recvdonelen c;
  (** what we granted to the peer is never more than what we have room for *)
  cw_window : recvwindow c + recvdonelen c + cb_used (writebuf c) + extra_used c ≤ recv_window;
  cw_trans : 0 ≤ transwindow c < U32 ∧ 0 ≤ transmaxpacket c < U32;
  cw_mangler : ∀ m bs, read_mangler c = Some m → 0 ≤ m bs ≤ zlen bs
}.
Lemma used_nonneg i c : chan_wf i c → 0 ≤ cb_used (writebuf c) ∧ 0 ≤ extra_used c.
Proof.
  intros Hc. destruct (cw_buf _ _ Hc) as [Hb _]. split; [cbuf_facts; lia|].
  unfold extra_used. destruct (extrabuf c) as [eb|] eqn:E; [|done]. destruct (cw_extra _ _ Hc _ E). cbuf_facts. lia.
Qed.
(** What the callbacks know of a channel: its type and what they attached. *)
Definition owner c : nat * option TD := (type c, typedata c).
(** With what links it to a connection in progress. *)
Definition links c := (owner c, conn_pending c, await_open c).
Definition chan_at s i c : Prop := 0 ≤ i ∧ channels s !! Z.to_nat i = Some (Some c).

(** The bytes a descriptor was given, in order. *)
Definition event_bytes (fd : Z) (e : fdevent) : list Z :=
  match e with EvWrite fd' bs => if fd =? fd' then bs else [] | _ => [] end.
Definition fd_bytes (fd : Z) (l : list fdevent) : list Z := concat (event_bytes fd <$> l).
Lemma fd_bytes_app fd l l' : fd_bytes fd (l ++ l') = fd_bytes fd l ++ fd_bytes fd l'.
Proof. unfold fd_bytes. by rewrite fmap_app, concat_app. Qed.
Lemma fd_bytes_write fd bs : fd_bytes fd [EvWrite fd bs] = bs.
Proof. unfold fd_bytes. cbn. by rewrite Z.eqb_refl, app_nil_r. Qed.
Definition no_write (e : fdevent) : Prop := ∀ fd, event_bytes fd e = [].
Lemma fd_bytes_nil fd l : Forall no_write l → fd_bytes fd l = [].
Proof. unfold fd_bytes. induction 1 as [|e l He Hl IH]; cbn; [done|]. by rewrite He, IH. Qed.

(** The channel after its descriptor [fd] has been closed. *)
Definition closed_chan (t : @ChanType TD X) (fd how : Z) c : chan :=
  let closeout := if sepfds t then how =? 0 else true in
  let closein := if sepfds t then negb (how =? 0) else true in
  let c := if closeout && (fd =? readfd c) then set_readfd FD_CLOSED c else c in
  let c := if closeout && ERRFD_IS_READ c && (fd =? errfd c) then set_errfd FD_CLOSED c else c in
  let c := if closein && (fd =? writefd c) then set_writefd FD_CLOSED c else c in
  if closein && ERRFD_IS_WRITE c && (fd =? errfd c) then set_errfd FD_CLOSED c else c.
Lemma closed_chan_wf t fd how i c : chan_wf i c → chan_wf i (closed_chan t fd how c).
Proof.
  intros Hc. unfold closed_chan. repeat case_match; destruct Hc; split; done.
Qed.

Lemma closed_chan_links (t : @ChanType TD X) fd how c : links (closed_chan t fd how c) = links c.
Proof. unfold closed_chan. repeat case_match; done. Qed.
Lemma closed_chan_extra (t : @ChanType TD X) fd how c : extrabuf (closed_chan t fd how c) = extrabuf c.
Proof. unfold closed_chan. repeat case_match; done. Qed.

(** ** Running a routine on one channel

    The routines of the data path change one channel, the messages, the
    scripts and the log: [on] is a session in those terms. *)
Section one_channel.
Context (s0 : cst) (i : Z) (c0 : chan) (Hat : chan_at s0 i c0).
Definition on c io rd wr lg : cst :=
  mkCses io (<[Z.to_nat i := Some c]> (channels s0)) (chancount s0) (cs_dataallowed s0) (cs_sock_out s0)
    (socket_prio s0) (maxfd s0) (channel_signal_pending s0) rd wr lg (pending_conns s0) (cs_rest s0).
Implicit Types (io : msgio) (rd : list fdread) (wr : list fdwrite) (lg : list fdevent).

Lemma on_start : s0 = on c0 (cs_io s0) (fd_reads s0) (fd_writes s0) (fd_log s0).
Proof using Hat. destruct Hat as [_ H]. unfold on. rewrite list_insert_id by done. by destruct s0. Qed.
Lemma chan_at_on c io rd wr lg : chan_at (on c io rd wr lg) i c.
Proof using Hat.
  destruct Hat as [Hi H]. split; [done|]. cbn. apply list_lookup_insert_eq. by eapply lookup_lt_Some.
Qed.
Lemma getchan_on c io rd wr lg : getchan i (on c io rd wr lg) = Ok (c, on c io rd wr lg).
Proof using Hat.
  destruct (chan_at_on c io rd wr lg) as [_ H]. unfold getchan. erewrite bind_ok by done. by rewrite H.
Qed.
Lemma updchan_on f c io rd wr lg : updchan i f (on c io rd wr lg) = Ok (tt, on (f c) io rd wr lg).
Proof using Hat.
  unfold updchan. erewrite bind_ok by apply getchan_on. unfold setchan, modify, set_channels. cbn.
  do 2 f_equal. unfold on. by rewrite list_insert_insert_eq.
Qed.
Lemma when_updchan_on (b : bool) f c io rd wr lg :
  when b (updchan i f) (on c io rd wr lg) = Ok (tt, on (if b then f c else c) io rd wr lg).
Proof using Hat. destruct b; cbn [when]; [apply updchan_on|done]. Qed.
Lemma payload_on {A} (m : M buffer A) c io rd wr lg a b : m (io_payload io) = Ok (a, b) →
  ses_payload m (on c io rd wr lg) = Ok (a, on c (io_set_payload b io) rd wr lg).
Proof. intros H. unfold ses_payload, zoom. cbn. by rewrite H. Qed.
Lemma write_on {A} (m : M buffer A) c io rd wr lg a b : m (io_writepayload io) = Ok (a, b) →
  ses_write m (on c io rd wr lg) = Ok (a, on c (io_set_writepayload b io) rd wr lg).
Proof. intros H. unfold ses_write, zoom. cbn. by rewrite H. Qed.
Lemma cbuf_on {A} (m : M circbuffer A) c io rd wr lg a b : m (writebuf c) = Ok (a, b) →
  on_cbuf i false m (on c io rd wr lg) = Ok (a, on (set_writebuf b c) io rd wr lg).
Proof using Hat.
  intros H. unfold on_cbuf, getcbuf. erewrite bind_ok; [|erewrite bind_ok by apply getchan_on; done].
  erewrite bind_ok by (unfold lift; rewrite H; done). by erewrite bind_ok by apply updchan_on.
Qed.
Lemma m_close_on fd c io rd wr lg : ∃ evs, Forall no_write evs ∧
  m_close fd (on c io rd wr lg) = Ok (tt, on c io rd wr (lg ++ evs)).
Proof.
  unfold m_close. case_if; [|exists [EvClose fd]; split; [by repeat constructor|done]].
  exists []. by rewrite app_nil_r.
Qed.
Lemma close_chan_fd_on t fd how c io rd wr lg : types !! type c = Some t →
  ∃ evs, Forall no_write evs ∧
    close_chan_fd types i fd how (on c io rd wr lg) = Ok (tt, on (closed_chan t fd how c) io rd wr (lg ++ evs)).
Proof using Hat.
  intros Ht. unfold close_chan_fd. erewrite bind_ok by apply getchan_on.
  erewrite bind_ok by (unfold chantype; by rewrite Ht).
  assert (Hlog : ∃ evs, Forall no_write evs ∧
    (if sepfds t then log (EvShutdown fd how) else m_close fd) (on c io rd wr lg) = Ok (tt, on c io rd wr (lg ++ evs))).
  { destruct (sepfds t); [|apply m_close_on]. exists [EvShutdown fd how]. split; [by repeat constructor|done]. }
  destruct Hlog as (e1 & He1 & E1). rewrite (bind_ok _ _ _ _ _ E1).
  do 4 (erewrite bind_ok by apply getchan_on; erewrite bind_ok by apply when_updchan_on).
  erewrite bind_ok by apply getchan_on. fold (closed_chan t fd how c).
  destruct (m_close_on fd (closed_chan t fd how c) io rd wr (lg ++ e1)) as (e2 & He2 & E2).
  match goal with |- context [when ?b _ _] => destruct b end; cbn [when].
  - exists (e1 ++ e2). split; [by apply Forall_app|]. rewrite app_assoc. exact E2.
  - by exists e1.
Qed.
End one_channel.

(** ** Writing to the program *)
Definition io_ok (io : msgio) : Prop :=
  buf_wf (io_payload io) ∧ io_idle io ∧ buf_size (io_writepayload io) = TRANS_MAX_PAYLOAD_LEN.
Definition adjust_msg (remote incr : Z) : list Z :=
  [SSH_MSG_CHANNEL_WINDOW_ADJUST] ++ STORE32H remote ++ STORE32H incr.
#[global] Instance writer_msg_chan t remote : is_byte t → Writer (msg_chan t remote) ([t] ++ STORE32H remote).
Proof. intros. unfold msg_chan. apply writer_seq; [by apply writer_putbyte|apply _]. Qed.

(** The channel after [n] buffered bytes have been written. *)
Definition fed (n : Z) c : chan := set_recvdonelen (recvdonelen c + n) (set_writebuf (cbuf_pop n (writebuf c)) c).
(** The grants that are due, and the channel once they are made. *)
Definition due c : list Z := if recvdonelen c >=? RECV_WINDOWEXTEND recv_window then [recvdonelen c] else [].
Definition extended c : chan :=
  if recvdonelen c >=? RECV_WINDOWEXTEND recv_window
  then set_recvdonelen 0 (set_recvwindow (recvwindow c + recvdonelen c) c) else c.

Hypothesis Hrw : 0 < recv_window ≤ MAX_CBUF_SIZE.

Lemma cbuf_pop_0 b : cbuf_wf b → cbuf_pop 0 b = b.
Proof. intros Hb. cbuf_facts. destruct b; unfold cbuf_pop, wrap; cbn in *. f_equal; [destruct (Z.ltb_spec (cb_readpos + 0) cb_size)|]; lia. Qed.
Lemma fed_0 i c : chan_wf i c → fed 0 c = c.
Proof.
  intros Hc. unfold fed. rewrite cbuf_pop_0 by apply Hc. rewrite Z.add_0_r. by destruct c.
Qed.
Lemma fed_wf i c n : chan_wf i c → 0 ≤ n ≤ cb_used (writebuf c) → chan_wf i (fed n c).
Proof.
  intros [H1 H2 [H3 H3'] H4 H5 H6 H7 H8] Hn. split; cbn; try done; try lia.
  - split; [by apply cbuf_wf_pop|done].
  - unfold extra_used in *. cbn. lia.
Qed.
Lemma extended_wf i c : chan_wf i c → chan_wf i (extended c).
Proof.
  intros [H1 H2 H3 H4 H5 H6 H7 H8]. unfold extended. case_if; split; cbn; try done; try lia.
  unfold extra_used in *. cbn. lia.
Qed.

Section writing.
Context (s0 : cst) (i : Z) (c0 : chan) (Hat : chan_at s0 i c0).
Abbreviation on := (on s0 i).
Implicit Types (io : msgio) (rd : list fdread) (wr : list fdwrite) (lg : list fdevent).

Lemma write_wrote_on c io rd wr lg n fd bs :
  let m := Z.max 0 (Z.min n (zlen bs)) in
  sys_fd_write fd bs (on c io rd (FdWrote n :: wr) lg) =
  Ok (FdWrote m, on c io rd wr (lg ++ [EvWrite fd (take (Z.to_nat m) bs)])).
Proof. done. Qed.

(** What [write] does: at most [len1] bytes go out, or nothing, or it fails. *)
Lemma fallback_on c t io rd wr lg (Q : bool → cst → Prop) :
  chan_wf i c → types !! type c = Some t →
  (∀ n wr' evs, 0 ≤ n ≤ cb_used (writebuf c) →
     fd_bytes (writefd c) evs = take (Z.to_nat n) (cbuf_contents (writebuf c)) → wr = wr' ∨ (∃ w, wr = w :: wr') →
     Q true (on (fed n c) io rd wr' (lg ++ evs))) →
  (∀ wr' evs, wr = FdFail :: wr' → Forall no_write evs →
     Q false (on (closed_chan t (writefd c) SHUT_WR c) io rd wr' (lg ++ evs))) →
  twp (writechannel_fallback types i (writefd c) false) Q (on c io rd wr lg).
Proof using Hat Hrw.
  intros Hc Ht HQ HF. pose proof (cw_buf _ _ Hc) as [Hb Hsz]. unfold writechannel_fallback.
  twp_step. eapply twp_ok; [unfold getcbuf; by erewrite bind_ok by (by eapply getchan_on)|].
  assert (Hr : ∃ p2, cbuf_readptrs (writebuf c) = ((cb_readpos (writebuf c), cbuf_len1 (writebuf c)), p2)).
  { rewrite cbuf_readptrs_eq by done. case_if; by eexists. }
  destruct Hr as (p2 & ->).
  assert (Hl : 0 ≤ cbuf_len1 (writebuf c) ≤ cb_used (writebuf c)) by (unfold cbuf_len1; cbuf_facts; lia).
  assert (Hl2 := cbuf_contents_length _ Hb).
  twp_step. eapply twp_ok; [eapply cbuf_on, cbuf_load_block1; done|].
  replace (set_writebuf (writebuf c) c) with c by (by destruct c). set (bs := take _ _).
  assert (Hbs : zlen bs = cbuf_len1 (writebuf c)) by (unfold bs; rewrite length_take; lia).
  assert (Hz : ∀ wr', wr = wr' ∨ (∃ w, wr = w :: wr') → Q true (on c io rd wr' lg)).
  { intros wr' Hwr. pose proof (HQ 0 wr' []) as H. rewrite (fed_0 i c Hc), app_nil_r in H. apply H; [lia|done..]. }
  twp_step. destruct wr as [|w wr]; [|destruct w as [n| |]].
  - eapply twp_ok; [done|]. cbn beta iota. twp_step. apply Hz. by left.
  - eapply twp_ok; [apply write_wrote_on|]. cbn beta iota zeta. set (m := Z.max 0 _). assert (0 ≤ m ≤ zlen bs) by lia.
    twp_step. eapply twp_ok; [eapply cbuf_on; [done|]; apply cbuf_incrread_eq; [done|lia]|].
    twp_step. eapply twp_ok; [by eapply updchan_on|]. twp_step.
    pose proof (cw_recv _ _ Hc). pose proof (cw_window _ _ Hc). unfold MAX_CBUF_SIZE in *.
    pose proof (used_nonneg _ _ Hc) as [Hu0 Hx0].
    cbn [recvdonelen set_writebuf]. rewrite u32_small by (unfold U32; lia).
    apply (HQ m wr [EvWrite (writefd c) (take (Z.to_nat m) bs)]); [lia| |by right; eexists].
    rewrite fd_bytes_write. unfold bs. rewrite take_take. f_equal. lia.
  - eapply twp_ok; [done|]. cbn beta iota. twp_step. apply Hz. right. by eexists.
  - eapply twp_ok; [done|]. cbn beta iota. twp_step.
    destruct (close_chan_fd_on s0 i c0 Hat t (writefd c) SHUT_WR c io rd wr lg Ht) as (evs & He & E).
    eapply twp_ok; [exact E|]. twp_step. by apply HF.
Qed.
(** The messages and what is left of them untouched. *)
Record io_sends io io' (msgs : list (list Z)) : Prop := {
  is_ok : io_ok io';
  is_payload : io_payload io' = io_payload io;
  is_sent : io_sent io' = io_sent io ++ msgs
}.
Lemma io_sends_none io : io_ok io → io_sends io io [].
Proof. intros. split; [done..|by rewrite app_nil_r]. Qed.

(** The window adjustment [writechannel] makes. *)
Lemma adjust_on c io rd wr lg (Q : () → cst → Prop) : chan_wf i c → io_ok io →
  (∀ io', io_sends io io' (adjust_msg (remotechan c) <$> due c) → Q tt (on (extended c) io' rd wr lg)) →
  twp (when (recvdonelen c >=? RECV_WINDOWEXTEND recv_window)
    (send_msg_channel_window_adjust c (recvdonelen c);;
     updchan i (λ c, set_recvwindow (u32 (recvwindow c + recvdonelen c)) c);;
     updchan i (set_recvdonelen 0))) Q (on c io rd wr lg).
Proof using Hat Hrw.
  intros Hc Hio HQ. unfold due, extended in *.
  destruct (Z.geb_spec (recvdonelen c) (RECV_WINDOWEXTEND recv_window)); cbn [when].
  2: { apply HQ. by apply io_sends_none. }
  twp_step. unfold send_msg_channel_window_adjust. destruct Hio as (Hp & Hi & Hs).
  unshelve eapply (twp_send _ (adjust_msg (remotechan c) (recvdonelen c))); [|done..| |].
  { unfold adjust_msg. rewrite app_assoc. apply writer_seq; [by apply writer_msg_chan|apply _]. }
  { cbn -[TRANS_MAX_PAYLOAD_LEN STORE32H]. rewrite Hs. done. }
  intros w Hw1 Hw2 Hw3. cbn beta. set (io' := mkIO _ _ _).
  twp_step. eapply twp_ok; [exact (updchan_on s0 i c0 Hat _ c io' rd wr lg)|].
  eapply twp_ok; [by eapply updchan_on|].
  pose proof (cw_recv _ _ Hc). pose proof (cw_window _ _ Hc). unfold MAX_CBUF_SIZE in *.
  pose proof (used_nonneg _ _ Hc) as [Hu0 Hx0].
  rewrite u32_small by (unfold U32; lia). apply HQ. split; [|done..]. split; [done|]. split; [done|].
  cbn. by rewrite Hw3.
Qed.

(** Both assertions of [writechannel] hold. *)
Lemma writechannel_on c t io rd wr lg (Q : bool → cst → Prop) :
  chan_wf i c → types !! type c = Some t → io_ok io →
  (∀ n io' wr' evs, 0 ≤ n ≤ cb_used (writebuf c) →
     fd_bytes (writefd c) evs = take (Z.to_nat n) (cbuf_contents (writebuf c)) → wr = wr' ∨ (∃ w, wr = w :: wr') →
     io_sends io io' (adjust_msg (remotechan c) <$> due (fed n c)) →
     Q true (on (extended (fed n c)) io' rd wr' (lg ++ evs))) →
  (∀ c' io' wr' evs, wr = FdFail :: wr' → Forall no_write evs → chan_wf i c' → extrabuf c' = extrabuf c → links c' = links c →
     (∃ ms, io_sends io io' ms) →
     Q false (on c' io' rd wr' (lg ++ evs))) →
  twp (writechannel recv_window types i (writefd c) false) Q (on c io rd wr lg).
Proof using Hat Hrw.
  intros Hc Ht Hio HQ HF. unfold writechannel. twp_step.
  assert (Hasserts : ∀ ret c io rd wr lg, chan_wf i c → Q ret (on c io rd wr lg) →
    twp (c ← getchan i; dropbear_assert (recvwindow c <=? recv_window);;
         dropbear_assert (recvwindow c <=? cbuf_getavail (writebuf c));;
         dropbear_assert (match extrabuf c with None => true | Some eb => recvwindow c <=? cbuf_getavail eb end);;
         mret ret) Q (on c io rd wr lg)).
  { clear -Hat Hrw. intros ret c io rd wr lg Hc Hret. twp_step. eapply twp_ok; [by eapply getchan_on|].
    destruct Hc as [_ _ [Hb Hbs] He [? ?] Hw _ _]. unfold extra_used in Hw.
    pose proof (cbuf_getavail_eq _ Hb). pose proof (cbuf_contents_length _ Hb). cbuf_facts.
    assert (Hx : match extrabuf c with None => true | Some eb => recvwindow c <=? cbuf_getavail eb end = true ∧
                 0 ≤ match extrabuf c with Some eb => cb_used eb | None => 0 end).
    { destruct (extrabuf c) as [eb|]; [|done]. destruct (He eb eq_refl) as [Heb Hes].
      rewrite cbuf_getavail_eq by done. pose proof (cbuf_contents_length _ Heb). cbuf_facts. lia. }
    destruct Hx as [Hx ?].
    do 3 (twp_step; apply twp_assert; [first [done|lia]|]). by twp_step. }
  eapply fallback_on; [done..| |].
  - intros n wr' evs Hn Hev Hwr. twp_step. eapply twp_ok; [by eapply getchan_on|]. twp_step.
    pose proof (fed_wf i c n Hc Hn) as Hc'. eapply adjust_on; [done..|]. intros io' Hio'.
    apply Hasserts; [by apply extended_wf|]. by apply HQ.
  - intros wr' evs Hwr Hev. twp_step. eapply twp_ok; [by eapply getchan_on|]. twp_step.
    set (c' := closed_chan _ _ _ _). assert (Hc' : chan_wf i c') by (by apply closed_chan_wf).
    eapply adjust_on; [done..|]. intros io' Hio'.
    apply Hasserts; [by apply extended_wf|]. apply HF; [done..|by apply extended_wf| | |by eexists]; unfold extended.
    + case_if; by rewrite <- (closed_chan_extra t (writefd c) SHUT_WR c).
    + case_if; by rewrite <- (closed_chan_links t (writefd c) SHUT_WR c).
Qed.
(** The copy into the circular buffer is [cbuf_fill] of the next bytes. *)
Lemma store_loop_on r bs c io rd wr lg b' :
  cbuf_wf (writebuf c) → buf_wf (io_payload io) → take (length bs) (buf_rest (io_payload io)) = bs →
  cbuf_fill r bs (writebuf c) = Ok (tt, b') →
  store_loop r i false (zlen bs) (on c io rd wr lg) =
  Ok (tt, on (set_writebuf b' c) (io_set_payload (buf_advance (io_payload io) (zlen bs)) io) rd wr lg).
Proof using Hat.
  revert bs c io. induction r as [|r IH]; intros bs c io Hb Hp Hbs Hf.
  all: destruct (decide (bs = [])) as [->|Hne];
    [assert (b' = writebuf c) as -> by (by injection Hf);
     cbn -[buf_advance]; rewrite buf_advance_0; by destruct c, io|].
  { by destruct bs. }
  destruct (cbuf_fill_round (writebuf c) r bs Hb Hne) as [Hr Hn]. rewrite Hr in Hf. clear Hr.
  set (p := io_payload io) in *.
  assert (0 < zlen bs) by (destruct bs; [done|cbn; lia]).
  assert (Hlen : zlen bs ≤ zlen (buf_rest p)) by (rewrite <- Hbs, length_take at 1; lia).
  pose proof (buf_rest_length p Hp) as Hrest. pose proof Hp as Hp'. buf_facts. unfold BUF_MAX_SIZE in *.
  pose proof (cbuf_space_range _ Hb). set (n := Z.min (cbuf_space (writebuf c)) (zlen bs)) in *.
  cbn [store_loop]. destruct (Z.gtb_spec (zlen bs) 0); [|lia].
  erewrite bind_ok by (eapply cbuf_on; [done|]; by apply cbuf_writelen_eq). fold n.
  replace (set_writebuf (writebuf c) c) with c by (by destruct c).
  pose proof (cbuf_put_eq _ Hb _ Hn) as Hput. unfold cbuf_put in Hput.
  apply bind_inv in Hput as (q & b1 & E1 & Hput). apply bind_inv in Hput as ([] & b2 & E2 & E3).
  assert (Hz : zlen (take (Z.to_nat n) bs) = n) by (rewrite length_take; lia). rewrite Hz in E1, E3.
  erewrite bind_ok by (eapply cbuf_on; [done|exact E1]).
  erewrite bind_ok by (apply payload_on; fold p; rewrite buf_getptr_eq by (done || unfold U32; lia);
    rewrite (proj2 (Z.leb_le _ _)) by lia; done).
  erewrite bind_ok by (apply payload_on; cbn [io_payload io_set_payload]; apply buf_load_eq; [done|lia..]).
  cbn [io_payload io_set_payload].
  rewrite buf_rest_load by (done || lia).
  replace (take (Z.to_nat n) (buf_rest p)) with (take (Z.to_nat n) bs)
    by (rewrite <- Hbs at 1; rewrite take_take; f_equal; lia).
  erewrite bind_ok by (eapply cbuf_on; [done|exact E2]).
  erewrite bind_ok by (eapply cbuf_on; [done|exact E3]).
  erewrite bind_ok by (apply payload_on; cbn [io_payload io_set_payload]; rewrite buf_incrpos_eq by (done || lia);
    rewrite (proj2 (andb_true_iff _ _)) by lia; done).
  rewrite u32_small by (unfold U32; lia).
  replace (zlen bs - n) with (zlen (drop (Z.to_nat n) bs)) by (rewrite length_drop; lia).
  erewrite IH; [|by apply cbuf_wf_push|apply (buf_wf_advance p Hp n); lia| |exact Hf].
  - cbn [io_payload io_set_payload set_writebuf]. do 2 f_equal. unfold io_set_payload; cbn.
    change (set_pos (buf_pos p + n) p) with (buf_advance p n). rewrite buf_advance_advance, length_drop.
    f_equal. f_equal. f_equal. lia.
  - cbn [io_payload io_set_payload]. change (set_pos (buf_pos p + n) p) with (buf_advance p n).
    rewrite buf_rest_advance by (done || lia). rewrite length_drop, <- skipn_firstn_comm, Hbs. done.
Qed.
(** What a call did with a block of data from the peer: the bytes the program
    was given and what is still buffered are what was buffered and the block,
    in order, and both sides' books agree. *)
Record delivers c c' (evs : list fdevent) (grants : list Z) (data : list Z) : Prop := {
  dl_bytes : fd_bytes (writefd c) evs ++ cbuf_contents (writebuf c') = cbuf_contents (writebuf c) ++ data;
  dl_window : recvwindow c' = recvwindow c - zlen data + foldr Z.add 0 grants;
  dl_books : recvwindow c' + recvdonelen c' + cb_used (writebuf c') = recvwindow c + recvdonelen c + cb_used (writebuf c);
  dl_due : recvdonelen c' < Z.max 1 (RECV_WINDOWEXTEND recv_window);
  dl_kept : writefd c' = writefd c ∧ recv_eof c' = recv_eof c ∧ remotechan c' = remotechan c ∧
            links c' = links c ∧ extrabuf c' = extrabuf c
}.

Lemma delivers_written c n evs : cbuf_wf (writebuf c) → 0 ≤ n ≤ cb_used (writebuf c) →
  fd_bytes (writefd c) evs = take (Z.to_nat n) (cbuf_contents (writebuf c)) →
  delivers c (extended (fed n c)) evs (due (fed n c)) [].
Proof using Hrw.
  intros Hb Hn Hev.
  assert (Hbytes : fd_bytes (writefd c) evs ++ cbuf_contents (cbuf_pop n (writebuf c)) = cbuf_contents (writebuf c) ++ []).
  { rewrite Hev, cbuf_contents_pop, app_nil_r by done. apply take_drop. }
  assert (0 ≤ RECV_WINDOWEXTEND recv_window) by (apply Z.div_pos; lia).
  unfold extended, due. destruct (Z.geb_spec (recvdonelen (fed n c)) (RECV_WINDOWEXTEND recv_window)); split; cbn in *; try done; lia.
Qed.

(** One block of data: [recv_msg_channel_data] after the channel was found. *)
Lemma recv_data_on c t io rd wr lg data tl (Q : () → cst → Prop) :
  chan_wf i c → types !! type c = Some t → io_ok io → 0 ≤ writefd c → recv_eof c = false →
  buf_rest (io_payload io) = STORE32H (zlen data) ++ data ++ tl → zlen data ≤ recvwindow c →
  (∀ c' io' wr' evs grants, chan_wf i c' → io_ok io' →
     io_sent io' = io_sent io ++ (adjust_msg (remotechan c) <$> grants) → buf_rest (io_payload io') = tl →
     wr = wr' ∨ (∃ w, wr = w :: wr') → delivers c c' evs grants data → Q tt (on c' io' rd wr' (lg ++ evs))) →
  (∀ c' io' wr' evs, wr = FdFail :: wr' → Forall no_write evs → chan_wf i c' → extrabuf c' = extrabuf c → links c' = links c → io_ok io' →
     Q tt (on c' io' rd wr' (lg ++ evs))) →
  twp (common_recv_msg_channel_data recv_window types i (writefd c) false) Q (on c io rd wr lg).
Proof using Hat Hrw.
  intros Hc Ht Hio Hfd Heof Hrest Hwin HQ HF. unfold common_recv_msg_channel_data.
  twp_step. eapply twp_ok; [by eapply getchan_on|]. rewrite Heof.
  rewrite (proj2 (Z.ltb_ge _ _)) by lia. cbn [orb andb].
  destruct Hio as (Hp & Hidle & Hsz). pose proof (cw_buf _ _ Hc) as [Hb Hbs].
  pose proof (cw_window _ _ Hc) as Hcw. pose proof (cw_recv _ _ Hc) as [? ?].
  pose proof (used_nonneg _ _ Hc) as [Hu0 Hx0].
  unfold MAX_CBUF_SIZE in *.
  twp_step. apply twp_ses_payload. cbn [get_io cses_has_io on cs_io].
  refine (twp_reader _ Hp buf_getint p_int _ (zlen data) (data ++ tl) _ _).
  { rewrite Hrest. apply p_int_app. unfold U32. lia. }
  intros k Hk Hkf Hp1 Hrest1. cbn beta. set (io1 := io_set_payload (buf_advance (io_payload io) k) io).
  change (set_io _ _) with (on c io1 rd wr lg).
  twp_step. eapply twp_ok; [unfold getcbuf; by erewrite bind_ok by (by eapply getchan_on)|].
  rewrite cbuf_getavail_eq, cbuf_contents_length, Hbs by done.
  destruct (Z.gtb_spec (zlen data) (recv_window - cb_used (writebuf c))); [lia|].
  twp_step. apply twp_assert; [lia|]. twp_step. eapply twp_ok; [by eapply updchan_on|].
  cbn beta. rewrite u32_small by (unfold U32; lia). set (c1 := set_recvwindow _ c).
  assert (Hc1 : chan_wf i c1).
  { destruct Hc. split; cbn; try done; try lia. unfold extra_used in *. cbn. lia. }
  twp_step. eapply twp_ok; [by eapply getchan_on|]. twp_step. apply twp_assert; [unfold c1; cbn; lia|].
  assert (Hlen : zlen data + zlen tl = zlen (buf_rest (io_payload io1))).
  { unfold io1. cbn [io_payload io_set_payload]. rewrite <- Hrest1, length_app. lia. }
  pose proof (buf_rest_length _ Hp1) as Hl1. change (buf_advance (io_payload io) k) with (io_payload io1) in Hl1, Hp1, Hrest1.
  twp_step. eapply twp_ok.
  { apply payload_on. rewrite buf_getptr_eq by (done || unfold U32; lia).
    rewrite (proj2 (Z.leb_le _ _)) by (buf_facts; lia). done. }
  replace (io_set_payload (io_payload io1) io1) with io1 by (by destruct io).
  assert (Hio1 : io_ok io1) by (by split).
  twp_step. change (writefd c) with (writefd c1). eapply writechannel_on; [done..| |].
  - intros n io2 wr2 evs Hn Hev Hwr [Hok2 Hpay2 Hsent2]. cbn [when]. set (c2 := extended (fed n c1)).
    assert (Hc2 : chan_wf i c2) by (by apply extended_wf, fed_wf).
    pose proof (delivers_written c1 n evs Hb Hn Hev) as Hd. fold c2 in Hd.
    pose proof (dl_books _ _ _ _ _ Hd) as Hbk. pose proof (cw_window _ _ Hc2) as Hcw2.
    assert (extra_used c2 = extra_used c) as Hex.
    { unfold extra_used. destruct (dl_kept _ _ _ _ _ Hd) as (_ & _ & _ & _ & ->). done. }
    pose proof (cw_recv _ _ Hc2). pose proof (cw_buf _ _ Hc2) as [Hb2 Hbs2].
    destruct (cbuf_fill_ok (writebuf c2) data Hb2) as (b' & Hf & Hb' & Hbs' & Hus' & Hct').
    { rewrite Hbs2. unfold c1 in Hbk; cbn [recvwindow recvdonelen writebuf set_recvwindow] in Hbk. lia. }
    twp_step. eapply twp_ok.
    { apply payload_on. rewrite Hpay2, buf_incrpos_eq by (done || lia).
      rewrite (proj2 (andb_true_iff _ _)) by (buf_facts; lia). rewrite Z.add_0_r. done. }
    replace (io_set_payload _ io2) with io2 by (rewrite <- Hpay2; destruct io2 as [[] ? ?]; done).
    eapply twp_ok.
    { eapply store_loop_on; [done|by rewrite Hpay2| |exact Hf].
      rewrite Hpay2, <- Hrest1. by rewrite take_app_length. }
    eapply HQ; [| |exact Hsent2| |done|].
    + destruct Hc2 as [W1 W2 W3 W4 W5 W6 W7 W8]. split; [done|done|split; [done|change (cb_size b' = recv_window); by rewrite Hbs']|done|done| |done|done].
      change (extra_used (set_writebuf b' c2)) with (extra_used c2). rewrite Hex.
      cbn [recvwindow recvdonelen writebuf set_writebuf]. rewrite Hus'.
      unfold c1 in Hbk; cbn [recvwindow recvdonelen writebuf set_recvwindow] in Hbk. lia.
    + destruct Hok2 as (? & ? & ?). rewrite Hpay2. split; [|done]. apply buf_wf_advance; [done|buf_facts; lia..].
    + cbn [io_payload io_set_payload]. rewrite Hpay2, buf_rest_advance by (done || lia).
      rewrite <- Hrest1, Nat2Z.id. by rewrite drop_app_length.
    + destruct Hd as [D1 D2 D3 D4 D5]. split; try done; cbn [writebuf set_writebuf recvwindow recvdonelen].
      * rewrite Hct', app_assoc. change (writefd c) with (writefd c1). rewrite D1. by rewrite app_nil_r.
      * rewrite D2. unfold c1. cbn. lia.
      * unfold c1 in D3; cbn [recvwindow recvdonelen writebuf set_recvwindow] in D3. lia.
  - intros c2 io2 wr2 evs Hwr Hev Hc2 Hex2 Ho2 (ms & [Hok2 Hpay2 Hsent2]). cbn [when].
    twp_step. eapply twp_ok.
    { apply payload_on. rewrite Hpay2, buf_incrpos_eq by (done || lia).
      rewrite (proj2 (andb_true_iff _ _)) by (buf_facts; lia). rewrite Z.add_0_r. done. }
    replace (io_set_payload _ io2) with io2 by (rewrite <- Hpay2; destruct io2 as [[] ? ?]; done).
    twp_step. by apply HF.
Qed.
Lemma getchannel_on kind c io rd wr lg tl (Q : Z → cst → Prop) :
  0 ≤ i < U32 → io_ok io → buf_rest (io_payload io) = STORE32H i ++ tl →
  (∀ io', io_ok io' → io_sent io' = io_sent io → buf_rest (io_payload io') = tl → Q i (on c io' rd wr lg)) →
  twp (getchannel_msg kind) Q (on c io rd wr lg).
Proof using Hat.
  intros Hi (Hp & Hidle & Hsz) Hrest HQ. unfold getchannel_msg. twp_step. apply twp_ses_payload.
  refine (twp_reader _ Hp buf_getint p_int _ i tl _ _); [rewrite Hrest; by apply p_int_app|].
  intros k Hk Hkf Hp1 Hrest1. cbn beta. set (io1 := io_set_payload (buf_advance (io_payload io) k) io).
  change (set_io _ _) with (on c io1 rd wr lg). do 2 twp_step.
  destruct (chan_at_on s0 i c0 Hat c io1 rd wr lg) as [_ ->]. twp_step. by apply HQ.
Qed.
End writing.

(** ** A stream of data *)
Inductive feed := Data (bs : list Z) | Writable.
Definition data_packet (i : Z) (bs : list Z) : list Z :=
  SSH_MSG_CHANNEL_DATA :: STORE32H i ++ STORE32H (zlen bs) ++ bs.
(** The payload as [process_packet] hands it over: the type has been read. *)
Definition data_payload (i : Z) (bs : list Z) : buffer :=
  mkBuf (data_packet i bs) (zlen (data_packet i bs)) 1 (zlen (data_packet i bs)).
Definition feed_op (i : Z) (o : feed) : M cst () :=
  match o with
  | Data bs => ses_payload (put (data_payload i bs));; recv_msg_channel_data recv_window types
  | Writable => c ← getchan i; writechannel recv_window types i (writefd c) false;; mret tt
  end.
Fixpoint feed_ops (i : Z) (os : list feed) : M cst () :=
  match os with [] => mret tt | o :: os => feed_op i o;; feed_ops i os end.
Definition feed_data (o : feed) : list Z := match o with Data bs => bs | Writable => [] end.
(** The peer stays within the window it was granted. *)
Fixpoint obeys (i : Z) (os : list feed) s : Prop :=
  match os with
  | [] => True
  | o :: os => (∀ c, chan_at s i c → feed_data o = [] ∨ zlen (feed_data o) ≤ recvwindow c) ∧
               (∀ s', feed_op i o s = Ok (tt, s') → obeys i os s')
  end.

(** A channel that still takes data, in a session between two packets. *)
Record open_chan s i c : Prop := {
  oc_at : chan_at s i c;
  oc_wf : chan_wf i c;
  oc_io : io_ok (cs_io s);
  oc_fd : 0 ≤ writefd c;
  oc_eof : recv_eof c = false;
  oc_due : recvdonelen c < Z.max 1 (RECV_WINDOWEXTEND recv_window);
  oc_writes : FdFail ∉ fd_writes s
}.

Lemma data_payload_wf i bs : Forall is_byte bs → zlen bs ≤ recv_window →
  buf_wf (data_payload i bs) ∧ buf_rest (data_payload i bs) = STORE32H i ++ STORE32H (zlen bs) ++ bs.
Proof using Hrw.
  intros Hb Hl. unfold MAX_CBUF_SIZE in *.
  assert (Hlen : zlen (data_packet i bs) = 9 + zlen bs).
  { unfold data_packet. cbn [length]. rewrite !length_app, !STORE32H_length. lia. }
  assert (Hbs : Forall is_byte (data_packet i bs)).
  { unfold data_packet. constructor; [done|]. auto with ssh. }
  unfold data_payload. split.
  - split; cbn [buf_pos buf_len buf_size buf_data]; unfold BUF_MAX_SIZE; try done; lia.
  - unfold buf_rest; cbn [buf_pos buf_len buf_size buf_data].
    change (drop (Z.to_nat 1) (data_packet i bs)) with (STORE32H i ++ STORE32H (zlen bs) ++ bs).
    apply take_ge. rewrite Hlen, !length_app, !STORE32H_length. lia.
Qed.

(** One step of a stream. *)
Lemma feed_op_delivers s i c o : 0 ≤ i < U32 → open_chan s i c → Forall is_byte (feed_data o) →
  zlen (feed_data o) ≤ recvwindow c →
  twp (feed_op i o) (λ _ s', ∃ c' evs grants, open_chan s' i c' ∧ delivers c c' evs grants (feed_data o) ∧
    fd_log s' = fd_log s ++ evs ∧ io_sent (cs_io s') = io_sent (cs_io s) ++ (adjust_msg (remotechan c) <$> grants)) s.
Proof using Hrw.
  intros Hi [Hat Hc Hio Hfd Heof Hdue Hwr] Hbytes Hwin. destruct (cw_type _ _ Hc) as [t Ht].
  pose proof (cw_window _ _ Hc) as Hcw. pose proof (cw_recv _ _ Hc) as [? ?].
  assert (Hclose : ∀ c' io' wr' evs grants, chan_wf i c' → io_ok io' → 
     io_sent io' = io_sent (cs_io s) ++ (adjust_msg (remotechan c) <$> grants) →
     fd_writes s = wr' ∨ (∃ w, fd_writes s = w :: wr') → delivers c c' evs grants (feed_data o) →
     ∃ c'' evs' grants', open_chan (on s i c' io' (fd_reads s) wr' (fd_log s ++ evs)) i c'' ∧
       delivers c c'' evs' grants' (feed_data o) ∧ fd_log s ++ evs = fd_log s ++ evs' ∧
       io_sent io' = io_sent (cs_io s) ++ (adjust_msg (remotechan c) <$> grants')).
  { intros c' io' wr' evs grants Hc' Hio' Hs' Hw' Hd. exists c', evs, grants. split; [|done].
    destruct (dl_kept _ _ _ _ _ Hd) as (Hk1 & Hk2 & _). split; [by eapply chan_at_on|done|done|by rewrite Hk1|by rewrite Hk2|apply Hd|].
    cbn. destruct Hw' as [<-|(w & Hw')]; [done|]. rewrite Hw' in Hwr. by apply not_elem_of_cons in Hwr as [_ ?]. }
  refine (eq_ind_r (λ x, twp _ _ x) _ (on_start s i c Hat)). destruct o as [bs|]; cbn [feed_op feed_data] in *.
  -     pose proof (used_nonneg _ _ Hc) as [Hu0 Hx0].
    destruct (data_payload_wf i bs) as [Hpw Hpr]; [done|lia|].
    twp_step. eapply twp_ok; [by apply payload_on|]. set (io1 := io_set_payload _ _).
    destruct Hio as (_ & Hidle & Hsz). assert (Hio1 : io_ok io1) by done.
    unfold recv_msg_channel_data. twp_step. unfold getchannel. eapply getchannel_on; [done..|exact Hpr|].
    intros io2 Hio2 Hsent2 Hrest2. twp_step. eapply twp_ok; [by eapply getchan_on|].
    eapply (recv_data_on s i c Hat c t _ _ _ _ bs []); [done..|by rewrite app_nil_r|done| |].
    + intros c' io3 wr' evs grants Hc' Hio3 Hsent3 _ Hw' Hd. rewrite Hsent2 in Hsent3. by eapply Hclose.
    + intros ? ? wr' ? Hfail. rewrite Hfail in Hwr. by apply not_elem_of_cons in Hwr as [? _].
  - twp_step. eapply twp_ok; [by eapply getchan_on|]. twp_step. eapply writechannel_on; [done..| |].
    + intros n io' wr' evs Hn Hev Hw' [Hok' _ Hsent']. twp_step. destruct (cw_buf _ _ Hc).
      eapply Hclose; [by apply extended_wf, fed_wf|done..|by apply delivers_written].
    + intros ? ? wr' ? Hfail. rewrite Hfail in Hwr. by apply not_elem_of_cons in Hwr as [? _].
Qed.

Lemma delivers_log c c' evs grants data lg fd : delivers c c' evs grants data → fd = writefd c →
  fd_bytes fd (lg ++ evs) ++ cbuf_contents (writebuf c') = fd_bytes fd lg ++ cbuf_contents (writebuf c) ++ data.
Proof. intros Hd ->. by rewrite fd_bytes_app, <- app_assoc, (dl_bytes _ _ _ _ _ Hd). Qed.
Lemma sum_app (l l' : list Z) : foldr Z.add 0 (l ++ l') = foldr Z.add 0 l + foldr Z.add 0 l'.
Proof. induction l; cbn; lia. Qed.

Lemma feed_ops_deliver os s i c : 0 ≤ i < U32 → open_chan s i c → Forall (λ o, Forall is_byte (feed_data o)) os →
  obeys i os s →
  twp (feed_ops i os) (λ _ s', ∃ c' grants, open_chan s' i c' ∧
    fd_bytes (writefd c) (fd_log s') ++ cbuf_contents (writebuf c') =
      fd_bytes (writefd c) (fd_log s) ++ cbuf_contents (writebuf c) ++ concat (feed_data <$> os) ∧
    io_sent (cs_io s') = io_sent (cs_io s) ++ (adjust_msg (remotechan c) <$> grants) ∧
    recvwindow c' = recvwindow c - zlen (concat (feed_data <$> os)) + foldr Z.add 0 grants ∧
    recvwindow c' + recvdonelen c' + cb_used (writebuf c') = recvwindow c + recvdonelen c + cb_used (writebuf c)) s.
Proof using Hrw.
  intros Hi. revert s c. induction os as [|o os IH]; intros s c Ho Hb Hob.
  { apply twp_ret. exists c, []. cbn. rewrite !app_nil_r. split_and!; [done..|lia|lia]. }
  apply Forall_cons in Hb as [Hb1 Hb2]. cbn [obeys] in Hob. destruct Hob as [Hw Hob].
  assert (Hwin : zlen (feed_data o) ≤ recvwindow c).
  { destruct (Hw _ (oc_at _ _ _ Ho)) as [->|?]; [|done]. apply (cw_recv _ _ (oc_wf _ _ _ Ho)). }
  pose proof (feed_op_delivers s i c o Hi Ho Hb1 Hwin) as Hstep.
  apply twp_iff in Hstep as ([] & s1 & E & c1 & evs & g1 & Ho1 & Hd & Hlg & Hsent).
  cbn [feed_ops fmap list_fmap concat]. twp_step. eapply twp_ok; [exact E|].
  eapply twp_mono; [exact (IH s1 c1 Ho1 Hb2 (Hob _ E))|].
  intros _ s2 (c2 & g2 & Ho2 & H1 & H2 & H3 & H4). destruct (dl_kept _ _ _ _ _ Hd) as (Hk1 & _ & Hk3 & _).
  exists c2, (g1 ++ g2). rewrite Hk1 in H1. rewrite Hk3 in H2. split_and!; [done| | | |].
  - rewrite H1, Hlg, !app_assoc. f_equal. rewrite (delivers_log c c1 evs g1 (feed_data o)) by done. by rewrite app_assoc.
  - by rewrite H2, Hsent, fmap_app, app_assoc.
  - rewrite H3, (dl_window _ _ _ _ _ Hd), length_app, sum_app. lia.
  - rewrite H4. apply (dl_books _ _ _ _ _ Hd).
Qed.
(** ** Data to the peer *)
Definition data_header (ext : bool) (remote : Z) : list Z :=
  (if ext then SSH_MSG_CHANNEL_EXTENDED_DATA else SSH_MSG_CHANNEL_DATA) :: STORE32H remote ++
  (if ext then STORE32H SSH_EXTENDED_DATA_STDERR else []).
Definition data_msg (ext : bool) (remote : Z) (d : list Z) : list Z :=
  data_header ext remote ++ STORE32H (zlen d) ++ d.

(** The message is built with a dummy length which is overwritten.  The buffer
    while [len] of the bytes [bs] are in it: *)
Definition building (hdr lenfield bs junk : list Z) (len size : Z) : buffer :=
  mkBuf (hdr ++ lenfield ++ bs ++ junk) (zlen hdr + 4 + len) (zlen hdr + 4) size.
Lemma building_wf hdr lf bs junk len size : length lf = 4%nat →
  zlen hdr + 4 + zlen bs + zlen junk = size → size ≤ BUF_MAX_SIZE → 0 ≤ len ≤ zlen bs →
  Forall is_byte (hdr ++ lf ++ bs ++ junk) → buf_wf (building hdr lf bs junk len size).
Proof.
  intros Hlf Hs Hm Hl Hb. split; cbn [building buf_pos buf_len buf_size buf_data]; try done; rewrite ?length_app; lia.
Qed.
Lemma building_content hdr lf bs junk len size : length lf = 4%nat → 0 ≤ len ≤ zlen bs →
  buf_content (building hdr lf bs junk len size) = hdr ++ lf ++ take (Z.to_nat len) bs.
Proof.
  intros Hlf Hl. unfold buf_content, building; cbn [buf_len buf_data].
  rewrite (take_app_ge hdr) by lia. f_equal. rewrite take_app_ge by lia. f_equal.
  rewrite take_app_le by lia. f_equal. lia.
Qed.

Lemma building_start op hdr bs w : Writer op hdr → buf_wf w → buf_len w = 0 →
  zlen hdr + 4 + zlen bs ≤ buf_size w → Forall is_byte bs →
  ∃ w1 w2 junk, op w = Ok (tt, w1) ∧ buf_pos w1 = zlen hdr ∧ buf_putint 0 w1 = Ok (tt, w2) ∧
    buf_wf w2 ∧ buf_pos w2 = zlen hdr + 4 ∧ buf_size w2 = buf_size w ∧
    buf_store (zlen hdr + 4) bs w2 = Ok (tt, building hdr (STORE32H 0) bs junk 0 (buf_size w)) ∧
    Forall is_byte junk ∧ zlen hdr + 4 + zlen bs + zlen junk = buf_size w.
Proof.
  intros [Hh1 Hh2] Hwf Hl0 Hfit Hb. pose proof Hwf as Hwf0. buf_facts.
  specialize (Hh2 w Hwf ltac:(lia)). rewrite Hl0, (proj2 (Z.leb_le _ _)) in Hh2 by lia.
  set (w1 := buf_append w hdr) in *.
  assert (Hwf1 : buf_wf w1) by (apply buf_wf_append; [done|done|lia]).
  assert (Hw1 : buf_pos w1 = zlen hdr ∧ buf_len w1 = zlen hdr ∧ buf_size w1 = buf_size w) by (unfold w1; cbn; lia).
  destruct Hw1 as (Hp1 & Hl1 & Hs1).
  pose proof (writer_appends (op := buf_putint 0) w1 Hwf1) as Hz.
  rewrite Hp1, Hl1, Hs1, STORE32H_length in Hz. specialize (Hz eq_refl). rewrite (proj2 (Z.leb_le _ _)) in Hz by lia.
  set (w2 := buf_append w1 (STORE32H 0)) in *.
  assert (Hwf2 : buf_wf w2) by (apply buf_wf_append; [done|auto with ssh|rewrite STORE32H_length; lia]).
  assert (Hw2 : buf_pos w2 = zlen hdr + 4 ∧ buf_len w2 = zlen hdr + 4 ∧ buf_size w2 = buf_size w).
  { unfold w2, buf_append; cbn [buf_pos buf_len buf_size]. rewrite STORE32H_length. lia. }
  destruct Hw2 as (Hp2 & Hl2 & Hs2).
  assert (Hc2 : buf_content w2 = hdr ++ STORE32H 0).
  { unfold w2. rewrite buf_content_append by (try done; rewrite STORE32H_length; lia).
    unfold w1. rewrite buf_content_append by (done || lia). unfold buf_content. by rewrite Hl0. }
  pose proof (wf_data _ Hwf2) as Hd2. pose proof (wf_bytes _ Hwf2) as Hby2.
  exists w1, w2, (drop (Z.to_nat (zlen hdr + 4 + zlen bs)) (buf_data w2)).
  split_and!; [done..| |auto with ssh|rewrite length_drop; lia].
  rewrite buf_store_eq by (done || lia). do 2 f_equal. unfold set_data, building.
  rewrite Hp2, Hs2, Hl2. f_equal; [|lia]. rewrite <- Hl2 at 1. fold (buf_content w2). by rewrite Hc2, <- app_assoc.
Qed.

Lemma building_load hdr lf bs junk size : length lf = 4%nat →
  buf_load (zlen hdr + 4) (zlen bs) (building hdr lf bs junk 0 size) = Ok (bs, building hdr lf bs junk 0 size).
Proof.
  intros Hlf. unfold buf_load. erewrite bind_ok by done. unfold lift, building; cbn [buf_data].
  rewrite mem_load_ok by (rewrite ?length_app; lia). rewrite Nat2Z.id, app_assoc.
  rewrite drop_app_length' by (rewrite length_app; lia). by rewrite take_app_length.
Qed.

Lemma building_finish hdr bs junk len size : Forall is_byte (hdr ++ bs ++ junk) →
  zlen hdr + 4 + zlen bs + zlen junk = size → size ≤ BUF_MAX_SIZE → 0 < len ≤ zlen bs →
  ∃ w4 w5, buf_incrwritepos len (building hdr (STORE32H 0) bs junk 0 size) = Ok (tt, w4) ∧
    buf_setpos (zlen hdr) w4 = Ok (tt, w5) ∧
    buf_putint len w5 = Ok (tt, building hdr (STORE32H len) bs junk len size).
Proof.
  intros Hb Hs Hm Hl. unfold BUF_MAX_SIZE in *. rewrite !Forall_app in Hb. destruct Hb as (? & ? & ?).
  set (b := building hdr (STORE32H 0) bs junk 0 size).
  assert (Hwf : buf_wf b) by (apply building_wf; [done..|lia|auto with ssh]).
  do 2 eexists. split_and!.
  - rewrite buf_incrwritepos_eq by (done || unfold U32; lia). unfold b; cbn [building buf_pos buf_size buf_len].
    rewrite (proj2 (Z.leb_le _ _)) by lia. done.
  - unfold buf_setpos. erewrite bind_ok by done. cbn. rewrite (Z.gtb_ltb _ _), (proj2 (Z.ltb_ge _ _)) by lia. done.
  - match goal with |- buf_putint len ?w = _ => set (w5 := w) end.
    assert (Hwf5 : buf_wf w5).
    { unfold w5, set_len, set_pos; cbn -[STORE32H]. split; cbn -[STORE32H]; try apply Hwf; unfold BUF_MAX_SIZE; lia. }
    unfold buf_putint. erewrite bind_ok.
    2: { rewrite buf_getwriteptr_eq by done. unfold w5; cbn -[STORE32H]. rewrite (proj2 (Z.leb_le _ _)) by lia. done. }
    erewrite bind_ok by (apply buf_store_eq; [done|lia|unfold w5; cbn -[STORE32H]; rewrite STORE32H_length; lia]).
    match goal with |- buf_incrwritepos 4 ?w = _ => set (w6 := w) end.
    assert (Hd6 : buf_data w6 = hdr ++ STORE32H len ++ bs ++ junk).
    { unfold w6. cbn -[STORE32H take drop]. rewrite Nat2Z.id, STORE32H_length, take_app_length. f_equal. f_equal.
      rewrite app_assoc, drop_app_length' by (rewrite length_app, STORE32H_length; lia). done. }
    assert (Hwf6 : buf_wf w6).
    { split; [apply Hwf5..| |]; rewrite Hd6; [|auto with ssh].
      rewrite !length_app, STORE32H_length. cbn. lia. }
    rewrite buf_incrwritepos_eq by done. assert (Hw6 : buf_pos w6 = zlen hdr ∧ buf_len w6 = zlen hdr + 4 + len ∧ buf_size w6 = size) by (cbn; lia).
    destruct Hw6 as (Hp6 & Hl6 & Hs6). rewrite Hp6, Hs6, (proj2 (Z.leb_le _ _)) by lia. do 2 f_equal.
    unfold set_len, set_pos, building; cbn [buf_data buf_len buf_pos buf_size]. rewrite Hd6, Hl6, Hs6. f_equal. lia.
Qed.
Definition rd_ok (rd : list fdread) : Prop := Forall (λ r, match r with FdData bs => Forall is_byte bs | _ => True end) rd.
(** The bytes the script still holds. *)
Definition read_bytes (rd : list fdread) : list Z := concat ((λ r, match r with FdData bs => bs | _ => [] end) <$> rd).
(** What [read(fd, p, n)] returns. *)
Lemma fd_read_on rd n : 0 ≤ n → rd_ok rd →
  ∃ r rd', (∀ s0 i c io wr lg, sys_fd_read n (on s0 i c io rd wr lg) = Ok (r, on s0 i c io rd' wr lg)) ∧ rd_ok rd' ∧
    let bs := match r with FdData bs => bs | _ => [] end in
    zlen bs ≤ n ∧ Forall is_byte bs ∧ read_bytes rd = bs ++ read_bytes rd' ∧
    (∀ bs0 rd0, rd = FdData bs0 :: rd0 → bs = take (Z.to_nat n) bs0).
Proof.
  intros Hn Hrd. unfold sys_fd_read. destruct rd as [|[bs| |] rd]; [..|apply Forall_cons in Hrd as [H1 H2]| |].
  - exists FdErr, []. split_and!; try done; cbn; lia.
  - destruct (zlen bs <=? n) eqn:E.
    + exists (FdData bs), rd. split_and!; try done; [|lia|].
      { intros. erewrite bind_ok by done. cbn [fd_reads on]. by rewrite E. } intros ? ? [= <- <-]. by rewrite take_ge by lia.
    + exists (FdData (take (Z.to_nat n) bs)), (FdData (drop (Z.to_nat n) bs) :: rd). cbn zeta.
      split_and!; [intros; erewrite bind_ok by done; cbn [fd_reads on]; by rewrite E|
        constructor; auto with ssh|rewrite length_take; lia|auto with ssh| |].
      * unfold read_bytes. cbn. by rewrite app_assoc, take_drop.
      * by intros ? ? [= <- <-].
  - apply Forall_cons in Hrd as [H1 H2]. exists FdEintr, rd. split_and!; try done; cbn; lia.
  - apply Forall_cons in Hrd as [H1 H2]. exists FdErr, rd. split_and!; try done; cbn; lia.
Qed.

(** What [send_msg_channel_data] may put in one packet. *)
Definition max_data (ext : bool) c : Z :=
  Z.min (Z.min (transwindow c) (transmaxpacket c)) (TRANS_MAX_PAYLOAD_LEN - 1 - 4 - 4 - (if ext then 4 else 0)).

Lemma io_set_set w w' io : io_set_writepayload w (io_set_writepayload w' io) = io_set_writepayload w io.
Proof. done. Qed.
Section sending.
Context (s0 : cst) (i : Z) (c0 : chan) (Hat : chan_at s0 i c0).
Abbreviation on := (on s0 i).
Implicit Types (io : msgio) (rd : list fdread) (wr : list fdwrite) (lg : list fdevent).

Lemma discard_on c io w rd wr lg (Q : () → cst → Prop) : io_ok io → buf_wf w → buf_size w = TRANS_MAX_PAYLOAD_LEN →
  (∀ io', io_sends io io' [] → Q tt (on c io' rd wr lg)) →
  twp discard_message Q (on c (io_set_writepayload w io) rd wr lg).
Proof using.
  intros (Hp & Hi & Hs) Hw Hsw HQ. unfold discard_message, ses_write. twp_step. do 2 apply twp_zoom.
  apply twp_setpos; [done|cbn; buf_facts; lia|]. cbn [get_io cses_has_io cs_io io_writepayload io_set_writepayload on].
  intros Hw2. do 2 apply twp_zoom. apply twp_setlen; [done|cbn; buf_facts; cbn in *; lia|]. intros Hw3.
  match goal with |- Q tt ?st => change st with (on c (io_set_writepayload (set_pos (Z.min 0 0) (set_len 0 (set_pos 0 w))) io) rd wr lg) end.
  apply HQ. split; [|done|by rewrite app_nil_r]. split; [done|]. split; [split; [done|done]|done].
Qed.
(** What the mangler makes of the length; without one it stays. *)
Definition mangled c (bs : list Z) : Z := match read_mangler c with Some m => m bs | None => zlen bs end.
Lemma mangled_range c bs : chan_wf i c → 0 ≤ mangled c bs ≤ zlen bs.
Proof using. intros Hc. unfold mangled. destruct (read_mangler c) eqn:E; [by eapply cw_mangler|lia]. Qed.

Lemma data_header_writer (ext : bool) (remote : Z) :
  Writer (msg_chan (if ext then SSH_MSG_CHANNEL_EXTENDED_DATA else SSH_MSG_CHANNEL_DATA) remote;;
          when ext (buf_putint SSH_EXTENDED_DATA_STDERR)) (data_header ext remote).
Proof using.
  unfold data_header. rewrite app_comm_cons. apply writer_seq.
  - refine (writer_msg_chan _ _ _). by destruct ext.
  - destruct ext; cbn [when]; apply _.
Qed.

(** One call of [send_msg_channel_data]: [d] is what went into a packet, and
    nothing is sent when there is nothing to send. *)
Lemma send_data_on (ext : bool) c t io rd wr lg (Q : () → cst → Prop) :
  let fd := if ext then errfd c else readfd c in
  chan_wf i c → types !! type c = Some t → io_ok io → rd_ok rd → sent_close c = false → 0 ≤ fd →
  (∀ d c' io' rd' evs,
     let c1 := set_transwindow (transwindow c - zlen d) c in
     chan_wf i c' → rd_ok rd' → Forall no_write evs → (c' = c1 ∨ c' = closed_chan t fd SHUT_RD c1) →
     io_sends io io' (if decide (d = []) then [] else [data_msg ext (remotechan c) d]) →
     zlen d ≤ max_data ext c → (read_mangler c = None → read_bytes rd = d ++ read_bytes rd') →
     (∀ bs rd0, rd = FdData bs :: rd0 → read_mangler c = None → d = take (Z.to_nat (max_data ext c)) bs) →
     Q tt (on c' io' rd' wr (lg ++ evs))) →
  twp (send_msg_channel_data types i ext) Q (on c io rd wr lg).
Proof using Hat.
  intros fd Hc Ht Hio Hrd Hsc Hfd HQ. pose proof (cw_trans _ _ Hc) as [Htw Htm].
  assert (Hnil : ∀ c' io' rd' evs, chan_wf i c' → rd_ok rd' → Forall no_write evs →
    (c' = c ∨ c' = closed_chan t fd SHUT_RD c) → io_sends io io' [] →
    (read_mangler c = None → read_bytes rd = read_bytes rd') →
    (∀ bs rd0, rd = FdData bs :: rd0 → read_mangler c = None → [] = take (Z.to_nat (max_data ext c)) bs) →
    Q tt (on c' io' rd' wr (lg ++ evs))).
  { intros c' io' rd' evs H1 H2 H3 H4 H5 H6 H7. apply (HQ []); try done.
    - cbn [length]. rewrite Z.sub_0_r. by destruct c.
    - unfold max_data, TRANS_MAX_PAYLOAD_LEN. cbn. destruct ext; lia. }
  unfold send_msg_channel_data. twp_step. eapply twp_ok; [by eapply getchan_on|].
  rewrite Hsc. twp_step. apply twp_assert; [done|]. twp_step. apply twp_assert; [fold fd; lia|].
  fold fd. twp_step. eapply twp_ok; [by apply write_on|].
  replace (io_set_writepayload (io_writepayload io) io) with io by (by destruct io).
  pose proof Hio as (Hp & [Hw Hwl] & Hs). rewrite Hs.
  replace (Z.min _ (u32 _)) with (max_data ext c)
    by (unfold max_data; rewrite (u32_small (TRANS_MAX_PAYLOAD_LEN - _ - _ - _ - _)); [done|]; destruct ext; done).
  set (maxlen := max_data ext c) in *.
  assert (Hm : 0 ≤ maxlen ≤ 16375 ∧ maxlen ≤ 16371 + (if ext then 0 else 4)).
  { unfold maxlen, max_data, TRANS_MAX_PAYLOAD_LEN. destruct ext; lia. }
  destruct (Z.eqb_spec maxlen 0) as [E0|E0].
  { twp_step. rewrite <- (app_nil_r lg). apply Hnil; try done; [by left|by apply io_sends_none|].
    intros bs rd0 _ _. by rewrite E0. }
  destruct (fd_read_on rd maxlen) as (r & rd1 & Er & Hrd1 & Hbl & Hby & Hrb & Htake); [lia|done|].
  set (bs := match r with FdData bs => bs | _ => [] end) in *.
  set (hdr := data_header ext (remotechan c)).
  assert (Hhl : zlen hdr = 5 + (if ext then 4 else 0)) by (unfold hdr, data_header; destruct ext; reflexivity).
  destruct (building_start _ hdr bs (io_writepayload io) (data_header_writer ext (remotechan c)) Hw Hwl)
    as (w1 & w2 & junk & E1 & Hp1 & E2 & Hw2 & Hp2 & Hs2 & E3 & Hj & Hlen).
  { rewrite Hs. unfold TRANS_MAX_PAYLOAD_LEN. destruct ext; lia. }
  { done. }
  rewrite Hs in *. apply bind_inv in E1 as ([] & w0 & E0' & E1).
  twp_step. eapply twp_ok; [by apply write_on|]. twp_step.
  eapply (twp_ok _ _ _ tt (on c (io_set_writepayload w1 io) rd wr lg)).
  { destruct ext; cbn [when] in *; [by erewrite (write_on s0 i) by exact E1|]. injection E1 as <-. done. }
  twp_step. eapply twp_ok; [by apply write_on|]. rewrite ?io_set_set. cbn [io_set_writepayload io_writepayload]. rewrite Hp1.
  twp_step. eapply twp_ok; [by apply write_on|]. rewrite ?io_set_set.
  twp_step. eapply twp_ok.
  { apply write_on. cbn [io_writepayload io_set_writepayload]. rewrite buf_getwriteptr_eq by (done || unfold U32; lia).
    rewrite Hp2, Hs2, (proj2 (Z.leb_le _ _)) by (unfold TRANS_MAX_PAYLOAD_LEN; destruct ext; lia). done. }
  twp_step. eapply twp_ok; [apply Er|]. rewrite ?io_set_set. fold bs.
  destruct (Z.leb_spec (zlen bs) 0) as [Hz|Hz].
  { assert (Hbs : bs = []) by (destruct bs; [done|cbn in Hz; lia]).
    assert (Hfin : ∀ c' evs, chan_wf i c' → Forall no_write evs → c' = c ∨ c' = closed_chan t fd SHUT_RD c →
      twp discard_message Q (on c' (io_set_writepayload w2 io) rd1 wr (lg ++ evs))).
    { intros c' evs Hc' Hev Hcc. eapply discard_on; [done..|]. intros io' Hio'. apply Hnil; try done.
      - by rewrite Hrb, Hbs.
      - intros bs0 rd0 Hbs0 _. rewrite <- (Htake _ _ Hbs0). by rewrite Hbs. }
    twp_step. destruct (close_chan_fd_on s0 i c0 Hat t fd SHUT_RD c (io_set_writepayload w2 io) rd1 wr lg Ht) as (evs & Hev & Ec).
    destruct r.
    - eapply twp_ok; [exact Ec|]. apply Hfin; [by apply closed_chan_wf|done|by right].
    - twp_step. rewrite <- (app_nil_r lg). apply Hfin; [done..|by left].
    - eapply twp_ok; [exact Ec|]. apply Hfin; [by apply closed_chan_wf|done|by right]. }
  twp_step. eapply twp_ok; [apply write_on; exact E3|]. rewrite io_set_set.
  set (b := building _ _ _ _ _ _).
  twp_step. eapply twp_ok; [by eapply getchan_on|].
  assert (Hfall : Forall is_byte (hdr ++ bs ++ junk)).
  { rewrite !Forall_app. split_and!; [|done..]. apply (data_header_writer ext (remotechan c)). }
  assert (Hwb : buf_wf b).
  { apply building_wf; [done..|lia|]. rewrite !Forall_app in *. destruct Hfall as (? & ? & ?). auto with ssh. }
  pose proof (mangled_range c bs Hc) as Hmr.
  twp_step. eapply (twp_ok _ _ _ (mangled c bs) (on c (io_set_writepayload b io) rd1 wr lg)).
  { unfold mangled. destruct (read_mangler c) as [m|]; [|done].
    erewrite bind_ok.
    2: { apply write_on. cbn [io_writepayload io_set_writepayload]. rewrite buf_getwriteptr_eq by (done || unfold U32; lia).
         unfold b; cbn [building buf_pos buf_size]. rewrite (proj2 (Z.leb_le _ _)) by lia. done. }
    erewrite bind_ok by (apply write_on; cbn [io_writepayload io_set_writepayload]; by apply building_load). done. }
  set (len := mangled c bs) in *. destruct (Z.eqb_spec len 0) as [Hl0|Hl0].
  { rewrite <- (app_nil_r lg). eapply discard_on; [done..|]. intros io' Hio'. apply Hnil; try done; [by left| |].
    all: unfold len, mangled in Hl0. - intros Hn; rewrite Hn in Hl0. lia. - intros ? ? _ Hn. rewrite Hn in Hl0. lia. }
  destruct (building_finish hdr bs junk len TRANS_MAX_PAYLOAD_LEN) as (w4 & w5 & F1 & F2 & F3); [done..|lia|].
  twp_step. eapply twp_ok; [apply write_on; exact F1|]. twp_step. eapply twp_ok; [apply write_on; exact F2|].
  twp_step. eapply twp_ok; [apply write_on; exact F3|]. rewrite !io_set_set. set (b' := building _ (STORE32H len) _ _ _ _).
  assert (Hwb' : buf_wf b').
  { apply building_wf; [done..|lia|]. rewrite !Forall_app in *. destruct Hfall as (? & ? & ?). auto with ssh. }
  set (d := take (Z.to_nat len) bs). assert (Hdl : zlen d = len) by (unfold d; rewrite length_take; lia).
  assert (Hcont : buf_content b' = data_msg ext (remotechan c) d).
  { unfold b', data_msg. rewrite building_content by (done || lia). by rewrite Hdl. }
  assert (Hmw : maxlen ≤ transwindow c) by (unfold maxlen, max_data; lia).
  twp_step. eapply twp_ok; [by eapply updchan_on|]. cbn beta. rewrite u32_small by (unfold U32 in *; lia).
  rewrite <- Hdl. set (c1 := set_transwindow _ c).
  assert (Hc1 : chan_wf i c1) by (destruct Hc; split; cbn; try done; unfold U32 in *; lia).
  twp_step. apply twp_encrypt_msg; [done|cbn; lia|]. intros w7 Hw7 Hwl7 Hs7.
  change (buf_content _) with (buf_content b'). rewrite Hcont. set (io' := mkIO _ _ _).
  match goal with |- twp _ _ ?st => change st with (on c1 io' rd1 wr lg) end.
  assert (Hsends : io_sends io io' (if decide (d = []) then [] else [data_msg ext (remotechan c) d])).
  { rewrite decide_False by (intros Hd0; rewrite Hd0 in Hdl; cbn in Hdl; lia). split; [|done..].
    split; [done|]. split; [done|]. cbn. by rewrite Hs7. }
  assert (Hout : ∀ c' evs, chan_wf i c' → Forall no_write evs → c' = c1 ∨ c' = closed_chan t fd SHUT_RD c1 →
    Q tt (on c' io' rd1 wr (lg ++ evs))).
  { intros c' evs Hc' Hev Hcc. apply (HQ d); try done; [lia|..].
    - intros Hn. unfold d, len, mangled. rewrite Hn, take_ge by lia. done.
    - intros bs0 rd0 Hbs0 Hn. unfold d, len, mangled. rewrite Hn, take_ge by lia. by apply (Htake _ _ Hbs0). }
  twp_step. eapply twp_ok; [by eapply getchan_on|].
  destruct (flushing c1 && (zlen d <? maxlen)); cbn [when].
  - destruct (close_chan_fd_on s0 i c0 Hat t fd SHUT_RD c1 io' rd1 wr lg Ht) as (evs & Hev & Ec).
    eapply twp_ok; [exact Ec|]. apply Hout; [by apply closed_chan_wf|done|by right].
  - twp_step. rewrite <- (app_nil_r lg). apply Hout; [done..|by left].
Qed.
End sending.
(** ** A stream of data to the peer *)

(** The descriptor for output ([ext] false) or for errors is readable, as
    [channelio] finds it, or the peer adjusts the window. *)
Inductive drain := Readable (ext : bool) | Adjust (incr : Z).
Definition adjust_payload (i incr : Z) : buffer :=
  mkBuf (adjust_msg i incr) (zlen (adjust_msg i incr)) 1 (zlen (adjust_msg i incr)).
Definition drain_op (i : Z) (o : drain) : M cst () :=
  match o with
  | Readable ext =>
      c ← getchan i;
      when ((if ext then ERRFD_IS_READ c && (errfd c >=? 0) else readfd c >=? 0)) (send_msg_channel_data types i ext)
  | Adjust incr => ses_payload (put (adjust_payload i incr));; recv_msg_channel_window_adjust
  end.
Fixpoint drain_ops (i : Z) (os : list drain) : M cst () :=
  match os with [] => mret tt | o :: os => drain_op i o;; drain_ops i os end.
Definition drain_incr (o : drain) : Z := match o with Adjust n => n | Readable _ => 0 end.

(** A channel the program's output still goes to. *)
Record out_chan s i c : Prop := {
  ot_at : chan_at s i c;
  ot_wf : chan_wf i c;
  ot_io : io_ok (cs_io s);
  ot_close : sent_close c = false;
  ot_window : transwindow c ≤ TRANS_MAX_WINDOW;
  ot_mangler : read_mangler c = None;
  ot_reads : rd_ok (fd_reads s)
}.
Record drained s c s' c' (ds : list (bool * list Z)) (granted : Z) : Prop := {
  dr_sent : io_sent (cs_io s') = io_sent (cs_io s) ++ ((λ d, data_msg d.1 (remotechan c) d.2) <$> ds);
  dr_bytes : read_bytes (fd_reads s) = concat ds.*2 ++ read_bytes (fd_reads s');
  dr_window : zlen (concat ds.*2) + transwindow c' ≤ transwindow c + granted;
  dr_packets : Forall (λ d, 0 < zlen d.2 ≤ transmaxpacket c) ds;
  dr_kept : remotechan c' = remotechan c ∧ transmaxpacket c' = transmaxpacket c
}.

Lemma adjust_payload_wf i incr : buf_wf (adjust_payload i incr) ∧
  buf_rest (adjust_payload i incr) = STORE32H i ++ STORE32H incr.
Proof.
  split; [|done]. split; cbn -[STORE32H]; rewrite ?STORE32H_length; unfold BUF_MAX_SIZE; try (cbn; lia).
  unfold adjust_msg. constructor; [done|]. auto with ssh.
Qed.
Lemma closed_chan_kept t fd how c : let c' := closed_chan t fd how c in
  remotechan c' = remotechan c ∧ transmaxpacket c' = transmaxpacket c ∧ transwindow c' = transwindow c ∧
  sent_close c' = sent_close c ∧ read_mangler c' = read_mangler c ∧ type c' = type c ∧ owner c' = owner c.
Proof. cbn. unfold closed_chan. repeat case_match; done. Qed.

Lemma adjust_window_on s i c io rd wr lg incr (Q : () → cst → Prop) :
  chan_at s i c → 0 ≤ i < U32 → io_ok io → 0 ≤ incr < U32 →
  (∀ io', io_ok io' → io_sent io' = io_sent io →
     Q tt (on s i (set_transwindow (Z.min (u32 (transwindow c + Z.min incr TRANS_MAX_WIN_INCR)) TRANS_MAX_WINDOW) c)
             io' rd wr lg)) →
  twp (drain_op i (Adjust incr)) Q (on s i c io rd wr lg).
Proof.
  intros Hat Hi Hio Hincr HQ. destruct (adjust_payload_wf i incr) as [Hpw Hpr]. cbn [drain_op].
  twp_step. eapply twp_ok; [by apply payload_on|]. set (io1 := io_set_payload _ _).
  destruct Hio as (_ & Hidle & Hsz). assert (Hio1 : io_ok io1) by done.
  unfold recv_msg_channel_window_adjust. twp_step. unfold getchannel. eapply getchannel_on; [done..|exact Hpr|].
  intros io2 (Hp2 & Hi2 & Hs2) Hsent2 Hrest2. twp_step. apply twp_ses_payload.
  refine (twp_reader _ Hp2 buf_getint p_int _ incr [] _ _); [rewrite Hrest2; rewrite <- (app_nil_r (STORE32H incr)); by apply p_int_app|].
  intros k Hk Hkf Hp3 Hrest3. cbn beta. set (io3 := io_set_payload (buf_advance (io_payload io2) k) io2).
  change (set_io _ _) with (on s i c io3 rd wr lg).
  twp_step. eapply twp_ok; [by eapply updchan_on|]. eapply twp_ok; [by eapply updchan_on|]. cbn beta.
  by apply HQ.
Qed.

Lemma drain_op_spec s i c o : 0 ≤ i < U32 → out_chan s i c → 0 ≤ drain_incr o < U32 →
  twp (drain_op i o) (λ _ s', ∃ c' ds, out_chan s' i c' ∧ drained s c s' c' ds (drain_incr o)) s.
Proof using Hrw.
  intros Hi [Hat Hc Hio Hsc Hw Hm Hrd] Hincr. destruct (cw_type _ _ Hc) as [t Ht].
  pose proof (cw_trans _ _ Hc) as [Htw Htm]. unfold TRANS_MAX_WINDOW in *.
  refine (eq_ind_r (λ x, twp _ _ x) _ (on_start s i c Hat)). destruct o as [ext|incr]; cbn [drain_op drain_incr] in *.
  - twp_step. eapply twp_ok; [by eapply getchan_on|]. set (fd := if ext then errfd c else readfd c).
    destruct (if ext then ERRFD_IS_READ c && (errfd c >=? 0) else readfd c >=? 0) eqn:Hfd; cbn [when].
    2: { twp_step. exists c, []. split; [split; try done; by eapply chan_at_on|].
         split; cbn; rewrite ?app_nil_r; try done; lia. }
    assert (Hfd0 : 0 ≤ fd) by (unfold fd; destruct ext; [apply andb_true_iff in Hfd as [_ Hfd]|]; lia).
    eapply (send_data_on s i c Hat ext); [done..|].
    intros d c' io' rd' evs c1 Hc' Hrd' _ Hcc [Hok _ Hsent] Hmax Hrb _. specialize (Hrb Hm).
    assert (Hkept : remotechan c' = remotechan c ∧ transmaxpacket c' = transmaxpacket c ∧
      transwindow c' = transwindow c - zlen d ∧ sent_close c' = sent_close c ∧ read_mangler c' = read_mangler c).
    { destruct Hcc as [->| ->]; [done|]. destruct (closed_chan_kept t fd SHUT_RD c1) as (?&?&?&?&?&?). done. }
    destruct Hkept as (K1 & K2 & K3 & K4 & K5).
    assert (zlen d ≤ transmaxpacket c ∧ zlen d ≤ transwindow c) by (unfold max_data in Hmax; lia).
    exists c', (if decide (d = []) then [] else [(ext, d)]). split.
    + split; try done; [by eapply chan_at_on|by rewrite K4|unfold TRANS_MAX_WINDOW; lia|by rewrite K5].
    + assert (Hcat : concat (if decide (d = []) then [] else [(ext, d)]).*2 = d) by (case_decide; cbn; [done|apply app_nil_r]).
      split; cbn [cs_io fd_reads on]; rewrite ?Hcat; try done; [|lia|].
      * rewrite Hsent. by case_decide.
      * case_decide; [done|]. apply Forall_singleton. cbn [snd]. destruct d; [done|cbn in *; lia].
  - eapply adjust_window_on; [done..|]. intros io3 Hio3 Hsent3.
    unfold TRANS_MAX_WIN_INCR, TRANS_MAX_WINDOW. rewrite u32_small by (unfold U32; lia).
    eexists _, []. split; [split; [by eapply chan_at_on|..]|split]; try done.
    + destruct Hc. split; cbn; try done; unfold U32 in *; lia.
    + cbn. unfold TRANS_MAX_WINDOW. lia.
    + cbn. by rewrite Hsent3, app_nil_r.
    + cbn. lia.
Qed.

Lemma drain_ops_spec os s i c : 0 ≤ i < U32 → out_chan s i c → Forall (λ o, 0 ≤ drain_incr o < U32) os →
  twp (drain_ops i os) (λ _ s', ∃ c' ds, out_chan s' i c' ∧ drained s c s' c' ds (foldr Z.add 0 (drain_incr <$> os))) s.
Proof using Hrw.
  intros Hi. revert s c. induction os as [|o os IH]; intros s c Ho Hb.
  { apply twp_ret. exists c, []. split; [done|]. split; cbn; rewrite ?app_nil_r; try done; lia. }
  apply Forall_cons in Hb as [Hb1 Hb2]. cbn [drain_ops]. twp_step.
  eapply twp_mono; [by apply drain_op_spec|]. intros _ s1 (c1 & d1 & Ho1 & [A1 A2 A3 A4 [A5 A6]]).
  eapply twp_mono; [by apply IH|]. intros _ s2 (c2 & d2 & Ho2 & [B1 B2 B3 B4 [B5 B6]]).
  exists c2, (d1 ++ d2). split; [done|]. rewrite A5 in B1, B5. rewrite A6 in B4, B6. split; cbn.
  - by rewrite B1, A1, fmap_app, app_assoc.
  - by rewrite A2, B2, fmap_app, concat_app, app_assoc.
  - rewrite fmap_app, concat_app, length_app. lia.
  - by apply Forall_app.
  - done.
Qed.
(** ** New channels *)
Definition has_chan s (j : nat) : Prop := ∃ c, channels s !! j = Some (Some c).
Lemma free_slot_spec (l : list (option chan)) : (free_slot l ≤ length l)%nat ∧
  (∀ j, (j < free_slot l)%nat → ∃ c, l !! j = Some (Some c)) ∧
  ((free_slot l < length l)%nat → l !! free_slot l = Some None).
Proof.
  induction l as [|[c|] l (IH1 & IH2 & IH3)]; cbn; split_and!; try done; try lia.
  - intros [|j] Hj; [by exists c|]. apply IH2. lia.
  - intros Hl. apply IH3. lia.
Qed.
Definition new_chan (i remote : Z) (ty : nat) (twindow tmaxpacket : Z) : chan :=
  mkChan i remote recv_window twindow 0 RECV_MAX_CHANNEL_DATA_LEN tmaxpacket None FD_UNINIT FD_UNINIT FD_CLOSED
    (mkCbuf recv_window 0 0 0 None) None false false false false None false false None ty DROPBEAR_CHANNEL_PRIO_EARLY.
Lemma new_chan_wf i remote ty twindow tmaxpacket : is_Some (types !! ty) →
  0 ≤ twindow < U32 → 0 ≤ tmaxpacket < U32 → chan_wf i (new_chan i remote ty twindow tmaxpacket).
Proof using Hrw.
  intros Ht Hw Hm. split; cbn; try done; try lia. split; [|done]. by apply (cbuf_wf_new recv_window); [lia|];
    unfold cbuf_new; case_if; [lia|].
Qed.
Definition table_full s : bool :=
  (free_slot (channels s) =? length (channels s))%nat && (zlen (channels s) >=? MAX_CHANNELS).
Definition grown s : list (option chan) :=
  if (free_slot (channels s) =? length (channels s))%nat
  then channels s ++ replicate (Z.to_nat CHAN_EXTEND_SIZE) None else channels s.
Lemma newchannel_eq remote ty twindow tmaxpacket s :
  let i := free_slot (channels s) in
  newchannel recv_window remote ty twindow tmaxpacket s =
  if table_full s then Ok (None, s)
  else Ok (Some (Z.of_nat i),
           set_chancount (u32 (chancount s + 1))
             (set_channels (<[i := Some (new_chan (Z.of_nat i) remote ty twindow tmaxpacket)]> (grown s)) s)).
Proof using Hrw.
  intros i. unfold newchannel. erewrite bind_ok by done. fold i. unfold table_full. fold i. case_if; [done|].
  set (s1 := set_channels (grown s) s).
  erewrite (bind_ok _ _ _ tt s1); [|unfold s1, grown; fold i; case_if; [done|by destruct s]].
  erewrite bind_ok by (unfold cbuf_new; rewrite (Z.gtb_ltb _ _), (proj2 (Z.ltb_ge _ _)) by lia; done).
  unfold setchan. by rewrite Nat2Z.id.
Qed.
Lemma grown_slot s : table_full s = false → (free_slot (channels s) < length (grown s))%nat.
Proof.
  intros _. destruct (free_slot_spec (channels s)) as (H1 & _ & _). unfold grown.
  destruct (Nat.eqb_spec (free_slot (channels s)) (length (channels s)));
    [rewrite length_app, length_replicate; unfold CHAN_EXTEND_SIZE|]; lia.
Qed.
Lemma grown_lookup s j : (∃ c, grown s !! j = Some (Some c)) ↔ has_chan s j.
Proof.
  unfold grown, has_chan. case_if; [|done]. destruct (decide (j < length (channels s))%nat).
  - by rewrite lookup_app_l.
  - rewrite lookup_app_r by lia. rewrite (lookup_ge_None_2 (channels s)) by lia. split; intros (c & Hc); [|done].
    by apply lookup_replicate in Hc as [? _].
Qed.
End props.

(** * The claims *)

(** C8. Data from the peer reaches the program in order and without loss.  Take
    a channel that accepts data, and any interleaving of data packets for it
    and of calls of [writechannel] when its descriptor is writable, where the
    peer stays within its window and no write fails, but every write may take
    any number of bytes or none.  Then every call returns, the bytes written to
    the descriptor followed by those still buffered are what was there before
    followed by the data of the packets; the window the server believes the
    peer has is the old one, less the data, plus the window adjustments that
    were sent; and the window, the bytes written but not yet granted and the
    buffered bytes keep their sum. *)
Theorem channel_stream_delivered {TD X} recv_window (types : list (@ChanType TD X)) (s : @cses TD X) i c os :
  0 < recv_window ≤ MAX_CBUF_SIZE → 0 ≤ i < U32 →
  open_chan recv_window types s i c → Forall (λ o, Forall is_byte (feed_data o)) os → obeys recv_window types i os s →
  ∃ s' c' grants, feed_ops recv_window types i os s = Ok (tt, s') ∧ open_chan recv_window types s' i c' ∧
    fd_bytes (writefd c) (fd_log s') ++ cbuf_contents (writebuf c') =
      fd_bytes (writefd c) (fd_log s) ++ cbuf_contents (writebuf c) ++ concat (feed_data <$> os) ∧
    io_sent (cs_io s') = io_sent (cs_io s) ++ (adjust_msg (remotechan c) <$> grants) ∧
    recvwindow c' = recvwindow c - zlen (concat (feed_data <$> os)) + foldr Z.add 0 grants ∧
    recvwindow c' + recvdonelen c' + cb_used (writebuf c') = recvwindow c + recvdonelen c + cb_used (writebuf c).
Proof.
  intros Hrw Hi Ho Hb Hob. pose proof (feed_ops_deliver _ _ Hrw os s i c Hi Ho Hb Hob) as H.
  apply twp_iff in H as ([] & s' & E & c' & grants & H). by exists s', c', grants.
Qed.

(** C20. Data to the peer stays within its window.  Take a channel the program
    still writes to, with a window as the server clamps it and no mangler, and any
    interleaving of calls of [send_msg_channel_data] for its output and for its
    errors (extended data), and of window adjustments from the peer.  Then every
    call returns; the packets of both kinds carry exactly the bytes that the
    reads returned, in order; no packet is empty or longer than the peer's
    maximum; and the data sent, in both kinds together, is at most the window
    the peer had granted and the adjustments it made. *)
Theorem channel_output_within_window {TD X} recv_window (types : list (@ChanType TD X)) (s : @cses TD X) i c os :
  0 < recv_window ≤ MAX_CBUF_SIZE → 0 ≤ i < U32 →
  out_chan recv_window types s i c → Forall (λ o, 0 ≤ drain_incr o < U32) os →
  ∃ s' c' ds, drain_ops types i os s = Ok (tt, s') ∧ out_chan recv_window types s' i c' ∧
    io_sent (cs_io s') = io_sent (cs_io s) ++ ((λ d, data_msg d.1 (remotechan c) d.2) <$> ds) ∧
    read_bytes (fd_reads s) = concat ds.*2 ++ read_bytes (fd_reads s') ∧
    zlen (concat ds.*2) + transwindow c' ≤ transwindow c + foldr Z.add 0 (drain_incr <$> os) ∧
    Forall (λ d, 0 < zlen d.2 ≤ transmaxpacket c) ds.
Proof.
  intros Hrw Hi Ho Hb. pose proof (drain_ops_spec _ _ Hrw os s i c Hi Ho Hb) as H.
  apply twp_iff in H as ([] & s' & E & c' & ds & Ho' & []). by exists s', c', ds.
Qed.

(** [newchannel] gives a channel the lowest free number and disturbs no
    other: it refuses only when every slot is taken and the table is at its
    limit, and otherwise the number was free, every smaller one is taken, the
    new channel is well formed with an untouched window, and the other slots
    hold what they held. *)
Theorem newchannel_lowest {TD X} recv_window (types : list (@ChanType TD X)) remote ty twindow tmaxpacket (s : @cses TD X) :
  0 < recv_window ≤ MAX_CBUF_SIZE → is_Some (types !! ty) → 0 ≤ twindow < U32 → 0 ≤ tmaxpacket < U32 →
  match newchannel recv_window remote ty twindow tmaxpacket s with
  | Ok (None, s') => s' = s ∧ MAX_CHANNELS ≤ zlen (channels s) ∧ ∀ j, (j < length (channels s))%nat → has_chan s j
  | Ok (Some i, s') =>
      ∃ c, chan_at s' i c ∧ chan_wf recv_window types i c ∧ recvwindow c = recv_window ∧
        transwindow c = twindow ∧ remotechan c = remote ∧
        ¬ has_chan s (Z.to_nat i) ∧ (∀ j, (j < Z.to_nat i)%nat → has_chan s j) ∧
        ∀ j c', j ≠ Z.to_nat i → channels s' !! j = Some (Some c') ↔ channels s !! j = Some (Some c')
  | _ => False
  end.
Proof.
  intros Hrw Ht Hw Hm. rewrite newchannel_eq by done.
  destruct (free_slot_spec (channels s)) as (H1 & H2 & H3). destruct (table_full s) eqn:E.
  - unfold table_full in E. apply andb_true_iff in E as [E1%Nat.eqb_eq E2]. split_and!; [done|lia|].
    intros j Hj. apply H2. lia.
  - pose proof (grown_slot s E) as Hs. rewrite !Nat2Z.id. eexists. split_and!;
      [split; [lia|rewrite Nat2Z.id; cbn; by apply list_lookup_insert_eq]|by apply new_chan_wf|done..| |done|].
    + intros (c & Hc). destruct (decide (free_slot (channels s) < length (channels s))%nat).
      * rewrite H3 in Hc by done. done.
      * apply lookup_lt_Some in Hc. lia.
    + intros j c' Hj. cbn. rewrite list_lookup_insert_ne by done. unfold grown. case_if; [|done].
      destruct (decide (j < length (channels s))%nat); [by rewrite lookup_app_l|].
      rewrite lookup_app_r by lia. rewrite (lookup_ge_None_2 (channels s)) by lia. split; [|done].
      intros Hc. by apply lookup_replicate in Hc as [? _].
Qed.

(** ** Concrete sessions for the witnesses *)
Definition wit_type : @ChanType () () := mkType false (bytes_of_string "session") None None None None None.
Definition wit_io : msgio := mkIO (mkBuf [] 0 0 0)
  (mkBuf (replicate (Z.to_nat TRANS_MAX_PAYLOAD_LEN) 0) 0 0 TRANS_MAX_PAYLOAD_LEN) [].
Definition wit_ses (c : @Channel ()) rd wr : @cses () () :=
  mkCses wit_io [Some c] 1 true 3 DROPBEAR_PRIO_DEFAULT 9 false rd wr [] [] ().
Definition wit_chan : @Channel () := set_readfd 7 (set_writefd 6 (new_chan 24 0 5 0 100 32)).
Lemma wit_io_ok : io_ok wit_io.
Proof.
  split; [|split; [|done]].
  - split; cbn; unfold BUF_MAX_SIZE; try done; lia.
  - split; [|done]. split; cbn [buf_pos buf_len buf_size buf_data wit_io io_writepayload]; unfold BUF_MAX_SIZE;
      try (unfold TRANS_MAX_PAYLOAD_LEN; lia); [by rewrite length_replicate|]. by apply Forall_replicate.
Qed.
Lemma wit_chan_wf : chan_wf 24 [wit_type] 0 wit_chan.
Proof.
  destruct (new_chan_wf 24 [wit_type] ltac:(unfold MAX_CBUF_SIZE; lia) 0 5 0 100 32); [by eexists|unfold U32; lia..|].
  by split.
Qed.

Lemma channel_stream_delivered_witness :
  let s := wit_ses wit_chan [] [FdRetry; FdWrote 2] in
  let os := [Data [104; 105; 33]; Writable] in
  ∃ s' c' grants, feed_ops 24 [wit_type] 0 os s = Ok (tt, s') ∧ open_chan 24 [wit_type] s' 0 c' ∧
    fd_bytes 6 (fd_log s') ++ cbuf_contents (writebuf c') = [104; 105; 33] ∧
    io_sent (cs_io s') = [] ++ (adjust_msg 5 <$> grants) ∧
    recvwindow c' = 24 - 3 + foldr Z.add 0 grants ∧ recvwindow c' + recvdonelen c' + cb_used (writebuf c') = 24.
Proof.
  apply (channel_stream_delivered 24 [wit_type] (wit_ses wit_chan [] [FdRetry; FdWrote 2]) 0 wit_chan
           [Data [104; 105; 33]; Writable]).
  - unfold MAX_CBUF_SIZE. lia.
  - unfold U32. lia.
  - split; [done|apply wit_chan_wf|apply wit_io_ok|done..|]. cbn. rewrite !elem_of_cons, elem_of_nil. by intros [?|[?|?]].
  - repeat constructor; unfold is_byte; lia.
  - cbn [obeys]. split; [intros c [_ [= <-]]; right; cbn; lia|]. intros s' _. split; [by left|done].
Defined.

Lemma channel_output_within_window_witness :
  let s := wit_ses (set_errfd 8 wit_chan) [FdData [1; 2; 3]; FdData [4; 5]] [] in
  ∃ s' c' ds, drain_ops [wit_type] 0 [Readable false; Adjust 7; Readable true] s = Ok (tt, s') ∧ out_chan 24 [wit_type] s' 0 c' ∧
    io_sent (cs_io s') = [] ++ ((λ d, data_msg d.1 5 d.2) <$> ds) ∧
    [1; 2; 3; 4; 5] = concat ds.*2 ++ read_bytes (fd_reads s') ∧
    zlen (concat ds.*2) + transwindow c' ≤ 100 + 7 ∧ Forall (λ d, 0 < zlen d.2 ≤ 32) ds.
Proof.
  apply (channel_output_within_window 24 [wit_type] (wit_ses (set_errfd 8 wit_chan) [FdData [1; 2; 3]; FdData [4; 5]] []) 0
           (set_errfd 8 wit_chan) [Readable false; Adjust 7; Readable true]).
  - unfold MAX_CBUF_SIZE. lia.
  - unfold U32. lia.
  - split; [done|destruct wit_chan_wf; by split|apply wit_io_ok|done..|]. repeat constructor; unfold is_byte; lia.
  - repeat constructor; cbn; unfold U32; lia.
Defined.

Lemma newchannel_lowest_witness :
  let s := wit_ses wit_chan [] [] in
  (∃ s', newchannel (X := ()) 24 8 0 100 32 s = Ok (Some 1, s')) ∧
  match newchannel 24 8 0 100 32 s with
  | Ok (Some i, s') => ∃ c, chan_at s' i c ∧ chan_wf 24 [wit_type] i c ∧ remotechan c = 8
  | _ => False
  end.
Proof.
  split; [eexists; vm_compute; reflexivity|].
  pose proof (newchannel_lowest 24 [wit_type] 8 0 100 32 (wit_ses wit_chan [] [])) as H.
  specialize (H ltac:(unfold MAX_CBUF_SIZE; lia) ltac:(by eexists) ltac:(unfold U32; lia) ltac:(unfold U32; lia)).
  destruct (newchannel _ _ _ _ _ _) as [[[i|] s']| |] eqn:E; [|exfalso; vm_compute in E; discriminate E|done..].
  destruct H as (c & H1 & H2 & _ & _ & H3 & _). by exists c.
Defined.

(** ** The window of a channel the server opened *)
Definition confirm_msg (i remote window maxpacket : Z) : list Z :=
  SSH_MSG_CHANNEL_OPEN_CONFIRMATION :: STORE32H i ++ STORE32H remote ++ STORE32H window ++ STORE32H maxpacket.
Definition confirm_payload (i remote window maxpacket : Z) : buffer :=
  mkBuf (confirm_msg i remote window maxpacket) 17 1 17.
(** The next word of the payload. *)
Lemma payload_int_on {TD X} (s : @cses TD X) i c io rd wr lg v tl (Q : Z → @cses TD X → Prop) :
  io_ok io → 0 ≤ v < U32 → buf_rest (io_payload io) = STORE32H v ++ tl →
  (∀ io', io_ok io' → buf_rest (io_payload io') = tl → Q v (on s i c io' rd wr lg)) →
  twp (ses_payload buf_getint) Q (on s i c io rd wr lg).
Proof.
  intros (Hp & Hi & Hs) Hv Hrest HQ. apply twp_ses_payload.
  refine (twp_reader _ Hp buf_getint p_int _ v tl _ _); [rewrite Hrest; by apply p_int_app|].
  intros k Hk Hkf Hp3 Hrest3. cbn beta. set (io3 := io_set_payload (buf_advance (io_payload io) k) io).
  change (set_io _ _) with (on s i c io3 rd wr lg). by apply HQ.
Qed.
Lemma update_channel_prio_ok {TD X} (s : @cses TD X) : ∃ evs pr, Forall no_write evs ∧
  update_channel_prio s = Ok (tt, set_socket_prio pr (set_fd_log (fd_log s ++ evs) s)).
Proof.
  assert (Hid : ∃ evs pr, Forall no_write evs ∧ Ok (tt, s) = Ok (tt, set_socket_prio pr (set_fd_log (fd_log s ++ evs) s))).
  { exists [], (socket_prio s). rewrite app_nil_r. by destruct s. }
  unfold update_channel_prio. erewrite bind_ok by done. case_if; [exact Hid|].
  destruct (channel_prio_loop _ _ _) as [any pr0]. case_decide; [exact Hid|].
  set (pr := if any then pr0 else DROPBEAR_PRIO_LOWDELAY).
  exists [EvPriority (cs_sock_out s) pr], pr. split; [by repeat constructor|done].
Qed.

(** The window the peer announces when it confirms a channel the server
    opened is taken as it is, not limited to [TRANS_MAX_WINDOW], so a later
    adjustment can exceed 32 bits: it wraps around, and the window the server
    believes in becomes smaller than before the peer granted more. *)
Theorem window_adjust_wraps {TD X} recv_window (types : list (@ChanType TD X)) (s : @cses TD X)
    i c t remote window maxpacket incr :
  0 ≤ i < U32 → chan_at s i c → chan_wf recv_window types i c → io_ok (cs_io s) → await_open c = true →
  types !! type c = Some t → inithandler t = None →
  0 ≤ remote < U32 → 0 ≤ window < U32 → 0 ≤ maxpacket < U32 → 0 ≤ incr ≤ TRANS_MAX_WIN_INCR →
  U32 ≤ window + incr →
  ∃ s' c', (ses_payload (put (confirm_payload i remote window maxpacket));;
            recv_msg_channel_open_confirmation types;; drain_op types i (Adjust incr)) s = Ok (tt, s') ∧
    chan_at s' i c' ∧ transwindow c' = window + incr - U32 ∧ transwindow c' < window.
Proof.
  intros Hi Hat Hc Hio Hao Ht Hinit Hr Hw Hm Hincr Hover.
  assert (Hgo : twp (ses_payload (put (confirm_payload i remote window maxpacket));;
            recv_msg_channel_open_confirmation types;; drain_op types i (Adjust incr))
    (λ _ s', ∃ c', chan_at s' i c' ∧ transwindow c' = window + incr - U32 ∧ transwindow c' < window) s).
  2: { apply twp_iff in Hgo as ([] & s' & E & c' & H). by exists s', c'. }
  refine (eq_ind_r (λ x, twp _ _ x) _ (on_start s i c Hat)).
  destruct Hio as (_ & Hidle & Hsz). twp_step. eapply twp_ok; [by apply payload_on|]. set (io1 := io_set_payload _ _).
  assert (Hio1 : io_ok io1).
  { split; [|done]. split; cbn -[STORE32H]; unfold BUF_MAX_SIZE; try done; try lia.
    constructor; [done|]. rewrite !Forall_app. split_and!; apply STORE32H_bytes. }
  twp_step. unfold recv_msg_channel_open_confirmation, getchannel. twp_step.
  eapply (getchannel_on s i c Hat _ c io1 _ _ _ (STORE32H remote ++ STORE32H window ++ STORE32H maxpacket)); [done..|].
  intros io2 Hio2 _ Hr2. twp_step. eapply twp_ok; [by eapply getchan_on|]. rewrite Hao; cbn [negb].
  twp_step. eapply twp_ok; [by eapply updchan_on|].
  twp_step. eapply (payload_int_on _ _ _ _ _ _ _ remote); [done|done|exact Hr2|]. intros io3 Hio3 Hr3. twp_step. eapply twp_ok; [by eapply updchan_on|].
  twp_step. eapply (payload_int_on _ _ _ _ _ _ _ window); [done|done|exact Hr3|]. intros io4 Hio4 Hr4. twp_step. eapply twp_ok; [by eapply updchan_on|].
  twp_step. eapply (payload_int_on _ _ _ _ _ _ _ maxpacket []); [done|done|rewrite Hr4; by rewrite app_nil_r|]. intros io5 Hio5 Hr5.
  twp_step. eapply twp_ok; [by eapply updchan_on|]. set (c5 := set_transmaxpacket _ _).
  twp_step. eapply twp_ok; [unfold chantype; by rewrite Ht|]. rewrite Hinit. do 2 twp_step. change (0 >? 0) with false. cbn beta iota.
  twp_step. unfold unset_early. twp_step. eapply twp_ok; [by eapply getchan_on|]. eapply twp_ok; [by eapply when_updchan_on|].
  match goal with |- twp _ _ (on s i ?c _ _ _ _) => set (c6 := c) end.
  assert (H6 : transwindow c6 = window) by (unfold c6, c5; by case_if).
  match goal with |- twp _ _ ?s => destruct (update_channel_prio_ok s) as (evs & pr & _ & E) end.
  eapply twp_ok; [exact E|]. match goal with |- twp _ _ ?st => set (s7 := st) end.
  assert (H7 : chan_at s7 i c6) by (apply (chan_at_on s i c Hat)).
  refine (eq_ind_r (λ x, twp _ _ x) _ (on_start s7 i c6 H7)).
  eapply adjust_window_on; [done..|unfold TRANS_MAX_WIN_INCR, U32 in *; lia|]. intros io8 _ _. eexists.
  split; [by eapply chan_at_on|]. cbn [transwindow set_transwindow]. rewrite H6.
  rewrite (Z.min_l incr) by lia. unfold u32, TRANS_MAX_WIN_INCR, TRANS_MAX_WINDOW in *.
  rewrite <- (Z_mod_plus_full _ (-1)), Z.mod_small by (unfold U32 in *; lia). unfold U32 in *. lia.
Qed.
Lemma window_adjust_wraps_witness :
  let s := wit_ses (set_await_open true wit_chan) [] [] in
  ∃ s' c', (ses_payload (put (confirm_payload 0 5 4294967295 32));;
            recv_msg_channel_open_confirmation [wit_type];; drain_op [wit_type] 0 (Adjust 10)) s = Ok (tt, s') ∧
    chan_at s' 0 c' ∧ transwindow c' = 9 ∧ transwindow c' < 4294967295.
Proof.
  apply (window_adjust_wraps 24 [wit_type] (wit_ses (set_await_open true wit_chan) [] []) 0 (set_await_open true wit_chan) wit_type);
    [unfold U32; lia|done| |apply wit_io_ok|done..|unfold U32, TRANS_MAX_WIN_INCR; lia|
     unfold U32, TRANS_MAX_WIN_INCR; lia|unfold U32, TRANS_MAX_WIN_INCR; lia|unfold U32, TRANS_MAX_WIN_INCR; lia|
     unfold U32, TRANS_MAX_WIN_INCR; lia].
  destruct wit_chan_wf. by split.
Defined.
