(* ===== verification/ChannelSafe.v ===== *)
(** * Safety of the channel code

    Whatever packets arrive and whatever the descriptors do, the channel code
    uses no channel it has removed, reads and writes no buffer outside its
    allocation and keeps its table: the invariant [cinv], that every handler
    and [channelio] preserve, provided the callbacks of the channel types do. *)
From S2P Require Import Prelude Ssh Buffer BufferProps CircBuffer Packet Session Algo Channel ChannelProps.

Lemma twp_wp {S A} (m : M S A) Q s : twp m Q s → wp m Q s.
Proof. unfold twp, wp. by destruct (m s) as [[]| |]. Qed.

Section safe.
Context {TD X : Type}.
Variable recv_window : Z.
Variable types : list (@ChanType TD X).
Variable chantypes : list nat.
Variable handle_listeners : list Z → M (@cses TD X) ().
(** What the callbacks keep between what is attached to the channels and the
    rest of the session. *)
Variable J : list (option (nat * option TD)) → X → Prop.
Abbreviation cst := (@cses TD X).
Abbreviation chan := (@Channel TD).
Abbreviation chan_wf := (chan_wf recv_window types).
Implicit Types (s : cst) (c : chan) (i : Z).

(** ** The invariant *)
Definition used_slots (l : list (option chan)) : Z := zlen (omap id l).
Definition owners (l : list (option chan)) : list (option (nat * option TD)) := fmap (M := list) (fmap (M := option) owner) l.
(** A connection in progress belongs to the channel in the table that waits for
    it, and a channel waits for a connection that was not freed; a channel the
    server opened waits for the peer's reply only. *)
Record linked (l : list (option chan)) (q : list conn_cb) : Prop := {
  lk_conn : ∀ (p : nat) i, q !! p = Some (CbChannel i) →
    0 ≤ i ∧ ∃ c, l !! Z.to_nat i = Some (Some c) ∧ conn_pending c = Some (Z.of_nat p);
  lk_pending : ∀ (j : nat) c p, l !! j = Some (Some c) → conn_pending c = Some p →
    0 ≤ p ∧ q !! Z.to_nat p = Some (CbChannel (Z.of_nat j));
  lk_await : ∀ (j : nat) c, l !! j = Some (Some c) → await_open c = true → conn_pending c = None
}.
(** What a change of a channel keeps. *)
Definition kept c' c : Prop := owner c' = owner c ∧ conn_pending c' = conn_pending c ∧ (await_open c' = true → await_open c = true).
Record table_inv s : Prop := {
  ci_io : io_ok (cs_io s);
  ci_reads : rd_ok (fd_reads s);
  ci_chans : ∀ j c, channels s !! j = Some (Some c) → chan_wf (Z.of_nat j) c ∧ extrabuf c = None;
  ci_size : zlen (channels s) < MAX_CHANNELS + CHAN_EXTEND_SIZE;
  ci_count : chancount s = used_slots (channels s);
  ci_linked : linked (channels s) (pending_conns s)
}.
Record cinv s : Prop := {
  ci_table :> table_inv s;
  ci_client : J (owners (channels s)) (cs_rest s)
}.
(** A pointer to a channel of the type [ty] that is still there. *)
Definition present_as (ty : nat) i s : Prop := ∃ c, chan_at s i c ∧ type c = ty.
(** One that waits for nothing. *)
Definition idle_as (ty : nat) i s : Prop := ∃ c, chan_at s i c ∧ type c = ty ∧ conn_pending c = None ∧ await_open c = false.

(** A routine that works on a channel of the type [ty] and leaves it in the
    table. *)
Definition safe_as {A} (ty : nat) i (m : M cst A) : Prop :=
  ∀ s, cinv s → present_as ty i s → wp m (λ _ s', cinv s' ∧ present_as ty i s') s.
Definition safe {A} (m : M cst A) : Prop := ∀ s, cinv s → wp m (λ _ s', cinv s') s.
(** What [cleanup] leaves: the invariant of the callbacks without the channel. *)
Definition dropped (ty : nat) i s : Prop :=
  table_inv s ∧ present_as ty i s ∧ J (<[Z.to_nat i := None]> (owners (channels s))) (cs_rest s).
(** What [newchannel] leaves for [inithandler]: a channel with nothing attached
    that the invariant of the callbacks does not count yet. *)
Definition fresh (ty : nat) i s : Prop :=
  table_inv s ∧ (∃ c, chan_at s i c ∧ owner c = (ty, None) ∧ conn_pending c = None ∧ await_open c = false) ∧ J (<[Z.to_nat i := None]> (owners (channels s))) (cs_rest s).
(** A type of channel that may be in the table before it is initialised, as one
    that the server opens is. *)
Definition can_open (ty : nat) : Prop := ∀ l x k, J l x → l !! k = Some None → J (<[k := Some (ty, None)]> l) x.
(** The invariant of the callbacks allows new channels of the types that need
    no initialisation, and removed channels of the types that need no cleanup. *)
Record client_laws : Prop := {
  J_new ty t : types !! ty = Some t → inithandler t = None → can_open ty;
  J_grow l x n : J l x → J (l ++ replicate n None) x;
  J_drop l x k ty td t : J l x → l !! k = Some (Some (ty, td)) → types !! ty = Some t → cleanup t = None → J (<[k := None]> l) x
}.
Lemma owners_insert l (j : nat) c c' : l !! j = Some (Some c) → owner c' = owner c → owners (<[j := Some c']> l) = owners l.
Proof.
  intros Hl Ho. unfold owners. rewrite list_fmap_insert. cbn. rewrite Ho. apply list_insert_id. rewrite list_lookup_fmap, Hl. done.
Qed.

(** ** Links *)
Lemma links_kept c' c : links c' = links c → kept c' c.
Proof. intros [= H1 H2 Hp Ha]. unfold kept, owner. rewrite Hp, Ha. by split; [congruence|]. Qed.
Lemma idle_present ty i s : idle_as ty i s → present_as ty i s.
Proof. intros (c & ? & ? & _). by exists c. Qed.
Ltac at_slot := repeat match goal with
  | H : <[_ := _]> _ !! _ = Some _ |- _ => apply list_lookup_insert_Some in H as [(? & ? & ?)|(? & Hold)]; simplify_eq
  end.
Lemma linked_kept l q (j : nat) c c' : linked l q → l !! j = Some (Some c) →
  conn_pending c' = conn_pending c → (await_open c' = true → await_open c = true) → linked (<[j := Some c']> l) q.
Proof.
  intros [H1 H2 H3] Hj Hp Ha. split.
  - intros p i Hq. destruct (H1 p i Hq) as (Hi & c2 & Hc2 & Hp2). split; [done|]. destruct (decide (Z.to_nat i = j)) as [E|E].
    + exists c'. rewrite E in *. rewrite list_lookup_insert_eq by (by eapply lookup_lt_Some). split; [done|]. congruence.
    + exists c2. by rewrite list_lookup_insert_ne.
  - intros k c2 p Hk Hp2. at_slot; [|by eauto]. rewrite Hp in Hp2. by eauto.
  - intros k c2 Hk Ha2. at_slot; [|by eauto]. rewrite Hp. by eauto.
Qed.
Lemma linked_grow l q n : linked l q → linked (l ++ replicate n None) q.
Proof.
  assert (Hold : ∀ k c, (l ++ replicate n None) !! k = Some (Some c) → l !! k = Some (Some c)).
  { intros k c [?|[_ [? _]%lookup_replicate]]%lookup_app_Some; done. }
  intros [H1 H2 H3]. split.
  - intros p i Hq. destruct (H1 p i Hq) as (Hi & c & Hc & Hp). split; [done|]. exists c. split; [by apply lookup_app_l_Some|done].
  - intros k c p Hk%Hold. by eauto.
  - intros k c Hk%Hold. by eauto.
Qed.
Lemma linked_new l q (j : nat) c : linked l q → l !! j = Some None → conn_pending c = None → linked (<[j := Some c]> l) q.
Proof.
  intros [H1 H2 H3] Hj Hp. split.
  - intros p i Hq. destruct (H1 p i Hq) as (Hi & c2 & Hc2 & Hp2). split; [done|]. exists c2.
    rewrite list_lookup_insert_ne; [done|]. intros ->. congruence.
  - intros k c2 p Hk Hp2. at_slot. by eauto.
  - intros k c2 Hk Ha2. at_slot; [done|by eauto].
Qed.
(** A connection is started for a channel that waits for nothing. *)
Lemma linked_start l q (j : nat) c : linked l q → l !! j = Some (Some c) → conn_pending c = None → await_open c = false →
  linked (<[j := Some (set_conn_pending (Some (zlen q)) c)]> l) (q ++ [CbChannel (Z.of_nat j)]).
Proof.
  intros [H1 H2 H3] Hj Hn Ha. pose proof (lookup_lt_Some _ _ _ Hj) as Hlt. split.
  - intros p i [Hq|[Hlen Hq]]%lookup_app_Some.
    + destruct (H1 p i Hq) as (Hi & c2 & Hc2 & Hp2). split; [done|]. exists c2. rewrite list_lookup_insert_ne; [done|]. intros ->. congruence.
    + apply list_lookup_singleton_Some in Hq as [Hp [= <-]]. split; [lia|]. rewrite Nat2Z.id. eexists.
      rewrite list_lookup_insert_eq by done. split; [done|]. cbn. f_equal. lia.
  - intros k c2 p Hk Hp2. at_slot.
    + injection Hp2 as <-. split; [lia|]. rewrite Nat2Z.id, lookup_app_r, Nat.sub_diag by lia. done.
    + destruct (H2 _ _ _ Hold Hp2). split; [done|]. by apply lookup_app_l_Some.
  - intros k c2 Hk Ha2. at_slot; [|by eauto]. cbn in Ha2. congruence.
Qed.
(** The channel goes; the connection it waits for is cancelled. *)
Definition cancelled (o : option Z) (q : list conn_cb) : list conn_cb :=
  match o with Some p => <[Z.to_nat p := CbCancelled]> q | None => q end.
Lemma linked_remove l q (j : nat) c : linked l q → l !! j = Some (Some c) →
  linked (<[j := None]> l) (cancelled (conn_pending c) q).
Proof.
  intros [H1 H2 H3] Hj. assert (Hq : ∀ p i, cancelled (conn_pending c) q !! p = Some (CbChannel i) →
    q !! p = Some (CbChannel i) ∧ conn_pending c ≠ Some (Z.of_nat p)).
  { intros p i. unfold cancelled. destruct (conn_pending c) as [p'|] eqn:E; [|done]. destruct (H2 _ _ _ Hj E) as [Hp' _].
    intros Hi. at_slot. split; [done|]. intros [= ->]. lia. }
  split.
  - intros p i [Hp Hne]%Hq. destruct (H1 p i Hp) as (Hi & c2 & Hc2 & Hp2). split; [done|]. exists c2.
    rewrite list_lookup_insert_ne; [done|]. intros ->. congruence.
  - intros k c2 p Hk Hp2. at_slot. destruct (H2 _ _ _ Hold Hp2) as [Hp Hc2]. split; [done|].
    unfold cancelled. destruct (conn_pending c) as [p'|] eqn:E; [|done]. destruct (H2 _ _ _ Hj E) as [Hp' Hc'].
    rewrite list_lookup_insert_ne; [done|]. intros E'. rewrite <- E' in Hc2. rewrite Hc' in Hc2. injection Hc2. lia.
  - intros k c2 Hk Ha2. at_slot. by eauto.
Qed.
(** The connection of a channel is there. *)
Lemma linked_settled l q (j : nat) c c' p : linked l q → l !! j = Some (Some c) → conn_pending c = Some p →
  conn_pending c' = None → linked (<[j := Some c']> l) (<[Z.to_nat p := ConnFreed]> q).
Proof.
  intros [H1 H2 H3] Hj Hp Hn. destruct (H2 _ _ _ Hj Hp) as [Hp0 Hcb]. split.
  - intros p2 i Hq. at_slot. destruct (H1 p2 i Hold) as (Hi & c2 & Hc2 & Hp2). split; [done|]. exists c2.
    rewrite list_lookup_insert_ne; [done|]. intros ->. rewrite Hj in Hc2. injection Hc2 as <-. rewrite Hp in Hp2. injection Hp2. lia.
  - intros k c2 p2 Hk Hp2. at_slot. destruct (H2 _ _ _ Hold Hp2) as [Hp3 Hc3]. split; [done|].
    rewrite list_lookup_insert_ne; [done|]. intros E. rewrite <- E, Hcb in Hc3. injection Hc3. lia.
  - intros k c2 Hk Ha2. at_slot; [done|by eauto].
Qed.
Lemma linked_freed l q (p : nat) : linked l q → q !! p = Some CbCancelled → linked l (<[p := ConnFreed]> q).
Proof.
  intros [H1 H2 H3] Hq. split; [| |done].
  - intros p2 i Hp2. at_slot. by eauto.
  - intros k c p2 Hk Hp2. destruct (H2 _ _ _ Hk Hp2). split; [done|]. rewrite list_lookup_insert_ne; [done|]. intros ->. congruence.
Qed.

Hypothesis Hrw : 0 < recv_window ≤ MAX_CBUF_SIZE.
Section one_type.
Variable ty : nat.
Abbreviation present := (present_as ty).
Abbreviation safe_on := (safe_as ty).

Lemma safe_on_bind {A B} i (m : M cst A) (f : A → M cst B) :
  safe_on i m → (∀ a, safe_on i (f a)) → safe_on i (m ≫= f).
Proof. intros Hm Hf s Hs Hp. apply wp_bind. eapply wp_mono; [by apply Hm|]. intros a s' [? ?]. by apply Hf. Qed.
Lemma safe_on_ret {A} i (a : A) : safe_on i (mret a).
Proof. by intros s Hs Hp. Qed.
Lemma safe_on_exit {A} i e : safe_on i (@dropbear_exit cst A e).
Proof. done. Qed.
Lemma safe_on_if {A} i (b : bool) (m1 m2 : M cst A) : (b = true → safe_on i m1) → (b = false → safe_on i m2) →
  safe_on i (if b then m1 else m2).
Proof. by destruct b; auto. Qed.
Lemma safe_on_when i (b : bool) (m : M cst ()) : (b = true → safe_on i m) → safe_on i (when b m).
Proof. destruct b; [auto|]. intros _. apply safe_on_ret. Qed.
Lemma safe_on_assert i b : safe_on i (dropbear_assert b).
Proof. intros s Hs Hp. by apply wp_assert. Qed.
(** Reading the channel: the continuation sees a well-formed channel. *)
Lemma safe_on_getchan {A} i (f : chan → M cst A) :
  (∀ c, chan_wf i c → extrabuf c = None → safe_on i (f c)) → safe_on i (getchan i ≫= f).
Proof.
  intros Hf s Hs Hp. pose proof Hp as (c & Hc & _). pose proof Hc as [Hi Hl]. apply wp_bind.
  eapply wp_ok; [rewrite (on_start s i c Hc) at 1; by eapply getchan_on|]. rewrite <- (on_start s i c Hc).
  destruct (ci_chans _ Hs _ _ Hl) as [? ?]. rewrite Z2Nat.id in * by done. by apply Hf.
Qed.
(** Reading the channel and its type. *)
Lemma safe_on_gettype {A} i (f : chan → ChanType → M cst A) :
  (∀ c t, chan_wf i c → types !! ty = Some t → safe_on i (f c t)) → safe_on i (c ← getchan i; t ← chantype types c; f c t).
Proof.
  intros Hf s Hs Hp. pose proof Hp as (c & Hc & Hty). pose proof Hc as [Hi Hl]. apply wp_bind.
  eapply wp_ok; [rewrite (on_start s i c Hc) at 1; by eapply getchan_on|]. rewrite <- (on_start s i c Hc).
  destruct (ci_chans _ Hs _ _ Hl) as [Hw ?]. rewrite Z2Nat.id in * by done. destruct (cw_type _ _ _ _ Hw) as [t Ht].
  apply wp_bind. eapply wp_ok; [unfold chantype; by rewrite Ht|]. rewrite Hty in Ht. by apply Hf.
Qed.

(** A change of one channel and of the messages that keeps both well formed. *)
Lemma used_slots_insert l (j : nat) c c' : l !! j = Some (Some c) → used_slots (<[j := Some c']> l) = used_slots l.
Proof.
  unfold used_slots. intros Hj. f_equal. revert j Hj.
  induction l as [|o l IH]; intros [|j] Hj; [done..| |]; cbn in *.
  - by injection Hj as ->.
  - specialize (IH j Hj). destruct o; cbn; [by f_equal|done].
Qed.
Lemma cinv_on s i c c' io rd wr lg : cinv s → chan_at s i c → type c = ty → kept c' c → chan_wf i c' → extrabuf c' = None → io_ok io → rd_ok rd →
  cinv (on s i c' io rd wr lg) ∧ present i (on s i c' io rd wr lg).
Proof.
  intros [[H1 H2 H3 H4 H5 H7] H6] Hat Hty Hk Hc' He Hio Hrd. pose proof Hk as [Ho _]. split; [|exists c'; split; [by eapply chan_at_on|by injection Ho; congruence]].
  destruct Hat as [Hi Hl]. split; [|cbn; by rewrite (owners_insert _ _ c)]. split; cbn; try done.
  - intros j c2 Hj. destruct (decide (j = Z.to_nat i)) as [->|Hne].
    + rewrite list_lookup_insert_eq in Hj by (by eapply lookup_lt_Some). injection Hj as <-. by rewrite Z2Nat.id.
    + rewrite list_lookup_insert_ne in Hj by done. by apply H3.
  - by rewrite length_insert.
  - rewrite H5. symmetry. by eapply used_slots_insert.
  - destruct Hk as (_ & ? & ?). by eapply linked_kept.
Qed.
Lemma safe_on_updchan i f : (∀ c, kept (f c) c) → (∀ c, chan_wf i c → extrabuf c = None → chan_wf i (f c) ∧ extrabuf (f c) = None) →
  safe_on i (updchan i f).
Proof.
  intros Ho Hf s Hs (c & Hc & Hty). pose proof Hc as [Hi Hl].
  destruct (ci_chans _ Hs _ _ Hl) as [Hw He]. rewrite Z2Nat.id in Hw by done.
  eapply wp_ok; [rewrite (on_start s i c Hc) at 1; by eapply updchan_on|].
  destruct (Hf c Hw He). eapply cinv_on; [done..|apply Hs|apply Hs].
Qed.
(** ** Payload and messages *)
Lemma present_io i io s : present i s → present i (set_io io s).
Proof. done. Qed.
Lemma cinv_io io s : cinv s → io_ok io → cinv (set_io io s).
Proof. intros [[] ?] ?. by split; [split|]. Qed.

Lemma safe_payload {A} (m : M buffer A) (P : A → Prop) (Q : A → cst → Prop) s :
  cinv s → (∀ b, buf_wf b → wp m (λ a b', buf_wf b' ∧ P a) b) →
  (∀ a s', cinv s' → P a → channels s' = channels s → Q a s') → wp (ses_payload m) Q s.
Proof.
  intros Hs Hm HQ. apply wp_ses_payload. pose proof (ci_io _ Hs) as (Hp & Hi & Hz).
  eapply wp_mono; [by apply Hm|]. cbn. intros a b' [Hb' Ha]. apply HQ; [|done|done].
  apply cinv_io; [done|]. by split.
Qed.
Lemma safe_on_payload {A B} i (m : M buffer A) p (f : A → M cst B) : Reader m p →
  (∀ a, (∃ l tl, p l = Some (a, tl)) → safe_on i (f a)) → safe_on i (ses_payload m ≫= f).
Proof.
  intros Hr Hf s Hs (c & Hat & Hty). apply wp_bind.
  apply (safe_payload m (λ a, ∃ l tl, p l = Some (a, tl))); [done| |].
  - intros b Hb. eapply reader_wp; [done..|]. intros v n _ _ Hw Hp. eauto.
  - intros a s' Hs' Ha Hch. apply Hf; [done..|]. exists c. destruct Hat. split; [split; [done|by rewrite Hch]|done].
Qed.
Lemma safe_on_keeps {A} i (m : M buffer A) : (∀ b, buf_wf b → wp m (λ _ b', buf_wf b') b) →
  safe_on i (ses_payload m).
Proof.
  intros Hk s Hs (c & Hat & Hty). apply (safe_payload m (λ _, True)); [done| |].
  - intros b Hb. eapply wp_mono; [by apply Hk|]. done.
  - intros a s' Hs' _ Hch. split; [done|]. exists c. destruct Hat. split; [split; [done|by rewrite Hch]|done].
Qed.

(** A whole message; one that does not fit ends the session. *)
Lemma wp_send_io op enc s (Q : () → cst → Prop) : Writer op enc → enc ≠ [] → io_ok (cs_io s) →
  (∀ io', io_ok io' → Q tt (set_io io' s)) → wp (ses_write op;; encrypt_msg) Q s.
Proof.
  intros Hw Hne Hio HQ. pose proof Hio as (Hp & Hi & Hz).
  destruct (Z.leb_spec (zlen enc) (buf_size (io_writepayload (cs_io s)))).
  - apply twp_wp. eapply twp_send; [done..|]. intros w ? ? Hsz. apply HQ. split; [done|]. split; [done|].
    cbn. by rewrite Hsz.
  - apply wp_bind. unfold ses_write. do 2 apply wp_zoom. destruct Hi as [Hwf He].
    pose proof (writer_appends (op := op) (enc := enc) _ Hwf) as Ha. specialize (Ha ltac:(buf_facts; lia)).
    rewrite He, (proj2 (Z.leb_gt _ _)) in Ha by lia. destruct Ha as (e & Ha).
    unfold wp. change (io_writepayload (get_io s)) with (io_writepayload (cs_io s)). by rewrite Ha.
Qed.
Lemma wp_send op enc s (Q : () → cst → Prop) : Writer op enc → enc ≠ [] → cinv s →
  (∀ io', io_ok io' → Q tt (set_io io' s)) → wp (ses_write op;; encrypt_msg) Q s.
Proof. intros Hw Hne Hs. by eapply wp_send_io; [..|apply Hs]. Qed.
Lemma safe_on_send i op enc : Writer op enc → enc ≠ [] → safe_on i (ses_write op;; encrypt_msg).
Proof.
  intros Hw Hne s Hs (c & Hat & Hty). eapply wp_send; [done..|]. intros io' Hio'.
  split; [by apply cinv_io|by exists c].
Qed.
Lemma safe_on_send_then {A} i op enc (k : M cst A) : Writer op enc → enc ≠ [] → safe_on i k →
  safe_on i (ses_write op ≫= λ _, encrypt_msg ≫= λ _, k).
Proof.
  intros Hw Hne Hk s Hs Hp. eapply wp_ext; [symmetry; apply (bind_assoc (ses_write op) (λ _, encrypt_msg) (λ _, k))|].
  by apply (safe_on_bind i (ses_write op;; encrypt_msg) (λ _, k)); [eapply safe_on_send| |..].
Qed.
Lemma safe_send op enc : Writer op enc → enc ≠ [] → safe (ses_write op;; encrypt_msg).
Proof. intros Hw Hne s Hs. eapply wp_send; [done..|]. intros io' Hio'. by apply cinv_io. Qed.

(** ** The channel's own routines *)
Lemma safe_on_chantype {A} i c (f : ChanType → M cst A) : chan_wf i c →
  (∀ t, types !! type c = Some t → safe_on i (f t)) → safe_on i (chantype types c ≫= f).
Proof.
  intros Hc Hf s Hs Hp. destruct (cw_type _ _ _ _ Hc) as [t Ht]. apply wp_bind.
  eapply wp_ok; [unfold chantype; by rewrite Ht|]. by apply Hf.
Qed.
(** From an exact run on one channel. *)
Lemma safe_on_run {A} i (m : M cst A) :
  (∀ s c t, cinv s → chan_at s i c → type c = ty → chan_wf i c → extrabuf c = None → types !! type c = Some t →
     wp m (λ _ s', cinv s' ∧ present i s') (on s i c (cs_io s) (fd_reads s) (fd_writes s) (fd_log s))) →
  safe_on i m.
Proof.
  intros Hm s Hs (c & Hat & Hty). pose proof Hat as [Hi Hl]. destruct (ci_chans _ Hs _ _ Hl) as [Hw He].
  rewrite Z2Nat.id in Hw by done. destruct (cw_type _ _ _ _ Hw) as [t Ht].
  refine (eq_ind_r (λ x, wp _ _ x) _ (on_start s i c Hat)). by eapply Hm.
Qed.
Lemma safe_on_close_fd i fd how : safe_on i (close_chan_fd types i fd how).
Proof.
  apply safe_on_run. intros s c t Hs Hat Hty Hc He Ht.
  destruct (close_chan_fd_on types s i c Hat t fd how c (cs_io s) (fd_reads s) (fd_writes s) (fd_log s) Ht) as (evs & _ & E).
  eapply wp_ok; [exact E|]. eapply cinv_on; [done..|apply links_kept, closed_chan_links|by apply closed_chan_wf|by rewrite closed_chan_extra|apply Hs|apply Hs].
Qed.
Lemma safe_on_send_data i ext : safe_on i (send_msg_channel_data types i ext).
Proof.
  apply safe_on_run. intros s c t Hs Hat Hty Hc He Ht.
  assert (Hcase : (sent_close c = false ∧ 0 ≤ (if ext then errfd c else readfd c)) ∨
                  sent_close c = true ∨ (if ext then errfd c else readfd c) < 0).
  { destruct (sent_close c); [by right; left|]. destruct (Z.lt_ge_cases (if ext then errfd c else readfd c) 0); auto. }
  destruct Hcase as [[Hsc Hfd]|Hbad].
  - apply twp_wp. eapply (send_data_on recv_window types s i c Hat ext c t); [done..|apply Hs|apply Hs|done|done|].
    intros d c' io' rd' evs c1 Hc' Hrd' _ Hcc [Hok _ _] _ _ _.
    eapply cinv_on; [done..| |done| |done|done]; destruct Hcc as [->| ->]; try done; [apply links_kept; by rewrite closed_chan_links|by rewrite closed_chan_extra].
  - unfold send_msg_channel_data. wp_step. eapply wp_ok; [by eapply getchan_on|].
    do 2 wp_step. wp_step. wp_step. exfalso. destruct Hbad as [Hb|Hb]; [by rewrite Hb in *|lia].
Qed.
Lemma safe_on_writechannel i : safe_on i (c ← getchan i; writechannel recv_window types i (writefd c) false).
Proof.
  apply safe_on_run. intros s c t Hs Hat Hty Hc He Ht. apply twp_wp. twp_step. eapply twp_ok; [by eapply getchan_on|].
  eapply (writechannel_on recv_window types Hrw s i c Hat c t); [done..|apply Hs| |].
  - intros n io' wr' evs Hn _ _ [Hok _ _]. eapply cinv_on; [done..| | | |done|apply Hs].
    + unfold extended. by case_if.
    + by apply extended_wf, fed_wf.
    + unfold extended. by case_if.
  - intros c' io' wr' evs _ _ Hc' Hex Ho%links_kept (ms & [Hok _ _]). eapply cinv_on; [done..|by rewrite Hex|done|apply Hs].
Qed.

(** What the peer sends as data is either the data of a packet within the
    window, or ends the session, or is dropped. *)
Lemma safe_on_recv_data i : safe_on i (c ← getchan i; common_recv_msg_channel_data recv_window types i (writefd c) false).
Proof.
  apply safe_on_run. intros s c t Hs Hat Hty Hc He Ht. wp_step. eapply wp_ok; [by eapply getchan_on|].
  pose proof (ci_io _ Hs) as Hio. pose proof Hio as (Hp & Hidle & Hsz).
  assert (Hstay : cinv (on s i c (cs_io s) (fd_reads s) (fd_writes s) (fd_log s)) ∧
                  present i (on s i c (cs_io s) (fd_reads s) (fd_writes s) (fd_log s))).
  { eapply cinv_on; [done..|apply Hs]. }
  destruct (p_int (buf_rest (io_payload (cs_io s)))) as [[n tl]|] eqn:Ep.
  destruct (decide (recv_eof c = false ∧ 0 ≤ writefd c ∧ n ≤ recvwindow c ∧ n ≤ zlen tl)) as [(Heof & Hfd & Hn & Hl)|Hbad].
  - apply twp_wp. pose proof (p_int_range _ _ _ Ep) as Hn0.
    set (data := take (Z.to_nat n) tl). assert (Hd : zlen data = n) by (unfold data; rewrite length_take; lia).
    eapply (recv_data_on recv_window types Hrw s i c Hat c t _ _ _ _ data (drop (Z.to_nat n) tl)); [done..| | | |].
    + rewrite Hd. unfold data. rewrite take_drop. apply p_int_inv; [|done]. by apply buf_rest_bytes.
    + by rewrite Hd.
    + intros c' io' wr' evs grants Hc' Hio' _ _ _ Hdl. destruct (dl_kept _ _ _ _ _ _ Hdl) as (_ & _ & _ & Ho%links_kept & Hx).
      eapply cinv_on; [done..|by rewrite Hx|done|apply Hs].
    + intros c' io' wr' evs _ _ Hc' Hex Ho%links_kept Hio'. eapply cinv_on; [done..|by rewrite Hex|done|apply Hs].
  - unfold common_recv_msg_channel_data. wp_step. eapply wp_ok; [by eapply getchan_on|].
    destruct (recv_eof c) eqn:Heof; [done|]. destruct (Z.ltb_spec (writefd c) 0); [done|]. cbn [orb andb].
    wp_step. apply wp_ses_payload. eapply reader_wp; [apply _|done|]. intros v k Hk Hkf Hp1 Hv.
    change (io_payload (get_io _)) with (io_payload (cs_io s)) in Hv, Hp1 |- *. rewrite Ep in Hv. injection Hv as <- Hrest.
    cbn beta. set (io1 := io_set_payload _ _). change (set_io _ _) with (on s i c io1 (fd_reads s) (fd_writes s) (fd_log s)).
    pose proof (p_int_range _ _ _ Ep) as Hn0.
    wp_step. eapply wp_ok; [unfold getcbuf; by erewrite bind_ok by (by eapply getchan_on)|]. wp_step; [done|].
    wp_step. wp_step. wp_step. eapply wp_ok; [by eapply updchan_on|].
    wp_step. eapply wp_ok; [by eapply getchan_on|]. wp_step. wp_step. wp_step. apply wp_ses_payload.
    apply wp_getptr; [done|done|]. intros Hfit. exfalso. apply Hbad. split_and!; [done|done|lia|].
    rewrite Hrest, buf_rest_length by done. change (buf_pos _) with (buf_pos (buf_advance (io_payload (cs_io s)) k)) in Hfit.
    change (buf_len (io_payload _)) with (buf_len (buf_advance (io_payload (cs_io s)) k)) in Hfit. lia.
  - unfold common_recv_msg_channel_data. wp_step. eapply wp_ok; [by eapply getchan_on|].
    destruct (recv_eof c) eqn:Heof; [done|]. destruct (Z.ltb_spec (writefd c) 0); [done|]. cbn [orb andb].
    wp_step. apply wp_ses_payload. eapply reader_wp; [apply _|done|]. intros v k Hk Hkf Hp1 Hv.
    change (io_payload (get_io _)) with (io_payload (cs_io s)) in Hv. by rewrite Ep in Hv.
Qed.

(** ** Callbacks *)
Lemma safe_on_callback {A} i (o : option (Z → M cst A)) d : (∀ h, o = Some h → safe_on i (h i)) →
  safe_on i (match o with Some h => h i | None => mret d end).
Proof. destruct o; intros H; [by apply H|apply safe_on_ret]. Qed.

(** A field that plays no part in the invariant. *)
Definition neutral (f : chan → chan) : Prop :=
  (∀ c, kept (f c) c) ∧ ∀ i c, chan_wf i c → extrabuf c = None → chan_wf i (f c) ∧ extrabuf (f c) = None.
Lemma safe_on_upd i f : neutral f → safe_on i (updchan i f).
Proof. intros [Ho Hf]. apply safe_on_updchan; [done|]. intros c. apply Hf. Qed.
Ltac neutral := let H := fresh in split; [done|intros ? ? [] ?; split; [by split|done]].
Lemma neutral_sent_eof b : neutral (set_sent_eof b). Proof. neutral. Qed.
Lemma neutral_sent_close b : neutral (set_sent_close b). Proof. neutral. Qed.
Lemma neutral_recv_eof b : neutral (set_recv_eof b). Proof. neutral. Qed.
Lemma neutral_recv_close b : neutral (set_recv_close b). Proof. neutral. Qed.
Lemma neutral_flushing b : neutral (set_flushing b). Proof. neutral. Qed.
Lemma neutral_await_open : neutral (set_await_open false). Proof. neutral. Qed.
Lemma neutral_prio b : neutral (set_prio b). Proof. neutral. Qed.
Lemma neutral_remotechan b : neutral (set_remotechan b). Proof. neutral. Qed.
Lemma neutral_fds a b : neutral (λ c, set_readfd a (set_writefd b c)). Proof. neutral. Qed.
Lemma neutral_fds' a b : neutral (λ c, set_writefd a (set_readfd b c)). Proof. neutral. Qed.

(** Such a change keeps a channel that waits for nothing as it is. *)
Lemma updchan_at i f c s : chan_at s i c → updchan i f s = Ok (tt, on s i (f c) (cs_io s) (fd_reads s) (fd_writes s) (fd_log s)).
Proof. intros Hc. rewrite (on_start s i c Hc) at 1. by eapply updchan_on. Qed.
Lemma wp_upd_idle i f s : neutral f → cinv s → idle_as ty i s → wp (updchan i f) (λ _ s', cinv s' ∧ idle_as ty i s') s.
Proof.
  intros [Hk Hf] Hs (c & Hc & Hty & Hp & Ha). pose proof Hc as [Hi Hl]. destruct (ci_chans _ Hs _ _ Hl) as [Hw He]. rewrite Z2Nat.id in Hw by done.
  destruct (Hf i c Hw He). destruct (Hk c) as (Ho & Hp' & Ha'). eapply wp_ok; [by apply updchan_at|]. split.
  - eapply cinv_on; [done..|apply Hs|apply Hs].
  - exists (f c). split; [by eapply chan_at_on|]. injection Ho as Hty' _. split_and!; [congruence..|]. destruct (await_open (f c)); [|done]. rewrite <- Ha. by rewrite Ha'.
Qed.
(** The server waits for the peer's reply. *)
Lemma wp_upd_await i s : cinv s → idle_as ty i s → wp (updchan i (set_await_open true)) (λ _ s', cinv s' ∧ present i s') s.
Proof.
  intros [[H1 H2 H3 H4 H5 H6] H7] (c & Hc & Hty & Hp & Ha). pose proof Hc as [Hi Hl]. destruct (H3 _ _ Hl) as [Hw He].
  eapply wp_ok; [by apply updchan_at|]. split; [|by exists (set_await_open true c); split; [by eapply chan_at_on|]].
  split; [|cbn; by rewrite (owners_insert _ _ c)]. split; cbn; try done.
  - intros j c2 Hj. at_slot; [|by eauto]. split; [destruct Hw; by split|done].
  - by rewrite length_insert.
  - rewrite H5. symmetry. by eapply used_slots_insert.
  - destruct H6 as [L1 L2 L3]. split.
    + intros p k Hq. destruct (L1 p k Hq) as (Hk & c2 & Hc2 & Hp2). split; [done|]. exists c2. rewrite list_lookup_insert_ne; [done|]. intros E. rewrite E in Hl. congruence.
    + intros k c2 p Hk Hp2. at_slot; [|by eauto]. cbn in Hp2. congruence.
    + intros k c2 Hk Ha2. at_slot; [done|by eauto].
Qed.

Lemma safe_on_eof i : safe_on i (send_msg_channel_eof i).
Proof.
  apply safe_on_getchan. intros c Hc He.
  eapply safe_on_send_then; [by apply writer_msg_chan|done|]. apply safe_on_upd, neutral_sent_eof.
Qed.
Hypothesis Hclose : ∀ t h i, types !! ty = Some t → closehandler t = Some h → safe_on i (h i).
Lemma safe_on_send_close i : safe_on i (send_msg_channel_close types i).
Proof.
  apply safe_on_gettype. intros c t Hc Ht.
  apply safe_on_bind; [apply safe_on_callback; intros h Hh; by eapply Hclose|]. intros _.
  apply safe_on_getchan. intros c1 Hc1 He1. eapply safe_on_send_then; [by apply writer_msg_chan|done|].
  apply safe_on_bind; [apply safe_on_upd, neutral_sent_eof|]. intros _.
  apply safe_on_bind; [apply safe_on_upd, neutral_sent_close|]. intros _.
  apply safe_on_getchan. intros c2 _ _. apply safe_on_bind; [apply safe_on_close_fd|]. intros _.
  apply safe_on_getchan. intros c3 _ _. apply safe_on_bind; [apply safe_on_close_fd|]. intros _.
  apply safe_on_getchan. intros c4 _ _. apply safe_on_close_fd.
Qed.

(** ** Removing and creating *)
Lemma safe_log (e : fdevent) i : safe_on i (log e).
Proof. intros s [[] ?] (c & Hat & Hty). split; [by split; [split|]|by exists c]. Qed.
Lemma safe_on_m_close i fd : safe_on i (m_close fd).
Proof. unfold m_close. apply safe_on_if; intros _; [apply safe_on_ret|apply safe_log]. Qed.
Lemma safe_update_prio : safe update_channel_prio.
Proof.
  intros s [[] ?]. destruct (update_channel_prio_ok s) as (evs & pr & _ & E). eapply wp_ok; [exact E|]. by split; [split|].
Qed.
Lemma update_prio_conns s : cinv s → wp update_channel_prio (λ _ s', cinv s' ∧ pending_conns s' = pending_conns s) s.
Proof.
  intros [[] ?]. destruct (update_channel_prio_ok s) as (evs & pr & _ & E). eapply wp_ok; [exact E|]. by split; [split; [split|]|].
Qed.
Lemma m_close_conns i fd s : cinv s → present i s → wp (m_close fd) (λ _ s', (cinv s' ∧ present i s') ∧ pending_conns s' = pending_conns s) s.
Proof. intros [[] ?] (c & ?). unfold m_close. apply wp_if; intros _; (split; [|done]); (split; [by split; [split|]|by exists c]). Qed.
Lemma used_slots_remove l (j : nat) c : l !! j = Some (Some c) → used_slots (<[j := None]> l) = used_slots l - 1.
Proof.
  unfold used_slots. intros Hj. enough (length (omap id l) = S (length (omap id (<[j := None]> l)))) by lia.
  revert j Hj. induction l as [|o l IH]; intros [|j] Hj; [done..| |]; cbn in *.
  - by injection Hj as ->.
  - specialize (IH j Hj). destruct o; cbn; [by f_equal|done].
Qed.
Lemma used_slots_le l : 0 ≤ used_slots l ≤ zlen l.
Proof. unfold used_slots. split; [lia|]. enough (length (omap id l) ≤ length l)%nat by lia.
  induction l as [|[c|] l IH]; cbn; lia. Qed.
Hypothesis Hlaws : client_laws.
Hypothesis Hcleanup : ∀ t h i s, types !! ty = Some t → cleanup t = Some h → cinv s → present i s →
  wp (h i) (λ _ s', dropped ty i s' ∧ pending_conns s' = pending_conns s) s.
Lemma remove_end i s : dropped ty i s → wp (c ← getchan i;
    (match conn_pending c with Some p => cancel_pending p | None => mret tt end);;
    setchan (index c) None;; modify (λ s, set_chancount (u32 (chancount s - 1)) s);; update_channel_prio)
    (λ _ s', cinv s' ∧ ∀ p, pending_conns s !! p = Some (CbChannel i) → pending_conns s' !! p = Some CbCancelled) s.
Proof.
  intros (Hs & (c & Hat & Hty) & Hj). pose proof Hat as [Hi Hl]. wp_step.
  eapply wp_ok; [rewrite (on_start s i c Hat) at 1; by eapply getchan_on|]. rewrite <- (on_start s i c Hat).
  destruct (ci_chans _ Hs _ _ Hl) as [Hc He]. rewrite Z2Nat.id in Hc by done.
  destruct Hs as [S1 S2 S3 S4 S5 S6]. pose proof (linked_remove _ _ _ _ S6 Hl) as S7.
  wp_step. apply (wp_mono _ (λ _ s', s' = set_pending_conns (cancelled (conn_pending c) (pending_conns s)) s)).
  { destruct (conn_pending c) as [p|] eqn:Ep; [|by destruct s]. destruct (lk_pending _ _ S6 _ _ _ Hl Ep) as [Hp Hcb].
    unfold cancel_pending, getconn. do 3 wp_step. rewrite Hcb. unfold setconn. do 2 wp_step. done. }
  intros _ s1 ->. wp_step. unfold setchan. wp_step. wp_step. wp_step.
  eapply wp_mono; [apply update_prio_conns|]. 2: { intros [] s' [Hs' ->]. split; [done|]. cbn. intros p Hq.
    destruct (lk_conn _ _ S6 _ _ Hq) as (_ & c2 & Hl2 & Hp2). rewrite Hl in Hl2. injection Hl2 as <-. rewrite Hp2. cbn. rewrite Nat2Z.id.
    apply list_lookup_insert_eq. by eapply lookup_lt_Some. }
  rewrite (cw_index _ _ _ _ Hc). pose proof (used_slots_le (channels s)).
  pose proof (used_slots_remove _ _ _ Hl) as Hr. pose proof (used_slots_le (<[Z.to_nat i := None]> (channels s))).
  split; [|cbn; unfold owners in *; by rewrite list_fmap_insert]. split; cbn; try done.
  - intros j c' Hj'. destruct (decide (j = Z.to_nat i)) as [->|Hne].
    + by rewrite list_lookup_insert_eq in Hj' by (by eapply lookup_lt_Some).
    + rewrite list_lookup_insert_ne in Hj' by done. by apply S3.
  - by rewrite length_insert.
  - rewrite Hr, S5, u32_small; [lia|]. unfold MAX_CHANNELS, CHAN_EXTEND_SIZE, U32 in *. lia.
Qed.
Lemma remove_cancels i s : cinv s → present i s → wp (remove_channel types i) (λ _ s', cinv s' ∧
  ∀ p, pending_conns s !! p = Some (CbChannel i) → pending_conns s' !! p = Some CbCancelled) s.
Proof.
  intros Hs Hp. unfold remove_channel. pose proof Hp as (c & Hat & Hty). pose proof Hat as [Hi Hl].
  destruct (ci_chans _ Hs _ _ Hl) as [Hc He]. rewrite Z2Nat.id in Hc by done. set (q := pending_conns s) in *. assert (Hq : pending_conns s = q) by done.
  wp_step. eapply wp_ok; [rewrite (on_start s i c Hat) at 1; by eapply getchan_on|]. rewrite <- (on_start s i c Hat). clearbody q.
  do 3 (wp_step; eapply wp_mono; [by apply (m_close_conns i)|]; clear Hs Hp; intros _ ? [[Hs Hp] Hq']; rewrite Hq in Hq'; clear Hq; rename Hq' into Hq).
  destruct (cw_type _ _ _ _ Hc) as [t Ht]. wp_step. eapply wp_ok; [unfold chantype; by rewrite Ht|]. rewrite Hty in Ht. rewrite <- Hq.
  wp_step. eapply (wp_mono _ (λ _ s', dropped ty i s' ∧ pending_conns s' = _)); [|intros _ s4 [Hd <-]; by apply remove_end].
  destruct (cleanup t) as [h|] eqn:Eh; [by eapply Hcleanup|]. wp_step. split; [|done]. split; [apply Hs|]. split; [done|].
  destruct Hp as (c' & [_ Hat'] & Hty'). eapply (J_drop Hlaws); [apply Hs| |exact Ht|exact Eh].
  unfold owners. rewrite list_lookup_fmap, Hat'. cbn. unfold owner. by rewrite Hty'.
Qed.
Lemma safe_remove i s : cinv s → present i s → wp (remove_channel types i) (λ _ s', cinv s') s.
Proof. intros Hs Hp. eapply wp_mono; [by apply remove_cancels|]. by intros ? ? [? _]. Qed.
Lemma used_slots_add l (j : nat) c : l !! j = Some None → used_slots (<[j := Some c]> l) = used_slots l + 1.
Proof.
  unfold used_slots. intros Hj. enough (length (omap id (<[j := Some c]> l)) = S (length (omap id l))) by lia.
  revert j Hj. induction l as [|o l IH]; intros [|j] Hj; [done..| |]; cbn in *.
  - by injection Hj as ->.
  - specialize (IH j Hj). destruct o; cbn; [by f_equal|done].
Qed.
Lemma used_slots_grown s : used_slots (grown s) = used_slots (channels s).
Proof.
  unfold grown. case_if; [|done]. unfold used_slots. rewrite omap_app.
  change (omap id (replicate (Z.to_nat CHAN_EXTEND_SIZE) (@None chan))) with (@nil chan). by rewrite app_nil_r.
Qed.
Lemma grown_free s : grown s !! free_slot (channels s) = Some None.
Proof.
  destruct (free_slot_spec (channels s)) as (H1 & _ & H3). unfold grown.
  destruct (Nat.eqb_spec (free_slot (channels s)) (length (channels s))) as [E|E]; [|apply H3; lia].
  rewrite lookup_app_r by lia. by rewrite E, Nat.sub_diag.
Qed.
Lemma safe_newchannel remote twindow tmaxpacket s : cinv s → is_Some (types !! ty) → 0 ≤ twindow < U32 →
  0 ≤ tmaxpacket < U32 →
  wp (newchannel recv_window remote ty twindow tmaxpacket)
    (λ o s', match o with Some i => fresh ty i s' | None => cinv s' end) s.
Proof.
  intros [[S1 S2 S3 S4 S5 S7] S6] Ht Hw Hm. unfold wp. rewrite newchannel_eq by done. destruct (table_full s) eqn:E; [done|].
  pose proof (grown_free s) as Hf. pose proof (grown_slot s E) as Hs. set (j := free_slot (channels s)) in *.
  set (c := new_chan _ _ _ _ _ _).
  assert (Hc : chan_wf (Z.of_nat j) c) by (by apply new_chan_wf).
  assert (Hlen : zlen (grown s) < MAX_CHANNELS + CHAN_EXTEND_SIZE).
  { unfold grown, table_full in *. unfold j in *. destruct (free_slot (channels s) =? length (channels s))%nat; [|done].
    rewrite length_app, length_replicate. unfold CHAN_EXTEND_SIZE, MAX_CHANNELS in *. cbn in E. lia. }
  assert (Hat : (grown s) !! j = Some None) by done.
  split; [split; cbn; try done|split].
  - intros k c' Hk. destruct (decide (k = j)) as [->|Hne].
    + rewrite list_lookup_insert_eq in Hk by done. by injection Hk as <-.
    + rewrite list_lookup_insert_ne in Hk by done. apply S3. unfold grown in Hk.
      destruct (_ =? _)%nat; [|done].
      apply lookup_app_Some in Hk as [?|[_ Hk]]; [done|]. by apply lookup_replicate in Hk as [? _].
  - by rewrite length_insert.
  - rewrite used_slots_add, used_slots_grown, S5, u32_small; [done| |done].
    pose proof (used_slots_le (channels s)). unfold MAX_CHANNELS, CHAN_EXTEND_SIZE, U32 in *. lia.
  - apply linked_new; [|done|done]. unfold grown. destruct (_ =? _)%nat; [by apply linked_grow|done].
  - exists c. split; [|done]. split; [lia|]. rewrite Nat2Z.id. cbn. by apply list_lookup_insert_eq.
  - cbn. rewrite Nat2Z.id. unfold owners. rewrite list_fmap_insert, list_insert_insert_eq, list_insert_id by (by rewrite list_lookup_fmap, Hat).
    unfold grown. destruct (_ =? _)%nat; [|done]. rewrite fmap_app, fmap_replicate. by apply (J_grow Hlaws).
Qed.
(** A type without [inithandler]. *)
Lemma fresh_open i s : can_open ty → fresh ty i s → cinv s ∧ idle_as ty i s.
Proof.
  intros Hopen (Hs & (c & Hat & Ho & Hp & Ha) & Hj). split; [|exists c; split_and!; [done|by injection Ho|done|done]]. split; [done|].
  destruct Hat as [_ Hl]. assert (Hlk : owners (channels s) !! Z.to_nat i = Some (Some (ty, None))).
  { unfold owners. rewrite list_lookup_fmap, Hl. cbn. by rewrite Ho. }
  rewrite <- (list_insert_id _ _ _ Hlk), <- (list_insert_insert_eq (owners (channels s)) (Z.to_nat i) (Some (ty, None)) None). apply Hopen; [done|].
  apply list_lookup_insert_eq. unfold owners. rewrite length_fmap. by eapply lookup_lt_Some.
Qed.
(** Reading the channel that was just made, and its type. *)
Lemma wp_fresh_gettype {A} i (f : chan → ChanType → M cst A) (Q : A → cst → Prop) s : fresh ty i s →
  (∀ c t, types !! ty = Some t → wp (f c t) Q s) → wp (c ← getchan i; t ← chantype types c; f c t) Q s.
Proof.
  intros (Hs & (c & Hat & Ho & _) & _) Hf. injection Ho as Hty _. pose proof Hat as [Hi Hl]. wp_step.
  eapply wp_ok; [rewrite (on_start s i c Hat) at 1; by eapply getchan_on|]. rewrite <- (on_start s i c Hat).
  destruct (ci_chans _ Hs _ _ Hl) as [Hw _]. destruct (cw_type _ _ _ _ Hw) as [t Ht]. wp_step.
  eapply wp_ok; [unfold chantype; by rewrite Ht|]. rewrite Hty in Ht. by apply Hf.
Qed.

(** ** Closing *)
Hypothesis Hcheck : ∀ t h i, types !! ty = Some t → ct_check_close t = Some h → safe_on i (h i).
Lemma safe_on_type_check_close i d : safe_on i (type_check_close types i d).
Proof.
  apply safe_on_gettype. intros c t Hc Ht. apply safe_on_callback. intros h Hh. by eapply Hcheck.
Qed.
(** The step of a routine that may remove the channel at its end. *)
Lemma wp_on_bind {A B} i (m : M cst A) (f : A → M cst B) (Q : B → cst → Prop) s :
  safe_on i m → cinv s → present i s → (∀ a s', cinv s' → present i s' → wp (f a) Q s') → wp (m ≫= f) Q s.
Proof. intros Hm Hs Hp HQ. wp_step. eapply wp_mono; [by apply Hm|]. intros a s' [? ?]. by apply HQ. Qed.
Lemma wp_on_getchan {A} i (f : chan → M cst A) (Q : A → cst → Prop) s : cinv s → present i s →
  (∀ c, chan_wf i c → extrabuf c = None → wp (f c) Q s) → wp (getchan i ≫= f) Q s.
Proof.
  intros Hs (c & Hat & Hty) HQ. pose proof Hat as [Hi Hl]. wp_step.
  eapply wp_ok; [rewrite (on_start s i c Hat) at 1; by eapply getchan_on|]. rewrite <- (on_start s i c Hat).
  destruct (ci_chans _ Hs _ _ Hl) as [? ?]. rewrite Z2Nat.id in * by done. by apply HQ.
Qed.
(** Reading the channel, with what is known of its type. *)
Lemma wp_at_getchan {A} i (f : chan → M cst A) (Q : A → cst → Prop) s : cinv s → present i s →
  (∀ c, chan_at s i c → type c = ty → chan_wf i c → extrabuf c = None → wp (f c) Q s) → wp (getchan i ≫= f) Q s.
Proof.
  intros Hs (c & Hat & Hty) HQ. pose proof Hat as [Hi Hl]. wp_step.
  eapply wp_ok; [rewrite (on_start s i c Hat) at 1; by eapply getchan_on|]. rewrite <- (on_start s i c Hat).
  destruct (ci_chans _ Hs _ _ Hl) as [? ?]. rewrite Z2Nat.id in * by done. by apply HQ.
Qed.
Lemma wp_on_chantype {A} i c (f : ChanType → M cst A) (Q : A → cst → Prop) s : chan_wf i c →
  (∀ t, types !! type c = Some t → wp (f t) Q s) → wp (chantype types c ≫= f) Q s.
Proof.
  intros Hc HQ. destruct (cw_type _ _ _ _ Hc) as [t Ht]. wp_step.
  eapply wp_ok; [unfold chantype; by rewrite Ht|]. by apply HQ.
Qed.

Lemma safe_check_close i s : cinv s → present i s → wp (check_close types i) (λ _ s', cinv s') s.
Proof.
  intros Hs Hp. unfold check_close. apply wp_on_getchan; [done..|]. intros c Hc He.
  eapply wp_on_bind; [|done..|].
  { apply safe_on_if; intros _; [apply safe_on_type_check_close|apply safe_on_ret]. }
  intros fl s1 Hs1 Hp1. eapply wp_on_bind; [apply safe_on_when; intros _; apply safe_on_upd, neutral_flushing|done..|].
  intros _ s2 Hs2 Hp2. apply wp_on_getchan; [done..|]. intros c2 Hc2 He2. apply (wp_on_chantype i); [done|]. intros t Ht.
  eapply wp_on_bind; [|done..|].
  { destruct (ct_check_close t); [|apply safe_on_ret]. apply safe_on_if; intros _; [apply safe_on_ret|apply safe_on_type_check_close]. }
  intros allowed s3 Hs3 Hp3. apply wp_on_getchan; [done..|]. intros c3 Hc3 He3. apply wp_if; intros _.
  - eapply wp_on_bind; [apply safe_on_when; intros _; apply safe_on_send_close|done..|].
    intros _ s4 Hs4 Hp4. by apply safe_remove.
  - eapply (wp_mono _ (λ _ s', cinv s' ∧ present i s')); [|by intros ? ? [? ?]].
    revert s3 Hs3 Hp3. change (safe_on i (when ((recv_eof c3 && negb (write_pending c3)) ||
        (match ct_check_close t with Some _ => true | None => false end && allowed)) (close_chan_fd types i (writefd c3) SHUT_WR);;
      c ← getchan i;
      when (flushing c)
        (when ((readfd c >=? 0) && (transwindow c >? 0)) (send_msg_channel_data types i false);;
         c ← getchan i;
         when (ERRFD_IS_READ c && (errfd c >=? 0) && (transwindow c >? 0)) (send_msg_channel_data types i true));;
      c ← getchan i;
      when (negb (sent_eof c) && (readfd c =? FD_CLOSED) && (ERRFD_IS_WRITE c || (errfd c =? FD_CLOSED)))
        (send_msg_channel_eof i);;
      c ← getchan i;
      when ((readfd c =? FD_CLOSED) && (writefd c =? FD_CLOSED) && (ERRFD_IS_WRITE c || (errfd c =? FD_CLOSED))
          && negb (sent_close c) && allowed && negb (write_pending c)) (send_msg_channel_close types i))).
    apply safe_on_bind; [apply safe_on_when; intros _; apply safe_on_close_fd|]. intros _.
    apply safe_on_getchan. intros c4 _ _. apply safe_on_bind.
    { apply safe_on_when. intros _. apply safe_on_bind; [apply safe_on_when; intros _; apply safe_on_send_data|]. intros _.
      apply safe_on_getchan. intros c5 _ _. apply safe_on_when; intros _; apply safe_on_send_data. }
    intros _. apply safe_on_getchan. intros c5 _ _.
    apply safe_on_bind; [apply safe_on_when; intros _; apply safe_on_eof|]. intros _.
    apply safe_on_getchan. intros c6 _ _. apply safe_on_when; intros _; apply safe_on_send_close.
Qed.
Lemma wp_on_last {A} i (m : M cst A) s : safe_on i m → cinv s → present i s → wp m (λ _ s', cinv s') s.
Proof. intros Hm Hs Hp. eapply wp_mono; [by apply Hm|]. by intros ? ? [? ?]. Qed.
Lemma safe_on_failure i : safe_on i (send_msg_channel_failure i).
Proof.
  apply safe_on_getchan. intros c _ _. apply safe_on_if; intros _; [apply safe_on_ret|].
  eapply safe_on_send; [by apply writer_msg_chan|done].
Qed.
Lemma safe_on_success i : safe_on i (send_msg_channel_success i).
Proof.
  apply safe_on_getchan. intros c _ _. apply safe_on_if; intros _; [apply safe_on_ret|].
  eapply safe_on_send; [by apply writer_msg_chan|done].
Qed.
Lemma safe_on_unset_early i : safe_on i (unset_early i).
Proof. apply safe_on_getchan. intros c _ _. apply safe_on_when. intros _. apply safe_on_upd, neutral_prio. Qed.
Lemma writer_open_failure remote reason : Writer (msg_chan SSH_MSG_CHANNEL_OPEN_FAILURE remote;; buf_putint reason;;
    buf_putstring [] (strlen []);; buf_putstring [] (strlen []))
  (([SSH_MSG_CHANNEL_OPEN_FAILURE] ++ STORE32H remote) ++ STORE32H reason ++ (STORE32H 0 ++ []) ++ (STORE32H 0 ++ [])).
Proof.
  apply writer_seq; [by apply writer_msg_chan|]. apply writer_seq; [apply _|].
  apply writer_seq; by apply (writer_putstring []).
Qed.
Lemma safe_open_failure remote reason : safe (send_msg_channel_open_failure remote reason [] []).
Proof. eapply safe_send; [apply writer_open_failure|done]. Qed.
Lemma safe_on_open_failure i remote reason : safe_on i (send_msg_channel_open_failure remote reason [] []).
Proof. eapply safe_on_send; [apply writer_open_failure|done]. Qed.
Lemma safe_on_open_confirmation i w m : safe_on i (send_msg_channel_open_confirmation i w m).
Proof.
  apply safe_on_getchan. intros c _ _. eapply safe_on_send.
  - apply writer_seq; [by apply writer_msg_chan|apply _].
  - done.
Qed.
Lemma writechannel_at i c s : cinv s → chan_at s i c → type c = ty →
  wp (writechannel recv_window types i (writefd c) false) (λ _ s', cinv s' ∧ present i s') s.
Proof.
  intros Hs Hat Hty. pose proof (safe_on_writechannel i s Hs) as H. specialize (H ltac:(by exists c)).
  unfold wp in *. erewrite bind_ok in H; [exact H|]. rewrite (on_start s i c Hat) at 1. rewrite (getchan_on s i c Hat).
  by rewrite <- (on_start s i c Hat).
Qed.
End one_type.

(** ** Handlers *)
Hypothesis Hlaws : client_laws.
Hypothesis Hinit : ∀ ty t h i s, types !! ty = Some t → inithandler t = Some h → fresh ty i s →
  wp (h i) (λ _ s', cinv s' ∧ present_as ty i s') s.
Hypothesis Hreinit : ∀ ty t h i s, types !! ty = Some t → inithandler t = Some h → cinv s → idle_as ty i s →
  wp (h i) (λ _ s', cinv s' ∧ present_as ty i s') s.
Hypothesis Hcheck : ∀ ty t h i, types !! ty = Some t → ct_check_close t = Some h → safe_as ty i (h i).
Hypothesis Hreq : ∀ ty t h i, types !! ty = Some t → reqhandler t = Some h → safe_as ty i (h i).
Hypothesis Hclose : ∀ ty t h i, types !! ty = Some t → closehandler t = Some h → safe_as ty i (h i).
Hypothesis Hcleanup : ∀ ty t h i s, types !! ty = Some t → cleanup t = Some h → cinv s → present_as ty i s →
  wp (h i) (λ _ s', dropped ty i s' ∧ pending_conns s' = pending_conns s) s.
Lemma check_close_ok ty i s : cinv s → present_as ty i s → wp (check_close types i) (λ _ s', cinv s') s.
Proof. apply safe_check_close; [intros; by eapply Hclose|done|intros; by eapply Hcleanup|intros; by eapply Hcheck]. Qed.
Lemma remove_ok ty i s : cinv s → present_as ty i s → wp (remove_channel types i) (λ _ s', cinv s') s.
Proof. apply safe_remove; [done|intros; by eapply Hcleanup]. Qed.
Lemma wp_getchannel {A} kind (f : Z → M cst A) (Q : A → cst → Prop) s : cinv s →
  (∀ ty i s', cinv s' → present_as ty i s' → wp (f i) Q s') → wp (getchannel_msg kind ≫= f) Q s.
Proof.
  intros Hs HQ. wp_step. unfold getchannel_msg. wp_step.
  apply (safe_payload buf_getint (λ v, 0 ≤ v)); [done| |].
  { intros b Hb. eapply reader_wp; [apply _|done|]. intros v n _ _ Hw Hp%p_int_range. split; [done|lia]. }
  intros v s' Hs' Hv _. do 2 wp_step. destruct (channels s' !! Z.to_nat v) as [[c|]|] eqn:E; [|done..].
  wp_step. apply (HQ (type c)); [done|]. by exists c.
Qed.
Lemma safe_recv_eof : safe (recv_msg_channel_eof types).
Proof.
  intros s Hs. apply wp_getchannel; [done|]. intros ty i s1 Hs1 Hp1.
  eapply wp_on_bind; [apply safe_on_upd, neutral_recv_eof|done..|]. intros _ s2 Hs2 Hp2. by eapply check_close_ok.
Qed.
Lemma safe_recv_close : safe (recv_msg_channel_close types).
Proof.
  intros s Hs. apply wp_getchannel; [done|]. intros ty i s1 Hs1 Hp1.
  eapply wp_on_bind; [apply safe_on_upd, neutral_recv_eof|done..|]. intros _ s2 Hs2 Hp2.
  eapply wp_on_bind; [apply safe_on_upd, neutral_recv_close|done..|]. intros _ s3 Hs3 Hp3. by eapply check_close_ok.
Qed.
Lemma eatstring_keeps b : buf_wf b → wp buf_eatstring (λ _ b', buf_wf b') b.
Proof. intros Hb. exact (keeps_bufop OpEatstring I b Hb). Qed.
Lemma safe_recv_request : safe (recv_msg_channel_request types).
Proof.
  intros s Hs. apply wp_getchannel; [done|]. intros ty i s1 Hs1 Hp1.
  eapply wp_at_getchan; [done..|]. intros c _ Hty Hc He. apply (wp_on_chantype i); [done|]. intros t Ht. rewrite Hty in Ht.
  apply (wp_on_last ty i); [|done..]. destruct (reqhandler t) as [h|] eqn:E; [by eapply Hreq|].
  apply safe_on_bind; [apply safe_on_keeps, eatstring_keeps|]. intros _.
  eapply safe_on_payload; [apply _|]. intros b _. apply safe_on_when. intros _. apply safe_on_failure.
Qed.
Lemma safe_recv_data : safe (recv_msg_channel_data recv_window types).
Proof.
  intros s Hs. apply wp_getchannel; [done|]. intros ty i s1 Hs1 Hp1. apply (wp_on_last ty i); [|done..]. apply safe_on_recv_data.
Qed.
Lemma safe_recv_adjust : safe recv_msg_channel_window_adjust.
Proof.
  intros s Hs. apply wp_getchannel; [done|]. intros ty i s1 Hs1 Hp1. apply (wp_on_last ty i); [|done..].
  eapply safe_on_payload; [apply _|]. intros incr _. apply safe_on_bind; [|intros _]; (apply safe_on_updchan; [done|]).
  all: intros c [? ? ? ? ? ? [? ?] ?] He; split; [split; try done|done]; cbn.
  - split; [apply u32_range|done].
  - unfold TRANS_MAX_WINDOW, U32 in *. lia.
Qed.
Hypothesis Hchantypes : Forall (λ n, is_Some (types !! n)) chantypes.
Lemma find_type_ok l name n : Forall (λ n, is_Some (types !! n)) l → find_type types l name = Some n → is_Some (types !! n).
Proof.
  induction 1 as [|k l [t Ht] Hl IH]; cbn; [done|]. rewrite Ht. case_if; [|done]. intros [= <-]. by eexists.
Qed.
Lemma safe_bind {A B} (m : M cst A) (f : A → M cst B) : safe m → (∀ a, safe (f a)) → safe (m ≫= f).
Proof. intros Hm Hf s Hs. wp_step. eapply wp_mono; [by apply Hm|]. intros a s' ?. by apply Hf. Qed.
Lemma wp_payload_bind {A B} (m : M buffer A) p (f : A → M cst B) Q s : Reader m p → cinv s →
  (∀ a s', (∃ l tl, p l = Some (a, tl)) → cinv s' → wp (f a) Q s') → wp (ses_payload m ≫= f) Q s.
Proof.
  intros Hr Hs HQ. wp_step. apply (safe_payload m (λ a, ∃ l tl, p l = Some (a, tl))); [done| |].
  - intros b Hb. eapply reader_wp; [done..|]. intros v n _ _ Hw Hp. eauto.
  - intros a s' Hs' Ha Hch. by apply HQ.
Qed.
Lemma safe_recv_open : safe (recv_msg_channel_open recv_window types chantypes).
Proof.
  intros s Hs. unfold recv_msg_channel_open. eapply wp_payload_bind; [apply _|done|]. intros ty s1 _ Hs1.
  eapply wp_payload_bind; [apply _|done|]. intros remote s2 _ Hs2.
  eapply wp_payload_bind; [apply _|done|]. intros tw s3 (? & ? & Htw%p_int_range) Hs3.
  eapply wp_payload_bind; [apply _|done|]. intros tm s4 (? & ? & Htm%p_int_range) Hs4.
  revert s4 Hs4. match goal with |- ∀ s4, cinv s4 → wp ?m _ s4 => change (safe m) end.
  apply safe_bind; [|intros _; apply safe_update_prio].
  case_if; [apply safe_open_failure|]. destruct (find_type _ _ _) as [n|] eqn:Ef; [|apply safe_open_failure].
  apply find_type_ok in Ef; [|done]. intros s4 Hs4. wp_step.
  eapply wp_mono; [apply (safe_newchannel n); [done..|unfold TRANS_MAX_WINDOW, U32 in *; lia|unfold TRANS_MAX_PAYLOAD_LEN, U32 in *; lia]|].
  intros [i|] s5 Hs5; [|by apply safe_open_failure].
  eapply wp_fresh_gettype; [done|]. intros c t Ht. wp_step.
  apply (wp_mono _ (λ _ s', cinv s' ∧ present_as n i s')).
  { destruct (inithandler t) as [h|] eqn:Eh; [by eapply Hinit|]. destruct (fresh_open n i s5) as [? ?%idle_present]; [by eapply (J_new Hlaws)|done|done]. }
  intros ret s6 [Hs6 Hp6]. apply wp_if; intros _; [done|]. apply wp_if; intros _.
  - wp_step. eapply wp_mono; [by eapply remove_ok|]. intros [] s7 Hs7. by apply safe_open_failure.
  - eapply wp_on_bind; [apply safe_on_unset_early|done..|]. intros _ s7 Hs7 Hp7.
    apply (wp_on_last n i); [|done..]. apply safe_on_getchan. intros c7 _ _. apply safe_on_open_confirmation.
Qed.
(** The first change of a channel that was waiting for the peer's reply. *)
Lemma wp_upd_awaited ty i c s : cinv s → chan_at s i c → type c = ty → await_open c = true →
  wp (updchan i (set_await_open false)) (λ _ s', cinv s' ∧ idle_as ty i s') s.
Proof.
  intros Hs Hc Hty Ha. pose proof Hc as [Hi Hl]. destruct (ci_chans _ Hs _ _ Hl) as [Hw He]. rewrite Z2Nat.id in Hw by done.
  pose proof (lk_await _ _ (ci_linked _ Hs) _ _ Hl Ha) as Hp. eapply wp_ok; [by apply updchan_at|]. split.
  - eapply cinv_on; [done..|by split_and!|destruct Hw; by split|done|apply Hs|apply Hs].
  - exists (set_await_open false c). split; [by eapply chan_at_on|done].
Qed.
(** A number of the peer's for a channel that waits for nothing. *)
Lemma wp_idle_int {A} ty i (g : Z → chan → chan) (k : M cst A) (Q : A → cst → Prop) s :
  (∀ v, 0 ≤ v < U32 → neutral (g v)) → cinv s → idle_as ty i s →
  (∀ s', cinv s' → idle_as ty i s' → wp k Q s') → wp (v ← ses_payload buf_getint; updchan i (g v);; k) Q s.
Proof.
  intros Hg Hs (c & Hc & Hid) Hk. wp_step. apply (safe_payload buf_getint (λ v, 0 ≤ v < U32)); [done| |].
  { intros b Hb. eapply reader_wp; [apply _|done|]. intros v n _ _ Hw Hv%p_int_range. by split. }
  intros v s' Hs' Hv Hch. wp_step. eapply wp_mono; [apply (wp_upd_idle ty); [by apply Hg|done|]|].
  - exists c. destruct Hc. split; [split; [done|by rewrite Hch]|done].
  - intros [] s2 [? ?]. by apply Hk.
Qed.
Lemma safe_recv_confirmation : safe (recv_msg_channel_open_confirmation types).
Proof.
  intros s Hs. apply wp_getchannel; [done|]. intros ty i s1 Hs1 Hp1.
  eapply wp_at_getchan; [done..|]. intros c Hat Hty Hc He. apply wp_if; intros Ha; [done|].
  apply negb_false_iff in Ha. wp_step. eapply wp_mono; [exact (wp_upd_awaited ty i c s1 Hs1 Hat Hty Ha)|]. intros [] s2 [Hs2 Hp2].
  apply (wp_idle_int ty); [intros v _; apply neutral_remotechan|done..|]. intros s3 Hs3 Hp3.
  apply (wp_idle_int ty); [|done..|]. { intros v Hv. split; [done|]. intros j c' [? ? ? ? ? ? [? ?] ?] ?. by split; [split|]. } intros s4 Hs4 Hp4.
  apply (wp_idle_int ty); [|done..|]. { intros v Hv. split; [done|]. intros j c' [? ? ? ? ? ? [? ?] ?] ?. by split; [split|]. } intros s5 Hs5 Hp5.
  apply (wp_on_chantype i); [done|]. intros t Ht. rewrite Hty in Ht. wp_step.
  apply (wp_mono _ (λ _ s', cinv s' ∧ present_as ty i s')).
  { destruct (inithandler t) as [h|] eqn:Eh; [by eapply Hreinit|]. wp_step. split; [done|by apply idle_present]. }
  intros ret s6 [Hs6 Hp6]. apply wp_if; intros _; [by eapply remove_ok|].
  eapply wp_on_bind; [apply safe_on_unset_early|done..|]. intros [] s7 Hs7 Hp7. by apply safe_update_prio.
Qed.
Lemma safe_recv_open_failure : safe (recv_msg_channel_open_failure types).
Proof.
  intros s Hs. apply wp_getchannel; [done|]. intros ty i s1 Hs1 Hp1.
  eapply wp_on_getchan; [done..|]. intros c Hc He. apply wp_if; intros _; [done|].
  eapply wp_on_bind; [apply safe_on_upd, neutral_await_open|done..|]. intros _ s2 Hs2 Hp2. by eapply remove_ok.
Qed.
(** The connection of the channel is there: the channel gets the socket and is
    confirmed, then the connection is freed. *)
Lemma connect_success ty sock i p c s : cinv s → chan_at s i c → type c = ty → conn_pending c = Some p →
  wp (channel_connect_done types true sock i;; setconn p ConnFreed) (λ _ s', cinv s') s.
Proof.
  intros [[S1 S2 S3 S4 S5 S6] S7] Hat Hty Hp. pose proof Hat as [Hi Hl]. destruct (S3 _ _ Hl) as [Hw He].
  unfold channel_connect_done. rewrite (on_start s i c Hat). wp_step. wp_step. eapply wp_ok; [by eapply updchan_on|].
  wp_step. eapply wp_ok; [by eapply updchan_on|]. wp_step. eapply wp_ok; [by eapply getchan_on|].
  unfold send_msg_channel_open_confirmation. wp_step. eapply wp_ok; [by eapply getchan_on|].
  eapply wp_send_io; [apply writer_seq; [by apply writer_msg_chan|apply _]|done|done|].
  intros io' Hio'. unfold setconn. wp_step. split; [|cbn; by rewrite (owners_insert _ _ c)]. split; cbn; try done.
  - intros j c2 Hj. at_slot; [|by eauto]. split; [destruct Hw; by split|done].
  - by rewrite length_insert.
  - rewrite S5. symmetry. by eapply used_slots_insert.
  - by eapply linked_settled.
Qed.
(** A connection is there or has failed. *)
Lemma safe_settled success sock p : 0 ≤ p → safe (connect_settled types success sock p).
Proof.
  intros Hp s Hs. unfold connect_settled. do 2 wp_step. destruct (pending_conns s !! Z.to_nat p) as [[i| |]|] eqn:E; [| |done..].
  - destruct (lk_conn _ _ (ci_linked _ Hs) _ _ E) as (Hi & c & Hl & Hc). rewrite Z2Nat.id in Hc by done.
    assert (Hat : chan_at s i c) by done. wp_step. eapply wp_ok; [rewrite (on_start s i c Hat) at 1; by eapply getchan_on|].
    rewrite <- (on_start s i c Hat), bool_decide_true by done. destruct success; [by eapply connect_success|]. wp_step.
    apply (wp_mono _ (λ _ s', cinv s' ∧ pending_conns s' !! Z.to_nat p = Some CbCancelled)).
    + unfold channel_connect_done. wp_step. eapply wp_ok; [rewrite (on_start s i c Hat) at 1; by eapply getchan_on|]. rewrite <- (on_start s i c Hat). wp_step.
      eapply wp_send; [apply writer_open_failure|done|done|]. intros io' Hio'.
      eapply wp_mono; [apply (remove_cancels (type c)); [done|intros; by eapply Hcleanup|by apply cinv_io|by exists c]|]. intros [] s' [Hs' Hq]. split; [done|by apply Hq].
    + intros [] s' [[[] ?] Hq]. unfold setconn. wp_step. split; [split; try done|done]. by apply linked_freed.
  - wp_step. apply (wp_mono _ (λ _ s', cinv s' ∧ pending_conns s' = pending_conns s)).
    { destruct success; [|done]. unfold m_close. cbn [when]. apply wp_if; intros _; [done|]. destruct Hs as [[] ?]. by split; [split; [split|]|]. }
    intros _ s' [[[] ?] Hq]. unfold setconn. wp_step. split; [split; try done|done]. cbn. apply linked_freed; [done|by rewrite Hq].
Qed.

(** A channel opened by the server; the caller completes the message with
    [rest]. *)
Definition open_channel (fd : Z) (ty : nat) (rest : M buffer ()) : M cst bool :=
  ok ← send_msg_channel_open_init recv_window types fd ty;
  when ok (ses_write rest;; encrypt_msg);;
  mret ok.
Definition name_ok (t : @ChanType TD X) : Prop :=
  Forall is_byte (ct_name t) ∧ cstr (ct_name t) = ct_name t ∧ zlen (ct_name t) < U32.
Lemma safe_open_channel (fd : Z) ty rest enc : Writer rest enc → is_Some (types !! ty) → can_open ty → Forall name_ok types →
  safe (open_channel fd ty rest).
Proof.
  intros Hw Hty Hopen Hname s Hs. unfold open_channel, send_msg_channel_open_init. wp_step. wp_step.
  eapply wp_mono; [by eapply safe_newchannel|]. intros [i|] s1 Hf1; [|done].
  destruct (fresh_open ty i s1 Hopen Hf1) as [Hs1 Hp1]. wp_step. unfold log. wp_step.
  assert (Hlog : ∀ e s, cinv s → idle_as ty i s → cinv (set_fd_log e s) ∧ idle_as ty i (set_fd_log e s))
    by (intros e s0 [[] ?] (c0 & H0); split; [by split; [split|]|by exists c0]).
  destruct (Hlog (fd_log s1 ++ [EvNonblock fd]) s1 Hs1 Hp1) as [Hs2 Hp2].
  wp_step. eapply wp_mono; [apply (wp_upd_idle ty); [apply neutral_fds'|done..]|]. intros [] s3 [Hs3 Hp3]. do 2 wp_step.
  assert (Hmax : ∀ v s, cinv s → idle_as ty i s → cinv (set_maxfd v s) ∧ idle_as ty i (set_maxfd v s))
    by (intros v s0 [[] ?] (c0 & H0); split; [by split; [split|]|by exists c0]).
  destruct (Hmax (Z.max (maxfd s3) fd) s3 Hs3 Hp3) as [Hs4 Hp4].
  wp_step. eapply wp_mono; [by apply (wp_upd_await ty)|]. intros [] s5 [Hs5 Hp5].
  eapply wp_on_getchan; [done..|]. intros c Hc _. apply (wp_on_chantype i); [done|]. intros t Ht.
  assert (Hn : name_ok t) by (eapply (Forall_forall name_ok types); [done|by eapply list_elem_of_lookup_2]).
  destruct Hn as (Hn1 & Hn2 & Hn3).
  assert (Hwh : Writer (buf_putbyte SSH_MSG_CHANNEL_OPEN;; buf_putstring (ct_name t) (strlen (ct_name t));;
      buf_putint (index c);; buf_putint recv_window;; buf_putint RECV_MAX_CHANNEL_DATA_LEN)
    ([SSH_MSG_CHANNEL_OPEN] ++ (STORE32H (zlen (ct_name t)) ++ ct_name t) ++
     STORE32H (index c) ++ STORE32H recv_window ++ STORE32H RECV_MAX_CHANNEL_DATA_LEN)).
  { unfold strlen. rewrite Hn2. apply writer_seq; [by apply writer_putbyte|].
    apply writer_seq; [by apply writer_putstring|apply _]. }
  pose proof (ci_io _ Hs5) as (Hpl & [Hwf Hwl] & Hsz). wp_step. unfold ses_write at 1. do 2 apply wp_zoom.
  eapply writer_wp; [exact Hwh|exact Hwf|buf_facts; cbn in *; lia|]. set (h := [SSH_MSG_CHANNEL_OPEN] ++ _). intros Hfit.
  change (io_writepayload (get_io s5)) with (io_writepayload (cs_io s5)) in *. rewrite Hwl, Z.add_0_l in Hfit.
  set (w1 := buf_append _ h).
  assert (Hw1 : buf_wf w1) by (apply buf_wf_append; [done|apply Hwh|lia]).
  assert (Hl1 : buf_pos w1 = buf_len w1 ∧ 0 < buf_len w1 ∧ buf_size w1 = TRANS_MAX_PAYLOAD_LEN).
  { unfold w1, buf_append, h; cbn -[TRANS_MAX_PAYLOAD_LEN STORE32H]. lia. }
  destruct Hl1 as (Hp1' & Hl1 & Hz1). wp_step. cbn [when]. wp_step. wp_step. unfold ses_write. do 2 apply wp_zoom.
  eapply writer_wp; [exact Hw|done..|]. intros Hfit2. cbn beta. set (w2 := buf_append _ enc).
  assert (Hw2 : buf_wf w2) by (apply buf_wf_append; [done|apply Hw|done]).
  apply twp_wp, twp_encrypt_msg; [exact Hw2|change (0 < buf_len w1 + zlen enc); lia|].
  intros w3 Hw3 Hl3 Hz3. wp_step. rewrite !set_set_io. apply cinv_io; [done|]. split; [done|]. split; [done|].
  cbn. rewrite Hz3. exact Hz1.
Qed.

(** ** The main loop and the end of the session *)
Hypothesis Hlisteners : ∀ fds, safe (handle_listeners fds).
Lemma safe_channelio_one ty rfds wfds i s : cinv s → present_as ty i s →
  wp (channelio_one recv_window types rfds wfds i) (λ _ s', cinv s') s.
Proof.
  intros Hs Hp. unfold channelio_one. eapply wp_on_getchan; [done..|]. intros c Hc He. cbn zeta.
  eapply wp_on_bind; [apply safe_on_when; intros _; apply safe_on_send_data|done..|]. intros _ s1 Hs1 Hp1.
  eapply wp_on_getchan; [done..|]. intros c1 Hc1 He1.
  eapply wp_on_bind; [apply safe_on_when; intros _; apply safe_on_send_data|done..|]. intros _ s2 Hs2 Hp2.
  eapply wp_at_getchan; [done..|]. intros c2 Hat2 Hty2 Hc2 He2. wp_step.
  apply (wp_mono _ (λ _ s', cinv s' ∧ present_as ty i s')).
  { apply wp_when; intros _; [|done]. wp_step. eapply wp_mono; [by apply writechannel_at|]. done. }
  intros _ s3 [Hs3 Hp3]. eapply wp_on_getchan; [done..|]. intros c3 Hc3 He3.
  unfold ERRFD_IS_WRITE, ERRFD_IS_READ. rewrite He3. cbn [negb andb when]. do 4 wp_step. wp_step; [|done].
  by eapply check_close_ok.
Qed.
Lemma safe_channelio_loop fuel rfds wfds i s : cinv s → MAX_CHANNELS + CHAN_EXTEND_SIZE ≤ i + Z.of_nat fuel → 0 ≤ i →
  wp (channelio_loop recv_window types fuel rfds wfds i) (λ _ s', cinv s') s.
Proof.
  revert i s. induction fuel as [|fuel IH]; intros i s Hs Hf Hi; cbn [channelio_loop]; do 2 wp_step; pose proof (ci_size _ Hs).
  all: destruct (Z.ltb_spec i (zlen (channels s))); [|done].
  - lia.
  - wp_step. apply (wp_mono _ (λ _ s', cinv s')); [|intros _ s' Hs'; apply IH; [done|lia|lia]].
    destruct (channels s !! Z.to_nat i) as [[c|]|] eqn:E; [|done..]. apply (safe_channelio_one (type c)); [done|]. by exists c.
Qed.
Lemma safe_channelio rfds wfds : safe (channelio recv_window types handle_listeners rfds wfds).
Proof.
  intros s Hs. unfold channelio. wp_step. eapply wp_mono; [apply safe_channelio_loop; [done| |lia]|].
  - rewrite Z2Nat.id; [lia|done].
  - intros [] s' Hs'. by apply Hlisteners.
Qed.
Lemma safe_cleanup_loop n i : 0 ≤ i → safe (cleanup_loop types n i).
Proof.
  revert i. induction n as [|n IH]; intros i Hi; [by intros s Hs|]. intros s Hs. cbn [cleanup_loop]. do 3 wp_step.
  apply (wp_mono _ (λ _ s', cinv s')); [|intros _ s' Hs'; apply IH; [lia|done]].
  destruct (channels s !! Z.to_nat i) as [[c|]|] eqn:E; [|done..]. apply (remove_ok (type c)); [done|]. by exists c.
Qed.
Lemma safe_chancleanup s : cinv s → wp (chancleanup types) (λ _ s', channels s' = []) s.
Proof.
  intros Hs. unfold chancleanup. do 3 wp_step. eapply wp_mono; [by apply safe_cleanup_loop|]. done.
Qed.

(** ** Any session *)
Inductive chan_handler := HEof | HClose | HRequest | HData | HAdjust | HOpen | HConfirmation | HOpenFailure.
Definition run_handler (h : chan_handler) : M cst () :=
  match h with
  | HEof => recv_msg_channel_eof types
  | HClose => recv_msg_channel_close types
  | HRequest => recv_msg_channel_request types
  | HData => recv_msg_channel_data recv_window types
  | HAdjust => recv_msg_channel_window_adjust
  | HOpen => recv_msg_channel_open recv_window types chantypes
  | HConfirmation => recv_msg_channel_open_confirmation types
  | HOpenFailure => recv_msg_channel_open_failure types
  end.
Inductive chan_event :=
| EvPacket (h : chan_handler) (payload : buffer)         (* a packet for a channel handler *)
| EvIo (readfds writefds : list Z)                       (* what [select] returned *)
| EvConnect (success : bool) (sock p : Z)                (* the connection [p] is there or has failed *)
| EvOpen (fd : Z) (ty : nat) (rest : list Z)             (* the server opens a channel *)
| EvCall (m : M cst ()).                                 (* another routine of the main loop *)
Definition run_event (e : chan_event) : M cst () :=
  match e with
  | EvPacket h p => ses_payload (put p);; run_handler h
  | EvIo rfds wfds => channelio recv_window types handle_listeners rfds wfds
  | EvConnect success sock p => connect_settled types success sock p
  | EvOpen fd ty rest => open_channel fd ty (buf_putbytes rest (zlen rest));; mret tt
  | EvCall m => m
  end.
Fixpoint run_events (es : list chan_event) : M cst () :=
  match es with [] => mret tt | e :: es => run_event e;; run_events es end.
Definition event_ok (e : chan_event) : Prop :=
  match e with
  | EvPacket _ p => buf_wf p
  | EvIo _ _ => True
  | EvConnect _ _ p => 0 ≤ p
  | EvOpen _ ty rest => is_Some (types !! ty) ∧ can_open ty ∧ Forall is_byte rest ∧ zlen rest < U32
  | EvCall m => safe m
  end.
Hypothesis Hnames : Forall name_ok types.
Lemma safe_run_handler h : safe (run_handler h).
Proof.
  destruct h; [apply safe_recv_eof|apply safe_recv_close|apply safe_recv_request|apply safe_recv_data|
    apply safe_recv_adjust|apply safe_recv_open|apply safe_recv_confirmation|apply safe_recv_open_failure].
Qed.
Lemma safe_run_event e : event_ok e → safe (run_event e).
Proof.
  destruct e as [h p|rfds wfds|success sock p|fd ty rest|m]; cbn [event_ok run_event]; intros He s Hs.
  - wp_step. apply wp_ses_payload. wp_step. apply safe_run_handler. pose proof (ci_io _ Hs) as (_ & ? & ?).
    apply cinv_io; [done|]. by split.
  - by apply safe_channelio.
  - by apply safe_settled.
  - destruct He as (? & ? & ? & ?). wp_step. eapply wp_mono; [|].
    + eapply safe_open_channel; [by apply writer_putbytes|done..].
    + by intros ? s' Hs'.
  - by apply He.
Qed.
Lemma safe_run_events es : Forall event_ok es → safe (run_events es).
Proof.
  induction 1 as [|e es He Hes IH]; cbn [run_events]; [by intros s Hs|]. apply safe_bind; [by apply safe_run_event|done].
Qed.
Lemma cinv_chaninitialise s : io_ok (cs_io s) → rd_ok (fd_reads s) → pending_conns s = [] → J [None] (cs_rest s) → wp chaninitialise (λ _ s', cinv s') s.
Proof.
  intros Hio Hrd Hq Hj. unfold chaninitialise. wp_step. split; [|done]. split; try done; [by intros [|[|j]] c Hj'|].
  cbn. rewrite Hq. split; [done|by intros [|[|j]]..].
Qed.
End safe.

(** What the channel code needs of the callbacks of its channel types and of
    the listeners: each, called for a channel of its type, preserves the
    invariant, the part of it that is the callbacks' own ([J]) included, and
    leaves the channel in the table; [cleanup] releases what was attached. *)
Record callbacks_ok {TD X} recv_window (types : list (@ChanType TD X)) (handle_listeners : list Z → M (@cses TD X) ())
    (J : list (option (nat * option TD)) → X → Prop) : Prop := {
  cb_laws : client_laws types J;
  cb_init : ∀ ty t h i s, types !! ty = Some t → inithandler t = Some h → fresh recv_window types J ty i s →
    wp (h i) (λ _ s', cinv recv_window types J s' ∧ present_as ty i s') s;
  cb_reinit : ∀ ty t h i s, types !! ty = Some t → inithandler t = Some h → cinv recv_window types J s → idle_as ty i s →
    wp (h i) (λ _ s', cinv recv_window types J s' ∧ present_as ty i s') s;
  cb_check : ∀ ty t h i, types !! ty = Some t → ct_check_close t = Some h → safe_as recv_window types J ty i (h i);
  cb_req : ∀ ty t h i, types !! ty = Some t → reqhandler t = Some h → safe_as recv_window types J ty i (h i);
  cb_close : ∀ ty t h i, types !! ty = Some t → closehandler t = Some h → safe_as recv_window types J ty i (h i);
  cb_cleanup : ∀ ty t h i s, types !! ty = Some t → cleanup t = Some h → cinv recv_window types J s → present_as ty i s →
    wp (h i) (λ _ s', dropped recv_window types J ty i s' ∧ pending_conns s' = pending_conns s) s;
  cb_listeners : ∀ fds, safe recv_window types J (handle_listeners fds)
}.
Section callbacks.
Context {TD X : Type}.
Variable recv_window : Z.
Variable types : list (@ChanType TD X).
Variable chantypes : list nat.
Variable handle_listeners : list Z → M (@cses TD X) ().
Variable J : list (option (nat * option TD)) → X → Prop.
Hypothesis Hrw : 0 < recv_window ≤ MAX_CBUF_SIZE.
Hypothesis Hct : Forall (λ n, is_Some (types !! n)) chantypes.
Hypothesis Hnames : Forall name_ok types.
Hypothesis Hcb : callbacks_ok recv_window types handle_listeners J.

(** For every sequence of packets for the channel handlers (with any payload,
    right or wrong), of rounds of [channelio] with any descriptors ready and
    anything [read] and [write] may return, of deferred connections, of
    channels the server opens itself and of other routines that keep the
    invariant: the channel code follows no pointer to a channel it removed,
    stays inside its buffers, its rounds of the table terminate, and the
    invariant holds afterwards. *)
Lemma events_safe es : Forall (event_ok recv_window types J) es →
  safe recv_window types J (run_events recv_window types chantypes handle_listeners es).
Proof. intros Hes. destruct Hcb. by eapply safe_run_events. Qed.
(** Ending the session then is safe too. *)
Lemma cleanup_safe s : cinv recv_window types J s →
  wp (chancleanup types) (λ _ s', ∃ s1, cinv recv_window types J s1 ∧ s' = set_channels [] s1) s.
Proof.
  intros Hs. unfold chancleanup. do 3 wp_step. eapply wp_mono; [eapply safe_cleanup_loop; [apply Hcb|apply (cb_cleanup _ _ _ _ Hcb)|done|done]|].
  intros [] s1 Hs1. wp_step. by exists s1.
Qed.
End callbacks.
