(* ===== verification/Base64.v ===== *)
(** * Base64 ([libtomcrypt/src/misc/base64])

    The encoding of keys in [authorized_keys] and in fingerprints.  The output
    array is the list of the bytes written so far; [outlen] is its size. *)
From S2P Require Import Prelude.

Definition map_base64 : list Z :=
  [255; 255; 255; 255; 255; 255; 255; 255; 255; 255; 255; 255; 255; 255; 255; 255;
   255; 255; 255; 255; 255; 255; 255; 255; 255; 255; 255; 255; 255; 255; 255; 255;
   255; 255; 255; 255; 255; 255; 255; 255; 255; 255; 255; 62; 255; 255; 255; 63;
   52; 53; 54; 55; 56; 57; 58; 59; 60; 61; 255; 255; 255; 254; 255; 255;
   255; 0; 1; 2; 3; 4; 5; 6; 7; 8; 9; 10; 11; 12; 13; 14;
   15; 16; 17; 18; 19; 20; 21; 22; 23; 24; 25; 255; 255; 255; 255; 255;
   255; 26; 27; 28; 29; 30; 31; 32; 33; 34; 35; 36; 37; 38; 39; 40;
   41; 42; 43; 44; 45; 46; 47; 48; 49; 50; 51; 255; 255; 255; 255; 255;
   255; 255; 255; 255; 255; 255; 255; 255; 255; 255; 255; 255; 255; 255; 255; 255;
   255; 255; 255; 255; 255; 255; 255; 255; 255; 255; 255; 255; 255; 255; 255; 255;
   255; 255; 255; 255; 255; 255; 255; 255; 255; 255; 255; 255; 255; 255; 255; 255;
   255; 255; 255; 255; 255; 255; 255; 255; 255; 255; 255; 255; 255; 255; 255; 255;
   255; 255; 255; 255; 255; 255; 255; 255; 255; 255; 255; 255; 255; 255; 255; 255;
   255; 255; 255; 255; 255; 255; 255; 255; 255; 255; 255; 255; 255; 255; 255; 255;
   255; 255; 255; 255; 255; 255; 255; 255; 255; 255; 255; 255; 255; 255; 255; 255;
   255; 255; 255; 255; 255; 255; 255; 255; 255; 255; 255; 255; 255; 255; 255; 255].
Definition codes_base64 : list Z :=
  bytes_of_string "ABCDEFGHIJKLMNOPQRSTUVWXYZabcdefghijklmnopqrstuvwxyz0123456789+/".

(** ** Decoding *)
Definition map64 (c : Z) : Z := map_base64 !!! Z.to_nat (Z.land c 255).
(** The loop: the number of [=] seen, of characters in the group, the group,
    and the output; [None] is an error code. *)
Fixpoint base64_decode_loop (is_strict : bool) (outlen : Z) (inp : list Z) (g y t : Z) (out : list Z) :
    option (Z * Z * Z * list Z) :=
  match inp with
  | [] => Some (g, y, t, out)
  | x :: inp =>
      let c := map64 x in
      if c =? 254 then base64_decode_loop is_strict outlen inp (g + 1) y t out
      else if is_strict && (g >? 0) then None
      else if c =? 255 then (if is_strict then None else base64_decode_loop is_strict outlen inp g y t out)
      else
        let t := Z.lor (Z.shiftl t 6) c in
        if y + 1 =? 4 then
          if zlen out + 3 >? outlen then None
          else base64_decode_loop is_strict outlen inp g 0 0
                 (out ++ [Z.land (Z.shiftr t 16) 255; Z.land (Z.shiftr t 8) 255; Z.land t 255])
        else base64_decode_loop is_strict outlen inp g (y + 1) t out
  end.
Definition base64_decode_internal (inp : list Z) (outlen : Z) (is_strict : bool) : option (list Z) :=
  match base64_decode_loop is_strict outlen inp 0 0 0 [] with
  | None => None
  | Some (g, y, t, out) =>
      if negb (y =? 0) then
        if y =? 1 then None
        else if negb (y + g =? 4) && is_strict then None
        else
          let t := Z.shiftl t (6 * (4 - y)) in
          if zlen out + y - 1 >? outlen then None
          else Some (out ++ (if y >=? 2 then [Z.land (Z.shiftr t 16) 255] else [])
                         ++ (if y =? 3 then [Z.land (Z.shiftr t 8) 255] else []))
      else Some out
  end.
Definition base64_decode (inp : list Z) (outlen : Z) : option (list Z) := base64_decode_internal inp outlen false.
Definition base64_strict_decode (inp : list Z) (outlen : Z) : option (list Z) := base64_decode_internal inp outlen true.

(** ** Encoding *)
Definition code64 (k : Z) : Z := codes_base64 !!! Z.to_nat (Z.land k 63).
Fixpoint base64_encode_loop (inp : list Z) : list Z :=
  match inp with
  | [] => []
  | [a] => [code64 (Z.shiftr a 2); code64 (Z.shiftl (Z.land a 3) 4 + Z.shiftr 0 4); 61; 61]
  | [a; b] => [code64 (Z.shiftr a 2); code64 (Z.shiftl (Z.land a 3) 4 + Z.shiftr b 4); code64 (Z.shiftl (Z.land b 15) 2); 61]
  | a :: b :: c :: inp =>
      [code64 (Z.shiftr a 2); code64 (Z.shiftl (Z.land a 3) 4 + Z.shiftr b 4);
       code64 (Z.shiftl (Z.land b 15) 2 + Z.shiftr c 6); code64 c] ++ base64_encode_loop inp
  end.
Definition base64_encode (inp : list Z) (outlen : Z) : option (list Z) :=
  let len2 := 4 * ((zlen inp + 2) / 3) in
  if outlen <? len2 + 1 then None else Some (base64_encode_loop inp).

(** ** The round trip *)
Lemma map64_code64 k : 0 ≤ k < 64 → map64 (code64 k) = k.
Proof.
  intros Hk. assert (Hall : forallb (λ k, map64 (code64 k) =? k) (seqZ 0 64) = true) by (vm_compute; reflexivity).
  rewrite forallb_forall in Hall. apply Z.eqb_eq, Hall. apply list_elem_of_In, elem_of_seqZ. lia.
Qed.
Lemma map64_eq : map64 61 = 254.
Proof. reflexivity. Qed.

(** The characters of a group are its bits, six at a time. *)
Lemma land_mod a n : 0 ≤ n → Z.land a (2 ^ n - 1) = a mod 2 ^ n.
Proof. intros. rewrite <- Z.land_ones by done. by rewrite Z.ones_equiv, Z.sub_1_r. Qed.
Lemma code64_mod k : code64 k = code64 (k mod 64).
Proof. unfold code64. change 63 with (2 ^ 6 - 1). rewrite !land_mod by lia. by rewrite Z.mod_mod. Qed.

Section group.
Context (a b c : Z) (Ha : is_byte a) (Hb : is_byte b) (Hc : is_byte c).
Definition g1 := a / 4.
Definition g2 := (a mod 4) * 16 + b / 16.
Definition g3 := (b mod 16) * 4 + c / 64.
Definition g4 := c mod 64.
Lemma group_codes : Z.shiftr a 2 = g1 ∧ Z.shiftl (Z.land a 3) 4 + Z.shiftr b 4 = g2 ∧
  Z.shiftl (Z.land b 15) 2 + Z.shiftr c 6 = g3 ∧ code64 c = code64 g4.
Proof using.
  change 3 with (2 ^ 2 - 1). change 15 with (2 ^ 4 - 1). rewrite !land_mod by lia.
  rewrite !Z.shiftr_div_pow2, !Z.shiftl_mul_pow2 by lia. split_and!; try done. apply code64_mod.
Qed.
Lemma group_range : 0 ≤ g1 < 64 ∧ 0 ≤ g2 < 64 ∧ 0 ≤ g3 < 64 ∧ 0 ≤ g4 < 64.
Proof using Ha Hb Hc. unfold g1, g2, g3, g4, is_byte in *. Z.to_euclidean_division_equations. lia. Qed.
Lemma group_value : ((g1 * 64 + g2) * 64 + g3) * 64 + g4 = (a * 256 + b) * 256 + c.
Proof using Ha Hb Hc. unfold g1, g2, g3, g4, is_byte in *. Z.to_euclidean_division_equations. lia. Qed.
End group.
Lemma bytes_of_group a b c : is_byte a → is_byte b → is_byte c → let t := (a * 256 + b) * 256 + c in
  Z.land (Z.shiftr t 16) 255 = a ∧ Z.land (Z.shiftr t 8) 255 = b ∧ Z.land t 255 = c.
Proof.
  intros Ha Hb Hc t. unfold is_byte in *. rewrite !land_255, !Z.shiftr_div_pow2 by lia. unfold t.
  change (2 ^ 16) with 65536. change (2 ^ 8) with 256. Z.to_euclidean_division_equations. lia.
Qed.

(** One more character. *)
Lemma decode_char st outlen k inp y t out : 0 ≤ k < 64 → y ≠ 3 →
  base64_decode_loop st outlen (code64 k :: inp) 0 y t out = base64_decode_loop st outlen inp 0 (y + 1) (t * 64 + k) out.
Proof.
  intros Hk Hy. cbn [base64_decode_loop]. rewrite map64_code64 by done.
  destruct (Z.eqb_spec k 254); [lia|]. rewrite andb_false_r. destruct (Z.eqb_spec k 255); [lia|].
  destruct (Z.eqb_spec (y + 1) 4); [lia|]. by rewrite lor_add by lia.
Qed.
Lemma decode_char4 st outlen k inp t out : 0 ≤ k < 64 → zlen out + 3 ≤ outlen →
  base64_decode_loop st outlen (code64 k :: inp) 0 3 t out =
  let t := t * 64 + k in
  base64_decode_loop st outlen inp 0 0 0 (out ++ [Z.land (Z.shiftr t 16) 255; Z.land (Z.shiftr t 8) 255; Z.land t 255]).
Proof.
  intros Hk Hl. cbn [base64_decode_loop]. rewrite map64_code64 by done.
  destruct (Z.eqb_spec k 254); [lia|]. rewrite andb_false_r. destruct (Z.eqb_spec k 255); [lia|].
  change (3 + 1 =? 4) with true. rewrite (Z.gtb_ltb _ _), (proj2 (Z.ltb_ge _ _)) by lia. by rewrite lor_add by lia.
Qed.

(** What the end of the loop makes of the rest of a group. *)
Definition finish64 (st : bool) (outlen : Z) (r : option (Z * Z * Z * list Z)) : option (list Z) :=
  match r with
  | None => None
  | Some (g, y, t, out) =>
      if negb (y =? 0) then
        if y =? 1 then None
        else if negb (y + g =? 4) && st then None
        else
          let t := Z.shiftl t (6 * (4 - y)) in
          if zlen out + y - 1 >? outlen then None
          else Some (out ++ (if y >=? 2 then [Z.land (Z.shiftr t 16) 255] else [])
                         ++ (if y =? 3 then [Z.land (Z.shiftr t 8) 255] else []))
      else Some out
  end.
Lemma decode_encode st outlen n inp out : (length inp ≤ n)%nat → Forall is_byte inp → zlen out + zlen inp + 2 ≤ outlen →
  finish64 st outlen (base64_decode_loop st outlen (base64_encode_loop inp) 0 0 0 out) = Some (out ++ inp).
Proof.
  revert inp out. induction n as [|n IH]; intros inp out Hn Hb Hl.
  { destruct inp; [|cbn in Hn; lia]. cbn. by rewrite app_nil_r. }
  assert (H0 : is_byte 0) by (unfold is_byte; lia).
  destruct inp as [|a [|b [|c inp]]]; cbn [base64_encode_loop app length] in *.
  - cbn. by rewrite app_nil_r.
  - apply Forall_cons in Hb as [Ha _]. destruct (group_codes a 0 0) as (-> & -> & _ & _).
    pose proof (group_range a 0 0 Ha H0 H0). pose proof (group_value a 0 0 Ha H0 H0) as Hv.
    rewrite !decode_char by lia. cbn [base64_decode_loop]. rewrite !map64_eq. cbn [Z.eqb Pos.eqb finish64 negb].
    replace (negb (0 + 1 + 1 + (0 + 1 + 1) =? 4) && st) with false by done.
    destruct (Z.gtb_spec (zlen out + (0 + 1 + 1) - 1) outlen); [lia|]. cbn [Z.geb Z.compare Pos.compare Pos.compare_cont Z.add Pos.add Pos.succ].
    rewrite app_nil_r. do 3 f_equal. rewrite Z.shiftl_mul_pow2 by lia.
    replace ((0 * 64 + g1 a) * 64 + g2 a 0) with (a * 16)
      by (change (g3 0 0) with 0 in Hv; change (g4 0) with 0 in Hv; lia).
    destruct (bytes_of_group a 0 0 Ha H0 H0) as (E & _ & _). rewrite <- E at 2. do 2 f_equal. change (2 ^ (6 * (4 - 2))) with 4096. lia.
  - apply Forall_cons in Hb as [Ha Hb]. apply Forall_cons in Hb as [Hb _].
    destruct (group_codes a b 0) as (-> & -> & Hg3 & _). rewrite Z.shiftr_0_l, Z.add_0_r in Hg3. rewrite Hg3.
    pose proof (group_range a b 0 Ha Hb H0).
    rewrite !decode_char by lia. cbn [base64_decode_loop]. rewrite !map64_eq. cbn [Z.eqb Pos.eqb finish64].
    change (0 + 1 + 1 + 1) with 3. change (0 + 1) with 1.
    replace (negb (3 + 1 =? 4) && st) with false by done. cbn [negb Z.eqb Pos.eqb].
    destruct (Z.gtb_spec (zlen out + 3 - 1) outlen); [lia|]. change (3 >=? 2) with true. cbn iota. cbn [app].
    rewrite Z.shiftl_mul_pow2 by lia. change (2 ^ (6 * (4 - 3))) with 64.
    pose proof (group_value a b 0 Ha Hb H0) as Hv. change (g4 0) with 0 in Hv. rewrite Z.add_0_r in Hv.
    replace (((0 * 64 + g1 a) * 64 + g2 a b) * 64 + g3 b 0) with ((g1 a * 64 + g2 a b) * 64 + g3 b 0) by lia.
    rewrite Hv. destruct (bytes_of_group a b 0 Ha Hb H0) as (E1 & E2 & _). by rewrite E1, E2.
  - apply Forall_cons in Hb as [Ha Hb]. apply Forall_cons in Hb as [Hb Hc]. apply Forall_cons in Hc as [Hc Hi].
    destruct (group_codes a b c) as (-> & -> & -> & ->). pose proof (group_range a b c Ha Hb Hc).
    rewrite !decode_char by lia. rewrite decode_char4 by lia. cbn zeta.
    replace (((0 * 64 + g1 a) * 64 + g2 a b) * 64 + g3 b c) with ((g1 a * 64 + g2 a b) * 64 + g3 b c) by lia.
    rewrite (group_value a b c) by done. destruct (bytes_of_group a b c Ha Hb Hc) as (E1 & E2 & E3). rewrite E1, E2, E3.
    rewrite IH; [by rewrite <- app_assoc|lia|done|rewrite length_app; cbn; lia].
Qed.

(** What is decoded fits in the array it is given. *)
Lemma decode_loop_fits st outlen inp g y t out : Forall is_byte out → zlen out ≤ outlen →
  match base64_decode_loop st outlen inp g y t out with
  | Some (_, _, _, out') => Forall is_byte out' ∧ zlen out' ≤ outlen
  | None => True
  end.
Proof.
  revert g y t out. induction inp as [|x inp IH]; intros g y t out Hb Hl; cbn [base64_decode_loop]; [done|].
  case_if; [by apply IH|]. case_if; [done|]. case_if; [destruct st; [done|by apply IH]|].
  case_if; [|by apply IH]. destruct (Z.gtb_spec (zlen out + 3) outlen); [done|]. apply IH.
  - apply Forall_app_2; [done|]. rewrite !land_255. repeat constructor; apply Z.mod_pos_bound; done.
  - rewrite length_app. cbn. lia.
Qed.
Lemma base64_decode_fits inp outlen bs : 0 ≤ outlen → base64_decode inp outlen = Some bs →
  Forall is_byte bs ∧ zlen bs ≤ outlen.
Proof.
  intros Ho. unfold base64_decode, base64_decode_internal.
  pose proof (decode_loop_fits false outlen inp 0 0 0 [] ltac:(done) ltac:(done)) as Hf.
  destruct (base64_decode_loop false outlen inp 0 0 0 []) as [[[[g y] t] out]|]; [|done]. destruct Hf as [Hb Hl].
  destruct (Z.eqb_spec y 0); [by intros [= <-]|]. destruct (Z.eqb_spec y 1); [done|]. rewrite andb_false_r. cbn [negb].
  destruct (Z.gtb_spec (zlen out + y - 1) outlen); [done|]. intros [= <-]. split.
  - rewrite !land_255. repeat apply Forall_app_2; [done|..]; case_if; repeat constructor; apply Z.mod_pos_bound; done.
  - rewrite !length_app. destruct (Z.geb_spec y 2), (Z.eqb_spec y 3); cbn; lia.
Qed.

(** Decoding undoes encoding: whatever bytes [base64_encode] is given,
    [base64_decode] and [base64_strict_decode] return them from its output, in
    an array with two bytes to spare. *)
Theorem base64_roundtrip inp outlen1 outlen2 txt :
  Forall is_byte inp → zlen inp + 2 ≤ outlen2 → base64_encode inp outlen1 = Some txt →
  base64_decode txt outlen2 = Some inp ∧ base64_strict_decode txt outlen2 = Some inp.
Proof.
  intros Hb Hl. unfold base64_encode. case_if; [done|]. intros [= <-]. unfold base64_decode, base64_strict_decode.
  split; by apply (decode_encode _ outlen2 (length inp) inp []).
Qed.
Lemma base64_roundtrip_witness :
  base64_decode (bytes_of_string "c3NoLXJzYQ==") 20 = Some (bytes_of_string "ssh-rsa") ∧
  base64_strict_decode (bytes_of_string "c3NoLXJzYQ==") 20 = Some (bytes_of_string "ssh-rsa").
Proof.
  apply (base64_roundtrip (bytes_of_string "ssh-rsa") 20 20); [apply bytes_of_string_bytes|cbn; lia|reflexivity].
Defined.
