(* ===== verification/AuthKeys.v ===== *)
(** * Authorized keys ([svr-authpubkey.c], [svr-authpubkeyoptions.c])

    Reading [authorized_keys]: [buf_getline] of [dbutil.c], the line parser
    [checkpubkey_line], the options in front of a key, [cmp_base64_key] of
    [signkey.c], and the loop over the file.  A [FILE] is the list of the bytes
    still to be read.  Agent and X11 forwarding are not in the build
    ([DROPBEAR_SVR_AGENTFWD], [DROPBEAR_X11FWD] are 0). *)
From S2P Require Import Prelude Buffer Algo Base64.

Definition MIN_AUTHKEYS_LINE : Z := 10.
Definition MAX_AUTHKEYS_LINE : Z := 4200.

(** ** Lines *)

(** The loop of [buf_getline]: the last [fgetc] ([None] is [EOF]), whether the
    line ended before the buffer was full, and the rest of the file. *)
Fixpoint getline_loop (file : list Z) (c : option Z) : M buffer (option Z * bool * list Z) :=
  b ← get;
  if buf_pos b <? buf_size b then
    match file with
    | [] => mret (None, true, [])
    | c :: file =>
        if (c =? 10) || (c =? 13) then mret (Some c, true, file)
        else buf_putbyte (u8 c);; getline_loop file (Some c)
    end
  else mret (c, false, file).
(** [true] is [DROPBEAR_SUCCESS]. *)
Definition buf_getline (file : list Z) : M buffer (bool * list Z) :=
  buf_setpos 0;;
  buf_setlen 0;;
  r ← getline_loop file None;
  let '(c, ended, file) := r in
  when (negb ended) (buf_setlen 0);;
  b ← get;
  match c with
  | None => if buf_pos b =? 0 then mret (false, file) else buf_setpos 0;; mret (true, file)
  | Some _ => buf_setpos 0;; mret (true, file)
  end.

(** ** The options in front of a key *)
Record PubKeyOptions := mkPko {
  no_port_forwarding_flag : bool;
  no_agent_forwarding_flag : bool;
  no_x11_forwarding_flag : bool;
  no_pty_flag : bool;
  forced_command : option (list Z)
}.
Definition svr_pubkey_allows_agentfwd (o : option PubKeyOptions) : bool :=
  match o with Some o => negb (no_agent_forwarding_flag o) | None => true end.
Definition svr_pubkey_allows_tcpfwd (o : option PubKeyOptions) : bool :=
  match o with Some o => negb (no_port_forwarding_flag o) | None => true end.
Definition svr_pubkey_allows_x11fwd (o : option PubKeyOptions) : bool :=
  match o with Some o => negb (no_x11_forwarding_flag o) | None => true end.
Definition svr_pubkey_allows_pty (o : option PubKeyOptions) : bool :=
  match o with Some o => negb (no_pty_flag o) | None => true end.
(** The command and the original command of a session channel. *)
Definition svr_pubkey_set_forced_command (o : option PubKeyOptions) (cmd original : option (list Z)) :
    option (list Z) * option (list Z) :=
  match o ≫= forced_command with
  | Some f => (Some f, Some (default [] cmd))
  | None => (cmd, original)
  end.

Definition tolower (c : Z) : Z := if (65 <=? c) && (c <=? 90) then c + 32 else c.
(** [strncasecmp(a, b, n) == 0]. *)
Fixpoint strncasecmp_eq (n : nat) (a b : list Z) : bool :=
  match n with
  | O => true
  | S n =>
      let ca := tolower (default 0 (head a)) in
      let cb := tolower (default 0 (head b)) in
      if ca =? cb then (if ca =? 0 then true else strncasecmp_eq n (tail a) (tail b)) else false
  end.

Definition match_option (opt_name : list Z) : M buffer bool :=
  b ← get;
  let len := strlen opt_name in
  if u32 (buf_len b - buf_pos b) <? len then mret false
  else
    p ← buf_getptr len;
    bs ← buf_load p len;
    if strncasecmp_eq (Z.to_nat len) bs opt_name then buf_incrpos (i32 len);; mret true
    else mret false.

(** The end of a quoted command: [Some] position after the closing quote. *)
Fixpoint command_loop (fuel : nat) (escaped : bool) : M buffer (option Z) :=
  b ← get;
  if buf_pos b <? buf_len b then
    match fuel with
    | O => undefined "out of fuel"
    | S fuel =>
        c ← buf_getbyte;
        if negb escaped && (c =? 34) then p ← buf_getptr 0; mret (Some p)
        else command_loop fuel (negb escaped && (c =? 92))
    end
  else mret None.

(** One option: the options after it, or [None] for a bad one. *)
Definition add_option (o : PubKeyOptions) : M buffer (option PubKeyOptions) :=
  fwd ← match_option (bytes_of_string "no-port-forwarding");
  if fwd : bool then
    mret (Some (mkPko true (no_agent_forwarding_flag o) (no_x11_forwarding_flag o) (no_pty_flag o) (forced_command o)))
  else
    pty ← match_option (bytes_of_string "no-pty");
    if pty : bool then
      mret (Some (mkPko (no_port_forwarding_flag o) (no_agent_forwarding_flag o) (no_x11_forwarding_flag o) true (forced_command o)))
    else
      cmd ← match_option (bytes_of_string "command=" ++ [34]);
      if cmd : bool then
        command_start ← buf_getptr 0;
        match forced_command o with
        | Some _ => mret None
        | None =>
            b ← get;
            r ← command_loop (Z.to_nat (buf_len b)) false;
            match r with
            | None => mret None
            | Some p =>
                let command_len := p - command_start in
                command ← buf_load command_start (command_len - 1);
                mret (Some (mkPko (no_port_forwarding_flag o) (no_agent_forwarding_flag o) (no_x11_forwarding_flag o)
                              (no_pty_flag o) (Some command)))
            end
        end
      else mret (Some o).
(** The comma after an option, if there is anything: [false] is a bad option. *)
Definition next_option : M buffer bool :=
  b ← get;
  if buf_pos b <? buf_len b then c ← buf_getbyte; mret (c =? 44) else mret true.
Fixpoint options_loop (fuel : nat) (o : PubKeyOptions) : M buffer (option PubKeyOptions) :=
  b ← get;
  if buf_pos b <? buf_len b then
    match fuel with
    | O => undefined "out of fuel"
    | S fuel =>
        r ← add_option o;
        match r with
        | None => mret None
        | Some o =>
            ok ← next_option;
            if ok : bool then options_loop fuel o else mret None
        end
    end
  else mret (Some o).
(** The new [pubkey_options]; [None] is [DROPBEAR_FAILURE], after the cleanup. *)
Definition svr_add_pubkey_options : M buffer (option PubKeyOptions) :=
  buf_setpos 0;;
  b ← get;
  options_loop (Z.to_nat (buf_len b)) (mkPko false false false false None).

(** ** One line *)

(** Skip white space: [true] when a comment follows. *)
Fixpoint skip_space (fuel : nat) : M buffer bool :=
  b ← get;
  if buf_pos b <? buf_len b then
    match fuel with
    | O => undefined "out of fuel"
    | S fuel =>
        c ← buf_getbyte;
        if (c =? 32) || (c =? 9) then skip_space fuel
        else if c =? 35 then mret true
        else buf_incrpos (-1);; mret false
    end
  else mret false.
(** The length of the options: up to white space outside quotes. *)
Fixpoint options_end (fuel : nat) (quoted escape : bool) (options_len : Z) : M buffer Z :=
  b ← get;
  if buf_pos b <? buf_len b then
    match fuel with
    | O => undefined "out of fuel"
    | S fuel =>
        c ← buf_getbyte;
        if negb quoted && ((c =? 32) || (c =? 9)) then mret options_len
        else
          let escape := negb escape && (c =? 92) in
          let quoted := if negb escape && (c =? 34) then negb quoted else quoted in
          options_end fuel quoted escape (options_len + 1)
    end
  else mret options_len.
Fixpoint base64_end (fuel : nat) (len : Z) : M buffer Z :=
  b ← get;
  if buf_pos b <? buf_len b then
    match fuel with
    | O => undefined "out of fuel"
    | S fuel => c ← buf_getbyte; if c =? 32 then mret len else base64_end fuel (len + 1)
    end
  else mret len.

(** [cmp_base64_key], without a fingerprint. *)
Definition cmp_base64_key (keyblob algoname : list Z) : M buffer bool :=
  line ← get;
  let len := u32 (buf_len line - buf_pos line) in
  if len =? 0 then mret false
  else
    decodekey ← lift (buf_new (2 * len));
    p ← buf_getptr len;
    txt ← buf_load p len;
    match base64_decode txt (2 * len) with
    | None => mret false
    | Some bs =>
        dk ← lift (exec (buf_store 0 bs;; buf_incrlen (zlen bs)) decodekey);
        if negb (zlen bs =? zlen keyblob) || negb (bool_decide (bs = keyblob)) then mret false
        else
          r ← lift ((filealgolen ← buf_getint; q ← buf_getptr filealgolen;
                     if negb (filealgolen =? zlen algoname) then mret false
                     else filealgo ← buf_load q filealgolen; mret (bool_decide (filealgo = algoname))) dk);
          mret r.1
    end.

(** Does the line start with [algo] at the position, with room for a space and
    some base64? *)
Definition algo_here (algo : list Z) : M buffer bool :=
  line ← get;
  let algolen := zlen algo in
  if u32 (buf_pos line + algolen + 3) >? buf_len line then mret false
  else
    p ← buf_getptr algolen;
    bs ← buf_load p algolen;
    mret (strncmp_eq (length algo) bs algo).
Definition algo_fits (algo : list Z) : M buffer bool :=
  line ← get; mret (negb (u32 (buf_pos line + zlen algo + 3) >? buf_len line)).

(** The options and the position after them; [None] when the line is not one
    for this algorithm. *)
Definition line_options (algo : list Z) : M buffer (option (option buffer)) :=
  here ← algo_here algo;
  if here : bool then mret (Some None)
  else
    line ← get;
    is_comment ← skip_space (Z.to_nat (buf_len line));
    if is_comment : bool then mret None
    else
      options_start ← buf_getptr 1;
      line ← get;
      options_len ← options_end (Z.to_nat (buf_len line)) false false 0;
      options_buf ← lift (buf_new options_len);
      opts ← buf_load options_start options_len;
      options_buf ← lift (exec (buf_putbytes opts options_len) options_buf);
      here ← algo_here algo;
      if here : bool then mret (Some (Some options_buf)) else mret None.

(** Behind the algorithm: a space and the key; [None] when there is no space. *)
Definition line_key (algo keyblob : list Z) : M buffer (option bool) :=
  buf_incrpos (i32 (zlen algo));;
  sp ← buf_getbyte;
  if negb (sp =? 32) then mret None
  else
    line ← get;
    let pos := buf_pos line in
    len ← base64_end (Z.to_nat (buf_len line)) 0;
    buf_setpos pos;;
    buf_setlen (u32 (pos + len));;
    ret ← cmp_base64_key keyblob algo;
    mret (Some ret).

(** [false] is [DROPBEAR_FAILURE]; the second result is the new
    [pubkey_options], when the line sets them. *)
Definition checkpubkey_line (algo keyblob : list Z) : M buffer (bool * option (option PubKeyOptions)) :=
  line ← get;
  if (buf_len line <? MIN_AUTHKEYS_LINE) || (buf_len line >? MAX_AUTHKEYS_LINE) then mret (false, None)
  else
    content ← buf_load 0 (buf_len line);
    if existsb (Z.eqb 0) content then mret (false, None)
    else
      fits ← algo_fits algo;
      if negb fits then mret (false, None)
      else
        lo ← line_options algo;
        match lo with
        | None => mret (false, None)
        | Some options_buf =>
            k ← line_key algo keyblob;
            match k with
            | None => mret (false, None)
            | Some ret =>
              match options_buf with
              | Some options_buf =>
                  if ret : bool then
                    r ← lift (svr_add_pubkey_options options_buf);
                    match r.1 with
                    | Some o => mret (true, Some (Some o))
                    | None => mret (false, Some None)
                    end
                  else mret (false, None)
              | None => mret (ret, None)
              end
            end
        end.

(** ** The file *)
Fixpoint checkpubkey_loop (fuel : nat) (file : list Z) (algo keyblob : list Z) (opts : option PubKeyOptions) :
    M buffer (bool * option PubKeyOptions) :=
  match fuel with
  | O => undefined "out of fuel"
  | S fuel =>
      r ← buf_getline file;
      let '(more, file) := r in
      if negb more then mret (false, opts)
      else
        r ← checkpubkey_line algo keyblob;
        let '(ret, set_opts) := r in
        let opts := default opts set_opts in
        if ret : bool then mret (true, opts) else checkpubkey_loop fuel file algo keyblob opts
  end.
(** [authfile] is [None] when the file cannot be opened. *)
Definition checkpubkey {D Mo} (sshhostkey : list (algo_type D Mo)) (authfile : option (list Z)) (algo keyblob : list Z)
    (opts : option PubKeyOptions) : outcome (bool * option PubKeyOptions) :=
  if negb (have_algo algo (zlen algo) sshhostkey) then Ok (false, opts)
  else
    match authfile with
    | None => Ok (false, opts)
    | Some file =>
        line ← buf_new MAX_AUTHKEYS_LINE;
        r ← checkpubkey_loop (S (length file)) file algo keyblob opts line;
        Ok r.1
    end.
Definition authkeys_exists (authfile : option (list Z)) : bool :=
  match authfile with Some file => MIN_AUTHKEYS_LINE <=? zlen file | None => false end.

(** Runs on concrete files. *)
Definition key_blob : list Z := STORE32H 7 ++ bytes_of_string "ssh-rsa" ++ STORE32H 1 ++ [3].
Definition hostkey_algos : list (algo_type () ()) := [mkAlgo (bytes_of_string "ssh-rsa") 0 () true ()].
Definition key_line : list Z := bytes_of_string "ssh-rsa " ++ base64_encode_loop key_blob ++ bytes_of_string " me@host".
Example check_plain : checkpubkey hostkey_algos (Some (bytes_of_string "# keys" ++ [10] ++ key_line ++ [10]))
  (bytes_of_string "ssh-rsa") key_blob None = Ok (true, None).
Proof. vm_compute. reflexivity. Qed.
Example check_options : checkpubkey hostkey_algos
  (Some (bytes_of_string "no-pty,command=" ++ [34] ++ bytes_of_string "/bin/ls -l" ++ [34; 32] ++ key_line ++ [10]))
  (bytes_of_string "ssh-rsa") key_blob None = Ok (true, Some (mkPko false false false true (Some (bytes_of_string "/bin/ls -l")))).
Proof. vm_compute. reflexivity. Qed.
Example check_spaces : checkpubkey hostkey_algos (Some (replicate 20 32 ++ [10] ++ key_line ++ [10]))
  (bytes_of_string "ssh-rsa") key_blob None = Exit "Bad buf_getptr".
Proof. vm_compute. reflexivity. Qed.
