(* ===== verification/AuthKeysProps.v ===== *)
(** * Properties of the authorized keys

    A key is accepted only because of a line of the file, a line as [ssh-keygen]
    writes it is accepted, the parser stays inside the line for every file, and
    two lines it does not treat as its comments say. *)
From S2P Require Import Prelude Buffer BufferProps Algo Base64 AuthKeys.

(** ** Scanning: a routine that moves over the unread bytes *)
Definition scans {A} (op : M buffer A) (f : list Z → A * Z) (b : buffer) : Prop :=
  0 ≤ (f (buf_rest b)).2 ≤ zlen (buf_rest b) ∧ op b = Ok ((f (buf_rest b)).1, buf_advance b (f (buf_rest b)).2).

Lemma getbyte_eq b c tl : buf_wf b → buf_rest b = c :: tl →
  buf_getbyte b = Ok (c, buf_advance b 1) ∧ buf_rest (buf_advance b 1) = tl ∧ buf_wf (buf_advance b 1).
Proof.
  intros Hb Hr. pose proof (buf_rest_length b Hb) as Hl. rewrite Hr in Hl. cbn in Hl. pose proof Hb as Hb'. buf_facts.
  assert (Hw : buf_wf (buf_advance b 1)) by (apply buf_wf_advance; [done|lia..]).
  assert (Hr1 : buf_rest (buf_advance b 1) = tl) by (rewrite buf_rest_advance by (done || lia); by rewrite Hr).
  pose proof (reader_refines (op := buf_getbyte) b Hb) as Hrf. rewrite Hr in Hrf. cbn [p_byte] in Hrf.
  destruct Hrf as (n & Hn & Hnf & Htl & E). split_and!; [|done|done]. rewrite E.
  assert (n = 1); [|by subst]. apply (f_equal length) in Htl. rewrite length_drop in Htl. cbn [length] in Htl. lia.
Qed.
Lemma rest_nil b : buf_wf b → buf_rest b = [] ↔ buf_len b ≤ buf_pos b.
Proof.
  intros Hb. pose proof (buf_rest_length b Hb) as Hl. split; intros H.
  - rewrite H in Hl. cbn in Hl. lia.
  - apply nil_length_inv. lia.
Qed.
Lemma scan_stop b : buf_wf b → buf_rest b = [] → (buf_pos b <? buf_len b) = false.
Proof. intros Hb H. apply rest_nil in H; [|done]. lia. Qed.
Lemma scan_go b c tl : buf_wf b → buf_rest b = c :: tl → (buf_pos b <? buf_len b) = true.
Proof.
  intros Hb H. destruct (Z.ltb_spec (buf_pos b) (buf_len b)); [done|].
  rewrite (proj2 (rest_nil b Hb)) in H by lia. done.
Qed.

(** A loop that reads bytes, as a function of the bytes. *)
Fixpoint skip_space_spec (l : list Z) : bool * Z :=
  match l with
  | [] => (false, 0)
  | c :: l =>
      if (c =? 32) || (c =? 9) then let '(r, n) := skip_space_spec l in (r, n + 1)
      else if c =? 35 then (true, 1) else (false, 0)
  end.
Fixpoint options_end_spec (quoted escape : bool) (k : Z) (l : list Z) : Z * Z :=
  match l with
  | [] => (k, 0)
  | c :: l =>
      if negb quoted && ((c =? 32) || (c =? 9)) then (k, 1)
      else
        let escape := negb escape && (c =? 92) in
        let quoted := if negb escape && (c =? 34) then negb quoted else quoted in
        let '(r, n) := options_end_spec quoted escape (k + 1) l in (r, n + 1)
  end.
Fixpoint base64_end_spec (k : Z) (l : list Z) : Z * Z :=
  match l with
  | [] => (k, 0)
  | c :: l => if c =? 32 then (k, 1) else let '(r, n) := base64_end_spec (k + 1) l in (r, n + 1)
  end.

Section scan.
Context (b : buffer) (c : Z) (tl : list Z) (Hb : buf_wf b) (Hr : buf_rest b = c :: tl).
(** After one byte, the scan of the rest. *)
Lemma scans_step {A} (op op' : M buffer A) f f' : (∀ l, f (c :: l) = let '(r, n) := f' l in (r, n + 1)) →
  op b = op' (buf_advance b 1) → scans op' f' (buf_advance b 1) → scans op f b.
Proof using Hb Hr.
  intros Hf Hop [Hn E]. destruct (getbyte_eq b c tl Hb Hr) as (_ & Hr1 & _). rewrite Hr1 in *.
  unfold scans. rewrite Hr, Hf. destruct (f' tl) as [r n]. cbn [fst snd length] in *. split; [lia|].
  rewrite Hop, E, buf_advance_advance. do 3 f_equal. lia.
Qed.
End scan.

Lemma skip_space_scans fuel b : buf_wf b → zlen (buf_rest b) ≤ Z.of_nat fuel → scans (skip_space fuel) skip_space_spec b.
Proof.
  revert b. induction fuel as [|fuel IH]; intros b Hb Hf; destruct (buf_rest b) as [|c tl] eqn:Hr; [| cbn in Hf; lia| |].
  1, 2: unfold scans; rewrite Hr; split; [cbn; lia|]; cbn [skip_space skip_space_spec fst snd];
    erewrite bind_ok by done; by rewrite scan_stop, buf_advance_0.
  destruct (getbyte_eq b c tl Hb Hr) as (E & Hr1 & Hb1). pose proof (scan_go b c tl Hb Hr) as Hgo.
  destruct ((c =? 32) || (c =? 9)) eqn:Ew.
  - apply (scans_step b c tl Hb Hr _ (skip_space fuel) _ skip_space_spec).
    + intros l. cbn [skip_space_spec]. by rewrite Ew.
    + cbn [skip_space]. erewrite bind_ok by done. rewrite Hgo. erewrite bind_ok by exact E. by rewrite Ew.
    + apply IH; [done|]. rewrite Hr1. cbn [length] in Hf. lia.
  - unfold scans. rewrite Hr. cbn [skip_space skip_space_spec]. rewrite Ew. erewrite bind_ok by done. rewrite Hgo.
    erewrite bind_ok by exact E. rewrite Ew. destruct (c =? 35); cbn [fst snd length]; (split; [lia|]); [done|].
    pose proof (buf_rest_length b Hb) as Hl. rewrite Hr in Hl. cbn in Hl.
    erewrite bind_ok; [rewrite buf_advance_0; done|]. rewrite buf_incrpos_eq by (done || lia).
    pose proof Hb as Hb'. buf_facts. cbn [buf_advance set_pos buf_pos buf_len].
    rewrite (proj2 (andb_true_iff _ _)) by lia. do 2 f_equal. destruct b; unfold buf_advance, set_pos; cbn. f_equal. lia.
Qed.
Lemma options_end_scans fuel quoted escape k b : buf_wf b → zlen (buf_rest b) ≤ Z.of_nat fuel →
  scans (options_end fuel quoted escape k) (options_end_spec quoted escape k) b.
Proof.
  revert b quoted escape k. induction fuel as [|fuel IH]; intros b quoted escape k Hb Hf;
    destruct (buf_rest b) as [|c tl] eqn:Hr; [| cbn in Hf; lia| |].
  1, 2: unfold scans; rewrite Hr; split; [cbn; lia|]; cbn [options_end options_end_spec fst snd];
    erewrite bind_ok by done; by rewrite scan_stop, buf_advance_0.
  destruct (getbyte_eq b c tl Hb Hr) as (E & Hr1 & Hb1). pose proof (scan_go b c tl Hb Hr) as Hgo.
  destruct (negb quoted && ((c =? 32) || (c =? 9))) eqn:Ew.
  - unfold scans. rewrite Hr. cbn [options_end options_end_spec]. rewrite Ew. split; [cbn; lia|].
    erewrite bind_ok by done. rewrite Hgo. erewrite bind_ok by exact E. by rewrite Ew.
  - set (esc := negb escape && (c =? 92)). set (q := if negb esc && (c =? 34) then negb quoted else quoted).
    apply (scans_step b c tl Hb Hr _ (options_end fuel q esc (k + 1)) _ (options_end_spec q esc (k + 1))).
    + intros l. cbn [options_end_spec]. by rewrite Ew.
    + cbn [options_end]. erewrite bind_ok by done. rewrite Hgo. erewrite bind_ok by exact E. by rewrite Ew.
    + apply IH; [done|]. rewrite Hr1. cbn [length] in Hf. lia.
Qed.
Lemma base64_end_scans fuel k b : buf_wf b → zlen (buf_rest b) ≤ Z.of_nat fuel →
  scans (base64_end fuel k) (base64_end_spec k) b.
Proof.
  revert b k. induction fuel as [|fuel IH]; intros b k Hb Hf;
    destruct (buf_rest b) as [|c tl] eqn:Hr; [| cbn in Hf; lia| |].
  1, 2: unfold scans; rewrite Hr; split; [cbn; lia|]; cbn [base64_end base64_end_spec fst snd];
    erewrite bind_ok by done; by rewrite scan_stop, buf_advance_0.
  destruct (getbyte_eq b c tl Hb Hr) as (E & Hr1 & Hb1). pose proof (scan_go b c tl Hb Hr) as Hgo.
  destruct (c =? 32) eqn:Ew.
  - unfold scans. rewrite Hr. cbn [base64_end base64_end_spec]. rewrite Ew. split; [cbn; lia|].
    erewrite bind_ok by done. rewrite Hgo. erewrite bind_ok by exact E. by rewrite Ew.
  - apply (scans_step b c tl Hb Hr _ (base64_end fuel (k + 1)) _ (base64_end_spec (k + 1))).
    + intros l. cbn [base64_end_spec]. by rewrite Ew.
    + cbn [base64_end]. erewrite bind_ok by done. rewrite Hgo. erewrite bind_ok by exact E. by rewrite Ew.
    + apply IH; [done|]. rewrite Hr1. cbn [length] in Hf. lia.
Qed.

(** What the scans find. *)
Lemma base64_end_split k l : let '(r, n) := base64_end_spec k l in
  let w := take (Z.to_nat (r - k)) l in
  k ≤ r ∧ r - k ≤ zlen l ∧ (32 ∉ w) ∧ (drop (Z.to_nat (r - k)) l = [] ∨ ∃ tl, drop (Z.to_nat (r - k)) l = 32 :: tl).
Proof.
  revert k. induction l as [|c l IH]; intros k; cbn [base64_end_spec].
  { rewrite Z.sub_diag. cbn. split_and!; [lia|lia|set_solver|by left]. }
  destruct (Z.eqb_spec c 32) as [->|Hc].
  - rewrite Z.sub_diag. cbn. split_and!; [lia|lia|set_solver|right; by eexists].
  - specialize (IH (k + 1)). destruct (base64_end_spec (k + 1) l) as [r n]. destruct IH as (H1 & H2 & H3 & H4).
    replace (Z.to_nat (r - k)) with (S (Z.to_nat (r - (k + 1)))) by lia. cbn [take drop length].
    split_and!; [lia|lia| |done]. rewrite not_elem_of_cons. auto.
Qed.
Lemma base64_end_app k b64 rest : (32 ∉ b64) → (rest = [] ∨ ∃ tl, rest = 32 :: tl) →
  ∃ n, base64_end_spec k (b64 ++ rest) = (k + zlen b64, n).
Proof.
  revert k. induction b64 as [|c b64 IH]; intros k H Hr; cbn [app base64_end_spec].
  - rewrite Z.add_0_r. destruct Hr as [->|[tl ->]]; cbn; eauto.
  - apply not_elem_of_cons in H as [Hc H]. rewrite (proj2 (Z.eqb_neq c 32)) by done. destruct (IH (k + 1) H Hr) as [n ->].
    eexists. f_equal. cbn [length]. lia.
Qed.
Definition is_space (c : Z) : bool := (c =? 32) || (c =? 9).
Lemma skip_space_split l : let '(r, n) := skip_space_spec l in
  0 ≤ n ≤ zlen l ∧
  (r = false → Forall (λ c, is_space c = true) (take (Z.to_nat n) l) ∧
     match drop (Z.to_nat n) l with [] => True | c :: _ => is_space c = false end).
Proof.
  induction l as [|c l IH]; cbn [skip_space_spec]; [done|]. fold (is_space c). destruct (is_space c) eqn:E.
  - destruct (skip_space_spec l) as [r n]. destruct IH as (H1 & H2). split; [cbn; lia|]. intros Hr.
    destruct (H2 Hr) as [H3 H4]. replace (Z.to_nat (n + 1)) with (S (Z.to_nat n)) by lia. cbn [take drop].
    split; [by constructor|done].
  - destruct (c =? 35); (split; [cbn; lia|]); [done|]. cbn. by intros _.
Qed.
(** The options reach to the end of the line or to white space. *)
Lemma options_end_split q e k l : let '(r, n) := options_end_spec q e k l in
  k ≤ r ∧ r - k ≤ zlen l ∧
  ((n = r - k ∧ n = zlen l) ∨ (n = r - k + 1 ∧ n ≤ zlen l ∧ ∃ c tl, drop (Z.to_nat (r - k)) l = c :: tl ∧ is_space c = true)).
Proof.
  revert q e k. induction l as [|c l IH]; intros q e k; cbn [options_end_spec]; [cbn; lia|]. fold (is_space c).
  destruct (negb q && is_space c) eqn:E.
  - apply andb_true_iff in E as [_ E]. split_and!; [lia|cbn; lia|]. right. rewrite Z.sub_diag. cbn. split_and!; [lia|lia|eauto].
  - set (e' := negb e && (c =? 92)). set (q' := if negb e' && (c =? 34) then negb q else q).
    specialize (IH q' e' (k + 1)). destruct (options_end_spec q' e' (k + 1) l) as [r n].
    destruct IH as (H1 & H2 & H3). cbn [length]. split_and!; [lia|lia|].
    destruct H3 as [[H3 H4]|(H3 & H4 & c' & tl & H5 & H6)]; [left; lia|]. right.
    replace (Z.to_nat (r - k)) with (S (Z.to_nat (r - (k + 1)))) by lia. split_and!; [lia|lia|]. exists c', tl. done.
Qed.

Lemma strncmp_eq_nonnul n (a b : list Z) : length a = n → length b = n → Forall (λ c, c ≠ 0) a →
  strncmp_eq n a b = true → a = b.
Proof.
  revert a b. induction n as [|n IH]; intros [|x a] [|y b] Ha Hb Hz; cbn in *; try done; try lia.
  apply Forall_cons in Hz as [Hx Hz]. destruct (Z.eqb_spec x y) as [->|]; [|done].
  destruct (Z.eqb_spec y 0); [done|]. intros H. f_equal. apply IH; [lia|lia|done|done].
Qed.

Lemma strncmp_refl n (a : list Z) : strncmp_eq n a a = true.
Proof. revert a. induction n as [|n IH]; intros a; cbn; [done|]. rewrite Z.eqb_refl. by case_if. Qed.

(** A line without NUL characters, at a position. *)
Definition clean (b : buffer) : Prop := buf_wf b ∧ Forall (λ c, c ≠ 0) (buf_content b) ∧ buf_len b ≤ MAX_AUTHKEYS_LINE.
Lemma clean_advance b n : clean b → 0 ≤ n ≤ zlen (buf_rest b) → clean (buf_advance b n).
Proof.
  intros (Hb & Hc & Hl) Hn. rewrite buf_rest_length in Hn by done. pose proof Hb as Hb'. buf_facts.
  split_and!; [apply buf_wf_advance; [done|lia|lia]|done|done].
Qed.
Lemma clean_rest b : clean b → Forall (λ c, c ≠ 0) (buf_rest b).
Proof. intros (Hb & Hc & _). rewrite buf_content_rest in Hc by done. by apply Forall_app in Hc as [_ ?]. Qed.


Section line.
Context (algo : list Z) (Halgo : zlen algo ≤ MAX_STRING_LEN).

Lemma algo_fits_eq b : clean b → algo_fits algo b = Ok (zlen algo + 3 <=? zlen (buf_rest b), b).
Proof using Halgo.
  intros (Hb & _ & Hl). unfold algo_fits. erewrite bind_ok by done. pose proof (buf_rest_length b Hb).
  unfold MAX_STRING_LEN, MAX_AUTHKEYS_LINE in *. buf_facts. rewrite u32_small by (unfold U32; lia).
  cbn. do 3 f_equal. destruct (Z.gtb_spec (buf_pos b + zlen algo + 3) (buf_len b)), (Z.leb_spec (zlen algo + 3) (zlen (buf_rest b))); cbn; lia || done.
Qed.
Lemma algo_here_eq b : clean b → ∃ r, algo_here algo b = Ok (r, b) ∧
  (r = true ↔ ∃ tl, buf_rest b = algo ++ tl ∧ 3 ≤ zlen tl).
Proof using Halgo.
  intros Hcl. pose proof (clean_rest b Hcl) as Hnz. destruct Hcl as (Hb & _ & Hl). unfold algo_here. erewrite bind_ok by done.
  pose proof (buf_rest_length b Hb) as Hr. unfold MAX_STRING_LEN, MAX_AUTHKEYS_LINE in *. pose proof Hb as Hb'. buf_facts.
  rewrite u32_small by (unfold U32; lia). destruct (Z.gtb_spec (buf_pos b + zlen algo + 3) (buf_len b)).
  - exists false. split; [done|]. split; [done|]. intros (tl & E & Htl). rewrite E, length_app in Hr. lia.
  - erewrite bind_ok by (rewrite buf_getptr_eq by (done || unfold U32; lia); rewrite (proj2 (Z.leb_le _ _)) by lia; done).
    erewrite bind_ok by (apply buf_load_eq; [done|lia|lia]). rewrite buf_rest_load, Nat2Z.id by (done || lia).
    eexists. split; [done|]. split.
    + intros Hs%strncmp_eq_nonnul; [|rewrite length_take; lia|done|by apply Forall_take].
      exists (drop (length algo) (buf_rest b)). rewrite <- Hs at 1. split; [by rewrite take_drop|]. rewrite length_drop. lia.
    + intros (tl & E & _). rewrite E, take_app_length. apply strncmp_refl.
Qed.

(** The text in front of the algorithm. *)
Definition prefix_ok (pre : list Z) (otext : option (list Z)) : Prop :=
  match otext with
  | None => pre = []
  | Some o => ∃ ws c, pre = ws ++ o ++ [c] ∧ Forall (λ c, is_space c = true) ws ∧ is_space c = true
  end.
Lemma wp_line_options b : clean b →
  wp (line_options algo) (λ r b', clean b' ∧ buf_len b' = buf_len b ∧ buf_size b' = buf_size b ∧
    match r with
    | None => True
    | Some ob => ∃ pre otext tl, buf_rest b = pre ++ algo ++ tl ∧ buf_rest b' = algo ++ tl ∧ 3 ≤ zlen tl ∧
        prefix_ok pre otext ∧ match ob, otext with
          | None, None => True | Some ob, Some o => buf_wf ob ∧ buf_content ob = o | _, _ => False end
    end) b.
Proof using Halgo.
  intros Hcl. unfold line_options. destruct (algo_here_eq b Hcl) as (r & E & Hh). wp_step. eapply wp_ok; [exact E|].
  destruct r.
  { wp_step. split_and!; [done..|]. destruct (proj1 Hh eq_refl) as (tl & Hr & Hl). exists [], None, tl. done. }
  wp_step. wp_step. pose proof Hcl as (Hb & Hc & Hl).
  assert (Hfuel : ∀ b, buf_wf b → zlen (buf_rest b) ≤ Z.of_nat (Z.to_nat (buf_len b))).
  { intros b0 H0. rewrite buf_rest_length by done. buf_facts. lia. }
  destruct (skip_space_scans _ b Hb (Hfuel b Hb)) as [Hn E1]. pose proof (skip_space_split (buf_rest b)) as Hsp.
  destruct (skip_space_spec (buf_rest b)) as [comment n]. cbn [fst snd] in *. destruct Hsp as [_ Hsp].
  wp_step. eapply wp_ok; [exact E1|]. pose proof (clean_advance b n Hcl Hn) as Hcl1. set (b1 := buf_advance b n) in *.
  destruct comment; [by wp_step|]. destruct (Hsp eq_refl) as [Hws _]. pose proof Hcl1 as (Hb1 & _ & _).
  assert (Hr1 : buf_rest b1 = drop (Z.to_nat n) (buf_rest b)).
  { unfold b1. apply buf_rest_advance; [done|lia|]. rewrite buf_rest_length in Hn by done. lia. }
  wp_step. apply wp_getptr; [done|done|]. intros Hfit. wp_step. wp_step.
  destruct (options_end_scans _ false false 0 b1 Hb1 (Hfuel b1 Hb1)) as [Hn2 E2].
  pose proof (options_end_split false false 0 (buf_rest b1)) as Hoe.
  destruct (options_end_spec false false 0 (buf_rest b1)) as [olen n2]. cbn [fst snd] in *. rewrite Z.sub_0_r in Hoe.
  destruct Hoe as (Ho1 & Ho2 & Hoe). wp_step. eapply wp_ok; [exact E2|].
  pose proof (clean_advance b1 n2 Hcl1 Hn2) as Hcl2. set (b2 := buf_advance b1 n2) in *. pose proof Hcl2 as (Hb2 & _ & _).
  assert (Hr2 : buf_rest b2 = drop (Z.to_nat n2) (buf_rest b1)).
  { unfold b2. apply buf_rest_advance; [done|lia|]. rewrite buf_rest_length in Hn2 by done. lia. }
  wp_step. apply wp_new; [lia|]. intros ob Hob Hol Hop Hos. wp_step. pose proof (buf_rest_length b1 Hb1) as Hlen1.
  apply wp_load; [done|buf_facts; lia|lia|change (buf_size b2) with (buf_size b1); buf_facts; lia|]. intros opts Hopts Hlo Hbo. cbn [buf_data b2 buf_advance set_pos] in Hopts.
  rewrite (buf_rest_load b1) in Hopts by lia. apply wp_exec. rewrite <- Hlo at 1.
  assert (Hw : Writer (buf_putbytes opts (zlen opts)) opts) by (apply writer_putbytes; [done|buf_facts; lia]).
  pose proof (writer_appends ob Hob ltac:(lia)) as Hap. rewrite (proj2 (Z.leb_le _ _)) in Hap by lia.
  eapply wp_ok; [exact Hap|]. destruct (algo_here_eq b2 Hcl2) as (r & E3 & Hh2). wp_step. eapply wp_ok; [exact E3|].
  destruct r; wp_step; [|by split_and!]. split_and!; [done..|]. destruct (proj1 Hh2 eq_refl) as (tl & Hr & Htl).
  destruct Hoe as [[H1 H2]|(H1 & H2 & c & tl' & Hd & Hsc)].
  { exfalso. rewrite Hr2, drop_ge in Hr by lia. apply (f_equal length) in Hr. rewrite length_app in Hr. cbn in Hr. lia. }
  assert (Htl' : buf_rest b2 = tl').
  { rewrite Hr2, H1. replace (Z.to_nat (olen + 1)) with (Z.to_nat olen + 1)%nat by lia. by rewrite <- drop_drop, Hd. }
  exists (take (Z.to_nat n) (buf_rest b) ++ opts ++ [c]), (Some opts), tl. split_and!; [|done|done| | |].
  - rewrite <- (take_drop (Z.to_nat n) (buf_rest b)) at 1. rewrite <- Hr1, <- (take_drop (Z.to_nat olen) (buf_rest b1)), Hd.
    rewrite <- Hopts, <- Hr, Htl'. by rewrite <- !app_assoc.
  - by eexists _, c.
  - apply buf_wf_append; [done|done|lia].
  - rewrite buf_content_append by (done || lia). unfold buf_content. by rewrite Hol.
Qed.
End line.

(** ** The options *)
Lemma wp_match_option b name : buf_wf b → strlen name < 1000 →
  wp (match_option name) (λ r b', buf_wf b' ∧ buf_len b' = buf_len b ∧ buf_pos b ≤ buf_pos b') b.
Proof.
  intros Hb Hn. unfold match_option. wp_step. wp_step. assert (0 ≤ strlen name) by (unfold strlen; lia). pose proof Hb as Hb'. buf_facts.
  wp_step; [by wp_step|]. rewrite u32_small in * by (unfold U32; lia).
  wp_step. apply wp_getptr; [done|unfold U32; lia|]. intros Hfit. wp_step. apply wp_load; [done|lia|lia|lia|]. intros bs _ _ _.
  wp_step; [|by wp_step]. rewrite i32_small by lia. wp_step. apply wp_incrpos; [done|lia|]. intros ? ?. wp_step. split_and!; [done|done|cbn; lia].
Qed.

Lemma wp_command_loop fuel escaped b : buf_wf b → zlen (buf_rest b) ≤ Z.of_nat fuel →
  wp (command_loop fuel escaped) (λ r b', buf_wf b' ∧ buf_len b' = buf_len b ∧ buf_size b' = buf_size b ∧
    match r with Some p => buf_pos b < p ∧ p = buf_pos b' | None => True end ∧ buf_pos b ≤ buf_pos b') b.
Proof.
  revert escaped b. induction fuel as [|fuel IH]; intros escaped b Hb Hf; destruct (buf_rest b) as [|c tl] eqn:Hr;
    [|cbn in Hf; lia| |]; cbn [command_loop]; wp_step; wp_step.
  1, 2: rewrite scan_stop by done; wp_step; split_and!; done || lia.
  rewrite (scan_go b c tl) by done. destruct (getbyte_eq b c tl Hb Hr) as (E & Hr1 & Hb1). wp_step. eapply wp_ok; [exact E|].
  wp_step.
  - wp_step. apply wp_getptr; [done|unfold U32; lia|]. intros _. wp_step. split_and!; [done..|cbn; lia|done|cbn; lia].
  - eapply wp_mono; [apply IH; [done|rewrite Hr1; cbn [length] in Hf; lia]|]. cbn [buf_advance set_pos buf_pos buf_len buf_size].
    intros r b' (H1 & H2 & H3 & H4 & H5). split_and!; [done..| |lia]. destruct r; [lia|done].
Qed.
Lemma wp_add_option o b : buf_wf b →
  wp (add_option o) (λ _ b', buf_wf b' ∧ buf_len b' = buf_len b ∧ buf_pos b ≤ buf_pos b') b.
Proof.
  intros Hb. unfold add_option. wp_step. eapply wp_mono; [apply wp_match_option; [done|vm_compute; done]|].
  intros [] b1 (Hb1 & Hl1 & Hp1); [by wp_step|].
  wp_step. eapply wp_mono; [apply wp_match_option; [done|vm_compute; done]|]. intros [] b2 (Hb2 & Hl2 & Hp2); [wp_step; split_and!; [done|lia..]|].
  wp_step. eapply wp_mono; [apply wp_match_option; [done|vm_compute; done]|].
  intros [] b3 (Hb3 & Hl3 & Hp3); [|wp_step; split_and!; [done|lia..]].
  wp_step. apply wp_getptr; [done|unfold U32; lia|]. intros _. destruct (forced_command o); [wp_step; split_and!; [done|lia..]|].
  wp_step. wp_step. wp_step.
  eapply wp_mono; [apply wp_command_loop; [done|rewrite buf_rest_length by done; buf_facts; lia]|].
  intros r b4 (Hb4 & Hl4 & Hs4 & Hr & Hp4). destruct r as [p|]; [|wp_step; split_and!; [done|lia..]]. destruct Hr as [Hlt ->].
  wp_step. pose proof Hb4 as Hb4'. pose proof Hb3 as Hb3'. buf_facts. apply wp_load; [done|lia|lia|lia|]. intros cmd _ _ _. wp_step. split_and!; [done|lia..].
Qed.
Lemma wp_options_loop fuel o b : buf_wf b → zlen (buf_rest b) ≤ Z.of_nat fuel →
  wp (options_loop fuel o) (λ _ b', buf_wf b') b.
Proof.
  revert o b. induction fuel as [|fuel IH]; intros o b Hb Hf; destruct (buf_rest b) as [|c tl] eqn:Hr;
    [|cbn in Hf; lia| |]; cbn [options_loop]; wp_step; wp_step.
  1, 2: rewrite scan_stop by done; by wp_step.
  rewrite (scan_go b c tl) by done. wp_step. eapply wp_mono; [by apply wp_add_option|]. intros r b1 (Hb1 & Hl1 & Hp1).
  destruct r as [o'|]; [|by wp_step]. wp_step. unfold next_option. wp_step. wp_step.
  assert (Hrl : zlen (buf_rest b) ≤ Z.of_nat (S fuel)) by (by rewrite Hr). rewrite buf_rest_length in Hrl by done.
  destruct (buf_rest b1) as [|c1 tl1] eqn:Hr1.
  - rewrite scan_stop by done. wp_step. apply IH; [done|]. rewrite Hr1. cbn. lia.
  - rewrite (scan_go b1 c1 tl1) by done. destruct (getbyte_eq b1 c1 tl1 Hb1 Hr1) as (E & Hr2 & Hb2). wp_step. eapply wp_ok; [exact E|].
    wp_step. wp_step; [|by wp_step]. apply IH; [done|]. rewrite buf_rest_length by done. cbn [buf_advance set_pos buf_pos buf_len]. lia.
Qed.
Lemma wp_add_pubkey_options b : buf_wf b → wp svr_add_pubkey_options (λ _ b', buf_wf b') b.
Proof.
  intros Hb. unfold svr_add_pubkey_options. wp_step. apply wp_setpos; [done|done|]. intros _ Hb0. wp_step. wp_step.
  apply wp_options_loop; [done|]. rewrite buf_rest_length by done. cbn. buf_facts. lia.
Qed.

(** ** One line *)
Lemma wp_cmp_base64_key keyblob algo b : buf_wf b → buf_len b ≤ MAX_AUTHKEYS_LINE → zlen keyblob < U32 →
  wp (cmp_base64_key keyblob algo) (λ r b', b' = b ∧
    (r = true → base64_decode (buf_rest b) (2 * zlen (buf_rest b)) = Some keyblob ∧
                ∃ tl, keyblob = STORE32H (zlen algo) ++ algo ++ tl)) b.
Proof.
  intros Hb Hmax Hk. unfold cmp_base64_key. wp_step. wp_step. pose proof (buf_rest_length b Hb) as Hl. pose proof Hb as Hb'. buf_facts.
  unfold MAX_AUTHKEYS_LINE in *. rewrite u32_small by (unfold U32; lia). rewrite <- Hl. destruct (Z.eqb_spec (zlen (buf_rest b)) 0); [by wp_step|].
  wp_step. apply wp_new; [lia|]. intros dk Hdk Hdl Hdp Hds. wp_step. apply wp_getptr; [done|unfold U32; lia|]. intros Hfit.
  wp_step. apply wp_load; [done|lia|lia|lia|]. intros txt Htxt _ _.
  rewrite buf_rest_load, take_ge in Htxt by (done || lia). subst txt.
  destruct (base64_decode (buf_rest b) (2 * zlen (buf_rest b))) as [bs|] eqn:Edec; [|by wp_step].
  apply base64_decode_fits in Edec as Hbs; [|lia]. destruct Hbs as [Hbb Hbl].
  apply wp_exec. wp_step. apply wp_store; [done|lia|lia|done|]. intros dk1 Hdk1.
  apply wp_incrlen; [done|unfold U32; lia|]. cbn [buf_len set_data dk1]. intros _ Hdk2.
  set (dk2 := set_len (buf_len dk + zlen bs) dk1) in *.
  assert (Hrest : buf_rest dk2 = bs).
  { unfold dk2, dk1, buf_rest. cbn [buf_len buf_pos buf_data set_len set_data]. rewrite Hdl, Hdp. cbn [Z.to_nat].
    rewrite drop_0, take_0, app_nil_l, Z.sub_0_r, Z.add_0_l, Nat2Z.id. apply take_app_length. }
  destruct (Z.eqb_spec (zlen bs) (zlen keyblob)); [|by wp_step].
  destruct (bool_decide_reflect (bs = keyblob)) as [->|]; [|by wp_step]. cbn [negb orb].
  wp_step. apply wp_run. wp_step. refine (reader_wp buf_getint p_int dk2 _ Hdk2 _). intros v n1 Hn1 Hn1' Hw Hp. rewrite Hrest in Hp.
  apply p_int_range in Hp as Hv. apply p_int_inv in Hp; [|done]. set (dk3 := buf_advance dk2 n1) in *.
  wp_step. apply wp_getptr; [done|done|]. intros Hfit3. destruct (Z.eqb_spec v (zlen algo)) as [->|]; cbn [negb]; [|by repeat wp_step].
  wp_step. pose proof Hw as Hw'. buf_facts. apply wp_load; [done|lia|lia|lia|]. intros fa Hfa _ _. wp_step. wp_step. split; [done|].
  intros Hd%bool_decide_eq_true. split; [done|]. rewrite buf_rest_load in Hfa by (done || lia).
  exists (drop (length algo) (buf_rest dk3)). rewrite Hp at 1. f_equal. rewrite <- Hd at 1. by rewrite Hfa, Nat2Z.id, take_drop.
Qed.

(** The line lists the key: behind the options, the name of the algorithm, a
    space and base64 of the key, which says again what algorithm it is for. *)
Definition authorises (line algo keyblob : list Z) (opts : option (option PubKeyOptions)) : Prop :=
  ∃ pre otext b64 rest, line = pre ++ algo ++ [32] ++ b64 ++ rest ∧ prefix_ok pre otext ∧
    (32 ∉ b64) ∧ (rest = [] ∨ ∃ tl, rest = 32 :: tl) ∧
    base64_decode b64 (2 * zlen b64) = Some keyblob ∧ (∃ tl, keyblob = STORE32H (zlen algo) ++ algo ++ tl) ∧
    match otext, opts with
    | None, None => True
    | Some o, Some (Some p) => ∃ ob ob', buf_content ob = o ∧ svr_add_pubkey_options ob = Ok (Some p, ob')
    | _, _ => False
    end.

Lemma content_rest0 b : buf_pos b = 0 → buf_rest b = buf_content b.
Proof. intros H. unfold buf_rest, buf_content. rewrite H. by rewrite drop_0, Z.sub_0_r. Qed.
Lemma existsb_nul l : existsb (Z.eqb 0) l = false → Forall (λ c, c ≠ 0) l.
Proof.
  induction l as [|c l IH]; cbn [existsb]; [by constructor|]. intros [H1 H2]%orb_false_iff. constructor; [|auto].
  destruct (Z.eqb_spec 0 c); [done|congruence].
Qed.

Lemma nul_existsb l : Forall (λ c, c ≠ 0) l → existsb (Z.eqb 0) l = false.
Proof. induction 1 as [|c l Hc _ IH]; cbn [existsb]; [done|]. rewrite IH. by destruct (Z.eqb_spec 0 c); [congruence|]. Qed.

Section key_line.
Context (algo keyblob : list Z) (Halgo : zlen algo ≤ MAX_STRING_LEN) (Hkey : zlen keyblob < U32).

(** Behind the space, the base64 up to the next space is compared. *)
Lemma line_key_eq b b64 rest : clean b → buf_rest b = algo ++ [32] ++ b64 ++ rest → (32 ∉ b64) → (rest = [] ∨ ∃ tl, rest = 32 :: tl) →
  ∃ b', buf_wf b' ∧ buf_size b' = buf_size b ∧ buf_len b' ≤ MAX_AUTHKEYS_LINE ∧ buf_rest b' = b64 ∧
    line_key algo keyblob b = (ret ← cmp_base64_key keyblob algo; mret (Some ret)) b'.
Proof using Halgo.
  intros (Hb & Hc & Hl) Hr H64 Hrest. unfold line_key, MAX_STRING_LEN, MAX_AUTHKEYS_LINE in *. rewrite i32_small by lia.
  pose proof (buf_rest_length b Hb) as Hlen. rewrite Hr, !length_app in Hlen. cbn [length] in Hlen. pose proof (wf_pos b Hb) as Hpos.
  erewrite bind_ok by (rewrite buf_incrpos_eq by (done || lia); rewrite (proj2 (andb_true_iff _ _)) by lia; done).
  set (b1 := set_pos _ b) in *. assert (Hb1 : buf_wf b1) by (apply buf_wf_set_pos; [done|lia]).
  assert (Hr1 : buf_rest b1 = 32 :: b64 ++ rest).
  { change b1 with (buf_advance b (zlen algo)). rewrite buf_rest_advance by (done || lia). by rewrite Hr, Nat2Z.id, drop_app_length. }
  destruct (getbyte_eq b1 _ _ Hb1 Hr1) as (E & Hr2 & Hb2). erewrite bind_ok by exact E. set (b2 := buf_advance b1 1) in *.
  cbn [Z.eqb Pos.eqb negb]. erewrite bind_ok by done. pose proof (buf_rest_length b2 Hb2) as Hl2. rewrite Hr2 in Hl2.
  destruct (base64_end_scans (Z.to_nat (buf_len b2)) 0 b2 Hb2) as [Hn E3]; [rewrite Hr2; buf_facts; lia|]. rewrite Hr2 in *.
  destruct (base64_end_app 0 b64 rest H64 Hrest) as [n Hn']. rewrite Hn' in *. cbn [fst snd] in *. rewrite length_app in *.
  erewrite bind_ok by exact E3. pose proof (wf_pos b2 Hb2) as Hp2. pose proof (wf_len b2 Hb2) as Hln2. assert (Hlb : buf_len b2 = buf_len b) by done.
  set (b4 := set_pos (buf_pos b2) (buf_advance b2 n)). set (b5 := set_pos (buf_pos b2) (set_len (buf_pos b2 + zlen b64) b2)).
  erewrite bind_ok by (unfold buf_setpos; erewrite bind_ok by done; rewrite (Z.gtb_ltb _ _), (proj2 (Z.ltb_ge _ _)) by (cbn; lia); done).
  rewrite u32_small by (unfold U32; lia).
  assert (E5 : buf_setlen (buf_pos b2 + (0 + zlen b64)) b4 = Ok (tt, b5)).
  { unfold buf_setlen. erewrite bind_ok by done. rewrite (Z.gtb_ltb _ _), (proj2 (Z.ltb_ge _ _)) by (change (buf_size b4) with (buf_size b2); lia).
    unfold put, b5, b4, set_pos, set_len, buf_advance. cbn [buf_pos buf_len buf_data buf_size]. do 3 f_equal; lia. }
  erewrite bind_ok by exact E5. exists b5.
  assert (Hb5 : buf_wf b5) by (destruct Hb2; split; cbn [b5 set_pos set_len buf_pos buf_len buf_size buf_data]; auto; lia).
  split_and!; [done|done|cbn [b5 set_pos set_len buf_len]; lia| |done].
  transitivity (take (length b64) (buf_rest b2)); [|by rewrite Hr2, take_app_length].
  unfold b5, buf_rest, set_pos, set_len. cbn [buf_pos buf_len buf_data]. rewrite take_take. f_equal. lia.
Qed.
Lemma wp_line_key b tl : clean b → buf_rest b = algo ++ tl → 3 ≤ zlen tl →
  wp (line_key algo keyblob) (λ r b', buf_wf b' ∧ buf_size b' = buf_size b ∧
    (r = Some true → ∃ b64 rest, tl = [32] ++ b64 ++ rest ∧ (32 ∉ b64) ∧ (rest = [] ∨ ∃ tl, rest = 32 :: tl) ∧
       base64_decode b64 (2 * zlen b64) = Some keyblob ∧ ∃ tl, keyblob = STORE32H (zlen algo) ++ algo ++ tl)) b.
Proof using Halgo Hkey.
  intros Hcl Hr Htl. destruct tl as [|c tl]; [done|]. destruct (Z.eqb_spec c 32) as [->|Hc].
  - pose proof (base64_end_split 0 tl) as Hsp. destruct (base64_end_spec 0 tl) as [len n]. rewrite Z.sub_0_r in Hsp.
    destruct Hsp as (H1 & H2 & H3 & H4). rewrite <- (take_drop (Z.to_nat len) tl) in Hr.
    destruct (line_key_eq b _ _ Hcl Hr H3 H4) as (b' & Hb' & Hs' & Hl' & Hr' & E). eapply wp_goto; [exact E|].
    wp_step. eapply wp_mono; [by apply wp_cmp_base64_key|]. intros r b2 [-> Hret]. wp_step. split_and!; [done|done|].
    intros [= ->]. destruct (Hret eq_refl) as [Hd Hk]. rewrite Hr' in Hd. exists (take (Z.to_nat len) tl), (drop (Z.to_nat len) tl).
    split_and!; [|done|done|done|done]. cbn [app]. by rewrite take_drop.
  - destruct Hcl as (Hb & _ & Hl). unfold line_key, MAX_STRING_LEN, MAX_AUTHKEYS_LINE in *. rewrite i32_small by lia.
    wp_step. apply wp_incrpos; [done|lia|]. intros Hp Hb1.
    destruct (getbyte_eq _ c tl Hb1) as (E & _ & Hb2).
    { change (set_pos (buf_pos b + zlen algo) b) with (buf_advance b (zlen algo)). rewrite buf_rest_advance by (done || lia). by rewrite Hr, Nat2Z.id, drop_app_length. }
    wp_step. eapply wp_ok; [exact E|]. rewrite (proj2 (Z.eqb_neq c 32)) by done. by wp_step.
Qed.

Lemma cmp_base64_key_accepts b tl : buf_wf b → buf_len b ≤ MAX_AUTHKEYS_LINE →
  base64_decode (buf_rest b) (2 * zlen (buf_rest b)) = Some keyblob → keyblob = STORE32H (zlen algo) ++ algo ++ tl →
  cmp_base64_key keyblob algo b = Ok (true, b).
Proof using Halgo.
  clear Hkey. intros Hb Hmax Edec Hk. apply base64_decode_fits in Edec as Hbs; [|lia]. destruct Hbs as [Hbb Hbl].
  unfold cmp_base64_key. erewrite bind_ok by done. pose proof (buf_rest_length b Hb) as Hl. pose proof Hb as Hb'. buf_facts.
  unfold MAX_AUTHKEYS_LINE, MAX_STRING_LEN in *. rewrite u32_small by (unfold U32; lia). rewrite <- Hl.
  assert (Hk4 : zlen keyblob = 4 + zlen algo + zlen tl) by (rewrite Hk, !length_app; cbn; lia).
  rewrite (proj2 (Z.eqb_neq _ 0)) by lia.
  destruct (buf_new_ok (2 * zlen (buf_rest b))) as (dk & E & Hdk & Hdl & Hdp & Hds); [unfold BUF_MAX_SIZE; lia|].
  erewrite bind_ok by (rewrite E; done).
  erewrite bind_ok by (rewrite buf_getptr_eq by (done || unfold U32; lia); rewrite (proj2 (Z.leb_le _ _)) by lia; done).
  erewrite bind_ok by (apply buf_load_eq; [done|lia|lia]). rewrite buf_rest_load, take_ge by (done || lia). rewrite Edec.
  set (dk1 := set_data (take (Z.to_nat 0) (buf_data dk) ++ keyblob ++ drop (Z.to_nat (0 + zlen keyblob)) (buf_data dk)) dk).
  set (dk2 := set_len (buf_len dk + zlen keyblob) dk1). assert (Hdk1 : buf_wf dk1) by (apply buf_wf_store; [done|lia|lia|done]).
  assert (Hdk2 : buf_wf dk2) by (apply buf_wf_set_len; [done|cbn [dk1 set_data buf_pos buf_size]; lia]).
  assert (Hrest : buf_rest dk2 = keyblob).
  { unfold dk2, dk1, buf_rest. cbn [buf_len buf_pos buf_data set_len set_data]. rewrite Hdl, Hdp. cbn [Z.to_nat].
    rewrite drop_0, take_0, app_nil_l, Z.sub_0_r, Z.add_0_l, Nat2Z.id. apply take_app_length. }
  assert (Est : (buf_store 0 keyblob;; buf_incrlen (zlen keyblob)) dk = Ok (tt, dk2)).
  { erewrite bind_ok by (apply buf_store_eq; [done|lia|lia]). fold dk1. rewrite buf_incrlen_eq by (done || unfold U32; lia).
    rewrite (proj2 (Z.leb_le _ _)); [done|]. cbn [dk1 set_data buf_len buf_size]. lia. }
  erewrite bind_ok by (unfold exec; rewrite Est; done). rewrite Z.eqb_refl, bool_decide_eq_true_2 by done. cbn [negb orb].
  pose proof (reader_refines (op := buf_getint) dk2 Hdk2) as Hrf. rewrite Hrest in Hrf. rewrite Hk, p_int_app in Hrf by (unfold U32; lia).
  destruct Hrf as (n & Hn & Hnl & Htl & Ei). set (dk3 := buf_advance dk2 n) in *.
  assert (Hdk3 : buf_wf dk3) by (apply buf_wf_advance; [done|pose proof (wf_pos dk2 Hdk2); lia|done]).
  assert (Hr3 : buf_rest dk3 = algo ++ tl) by (unfold dk3; rewrite buf_rest_advance by done; rewrite Hrest, Hk; congruence).
  pose proof (buf_rest_length dk3 Hdk3) as Hl3. rewrite Hr3, length_app in Hl3. pose proof (wf_len dk3 Hdk3).
  rewrite (bind_ok _ _ _ (true, dk3) b); [done|]. erewrite bind_ok by exact Ei.
  erewrite bind_ok by (rewrite buf_getptr_eq by (done || unfold U32; lia); rewrite (proj2 (Z.leb_le _ _)) by lia; done).
  rewrite Z.eqb_refl. cbn [negb]. erewrite bind_ok by (apply buf_load_eq; [done|lia|lia]).
  rewrite buf_rest_load, Hr3, Nat2Z.id, take_app_length, bool_decide_eq_true_2 by (done || lia). done.
Qed.

Lemma wp_checkpubkey_line b : buf_wf b → buf_pos b = 0 →
  wp (checkpubkey_line algo keyblob) (λ r b', buf_wf b' ∧ buf_size b' = buf_size b ∧
    if r.1 then authorises (buf_content b) algo keyblob r.2 else mjoin r.2 = None) b.
Proof using Halgo Hkey.
  intros Hb Hp. unfold checkpubkey_line. wp_step. wp_step. wp_step; [by wp_step|].
  assert (Hl : buf_len b ≤ MAX_AUTHKEYS_LINE) by bool_lia. wp_step. pose proof Hb as Hb'. buf_facts.
  apply wp_load; [done|lia|lia|lia|]. intros content Hc _ _. rewrite drop_0 in Hc. fold (buf_content b) in Hc. subst content.
  wp_step; [by wp_step|]. assert (Hcl : clean b) by (split_and!; [done|by apply existsb_nul|done]).
  wp_step. eapply wp_ok; [by apply algo_fits_eq|]. wp_step; [by wp_step|].
  wp_step. eapply wp_mono; [by apply wp_line_options|]. intros lo b1 (Hcl1 & Hl1 & Hs1 & Hlo). pose proof Hcl1 as (Hb1 & _ & _).
  destruct lo as [ob|]; [|by wp_step]. destruct Hlo as (pre & otext & tl & Hr & Hr1 & Htl & Hpre & Hob).
  wp_step. eapply wp_mono; [by apply (wp_line_key b1 tl)|]. intros r b2 (Hb2 & Hs2 & Hr2).
  assert (Hsz : buf_size b2 = buf_size b) by lia.
  destruct r as [ret|]; [|by wp_step]. rewrite content_rest0 in Hr by done.
  assert (Hauth : ∀ o, ret = true → match otext, o with
    | None, None => True
    | Some o, Some (Some p) => ∃ ob ob', buf_content ob = o ∧ svr_add_pubkey_options ob = Ok (Some p, ob')
    | _, _ => False end → authorises (buf_content b) algo keyblob o).
  { intros o -> Ho. destruct (Hr2 eq_refl) as (b64 & rest & -> & Hb64 & Hrest & Hdec & Htlk).
    exists pre, otext, b64, rest. split_and!; done. }
  destruct ob as [ob|], otext as [o|]; try done.
  - destruct Hob as [Hob Ho]. destruct ret; [|by wp_step]. wp_step. apply wp_run.
    eapply wp_mono; [apply wp_keep, wp_add_pubkey_options, Hob|]. intros p ob' [_ E]. cbn [fst].
    destruct p as [p|]; wp_step; split_and!; [done|done| |done|done|done]. apply Hauth; [done|]. by exists ob, ob'.
  - wp_step. split_and!; [done|done|]. cbn [fst snd]. destruct ret; [by apply Hauth|done].
Qed.
(** A line as it is written by [ssh-keygen] is accepted. *)
Lemma line_accepted b b64 rest tl : buf_wf b → buf_pos b = 0 → buf_content b = algo ++ [32] ++ b64 ++ rest →
  10 ≤ zlen (buf_content b) ≤ MAX_AUTHKEYS_LINE → Forall (λ c, c ≠ 0) (buf_content b) →
  (32 ∉ b64) → (rest = [] ∨ ∃ tl, rest = 32 :: tl) →
  base64_decode b64 (2 * zlen b64) = Some keyblob → keyblob = STORE32H (zlen algo) ++ algo ++ tl →
  ∃ b', checkpubkey_line algo keyblob b = Ok ((true, None), b').
Proof using Halgo.
  clear Hkey. intros Hb Hp Hc Hlen Hnz H64 Hrest Edec Hk. rewrite <- content_rest0 in * by done. pose proof Hb as Hb'. buf_facts.
  pose proof (buf_rest_length b Hb) as Hl. rewrite Hp, Z.sub_0_r in Hl.
  apply base64_decode_fits in Edec as Hfit; [|lia]. destruct Hfit as [_ Hfit].
  assert (Hk4 : zlen keyblob = 4 + zlen algo + zlen tl) by (rewrite Hk, !length_app; cbn; lia).
  assert (Hl' : zlen (buf_rest b) = zlen algo + 1 + zlen b64 + zlen rest) by (rewrite Hc, !length_app; cbn; lia).
  assert (Hcl : clean b) by (split_and!; [done|by rewrite <- content_rest0|lia]).
  unfold checkpubkey_line, MIN_AUTHKEYS_LINE. erewrite bind_ok by done.
  rewrite (proj2 (orb_false_iff _ _)) by (split; [apply Z.ltb_ge|rewrite Z.gtb_ltb; apply Z.ltb_ge]; lia).
  erewrite bind_ok by (unfold buf_load; erewrite bind_ok by done; rewrite mem_load_ok by lia; done).
  rewrite drop_0. fold (buf_content b). rewrite <- content_rest0 by done.
  replace (existsb (Z.eqb 0) (buf_rest b)) with false by (symmetry; by apply nul_existsb).
  erewrite bind_ok by (by apply algo_fits_eq). rewrite (proj2 (Z.leb_le _ _)) by lia. cbn [negb].
  destruct (algo_here_eq algo Halgo b Hcl) as (r & E & Hh). destruct r.
  2: { exfalso. assert (false = true) as [=]. apply Hh. exists ([32] ++ b64 ++ rest). split; [done|]. rewrite !length_app. cbn. lia. }
  unfold line_options. erewrite bind_ok by (erewrite bind_ok by exact E; done).
  destruct (line_key_eq b b64 rest Hcl Hc H64 Hrest) as (b' & Hb1 & Hs1 & Hl1 & Hr1 & Ek).
  erewrite bind_ok; [|rewrite Ek; erewrite bind_ok by (apply (cmp_base64_key_accepts b' tl); [done|done|by rewrite Hr1|done]); done].
  by exists b'.
Qed.
End key_line.

(** ** Lines of a file *)
Definition is_eol (c : Z) : bool := (c =? 10) || (c =? 13).
(** At most [n] characters of the line. *)
Fixpoint line_of (n : nat) (file : list Z) : list Z * list Z :=
  match n, file with
  | S n, c :: f => if is_eol c then ([], file) else let '(l, r) := line_of n f in (c :: l, r)
  | _, _ => ([], file)
  end.
(** Is there a line, the line, and the rest of the file. *)
Definition getline_spec (n : nat) (file : list Z) : bool * list Z * list Z :=
  let '(l, r) := line_of n file in
  if (length l =? n)%nat then (true, [], r)
  else match r with [] => (negb (bool_decide (l = [])), l, []) | _ :: r => (true, l, r) end.

Lemma line_of_split n file : let '(l, r) := line_of n file in
  file = l ++ r ∧ (length l ≤ n)%nat ∧ Forall (λ c, is_eol c = false) l ∧
  ((length l < n)%nat → match r with [] => True | c :: _ => is_eol c = true end).
Proof.
  revert file. induction n as [|n IH]; intros [|c file]; cbn [line_of]; try (split_and!; [done|cbn; lia|constructor|cbn; lia || done]).
  destruct (is_eol c) eqn:Ec; [split_and!; [done|cbn; lia|constructor|done]|].
  specialize (IH file). destruct (line_of n file) as [l r]. destruct IH as (-> & H2 & H3 & H4).
  split_and!; [done|cbn; lia|by constructor|]. cbn. intros. apply H4. lia.
Qed.
Lemma getline_loop_eq file c b : buf_wf b → buf_pos b = buf_len b → Forall is_byte file →
  let '(l, r) := line_of (Z.to_nat (buf_size b - buf_len b)) file in
  ∃ x, getline_loop file c b = Ok (x, buf_append b l) ∧
    if buf_len b + zlen l =? buf_size b then ∃ c', x = (c', false, r) ∧ (c' = None → l = [] ∧ c = None)
    else x = match r with [] => (None, true, []) | c :: r => (Some c, true, r) end.
Proof.
  revert c b. induction file as [|x file IH]; intros c b Hb Hp Hbytes; pose proof Hb as Hb'; buf_facts; cbn [getline_loop].
  - destruct (Z.to_nat (buf_size b - buf_len b)) eqn:En; cbn [line_of]; erewrite bind_ok by done; rewrite buf_append_nil by done; cbn [length].
    all: destruct (Z.eqb_spec (buf_len b + Z.of_nat 0) (buf_size b)), (Z.ltb_spec (buf_pos b) (buf_size b)); try lia;
      eexists; split; [done|]; try done; eauto.
  - apply Forall_cons in Hbytes as [Hx Hbytes].
    destruct (Z.to_nat (buf_size b - buf_len b)) eqn:En; cbn [line_of]; erewrite bind_ok by done.
    { rewrite buf_append_nil by done. cbn [length]. rewrite (proj2 (Z.ltb_ge _ _)) by lia. rewrite (proj2 (Z.eqb_eq _ _)) by lia.
      eexists; split; [done|]. eauto. }
    rewrite (proj2 (Z.ltb_lt _ _)) by lia. fold (is_eol x). destruct (is_eol x).
    { rewrite buf_append_nil by done. cbn [length]. rewrite (proj2 (Z.eqb_neq _ _)) by lia. by eexists. }
    rewrite u8_small by done. pose proof (writer_appends (Writer := writer_putbyte x Hx) b Hb Hp) as Hw. cbn [length] in Hw.
    rewrite (proj2 (Z.leb_le _ _)) in Hw by lia. erewrite bind_ok by exact Hw.
    specialize (IH (Some x) (buf_append b [x])). cbn [buf_append buf_len buf_size buf_pos length] in IH.
    replace (Z.to_nat (buf_size b - (buf_len b + Z.of_nat 1))) with n in IH by lia.
    fold (buf_append b [x]) in IH. pose proof (line_of_split n file) as Hsp. destruct (line_of n file) as [l r]. destruct Hsp as (_ & Hln & _ & _).
    destruct IH as (y & E & Hy); [apply buf_wf_append; [done|by apply Forall_singleton|cbn; lia]|done|done|].
    exists y. split; [rewrite E, buf_append_append by (done || cbn [length]; lia); done|]. cbn [length].
    replace (buf_len b + Z.of_nat (S (length l))) with (buf_len b + Z.of_nat 1 + zlen l) by lia.
    case_if; [|done]. destruct Hy as (c' & -> & Hc'). exists c'. split; [done|]. intros [? ?]%Hc'. done.
Qed.

Lemma buf_getline_eq file b : buf_wf b → 0 < buf_size b → Forall is_byte file →
  let '(more, l, r) := getline_spec (Z.to_nat (buf_size b)) file in
  ∃ b', buf_getline file b = Ok ((more, r), b') ∧ buf_wf b' ∧ buf_size b' = buf_size b ∧
    (more = true → buf_pos b' = 0 ∧ buf_content b' = l).
Proof.
  intros Hb Hs Hbytes. unfold buf_getline, getline_spec. pose proof Hb as Hb'. buf_facts.
  set (b0 := set_pos 0 (set_len 0 b)).
  assert (Hb0 : buf_wf b0) by (split; cbn; auto; lia).
  assert (E0 : ∀ m, ((buf_setpos 0;; buf_setlen 0;; m) : M buffer (bool * list Z)) b = m b0).
  { intros m. unfold buf_setpos, buf_setlen. erewrite bind_ok; [|erewrite bind_ok by done; case_if; [lia|done]].
    erewrite bind_ok; [|erewrite bind_ok by done; case_if; [cbn in *; lia|done]]. f_equal. }
  rewrite E0. pose proof (getline_loop_eq file None b0 Hb0 eq_refl Hbytes) as Hl.
  replace (Z.to_nat (buf_size b0 - buf_len b0)) with (Z.to_nat (buf_size b)) in Hl by (cbn; lia).
  pose proof (line_of_split (Z.to_nat (buf_size b)) file) as Hsp. destruct (line_of (Z.to_nat (buf_size b)) file) as [l r].
  destruct Hsp as (Hf & Hln & _ & _). assert (Hlb : Forall is_byte l) by (rewrite Hf in Hbytes; by apply Forall_app in Hbytes as [? _]).
  destruct Hl as (x & E & Hx). change (buf_len b0 + zlen l) with (zlen l) in Hx. change (buf_size b0) with (buf_size b) in Hx.
  erewrite bind_ok by exact E. set (b1 := buf_append b0 l) in *.
  assert (Hb1 : buf_wf b1) by (apply buf_wf_append; [done|done|cbn; lia]).
  assert (Hc1 : buf_content b1 = l) by (unfold b1; rewrite buf_content_append by (done || cbn; lia); done).
  assert (Hr1 : ∀ more r, (buf_setpos 0;; mret (more, r)) b1 = Ok ((more : bool, r : list Z), set_pos 0 b1)).
  { intros. unfold buf_setpos. erewrite bind_ok; [done|]. erewrite bind_ok by done. case_if; [cbn in *; lia|done]. }
  assert (Hw1 : buf_wf (set_pos 0 b1)) by (apply buf_wf_set_pos; [done|cbn; lia]).
  destruct (Z.eqb_spec (zlen l) (buf_size b)) as [Hfull|Hpart].
  - destruct Hx as (c' & -> & Hc'). rewrite (proj2 (Nat.eqb_eq _ _)) by lia. destruct c' as [c'|]; [|destruct (Hc' eq_refl) as [-> _]; cbn in Hfull; lia].
    cbn beta iota. cbn [negb when].
    erewrite bind_ok by (unfold buf_setlen; erewrite bind_ok by done; rewrite (Z.gtb_ltb _ _), (proj2 (Z.ltb_ge _ _)) by (cbn; lia); done).
    erewrite bind_ok by done. unfold buf_setpos. erewrite bind_ok; [|erewrite bind_ok by done; cbn; done].
    eexists. split; [done|]. split_and!; [|done|done]. destruct Hb1. split; cbn in *; auto; lia.
  - rewrite (proj2 (Nat.eqb_neq _ _)) by lia. destruct r as [|c r]; subst x; cbn beta iota; cbn [negb when]; erewrite bind_ok by done; erewrite bind_ok by done.
    + destruct l as [|z l].
      * eexists. split; [done|]. done.
      * rewrite (proj2 (Z.eqb_neq _ _)) by (cbn; lia). rewrite Hr1. eexists. split; [done|]. split_and!; [done|done|]. by intros _.
    + rewrite Hr1. eexists. split; [done|]. split_and!; [done|done|]. by intros _.
Qed.

(** Where a line of the file begins: at the beginning, or after an end of line. *)
Definition line_start (p : list Z) : Prop := p = [] ∨ ∃ q c, p = q ++ [c] ∧ is_eol c = true.
(** Where [buf_getline] goes on inside a line, after the characters that filled
    its buffer. *)
Definition cut_in_line (p : list Z) : Prop :=
  ∃ q w, p = q ++ w ∧ zlen w = MAX_AUTHKEYS_LINE ∧ Forall (λ c, is_eol c = false) w.
Definition starts (p : list Z) : Prop := line_start p ∨ cut_in_line p.
(** Every line of the file fits into the buffer. *)
Definition short_lines (file : list Z) : Prop :=
  ∀ p w s, file = p ++ w ++ s → Forall (λ c, is_eol c = false) w → zlen w < MAX_AUTHKEYS_LINE.
Definition line_at (file p line s : list Z) : Prop :=
  file = p ++ line ++ s ∧ starts p ∧ Forall (λ c, is_eol c = false) line ∧ match s with [] => True | c :: _ => is_eol c = true end.
Lemma starts_app p q : starts p → starts q → starts (p ++ q).
Proof.
  intros Hp [[->|(q' & c & -> & Hc)]|(q' & w & -> & Hw)]; [by rewrite app_nil_r|left; right|right].
  - exists (p ++ q'), c. by rewrite app_assoc.
  - exists (p ++ q'), w. by rewrite app_assoc.
Qed.
Lemma short_line_start file p line s : short_lines file → line_at file p line s → line_start p.
Proof.
  intros Hsh (-> & [?|(q & w & -> & Hl & Hw)] & _); [done|]. exfalso.
  assert (zlen w < MAX_AUTHKEYS_LINE); [|lia]. apply (Hsh q w (line ++ s)); [by rewrite <- app_assoc|done].
Qed.
Lemma line_at_app file p q line s : starts p → line_at file q line s → line_at (p ++ file) (p ++ q) line s.
Proof. intros Hp (-> & Hq & Hl & Hs). split_and!; [by rewrite !app_assoc|by apply starts_app|done|done]. Qed.
Lemma getline_spec_split file l r : getline_spec (Z.to_nat MAX_AUTHKEYS_LINE) file = (true, l, r) →
  (length r < length file)%nat ∧ (l ≠ [] → ∃ s, line_at file [] l s) ∧ (r = [] ∨ ∃ p, file = p ++ r ∧ starts p).
Proof.
  unfold getline_spec. pose proof (line_of_split (Z.to_nat MAX_AUTHKEYS_LINE) file) as H. unfold MAX_AUTHKEYS_LINE in *.
  destruct (line_of (Z.to_nat 4200) file) as [l0 r0]. destruct H as (-> & H2 & H3 & H4). rewrite length_app.
  destruct (Nat.eqb_spec (length l0) (Z.to_nat 4200)) as [Hfull|Hp].
  - intros [= <- <-]. split_and!; [lia|done|]. right. exists l0. split; [done|]. right. exists [], l0. split_and!; [done|unfold MAX_AUTHKEYS_LINE; lia|done].
  - specialize (H4 ltac:(lia)). destruct r0 as [|c r0].
    + intros [= Hl <- <-]. split_and!; [destruct l0; [done|cbn; lia]| |by left]. intros _. exists []. split_and!; [done|by left; left|done|done].
    + intros [= <- <-]. split_and!; [cbn; lia| |].
      * intros _. exists (c :: r0). split_and!; [done|by left; left|done|done].
      * right. exists (l0 ++ [c]). split; [by rewrite <- app_assoc|]. left. right. by exists l0, c.
Qed.

Lemma authorises_nonempty algo keyblob o : ~ authorises [] algo keyblob o.
Proof. intros (pre & ot & b64 & rest & E & _). apply (f_equal length) in E. rewrite !length_app in E. cbn in E. lia. Qed.
Lemma wp_checkpubkey_loop algo keyblob fuel file b : zlen algo ≤ MAX_STRING_LEN → zlen keyblob < U32 →
  buf_wf b → buf_size b = MAX_AUTHKEYS_LINE → Forall is_byte file → (length file < fuel)%nat →
  wp (checkpubkey_loop fuel file algo keyblob None) (λ r _,
    if r.1 then ∃ p line s so, line_at file p line s ∧ authorises line algo keyblob so ∧ r.2 = mjoin so
    else r.2 = None) b.
Proof.
  intros Ha Hk. revert file b. induction fuel as [|fuel IH]; intros file b Hb Hs Hbytes Hf; [lia|]. cbn [checkpubkey_loop].
  pose proof (buf_getline_eq file b Hb) as Hg. rewrite Hs in Hg. specialize (Hg ltac:(done) Hbytes).
  destruct (getline_spec (Z.to_nat MAX_AUTHKEYS_LINE) file) as [[more l] r] eqn:Eg. destruct Hg as (b1 & E & Hb1 & Hs1 & Hmore).
  wp_step. eapply wp_ok; [exact E|]. cbn beta iota. destruct more; cbn [negb]; [|by wp_step]. destruct (Hmore eq_refl) as [Hp1 Hc1].
  apply getline_spec_split in Eg as (Hlen & Hhere & Hnext).
  wp_step. eapply wp_mono; [by apply wp_checkpubkey_line|]. intros [ret so] b2 (Hb2 & Hs2 & Hret). cbn [fst snd] in Hret.
  cbn beta iota. destruct ret.
  - wp_step. cbn [fst snd]. rewrite Hc1 in Hret. destruct Hhere as [s Hl]; [intros ->; by eapply authorises_nonempty|].
    exists [], l, s, so. split_and!; [done|done|]. by destruct so.
  - replace (default None so) with (@None PubKeyOptions) by (destruct so as [[]|]; done).
    assert (Hr : ∃ p, file = p ++ r ∧ (r ≠ [] → starts p)).
    { destruct Hnext as [->|(p & ? & ?)]; [exists file; by rewrite app_nil_r|by exists p]. }
    destruct Hr as (p & -> & Hp). eapply wp_mono; [apply IH; [done|lia|by apply Forall_app in Hbytes as [_ ?]|lia]|].
    intros [ret o] b3. cbn [fst snd]. destruct ret; [|done]. intros (q & line & s & so' & Hl & Hau & ->).
    exists (p ++ q), line, s, so'. split_and!; [|done|done]. apply line_at_app; [|done]. apply Hp. intros ->.
    destruct Hl as (Hl & _). symmetry in Hl. apply app_nil in Hl as [_ [-> _]%app_nil]. by eapply authorises_nonempty.
Qed.

Lemma checkpubkey_spec {D Mo} (sshhostkey : list (algo_type D Mo)) file algo keyblob :
  Forall is_byte file → zlen algo ≤ MAX_STRING_LEN → zlen keyblob < U32 →
  match checkpubkey sshhostkey (Some file) algo keyblob None with
  | Ok (true, o) => have_algo algo (zlen algo) sshhostkey = true ∧
      ∃ p line s so, line_at file p line s ∧ authorises line algo keyblob so ∧ o = mjoin so
  | Ok (false, o) => o = None
  | Exit _ => True
  | UB _ => False
  end.
Proof.
  intros Hf Ha Hk. unfold checkpubkey. destruct (have_algo algo (zlen algo) sshhostkey); cbn [negb]; [|done].
  destruct (buf_new_ok MAX_AUTHKEYS_LINE) as (b & E & Hb & Hl & Hp & Hs); [done|]. rewrite (obind_ok _ _ _ E).
  pose proof (wp_checkpubkey_loop algo keyblob (S (length file)) file b Ha Hk Hb Hs Hf ltac:(lia)) as Hw. unfold wp in Hw.
  destruct (checkpubkey_loop (S (length file)) file algo keyblob None b) as [[[ret o] b']|e|e]; [|done|done].
  cbn. destruct ret; [|done]. done.
Qed.

(** C12. Which keys are accepted.  Whatever bytes [authorized_keys] holds, the
    parser stays inside its buffers and ends.  A key is accepted only because of
    text in the file that ends where a line ends and is: options or nothing, the
    algorithm the client named, a space and base64 that decodes to the client's
    key blob, which itself names that algorithm.  The text is a line of the file
    when no line has 4200 characters or more ([short_lines]); in general it is a
    line, or what is left of a longer line after characters that filled the
    buffer ([cut_in_line]), which the comment of [buf_getline] says is ignored
    and [overlong_line_resumes] shows is not.  The restrictions in force
    afterwards are those the options of that text parse to, and a refused key
    leaves none. *)
Theorem checkpubkey_sound {D Mo} (sshhostkey : list (algo_type D Mo)) file algo keyblob :
  Forall is_byte file → zlen algo ≤ MAX_STRING_LEN → zlen keyblob < U32 →
  match checkpubkey sshhostkey (Some file) algo keyblob None with
  | Ok (true, o) => have_algo algo (zlen algo) sshhostkey = true ∧
      ∃ p line s so, file = p ++ line ++ s ∧
        (line_start p ∨ cut_in_line p) ∧ (short_lines file → line_start p) ∧
        Forall (λ c, is_eol c = false) line ∧ match s with [] => True | c :: _ => is_eol c = true end ∧
        authorises line algo keyblob so ∧ o = mjoin so
  | Ok (false, o) => o = None
  | Exit _ => True
  | UB _ => False
  end.
Proof.
  intros Hf Ha Hk. pose proof (checkpubkey_spec sshhostkey file algo keyblob Hf Ha Hk) as H.
  destruct (checkpubkey _ _ _ _ _) as [[[] o]|e|e]; [|done..]. destruct H as (Hh & p & line & s & so & Hl & Hau & Ho).
  split; [done|]. exists p, line, s, so. pose proof Hl as (E & Hst & Hne & Hend).
  split_and!; [done|exact Hst|intros Hsh; by eapply short_line_start|done..].
Qed.
Lemma checkpubkey_sound_witness :
  have_algo (bytes_of_string "ssh-rsa") 7 hostkey_algos = true ∧
  ∃ p line s so, key_line ++ [10] = p ++ line ++ s ∧
    (line_start p ∨ cut_in_line p) ∧ (short_lines (key_line ++ [10]) → line_start p) ∧
    Forall (λ c, is_eol c = false) line ∧ match s with [] => True | c :: _ => is_eol c = true end ∧
    authorises line (bytes_of_string "ssh-rsa") key_blob so ∧ None = mjoin so.
Proof.
  pose proof (checkpubkey_sound hostkey_algos (key_line ++ [10]) (bytes_of_string "ssh-rsa") key_blob) as H.
  assert (E : checkpubkey hostkey_algos (Some (key_line ++ [10])) (bytes_of_string "ssh-rsa") key_blob None = Ok (true, None))
    by (vm_compute; reflexivity).
  rewrite E in H. apply H; [|vm_compute; discriminate|vm_compute; reflexivity].
  apply (bool_decide_unpack _). vm_compute. exact I.
Defined.

(** ** Lines as they are written *)
Lemma line_of_line l s n : Forall (λ c, is_eol c = false) l → match s with [] => True | c :: _ => is_eol c = true end →
  (length l < n)%nat → line_of n (l ++ s) = (l, s).
Proof.
  revert n. induction l as [|c l IH]; intros n Hl Hs Hn; (destruct n as [|n]; [lia|]); cbn [app line_of].
  - destruct s as [|c s]; [done|]. by rewrite Hs.
  - apply Forall_cons in Hl as [Hc Hl]. rewrite Hc, IH by (done || cbn in *; lia). done.
Qed.
Lemma getline_line l s n : Forall (λ c, is_eol c = false) l → match s with [] => l ≠ [] | c :: _ => is_eol c = true end →
  (length l < n)%nat → getline_spec n (l ++ s) = (true, l, tail s).
Proof.
  intros Hl Hs Hn. unfold getline_spec. rewrite line_of_line by (done || by destruct s).
  rewrite (proj2 (Nat.eqb_neq _ _)) by lia. destruct s; [|done]. by rewrite bool_decide_eq_false_2.
Qed.

(** A line that is refused, whatever the key. *)
Definition ignored (l : list Z) : Prop :=
  Forall (λ c, is_eol c = false) l ∧ zlen l < MAX_AUTHKEYS_LINE ∧ (zlen l < MIN_AUTHKEYS_LINE ∨ head l = Some 35).
Lemma line_ignored algo keyblob b : zlen algo ≤ MAX_STRING_LEN → algo ≠ [] → head algo ≠ Some 35 →
  buf_wf b → buf_pos b = 0 → ignored (buf_content b) →
  ∃ b', checkpubkey_line algo keyblob b = Ok ((false, None), b') ∧ buf_wf b' ∧ buf_size b' = buf_size b.
Proof.
  intros Halgo Hne Hh Hb Hp (_ & Hmax & Hign). rewrite <- content_rest0 in * by done. pose proof Hb as Hb'. buf_facts.
  pose proof (buf_rest_length b Hb) as Hl. rewrite Hp, Z.sub_0_r in Hl. unfold checkpubkey_line. erewrite bind_ok by done.
  case_if; [by eexists|]. assert (Hlen : MIN_AUTHKEYS_LINE ≤ buf_len b ≤ MAX_AUTHKEYS_LINE) by bool_lia.
  destruct Hign as [?|Hign]; [lia|].
  erewrite bind_ok by (unfold buf_load; erewrite bind_ok by done; rewrite mem_load_ok by lia; done).
  rewrite drop_0. fold (buf_content b). case_if; [by eexists|].
  assert (Hcl : clean b) by (split_and!; [done|by apply existsb_nul|lia]).
  erewrite bind_ok by (by apply algo_fits_eq). case_if; [by eexists|].
  destruct (algo_here_eq algo Halgo b Hcl) as (r & E & Hr). destruct r.
  { exfalso. destruct (proj1 Hr eq_refl) as (tl & Et & _). rewrite Et in Hign. by destruct algo. }
  destruct (skip_space_scans (Z.to_nat (buf_len b)) b Hb) as [Hn Es]; [lia|]. destruct (buf_rest b) as [|c tl] eqn:Er; [done|].
  injection Hign as ->. cbn [skip_space_spec Z.eqb Pos.eqb orb fst snd] in *.
  eexists. split; [|split].
  - erewrite bind_ok; [|unfold line_options; erewrite bind_ok by exact E; cbn beta iota; erewrite bind_ok by done; erewrite bind_ok by exact Es; done]. done.
  - apply buf_wf_advance; [done|lia..].
  - done.
Qed.
Lemma loop_ignored algo keyblob ls fuel file b : zlen algo ≤ MAX_STRING_LEN → algo ≠ [] → head algo ≠ Some 35 →
  Forall ignored ls → Forall is_byte (concat ls) → Forall is_byte file → buf_wf b → buf_size b = MAX_AUTHKEYS_LINE →
  ∃ b', checkpubkey_loop (length ls + fuel) (concat (map (λ l, l ++ [10]) ls) ++ file) algo keyblob None b =
    checkpubkey_loop fuel file algo keyblob None b' ∧ buf_wf b' ∧ buf_size b' = MAX_AUTHKEYS_LINE.
Proof.
  intros Ha Hne Hh Hls. revert b. induction Hls as [|l ls Hl Hls IH]; intros b Hlb Hf Hb Hs; [by exists b|].
  cbn [concat map length Nat.add checkpubkey_loop] in *. apply Forall_app in Hlb as [Hlb Hlsb]. rewrite <- !app_assoc.
  set (more := concat (map (λ l, l ++ [10]) ls) ++ file).
  assert (Hmb : Forall is_byte more).
  { unfold more. apply Forall_app_2; [|done]. clear -Hlsb. induction ls as [|l ls IH]; [done|]. cbn in *. apply Forall_app in Hlsb as [? ?].
    repeat apply Forall_app_2; auto. by apply Forall_singleton. }
  pose proof (buf_getline_eq (l ++ [10] ++ more) b Hb) as Hg. rewrite Hs in Hg. pose proof Hl as (Hl1 & Hl2 & _).
  rewrite getline_line in Hg by (done || (unfold MAX_AUTHKEYS_LINE in *; lia)).
  destruct Hg as (b1 & E1 & Hb1 & Hs1 & Hm1); [done|apply Forall_app_2; [done|apply Forall_app_2; [by apply Forall_singleton|done]]|].
  destruct (Hm1 eq_refl) as [Hp1 Hc1]. erewrite bind_ok by exact E1. cbn beta iota. cbn [negb].
  destruct (line_ignored algo keyblob b1) as (b2 & E2 & Hb2 & Hs2); [done..|by rewrite Hc1|].
  erewrite bind_ok by exact E2. cbn beta iota. cbn [default]. apply IH; [done|done|done|lia].
Qed.

(** The line of a key, as [ssh-keygen] writes it. *)
Record plain_line (line algo keyblob s : list Z) : Prop := {
  pl_algo : algo ≠ [] ∧ head algo ≠ Some 35 ∧ zlen algo ≤ MAX_STRING_LEN;
  pl_split : ∃ b64 comment tl, line = algo ++ [32] ++ b64 ++ comment ∧ (32 ∉ b64) ∧ (comment = [] ∨ ∃ c, comment = 32 :: c) ∧
    base64_decode b64 (2 * zlen b64) = Some keyblob ∧ keyblob = STORE32H (zlen algo) ++ algo ++ tl;
  pl_chars : Forall (λ c, is_eol c = false ∧ c ≠ 0) line;
  pl_len : 10 ≤ zlen line < MAX_AUTHKEYS_LINE;
  pl_end : match s with [] => True | c :: _ => is_eol c = true end;
  pl_bytes : Forall is_byte (line ++ s)
}.
Lemma loop_accepts f line algo keyblob s b : plain_line line algo keyblob s → buf_wf b → buf_size b = MAX_AUTHKEYS_LINE →
  ∃ b', checkpubkey_loop (S f) (line ++ s) algo keyblob None b = Ok ((true, None), b').
Proof.
  intros [(Hne & Hc & Ha) (b64 & comment & tl & Hline & H64 & Hcom & Hdec & Hk) Hch Hlen Hs Hby] Hb1 Hs1. cbn [checkpubkey_loop].
  pose proof (buf_getline_eq (line ++ s) b Hb1) as Hg. rewrite Hs1 in Hg.
  assert (Hne' : line ≠ []) by (intros H0; rewrite H0 in Hlen; cbn in Hlen; lia).
  rewrite getline_line in Hg; [|by eapply Forall_impl; [exact Hch|intros ? []]|by destruct s|unfold MAX_AUTHKEYS_LINE in *; lia].
  destruct Hg as (b2 & E2 & Hb2 & Hs2 & Hm); [done|done|]. destruct (Hm eq_refl) as [Hp2 Hc2].
  destruct (line_accepted algo keyblob Ha b2 b64 comment tl) as (b3 & E3); [done|done|by rewrite Hc2|rewrite Hc2; lia| |done..|].
  { rewrite Hc2. by eapply Forall_impl; [exact Hch|intros ? []]. }
  erewrite bind_ok by exact E2. cbn beta iota. cbn [negb]. erewrite bind_ok by exact E3. by exists b3.
Qed.
Lemma lines_fuel ls (file : list Z) : ∃ f, S (length (concat (map (λ l, l ++ [10%Z]) ls) ++ file)) = (length ls + S f)%nat.
Proof.
  assert ((length ls ≤ length (concat (map (λ l, l ++ [10%Z]) ls) ++ file))%nat) as Hle.
  { rewrite length_app. induction ls as [|l ls IH]; cbn; [lia|]. rewrite !length_app. cbn. lia. }
  exists (length (concat (map (λ l, l ++ [10%Z]) ls) ++ file) - length ls)%nat. lia.
Qed.

(** A listed key is accepted.  A line with the name of the algorithm, a
    space, base64 of the key and a comment, below any number of short lines and
    lines that start with [#], lets the key in, with no restrictions. *)
Theorem checkpubkey_complete {D Mo} (sshhostkey : list (algo_type D Mo)) ls line algo keyblob s :
  have_algo algo (zlen algo) sshhostkey = true → Forall ignored ls → Forall is_byte (concat ls) →
  plain_line line algo keyblob s →
  checkpubkey sshhostkey (Some (concat (map (λ l, l ++ [10]) ls) ++ line ++ s)) algo keyblob None = Ok (true, None).
Proof.
  intros Hh Hls Hlb Hline. unfold checkpubkey. rewrite Hh. cbn [negb].
  destruct (buf_new_ok MAX_AUTHKEYS_LINE) as (b & E & Hb & Hl & Hp & Hsz); [done|]. rewrite (obind_ok _ _ _ E).
  destruct (lines_fuel ls (line ++ s)) as [f ->]. pose proof (pl_algo _ _ _ _ Hline) as (Hne & Hc & Ha).
  destruct (loop_ignored algo keyblob ls (S f) (line ++ s) b) as (b1 & E1 & Hb1 & Hs1); [done..|by apply Hline|done|done|].
  destruct (loop_accepts f line algo keyblob s b1 Hline Hb1 Hs1) as [b2 E2].
  erewrite obind_ok; [|rewrite E1; exact E2]. done.
Qed.
Lemma key_line_plain : plain_line key_line (bytes_of_string "ssh-rsa") key_blob [10].
Proof.
  split.
  - split_and!; vm_compute; discriminate.
  - exists (base64_encode_loop key_blob), (bytes_of_string " me@host"), (STORE32H 1 ++ [3]).
    split_and!; [reflexivity|apply (bool_decide_unpack _); vm_compute; exact I|right; by eexists|vm_compute; reflexivity|reflexivity].
  - apply (bool_decide_unpack _). vm_compute. exact I.
  - split; vm_compute; (reflexivity || discriminate).
  - reflexivity.
  - apply (bool_decide_unpack _). vm_compute. exact I.
Qed.
Lemma checkpubkey_complete_witness :
  checkpubkey hostkey_algos (Some (concat (map (λ l, l ++ [10]) [bytes_of_string "# my keys"]) ++ key_line ++ [10]))
    (bytes_of_string "ssh-rsa") key_blob None = Ok (true, None).
Proof.
  apply checkpubkey_complete; [vm_compute; reflexivity| |apply (bool_decide_unpack _); vm_compute; exact I|apply key_line_plain].
  apply Forall_singleton. split_and!; [apply (bool_decide_unpack _); vm_compute; exact I|vm_compute; reflexivity|right; reflexivity].
Defined.

(** A line of white space with room for the algorithm: [buf_getptr(line, 1)]
    is past its end. *)
Lemma line_blank algo keyblob b : zlen algo ≤ MAX_STRING_LEN → algo ≠ [] → Forall (λ c, is_space c = false) algo →
  buf_wf b → buf_pos b = 0 → Forall (λ c, is_space c = true) (buf_content b) →
  10 ≤ zlen (buf_content b) < MAX_AUTHKEYS_LINE → zlen algo + 3 ≤ zlen (buf_content b) →
  checkpubkey_line algo keyblob b = Exit "Bad buf_getptr".
Proof.
  intros Halgo Hne Hns Hb Hp Hsp Hlen Hfit. rewrite <- content_rest0 in * by done. pose proof Hb as Hb'. buf_facts.
  pose proof (buf_rest_length b Hb) as Hl. rewrite Hp, Z.sub_0_r in Hl. unfold checkpubkey_line, MIN_AUTHKEYS_LINE. erewrite bind_ok by done.
  rewrite (proj2 (orb_false_iff _ _)) by (split; [apply Z.ltb_ge|rewrite Z.gtb_ltb; apply Z.ltb_ge]; lia).
  erewrite bind_ok by (unfold buf_load; erewrite bind_ok by done; rewrite mem_load_ok by lia; done).
  rewrite drop_0. fold (buf_content b). rewrite <- content_rest0 by done.
  assert (Hnz : Forall (λ c, c ≠ 0) (buf_rest b)).
  { eapply Forall_impl; [exact Hsp|]. unfold is_space. intros c Hc ->. done. }
  rewrite nul_existsb by done. assert (Hcl : clean b) by (split_and!; [done|by rewrite <- content_rest0|lia]).
  erewrite bind_ok by (by apply algo_fits_eq). rewrite (proj2 (Z.leb_le _ _)) by lia. cbn [negb].
  destruct (algo_here_eq algo Halgo b Hcl) as (r & E & Hr). destruct r.
  { exfalso. destruct (proj1 Hr eq_refl) as (tl & Et & _). rewrite Et in Hsp. destruct algo as [|c a]; [done|].
    apply Forall_cons in Hsp as [H9 _]. apply Forall_cons in Hns as [H10 _]. congruence. }
  destruct (skip_space_scans (Z.to_nat (buf_len b)) b Hb) as [Hn Es]; [lia|].
  assert (Hss : skip_space_spec (buf_rest b) = (false, zlen (buf_rest b))).
  { clear -Hsp. induction (buf_rest b) as [|c l IH]; [done|]. apply Forall_cons in Hsp as [Hc Hl]. cbn [skip_space_spec].
    fold (is_space c). rewrite Hc, IH by done. f_equal. cbn. lia. }
  rewrite Hss in *. cbn [fst snd] in *. apply bind_exit. unfold line_options. erewrite bind_ok by exact E. cbn beta iota.
  erewrite bind_ok by done. erewrite bind_ok by exact Es. cbn beta iota. apply bind_exit.
  rewrite buf_getptr_eq by first [done | apply buf_wf_advance; [done|lia..]]. rewrite (proj2 (Z.leb_gt _ _)); [done|].
  cbn [buf_advance set_pos buf_pos buf_len]. lia.
Qed.
(** A line of blanks locks every key out.  When [authorized_keys] holds a
    line of spaces and tabs, at least ten and three more than the name of the
    algorithm, and no line above it lists the key, asking about a key ends the
    process, so the keys below the line cannot be used. *)
Theorem blank_line_exits {D Mo} (sshhostkey : list (algo_type D Mo)) ls algo blank rest keyblob :
  have_algo algo (zlen algo) sshhostkey = true → algo ≠ [] → head algo ≠ Some 35 → zlen algo ≤ MAX_STRING_LEN →
  Forall (λ c, is_space c = false) algo → Forall ignored ls → Forall is_byte (concat ls) → Forall is_byte rest →
  Forall (λ c, is_space c = true) blank → 10 ≤ zlen blank < MAX_AUTHKEYS_LINE → zlen algo + 3 ≤ zlen blank →
  checkpubkey sshhostkey (Some (concat (map (λ l, l ++ [10]) ls) ++ blank ++ [10] ++ rest)) algo keyblob None =
  Exit "Bad buf_getptr".
Proof.
  intros Hh Hne Hc Ha Hns Hls Hlb Hrb Hblank Hlen Hfit. unfold checkpubkey. rewrite Hh. cbn [negb].
  destruct (buf_new_ok MAX_AUTHKEYS_LINE) as (b & E & Hb & Hl & Hp & Hsz); [done|]. rewrite (obind_ok _ _ _ E).
  destruct (lines_fuel ls (blank ++ [10] ++ rest)) as [f ->].
  assert (Heol : Forall (λ c, is_eol c = false) blank).
  { eapply Forall_impl; [exact Hblank|]. unfold is_space, is_eol. intros c. destruct (Z.eqb_spec c 32) as [->|]; [done|].
    destruct (Z.eqb_spec c 9) as [->|]; done. }
  assert (Hbb : Forall is_byte (blank ++ [10] ++ rest)).
  { repeat apply Forall_app_2; [|by apply Forall_singleton|done]. eapply Forall_impl; [exact Hblank|]. unfold is_space, is_byte.
    intros c Hc'. apply orb_true_iff in Hc' as [?%Z.eqb_eq|?%Z.eqb_eq]; lia. }
  destruct (loop_ignored algo keyblob ls (S f) (blank ++ [10] ++ rest) b) as (b1 & E1 & Hb1 & Hs1); [done..|].
  rewrite E1. cbn [checkpubkey_loop].
  pose proof (buf_getline_eq (blank ++ [10] ++ rest) b1 Hb1) as Hg. rewrite Hs1 in Hg.
  rewrite getline_line in Hg; [|done|done|unfold MAX_AUTHKEYS_LINE in *; lia].
  destruct Hg as (b2 & E2 & Hb2 & Hs2 & Hm); [done|done|]. destruct (Hm eq_refl) as [Hp2 Hc2].
  apply obind_exit. erewrite bind_ok by exact E2. cbn beta iota. cbn [negb]. apply bind_exit.
  apply line_blank; try done; rewrite Hc2; done.
Qed.
Lemma blank_line_exits_witness :
  checkpubkey hostkey_algos (Some (concat (map (λ l, l ++ [10]) []) ++ replicate 12 32 ++ [10] ++ key_line))
    (bytes_of_string "ssh-rsa") key_blob None = Exit "Bad buf_getptr".
Proof.
  apply blank_line_exits; try (apply (bool_decide_unpack _); vm_compute; exact I); try (vm_compute; (reflexivity || discriminate)).
Defined.

Lemma getline_full w file : Forall (λ c, is_eol c = false) w → length w = Z.to_nat MAX_AUTHKEYS_LINE →
  getline_spec (Z.to_nat MAX_AUTHKEYS_LINE) (w ++ file) = (true, [], file).
Proof.
  intros Hw <-. unfold getline_spec.
  assert (E : line_of (length w) (w ++ file) = (w, file)).
  { induction Hw as [|c w Hc Hw IH]; [by destruct file|]. cbn [length app line_of]. by rewrite Hc, IH. }
  by rewrite E, Nat.eqb_refl.
Qed.
(** An overlong line is not ignored.  What follows the first 4200
    characters of a line is read as a line of its own: a key there is accepted,
    also when the line starts with [#]. *)
Theorem overlong_line_resumes {D Mo} (sshhostkey : list (algo_type D Mo)) w line algo keyblob s :
  have_algo algo (zlen algo) sshhostkey = true → Forall (λ c, is_eol c = false) w → zlen w = MAX_AUTHKEYS_LINE → Forall is_byte w →
  plain_line line algo keyblob s →
  checkpubkey sshhostkey (Some (w ++ line ++ s)) algo keyblob None = Ok (true, None).
Proof.
  intros Hh Hw Hwl Hwb Hline. unfold checkpubkey. rewrite Hh. cbn [negb].
  destruct (buf_new_ok MAX_AUTHKEYS_LINE) as (b & E & Hb & Hl & Hp & Hsz); [done|]. rewrite (obind_ok _ _ _ E).
  cbn [checkpubkey_loop]. pose proof (buf_getline_eq (w ++ line ++ s) b Hb) as Hg. rewrite Hsz in Hg.
  rewrite getline_full in Hg by (done || lia).
  destruct Hg as (b1 & E1 & Hb1 & Hs1 & Hm); [done|by apply Forall_app_2; [done|apply Hline]|]. destruct (Hm eq_refl) as [Hp1 Hc1].
  pose proof (pl_algo _ _ _ _ Hline) as (Hne & Hc & Ha).
  destruct (line_ignored algo keyblob b1) as (b2 & E2 & Hb2 & Hs2); [done..|rewrite Hc1; by split_and!; [|done|left]|].
  assert (Hf : ∃ f, length (w ++ line ++ s) = S f).
  { exists (length (w ++ line ++ s) - 1)%nat. rewrite !length_app. unfold MAX_AUTHKEYS_LINE in *. lia. }
  destruct Hf as [f ->]. destruct (loop_accepts f line algo keyblob s b2 Hline Hb2) as [b3 E3]; [lia|].
  erewrite obind_ok; [|erewrite bind_ok by exact E1; cbn beta iota; cbn [negb]; erewrite bind_ok by exact E2; exact E3]. done.
Qed.
Lemma overlong_line_resumes_witness :
  checkpubkey hostkey_algos (Some ((35 :: replicate 4199 120) ++ key_line ++ [10])) (bytes_of_string "ssh-rsa") key_blob None = Ok (true, None).
Proof.
  apply overlong_line_resumes; [vm_compute; reflexivity|apply (bool_decide_unpack _); vm_compute; exact I|vm_compute; reflexivity
    |apply (bool_decide_unpack _); vm_compute; exact I|apply key_line_plain].
Defined.
