(* ===== verification/Auth.v ===== *)
(** * User authentication ([svr-auth.c], [svr-authpasswd.c], [svr-authpubkey.c], [svr-service.c])

    The state of the authentication of a session and its handlers, with
    [fill_passwd] and [get_user_shell] of [common-session.c].  The public keys
    ([signkey.c]) are an interface: parsing a key and checking a signature.
    The clock, the random numbers and the contents of [authorized_keys] at a
    given time are parameters.  Log messages are not modelled. *)
From S2P Require Import Prelude Ssh Buffer Packet Session Algo Base64 AuthKeys.

Definition MAX_USERNAME_LEN : Z := 100.
Definition DROPBEAR_MAX_PASSWORD_LEN : Z := 100.
Definition AUTH_TYPE_PUBKEY : Z := 2.
Definition AUTH_TYPE_PASSWORD : Z := 4.
Definition AUTH_METHOD_NONE : list Z := bytes_of_string "none".
Definition AUTH_METHOD_PUBKEY : list Z := bytes_of_string "publickey".
Definition AUTH_METHOD_PASSWORD : list Z := bytes_of_string "password".
Definition SSH_SERVICE_USERAUTH : list Z := bytes_of_string "ssh-userauth".
Definition SSH_SERVICE_CONNECTION : list Z := bytes_of_string "ssh-connection".

(** [svr_opts], as far as authentication reads it. *)
Record auth_opts := mkOpts {
  allowblankpass : bool;
  noauthpass : bool;
  norootpass : bool;
  maxauthtries : Z
}.

(** Public keys, as [signkey.c] offers them: [buf_get_pub_key] reads a key,
    [buf_verify] reads a signature and checks it.  Keys that were read are
    sound, and with a sound key a signature is checked safely. *)
Class SignKey (K : Type) := {
  buf_get_pub_key : M buffer (option K);
  buf_verify : K → buffer → M buffer bool;
  key_sound : K → Prop;
  get_pub_key_safe b : buf_wf b →
    wp buf_get_pub_key (λ o b', buf_wf b' ∧ (∃ n, 0 ≤ n ∧ b' = buf_advance b n) ∧ ∀ k, o = Some k → key_sound k) b;
  verify_safe k data b : key_sound k → buf_wf b → buf_wf data → wp (buf_verify k data) (λ _ b', buf_wf b') b
}.

Definition constant_time_strcmp (a b : list Z) : Z :=
  if negb (strlen a =? strlen b) then 1 else constant_time_memcmp (cstr a) (cstr b).

Section auth.
Context {K D Mo : Type} `{!SignKey K}.
Context (sshhostkey : list (algo_type D Mo)) (opts : auth_opts) (conf_home conf_shell : list Z).
(** The time, a random number and [authorized_keys] at a moment. *)
Context (gettime : nat → Z * Z) (genrandom : nat → Z) (authfile : nat → option (list Z)).

(** [ses.authstate], and the fields of the session the handlers use. *)
Record auth := mkAuth {
  au_io : msgio;
  moment : nat;
  username : option (list Z);
  authtypes : Z;
  failcount : Z;
  authdone : bool;
  checkusername_failed : bool;
  auth_starttime : Z * Z;
  pw_uid : Z;
  pw_gid : Z;
  pw_dir : option (list Z);
  pw_shell : option (list Z);
  pw_name : option (list Z);
  pw_passwd : option (list Z);
  pubkey_options : option PubKeyOptions;
  connect_time : Z;
  allowprivport : bool;
  childpipe_open : bool;
  banner : option buffer;
  session_id : buffer;
  payload_beginning : Z;
  delays : list (Z * Z)
}.
Definition set_moment (v : nat) (s : auth) : auth :=
  mkAuth (au_io s) v (username s) (authtypes s) (failcount s) (authdone s) (checkusername_failed s)
    (auth_starttime s) (pw_uid s) (pw_gid s) (pw_dir s) (pw_shell s) (pw_name s) (pw_passwd s)
    (pubkey_options s) (connect_time s) (allowprivport s) (childpipe_open s) (banner s)
    (session_id s) (payload_beginning s) (delays s).
Definition set_username (v : option (list Z)) (s : auth) : auth :=
  mkAuth (au_io s) (moment s) v (authtypes s) (failcount s) (authdone s) (checkusername_failed s)
    (auth_starttime s) (pw_uid s) (pw_gid s) (pw_dir s) (pw_shell s) (pw_name s) (pw_passwd s)
    (pubkey_options s) (connect_time s) (allowprivport s) (childpipe_open s) (banner s)
    (session_id s) (payload_beginning s) (delays s).
Definition set_authtypes (v : Z) (s : auth) : auth :=
  mkAuth (au_io s) (moment s) (username s) v (failcount s) (authdone s) (checkusername_failed s)
    (auth_starttime s) (pw_uid s) (pw_gid s) (pw_dir s) (pw_shell s) (pw_name s) (pw_passwd s)
    (pubkey_options s) (connect_time s) (allowprivport s) (childpipe_open s) (banner s)
    (session_id s) (payload_beginning s) (delays s).
Definition set_failcount (v : Z) (s : auth) : auth :=
  mkAuth (au_io s) (moment s) (username s) (authtypes s) v (authdone s) (checkusername_failed s)
    (auth_starttime s) (pw_uid s) (pw_gid s) (pw_dir s) (pw_shell s) (pw_name s) (pw_passwd s)
    (pubkey_options s) (connect_time s) (allowprivport s) (childpipe_open s) (banner s)
    (session_id s) (payload_beginning s) (delays s).
Definition set_authdone (v : bool) (s : auth) : auth :=
  mkAuth (au_io s) (moment s) (username s) (authtypes s) (failcount s) v (checkusername_failed s)
    (auth_starttime s) (pw_uid s) (pw_gid s) (pw_dir s) (pw_shell s) (pw_name s) (pw_passwd s)
    (pubkey_options s) (connect_time s) (allowprivport s) (childpipe_open s) (banner s)
    (session_id s) (payload_beginning s) (delays s).
Definition set_checkusername_failed (v : bool) (s : auth) : auth :=
  mkAuth (au_io s) (moment s) (username s) (authtypes s) (failcount s) (authdone s) v
    (auth_starttime s) (pw_uid s) (pw_gid s) (pw_dir s) (pw_shell s) (pw_name s) (pw_passwd s)
    (pubkey_options s) (connect_time s) (allowprivport s) (childpipe_open s) (banner s)
    (session_id s) (payload_beginning s) (delays s).
Definition set_auth_starttime (v : Z * Z) (s : auth) : auth :=
  mkAuth (au_io s) (moment s) (username s) (authtypes s) (failcount s) (authdone s)
    (checkusername_failed s) v (pw_uid s) (pw_gid s) (pw_dir s) (pw_shell s) (pw_name s)
    (pw_passwd s) (pubkey_options s) (connect_time s) (allowprivport s) (childpipe_open s)
    (banner s) (session_id s) (payload_beginning s) (delays s).
Definition set_pw_uid (v : Z) (s : auth) : auth :=
  mkAuth (au_io s) (moment s) (username s) (authtypes s) (failcount s) (authdone s)
    (checkusername_failed s) (auth_starttime s) v (pw_gid s) (pw_dir s) (pw_shell s) (pw_name s)
    (pw_passwd s) (pubkey_options s) (connect_time s) (allowprivport s) (childpipe_open s)
    (banner s) (session_id s) (payload_beginning s) (delays s).
Definition set_pw_gid (v : Z) (s : auth) : auth :=
  mkAuth (au_io s) (moment s) (username s) (authtypes s) (failcount s) (authdone s)
    (checkusername_failed s) (auth_starttime s) (pw_uid s) v (pw_dir s) (pw_shell s) (pw_name s)
    (pw_passwd s) (pubkey_options s) (connect_time s) (allowprivport s) (childpipe_open s)
    (banner s) (session_id s) (payload_beginning s) (delays s).
Definition set_pw_dir (v : option (list Z)) (s : auth) : auth :=
  mkAuth (au_io s) (moment s) (username s) (authtypes s) (failcount s) (authdone s)
    (checkusername_failed s) (auth_starttime s) (pw_uid s) (pw_gid s) v (pw_shell s) (pw_name s)
    (pw_passwd s) (pubkey_options s) (connect_time s) (allowprivport s) (childpipe_open s)
    (banner s) (session_id s) (payload_beginning s) (delays s).
Definition set_pw_shell (v : option (list Z)) (s : auth) : auth :=
  mkAuth (au_io s) (moment s) (username s) (authtypes s) (failcount s) (authdone s)
    (checkusername_failed s) (auth_starttime s) (pw_uid s) (pw_gid s) (pw_dir s) v (pw_name s)
    (pw_passwd s) (pubkey_options s) (connect_time s) (allowprivport s) (childpipe_open s)
    (banner s) (session_id s) (payload_beginning s) (delays s).
Definition set_pw_name (v : option (list Z)) (s : auth) : auth :=
  mkAuth (au_io s) (moment s) (username s) (authtypes s) (failcount s) (authdone s)
    (checkusername_failed s) (auth_starttime s) (pw_uid s) (pw_gid s) (pw_dir s) (pw_shell s) v
    (pw_passwd s) (pubkey_options s) (connect_time s) (allowprivport s) (childpipe_open s)
    (banner s) (session_id s) (payload_beginning s) (delays s).
Definition set_pw_passwd (v : option (list Z)) (s : auth) : auth :=
  mkAuth (au_io s) (moment s) (username s) (authtypes s) (failcount s) (authdone s)
    (checkusername_failed s) (auth_starttime s) (pw_uid s) (pw_gid s) (pw_dir s) (pw_shell s)
    (pw_name s) v (pubkey_options s) (connect_time s) (allowprivport s) (childpipe_open s)
    (banner s) (session_id s) (payload_beginning s) (delays s).
Definition set_pubkey_options (v : option PubKeyOptions) (s : auth) : auth :=
  mkAuth (au_io s) (moment s) (username s) (authtypes s) (failcount s) (authdone s)
    (checkusername_failed s) (auth_starttime s) (pw_uid s) (pw_gid s) (pw_dir s) (pw_shell s)
    (pw_name s) (pw_passwd s) v (connect_time s) (allowprivport s) (childpipe_open s) (banner s)
    (session_id s) (payload_beginning s) (delays s).
Definition set_connect_time (v : Z) (s : auth) : auth :=
  mkAuth (au_io s) (moment s) (username s) (authtypes s) (failcount s) (authdone s)
    (checkusername_failed s) (auth_starttime s) (pw_uid s) (pw_gid s) (pw_dir s) (pw_shell s)
    (pw_name s) (pw_passwd s) (pubkey_options s) v (allowprivport s) (childpipe_open s) (banner s)
    (session_id s) (payload_beginning s) (delays s).
Definition set_allowprivport (v : bool) (s : auth) : auth :=
  mkAuth (au_io s) (moment s) (username s) (authtypes s) (failcount s) (authdone s)
    (checkusername_failed s) (auth_starttime s) (pw_uid s) (pw_gid s) (pw_dir s) (pw_shell s)
    (pw_name s) (pw_passwd s) (pubkey_options s) (connect_time s) v (childpipe_open s) (banner s)
    (session_id s) (payload_beginning s) (delays s).
Definition set_childpipe_open (v : bool) (s : auth) : auth :=
  mkAuth (au_io s) (moment s) (username s) (authtypes s) (failcount s) (authdone s)
    (checkusername_failed s) (auth_starttime s) (pw_uid s) (pw_gid s) (pw_dir s) (pw_shell s)
    (pw_name s) (pw_passwd s) (pubkey_options s) (connect_time s) (allowprivport s) v (banner s)
    (session_id s) (payload_beginning s) (delays s).
Definition set_banner (v : option buffer) (s : auth) : auth :=
  mkAuth (au_io s) (moment s) (username s) (authtypes s) (failcount s) (authdone s)
    (checkusername_failed s) (auth_starttime s) (pw_uid s) (pw_gid s) (pw_dir s) (pw_shell s)
    (pw_name s) (pw_passwd s) (pubkey_options s) (connect_time s) (allowprivport s)
    (childpipe_open s) v (session_id s) (payload_beginning s) (delays s).
Definition set_delays (v : list (Z * Z)) (s : auth) : auth :=
  mkAuth (au_io s) (moment s) (username s) (authtypes s) (failcount s) (authdone s)
    (checkusername_failed s) (auth_starttime s) (pw_uid s) (pw_gid s) (pw_dir s) (pw_shell s)
    (pw_name s) (pw_passwd s) (pubkey_options s) (connect_time s) (allowprivport s)
    (childpipe_open s) (banner s) (session_id s) (payload_beginning s) v.
#[global] Instance auth_has_io : HasIO auth.
Proof.
  refine {| get_io := au_io; set_io i s := mkAuth i (moment s) (username s) (authtypes s) (failcount s) (authdone s) (checkusername_failed s) (auth_starttime s) (pw_uid s) (pw_gid s) (pw_dir s) (pw_shell s) (pw_name s) (pw_passwd s) (pubkey_options s) (connect_time s) (allowprivport s) (childpipe_open s) (banner s) (session_id s) (payload_beginning s) (delays s) |}; try done. by intros [].
Defined.

(** ** Replies *)

(** The clock is read: [gettime_wrapper]. *)
Definition now : M auth (Z * Z) := s ← get; modify (set_moment (S (moment s)));; mret (gettime (moment s)).
Definition random32 : M auth Z := s ← get; modify (set_moment (S (moment s)));; mret (u32 (genrandom (moment s))).

Definition mindelay : Z := 250000000.
Definition vardelay : Z := 100000000.
(** The time to sleep, for the time elapsed since the request and a random
    number. *)
Definition failure_delay (start stop : Z * Z) (rand : Z) : Z * Z :=
  let sec := stop.1 - start.1 in
  let nsec := stop.2 - start.2 in
  let '(sec, nsec) := if nsec <? 0 then (sec - 1, nsec + 1000000000) else (sec, nsec) in
  let rand_delay := mindelay + rand mod vardelay in
  if (sec =? 0) && (nsec <=? mindelay) then (sec, rand_delay - nsec) else (0, rand_delay).

Definition auth_methods (types : Z) : M buffer () :=
  when (negb (Z.land types AUTH_TYPE_PUBKEY =? 0))
    (buf_putbytes AUTH_METHOD_PUBKEY (zlen AUTH_METHOD_PUBKEY);;
     when (negb (Z.land types AUTH_TYPE_PASSWORD =? 0)) (buf_putbyte 44));;
  when (negb (Z.land types AUTH_TYPE_PASSWORD =? 0)) (buf_putbytes AUTH_METHOD_PASSWORD (zlen AUTH_METHOD_PASSWORD)).

Definition send_msg_userauth_failure (partial incrfail : bool) : M auth () :=
  ses_write (buf_putbyte SSH_MSG_USERAUTH_FAILURE);;
  s ← get;
  typebuf ← lift (buf_new 30);
  typebuf ← lift (exec (auth_methods (authtypes s)) typebuf);
  ses_write (buf_putbufstring typebuf);;
  ses_write (buf_putbyte (if partial then 1 else 0));;
  encrypt_msg;;
  when incrfail
    (stop ← now;
     rand ← random32;
     modify (λ s, set_delays (delays s ++ [failure_delay (auth_starttime s) stop rand]) s);;
     modify (λ s, set_failcount (u32 (failcount s + 1)) s));;
  s ← get;
  if failcount s >=? maxauthtries opts then dropbear_exit "Max auth tries reached - user '%s' from %s"
  else mret tt.

Definition send_msg_userauth_success : M auth () :=
  ses_write (buf_putbyte SSH_MSG_USERAUTH_SUCCESS);;
  encrypt_msg;;
  modify (set_authdone true);;
  modify (set_connect_time 0);;
  s ← get;
  when (pw_uid s =? 0) (modify (set_allowprivport true));;
  modify (set_childpipe_open false).

Definition send_msg_userauth_banner (b : buffer) : M auth () :=
  ses_write (buf_putbyte SSH_MSG_USERAUTH_BANNER);;
  ses_write (buf_putbufstring b);;
  ses_write (buf_putstring (bytes_of_string "en") 2);;
  encrypt_msg.

(** ** The user *)
Definition fill_passwd : M auth () :=
  modify (set_pw_uid 0);;
  modify (set_pw_gid 0);;
  modify (set_pw_name (Some (bytes_of_string "user")));;
  modify (set_pw_dir (Some conf_home));;
  modify (set_pw_shell (Some conf_shell));;
  s ← get;
  match pw_passwd s with
  | None => modify (set_pw_passwd (Some (bytes_of_string "!!")))
  | Some _ => mret tt
  end.
Definition get_user_shell : M auth (list Z) :=
  s ← get;
  match pw_shell s with
  | None => undefined "pw_shell is NULL"
  | Some sh => mret (if default 0 (head (cstr sh)) =? 0 then bytes_of_string "/bin/sh" else sh)
  end.

(** [true] is [DROPBEAR_SUCCESS]. *)
Definition checkusername (user : list Z) : M auth bool :=
  if zlen user >? MAX_USERNAME_LEN then mret false
  else if negb (strlen user =? zlen user) then dropbear_exit "Attempted username with a null byte from %s"
  else
    s ← get;
    match username s with
    | None => fill_passwd;; modify (set_username (Some user))
    | Some u => if negb (strcmp_eq user u) then dropbear_exit "Client trying multiple usernames from %s" else mret tt
    end;;
    s ← get;
    if checkusername_failed s then mret false
    else
      match pw_name s with
      | None => modify (set_checkusername_failed true);; mret false
      | Some _ => mret true
      end.

(** ** Passwords *)

(** [passwdcrypt] is dereferenced: [NULL] is undefined. *)
Definition get_passwd : M auth (list Z) :=
  s ← get; match pw_passwd s with Some p => mret p | None => undefined "pw_passwd is NULL" end.

Definition svr_auth_password (valid_user : bool) : M auth () :=
  changepw ← ses_payload buf_getbool;
  if negb (changepw =? 0) then send_msg_userauth_failure false true
  else
    password ← ses_payload buf_getstring;
    let passwordlen := zlen password in
    let testcrypt :=
      if valid_user && (passwordlen <=? DROPBEAR_MAX_PASSWORD_LEN) then
        if strlen password =? 8 then Some (cstr password) else None
      else None in
    if negb valid_user then send_msg_userauth_failure false true
    else if passwordlen >? DROPBEAR_MAX_PASSWORD_LEN then send_msg_userauth_failure false true
    else
      match testcrypt with
      | None => send_msg_userauth_failure false true
      | Some testcrypt =>
          passwdcrypt ← get_passwd;
          if default 0 (head (cstr passwdcrypt)) =? 0 then send_msg_userauth_failure false true
          else if constant_time_strcmp testcrypt passwdcrypt =? 0 then send_msg_userauth_success
          else send_msg_userauth_failure false true
      end.

(** ** Public keys *)
Definition send_msg_userauth_pk_ok (algo keyblob : list Z) : M auth () :=
  ses_write (buf_putbyte SSH_MSG_USERAUTH_PK_OK);;
  ses_write (buf_putstring algo (zlen algo));;
  ses_write (buf_putstring keyblob (zlen keyblob));;
  encrypt_msg.

(** The data which has been signed: the session identifier as a string, then
    the payload up to the signature. *)
Definition make_signbuf : M auth buffer :=
  s ← get;
  let p := io_payload (get_io s) in
  if negb (payload_beginning s <=? buf_pos p) then dropbear_exit "assertion failed"
  else
    let sign_payload_length := u32 (buf_pos p - payload_beginning s) in
    signbuf ← lift (buf_new (u32 (buf_pos p + 4 + buf_len (session_id s))));
    signbuf ← lift (exec (buf_putbufstring (session_id s)) signbuf);
    ses_payload (buf_setpos (payload_beginning s));;
    q ← ses_payload (buf_getptr sign_payload_length);
    signed ← ses_payload (buf_load q sign_payload_length);
    signbuf ← lift (exec (buf_putbytes signed sign_payload_length) signbuf);
    ses_payload (buf_incrpos (i32 sign_payload_length));;
    lift (exec (buf_setpos 0) signbuf).

(** What is left after [out:]: the options are kept only after a success. *)
Definition auth_pubkey_out : M auth () :=
  s ← get; when (negb (authdone s)) (modify (set_pubkey_options None)).

Definition auth_pubkey_verify (testkey : bool) (algo keyblob : list Z) : M auth () :=
  s ← get;
  r ← lift (checkpubkey sshhostkey (authfile (moment s)) algo keyblob (pubkey_options s));
  let '(ok, o) := r in
  modify (set_pubkey_options o);;
  if negb ok then send_msg_userauth_failure false false
  else if testkey then send_msg_userauth_pk_ok algo keyblob
  else
    key ← ses_payload buf_get_pub_key;
    match key with
    | None => send_msg_userauth_failure false true
    | Some key =>
        signbuf ← make_signbuf;
        good ← ses_payload (buf_verify key signbuf);
        if good : bool then send_msg_userauth_success else send_msg_userauth_failure false true
    end.

Definition svr_auth_pubkey (valid_user : bool) : M auth () :=
  wanted ← ses_payload buf_getbool;
  algo ← ses_payload buf_getstring;
  keybloblen ← ses_payload buf_getint;
  p ← ses_payload (buf_getptr keybloblen);
  keyblob ← ses_payload (buf_load p keybloblen);
  (if negb valid_user then send_msg_userauth_failure false false
   else auth_pubkey_verify (wanted =? 0) algo keyblob);;
  auth_pubkey_out.

(** ** Requests *)
Definition svr_authinitialise (s : auth) : auth :=
  let s := mkAuth (au_io s) (S (moment s)) None 0 0 false false (0, 0) 0 0 None None None None None
             (connect_time s) (allowprivport s) (childpipe_open s) (banner s) (session_id s)
             (payload_beginning s) (delays s) in
  if authkeys_exists (authfile (moment s)) then set_authtypes AUTH_TYPE_PUBKEY s
  else set_pw_passwd (Some (bytes_of_string "12345678")) (set_authtypes AUTH_TYPE_PASSWORD s).

Definition send_banner : M auth () :=
  s ← get;
  match banner s with
  | Some b => send_msg_userauth_banner b;; modify (set_banner None)
  | None => mret tt
  end.

(** A blank password lets the user in, when the options allow it. *)
Definition blank_password (valid_user : bool) : M auth bool :=
  s ← get;
  if valid_user && allowblankpass opts && negb (noauthpass opts) && negb (norootpass opts && (pw_uid s =? 0)) then
    p ← get_passwd; mret (default 0 (head (cstr p)) =? 0)
  else mret false.

Definition userauth_method (valid_user : bool) (methodname : list Z) : M auth () :=
  let methodlen := zlen methodname in
  s ← get;
  if (methodlen =? zlen AUTH_METHOD_NONE) && strncmp_eq (length AUTH_METHOD_NONE) methodname AUTH_METHOD_NONE then
    blank ← blank_password valid_user;
    if blank : bool then send_msg_userauth_success else send_msg_userauth_failure false false
  else if negb (Z.land (authtypes s) AUTH_TYPE_PASSWORD =? 0) && (methodlen =? zlen AUTH_METHOD_PASSWORD)
          && strncmp_eq (length AUTH_METHOD_PASSWORD) methodname AUTH_METHOD_PASSWORD then
    svr_auth_password true
  else if (methodlen =? zlen AUTH_METHOD_PUBKEY) && strncmp_eq (length AUTH_METHOD_PUBKEY) methodname AUTH_METHOD_PUBKEY then
    svr_auth_pubkey valid_user
  else send_msg_userauth_failure false true.

Definition recv_msg_userauth_request : M auth () :=
  t ← now;
  modify (set_auth_starttime t);;
  s ← get;
  if authdone s then mret tt
  else
    send_banner;;
    user ← ses_payload buf_getstring;
    servicename ← ses_payload buf_getstring;
    methodname ← ses_payload buf_getstring;
    if negb (zlen servicename =? zlen SSH_SERVICE_CONNECTION)
       && negb (strncmp_eq (length SSH_SERVICE_CONNECTION) servicename SSH_SERVICE_CONNECTION)
    then dropbear_exit "unknown service in auth"
    else
      valid_user ← checkusername user;
      userauth_method valid_user methodname.

Definition send_msg_service_accept (name : list Z) : M auth () :=
  ses_write (buf_putbyte SSH_MSG_SERVICE_ACCEPT);;
  ses_write (buf_putstring name (zlen name));;
  encrypt_msg.

Definition recv_msg_service_request : M auth () :=
  name ← ses_payload buf_getstring;
  let len := zlen name in
  if (len =? zlen SSH_SERVICE_USERAUTH) && strncmp_eq (Z.to_nat len) SSH_SERVICE_USERAUTH name then
    send_msg_service_accept name
  else if (len =? zlen SSH_SERVICE_CONNECTION) && strncmp_eq (Z.to_nat len) SSH_SERVICE_CONNECTION name then
    s ← get;
    if negb (authdone s) then dropbear_exit "Request for connection before auth" else send_msg_service_accept name
  else dropbear_exit "Unrecognised SSH_MSG_SERVICE_REQUEST".
End auth.
