(* ===== verification/AuthProps.v ===== *)
(** * Properties of user authentication

    A session is authenticated only by a credential, at most [maxauthtries]
    guesses are answered, the delay of a refusal is bounded, and what the
    password mode accepts. *)
From S2P Require Import Prelude Ssh Buffer BufferProps Packet PacketProps Session Algo Base64 AuthKeys AuthKeysProps Auth.

(** ** The bytes of a request *)
Lemma p_bool_inv l v tl : p_bool l = Some (v, tl) → ∃ c, l = c :: tl ∧ (v = 0 ↔ c = 0).
Proof.
  unfold p_bool, p_bind, p_byte, p_ret. destruct l as [|c l]; [done|]. cbn [mbind option_bind]. intros [= <- <-]. exists c. split; [done|].
  destruct (Z.eqb_spec c 0); split; lia.
Qed.
Lemma strncmp_eq_nonnul_r n (a b : list Z) : length a = n → length b = n → Forall (λ c, c ≠ 0) b →
  strncmp_eq n a b = true → a = b.
Proof.
  revert a b. induction n as [|n IH]; intros [|x a] [|y b] Ha Hb Hz; cbn in *; try done; try lia.
  apply Forall_cons in Hz as [Hy Hz]. destruct (Z.eqb_spec x y) as [->|]; [|done].
  destruct (Z.eqb_spec y 0); [done|]. intros H. f_equal. apply IH; [lia|lia|done|done].
Qed.
Lemma method_eq (m name : list Z) : Forall (λ c, c ≠ 0) name →
  (zlen m =? zlen name) && strncmp_eq (length name) m name = true → m = name.
Proof. intros Hn [Hl%Z.eqb_eq Hs]%andb_true_iff. eapply strncmp_eq_nonnul_r; [|done|done|exact Hs]. lia. Qed.

(** The comparison of passwords decides equality. *)
Lemma cstr_cstr l : cstr (cstr l) = cstr l.
Proof. induction l as [|c l IH]; cbn; [done|]. destruct (c =? 0) eqn:E; cbn; [done|]. by rewrite E, IH. Qed.
Lemma constant_time_strcmp_eq a b : constant_time_strcmp a b = 0 ↔ cstr a = cstr b.
Proof.
  unfold constant_time_strcmp, strlen. destruct (Z.eqb_spec (zlen (cstr a)) (zlen (cstr b))) as [E|E]; cbn [negb].
  - apply constant_time_memcmp_spec. lia.
  - split; [done|]. intros H. by rewrite H in E.
Qed.

(** ** The delay of a refusal *)

(** A normalised time. *)
Definition timespec (t : Z * Z) : Prop := 0 ≤ t.2 < 1000000000.
Definition nanoseconds (t : Z * Z) : Z := t.1 * 1000000000 + t.2.

(** The delay of a refusal.  Whatever the clock did, the time to sleep is
    less than 350 milliseconds and is a time [nanosleep] accepts; when the
    clock went forward by at most a quarter of a second since the request, the
    request and the sleep together take between 250 and 350 milliseconds, and
    the total depends on the random number alone, not on the work done. *)
Theorem failure_delay_bounds start stop rand : timespec start → timespec stop → 0 ≤ rand < U32 →
  let d := failure_delay start stop rand in
  d.1 = 0 ∧ 0 ≤ d.2 < 350000000 ∧
  (0 ≤ nanoseconds stop - nanoseconds start ≤ mindelay →
   nanoseconds stop - nanoseconds start + nanoseconds d = mindelay + rand mod vardelay).
Proof.
  unfold timespec, nanoseconds, failure_delay. destruct start as [s0 n0], stop as [s1 n1]. cbn [fst snd]. intros H0 H1 Hr.
  pose proof (Z.mod_pos_bound rand vardelay ltac:(done)) as Hv. unfold vardelay, mindelay in *.
  destruct (Z.ltb_spec (n1 - n0) 0); cbn [fst snd].
  - destruct (Z.eqb_spec (s1 - s0 - 1) 0), (Z.leb_spec (n1 - n0 + 1000000000) 250000000); cbn [andb fst snd]; lia.
  - destruct (Z.eqb_spec (s1 - s0) 0), (Z.leb_spec (n1 - n0) 250000000); cbn [andb fst snd]; lia.
Qed.
Lemma failure_delay_bounds_witness :
  let d := failure_delay (5, 900000000) (6, 100000000) 4000000000 in
  d.1 = 0 ∧ 0 ≤ d.2 < 350000000 ∧
  (0 ≤ nanoseconds (6, 100000000) - nanoseconds (5, 900000000) ≤ mindelay →
   nanoseconds (6, 100000000) - nanoseconds (5, 900000000) + nanoseconds d = mindelay + 4000000000 mod vardelay).
Proof. apply failure_delay_bounds; unfold timespec, U32; cbn; lia. Defined.

(** ** The invariant *)
Section auth.
Context {K D Mo : Type} `{!SignKey K}.
Context (sshhostkey : list (algo_type D Mo)) (opts : auth_opts) (conf_home conf_shell : list Z).
Context (gettime : nat → Z * Z) (genrandom : nat → Z) (authfile : nat → option (list Z)).
Context (Hmax : maxauthtries opts < U32) (Hfile : ∀ t l, authfile t = Some l → Forall is_byte l).

Abbreviation failure := (send_msg_userauth_failure opts gettime genrandom).

Definition the_password : list Z := bytes_of_string "12345678".
Record auth_inv (s : auth) : Prop := {
  ai_idle : io_idle (au_io s);
  ai_payload : buf_wf (io_payload (au_io s));
  ai_sid : buf_wf (session_id s);
  ai_begin : 0 ≤ payload_beginning s;
  ai_banner : ∀ b, banner s = Some b → buf_wf b;
  ai_types : (authtypes s = AUTH_TYPE_PUBKEY ∧ (pw_passwd s = None ∨ pw_passwd s = Some (bytes_of_string "!!"))) ∨
             (authtypes s = AUTH_TYPE_PASSWORD ∧ pw_passwd s = Some the_password);
  ai_user : match username s with
            | None => pw_name s = None ∧ pw_shell s = None
            | Some u => is_Some (pw_passwd s) ∧ pw_name s = Some (bytes_of_string "user") ∧ pw_shell s = Some conf_shell
            end;
  ai_fail : failcount s = zlen (delays s) ∧ (failcount s = 0 ∨ failcount s < maxauthtries opts)
}.
(** What a step leaves alone. *)
Definition same (s s' : auth) : Prop :=
  io_payload (au_io s') = io_payload (au_io s) ∧ session_id s' = session_id s ∧ payload_beginning s' = payload_beginning s ∧
  authtypes s' = authtypes s ∧ username s' = username s.

Lemma wp_now (Q : Z * Z → auth → Prop) s : Q (gettime (moment s)) (set_moment (S (moment s)) s) → wp (now gettime) Q s.
Proof. done. Qed.
Lemma wp_random32 (Q : Z → auth → Prop) s : Q (u32 (genrandom (moment s))) (set_moment (S (moment s)) s) → wp (random32 genrandom) Q s.
Proof. done. Qed.

Lemma writer_auth_methods types : Writer (auth_methods types)
  ((if negb (Z.land types AUTH_TYPE_PUBKEY =? 0) then
      AUTH_METHOD_PUBKEY ++ (if negb (Z.land types AUTH_TYPE_PASSWORD =? 0) then [44] else []) else []) ++
   (if negb (Z.land types AUTH_TYPE_PASSWORD =? 0) then AUTH_METHOD_PASSWORD else [])).
Proof.
  assert (Writer (buf_putbytes AUTH_METHOD_PUBKEY (zlen AUTH_METHOD_PUBKEY)) AUTH_METHOD_PUBKEY)
    by (apply writer_putbytes; [apply bytes_of_string_bytes|done]).
  assert (Writer (buf_putbytes AUTH_METHOD_PASSWORD (zlen AUTH_METHOD_PASSWORD)) AUTH_METHOD_PASSWORD)
    by (apply writer_putbytes; [apply bytes_of_string_bytes|done]).
  assert (Writer (buf_putbyte 44) [44]) by (by apply writer_putbyte).
  unfold auth_methods. apply writer_seq.
  - destruct (negb (Z.land types AUTH_TYPE_PUBKEY =? 0)); cbn [when]; [|apply _]. apply writer_seq; [done|].
    destruct (negb (Z.land types AUTH_TYPE_PASSWORD =? 0)); cbn [when]; apply _.
  - destruct (negb (Z.land types AUTH_TYPE_PASSWORD =? 0)); cbn [when]; apply _.
Qed.

(** ** Replies *)
Lemma inv_io io s : auth_inv s → io_idle io → io_payload io = io_payload (au_io s) → auth_inv (set_io io s).
Proof using. intros [] Hi Hp. split; cbn; try done. by rewrite Hp. Qed.

Lemma wp_failure partial incr s : auth_inv s →
  wp (failure partial incr) (λ _ s', auth_inv s' ∧ same s s' ∧ authdone s' = authdone s ∧ pubkey_options s' = pubkey_options s ∧
    zlen (delays s') = zlen (delays s) + (if incr then 1 else 0)) s.
Proof using Hmax.
  intros Hi. unfold send_msg_userauth_failure.
  wp_step. eapply wp_ses_append; [by apply (writer_putbyte SSH_MSG_USERAUTH_FAILURE)|apply building_idle, Hi|]. intros w1 Hw1.
  wp_step. wp_step. wp_step. apply wp_new; [done|]. intros tb Htb Htl Htp Hts. apply wp_exec.
  eapply writer_wp; [apply writer_auth_methods|done|lia|]. intros Hfit. match type of Hfit with _ + zlen ?l ≤ _ => set (ms := l) in * end.
  assert (Htb' : buf_wf (buf_append tb ms)) by (apply buf_wf_append; [done|apply writer_auth_methods|done]).
  wp_step. eapply wp_ses_append; [by apply writer_putbufstring|rewrite get_set_io; exact Hw1|]. intros w2 Hw2. rewrite get_set_io in *.
  rewrite set_set_io. cbn [io_set_writepayload io_payload io_sent] in *.
  wp_step. eapply wp_ses_append; [apply (writer_putbyte (if partial then 1 else 0)); by destruct partial|rewrite get_set_io; exact Hw2|].
  intros w3 Hw3. rewrite get_set_io in *. rewrite set_set_io. cbn [io_set_writepayload io_payload io_sent] in *.
  wp_step. eapply wp_encrypt_built; [rewrite get_set_io; exact Hw3|done|]. 
  intros w4 Hw4. rewrite get_set_io in *. rewrite set_set_io. cbn [io_payload io_sent] in *. set (io := mkIO _ _ _) in *. pose proof (inv_io io s Hi Hw4 eq_refl) as Hi'.
  assert (Hs' : same s (set_io io s)) by done.
  assert (Hd' : delays (set_io io s) = delays s ∧ authdone (set_io io s) = authdone s ∧ pubkey_options (set_io io s) = pubkey_options s) by done.
  revert Hi' Hs' Hd'. generalize (set_io io s). clear -Hmax. intros s1 Hi Hs (Hd & Ha & Ho). wp_step. destruct incr; cbn [when].
  - wp_step. apply wp_now. wp_step. apply wp_random32. wp_step. wp_step. wp_step. wp_step. wp_step.
    cbn [set_failcount set_delays set_moment failcount delays]. destruct (Z.geb_spec (u32 (failcount s1 + 1)) (maxauthtries opts)) as [|Hlt]; [by wp_step|].
    wp_step. destruct Hi. destruct ai_fail0 as [Hf1 Hf2].
    assert (E : u32 (failcount s1 + 1) = failcount s1 + 1) by (apply u32_small; unfold U32 in *; lia). rewrite E in *.
    split_and!; try done.
    + split; cbn; try done. rewrite length_app. cbn. split; [lia|by right].
    + cbn. rewrite length_app, Hd. cbn. lia.
  - wp_step. wp_step. wp_step. wp_step; [done|]. wp_step. split_and!; try done. rewrite Hd. lia.
Qed.
Lemma wp_success s : auth_inv s →
  wp send_msg_userauth_success (λ _ s', auth_inv s' ∧ same s s' ∧ authdone s' = true ∧ pubkey_options s' = pubkey_options s) s.
Proof using.
  intros Hi. unfold send_msg_userauth_success.
  wp_step. eapply wp_ses_append; [by apply (writer_putbyte SSH_MSG_USERAUTH_SUCCESS)|apply building_idle, Hi|]. intros w1 Hw1.
  wp_step. eapply wp_encrypt_built; [rewrite get_set_io; exact Hw1|done|]. 
  intros w4 Hw4. rewrite get_set_io in *. rewrite set_set_io. cbn [io_payload io_sent io_set_writepayload] in *. set (io := mkIO _ _ _) in *. pose proof (inv_io io s Hi Hw4 eq_refl) as Hi'.
  assert (Hs' : same s (set_io io s)) by done. assert (Ho : pubkey_options (set_io io s) = pubkey_options s) by done.
  revert Hi' Hs' Ho. generalize (set_io io s). clear. intros s1 Hi Hs Ho. do 6 wp_step.
  destruct Hi. wp_step; wp_step; repeat wp_step; split_and!; try done; split; done.
Qed.

(** A request was answered: with success only on a credential, and with a
    refusal that costs an attempt when [pen]. *)
Definition answered (cred : Prop) (pen : bool) (s s' : auth) : Prop :=
  auth_inv s' ∧ session_id s' = session_id s ∧ authtypes s' = authtypes s ∧
  if authdone s' then cred
  else zlen (delays s) ≤ zlen (delays s') ∧ (pen = true → zlen (delays s') = zlen (delays s) + 1).
Definition frame (s s1 : auth) : Prop :=
  session_id s1 = session_id s ∧ authtypes s1 = authtypes s ∧ authdone s1 = false ∧ delays s1 = delays s.
Lemma wp_refuse cred (pen : bool) partial incr s s1 : auth_inv s1 → frame s s1 → (pen = true → incr = true) →
  wp (failure partial incr) (λ _ s', answered cred pen s s' ∧ authdone s' = false ∧ pubkey_options s' = pubkey_options s1) s1.
Proof using Hmax.
  intros Hi (H1 & H2 & H3 & H4) Hpen. eapply wp_mono; [by apply wp_failure|].
  intros [] s2 (Hi2 & (Hs1 & Hs2 & Hs3 & Hs4 & Hs5) & Ha & Ho & Hd). unfold answered. rewrite Ha, H3, H4 in *.
  split_and!; try done; try congruence; destruct incr, pen; lia || naive_solver lia.
Qed.
Lemma wp_admit (cred : Prop) pen s s1 : auth_inv s1 → frame s s1 → cred →
  wp send_msg_userauth_success (λ _ s', answered cred pen s s' ∧ authdone s' = true ∧ pubkey_options s' = pubkey_options s1) s1.
Proof using.
  intros Hi (H1 & H2 & H3 & H4) Hc. eapply wp_mono; [by apply wp_success|].
  intros [] s2 (Hi2 & (Hs1 & Hs2 & Hs3 & Hs4 & Hs5) & Ha & Ho). unfold answered. rewrite Ha. split_and!; try done; congruence.
Qed.

(** ** Passwords *)
Lemma inv_payload b s : auth_inv s → buf_wf b → auth_inv (set_io (io_set_payload b (au_io s)) s).
Proof using. intros [] Hb. split; cbn; try done. Qed.

Lemma wp_auth_password s0 s : auth_inv s → frame s0 s → authtypes s = AUTH_TYPE_PASSWORD →
  wp (svr_auth_password opts gettime genrandom true) (λ _ s',
    answered (∃ pw tl, buf_rest (io_payload (au_io s)) = [0] ++ str pw ++ tl ∧ cstr pw = the_password) true s0 s' ∧
    pubkey_options s' = pubkey_options s) s.
Proof using Hmax.
  intros Hi Hfr Hty. unfold svr_auth_password. set (cred := ∃ pw tl, _).
  assert (Hfail : ∀ s1, auth_inv s1 → frame s0 s1 → pubkey_options s1 = pubkey_options s →
    wp (failure false true) (λ _ s', answered cred true s0 s' ∧ pubkey_options s' = pubkey_options s) s1).
  { intros s1 Hi1 Hf1 Ho. eapply wp_mono; [by apply (wp_refuse cred true false true s0)|]. intros [] s' (? & ? & ?). split; [done|congruence]. }
  wp_step. apply (wp_payload_reader buf_getbool p_bool); [apply _|apply Hi|]. intros v n b Hn Hnf Hw Hp. fold b in Hw. cbn beta.
  destruct (p_bool_inv _ _ _ Hp) as (c & Hr & Hc). set (b1 := buf_advance b n) in *.
  pose proof (inv_payload b1 s Hi Hw) as Hi1. change (au_io s) with (get_io s) in Hi1. set (s1 := set_io (io_set_payload b1 (get_io s)) s) in *.
  destruct (Z.eqb_spec v 0) as [Hv|]; cbn [negb]; [|by apply Hfail]. apply Hc in Hv as ->.
  wp_step. apply (wp_payload_reader buf_getstring p_string); [apply _|apply Hi1|]. intros pw m b2 Hm Hmf Hw2 Hp2. cbn beta.
  change (io_payload (get_io s1)) with b1 in b2. subst b2. destruct (p_string_inv _ _ _ (buf_rest_bytes _ Hw) Hp2) as [Hr2 Hpl].
  set (b2 := buf_advance b1 m) in *. pose proof (inv_payload b2 s1 Hi1 Hw2) as Hi2. change (au_io s1) with (get_io s1) in Hi2.
  set (s2 := set_io (io_set_payload b2 (get_io s1)) s1) in *. cbn [negb andb].
  destruct (Z.gtb_spec (zlen pw) DROPBEAR_MAX_PASSWORD_LEN) as [|Hl]; [by apply Hfail|].
  rewrite (proj2 (Z.leb_le _ _)) by lia. destruct (strlen pw =? 8); [|by apply Hfail].
  assert (Hpass : pw_passwd s2 = Some the_password) by (destruct (ai_types _ Hi) as [[E _]|[_ E]]; [by rewrite E in Hty|exact E]).
  wp_step. unfold get_passwd. wp_step. wp_step. rewrite Hpass. wp_step. change (default 0 (head (cstr the_password)) =? 0) with false. cbn beta iota.
  destruct (Z.eqb_spec (constant_time_strcmp (cstr pw) the_password) 0) as [Hcmp|]; [|by apply Hfail].
  apply constant_time_strcmp_eq in Hcmp. rewrite cstr_cstr in Hcmp.
  eapply wp_mono; [apply (wp_admit cred true s0); [done|done|]|].
  - exists pw, (buf_rest b2). split; [|done]. change (io_payload (au_io s)) with b. by rewrite Hr, Hr2.
  - intros [] s' (? & ? & Ho). split; [done|]. exact Ho.
Qed.

(** ** Public keys *)
Lemma wp_exec_last {S T A} (m : M T A) (Q : T → S → Prop) (t : T) (s : S) : wp m (λ _ t', Q t' s) t → wp (lift (exec m t)) Q s.
Proof using. unfold wp, exec, lift. cbn. by destruct (m t) as [[]| |]. Qed.
(** What is signed: the session identifier and the request up to the signature. *)
Definition signed_data (sid p : buffer) (beg : Z) : list Z :=
  str (buf_content sid) ++ take (Z.to_nat (buf_pos p - beg)) (drop (Z.to_nat beg) (buf_data p)).
Lemma wp_make_signbuf s : auth_inv s →
  wp make_signbuf (λ sb s', s' = s ∧ buf_wf sb ∧
    buf_content sb = signed_data (session_id s) (io_payload (au_io s)) (payload_beginning s)) s.
Proof using.
  intros Hi. pose proof Hi as [_ Hp Hsid Hbeg _ _ _ _]. unfold make_signbuf. wp_step. wp_step. set (p := io_payload (get_io s)).
  destruct (Z.leb_spec (payload_beginning s) (buf_pos p)) as [Hle|]; cbn [negb]; [|by wp_step].
  assert (Hpw : buf_wf p) by done. pose proof Hpw as Hpw'. pose proof Hsid as Hsid'. buf_facts.
  rewrite !u32_small by (unfold U32; lia). wp_step. apply wp_new; [lia|]. intros sb Hsb Hsl Hsp Hss. apply wp_exec.
  eapply writer_wp; [by apply writer_putbufstring|done|lia|]. intros Hfit. set (e1 := str _) in *.
  assert (He1 : Forall is_byte e1) by (by apply (writer_putbufstring (session_id s))).
  assert (Hsb1 : buf_wf (buf_append sb e1)) by (apply buf_wf_append; [done|done|lia]).
  wp_step. apply wp_ses_payload. apply wp_setpos; [done|done|]. intros _ Hp1. fold p in Hp1 |- *. set (p1 := set_pos (payload_beginning s) p) in *.
  wp_step. apply wp_ses_payload. rewrite !get_set_io. cbn [io_set_payload io_payload]. apply wp_getptr; [done|unfold U32; lia|]. intros Hf1.
  wp_step. apply wp_ses_payload. rewrite !get_set_io. cbn [io_set_payload io_payload]. apply wp_load; [done|done|lia|cbn; lia|].
  intros bs Hbs Hbl Hbb. change (buf_data p1) with (buf_data p) in Hbs. change (buf_pos p1) with (payload_beginning s) in Hbs.
  rewrite <- Hbl at 1. apply wp_exec. eapply writer_wp; [apply writer_putbytes; [done|unfold U32; lia]|done|done|]. intros Hfit2.
  set (sb2 := buf_append (buf_append sb e1) bs) in *. assert (Hsb2 : buf_wf sb2) by (apply buf_wf_append; done).
  rewrite i32_small by lia. wp_step. apply wp_ses_payload. rewrite !get_set_io, !set_set_io. cbn [io_set_payload io_payload].
  apply wp_incrpos; [done|lia|]. intros _ Hp2. rewrite ?get_set_io, ?set_set_io. cbn [io_set_payload io_payload io_writepayload io_sent].
  apply wp_exec_last. apply wp_setpos; [done|done|]. intros _ Hsb3. split_and!; [|done|].
  - change (buf_pos p1) with (payload_beginning s). unfold p1, set_pos. cbn [buf_data buf_len buf_size].
    replace (payload_beginning s + (buf_pos p - payload_beginning s)) with (buf_pos p) by lia.
    transitivity (set_io (get_io s) s); [|apply set_get_io]. f_equal. unfold p. destruct (get_io s) as [[] ? ?]. done.
  - change (buf_content (set_pos 0 sb2)) with (buf_content sb2). unfold sb2. rewrite !buf_content_append by (done || lia).
    unfold buf_content at 1. rewrite Hsl. cbn [Z.to_nat take]. rewrite take_0, app_nil_l. unfold signed_data. by rewrite Hbs.
Qed.

(** The client proved that it has a listed key: [p] is the payload behind the
    name of the method. *)
Definition key_credential (sid p : buffer) (beg : Z) : Prop :=
  ∃ w algo keyblob tl t o p1 key p2 signbuf p3,
    buf_rest p = [w] ++ str algo ++ str keyblob ++ tl ∧ w ≠ 0 ∧
    checkpubkey sshhostkey (authfile t) algo keyblob None = Ok (true, o) ∧
    (∃ n, p1 = buf_advance p n) ∧ buf_rest p1 = keyblob ++ tl ∧ buf_wf p1 ∧ buf_get_pub_key p1 = Ok (Some key, p2) ∧ buf_wf p2 ∧
    buf_content signbuf = signed_data sid p2 beg ∧ buf_verify key signbuf p2 = Ok (true, p3).

Lemma wp_pk_ok algo keyblob s : auth_inv s → Forall is_byte algo → zlen algo < U32 → Forall is_byte keyblob → zlen keyblob < U32 →
  wp (send_msg_userauth_pk_ok algo keyblob) (λ _ s', auth_inv s' ∧ frame s s' ∨ authdone s = true) s.
Proof using.
  intros Hi Ha1 Ha2 Hk1 Hk2. unfold send_msg_userauth_pk_ok.
  wp_step. eapply wp_ses_append; [by apply (writer_putbyte SSH_MSG_USERAUTH_PK_OK)|apply building_idle, Hi|]. intros w1 Hw1.
  wp_step. eapply wp_ses_append; [by apply writer_putstring|rewrite get_set_io; exact Hw1|]. intros w2 Hw2. rewrite get_set_io in *. rewrite set_set_io.
  wp_step. eapply wp_ses_append; [by apply writer_putstring|rewrite get_set_io; exact Hw2|]. intros w3 Hw3. rewrite get_set_io in *. rewrite set_set_io.
  eapply wp_encrypt_built; [rewrite get_set_io; exact Hw3|done|]. intros w4 Hw4. rewrite get_set_io in *. rewrite set_set_io.
  destruct (authdone s) eqn:E; [by right|]. left. split; [|done]. by apply inv_io.
Qed.

Lemma wp_pubkey_verify s0 s testkey algo keyblob tl cred : auth_inv s → frame s0 s → pubkey_options s = None →
  Forall is_byte algo → zlen algo ≤ MAX_STRING_LEN → Forall is_byte keyblob → zlen keyblob < U32 → let p := io_payload (au_io s) in
  buf_rest p = keyblob ++ tl →
  (∀ t o key p2 signbuf p3, testkey = false → buf_wf p2 → checkpubkey sshhostkey (authfile t) algo keyblob None = Ok (true, o) →
     buf_get_pub_key p = Ok (Some key, p2) → buf_content signbuf = signed_data (session_id s) p2 (payload_beginning s) →
     buf_verify key signbuf p2 = Ok (true, p3) → cred) →
  wp (auth_pubkey_verify sshhostkey opts gettime genrandom authfile testkey algo keyblob) (λ _ s', answered cred false s0 s') s.
Proof using Hmax Hfile.
  intros Hi Hf Ho Ha Hal Hk Hkl p Hr Hcred. unfold auth_pubkey_verify. wp_step. wp_step. rewrite Ho. wp_step. apply wp_lift.
  assert (Hchk : ∀ e, checkpubkey sshhostkey (authfile (moment s)) algo keyblob None ≠ UB e).
  { intros e E. destruct (authfile (moment s)) as [file|] eqn:Ef; [|unfold checkpubkey in E; revert E; by case_if].
    pose proof (checkpubkey_spec sshhostkey file algo keyblob (Hfile _ _ Ef) Hal Hkl) as Hc. by rewrite E in Hc. }
  destruct (checkpubkey sshhostkey (authfile (moment s)) algo keyblob None) as [[ok o]|e|e] eqn:Ec; [|done|by destruct (Hchk e)].
  clear Hchk. wp_step. wp_step. set (s1 := set_pubkey_options o s). assert (Hi1 : auth_inv s1) by (destruct Hi; by split).
  assert (Hf1 : frame s0 s1) by done.
  assert (Hfail : ∀ s2 incr, auth_inv s2 → frame s0 s2 → wp (failure false incr) (λ _ s', answered cred false s0 s') s2).
  { intros s2 incr Hi2 Hf2. eapply wp_mono; [by apply (wp_refuse cred false false incr s0)|]. by intros [] s' []. }
  destruct ok; cbn [negb]; [|by apply Hfail]. destruct testkey.
  - eapply wp_mono; [apply wp_pk_ok; [done|done|unfold MAX_STRING_LEN, U32 in *; lia|done|done]|].
    destruct Hf1 as (F1 & F2 & F3 & F4). intros [] s2 [[Hi2 (F5 & F6 & F7 & F8)]|Hd]; [|congruence].
    split_and!; try done; try congruence. rewrite F7. split; [|done]. rewrite F8, F4. lia.
  - wp_step. apply wp_ses_payload. change (io_payload (get_io s1)) with p.
    eapply wp_mono; [apply wp_keep, get_pub_key_safe, Hi|]. intros key p2 [(Hp2 & (n & Hn & ->) & Hsd) Eg]. set (p2 := buf_advance p n) in *.
    set (s2 := set_io _ s1). assert (Hi2 : auth_inv s2) by (by apply inv_payload). assert (Hf2 : frame s0 s2) by done.
    destruct key as [key|]; [|by apply Hfail].
    wp_step. eapply wp_mono; [by apply wp_make_signbuf|]. intros sb s3 (-> & Hsb & Hsc). change (io_payload (au_io s2)) with p2 in Hsc.
    wp_step. apply wp_ses_payload. change (io_payload (get_io s2)) with p2.
    eapply wp_mono; [apply wp_keep, verify_safe; [by apply Hsd|done|done]|]. intros good p3 [Hp3 Ev].
    assert (Hi3 : auth_inv (set_io (io_set_payload p3 (get_io s2)) s2)) by (by apply inv_payload).
    destruct good; [|by apply Hfail]. eapply wp_mono; [apply (wp_admit cred false s0); [done|done|]|by intros [] s' []].
    by eapply (Hcred (moment s) o key p2 sb p3).
Qed.

Lemma wp_pubkey_out cred pen s0 s : answered cred pen s0 s →
  wp auth_pubkey_out (λ _ s', answered cred pen s0 s' ∧ (authdone s' = false → pubkey_options s' = None)) s.
Proof using.
  intros Ha. unfold auth_pubkey_out. wp_step. wp_step. wp_step.
  - wp_step. split; [|done]. destruct Ha as ([] & H1 & H2 & H3). by split_and!.
  - split; [done|]. intros Hd. rewrite Hd in *. done.
Qed.
(** A field of the request is read. *)
Lemma wp_field {A} (m : M buffer A) p (Q : A → auth → Prop) s s0 : Reader m p → auth_inv s → frame s0 s →
  (∀ v b1, let b := io_payload (au_io s) in let s1 := set_io (io_set_payload b1 (au_io s)) s in
     p (buf_rest b) = Some (v, buf_rest b1) → (∃ n, b1 = buf_advance b n) → Forall is_byte (buf_rest b) →
     auth_inv s1 → frame s0 s1 → Q v s1) →
  wp (ses_payload m) Q s.
Proof using.
  intros Hr Hi Hf HQ. apply (wp_payload_reader m p); [done|apply Hi|]. intros v n b Hn Hnf Hw Hp. apply HQ; [done|by exists n|apply buf_rest_bytes, Hi|by apply inv_payload|done].
Qed.
Lemma str_bytes bs tl : Forall is_byte (str bs ++ tl) → Forall is_byte bs.
Proof using. intros [H _]%Forall_app. by apply Forall_app in H as [_ ?]. Qed.

Lemma wp_auth_pubkey s0 s valid : auth_inv s → frame s0 s → pubkey_options s = None →
  wp (svr_auth_pubkey sshhostkey opts gettime genrandom authfile valid) (λ _ s',
    answered (key_credential (session_id s) (io_payload (au_io s)) (payload_beginning s)) false s0 s' ∧
    (authdone s' = false → pubkey_options s' = None)) s.
Proof using Hmax Hfile.
  intros Hi Hf Ho. unfold svr_auth_pubkey. set (p := io_payload (au_io s)). set (cred := key_credential _ _ _).
  wp_step. eapply wp_field; [apply reader_getbool|done|exact Hf|]. intros w b1 b s1 Hp1 Hb1 Hby1 Hi1 Hf1. subst b. fold p in Hp1, Hb1, Hby1. cbn beta.
  destruct (p_bool_inv _ _ _ Hp1) as (c & Hr1 & Hc).
  wp_step. eapply wp_field; [apply reader_getstring|done|exact Hf1|]. intros algo b2 b s2 Hp2 Hb2 Hby2 Hi2 Hf2. subst b.
  change (io_payload (au_io s1)) with b1 in *. cbn beta. destruct (p_string_inv _ _ _ Hby2 Hp2) as [Hr2 Hal].
  wp_step. eapply wp_field; [apply reader_getint|done|exact Hf2|]. intros klen b3 b s3 Hp3 Hb3 Hby3 Hi3 Hf3. subst b.
  change (io_payload (au_io s2)) with b2 in *. cbn beta. apply p_int_range in Hp3 as Hkl. apply p_int_inv in Hp3; [|done].
  assert (Hw3 : buf_wf b3) by apply (ai_payload _ Hi3). pose proof Hw3 as Hw3'. pose proof (buf_rest_length b3 Hw3) as Hl3. buf_facts.
  wp_step. apply wp_ses_payload. change (io_payload (get_io s3)) with b3. apply wp_getptr; [done|done|]. intros Hfit. cbn beta.
  assert (E3 : set_io (io_set_payload b3 (get_io s3)) s3 = s3) by done. rewrite E3.
  wp_step. apply wp_ses_payload. change (io_payload (get_io s3)) with b3. apply wp_load; [done|lia|lia|lia|].
  intros keyblob Hk Hkz Hkb. rewrite E3. cbn beta. rewrite buf_rest_load in Hk by (done || lia).
  set (tl := drop (Z.to_nat klen) (buf_rest b3)). assert (Hr3 : buf_rest b3 = keyblob ++ tl) by (unfold tl; by rewrite Hk, take_drop).
  assert (Hr : buf_rest p = [c] ++ str algo ++ str keyblob ++ tl).
  { rewrite Hr1, Hr2, Hp3, Hr3. unfold str. rewrite Hkz. by rewrite <- !app_assoc. }
  assert (Hadv : ∃ n, b3 = buf_advance p n).
  { destruct Hb1 as [n1 ->], Hb2 as [n2 ->], Hb3 as [n3 ->]. rewrite !buf_advance_advance. eauto. }
  wp_step. eapply (wp_mono _ (λ _ s', answered cred false s0 s')); [|intros [] s4 Ha; by apply wp_pubkey_out].
  destruct valid; cbn [negb].
  - eapply (wp_pubkey_verify s0 s3 (w =? 0) algo keyblob tl cred);
      [done|done|done|by eapply str_bytes; rewrite <- Hr2|done|done|unfold U32; lia|exact Hr3|].
    intros t o key p2 sb p3 Hw0%Z.eqb_neq Hw2 Ec Eg Es Ev. exists c, algo, keyblob, tl, t, o, b3, key, p2, sb, p3.
    split_and!; try done. by rewrite <- Hc.
  - eapply wp_mono; [by apply (wp_refuse cred false false false s0)|by intros [] s' []].
Qed.

(** ** Requests *)

(** What a request carries that lets its sender in. *)
Inductive credential (types : Z) (sid p : buffer) (beg : Z) : Prop :=
| by_password user service pw tl : types = AUTH_TYPE_PASSWORD →
    buf_rest p = str user ++ str service ++ str AUTH_METHOD_PASSWORD ++ [0] ++ str pw ++ tl → cstr pw = the_password →
    credential types sid p beg
| by_key user service p' n : p' = buf_advance p n →
    buf_rest p = str user ++ str service ++ str AUTH_METHOD_PUBKEY ++ buf_rest p' → key_credential sid p' beg →
    credential types sid p beg.

Lemma wp_blank_password valid s : auth_inv s → (valid = true → is_Some (username s)) →
  wp (blank_password opts valid) (λ r s', s' = s ∧ r = false) s.
Proof using.
  intros Hi Hv. unfold blank_password. wp_step. wp_step. wp_step; [|by wp_step].
  assert (Hu : is_Some (username s)).
  { apply Hv. repeat match goal with H : _ && _ = true |- _ => apply andb_true_iff in H as [H _] end. done. }
  destruct Hu as [u Hu]. pose proof (ai_user _ Hi) as Hus. rewrite Hu in Hus. destruct Hus as ([pw Hpw] & _).
  wp_step. unfold get_passwd. wp_step. wp_step. rewrite Hpw. wp_step. wp_step. split; [done|].
  destruct (ai_types _ Hi) as [[_ [E|E]]|[_ E]]; rewrite E in Hpw; [done|injection Hpw as <-..]; reflexivity.
Qed.
Lemma wp_method s0 s user service valid meth p : auth_inv s → frame s0 s → pubkey_options s = None → (valid = true → is_Some (username s)) →
  (∃ n, io_payload (au_io s) = buf_advance p n) →
  buf_rest p = str user ++ str service ++ str meth ++ buf_rest (io_payload (au_io s)) →
  wp (userauth_method sshhostkey opts gettime genrandom authfile valid meth) (λ _ s',
    answered (credential (authtypes s) (session_id s) p (payload_beginning s)) (bool_decide (meth = AUTH_METHOD_PASSWORD)) s0 s' ∧
    (authdone s' = false → pubkey_options s' = None)) s.
Proof using Hmax Hfile.
  intros Hi Hf Ho Hv Hadv Hr. unfold userauth_method. set (cred := credential _ _ _ _). set (pen := bool_decide _). wp_step. wp_step.
  assert (Hfail : ∀ incr, (pen = true → incr = true) → wp (failure false incr) (λ _ s', answered cred pen s0 s' ∧ (authdone s' = false → pubkey_options s' = None)) s).
  { intros incr Hp. eapply wp_mono; [by apply (wp_refuse cred pen false incr s0)|]. intros [] s' (? & ? & ?). split; [done|congruence]. }
  wp_step.
  { match goal with H : _ && _ = true |- _ => apply method_eq in H; [|apply (bool_decide_unpack _); vm_compute; exact I] end. subst meth.
    wp_step. eapply wp_mono; [by apply wp_blank_password|]. intros r s' [-> ->]. apply Hfail. by intros ?%bool_decide_eq_true. }
  wp_step.
  { match goal with H : _ && _ = true |- _ => rewrite <- andb_assoc in H; apply andb_true_iff in H as [Ht Hm] end.
    apply method_eq in Hm; [|apply (bool_decide_unpack _); vm_compute; exact I]. subst meth.
    assert (Hty : authtypes s = AUTH_TYPE_PASSWORD) by (destruct (ai_types _ Hi) as [[E _]|[E _]]; [by rewrite E in Ht|done]).
    eapply wp_mono; [by apply (wp_auth_password s0)|]. intros [] s' [(H1 & H2 & H3 & H4) H5]. split; [|by rewrite H5, Ho].
    split_and!; try done. destruct (authdone s'); [|naive_solver]. destruct H4 as (pw & tl & E & Hpw).
    eapply (by_password _ _ _ _ user service pw tl); [done| |done]. by rewrite Hr, E. }
  wp_step.
  { match goal with H : _ && _ = true |- _ => apply method_eq in H; [|apply (bool_decide_unpack _); vm_compute; exact I] end. subst meth.
    eapply wp_mono; [by apply (wp_auth_pubkey s0)|]. intros [] s' [(H1 & H2 & H3 & H4) H5]. split; [|done].
    split_and!; try done. destruct (authdone s'); [|naive_solver]. destruct Hadv as [n Hn]. by eapply (by_key _ _ _ _ user service _ n). }
  by apply Hfail.
Qed.

(** The state [fill_passwd] leaves. *)
Definition filled (s : auth) : auth :=
  let s1 := set_pw_shell (Some conf_shell) (set_pw_dir (Some conf_home) (set_pw_name (Some (bytes_of_string "user")) (set_pw_gid 0 (set_pw_uid 0 s)))) in
  match pw_passwd s with Some _ => s1 | None => set_pw_passwd (Some (bytes_of_string "!!")) s1 end.
Lemma fill_passwd_eq s : fill_passwd conf_home conf_shell s = Ok (tt, filled s).
Proof using.
  unfold fill_passwd, filled. do 5 (erewrite bind_ok by done). erewrite bind_ok by done.
  cbn [pw_passwd set_pw_shell set_pw_dir set_pw_name set_pw_gid set_pw_uid]. by destruct (pw_passwd s).
Qed.
Lemma inv_filled s user : auth_inv s → auth_inv (set_username (Some user) (filled s)).
Proof using.
  intros []. unfold filled. destruct (pw_passwd s) as [pw|] eqn:Ep; split; try done; cbn; rewrite ?Ep; eauto.
  destruct ai_types0 as [[H1 H2]|[H1 H2]]; [left; auto|done].
Qed.
Lemma filled_same s : au_io (filled s) = au_io s ∧ pubkey_options (filled s) = pubkey_options s ∧ payload_beginning (filled s) = payload_beginning s ∧
  session_id (filled s) = session_id s ∧ authtypes (filled s) = authtypes s ∧ authdone (filled s) = authdone s ∧ delays (filled s) = delays s ∧
  pw_shell (filled s) = Some conf_shell.
Proof using. unfold filled. by destruct (pw_passwd s). Qed.
Lemma wp_checkusername s0 s user : auth_inv s → frame s0 s →
  wp (checkusername conf_home conf_shell user) (λ v s', auth_inv s' ∧ frame s0 s' ∧ au_io s' = au_io s ∧
    pubkey_options s' = pubkey_options s ∧ payload_beginning s' = payload_beginning s ∧ session_id s' = session_id s ∧
    authtypes s' = authtypes s ∧
    (v = true → username s' = Some (default user (username s)) ∧ strcmp_eq user (default user (username s)) = true)) s.
Proof using.
  intros Hi Hf. unfold checkusername. wp_step; [by wp_step|]. wp_step; [by wp_step|]. wp_step. wp_step.
  assert (Hend : ∀ s1, auth_inv s1 → frame s0 s1 → au_io s1 = au_io s → pubkey_options s1 = pubkey_options s →
    payload_beginning s1 = payload_beginning s → session_id s1 = session_id s → authtypes s1 = authtypes s →
    username s1 = Some (default user (username s)) → strcmp_eq user (default user (username s)) = true →
    wp (s ← get; if checkusername_failed s then mret false
        else match pw_name s with None => modify (set_checkusername_failed true);; mret false | Some _ => mret true end)
      (λ v s', auth_inv s' ∧ frame s0 s' ∧ au_io s' = au_io s ∧
        pubkey_options s' = pubkey_options s ∧ payload_beginning s' = payload_beginning s ∧ session_id s' = session_id s ∧
        authtypes s' = authtypes s ∧
        (v = true → username s' = Some (default user (username s)) ∧ strcmp_eq user (default user (username s)) = true)) s1).
  { intros s1 Hi1 Hf1 H1 H2 H3 H4 H5 H6 H7. wp_step. wp_step. wp_step; [by wp_step|].
    pose proof (ai_user _ Hi1) as Hu. rewrite H6 in Hu. destruct Hu as (_ & -> & _). by wp_step. }
  destruct (username s) as [u|] eqn:Eu; wp_step.
  - destruct (strcmp_eq user u) eqn:E; cbn [negb]; wp_step. by apply Hend.
  - assert (Hself : strcmp_eq user user = true) by (unfold strcmp_eq; by apply bool_decide_eq_true_2).
    wp_step. eapply wp_ok; [apply fill_passwd_eq|]. wp_step. destruct (filled_same s) as (F1 & F2 & F3 & F4 & F5 & F6 & F7 & _).
    destruct Hf as (G1 & G2 & G3 & G4). apply Hend; try done; [by apply inv_filled|]. split_and!; cbn; congruence.
Qed.

Lemma wp_banner s0 s : auth_inv s → frame s0 s →
  wp send_banner (λ _ s', auth_inv s' ∧ frame s0 s' ∧ io_payload (au_io s') = io_payload (au_io s) ∧
    pubkey_options s' = pubkey_options s ∧ payload_beginning s' = payload_beginning s ∧ username s' = username s) s.
Proof using.
  intros Hi Hf. unfold send_banner. wp_step. wp_step. destruct (banner s) as [b|] eqn:Eb; [|by wp_step].
  pose proof (ai_banner _ Hi b Eb) as Hb. wp_step. unfold send_msg_userauth_banner.
  wp_step. eapply wp_ses_append; [by apply (writer_putbyte SSH_MSG_USERAUTH_BANNER)|apply building_idle, Hi|]. intros w1 Hw1.
  wp_step. eapply wp_ses_append; [by apply writer_putbufstring|rewrite get_set_io; exact Hw1|]. intros w2 Hw2. rewrite get_set_io in *. rewrite set_set_io.
  wp_step. eapply wp_ses_append; [apply (writer_putstring (bytes_of_string "en")); [apply bytes_of_string_bytes|done]|rewrite get_set_io; exact Hw2|].
  intros w3 Hw3. rewrite get_set_io in *. rewrite set_set_io.
  eapply wp_encrypt_built; [rewrite get_set_io; exact Hw3|done|]. intros w4 Hw4. rewrite get_set_io in *. rewrite set_set_io.
  match goal with |- context [set_io ?x s] => pose proof (inv_io x s Hi Hw4 eq_refl) as Hi' end.
  wp_step. destruct Hi'. by split_and!.
Qed.

(** The user, the service and the method of a request. *)
Definition parse_request (p : buffer) : option (list Z * list Z * list Z) :=
  '(user, r1) ← p_string (buf_rest p);
  '(service, r2) ← p_string r1;
  '(meth, _) ← p_string r2;
  Some (user, service, meth).
Definition is_password (p : buffer) : bool :=
  match parse_request p with Some (_, _, meth) => bool_decide (meth = AUTH_METHOD_PASSWORD) | None => false end.

Lemma wp_request s : auth_inv s → authdone s = false → pubkey_options s = None →
  wp (recv_msg_userauth_request sshhostkey opts conf_home conf_shell gettime genrandom authfile) (λ _ s',
    answered (credential (authtypes s) (session_id s) (io_payload (au_io s)) (payload_beginning s))
      (is_password (io_payload (au_io s))) s s' ∧ (authdone s' = false → pubkey_options s' = None)) s.
Proof using Hmax Hfile.
  intros Hi Hd Ho. unfold recv_msg_userauth_request. set (p := io_payload (au_io s)). wp_step. apply wp_now. wp_step. wp_step. wp_step. wp_step.
  set (s1 := set_auth_starttime _ _). assert (Hi1 : auth_inv s1) by (destruct Hi; by split). assert (Hf1 : frame s s1) by done.
  change (authdone s1) with (authdone s). rewrite Hd.
  wp_step. eapply wp_mono; [by apply (wp_banner s)|]. intros [] s2 (Hi2 & Hf2 & Hp2 & Ho2 & Hb2 & Hu2). change (io_payload (au_io s1)) with p in Hp2.
  wp_step. eapply wp_field; [apply reader_getstring|done|exact Hf2|]. rewrite Hp2. intros user b3 b s3 Hp3 Hb3 Hby3 Hi3 Hf3. subst b. cbn beta.
  destruct (p_string_inv _ _ _ Hby3 Hp3) as [Hr3 _].
  wp_step. eapply wp_field; [apply reader_getstring|done|exact Hf3|]. change (io_payload (au_io s3)) with b3.
  intros service b4 b s4 Hp4 Hb4 Hby4 Hi4 Hf4. subst b. cbn beta. destruct (p_string_inv _ _ _ Hby4 Hp4) as [Hr4 _].
  wp_step. eapply wp_field; [apply reader_getstring|done|exact Hf4|]. change (io_payload (au_io s4)) with b4.
  intros meth b5 b s5 Hp5 Hb5 Hby5 Hi5 Hf5. subst b. cbn beta. destruct (p_string_inv _ _ _ Hby5 Hp5) as [Hr5 _].
  assert (Hr : buf_rest p = str user ++ str service ++ str meth ++ buf_rest b5) by (by rewrite Hr3, Hr4, Hr5).
  wp_step; [by wp_step|]. wp_step. eapply wp_mono; [by apply (wp_checkusername s s5)|].
  intros valid s6 (Hi6 & Hf6 & Hio & Ho6 & Hb6 & Hs6 & Ht6 & Hv). pose proof Hf6 as (F1 & F2 & F3 & F4).
  assert (Hp6 : io_payload (au_io s6) = b5) by (by rewrite Hio).
  eapply wp_mono; [apply (wp_method s s6 user service valid meth p); [done|done|by rewrite Ho6; change (pubkey_options s5) with (pubkey_options s2); rewrite Ho2| | |]|].
  - intros ->. destruct (Hv eq_refl) as [-> _]. eauto.
  - rewrite Hp6. destruct Hb3 as [n3 ->], Hb4 as [n4 ->], Hb5 as [n5 ->]. rewrite !buf_advance_advance. eauto.
  - by rewrite Hp6.
  - intros [] s' [Ha Hno]. split; [|done].
    assert (is_password p = bool_decide (meth = AUTH_METHOD_PASSWORD)) as ->.
    { unfold is_password, parse_request. rewrite Hp3. cbn [mbind option_bind]. rewrite Hp4. cbn [mbind option_bind]. by rewrite Hp5. }
    rewrite F1, F2 in Ha. replace (payload_beginning s6) with (payload_beginning s) in Ha; [done|].
    rewrite Hb6. change (payload_beginning s5) with (payload_beginning s2). by rewrite Hb2.
Qed.

(** ** A session of requests *)
Definition receive (p : buffer) (beg : Z) (s : auth) : auth :=
  let s := set_io (io_set_payload p (get_io s)) s in
  mkAuth (au_io s) (moment s) (username s) (authtypes s) (failcount s) (authdone s) (checkusername_failed s) (auth_starttime s)
    (pw_uid s) (pw_gid s) (pw_dir s) (pw_shell s) (pw_name s) (pw_passwd s) (pubkey_options s) (connect_time s) (allowprivport s)
    (childpipe_open s) (banner s) (session_id s) beg (delays s).
Fixpoint run_requests (reqs : list (buffer * Z)) : M auth () :=
  match reqs with
  | [] => mret tt
  | (p, beg) :: reqs =>
      modify (receive p beg);;
      recv_msg_userauth_request sshhostkey opts conf_home conf_shell gettime genrandom authfile;;
      run_requests reqs
  end.
Definition request_ok (r : buffer * Z) : Prop := buf_wf r.1 ∧ 0 ≤ r.2.
Definition password_requests (reqs : list (buffer * Z)) : nat := length (filter (λ r, is_password r.1 = true) reqs).

Lemma inv_receive p beg s : auth_inv s → buf_wf p → 0 ≤ beg → auth_inv (receive p beg s).
Proof using. intros [] Hp Hb. by split. Qed.
Lemma run_done reqs s : auth_inv s → authdone s = true → Forall request_ok reqs →
  wp (run_requests reqs) (λ _ s', auth_inv s' ∧ authdone s' = true) s.
Proof using Hmax Hfile.
  intros Hi Hd Hr. revert s Hi Hd. induction Hr as [|[p beg] reqs [Hp Hb] Hr IH]; intros s Hi Hd; cbn [run_requests]; [by wp_step|].
  wp_step. wp_step. wp_step. unfold recv_msg_userauth_request. wp_step. apply wp_now. wp_step. wp_step. wp_step. wp_step.
  set (s1 := set_auth_starttime _ _). change (authdone s1) with (authdone s). rewrite Hd. wp_step. apply IH; [|done].
  pose proof (inv_receive p beg s Hi Hp Hb) as []. by split.
Qed.
Lemma wp_requests reqs s : auth_inv s → (authdone s = false → pubkey_options s = None) → authdone s = false → Forall request_ok reqs →
  wp (run_requests reqs) (λ _ s', auth_inv s' ∧
    if authdone s' then ∃ p beg, (p, beg) ∈ reqs ∧ credential (authtypes s) (session_id s) p beg
    else zlen (delays s) + Z.of_nat (password_requests reqs) ≤ zlen (delays s')) s.
Proof using Hmax Hfile.
  intros Hi Ho Hd Hr. revert s Hi Ho Hd. induction Hr as [|[p beg] reqs [Hp Hb] Hr IH]; intros s Hi Ho Hd; cbn [run_requests].
  { wp_step. rewrite Hd. split; [done|]. cbn. lia. }
  wp_step. wp_step. wp_step. cbn [fst snd] in *.
  eapply wp_mono; [apply wp_request; [by apply inv_receive|done|cbn; by apply Ho]|].
  change (io_payload (au_io (receive p beg s))) with p. change (payload_beginning (receive p beg s)) with beg.
  change (session_id (receive p beg s)) with (session_id s). change (authtypes (receive p beg s)) with (authtypes s).
  intros [] s1 [(Hi1 & Hs1 & Ht1 & Ha1) Ho1]. change (session_id (receive p beg s)) with (session_id s) in Hs1.
  change (authtypes (receive p beg s)) with (authtypes s) in Ht1. change (delays (receive p beg s)) with (delays s) in Ha1.
  destruct (authdone s1) eqn:Ed1.
  - eapply wp_mono; [by apply run_done|]. intros [] s' [Hi' Hd']. rewrite Hd'. split; [done|]. exists p, beg. split; [left|done].
  - eapply wp_mono; [apply IH; [done|intros _; by apply Ho1|done]|]. intros [] s' [Hi' Hd']. split; [done|]. destruct (authdone s').
    + destruct Hd' as (q & qb & Hin & Hc). exists q, qb. rewrite Ht1, Hs1 in Hc. split; [by apply elem_of_cons; right|done].
    + destruct Ha1 as [Hle Hpen]. unfold password_requests in *. rewrite filter_cons. cbn [fst]. case_decide as Hpw.
      * specialize (Hpen Hpw). cbn [length]. lia.
      * lia.
Qed.
(** A session before its first request. *)
Record session_start (s : auth) : Prop := {
  st_idle : io_idle (au_io s);
  st_payload : buf_wf (io_payload (au_io s));
  st_sid : buf_wf (session_id s);
  st_begin : 0 ≤ payload_beginning s;
  st_banner : ∀ b, banner s = Some b → buf_wf b;
  st_delays : delays s = []
}.
Lemma inv_initialise s : session_start s → let s0 := svr_authinitialise authfile s in
  auth_inv s0 ∧ authdone s0 = false ∧ pubkey_options s0 = None ∧ session_id s0 = session_id s ∧ delays s0 = [].
Proof using.
  intros []. unfold svr_authinitialise. case_if; (split_and!; [|done..]).
  all: split; try done; cbn; try (by left; auto); try (by right).
  all: replace (delays s) with (@nil (Z * Z)) by done; auto.
Qed.

(** C4. Nobody gets in without a credential.  From the start of a session,
    whatever requests the client sends, no access is undefined, and if the
    session is authenticated afterwards, one of the requests carried a
    credential: in password mode (no [authorized_keys]) the password; otherwise
    a public key the file lists, which parsed and verified a signature over the
    session identifier and that very request. *)
Theorem auth_needs_credential s reqs : session_start s → Forall request_ok reqs →
  let s0 := svr_authinitialise authfile s in
  wp (run_requests reqs) (λ _ s', authdone s' = true →
    ∃ p beg, (p, beg) ∈ reqs ∧ credential (authtypes s0) (session_id s) p beg) s0.
Proof using Hmax Hfile.
  intros Hs Hr s0. destruct (inv_initialise s Hs) as (Hi & Hd & Ho & Hsid & _). fold s0 in Hi, Hd, Ho, Hsid.
  eapply wp_mono; [by apply wp_requests|]. intros [] s' [_ H] Hd'. rewrite Hd', Hsid in H. done.
Qed.

(** C15. Guessing is limited.  In a session that is still open and not
    authenticated, fewer password requests than [maxauthtries] have been
    answered, whatever else the client sent in between. *)
Theorem password_guesses_limited s reqs s' : session_start s → Forall request_ok reqs →
  run_requests reqs (svr_authinitialise authfile s) = Ok (tt, s') → authdone s' = false →
  password_requests reqs = 0%nat ∨ Z.of_nat (password_requests reqs) < maxauthtries opts.
Proof using Hmax Hfile.
  intros Hs Hr E Hd'. destruct (inv_initialise s Hs) as (Hi & Hd & Ho & Hsid & Hde).
  pose proof (wp_requests reqs _ Hi (λ _, Ho) Hd Hr) as Hw. apply (wp_elim _ _ _ _ _ Hw) in E as [Hi' H]. rewrite Hd', Hde in H. cbn in H.
  destruct (ai_fail _ Hi') as [Hf [H0|H0]]; [left|right]; lia.
Qed.

(** ** The password lets its sender in *)
Lemma twp_field {A B} (m : M buffer A) p (f : A → M auth B) (Q : B → auth → Prop) s v tl : Reader m p → auth_inv s →
  p (buf_rest (io_payload (au_io s))) = Some (v, tl) →
  (∀ b1, buf_rest b1 = tl → auth_inv (set_io (io_set_payload b1 (au_io s)) s) →
     twp (f v) Q (set_io (io_set_payload b1 (au_io s)) s)) →
  twp (ses_payload m ≫= f) Q s.
Proof using.
  intros Hr Hi Hp HQ. twp_step. apply twp_ses_payload. refine (twp_reader _ (ai_payload _ Hi) m p _ _ _ Hp _).
  intros n Hn Hnf Hw Htl. apply HQ; [done|by apply inv_payload].
Qed.
Lemma twp_success s : auth_inv s → 1 ≤ buf_size (io_writepayload (au_io s)) →
  twp send_msg_userauth_success (λ _ s', authdone s' = true ∧ username s' = username s ∧ pw_shell s' = pw_shell s) s.
Proof using.
  intros Hi Hsz. unfold send_msg_userauth_success.
  eapply twp_ext; [symmetry; apply (bind_assoc (ses_write _) (λ _, encrypt_msg))|]. twp_step.
  assert (Hw0 : Writer (buf_putbyte SSH_MSG_USERAUTH_SUCCESS) [SSH_MSG_USERAUTH_SUCCESS]) by (by apply writer_putbyte).
  apply (twp_send _ [SSH_MSG_USERAUTH_SUCCESS]); [done|apply Hi|done|exact Hsz|]. intros w Hw _ _.
  do 7 twp_step. destruct (pw_uid _ =? 0); cbn [when]; repeat twp_step; done.
Qed.
Lemma p_string_str bs tl : zlen bs ≤ MAX_STRING_LEN → p_string (str bs ++ tl) = Some (bs, tl).
Proof using. intros. unfold str. rewrite <- app_assoc. by apply p_string_app. Qed.
Lemma twp_auth_password s pw tl : auth_inv s → authtypes s = AUTH_TYPE_PASSWORD → 1 ≤ buf_size (io_writepayload (au_io s)) →
  buf_rest (io_payload (au_io s)) = [0] ++ str pw ++ tl → zlen pw ≤ DROPBEAR_MAX_PASSWORD_LEN → Forall is_byte pw → cstr pw = the_password →
  twp (svr_auth_password opts gettime genrandom true)
    (λ _ s', authdone s' = true ∧ username s' = username s ∧ pw_shell s' = pw_shell s) s.
Proof using.
  intros Hi Hty Hsz Hr Hpl Hpb Hpw. unfold svr_auth_password.
  eapply (twp_field _ p_bool); [apply _|done|rewrite Hr; reflexivity|]. intros b1 Hb1 Hi1. set (s1 := set_io _ s) in *. cbn [Z.eqb negb].
  eapply (twp_field _ p_string); [apply _|done|change (io_payload (au_io s1)) with b1; rewrite Hb1; apply p_string_str; unfold DROPBEAR_MAX_PASSWORD_LEN, MAX_STRING_LEN in *; lia|].
  intros b2 Hb2 Hi2. set (s2 := set_io _ s1) in *. cbn [negb andb]. rewrite (proj2 (Z.leb_le _ _)) by done.
  destruct (Z.gtb_spec (zlen pw) DROPBEAR_MAX_PASSWORD_LEN); [lia|]. unfold strlen. rewrite Hpw. change (zlen the_password =? 8) with true. cbn beta iota.
  assert (Hpass : pw_passwd s2 = Some the_password) by (destruct (ai_types _ Hi) as [[E _]|[_ E]]; [by rewrite E in Hty|exact E]).
  unfold get_passwd. do 3 twp_step. rewrite Hpass. twp_step. change (default 0 (head (cstr the_password)) =? 0) with false. cbn beta iota.
  change (constant_time_strcmp the_password the_password =? 0) with true. cbn beta iota. exact (twp_success s2 Hi2 Hsz).
Qed.
Lemma twp_checkusername s user : auth_inv s → username s = None → zlen user > MAX_USERNAME_LEN ∨ strlen user = zlen user →
  twp (checkusername conf_home conf_shell user) (λ _ s', auth_inv s' ∧ au_io s' = au_io s ∧ authtypes s' = authtypes s ∧
    if zlen user >? MAX_USERNAME_LEN then username s' = None ∧ pw_shell s' = None
    else username s' = Some user ∧ pw_shell s' = Some conf_shell) s.
Proof using.
  intros Hi Hun Husr. pose proof (ai_user _ Hi) as Hu. rewrite Hun in Hu. unfold checkusername.
  destruct (Z.gtb_spec (zlen user) MAX_USERNAME_LEN); [twp_step; destruct Hu; by split_and!|]. destruct Husr as [?|Husr]; [lia|].
  rewrite Husr, Z.eqb_refl. cbn [negb]. do 2 twp_step. rewrite Hun. do 2 twp_step. eapply twp_ok; [apply fill_passwd_eq|].
  pose proof (inv_filled s user Hi) as Hi'. destruct (filled_same s) as (F1 & F2 & F3 & F4 & F5 & F6 & F7 & F8).
  do 3 twp_step. destruct (ai_user _ Hi') as (_ & -> & _).
  destruct (checkusername_failed _); twp_step; by split_and!.
Qed.
Lemma twp_password_request s user service pw tl : auth_inv s → authdone s = false → authtypes s = AUTH_TYPE_PASSWORD → banner s = None →
  username s = None → 1 ≤ buf_size (io_writepayload (au_io s)) →
  buf_rest (io_payload (au_io s)) = str user ++ str service ++ str AUTH_METHOD_PASSWORD ++ [0] ++ str pw ++ tl →
  zlen user ≤ MAX_STRING_LEN → zlen service ≤ MAX_STRING_LEN → zlen pw ≤ DROPBEAR_MAX_PASSWORD_LEN → cstr pw = the_password →
  zlen service = 14 ∨ strncmp_eq 14 service SSH_SERVICE_CONNECTION = true →
  zlen user > MAX_USERNAME_LEN ∨ strlen user = zlen user →
  twp (recv_msg_userauth_request sshhostkey opts conf_home conf_shell gettime genrandom authfile) (λ _ s', authdone s' = true ∧
    if zlen user >? MAX_USERNAME_LEN then username s' = None ∧ pw_shell s' = None
    else username s' = Some user ∧ pw_shell s' = Some conf_shell) s.
Proof using.
  intros Hi Hd Hty Hban Hun Hsz Hr Hul Hsl Hpl Hpw Hsvc Husr. unfold recv_msg_userauth_request. unfold now.
  do 10 twp_step. set (s1 := set_auth_starttime _ _). change (authdone s1) with (authdone s). rewrite Hd.
  assert (Hi1 : auth_inv s1) by (destruct Hi; by split). unfold send_banner. do 3 twp_step. change (banner s1) with (banner s). rewrite Hban. twp_step.
  assert (Hpb : Forall is_byte pw).
  { pose proof (buf_rest_bytes _ (ai_payload _ Hi)) as Hb. rewrite Hr in Hb. do 4 (apply Forall_app in Hb as [_ Hb]). by eapply str_bytes. }
  eapply (twp_field _ p_string); [apply _|done|change (io_payload (au_io s1)) with (io_payload (au_io s)); rewrite Hr; by apply p_string_str|].
  intros b2 Hb2 Hi2. set (s2 := set_io _ s1) in *.
  eapply (twp_field _ p_string); [apply _|done|change (io_payload (au_io s2)) with b2; rewrite Hb2; by apply p_string_str|].
  intros b3 Hb3 Hi3. set (s3 := set_io _ s2) in *.
  eapply (twp_field _ p_string); [apply _|done|change (io_payload (au_io s3)) with b3; rewrite Hb3; apply p_string_str; done|].
  intros b4 Hb4 Hi4. set (s4 := set_io _ s3) in *.
  replace (negb (zlen service =? zlen SSH_SERVICE_CONNECTION) && negb (strncmp_eq (length SSH_SERVICE_CONNECTION) service SSH_SERVICE_CONNECTION)) with false.
  2: { symmetry. apply andb_false_iff. destruct Hsvc as [->|Hsvc]; [by left|right]. apply negb_false_iff. exact Hsvc. }
  twp_step. eapply twp_mono; [by apply (twp_checkusername s4)|]. intros v s5 (Hi5 & Hio & Ht5 & Hu5).
  unfold userauth_method. do 2 twp_step. rewrite Ht5. change (authtypes s4) with (authtypes s). rewrite Hty. cbn beta iota.
  eapply twp_mono; [apply (twp_auth_password s5 pw tl);
    [done|by rewrite Ht5|by rewrite Hio|by rewrite Hio; change (io_payload (au_io s4)) with b4; rewrite Hb4|done|done|done]|].
  intros [] s6 (H1 & H2 & H3). split; [done|]. by rewrite H2, H3.
Qed.

(** The state of a session in password mode, at a request with the password. *)
Record password_login (s : auth) (user service : list Z) : Prop := {
  pl_inv : auth_inv s;
  pl_mode : authtypes s = AUTH_TYPE_PASSWORD ∧ authdone s = false ∧ banner s = None ∧ username s = None;
  pl_space : 1 ≤ buf_size (io_writepayload (au_io s));
  pl_request : ∃ pw tl, buf_rest (io_payload (au_io s)) = str user ++ str service ++ str AUTH_METHOD_PASSWORD ++ [0] ++ str pw ++ tl ∧
    zlen pw ≤ DROPBEAR_MAX_PASSWORD_LEN ∧ cstr pw = the_password;
  pl_lengths : zlen user ≤ MAX_STRING_LEN ∧ zlen service ≤ MAX_STRING_LEN
}.
(** The password lets its sender in, under any user name of at most a
    hundred characters without a NUL: the session is authenticated, the name is
    kept and the shell is the configured one.  The service need not be
    [ssh-connection]: any name of that length, or with that name as a prefix,
    is accepted. *)
Theorem password_accepted s user service : password_login s user service →
  zlen user ≤ MAX_USERNAME_LEN → strlen user = zlen user →
  zlen service = 14 ∨ strncmp_eq 14 service SSH_SERVICE_CONNECTION = true →
  ∃ s', recv_msg_userauth_request sshhostkey opts conf_home conf_shell gettime genrandom authfile s = Ok (tt, s') ∧
    authdone s' = true ∧ username s' = Some user ∧ pw_shell s' = Some conf_shell.
Proof using.
  intros [Hi (Ht & Hd & Hb & Hu) Hsp (pw & tl & Hr & Hpl & Hpw) [Hul Hsl]] Hlen Hnul Hsvc.
  pose proof (twp_password_request s user service pw tl Hi Hd Ht Hb Hu Hsp Hr Hul Hsl Hpl Hpw Hsvc (or_intror Hnul)) as H.
  apply twp_iff in H as ([] & s' & E & Hd' & H). destruct (Z.gtb_spec (zlen user) MAX_USERNAME_LEN); [lia|]. by exists s'.
Qed.
(** C38. A user name of more than a hundred characters is refused by
    [checkusername], and with the password it lets its sender in all the same:
    [svr_auth_password] is told that the user is valid.  No user has been looked
    up then, and [get_user_shell] dereferences a null pointer. *)
Theorem long_username_accepted s user service : password_login s user service →
  zlen user > MAX_USERNAME_LEN → zlen service = 14 ∨ strncmp_eq 14 service SSH_SERVICE_CONNECTION = true →
  checkusername conf_home conf_shell user s = Ok (false, s) ∧
  ∃ s', recv_msg_userauth_request sshhostkey opts conf_home conf_shell gettime genrandom authfile s = Ok (tt, s') ∧
    authdone s' = true ∧ username s' = None ∧ get_user_shell s' = UB "pw_shell is NULL".
Proof using.
  intros [Hi (Ht & Hd & Hb & Hu) Hsp (pw & tl & Hr & Hpl & Hpw) [Hul Hsl]] Hlen Hsvc.
  pose proof (twp_password_request s user service pw tl Hi Hd Ht Hb Hu Hsp Hr Hul Hsl Hpl Hpw Hsvc (or_introl Hlen)) as H.
  unfold checkusername. apply twp_iff in H as ([] & s' & E & Hd' & H). destruct (Z.gtb_spec (zlen user) MAX_USERNAME_LEN); [|lia].
  destruct H as [H1 H2]. split; [done|]. exists s'. split_and!; [done..|]. unfold get_user_shell. erewrite bind_ok by done. by rewrite H2.
Qed.
End auth.

(** ** Concrete sessions *)

(** Keys that are their own blob, with signatures that repeat the data. *)
#[global] Instance echo_key : SignKey (list Z).
Proof.
  refine {| buf_get_pub_key := k ← buf_getstring; mret (Some k);
            buf_verify k data := sig ← buf_getstring; mret (bool_decide (sig = buf_content data)); key_sound _ := True |}.
  - intros b Hb. wp_step. eapply reader_wp; [apply reader_getstring|done|]. intros v n Hn Hl Hw _. wp_step. eauto.
  - intros k data b _ Hb _. wp_step. eapply reader_wp; [apply reader_getstring|done|]. intros v n Hn Hl Hw _. by wp_step.
Defined.
Definition wit_opts : auth_opts := mkOpts false false false 10.
Definition wit_buffer (bs : list Z) : buffer := mkBuf bs (zlen bs) 0 (zlen bs).
Definition wit_auth : auth :=
  mkAuth (mkIO (wit_buffer []) (mkBuf (replicate 200 0) 0 0 200) []) 0 None 0 0 false false (0, 0) 0 0 None None None None None
    0 false true None (wit_buffer [1; 2; 3; 4]) 0 [].
Lemma wit_buffer_wf bs : Forall is_byte bs → zlen bs ≤ BUF_MAX_SIZE → buf_wf (wit_buffer bs).
Proof. intros H1 H2. unfold wit_buffer. split; cbn; [lia|lia|lia|done|done]. Qed.
Lemma wit_start : session_start wit_auth.
Proof.
  split; try done; try (apply wit_buffer_wf; [apply (bool_decide_unpack _); vm_compute; exact I|vm_compute; discriminate]).
  split; [|done]. split; cbn; try lia; [vm_compute; discriminate|apply (bool_decide_unpack _); vm_compute; exact I].
Qed.
Definition password_request (user service pw : list Z) : buffer :=
  wit_buffer (str user ++ str service ++ str AUTH_METHOD_PASSWORD ++ [0] ++ str pw).
Definition wit_request : buffer := password_request (bytes_of_string "root") SSH_SERVICE_CONNECTION the_password.
Definition wit_wrong : buffer := password_request (bytes_of_string "root") SSH_SERVICE_CONNECTION (bytes_of_string "letmein!").
Definition wit_home : list Z := bytes_of_string "/home".
Definition wit_shell : list Z := bytes_of_string "/bin/sh".
Definition wit_time (t : nat) : Z * Z := (Z.of_nat t, 0).
Definition wit_random (t : nat) : Z := 7.
Definition wit_file (t : nat) : option (list Z) := None.
Abbreviation wit_run := (run_requests (K := list Z) hostkey_algos wit_opts wit_home wit_shell wit_time wit_random wit_file).
Lemma wit_requests_ok : request_ok (wit_request, 0) ∧ request_ok (wit_wrong, 0).
Proof. split; (split; [|done]); apply wit_buffer_wf; (apply (bool_decide_unpack _); vm_compute; exact I) || (vm_compute; discriminate). Qed.
Definition wit_final (reqs : list (buffer * Z)) : auth :=
  match wit_run reqs (svr_authinitialise wit_file wit_auth) with Ok (_, s) => s | _ => wit_auth end.
Lemma wit_run_right : wit_run [(wit_wrong, 0); (wit_request, 0)] (svr_authinitialise wit_file wit_auth) =
  Ok (tt, wit_final [(wit_wrong, 0); (wit_request, 0)]) ∧ authdone (wit_final [(wit_wrong, 0); (wit_request, 0)]) = true.
Proof. vm_compute. done. Qed.
Lemma wit_run_wrong : wit_run [(wit_wrong, 0); (wit_wrong, 0)] (svr_authinitialise wit_file wit_auth) =
  Ok (tt, wit_final [(wit_wrong, 0); (wit_wrong, 0)]) ∧ authdone (wit_final [(wit_wrong, 0); (wit_wrong, 0)]) = false.
Proof. vm_compute. done. Qed.
Lemma wit_list_ok : Forall request_ok [(wit_wrong, 0); (wit_request, 0)] ∧ Forall request_ok [(wit_wrong, 0); (wit_wrong, 0)].
Proof. split; apply Forall_cons; (split; [apply wit_requests_ok|apply Forall_singleton, wit_requests_ok]). Qed.
Lemma auth_needs_credential_witness :
  ∃ p beg, (p, beg) ∈ [(wit_wrong, 0); (wit_request, 0)] ∧
    credential (K := list Z) hostkey_algos wit_file (authtypes (svr_authinitialise wit_file wit_auth)) (session_id wit_auth) p beg.
Proof.
  refine (wp_elim _ _ _ _ _ (auth_needs_credential (K := list Z) hostkey_algos wit_opts wit_home wit_shell
    wit_time wit_random wit_file eq_refl _ wit_auth _ wit_start (proj1 wit_list_ok)) (proj1 wit_run_right) (proj2 wit_run_right)).
  discriminate.
Defined.
Lemma password_guesses_limited_witness :
  password_requests [(wit_wrong, 0); (wit_wrong, 0)] = 0%nat ∨ Z.of_nat (password_requests [(wit_wrong, 0); (wit_wrong, 0)]) < 10.
Proof.
  refine (password_guesses_limited (K := list Z) hostkey_algos wit_opts wit_home wit_shell
    wit_time wit_random wit_file eq_refl _ wit_auth _ _ wit_start (proj2 wit_list_ok) (proj1 wit_run_wrong) (proj2 wit_run_wrong)).
  discriminate.
Defined.

(** A request with the password, in the first state of the session above. *)
Definition wit_login (user service : list Z) : auth :=
  receive (password_request user service the_password) 0 (svr_authinitialise wit_file wit_auth).
Lemma wit_login_ok user service : Forall is_byte user → Forall is_byte service → zlen user ≤ 200 → zlen service ≤ 200 →
  password_login wit_opts wit_shell (wit_login user service) user service.
Proof.
  intros Hu Hs Hul Hsl. destruct (inv_initialise wit_opts wit_shell wit_file wit_auth wit_start) as (Hi & _).
  assert (Hb : buf_wf (password_request user service the_password)).
  { apply wit_buffer_wf; [|unfold str; rewrite !length_app; cbn; unfold BUF_MAX_SIZE; lia].
    unfold str. repeat apply Forall_app_2; auto with ssh; apply (bool_decide_unpack _); vm_compute; exact I. }
  split; [by apply inv_receive|done|cbn; lia| |unfold MAX_STRING_LEN; lia].
  exists the_password, []. split_and!; [|vm_compute; discriminate|done].
  rewrite app_nil_r. change (io_payload (au_io (wit_login user service))) with (password_request user service the_password).
  rewrite content_rest0 by done. unfold password_request. set (l := _ ++ _). unfold buf_content, wit_buffer.
  change (take (Z.to_nat (zlen l)) l = l). by rewrite Nat2Z.id, take_ge by lia.
Qed.
Lemma password_accepted_witness :
  ∃ s', recv_msg_userauth_request (K := list Z) hostkey_algos wit_opts wit_home wit_shell wit_time wit_random wit_file
          (wit_login (bytes_of_string "root") (bytes_of_string "not-ssh-at-all")) = Ok (tt, s') ∧
    authdone s' = true ∧ username s' = Some (bytes_of_string "root") ∧ pw_shell s' = Some wit_shell.
Proof.
  apply (password_accepted hostkey_algos wit_opts wit_home wit_shell wit_time wit_random wit_file _ _ (bytes_of_string "not-ssh-at-all"));
    [|vm_compute; discriminate|reflexivity|left; reflexivity].
  apply wit_login_ok; try (vm_compute; discriminate); apply bytes_of_string_bytes.
Defined.
Lemma long_username_accepted_witness :
  checkusername wit_home wit_shell (replicate 101 97) (wit_login (replicate 101 97) SSH_SERVICE_CONNECTION) =
    Ok (false, wit_login (replicate 101 97) SSH_SERVICE_CONNECTION) ∧
  ∃ s', recv_msg_userauth_request (K := list Z) hostkey_algos wit_opts wit_home wit_shell wit_time wit_random wit_file
          (wit_login (replicate 101 97) SSH_SERVICE_CONNECTION) = Ok (tt, s') ∧
    authdone s' = true ∧ username s' = None ∧ get_user_shell s' = UB "pw_shell is NULL".
Proof.
  apply (long_username_accepted hostkey_algos wit_opts wit_home wit_shell wit_time wit_random wit_file _ _ SSH_SERVICE_CONNECTION);
    [|vm_compute; reflexivity|left; reflexivity].
  apply wit_login_ok; try (vm_compute; discriminate); [apply (bool_decide_unpack _); vm_compute; exact I|apply bytes_of_string_bytes].
Defined.
