(* ===== verification/ChanSess.v ===== *)
(** * Session channels ([dropbear/svr-chansession.c], [dropbear/chansession.h])

    The callbacks of the channel type "session": a request of the peer starts a
    shell or a command, with a terminal or with three pipes, and the end of the
    child is reported to the peer.  Also [spawn_command], [run_shell_command]
    and [install_environment] of [dbutil.c], [pty_allocate] (the variant for
    [/dev/ptmx]) and [pty_change_window_size] of [sshpty.c], the tables of
    [termcodes.c] and [common-chansession.c], and [get_user_shell] of
    [common-session.c].

    [typedata] of a session channel is a pointer to a [ChanSess]: a number in
    the heap of [svr]; using a freed one is undefined.  What the system calls
    return comes from scripts.  [fork] logs, with the process id the parent
    gets, what becomes of the child: the image it executes, the message it
    exits with, or that it goes on as a second server. *)
From S2P Require Import Prelude Ssh Buffer Packet Session Algo Channel AuthKeys.

Definition MAX_CMD_LEN : Z := 9000.
Definition MAX_TERM_LEN : Z := 200.
Definition SFTPSERVER : list Z := bytes_of_string "/libsftp-server.so".
Definition DEFAULT_PATH : list Z := bytes_of_string "/sbin:/system/sbin:/system/bin:/system/xbin".

Record exitinfo := mkExit {
  exitpid : Z;      (* -1 if not exited *)
  exitstatus : Z;
  exitsignal : Z;
  exitcore : Z
}.
(** A C string that may be [NULL] is an [option]. *)
Record ChanSess := mkSess {
  cmd : option (list Z);
  pid : Z;
  master : Z;
  slave : Z;
  tty : option (list Z);
  term : option (list Z);
  sess_exit : exitinfo;
  connection_string : option (list Z);
  client_string : option (list Z);
  original_command : option (list Z)
}.
Definition set_cmd (v : option (list Z)) (s : ChanSess) : ChanSess :=
  mkSess v (pid s) (master s) (slave s) (tty s) (term s) (sess_exit s) (connection_string s)
    (client_string s) (original_command s).
Definition set_pid (v : Z) (s : ChanSess) : ChanSess :=
  mkSess (cmd s) v (master s) (slave s) (tty s) (term s) (sess_exit s) (connection_string s)
    (client_string s) (original_command s).
Definition set_master (v : Z) (s : ChanSess) : ChanSess :=
  mkSess (cmd s) (pid s) v (slave s) (tty s) (term s) (sess_exit s) (connection_string s)
    (client_string s) (original_command s).
Definition set_slave (v : Z) (s : ChanSess) : ChanSess :=
  mkSess (cmd s) (pid s) (master s) v (tty s) (term s) (sess_exit s) (connection_string s)
    (client_string s) (original_command s).
Definition set_tty (v : option (list Z)) (s : ChanSess) : ChanSess :=
  mkSess (cmd s) (pid s) (master s) (slave s) v (term s) (sess_exit s) (connection_string s)
    (client_string s) (original_command s).
Definition set_term (v : option (list Z)) (s : ChanSess) : ChanSess :=
  mkSess (cmd s) (pid s) (master s) (slave s) (tty s) v (sess_exit s) (connection_string s)
    (client_string s) (original_command s).
Definition set_sess_exit (v : exitinfo) (s : ChanSess) : ChanSess :=
  mkSess (cmd s) (pid s) (master s) (slave s) (tty s) (term s) v (connection_string s)
    (client_string s) (original_command s).
Definition set_connection_string (v : option (list Z)) (s : ChanSess) : ChanSess :=
  mkSess (cmd s) (pid s) (master s) (slave s) (tty s) (term s) (sess_exit s) v (client_string s)
    (original_command s).
Definition set_client_string (v : option (list Z)) (s : ChanSess) : ChanSess :=
  mkSess (cmd s) (pid s) (master s) (slave s) (tty s) (term s) (sess_exit s) (connection_string s) v
    (original_command s).
Definition set_original_command (v : option (list Z)) (s : ChanSess) : ChanSess :=
  mkSess (cmd s) (pid s) (master s) (slave s) (tty s) (term s) (sess_exit s) (connection_string s)
    (client_string s) v.

(** ** Signals and terminal modes *)
(** [signames]: numbers of Linux. *)
Definition signames : list (Z * list Z) :=
  [(6, bytes_of_string "ABRT"); (14, bytes_of_string "ALRM"); (8, bytes_of_string "FPE");
   (1, bytes_of_string "HUP"); (4, bytes_of_string "ILL"); (2, bytes_of_string "INT");
   (9, bytes_of_string "KILL"); (13, bytes_of_string "PIPE"); (3, bytes_of_string "QUIT");
   (11, bytes_of_string "SEGV"); (15, bytes_of_string "TERM"); (10, bytes_of_string "USR1");
   (12, bytes_of_string "USR2")].
(** The status [waitpid] stores. *)
Definition WTERMSIG (s : Z) : Z := Z.land s 127.
Definition WIFEXITED (s : Z) : bool := WTERMSIG s =? 0.
Definition WEXITSTATUS (s : Z) : Z := Z.land (Z.shiftr s 8) 255.
Definition WIFSIGNALED (s : Z) : bool := WTERMSIG (s + 1) >=? 2.
Definition WCOREDUMP (s : Z) : Z := Z.land s 128.

Definition NCCS : Z := 19.
Definition MAX_TERMCODE : Z := 93.
Inductive termcode_type :=
| TERMCODE_NONE | TERMCODE_CONTROL | TERMCODE_INPUT | TERMCODE_OUTPUT | TERMCODE_LOCAL | TERMCODE_CONTROLCHAR.
Record termios := mkTermios {
  c_iflag : Z;
  c_oflag : Z;
  c_cflag : Z;
  c_lflag : Z;
  c_cc : list Z
}.
(** [termcodes], with the codes of [termios.h] on Linux; the entries of a mode
    the system does not have are none. *)
Definition none_code : Z * termcode_type := (0, TERMCODE_NONE).
Definition cc_codes : list (Z * termcode_type) :=
  (λ m, (m, TERMCODE_CONTROLCHAR)) <$> [0; 1; 2; 3; 4; 11; 16; 8; 9; 10].
Definition termcodes : list (Z * termcode_type) :=
  [none_code] ++ cc_codes ++
  [none_code; (12, TERMCODE_CONTROLCHAR); (14, TERMCODE_CONTROLCHAR); (15, TERMCODE_CONTROLCHAR);
   none_code; none_code; none_code; (13, TERMCODE_CONTROLCHAR)] ++ replicate 11 none_code ++
  ((λ m, (m, TERMCODE_INPUT)) <$> [4; 8; 16; 32; 64; 128; 256; 512; 1024; 2048; 4096; 8192; 16384]) ++
  replicate 7 none_code ++
  ((λ m, (m, TERMCODE_LOCAL)) <$> [1; 2; 4; 8; 16; 32; 64; 128; 256; 32768; 512; 2048; 16384]) ++
  replicate 7 none_code ++
  ((λ m, (m, TERMCODE_OUTPUT)) <$> [1; 2; 4; 8; 16; 32]) ++ replicate 14 none_code ++
  ((λ m, (m, TERMCODE_CONTROL)) <$> [32; 48; 256; 512]).

(** ** What the system calls return, and what is done to the system *)
(** [open("/dev/ptmx")], [grantpt] and [unlockpt], [ptsname], [open] of the
    slave. *)
Inductive pty_result :=
| PtyFails
| PtyOpens (ptm : Z) (pts : option (list Z)) (ttyfd : Z).
(** What the calls of a child return: [signal], [dup2], [chdir], [execv]. *)
Record child_sys := mkChildSys {
  ch_signal : bool;
  ch_dup2 : bool;
  ch_chdir : bool;
  ch_sigpipe : bool;
  ch_exec : bool
}.
Inductive fork_result := ForkFails | Forked (p : positive) (c : child_sys).
(** The program a child executes. *)
Record image := mkImage {
  im_path : list Z;
  im_argv : list (list Z);
  im_env : list (list Z);
  im_dir : list Z;
  im_maxfd : Z          (* the descriptors from 3 up to this one are closed *)
}.
Inductive child_result :=
| ChildExec (i : image)
| ChildExit (msg : string)
| ChildServes.          (* the child returns to the main loop of the server *)
Inductive sysevent :=
| SysFork (p : Z) (c : child_result)
| SysKill (p sig : Z)
| SysPty
| SysWinsize (fd row col xpixel ypixel : Z)
| SysTermios (fd : Z) (t : termios).

(** What the session was configured with: options of the server and of the
    key, the application's settings, the addresses of the socket ([None]: the
    calls fail) as local host and port, remote host and port, the user's
    record and the environment. *)
Record sess_cfg := mkCfg {
  svr_forced_command : option (list Z);
  key_options : option PubKeyOptions;
  conf_lib : list Z;
  conf_rsyncbuffer : bool;
  conf_env : option (list Z);
  sock_addr : option (list Z * list Z * list Z * list Z);
  pw_name : list Z;
  pw_dir : list Z;
  pw_shell : list Z;
  environ : list (list Z)
}.

(** ** The child *)
(** [putenv]: an entry with the same name is replaced. *)
Fixpoint env_name (l : list Z) : list Z :=
  match l with
  | [] => []
  | c :: l => if c =? 61 then [] else c :: env_name l
  end.
Fixpoint putenv (e : list Z) (env : list (list Z)) : list (list Z) :=
  match env with
  | [] => [e]
  | e' :: env => if bool_decide (env_name e' = env_name e) then e :: env else e' :: putenv e env
  end.
Definition addnewvar (param var : list Z) (env : list (list Z)) : list (list Z) :=
  putenv (param ++ [61] ++ cstr var) env.
Definition addoptvar (param : list Z) (var : option (list Z)) (env : list (list Z)) : list (list Z) :=
  match var with Some v => addnewvar param v env | None => env end.

(** The characters up to the first that satisfies [stop], and the rest. *)
Fixpoint span_until (stop : Z → bool) (l : list Z) : list Z * list Z :=
  match l with
  | [] => ([], [])
  | c :: l' => if stop c then ([], l) else let '(a, b) := span_until stop l' in (c :: a, b)
  end.
Definition is_eol (c : Z) : bool := (c =? 13) || (c =? 10).
Fixpoint install_loop (fuel : nat) (s : list Z) (env : list (list Z)) : list (list Z) :=
  match fuel, s with
  | O, _ | _, [] => env
  | S fuel, _ =>
      let '(name, s) := span_until (λ c, (c =? 61) || is_eol c) s in
      let '(val, s) :=
        match s with
        | c :: s' => if c =? 61 then span_until is_eol s' else ([], s)
        | [] => ([], s)
        end in
      let '(_, s) := span_until (λ c, negb (is_eol c)) s in
      install_loop fuel s (if bool_decide (name = []) then env else putenv (name ++ [61] ++ val) env)
  end.
(** [setenv] with [overwrite]. *)
Definition install_environment (cfg : sess_cfg) (env : list (list Z)) : list (list Z) :=
  match conf_env cfg with
  | None => env
  | Some s =>
      putenv (bytes_of_string "SSHD_LIBDIR=" ++ conf_lib cfg) (install_loop (length (cstr s)) (cstr s) env)
  end.

Definition get_user_shell (cfg : sess_cfg) : list Z :=
  if bool_decide (pw_shell cfg = []) then bytes_of_string "/bin/sh" else pw_shell cfg.

(** [basename] of a path, with trailing slashes removed. *)
Fixpoint after_slash (l acc : list Z) : list Z :=
  match l with
  | [] => acc
  | c :: l => if c =? 47 then after_slash l l else after_slash l acc
  end.
Fixpoint drop_slashes (l : list Z) : list Z :=
  match l with
  | c :: l' => if c =? 47 then drop_slashes l' else l
  | [] => []
  end.
Definition basename (path : list Z) : list Z :=
  if bool_decide (path = []) then [46]
  else let p := reverse (drop_slashes (reverse path)) in
       if bool_decide (p = []) then [47] else after_slash p p.
(** [strstr(l, sub) != NULL]. *)
Fixpoint strstr (l sub : list Z) : bool :=
  bool_decide (take (length sub) l = sub) || match l with [] => false | _ :: l => strstr l sub end.

(** The command [scp] or [rsync] is replaced by the application's own. *)
Definition own_command (cfg : sess_cfg) (c : list Z) : list Z :=
  if strncmp_eq 4 c (bytes_of_string "scp ") then
    conf_lib cfg ++ bytes_of_string "/libscp.so " ++ drop 4 c
  else if strncmp_eq 6 c (bytes_of_string "rsync ") then
    conf_lib cfg ++ bytes_of_string "/lib" ++
    (if conf_rsyncbuffer cfg then bytes_of_string "buffersu" else bytes_of_string "rsync") ++
    bytes_of_string ".so " ++ drop 6 c
  else c.
Definition shell_argv (cfg : sess_cfg) (c : option (list Z)) (usershell : list Z) : list (list Z) :=
  let baseshell := basename usershell in
  match c with
  | Some c => [baseshell; bytes_of_string "-c"; own_command cfg (cstr c)]
  | None =>
      if strstr usershell (bytes_of_string "su") then [baseshell; bytes_of_string "-"]
      else [bytes_of_string "-" ++ baseshell]
  end.
(** The program executed; [None] when [execv] fails. *)
Definition run_shell_command (cfg : sess_cfg) (sys : child_sys) (c : option (list Z)) (fdmax : Z) (usershell dir : list Z)
    (env : list (list Z)) : child_result :=
  if negb (ch_sigpipe sys) then ChildExit "signal() error"
  else if negb (ch_exec sys) then ChildExit "Failed to execv() shell '%.100s'"
  else ChildExec (mkImage usershell (shell_argv cfg c usershell) (install_environment cfg env) dir fdmax).

Definition child_env (cfg : sess_cfg) (cs : ChanSess) : list (list Z) :=
  let env := addnewvar (bytes_of_string "USER") (pw_name cfg) (environ cfg) in
  let env := addnewvar (bytes_of_string "LOGNAME") (pw_name cfg) env in
  let env := addnewvar (bytes_of_string "HOME") (pw_dir cfg) env in
  let env := addnewvar (bytes_of_string "SHELL") (get_user_shell cfg) env in
  let env := addnewvar (bytes_of_string "PATH") DEFAULT_PATH env in
  let env := addoptvar (bytes_of_string "TERM") (term cs) env in
  let env := addoptvar (bytes_of_string "SSH_TTY") (tty cs) env in
  let env := addoptvar (bytes_of_string "SSH_CONNECTION") (connection_string cs) env in
  let env := addoptvar (bytes_of_string "SSH_CLIENT") (client_string cs) env in
  addoptvar (bytes_of_string "SSH_ORIGINAL_COMMAND") (original_command cs) env.
Definition execchild (cfg : sess_cfg) (sys : child_sys) (fdmax : Z) (cs : ChanSess) : child_result :=
  if negb (ch_chdir sys) then ChildExit "Error changing directory"
  else run_shell_command cfg sys (cmd cs) fdmax (get_user_shell cfg) (pw_dir cfg) (child_env cfg cs).
(** The child's side of [spawn_command]. *)
Definition spawn_child (cfg : sess_cfg) (sys : child_sys) (fdmax : Z) (cs : ChanSess) : child_result :=
  if negb (ch_signal sys) then ChildExit "signal() error"
  else if negb (ch_dup2 sys) then ChildExit "Child dup2() failure"
  else execchild cfg sys fdmax cs.
(** The child's side of [ptycommand]; its controlling terminal is not
    modelled. *)
Definition pty_child (cfg : sess_cfg) (sys : child_sys) (fdmax : Z) (cs : ChanSess) : child_result :=
  if negb (ch_signal sys) then ChildExit "signal() error"
  else if negb (ch_dup2 sys) then ChildServes
  else execchild cfg sys fdmax cs.

Section sessions.
(** [F] is the state of the forwarding of connections. *)
Context {F : Type}.
(** The fields of [svr_ses] for session channels, the heap and the scripts. *)
Record svr := mkSvr {
  heap : list (option ChanSess);
  childpids : list (Z * option nat);
  lastexit : exitinfo;
  sys_pipes : list (option (Z * Z));
  sys_forks : list fork_result;
  sys_ptys : list pty_result;
  sys_tcgets : list (option termios);
  sys_kills : list bool;
  sys_waits : list (Z * Z);
  sys_log : list sysevent;
  sv_fwd : F
}.
Definition set_heap (v : list (option ChanSess)) (s : svr) : svr :=
  mkSvr v (childpids s) (lastexit s) (sys_pipes s) (sys_forks s) (sys_ptys s) (sys_tcgets s)
    (sys_kills s) (sys_waits s) (sys_log s) (sv_fwd s).
Definition set_childpids (v : list (Z * option nat)) (s : svr) : svr :=
  mkSvr (heap s) v (lastexit s) (sys_pipes s) (sys_forks s) (sys_ptys s) (sys_tcgets s)
    (sys_kills s) (sys_waits s) (sys_log s) (sv_fwd s).
Definition set_lastexit (v : exitinfo) (s : svr) : svr :=
  mkSvr (heap s) (childpids s) v (sys_pipes s) (sys_forks s) (sys_ptys s) (sys_tcgets s)
    (sys_kills s) (sys_waits s) (sys_log s) (sv_fwd s).
Definition set_sys_pipes (v : list (option (Z * Z))) (s : svr) : svr :=
  mkSvr (heap s) (childpids s) (lastexit s) v (sys_forks s) (sys_ptys s) (sys_tcgets s)
    (sys_kills s) (sys_waits s) (sys_log s) (sv_fwd s).
Definition set_sys_forks (v : list fork_result) (s : svr) : svr :=
  mkSvr (heap s) (childpids s) (lastexit s) (sys_pipes s) v (sys_ptys s) (sys_tcgets s)
    (sys_kills s) (sys_waits s) (sys_log s) (sv_fwd s).
Definition set_sys_ptys (v : list pty_result) (s : svr) : svr :=
  mkSvr (heap s) (childpids s) (lastexit s) (sys_pipes s) (sys_forks s) v (sys_tcgets s)
    (sys_kills s) (sys_waits s) (sys_log s) (sv_fwd s).
Definition set_sys_tcgets (v : list (option termios)) (s : svr) : svr :=
  mkSvr (heap s) (childpids s) (lastexit s) (sys_pipes s) (sys_forks s) (sys_ptys s) v (sys_kills s)
    (sys_waits s) (sys_log s) (sv_fwd s).
Definition set_sys_kills (v : list bool) (s : svr) : svr :=
  mkSvr (heap s) (childpids s) (lastexit s) (sys_pipes s) (sys_forks s) (sys_ptys s)
    (sys_tcgets s) v (sys_waits s) (sys_log s) (sv_fwd s).
Definition set_sys_waits (v : list (Z * Z)) (s : svr) : svr :=
  mkSvr (heap s) (childpids s) (lastexit s) (sys_pipes s) (sys_forks s) (sys_ptys s) (sys_tcgets s)
    (sys_kills s) v (sys_log s) (sv_fwd s).
Definition set_sys_log (v : list sysevent) (s : svr) : svr :=
  mkSvr (heap s) (childpids s) (lastexit s) (sys_pipes s) (sys_forks s) (sys_ptys s) (sys_tcgets s)
    (sys_kills s) (sys_waits s) v (sv_fwd s).
Definition set_sv_fwd (v : F) (s : svr) : svr :=
  mkSvr (heap s) (childpids s) (lastexit s) (sys_pipes s) (sys_forks s) (sys_ptys s) (sys_tcgets s)
    (sys_kills s) (sys_waits s) (sys_log s) v.
Variable cfg : sess_cfg.
Abbreviation cst := (@cses nat svr).
Implicit Types (i : Z) (p : nat).

(** ** State *)
Definition set_rest (x : svr) (s : cst) : cst :=
  mkCses (cs_io s) (channels s) (chancount s) (cs_dataallowed s) (cs_sock_out s) (socket_prio s) (maxfd s)
    (channel_signal_pending s) (fd_reads s) (fd_writes s) (fd_log s) (pending_conns s) x.
Definition on_svr {A} (m : M svr A) : M cst A := zoom cs_rest set_rest m.
Definition syslog (e : sysevent) : M svr () := modify (λ x, set_sys_log (sys_log x ++ [e]) x).

Definition sys_pipe : M svr (option (Z * Z)) :=
  x ← get;
  match sys_pipes x with
  | [] => mret None
  | r :: l => put (set_sys_pipes l x);; mret r
  end.
(** [fork], with the child's side. *)
Definition sys_fork (child : child_sys → child_result) : M svr (option Z) :=
  x ← get;
  match sys_forks x with
  | [] => mret None
  | ForkFails :: l => put (set_sys_forks l x);; mret None
  | Forked n c :: l => put (set_sys_forks l x);; syslog (SysFork (Z.pos n) (child c));; mret (Some (Z.pos n))
  end.
Definition sys_pty : M svr pty_result :=
  x ← get;
  syslog SysPty;;
  match sys_ptys x with
  | [] => mret PtyFails
  | r :: l => modify (set_sys_ptys l);; mret r
  end.
Definition sys_tcgetattr : M svr (option termios) :=
  x ← get;
  match sys_tcgets x with
  | [] => mret None
  | r :: l => put (set_sys_tcgets l x);; mret r
  end.
Definition sys_kill (n sig : Z) : M svr bool :=
  syslog (SysKill n sig);;
  x ← get;
  match sys_kills x with
  | [] => mret false
  | r :: l => put (set_sys_kills l x);; mret r
  end.
(** [waitpid(-1, &status, WNOHANG)]: process and status, [0] when there is none. *)
Definition sys_waitpid : M svr (Z * Z) :=
  x ← get;
  match sys_waits x with
  | [] => mret (0, 0)
  | r :: l => put (set_sys_waits l x);; mret r
  end.

(** ** Pointers to sessions *)
Definition getsess (p : nat) : M svr ChanSess :=
  x ← get;
  match heap x !! p with
  | Some (Some cs) => mret cs
  | _ => undefined "dangling session"
  end.
Definition updsess (p : nat) (f : ChanSess → ChanSess) : M svr () :=
  cs ← getsess p;
  modify (λ x, set_heap (<[p := Some (f cs)]> (heap x)) x).
Definition newsess (cs : ChanSess) : M svr nat :=
  x ← get;
  put (set_heap (heap x ++ [Some cs]) x);;
  mret (length (heap x)).
Definition freesess (p : nat) : M svr () :=
  getsess p;;
  modify (λ x, set_heap (<[p := None]> (heap x)) x).
(** [channel->typedata], which is followed. *)
Definition chansess (i : Z) : M cst nat :=
  c ← getchan i;
  match typedata c with
  | Some p => mret p
  | None => undefined "null session"
  end.

(** ** The end of a child *)
Definition sesscheckclose (i : Z) : M cst bool :=
  p ← chansess i;
  cs ← on_svr (getsess p);
  mret (negb (exitpid (sess_exit cs) =? -1)).

(** What [waitpid] reported, over what was recorded before. *)
Definition record_exit (n status : Z) (e : exitinfo) : exitinfo :=
  let st := if WIFEXITED status then WEXITSTATUS status else exitstatus e in
  if WIFSIGNALED status then mkExit n st (WTERMSIG status) (WCOREDUMP status)
  else mkExit n st (-1) (exitcore e).
(** The first entry of [childpids] with this process. *)
Fixpoint find_pid (n : Z) (l : list (Z * option nat)) : option (option nat) :=
  match l with
  | [] => None
  | (m, o) :: l => if m =? n then Some o else find_pid n l
  end.
Definition child_exited (n status : Z) : M svr () :=
  x ← get;
  match find_pid n (childpids x) with
  | Some (Some p) => updsess p (λ cs, set_sess_exit (record_exit n status (sess_exit cs)) cs)
  | Some None => undefined "null session"
  | None => put (set_lastexit (record_exit n status (lastexit x)) x)
  end.
Fixpoint wait_loop (fuel : nat) : M svr () :=
  match fuel with
  | O => undefined "out of fuel"
  | S fuel =>
      r ← sys_waitpid;
      if r.1 >? 0 then child_exited r.1 r.2;; wait_loop fuel else mret tt
  end.
(** [ses.channel_signal_pending], set by the main loop when the handler of
    [SIGCHLD] has written to the signal pipe. *)
Definition signal_pending (b : bool) : M cst () :=
  modify (λ s, mkCses (cs_io s) (channels s) (chancount s) (cs_dataallowed s) (cs_sock_out s) (socket_prio s) (maxfd s)
    b (fd_reads s) (fd_writes s) (fd_log s) (pending_conns s) (cs_rest s)).
Definition svr_chansess_checksignal : M cst () :=
  s ← get;
  if negb (channel_signal_pending s) then mret tt
  else on_svr (x ← get; wait_loop (S (length (sys_waits x)))).

Definition msg_request (remote : Z) (name : list Z) : M buffer () :=
  buf_putbyte SSH_MSG_CHANNEL_REQUEST;; buf_putint remote;; buf_putstring name (zlen name);; buf_putbyte 0.
Definition send_msg_chansess_exitstatus (i : Z) (cs : ChanSess) : M cst () :=
  let e := sess_exit cs in
  dropbear_assert (negb (exitpid e =? -1));;
  dropbear_assert (exitsignal e =? -1);;
  c ← getchan i;
  ses_write (msg_request (remotechan c) (bytes_of_string "exit-status");; buf_putint (exitstatus e));;
  encrypt_msg.
Fixpoint find_signame (l : list (Z * list Z)) (sig : Z) : option (list Z) :=
  match l with
  | [] => None
  | (n, name) :: l => if n =? sig then Some name else find_signame l sig
  end.
Definition send_msg_chansess_exitsignal (i : Z) (cs : ChanSess) : M cst () :=
  let e := sess_exit cs in
  dropbear_assert (negb (exitpid e =? -1));;
  dropbear_assert (exitsignal e >? 0);;
  match find_signame signames (exitsignal e) with
  | None => mret tt
  | Some name =>
      c ← getchan i;
      ses_write (msg_request (remotechan c) (bytes_of_string "exit-signal");; buf_putstring name (strlen name);;
                 buf_putbyte (u8 (exitcore e));; buf_putstring [] 0;; buf_putstring [] 0);;
      encrypt_msg
  end.
Definition send_exitsignalstatus (i : Z) : M cst () :=
  p ← chansess i;
  cs ← on_svr (getsess p);
  when (exitpid (sess_exit cs) >=? 0)
    (if exitsignal (sess_exit cs) >? 0 then send_msg_chansess_exitsignal i cs
     else send_msg_chansess_exitstatus i cs).

(** ** The life of a session channel *)
Definition new_session : ChanSess :=
  mkSess None 0 (-1) (-1) None None (mkExit (-1) 0 0 0) None None None.
Definition newchansess (i : Z) : M cst Z :=
  c ← getchan i;
  dropbear_assert (match typedata c with None => true | Some _ => false end);;
  p ← on_svr (newsess new_session);
  updchan i (set_typedata (Some p));;
  updchan i (set_prio DROPBEAR_CHANNEL_PRIO_INTERACTIVE);;
  mret 0.
Definition closechansess (i : Z) : M cst () :=
  c ← getchan i;
  match typedata c with
  | None => mret tt
  | Some _ => send_exitsignalstatus i
  end.
(** The loop over [childpids]: an entry of the session must hold a process. *)
Fixpoint clear_pids (p : nat) (l : list (Z * option nat)) : outcome (list (Z * option nat)) :=
  match l with
  | [] => Ok []
  | (n, o) :: l =>
      e ← (if bool_decide (o = Some p) then
             if n >? 0 then Ok (-1, None) else Exit "Failed assertion"
           else Ok (n, o));
      l ← clear_pids p l;
      Ok (e :: l)
  end.
Definition cleanupchansess (i : Z) : M cst () :=
  c ← getchan i;
  match typedata c with
  | None => mret tt
  | Some p =>
      on_svr (updsess p (λ cs, set_tty None (set_original_command None (set_term None (set_cmd None cs))));;
              x ← get;
              l ← lift (clear_pids p (childpids x));
              modify (set_childpids l);;
              freesess p)
  end.

(** ** Requests *)
Fixpoint find_sig (l : list (Z * list Z)) (name : list Z) : Z :=
  match l with
  | [] => 0
  | (n, nm) :: l => if strcmp_eq nm name then n else find_sig l name
  end.
(** Requests return [true] for [DROPBEAR_SUCCESS]. *)
Definition sessionsignal (p : nat) : M cst bool :=
  cs ← on_svr (getsess p);
  if pid cs =? 0 then mret false
  else
    name ← ses_payload buf_getstring;
    let sig := find_sig signames name in
    if sig =? 0 then mret false else on_svr (sys_kill (pid cs) sig).

Definition u16 (x : Z) : Z := x mod 65536.
Definition pty_change_window_size (fd row col xpixel ypixel : Z) : M cst () :=
  on_svr (syslog (SysWinsize fd (u16 row) (u16 col) (u16 xpixel) (u16 ypixel))).
Definition sessionwinchange (p : nat) : M cst bool :=
  cs ← on_svr (getsess p);
  if master cs <? 0 then mret false
  else
    termc ← ses_payload buf_getint;
    termr ← ses_payload buf_getint;
    termw ← ses_payload buf_getint;
    termh ← ses_payload buf_getint;
    pty_change_window_size (master cs) termr termc termw termh;;
    mret true.

(** ** Terminal modes *)
Definition set_flag (value mapcode flag : Z) : Z :=
  if value =? 0 then Z.land flag (u32 (Z.lnot mapcode)) else Z.lor flag mapcode.
Definition apply_mode (opcode value : Z) (t : termios) : outcome termios :=
  if opcode >? MAX_TERMCODE then Ok t
  else
    match termcodes !! Z.to_nat opcode with
    | None => UB "termcodes"
    | Some (m, ty) =>
        match ty with
        | TERMCODE_NONE => Ok t
        | TERMCODE_CONTROLCHAR =>
            if m <? NCCS then Ok (mkTermios (c_iflag t) (c_oflag t) (c_cflag t) (c_lflag t) (<[Z.to_nat m := u8 value]> (c_cc t)))
            else UB "c_cc"
        | TERMCODE_INPUT => Ok (mkTermios (set_flag value m (c_iflag t)) (c_oflag t) (c_cflag t) (c_lflag t) (c_cc t))
        | TERMCODE_OUTPUT => Ok (mkTermios (c_iflag t) (set_flag value m (c_oflag t)) (c_cflag t) (c_lflag t) (c_cc t))
        | TERMCODE_LOCAL => Ok (mkTermios (c_iflag t) (c_oflag t) (c_cflag t) (set_flag value m (c_lflag t)) (c_cc t))
        | TERMCODE_CONTROL => Ok (mkTermios (c_iflag t) (c_oflag t) (set_flag value m (c_cflag t)) (c_lflag t) (c_cc t))
        end
    end.
Fixpoint modes_loop (fuel : nat) (t : termios) : M buffer termios :=
  opcode ← buf_getbyte;
  if negb (opcode =? 0) && (opcode <=? 159) then
    match fuel with
    | O => undefined "out of fuel"
    | S fuel =>
        value ← buf_getint;
        t ← lift (apply_mode opcode value t);
        modes_loop fuel t
    end
  else mret t.
(** The modes to set; [None] for an empty string of modes. *)
Definition read_modes (t : termios) : M buffer (option termios) :=
  len ← buf_getint;
  b ← get;
  if negb (len =? u32 (buf_len b - buf_pos b)) then dropbear_exit "Bad term mode string"
  else if len =? 0 then mret None
  else t ← modes_loop (Z.to_nat len) t; mret (Some t).
Definition get_termmodes (p : nat) : M cst () :=
  cs ← on_svr (getsess p);
  o ← on_svr sys_tcgetattr;
  match o with
  | None => mret tt
  | Some t =>
      o ← ses_payload (read_modes t);
      match o with
      | None => mret tt
      | Some t => on_svr (syslog (SysTermios (master cs) t))
      end
  end.

(** [pty_allocate(&chansess->master, &chansess->slave, namebuf, 64)]: the name
    of the terminal, [None] when no pty could be allocated. *)
Definition pty_allocate (p : nat) (namebuflen : Z) : M cst (option (list Z)) :=
  r ← on_svr sys_pty;
  match r with
  | PtyFails => mret None
  | PtyOpens ptm None _ => undefined "null pts"
  | PtyOpens ptm (Some pts) ttyfd =>
      on_svr (updsess p (λ cs, set_slave ttyfd (set_master ptm cs)));;
      if ttyfd <? 0 then log (EvClose ptm);; mret None
      else mret (Some (take (Z.to_nat (namebuflen - 1)) (cstr pts)))
  end.
Definition sessionpty (p : nat) : M cst bool :=
  if negb (svr_pubkey_allows_pty (key_options cfg)) then mret false
  else
    t ← ses_payload buf_getstring;
    on_svr (updsess p (set_term (Some t)));;
    if zlen t >? MAX_TERM_LEN then mret false
    else
      cs ← on_svr (getsess p);
      if negb (master cs =? -1) then dropbear_exit "Multiple pty requests"
      else
        o ← pty_allocate p 64;
        match o with
        | None => mret false
        | Some name =>
            on_svr (updsess p (set_tty (Some name)));;
            sessionwinchange p;;
            get_termmodes p;;
            mret true
        end.

(** ** Starting a command *)
(** [snprintf] into [len] bytes. *)
Definition sprint (len : Z) (l : list Z) : list Z := take (Z.to_nat (len - 1)) l.
Definition make_connection_string (p : nat) : M svr () :=
  match sock_addr cfg with
  | None => dropbear_exit "Failed socket address: %s"
  | Some (local_ip, local_port, remote_ip, remote_port) =>
      let sp := [32] in
      updsess p (set_connection_string (Some (sprint (zlen local_ip + zlen remote_ip + 20)
        (remote_ip ++ sp ++ remote_port ++ sp ++ local_ip ++ sp ++ local_port))));;
      updsess p (set_client_string (Some (sprint (zlen remote_ip + 20)
        (remote_ip ++ sp ++ remote_port ++ sp ++ local_port))))
  end.

(** The first unused entry, or a new one at the end. *)
Fixpoint add_pid (e : Z * option nat) (l : list (Z * option nat)) : list (Z * option nat) :=
  match l with
  | [] => [e]
  | e' :: l => if e'.1 =? -1 then e :: l else e' :: add_pid e l
  end.
Definition addchildpid (p : nat) (n : Z) : M svr () :=
  modify (λ x, set_childpids (add_pid (n, Some p) (childpids x)) x).

(** The parent's side; [false] leaves open what was opened. *)
Definition spawn_command (i : Z) (p : nat) : M cst bool :=
  infds ← on_svr sys_pipe;
  match infds with None => mret false | Some (in0, in1) =>
  outfds ← on_svr sys_pipe;
  match outfds with None => mret false | Some (out0, out1) =>
  errfds ← on_svr sys_pipe;
  match errfds with None => mret false | Some (err0, err1) =>
  cs ← on_svr (getsess p);
  fdmax ← gets maxfd;
  o ← on_svr (sys_fork (λ sys, spawn_child cfg sys fdmax cs));
  match o with None => mret false | Some n =>
    log (EvClose in0);; log (EvClose out1);;
    log (EvNonblock out0);; log (EvNonblock in1);;
    log (EvClose err1);; log (EvNonblock err0);;
    on_svr (updsess p (set_pid n));;
    updchan i (set_writefd in1);;
    updchan i (set_readfd out0);;
    updchan i (set_errfd err0);;
    mret true
  end end end end.

Definition grow_maxfd (fd : Z) : M cst () := modify (λ s, set_maxfd (Z.max (maxfd s) fd) s).
(** The child may have been waited for before its process was recorded. *)
Definition take_lastexit : M svr () :=
  x ← get;
  when (negb (exitpid (lastexit x) =? -1))
    (match find_pid (exitpid (lastexit x)) (childpids x) with
     | Some (Some p) =>
         updsess p (set_sess_exit (lastexit x));;
         modify (set_lastexit (mkExit (-1) (exitstatus (lastexit x)) (exitsignal (lastexit x)) (exitcore (lastexit x))))
     | Some None => undefined "null session"
     | None => mret tt
     end).
Definition noptycommand (i : Z) (p : nat) : M cst bool :=
  ok ← spawn_command i p;
  if negb ok then mret false
  else
    c ← getchan i;
    grow_maxfd (writefd c);;
    grow_maxfd (readfd c);;
    grow_maxfd (errfd c);;
    cs ← on_svr (getsess p);
    on_svr (addchildpid p (pid cs));;
    on_svr take_lastexit;;
    mret true.

Definition ptycommand (i : Z) (p : nat) : M cst bool :=
  cs ← on_svr (getsess p);
  if (master cs =? -1) || bool_decide (tty cs = None) then mret false
  else
    fdmax ← gets maxfd;
    o ← on_svr (sys_fork (λ sys, pty_child cfg sys fdmax cs));
    match o with
    | None => mret false
    | Some n =>
        on_svr (updsess p (set_pid n));;
        on_svr (addchildpid p n);;
        log (EvClose (slave cs));;
        updchan i (set_writefd (master cs));;
        updchan i (set_readfd (master cs));;
        grow_maxfd (master cs);;
        log (EvNonblock (master cs));;
        mret true
    end.

(** The command of an "exec" or "subsystem" request; [None] when it is refused. *)
Definition request_command (p : nat) (issubsys : bool) : M cst bool :=
  c ← ses_payload buf_getstring;
  on_svr (updsess p (set_cmd (Some c)));;
  if zlen c >? MAX_CMD_LEN then on_svr (updsess p (set_cmd None));; mret false
  else if issubsys then
    if (zlen c =? 4) && strncmp_eq 4 c (bytes_of_string "sftp") then
      on_svr (updsess p (set_cmd (Some (conf_lib cfg ++ SFTPSERVER))));; mret true
    else on_svr (updsess p (set_cmd None));; mret false
  else mret true.
Definition force_command (p : nat) : M svr () :=
  match svr_forced_command cfg with
  | Some f => updsess p (λ cs, set_cmd (Some f) (set_original_command (Some (default [] (cmd cs))) cs))
  | None =>
      updsess p (λ cs,
        let '(c, o) := svr_pubkey_set_forced_command (key_options cfg) (cmd cs) (original_command cs) in
        set_cmd c (set_original_command o cs))
  end.
Definition sessioncommand (i : Z) (p : nat) (iscmd issubsys : bool) : M cst bool :=
  cs ← on_svr (getsess p);
  if bool_decide (cmd cs ≠ None) then mret false
  else
    ok ← (if iscmd then request_command p issubsys else mret true);
    if negb ok then mret false
    else
      on_svr (force_command p);;
      on_svr (make_connection_string p);;
      cs ← on_svr (getsess p);
      ret ←
        (if bool_decide (term cs = None) then
           ret ← noptycommand i p;
           when ret (updchan i (set_prio DROPBEAR_CHANNEL_PRIO_BULK);; update_channel_prio);;
           mret ret
         else ptycommand i p);
      on_svr (updsess p (λ cs, set_client_string None (set_connection_string None cs)));;
      when (negb ret) (on_svr (updsess p (set_cmd None)));;
      mret ret.

Definition session_request (i : Z) (ty : list Z) (p : nat) : M cst bool :=
  if strcmp_eq ty (bytes_of_string "window-change") then sessionwinchange p
  else if strcmp_eq ty (bytes_of_string "shell") then sessioncommand i p false false
  else if strcmp_eq ty (bytes_of_string "pty-req") then sessionpty p
  else if strcmp_eq ty (bytes_of_string "exec") then sessioncommand i p true false
  else if strcmp_eq ty (bytes_of_string "subsystem") then sessioncommand i p true true
  else if strcmp_eq ty (bytes_of_string "signal") then sessionsignal p
  else mret false.
Definition chansessionrequest (i : Z) : M cst () :=
  ty ← ses_payload buf_getstring;
  wantreply ← ses_payload buf_getbool;
  ret ←
    (if zlen ty >? MAX_NAME_LEN then mret false
     else
       c ← getchan i;
       match typedata c with
       | None => dropbear_exit "Failed assertion"
       | Some p => session_request i ty p
       end);
  when (negb (wantreply =? 0))
    (if ret : bool then send_msg_channel_success i else send_msg_channel_failure i).

Definition svrchansess : @ChanType nat svr :=
  mkType false (bytes_of_string "session") (Some newchansess) (Some sesscheckclose) (Some chansessionrequest)
    (Some closechansess) (Some cleanupchansess).

Definition svr_chansessinitialise : M svr () :=
  modify (λ x, set_childpids [(-1, None)]
    (set_lastexit (mkExit (-1) (exitstatus (lastexit x)) (exitsignal (lastexit x)) (exitcore (lastexit x))) x)).
End sessions.
