(* ===== verification/ChanSessSafe.v ===== *)
(** * Safety of session channels

    The callbacks of session channels keep the invariant [sess_inv] between
    the channel table, the sessions in the heap and the table of children, and
    so discharge the interface [callbacks_ok] of the channel code: whatever
    packets arrive and whatever the system calls return, no session is used
    after it was freed, and a forced command or a refused terminal is enforced. *)
From S2P Require Import Prelude Ssh Buffer BufferProps CircBuffer Packet Session Algo Channel ChannelProps ChannelSafe AuthKeys ChanSess.

Section sess_safe.
Context {F : Type}.
Abbreviation svr := (@svr F).
(** What holds of the forwarding. *)
Variable G : F → Prop.
Variable cfg : sess_cfg.
Variable recv_window : Z.
Variable types : list (@ChanType nat svr).
(** The number of the type "session". *)
Variable SESS : nat.
Hypothesis Htypes : types !! SESS = Some (svrchansess cfg).
Abbreviation cst := (@cses nat svr).
Abbreviation owners_t := (list (option (nat * option nat))).
Implicit Types (s : cst) (x : svr) (i : Z) (p : nat) (l : owners_t).

(** ** The invariant *)
(** The command every child runs, when there is one. *)
Definition forced : option (list Z) :=
  match svr_forced_command cfg with
  | Some f => Some f
  | None => key_options cfg ≫= forced_command
  end.
Definition ev_ok (e : sysevent) : Prop :=
  match e with
  | SysFork _ (ChildExec im) =>
      im_path im = get_user_shell cfg ∧ ∀ f, forced = Some f → im_argv im = shell_argv cfg (Some f) (get_user_shell cfg)
  | SysPty => svr_pubkey_allows_pty (key_options cfg) = true
  | _ => True
  end.
Definition exit_ok (e : exitinfo) : Prop := exitpid e = -1 ∨ (0 < exitpid e ∧ (exitsignal e = -1 ∨ 0 < exitsignal e)).
(** [ptsname] of a pty that was granted and unlocked has a name. *)
Definition pty_named (r : pty_result) : Prop := match r with PtyOpens _ None _ => False | _ => True end.
Definition live x p : Prop := ∃ cs, heap x !! p = Some (Some cs).
Definition has_sess l p : Prop := ∃ k, l !! k = Some (Some (SESS, Some p)).
Definition pid_ok l (e : Z * option nat) : Prop :=
  match e.2 with Some p => 0 < e.1 ∧ has_sess l p | None => e.1 = -1 end.
Record sess_inv l x : Prop := {
  si_live : ∀ k td, l !! k = Some (Some (SESS, td)) → ∃ p, td = Some p ∧ live x p;
  si_other : ∀ k ty p, l !! k = Some (Some (ty, Some p)) → ty = SESS;
  si_inj : ∀ k k' p, l !! k = Some (Some (SESS, Some p)) → l !! k' = Some (Some (SESS, Some p)) → k = k';
  si_pids : Forall (pid_ok l) (childpids x);
  si_exits : ∀ p cs, heap x !! p = Some (Some cs) → exit_ok (sess_exit cs);
  si_last : exit_ok (lastexit x);
  si_ptys : Forall pty_named (sys_ptys x);
  si_log : Forall ev_ok (sys_log x);
  si_fwd : G (sv_fwd x)
}.
Lemma has_sess_live l x p : sess_inv l x → has_sess l p → live x p.
Proof. intros Hs [k Hk]. by destruct (si_live _ _ Hs _ _ Hk) as (? & [= <-] & ?). Qed.

(** ** Operations on the sessions *)
(** A property of the heap that depends only on the commands and on which
    sessions have a process. *)
Definition frame (R : list (option ChanSess) → Prop) : Prop :=
  ∀ h p cs cs', R h → h !! p = Some (Some cs) → cmd cs' = cmd cs → pid cs' = pid cs ∨ 0 < pid cs' → R (<[p := Some cs']> h).
Section ops.
Variable R : list (option ChanSess) → Prop.
Hypothesis HR : frame R.
Definition svr_ok {A} p (m : M svr A) : Prop :=
  ∀ l x, sess_inv l x → has_sess l p → R (heap x) → wp m (λ _ x', sess_inv l x' ∧ R (heap x')) x.

Lemma sess_inv_upd l x p cs cs' : sess_inv l x → heap x !! p = Some (Some cs) → exit_ok (sess_exit cs') →
  sess_inv l (set_heap (<[p := Some cs']> (heap x)) x).
Proof.
  intros [] Hp He. split; cbn; try done.
  - intros k td Hk. destruct (si_live0 k td Hk) as (q & -> & cs0 & Hq). exists q. split; [done|].
    destruct (decide (q = p)) as [->|Hne]; [exists cs'|exists cs0; cbn; by rewrite list_lookup_insert_ne].
    cbn. apply list_lookup_insert_eq. by eapply lookup_lt_Some.
  - intros q cs0 Hq. destruct (decide (q = p)) as [->|Hne]; [|rewrite list_lookup_insert_ne in Hq by done; eauto].
    rewrite list_lookup_insert_eq in Hq by (by eapply lookup_lt_Some). by injection Hq as <-.
Qed.
Lemma wp_getsess (Q : ChanSess → svr → Prop) x p cs : heap x !! p = Some (Some cs) → Q cs x → wp (getsess p) Q x.
Proof. intros Hp HQ. unfold getsess. do 2 wp_step. by rewrite Hp. Qed.
Lemma wp_updsess (Q : () → svr → Prop) x p f cs : heap x !! p = Some (Some cs) →
  Q tt (set_heap (<[p := Some (f cs)]> (heap x)) x) → wp (updsess p f) Q x.
Proof. intros Hp HQ. unfold updsess. wp_step. eapply wp_getsess; [done|]. by wp_step. Qed.
(** A change of one session that keeps the command. *)
Lemma upd_ok' p f : (∀ cs, cmd (f cs) = cmd cs) → (∀ cs, pid (f cs) = pid cs ∨ 0 < pid (f cs)) →
  (∀ cs, exit_ok (sess_exit cs) → exit_ok (sess_exit (f cs))) → svr_ok p (updsess p f).
Proof.
  intros Hc Hq He l x Hs Hp Hr. destruct (has_sess_live _ _ _ Hs Hp) as [cs Hcs]. eapply wp_updsess; [done|]. split.
  - eapply sess_inv_upd; [done..|]. apply He. by eapply si_exits.
  - cbn. eapply HR; [done..|apply Hc|apply Hq].
Qed.
Lemma upd_ok p f : (∀ cs, cmd (f cs) = cmd cs) → (∀ cs, pid (f cs) = pid cs) →
  (∀ cs, exit_ok (sess_exit cs) → exit_ok (sess_exit (f cs))) → svr_ok p (updsess p f).
Proof. intros ? Hq ?. apply upd_ok'; [done| |done]. intros cs. by left. Qed.
Lemma svr_ok_bind {A B} p (m : M svr A) (f : A → M svr B) : svr_ok p m → (∀ a, svr_ok p (f a)) → svr_ok p (m ≫= f).
Proof. intros Hm Hf l x Hs Hp Hr. wp_step. eapply wp_mono; [by apply Hm|]. intros a x' [? ?]. by apply Hf. Qed.
Lemma svr_ok_ret {A} p (a : A) : svr_ok p (mret a).
Proof. by intros l x. Qed.
Lemma syslog_ok p e : ev_ok e → svr_ok p (syslog e).
Proof. intros He l x [] Hp Hr. unfold syslog. wp_step. split; [|done]. split; try done. cbn. apply Forall_app. by split; [|constructor]. Qed.
Lemma pipe_ok p : svr_ok p sys_pipe.
Proof. intros l x Hs Hp Hr. unfold sys_pipe. do 2 wp_step. wp_step; [done|]. do 3 wp_step. destruct Hs. by split; [split|]. Qed.
Lemma fork_ok p child : (∀ n c, ev_ok (SysFork n (child c))) → svr_ok p (sys_fork child).
Proof.
  intros Hc l x Hs Hp Hr. unfold sys_fork. do 2 wp_step. destruct (sys_forks x) as [|[|n c] fs]; [done|..].
  - do 3 wp_step. destruct Hs. by split; [split|].
  - do 3 wp_step. apply (wp_mono _ (λ _ x', sess_inv l x' ∧ R (heap x'))); [|by intros _ x' ?].
    apply (syslog_ok p); [apply Hc|destruct Hs; by split|done..].
Qed.
Lemma pty_ok p : svr_pubkey_allows_pty (key_options cfg) = true → svr_ok p sys_pty.
Proof.
  intros Ha l x Hs Hp Hr. unfold sys_pty. do 3 wp_step. eapply wp_mono; [by apply (syslog_ok p)|]. intros _ x' [Hs' Hr'].
  destruct (sys_ptys x) as [|r rs] eqn:E; [done|]. do 3 wp_step. split; [|done].
  pose proof (si_ptys _ _ Hs) as Hn. rewrite E in Hn. destruct Hs'. split; try done. by inversion Hn.
Qed.
Lemma tcgetattr_ok p : svr_ok p sys_tcgetattr.
Proof. intros l x Hs Hp Hr. unfold sys_tcgetattr. do 2 wp_step. wp_step; [done|]. do 3 wp_step. destruct Hs. by split; [split|]. Qed.
Lemma kill_ok p n sig : svr_ok p (sys_kill n sig).
Proof.
  unfold sys_kill. apply svr_ok_bind; [by apply syslog_ok|]. intros _ l x Hs Hp Hr. do 2 wp_step. wp_step; [done|]. do 3 wp_step.
  destruct Hs. by split; [split|].
Qed.
Lemma add_pid_ok l e cp : pid_ok l e → Forall (pid_ok l) cp → Forall (pid_ok l) (add_pid e cp).
Proof. intros He. induction 1 as [|e' cp He' Hcp IH]; cbn; [by constructor|]. case_if; by constructor. Qed.
Lemma addchildpid_ok p n : 0 < n → svr_ok p (addchildpid p n).
Proof.
  intros Hn l x [] Hp Hr. unfold addchildpid. wp_step. split; [|done]. split; try done. cbn. by apply add_pid_ok.
Qed.
Lemma find_pid_ok l n cp o : Forall (pid_ok l) cp → 0 < n → find_pid n cp = Some o → ∃ p, o = Some p ∧ has_sess l p.
Proof.
  intros Hcp Hn. induction Hcp as [|[m q] cp Hq Hcp IH]; cbn; [done|]. case_if; [|done]. intros [= <-].
  unfold pid_ok in Hq. cbn in Hq. destruct q; [by naive_solver|lia].
Qed.
Lemma take_lastexit_ok p : svr_ok p take_lastexit.
Proof.
  intros l x Hs Hp Hr. unfold take_lastexit. do 2 wp_step. wp_step; [|done].
  destruct (si_last _ _ Hs) as [Hl|[Hl Hsig]]; [by rewrite Hl in *|].
  destruct (find_pid _ _) as [o|] eqn:E; [|done]. destruct (find_pid_ok _ _ _ _ (si_pids _ _ Hs) Hl E) as (q & -> & Hq).
  wp_step. apply (wp_mono _ (λ _ x', sess_inv l x' ∧ R (heap x'))); [|intros _ x' [[] Hr']; wp_step; split; [split; try done; by left|done]].
  apply (upd_ok q); [done|done| |done..]. intros cs _. right. by split.
Qed.
End ops.
Lemma frame_true : frame (λ _, True).
Proof. done. Qed.
(** The command of the session is the forced one. *)
Definition armed p (h : list (option ChanSess)) : Prop :=
  ∀ f cs, forced = Some f → h !! p = Some (Some cs) → cmd cs = Some f.
(** The session has a process as well. *)
Definition started p (h : list (option ChanSess)) : Prop :=
  armed p h ∧ ∀ cs, h !! p = Some (Some cs) → 0 < pid cs.
Lemma frame_armed p : frame (armed p).
Proof.
  intros h q cs cs' Hr Hq Hc _ f cs0 Hf H0. destruct (decide (q = p)) as [->|Hne].
  - rewrite list_lookup_insert_eq in H0 by (by eapply lookup_lt_Some). injection H0 as <-. rewrite Hc. by eapply Hr.
  - rewrite list_lookup_insert_ne in H0 by done. by eapply Hr.
Qed.
Lemma frame_started p : frame (started p).
Proof.
  intros h q cs cs' [Ha Hr] Hq Hc Hp. split; [by eapply frame_armed|]. intros cs0 H0. destruct (decide (q = p)) as [->|Hne].
  - rewrite list_lookup_insert_eq in H0 by (by eapply lookup_lt_Some). injection H0 as <-. destruct Hp as [->|?]; [|done]. by eapply Hr.
  - rewrite list_lookup_insert_ne in H0 by done. by eapply Hr.
Qed.

(** ** The waits *)
Lemma termsig_pos st : WIFSIGNALED st = true → 0 < WTERMSIG st.
Proof.
  unfold WIFSIGNALED, WTERMSIG. change 127 with (Z.ones 7). rewrite !Z.land_ones by lia. change (2 ^ 7) with 128. intros H.
  pose proof (Z.mod_pos_bound st 128 ltac:(lia)). destruct (Z.eq_dec (st mod 128) 0) as [E|]; [|lia]. exfalso.
  rewrite Z.add_mod, E in H by lia. done.
Qed.
Lemma record_exit_ok n st e : 0 < n → exit_ok (record_exit n st e).
Proof.
  intros Hn. right. unfold record_exit. destruct (WIFSIGNALED st) eqn:E; cbn; split; [done| |done|by left].
  right. by apply termsig_pos.
Qed.
Lemma child_exited_ok n st l x : 0 < n → sess_inv l x → wp (child_exited n st) (λ _, sess_inv l) x.
Proof.
  intros Hn Hs. unfold child_exited. do 2 wp_step. destruct (find_pid _ _) as [o|] eqn:E.
  - destruct (find_pid_ok _ _ _ _ (si_pids _ _ Hs) Hn E) as (q & -> & Hq).
    eapply wp_mono; [apply (upd_ok _ frame_true q); [done|done| |done..]|by intros ? ? [? _]].
    intros cs _. by apply record_exit_ok.
  - wp_step. destruct Hs. split; try done. by apply record_exit_ok.
Qed.
Lemma child_exited_waits n st x : wp (child_exited n st) (λ _ x', sys_waits x' = sys_waits x) x ∨ ∃ e, child_exited n st x = UB e.
Proof.
  unfold wp. destruct (child_exited n st x) as [[u x']| |e] eqn:E; [left|by left|right; by exists e].
  unfold child_exited, updsess, getsess in E. cbn in E. unfold mbind, M_bind, get, put, modify in E.
  destruct (find_pid _ _) as [[q|]|]; [|done|by injection E as _ <-]. destruct (heap x !! q) as [[cs|]|]; [|done..].
  by injection E as _ <-.
Qed.
Lemma wait_loop_ok fuel l x : sess_inv l x → (length (sys_waits x) < fuel)%nat → wp (wait_loop fuel) (λ _, sess_inv l) x.
Proof.
  revert x. induction fuel as [|fuel IH]; intros x Hs Hf; [lia|]. cbn [wait_loop]. wp_step. unfold sys_waitpid. do 2 wp_step.
  destruct (sys_waits x) as [|[n st] ws] eqn:E; [done|]. do 4 wp_step; [|destruct Hs; by split]. wp_step. cbn [fst snd] in *.
  assert (Hs' : sess_inv l (set_sys_waits ws x)) by (destruct Hs; by split).
  destruct (child_exited_waits n st (set_sys_waits ws x)) as [Hw|[e Hw]].
  - pose proof (child_exited_ok n st l _ ltac:(lia) Hs') as Hi. unfold wp in *.
    destruct (child_exited n st (set_sys_waits ws x)) as [[u x']| |]; [|done..]. apply IH; [done|]. rewrite Hw. cbn in *. lia.
  - pose proof (child_exited_ok n st l _ ltac:(lia) Hs') as Hi. unfold wp in Hi. by rewrite Hw in Hi.
Qed.

(** ** Sessions of channels *)
Section chans.
Variable R : list (option ChanSess) → Prop.
(** The invariant while a callback works on the session [p] of channel [i]. *)
Definition in_session p i l x : Prop := sess_inv l x ∧ l !! Z.to_nat i = Some (Some (SESS, Some p)) ∧ R (heap x).
Abbreviation safe_in p i := (safe_as recv_window types (in_session p i) SESS i).

Lemma cinv_rest J1 J2 s x : cinv recv_window types J1 s → J2 (owners (channels s)) x → cinv recv_window types J2 (set_rest x s).
Proof. intros [[] _] Hj. by split; [split|]. Qed.
Lemma cinv_weaken J1 J2 s : (∀ l x, J1 l x → J2 l x) → cinv recv_window types J1 s → cinv recv_window types J2 s.
Proof. intros HJ [[] ?]. split; [by split|by apply HJ]. Qed.
Lemma safe_svr {A} p i (m : M svr A) : svr_ok R p m → safe_in p i (on_svr m).
Proof.
  intros Hm s Hs (c & Hat & Hty). apply wp_zoom. pose proof (ci_client _ _ _ _ Hs) as (Hi & Hl & Hr).
  eapply wp_mono; [apply Hm; [done|by exists (Z.to_nat i)|done]|]. intros a x' [Hi' Hr']. split; [|by exists c].
  by eapply cinv_rest.
Qed.
Lemma safe_getsess {A} p i (f : ChanSess → M cst A) :
  (∀ cs, exit_ok (sess_exit cs) → (∃ h, R h ∧ h !! p = Some (Some cs)) → safe_in p i (f cs)) →
  safe_in p i (on_svr (getsess p) ≫= f).
Proof.
  intros Hf s Hs Hp. pose proof (ci_client _ _ _ _ Hs) as (Hi & Hl & Hr).
  destruct (has_sess_live _ _ p Hi) as [cs Hcs]; [by exists (Z.to_nat i)|]. wp_step. apply wp_zoom.
  eapply wp_getsess; [done|]. replace (set_rest (cs_rest s) s) with s by (by destruct s). apply Hf; [|by exists (heap (cs_rest s))|done..].
  by eapply si_exits.
Qed.
Lemma safe_in_prio p i : safe_in p i update_channel_prio.
Proof.
  intros s [[] ?] (c & Hat & Hty). destruct (update_channel_prio_ok s) as (evs & pr & _ & E). eapply wp_ok; [exact E|].
  split; [by split; [split|]|by exists c].
Qed.
Lemma safe_in_maxfd p i fd : safe_in p i (grow_maxfd fd).
Proof. intros s [[] ?] (c & Hat & Hty). unfold grow_maxfd. wp_step. split; [by split; [split|]|by exists c]. Qed.
Lemma safe_in_fdmax {A} p i (f : Z → M cst A) : (∀ v, safe_in p i (f v)) → safe_in p i (gets maxfd ≫= f).
Proof. intros Hf s Hs Hp. do 2 wp_step. by apply Hf. Qed.
Lemma safe_in_upd p i f : (∀ c, kept (f c) c) → (∀ j c, chan_wf recv_window types j c → extrabuf c = None →
    chan_wf recv_window types j (f c) ∧ extrabuf (f c) = None) → safe_in p i (updchan i f).
Proof. intros H1 H2. apply safe_on_upd. by split. Qed.
End chans.

(** One step of a callback on a session: the rule for the call at its head. *)
Ltac neutral_upd := apply safe_in_upd; [done|intros ? ? [] ?; split; [by split|done]].
Ltac safe_step :=
  lazymatch goal with
  | |- safe_as _ _ _ _ _ (mret _) => apply safe_on_ret
  | |- safe_as _ _ _ _ _ (dropbear_exit _) => apply safe_on_exit
  | |- safe_as _ _ _ _ _ (dropbear_assert _) => apply safe_on_assert
  | |- safe_as _ _ _ _ _ (log _) => apply safe_log
  | |- safe_as _ _ _ _ _ (grow_maxfd _) => apply safe_in_maxfd
  | |- safe_as _ _ _ _ _ (updchan _ _) => neutral_upd
  | |- safe_as _ _ _ _ _ update_channel_prio => apply safe_in_prio
  | |- safe_as _ _ _ _ _ (when _ _) => apply safe_on_when; intros ?
  | |- safe_as _ _ _ _ _ (if _ then _ else _) => apply safe_on_if; intros ?
  | |- safe_as _ _ _ _ _ (getchan _ ≫= _) => apply safe_on_getchan; intros ? ? ?
  | |- safe_as _ _ _ _ _ (gets maxfd ≫= _) => apply safe_in_fdmax; intros ?
  | |- safe_as _ _ _ _ _ (on_svr (getsess _) ≫= _) => apply safe_getsess; intros ? ? ?
  | |- safe_as _ _ _ _ _ (ses_payload _ ≫= _) => eapply safe_on_payload; [apply _|intros ? ?]
  | |- safe_as _ _ _ _ _ (_ ≫= _) => apply safe_on_bind; [|intros ?]
  | |- safe_as _ _ _ _ _ (match ?x with _ => _ end) => destruct x eqn:?
  end.
#[local] Hint Resolve frame_true frame_armed frame_started : core.

(** ** Signals, windows and terminals *)
Section requests.
Variable R : list (option ChanSess) → Prop.
Hypothesis HR : frame R.
Abbreviation safe_in p i := (safe_as recv_window types (in_session R p i) SESS i).
Lemma safe_sessionsignal p i : safe_in p i (sessionsignal p).
Proof. unfold sessionsignal. repeat safe_step. apply safe_svr, kill_ok. Qed.
Lemma safe_winchange p i : safe_in p i (sessionwinchange p).
Proof. unfold sessionwinchange. repeat safe_step. by apply safe_svr, syslog_ok. Qed.
Lemma apply_mode_ok opcode value t : 0 ≤ opcode → ∃ t', apply_mode opcode value t = Ok t'.
Proof.
  intros Ho. unfold apply_mode. destruct (Z.gtb_spec opcode MAX_TERMCODE); [by eexists|].
  destruct (termcodes !! Z.to_nat opcode) as [[m ty]|] eqn:E.
  - destruct ty; [by eexists..|]. rewrite (proj2 (Z.ltb_lt _ _)); [by eexists|].
    assert (Hall : Forall (λ e : Z * termcode_type, e.1 < NCCS ∨ e.2 ≠ TERMCODE_CONTROLCHAR) termcodes).
    { unfold termcodes. repeat (constructor; [cbn; (by left) || (by right)|]). constructor. }
    apply (Forall_lookup_1 _ _ _ _ Hall) in E as [?|?]; [done|]. by cbn in *.
  - apply lookup_ge_None in E. unfold MAX_TERMCODE in *. change (length termcodes) with 94%nat in E. lia.
Qed.
Lemma modes_loop_ok fuel t b : buf_wf b → buf_len b - buf_pos b ≤ Z.of_nat fuel → wp (modes_loop fuel t) (λ _ b', buf_wf b') b.
Proof.
  revert t b. induction fuel as [|fuel IH]; intros t b Hb Hf; cbn [modes_loop]; wp_step.
  all: eapply (reader_wp buf_getbyte p_byte); [apply _|done|]; intros op n Hn Hnl Hb1 Hp.
  all: assert (Hn1 : 1 ≤ n ∧ 0 ≤ op) by (unfold p_byte in Hp; destruct (buf_rest b) as [|c tl] eqn:E; [done|]; injection Hp as -> Htl;
    pose proof (buf_rest_bytes _ Hb) as Hby; rewrite E in Hby; inversion Hby as [|?? Hc]; pose proof (buf_rest_length _ Hb) as L1;
    pose proof (buf_rest_length _ Hb1) as L2; rewrite E in L1; rewrite <- Htl in L2; cbn in L1, L2; unfold is_byte in Hc; lia).
  all: wp_step; [|done].
  - lia.
  - wp_step. eapply (reader_wp buf_getint p_int); [apply _|done|]. intros v m Hm Hml Hb2 _. wp_step.
    destruct (apply_mode_ok op v t) as [t' ->]; [lia|]. apply wp_lift. apply IH; [done|]. cbn in *. lia.
Qed.
Lemma read_modes_ok t b : buf_wf b → wp (read_modes t) (λ _ b', buf_wf b') b.
Proof.
  intros Hb. unfold read_modes. wp_step. eapply (reader_wp buf_getint p_int); [apply _|done|]. intros v m Hm Hml Hb2 _.
  do 2 wp_step. wp_step; [done|]. wp_step; [done|]. wp_step. eapply wp_mono; [apply modes_loop_ok; [done|]|by intros ? ? ?].
  destruct (Z.eqb_spec v (u32 (buf_len (buf_advance b m) - buf_pos (buf_advance b m)))) as [E|]; [|done].
  buf_facts. rewrite u32_small in E by (unfold U32, BUF_MAX_SIZE in *; lia). lia.
Qed.
Lemma safe_termmodes p i : safe_in p i (get_termmodes p).
Proof.
  unfold get_termmodes. safe_step. safe_step; [apply safe_svr, tcgetattr_ok|]. safe_step; [|safe_step].
  apply safe_on_bind; [apply safe_on_keeps; intros b; apply read_modes_ok|intros o]. safe_step; [|safe_step].
  by apply safe_svr, syslog_ok.
Qed.
Lemma safe_pty_allocate p i n : svr_pubkey_allows_pty (key_options cfg) = true → safe_in p i (pty_allocate p n).
Proof.
  intros Ha s Hs Hp. pose proof (ci_client _ _ _ _ Hs) as (Hi & Hl & Hr). unfold pty_allocate.
  assert (Hn : ∃ r x, sys_pty (cs_rest s) = Ok (r, x) ∧ pty_named r).
  { unfold sys_pty. destruct (sys_ptys (cs_rest s)) as [|r rs] eqn:E; [exists PtyFails|exists r].
    all: eexists; split; [unfold mbind, M_bind, get, syslog, modify; by rewrite E|try done].
    pose proof (si_ptys _ _ Hi) as Hn. rewrite E in Hn. by inversion Hn. }
  destruct Hn as (r & x & E & Hn). pose proof (safe_svr R p i sys_pty (pty_ok R p Ha) s Hs Hp) as H.
  wp_step. eapply wp_mono; [apply wp_keep; exact H|]. intros r' s' [[Hs' Hp'] E']. unfold on_svr, zoom in E'. rewrite E in E'.
  injection E' as <- _. revert s' Hs' Hp'. change (safe_in p i match r with
    | PtyFails => mret None
    | PtyOpens ptm None _ => undefined "null pts"
    | PtyOpens ptm (Some pts) ttyfd =>
        on_svr (updsess p (λ cs, set_slave ttyfd (set_master ptm cs)));;
        if ttyfd <? 0 then log (EvClose ptm);; mret None
        else mret (Some (take (Z.to_nat (n - 1)) (cstr pts)))
    end). destruct r as [|ptm [pts|] ttyfd]; [apply safe_on_ret| |done]. repeat safe_step. by apply safe_svr, upd_ok.
Qed.
Lemma safe_sessionpty p i : safe_in p i (sessionpty cfg p).
Proof.
  unfold sessionpty. safe_step; [safe_step|]. assert (svr_pubkey_allows_pty (key_options cfg) = true) by (by destruct svr_pubkey_allows_pty).
  safe_step. safe_step; [by apply safe_svr, upd_ok|]. safe_step; [safe_step|]. safe_step. safe_step; [safe_step|].
  safe_step; [by apply safe_pty_allocate|]. safe_step; [|safe_step]. safe_step; [by apply safe_svr, upd_ok|].
  safe_step; [apply safe_winchange|]. safe_step; [apply safe_termmodes|]. safe_step.
Qed.

(** ** Children *)
Lemma connection_string_ok p : svr_ok R p (make_connection_string cfg p).
Proof.
  unfold make_connection_string. destruct (sock_addr cfg) as [[[[lip lport] rip] rport]|]; [|by intros l x].
  apply svr_ok_bind; [by apply upd_ok|]. intros _. by apply upd_ok.
Qed.
End requests.
Lemma run_shell_ok sys c n dir env : (∀ f, forced = Some f → c = Some f) →
  match run_shell_command cfg sys c n (get_user_shell cfg) dir env with
  | ChildExec im => im_path im = get_user_shell cfg ∧ ∀ f, forced = Some f → im_argv im = shell_argv cfg (Some f) (get_user_shell cfg)
  | _ => True
  end.
Proof.
  intros Hc. unfold run_shell_command. destruct (ch_sigpipe sys), (ch_exec sys); cbn [negb]; try done. split; [done|]. intros f Hf. cbn. by rewrite (Hc f Hf).
Qed.
Lemma child_ok sys n cs : (∀ f, forced = Some f → cmd cs = Some f) →
  ∀ pid, ev_ok (SysFork pid (spawn_child cfg sys n cs)) ∧ ev_ok (SysFork pid (pty_child cfg sys n cs)).
Proof.
  intros Hc q. unfold spawn_child, pty_child, execchild, ev_ok.
  pose proof (run_shell_ok sys (cmd cs) n (pw_dir cfg) (child_env cfg cs) Hc) as Hr.
  destruct (ch_signal sys), (ch_dup2 sys), (ch_chdir sys); cbn [negb]; split; try done; revert Hr; by destruct run_shell_command.
Qed.
Lemma armed_cmd p cs : (∃ h, armed p h ∧ h !! p = Some (Some cs)) → ∀ f, forced = Some f → cmd cs = Some f.
Proof. intros (h & Ha & Hh) f Hf. by eapply Ha. Qed.
Section children.
Variable p : nat.
Abbreviation R := (armed p).
Abbreviation safe_in i := (safe_as recv_window types (in_session R p i) SESS i).
(** A process the parent gets from [fork]. *)
Lemma wp_fork {A} i child (f : option Z → M cst A) (Q : A → cst → Prop) s : (∀ n c, ev_ok (SysFork n (child c))) →
  cinv recv_window types (in_session R p i) s → present_as SESS i s →
  (∀ o s', cinv recv_window types (in_session R p i) s' → present_as SESS i s' →
     match o with Some n => 0 < n | None => True end → wp (f o) Q s') → wp (on_svr (sys_fork child) ≫= f) Q s.
Proof.
  intros Hc Hs Hp HQ. pose proof (safe_svr R p i _ (fork_ok R p child Hc) s Hs Hp) as H. wp_step.
  eapply wp_mono; [apply wp_keep; exact H|]. intros o s' [[Hs' Hp'] E]. apply HQ; [done..|].
  unfold on_svr, zoom, sys_fork, get, put, syslog, modify, mbind, M_bind in E.
  destruct (sys_forks (cs_rest s)) as [|[|n c] fs]; injection E as <- _; done.
Qed.
Lemma wp_getsess_in {A} i (f : ChanSess → M cst A) (Q : A → cst → Prop) s : cinv recv_window types (in_session R p i) s →
  (∀ cs, R (heap (cs_rest s)) → heap (cs_rest s) !! p = Some (Some cs) → wp (f cs) Q s) → wp (on_svr (getsess p) ≫= f) Q s.
Proof.
  intros Hs Hf. pose proof (ci_client _ _ _ _ Hs) as (Hi & Hl & Hr).
  destruct (has_sess_live _ _ p Hi) as [cs Hcs]; [by exists (Z.to_nat i)|]. wp_step. apply wp_zoom.
  eapply wp_getsess; [done|]. replace (set_rest (cs_rest s) s) with s by (by destruct s). by apply Hf.
Qed.
(** From the point where the session has its process. *)
Lemma wp_set_pid {A} i n (k : M cst A) s : 0 < n → cinv recv_window types (in_session (armed p) p i) s → present_as SESS i s →
  safe_as recv_window types (in_session (started p) p i) SESS i k →
  wp (on_svr (updsess p (set_pid n));; k) (λ _ s', cinv recv_window types (in_session (started p) p i) s' ∧ present_as SESS i s') s.
Proof.
  intros Hn Hs (c & Hat & Hty) Hk. pose proof (ci_client _ _ _ _ Hs) as (Hi & Hl & Hr).
  destruct (has_sess_live _ _ p Hi) as [cs Hcs]; [by exists (Z.to_nat i)|]. wp_step. apply wp_zoom. eapply wp_updsess; [done|].
  apply Hk; [|by exists c]. eapply cinv_rest; [done|]. split; [|split; [done|]].
  - eapply sess_inv_upd; [done..|]. exact (si_exits _ _ Hi _ _ Hcs).
  - cbn. split; [eapply (frame_armed p); [done..|by right]|]. intros cs' H'.
    rewrite list_lookup_insert_eq in H' by (by eapply lookup_lt_Some). by injection H' as <-.
Qed.
Lemma spawn_ok i s : cinv recv_window types (in_session (armed p) p i) s → present_as SESS i s →
  wp (spawn_command cfg i p) (λ ok s', present_as SESS i s' ∧
    if ok : bool then cinv recv_window types (in_session (started p) p i) s' else cinv recv_window types (in_session (armed p) p i) s') s.
Proof.
  intros Hs Hp. unfold spawn_command.
  do 3 (eapply wp_on_bind; [apply safe_svr, pipe_ok|done..|]; clear s Hs Hp; intros [[? ?]|] s Hs Hp; [|done]).
  apply (wp_getsess_in i); [done|]. intros cs Ha Hcs. do 2 wp_step. eapply wp_fork; [|done..|].
  { intros n c. apply child_ok. intros f Hf. by eapply Ha. }
  clear s Hs Hp Ha Hcs. intros [n|] s Hs Hp Hn; [|done].
  do 6 (eapply wp_on_bind; [apply safe_log|done..|]; clear s Hs Hp; intros _ s Hs Hp).
  eapply wp_mono; [apply wp_set_pid; [done..|]|].
  - repeat safe_step.
  - intros ok s' [Hs' Hp']. split; [done|]. destruct ok; [done|]. eapply cinv_weaken; [|done]. by intros l x (? & ? & ? & ?).
Qed.
Lemma safe_nopty i : safe_in i (noptycommand cfg i p).
Proof.
  intros s Hs Hp. unfold noptycommand. wp_step. eapply wp_mono; [by apply spawn_ok|]. intros [|] s' [Hp' Hs']; cbn [negb]; [|done].
  apply (wp_mono _ (λ _ s', cinv recv_window types (in_session (started p) p i) s' ∧ present_as SESS i s')).
  2: { intros _ s2 [Hs2 Hp2]. split; [|done]. eapply cinv_weaken; [|done]. by intros l x (? & ? & ? & ?). }
  revert s' Hs' Hp'. match goal with |- ∀ s, _ → _ → wp ?m _ s => change (safe_as recv_window types (in_session (started p) p i) SESS i m) end.
  safe_step. do 3 (safe_step; [safe_step|]). safe_step. match goal with H : ∃ h, _ |- _ => destruct H as (h & [_ Hst] & Hh) end.
  safe_step; [apply safe_svr, addchildpid_ok; by eapply Hst|]. safe_step; [by apply safe_svr, take_lastexit_ok|]. safe_step.
Qed.
Lemma safe_pty i : safe_in i (ptycommand cfg i p).
Proof.
  unfold ptycommand. safe_step. safe_step; [safe_step|]. safe_step. intros s Hs Hp. eapply wp_fork; [|done..|].
  { intros n c. apply child_ok. by apply (armed_cmd p). }
  clear s Hs Hp. intros [n|] s Hs Hp Hn; [|done].
  revert s Hs Hp. match goal with |- ∀ s, _ → _ → wp ?m _ s => change (safe_in i m) end.
  safe_step; [apply safe_svr, upd_ok'; [done..|by right|done]|]. safe_step; [by apply safe_svr, addchildpid_ok|]. repeat safe_step.
Qed.
End children.
(** A change of the command, after which it may be the forced one. *)
Lemma set_cmd_ok p f l x : sess_inv l x → has_sess l p → (∀ cs, sess_exit (f cs) = sess_exit cs) → 
  wp (updsess p f) (λ _ x', sess_inv l x' ∧ ∃ cs, heap x' !! p = Some (Some (f cs))) x.
Proof.
  intros Hs Hp He. destruct (has_sess_live _ _ _ Hs Hp) as [cs Hcs]. eapply wp_updsess; [done|]. split.
  - eapply sess_inv_upd; [done..|]. rewrite He. exact (si_exits _ _ Hs _ _ Hcs).
  - exists cs. cbn. apply list_lookup_insert_eq. by eapply lookup_lt_Some.
Qed.
Lemma cmd_ok p f : (∀ cs, sess_exit (f cs) = sess_exit cs) → svr_ok (λ _, True) p (updsess p f).
Proof. intros He l x Hs Hp _. eapply wp_mono; [by apply set_cmd_ok|]. by intros _ x' [? _]. Qed.
Lemma force_ok p l x : sess_inv l x → has_sess l p → wp (force_command cfg p) (λ _ x', sess_inv l x' ∧ armed p (heap x')) x.
Proof.
  intros Hs Hp. unfold force_command, armed, forced. destruct (svr_forced_command cfg) as [f|].
  - eapply wp_mono; [by apply set_cmd_ok|]. intros _ x' [? [cs Hcs]]. split; [done|]. intros f' cs' [= <-] H'.
    rewrite Hcs in H'. by injection H' as <-.
  - eapply wp_mono; [apply set_cmd_ok; [done..|]|]. { intros cs. by destruct svr_pubkey_set_forced_command. }
    intros _ x' [? [cs Hcs]]. split; [done|]. intros f' cs' Hf H'. rewrite Hcs in H'. injection H' as <-.
    unfold svr_pubkey_set_forced_command. by rewrite Hf.
Qed.
Abbreviation safe_on_sess p i := (safe_as recv_window types (in_session (λ _, True) p i) SESS i).
Lemma safe_request_command p i issubsys : safe_on_sess p i (request_command cfg p issubsys).
Proof. unfold request_command. repeat safe_step. all: by apply safe_svr, cmd_ok. Qed.
Lemma safe_sessioncommand p i iscmd issubsys : safe_on_sess p i (sessioncommand cfg i p iscmd issubsys).
Proof.
  unfold sessioncommand. safe_step. safe_step; [safe_step|]. safe_step; [safe_step; [apply safe_request_command|safe_step]|].
  safe_step; [safe_step|]. intros s Hs (c & Hat & Hty). pose proof (ci_client _ _ _ _ Hs) as (Hi & Hl & _). wp_step. apply wp_zoom.
  eapply wp_mono; [apply force_ok; [done|by exists (Z.to_nat i)]|]. intros _ x' [Hi' Ha'].
  apply (wp_mono _ (λ _ s', cinv recv_window types (in_session (λ _, True) p i) s' ∧ present_as SESS i s')); [|done].
  assert (Hs' : cinv recv_window types (in_session (armed p) p i) (set_rest x' s)) by (by eapply cinv_rest).
  assert (Hp' : present_as SESS i (set_rest x' s)) by (by exists c). clear Hs Hat Hi Hl Hi' Ha'. revert Hs' Hp'. generalize (set_rest x' s).
  clear s. intros s Hs Hp. eapply wp_on_bind; [|exact Hs|exact Hp|]; [by apply safe_svr, connection_string_ok|]. clear s Hs Hp. intros _ s Hs Hp.
  apply (wp_getsess_in p i); [done|]. intros cs' _ _. eapply wp_on_bind; [|done..|].
  { safe_step; [|apply safe_pty]. safe_step; [apply safe_nopty|]. safe_step; [|safe_step]. repeat safe_step. }
  clear s Hs Hp. intros ret s Hs Hp. assert (Hs' : cinv recv_window types (in_session (λ _, True) p i) s).
  { eapply cinv_weaken; [|done]. by intros l x (? & ? & ?). }
  clear Hs. revert s Hs' Hp. match goal with |- ∀ s, _ → _ → wp ?m _ s => change (safe_on_sess p i m) end.
  safe_step; [by apply safe_svr, cmd_ok|]. safe_step; [safe_step; by apply safe_svr, cmd_ok|]. safe_step.
Qed.

(** ** The callbacks *)
Abbreviation safe_sess i := (safe_as recv_window types sess_inv SESS i).
(** From a channel of the type to its session. *)
Lemma enter_session i s c : cinv recv_window types sess_inv s → chan_at s i c → type c = SESS →
  ∃ p, typedata c = Some p ∧ cinv recv_window types (in_session (λ _, True) p i) s.
Proof.
  intros Hs Hat Hty. pose proof (ci_client _ _ _ _ Hs) as Hi. destruct Hat as [H0 Hl].
  assert (Hk : owners (channels s) !! Z.to_nat i = Some (Some (SESS, typedata c))).
  { unfold owners. rewrite list_lookup_fmap, Hl. cbn. unfold owner. by rewrite Hty. }
  destruct (si_live _ _ Hi _ _ Hk) as (p & Hp & _). exists p. split; [done|]. rewrite Hp in Hk. split; [apply Hs|done].
Qed.
Lemma safe_with_session {A} i (f : option nat → M cst A) : (∀ p, safe_on_sess p i (f (Some p))) →
  safe_sess i (c ← getchan i; f (typedata c)).
Proof.
  intros Hf s Hs Hp. eapply wp_at_getchan; [done..|]. intros c Hat Hty _ _. destruct (enter_session i s c Hs Hat Hty) as (p & -> & Hs').
  eapply wp_mono; [by apply Hf|]. intros a s' [Hs2 Hp2]. split; [|done]. eapply cinv_weaken; [|done]. by intros l x [? _].
Qed.
Lemma safe_with_chansess {A} i (f : nat → M cst A) : (∀ p, safe_on_sess p i (f p)) → safe_sess i (chansess i ≫= f).
Proof.
  intros Hf s Hs Hp. unfold chansess. eapply wp_ext; [apply bind_assoc|].
  apply (safe_with_session i (λ o, match o with Some p => mret p | None => undefined "null session" end ≫= f)); [|done..].
  intros p. apply Hf.
Qed.
Lemma safe_check i : safe_sess i (sesscheckclose i).
Proof. apply safe_with_chansess. intros p. repeat safe_step. Qed.
Lemma safe_request i : safe_sess i (chansessionrequest cfg i).
Proof.
  unfold chansessionrequest. do 2 (eapply safe_on_payload; [apply _|intros ? _]). apply safe_on_bind.
  - apply safe_on_if; intros _; [apply safe_on_ret|].
    apply (safe_with_session i (λ o, match o with None => dropbear_exit _ | Some p => session_request cfg i _ p end)). intros p.
    unfold session_request. apply safe_on_if; intros _; [apply safe_winchange|]. apply safe_on_if; intros _; [apply safe_sessioncommand|].
    apply safe_on_if; intros _; [by apply safe_sessionpty|]. apply safe_on_if; intros _; [apply safe_sessioncommand|].
    apply safe_on_if; intros _; [apply safe_sessioncommand|]. apply safe_on_if; intros _; [apply safe_sessionsignal|apply safe_on_ret].
  - intros ret. apply safe_on_when. intros _. apply safe_on_if; intros _; [apply safe_on_success|apply safe_on_failure].
Qed.
Lemma find_signame_ok sig name : find_signame signames sig = Some name →
  Forall is_byte name ∧ cstr name = name ∧ zlen name < U32.
Proof.
  assert (Hall : Forall (λ e : Z * list Z, Forall is_byte e.2 ∧ cstr e.2 = e.2 ∧ zlen e.2 < U32) signames).
  { unfold signames. repeat (constructor; [split; [apply bytes_of_string_bytes|by vm_compute]|]). constructor. }
  induction Hall as [|[n nm] l Hn Hl IH]; cbn; [done|]. case_if; [|done]. by intros [= <-].
Qed.
Lemma find_signame_len sig name : find_signame signames sig = Some name → zlen name ≤ 4.
Proof.
  assert (Hall : Forall (λ e : Z * list Z, zlen e.2 ≤ 4) signames) by (unfold signames; repeat (constructor; [by vm_compute|]); constructor).
  induction Hall as [|[n nm] l Hn Hl IH]; cbn; [done|]. case_if; [|done]. by intros [= <-].
Qed.
Lemma writer_request remote name : Forall is_byte name → zlen name < U32 → Writer (msg_request remote name)
  ([SSH_MSG_CHANNEL_REQUEST] ++ STORE32H remote ++ (STORE32H (zlen name) ++ name) ++ [0]).
Proof.
  intros Hn Hl. unfold msg_request. apply writer_seq; [by apply writer_putbyte|]. apply writer_seq; [apply _|].
  apply writer_seq; [by apply writer_putstring|by apply writer_putbyte].
Qed.
Lemma safe_exitstatus {J} i cs : safe_as recv_window types J SESS i (send_msg_chansess_exitstatus i cs).
Proof.
  unfold send_msg_chansess_exitstatus. do 2 (apply safe_on_bind; [apply safe_on_assert|intros _]). apply safe_on_getchan. intros c _ _.
  eapply safe_on_send; [apply writer_seq; [by apply writer_request; [apply bytes_of_string_bytes|]|apply _]|done].
Qed.
Definition exit_signal_msg remote name core : list Z :=
  ([SSH_MSG_CHANNEL_REQUEST] ++ STORE32H remote ++ (STORE32H 11 ++ bytes_of_string "exit-signal") ++ [0]) ++
  (STORE32H (zlen name) ++ name) ++ [core] ++ (STORE32H 0 ++ []) ++ (STORE32H 0 ++ []).
Lemma writer_exitsignal remote name core : Forall is_byte name → zlen name < U32 → cstr name = name → is_byte core →
  Writer (msg_request remote (bytes_of_string "exit-signal");; buf_putstring name (strlen name);;
          buf_putbyte core;; buf_putstring [] 0;; buf_putstring [] 0) (exit_signal_msg remote name core).
Proof.
  intros Hn Hl Hc Hb. unfold strlen. rewrite Hc. apply writer_seq; [by apply writer_request; [apply bytes_of_string_bytes|]|].
  apply writer_seq; [by apply writer_putstring|]. apply writer_seq; [by apply writer_putbyte|].
  apply writer_seq; by apply (writer_putstring []).
Qed.
Lemma safe_exitsignal {J} i cs : safe_as recv_window types J SESS i (send_msg_chansess_exitsignal i cs).
Proof.
  unfold send_msg_chansess_exitsignal. do 2 (apply safe_on_bind; [apply safe_on_assert|intros _]).
  destruct (find_signame _ _) as [name|] eqn:E; [|apply safe_on_ret]. apply find_signame_ok in E as (? & ? & ?).
  apply safe_on_getchan. intros c _ _. eapply safe_on_send; [by apply writer_exitsignal, u8_byte|done].
Qed.
(** The session is the same one when it is looked up again. *)
Lemma safe_chansess {A} p i (f : nat → M cst A) : safe_on_sess p i (f p) → safe_on_sess p i (chansess i ≫= f).
Proof.
  intros Hf s Hs Hp. pose proof (ci_client _ _ _ _ Hs) as (_ & Hk & _). unfold chansess. eapply wp_ext; [apply bind_assoc|].
  eapply wp_at_getchan; [done..|]. intros c [_ Hl] _ _ _. unfold owners in Hk. rewrite list_lookup_fmap, Hl in Hk. injection Hk as _ ->.
  by apply Hf.
Qed.
Lemma safe_close i : safe_sess i (closechansess i).
Proof.
  apply (safe_with_session i (λ o, match o with None => mret tt | Some _ => send_exitsignalstatus i end)). intros p.
  apply safe_chansess. safe_step. safe_step. apply safe_on_if; intros _; [apply safe_exitsignal|apply safe_exitstatus].
Qed.

(** Cleaning up: what was attached to the channel is gone from the heap and
    from the table of children. *)
Lemma clear_pids_ok l k p cp : Forall (pid_ok l) cp → l !! k = Some (Some (SESS, Some p)) →
  (∀ k', l !! k' = Some (Some (SESS, Some p)) → k' = k) →
  ∃ cp', clear_pids p cp = Ok cp' ∧ Forall (pid_ok (<[k := None]> l)) cp'.
Proof.
  intros Hcp Hk Hinj. induction Hcp as [|[n o] cp Ho Hcp (cp' & E & Hcp')]; cbn; [by eexists|].
  destruct (bool_decide_reflect (o = Some p)) as [->|Hne].
  - unfold pid_ok in Ho. cbn in Ho. destruct Ho as [Hn _]. rewrite (proj2 (Z.gtb_lt _ _)) by lia. cbn. rewrite E. eexists. split; [done|].
    by constructor.
  - cbn. rewrite E. eexists. split; [done|]. constructor; [|done]. unfold pid_ok in *. cbn in *. destruct o as [q|]; [|done].
    destruct Ho as [? [k' Hk']]. split; [done|]. exists k'. rewrite list_lookup_insert_ne; [done|]. intros ->. congruence.
Qed.
Lemma sess_inv_drop l x k p cp : sess_inv l x → l !! k = Some (Some (SESS, Some p)) → Forall (pid_ok (<[k := None]> l)) cp →
  sess_inv (<[k := None]> l) (set_heap (<[p := None]> (heap x)) (set_childpids cp x)).
Proof.
  intros [] Hk Hcp.
  assert (Hin : ∀ k' e, (<[k := None]> l) !! k' = Some (Some e) → k' ≠ k ∧ l !! k' = Some (Some e)).
  { intros k' e. destruct (decide (k' = k)) as [->|]; [by rewrite list_lookup_insert_eq by (by eapply lookup_lt_Some)|].
    by rewrite list_lookup_insert_ne by done. }
  split; cbn; try done.
  - intros k' td [Hne Hk']%Hin. destruct (si_live0 k' td Hk') as (q & -> & cs & Hq). exists q. split; [done|]. exists cs. cbn.
    rewrite list_lookup_insert_ne; [done|]. intros ->. apply Hne. by eapply si_inj0.
  - intros k' ty q [_ ?]%Hin. by eapply si_other0.
  - intros k1 k2 q [_ ?]%Hin [_ ?]%Hin. by eapply si_inj0.
  - intros q cs Hq. destruct (decide (q = p)) as [->|]; [|rewrite list_lookup_insert_ne in Hq by done; by eapply si_exits0].
    destruct (decide (p < length (heap x))%nat).
    + by rewrite list_lookup_insert_eq in Hq.
    + rewrite list_insert_ge in Hq by lia. by eapply si_exits0.
Qed.
Lemma cleanup_ok i s : cinv recv_window types sess_inv s → present_as SESS i s →
  wp (cleanupchansess i) (λ _ s', dropped recv_window types sess_inv SESS i s' ∧ pending_conns s' = pending_conns s) s.
Proof.
  intros Hs Hp. unfold cleanupchansess. pose proof Hp as (c0 & Hp0). eapply wp_at_getchan; [done..|]. intros c Hat Hty _ _.
  destruct (enter_session i s c Hs Hat Hty) as (p & -> & Hs'). pose proof (ci_client _ _ _ _ Hs') as (Hi & Hk & _).
  apply wp_zoom. wp_step. eapply wp_mono; [apply (cmd_ok p); [done..|by exists (Z.to_nat i)|done]|]. intros _ x' [Hi' _]. do 3 wp_step.
  destruct (clear_pids_ok _ _ p _ (si_pids _ _ Hi') Hk) as (cp & -> & Hcp); [intros k' Hk'; by eapply (si_inj _ _ Hi')|].
  apply wp_lift. do 2 wp_step. unfold freesess. wp_step.
  destruct (has_sess_live _ _ p Hi') as [cs Hcs]; [by exists (Z.to_nat i)|]. eapply wp_getsess; [exact Hcs|]. wp_step.
  split; [|done]. split; [destruct Hs as [[] _]; by split|]. split; [by exists c|]. cbn.
  by apply sess_inv_drop.
Qed.

Lemma sess_inv_new l x k cs : sess_inv (<[k := None]> l) x → (k < length l)%nat → exit_ok (sess_exit cs) →
  sess_inv (<[k := Some (SESS, Some (length (heap x)))]> l) (set_heap (heap x ++ [Some cs]) x).
Proof.
  intros [] Hk He. set (n := length (heap x)).
  assert (Hold : ∀ k' e, k' ≠ k → (<[k := Some (SESS, Some n)]> l) !! k' = Some e → (<[k := None]> l) !! k' = Some e).
  { intros k' e Hne. by rewrite !list_lookup_insert_ne by done. }
  assert (Hnew : (<[k := Some (SESS, Some n)]> l) !! k = Some (Some (SESS, Some n))) by (by apply list_lookup_insert_eq).
  assert (Hlive : ∀ q, live x q → live (set_heap (heap x ++ [Some cs]) x) q ∧ q ≠ n).
  { intros q [cs' Hq]. pose proof (lookup_lt_Some _ _ _ Hq). split; [exists cs'; cbn; by rewrite lookup_app_l|unfold n; lia]. }
  split; cbn; try done.
  - intros k' td H'. destruct (decide (k' = k)) as [->|Hne].
    + rewrite Hnew in H'. injection H' as <-. exists n. split; [done|]. exists cs. cbn. by rewrite lookup_app_r, Nat.sub_diag by done.
    + apply Hold in H' as (q & -> & Hq)%si_live0; [|done]. exists q. split; [done|]. by apply Hlive.
  - intros k' ty q H'. destruct (decide (k' = k)) as [->|Hne]; [rewrite Hnew in H'; by injection H'|]. by eapply si_other0, Hold.
  - assert (Hne : ∀ k' , k' ≠ k → (<[k := Some (SESS, Some n)]> l) !! k' ≠ Some (Some (SESS, Some n))).
    { intros k' N (q & [= <-] & [_ ?]%Hlive)%(Hold _ _ N)%si_live0. done. }
    intros k1 k2 q H1 H2. destruct (decide (k1 = k)) as [E1|N1], (decide (k2 = k)) as [E2|N2]; [congruence|..].
    1: rewrite E1, Hnew in H1; injection H1 as <-; by destruct (Hne _ N2).
    1: rewrite E2, Hnew in H2; injection H2 as <-; by destruct (Hne _ N1).
    eapply si_inj0; eapply Hold; eassumption.
  - eapply Forall_impl; [exact si_pids0|]. intros [m o] Ho. unfold pid_ok in *. cbn in *. destruct o as [q|]; [|done].
    destruct Ho as [? [k' Hk']]. split; [done|]. exists k'. destruct (decide (k' = k)) as [->|Hne].
    + by rewrite list_lookup_insert_eq in Hk'.
    + rewrite list_lookup_insert_ne in Hk' |- * by done. done.
  - intros q cs' [Hq|[_ Hq]]%lookup_app_Some; [by eapply si_exits0|]. destruct (q - length (heap x))%nat as [|m]; [|by destruct m].
    by injection Hq as <-.
Qed.
(** [newchansess] on a new channel. *)
Lemma init_ok i s : fresh recv_window types sess_inv SESS i s →
  wp (newchansess i) (λ _ s', cinv recv_window types sess_inv s' ∧ present_as SESS i s') s.
Proof.
  intros ([S1 S2 S3 S4 S5 S6] & (c & [Hi Hl] & Ho & _) & Hj). injection Ho as Hty Htd. unfold newchansess. wp_step. unfold getchan at 1. do 2 wp_step. rewrite Hl. do 2 wp_step. wp_step.
  wp_step. apply wp_zoom. unfold newsess. do 5 wp_step. set (n := length (heap (cs_rest s))).
  set (s1 := set_rest _ s). set (c1 := set_typedata (Some n) c). wp_step.
  assert (Hl1 : channels s1 !! Z.to_nat i = Some (Some c)) by done. unfold updchan at 1, getchan, setchan. do 3 wp_step. rewrite Hl1. do 2 wp_step.
  set (s2 := set_channels _ _).
  assert (Hs2 : cinv recv_window types sess_inv s2).
  { split; [split; cbn; try done|].
    - intros j c' Hj'. destruct (decide (j = Z.to_nat i)) as [->|Hne].
      + rewrite list_lookup_insert_eq in Hj' by (by eapply lookup_lt_Some). injection Hj' as <-.
        destruct (S3 _ _ Hl) as [[] ?]. by split; [split|].
      + rewrite list_lookup_insert_ne in Hj' by done. by apply S3.
    - by rewrite length_insert.
    - rewrite S5. symmetry. by eapply used_slots_insert.
    - by eapply linked_kept.
    - cbn. unfold owners. rewrite list_fmap_insert. cbn. unfold owner. cbn. rewrite Hty. apply sess_inv_new; [exact Hj| |by left].
      unfold owners. rewrite length_fmap. by eapply lookup_lt_Some. }
  assert (Hp2 : present_as SESS i s2).
  { exists c1. split; [|done]. split; [done|]. cbn. apply list_lookup_insert_eq. by eapply lookup_lt_Some. }
  eapply wp_on_bind; [|exact Hs2|exact Hp2|]; [apply safe_on_upd, neutral_prio|]. done.
Qed.
Lemma safe_reinit i : safe_sess i (newchansess i).
Proof.
  apply (safe_with_session i (λ o, dropbear_assert (match o with None => true | Some _ => false end);;
    p ← on_svr (newsess new_session); updchan i (set_typedata (Some p));; updchan i (set_prio DROPBEAR_CHANNEL_PRIO_INTERACTIVE);; mret 0)).
  done.
Qed.
Lemma safe_checksignal : safe recv_window types sess_inv svr_chansess_checksignal.
Proof.
  intros s Hs. unfold svr_chansess_checksignal. do 2 wp_step. wp_step; [done|]. apply wp_zoom. do 2 wp_step.
  eapply wp_mono; [apply wait_loop_ok; [apply Hs|lia]|]. intros [] x' Hx'. by eapply cinv_rest.
Qed.
Lemma safe_signal_pending b : safe recv_window types sess_inv (signal_pending b).
Proof. intros s [[] ?]. unfold signal_pending. wp_step. by split; [split|]. Qed.
End sess_safe.
