(* ===== verification/ChanSessProps.v ===== *)
(** * What sessions do

    The end of a child is reported to the client of its session, and only to
    it; and three runs in which the code does not do what it means to. *)
From S2P Require Import Prelude Ssh Buffer BufferProps CircBuffer Packet Session Algo Channel ChannelProps ChannelSafe AuthKeys.
From S2P Require Import ChanSess ChanSessSafe.

Definition exit_status_msg remote status : list Z :=
  ([SSH_MSG_CHANNEL_REQUEST] ++ STORE32H remote ++ (STORE32H 11 ++ bytes_of_string "exit-status") ++ [0]) ++ STORE32H status.
(** What is sent for the status [waitpid] stored: the name of a signal the
    protocol knows, nothing for another signal, or the exit status; [old] is
    the exit status recorded before. *)
Definition exit_messages remote status old : list (list Z) :=
  if WIFSIGNALED status then
    match find_signame signames (WTERMSIG status) with
    | Some name => [exit_signal_msg remote name (u8 (WCOREDUMP status))]
    | None => []
    end
  else [exit_status_msg remote (if WIFEXITED status then WEXITSTATUS status else old)].

Section exit.
Context {F : Type}.
Variable G : F → Prop.
Variable cfg : sess_cfg.
Variable recv_window : Z.
Variable types : list (@ChanType nat (@svr F)).
Variable SESS : nat.
Abbreviation cst := (@cses nat (@svr F)).
Abbreviation inv := (cinv recv_window types (sess_inv G cfg SESS)).

Lemma run_child_exited n status (x : @svr F) p cs : find_pid n (childpids x) = Some (Some p) → heap x !! p = Some (Some cs) →
  child_exited n status x = Ok (tt, set_heap (<[p := Some (set_sess_exit (record_exit n status (sess_exit cs)) cs)]> (heap x)) x).
Proof.
  intros Hp Hcs. unfold child_exited. rewrite (bind_ok _ _ _ x x) by done. rewrite Hp. unfold updsess, getsess, mbind, M_bind, get, modify, mret, M_ret.
  by rewrite Hcs.
Qed.
Lemma run_checksignal (s : cst) n status p cs : channel_signal_pending s = true → sys_waits (cs_rest s) = [(n, status)] → 0 < n →
  find_pid n (childpids (cs_rest s)) = Some (Some p) → heap (cs_rest s) !! p = Some (Some cs) →
  svr_chansess_checksignal s = Ok (tt, set_rest (set_heap (<[p := Some (set_sess_exit (record_exit n status (sess_exit cs)) cs)]> (heap (cs_rest s)))
    (set_sys_waits [] (cs_rest s))) s).
Proof.
  intros Hpend Hw Hn Hp Hcs. unfold svr_chansess_checksignal. rewrite (bind_ok _ _ _ s s) by done. rewrite Hpend. cbn [negb].
  unfold on_svr. apply zoom_ok. rewrite (bind_ok _ _ _ (cs_rest s) (cs_rest s)) by done. rewrite Hw. cbn [length wait_loop].
  rewrite (bind_ok _ _ _ (n, status) (set_sys_waits [] (cs_rest s))) by (unfold sys_waitpid, mbind, M_bind, get; by rewrite Hw).
  cbn [fst snd]. rewrite (proj2 (Z.gtb_lt _ _)) by lia. rewrite (bind_ok _ _ _ _ _ (run_child_exited n status (set_sys_waits [] (cs_rest s)) p cs Hp Hcs)). done.
Qed.

(** Closing a channel whose session has ended. *)
Lemma run_close (s : cst) i c p cs : getchan i s = Ok (c, s) → typedata c = Some p → on_svr (getsess p) s = Ok (cs, s) → io_ok (cs_io s) →
  0 < exitpid (sess_exit cs) → exitsignal (sess_exit cs) = -1 ∨ 0 < exitsignal (sess_exit cs) →
  twp (closechansess i) (λ _ s', ∃ io, s' = set_io io s ∧ io_sent io = io_sent (cs_io s) ++
    (if exitsignal (sess_exit cs) >? 0 then
       match find_signame signames (exitsignal (sess_exit cs)) with
       | Some name => [exit_signal_msg (remotechan c) name (u8 (exitcore (sess_exit cs)))]
       | None => []
       end
     else [exit_status_msg (remotechan c) (exitstatus (sess_exit cs))])) s.
Proof.
  intros Hc Htd Hg (_ & Hidle & Hsize) Hpid Hsig.
  assert (Hfit : 100 ≤ buf_size (io_writepayload (cs_io s))) by (rewrite Hsize; unfold TRANS_MAX_PAYLOAD_LEN; lia).
  unfold closechansess. twp_step. eapply twp_ok; [exact Hc|]. rewrite Htd. unfold send_exitsignalstatus, chansess. twp_step. twp_step.
  eapply twp_ok; [exact Hc|]. rewrite Htd. do 2 twp_step. eapply twp_ok; [exact Hg|]. rewrite (proj2 (Z.geb_le _ _)) by lia. cbn [when].
  assert (Hne : negb (exitpid (sess_exit cs) =? -1) = true) by (destruct (Z.eqb_spec (exitpid (sess_exit cs)) (-1)); [lia|done]).
  destruct (Z.gtb_spec (exitsignal (sess_exit cs)) 0) as [H|H].
  - unfold send_msg_chansess_exitsignal. twp_step. apply twp_assert; [done|]. twp_step. apply twp_assert; [by apply Z.gtb_lt|].
    destruct (find_signame _ _) as [name|] eqn:E.
    + pose proof (find_signame_len _ _ E). apply find_signame_ok in E as (? & ? & ?). twp_step. eapply twp_ok; [exact Hc|].
      eapply (twp_send _ (exit_signal_msg _ _ _)); [by apply writer_exitsignal, u8_byte|done|done| |].
      * etransitivity; [|exact Hfit]. unfold exit_signal_msg. rewrite !length_app, !STORE32H_length. cbn. lia.
      * intros w _ _ _. by eexists.
    + twp_step. exists (cs_io s). split; [by destruct s|by rewrite app_nil_r].
  - unfold send_msg_chansess_exitstatus. twp_step. apply twp_assert; [done|]. twp_step. apply twp_assert; [apply Z.eqb_eq; lia|].
    twp_step. eapply twp_ok; [exact Hc|]. eapply (twp_send _ (exit_status_msg _ _)); [|done|done| |].
    + apply writer_seq; [by apply (writer_request _ (bytes_of_string "exit-status")); [apply bytes_of_string_bytes|]|apply _].
    + etransitivity; [|exact Hfit]. unfold exit_status_msg. rewrite !length_app, !STORE32H_length. cbn. lia.
    + intros w _ _ _. by eexists.
Qed.

(** C28. The end of a child is reported to its own session.  When [waitpid] tells
    that a process of the table of children has ended, its session is marked
    as ended ([sesscheckclose] then lets the channel close) and no other
    session is touched; closing the channel sends the exit status, or the name
    of the signal if the protocol has one for it, and no assertion of the two
    senders fails. *)
Theorem exit_reported s i c p n status :
  inv s → chan_at s i c → type c = SESS → typedata c = Some p →
  channel_signal_pending s = true → sys_waits (cs_rest s) = [(n, status)] → 0 < n →
  find_pid n (childpids (cs_rest s)) = Some (Some p) →
  ∃ s' cs, heap (cs_rest s) !! p = Some (Some cs) ∧
    (svr_chansess_checksignal;; e ← sesscheckclose i; closechansess i;; mret e) s = Ok (true, s') ∧
    io_sent (cs_io s') = io_sent (cs_io s) ++ exit_messages (remotechan c) status (exitstatus (sess_exit cs)) ∧
    (∀ q, q ≠ p → heap (cs_rest s') !! q = heap (cs_rest s) !! q) ∧ channels s' = channels s.
Proof.
  intros Hs [Hi Hl] Hty Htd Hpend Hw Hn Hp. pose proof (ci_client _ _ _ _ Hs) as Hinv.
  assert (Hlive : live (cs_rest s) p).
  { destruct (find_pid_ok SESS _ _ _ _ (si_pids _ _ _ _ _ Hinv) Hn Hp) as (q & [= <-] & Hq). by eapply has_sess_live. }
  destruct Hlive as [cs Hcs].
  set (cs1 := set_sess_exit (record_exit n status (sess_exit cs)) cs).
  set (s1 := set_rest (set_heap (<[p := Some cs1]> (heap (cs_rest s))) (set_sys_waits [] (cs_rest s))) s).
  assert (Hcs1 : heap (cs_rest s1) !! p = Some (Some cs1)) by (apply list_lookup_insert_eq; by eapply lookup_lt_Some).
  assert (Hc1 : getchan i s1 = Ok (c, s1)) by (unfold getchan, mbind, M_bind, get; cbn; by rewrite Hl).
  assert (Hg1 : on_svr (getsess p) s1 = Ok (cs1, s1)).
  { unfold on_svr, zoom, getsess, mbind, M_bind, get. rewrite Hcs1. cbn. unfold mret, M_ret. by destruct s. }
  assert (Hch : chansess i s1 = Ok (p, s1)) by (unfold chansess; rewrite (bind_ok _ _ _ _ _ Hc1); by rewrite Htd).
  assert (Hpid : exitpid (sess_exit cs1) = n) by (cbn; unfold record_exit; by destruct (WIFSIGNALED status)).
  assert (Hsig : exitsignal (sess_exit cs1) = -1 ∨ 0 < exitsignal (sess_exit cs1)).
  { destruct (record_exit_ok n status (sess_exit cs) Hn) as [E|[_ ?]]; [|done]. change (exitpid (sess_exit cs1) = -1) in E. lia. }
  pose proof (run_close s1 i c p cs1 Hc1 Htd Hg1 (ci_io _ _ _ Hs) ltac:(lia) Hsig) as Hsend.
  apply twp_iff in Hsend as ([] & s2 & E2 & io & -> & Hsent). exists (set_io io s1), cs. split; [done|]. split; [|split; [|split; [|done]]].
  - rewrite (bind_ok _ _ _ _ _ (run_checksignal s n status p cs Hpend Hw Hn Hp Hcs)). fold cs1 s1.
    rewrite (bind_ok _ _ _ true s1). { by rewrite (bind_ok _ _ _ _ _ E2). }
    unfold sesscheckclose. rewrite (bind_ok _ _ _ _ _ Hch), (bind_ok _ _ _ _ _ Hg1). rewrite Hpid. by destruct (Z.eqb_spec n (-1)); [lia|].
  - change (io_sent io = io_sent (cs_io s1) ++ exit_messages (remotechan c) status (exitstatus (sess_exit cs))). rewrite Hsent. f_equal.
    unfold exit_messages. cbn [cs1 sess_exit set_sess_exit]. unfold record_exit.
    destruct (WIFSIGNALED status) eqn:E; cbn [exitsignal exitcore exitstatus].
    + rewrite (proj2 (Z.gtb_lt _ _)); [done|]. by apply termsig_pos.
    + by destruct (WIFEXITED status).
  - intros q Hq. cbn. by apply list_lookup_insert_ne.
Qed.
End exit.
