(* ===== verification/NetIO.v ===== *)
(** * Connections in progress ([dropbear/netio.c])

    The server connects to a host without waiting: [connect_remote] puts a
    [dropbear_progress_connection] on a list, each turn of the main loop starts
    and checks connections ([set_connect_fds], [handle_connect_fds]), and the
    owner is told once, by a callback, unless it has cancelled
    ([cancel_connect]).  The server gives no address to bind to and uses no TCP
    fast open. *)
From S2P Require Import Prelude.

(** What [socket] and [connect] return for one address; sockets are not
    negative. *)
Inductive conn_try :=
| CtSocketFails
| CtConnectFails (sock : N)
| CtConnects (sock : N).       (* connected, or [EINPROGRESS] *)
(** What [getsockopt(SO_ERROR)] tells of a socket that is ready. *)
Inductive sock_error := SeFails | SeError | SeConnected.
(** [cb] is the owner's callback, or [cancel_callback] when [cancelled]. *)
Record conn := mkConn {
  cn_id : Z;
  cn_res : list conn_try;      (* [res_iter] *)
  cn_sock : Z;
  cn_cancelled : bool
}.
Inductive netevent :=
| NeOpen (id sock : Z)
| NeClose (id sock : Z)
| NeDone (id : Z) (sock : option Z)   (* the owner's callback: the socket, or failure *)
| NeCancel (id : Z).
Record net := mkNet {
  conns : list conn;           (* [ses.conn_pending] *)
  net_next : Z;
  net_log : list netevent
}.
Definition nlog (e : netevent) : M net () := modify (λ s, mkNet (conns s) (net_next s) (net_log s ++ [e])).

(** The addresses from [r] on: a socket that connects and the addresses after it. *)
Fixpoint try_addrs (id : Z) (r : list conn_try) : M net (Z * list conn_try) :=
  match r with
  | [] => mret (-1, [])
  | CtSocketFails :: r => try_addrs id r
  | CtConnectFails s :: r => nlog (NeOpen id (Z.of_N s));; nlog (NeClose id (Z.of_N s));; try_addrs id r
  | CtConnects s :: r => nlog (NeOpen id (Z.of_N s));; mret (Z.of_N s, r)
  end.
Definition connect_try_next (c : conn) : M net conn :=
  dropbear_assert (bool_decide (cn_res c = []) || (cn_sock c =? -1));;
  r ← try_addrs (cn_id c) (cn_res c);
  mret (mkConn (cn_id c) r.2 r.1 (cn_cancelled c)).
Fixpoint try_loop (fuel : nat) (c : conn) : M net conn :=
  if bool_decide (cn_res c ≠ []) && (cn_sock c <? 0) then
    match fuel with
    | O => undefined "out of fuel"
    | S fuel => c ← connect_try_next c; try_loop fuel c
    end
  else mret c.

(** [c->cb(result, sock, ...)]. *)
Definition callback (c : conn) (sock : option Z) : M net () :=
  if cn_cancelled c then
    match sock with
    | Some s => if s <? 0 then mret tt else nlog (NeClose (cn_id c) s)
    | None => mret tt
    end
  else nlog (NeDone (cn_id c) sock).

(** [None] for [res] when the name does not resolve. *)
Definition connect_remote (res : option (list conn_try)) : M net Z :=
  s ← get;
  put (mkNet (conns s ++ [mkConn (net_next s) (default [] res) (-1) false]) (net_next s + 1) (net_log s));;
  mret (net_next s).
Definition cancel_connect (id : Z) : M net () :=
  s ← get;
  if bool_decide (id ∈ (cn_id <$> conns s)) then
    put (mkNet ((λ c, if cn_id c =? id then mkConn (cn_id c) (cn_res c) (cn_sock c) true else c) <$> conns s)
      (net_next s) (net_log s ++ [NeCancel id]))
  else undefined "dangling connection".

(** The connections that stay on the list; their sockets are watched. *)
Fixpoint set_fds_loop (l : list conn) : M net (list conn) :=
  match l with
  | [] => mret []
  | c :: l =>
      c ← try_loop (length (cn_res c)) c;
      if cn_sock c >=? 0 then l ← set_fds_loop l; mret (c :: l)
      else callback c None;; set_fds_loop l
  end.
Definition set_connect_fds : M net (list Z) :=
  s ← get;
  l ← set_fds_loop (conns s);
  modify (λ s, mkNet l (net_next s) (net_log s));;
  mret (cn_sock <$> l).

Fixpoint handle_loop (writefds : list Z) (errs : list sock_error) (l : list conn) : M net (list conn) :=
  match l with
  | [] => mret []
  | c :: l =>
      if (cn_sock c <? 0) || negb (bool_decide (cn_sock c ∈ writefds)) then
        l ← handle_loop writefds errs l; mret (c :: l)
      else
        match default SeFails (head errs) with
        | SeConnected => callback c (Some (cn_sock c));; mret l
        | _ =>
            nlog (NeClose (cn_id c) (cn_sock c));;
            l ← handle_loop writefds (tail errs) l;
            mret (mkConn (cn_id c) (cn_res c) (-1) (cn_cancelled c) :: l)
        end
  end.
Definition handle_connect_fds (writefds : list Z) (errs : list sock_error) : M net () :=
  s ← get;
  l ← handle_loop writefds errs (conns s);
  modify (λ s, mkNet l (net_next s) (net_log s)).

(** ** What the owner is promised *)
(** Sockets of a connection that are open and have not been handed over;
    [None] once a socket that is not open is closed or handed over. *)
Fixpoint take_out (x : Z) (l : list Z) : option (list Z) :=
  match l with
  | [] => None
  | y :: l => if x =? y then Some l else l ← take_out x l; Some (y :: l)
  end.
Definition sock_step (id : Z) (o : option (list Z)) (e : netevent) : option (list Z) :=
  match e with
  | NeOpen i s => if i =? id then l ← o; Some (s :: l) else o
  | NeClose i s | NeDone i (Some s) => if i =? id then l ← o; take_out s l else o
  | _ => o
  end.
Definition open_socks (id : Z) (es : list netevent) : option (list Z) := foldl (sock_step id) (Some []) es.
(** What the owner of a connection sees: it may be told once, and only while it
    has not cancelled. *)
Inductive owner_state := Waiting | Told | Cancelled | Wrong.
Definition owner_step (id : Z) (o : owner_state) (e : netevent) : owner_state :=
  match e with
  | NeDone i _ => if i =? id then match o with Waiting => Told | _ => Wrong end else o
  | NeCancel i => if i =? id then match o with Waiting | Cancelled => Cancelled | _ => Wrong end else o
  | _ => o
  end.
Definition owner_of (id : Z) (es : list netevent) : owner_state := foldl (owner_step id) Waiting es.

(** A sequence of operations; a connection is cancelled while it is on the list. *)
Inductive netop :=
| OConnect (res : option (list conn_try))
| OCancel (id : Z)
| OSet
| OHandle (writefds : list Z) (errs : list sock_error).
Definition run_op (o : netop) : M net () :=
  match o with
  | OConnect res => connect_remote res;; mret tt
  | OCancel id => s ← get; when (bool_decide (id ∈ (cn_id <$> conns s))) (cancel_connect id)
  | OSet => set_connect_fds;; mret tt
  | OHandle w errs => handle_connect_fds w errs
  end.
Fixpoint run_ops (os : list netop) : M net () :=
  match os with [] => mret tt | o :: os => run_op o;; run_ops os end.
Definition net_start : net := mkNet [] 0 [].

(** ** Bookkeeping *)
Definition ev_id (e : netevent) : Z := match e with NeOpen i _ | NeClose i _ | NeDone i _ | NeCancel i => i end.
Definition same (id : Z) (L L' : list netevent) : Prop := open_socks id L' = open_socks id L ∧ owner_of id L' = owner_of id L.
Lemma same_app id L es : Forall (λ e, ev_id e ≠ id) es → same id L (L ++ es).
Proof.
  intros Hes. unfold same, open_socks, owner_of. rewrite !foldl_app. generalize (foldl (sock_step id) (Some []) L) (foldl (owner_step id) Waiting L).
  induction Hes as [|e es He Hes IH]; intros a b; [done|]. cbn. assert (sock_step id a e = a ∧ owner_step id b e = b) as [-> ->]; [|done].
  destruct e as [i sk|i sk|i [sk|]|i]; cbn in *; by destruct (Z.eqb_spec i id).
Qed.
Lemma same_trans id L1 L2 L3 : same id L1 L2 → same id L2 L3 → same id L1 L3.
Proof. intros [? ?] [? ?]. split; congruence. Qed.
Definition sock_list (s : Z) : list Z := if s >=? 0 then [s] else [].
Definition conn_ok (L : list netevent) (c : conn) : Prop :=
  (0 ≤ cn_sock c ∨ cn_sock c = -1) ∧ open_socks (cn_id c) L = Some (sock_list (cn_sock c)) ∧
  owner_of (cn_id c) L = if cn_cancelled c then Cancelled else Waiting.
Definition finished (id : Z) (L : list netevent) : Prop := open_socks id L = Some [] ∧ (owner_of id L = Told ∨ owner_of id L = Cancelled).
Lemma conn_ok_same L L' c : same (cn_id c) L L' → conn_ok L c → conn_ok L' c.
Proof. intros [E1 E2] (? & ? & ?). split; [done|]. by rewrite E1, E2. Qed.
Lemma finished_same L L' id : same id L L' → finished id L → finished id L'.
Proof. intros [E1 E2] (? & ?). unfold finished. by rewrite E1, E2. Qed.
Lemma open_app id L e : open_socks id (L ++ [e]) = sock_step id (open_socks id L) e.
Proof. unfold open_socks. by rewrite foldl_app. Qed.
Lemma owner_app id L e : owner_of id (L ++ [e]) = owner_step id (owner_of id L) e.
Proof. unfold owner_of. by rewrite foldl_app. Qed.

Section loops.
Variables (cs : list conn) (n : Z).
Abbreviation st := (mkNet cs n).
(** Trying addresses touches this connection only and leaves the socket it
    returns as the only open one. *)
Lemma try_addrs_ok id r L : open_socks id L = Some [] → ∃ sk r' es, try_addrs id r (st L) = Ok ((sk, r'), st (L ++ es)) ∧
  (0 ≤ sk ∨ sk = -1 ∧ r' = []) ∧ (length r' ≤ length r)%nat ∧ Forall (λ e, ev_id e = id) es ∧
  open_socks id (L ++ es) = Some (sock_list sk) ∧ owner_of id (L ++ es) = owner_of id L.
Proof.
  revert L. induction r as [|[|sk|sk] r IH]; intros L HL; cbn [try_addrs].
  - exists (-1), [], []. rewrite app_nil_r. split; [done|]. split; [by right|]. by split_and!.
  - destruct (IH L HL) as (s' & r' & es & E & ? & ? & ? & ? & ?). exists s', r', es. cbn. split_and!; [done..|lia|done|done|done].
  - set (L1 := L ++ [NeOpen id (Z.of_N sk)] ++ [NeClose id (Z.of_N sk)]).
    assert (H1 : open_socks id L1 = Some [] ∧ owner_of id L1 = owner_of id L).
    { unfold L1. rewrite app_assoc. rewrite ?open_app, ?owner_app. rewrite HL. cbn. rewrite !Z.eqb_refl. cbn. by rewrite Z.eqb_refl. }
    destruct H1 as [H1 H2]. destruct (IH L1 H1) as (s' & r' & es & E & ? & ? & ? & ? & Ho).
    exists s', r', ([NeOpen id (Z.of_N sk); NeClose id (Z.of_N sk)] ++ es). unfold nlog.
    rewrite (bind_ok _ _ _ tt (st (L ++ [NeOpen id (Z.of_N sk)]))) by done. rewrite (bind_ok _ _ _ tt (st L1)) by (unfold L1; by rewrite app_assoc).
    rewrite E. unfold L1 in *. rewrite <- !app_assoc in *. cbn in *. split_and!; [done..|lia|by repeat constructor|done|congruence].
  - exists (Z.of_N sk), r, [NeOpen id (Z.of_N sk)]. split_and!; [done|left; lia|cbn; lia|by repeat constructor| |by rewrite ?open_app, ?owner_app].
    rewrite ?open_app, ?owner_app. cbn. rewrite Z.eqb_refl, HL. unfold sock_list. rewrite (proj2 (Z.geb_le _ _)) by lia. done.
Qed.
Lemma try_loop_ok c L : conn_ok L c → ∃ c' es, try_loop (length (cn_res c)) c (st L) = Ok (c', st (L ++ es)) ∧
  cn_id c' = cn_id c ∧ cn_cancelled c' = cn_cancelled c ∧ Forall (λ e, ev_id e = cn_id c) es ∧ conn_ok (L ++ es) c'.
Proof.
  intros (Hs & Ho & Hw). assert (Hstop : ∀ f c', (cn_res c' = [] ∨ 0 ≤ cn_sock c') → ∀ s, try_loop f c' s = Ok (c', s)).
  { intros f c' Hc s. destruct f; cbn [try_loop]; destruct Hc as [-> |Hc]; try done; by rewrite (proj2 (Z.ltb_ge _ _) Hc), andb_false_r. }
  destruct (decide (cn_res c = [] ∨ 0 ≤ cn_sock c)) as [Hc|Hc].
  - exists c, []. rewrite Hstop, app_nil_r by done. by split_and!.
  - assert (Hsk : cn_sock c = -1) by lia. rewrite Hsk in Ho.
    destruct (try_addrs_ok (cn_id c) (cn_res c) L Ho) as (sk & r' & es & E & Hsk' & _ & Hes & Ho' & Hw').
    exists (mkConn (cn_id c) r' sk (cn_cancelled c)), es. split.
    + destruct (length (cn_res c)) eqn:El; [apply nil_length_inv in El; tauto|]. cbn [try_loop].
      rewrite bool_decide_true by tauto. rewrite (proj2 (Z.ltb_lt _ _)) by lia. cbn [andb]. unfold connect_try_next.
      rewrite (bind_ok _ _ _ (mkConn (cn_id c) r' sk (cn_cancelled c)) (st (L ++ es))).
      * apply Hstop. cbn. destruct Hsk' as [?|[_ ?]]; auto.
      * rewrite (bind_ok _ _ _ tt (st L)) by (apply assert_ok; by rewrite Hsk, orb_true_r). by rewrite (bind_ok _ _ _ _ _ E).
    + split_and!; [done..|]. split; [cbn; naive_solver|]. cbn. split; [done|]. congruence.
Qed.

(** What a round over the list [l] leaves: the connections [l'] stay. *)
Abbreviation ids := (fmap (M := list) cn_id).
Record round (l : list conn) (L : list netevent) (l' : list conn) (es : list netevent) : Prop := {
  rd_sub : ∀ id, id ∈ ids l' → id ∈ ids l;
  rd_nodup : NoDup (ids l');
  rd_ok : Forall (conn_ok (L ++ es)) l';
  rd_done : ∀ id, id ∈ ids l → id ∉ ids l' → finished id (L ++ es);
  rd_own : Forall (λ e, ev_id e ∈ ids l) es
}.
Lemma round_nil L : round [] L [] [].
Proof. split; try done; constructor. Qed.
Lemma own_ne (id : Z) l es : Forall (λ e, ev_id e ∈ ids l) es → id ∉ ids l → Forall (λ e, ev_id e ≠ id) es.
Proof. intros H Hid. eapply Forall_impl; [exact H|]. intros e ? <-. done. Qed.
Lemma one_ne (id id' : Z) es : Forall (λ e, ev_id e = id) es → id' ≠ id → Forall (λ e, ev_id e ≠ id') es.
Proof. intros H Hid. eapply Forall_impl; [exact H|]. intros e <-. congruence. Qed.
(** A connection that stays, then the rest of the round. *)
Lemma round_keep c c' l L es1 l' es2 : NoDup (ids (c :: l)) → cn_id c' = cn_id c → Forall (λ e, ev_id e = cn_id c) es1 → conn_ok (L ++ es1) c' →
  round l (L ++ es1) l' es2 → round (c :: l) L (c' :: l') (es1 ++ es2).
Proof.
  intros Hnd Hid He1 Hc [R1 R2 R3 R4 R5]. cbn in Hnd. apply NoDup_cons in Hnd as [Hn Hnd]. rewrite <- app_assoc in *. split; cbn; rewrite ?Hid.
  - intros id [->|H]%elem_of_cons; [by left|right; auto].
  - constructor; [|done]. intros H. by apply Hn, R1.
  - constructor; [|done]. rewrite app_assoc. eapply conn_ok_same; [|exact Hc]. apply same_app, (own_ne _ l); [done|by rewrite Hid].
  - intros id [->|H]%elem_of_cons Hno; [by destruct Hno; left|]. apply R4; [done|]. intros ?. by apply Hno; right.
  - apply Forall_app. split; [eapply Forall_impl; [exact He1|]; intros e ->; by left|]. eapply Forall_impl; [exact R5|]. intros e ?. by right.
Qed.
(** One that is done. *)
Lemma round_drop c l L es1 l' es2 : NoDup (ids (c :: l)) → Forall (λ e, ev_id e = cn_id c) es1 → finished (cn_id c) (L ++ es1) →
  round l (L ++ es1) l' es2 → round (c :: l) L l' (es1 ++ es2).
Proof.
  intros Hnd He1 Hf [R1 R2 R3 R4 R5]. cbn in Hnd. apply NoDup_cons in Hnd as [Hn Hnd]. rewrite <- app_assoc in *. split; cbn; try done.
  - intros id H. right. auto.
  - intros id [->|H]%elem_of_cons Hno; [|by apply R4]. rewrite app_assoc. eapply finished_same; [|exact Hf]. by apply same_app, (own_ne _ l).
  - apply Forall_app. split; [eapply Forall_impl; [exact He1|]; intros e ->; by left|]. eapply Forall_impl; [exact R5|]. intros e ?. by right.
Qed.
Lemma conn_oks_same l c L es : NoDup (ids (c :: l)) → Forall (λ e, ev_id e = cn_id c) es → Forall (conn_ok L) l → Forall (conn_ok (L ++ es)) l.
Proof.
  intros Hnd Hes Hl. cbn in Hnd. apply NoDup_cons in Hnd as [Hn Hnd]. rewrite Forall_forall in Hl |- *. intros c' Hc'.
  eapply conn_ok_same; [|by apply Hl]. apply same_app, (one_ne (cn_id c)); [done|]. intros E. apply Hn. rewrite <- E. apply list_elem_of_fmap. by exists c'.
Qed.
Lemma callback_ok c o L : conn_ok L c → cn_sock c = default (-1) o → (∀ sk, o = Some sk → 0 ≤ sk) →
  ∃ es, callback c o (st L) = Ok (tt, st (L ++ es)) ∧ Forall (λ e, ev_id e = cn_id c) es ∧ finished (cn_id c) (L ++ es).
Proof.
  intros (_ & Ho & Hw) Hs Hnn. unfold callback. destruct (cn_cancelled c).
  - destruct o as [sk|]; cbn in Hs; rewrite Hs in Ho.
    + specialize (Hnn sk eq_refl). rewrite (proj2 (Z.ltb_ge _ _) Hnn). exists [NeClose (cn_id c) sk]. split; [done|]. split; [by repeat constructor|].
      unfold finished. rewrite open_app, owner_app, Ho, Hw. unfold sock_list. rewrite (proj2 (Z.geb_le _ _)) by lia. cbn. rewrite !Z.eqb_refl. by split; [|right].
    + exists []. rewrite app_nil_r. split; [done|]. split; [done|]. split; [done|by right].
  - exists [NeDone (cn_id c) o]. split; [done|]. split; [by repeat constructor|]. unfold finished. rewrite open_app, owner_app, Ho, Hw.
    destruct o as [sk|]; cbn in Hs; rewrite Hs; cbn; rewrite !Z.eqb_refl; [|by split; [|left]]. specialize (Hnn sk eq_refl).
    unfold sock_list. rewrite (proj2 (Z.geb_le _ _)) by lia. cbn. rewrite Z.eqb_refl. by split; [|left].
Qed.
Lemma set_fds_ok l L : NoDup (ids l) → Forall (conn_ok L) l →
  ∃ l' es, set_fds_loop l (st L) = Ok (l', st (L ++ es)) ∧ round l L l' es ∧ Forall (λ c, 0 ≤ cn_sock c) l'.
Proof.
  revert L. induction l as [|c l IH]; intros L Hnd Hl.
  - exists [], []. rewrite app_nil_r. split; [done|]. by split; [apply round_nil|].
  - apply Forall_cons in Hl as [Hc Hl]. cbn [set_fds_loop]. destruct (try_loop_ok c L Hc) as (c' & es & E & Hid & _ & Hes & Hc').
    rewrite (bind_ok _ _ _ _ _ E). pose proof (conn_oks_same _ _ _ _ Hnd Hes Hl) as Hl1. pose proof Hnd as [_ Hnd']%NoDup_cons.
    destruct (Z.geb_spec (cn_sock c') 0).
    + destruct (IH (L ++ es) Hnd' Hl1) as (l' & es2 & E2 & R & Hp). exists (c' :: l'), (es ++ es2).
      rewrite (bind_ok _ _ _ _ _ E2), app_assoc. split; [done|]. split; [by eapply round_keep|by constructor].
    + assert (Hm : cn_sock c' = -1) by (destruct Hc' as [[?|?] _]; lia).
      destruct (callback_ok c' None (L ++ es) Hc' Hm ltac:(done)) as (es1 & E1 & He1 & Hf). rewrite (bind_ok _ _ _ _ _ E1). rewrite Hid in *.
      rewrite <- app_assoc in Hf. assert (Hes1 : Forall (λ e, ev_id e = cn_id c) (es ++ es1)) by (by apply Forall_app).
      rewrite <- app_assoc. destruct (IH (L ++ es ++ es1) Hnd') as (l' & es2 & E2 & R & Hp).
      { by apply (conn_oks_same _ c). }
      exists l', ((es ++ es1) ++ es2). rewrite E2. rewrite <- !app_assoc in *. split; [done|]. split; [|done]. rewrite !app_assoc in *. 
      rewrite <- (app_assoc L es es1) in *. by apply round_drop.
Qed.
Lemma handle_ok w errs l L : NoDup (ids l) → Forall (conn_ok L) l →
  ∃ l' es, handle_loop w errs l (st L) = Ok (l', st (L ++ es)) ∧ round l L l' es.
Proof.
  revert errs L. induction l as [|c l IH]; intros errs L Hnd Hl.
  - exists [], []. rewrite app_nil_r. split; [done|]. apply round_nil.
  - apply Forall_cons in Hl as [Hc Hl]. cbn [handle_loop]. pose proof Hnd as [_ Hnd']%NoDup_cons.
    destruct (_ || _) eqn:Ew.
    + destruct (IH errs L Hnd' Hl) as (l' & es2 & E2 & R). exists (c :: l'), ([] ++ es2).
      rewrite (bind_ok _ _ _ _ _ E2). split; [done|]. eapply round_keep; [done|done|constructor|by rewrite app_nil_r|by rewrite app_nil_r].
    + apply orb_false_iff in Ew as [Hs _]. apply Z.ltb_ge in Hs.
      assert (Hclosed : ∃ l' es, (nlog (NeClose (cn_id c) (cn_sock c));; l ← handle_loop w (tail errs) l;
          mret (mkConn (cn_id c) (cn_res c) (-1) (cn_cancelled c) :: l)) (st L) = Ok (l', st (L ++ es)) ∧ round (c :: l) L l' es).
      { set (e := NeClose (cn_id c) (cn_sock c)). assert (He : Forall (λ e, ev_id e = cn_id c) [e]) by (by repeat constructor).
        destruct (IH (tail errs) (L ++ [e]) Hnd' (conn_oks_same _ _ _ _ Hnd He Hl)) as (l' & es2 & E2 & R).
        eexists _, ([e] ++ es2). rewrite (bind_ok _ _ _ tt (st (L ++ [e]))) by done. rewrite (bind_ok _ _ _ _ _ E2), app_assoc. split; [done|].
        eapply round_keep; [done|done|done| |done]. destruct Hc as (_ & Ho & Hw). split; [by right|]. rewrite open_app, owner_app. cbn. rewrite Ho, Hw.
        unfold sock_list. rewrite (proj2 (Z.geb_le _ _)) by lia. cbn. by rewrite !Z.eqb_refl. }
      destruct (default SeFails (head errs)); [exact Hclosed..|].
      destruct (callback_ok c (Some (cn_sock c)) L Hc eq_refl ltac:(by intros sk [= <-])) as (es & E & Hes & Hf).
      exists l, (es ++ []). rewrite (bind_ok _ _ _ _ _ E), app_nil_r. split; [done|]. rewrite <- (app_nil_r es) at 1.
      apply round_drop; [done..|]. split; rewrite ?app_nil_r; try done. by eapply conn_oks_same.
Qed.
End loops.

Abbreviation ids := (fmap (M := list) cn_id).
Record net_inv (s : net) : Prop := {
  ni_nodup : NoDup (ids (conns s));
  ni_ok : Forall (conn_ok (net_log s)) (conns s);
  ni_old : ∀ id, id ∈ ids (conns s) → 0 ≤ id < net_next s;
  ni_next : 0 ≤ net_next s;
  ni_events : Forall (λ e, 0 ≤ ev_id e < net_next s) (net_log s);
  ni_done : ∀ id, 0 ≤ id < net_next s → id ∉ ids (conns s) → finished id (net_log s)
}.
Lemma new_id_unused id L n : Forall (λ e, 0 ≤ ev_id e < n) L → ¬ (0 ≤ id < n) → open_socks id L = Some [] ∧ owner_of id L = Waiting.
Proof.
  intros HL Hid. destruct (same_app id [] L) as [E1 E2]; [|done]. eapply Forall_impl; [exact HL|]. cbn. intros e He <-. done.
Qed.
Lemma inv_round s l' es : net_inv s → round (conns s) (net_log s) l' es → net_inv (mkNet l' (net_next s) (net_log s ++ es)).
Proof.
  intros [N1 N2 N3 N4 N5 N6] [R1 R2 R3 R4 R5]. split; cbn; try done.
  - intros id H. by apply N3, R1.
  - apply Forall_app. split; [done|]. eapply Forall_impl; [exact R5|]. intros e. apply N3.
  - intros id Hid Hno. destruct (decide (id ∈ ids (conns s))) as [Hin|Hin]; [by apply R4|].
    eapply finished_same; [apply same_app, (own_ne _ (conns s)); [exact R5|exact Hin]|]. by apply N6.
Qed.
Lemma run_set s : net_inv s → ∃ l' s', set_connect_fds s = Ok (cn_sock <$> l', s') ∧ net_inv s' ∧ conns s' = l' ∧ Forall (λ c, 0 ≤ cn_sock c) l'.
Proof.
  intros Hs. pose proof Hs as []. unfold set_connect_fds. rewrite (bind_ok _ _ _ s s) by done.
  destruct (set_fds_ok (conns s) (net_next s) (conns s) (net_log s) ni_nodup0 ni_ok0) as (l' & es & E & R & Hp).
  destruct s as [cs n L]. cbn in *. exists l', (mkNet l' n (L ++ es)). rewrite (bind_ok _ _ _ _ _ E). split; [done|].
  split; [|done]. by apply (inv_round (mkNet cs n L)).
Qed.
Lemma run_op_ok o s : net_inv s → ∃ s', run_op o s = Ok (tt, s') ∧ net_inv s'.
Proof.
  intros Hs. pose proof Hs as [N1 N2 N3 N4 N5 N6]. destruct o as [res|id| |w errs]; cbn [run_op].
  - eexists. split; [reflexivity|]. assert (Hfresh : net_next s ∉ ids (conns s)) by (intros H%N3; lia). split; cbn.
    + rewrite fmap_app. apply NoDup_app. split; [done|]. split; [|by apply NoDup_singleton]. intros id H H1%list_elem_of_singleton. by subst id.
    + apply Forall_app. split; [done|]. apply Forall_singleton. destruct (new_id_unused (net_next s) _ _ N5 ltac:(lia)) as [E1 E2].
      split; [by right|]. split; [exact E1|exact E2].
    + intros id. rewrite fmap_app, elem_of_app. cbn. intros [H%N3|H%list_elem_of_singleton]; lia.
    + lia.
    + eapply Forall_impl; [exact N5|]. cbn. lia.
    + intros id Hid. rewrite fmap_app, elem_of_app. cbn. intros Hno. apply N6; [|tauto]. destruct (decide (id = net_next s)) as [->|]; [|lia].
      destruct Hno. right. by left.
  - rewrite (bind_ok _ _ _ s s) by done. destruct (bool_decide_reflect (id ∈ ids (conns s))) as [Hin|Hin]; [|by exists s]. cbn [when].
    unfold cancel_connect. rewrite (bind_ok _ _ _ s s) by done. rewrite bool_decide_true by done. eexists. split; [reflexivity|].
    set (f := λ c, if cn_id c =? id then mkConn (cn_id c) (cn_res c) (cn_sock c) true else c).
    assert (Hids : ids (f <$> conns s) = ids (conns s)).
    { rewrite <- list_fmap_compose. apply list_fmap_ext. intros k c _. unfold f. cbn. by destruct (cn_id c =? id). }
    assert (Hsame : ∀ id', id' ≠ id → same id' (net_log s) (net_log s ++ [NeCancel id])) by (intros id' ?; apply same_app; by repeat constructor).
    split; cbn [conns net_next net_log]; rewrite ?Hids; try done.
    + apply Forall_fmap. eapply Forall_impl; [exact N2|]. intros c (H1 & H2 & H3). unfold compose, f.
      destruct (Z.eqb_spec (cn_id c) id) as [<-|Hne]; [|eapply conn_ok_same; [by apply Hsame|by split]].
      split; [done|]. cbn. rewrite open_app, owner_app, H2, H3. cbn. rewrite Z.eqb_refl. split; [done|]. by destruct (cn_cancelled c).
    + apply Forall_app. split; [done|]. apply Forall_singleton. by apply N3.
    + intros id' Hid' Hno. eapply finished_same; [apply Hsame|by apply N6]. congruence.
  - destruct (run_set s Hs) as (l' & s' & E & Hs' & _). exists s'. by rewrite (bind_ok _ _ _ _ _ E).
  - unfold handle_connect_fds. rewrite (bind_ok _ _ _ s s) by done.
    destruct (handle_ok (conns s) (net_next s) w errs (conns s) (net_log s) N1 N2) as (l' & es & E & R).
    exists (mkNet l' (net_next s) (net_log s ++ es)). destruct s as [cs n L]. cbn in *. rewrite (bind_ok _ _ _ _ _ E). split; [done|].
    by apply (inv_round (mkNet cs n L)).
Qed.
Lemma run_ops_ok os s : net_inv s → ∃ s', run_ops os s = Ok (tt, s') ∧ net_inv s'.
Proof.
  revert s. induction os as [|o os IH]; intros s Hs; [by exists s|]. destruct (run_op_ok o s Hs) as (s1 & E & Hs1).
  cbn [run_ops]. rewrite (bind_ok _ _ _ _ _ E). by apply IH.
Qed.
Lemma net_start_inv : net_inv net_start.
Proof. split; cbn; [constructor|constructor|by intros id H%elem_of_nil|lia|constructor|]. intros id ? _. lia. Qed.

(** C29. Deferred connections.  For every sequence of connections, cancellations
    and rounds of the main loop, with any results of name lookups and sockets:
    the code runs without a failed assertion; the owner of a connection is told
    its outcome at most once and never after it has cancelled; no socket is
    closed or handed over that is not an open socket of this connection; a
    connection that is still on the list holds at most the one socket it is
    waiting for, and one that has left the list holds none (nothing leaks) and
    its owner has been told or has cancelled; and after [set_connect_fds] every
    connection on the list has a socket to wait for. *)
Theorem connections_settled os : ∃ s, run_ops os net_start = Ok (tt, s) ∧
  (∀ id, 0 ≤ id < net_next s →
     owner_of id (net_log s) ≠ Wrong ∧
     ((∃ c, c ∈ conns s ∧ cn_id c = id ∧ open_socks id (net_log s) = Some (if cn_sock c >=? 0 then [cn_sock c] else [])) ∨
      ((id ∉ (cn_id <$> conns s)) ∧ open_socks id (net_log s) = Some [] ∧
       (owner_of id (net_log s) = Told ∨ owner_of id (net_log s) = Cancelled)))) ∧
  ∃ fds s', set_connect_fds s = Ok (fds, s') ∧ fds = (cn_sock <$> conns s') ∧ Forall (λ c, 0 ≤ cn_sock c) (conns s').
Proof.
  destruct (run_ops_ok os net_start net_start_inv) as (s & E & Hs). exists s. split; [done|]. split.
  - intros id Hid. pose proof Hs as []. destruct (decide (id ∈ ids (conns s))) as [Hin|Hin].
    + apply list_elem_of_fmap in Hin as (c & -> & Hc). destruct (proj1 (Forall_forall _ _) ni_ok0 c Hc) as (_ & Ho & Hw).
      split; [rewrite Hw; by destruct (cn_cancelled c)|]. left. by exists c.
    + destruct (ni_done0 id Hid Hin) as [Ho Hw]. split; [by destruct Hw as [-> | ->]|]. by right.
  - destruct (run_set s Hs) as (l' & s' & E' & _ & <- & Hp). by exists (cn_sock <$> conns s'), s'.
Qed.
