(* ===== verification/Forward.v ===== *)
(** * Forwarding of connections ([dropbear/svr-tcpfwd.c], [dropbear/tcp-accept.c],
    [dropbear/listener.c])

    The listeners a client asks the server for, the channels of the types
    "direct-tcpip" and "forwarded-tcpip", and [dropbear_listen] of [netio.c].
    A connection the server makes for a channel is an entry of [pending_conns]
    (see [Channel]); its sockets and addresses are the subject of [NetIO].  The server has listeners for
    forwarded connections only, so the acceptor and the cleanup of a listener
    are [tcp_acceptor] and [cleanup_tcp]. *)
From S2P Require Import Prelude Ssh Buffer Packet Session Algo Channel AuthKeys ChanSess.

Definition MAX_LISTENERS : Z := 20.
Definition LISTENER_EXTEND_SIZE : nat := 1.
Definition DROPBEAR_MAX_SOCKS : Z := 2.
Definition MAX_IP_LEN : Z := 15.
Definition MAX_HOST_LEN : Z := 254.
Definition IPPORT_RESERVED : Z := 1024.
Definition CHANNEL_ID_TCPFORWARDED : Z := 1130441831.

(** [tcp_type] is [forwarded] in the server; [chantype] is [None] while it is
    not set. *)
Record TCPListener := mkTcp {
  sendaddr : option (list Z);
  sendport : Z;
  listenaddr : option (list Z);
  listenport : Z;
  request_listenaddr : option (list Z);
  tl_chantype : option nat
}.
Definition set_listenport (n : Z) (t : TCPListener) : TCPListener :=
  mkTcp (sendaddr t) (sendport t) (listenaddr t) n (request_listenaddr t) (tl_chantype t).
Record Listener := mkListener {
  l_socks : list Z;
  l_index : nat;
  l_type : Z;
  l_tcpinfo : TCPListener
}.

(** What the calls for one address of [getaddrinfo] return in [dropbear_listen]. *)
Inductive listen_try :=
| LsSocketFails
| LsBindFails (sock : Z)
| LsListenFails (sock : Z)
| LsListens (sock : Z).
Inductive fwdevent :=
| FwListen (addr : option (list Z)) (passive : bool) (port : Z)   (* [getaddrinfo] for [dropbear_listen] *)
| FwConnect (conn : Z) (host : list Z) (port : Z).                (* [connect_remote] *)
Record fwd := mkFwd {
  listeners : list (option Listener);
  sys_listens : list (option (list listen_try));                  (* [None]: [getaddrinfo] fails *)
  sys_accepts : list (option (Z * option (list Z * Z)));          (* descriptor, host and port of the peer *)
  fw_log : list fwdevent
}.
Definition set_listeners (v : list (option Listener)) (s : fwd) : fwd :=
  mkFwd v (sys_listens s) (sys_accepts s) (fw_log s).
Definition set_sys_listens (v : list (option (list listen_try))) (s : fwd) : fwd :=
  mkFwd (listeners s) v (sys_accepts s) (fw_log s).
Definition set_sys_accepts (v : list (option (Z * option (list Z * Z)))) (s : fwd) : fwd :=
  mkFwd (listeners s) (sys_listens s) v (fw_log s).
Definition set_fw_log (v : list fwdevent) (s : fwd) : fwd :=
  mkFwd (listeners s) (sys_listens s) (sys_accepts s) v.

(** Options of the server and of the key; [sock_port] is [get_sock_port] of
    [netio.c]. *)
Record fwd_cfg := mkFwdCfg {
  nolocaltcp : bool;
  noremotetcp : bool;
  fwd_key_options : option PubKeyOptions;
  listen_fwd_all : bool;
  allowprivport : bool;
  sock_port : Z → Z
}.

Section forward.
Variable cfg : fwd_cfg.
Variable recv_window : Z.
Variable types : list (@ChanType nat (@svr fwd)).
(** The number of the type [svr_chan_tcpremote]. *)
Variable TCPREMOTE : nat.
Abbreviation cst := (@cses nat (@svr fwd)).

Definition on_fwd {A} (m : M fwd A) : M cst A := on_svr (zoom sv_fwd set_sv_fwd m).
Definition fwlog (e : fwdevent) : M fwd () := modify (λ f, set_fw_log (fw_log f ++ [e]) f).

(** ** Listeners *)
Definition listeners_initialise : M fwd () := modify (set_listeners [None]).
Definition set_listener_fds (f : fwd) (readfds : list Z) : list Z :=
  readfds ++ concat (l_socks <$> omap id (listeners f)).

Fixpoint free_listener (l : list (option Listener)) : nat :=
  match l with
  | [] => 0
  | None :: _ => 0
  | Some _ :: l => S (free_listener l)
  end.
(** [socks[i]] in the array of [listen_tcpfwd]. *)
Definition sock_at (socks : list Z) (i : Z) : M cst Z :=
  if i <? DROPBEAR_MAX_SOCKS then
    match socks !! Z.to_nat i with Some s => mret s | None => undefined "uninitialised sock" end
  else undefined "socks".
Fixpoint close_socks (n : nat) (socks : list Z) (i : Z) : M cst () :=
  match n with
  | O => mret tt
  | S n => s ← sock_at socks i; log (EvClose s);; close_socks n socks i
  end.
Fixpoint grow_maxfds (socks : list Z) : M cst () :=
  match socks with
  | [] => mret tt
  | s :: socks => grow_maxfd s;; grow_maxfds socks
  end.
Definition new_listener (socks : list Z) (ty : Z) (info : TCPListener) : M cst (option nat) :=
  f ← on_fwd get;
  let i := free_listener (listeners f) in
  let full := (i =? length (listeners f))%nat in
  if full && (zlen (listeners f) >? MAX_LISTENERS) then
    close_socks (length socks) socks (Z.of_nat i);; mret None
  else
    when full (on_fwd (modify (λ f, set_listeners (listeners f ++ replicate LISTENER_EXTEND_SIZE None) f)));;
    grow_maxfds socks;;
    on_fwd (modify (λ f, set_listeners (<[i := Some (mkListener socks i ty info)]> (listeners f)) f));;
    mret (Some i).

(** [match(typedata, listener->typedata)] of [matchtcp]. *)
Definition matchtcp (info1 info2 : TCPListener) : M fwd bool :=
  if negb (listenport info1 =? listenport info2) then mret false
  else
    match tl_chantype info1, tl_chantype info2 with
    | Some t1, Some t2 =>
        if negb (t1 =? t2)%nat then mret false
        else
          match listenaddr info1, listenaddr info2 with
          | Some a1, Some a2 => mret (strcmp_eq a1 a2)
          | _, _ => undefined "null listenaddr"
          end
    | _, _ => undefined "uninitialised chantype"
    end.
(** The loop looks at the first listener in every turn. *)
Fixpoint get_listener_loop (n : nat) (listener : option Listener) (ty : Z) (info : TCPListener) : M fwd (option nat) :=
  match n with
  | O => mret None
  | S n =>
      match listener with
      | None => undefined "null listener"
      | Some ln =>
          m ← (if l_type ln =? ty then matchtcp info (l_tcpinfo ln) else mret false);
          if m : bool then mret (Some (l_index ln)) else get_listener_loop n listener ty info
      end
  end.
Definition get_listener (ty : Z) (info : TCPListener) : M fwd (option nat) :=
  f ← get;
  match listeners f with
  | [] => undefined "listeners"
  | listener :: _ => get_listener_loop (length (listeners f)) listener ty info
  end.

(** [cleanup_tcp] frees what the listener holds. *)
Definition close_all (socks : list Z) : M cst () := modify (λ s, set_fd_log (fd_log s ++ (EvClose <$> socks)) s).
Definition remove_listener (i : nat) : M cst () :=
  f ← on_fwd get;
  match listeners f !! i with
  | Some (Some ln) =>
      close_all (l_socks ln);;
      on_fwd (modify (λ f, set_listeners (<[l_index ln := None]> (listeners f)) f))
  | _ => undefined "dangling listener"
  end.
Fixpoint remove_listeners (n : nat) (i : nat) : M cst () :=
  match n with
  | O => mret tt
  | S n =>
      f ← on_fwd get;
      (match listeners f !! i with Some (Some _) => remove_listener i | _ => mret tt end);;
      remove_listeners n (S i)
  end.
Definition remove_all_listeners : M cst () :=
  f ← on_fwd get;
  remove_listeners (length (listeners f)) 0;;
  on_fwd (modify (set_listeners [])).

(** ** Accepting *)
Definition sys_accept : M fwd (option (Z * option (list Z * Z))) :=
  f ← get;
  match sys_accepts f with
  | [] => mret None
  | r :: l => put (set_sys_accepts l f);; mret r
  end.
Definition tcp_prio_inithandler (i : Z) : M cst Z :=
  updchan i (set_prio DROPBEAR_CHANNEL_PRIO_UNKNOWABLE);; mret 0.
Definition tcp_acceptor (ln : Listener) (sock : Z) : M cst () :=
  r ← on_fwd sys_accept;
  match r with
  | None => mret tt
  | Some (fd, None) => m_close fd
  | Some (fd, Some (ip, port)) =>
      let info := l_tcpinfo ln in
      match tl_chantype info with
      | None => undefined "uninitialised chantype"
      | Some ty =>
          ok ← send_msg_channel_open_init recv_window types fd ty;
          if ok : bool then
            let addr := default (bytes_of_string "localhost") (request_listenaddr info) in
            ses_write (buf_putstring addr (strlen addr);; buf_putint (listenport info);;
                       buf_putstring ip (strlen ip);; buf_putint port);;
            encrypt_msg
          else log (EvClose fd)
      end
  end.
Fixpoint accept_socks (socks : list Z) (ln : Listener) (readfds : list Z) : M cst () :=
  match socks with
  | [] => mret tt
  | s :: socks => when (FD_ISSET s readfds) (tcp_acceptor ln s);; accept_socks socks ln readfds
  end.
(** The acceptor does not change the listeners. *)
Fixpoint handle_listeners_loop (l : list (option Listener)) (readfds : list Z) : M cst () :=
  match l with
  | [] => mret tt
  | None :: l => handle_listeners_loop l readfds
  | Some ln :: l => accept_socks (l_socks ln) ln readfds;; handle_listeners_loop l readfds
  end.
Definition handle_listeners (readfds : list Z) : M cst () :=
  f ← on_fwd get;
  handle_listeners_loop (listeners f) readfds.

(** ** Listening *)
(** The loop over the addresses: sockets that listen. *)
Fixpoint listen_loop (tries : list listen_try) (socks : list Z) : M cst (list Z) :=
  match tries with
  | [] => mret socks
  | t :: tries =>
      if zlen socks <? DROPBEAR_MAX_SOCKS then
        match t with
        | LsSocketFails => listen_loop tries socks
        | LsBindFails s | LsListenFails s => log (EvClose s);; listen_loop tries socks
        | LsListens s => grow_maxfd s;; listen_loop tries (socks ++ [s])
        end
      else mret socks
  end.
Definition sys_listen : M fwd (option (list listen_try)) :=
  f ← get;
  match sys_listens f with
  | [] => mret None
  | r :: l => put (set_sys_listens l f);; mret r
  end.
(** Sockets bound, [None] on failure.  An address that is not given is the
    loopback interface, an empty one all interfaces. *)
Definition dropbear_listen (address : option (list Z)) (port : Z) : M cst (option (list Z)) :=
  on_fwd (fwlog (FwListen
    (match address with Some a => if bool_decide (cstr a = []) then None else Some a | None => None end)
    (match address with Some _ => true | None => false end) port));;
  r ← on_fwd sys_listen;
  match r with
  | None => mret None
  | Some tries =>
      socks ← listen_loop tries [];
      mret (if bool_decide (socks = []) then None else Some socks)
  end.
Definition listen_tcpfwd (info : TCPListener) : M cst (option nat) :=
  o ← dropbear_listen (listenaddr info) (listenport info);
  match o with
  | None => mret None
  | Some socks => new_listener socks CHANNEL_ID_TCPFORWARDED info
  end.

(** ** Requests *)
Definition svr_cancelremotetcp : M cst bool :=
  bindaddr ← ses_payload buf_getstring;
  if zlen bindaddr >? MAX_IP_LEN then mret false
  else
    port ← ses_payload buf_getint;
    o ← on_fwd (get_listener CHANNEL_ID_TCPFORWARDED (mkTcp None 0 (Some bindaddr) port None None));
    match o with
    | Some i => remove_listener i;; mret true
    | None => mret false
    end.
(** The port that was allocated, [None] on failure. *)
Definition svr_remotetcpreq : M cst (option Z) :=
  request_addr ← ses_payload buf_getstring;
  if zlen request_addr >? MAX_IP_LEN then mret None
  else
    port ← ses_payload buf_getint;
    if negb (port =? 0) && ((port <? 1) || (port >? 65535)) then mret None
    else if negb (port =? 0) && negb (allowprivport cfg) && (port <? IPPORT_RESERVED) then mret None
    else
      let addr := if negb (listen_fwd_all cfg) || strcmp_eq request_addr (bytes_of_string "localhost") then None
                  else Some (cstr request_addr) in
      o ← listen_tcpfwd (mkTcp None 0 addr port (Some request_addr) (Some TCPREMOTE));
      match o with
      | None => mret None
      | Some i =>
          f ← on_fwd get;
          match listeners f !! i with
          | Some (Some ln) =>
              match l_socks ln with
              | s :: _ =>
                  let n := sock_port cfg s in
                  on_fwd (modify (λ f, set_listeners (<[i :=
                    Some (mkListener (l_socks ln) (l_index ln) (l_type ln) (set_listenport n (l_tcpinfo ln)))]> (listeners f)) f));;
                  mret (Some n)
              | [] => undefined "uninitialised sock"
              end
          | _ => undefined "dangling listener"
          end
      end.
Definition reply_global (wantreply : bool) (ok : bool) : M cst () :=
  when wantreply (if ok then send_msg_request_success else send_msg_request_failure).
Definition recv_msg_global_request_remotetcp : M cst () :=
  if noremotetcp cfg || negb (svr_pubkey_allows_tcpfwd (fwd_key_options cfg)) then reply_global false false
  else
    reqname ← ses_payload buf_getstring;
    wantreply ← ses_payload buf_getbool;
    let wantreply := negb (wantreply =? 0) in
    if zlen reqname >? MAX_NAME_LEN then reply_global wantreply false
    else if strcmp_eq (bytes_of_string "tcpip-forward") reqname then
      o ← svr_remotetcpreq;
      match o with
      | Some n => ses_write (buf_putbyte SSH_MSG_REQUEST_SUCCESS;; buf_putint n);; encrypt_msg
      | None => reply_global wantreply false
      end
    else if strcmp_eq (bytes_of_string "cancel-tcpip-forward") reqname then
      ok ← svr_cancelremotetcp;
      reply_global wantreply ok
    else reply_global wantreply false.

(** The call of [connect_remote]: a new pending connection, by number. *)
Definition start_connect (host : list Z) (port i : Z) : M cst Z :=
  conn ← add_connect i;
  on_fwd (fwlog (FwConnect conn host port));;
  mret conn.
Definition newtcpdirect (i : Z) : M cst Z :=
  if nolocaltcp cfg || negb (svr_pubkey_allows_tcpfwd (fwd_key_options cfg)) then mret SSH_OPEN_ADMINISTRATIVELY_PROHIBITED
  else
    desthost ← ses_payload buf_getstring;
    if zlen desthost >? MAX_HOST_LEN then mret SSH_OPEN_ADMINISTRATIVELY_PROHIBITED
    else
      destport ← ses_payload buf_getint;
      orighost ← ses_payload buf_getstring;
      if zlen orighost >? MAX_HOST_LEN then mret SSH_OPEN_ADMINISTRATIVELY_PROHIBITED
      else
        origport ← ses_payload buf_getint;
        if (origport >? 65535) || (destport >? 65535) then mret SSH_OPEN_ADMINISTRATIVELY_PROHIBITED
        else
          conn ← start_connect desthost destport i;
          updchan i (set_conn_pending (Some conn));;
          updchan i (set_prio DROPBEAR_CHANNEL_PRIO_UNKNOWABLE);;
          mret SSH_OPEN_IN_PROGRESS.

Definition svr_chan_tcpdirect : @ChanType nat (@svr fwd) :=
  mkType true (bytes_of_string "direct-tcpip") (Some newtcpdirect) None None None None.
Definition svr_chan_tcpremote : @ChanType nat (@svr fwd) :=
  mkType true (bytes_of_string "forwarded-tcpip") (Some tcp_prio_inithandler) None None None None.
End forward.
