(* ===== verification/ForwardSafe.v ===== *)
(** * Safety of forwarding, and of the server's channels together

    The channel types of the server (sessions, connections the client asks for
    and connections that are forwarded to it) and its listeners keep one
    invariant, so they discharge the interface of the channel code together.
    Two requests of the client are excepted, which the code does not survive:
    [cancel_crashes] and [listeners_overrun]. *)
From S2P Require Import Prelude Ssh Buffer BufferProps CircBuffer Packet Session Algo Channel ChannelProps ChannelSafe AuthKeys.
From S2P Require Import ChanSess ChanSessSafe Forward.

(** A C string is written up to its terminator. *)
Lemma writer_putcstr bs : Forall is_byte bs → zlen bs < U32 →
  Writer (buf_putstring bs (strlen bs)) (STORE32H (strlen bs) ++ cstr bs).
Proof.
  intros Hb Hl. pose proof (strlen_le bs) as Hs. unfold strlen in *.
  eapply writer_ext; [|apply (writer_putstring (cstr bs)); [by apply cstr_bytes|lia]]. intros b. unfold buf_putstring.
  apply bind_ext. intros _ b'. unfold buf_putbytes. apply bind_ext. intros p b2.
  assert (E : mem_load bs 0 (zlen (cstr bs)) = mem_load (cstr bs) 0 (zlen (cstr bs))); [|by rewrite E].
  rewrite !mem_load_ok by lia. f_equal. cbn. rewrite !drop_0, !Nat2Z.id, <- cstr_take. by rewrite firstn_all.
Qed.

Section fwd_safe.
Variable scfg : sess_cfg.
Variable cfg : fwd_cfg.
Variable recv_window : Z.
Hypothesis Hrw : 0 < recv_window ≤ MAX_CBUF_SIZE.
Abbreviation SESS := 0%nat.
Abbreviation TCPREMOTE := 2%nat.
Abbreviation cst := (@cses nat (@svr fwd)).
Implicit Types (s : cst) (x : @svr fwd) (f : fwd) (i : Z).

(** The channel types of the server and those a client may open. *)
Definition svr_types : list (@ChanType nat (@svr fwd)) :=
  [svrchansess scfg; svr_chan_tcpdirect cfg; svr_chan_tcpremote].
Definition svr_chantypes : list nat := [0; 1]%nat.
Abbreviation types := svr_types.

(** ** The invariant *)
Definition accept_ok (a : option (Z * option (list Z * Z))) : Prop :=
  match a with Some (_, Some (ip, _)) => Forall is_byte ip ∧ zlen ip < U32 | _ => True end.
Definition listener_ok (k : nat) (ln : Listener) : Prop :=
  l_index ln = k ∧ l_socks ln ≠ [] ∧ tl_chantype (l_tcpinfo ln) = Some TCPREMOTE ∧
  match request_listenaddr (l_tcpinfo ln) with Some a => Forall is_byte a ∧ zlen a < U32 | None => True end.
(** What the options allow. *)
Definition fw_ok (e : fwdevent) : Prop :=
  match e with
  | FwListen addr passive port =>
      noremotetcp cfg = false ∧ svr_pubkey_allows_tcpfwd (fwd_key_options cfg) = true ∧
      (listen_fwd_all cfg = false → addr = None ∧ passive = false) ∧
      (port = 0 ∨ 1 ≤ port ≤ 65535 ∧ (allowprivport cfg = false → IPPORT_RESERVED ≤ port))
  | FwConnect _ host port =>
      nolocaltcp cfg = false ∧ svr_pubkey_allows_tcpfwd (fwd_key_options cfg) = true ∧
      zlen host ≤ MAX_HOST_LEN ∧ 0 ≤ port ≤ 65535
  end.
(** After [n] requests to forward; the table grows by one slot at a time, when
    it is full. *)
Record fwd_inv (n : nat) f : Prop := {
  fi_listeners : ∀ k ln, listeners f !! k = Some (Some ln) → listener_ok k ln;
  fi_size : (length (listeners f) ≤ Nat.max 1 n)%nat;
  fi_first : n = 0%nat → listeners f = [None];
  fi_accepts : Forall accept_ok (sys_accepts f);
  fi_log : Forall fw_ok (fw_log f)
}.
Lemma fwd_inv_more n f : fwd_inv n f → fwd_inv (S n) f.
Proof. intros []. split; [done|lia|done|done|done]. Qed.
Variable nreq : nat.
Abbreviation srv_inv := (sess_inv (fwd_inv nreq) scfg SESS).
Abbreviation safe_at ty i := (safe_as recv_window types srv_inv ty i).
Abbreviation safe_srv := (safe recv_window types srv_inv).

(** Routines on the state of the forwarding alone. *)
Definition fwd_keeps {A} (m : M fwd A) : Prop := ∀ f, fwd_inv nreq f → wp m (λ _, fwd_inv nreq) f.
Lemma srv_inv_fwd l x f : srv_inv l x → fwd_inv nreq f → srv_inv l (set_sv_fwd f x).
Proof. intros [] Hf. by split. Qed.
Lemma wp_on_fwd {A} (m : M fwd A) (Q : A → cst → Prop) s : wp m (λ a f, Q a (set_rest (set_sv_fwd f (cs_rest s)) s)) (sv_fwd (cs_rest s)) →
  wp (on_fwd m) Q s.
Proof. intros H. unfold on_fwd, on_svr. by do 2 apply wp_zoom. Qed.
Lemma cinv_fwd s f : cinv recv_window types srv_inv s → fwd_inv nreq f → cinv recv_window types srv_inv (set_rest (set_sv_fwd f (cs_rest s)) s).
Proof. intros Hs Hf. eapply cinv_rest; [done|]. apply srv_inv_fwd; [apply Hs|done]. Qed.
Lemma safe_at_fwd {A} ty i (m : M fwd A) : fwd_keeps m → safe_at ty i (on_fwd m).
Proof.
  intros Hm s Hs (c & Hat & Hty). apply wp_on_fwd. eapply wp_mono; [apply Hm, (si_fwd _ _ _ _ _ (ci_client _ _ _ _ Hs))|]. intros a f Hf.
  split; [by apply cinv_fwd|by exists c].
Qed.
Lemma safe_fwd {A} (m : M fwd A) : fwd_keeps m → safe_srv (on_fwd m).
Proof. intros Hm s Hs. apply wp_on_fwd. eapply wp_mono; [apply Hm, (si_fwd _ _ _ _ _ (ci_client _ _ _ _ Hs))|]. intros a f Hf. by apply cinv_fwd. Qed.
Lemma fwlog_keeps e : fw_ok e → fwd_keeps (fwlog e).
Proof. intros He f []. unfold fwlog. wp_step. split; try done. apply Forall_app. by split; [|constructor]. Qed.

(** ** Connections for the client *)
Lemma can_open_plain ty : ty ≠ SESS → can_open srv_inv ty.
Proof.
  intros Hty l x k [] Hk.
  assert (Hin : ∀ k' ty' td, (<[k := Some (ty, None)]> l) !! k' = Some (Some (ty', td)) → (ty' = ty ∧ td = None) ∨ l !! k' = Some (Some (ty', td))).
  { intros k' ty' td. destruct (decide (k' = k)) as [->|Hne]; [|by rewrite list_lookup_insert_ne by done; right].
    rewrite list_lookup_insert_eq by (by eapply lookup_lt_Some). intros [= <- <-]. by left. }
  split; try done.
  - intros k' td [[? ?]|H]%Hin; [done|]. by eapply si_live.
  - intros k' ty' p [[_ ?]|H]%Hin; [done|]. by eapply si_other.
  - intros k1 k2 p [[? _]|H1]%Hin; [done|]. intros [[? _]|H2]%Hin; [done|]. by eapply si_inj.
  - eapply Forall_impl; [done|]. intros [m [p|]]; [|done]. intros [? [k' Hk']]. split; [done|]. exists k'.
    rewrite list_lookup_insert_ne; [done|]. intros ->. congruence.
Qed.
(** The channel gets the connection that is started for it. *)
Lemma start_connect_ok ty i host port s : cinv recv_window types srv_inv s → idle_as ty i s → (∀ conn, fw_ok (FwConnect conn host port)) →
  wp (conn ← start_connect host port i; updchan i (set_conn_pending (Some conn))) (λ _ s', cinv recv_window types srv_inv s' ∧ present_as ty i s') s.
Proof.
  intros [[S1 S2 S3 S4 S5 S6] S7] (c & Hat & Hty & Hp & Ha) Hfw. pose proof Hat as [Hi Hl]. destruct (S3 _ _ Hl) as [Hw He].
  pose proof (fwlog_keeps _ (Hfw (zlen (pending_conns s))) _ (si_fwd _ _ _ _ _ S7)) as Hf. unfold wp, fwlog, modify in Hf.
  unfold start_connect, add_connect. do 8 wp_step. apply wp_on_fwd. unfold fwlog. do 2 wp_step. match goal with |- wp _ _ ?x => set (s1 := x) end. assert (Hat1 : chan_at s1 i c) by done. eapply wp_ok; [by apply updchan_at|].
  split; [|exists (set_conn_pending (Some (zlen (pending_conns s))) c); split; [by eapply chan_at_on|done]].
  split; [|apply srv_inv_fwd; [|done]; cbn -[owners]; by rewrite (owners_insert _ _ c)]. split; cbn; try done.
  - intros j c2 [(<- & [= <-] & _)|(_ & Hold)]%list_lookup_insert_Some; [|by eauto]. split; [destruct Hw; by split|done].
  - by rewrite length_insert.
  - rewrite S5. symmetry. by eapply used_slots_insert.
  - rewrite <- (Z2Nat.id i) at 2 by done. by apply linked_start.
Qed.
(** Reading the request keeps a channel that waits for nothing. *)
Lemma wp_idle_payload {A B} ty i (m : M buffer A) p (f : A → M cst B) Q s : Reader m p → cinv recv_window types srv_inv s → idle_as ty i s →
  (∀ a s', (∃ l tl, p l = Some (a, tl)) → cinv recv_window types srv_inv s' → idle_as ty i s' → wp (f a) Q s') → wp (ses_payload m ≫= f) Q s.
Proof.
  intros Hr Hs (c & Hc & Hid) HQ. wp_step. apply (safe_payload recv_window types srv_inv m (λ a, ∃ l tl, p l = Some (a, tl))); [done| |].
  - intros b Hb. eapply reader_wp; [done..|]. intros v n _ _ Hw Hp. eauto.
  - intros a s' Hs' Ha Hch. apply HQ; [done..|]. exists c. destruct Hc. split; [split; [done|by rewrite Hch]|done].
Qed.
Lemma newtcpdirect_ok i s : cinv recv_window types srv_inv s → idle_as 1 i s →
  wp (newtcpdirect cfg i) (λ _ s', cinv recv_window types srv_inv s' ∧ present_as 1 i s') s.
Proof.
  intros Hs Hp. pose proof (idle_present _ _ _ Hp). unfold newtcpdirect. apply wp_if; intros Hno; [done|].
  eapply wp_idle_payload; [apply _|done..|]. clear s Hs Hp H. intros host s _ Hs Hp. pose proof (idle_present _ _ _ Hp). apply wp_if; intros Hh; [done|].
  eapply wp_idle_payload; [apply _|done..|]. clear s Hs Hp H. intros port s (? & ? & Hport%p_int_range) Hs Hp.
  eapply wp_idle_payload; [apply _|done..|]. clear s Hs Hp. intros ohost s _ Hs Hp. pose proof (idle_present _ _ _ Hp). apply wp_if; intros _; [done|].
  eapply wp_idle_payload; [apply _|done..|]. clear s Hs Hp H. intros oport s _ Hs Hp. pose proof (idle_present _ _ _ Hp). apply wp_if; intros Hpo; [done|].
  eapply wp_ext; [symmetry; apply (bind_assoc (start_connect host port i) (λ conn, updchan i (set_conn_pending (Some conn))))|]. wp_step.
  eapply wp_mono; [apply (start_connect_ok 1); [done..|]|].
  - intros conn. apply orb_false_iff in Hno as [? ?%negb_false_iff]. apply orb_false_iff in Hpo as [_ ?]. cbn. split_and!; [done..|lia|lia|lia].
  - intros [] s1 [Hs1 Hp1]. eapply wp_on_bind; [apply safe_on_upd, neutral_prio|done..|]. done.
Qed.
Lemma safe_tcp_prio i : safe_at 2 i (tcp_prio_inithandler i).
Proof. apply safe_on_bind; [apply safe_on_upd, neutral_prio|intros _]. apply safe_on_ret. Qed.

(** ** Listeners *)
Lemma safe_log_any (e : fdevent) : safe_srv (log e).
Proof. intros s [[] ?]. by split; [split|]. Qed.
Lemma safe_m_close (fd : Z) : safe_srv (m_close fd).
Proof. unfold m_close. destruct (fd <? 0); [by intros s|apply safe_log_any]. Qed.
Lemma safe_grow_maxfd (fd : Z) : safe_srv (grow_maxfd fd).
Proof. intros s [[] ?]. unfold grow_maxfd. wp_step. by split; [split|]. Qed.
Lemma types_named : Forall name_ok types.
Proof. repeat constructor; try apply bytes_of_string_bytes; by vm_compute. Qed.
Lemma safe_bind' {A B} (m : M cst A) (f : A → M cst B) : safe_srv m → (∀ a, safe_srv (f a)) → safe_srv (m ≫= f).
Proof. apply safe_bind. Qed.
(** The laws of the invariant for new and removed channels. *)
Lemma srv_laws : client_laws types srv_inv.
Proof.
  assert (Ht : ∀ ty t, types !! ty = Some t → inithandler t ≠ None ∧ (cleanup t = None → ty ≠ SESS)).
  { intros [|[|[|ty]]] t E; [injection E as <-..|done]; done. }
  split.
  - by intros ty t [? _]%Ht.
  - intros l x n []. assert (Hin : ∀ k e, (l ++ replicate n None) !! k = Some (Some e) → l !! k = Some (Some e)).
    { intros k e [?|[_ [? _]%lookup_replicate]]%lookup_app_Some; done. }
    split; try done; [by eauto..|]. eapply Forall_impl; [done|]. intros [m [p|]]; [|done]. intros [? [k Hk]]. split; [done|]. exists k.
    rewrite lookup_app_l; [done|]. by eapply lookup_lt_Some.
  - intros l x k ty td t [] Hk [_ Hty]%Ht Hc. specialize (Hty Hc).
    assert (Hin : ∀ k' e, (<[k := None]> l) !! k' = Some (Some e) → l !! k' = Some (Some e)).
    { intros k' e. destruct (decide (k' = k)) as [->|]; [by rewrite list_lookup_insert_eq by (by eapply lookup_lt_Some)|].
      by rewrite list_lookup_insert_ne by done. }
    split; try done; [by eauto..|]. eapply Forall_impl; [done|]. intros [m [p|]]; [|done]. intros [? [k' Hk']]. split; [done|]. exists k'.
    rewrite list_lookup_insert_ne; [done|]. intros ->. congruence.
Qed.
Lemma safe_tcp_acceptor k ln sock : listener_ok k ln → safe_srv (tcp_acceptor recv_window types ln sock).
Proof.
  intros (_ & _ & Hty & Ha) s Hs. unfold tcp_acceptor.
  assert (Hacc : ∃ r f, sys_accept (sv_fwd (cs_rest s)) = Ok (r, f) ∧ accept_ok r ∧ fwd_inv nreq f).
  { pose proof (si_fwd _ _ _ _ _ (ci_client _ _ _ _ Hs)) as Hf. pose proof (fi_accepts _ _ Hf) as Hacc.
    unfold sys_accept. destruct (sys_accepts (sv_fwd (cs_rest s))) as [|r rs] eqn:E.
    - exists None, (sv_fwd (cs_rest s)). split; [unfold mbind, M_bind, get; by rewrite E|done].
    - inversion Hacc. exists r, (set_sys_accepts rs (sv_fwd (cs_rest s))). split; [unfold mbind, M_bind, get, put; by rewrite E|].
      split; [done|]. destruct Hf. by split. }
  destruct Hacc as (r & f & E & Hr & Hf). wp_step. apply wp_on_fwd. eapply wp_ok; [exact E|]. set (s1 := set_rest _ s).
  assert (Hs1 : cinv recv_window types srv_inv s1) by (by apply cinv_fwd). clearbody s1. clear s Hs E f Hf.
  destruct r as [[fd [[ip port]|]]|]; [|by apply safe_m_close|done]. rewrite Hty. destruct Hr as [Hip Hipl].
  set (addr := default _ _). assert (Haddr : Forall is_byte addr ∧ zlen addr < U32).
  { unfold addr. destruct (request_listenaddr (l_tcpinfo ln)); [done|]. split; [apply bytes_of_string_bytes|done]. }
  assert (Hop : safe_srv (open_channel recv_window types fd TCPREMOTE (buf_putstring addr (strlen addr);; buf_putint (listenport (l_tcpinfo ln));;
     buf_putstring ip (strlen ip);; buf_putint port))).
  { eapply safe_open_channel; [exact Hrw|exact srv_laws| |by eexists|by apply can_open_plain|apply types_named].
    destruct Haddr. apply writer_seq; [by apply writer_putcstr|]. apply writer_seq; [apply _|].
    apply writer_seq; [by apply writer_putcstr|apply _]. }
  specialize (Hop s1 Hs1). unfold open_channel in Hop. unfold wp, mbind, M_bind in Hop |- *.
  destruct (send_msg_channel_open_init recv_window types fd TCPREMOTE s1) as [[[] s2]| |]; [|by apply safe_log_any|done..]. cbn [when] in Hop.
  destruct (ses_write _ s2) as [[u s3]| |]; [|done..]. by destruct (encrypt_msg s3) as [[]| |].
Qed.
Lemma safe_accept_socks k ln socks fds : listener_ok k ln → safe_srv (accept_socks recv_window types socks ln fds).
Proof.
  intros Hl. induction socks as [|sk socks IH]; [by intros s|]. apply safe_bind'; [|by intros _].
  intros s Hs. apply wp_when; [|done]. intros _. by eapply safe_tcp_acceptor.
Qed.
Lemma safe_listeners_loop l fds : (∀ ln, Some ln ∈ l → ∃ k, listener_ok k ln) → safe_srv (handle_listeners_loop recv_window types l fds).
Proof.
  induction l as [|[ln|] l IH]; intros Hl; [by intros s| |]; cbn [handle_listeners_loop].
  - destruct (Hl ln) as [k Hk]; [by left|]. apply safe_bind'; [by eapply safe_accept_socks|]. intros _. apply IH. intros ln' ?. apply Hl. by right.
  - apply IH. intros ln' ?. apply Hl. by right.
Qed.
Lemma safe_handle_listeners fds : safe_srv (handle_listeners recv_window types fds).
Proof.
  intros s Hs. unfold handle_listeners. wp_step. apply wp_on_fwd. wp_step. replace (set_rest _ s) with s by (destruct s as [? ? ? ? ? ? ? ? ? ? ? ? []]; done).
  apply safe_listeners_loop; [|done]. intros ln [k Hk]%list_elem_of_lookup. exists k. eapply fi_listeners; [|done].
  apply (si_fwd _ _ _ _ _ (ci_client _ _ _ _ Hs)).
Qed.

(** ** Global requests *)
Definition listeners_full f : bool :=
  (free_listener (listeners f) =? length (listeners f))%nat && (zlen (listeners f) >? MAX_LISTENERS).
(** The table has room for a listener. *)
Definition has_room f : Prop :=
  nreq ≠ 0%nat ∧ listeners_full f = false ∧
  (free_listener (listeners f) = length (listeners f) → (S (length (listeners f)) ≤ nreq)%nat).

Lemma free_listener_spec l : (free_listener l ≤ length l)%nat ∧ (free_listener l < length l → l !! free_listener l = Some None)%nat.
Proof. induction l as [|[ln|] l [IH1 IH2]]; cbn; [split; [done|lia]|split; [lia|]|split; [lia|done]]. intros ?. apply IH2. lia. Qed.
Lemma safe_grow_maxfds socks : safe_srv (grow_maxfds socks).
Proof. induction socks as [|sk socks IH]; [by intros s|]. apply safe_bind'; [apply safe_grow_maxfd|by intros _]. Qed.
Lemma wp_read {A B} (m : M buffer A) p (f : A → M cst B) (Q : B → cst → Prop) s : Reader m p → cinv recv_window types srv_inv s →
  (∀ v s' tl, cinv recv_window types srv_inv s' → cs_rest s' = cs_rest s → p (buf_rest (io_payload (cs_io s))) = Some (v, tl) → wp (f v) Q s') →
  wp (ses_payload m ≫= f) Q s.
Proof.
  intros Hr Hs HQ. wp_step. pose proof (ci_io _ _ _ Hs) as (Hp & Hi & Hz). apply (wp_payload_reader m p); [done|done|].
  intros v n b Hn Hnl Hw Hv. eapply HQ; [|done|exact Hv]. apply cinv_io; [done|]. by split.
Qed.
Lemma listen_loop_ok tries socks s : cinv recv_window types srv_inv s →
  wp (listen_loop tries socks) (λ _ s', cinv recv_window types srv_inv s' ∧ cs_rest s' = cs_rest s) s.
Proof.
  revert socks s. induction tries as [|t tries IH]; intros socks s Hs; [done|]. cbn [listen_loop]. wp_step; [|done].
  assert (Hlog : ∀ e, wp (log e;; listen_loop tries socks) (λ _ s', cinv recv_window types srv_inv s' ∧ cs_rest s' = cs_rest s) s).
  { intros e. unfold log. do 2 wp_step. apply (IH _ (set_fd_log (fd_log s ++ [e]) s)). destruct Hs as [[] ?]. by split; [split|]. }
  destruct t; [by apply IH|apply Hlog..|]. unfold grow_maxfd. do 2 wp_step.
  apply (IH _ (set_maxfd (Z.max (maxfd s) sock) s)). destruct Hs as [[] ?]. by split; [split|].
Qed.
Lemma dropbear_listen_ok addr port s : cinv recv_window types srv_inv s →
  fw_ok (FwListen (match addr with Some a => if bool_decide (cstr a = []) then None else Some a | None => None end)
    (match addr with Some _ => true | None => false end) port) →
  wp (dropbear_listen addr port) (λ o s', cinv recv_window types srv_inv s' ∧
    listeners (sv_fwd (cs_rest s')) = listeners (sv_fwd (cs_rest s)) ∧ match o with Some socks => socks ≠ [] | None => True end) s.
Proof.
  intros Hs He. unfold dropbear_listen. wp_step. apply wp_on_fwd. unfold fwlog. wp_step. set (e := FwListen _ _ _) in *.
  pose proof (si_fwd _ _ _ _ _ (ci_client _ _ _ _ Hs)) as Hf. pose proof (fwlog_keeps e He _ Hf) as Hf1. unfold fwlog in Hf1.
  set (f1 := set_fw_log _ _). assert (Hs1 : cinv recv_window types srv_inv (set_rest (set_sv_fwd f1 (cs_rest s)) s)) by (by apply cinv_fwd).
  wp_step. apply wp_on_fwd. unfold sys_listen. do 2 wp_step. cbn [sv_fwd set_sv_fwd cs_rest set_rest sys_listens f1 set_fw_log].
  destruct (sys_listens (sv_fwd (cs_rest s))) as [|r rs]; [done|]. do 3 wp_step.
  set (s2 := set_rest _ _). assert (Hs2 : cinv recv_window types srv_inv s2) by (apply (cinv_fwd _ _ Hs1); destruct Hf1; by split).
  destruct r as [tries|]; [|done]. wp_step. eapply wp_mono; [by apply listen_loop_ok|]. intros socks s3 [Hs3 Hr3]. wp_step.
  split; [done|]. split; [by rewrite Hr3|]. by case_bool_decide.
Qed.
Lemma new_listener_ok socks ty info s : cinv recv_window types srv_inv s → has_room (sv_fwd (cs_rest s)) →
  (∀ k, listener_ok k (mkListener socks k ty info)) →
  wp (new_listener socks ty info) (λ o s', cinv recv_window types srv_inv s' ∧
    ∃ k, o = Some k ∧ listeners (sv_fwd (cs_rest s')) !! k = Some (Some (mkListener socks k ty info))) s.
Proof.
  intros Hs (Hn & Hfull & Hroom) Hok. unfold new_listener. wp_step. apply wp_on_fwd. wp_step. replace (set_rest _ s) with s by (destruct s as [? ? ? ? ? ? ? ? ? ? ? ? []]; done).
  unfold listeners_full in Hfull. rewrite Hfull. set (i := free_listener _) in *. wp_step.
  pose proof (si_fwd _ _ _ _ _ (ci_client _ _ _ _ Hs)) as Hf. destruct (free_listener_spec (listeners (sv_fwd (cs_rest s)))) as [H1 H2]. fold i in H1, H2.
  apply (wp_mono _ (λ _ s', cinv recv_window types srv_inv s' ∧ listeners (sv_fwd (cs_rest s')) !! i = Some None)).
  - apply wp_when; intros E.
    + apply wp_on_fwd. wp_step. split.
      * apply Nat.eqb_eq in E. apply cinv_fwd; [done|]. destruct Hf. split; try done; cbn.
        -- intros k ln [Hk|[_ Hk]]%lookup_app_Some; [by eauto|]. by destruct (k - _)%nat as [|[]].
        -- rewrite length_app. cbn. specialize (Hroom E). lia.
      * cbn. apply Nat.eqb_eq in E. rewrite lookup_app_r by lia. by rewrite E, Nat.sub_diag.
    + split; [done|]. apply H2. apply Nat.eqb_neq in E. lia.
  - intros _ s1 [Hs1 Hi1]. wp_step. apply (wp_mono _ (λ _ s', cinv recv_window types srv_inv s' ∧ cs_rest s' = cs_rest s1)).
    { clear - Hs1. assert (H : cinv recv_window types srv_inv s1 ∧ cs_rest s1 = cs_rest s1) by done. revert H. generalize s1 at 1 2 5.
      induction socks as [|sk socks IH]; intros s2 [Hs2 Hr2]; [done|]. cbn [grow_maxfds]. unfold grow_maxfd at 1. do 2 wp_step.
      apply IH. destruct Hs2 as [[] ?]. by split; [split; [split|]|]. }
    intros _ s2 [Hs2 Hr2]. wp_step. apply wp_on_fwd. do 2 wp_step. rewrite Hr2.
    pose proof (si_fwd _ _ _ _ _ (ci_client _ _ _ _ Hs1)) as Hf1. split.
    + rewrite <- Hr2. apply cinv_fwd; [done|]. rewrite Hr2. destruct Hf1. split; try done; [cbn; intros k ln|cbn; by rewrite length_insert]. destruct (decide (k = i)) as [->|Hne].
      * rewrite list_lookup_insert_eq by (by eapply lookup_lt_Some). intros [= <-]. apply Hok.
      * rewrite list_lookup_insert_ne by done. by eauto.
    + exists i. split; [done|]. cbn. apply list_lookup_insert_eq. by eapply lookup_lt_Some.
Qed.
Lemma p_string_bytes l v tl : Forall is_byte l → p_string l = Some (v, tl) → Forall is_byte v ∧ zlen v < U32.
Proof.
  intros Hb. unfold p_string, p_bind. destruct (p_int l) as [[n l1]|] eqn:E; [|done]. cbn [mbind option_bind].
  pose proof (p_int_range _ _ _ E). apply p_int_inv in E; [|done]. subst l. apply Forall_app in Hb as [_ Hb].
  destruct (_ >? _) eqn:Eg; [done|]. unfold p_bytes. case_if; [|done]. intros [= <- <-]. split; [by apply Forall_take|].
  rewrite length_take. lia.
Qed.
Lemma remotetcpreq_ok s : cinv recv_window types srv_inv s → has_room (sv_fwd (cs_rest s)) →
  noremotetcp cfg = false → svr_pubkey_allows_tcpfwd (fwd_key_options cfg) = true →
  wp (svr_remotetcpreq cfg TCPREMOTE) (λ _ s', cinv recv_window types srv_inv s') s.
Proof.
  intros Hs Hfull Hno Hal. unfold svr_remotetcpreq. eapply wp_read; [apply _|done|]. intros addr s1 tl Hs1 Hr1 Hp.
  apply p_string_bytes in Hp; [|apply buf_rest_bytes, (ci_io _ _ _ Hs)]. apply wp_if; intros Hal1; [done|].
  eapply wp_read; [apply _|done|]. intros port s2 tl2 Hs2 Hr2 Hp2%p_int_range. rewrite Hr1 in Hr2.
  apply wp_if; intros Hport; [done|]. apply wp_if; intros Hpriv; [done|]. match goal with |- context [mkTcp None 0 ?a _ _ _] => set (la := a) end. set (info := mkTcp _ _ _ _ _ _).
  wp_step. unfold listen_tcpfwd. wp_step. eapply wp_mono; [apply dropbear_listen_ok; [done|]|].
  { cbn. split_and!; [done..| |].
    - intros E. subst la. rewrite E. done.
    - destruct (Z.eqb_spec port 0); [by left|]. right. cbn in Hport, Hpriv. apply orb_false_iff in Hport as [? ?].
      split; [lia|]. intros E. rewrite E in Hpriv. cbn in Hpriv. lia. }
  intros o s3 (Hs3 & Hl3 & Ho). destruct o as [socks|]; [|done].
  eapply wp_mono; [apply new_listener_ok; [done| |]|].
  - rewrite <- Hr2 in Hfull. unfold has_room, listeners_full in *. by rewrite Hl3.
  - intros k. split_and!; [done..|]. cbn. done.
  - intros r s4 (Hs4 & k & -> & Hk). wp_step. apply wp_on_fwd. wp_step. replace (set_rest _ s4) with s4 by (destruct s4 as [? ? ? ? ? ? ? ? ? ? ? ? []]; done).
    rewrite Hk. cbn [l_socks]. destruct socks as [|sk socks]; [done|]. wp_step. apply wp_on_fwd. do 2 wp_step. apply cinv_fwd; [done|].
    pose proof (si_fwd _ _ _ _ _ (ci_client _ _ _ _ Hs4)) as []. split; try done; [cbn; intros k' ln|cbn; by rewrite length_insert|cbn; intros E0; by destruct Hfull]. destruct (decide (k' = k)) as [->|Hne].
    + rewrite list_lookup_insert_eq by (by eapply lookup_lt_Some). intros [= <-]. apply fi_listeners0 in Hk as (? & ? & ? & ?). by split_and!.
    + rewrite list_lookup_insert_ne by done. by eauto.
Qed.
Lemma safe_reply w ok : safe_srv (reply_global w ok).
Proof.
  unfold reply_global. intros s Hs. apply wp_when; [|done]. intros _. destruct ok; (eapply wp_send; [by apply writer_putbyte|done..|]);
    intros io' Hio'; by apply cinv_io.
Qed.
(** ** The callbacks of the server *)
Lemma srv_callbacks : callbacks_ok recv_window types (handle_listeners recv_window types) srv_inv.
Proof.
  assert (Ht : ∀ ty t, types !! ty = Some t → (ty, t) = (0%nat, svrchansess scfg) ∨ (ty, t) = (1%nat, svr_chan_tcpdirect cfg) ∨ (ty, t) = (2%nat, svr_chan_tcpremote)).
  { intros [|[|[|ty]]] t E; [injection E as <-..|done]; auto. }
  assert (Hs : types !! 0%nat = Some (svrchansess scfg)) by done.
  assert (Hopen : ∀ (ty : nat) i s, ty ≠ SESS → fresh recv_window types srv_inv ty i s → cinv recv_window types srv_inv s ∧ idle_as ty i s).
  { intros ty i s Hty. by apply fresh_open, can_open_plain. }
  split; [apply srv_laws|..].
  - intros ty t h i s [[= -> ->]|[[= -> ->]|[= -> ->]]]%Ht [= <-] Hf; [by apply init_ok|..]; apply Hopen in Hf as [? ?]; try done;
      [by apply newtcpdirect_ok|apply safe_tcp_prio; [done|by apply idle_present]].
  - intros ty t h i s [[= -> ->]|[[= -> ->]|[= -> ->]]]%Ht [= <-] Hs' Hi;
      [apply safe_reinit; [done|by apply idle_present]|by apply newtcpdirect_ok|apply safe_tcp_prio; [done|by apply idle_present]].
  - intros ty t h i [[= -> ->]|[[= -> ->]|[= -> ->]]]%Ht [= <-]. by apply safe_check.
  - intros ty t h i [[= -> ->]|[[= -> ->]|[= -> ->]]]%Ht [= <-]. by apply safe_request.
  - intros ty t h i [[= -> ->]|[[= -> ->]|[= -> ->]]]%Ht [= <-]. by apply safe_close.
  - intros ty t h i s [[= -> ->]|[[= -> ->]|[= -> ->]]]%Ht [= <-]. by apply cleanup_ok.
  - apply safe_handle_listeners.
Qed.
End fwd_safe.

(** ** Global requests *)
Definition is_request (name : string) (p : buffer) : bool :=
  match p_string (buf_rest p) with Some (r, _) => strcmp_eq (bytes_of_string name) r | None => false end.
Definition is_forward := is_request "tcpip-forward".
Definition is_cancel := is_request "cancel-tcpip-forward".
Section requests.
Variable scfg : sess_cfg.
Variable cfg : fwd_cfg.
Variable recv_window : Z.
Abbreviation TCPREMOTE := 2%nat.
Abbreviation inv n := (cinv recv_window (svr_types scfg cfg) (sess_inv (fwd_inv cfg n) scfg 0)).

Lemma inv_more n s : inv n s → inv (S n) s.
Proof. intros [? []]. split; [done|]. split; try done. by apply fwd_inv_more. Qed.
Lemma room_for_next n f : fwd_inv cfg n f → Z.of_nat n ≤ MAX_LISTENERS → has_room (S n) f.
Proof.
  intros [_ Hsize Hfirst _ _] Hn. unfold MAX_LISTENERS, has_room, listeners_full in *. split; [done|].
  assert (Hz : free_listener (listeners f) = length (listeners f) → n ≠ 0%nat) by (intros E ->; by rewrite (Hfirst eq_refl) in E).
  destruct (Nat.eqb_spec (free_listener (listeners f)) (length (listeners f))) as [E|E]; [|done]. specialize (Hz E).
  split; [|intros _; lia]. cbn [andb]. rewrite Z.gtb_ltb. apply Z.ltb_ge. unfold MAX_LISTENERS. lia.
Qed.
(** A global request other than to cancel, after [n] requests to forward and
    with room for one more. *)
Lemma global_request_ok n s (p := io_payload (cs_io s)) : inv n s → is_cancel p = false →
  (is_forward p = true → Z.of_nat n ≤ MAX_LISTENERS) →
  wp (recv_msg_global_request_remotetcp cfg TCPREMOTE) (λ _ s', inv (if is_forward p then S n else n) s') s.
Proof.
  intros Hs Hc Hn. unfold recv_msg_global_request_remotetcp, is_cancel, is_forward, is_request in *. unfold p in *. clear p.
  set (b := match p_string _ with Some (r, _) => strcmp_eq (bytes_of_string "tcpip-forward") r | None => false end) in *.
  assert (Hany : ∀ (b : bool) s, inv n s → inv (if b then S n else n) s) by (intros [] ??; [by apply inv_more|done]).
  assert (Hrep : ∀ w ok s, inv n s → wp (reply_global w ok) (λ _ s', inv (if b then S n else n) s') s).
  { intros w ok s0 Hs0. eapply wp_mono; [by apply safe_reply|]. intros [] s'. by apply Hany. }
  apply wp_if; intros Hen; [by apply Hrep|]. apply orb_false_iff in Hen as [Hno Hal%negb_false_iff].
  eapply wp_read; [apply _|done|]. intros name s1 tl Hs1 Hr1 Hp. rewrite Hp in Hc. rewrite Hc. subst b. rewrite Hp in *.
  eapply wp_read; [apply _|done|]. intros w s2 tl2 Hs2 Hr2 _. rewrite Hr1 in Hr2. apply wp_if; intros _; [by apply Hrep|].
  apply wp_if; intros Hfwd; [|by apply Hrep]. rewrite Hfwd in *. specialize (Hn eq_refl).
  assert (Hroom : has_room (S n) (sv_fwd (cs_rest s2))) by (apply room_for_next; [apply (si_fwd _ _ _ _ _ (ci_client _ _ _ _ Hs2))|done]).
  wp_step. eapply wp_mono; [by apply remotetcpreq_ok; [apply inv_more|..]|]. intros [m|] s3 Hs3; [|by apply safe_reply].
  eapply wp_send; [apply writer_seq; [by apply writer_putbyte|apply _]|done..|]. intros io' Hio'. by apply cinv_io.
Qed.
End requests.

(** ** What the two excepted requests do *)
Lemma matchtcp_unset info1 info2 f b f' : tl_chantype info1 = None → matchtcp info1 info2 f = Ok (b, f') → b = false ∧ f' = f.
Proof. unfold matchtcp. intros ->. destruct (negb _); [|done]. by intros [= <- <-]. Qed.
Lemma get_listener_unset n ln ty info f o f' : tl_chantype info = None → get_listener_loop n ln ty info f = Ok (o, f') → o = None ∧ f' = f.
Proof.
  intros Hi. revert f. induction n as [|n IH]; intros f; cbn [get_listener_loop]; [by intros [= <- <-]|]. destruct ln as [ln|]; [|done].
  intros (b & f1 & Hm & Hr)%bind_inv. assert (b = false ∧ f1 = f) as [-> ->].
  { destruct (l_type ln =? ty); [by eapply matchtcp_unset|]. by injection Hm as <- <-. }
  by apply IH.
Qed.
(** A forwarding cannot be cancelled: the search compares with a [chantype]
    that was never set, so no run of [svr_cancelremotetcp] succeeds, in any
    state and for any payload. *)
Theorem cancel_never_succeeds s s' : svr_cancelremotetcp s ≠ Ok (true, s').
Proof.
  unfold svr_cancelremotetcp. intros (addr & s1 & _ & H)%bind_inv. destruct (zlen addr >? MAX_IP_LEN); [done|].
  apply bind_inv in H as (port & s2 & _ & H). apply bind_inv in H as (o & s3 & Ho & H).
  assert (o = None) as ->; [|done]. unfold on_fwd, on_svr, zoom, get_listener, get in Ho. unfold mbind, M_bind in Ho.
  destruct (listeners (sv_fwd (cs_rest s2))) as [|ln ls]; [done|].
  destruct (get_listener_loop _ ln _ _ _) as [[o' f']| |] eqn:E; [|done..]. injection Ho as <- _. by eapply get_listener_unset in E as [-> _].
Qed.
(** With no forwarding in the first slot of the table, which is how a session
    starts, the search follows a null pointer. *)
Theorem cancel_crashes s addr port tl : buf_wf (io_payload (cs_io s)) → zlen addr ≤ MAX_IP_LEN → 0 ≤ port < U32 →
  buf_rest (io_payload (cs_io s)) = STORE32H (zlen addr) ++ addr ++ STORE32H port ++ tl →
  head (listeners (sv_fwd (cs_rest s))) = Some None → svr_cancelremotetcp s = UB "null listener".
Proof.
  intros Hw Ha Hport Hrest Hl. unfold svr_cancelremotetcp.
  destruct (run_payload buf_getstring p_string s addr (STORE32H port ++ tl)) as (b1 & Hb1 & Hr1 & E1); [apply _|exact Hw| |].
  { etransitivity; [exact (f_equal p_string Hrest)|]. apply p_string_app. unfold MAX_IP_LEN, MAX_STRING_LEN in *. lia. }
  rewrite (bind_ok _ _ _ _ _ E1). set (s1 := set_io _ _). destruct (Z.gtb_spec (zlen addr) MAX_IP_LEN); [lia|].
  destruct (run_payload buf_getint p_int s1 port tl) as (b2 & Hb2 & Hr2 & E2); [apply _|exact Hb1| |].
  { etransitivity; [exact (f_equal p_int Hr1)|]. by apply p_int_app. }
  rewrite (bind_ok _ _ _ _ _ E2). unfold on_fwd, on_svr, zoom, get_listener, get, mbind, M_bind. cbn [cs_rest sv_fwd set_io cses_has_io io_set_payload get_io s1].
  destruct (listeners (sv_fwd (cs_rest s))) as [|[ln|] ls]; [done..|]. reflexivity.
Qed.
(** One forwarding more than the table of listeners takes: the sockets are
    closed with the number of listeners as index, outside the array. *)
Theorem listeners_overrun socks ty info s : listeners_full (sv_fwd (cs_rest s)) = true → socks ≠ [] →
  new_listener socks ty info s = UB "socks".
Proof.
  intros Hf Hs. unfold new_listener. erewrite bind_ok by (unfold on_fwd, on_svr, zoom, get; reflexivity). unfold listeners_full in Hf. rewrite Hf.
  destruct socks as [|sk socks]; [done|]. cbn [length close_socks]. unfold sock_at.
  apply andb_true_iff in Hf as [H1%Nat.eqb_eq H2]. rewrite H1.
  destruct (Z.ltb_spec (zlen (listeners (sv_fwd (cs_rest s)))) DROPBEAR_MAX_SOCKS); [|done]. unfold DROPBEAR_MAX_SOCKS, MAX_LISTENERS in *. lia.
Qed.
