(* ===== verification/Server.v ===== *)
(** * The server's connection protocol as a whole

    What one turn of the main loop ([session_loop] of [common-session.c]) does
    to the channels, the sessions and the forwarding, and what holds for any
    number of turns: memory safety, and that the restrictions put on a key are
    enforced. *)
From S2P Require Import Prelude Ssh Buffer BufferProps CircBuffer Packet Session Algo Channel ChannelProps ChannelSafe AuthKeys.
From S2P Require Import ChanSess ChanSessSafe ChanSessProps Forward ForwardSafe.

Abbreviation cst := (@cses nat (@svr fwd)).

(** A packet the dispatcher gives to this part of the server. *)
Inductive svr_packet :=
| PkChannel (h : chan_handler) (p : buffer)
| PkGlobal (p : buffer).
(** What a turn of the loop sees: the signal pipe, a packet, the connections in
    progress, by number, that are there (with a socket) or have failed, and the
    descriptors that are ready. *)
Record turn := mkTurn {
  tn_signal : bool;
  tn_packet : option svr_packet;
  tn_connects : list (bool * Z * Z);
  tn_readfds : list Z;
  tn_writefds : list Z
}.

Section server.
Variable scfg : sess_cfg.
Variable cfg : fwd_cfg.
Variable recv_window : Z.
Abbreviation types := (svr_types scfg cfg).
Abbreviation TCPREMOTE := 2%nat.

(** [chaninitialise], with [listeners_initialise], and
    [svr_chansessinitialise]. *)
Definition server_start : M cst () :=
  chaninitialise;;
  on_fwd listeners_initialise;;
  on_svr svr_chansessinitialise.
Definition run_types (es : list (@chan_event nat (@svr fwd))) : M cst () :=
  run_events recv_window types svr_chantypes (handle_listeners recv_window types) es.
(** [process_packet] for a packet of the connection protocol. *)
Definition server_packet (p : option svr_packet) : M cst () :=
  match p with
  | None => mret tt
  | Some (PkChannel h p) => run_types [EvPacket h p]
  | Some (PkGlobal p) => ses_payload (put p);; recv_msg_global_request_remotetcp cfg TCPREMOTE
  end.
(** The turn, in the order of [session_loop]. *)
Definition server_turn (t : turn) : M cst () :=
  signal_pending (tn_signal t);;
  server_packet (tn_packet t);;
  run_types ((λ c, EvConnect c.1.1 c.1.2 c.2) <$> tn_connects t);;
  svr_chansess_checksignal;;
  run_types [EvIo (tn_readfds t) (tn_writefds t)].
Fixpoint server_turns (ts : list turn) : M cst () :=
  match ts with [] => mret tt | t :: ts => server_turn t;; server_turns ts end.
(** [session_cleanup]. *)
Definition server_cleanup : M cst () := chancleanup types;; remove_all_listeners;; remove_connect_pending.

(** No request to cancel a forwarding: the server does not survive it
    ([cancel_crashes]). *)
Definition packet_ok (p : svr_packet) : Prop :=
  match p with PkChannel _ p => buf_wf p | PkGlobal p => buf_wf p ∧ is_cancel p = false end.
Definition turn_ok (t : turn) : Prop :=
  match tn_packet t with Some p => packet_ok p | None => True end ∧ Forall (λ c, 0 ≤ c.2) (tn_connects t).
(** Requests to forward.  The table takes [MAX_LISTENERS + 1]; with one more
    the server does not survive ([listeners_overrun]). *)
Definition forwards (t : turn) : nat :=
  match tn_packet t with Some (PkGlobal p) => if is_forward p then 1 else 0 | _ => 0 end.
Definition all_forwards (ts : list turn) : nat := sum_list (forwards <$> ts).
(** The state of the session before [server_start].  [ptsname] names every
    terminal that was granted and unlocked: without a name the server does not
    survive ([pty_unnamed]). *)
Record start_ok (s : cst) : Prop := {
  so_io : io_ok (cs_io s);
  so_reads : rd_ok (fd_reads s);
  so_conns : pending_conns s = [];
  so_heap : heap (cs_rest s) = [];
  so_log : sys_log (cs_rest s) = [];
  so_fwlog : fw_log (sv_fwd (cs_rest s)) = [];
  so_ptys : Forall pty_named (sys_ptys (cs_rest s));
  so_accepts : Forall accept_ok (sys_accepts (sv_fwd (cs_rest s)))
}.
Hypothesis Hrw : 0 < recv_window ≤ MAX_CBUF_SIZE.
Abbreviation inv n := (cinv recv_window types (sess_inv (fwd_inv cfg n) scfg 0)).

Lemma server_start_inv s : start_ok s → wp server_start (λ _ s', inv 0 s') s.
Proof.
  intros [So1 So2 So8 So3 So4 So5 So6 So7]. unfold server_start, chaninitialise, on_fwd, on_svr, listeners_initialise, svr_chansessinitialise. do 2 wp_step.
  wp_step. do 3 wp_step. wp_step. wp_step. split; [split; try done|split; cbn; try done].
  - by intros [|[|j]] c Hj.
  - cbn; rewrite So8. split; [done|by intros [|[|j]]..].
  - by intros [|[|k]] td Hk.
  - by intros [|[|k]] ty p Hk.
  - by intros [|[|k]] k' p Hk.
  - by repeat constructor.
  - intros p cs Hp. rewrite So3 in Hp. by destruct p.
  - by left.
  - by rewrite So4.
  - split; cbn; [by intros [|[|k]] ln Hk|done|done|done|by rewrite So5].
Qed.
Lemma run_types_safe n es : Forall (event_ok recv_window types (sess_inv (fwd_inv cfg n) scfg 0)) es →
  safe recv_window types (sess_inv (fwd_inv cfg n) scfg 0) (run_types es).
Proof. apply events_safe; [done|repeat constructor; by eexists|apply types_named|by apply srv_callbacks]. Qed.
Lemma packet_safe n t s : inv n s → turn_ok t → Z.of_nat (n + forwards t) ≤ MAX_LISTENERS + 1 →
  wp (server_packet (tn_packet t)) (λ _ s', inv (n + forwards t) s') s.
Proof.
  intros Hs [Hp _]. unfold forwards. destruct (tn_packet t) as [[h p|p]|]; cbn [server_packet]; rewrite ?Nat.add_0_r; intros Hn; [|destruct Hp as [Hp Hc]|done].
  - apply run_types_safe; [by apply Forall_singleton|done].
  - wp_step. apply wp_ses_payload. wp_step. pose proof (ci_io _ _ _ Hs) as (_ & ? & ?).
    eapply wp_mono; [apply (global_request_ok scfg cfg recv_window n)|].
    + apply cinv_io; [done|]. by split.
    + done.
    + intros E. change (is_forward p = true) in E. rewrite E in Hn. unfold MAX_LISTENERS in *. lia.
    + intros [] s'. change (io_payload (cs_io (set_io _ s))) with p. destruct (is_forward p); rewrite ?Nat.add_0_r, ?Nat.add_1_r; done.
Qed.
Lemma turn_safe n t s : inv n s → turn_ok t → Z.of_nat (n + forwards t) ≤ MAX_LISTENERS + 1 →
  wp (server_turn t) (λ _ s', inv (n + forwards t) s') s.
Proof.
  intros Hs Ht Hn. unfold server_turn. wp_step. eapply wp_mono; [by apply safe_signal_pending|]. intros [] s1 Hs1.
  wp_step. eapply wp_mono; [by apply packet_safe|]. intros [] s2 Hs2.
  wp_step. eapply wp_mono; [apply run_types_safe; [apply Forall_fmap, (proj2 Ht)|done]|]. intros [] s3 Hs3.
  wp_step. eapply wp_mono; [by apply safe_checksignal|]. intros [] s4 Hs4. apply run_types_safe; [by apply Forall_singleton|done].
Qed.
Lemma turns_safe ts n s : inv n s → Forall turn_ok ts → Z.of_nat (n + all_forwards ts) ≤ MAX_LISTENERS + 1 →
  wp (server_turns ts) (λ _ s', inv (n + all_forwards ts) s') s.
Proof.
  intros Hs Hts. revert n s Hs. induction Hts as [|t ts Ht Hts IH]; intros n s Hs; cbn [server_turns];
    [unfold all_forwards; cbn; by rewrite Nat.add_0_r|].
  change (all_forwards (t :: ts)) with (forwards t + all_forwards ts)%nat. rewrite Nat.add_assoc. intros Hn.
  wp_step. eapply wp_mono; [apply turn_safe; [done|done|lia]|]. intros [] s1 Hs1. by apply IH.
Qed.

Definition listeners_at (f : fwd) : Prop := ∀ k ln, listeners f !! k = Some (Some ln) → l_index ln = k.
Lemma remove_listeners_ok n k (s : cst) : listeners_at (sv_fwd (cs_rest s)) →
  wp (remove_listeners n k) (λ _ s', listeners_at (sv_fwd (cs_rest s')) ∧ channels s' = channels s) s.
Proof.
  revert k s. induction n as [|n IH]; intros k s Hf; [done|]. cbn [remove_listeners]. wp_step. apply wp_on_fwd. do 2 wp_step.
  apply (wp_mono _ (λ _ s', listeners_at (sv_fwd (cs_rest s')) ∧ channels s' = channels s)).
  - destruct (listeners _ !! k) as [[ln|]|] eqn:E; [|done..]. unfold remove_listener. wp_step. apply wp_on_fwd. wp_step. cbn in *. rewrite E.
    unfold close_all. do 2 wp_step. apply wp_on_fwd. wp_step. cbn. split; [|done]. intros k' ln'. cbn. destruct (decide (k' = l_index ln)) as [->|]; [|rewrite list_lookup_insert_ne by done; by eauto].
    rewrite (Hf _ _ E). by rewrite list_lookup_insert_eq by (by eapply lookup_lt_Some).
  - intros _ s1 [Hf1 Hc1]. eapply wp_mono; [by apply IH|]. intros _ s2 [? ?]. split; [done|]. congruence.
Qed.
Lemma server_cleanup_ok n s : inv n s → wp server_cleanup (λ _ s', channels s' = [] ∧ listeners (sv_fwd (cs_rest s')) = [] ∧ Forall (.= ConnFreed) (pending_conns s')) s.
Proof.
  intros Hs. unfold server_cleanup. wp_step. eapply wp_mono; [by apply (cleanup_safe recv_window types (handle_listeners recv_window types) _ (srv_callbacks scfg cfg recv_window Hrw n))|].
  intros [] s' (s1 & Hs1 & ->). wp_step. unfold remove_all_listeners. wp_step. apply wp_on_fwd. do 2 wp_step.
  eapply wp_mono; [apply remove_listeners_ok; intros k ln Hk; eapply (fi_listeners _ _ _ (si_fwd _ _ _ _ _ (ci_client _ _ _ _ Hs1))), Hk|]. intros [] s2 [_ Hc]. apply wp_on_fwd. wp_step. unfold remove_connect_pending. wp_step. split_and!; [done..|]. cbn. by apply Forall_fmap, Forall_true.
Qed.

(** C3. The server's connection protocol is memory safe and shuts down cleanly.
    For every configuration, every number of turns of the main loop with any
    packets for the channel handlers and any global requests, any terminals,
    children, signals, exit statuses, accepted connections, connections in
    progress that succeed or fail at any time, before or after the client has
    closed their channel, any ready descriptors and results of the system
    calls: no channel, session, listener or connection is used after it was
    removed (a callback does not run for a channel that is gone), no null
    pointer is followed, no buffer is left, every loop ends; afterwards the
    channels satisfy their invariant, every session channel has a session of
    its own in the heap, every entry of the table of children belongs to a
    session channel, and a connection in progress belongs to the channel that
    waits for it; and ending the session then closes every channel and listener
    and frees every connection.  Three things are excepted, because the server
    does not survive them: a request to cancel a forwarding
    ([cancel_crashes]), more than [MAX_LISTENERS + 1] requests to forward
    ([listeners_overrun]), and a terminal for which [ptsname] has no name
    ([pty_unnamed]). *)
Theorem server_session_safe ts s : start_ok s → Forall turn_ok ts → Z.of_nat (all_forwards ts) ≤ MAX_LISTENERS + 1 →
  wp (server_start;; server_turns ts) (λ _ s', inv (all_forwards ts) s' ∧
    wp server_cleanup (λ _ s'', channels s'' = [] ∧ listeners (sv_fwd (cs_rest s'')) = [] ∧ Forall (.= ConnFreed) (pending_conns s'')) s') s.
Proof.
  intros Hs Hts Hn. wp_step. eapply wp_mono; [by apply server_start_inv|]. intros [] s1 Hs1. eapply wp_mono; [by apply (turns_safe ts 0)|].
  intros [] s2 Hs2. split; [done|]. by eapply server_cleanup_ok.
Qed.

(** C7. Restrictions are enforced.  In every session as above, with the same
    three exceptions, whatever the
    client asks for: a child executes the user's shell, and when a command is
    forced, by the server's options or by the key the client logged in with,
    with exactly this command ([scp] and [rsync] are the application's); no terminal is allocated for a key that has
    "no-pty"; a listener is set up only if the options and the key allow
    forwarding, on the loopback interface unless listening on all interfaces
    was asked for, and on an allowed port; a connection is made only if
    forwarding is allowed. *)
Theorem restrictions_enforced ts s : start_ok s → Forall turn_ok ts → Z.of_nat (all_forwards ts) ≤ MAX_LISTENERS + 1 →
  wp (server_start;; server_turns ts) (λ _ s',
    (∀ n im f, SysFork n (ChildExec im) ∈ sys_log (cs_rest s') →
       im_path im = get_user_shell scfg ∧
       (forced scfg = Some f → im_argv im = [basename (get_user_shell scfg); bytes_of_string "-c"; own_command scfg (cstr f)])) ∧
    (SysPty ∈ sys_log (cs_rest s') → svr_pubkey_allows_pty (key_options scfg) = true) ∧
    (∀ addr passive port, FwListen addr passive port ∈ fw_log (sv_fwd (cs_rest s')) →
       noremotetcp cfg = false ∧ svr_pubkey_allows_tcpfwd (fwd_key_options cfg) = true ∧
       (listen_fwd_all cfg = false → addr = None ∧ passive = false) ∧
       (port = 0 ∨ 1 ≤ port ≤ 65535 ∧ (allowprivport cfg = false → IPPORT_RESERVED ≤ port))) ∧
    (∀ conn host port, FwConnect conn host port ∈ fw_log (sv_fwd (cs_rest s')) →
       nolocaltcp cfg = false ∧ svr_pubkey_allows_tcpfwd (fwd_key_options cfg) = true ∧ zlen host ≤ MAX_HOST_LEN ∧ 0 ≤ port ≤ 65535)) s.
Proof.
  intros Hs Hts Hn. wp_step. eapply wp_mono; [by apply server_start_inv|]. intros [] s1 Hs1. eapply wp_mono; [by apply (turns_safe ts 0)|].
  intros [] s2 Hs2. pose proof (ci_client _ _ _ _ Hs2) as Hi. pose proof (si_log _ _ _ _ _ Hi) as Hlog.
  pose proof (fi_log _ _ _ (si_fwd _ _ _ _ _ Hi)) as Hfw. rewrite Forall_forall in Hlog; rewrite Forall_forall in Hfw. split_and!.
  - intros n im f [Hp Hf]%Hlog. split; [done|]. intros E. by rewrite (Hf f E).
  - by intros H%Hlog.
  - by intros addr passive port H%Hfw.
  - by intros conn host port H%Hfw.
Qed.
End server.

(** ** A session with a forced command *)
Definition wit_scfg : sess_cfg :=
  mkCfg None (Some (mkPko false false false true (Some (bytes_of_string "uptime")))) (bytes_of_string "/lib") false None
    (Some (bytes_of_string "10.0.0.2", bytes_of_string "2222", bytes_of_string "10.0.0.1", bytes_of_string "40000"))
    (bytes_of_string "user") (bytes_of_string "/home") (bytes_of_string "/system/bin/sh") [].
Definition wit_fcfg : fwd_cfg := mkFwdCfg false false None false true (λ _, 8080).
Definition wit_svr : @svr fwd :=
  mkSvr [] [] (mkExit 0 0 0 0) [Some (5, 6); Some (7, 8); Some (9, 10)] [Forked 1234 (mkChildSys true true true true true)] [] [] []
    [(1234, 256)] [] (mkFwd [] [] [] []).
Definition wit_start : cst := mkCses wit_io [] 0 true 3 DROPBEAR_PRIO_DEFAULT 4 false [] [] [] [] wit_svr.
Definition payload_of (l : list Z) : buffer := mkBuf l (zlen l) 1 (zlen l).
Definition msg_string (l : list Z) : list Z := STORE32H (zlen l) ++ l.
Definition open_session : buffer :=
  payload_of ([SSH_MSG_CHANNEL_OPEN] ++ msg_string (bytes_of_string "session") ++ STORE32H 3 ++ STORE32H 1000 ++ STORE32H 64).
Definition session_req (name : string) (want : Z) (rest : list Z) : buffer :=
  payload_of ([SSH_MSG_CHANNEL_REQUEST] ++ STORE32H 0 ++ msg_string (bytes_of_string name) ++ [want] ++ rest).
Definition packet_turn (h : chan_handler) (p : buffer) : turn := mkTurn false (Some (PkChannel h p)) [] [] [].
(** The client opens a session, asks for a terminal and for the command "id";
    the child ends with status 1. *)
Definition wit_turns : list turn :=
  [packet_turn HOpen open_session;
   packet_turn HRequest (session_req "pty-req" 1 (msg_string (bytes_of_string "xterm")));
   packet_turn HRequest (session_req "exec" 1 (msg_string (bytes_of_string "id")));
   mkTurn true None [] [] []].
Definition wit_result : option (list (Z * list (list Z)) * list (list Z)) :=
  match (server_start;; server_turns wit_scfg wit_fcfg 24 wit_turns) wit_start with
  | Ok (_, s) =>
      Some (omap (λ e, match e with SysFork n (ChildExec im) => Some (n, im_argv im) | _ => None end) (sys_log (cs_rest s)),
            io_sent (cs_io s))
  | _ => None
  end.
Lemma wit_start_ok : start_ok wit_start.
Proof. split; [apply wit_io_ok|constructor|done|done|done|done|constructor|constructor]. Qed.
Lemma payload_of_wf l : Forall is_byte l → 1 ≤ zlen l ≤ BUF_MAX_SIZE → buf_wf (payload_of l).
Proof. intros Hl Hz. split; cbn; [lia..|done|done]. Qed.
Lemma wit_turns_ok : Forall turn_ok wit_turns.
Proof.
  assert (Hb : ∀ l, bool_decide (Forall is_byte l ∧ 1 ≤ zlen l ≤ 1000) = true → buf_wf (payload_of l)).
  { intros l [? ?]%bool_decide_eq_true_1. apply payload_of_wf; [done|unfold BUF_MAX_SIZE; lia]. }
  repeat (constructor; [split; [|done]|]); [apply Hb; by vm_compute..|done|done].
Qed.
(** The session is opened, the terminal refused, the command accepted; the
    child runs the forced command, and its status is sent. *)
Lemma wit_run : wit_result =
  Some ([(1234, [bytes_of_string "sh"; bytes_of_string "-c"; bytes_of_string "uptime"])],
        [[SSH_MSG_CHANNEL_OPEN_CONFIRMATION] ++ STORE32H 3 ++ STORE32H 0 ++ STORE32H 24 ++ STORE32H RECV_MAX_CHANNEL_DATA_LEN;
         [SSH_MSG_CHANNEL_FAILURE] ++ STORE32H 3; [SSH_MSG_CHANNEL_SUCCESS] ++ STORE32H 3; [SSH_MSG_CHANNEL_EOF] ++ STORE32H 3;
         [SSH_MSG_CHANNEL_REQUEST] ++ STORE32H 3 ++ msg_string (bytes_of_string "exit-status") ++ [0] ++ STORE32H 1;
         [SSH_MSG_CHANNEL_CLOSE] ++ STORE32H 3]).
Proof. by vm_compute. Qed.
(** The client asks for two connections and closes the second channel while it
    waits; then both connections are there. *)
Definition open_direct (remote : Z) : buffer :=
  payload_of ([SSH_MSG_CHANNEL_OPEN] ++ msg_string (bytes_of_string "direct-tcpip") ++ STORE32H remote ++ STORE32H 1000 ++ STORE32H 64 ++
    msg_string (bytes_of_string "host") ++ STORE32H 80 ++ msg_string (bytes_of_string "10.0.0.1") ++ STORE32H 40000).
Definition wit_forwarded : list turn :=
  [packet_turn HOpen (open_direct 7); packet_turn HOpen (open_direct 8);
   packet_turn HClose (payload_of ([SSH_MSG_CHANNEL_CLOSE] ++ STORE32H 1));
   mkTurn false None [(true, 21, 0); (true, 22, 1)] [] []].
Lemma wit_forwarded_ok : Forall turn_ok wit_forwarded.
Proof.
  assert (Hb : ∀ l, bool_decide (Forall is_byte l ∧ 1 ≤ zlen l ≤ 1000) = true → buf_wf (payload_of l)).
  { intros l [? ?]%bool_decide_eq_true_1. apply payload_of_wf; [done|unfold BUF_MAX_SIZE; lia]. }
  repeat (constructor; [split; [|by repeat constructor]|]); [apply Hb; by vm_compute..|done|done].
Qed.
(** The first connection is confirmed; the socket of the second is closed. *)
Example wit_forwarded_run :
  match (server_start;; server_turns wit_scfg wit_fcfg 24 wit_forwarded) wit_start with
  | Ok (_, s) => Some (omap head (io_sent (cs_io s)), omap (λ e, match e with EvClose fd => Some fd | _ => None end) (fd_log s), pending_conns s)
  | _ => None
  end = Some ([SSH_MSG_CHANNEL_CLOSE; SSH_MSG_CHANNEL_OPEN_CONFIRMATION], [22], [ConnFreed; ConnFreed]).
Proof. by vm_compute. Qed.
Lemma server_session_safe_witness :
  wp (server_start;; server_turns wit_scfg wit_fcfg 24 wit_forwarded)
    (λ _ s', cinv 24 (svr_types wit_scfg wit_fcfg) (sess_inv (fwd_inv wit_fcfg 0) wit_scfg 0) s' ∧
      wp (server_cleanup wit_scfg wit_fcfg) (λ _ s'', channels s'' = [] ∧ listeners (sv_fwd (cs_rest s'')) = [] ∧
        Forall (.= ConnFreed) (pending_conns s'')) s') wit_start.
Proof.
  apply (server_session_safe wit_scfg wit_fcfg 24); [unfold MAX_CBUF_SIZE; lia|apply wit_start_ok|apply wit_forwarded_ok|done].
Defined.
Lemma restrictions_enforced_witness :
  is_Some wit_result ∧
  wp (server_start;; server_turns wit_scfg wit_fcfg 24 wit_turns)
    (λ _ s', ∀ n im, SysFork n (ChildExec im) ∈ sys_log (cs_rest s') →
       im_argv im = [bytes_of_string "sh"; bytes_of_string "-c"; bytes_of_string "uptime"]) wit_start.
Proof.
  split; [rewrite wit_run; by eexists|].
  eapply wp_mono; [apply (restrictions_enforced wit_scfg wit_fcfg 24); [unfold MAX_CBUF_SIZE; lia|apply wit_start_ok|apply wit_turns_ok|done]|].
  intros _ s' (H & _) n im Hin. destruct (H n im (bytes_of_string "uptime") Hin) as [_ ->]; by vm_compute.
Defined.

(** The same session when the child has ended and the main loop is about to
    look for it. *)
Definition is_ok {A} (o : outcome A) : bool := match o with Ok _ => true | _ => false end.
Definition state_after {A} (m : M cst A) (s : cst) : cst := match m s with Ok (_, s') => s' | _ => s end.
Lemma state_after_wp {A} (m : M cst A) (Q : cst → Prop) s : wp m (λ _, Q) s → is_ok (m s) = true → Q (state_after m s).
Proof. unfold wp, state_after. by destruct (m s) as [[]| |]. Qed.
Definition wit_prefix : M cst () := server_start;; server_turns wit_scfg wit_fcfg 24 (take 3 wit_turns);; signal_pending true.
Definition wit_ended : cst := state_after wit_prefix wit_start.
Lemma wit_ended_inv : cinv 24 (svr_types wit_scfg wit_fcfg) (sess_inv (fwd_inv wit_fcfg 0) wit_scfg 0) wit_ended.
Proof.
  unfold wit_ended. apply (state_after_wp wit_prefix); [|vm_cast_no_check (eq_refl true)]. unfold wit_prefix. wp_step.
  eapply wp_mono; [apply server_start_inv, wit_start_ok|]. intros [] s1 Hs1. wp_step.
  eapply wp_mono; [apply (turns_safe wit_scfg wit_fcfg 24 ltac:(unfold MAX_CBUF_SIZE; lia) _ 0 s1 Hs1); [apply Forall_take, wit_turns_ok|done]|].
  intros [] s2 Hs2. by apply safe_signal_pending.
Qed.
Definition wit_ended_chan : @Channel nat :=
  match channels wit_ended !! 0%nat with Some (Some c) => c | _ => new_chan 24 0 5 0 100 32 end.
Lemma wit_ended_facts :
  chan_at wit_ended 0 wit_ended_chan ∧ type wit_ended_chan = 0%nat ∧ typedata wit_ended_chan = Some 0%nat ∧
  channel_signal_pending wit_ended = true ∧ sys_waits (cs_rest wit_ended) = [(1234, 256)] ∧
  find_pid 1234 (childpids (cs_rest wit_ended)) = Some (Some 0%nat).
Proof.
  split; [split; [done|]|split; [|split; [|split; [|split]]]].
  - unfold wit_ended_chan. assert (H : is_Some (channels wit_ended !! Z.to_nat 0 ≫= id)) by (vm_compute; by eexists).
    change (Z.to_nat 0) with 0%nat in *. destruct (channels wit_ended !! 0%nat) as [[c|]|]; [done|by destruct H..].
  - vm_cast_no_check (eq_refl 0%nat).
  - vm_cast_no_check (eq_refl (Some 0%nat)).
  - vm_cast_no_check (eq_refl true).
  - vm_cast_no_check (eq_refl [(1234, 256)]).
  - vm_cast_no_check (eq_refl (Some (Some 0%nat))).
Qed.
Lemma exit_reported_witness :
  ∃ s' cs, heap (cs_rest wit_ended) !! 0%nat = Some (Some cs) ∧
    (svr_chansess_checksignal;; e ← sesscheckclose 0; closechansess 0;; mret e) wit_ended = Ok (true, s') ∧
    io_sent (cs_io s') = io_sent (cs_io wit_ended) ++ exit_messages (remotechan wit_ended_chan) 256 (exitstatus (sess_exit cs)) ∧
    (∀ q, q ≠ 0%nat → heap (cs_rest s') !! q = heap (cs_rest wit_ended) !! q) ∧ channels s' = channels wit_ended.
Proof.
  destruct wit_ended_facts as (H1 & H2 & H3 & H4 & H5 & H6).
  exact (exit_reported (fwd_inv wit_fcfg 0) wit_scfg 24 (svr_types wit_scfg wit_fcfg) 0 wit_ended 0 wit_ended_chan 0 1234 256
           wit_ended_inv H1 H2 H3 H4 H5 eq_refl H6).
Defined.

(** ** Four runs that are not meant *)
Definition free_scfg : sess_cfg :=
  mkCfg None None (bytes_of_string "/lib") false None (sock_addr wit_scfg) (bytes_of_string "user") (bytes_of_string "/home") (bytes_of_string "/system/bin/sh") [].
Definition started_with (pipes : list (option (Z * Z))) (forks : list fork_result) (ptys : list pty_result) : cst :=
  mkCses wit_io [] 0 true 3 DROPBEAR_PRIO_DEFAULT 4 false [] [] [] []
    (mkSvr [] [] (mkExit 0 0 0 0) pipes forks ptys [] [] [] [] (mkFwd [] [] [] [])).
(** What the children of a session do ([None]: serve on the connection), and
    the kinds of the messages sent. *)
Definition run_result (ts : list turn) (s : cst) : option (list (option (list (list Z))) * list Z) :=
  match (server_start;; server_turns free_scfg wit_fcfg 24 ts) s with
  | Ok (_, s) =>
      Some (omap (λ e, match e with SysFork _ (ChildExec im) => Some (Some (im_argv im)) | SysFork _ ChildServes => Some None | _ => None end) (sys_log (cs_rest s)),
            omap head (io_sent (cs_io s)))
  | _ => None
  end.
Definition all_fine : child_sys := mkChildSys true true true true true.
(** "Only one command can succeed", says [sessioncommand]; but a shell leaves
    [cmd] null, so a second request is accepted as well and starts a second
    child on the same channel. *)
Theorem second_shell_accepted :
  run_result [packet_turn HOpen open_session; packet_turn HRequest (session_req "shell" 1 []);
              packet_turn HRequest (session_req "exec" 1 (msg_string (bytes_of_string "id")))]
    (started_with [Some (5, 6); Some (7, 8); Some (9, 10); Some (11, 12); Some (13, 14); Some (15, 16)]
       [Forked 1234 all_fine; Forked 1235 all_fine] []) =
  Some ([Some [bytes_of_string "-sh"]; Some [bytes_of_string "sh"; bytes_of_string "-c"; bytes_of_string "id"]],
        [SSH_MSG_CHANNEL_OPEN_CONFIRMATION; SSH_MSG_CHANNEL_SUCCESS; SSH_MSG_CHANNEL_SUCCESS]).
Proof. by vm_compute. Qed.
(** [sessionpty] stores the terminal's name before it has a terminal: after a
    request for one that fails, every shell or command fails too, though it
    would run without a terminal. *)
Theorem refused_pty_blocks_shell :
  run_result [packet_turn HOpen open_session;
              packet_turn HRequest (session_req "pty-req" 1 (msg_string (bytes_of_string "xterm")));
              packet_turn HRequest (session_req "shell" 1 [])]
    (started_with [Some (5, 6); Some (7, 8); Some (9, 10)] [Forked 1234 all_fine] [PtyFails]) =
  Some ([], [SSH_MSG_CHANNEL_OPEN_CONFIRMATION; SSH_MSG_CHANNEL_FAILURE; SSH_MSG_CHANNEL_FAILURE]).
Proof. by vm_compute. Qed.
(** A second shell on a terminal: the slave was closed after the first, so
    [dup2] can fail in the child; the child then returns from [ptycommand] and
    goes on as a second server on the same connection, with the same keys. *)
Theorem pty_child_serves :
  run_result [packet_turn HOpen open_session;
              packet_turn HRequest (session_req "pty-req" 1 (msg_string (bytes_of_string "xterm") ++ STORE32H 80 ++ STORE32H 24 ++ STORE32H 0 ++ STORE32H 0));
              packet_turn HRequest (session_req "shell" 1 []); packet_turn HRequest (session_req "shell" 1 [])]
    (started_with [] [Forked 1234 all_fine; Forked 1235 (mkChildSys true false true true true)] [PtyOpens 20 (Some (bytes_of_string "/dev/pts/1")) 21]) =
  Some ([Some [bytes_of_string "-sh"]; None],
        [SSH_MSG_CHANNEL_OPEN_CONFIRMATION; SSH_MSG_CHANNEL_SUCCESS; SSH_MSG_CHANNEL_SUCCESS; SSH_MSG_CHANNEL_SUCCESS]).
Proof. by vm_compute. Qed.
(** [pty_allocate] logs that [ptsname] gave no name, then copies the name from
    the null pointer. *)
Theorem pty_unnamed ptm ttyfd :
  (server_start;; server_turns free_scfg wit_fcfg 24
     [packet_turn HOpen open_session;
      packet_turn HRequest (session_req "pty-req" 1 (msg_string (bytes_of_string "xterm")))])
    (started_with [] [] [PtyOpens ptm None ttyfd]) = UB "null pts".
Proof. by vm_compute. Qed.
