(* ===== verification/Jni.v ===== *)
(** * The native library ([jni/interface.c])

    [split_cmd], which splits the extra options of the application into
    arguments, and the command line [start_sshd] gives to the server.  A C
    string is the list of its characters, without the terminator.  Loading the
    Java classes, forking and the descriptors are not modelled. *)
From S2P Require Import Prelude.

(** ** Splitting a command line *)
Definition CURR_SIZE : Z := 1000.
Definition isspace (c : Z) : bool := (c =? 32) || ((9 <=? c) && (c <=? 13)).
(** The character an escape stands for. *)
Definition unescape (c : Z) : Z :=
  if c =? 110 then 10 else if c =? 114 then 13 else if c =? 98 then 8 else if c =? 116 then 9 else c.

(** [curr[curr_len] = c]. *)
Definition curr_put (curr : list Z) (c : Z) : outcome (list Z) :=
  if zlen curr <? CURR_SIZE then Ok (curr ++ [c]) else UB "write outside curr".
(** The end of a word: the new arguments, or [None] when the table is full. *)
Definition flush_word (max_argc : Z) (curr : list Z) (argv : list (list Z)) : outcome (option (list (list Z))) :=
  if zlen curr =? 0 then Ok (Some argv)
  else
    _ ← curr_put curr 0;
    if zlen argv + 2 >=? max_argc then Ok None else Ok (Some (argv ++ [cstr curr])).

(** The terminator is read. *)
Definition split_end (max_argc : Z) (curr : list Z) (argv : list (list Z)) : outcome (list (list Z)) :=
  r ← flush_word max_argc curr argv; Ok (default argv r).
Fixpoint split_loop (max_argc : Z) (inp curr : list Z) (in_quotes : bool) (argv : list (list Z)) : outcome (list (list Z)) :=
  match inp with
  | [] => split_end max_argc curr argv
  | c :: inp =>
      if (zlen curr + 10 >=? CURR_SIZE) || (negb in_quotes && isspace c) then
        r ← flush_word max_argc curr argv;
        match r with
        | None => Ok argv
        | Some argv' => split_loop max_argc inp [] in_quotes argv'
        end
      else if c =? 34 then split_loop max_argc inp curr (negb in_quotes) argv
      else if c =? 92 then
        match inp with
        | [] => curr ← curr_put curr 0; split_end max_argc curr argv
        | d :: inp => curr ← curr_put curr (unescape d); split_loop max_argc inp curr in_quotes argv
        end
      else curr ← curr_put curr c; split_loop max_argc inp curr in_quotes argv
  end.
(** The arguments; the caller's table also holds the null pointer behind them.
    [None] is a null pointer. *)
Definition split_cmd (inp : option (list Z)) (max_argc : Z) : outcome (list (list Z)) :=
  argv ← match inp with None => Ok [] | Some inp => split_loop max_argc inp [] false [] end;
  if zlen argv <? max_argc then Ok argv else UB "write outside argv".

(** ** The command line of the server *)

(** [sprintf("%d")] of a port. *)
Fixpoint digits (fuel : nat) (n : Z) (acc : list Z) : list Z :=
  match fuel with
  | O => acc
  | S fuel =>
      let acc := (48 + n mod 10) :: acc in
      if n / 10 =? 0 then acc else digits fuel (n / 10) acc
  end.
Definition print_int (n : Z) : list Z := if n <? 0 then 45 :: digits 10 (- n) [] else digits 10 n [].
Definition ARGV_SIZE : Z := 100.
(** The arguments of [dropbear_main]. *)
Definition start_sshd (port : Z) (extra : option (list Z)) : outcome (list (list Z)) :=
  let argv := [bytes_of_string "sshd"; bytes_of_string "-R"; bytes_of_string "-F"] ++
              (if port =? 0 then [] else [bytes_of_string "-p"; print_int port]) in
  rest ← split_cmd extra (ARGV_SIZE - zlen argv);
  Ok (argv ++ rest).
(** [sprintf(ret, "%s/%s", conf_path, fn)]. *)
Definition conf_path_file (conf_path fn : list Z) : list Z := conf_path ++ [47] ++ fn.

Example argv_example : start_sshd 2222 (Some (bytes_of_string "-K 60")) =
  Ok (bytes_of_string <$> ["sshd"; "-R"; "-F"; "-p"; "2222"; "-K"; "60"]%string).
Proof. vm_compute. reflexivity. Qed.

(** ** Properties *)

(** No word is too long for its buffer, and the table is not exceeded. *)
Lemma flush_word_ok max_argc curr argv : zlen curr < CURR_SIZE →
  ∃ r, flush_word max_argc curr argv = Ok r ∧
    match r with
    | None => curr ≠ [] ∧ max_argc ≤ zlen argv + 2
    | Some argv' => (curr = [] ∧ argv' = argv) ∨ (curr ≠ [] ∧ argv' = argv ++ [cstr curr] ∧ zlen argv + 2 < max_argc)
    end.
Proof.
  intros Hc. unfold flush_word, curr_put. destruct (Z.eqb_spec (zlen curr) 0) as [E|E].
  { eexists. split; [done|]. left. split; [|done]. destruct curr; [done|cbn in E; lia]. }
  rewrite (proj2 (Z.ltb_lt _ _)) by done. cbn [mbind outcome_bind obind].
  assert (curr ≠ []) by (by intros ->). destruct (Z.geb_spec (zlen argv + 2) max_argc); eexists; (split; [done|]); [split; [done|lia]|right; split_and!; [done|done|lia]].
Qed.
Definition args_ok (max_argc : Z) (argv : list (list Z)) : Prop :=
  zlen argv + 1 < max_argc ∧ Forall (λ a, zlen a < CURR_SIZE - 9) argv.
Lemma cstr_length l : zlen (cstr l) ≤ zlen l.
Proof. induction l as [|c l IH]; cbn; [lia|]. case_if; cbn; lia. Qed.
Lemma flush_args max_argc curr argv : zlen curr ≤ CURR_SIZE - 10 → args_ok max_argc argv →
  ∃ r, flush_word max_argc curr argv = Ok r ∧ args_ok max_argc (default argv r).
Proof.
  intros Hc Ha. destruct (flush_word_ok max_argc curr argv) as (r & E & Hr); [unfold CURR_SIZE in *; lia|]. exists r. split; [done|].
  destruct r as [argv'|]; [|done]. cbn. destruct Hr as [[_ ->]|(_ & -> & Hn)]; [done|]. destruct Ha as [Ha1 Ha2].
  split; [rewrite length_app; cbn; lia|]. apply Forall_app_2; [done|]. apply Forall_singleton. pose proof (cstr_length curr). unfold CURR_SIZE in *. lia.
Qed.
Lemma split_end_ok max_argc curr argv : zlen curr ≤ CURR_SIZE - 10 → args_ok max_argc argv →
  ∃ r, split_end max_argc curr argv = Ok r ∧ args_ok max_argc r.
Proof. intros Hc Ha. destruct (flush_args max_argc curr argv Hc Ha) as (r & E & H). exists (default argv r). unfold split_end. by rewrite E. Qed.
Lemma curr_put_ok curr c : zlen curr < CURR_SIZE → curr_put curr c = Ok (curr ++ [c]).
Proof. intros. unfold curr_put. by rewrite (proj2 (Z.ltb_lt _ _)). Qed.
Lemma split_loop_ok max_argc n inp curr q argv : (length inp ≤ n)%nat → zlen curr ≤ CURR_SIZE - 10 → args_ok max_argc argv →
  ∃ r, split_loop max_argc inp curr q argv = Ok r ∧ args_ok max_argc r.
Proof.
  revert inp curr q argv. induction n as [|n IH]; intros inp curr q argv Hn Hc Ha; (destruct inp as [|c inp]; [by apply split_end_ok|]); cbn in Hn; [lia|].
  cbn [split_loop]. destruct ((zlen curr + 10 >=? CURR_SIZE) || (negb q && isspace c)) eqn:E.
  { destruct (flush_args max_argc curr argv Hc Ha) as (r & Er & Hr). rewrite (obind_ok _ _ _ Er).
    destruct r as [argv'|]; [|by exists argv]. apply IH; [lia|unfold CURR_SIZE; cbn; lia|exact Hr]. }
  apply orb_false_iff in E as [E _]. destruct (Z.geb_spec (zlen curr + 10) CURR_SIZE) as [|Hlt]; [done|].
  assert (Hnext : ∀ c, zlen (curr ++ [c]) ≤ CURR_SIZE - 10) by (intros; rewrite length_app; cbn; lia).
  case_if; [apply IH; [lia|done|done]|]. case_if.
  - destruct inp as [|d inp]; rewrite (obind_ok _ _ _ (curr_put_ok curr _ ltac:(unfold CURR_SIZE in *; lia))); [by apply split_end_ok|].
    apply IH; [cbn in Hn; lia|done|done].
  - rewrite (obind_ok _ _ _ (curr_put_ok curr _ ltac:(unfold CURR_SIZE in *; lia))). apply IH; [lia|done|done].
Qed.

(** Any string is split: [split_cmd] writes inside its buffer and the caller's
    table and ends, with room left for the null pointer. *)
Lemma split_cmd_ok inp max_argc : 2 ≤ max_argc →
  ∃ argv, split_cmd inp max_argc = Ok argv ∧ zlen argv + 1 < max_argc ∧ Forall (λ a, zlen a ≤ 990) argv.
Proof.
  intros Hm. unfold split_cmd.
  assert (Hl : ∃ r, match inp with None => Ok [] | Some inp => split_loop max_argc inp [] false [] end = Ok r ∧ args_ok max_argc r).
  { destruct inp as [inp|]; [apply (split_loop_ok _ (length inp)); [lia|unfold CURR_SIZE; cbn; lia|]|exists []; split; [done|]]; split; try done; cbn; lia. }
  destruct Hl as (r & E & Hr1 & Hr2). rewrite (obind_ok _ _ _ E). rewrite (proj2 (Z.ltb_lt _ _)) by lia. exists r.
  split_and!; [done|done|]. eapply Forall_impl; [exact Hr2|]. unfold CURR_SIZE. intros a ?. cbn in *. lia.
Qed.

(** Quoting an argument so that [split_cmd] gives it back. *)
Definition escape (c : Z) : list Z := if (c =? 34) || (c =? 92) then [92; c] else [c].
Definition quote_arg (a : list Z) : list Z := [34] ++ concat (map escape a) ++ [34].
Definition quote_args (args : list (list Z)) : list Z := concat (map (λ a, quote_arg a ++ [32]) args).

Lemma split_quoted max_argc a rest curr argv : zlen curr + zlen a < 990 →
  split_loop max_argc (concat (map escape a) ++ rest) curr true argv = split_loop max_argc rest (curr ++ a) true argv.
Proof.
  revert curr. induction a as [|c a IH]; intros curr Hl; cbn [map concat app]; [by rewrite app_nil_r|]. cbn [length] in Hl.
  assert (Hlt : (zlen curr + 10 >=? CURR_SIZE) = false) by (unfold CURR_SIZE; destruct (Z.geb_spec (zlen curr + 10) 1000); [lia|done]).
  assert (Hput : ∀ c, curr_put curr c = Ok (curr ++ [c])) by (intros; apply curr_put_ok; unfold CURR_SIZE; lia).
  assert (Hnext : split_loop max_argc (concat (map escape a) ++ rest) (curr ++ [c]) true argv = split_loop max_argc rest (curr ++ c :: a) true argv).
  { rewrite IH by (rewrite length_app; cbn; lia). by rewrite <- app_assoc. }
  unfold escape at 1. destruct (Z.eqb_spec c 34) as [->|H34]; [|destruct (Z.eqb_spec c 92) as [->|H92]]; cbn [orb app split_loop].
  - rewrite Hlt. cbn [orb negb andb Z.eqb Pos.eqb]. change (unescape 34) with 34. by rewrite (obind_ok _ _ _ (Hput _)).
  - rewrite Hlt. cbn [orb negb andb Z.eqb Pos.eqb]. change (unescape 92) with 92. by rewrite (obind_ok _ _ _ (Hput _)).
  - rewrite Hlt, (proj2 (Z.eqb_neq c 34)), (proj2 (Z.eqb_neq c 92)) by done. cbn [orb negb andb]. by rewrite (obind_ok _ _ _ (Hput _)).
Qed.
Lemma split_quoted_args max_argc args argv : Forall (λ a, a ≠ [] ∧ zlen a < 990 ∧ cstr a = a) args → zlen argv + zlen args + 1 < max_argc →
  split_loop max_argc (quote_args args) [] false argv = Ok (argv ++ args).
Proof.
  intros Ha. revert argv. induction Ha as [|a args (Hne & Hl & Hc) Ha IH]; intros argv Hm.
  { cbn. unfold split_end, flush_word. cbn. by rewrite app_nil_r. }
  cbn [length] in Hm. unfold quote_args. cbn [map concat]. unfold quote_arg. rewrite <- !app_assoc. cbn [app split_loop].
  change (zlen [] + 10 >=? CURR_SIZE) with false. cbn [negb andb orb isspace Z.eqb Z.leb Pos.eqb Z.compare Pos.compare Pos.compare_cont].
  rewrite split_quoted by (cbn; lia). cbn [app split_loop].
  assert (Hlt : (zlen a + 10 >=? CURR_SIZE) = false) by (unfold CURR_SIZE; destruct (Z.geb_spec (zlen a + 10) 1000); [lia|done]).
  rewrite !Hlt. cbn [negb andb orb isspace Z.eqb Pos.eqb].
  destruct (flush_word_ok max_argc a argv) as (r & E & Hr); [unfold CURR_SIZE; lia|]. rewrite (obind_ok _ _ _ E).
  destruct r as [argv'|]; [|lia]. destruct Hr as [[? _]|(_ & -> & _)]; [done|]. rewrite Hc. fold (quote_args args).
  rewrite IH by (rewrite length_app; cbn; lia). by rewrite <- app_assoc.
Qed.

(** Quoting round trip.  Arguments that are not empty, without NUL and
    shorter than 990 characters come back from [split_cmd] as they were, when each is written
    between double quotes with a backslash before quotes and backslashes, as
    long as the table has room for them. *)
Theorem split_cmd_roundtrip args max_argc : Forall (λ a, a ≠ [] ∧ zlen a < 990 ∧ cstr a = a) args → zlen args + 1 < max_argc →
  split_cmd (Some (quote_args args)) max_argc = Ok args.
Proof.
  intros Ha Hm. unfold split_cmd. rewrite (obind_ok _ _ args); [|by apply (split_quoted_args max_argc args [])].
  by rewrite (proj2 (Z.ltb_lt _ _)) by lia.
Qed.
Lemma split_cmd_roundtrip_witness :
  split_cmd (Some (quote_args [bytes_of_string "-b"; bytes_of_string "/sdcard/a \"; bytes_of_string "b"])) 95 =
  Ok [bytes_of_string "-b"; bytes_of_string "/sdcard/a \"; bytes_of_string "b"].
Proof.
  apply split_cmd_roundtrip; [|vm_compute; reflexivity].
  repeat (apply Forall_cons; split; [split_and!; vm_compute; (reflexivity || discriminate)|]). constructor.
Defined.

(** A long word loses a character.  When a word reaches 990 characters the
    next character ends it and is dropped, whatever it is; the word goes on in
    the next argument. *)
Theorem split_cmd_long_word w c rest max_argc : zlen w = 990 → Forall (λ x, isspace x = false ∧ x ≠ 34 ∧ x ≠ 92 ∧ x ≠ 0) w → 3 ≤ max_argc →
  split_loop max_argc (w ++ c :: rest) [] false [] = split_loop max_argc rest [] false [w].
Proof.
  intros Hl Hw Hm. assert (Hrun : ∀ v curr tl, Forall (λ x, isspace x = false ∧ x ≠ 34 ∧ x ≠ 92 ∧ x ≠ 0) v → zlen curr + zlen v ≤ 990 →
    split_loop max_argc (v ++ tl) curr false [] = split_loop max_argc tl (curr ++ v) false []).
  { intros v. induction v as [|x v IH]; intros curr tl Hv Hc; [by rewrite app_nil_r|].
    apply Forall_cons in Hv as [(H1 & H2 & H3 & H4) Hv]. cbn [app split_loop length] in *.
    destruct (Z.geb_spec (zlen curr + 10) CURR_SIZE) as [Hge|]; [unfold CURR_SIZE in Hge; lia|].
    rewrite H1, (proj2 (Z.eqb_neq x 34)), (proj2 (Z.eqb_neq x 92)) by done. cbn [orb negb andb].
    rewrite (obind_ok _ _ _ (curr_put_ok curr x ltac:(unfold CURR_SIZE in *; lia))).
    rewrite IH by (done || (rewrite length_app; cbn; lia)). by rewrite <- app_assoc. }
  rewrite Hrun by (done || (cbn; lia)). cbn [app split_loop]. destruct (Z.geb_spec (zlen w + 10) CURR_SIZE) as [|Hge]; [|unfold CURR_SIZE in Hge; lia].
  cbn [orb]. destruct (flush_word_ok max_argc w []) as (r & E & Hr); [unfold CURR_SIZE; lia|]. rewrite (obind_ok _ _ _ E).
  destruct r as [argv'|]; [|cbn in Hr; lia]. destruct Hr as [[-> _]|(_ & -> & _)]; [done|]. cbn [app]. f_equal. f_equal. apply cstr_id.
  eapply Forall_impl; [exact Hw|]. by intros x (_ & _ & _ & ?).
Qed.
Lemma split_cmd_long_word_witness :
  split_loop 95 (replicate 990 97 ++ 98 :: [99]) [] false [] = split_loop 95 [99] [] false [replicate 990 97].
Proof.
  apply split_cmd_long_word; [vm_compute; reflexivity| |lia].
  apply Forall_replicate. split_and!; (reflexivity || discriminate).
Defined.

(** The server is started with a proper argument table: for every port and
    every string of extra options [start_sshd] returns, the arguments fit in
    [argv] with its null pointer, and they start with the application's own
    options. *)
Theorem start_sshd_argv port extra :
  ∃ argv rest, start_sshd port extra = Ok argv ∧ zlen argv + 1 < ARGV_SIZE ∧
    argv = [bytes_of_string "sshd"; bytes_of_string "-R"; bytes_of_string "-F"] ++
           (if port =? 0 then [] else [bytes_of_string "-p"; print_int port]) ++ rest ∧
    Forall (λ a, zlen a ≤ 990) rest.
Proof.
  unfold start_sshd. set (own := [bytes_of_string "sshd"; bytes_of_string "-R"; bytes_of_string "-F"]).
  set (p := if port =? 0 then [] else _). assert (Hp : zlen (own ++ p) ≤ 5) by (unfold p; case_if; cbn; lia).
  destruct (split_cmd_ok extra (ARGV_SIZE - zlen (own ++ p))) as (rest & E & Hl & Hr); [unfold ARGV_SIZE; lia|].
  rewrite (obind_ok _ _ _ E). exists ((own ++ p) ++ rest), rest.
  split_and!; [done|rewrite length_app; lia|by rewrite <- app_assoc|done].
Qed.
