(* ===== verification/Daemon.v ===== *)
(** * The daemon ([svr-main.c])

    [main_noinetd]: accepting connections, limiting those that have not
    authenticated yet, and starting a process for each.  A client that has not
    authenticated is known by the reading end of a pipe whose other end its
    process holds: the pipe becomes readable when the process closes it, on
    authentication or at its end.  What [select], [accept], [pipe] and [fork]
    return is given turn by turn; a new descriptor has the lowest number that
    is free, as POSIX has it, [close] fails at most because the descriptor is not
    open, which [m_close] overlooks, and [FD_SET] is undefined from [FD_SETSIZE]
    on.  Signal handlers, the pid file and logging are left out. *)
From S2P Require Import Prelude.

Definition MAX_UNAUTH_PER_IP : Z := 5.
Definition MAX_UNAUTH_CLIENTS : Z := 30.
Definition FD_SETSIZE : Z := 1024.

(** What a descriptor stands for: one of those of the start, the socket of the
    [k]-th connection, or an end of its pipe. *)
Inductive desc := Inherited | Sock (k : nat) | PipeR (k : nat) | PipeW (k : nat).
Abbreviation fdtable := (list (Z * desc)).
(** A process that was started: its connection, the arguments of [svr_session]
    and its descriptors. *)
Record child := mkChild { ch_conn : nat; ch_sock : Z; ch_pipe : Z; ch_fds : fdtable }.
(** The arrays of [main_noinetd], its open descriptors, the connections
    accepted so far and the processes started. *)
Record daemon := mkDaemon {
  childpipes : list Z;
  preauth_addrs : list (option (list Z));
  listensocks : list Z;
  open_fds : fdtable;
  accepted : nat;
  children : list child
}.
Definition set_slots (ps : list Z) (hs : list (option (list Z))) (d : daemon) : daemon :=
  mkDaemon ps hs (listensocks d) (open_fds d) (accepted d) (children d).
Definition set_open_fds (v : fdtable) (d : daemon) : daemon :=
  mkDaemon (childpipes d) (preauth_addrs d) (listensocks d) v (accepted d) (children d).
Definition set_accepted (v : nat) (d : daemon) : daemon :=
  mkDaemon (childpipes d) (preauth_addrs d) (listensocks d) (open_fds d) v (children d).
Definition set_children (v : list child) (d : daemon) : daemon :=
  mkDaemon (childpipes d) (preauth_addrs d) (listensocks d) (open_fds d) (accepted d) v.

(** ** Descriptors *)
Definition lowest_free (fds : list Z) : Z :=
  default 0 (head (filter (λ n, n ∉ fds) (seqZ 0 (zlen fds + 1)))).
Definition new_fd (e : desc) : M daemon Z :=
  d ← get;
  let fd := lowest_free (open_fds d).*1 in
  put (set_open_fds ((fd, e) :: open_fds d) d);;
  mret fd.
Definition close_fd (fd : Z) (fds : fdtable) : fdtable := filter (λ e, e.1 ≠ fd) fds.
Definition m_close (fd : Z) : M daemon () :=
  if fd <? 0 then mret tt else modify (λ d, set_open_fds (close_fd fd (open_fds d)) d).

(** ** The descriptors to wait for *)
Fixpoint fd_set_all (l : list Z) : M daemon () :=
  match l with
  | [] => mret tt
  | fd :: l => (if (fd <? 0) || (fd >=? FD_SETSIZE) then undefined "FD_SET" else mret tt);; fd_set_all l
  end.
Definition prepare_select : M daemon () :=
  d ← get;
  fd_set_all (listensocks d);;
  fd_set_all (filter (λ p, 0 ≤ p) (childpipes d)).

(** ** Clients that have gone or authenticated *)
Fixpoint reap_loop (ready : Z → bool) (ps : list Z) (hs : list (option (list Z))) : M daemon (list Z * list (option (list Z))) :=
  match ps, hs with
  | p :: ps, h :: hs =>
      gone ← (if (p >=? 0) && ready p then m_close p;; mret true else mret false);
      r ← reap_loop ready ps hs;
      mret (if gone : bool then (-1 :: r.1, None :: r.2) else (p :: r.1, h :: r.2))
  | _, _ => mret ([], [])
  end.
Definition reap_clients (ready : Z → bool) : M daemon () :=
  d ← get;
  r ← reap_loop ready (childpipes d) (preauth_addrs d);
  modify (set_slots r.1 r.2).

(** ** A connection *)
(** All clients that wait, those of the same address, and a free slot. *)
Fixpoint count_loop (host : list Z) (ps : list Z) (hs : list (option (list Z))) (j total for_addr conn_idx : Z) : outcome (Z * Z * Z) :=
  match ps, hs with
  | p :: ps, h :: hs =>
      if p >=? 0 then
        match h with
        | None => UB "strcmp of a null pointer"
        | Some h => count_loop host ps hs (j + 1) (total + 1) (if bool_decide (h = host) then for_addr + 1 else for_addr) conn_idx
        end
      else count_loop host ps hs (j + 1) total for_addr j
  | _, _ => Ok (total, for_addr, conn_idx)
  end.
Inductive accepting :=
| NotReady
| AcceptFails
| Accepted (host : list Z) (pipe_ok fork_ok : bool).
Inductive answer := Nothing | Refused | NoPipe | NoFork | Started.
(** The new process closes the listening sockets and the reading end. *)
Definition child_fds (d : daemon) (pipe0 : Z) : fdtable := close_fd pipe0 (foldl (λ fds s, close_fd s fds) (open_fds d) (listensocks d)).
Definition start_child (k : nat) (conn_idx childsock : Z) (host : list Z) (fork_ok : bool) : M daemon answer :=
  pipe0 ← new_fd (PipeR k);
  pipe1 ← new_fd (PipeW k);
  if negb fork_ok then mret NoFork
  else
    d ← get;
    put (set_children (children d ++ [mkChild k childsock pipe1 (child_fds d pipe0)]) d);;
    d ← get;
    (if (0 <=? conn_idx) && (conn_idx <? zlen (childpipes d))
     then put (set_slots (<[Z.to_nat conn_idx := pipe0]> (childpipes d)) (<[Z.to_nat conn_idx := Some host]> (preauth_addrs d)) d)
     else undefined "childpipes");;
    m_close pipe1;;
    mret Started.
Definition handle_connection (a : accepting) : M daemon answer :=
  match a with
  | NotReady | AcceptFails => mret Nothing
  | Accepted host pipe_ok fork_ok =>
      d ← get;
      let k := accepted d in
      put (set_accepted (S k) d);;
      childsock ← new_fd (Sock k);
      c ← lift (count_loop host (childpipes d) (preauth_addrs d) 0 0 0 0);
      let '(total, for_addr, conn_idx) := c in
      r ← (if (total >=? MAX_UNAUTH_CLIENTS) || (for_addr >=? MAX_UNAUTH_PER_IP) then mret Refused
           else if negb pipe_ok then mret NoPipe
           else start_child k conn_idx childsock host fork_ok);
      m_close childsock;;
      mret r
  end.
Fixpoint handle_connections (l : list accepting) : M daemon (list answer) :=
  match l with
  | [] => mret []
  | a :: l => r ← handle_connection a; rs ← handle_connections l; mret (r :: rs)
  end.

(** ** The loop *)
Inductive dturn :=
| Terminated
| SelectTimeout
| SelectFailed (eintr : bool)
| SelectReady (ready : list Z) (conns : list accepting).
Definition daemon_turn (t : dturn) : M daemon (list answer) :=
  prepare_select;;
  match t with
  | Terminated => dropbear_exit "Terminated by signal"
  | SelectTimeout | SelectFailed true => mret []
  | SelectFailed false => dropbear_exit "Listening socket error"
  | SelectReady ready conns => reap_clients (λ p, bool_decide (p ∈ ready));; handle_connections conns
  end.
Fixpoint daemon_turns (ts : list dturn) : M daemon (list answer) :=
  match ts with
  | [] => mret []
  | t :: ts => r ← daemon_turn t; rs ← daemon_turns ts; mret (r ++ rs)
  end.
Definition daemon_start (socks fds : list Z) : daemon :=
  mkDaemon (replicate (Z.to_nat MAX_UNAUTH_CLIENTS) (-1)) (replicate (Z.to_nat MAX_UNAUTH_CLIENTS) None) socks
    ((λ fd, (fd, Inherited)) <$> fds) 0 [].

(** ** The specification: clients that wait *)
(** A client that waits: its pipe and its address. *)
Abbreviation waiting := (list (Z * list Z)).
Definition from_host (h : list Z) (w : waiting) : Z := zlen (filter (λ c, c.2 = h) w).
Definition admits (h : list Z) (w : waiting) : bool := (zlen w <? MAX_UNAUTH_CLIENTS) && (from_host h w <? MAX_UNAUTH_PER_IP).
Definition spec_answer (w : waiting) (a : accepting) : answer :=
  match a with
  | NotReady | AcceptFails => Nothing
  | Accepted h pipe_ok fork_ok =>
      if negb (admits h w) then Refused else if negb pipe_ok then NoPipe else if negb fork_ok then NoFork else Started
  end.
Inductive spec_conn : waiting → accepting → answer → waiting → Prop :=
| sc_start w h p po fo : spec_answer w (Accepted h po fo) = Started → p ∉ w.*1 → spec_conn w (Accepted h po fo) Started ((p, h) :: w)
| sc_other w a : spec_answer w a ≠ Started → spec_conn w a (spec_answer w a) w.
Inductive spec_conns : waiting → list accepting → list answer → waiting → Prop :=
| scs_nil w : spec_conns w [] [] w
| scs_cons w a r w1 l rs w' : spec_conn w a r w1 → spec_conns w1 l rs w' → spec_conns w (a :: l) (r :: rs) w'.
Inductive spec_turns : waiting → list dturn → list answer → waiting → Prop :=
| st_nil w : spec_turns w [] [] w
| st_idle w t ts rs w' : t = SelectTimeout ∨ t = SelectFailed true → spec_turns w ts rs w' → spec_turns w (t :: ts) rs w'
| st_ready w ready conns ts r w1 rs w' : spec_conns (filter (λ c, c.1 ∉ ready) w) conns r w1 → spec_turns w1 ts rs w' →
    spec_turns w (SelectReady ready conns :: ts) (r ++ rs) w'.

(** ** The slots hold the clients that wait *)
Definition slot (p : Z) (h : option (list Z)) : waiting := if p <? 0 then [] else match h with Some h => [(p, h)] | None => [] end.
Fixpoint slots (ps : list Z) (hs : list (option (list Z))) : waiting :=
  match ps, hs with p :: ps, h :: hs => slot p h ++ slots ps hs | _, _ => [] end.
Definition slot_ok (p : Z) (h : option (list Z)) : Prop := if p <? 0 then p = -1 ∧ h = None else is_Some h.

Definition is_reader (e : Z * desc) : Prop := ∃ k, e.2 = PipeR k.
Definition is_pipe_end (e : Z * desc) : Prop := ∃ k, e.2 = PipeR k ∨ e.2 = PipeW k.
(** What a process starts with: its socket and its end of the pipe, none of the
    listening sockets, no socket of another connection, a writing end of
    another pipe only among those that were [lost], and reading ends only of the
    pipes of earlier connections, which it inherits. *)
Record child_ok (socks : list Z) (lost : fdtable) (c : child) : Prop := {
  co_sock : (ch_sock c, Sock (ch_conn c)) ∈ ch_fds c;
  co_pipe : (ch_pipe c, PipeW (ch_conn c)) ∈ ch_fds c;
  co_listen : ∀ s, s ∈ socks → s ∉ (ch_fds c).*1;
  co_only : ∀ fd k, (fd, Sock k) ∈ ch_fds c → k = ch_conn c;
  co_ends : ∀ fd k, (fd, PipeW k) ∈ ch_fds c → k = ch_conn c ∨ (fd, PipeW k) ∈ lost;
  co_readers : ∀ fd k, (fd, PipeR k) ∈ ch_fds c → (k < ch_conn c)%nat
}.
(** Every descriptor is one of the beginning ([base]), the pipe of a client that
    waits, or one of [lost], which nobody closes. *)
Record daemon_inv (base lost : fdtable) (w : waiting) (d : daemon) : Prop := {
  di_slots : Forall2 slot_ok (childpipes d) (preauth_addrs d);
  di_length : zlen (childpipes d) = MAX_UNAUTH_CLIENTS;
  di_wait : (slots (childpipes d) (preauth_addrs d)) ≡ₚ w;
  di_fds : NoDup (open_fds d).*1;
  di_open : ∃ rs, open_fds d ≡ₚ (base ++ lost ++ rs) ∧ rs.*1 ≡ₚ w.*1 ∧ Forall is_reader rs;
  di_host : ∀ h, from_host h w ≤ MAX_UNAUTH_PER_IP;
  di_set : Forall (λ p, p < FD_SETSIZE) w.*1;
  di_lost : Forall is_pipe_end lost;
  di_conns : ∀ fd k, ((fd, PipeR k) ∈ open_fds d ∨ (fd, PipeW k) ∈ open_fds d) → (k < accepted d)%nat;
  di_base : Forall (λ e, e.2 = Inherited) base;
  di_listen : ∀ s, s ∈ listensocks d → s ∈ base.*1 ∧ 0 ≤ s < FD_SETSIZE;
  di_children : Forall (child_ok (listensocks d) lost) (children d)
}.

(** ** Descriptors *)
Lemma lowest_free_ok fds : NoDup fds → (lowest_free fds ∉ fds) ∧ 0 ≤ lowest_free fds ≤ zlen fds.
Proof.
  intros Hnd. unfold lowest_free. destruct (filter _ _) as [|n l] eqn:E.
  - exfalso. assert (Hsub : seqZ 0 (zlen fds + 1) ⊆+ fds).
    { apply NoDup_submseteq; [apply NoDup_seqZ|]. intros x Hx. destruct (decide (x ∈ fds)) as [|Hn]; [done|].
      assert (Hf : x ∈ filter (λ n, n ∉ fds) (seqZ 0 (zlen fds + 1))) by (by apply list_elem_of_filter). rewrite E in Hf. by apply not_elem_of_nil in Hf. }
    apply submseteq_length in Hsub. rewrite length_seqZ in Hsub. lia.
  - cbn. assert (Hf : n ∈ filter (λ n, n ∉ fds) (seqZ 0 (zlen fds + 1))) by (rewrite E; left).
    apply list_elem_of_filter in Hf as [Hn Hs]. apply elem_of_seqZ in Hs. split; [done|lia].
Qed.
Lemma close_other fd fds : fd ∉ fds.*1 → close_fd fd fds = fds.
Proof.
  unfold close_fd. induction fds as [|e fds IH]; [done|]. rewrite fmap_cons. intros [Hn Hi]%not_elem_of_cons. rewrite filter_cons_True by congruence. by rewrite IH.
Qed.
Lemma close_here fd e fds : fd ∉ fds.*1 → close_fd fd ((fd, e) :: fds) = fds.
Proof. intros Hn. unfold close_fd. rewrite filter_cons_False by (cbn; tauto). by apply close_other. Qed.
Lemma close_skip fd fd' e fds : fd ≠ fd' → close_fd fd ((fd', e) :: fds) = (fd', e) :: close_fd fd fds.
Proof. intros Hn. unfold close_fd. by rewrite filter_cons_True by (cbn; congruence). Qed.
Lemma close_perm fd e fds l : NoDup fds.*1 → fds ≡ₚ (fd, e) :: l → close_fd fd fds ≡ₚ l.
Proof.
  intros Hnd Hp. unfold close_fd. rewrite Hp. fold (close_fd fd ((fd, e) :: l)). rewrite close_here; [done|].
  rewrite Hp in Hnd. cbn in Hnd. by apply NoDup_cons in Hnd as [? _].
Qed.
Lemma close_NoDup fd fds : NoDup fds.*1 → NoDup (close_fd fd fds).*1.
Proof. intros Hn. apply (sublist_NoDup _ _ Hn), fmap_sublist, sublist_filter. Qed.
Lemma close_elem fd x fds : x ∈ close_fd fd fds ↔ x ∈ fds ∧ x.1 ≠ fd.
Proof. unfold close_fd. rewrite list_elem_of_filter. tauto. Qed.
Lemma close_all_elem socks x fds : x ∈ foldl (λ fds s, close_fd s fds) fds socks ↔ x ∈ fds ∧ x.1 ∉ socks.
Proof.
  revert fds. induction socks as [|s socks IH]; intros fds; cbn; [set_solver|]. rewrite IH, close_elem, not_elem_of_cons. tauto.
Qed.

(** ** The slots *)
Lemma slots_length ps hs : Forall2 slot_ok ps hs → zlen (slots ps hs) ≤ zlen ps.
Proof.
  induction 1 as [|p h ps hs Hs Hf IH]; cbn; [lia|]. rewrite length_app. unfold slot. case_if; [cbn; lia|]. destruct h; cbn; lia.
Qed.
Lemma from_host_app h w w' : from_host h (w ++ w') = from_host h w + from_host h w'.
Proof. unfold from_host. rewrite filter_app, length_app. lia. Qed.
Lemma from_host_one h p g : from_host h [(p, g)] = if bool_decide (g = h) then 1 else 0.
Proof. unfold from_host. rewrite filter_cons. cbn. by case_bool_decide; case_decide. Qed.
Lemma from_host_perm h w w' : w ≡ₚ w' → from_host h w = from_host h w'.
Proof. unfold from_host. by intros ->. Qed.
(** The counts, and the slot that is free unless all are taken. *)
Lemma count_loop_ok host ps hs j total for_addr conn_idx : Forall2 slot_ok ps hs → ∃ c,
  count_loop host ps hs j total for_addr conn_idx = Ok (total + zlen (slots ps hs), for_addr + from_host host (slots ps hs), c) ∧
  ((c = conn_idx ∧ zlen (slots ps hs) = zlen ps) ∨ ∃ k, c = j + Z.of_nat k ∧ ps !! k = Some (-1) ∧ hs !! k = Some None).
Proof.
  intros Hf. revert j total for_addr conn_idx. induction Hf as [|p h ps hs Hs Hf IH]; intros j total for_addr conn_idx.
  { exists conn_idx. cbn. unfold from_host. cbn. rewrite !Z.add_0_r. auto. }
  cbn [count_loop slots]. unfold slot_ok in Hs. unfold slot. rewrite Z.geb_leb. destruct (Z.ltb_spec p 0) as [Hp|Hp].
  - destruct Hs as [-> ->]. destruct (IH (j + 1) total for_addr j) as (c & Hc & Hk). cbn. exists c. split; [done|]. right.
    destruct Hk as [[-> _]|(k & -> & ? & ?)]; [exists 0%nat | exists (S k)]; cbn; split_and!; try done; lia.
  - rewrite (proj2 (Z.leb_le 0 p) Hp). destruct Hs as [h' ->].
    destruct (IH (j + 1) (total + 1) (if bool_decide (h' = host) then for_addr + 1 else for_addr) conn_idx) as (c & Hc & Hk).
    exists c. split.
    + rewrite Hc, from_host_app, length_app. cbn [length]. do 2 f_equal; [f_equal; [lia|]]. rewrite from_host_one. case_bool_decide; lia.
    + cbn [app length]. destruct Hk as [[-> He]|(k & -> & ? & ?)]; [left; split; [done|lia]|]. right. exists (S k). cbn. split_and!; try done; lia.
Qed.
Lemma slots_insert ps hs k p h : Forall2 slot_ok ps hs → ps !! k = Some (-1) → hs !! k = Some None → 0 ≤ p →
  (slots (<[k := p]> ps) (<[k := Some h]> hs)) ≡ₚ (p, h) :: slots ps hs.
Proof.
  intros Hf. revert k. induction Hf as [|q g ps hs Hs Hf IH]; intros [|k] Hk Hk' Hp; try done; cbn in *.
  - simplify_eq. unfold slot. rewrite (proj2 (Z.ltb_ge p 0) Hp). done.
  - rewrite IH by done. by rewrite Permutation_middle.
Qed.
Lemma slots_insert_ok ps hs k p h : Forall2 slot_ok ps hs → 0 ≤ p → Forall2 slot_ok (<[k := p]> ps) (<[k := Some h]> hs).
Proof. intros Hf Hp. apply Forall2_insert; [done|]. unfold slot_ok. rewrite (proj2 (Z.ltb_ge p 0) Hp). eauto. Qed.
Lemma slots_pipes ps hs : Forall2 slot_ok ps hs → filter (λ p, 0 ≤ p) ps = (slots ps hs).*1.
Proof.
  induction 1 as [|p h ps hs Hs Hf IH]; [done|]. rewrite filter_cons. cbn [slots]. rewrite fmap_app, <-IH. unfold slot, slot_ok in *.
  destruct (Z.ltb_spec p 0); case_decide; try lia; [done|]. by destruct Hs as [? ->].
Qed.
Lemma slots_nonneg ps hs : Forall (λ p, 0 ≤ p) (slots ps hs).*1.
Proof.
  revert hs. induction ps as [|p ps IH]; intros [|h hs]; try done. cbn [slots]. rewrite fmap_app. apply Forall_app. split; [|done].
  unfold slot. case_if; [done|]. destruct h; cbn; [|done]. repeat constructor. lia.
Qed.

(** ** A turn *)
Definition lost_by (r : answer) : Z := match r with NoFork => 2 | _ => 0 end.
Definition started_by (r : answer) : Z := match r with Started => 1 | _ => 0 end.
Definition all_lost (rs : list answer) : Z := foldr (λ r n, lost_by r + n) 0 rs.
Definition all_started (rs : list answer) : Z := foldr (λ r n, started_by r + n) 0 rs.
(** The listening sockets stay, and a process is there for every start. *)
Definition kept (n : Z) (d d' : daemon) : Prop := listensocks d' = listensocks d ∧ zlen (children d') = zlen (children d) + n.
Lemma ewp_m_close E fd Q d : 0 ≤ fd → Q tt (set_open_fds (close_fd fd (open_fds d)) d) → ewp E (m_close fd) Q d.
Proof. intros Hfd HQ. unfold m_close. rewrite (proj2 (Z.ltb_ge fd 0)) by done. by ewp_step. Qed.
Lemma fd_set_all_ok E l Q d : Forall (λ p, 0 ≤ p < FD_SETSIZE) l → Q tt d → ewp E (fd_set_all l) Q d.
Proof.
  intros Hf HQ. induction Hf as [|p l Hp Hf IH]; cbn [fd_set_all]; [by ewp_step|]. ewp_step.
  rewrite (proj2 (orb_false_iff _ _)) by (split; [lia|rewrite Z.geb_leb; lia]). by ewp_step.
Qed.
(** The pipes that are ready are closed and their slots are free again. *)
Lemma reap_loop_ok E ready ps hs rest rs d : Forall2 slot_ok ps hs → NoDup (open_fds d).*1 → open_fds d ≡ₚ rest ++ rs → rs.*1 = (slots ps hs).*1 →
  ewp E (reap_loop ready ps hs) (λ r d', Forall2 slot_ok r.1 r.2 ∧ length r.1 = length ps ∧
    slots r.1 r.2 = filter (λ c, ready c.1 = false) (slots ps hs) ∧
    NoDup (open_fds d').*1 ∧ open_fds d' ≡ₚ rest ++ filter (λ e, ready e.1 = false) rs ∧ d' = set_open_fds (open_fds d') d) d.
Proof.
  intros Hf. revert rest rs d. induction Hf as [|p h ps hs Hs Hf IH]; intros rest rs d Hnd Hp Hrs.
  { apply fmap_nil_inv in Hrs as ->. cbn [reap_loop]. ewp_step. split_and!; try done. by destruct d. }
  cbn [reap_loop]. unfold slot_ok in Hs. cbn [slots] in Hrs |- *. unfold slot in *. destruct (Z.ltb_spec p 0) as [Hlt|Hge].
  - rewrite Z.geb_leb, (proj2 (Z.leb_gt 0 p)) by done. cbn [andb app] in *. destruct Hs as [-> ->].
    ewp_step. ewp_step. ewp_step. eapply ewp_mono; [by eapply IH|]. intros [ps' hs'] d' (? & ? & ? & ? & ? & ?). ewp_step. cbn in *. split_and!; auto.
    constructor; [|done]. done.
  - rewrite Z.geb_leb, (proj2 (Z.leb_le 0 p)) by done. destruct Hs as [h' ->]. cbn [andb app] in *. rewrite fmap_cons in Hrs.
    destruct rs as [|[q e] rs]; [done|]. cbn in Hrs. injection Hrs as -> Hrs. rewrite !filter_cons. cbn [fst]. destruct (ready p) eqn:Er.
    + case_decide; [done|]. ewp_step. ewp_step. apply ewp_m_close; [done|]. ewp_step. ewp_step.
      assert (Hc : close_fd p (open_fds d) ≡ₚ rest ++ rs) by (eapply close_perm; [done|]; by rewrite Hp, Permutation_middle).
      eapply ewp_mono; [eapply (IH rest rs); [|exact Hc|done]; cbn|].
      * by apply close_NoDup.
      * intros [ps' hs'] d' (? & ? & ? & ? & ? & ->). ewp_step. cbn in *. split_and!; auto. by constructor.
    + case_decide; [|done]. ewp_step. ewp_step. ewp_step.
      eapply ewp_mono; [eapply (IH (rest ++ [(p, e)]) rs); [done|by rewrite <-app_assoc|done]|].
      intros [ps' hs'] d' (? & ? & ? & ? & ? & ?). ewp_step. cbn in *. split_and!; auto.
      * constructor; [|done]. unfold slot_ok. rewrite (proj2 (Z.ltb_ge p 0)) by done. eauto.
      * unfold slot. rewrite (proj2 (Z.ltb_ge p 0)) by done. cbn. congruence.
      * by rewrite <-app_assoc in *.
Qed.
Lemma from_host_filter h (P : Z * list Z → Prop) `{!∀ c, Decision (P c)} w : from_host h (filter P w) ≤ from_host h w.
Proof.
  induction w as [|c w IH]; [done|]. rewrite filter_cons. change (c :: w) with ([c] ++ w). rewrite (from_host_app h [c]).
  assert (0 ≤ from_host h [c]) by (unfold from_host; lia). case_decide; [|lia]. change (c :: filter P w) with ([c] ++ filter P w).
  rewrite from_host_app. lia.
Qed.
Lemma Forall_filter_fst (Q : Z → Prop) (P : Z * list Z → Prop) `{!∀ c, Decision (P c)} w : Forall Q w.*1 → Forall Q (filter P w).*1.
Proof. rewrite !Forall_fmap, !Forall_forall. intros Hw c Hc. apply Hw. by apply list_elem_of_filter in Hc as [_ ?]. Qed.
Lemma filter_fst_eq {B C} (f : Z → bool) (l : list (Z * B)) (k : list (Z * C)) : l.*1 = k.*1 →
  (filter (λ e, f e.1 = false) l).*1 = (filter (λ e, f e.1 = false) k).*1.
Proof.
  revert k. induction l as [|e l IH]; intros [|e' k] Hk; try done. rewrite !fmap_cons in Hk. injection Hk as He Hk.
  rewrite !filter_cons, He. case_decide; cbn; rewrite ?He; [f_equal|]; by apply IH.
Qed.
Lemma reap_clients_ok E base lost w ready d : daemon_inv base lost w d →
  ewp E (reap_clients ready) (λ _ d', daemon_inv base lost (filter (λ c, ready c.1 = false) w) d' ∧ kept 0 d d') d.
Proof.
  intros [Hs Hl Hw Hnd (rs & Hp & Hrs & Hr) Hh Hset Hlost Hc Hb Hli Hch]. unfold reap_clients. ewp_step. ewp_step. ewp_step.
  rewrite <-Hw in Hrs. symmetry in Hrs. apply Permutation_map_inv in Hrs as (rs' & Heq & Hrs).
  eapply ewp_mono; [apply (reap_loop_ok _ _ _ _ (base ++ lost) (rs')); [done|done| |]|].
  { by rewrite Hp, Hrs, <-app_assoc. }
  { done. }
  intros [ps hs] d' (Hs' & Hl' & Hw' & Hnd' & Hp' & Hd'). ewp_step. cbn [fst snd] in *. rewrite Hd' in *. cbn in *. split; [|split; cbn; [done|lia]]. constructor; cbn; try done.
  - congruence.
  - by rewrite Hw', Hw.
  - eexists. rewrite app_assoc. split_and!; [exact Hp'| |].
    + rewrite <-Hw. by erewrite filter_fst_eq by (symmetry; exact Heq).
    + apply Forall_forall. intros e [_ He]%list_elem_of_filter. rewrite Forall_forall in Hr. apply Hr. by rewrite Hrs.
  - intros h. etrans; [apply from_host_filter|done].
  - by apply Forall_filter_fst.
  - intros fd k Hk. apply (Hc fd k). rewrite Hp, app_assoc, Hrs. rewrite Hp' in Hk. destruct Hk as [Hk|Hk]; [left|right]; apply elem_of_app;
      apply elem_of_app in Hk as [?|[_ ?]%list_elem_of_filter]; auto.
Qed.
Lemma ewp_new_fd E e (Q : Z → daemon → Prop) d : NoDup (open_fds d).*1 →
  (∀ fd, (fd ∉ (open_fds d).*1) → 0 ≤ fd ≤ zlen (open_fds d) → NoDup (fd :: (open_fds d).*1) → Q fd (set_open_fds ((fd, e) :: open_fds d) d)) →
  ewp E (new_fd e) Q d.
Proof.
  intros Hnd HQ. unfold new_fd. ewp_step. ewp_step. ewp_step. ewp_step. ewp_step. destruct (lowest_free_ok _ Hnd) as [Hn Hr].
  rewrite length_fmap in Hr. apply HQ; [done|done|]. by constructor.
Qed.
Lemma child_ok_mono socks lost lost' c : lost ⊆ lost' → child_ok socks lost c → child_ok socks lost' c.
Proof. intros Hl [H1 H2 H3 H4 H5 H6]. constructor; try done. intros fd k Hk. destruct (H5 fd k Hk); auto. Qed.
(** What is open beside the descriptors of the beginning and the lost ones. *)
Lemma inv_open base lost w d fd e : daemon_inv base lost w d → (fd, e) ∈ open_fds d → e = Inherited ∨ (fd, e) ∈ lost ∨ ∃ k, e = PipeR k.
Proof.
  intros [_ _ _ _ (rs & Hp & _ & Hr) _ _ _ _ Hb _ _]. rewrite Hp, !elem_of_app. rewrite Forall_forall in Hb, Hr.
  intros [?%Hb|[?|?%Hr]]; auto.
Qed.
Lemma new_child_ok base lost w d cs p0 p1 : daemon_inv base lost w d → NoDup (p1 :: p0 :: cs :: (open_fds d).*1) →
  child_ok (listensocks d) lost (mkChild (accepted d) cs p1
    (child_fds (set_open_fds ((p1, PipeW (accepted d)) :: (p0, PipeR (accepted d)) :: (cs, Sock (accepted d)) :: open_fds d) d) p0)).
Proof.
  intros Hd Hnd. assert (Hso : ∀ s, s ∈ listensocks d → s ∈ (open_fds d).*1).
  { intros s Hs. destruct Hd as [_ _ _ _ (rs & Hp & _) _ _ _ _ _ Hli _]. rewrite Hp, fmap_app. apply elem_of_app. left. by apply Hli. }
  apply NoDup_cons in Hnd as [H1 Hnd]. apply NoDup_cons in Hnd as [H0 Hnd]. apply NoDup_cons in Hnd as [Hc Hnd].
  apply not_elem_of_cons in H1 as [H10 H1]. apply not_elem_of_cons in H1 as [H1c H1]. apply not_elem_of_cons in H0 as [H0c H0].
  assert (Hin : ∀ x, x ∈ child_fds (set_open_fds ((p1, PipeW (accepted d)) :: (p0, PipeR (accepted d)) :: (cs, Sock (accepted d)) :: open_fds d) d) p0 ↔
    (x = (p1, PipeW (accepted d)) ∨ x = (cs, Sock (accepted d)) ∨ x ∈ open_fds d) ∧ (x.1 ∉ listensocks d) ∧ x.1 ≠ p0).
  { intros x. unfold child_fds. rewrite close_elem, close_all_elem. cbn [set_open_fds open_fds listensocks]. rewrite !elem_of_cons. split; [|tauto].
    intros [[[->|[->|[->|?]]] ?] ?]; split_and!; cbn in *; auto; done. }
  constructor; cbn [ch_fds ch_sock ch_pipe ch_conn].
  - apply Hin. cbn. split_and!; auto.
  - apply Hin. cbn. split_and!; auto.
  - intros s Hs (x & -> & Hx)%list_elem_of_fmap. by apply Hin in Hx as (_ & ? & _).
  - intros fd k (H & _)%Hin. destruct H as [?|[?|Ho]]; simplify_eq; [done|]. destruct (inv_open _ _ _ _ _ _ Hd Ho) as [?|[Hl|[? ?]]]; try done.
    pose proof (di_lost _ _ _ _ Hd) as Hlo. rewrite Forall_forall in Hlo. by destruct (Hlo _ Hl) as [? [?|?]].
  - intros fd k (H & _)%Hin. destruct H as [?|[?|Ho]]; simplify_eq; [by left|]. destruct (inv_open _ _ _ _ _ _ Hd Ho) as [?|[Hl|[? ?]]]; try done. by right.
  - intros fd k (H & _)%Hin. destruct H as [?|[?|Ho]]; simplify_eq. exact (di_conns _ _ _ _ Hd fd k (or_introl Ho)).
Qed.
(** A connection is answered as the specification says. *)
Lemma inv_accepted base lost w d n : (accepted d ≤ n)%nat → daemon_inv base lost w d → daemon_inv base lost w (set_accepted n d).
Proof. intros Hn [? ? ? ? ? ? ? ? Hc ? ? ?]. constructor; try done. cbn. intros fd k Hk%Hc. lia. Qed.
Lemma inv_length base lost w d : daemon_inv base lost w d → zlen (open_fds d) = zlen base + zlen lost + zlen w ∧ zlen w ≤ MAX_UNAUTH_CLIENTS.
Proof.
  intros [Hs Hl Hw _ (rs & Hp & Hrs & _) _ _ _ _ _ _ _]. apply Permutation_length in Hp, Hrs. rewrite !length_app in Hp. rewrite !length_fmap in Hrs.
  pose proof (slots_length _ _ Hs) as Hle. rewrite Hw in Hle. lia.
Qed.
Lemma inv_lost base lost w d x y k : daemon_inv base lost w d → NoDup (y :: x :: (open_fds d).*1) → accepted d = k →
  daemon_inv base (lost ++ [(y, PipeW k); (x, PipeR k)]) w (set_accepted (S k) (set_open_fds ((y, PipeW k) :: (x, PipeR k) :: open_fds d) d)).
Proof.
  intros [Hs Hl Hw Hnd (rs & Hp & Hrs & Hr) Hh Hset Hlost Hc Hb Hli Hch] Hnd' <-. constructor; cbn; try done.
  - exists rs. split_and!; try done. rewrite Hp. solve_Permutation.
  - apply Forall_app. split; [done|]. unfold is_pipe_end. repeat constructor; eexists; cbn; auto.
  - intros fd k. rewrite !elem_of_cons. intros [[?|[?|Ho]]|[?|[?|Ho]]]; simplify_eq; try lia; pose proof (Hc fd k); naive_solver lia.
  - eapply Forall_impl; [exact Hch|]. intros c. apply child_ok_mono. set_solver.
Qed.
Lemma inv_start base lost w d cs x y k h j : daemon_inv base lost w d → NoDup (y :: x :: cs :: (open_fds d).*1) → accepted d = k →
  childpipes d !! j = Some (-1) → preauth_addrs d !! j = Some None → 0 ≤ x < FD_SETSIZE → from_host h w < MAX_UNAUTH_PER_IP →
  daemon_inv base lost ((x, h) :: w) (mkDaemon (<[j := x]> (childpipes d)) (<[j := Some h]> (preauth_addrs d)) (listensocks d) ((x, PipeR k) :: open_fds d) (S k)
    (children d ++ [mkChild k cs y (child_fds (set_open_fds ((y, PipeW k) :: (x, PipeR k) :: (cs, Sock k) :: open_fds d) d) x)])).
Proof.
  intros Hd Hnd' <- Hj Hj' Hx Hlt. pose proof (new_child_ok _ _ _ _ _ _ _ Hd Hnd') as Hnew.
  destruct Hd as [Hs Hl Hw Hnd (rs & Hp & Hrs & Hr) Hh Hset Hlost Hc Hb Hli Hch]. constructor; cbn; try done.
  - by apply slots_insert_ok; [|lia].
  - by rewrite length_insert.
  - rewrite slots_insert by (done || lia). by rewrite Hw.
  - constructor; [|done]. apply NoDup_cons in Hnd' as [_ [Hn _]%NoDup_cons]. set_solver.
  - exists ((x, PipeR (accepted d)) :: rs). split_and!.
    + rewrite Hp. solve_Permutation.
    + cbn. by rewrite Hrs.
    + constructor; [|done]. by eexists.
  - intros h'. change ((x, h) :: w) with ([(x, h)] ++ w). rewrite from_host_app, from_host_one. specialize (Hh h'). case_bool_decide; subst; lia.
  - constructor; [cbn; lia|done].
  - intros fd k. rewrite !elem_of_cons. intros [[?|Ho]|[?|Ho]]; simplify_eq; try lia; pose proof (Hc fd k); naive_solver lia.
  - apply Forall_app. split; [done|]. by apply Forall_singleton.
Qed.
(** The state once the socket is accepted. *)
Definition with_sock (cs : Z) (d : daemon) : daemon := set_open_fds ((cs, Sock (accepted d)) :: open_fds d) (set_accepted (S (accepted d)) d).
Lemma close_sock_ok E (r : answer) base lost w cs d : daemon_inv base lost w d → cs ∉ (open_fds d).*1 → 0 ≤ cs →
  ewp E (m_close cs;; mret r) (λ r' d', r' = r ∧ daemon_inv base lost w d' ∧ kept 0 d d') (with_sock cs d).
Proof.
  intros Hd Hcs Hge. ewp_step. apply ewp_m_close; [done|]. ewp_step. cbn [with_sock open_fds set_open_fds]. rewrite close_here by done. split_and!; [done| |split; cbn; [done|lia]].
  replace (set_open_fds (open_fds d) (with_sock cs d)) with (set_accepted (S (accepted d)) d) by (by destruct d). apply inv_accepted; [lia|done].
Qed.
Lemma start_child_ok E base lost w d cs c host fork_ok : daemon_inv base lost w d → zlen base + zlen lost + MAX_UNAUTH_CLIENTS < FD_SETSIZE →
  NoDup (cs :: (open_fds d).*1) → 0 ≤ cs → admits host w = true →
  (∃ k, c = Z.of_nat k ∧ childpipes d !! k = Some (-1) ∧ preauth_addrs d !! k = Some None) →
  ewp E (r ← start_child (accepted d) c cs host fork_ok; m_close cs;; mret r) (λ r d', ∃ lost' w', spec_conn w (Accepted host true fork_ok) r w' ∧
    daemon_inv base lost' w' d' ∧ zlen lost' = zlen lost + lost_by r ∧ kept (started_by r) d d') (with_sock cs d).
Proof.
  intros Hd Hsz Hndc Hcs Hadm (j & -> & Hj & Hj'). unfold start_child. pose proof Hadm as Hadm'. unfold admits in Hadm'. apply andb_prop in Hadm' as [Hw%Z.ltb_lt Hh%Z.ltb_lt].
  destruct (inv_length _ _ _ _ Hd) as [Hlen _].
  ewp_step. ewp_step. apply ewp_new_fd; [done|]. cbn [open_fds set_open_fds with_sock]. intros p0 _ Hp0 Hnd0.
  ewp_step. apply ewp_new_fd; [done|]. cbn [open_fds set_open_fds with_sock]. intros p1 _ Hp1 Hnd1.
  cbn [length] in Hp0, Hp1. rewrite !fmap_cons in Hnd1. cbn [fst] in Hnd1.
  assert (Hne : p0 ≠ cs ∧ p1 ≠ cs ∧ p1 ≠ p0 ∧ (p0 ∉ (open_fds d).*1) ∧ (p1 ∉ (open_fds d).*1) ∧ cs ∉ (open_fds d).*1).
  { apply NoDup_cons in Hnd1 as [H1 [H0 [H2 _]%NoDup_cons]%NoDup_cons]. rewrite !not_elem_of_cons in *. tauto. }
  destruct Hne as (? & ? & ? & Hnew0 & ? & ?). destruct fork_ok; cbn [negb].
  - assert (Hjl : (j < length (childpipes d))%nat) by (by eapply lookup_lt_Some).
    do 7 ewp_step. rewrite (proj2 (andb_true_iff _ _)) by (cbn; split; lia). ewp_step. ewp_step. apply ewp_m_close; [lia|]. ewp_step. ewp_step.
    apply ewp_m_close; [done|]. ewp_step. exists lost, ((p0, host) :: w). rewrite Nat2Z.id.
    lazy beta iota delta [child_fds with_sock set_children set_slots set_open_fds set_accepted childpipes preauth_addrs listensocks open_fds accepted children].
    rewrite close_here by (rewrite !fmap_cons, !not_elem_of_cons; done). rewrite close_skip, close_here by done. split_and!; [|by apply inv_start; unfold FD_SETSIZE in *; try lia|cbn; lia|]; [|split; [done|unfold children; rewrite length_app; cbn; lia]].
    apply sc_start; [cbn; by rewrite Hadm|]. destruct (di_open _ _ _ _ Hd) as (rs & Hp & Hrs & _).
    intros Hin. apply Hnew0. rewrite Hp, !fmap_app, Hrs, !elem_of_app. auto.
  - ewp_step. ewp_step. apply ewp_m_close; [done|]. ewp_step. exists (lost ++ [(p1, PipeW (accepted d)); (p0, PipeR (accepted d))]), w.
    cbn [open_fds set_open_fds with_sock]. rewrite !close_skip, close_here by done. split_and!.
    + replace NoFork with (spec_answer w (Accepted host true false)) by (cbn; by rewrite Hadm). apply sc_other. cbn. by rewrite Hadm.
    + apply (inv_lost _ _ _ _ _ _ _ Hd); [|done]. rewrite !NoDup_cons, !not_elem_of_cons in *. tauto.
    + rewrite length_app. cbn. lia.
    + split; cbn; [done|lia].
Qed.
Lemma handle_connection_ok E base lost w a d : daemon_inv base lost w d → zlen base + zlen lost + MAX_UNAUTH_CLIENTS < FD_SETSIZE →
  ewp E (handle_connection a) (λ r d', ∃ lost' w', spec_conn w a r w' ∧ daemon_inv base lost' w' d' ∧ zlen lost' = zlen lost + lost_by r ∧
    kept (started_by r) d d') d.
Proof.
  intros Hd Hsz. destruct a as [| |host pipe_ok fork_ok]; cbn [handle_connection]; [by ewp_step; exists lost, w; split_and!; [apply (sc_other w)|..]; try done; [cbn; lia|split; [done|cbn; lia]]..|].
  pose proof (di_fds _ _ _ _ Hd) as Hnd. do 5 ewp_step. apply ewp_new_fd; [done|]. cbn [open_fds set_accepted]. intros cs Hcs Hcsr Hndc.
  fold (with_sock cs d). destruct (count_loop_ok host _ _ 0 0 0 0 (di_slots _ _ _ _ Hd)) as (c & Hcount & Hfree). ewp_step. apply ewp_lift. rewrite Hcount.
  rewrite (from_host_perm host _ _ (di_wait _ _ _ _ Hd)), (Permutation_length (di_wait _ _ _ _ Hd)), !Z.add_0_l, !Z.geb_leb in *.
  assert (Hadm : (MAX_UNAUTH_CLIENTS <=? zlen w) || (MAX_UNAUTH_PER_IP <=? from_host host w) = negb (admits host w)).
  { unfold admits. by rewrite negb_andb, <-!Z.leb_antisym. }
  rewrite Hadm. destruct (admits host w) eqn:Ea; cbn [negb]; [destruct pipe_ok; cbn [negb]|].
  - apply start_child_ok; try done; [lia|]. destruct Hfree as [[_ Hfull]|(k & -> & ? & ?)]; [|by exists k].
    exfalso. unfold admits in Ea. apply andb_prop in Ea as [Ea%Z.ltb_lt _]. pose proof (di_length _ _ _ _ Hd). lia.
  - ewp_step. ewp_step. eapply ewp_mono; [eapply close_sock_ok; [done|done|lia]|]. intros r d' (-> & ? & ?). exists lost, w. split_and!; try done; [|cbn; lia].
    replace NoPipe with (spec_answer w (Accepted host false fork_ok)) by (cbn; by rewrite Ea). apply sc_other. cbn. by rewrite Ea.
  - ewp_step. ewp_step. eapply ewp_mono; [eapply close_sock_ok; [done|done|lia]|]. intros r d' (-> & ? & ?). exists lost, w. split_and!; try done; [|cbn; lia].
    replace Refused with (spec_answer w (Accepted host pipe_ok fork_ok)) by (cbn; by rewrite Ea). apply sc_other. cbn. by rewrite Ea.
Qed.

(** ** All turns *)
Definition fork_fails (a : accepting) : Z := match a with Accepted _ _ false => 2 | _ => 0 end.
Definition forks_fail (l : list accepting) : Z := foldr (λ a n, fork_fails a + n) 0 l.
Definition turn_conns (t : dturn) : list accepting := match t with SelectReady _ l => l | _ => [] end.
(** Two descriptors for every call of [fork] that can fail. *)
Definition leaks (ts : list dturn) : Z := foldr (λ t n, forks_fail (turn_conns t) + n) 0 ts.
Lemma all_lost_app rs rs' : all_lost (rs ++ rs') = all_lost rs + all_lost rs'.
Proof. unfold all_lost. induction rs as [|r rs IH]; cbn; lia. Qed.
Lemma all_started_app rs rs' : all_started (rs ++ rs') = all_started rs + all_started rs'.
Proof. unfold all_started. induction rs as [|r rs IH]; cbn; lia. Qed.
Lemma kept_trans n m k d d1 d' : kept n d d1 → kept m d1 d' → k = n + m → kept k d d'.
Proof. intros [H1 H2] [H3 H4] ->. split; [congruence|lia]. Qed.
Lemma spec_conn_lost w a r w' : spec_conn w a r w' → lost_by r ≤ fork_fails a.
Proof. destruct 1 as [w h p po fo|w [| |h po fo]]; cbn; try done; [by destruct fo|]. by repeat case_match. Qed.
Lemma fork_fails_nonneg a : 0 ≤ fork_fails a.
Proof. by destruct a as [| |? ? []]. Qed.
Lemma forks_fail_nonneg l : 0 ≤ forks_fail l.
Proof. unfold forks_fail. induction l as [|a l IH]; cbn [foldr]; [lia|]. pose proof (fork_fails_nonneg a). lia. Qed.
Lemma leaks_nonneg ts : 0 ≤ leaks ts.
Proof. unfold leaks. induction ts as [|t ts IH]; cbn [foldr]; [lia|]. pose proof (forks_fail_nonneg (turn_conns t)). lia. Qed.
Lemma handle_connections_ok E base l lost w d : daemon_inv base lost w d → zlen base + zlen lost + forks_fail l + MAX_UNAUTH_CLIENTS < FD_SETSIZE →
  ewp E (handle_connections l) (λ rs d', ∃ lost' w', spec_conns w l rs w' ∧ daemon_inv base lost' w' d' ∧ zlen lost' = zlen lost + all_lost rs ∧
    all_lost rs ≤ forks_fail l ∧ kept (all_started rs) d d') d.
Proof.
  revert lost w d. induction l as [|a l IH]; intros lost w d Hd Hsz; cbn [handle_connections]; cbn [forks_fail foldr] in *.
  { ewp_step. exists lost, w. split_and!; try done; [constructor|cbn; lia|split; cbn; [done|lia]]. }
  fold (forks_fail l) in *. pose proof (forks_fail_nonneg l). pose proof (fork_fails_nonneg a).
  ewp_step. eapply ewp_mono; [apply handle_connection_ok; [done|lia]|]. intros r d1 (lost1 & w1 & Hc & Hd1 & Hl1 & Hk1).
  pose proof (spec_conn_lost _ _ _ _ Hc). ewp_step. eapply ewp_mono; [apply IH; [done|lia]|].
  intros rs d2 (lost2 & w2 & Hcs & Hd2 & Hl2 & Hle & Hk2). ewp_step. exists lost2, w2. cbn [all_lost foldr]. fold (all_lost rs).
  split_and!; [by econstructor|done|lia|lia|by eapply kept_trans].
Qed.
Lemma prepare_select_ok E base lost w Q d : daemon_inv base lost w d → Q tt d → ewp E prepare_select Q d.
Proof.
  intros Hd HQ. unfold prepare_select. do 3 ewp_step. apply fd_set_all_ok.
  { apply Forall_forall. intros s Hs. by apply (di_listen _ _ _ _ Hd). }
  rewrite (slots_pipes _ _ (di_slots _ _ _ _ Hd)). apply fd_set_all_ok; [|done]. apply Forall_forall. intros p Hp. split.
  - pose proof (slots_nonneg (childpipes d) (preauth_addrs d)) as Hf. rewrite Forall_forall in Hf. by apply Hf.
  - pose proof (di_set _ _ _ _ Hd) as Hf. rewrite <-(di_wait _ _ _ _ Hd), Forall_forall in Hf. by apply Hf.
Qed.
Lemma turns_ok base ts lost w d : daemon_inv base lost w d → zlen base + zlen lost + leaks ts + MAX_UNAUTH_CLIENTS < FD_SETSIZE →
  ewp (Terminated ∈ ts ∨ SelectFailed false ∈ ts) (daemon_turns ts)
    (λ rs d', ∃ lost' w', spec_turns w ts rs w' ∧ daemon_inv base lost' w' d' ∧ zlen lost' = zlen lost + all_lost rs ∧ kept (all_started rs) d d') d.
Proof.
  revert lost w d. induction ts as [|t ts IH]; intros lost w d Hd Hsz; cbn [daemon_turns].
  { ewp_step. exists lost, w. split_and!; try done; [constructor|cbn; lia|split; cbn; [done|lia]]. }
  pose proof (leaks_nonneg ts) as Hn. cbn [leaks foldr] in Hsz. fold (leaks ts) in Hsz.
  assert (Hnext : ∀ r w1 lost1 d1, daemon_inv base lost1 w1 d1 → kept (all_started r) d d1 → zlen lost1 = zlen lost + all_lost r → all_lost r ≤ forks_fail (turn_conns t) →
    (∀ rs w', spec_turns w1 ts rs w' → spec_turns w (t :: ts) (r ++ rs) w') →
    ewp (Terminated ∈ t :: ts ∨ SelectFailed false ∈ t :: ts) (rs ← daemon_turns ts; mret (r ++ rs))
      (λ rs d', ∃ lost' w', spec_turns w (t :: ts) rs w' ∧ daemon_inv base lost' w' d' ∧ zlen lost' = zlen lost + all_lost rs ∧ kept (all_started rs) d d') d1).
  { intros r w1 lost1 d1 Hd1 Hk1 Hl1 Hr Hspec. ewp_step. eapply ewp_weaken; [|eapply ewp_mono; [apply (IH lost1 w1 d1); [done|lia]|]].
    - rewrite !elem_of_cons. tauto.
    - intros rs d2 (lost2 & w2 & Hs & Hd2 & Hl2 & Hk2). ewp_step. exists lost2, w2. split_and!; [by apply Hspec|done|rewrite all_lost_app; lia|].
      eapply kept_trans; [done|done|]. by rewrite all_started_app. }
  ewp_step. unfold daemon_turn. ewp_step. eapply prepare_select_ok; [done|]. destruct t as [| |[]|ready conns].
  - apply ewp_exit. left. left.
  - ewp_step. apply (Hnext [] w lost); try done; [split; cbn; [done|lia]|cbn; lia|]. intros rs w' Hs. apply st_idle; auto.
  - ewp_step. apply (Hnext [] w lost); try done; [split; cbn; [done|lia]|cbn; lia|]. intros rs w' Hs. apply st_idle; auto.
  - apply ewp_exit. right. left.
  - ewp_step. eapply ewp_mono; [by apply reap_clients_ok|]. intros [] d1 [Hd1 Hk1]. cbn [turn_conns] in *.
    eapply ewp_mono; [apply handle_connections_ok; [done|lia]|]. intros r d2 (lost2 & w2 & Hc & Hd2 & Hl2 & Hle & Hk2). eapply Hnext; try done; [by eapply kept_trans|].
    intros rs w' Hs. eapply st_ready; [|done]. erewrite list_filter_iff; [done|]. intros c. cbn. rewrite bool_decide_eq_false. done.
Qed.
Lemma daemon_start_inv socks fds : NoDup fds → (∀ s, s ∈ socks → s ∈ fds ∧ 0 ≤ s < FD_SETSIZE) →
  daemon_inv ((λ fd, (fd, Inherited)) <$> fds) [] [] (daemon_start socks fds).
Proof.
  intros Hnd Hs. assert (Hfst : ((λ fd, (fd, Inherited)) <$> fds).*1 = fds) by (rewrite <-list_fmap_compose; apply list_fmap_id).
  constructor; cbn [daemon_start childpipes preauth_addrs listensocks open_fds accepted children]; try done.
  - apply Forall2_replicate. done.
  - by rewrite Hfst.
  - exists []. by rewrite !app_nil_r.
  - intros fd k. rewrite !list_elem_of_fmap. naive_solver.
  - apply Forall_forall. intros e (fd & -> & _)%list_elem_of_fmap. done.
  - intros s Hin. by rewrite Hfst; apply Hs.
Qed.

(** C32. The daemon: whatever [select], [accept], [pipe] and [fork] return, as
    long as the descriptors it starts with and two for every [fork] that can
    fail stay below [FD_SETSIZE], the loop performs no undefined access (no
    [FD_SET] out of range, no null address compared, no slot out of range) and
    ends only on a signal or an error of [select].  Every connection is answered
    as the specification says: refused exactly if thirty clients wait or five
    from its address, where a client waits from its start to the turn its pipe
    is ready.  So at most thirty clients wait, at most five from one address,
    and what is open is what was at the start, a pipe for each client that
    waits, and two for every failed [fork].  Each start makes a process, which
    has its own socket and the writing end of its own pipe, no listening socket,
    no socket of another connection, and no other writing end but those a failed
    [fork] left open.  It may have reading ends of the pipes of clients that
    were started before it: nothing closes those ([readers_inherited]). *)
Theorem daemon_refines socks fds ts : NoDup fds → (∀ s, s ∈ socks → s ∈ fds ∧ 0 ≤ s < FD_SETSIZE) →
  zlen fds + leaks ts + MAX_UNAUTH_CLIENTS < FD_SETSIZE →
  ewp (Terminated ∈ ts ∨ SelectFailed false ∈ ts) (daemon_turns ts)
    (λ rs d, ∃ w lost, spec_turns [] ts rs w ∧ (slots (childpipes d) (preauth_addrs d)) ≡ₚ w ∧
       zlen w ≤ MAX_UNAUTH_CLIENTS ∧ (∀ h, from_host h w ≤ MAX_UNAUTH_PER_IP) ∧
       zlen (open_fds d) = zlen fds + zlen w + all_lost rs ∧ zlen lost = all_lost rs ∧
       zlen (children d) = all_started rs ∧ Forall (child_ok socks lost) (children d)) (daemon_start socks fds).
Proof.
  intros Hnd Hs Hsz. eapply ewp_mono; [eapply turns_ok; [by apply daemon_start_inv|]|].
  { rewrite length_fmap. cbn. lia. }
  intros rs d (lost & w & Hspec & Hd & Hl & Hk1 & Hk2). destruct (inv_length _ _ _ _ Hd) as [Ho Hw]. rewrite length_fmap in Ho. cbn in Hl, Hk1, Hk2.
  exists w, lost. split_and!; [done|apply Hd|done|apply Hd|lia|lia|lia|]. rewrite <-Hk1. apply Hd.
Qed.
(** Six connections from one address: five are started and the sixth is refused,
    until one of them has authenticated. *)
Lemma daemon_refines_witness : let c := Accepted [49] true true in let ts := [SelectReady [] [c; c; c; c; c; c]; SelectReady [5] [c]] in
  daemon_turns ts (daemon_start [3] [0; 1; 2; 3]) =
    Ok ([Started; Started; Started; Started; Started; Refused; Started],
        match daemon_turns ts (daemon_start [3] [0; 1; 2; 3]) with Ok (_, d) => d | _ => daemon_start [] [] end) ∧
  ewp (Terminated ∈ ts ∨ SelectFailed false ∈ ts) (daemon_turns ts)
    (λ rs d, ∃ w lost, spec_turns [] ts rs w ∧ (slots (childpipes d) (preauth_addrs d)) ≡ₚ w ∧
       zlen w ≤ MAX_UNAUTH_CLIENTS ∧ (∀ h, from_host h w ≤ MAX_UNAUTH_PER_IP) ∧
       zlen (open_fds d) = zlen [0; 1; 2; 3] + zlen w + all_lost rs ∧ zlen lost = all_lost rs ∧
       zlen (children d) = all_started rs ∧ Forall (child_ok [3] lost) (children d)) (daemon_start [3] [0; 1; 2; 3]).
Proof.
  split; [by vm_compute|]. apply daemon_refines.
  - apply (bool_decide_unpack _). by vm_compute.
  - intros s ->%list_elem_of_singleton. split; [set_solver|by vm_compute].
  - by vm_compute.
Defined.
(** A [fork] that fails leaves both ends of the pipe open. *)
Example failed_fork_leaks : let ts := [SelectReady [] [Accepted [49] true false; Accepted [49] true false]] in
  ∃ d, daemon_turns ts (daemon_start [3] [0; 1; 2; 3]) = Ok ([NoFork; NoFork], d) ∧ zlen (open_fds d) = 8.
Proof. eexists. by vm_compute. Qed.
(** The process of a second client inherits the reading end of the pipe of the
    first, which still waits. *)
Example readers_inherited : let c := Accepted [49] true true in
  ∃ d c1 c2, daemon_turns [SelectReady [] [c; c]] (daemon_start [3] [0; 1; 2; 3]) = Ok ([Started; Started], d) ∧
    children d = [c1; c2] ∧ (5, PipeR 0) ∈ ch_fds c2 ∧ 5 ∈ childpipes d.
Proof. do 3 eexists. split; [by vm_compute|]. split; [reflexivity|]. cbn. set_solver. Qed.
