(* ===== verification/RunOpts.v ===== *)
(** * Options of the server ([svr-runopts.c], [common-runopts.c])

    [svr_getopts], which reads the command line, with the options of this build:
    no syslog, no passwords, no inetd, no motd, no groups and no tracing.  An
    argument is the list of its characters, without the terminator.  The
    reading of a file ([buf_readfile] of [dbutil.c]) and of numbers
    ([m_str_to_uint], and what [strtoul] and [atol] of the C library do) are
    here too.  Printing the help is left out. *)
From S2P Require Import Prelude Buffer Jni.

Definition DROPBEAR_MAX_PORTS : Z := 10.
Definition MAX_HOSTKEYS : Z := 3.
Definition MAX_RECV_WINDOW : Z := 1048576.
Definition DEFAULT_RECV_WINDOW : Z := 24576.
Definition MAX_AUTH_TRIES : Z := 10.
Definition MAX_BANNER_SIZE : Z := 2000.
Definition DROPBEAR_DEFPORT : list Z := bytes_of_string "2222".
Definition DROPBEAR_DEFADDRESS : list Z := [].

(** ** Reading a file ([dbutil.c]) *)

(** What [read] returns, each time it is called; behind the list it is the end
    of the file. *)
Inductive rd := RdData (bs : list Z) | RdAgain | RdFail.
(** [continue] in a [do] loop goes to its condition, which fails for a negative
    [len]: on [EINTR] and [EAGAIN] the loop ends, with success. *)
Fixpoint readfile_loop (rs : list rd) : M buffer bool :=
  b ← get;
  let maxlen := i32 (buf_size b - buf_pos b) in
  p ← buf_getwriteptr maxlen;
  match rs with
  | [] => buf_incrwritepos 0;; mret true
  | RdFail :: _ => mret false
  | RdAgain :: _ => mret true
  | RdData bs :: rs =>
      let got := take (Z.to_nat maxlen) bs in
      buf_store p got;;
      buf_incrwritepos (zlen got);;
      if (zlen got <? maxlen) && (zlen got >? 0) then readfile_loop rs else mret true
  end.
(** [None] is a file that cannot be opened. *)
Definition buf_readfile (file : option (list rd)) : M buffer bool :=
  match file with None => mret false | Some rs => readfile_loop rs end.

(** ** Numbers *)
Definition isdigit (c : Z) : bool := (48 <=? c) && (c <=? 57).
Fixpoint skip_space (l : list Z) : list Z :=
  match l with [] => [] | c :: l' => if isspace c then skip_space l' else l end.
Fixpoint decimal (acc : Z) (l : list Z) : Z :=
  match l with [] => acc | c :: l => if isdigit c then decimal (acc * 10 + (c - 48)) l else acc end.
(** White space, a sign, digits: the sign, the value and whether there was a
    digit. *)
Definition scan_number (str : list Z) : bool * Z * bool :=
  let l := skip_space str in
  let '(neg, l) := match l with 45 :: l => (true, l) | 43 :: l => (false, l) | l => (false, l) end in
  (neg, decimal 0 l, match l with c :: _ => isdigit c | [] => false end).

Section runopts.
(** The width of [long] and [time_t], and whether the C library sets [EINVAL]
    when there is no number. *)
Context (LONG_BITS : Z) (sets_einval : bool).
Definition ULONG_MAX : Z := 2 ^ LONG_BITS - 1.
Definition LONG_MAX : Z := 2 ^ (LONG_BITS - 1) - 1.
(** The result, [ERANGE] and [EINVAL]. *)
Definition strtoul (str : list Z) : Z * bool * bool :=
  let '(neg, v, any) := scan_number str in
  if v >? ULONG_MAX then (ULONG_MAX, true, false)
  else ((if neg : bool then - v else v) mod (ULONG_MAX + 1), false, negb any && sets_einval).
Definition atol (str : list Z) : Z :=
  let '(neg, v, _) := scan_number str in
  let v := if neg : bool then - v else v in
  Z.max (- LONG_MAX - 1) (Z.min v LONG_MAX).
Definition m_str_to_uint (str : list Z) : option Z :=
  let '(l, erange, einval) := strtoul str in
  if ((l =? 0) && einval) || ((l =? ULONG_MAX) && erange) || (l >? U32 - 1) then None else Some l.
(** Assignment of an [unsigned int] to a [time_t]. *)
Definition to_time (v : Z) : Z := if LONG_BITS =? 32 then i32 v else v.

(** ** The options *)

(** [svr_opts] and [opts], and the local variables that hold an argument.
    [portcount] is the number of [ports], [num_hostkey_files] that of
    [hostkey_files]. *)
Record runopts := mkOpts {
  bannerfile : option (list Z);
  forced_command : option (list Z);
  forkbg : bool;
  norootlogin : bool;
  maxauthtries : Z;
  ports : list (list Z);
  addresses : list (list Z);
  hostkey_files : list (list Z);
  delay_hostkey : bool;
  pidfile : list Z;
  nolocaltcp : bool;
  noremotetcp : bool;
  listen_fwd_all : bool;
  banner : option buffer;
  recv_window : Z;
  keepalive_secs : Z;
  idle_timeout_secs : Z;
  recv_window_arg : option (list Z);
  keepalive_arg : option (list Z);
  idle_timeout_arg : option (list Z);
  maxauthtries_arg : option (list Z)
}.
Definition set_bannerfile (v : option (list Z)) (s : runopts) : runopts :=
  mkOpts v (forced_command s) (forkbg s) (norootlogin s) (maxauthtries s) (ports s) (addresses s)
    (hostkey_files s) (delay_hostkey s) (pidfile s) (nolocaltcp s) (noremotetcp s)
    (listen_fwd_all s) (banner s) (recv_window s) (keepalive_secs s) (idle_timeout_secs s)
    (recv_window_arg s) (keepalive_arg s) (idle_timeout_arg s) (maxauthtries_arg s).
Definition set_forced_command (v : option (list Z)) (s : runopts) : runopts :=
  mkOpts (bannerfile s) v (forkbg s) (norootlogin s) (maxauthtries s) (ports s) (addresses s)
    (hostkey_files s) (delay_hostkey s) (pidfile s) (nolocaltcp s) (noremotetcp s)
    (listen_fwd_all s) (banner s) (recv_window s) (keepalive_secs s) (idle_timeout_secs s)
    (recv_window_arg s) (keepalive_arg s) (idle_timeout_arg s) (maxauthtries_arg s).
Definition set_forkbg (v : bool) (s : runopts) : runopts :=
  mkOpts (bannerfile s) (forced_command s) v (norootlogin s) (maxauthtries s) (ports s)
    (addresses s) (hostkey_files s) (delay_hostkey s) (pidfile s) (nolocaltcp s) (noremotetcp s)
    (listen_fwd_all s) (banner s) (recv_window s) (keepalive_secs s) (idle_timeout_secs s)
    (recv_window_arg s) (keepalive_arg s) (idle_timeout_arg s) (maxauthtries_arg s).
Definition set_norootlogin (v : bool) (s : runopts) : runopts :=
  mkOpts (bannerfile s) (forced_command s) (forkbg s) v (maxauthtries s) (ports s) (addresses s)
    (hostkey_files s) (delay_hostkey s) (pidfile s) (nolocaltcp s) (noremotetcp s)
    (listen_fwd_all s) (banner s) (recv_window s) (keepalive_secs s) (idle_timeout_secs s)
    (recv_window_arg s) (keepalive_arg s) (idle_timeout_arg s) (maxauthtries_arg s).
Definition set_maxauthtries (v : Z) (s : runopts) : runopts :=
  mkOpts (bannerfile s) (forced_command s) (forkbg s) (norootlogin s) v (ports s) (addresses s)
    (hostkey_files s) (delay_hostkey s) (pidfile s) (nolocaltcp s) (noremotetcp s)
    (listen_fwd_all s) (banner s) (recv_window s) (keepalive_secs s) (idle_timeout_secs s)
    (recv_window_arg s) (keepalive_arg s) (idle_timeout_arg s) (maxauthtries_arg s).
Definition set_ports (v : list (list Z)) (s : runopts) : runopts :=
  mkOpts (bannerfile s) (forced_command s) (forkbg s) (norootlogin s) (maxauthtries s) v
    (addresses s) (hostkey_files s) (delay_hostkey s) (pidfile s) (nolocaltcp s) (noremotetcp s)
    (listen_fwd_all s) (banner s) (recv_window s) (keepalive_secs s) (idle_timeout_secs s)
    (recv_window_arg s) (keepalive_arg s) (idle_timeout_arg s) (maxauthtries_arg s).
Definition set_addresses (v : list (list Z)) (s : runopts) : runopts :=
  mkOpts (bannerfile s) (forced_command s) (forkbg s) (norootlogin s) (maxauthtries s) (ports s) v
    (hostkey_files s) (delay_hostkey s) (pidfile s) (nolocaltcp s) (noremotetcp s)
    (listen_fwd_all s) (banner s) (recv_window s) (keepalive_secs s) (idle_timeout_secs s)
    (recv_window_arg s) (keepalive_arg s) (idle_timeout_arg s) (maxauthtries_arg s).
Definition set_hostkey_files (v : list (list Z)) (s : runopts) : runopts :=
  mkOpts (bannerfile s) (forced_command s) (forkbg s) (norootlogin s) (maxauthtries s) (ports s)
    (addresses s) v (delay_hostkey s) (pidfile s) (nolocaltcp s) (noremotetcp s) (listen_fwd_all s)
    (banner s) (recv_window s) (keepalive_secs s) (idle_timeout_secs s) (recv_window_arg s)
    (keepalive_arg s) (idle_timeout_arg s) (maxauthtries_arg s).
Definition set_delay_hostkey (v : bool) (s : runopts) : runopts :=
  mkOpts (bannerfile s) (forced_command s) (forkbg s) (norootlogin s) (maxauthtries s) (ports s)
    (addresses s) (hostkey_files s) v (pidfile s) (nolocaltcp s) (noremotetcp s) (listen_fwd_all s)
    (banner s) (recv_window s) (keepalive_secs s) (idle_timeout_secs s) (recv_window_arg s)
    (keepalive_arg s) (idle_timeout_arg s) (maxauthtries_arg s).
Definition set_pidfile (v : list Z) (s : runopts) : runopts :=
  mkOpts (bannerfile s) (forced_command s) (forkbg s) (norootlogin s) (maxauthtries s) (ports s)
    (addresses s) (hostkey_files s) (delay_hostkey s) v (nolocaltcp s) (noremotetcp s)
    (listen_fwd_all s) (banner s) (recv_window s) (keepalive_secs s) (idle_timeout_secs s)
    (recv_window_arg s) (keepalive_arg s) (idle_timeout_arg s) (maxauthtries_arg s).
Definition set_nolocaltcp (v : bool) (s : runopts) : runopts :=
  mkOpts (bannerfile s) (forced_command s) (forkbg s) (norootlogin s) (maxauthtries s) (ports s)
    (addresses s) (hostkey_files s) (delay_hostkey s) (pidfile s) v (noremotetcp s)
    (listen_fwd_all s) (banner s) (recv_window s) (keepalive_secs s) (idle_timeout_secs s)
    (recv_window_arg s) (keepalive_arg s) (idle_timeout_arg s) (maxauthtries_arg s).
Definition set_noremotetcp (v : bool) (s : runopts) : runopts :=
  mkOpts (bannerfile s) (forced_command s) (forkbg s) (norootlogin s) (maxauthtries s) (ports s)
    (addresses s) (hostkey_files s) (delay_hostkey s) (pidfile s) (nolocaltcp s) v
    (listen_fwd_all s) (banner s) (recv_window s) (keepalive_secs s) (idle_timeout_secs s)
    (recv_window_arg s) (keepalive_arg s) (idle_timeout_arg s) (maxauthtries_arg s).
Definition set_listen_fwd_all (v : bool) (s : runopts) : runopts :=
  mkOpts (bannerfile s) (forced_command s) (forkbg s) (norootlogin s) (maxauthtries s) (ports s)
    (addresses s) (hostkey_files s) (delay_hostkey s) (pidfile s) (nolocaltcp s) (noremotetcp s) v
    (banner s) (recv_window s) (keepalive_secs s) (idle_timeout_secs s) (recv_window_arg s)
    (keepalive_arg s) (idle_timeout_arg s) (maxauthtries_arg s).
Definition set_banner (v : option buffer) (s : runopts) : runopts :=
  mkOpts (bannerfile s) (forced_command s) (forkbg s) (norootlogin s) (maxauthtries s) (ports s)
    (addresses s) (hostkey_files s) (delay_hostkey s) (pidfile s) (nolocaltcp s) (noremotetcp s)
    (listen_fwd_all s) v (recv_window s) (keepalive_secs s) (idle_timeout_secs s)
    (recv_window_arg s) (keepalive_arg s) (idle_timeout_arg s) (maxauthtries_arg s).
Definition set_recv_window (v : Z) (s : runopts) : runopts :=
  mkOpts (bannerfile s) (forced_command s) (forkbg s) (norootlogin s) (maxauthtries s) (ports s)
    (addresses s) (hostkey_files s) (delay_hostkey s) (pidfile s) (nolocaltcp s) (noremotetcp s)
    (listen_fwd_all s) (banner s) v (keepalive_secs s) (idle_timeout_secs s) (recv_window_arg s)
    (keepalive_arg s) (idle_timeout_arg s) (maxauthtries_arg s).
Definition set_keepalive_secs (v : Z) (s : runopts) : runopts :=
  mkOpts (bannerfile s) (forced_command s) (forkbg s) (norootlogin s) (maxauthtries s) (ports s)
    (addresses s) (hostkey_files s) (delay_hostkey s) (pidfile s) (nolocaltcp s) (noremotetcp s)
    (listen_fwd_all s) (banner s) (recv_window s) v (idle_timeout_secs s) (recv_window_arg s)
    (keepalive_arg s) (idle_timeout_arg s) (maxauthtries_arg s).
Definition set_idle_timeout_secs (v : Z) (s : runopts) : runopts :=
  mkOpts (bannerfile s) (forced_command s) (forkbg s) (norootlogin s) (maxauthtries s) (ports s)
    (addresses s) (hostkey_files s) (delay_hostkey s) (pidfile s) (nolocaltcp s) (noremotetcp s)
    (listen_fwd_all s) (banner s) (recv_window s) (keepalive_secs s) v (recv_window_arg s)
    (keepalive_arg s) (idle_timeout_arg s) (maxauthtries_arg s).
Definition set_recv_window_arg (v : option (list Z)) (s : runopts) : runopts :=
  mkOpts (bannerfile s) (forced_command s) (forkbg s) (norootlogin s) (maxauthtries s) (ports s)
    (addresses s) (hostkey_files s) (delay_hostkey s) (pidfile s) (nolocaltcp s) (noremotetcp s)
    (listen_fwd_all s) (banner s) (recv_window s) (keepalive_secs s) (idle_timeout_secs s) v
    (keepalive_arg s) (idle_timeout_arg s) (maxauthtries_arg s).
Definition set_keepalive_arg (v : option (list Z)) (s : runopts) : runopts :=
  mkOpts (bannerfile s) (forced_command s) (forkbg s) (norootlogin s) (maxauthtries s) (ports s)
    (addresses s) (hostkey_files s) (delay_hostkey s) (pidfile s) (nolocaltcp s) (noremotetcp s)
    (listen_fwd_all s) (banner s) (recv_window s) (keepalive_secs s) (idle_timeout_secs s)
    (recv_window_arg s) v (idle_timeout_arg s) (maxauthtries_arg s).
Definition set_idle_timeout_arg (v : option (list Z)) (s : runopts) : runopts :=
  mkOpts (bannerfile s) (forced_command s) (forkbg s) (norootlogin s) (maxauthtries s) (ports s)
    (addresses s) (hostkey_files s) (delay_hostkey s) (pidfile s) (nolocaltcp s) (noremotetcp s)
    (listen_fwd_all s) (banner s) (recv_window s) (keepalive_secs s) (idle_timeout_secs s)
    (recv_window_arg s) (keepalive_arg s) v (maxauthtries_arg s).
Definition set_maxauthtries_arg (v : option (list Z)) (s : runopts) : runopts :=
  mkOpts (bannerfile s) (forced_command s) (forkbg s) (norootlogin s) (maxauthtries s) (ports s)
    (addresses s) (hostkey_files s) (delay_hostkey s) (pidfile s) (nolocaltcp s) (noremotetcp s)
    (listen_fwd_all s) (banner s) (recv_window s) (keepalive_secs s) (idle_timeout_secs s)
    (recv_window_arg s) (keepalive_arg s) (idle_timeout_arg s) v.

(** What an option waits for. *)
Inductive target := TBannerfile | TForcedCommand | TKeyfile | TPidfile | TRecvWindow | TKeepalive | TIdleTimeout | TMaxauthtries.
Inductive wanted := WantPort | WantNext (t : target).
(** The characters of one argument, from the second on: the options, what is
    wanted, and the characters behind. *)
Fixpoint opt_chars (cs : list Z) (o : runopts) : outcome (runopts * option wanted * list Z) :=
  match cs with
  | [] => Ok (o, None, [])
  | c :: cs =>
      let stop w := Ok (o, Some w, cs) in
      if c =? 98 (* b *) then stop (WantNext TBannerfile)
      else if c =? 99 (* c *) then stop (WantNext TForcedCommand)
      else if (c =? 100) (* d *) || (c =? 114) (* r *) then stop (WantNext TKeyfile)
      else if c =? 82 (* R *) then opt_chars cs (set_delay_hostkey true o)
      else if c =? 70 (* F *) then opt_chars cs (set_forkbg false o)
      else if c =? 106 (* j *) then opt_chars cs (set_nolocaltcp true o)
      else if c =? 107 (* k *) then opt_chars cs (set_noremotetcp true o)
      else if c =? 97 (* a *) then opt_chars cs (set_listen_fwd_all true o)
      else if c =? 112 (* p *) then stop WantPort
      else if c =? 80 (* P *) then stop (WantNext TPidfile)
      else if c =? 119 (* w *) then opt_chars cs (set_norootlogin true o)
      else if c =? 87 (* W *) then stop (WantNext TRecvWindow)
      else if c =? 75 (* K *) then stop (WantNext TKeepalive)
      else if c =? 73 (* I *) then stop (WantNext TIdleTimeout)
      else if c =? 84 (* T *) then stop (WantNext TMaxauthtries)
      else if c =? 104 (* h *) then Exit "help"
      else if c =? 117 (* u *) then opt_chars cs o
      else if c =? 86 (* V *) then Exit "version"
      else Exit "Invalid option"
  end.
(** [strchr] and [strrchr]: what is in front of the character and behind it. *)
Fixpoint strchr (c : Z) (l : list Z) : option (list Z * list Z) :=
  match l with
  | [] => None
  | d :: l => if d =? c then Some ([], l) else prod_map (cons d) id <$> strchr c l
  end.
Fixpoint strrchr (c : Z) (l : list Z) : option (list Z * list Z) :=
  match l with
  | [] => None
  | d :: l =>
      match strrchr c l with
      | Some r => Some (prod_map (cons d) id r)
      | None => if d =? c then Some ([], l) else None
      end
  end.
(** The address and the port of a [spec]. *)
Definition split_spec (spec : list Z) : outcome (list Z * list Z) :=
  match spec with
  | 91 :: myspec =>
      match strchr 93 myspec with
      | None => Exit "Bad listen address"
      | Some (address, 58 :: port) => Ok (address, port)
      | Some _ => Exit "Missing port"
      end
  | _ =>
      match strrchr 58 spec with
      | None => Ok (DROPBEAR_DEFADDRESS, spec)
      | Some (address, port) => Ok (address, port)
      end
  end.
Definition addportandaddress (spec : list Z) (o : runopts) : outcome runopts :=
  if zlen (ports o) <? DROPBEAR_MAX_PORTS then
    r ← split_spec spec;
    let '(address, port) := r in
    if bool_decide (port = []) then Exit "Bad port"
    else Ok (set_addresses (addresses o ++ [address]) (set_ports (ports o ++ [port]) o))
  else Ok o.
Definition addhostkey (keyfile : list Z) (o : runopts) : outcome runopts :=
  if zlen (hostkey_files o) >=? MAX_HOSTKEYS then Exit "Too many hostkeys"
  else Ok (set_hostkey_files (hostkey_files o ++ [keyfile]) o).
Definition assign (w : wanted) (v : list Z) (o : runopts) : outcome runopts :=
  match w with
  | WantPort => addportandaddress v o
  | WantNext TBannerfile => Ok (set_bannerfile (Some v) o)
  | WantNext TForcedCommand => Ok (set_forced_command (Some v) o)
  | WantNext TKeyfile => addhostkey v o
  | WantNext TPidfile => Ok (set_pidfile v o)
  | WantNext TRecvWindow => Ok (set_recv_window_arg (Some v) o)
  | WantNext TKeepalive => Ok (set_keepalive_arg (Some v) o)
  | WantNext TIdleTimeout => Ok (set_idle_timeout_arg (Some v) o)
  | WantNext TMaxauthtries => Ok (set_maxauthtries_arg (Some v) o)
  end.
(** The arguments behind the name of the program. *)
Fixpoint opt_args (args : list (list Z)) (o : runopts) : outcome runopts :=
  match args with
  | [] => Ok o
  | (dash :: c :: cs) :: args =>
      if negb (dash =? 45) then Exit "Invalid argument"
      else
        r ← opt_chars (c :: cs) o;
        let '(o, want, rest) := r in
        match want, rest, args with
        | None, _, _ => opt_args args o
        | Some _, [], [] => Exit "Missing argument"
        | Some w, [], v :: args => o ← assign w v o; opt_args args o
        | Some w, v, _ => o ← assign w v o; opt_args args o
        end
  | _ => Exit "Invalid argument"
  end.
Definition default_opts (conf_path : list Z) : runopts :=
  mkOpts None None true false MAX_AUTH_TRIES [] [] [] false (conf_path_file conf_path (bytes_of_string "dropbear.pid"))
    false false false None DEFAULT_RECV_WINDOW 0 0 None None None None.

(** The banner: [stat] and what reading the file returns. *)
Context (stat_size : list Z → option Z) (files : list Z → option (list rd)).
Definition read_banner (o : runopts) : outcome runopts :=
  match bannerfile o with
  | None => Ok o
  | Some fn =>
      match stat_size fn with
      | None => Exit "Error opening banner file"
      | Some size =>
          if size >? MAX_BANNER_SIZE then Exit "Banner file too large"
          else
            b ← buf_new size;
            r ← buf_readfile (files fn) b;
            if negb r.1 then Exit "Error reading banner file"
            else b ← exec (buf_setpos 0) r.2; Ok (set_banner (Some b) o)
      end
  end.
(** A number that an option gives. *)
Definition number_arg (arg : option (list Z)) (bad : Z → bool) (msg : string) (f : Z → runopts → runopts) (o : runopts) : outcome runopts :=
  match arg with
  | None => Ok o
  | Some a => match m_str_to_uint a with Some v => if bad v then Exit msg else Ok (f v o) | None => Exit msg end
  end.
Definition window_arg (o : runopts) : outcome runopts :=
  match recv_window_arg o with
  | None => Ok o
  | Some a =>
      let w := u32 (atol a) in
      if (w =? 0) || (w >? MAX_RECV_WINDOW) then Exit "Bad recv window" else Ok (set_recv_window w o)
  end.
(** What follows the loop over the arguments. *)
Definition finish_opts (o : runopts) : outcome runopts :=
  let o := if zlen (ports o) =? 0 then set_addresses [DROPBEAR_DEFADDRESS] (set_ports [DROPBEAR_DEFPORT] o) else o in
  o ← read_banner o;
  o ← window_arg o;
  o ← number_arg (maxauthtries_arg o) (λ v, v =? 0) "Bad maxauthtries" set_maxauthtries o;
  o ← number_arg (keepalive_arg o) (λ _, false) "Bad keepalive" (λ v, set_keepalive_secs (to_time v)) o;
  number_arg (idle_timeout_arg o) (λ _, false) "Bad idle_timeout" (λ v, set_idle_timeout_secs (to_time v)) o.
Definition svr_getopts (conf_path : list Z) (argv : list (list Z)) : outcome runopts :=
  o ← opt_args (tail argv) (default_opts conf_path);
  finish_opts o.
End runopts.

Example getopts_example : ∃ o, svr_getopts 64 false (λ _, None) (λ _, None) (bytes_of_string "/data")
    (bytes_of_string <$> ["sshd"; "-R"; "-Fjp"; "[::1]:2222"; "-rkey"; "-K"; "60"; "-p"; "127.0.0.1:22"]%string) = Ok o ∧
  ports o = [bytes_of_string "2222"; bytes_of_string "22"] ∧ addresses o = [bytes_of_string "::1"; bytes_of_string "127.0.0.1"] ∧
  hostkey_files o = [bytes_of_string "key"] ∧ keepalive_secs o = 60 ∧ nolocaltcp o = true ∧ forkbg o = false.
Proof. eexists. by vm_compute. Qed.

(** ** Reading a file *)
Definition rd_bytes (r : rd) : Prop := match r with RdData bs => Forall is_byte bs | _ => True end.
Lemma room_ptr b : buf_wf b → buf_size b < 2147483648 → buf_getwriteptr (i32 (buf_size b - buf_pos b)) b = Ok (buf_pos b, b).
Proof.
  intros Hb Hs. rewrite i32_small by (buf_facts; lia). rewrite buf_getwriteptr_eq by (done || (buf_facts; lia)). by rewrite (proj2 (Z.leb_le _ _)) by lia.
Qed.
(** Each read adds what it got behind the contents. *)
Lemma readfile_loop_step bs rs b : buf_wf b → buf_pos b = buf_len b → buf_size b < 2147483648 → Forall is_byte bs →
  let got := take (Z.to_nat (buf_size b - buf_len b)) bs in
  readfile_loop (RdData bs :: rs) b =
    (if (zlen got <? buf_size b - buf_len b) && (zlen got >? 0) then readfile_loop rs else mret true) (buf_append b got).
Proof.
  intros Hb Hp Hs Hbs got. cbn [readfile_loop]. unfold mbind at 1, M_bind at 1, get at 1.
  unfold mbind at 1, M_bind at 1. rewrite room_ptr by done. cbn beta iota. rewrite Hp, (i32_small (buf_size b - buf_len b)) by (buf_facts; lia). fold got.
  assert (Hg : zlen got ≤ buf_size b - buf_len b) by (unfold got; rewrite length_take; buf_facts; lia).
  unfold mbind at 1, M_bind at 1. rewrite buf_store_eq by (done || (buf_facts; lia)).
  unfold mbind at 1, M_bind at 1. rewrite buf_incrwritepos_eq; [|apply buf_wf_store; try done; [buf_facts; lia..|]; unfold got; auto with ssh|buf_facts; lia].
  cbn [buf_pos buf_size buf_len set_data]. rewrite (proj2 (Z.leb_le _ _)) by (buf_facts; lia). unfold buf_append, set_pos, set_len, set_data.
  cbn [buf_data buf_len buf_pos buf_size]. by rewrite Hp, Z.max_r by lia.
Qed.
(** The bytes that are read into a buffer with [room] bytes left. *)
Fixpoint file_bytes (room : nat) (rs : list rd) : option (list Z) :=
  match rs with
  | [] | RdAgain :: _ => Some []
  | RdFail :: _ => None
  | RdData bs :: rs =>
      let got := take room bs in
      if (Nat.ltb (length got) room) && (Nat.ltb 0 (length got)) then app got <$> file_bytes (room - length got) rs else Some got
  end.
Lemma file_bytes_ok room rs bs : Forall rd_bytes rs → file_bytes room rs = Some bs → (length bs ≤ room)%nat ∧ Forall is_byte bs.
Proof.
  intros Hrs. revert room bs. induction Hrs as [|r rs Hr Hrs IH]; intros room bs E; cbn in E; [simplify_eq; cbn; split; [lia|done]|].
  destruct r as [got| |]; simplify_eq; [|cbn; split; [lia|done]]. cbn in Hr.
  assert (Hg : Forall is_byte (take room got)) by auto with ssh. pose proof (length_take got room) as Hl.
  destruct (_ && _); [|simplify_eq; split; [lia|done]].
  apply fmap_Some in E as (bs' & E & ->). destruct (IH _ _ E) as [H1 H2]. rewrite length_app. split; [lia|auto with ssh].
Qed.
Lemma readfile_loop_ok E rs b : buf_wf b → buf_pos b = buf_len b → buf_size b < 2147483648 → Forall rd_bytes rs →
  ewp E (readfile_loop rs) (λ ok b', match file_bytes (Z.to_nat (buf_size b - buf_len b)) rs with
    | Some bs => ok = true ∧ b' = buf_append b bs | None => ok = false end) b.
Proof.
  intros Hb Hp Hs Hrs. revert b Hb Hp Hs. induction Hrs as [|r rs Hr Hrs IH]; intros b Hb Hp Hs.
  - cbn [readfile_loop file_bytes]. do 3 ewp_step. eapply ewp_ok; [by apply room_ptr|].
    ewp_step. eapply ewp_ok; [rewrite buf_incrwritepos_eq by (done || lia); rewrite (proj2 (Z.leb_le _ _)) by (buf_facts; lia); done|].
    ewp_step. rewrite buf_append_nil by done. split; [done|]. destruct b; cbn in *. by rewrite Z.add_0_r, Hp, Z.max_id.
  - destruct r as [bs| |].
    + unfold ewp. rewrite readfile_loop_step by done. fold (ewp E (if (zlen (take (Z.to_nat (buf_size b - buf_len b)) bs) <? buf_size b - buf_len b) && (zlen (take (Z.to_nat (buf_size b - buf_len b)) bs) >? 0) then readfile_loop rs else mret true)
        (λ ok b', match file_bytes (Z.to_nat (buf_size b - buf_len b)) (RdData bs :: rs) with Some bs => ok = true ∧ b' = buf_append b bs | None => ok = false end)
        (buf_append b (take (Z.to_nat (buf_size b - buf_len b)) bs))).
      cbn [file_bytes]. set (room := Z.to_nat (buf_size b - buf_len b)). set (got := take room bs).
      assert (Hg : zlen got ≤ buf_size b - buf_len b) by (unfold got, room; rewrite length_take; buf_facts; lia).
      assert (Hgb : Forall is_byte got) by (unfold got; cbn in Hr; auto with ssh).
      replace ((zlen got <? buf_size b - buf_len b) && (zlen got >? 0)) with ((Nat.ltb (length got) room) && (Nat.ltb 0 (length got))).
      2: { unfold room. buf_facts. apply eq_bool_prop_intro. rewrite !Is_true_true, !andb_true_iff, !Nat.ltb_lt, Z.ltb_lt, Z.gtb_lt. lia. }
      destruct (_ && _); [|by ewp_step].
      assert (Hb' : buf_wf (buf_append b got)) by (apply buf_wf_append; [done|done|lia]).
      eapply ewp_mono; [apply IH; [done|done|done]|]. cbn [buf_append buf_size buf_len]. intros ok b' H.
      replace (Z.to_nat (buf_size b - (buf_len b + zlen got))) with (room - length got)%nat in H by (unfold room; lia).
      destruct (file_bytes (room - length got) rs) as [rest|] eqn:Er; cbn; [|done]. destruct H as [-> ->]. split; [done|].
      apply (buf_append_append b Hb). apply file_bytes_ok in Er as [Er _]; [|done]. unfold room in Er. lia.
    + cbn [readfile_loop file_bytes]. do 3 ewp_step. eapply ewp_ok; [by apply room_ptr|]. ewp_step. by rewrite buf_append_nil.
    + cbn [readfile_loop file_bytes]. do 3 ewp_step. eapply ewp_ok; [by apply room_ptr|]. by ewp_step.
Qed.
(** However it is read, a file arrives as it is, up to the size of the buffer. *)
Lemma file_bytes_pieces room pieces : Forall (λ bs, bs ≠ []) pieces → file_bytes room (RdData <$> pieces) = Some (take room (concat pieces)).
Proof.
  intros Hp. revert room. induction Hp as [|bs pieces Hne Hp IH]; intros room; [by destruct room|]. cbn [fmap list_fmap file_bytes concat].
  destruct (Nat.ltb_spec (length (take room bs)) room) as [Hlt|Hge]; rewrite length_take in *; [destruct (Nat.ltb_spec 0 (room `min` length bs)) as [|Hz]|]; cbn [andb].
  - rewrite IH. cbn. rewrite (take_ge bs), take_app, (take_ge bs) by lia. by replace (room `min` length bs)%nat with (length bs) by lia.
  - exfalso. destruct bs; [done|]. cbn in Hz, Hlt. lia.
  - rewrite take_app, (proj2 (Nat.sub_0_le room (length bs))) by lia. by rewrite take_0, app_nil_r.
Qed.

(** ** What the options are *)
(** The options an invocation of the daemon can have. *)
Record opts_ok (o : runopts) : Prop := {
  oo_ports : zlen (ports o) ≤ DROPBEAR_MAX_PORTS;
  oo_addresses : length (addresses o) = length (ports o);
  oo_port : Forall (λ p, p ≠ []) (ports o);
  oo_keys : zlen (hostkey_files o) ≤ MAX_HOSTKEYS;
  oo_window : 0 < recv_window o ≤ MAX_RECV_WINDOW;
  oo_tries : 0 < maxauthtries o < U32;
  oo_banner : match banner o with Some b => buf_wf b ∧ buf_pos b = 0 ∧ buf_len b ≤ MAX_BANNER_SIZE | None => True end
}.
(** No argument takes back what others have set. *)
Record grows (o o' : runopts) : Prop := {
  gr_ports : ports o `prefix_of` ports o';
  gr_addresses : addresses o `prefix_of` addresses o';
  gr_keys : hostkey_files o `prefix_of` hostkey_files o';
  gr_delay : delay_hostkey o = true → delay_hostkey o' = true;
  gr_bg : forkbg o = false → forkbg o' = false;
  gr_local : nolocaltcp o = true → nolocaltcp o' = true;
  gr_remote : noremotetcp o = true → noremotetcp o' = true;
  gr_root : norootlogin o = true → norootlogin o' = true
}.
#[global] Instance grows_preorder : PreOrder grows.
Proof.
  split; [intros o; by split|]. intros o1 o2 o3 [] []. split; auto; etrans; eassumption.
Qed.
Definition better (o o' : runopts) : Prop := opts_ok o' ∧ grows o o'.
(** An option that sets a field neither mentions. *)
Ltac keep_opts := split; [by constructor|by constructor].
Lemma opt_chars_ok cs o : opts_ok o → owp (λ r, better o r.1.1) (opt_chars cs o).
Proof.
  revert o. induction cs as [|c cs IH]; intros o Ho; cbn [opt_chars]; [by split|].
  assert (Hset : ∀ o', better o o' → owp (λ r, better o r.1.1) (opt_chars cs o')).
  { intros o' [Ho' Hg]. eapply owp_mono; [by apply IH|]. intros r [Hr Hg']. split; [done|]. by etrans. }
  assert (Hnow : ∀ w, owp (λ r : runopts * option wanted * list Z, better o r.1.1) (Ok (o, Some w, cs))) by (intros w; by split).
  repeat (case_if; [first [done|apply Hnow|apply Hset; destruct Ho; keep_opts]|]). done.
Qed.
Lemma assign_ok w v o : opts_ok o → owp (better o) (assign w v o).
Proof.
  intros Ho. destruct w as [|[]]; cbn [assign]; try (destruct Ho; keep_opts).
  - unfold addportandaddress. case_if; [|by split]. apply owp_bind. destruct (split_spec v) as [[a p]| |] eqn:Es; cbn; [|done|].
    + case_bool_decide as Hp; [done|]. destruct Ho. split; split; cbn; try done; try (by apply prefix_app_r).
      * rewrite length_app. cbn. lia.
      * rewrite !length_app. cbn. lia.
      * apply Forall_app. split; [done|]. by apply Forall_singleton.
    + revert Es. unfold split_spec. by repeat case_match.
  - unfold addhostkey. case_if; [done|]. destruct Ho. split; split; cbn; try done; [|by apply prefix_app_r]. rewrite length_app. cbn.
    unfold MAX_HOSTKEYS in *. lia.
Qed.
Lemma better_trans o1 o2 : better o1 o2 → ∀ o3, better o2 o3 → better o1 o3.
Proof. intros [_ H1] o3 [H2 H3]. split; [done|]. by etrans. Qed.
Lemma opt_args_ok n args o : (length args ≤ n)%nat → opts_ok o → owp (better o) (opt_args args o).
Proof.
  revert args o. induction n as [|n IH]; intros [|a args] o Hn Ho; cbn in Hn; try lia; try (by split).
  assert (Hnext : ∀ o' w v rest, better o o' → (length rest ≤ n)%nat → owp (better o) (o ← assign w v o'; opt_args rest o)).
  { intros o' w v rest Ho' Hr. apply owp_bind. eapply owp_mono; [by apply assign_ok, Ho'|]. intros o2 Ho2.
    eapply owp_mono; [apply IH; [done|apply Ho2]|]. intros o3 Ho3. eapply better_trans; [|done]. by eapply better_trans. }
  destruct a as [|dash [|c cs]]; [done|done|]. cbn [opt_args]. case_if; [done|].
  apply owp_bind. eapply owp_mono; [by apply opt_chars_ok|]. intros [[o' want] rest] Ho'. cbn [fst] in Ho'.
  destruct want as [w|]; [destruct rest as [|r rest]; [destruct args as [|v args]; [done|]|]|].
  - apply Hnext; [done|cbn in *; lia].
  - apply Hnext; [done|lia].
  - eapply owp_mono; [apply IH; [lia|apply Ho']|]. by apply better_trans.
Qed.
Lemma default_opts_ok conf_path : opts_ok (default_opts conf_path).
Proof. split; cbn; try done. Qed.

Section getopts.
Context (LONG_BITS : Z) (sets_einval : bool) (stat_size : list Z → option Z) (files : list Z → option (list rd)).
Hypothesis Hbits : 32 ≤ LONG_BITS.
Hypothesis Hstat : ∀ fn n, stat_size fn = Some n → 0 ≤ n.
Hypothesis Hfiles : ∀ fn rs, files fn = Some rs → Forall rd_bytes rs.
Lemma read_banner_ok o : opts_ok o → owp (better o) (read_banner stat_size files o).
Proof.
  intros Ho. unfold read_banner. destruct (bannerfile o) as [fn|]; [|by split]. destruct (stat_size fn) as [n|] eqn:En; [|done]. apply Hstat in En.
  case_if; [done|]. unfold MAX_BANNER_SIZE in *. unfold buf_new. case_if; [unfold BUF_MAX_SIZE in *; lia|]. cbn [mbind outcome_bind obind].
  set (b := mkBuf (replicate (Z.to_nat n) 0) 0 0 n).
  assert (Hb : buf_wf b). { split; cbn; unfold BUF_MAX_SIZE; try lia; [rewrite length_replicate; lia|]. by apply Forall_replicate. }
  destruct (files fn) as [rs|] eqn:Er; [|done]. apply Hfiles in Er. pose proof (readfile_loop_ok False rs b Hb eq_refl ltac:(cbn; lia) Er) as Hw.
  unfold ewp in Hw. cbn [buf_readfile]. destruct (readfile_loop rs b) as [[ok b']| |]; cbn; [|done..].
  destruct (file_bytes _ _) as [bs|] eqn:Ef; [|by subst ok]. destruct Hw as [-> ->]. cbn [fst snd negb].
  apply file_bytes_ok in Ef as [Ef Eb]; [|done]. cbn in Ef. assert (Hb' : buf_wf (buf_append b bs)) by (apply buf_wf_append; [done|done|cbn; lia]).
  unfold exec, buf_setpos. run. case_if; [cbn in *; lia|]. destruct Ho. split; split; try done. cbn. split; [|cbn; unfold MAX_BANNER_SIZE; split; [done|lia]].
  apply (buf_wf_set_pos _ Hb'). cbn. lia.
Qed.
Lemma window_arg_ok o : opts_ok o → owp (better o) (window_arg LONG_BITS o).
Proof.
  intros Ho. unfold window_arg. destruct (recv_window_arg o) as [a|]; [|by split]. case_if; [done|]. pose proof (u32_range (atol LONG_BITS a)).
  destruct Ho. split; split; try done. cbn. lia.
Qed.
Lemma number_arg_ok arg bad msg f o : opts_ok o → (∀ v, 0 ≤ v < U32 → bad v = false → better o (f v o)) →
  owp (better o) (number_arg LONG_BITS sets_einval arg bad msg f o).
Proof.
  intros Ho Hf. unfold number_arg. destruct arg as [a|]; [|by split]. destruct (m_str_to_uint _ _ a) as [v|] eqn:Ev; [|done].
  destruct (bad v) eqn:Eb; [done|]. apply Hf; [|done]. revert Ev. unfold m_str_to_uint, strtoul. destruct (scan_number a) as [[neg n] any].
  assert (Hmod : ∀ x, 0 ≤ x mod (ULONG_MAX LONG_BITS + 1)) by (intros x; apply Z.mod_pos_bound; unfold ULONG_MAX; pose proof (Z.pow_pos_nonneg 2 LONG_BITS); lia).
  destruct (Z.gtb_spec n (ULONG_MAX LONG_BITS)); case_if; intros ?; simplify_eq; [bool_lia|]. specialize (Hmod (if neg then - n else n)). lia.
Qed.
Abbreviation finish := (finish_opts LONG_BITS sets_einval stat_size files).
Abbreviation getopts := (svr_getopts LONG_BITS sets_einval stat_size files).
Lemma finish_opts_ok o : opts_ok o → owp (λ o', better o o' ∧ 0 < zlen (ports o')) (finish o).
Proof.
  intros Ho. unfold finish_opts. set (o1 := if zlen (ports o) =? 0 then _ else _).
  assert (H1 : better o o1 ∧ 0 < zlen (ports o1)).
  { unfold o1. destruct (Z.eqb_spec (zlen (ports o)) 0) as [E|E]; [|split; [by split|lia]]. destruct (ports o) as [|x l] eqn:Ep; [|cbn in E; lia].
    split; [|done]. pose proof (oo_addresses _ Ho) as Ha. rewrite Ep in Ha. destruct (addresses o) eqn:Ea; [|done]. destruct Ho.
    split; split; cbn; rewrite ?Ep, ?Ea; try done; try (by apply prefix_nil). by apply Forall_singleton. }
  clearbody o1. destruct H1 as [H1 Hp].
  assert (Hstep : ∀ (f : outcome runopts) g o2, better o1 o2 → owp (better o2) f → (∀ o3, better o1 o3 → owp (better o1) (g o3)) → owp (better o1) (f ≫= g)).
  { intros f g o2 H2 Hf Hg. apply owp_bind. eapply owp_mono; [done|]. intros o3 H3. apply Hg. by eapply (better_trans _ _ H2). }
  assert (Hrefl : better o1 o1) by (split; [apply H1|done]).
  eapply owp_mono; [|intros o' Ho'; split; [by eapply (better_trans _ _ H1)|]; destruct (gr_ports _ _ (proj2 Ho')) as [l ->]; rewrite length_app; lia].
  assert (Htimes : ∀ o2 v, better o1 o2 → better o2 (set_keepalive_secs v o2) ∧ better o2 (set_idle_timeout_secs v o2)).
  { intros o2 v [[] _]. split; keep_opts. }
  apply (Hstep _ _ o1); [done|apply read_banner_ok, H1|]. intros o2 H2.
  apply (Hstep _ _ o2); [done|apply window_arg_ok, H2|]. intros o3 H3.
  apply (Hstep _ _ o3); [done| |].
  { apply number_arg_ok; [apply H3|]. intros v Hv Hz. destruct H3 as [[] _]. split; split; try done. cbn. lia. }
  intros o4 H4. apply (Hstep _ _ o4); [done| |].
  { apply number_arg_ok; [apply H4|]. intros v _ _. by apply Htimes. }
  intros o5 H5. eapply owp_mono; [apply number_arg_ok; [apply H5|]; intros v _ _; by apply Htimes|]. by apply better_trans.
Qed.

(** Any command line: [svr_getopts] has no undefined behaviour, and what it
    returns is in range: between one and ten ports, none empty, each with an
    address, at most three host keys, a receive window the channels can use, at
    least one try to authenticate, and a banner of at most two thousand bytes. *)
Theorem getopts_ok conf_path argv : owp (λ o, opts_ok o ∧ 0 < zlen (ports o)) (getopts conf_path argv).
Proof.
  unfold svr_getopts. apply owp_bind. eapply owp_mono; [apply (opt_args_ok (length (tail argv))); [done|apply default_opts_ok]|].
  intros o [Ho _]. eapply owp_mono; [by apply finish_opts_ok|]. intros o' [[? _] ?]. done.
Qed.
End getopts.

(** ** Addresses and ports *)
Lemma strchr_none c l : Forall (λ d, d ≠ c) l → strchr c l = None.
Proof. induction 1 as [|d l Hd Hl IH]; [done|]. cbn. by rewrite (proj2 (Z.eqb_neq d c)), IH by done. Qed.
Lemma strrchr_none c l : Forall (λ d, d ≠ c) l → strrchr c l = None.
Proof. induction 1 as [|d l Hd Hl IH]; [done|]. cbn. by rewrite IH, (proj2 (Z.eqb_neq d c)) by done. Qed.
Lemma strchr_found c l r : Forall (λ d, d ≠ c) l → strchr c (l ++ c :: r) = Some (l, r).
Proof. induction 1 as [|d l Hd Hl IH]; cbn; [by rewrite Z.eqb_refl|]. by rewrite (proj2 (Z.eqb_neq d c)), IH by done. Qed.
Lemma strrchr_found c l r : Forall (λ d, d ≠ c) r → strrchr c (l ++ c :: r) = Some (l, r).
Proof. intros Hr. induction l as [|d l IH]; cbn; [by rewrite strrchr_none, Z.eqb_refl|]. by rewrite IH. Qed.
(** Writing an address and a port for [-p]: an address with colons in brackets. *)
Definition print_spec (address port : list Z) : list Z :=
  if bool_decide (58 ∈ address) then [91] ++ address ++ [93; 58] ++ port else address ++ [58] ++ port.
(** What is written for [-p] is read back, and a port alone is for any
    address. *)
Theorem split_spec_roundtrip address port : Forall (λ c, c ≠ 58) port → Forall (λ c, c ≠ 93) address → head address ≠ Some 91 → head port ≠ Some 91 →
  split_spec (print_spec address port) = Ok (address, port) ∧ split_spec port = Ok ([], port).
Proof.
  intros Hp Ha Hh Hh'. assert (Hother : ∀ l, head l ≠ Some 91 → split_spec l = match strrchr 58 l with None => Ok (DROPBEAR_DEFADDRESS, l) | Some (a, p) => Ok (a, p) end).
  { intros l Hl. unfold split_spec. repeat case_match; try done. }
  split; [|rewrite Hother by done; by rewrite strrchr_none]. unfold print_spec. case_bool_decide as E.
  - cbn [app split_spec]. by rewrite strchr_found.
  - rewrite Hother; [cbn [app]; by rewrite strrchr_found|]. by destruct address.
Qed.
Lemma split_spec_roundtrip_witness : split_spec (print_spec (bytes_of_string "::1") (bytes_of_string "2222")) = Ok (bytes_of_string "::1", bytes_of_string "2222") ∧
  split_spec (bytes_of_string "2222") = Ok ([], bytes_of_string "2222").
Proof. apply split_spec_roundtrip; try (apply (bool_decide_unpack _); by vm_compute); done. Defined.

(** ** The command line of the application *)
Lemma digits_chars fuel n acc : 0 ≤ n → Forall (λ c, 48 ≤ c ≤ 57) acc → Forall (λ c, 48 ≤ c ≤ 57) (digits fuel n acc) ∧ (fuel ≠ 0%nat → digits fuel n acc ≠ []).
Proof.
  revert n acc. induction fuel as [|fuel IH]; intros n acc Hn Ha; [done|]. cbn [digits]. pose proof (Z.mod_pos_bound n 10).
  assert (Ha' : Forall (λ c, 48 ≤ c ≤ 57) (48 + n mod 10 :: acc)) by (constructor; [lia|done]).
  case_if; [done|]. destruct (IH (n / 10) (48 + n mod 10 :: acc)) as [H1 H2]; [apply Z.div_pos; lia|done|]. split; [done|]. intros _.
  destruct fuel; [done|]. by apply H2.
Qed.
Lemma print_int_chars n : Forall (λ c, 45 ≤ c ≤ 57) (print_int n) ∧ print_int n ≠ [].
Proof.
  unfold print_int. case_if.
  - split; [|done]. constructor; [lia|]. eapply Forall_impl; [apply digits_chars; [bool_lia|done]|]. cbn. lia.
  - destruct (digits_chars 10 n []) as [H1 H2]; [bool_lia|done|]. split; [|by apply H2]. eapply Forall_impl; [exact H1|]. cbn. lia.
Qed.
Lemma print_int_spec n : split_spec (print_int n) = Ok ([], print_int n).
Proof.
  destruct (print_int_chars n) as [Hc _]. apply (split_spec_roundtrip [] (print_int n)); [|done|done|].
  - eapply Forall_impl; [exact Hc|]. cbn. lia.
  - destruct Hc; cbn; [done|]. intros [= ->]. lia.
Qed.
(** The application's own options, which come first. *)
Definition own_opts (conf_path : list Z) (port : Z) : runopts :=
  let o := set_forkbg false (set_delay_hostkey true (default_opts conf_path)) in
  if port =? 0 then o else set_addresses [[]] (set_ports [print_int port] o).
Lemma own_opts_ok conf_path port : opts_ok (own_opts conf_path port).
Proof.
  unfold own_opts. case_if; [by split|]. split; cbn; try done. apply Forall_singleton, print_int_chars.
Qed.
Lemma opt_args_own conf_path port rest :
  opt_args ([bytes_of_string "-R"; bytes_of_string "-F"] ++ (if port =? 0 then [] else [bytes_of_string "-p"; print_int port]) ++ rest) (default_opts conf_path) =
  opt_args rest (own_opts conf_path port).
Proof.
  unfold own_opts. case_if; [done|].
  change (opt_args _ (default_opts conf_path)) with (o ← addportandaddress (print_int port) (set_forkbg false (set_delay_hostkey true (default_opts conf_path))); opt_args rest o).
  unfold addportandaddress. rewrite print_int_spec. cbn. by rewrite bool_decide_eq_false_2 by apply print_int_chars.
Qed.

Section app.
Context (LONG_BITS : Z) (sets_einval : bool) (stat_size : list Z → option Z) (files : list Z → option (list rd)).
Abbreviation getopts := (svr_getopts LONG_BITS sets_einval stat_size files).
(** C36. The application and the server agree on the command line: whatever the
    port and the extra options, the arguments [start_sshd] puts together are
    read by [svr_getopts] without undefined behaviour.  If the server starts,
    host keys are made when they are needed, it stays in the foreground and it
    listens on that port on every address, first of all, whatever the extra
    options say; all options are in range (ports, addresses, host keys, the
    receive window of the channels, tries and banner).  Without extra options
    it does start. *)
Theorem app_command_line conf_path port extra : 32 ≤ LONG_BITS → (∀ fn n, stat_size fn = Some n → 0 ≤ n) →
  (∀ fn rs, files fn = Some rs → Forall rd_bytes rs) →
  ∃ argv, start_sshd port extra = Ok argv ∧
    owp (λ o, opts_ok o ∧ 0 < zlen (ports o) ∧ delay_hostkey o = true ∧ forkbg o = false ∧
      (port ≠ 0 → head (ports o) = Some (print_int port) ∧ head (addresses o) = Some [])) (getopts conf_path argv) ∧
    (extra = None → ∃ o, getopts conf_path argv = Ok o).
Proof.
  intros Hbits Hstat Hfiles. unfold start_sshd. set (own := [_; _; _] ++ _).
  destruct (split_cmd_ok extra (ARGV_SIZE - zlen own)) as (rest & E & _); [unfold own, ARGV_SIZE; case_if; cbn; lia|].
  rewrite (obind_ok _ _ _ E). exists (own ++ rest). split; [done|].
  assert (Hget : getopts conf_path (own ++ rest) = o ← opt_args rest (own_opts conf_path port); finish_opts LONG_BITS sets_einval stat_size files o).
  { unfold svr_getopts. rewrite <-opt_args_own. unfold own. rewrite <-!app_assoc. done. }
  rewrite Hget. split.
  - apply owp_bind. eapply owp_mono; [apply (opt_args_ok (length rest)); [done|apply own_opts_ok]|]. intros o [Ho Hg].
    eapply owp_mono; [by apply finish_opts_ok|]. intros o' [[Ho' Hg'] Hp]. assert (Hall : grows (own_opts conf_path port) o') by (by etrans).
    destruct Hall as [[lp Ep] [la Ea] _ Hd Hb _ _ _]. split_and!; [done|done| | |].
    + apply Hd. unfold own_opts. by case_if.
    + apply Hb. unfold own_opts. by case_if.
    + intros Hne. rewrite Ep, Ea. unfold own_opts. by rewrite (proj2 (Z.eqb_neq _ _)).
  - intros ->. unfold split_cmd in E. cbn [mbind outcome_bind obind] in E. revert E. case_if; intros E; simplify_eq. cbn [opt_args mbind outcome_bind obind]. unfold own_opts. by case_if; eexists.
Qed.
End app.
Lemma app_command_line_witness : ∃ argv, start_sshd 2222 (Some (bytes_of_string "-K 60 -p 22")) = Ok argv ∧
  owp (λ o, opts_ok o ∧ 0 < zlen (ports o) ∧ delay_hostkey o = true ∧ forkbg o = false ∧
      (2222 ≠ 0 → head (ports o) = Some (print_int 2222) ∧ head (addresses o) = Some []))
    (svr_getopts 64 false (λ _, None) (λ _, None) (bytes_of_string "/data") argv) ∧
  (Some (bytes_of_string "-K 60 -p 22") = None → ∃ o, svr_getopts 64 false (λ _, None) (λ _, None) (bytes_of_string "/data") argv = Ok o).
Proof. apply (app_command_line 64 false (λ _, None) (λ _, None)); [lia|done|done]. Defined.
(** And with these extra options the server does start. *)
Example app_example : (argv ← start_sshd 2222 (Some (bytes_of_string "-K 60 -p 22")); o ← svr_getopts 64 false (λ _, None) (λ _, None) (bytes_of_string "/data") argv; Ok (ports o, keepalive_secs o)) =
  Ok ([bytes_of_string "2222"; bytes_of_string "22"], 60).
Proof. by vm_compute. Qed.
(** [-W] is not checked as it is written: a number is cut to 32 bits first. *)
Example window_wraps : ∃ o, svr_getopts 64 false (λ _, None) (λ _, None) [] (bytes_of_string <$> ["sshd"; "-W"; "4294967297"]%string) = Ok o ∧ recv_window o = 1.
Proof. eexists. by vm_compute. Qed.
(** A banner file whose reading is interrupted is taken for empty. *)
Example interrupted_banner : ∃ o b, svr_getopts 64 false (λ _, Some 5) (λ _, Some [RdAgain; RdData (bytes_of_string "hello")]) [] (bytes_of_string <$> ["sshd"; "-b"; "f"]%string) = Ok o ∧
  banner o = Some b ∧ buf_len b = 0.
Proof. do 2 eexists. by vm_compute. Qed.
