(* ===== verification/BufferSu.v ===== *)
(** * The buffering wrapper of [rsync] ([jni/buffersu.c])

    The wrapper runs [rsync] behind two pipes and copies between its own
    standard input and output and the child's, with a queue of blocks in each
    direction.  The blocks are linked like the elements of [DList], so a queue
    is such a list with the content of a block as its item.  What a system call
    returns is an argument: the descriptors [select] reports, the bytes [read]
    gives, the count [write] takes, and the moments at which [SIGCHLD] is
    delivered.  Starting the child is not modelled. *)
From S2P Require Import Prelude Queue DList.

Definition MAX_BUFSZ : Z := 1024 * 1024.
Definition BLKSZ : Z := 1024.
Record block := mkBlock { b_buf : list Z; b_ofs : Z; b_len : Z }.
(** [struct buf]: [l_first] is [head], [l_last] is [tail]. *)
Abbreviation buf := (m_list block).

(** One direction of the copy: its buffer, and what has gone in and out of the
    process on its descriptors. *)
Record pipe := mkPipe { p_buf : buf; p_read : list Z; p_written : list Z }.
Definition set_buf (b : buf) (p : pipe) : pipe := mkPipe b (p_read p) (p_written p).
Definition log_read (bs : list Z) (p : pipe) : pipe := mkPipe (p_buf p) (p_read p ++ bs) (p_written p).
Definition log_written (bs : list Z) (p : pipe) : pipe := mkPipe (p_buf p) (p_read p) (p_written p ++ bs).
Definition on_buf {A} (m : M buf A) : M pipe A := zoom p_buf set_buf m.

(** [exit(0)], with its cause. *)
Definition die {S A} (why : string) : M S A := λ _, Exit why.

(** The loop of [buf_length]. *)
Fixpoint buf_length_loop (fuel : nat) (p : option loc) (ret : Z) : M buf Z :=
  match p with
  | None => mret ret
  | Some _ =>
      match fuel with
      | O => undefined "fuel"
      | S fuel => e ← deref l_heap p; ret ← sadd ret (b_len (e_item e)); buf_length_loop fuel (e_next e) ret
      end
  end.
Definition buf_length : M buf Z :=
  b ← get; buf_length_loop (size (l_heap b)) (l_first b) 0.
Definition buf_waiting (b : buf) : bool := bool_decide (is_Some (l_first b)).

(** What [read] did: it failed, or it filled the first [n] bytes of [t]. *)
Inductive read_result := RErr | RBytes (n : Z) (t : list Z).
(** A new block behind the tail. *)
Definition add_block (x : block) : M buf () :=
  b ← get;
  let p := fresh (dom (l_heap b) : gset loc) in
  modify (λ b, set_heap (<[p := mkElem x None (l_last b)]> (l_heap b)) b);;
  when (bool_decide (is_Some (l_last b))) (upd_elem (l_last b) (set_next (Some p)));;
  modify (set_last (Some p));;
  b ← get;
  when (negb (bool_decide (is_Some (l_first b)))) (modify (set_first (Some p))).
Definition buf_read (r : read_result) : M pipe Z :=
  match r with
  | RErr => die "read"
  | RBytes n t =>
      if n =? 0 then mret 0
      else
        modify (log_read (take (Z.to_nat n) t));;
        on_buf (add_block (mkBlock t 0 n));;
        mret n
  end.

(** The rest of a block's bytes that [write] is given. *)
Definition block_bytes (x : block) : list Z := take (Z.to_nat (b_len x)) (drop (Z.to_nat (b_ofs x)) (b_buf x)).
Definition block_in (x : block) : bool := (0 <=? b_ofs x) && (0 <=? b_len x) && (b_ofs x + b_len x <=? zlen (b_buf x)).
(** The head is done with. *)
Definition drop_head (p : loc) (next : option loc) : M buf () :=
  (if bool_decide (is_Some next) then
     modify (set_first next);; upd_elem next (set_prev None)
   else modify (set_first None);; modify (set_last None));;
  modify (λ b, set_heap (delete p (l_heap b)) b).
(** [wr] says how much of the bytes [write] takes, or that it raises
    [SIGPIPE]. *)
Definition buf_write (wr : list Z → option Z) : M pipe () :=
  s ← get;
  match l_first (p_buf s) with
  | None => mret tt
  | Some p =>
      e ← on_buf (deref l_heap (Some p));
      let x := e_item e in
      if negb (block_in x) then undefined "write from outside the block"
      else
        match wr (block_bytes x) with
        | None => die "SIGPIPE"
        | Some n =>
            if n <=? 0 then mret tt
            else
              modify (log_written (take (Z.to_nat n) (block_bytes x)));;
              on_buf (upd_elem (Some p) (λ e, mkElem (mkBlock (b_buf x) (b_ofs x + n) (b_len x - n)) (e_next e) (e_prev e)));;
              e ← on_buf (deref l_heap (Some p));
              when (b_len (e_item e) <=? 0) (on_buf (drop_head p (e_next e)))
        end
  end.

(** ** The loop of [main] *)
Record wrapper := mkWrapper { buf0 : pipe; buf1 : pipe; child_dead : bool }.
Definition set_buf0 (p : pipe) (w : wrapper) : wrapper := mkWrapper p (buf1 w) (child_dead w).
Definition set_buf1 (p : pipe) (w : wrapper) : wrapper := mkWrapper (buf0 w) p (child_dead w).
Definition set_dead (w : wrapper) : wrapper := mkWrapper (buf0 w) (buf1 w) true.
Definition start : wrapper := mkWrapper (mkPipe list_new [] []) (mkPipe list_new [] []) false.

(** A descriptor set: 0, [child_stdout], 1 and [child_stdin]. *)
Record fds := mkFds { f_in : bool; f_child_out : bool; f_out : bool; f_child_in : bool }.
Definition fds_and (a b : fds) : fds :=
  mkFds (f_in a && f_in b) (f_child_out a && f_child_out b) (f_out a && f_out b) (f_child_in a && f_child_in b).
(** What happens in one turn: the descriptors that are ready, or [None] when
    [select] fails and leaves the sets as they are; what the reads and writes
    do; whether [SIGCHLD] is delivered before the first test of
    [child_dead], before the second, before the third. *)
Record turn := mkTurn {
  t_select : option fds;
  t_in : read_result; t_child_out : read_result;
  t_out : list Z → option Z; t_child_in : list Z → option Z;
  t_sig1 : bool; t_sig2 : bool; t_sig3 : bool }.
Definition sigchld : M wrapper () := modify set_dead.

Definition main_round (t : turn) : M wrapper () :=
  n0 ← zoom buf0 set_buf0 (on_buf buf_length);
  n1 ← zoom buf1 set_buf1 (on_buf buf_length);
  when (t_sig1 t) sigchld;;
  s ← get;
  let out := buf_waiting (p_buf (buf1 s)) in
  when (negb out && child_dead s) (die "child dead");;
  when (t_sig2 t) sigchld;;
  s ← get;
  let wanted := mkFds (n0 <? MAX_BUFSZ) (n1 <? MAX_BUFSZ) out (negb (child_dead s) && buf_waiting (p_buf (buf0 s))) in
  let set := match t_select t with None => wanted | Some ready => fds_and wanted ready end in
  when (f_in set) (n ← zoom buf0 set_buf0 (buf_read (t_in t)); mret tt);;
  when (f_child_out set) (n ← zoom buf1 set_buf1 (buf_read (t_child_out t)); when (n =? 0) (modify set_dead));;
  when (f_out set) (zoom buf1 set_buf1 (buf_write (t_out t)));;
  when (t_sig3 t) sigchld;;
  s ← get;
  when (negb (child_dead s) && f_child_in set) (zoom buf0 set_buf0 (buf_write (t_child_in t))).
Fixpoint main_loop (ts : list turn) : M wrapper () :=
  match ts with [] => mret tt | t :: ts => main_round t;; main_loop ts end.

(** ** The content of a buffer *)
Definition block_ok (x : block) : Prop := 0 ≤ b_ofs x ∧ 0 < b_len x ≤ BLKSZ ∧ b_ofs x + b_len x ≤ zlen (b_buf x).
Definition pending (xs : list block) : list Z := concat (map block_bytes xs).
(** Nothing is lost, duplicated or reordered. *)
Definition pipe_at (p : pipe) (xs : list block) : Prop :=
  list_rep (p_buf p) xs ∧ Forall block_ok xs ∧ p_read p = p_written p ++ pending xs.
(** [read] and [write] as they are documented. *)
Definition read_ok (r : read_result) : Prop :=
  match r with RErr => True | RBytes n t => 0 ≤ n ≤ BLKSZ ∧ zlen t = BLKSZ end.
Definition write_ok (wr : list Z → option Z) : Prop := ∀ bs n, wr bs = Some n → n ≤ zlen bs.
Definition turn_ok (t : turn) : Prop :=
  read_ok (t_in t) ∧ read_ok (t_child_out t) ∧ write_ok (t_out t) ∧ write_ok (t_child_in t).

Lemma block_bytes_length x : block_ok x → zlen (block_bytes x) = b_len x.
Proof. intros (H1 & H2 & H3). unfold block_bytes. rewrite length_take, length_drop. lia. Qed.
Lemma pending_app xs ys : pending (xs ++ ys) = pending xs ++ pending ys.
Proof. unfold pending. by rewrite map_app, concat_app. Qed.
Lemma block_in_ok x : block_ok x → block_in x = true.
Proof. unfold block_in. intros (H1 & H2 & H3). rewrite !andb_true_iff, !Z.leb_le. lia. Qed.

Lemma buf_length_loop_ok b ls xs fuel prev p last ret : dseg (l_heap b) prev p ls xs None last → (length ls ≤ fuel)%nat →
  Forall block_ok xs → 0 ≤ ret → ret + zlen (pending xs) ≤ 2147483647 →
  buf_length_loop fuel p ret b = Ok (ret + zlen (pending xs), b).
Proof.
  revert fuel prev p xs ret. induction ls as [|l ls IH]; intros fuel prev p [|x xs] ret Hc Hf Hx Hr Hm; try done.
  - destruct Hc as [-> _]. destruct fuel; cbn [buf_length_loop pending map concat length]; by rewrite Z.add_0_r.
  - destruct Hc as (-> & n & Hl & Hc). apply Forall_cons in Hx as [Hx Hxs]. cbn [length] in Hf. destruct fuel as [|fuel]; [lia|].
    cbn [buf_length_loop]. erewrite bind_ok by (by apply deref_ok). cbn [e_item e_next].
    change (pending (x :: xs)) with (block_bytes x ++ pending xs) in *. rewrite length_app in *. pose proof (block_bytes_length x Hx) as Hb.
    destruct Hx as (_ & Hx & _).
    erewrite bind_ok by (apply sadd_ok; lia). erewrite IH by (done || lia). do 2 f_equal. lia.
Qed.
Lemma buf_length_ok b xs : list_rep b xs → Forall block_ok xs → zlen (pending xs) ≤ 2147483647 → buf_length b = Ok (zlen (pending xs), b).
Proof.
  intros [ls H] Hx Hm. unfold buf_length. erewrite bind_ok by done. pose proof (list_at_size _ _ _ H) as Hs. destruct H as (Hc & _).
  pose proof (dseg_length _ _ _ _ _ _ _ Hc). by rewrite (buf_length_loop_ok _ _ _ _ _ _ _ _ Hc) by (done || lia).
Qed.
Lemma buf_waiting_ok b xs : list_rep b xs → buf_waiting b = bool_decide (xs ≠ []).
Proof.
  intros [ls (Hc & _)]. unfold buf_waiting. apply bool_decide_ext. destruct ls, xs; cbn in Hc; try done.
  - destruct Hc as [-> _]. split; [by intros []|done].
  - destruct Hc as [-> _]. split; [done|by eexists].
Qed.

(** Linking a block is [list_append], dropping the head is [list_remove]. *)
Lemma add_block_append x s ls xs : list_at s ls xs → add_block x s = list_append x s.
Proof.
  intros (Hc & _ & _). unfold add_block, list_append. rewrite (bind_ok get _ s s s), (bind_ok get _ s s s) by done.
  pose proof (dseg_first _ _ _ _ _ _ _ Hc) as Hf. pose proof (dseg_last _ _ _ _ _ _ _ Hc) as Hl. destruct s as [h fi la]. cbn [l_heap l_first l_last] in *.
  destruct ls as [|l ls]; cbn in Hf; [cbn in Hl; by subst fi la|].
  assert (exists t, la = Some t) as [t ->] by (rewrite Hl, last_cons; destruct (last ls); eauto). rewrite Hf.
  rewrite (bool_decide_eq_true_2 (is_Some (Some t))) by done. rewrite (bool_decide_eq_false_2 (Some l = None)) by done. cbn [when].
  unfold mbind, M_bind, modify, get. cbv beta iota. rewrite !upd_elem_cases. cbn [l_heap l_first l_last set_heap].
  by destruct (_ !! t).
Qed.
Lemma drop_head_at s l ls x xs n : list_at s (l :: ls) (x :: xs) → l_heap s !! l = Some (mkElem x n None) →
  ∃ s', drop_head l n s = Ok (tt, s') ∧ list_at s' ls xs.
Proof.
  intros H Hx. destruct (list_remove_at s [] l ls _ H) as (xs1 & y & ys & s' & Exs & Hlen & E & H').
  destruct xs1; [|done]. injection Exs as <- <-. exists s'. split; [|done].
  destruct H as (Hc & Hnd & _). destruct s as [h fi la]. cbn [l_heap l_first l_last] in *. destruct Hc as (-> & n' & Hx' & Hc). rewrite Hx in Hx'. injection Hx' as <-.
  unfold list_remove in E. erewrite bind_ok in E by (by apply deref_ok). cbn [e_next e_prev e_item] in E. erewrite bind_ok in E by done. cbn [l_first] in E.
  rewrite (bool_decide_eq_true_2 (Some l = Some l)) in E by done. cbn [when] in E. erewrite bind_ok in E by done. erewrite bind_ok in E by done. cbn [l_last set_first] in E.
  rewrite (bool_decide_eq_false_2 (is_Some (@None loc))) in E by (by intros []).
  pose proof (dseg_last _ _ _ _ _ _ _ Hc) as Hla. pose proof (dseg_first _ _ _ _ _ _ _ Hc) as Hn. unfold drop_head. destruct ls as [|k ls]; cbn in Hn.
  - cbn in Hla. subst. rewrite (bool_decide_eq_true_2 (Some l = Some l)) in E by done. rewrite bool_decide_eq_false_2 in * by (by intros []).
    unfold mbind, M_bind in *. cbn in *. by injection E as <-.
  - rewrite Hn in *. rewrite (bool_decide_eq_true_2 (is_Some (Some k))) in * by done. rewrite (bool_decide_eq_false_2 (la = Some l)) in E.
    + cbn [when] in E. unfold mbind, M_bind, modify, get, mret, M_ret in *. cbv beta iota in *. rewrite !upd_elem_cases in *. cbn [l_heap set_first] in *.
      destruct (h !! k); [by injection E as <-|done].
    + rewrite Hla, last_cons. apply NoDup_cons in Hnd as [Hni _]. destruct (last ls) as [t|] eqn:Et; intros [= ->]; apply Hni; [|left].
      apply last_Some in Et as [? ->]. set_solver.
Qed.

Lemma buf_read_ok p xs n t : pipe_at p xs → 0 < n ≤ BLKSZ → zlen t = BLKSZ →
  ∃ p', buf_read (RBytes n t) p = Ok (n, p') ∧ pipe_at p' (xs ++ [mkBlock t 0 n]) ∧ p_written p' = p_written p.
Proof.
  intros ([ls Hl] & Hx & Hp) Hn Ht. unfold buf_read. rewrite (proj2 (Z.eqb_neq n 0)) by lia.
  destruct (list_append_at _ ls xs (mkBlock t 0 n) Hl) as (b' & l & E & H'). erewrite <- add_block_append in E by exact Hl.
  erewrite bind_ok by done. erewrite bind_ok by (apply zoom_ok; exact E). eexists. split; [done|]. split; [|done].
  split; [by exists (ls ++ [l])|]. split; [apply Forall_app_2; [done|]; apply Forall_singleton; unfold block_ok; cbn; lia|].
  cbn [p_read p_written set_buf log_read]. rewrite pending_app, Hp, <- app_assoc. unfold pending. cbn [map concat]. unfold block_bytes at 3. cbn [b_len b_ofs b_buf]. by rewrite drop_0, app_nil_r.
Qed.
Definition written_block (x : block) (n : Z) : block := mkBlock (b_buf x) (b_ofs x + n) (b_len x - n).
Lemma written_block_bytes x n : block_ok x → 0 ≤ n ≤ b_len x → take (Z.to_nat n) (block_bytes x) ++ block_bytes (written_block x n) = block_bytes x.
Proof.
  intros (H1 & H2 & H3) Hn. unfold block_bytes, written_block. cbn [b_len b_ofs b_buf]. rewrite take_take, Nat.min_l by lia.
  rewrite Z2Nat.inj_add, <- drop_drop by lia. rewrite <- (take_drop (Z.to_nat n) (take (Z.to_nat (b_len x)) _)). rewrite take_take, Nat.min_l by lia.
  f_equal. rewrite skipn_firstn_comm. f_equal. lia.
Qed.
Lemma buf_write_ok p x xs wr n : pipe_at p (x :: xs) → wr (block_bytes x) = Some n → 0 < n ≤ zlen (block_bytes x) →
  ∃ p', buf_write wr p = Ok (tt, p') ∧ pipe_at p' (if b_len x - n <=? 0 then xs else written_block x n :: xs) ∧
    p_written p' = p_written p ++ take (Z.to_nat n) (block_bytes x) ∧ p_read p' = p_read p.
Proof.
  intros ([ls Hl] & [Hx Hxs]%Forall_cons & Hp) Hw Hn. rewrite block_bytes_length in Hn by done.
  destruct ls as [|l ls]; [by destruct Hl as [[] _]|]. destruct (list_at_set_first _ _ _ _ _ (written_block x n) Hl) as (nx & El & Hl').
  assert (Hf : l_first (p_buf p) = Some l) by (by destruct Hl as [[? _] _]).
  unfold buf_write. erewrite bind_ok by done. rewrite Hf. erewrite bind_ok by (apply zoom_ok; by apply deref_ok). cbn [e_item e_next e_prev].
  rewrite block_in_ok by done. cbn [negb]. rewrite Hw, (proj2 (Z.leb_gt n 0)) by lia. erewrite bind_ok by done.
  erewrite bind_ok by (apply zoom_ok, upd_elem_ok; exact El). cbn [e_next e_prev].
  erewrite bind_ok by (apply zoom_ok, deref_ok; apply lookup_insert_eq). cbn [e_item e_next b_len].
  pose proof (written_block_bytes x n Hx ltac:(lia)) as Hb. change (pending (x :: xs)) with (block_bytes x ++ pending xs) in Hp.
  destruct (Z.leb_spec (b_len x - n) 0) as [Hz|Hz]; cbn [when].
  - destruct (drop_head_at _ _ _ _ _ nx Hl') as (b' & E & H'); [apply lookup_insert_eq|].
    eexists. split; [apply zoom_ok; exact E|]. split; [|done]. split; [by exists ls|]. split; [done|]. cbn. rewrite Hp, <- app_assoc. f_equal.
    rewrite take_ge; [done|]. pose proof (block_bytes_length x Hx). lia.
  - eexists. split; [done|]. split; [|done]. split; [by exists (l :: ls)|]. destruct Hx as (H1 & H2 & H3). split.
    + apply Forall_cons. split; [|done]. unfold block_ok, written_block. cbn. lia.
    + cbn [p_read p_written set_buf log_read log_written]. change (pending (?y :: xs)) with (block_bytes y ++ pending xs). rewrite Hp, <- app_assoc. f_equal. by rewrite app_assoc, Hb.
Qed.

(** ** Exits

    [wpx m X Q s] is [wp] with a condition on the cause of an exit. *)
Definition wpx {S A} (m : M S A) (X : string → Prop) (Q : A → S → Prop) (s : S) : Prop :=
  match m s with Ok (a, s') => Q a s' | Exit e => X e | UB _ => False end.
Section wpx_lemmas.
Context {S : Type} (X : string → Prop).
Lemma wpx_ok {A} (m : M S A) (Q : A → S → Prop) s a s' : m s = Ok (a, s') → Q a s' → wpx m X Q s.
Proof. unfold wpx. by intros ->. Qed.
Lemma wpx_exit {A} (m : M S A) (Q : A → S → Prop) s e : m s = Exit e → X e → wpx m X Q s.
Proof. unfold wpx. by intros ->. Qed.
Lemma wpx_bind {A B} (m : M S A) (f : A → M S B) Q s : wpx m X (λ a s', wpx (f a) X Q s') s → wpx (m ≫= f) X Q s.
Proof. unfold wpx, mbind, M_bind. by destruct (m s) as [[]| |]. Qed.
Lemma wpx_mono {A} (m : M S A) (P Q : A → S → Prop) s : wpx m X P s → (∀ a s', P a s' → Q a s') → wpx m X Q s.
Proof. unfold wpx. destruct (m s) as [[]| |]; auto. Qed.
Lemma wpx_when (b : bool) (m : M S ()) Q s : (b = true → wpx m X Q s) → (b = false → Q tt s) → wpx (when b m) X Q s.
Proof. destruct b; cbn; auto. Qed.
Lemma wpx_zoom {T A} (view : S → T) (upd : T → S → S) (m : M T A) Q s :
  wpx m X (λ a t, Q a (upd t s)) (view s) → wpx (zoom view upd m) X Q s.
Proof. unfold wpx, zoom. by destruct (m (view s)) as [[]| |]. Qed.
Lemma wpx_wp {A} (m : M S A) Q s : wpx m X Q s → wp m Q s.
Proof. unfold wpx, wp. by destruct (m s) as [[]| |]. Qed.
End wpx_lemmas.

(** ** The loop *)
Definition pipe_inv (p : pipe) : Prop := ∃ xs, pipe_at p xs ∧ zlen (pending xs) < MAX_BUFSZ + BLKSZ.
Definition wrapper_inv (w : wrapper) : Prop := pipe_inv (buf0 w) ∧ pipe_inv (buf1 w).

Lemma on_buf_length p xs : pipe_at p xs → zlen (pending xs) < MAX_BUFSZ + BLKSZ → on_buf buf_length p = Ok (zlen (pending xs), p).
Proof.
  intros (H1 & H2 & _) Hm. unfold on_buf. erewrite zoom_ok; [|apply buf_length_ok; [exact H1|done|unfold MAX_BUFSZ, BLKSZ in Hm; lia]]. by destruct p.
Qed.
Lemma wpx_buf_read (X : string → Prop) p xs r : X "read"%string → pipe_at p xs → zlen (pending xs) < MAX_BUFSZ → read_ok r →
  wpx (buf_read r) X (λ _ p', pipe_inv p') p.
Proof.
  intros HX H Hm Hr. destruct r as [|n t]; [done|]. destruct Hr as [Hn Ht]. destruct (Z.eqb_spec n 0) as [->|Hz].
  - eapply wpx_ok; [done|]. exists xs. split; [done|]. unfold BLKSZ. lia.
  - destruct (buf_read_ok p xs n t H) as (p' & E & H' & _); [lia|done|]. eapply wpx_ok; [exact E|]. eexists. split; [exact H'|].
    rewrite pending_app, length_app. unfold pending at 2. cbn [map concat]. rewrite app_nil_r, Nat2Z.inj_add, block_bytes_length by (unfold block_ok; cbn; lia). cbn. lia.
Qed.
Lemma buf_write_empty p wr : pipe_at p [] → buf_write wr p = Ok (tt, p).
Proof. intros ([[|] (Hc & _)] & _); [|done]. destruct Hc as [Hc _]. unfold buf_write. erewrite bind_ok by done. by rewrite Hc. Qed.
Definition refused (r : option Z) : bool := match r with Some n => n <=? 0 | None => true end.
Lemma buf_write_refused p x xs wr : pipe_at p (x :: xs) → refused (wr (block_bytes x)) = true →
  buf_write wr p = match wr (block_bytes x) with None => Exit "SIGPIPE" | Some _ => Ok (tt, p) end.
Proof.
  intros ([[|l ls] (Hc & _)] & [Hx _]%Forall_cons & _) Hw; [done|]. destruct Hc as (Hf & nx & El & _).
  unfold buf_write. erewrite bind_ok by done. rewrite Hf. erewrite bind_ok by (apply zoom_ok; by apply deref_ok). cbn [e_item]. rewrite block_in_ok by done. cbn [negb].
  destruct (wr _) as [n|]; [|by destruct p]. cbn in Hw. rewrite Hw. by destruct p.
Qed.
Lemma wpx_buf_write (X : string → Prop) p wr : X "SIGPIPE"%string → pipe_inv p → write_ok wr → wpx (buf_write wr) X (λ _ p', pipe_inv p') p.
Proof.
  intros HX (xs & H & Hm) Hw. destruct xs as [|x xs]; [eapply wpx_ok; [by apply buf_write_empty|by exists []]|].
  destruct (refused (wr (block_bytes x))) eqn:Hr.
  - unfold wpx. rewrite (buf_write_refused p x xs wr H Hr). destruct (wr _); [|done]. by exists (x :: xs).
  - destruct (wr (block_bytes x)) as [n|] eqn:E; [|done]. apply Z.leb_gt in Hr. specialize (Hw _ _ E).
    destruct (buf_write_ok p x xs wr n H E ltac:(lia)) as (p' & E' & H' & _ & Hrd). eapply wpx_ok; [exact E'|]. eexists. split; [exact H'|].
    destruct H as (_ & [Hx _]%Forall_cons & _). pose proof (written_block_bytes x n Hx) as Hb. rewrite block_bytes_length in Hw by done.
    apply (f_equal length) in Hb; [|lia]. rewrite length_app in Hb.
    change (pending (x :: xs)) with (block_bytes x ++ pending xs) in Hm. rewrite length_app in Hm. destruct (_ <=? 0); [lia|].
    change (pending (?y :: xs)) with (block_bytes y ++ pending xs). rewrite length_app. lia.
Qed.

(** Only [child_dead] differs. *)
Definition same_bufs (w w' : wrapper) : Prop := buf0 w' = buf0 w ∧ buf1 w' = buf1 w.
Lemma wpx_sig X b Q w : (∀ w', same_bufs w w' → Q tt w') → wpx (when b sigchld) X Q w.
Proof. intros H. destruct b; apply H; by split. Qed.
Lemma wpx_main_round (X : string → Prop) t w xs0 xs1 : pipe_at (buf0 w) xs0 → zlen (pending xs0) < MAX_BUFSZ + BLKSZ →
  pipe_at (buf1 w) xs1 → zlen (pending xs1) < MAX_BUFSZ + BLKSZ → turn_ok t →
  X "read"%string → X "SIGPIPE"%string → (xs1 = [] → X "child dead"%string) →
  wpx (main_round t) X (λ _ w', wrapper_inv w') w.
Proof.
  intros H0 Hm0 H1 Hm1 (Hi & Hc & Ho & Hci) Xr Xp Xd. unfold main_round.
  apply wpx_bind. eapply wpx_ok; [apply zoom_ok, (on_buf_length _ _ H0 Hm0)|]. apply wpx_bind. eapply wpx_ok; [apply zoom_ok, (on_buf_length _ _ H1 Hm1)|].
  apply wpx_bind, wpx_sig. intros w1 [E0 E1]. cbn [set_buf0 set_buf1 buf0 buf1] in *. apply wpx_bind. eapply wpx_ok; [done|].
  rewrite E1, (buf_waiting_ok _ xs1) by apply H1.
  apply wpx_bind. apply wpx_when; intros Hd; [eapply wpx_exit; [done|]; apply Xd; by destruct xs1|].
  apply wpx_bind, wpx_sig. intros w2 [E0' E1']. apply wpx_bind. eapply wpx_ok; [done|]. rewrite E0 in E0'. rewrite E1 in E1'.
  set (fs := match t_select t with None => _ | Some _ => _ end). clear Hd.
  assert (Hfs : (f_in fs = true → zlen (pending xs0) < MAX_BUFSZ) ∧ (f_child_out fs = true → zlen (pending xs1) < MAX_BUFSZ)).
  { subst fs. destruct (t_select t); cbn; rewrite ?andb_true_iff, ?Z.ltb_lt; naive_solver. }
  clearbody fs. destruct Hfs as [Hf0 Hf1].
  apply wpx_bind, (wpx_mono _ _ (λ _ w', pipe_inv (buf0 w') ∧ buf1 w' = buf1 w)).
  { apply wpx_when; intros Hb; [|rewrite E0'; split; [by exists xs0|done]]. apply wpx_bind, wpx_zoom. rewrite E0'. eapply wpx_mono; [by apply (wpx_buf_read _ _ _ _ Xr H0); auto|]. by intros. }
  intros _ w3 [Hp0 E1'']. apply wpx_bind, (wpx_mono _ _ (λ _ w', wrapper_inv w')).
  { apply wpx_when; intros Hb; [|split; [done|rewrite E1''; by exists xs1]]. apply wpx_bind, wpx_zoom. rewrite E1''. eapply wpx_mono; [by apply (wpx_buf_read _ _ _ _ Xr H1); auto|].
    intros n p Hp. apply wpx_when; intros _; [eapply wpx_ok; [done|]|]; by split. }
  clear - Ho Hci Xp. intros _ w [H0 H1]. apply wpx_bind, (wpx_mono _ _ (λ _ w', wrapper_inv w')).
  { apply wpx_when; intros Hb; [|by split]. apply wpx_zoom. eapply wpx_mono; [by apply wpx_buf_write|]. by intros. }
  clear H0 H1 w. intros _ w [H0 H1]. apply wpx_bind, wpx_sig. intros w' [E0 E1]. apply wpx_bind. eapply wpx_ok; [done|].
  apply wpx_when; intros Hb; [|split; by rewrite ?E0, ?E1].
  apply wpx_zoom. rewrite E0. eapply wpx_mono; [by apply wpx_buf_write|]. intros ? p Hp. split; [done|]. cbn. by rewrite E1.
Qed.
Lemma wp_main_loop ts w : wrapper_inv w → Forall turn_ok ts → wp (main_loop ts) (λ _ w', wrapper_inv w') w.
Proof.
  intros Hw Ht. revert w Hw. induction Ht as [|t ts H Ht IH]; intros w Hw; [done|]. cbn. apply wp_bind. destruct Hw as [(? & ? & ?) (? & ? & ?)].
  eapply wp_mono; [by eapply (wpx_wp (λ _, True)), wpx_main_round|]. auto.
Qed.
Lemma start_inv : wrapper_inv start.
Proof. split; exists []; (split; [|done]); (split; [exists []; apply list_new_at|]); split; done || constructor. Qed.

(** C40. The wrapper copies faithfully.  Whatever descriptors are ready, however
    much each [read] and [write] transfers and whenever [SIGCHLD] arrives, in
    each direction the bytes written so far are the first of the bytes read,
    in order, and the rest, less than [MAX_BUFSZ + BLKSZ], is in the buffer;
    no block is read outside its bytes, and no null or freed block is
    followed.  When the loop ends because the child is dead, everything that
    was read from the child has been written. *)
Theorem wrapper_lossless ts : Forall turn_ok ts →
  wp (main_loop ts) (λ _ w,
    (∃ q0, p_read (buf0 w) = p_written (buf0 w) ++ q0 ∧ zlen q0 < MAX_BUFSZ + BLKSZ) ∧
    (∃ q1, p_read (buf1 w) = p_written (buf1 w) ++ q1 ∧ zlen q1 < MAX_BUFSZ + BLKSZ) ∧
    ∀ t, turn_ok t → main_round t w = Exit "child dead" → p_written (buf1 w) = p_read (buf1 w)) start.
Proof.
  intros Ht. eapply wp_mono; [apply wp_main_loop; [apply start_inv|done]|]. intros _ w [(xs0 & H0 & Hm0) (xs1 & H1 & Hm1)].
  split; [exists (pending xs0); split; [apply H0|done]|]. split; [exists (pending xs1); split; [apply H1|done]|]. intros t Hok E.
  pose proof (wpx_main_round (λ e, e = "child dead" → xs1 = [])%string t w xs0 xs1 H0 Hm0 H1 Hm1 Hok) as H. unfold wpx in H. rewrite E in H.
  rewrite (H ltac:(done) ltac:(done) ltac:(done) eq_refl) in H1. destruct H1 as (_ & _ & ->). by rewrite app_nil_r.
Qed.
(** A turn in which everything is ready, the child gives three bytes and
    standard output takes two. *)
Definition turn_example : turn :=
  mkTurn (Some (mkFds true true true true)) (RBytes 1 (7 :: replicate 1023 0)) (RBytes 3 (1 :: 2 :: 3 :: replicate 1021 0))
    (λ bs, Some (Z.min 2 (zlen bs))) (λ bs, Some (zlen bs)) false false false.
Lemma turn_example_ok : turn_ok turn_example.
Proof. split; [done|]. split; [done|]. split; intros bs n; cbn [t_out t_child_in turn_example]; intros [= <-]; lia. Qed.
Lemma wrapper_lossless_witness :
  match main_loop [turn_example; turn_example; turn_example] start with
  | Ok (_, w) => p_read (buf1 w) = [1; 2; 3; 1; 2; 3; 1; 2; 3] ∧ p_written (buf1 w) = [1; 2; 3] ∧ p_written (buf0 w) = [7; 7]
  | _ => False
  end ∧
  wp (main_loop [turn_example; turn_example; turn_example]) (λ _ w,
    (∃ q0, p_read (buf0 w) = p_written (buf0 w) ++ q0 ∧ zlen q0 < MAX_BUFSZ + BLKSZ) ∧
    (∃ q1, p_read (buf1 w) = p_written (buf1 w) ++ q1 ∧ zlen q1 < MAX_BUFSZ + BLKSZ) ∧
    ∀ t, turn_ok t → main_round t w = Exit "child dead" → p_written (buf1 w) = p_read (buf1 w)) start.
Proof.
  split; [vm_compute; by repeat split|]. apply (wrapper_lossless [turn_example; turn_example; turn_example]).
  repeat (apply Forall_cons; split; [apply turn_example_ok|]). constructor.
Defined.

(** ** Ending *)

(** A turn in which the child and the input are silent and standard output
    takes at least a byte. *)
Definition drain_turn (t : turn) : Prop :=
  (∃ ci, t_select t = Some (mkFds false false true ci)) ∧
  ∀ bs, bs ≠ [] → ∃ n, t_out t bs = Some n ∧ 0 < n ≤ zlen bs.
Definition dead_at (w : wrapper) (xs : list block) : Prop :=
  pipe_inv (buf0 w) ∧ pipe_at (buf1 w) xs ∧ zlen (pending xs) < MAX_BUFSZ + BLKSZ ∧ child_dead w = true.
Lemma when_sig b w : child_dead w = true → when b sigchld w = Ok (tt, w).
Proof. intros H. destruct w. cbn in H. subst. by destruct b. Qed.
Lemma set_buf0_id w : set_buf0 (buf0 w) w = w.
Proof. by destruct w. Qed.
Lemma set_buf1_id w : set_buf1 (buf1 w) w = w.
Proof. by destruct w. Qed.
(** The start of a turn, up to the first test of [child_dead]. *)
Lemma round_top t w xs : dead_at w xs → ∃ n0 n1, main_round t w =
  (let out := bool_decide (xs ≠ []) in
   when (negb out) (die "child dead");;
   let wanted := mkFds (n0 <? MAX_BUFSZ) (n1 <? MAX_BUFSZ) out false in
   let set := match t_select t with None => wanted | Some ready => fds_and wanted ready end in
   when (f_in set) (n ← zoom buf0 set_buf0 (buf_read (t_in t)); mret tt);;
   when (f_child_out set) (n ← zoom buf1 set_buf1 (buf_read (t_child_out t)); when (n =? 0) (modify set_dead));;
   when (f_out set) (zoom buf1 set_buf1 (buf_write (t_out t)));;
   when (t_sig3 t) sigchld;;
   s ← get;
   when (negb (child_dead s) && f_child_in set) (zoom buf0 set_buf0 (buf_write (t_child_in t)))) w.
Proof.
  intros ((xs0 & H0 & Hm0) & H1 & Hm1 & Hd). exists (zlen (pending xs0)), (zlen (pending xs)). unfold main_round.
  erewrite bind_ok by (apply zoom_ok, on_buf_length; [exact H0|done]). rewrite set_buf0_id.
  erewrite bind_ok by (apply zoom_ok, on_buf_length; [exact H1|done]). rewrite set_buf1_id.
  erewrite bind_ok by (by apply when_sig). erewrite bind_ok by done. rewrite (buf_waiting_ok _ xs) by apply H1. rewrite Hd, andb_true_r. cbv zeta.
  destruct (bool_decide (xs ≠ [])); cbn [negb when]; [|done]. erewrite bind_ok by done. erewrite bind_ok by (by apply when_sig). erewrite bind_ok by done.
  rewrite Hd. reflexivity.
Qed.
Lemma round_done t w : dead_at w [] → main_round t w = Exit "child dead".
Proof. intros H. destruct (round_top t w [] H) as (n0 & n1 & ->). done. Qed.
Lemma round_drains t w x xs : dead_at w (x :: xs) → drain_turn t →
  ∃ w' xs', main_round t w = Ok (tt, w') ∧ dead_at w' xs' ∧ zlen (pending xs') < zlen (pending (x :: xs)) ∧ p_read (buf1 w') = p_read (buf1 w).
Proof.
  intros H [[ci Hs] Ho]. destruct (round_top t w _ H) as (n0 & n1 & ->). destruct H as (H0 & H1 & Hm & Hd). cbv zeta. rewrite Hs.
  rewrite bool_decide_eq_true_2 by done. unfold fds_and. cbn [f_in f_child_out f_out f_child_in negb when andb]. rewrite !andb_false_r. cbn [when].
  do 3 erewrite bind_ok by done.
  pose proof H1 as (_ & [Hx _]%Forall_cons & _). pose proof (block_bytes_length x Hx) as Hb. destruct (Ho (block_bytes x)) as (n & En & Hn).
  { intros E. rewrite E in Hb. destruct Hx as (_ & Hx & _). cbn in Hb. lia. }
  destruct (buf_write_ok _ _ _ _ n H1 En Hn) as (p' & E & H1' & _ & Hr). erewrite bind_ok by (apply zoom_ok; exact E).
  erewrite bind_ok by (by apply when_sig). erewrite bind_ok by done. cbn [child_dead set_buf1]. rewrite Hd. cbn [negb andb when].
  eexists _, _. split; [done|].
  assert (Hlt : zlen (pending (if b_len x - n <=? 0 then xs else written_block x n :: xs)) < zlen (pending (x :: xs))).
  { pose proof (written_block_bytes x n Hx ltac:(lia)) as Hw. apply (f_equal length) in Hw. rewrite length_app, length_take in Hw.
    change (pending (?y :: xs)) with (block_bytes y ++ pending xs). destruct (Z.leb_spec (b_len x - n) 0);
      change (pending (?y :: xs)) with (block_bytes y ++ pending xs); rewrite ?length_app; lia. }
  split; [|by split]. split; [done|]. split; [exact H1'|]. split; [lia|done].
Qed.
Lemma drains ts w xs : dead_at w xs → Forall drain_turn ts → zlen (pending xs) ≤ zlen ts →
  ∃ k w', (k ≤ length (pending xs))%nat ∧ main_loop (take k ts) w = Ok (tt, w') ∧ dead_at w' [] ∧ p_read (buf1 w') = p_read (buf1 w).
Proof.
  intros H Ht. revert w xs H. induction Ht as [|t ts Ht _ IH]; intros w xs H Hl.
  - assert (xs = []) as ->.
    { destruct xs as [|x xs]; [done|]. destruct H as (_ & (_ & [Hx _]%Forall_cons & _) & _). pose proof (block_bytes_length x Hx). destruct Hx as (_ & Hx & _).
      change (pending (x :: xs)) with (block_bytes x ++ pending xs) in Hl. rewrite length_app in Hl. cbn in Hl. lia. }
    by exists 0%nat, w.
  - destruct xs as [|x xs]; [exists 0%nat, w; split; [lia|done]|]. destruct (round_drains t w x xs H Ht) as (w1 & xs1 & E1 & H1 & Hlt & Hr).
    destruct (IH w1 xs1 H1) as (k & w2 & Hk & E2 & H2 & Hr2); [cbn [length] in Hl; lia|]. exists (S k), w2. split; [lia|]. cbn [take main_loop].
    erewrite bind_ok by exact E1. by rewrite Hr2, Hr.
Qed.

(** The wrapper drains and ends.  Once the child is dead, as long as
    standard output takes at least a byte each turn and nothing more arrives,
    after at most as many turns as there are bytes waiting everything read
    from the child has been written, and the next turn ends the process. *)
Theorem wrapper_drains ts w xs : dead_at w xs → Forall drain_turn ts → zlen (pending xs) ≤ zlen ts →
  ∃ k w', (k ≤ length (pending xs))%nat ∧ main_loop (take k ts) w = Ok (tt, w') ∧
    p_written (buf1 w') = p_read (buf1 w) ∧ ∀ t, main_round t w' = Exit "child dead".
Proof.
  intros H Ht Hl. destruct (drains ts w xs H Ht Hl) as (k & w' & Hk & E & H' & Hr). exists k, w'. split; [done|]. split; [done|].
  split; [|intros t; by apply round_done]. destruct H' as (_ & (_ & _ & Hp) & _). cbn in Hp. by rewrite app_nil_r, Hr in Hp.
Qed.
Definition drain_example : wrapper :=
  mkWrapper (mkPipe list_new [] [])
    (mkPipe (mkList {[1%positive := mkElem (mkBlock (1 :: 2 :: 3 :: replicate 1021 0) 0 3) None None]} (Some 1%positive) (Some 1%positive)) [1; 2; 3] [])
    true.
Lemma drain_example_at : dead_at drain_example [mkBlock (1 :: 2 :: 3 :: replicate 1021 0) 0 3].
Proof.
  split; [apply start_inv|]. split; [|split; [vm_compute; reflexivity|done]]. split.
  - exists [1%positive]. split; [|split; [apply NoDup_singleton|by vm_compute]]. cbn. split; [done|]. by exists None.
  - split; [|vm_compute; reflexivity]. apply Forall_singleton. vm_compute. by split_and!.
Qed.
Lemma wrapper_drains_witness :
  ∃ k w', (k ≤ 3)%nat ∧ main_loop (take k (replicate 3 (mkTurn (Some (mkFds false false true false)) RErr RErr (λ bs, Some (Z.min 2 (zlen bs))) (λ _, None) false false false)))
      drain_example = Ok (tt, w') ∧
    p_written (buf1 w') = p_read (buf1 drain_example) ∧ ∀ t, main_round t w' = Exit "child dead".
Proof.
  apply (wrapper_drains _ drain_example _ drain_example_at); [|vm_compute; discriminate].
  apply Forall_replicate. split; [by eexists|]. intros bs Hbs. exists (Z.min 2 (zlen bs)). split; [reflexivity|]. destruct bs; [done|]. cbn [length]. lia.
Defined.

(** ** Two turns that are not as meant *)

(** An end of file on standard input is not acted on: the turn leaves the
    state as it was, so the child never sees its input end, and [select]
    returns at once again. *)
Theorem stdin_eof_ignored t buf w : wrapper_inv w → child_dead w = false →
  t_select t = Some (mkFds true false false false) → t_in t = RBytes 0 buf → t_sig1 t = false → t_sig2 t = false → t_sig3 t = false →
  main_round t w = Ok (tt, w).
Proof.
  intros [(xs0 & H0 & Hm0) (xs1 & H1 & Hm1)] Hd Hs Hi S1 S2 S3. unfold main_round.
  erewrite bind_ok by (apply zoom_ok, on_buf_length; [exact H0|done]). rewrite set_buf0_id.
  erewrite bind_ok by (apply zoom_ok, on_buf_length; [exact H1|done]). rewrite set_buf1_id, S1, S2, S3, Hs, Hi. cbn [when]. unfold fds_and.
  unfold mbind, M_bind, get, mret, M_ret. cbn [f_in f_child_out f_out f_child_in]. rewrite !andb_false_r, Hd, andb_true_r. cbn [when].
  rewrite andb_false_r. cbn [when]. unfold mret, M_ret. rewrite Hd, andb_false_r. destruct w as [[] ? d]. cbn in Hd. subst d. by destruct (_ <? _).
Qed.
(** When [SIGCHLD] arrives while nothing from the child is buffered, the next
    turn ends the process, whatever the child's pipe still holds. *)
Theorem sigchld_loses_output t w xs0 : pipe_at (buf0 w) xs0 → zlen (pending xs0) < MAX_BUFSZ + BLKSZ → pipe_at (buf1 w) [] →
  t_sig1 t = true → main_round t w = Exit "child dead".
Proof.
  intros H0 Hm0 H1 S1. unfold main_round.
  erewrite bind_ok by (apply zoom_ok, on_buf_length; [exact H0|done]). rewrite set_buf0_id.
  erewrite bind_ok by (apply zoom_ok, on_buf_length; [exact H1|done]). rewrite set_buf1_id, S1. cbn [when]. erewrite bind_ok by done.
  erewrite bind_ok by done. cbn [buf1 set_dead child_dead]. by rewrite (buf_waiting_ok _ []) by apply H1.
Qed.
