(* ===== verification/SignKey.v ===== *)
(** * Signing keys ([signkey.c], [rsa.c], [dss.c], [ecdsa.c], [ecc.c])

    Reading and writing of public and private keys, signatures and their
    verification, for the three kinds of keys that are built: RSA, DSS and
    ECDSA on three curves.  Hash functions, modular arithmetic and the
    arithmetic of curve points are parameters.  Keys are freed by the C code;
    here they are values, and a null pointer is [None]. *)
From S2P Require Import Prelude Buffer BufferProps BigNum.

Definition SHA1_HASH_SIZE : Z := 20.
Definition MIN_RSA_KEYLEN : Z := 1024.
Definition DSS_P_BITS : Z := 1024.
Definition DSS_Q_BITS : Z := 160.
Definition MAX_PUBKEY_SIZE : Z := 1700.
Definition SSH_SIGNKEY_RSA : list Z := bytes_of_string "ssh-rsa".
Definition SSH_SIGNKEY_DSS : list Z := bytes_of_string "ssh-dss".

(** [enum signkey_type]. *)
Definition DROPBEAR_SIGNKEY_RSA : Z := 0.
Definition DROPBEAR_SIGNKEY_DSS : Z := 1.
Definition DROPBEAR_SIGNKEY_ECDSA_NISTP256 : Z := 2.
Definition DROPBEAR_SIGNKEY_ECDSA_NISTP384 : Z := 3.
Definition DROPBEAR_SIGNKEY_ECDSA_NISTP521 : Z := 4.
Definition DROPBEAR_SIGNKEY_NUM_NAMED : Z := 5.
Definition DROPBEAR_SIGNKEY_ANY : Z := 80.
Definition DROPBEAR_SIGNKEY_NONE : Z := 90.

(** ** The curves ([ecc.c] and the table of libtomcrypt) *)
Record ltc_ecc_set := mkSet { dp_size : Z; dp_prime : Z; dp_B : Z; dp_order : Z; dp_Gx : Z; dp_Gy : Z }.
#[global] Instance ltc_ecc_set_eq : EqDecision ltc_ecc_set.
Proof. solve_decision. Defined.
Definition ecc_256 : ltc_ecc_set := mkSet 32
  0xFFFFFFFF00000001000000000000000000000000FFFFFFFFFFFFFFFFFFFFFFFF
  0x5AC635D8AA3A93E7B3EBBD55769886BC651D06B0CC53B0F63BCE3C3E27D2604B
  0xFFFFFFFF00000000FFFFFFFFFFFFFFFFBCE6FAADA7179E84F3B9CAC2FC632551
  0x6B17D1F2E12C4247F8BCE6E563A440F277037D812DEB33A0F4A13945D898C296
  0x4FE342E2FE1A7F9B8EE7EB4A7C0F9E162BCE33576B315ECECBB6406837BF51F5.
Definition ecc_384 : ltc_ecc_set := mkSet 48
  0xFFFFFFFFFFFFFFFFFFFFFFFFFFFFFFFFFFFFFFFFFFFFFFFFFFFFFFFFFFFFFFFEFFFFFFFF0000000000000000FFFFFFFF
  0xB3312FA7E23EE7E4988E056BE3F82D19181D9C6EFE8141120314088F5013875AC656398D8A2ED19D2A85C8EDD3EC2AEF
  0xFFFFFFFFFFFFFFFFFFFFFFFFFFFFFFFFFFFFFFFFFFFFFFFFC7634D81F4372DDF581A0DB248B0A77AECEC196ACCC52973
  0xAA87CA22BE8B05378EB1C71EF320AD746E1D3B628BA79B9859F741E082542A385502F25DBF55296C3A545E3872760AB7
  0x3617DE4A96262C6F5D9E98BF9292DC29F8F41DBD289A147CE9DA3113B5F0B8C00A60B1CE1D7E819D7A431D7C90EA0E5F.
Definition ecc_521 : ltc_ecc_set := mkSet 66
  0x1FFFFFFFFFFFFFFFFFFFFFFFFFFFFFFFFFFFFFFFFFFFFFFFFFFFFFFFFFFFFFFFFFFFFFFFFFFFFFFFFFFFFFFFFFFFFFFFFFFFFFFFFFFFFFFFFFFFFFFFFFFFFFFFFFF
  0x51953EB9618E1C9A1F929A21A0B68540EEA2DA725B99B315F3B8B489918EF109E156193951EC7E937B1652C0BD3BB1BF073573DF883D2C34F1EF451FD46B503F00
  0x1FFFFFFFFFFFFFFFFFFFFFFFFFFFFFFFFFFFFFFFFFFFFFFFFFFFFFFFFFFFFFFFFFA51868783BF2F966B7FCC0148F709A5D03BB5C9B8899C47AEBB6FB71E91386409
  0xC6858E06B70404E9CD9E3ECB662395B4429C648139053FB521F828AF606B4D3DBAA14B5E77EFE75928FE1DC127A2FFA8DE3348B3C1856A429BF97E7E31C2E5BD66
  0x11839296A789A3BC0045C8A5FB42C7D1BD998F54449579B446817AFBD17273E662C97EE72995EF42640C550B9013FAD0761353C7086A272C24088BE94769FD16650.

(** [struct dropbear_ecc_curve], with [dp] filled in. *)
Record dropbear_ecc_curve := mkCurve { ltc_size : Z; curve_dp : ltc_ecc_set; hash_desc : list Z → list Z; curve_name : list Z }.
(** A point in the form libtomcrypt keeps it. *)
Record ecc_point := mkPoint { pt_x : mp_int; pt_y : mp_int; pt_z : mp_int }.
Record ecc_key := mkEcc { ecc_dp : ltc_ecc_set; ecc_pubkey : ecc_point; ecc_k : mp_int }.
Record dropbear_rsa_key := mkRsa { rsa_n : mp_int; rsa_e : mp_int; rsa_d : option mp_int; rsa_p : option mp_int; rsa_q : option mp_int }.
Record dropbear_dss_key := mkDss { dss_p : mp_int; dss_q : mp_int; dss_g : mp_int; dss_y : mp_int; dss_x : option mp_int }.
(** [struct SIGN_key]. *)
Record sign_key := mkSignKey {
  dsskey : option dropbear_dss_key; rsakey : option dropbear_rsa_key;
  ecckey256 : option ecc_key; ecckey384 : option ecc_key; ecckey521 : option ecc_key }.
Definition new_sign_key : sign_key := mkSignKey None None None None None.
Definition set_dsskey (k : option dropbear_dss_key) (s : sign_key) : sign_key := mkSignKey k (rsakey s) (ecckey256 s) (ecckey384 s) (ecckey521 s).
Definition set_rsakey (k : option dropbear_rsa_key) (s : sign_key) : sign_key := mkSignKey (dsskey s) k (ecckey256 s) (ecckey384 s) (ecckey521 s).

Definition signkey_names : list (list Z) :=
  [SSH_SIGNKEY_RSA; SSH_SIGNKEY_DSS; bytes_of_string "ecdsa-sha2-nistp256"; bytes_of_string "ecdsa-sha2-nistp384"; bytes_of_string "ecdsa-sha2-nistp521"].
Definition signkey_name_from_type {S} (type : Z) : M S (list Z) :=
  if type >=? DROPBEAR_SIGNKEY_NUM_NAMED then dropbear_exit "Bad key type %d"
  else match signkey_names !! Z.to_nat type with Some n => mret n | None => undefined "signkey_names" end.
Fixpoint signkey_type_loop (names : list (list Z)) (i : Z) (name : list Z) : Z :=
  match names with
  | [] => DROPBEAR_SIGNKEY_NONE
  | fixed_name :: names =>
      if (zlen name =? zlen fixed_name) && bool_decide (fixed_name = name) then i
      else signkey_type_loop names (i + 1) name
  end.
Definition signkey_type_from_name (name : list Z) : Z := signkey_type_loop signkey_names 0 name.
Definition signkey_is_ecdsa (type : Z) : bool :=
  (type =? DROPBEAR_SIGNKEY_ECDSA_NISTP256) || (type =? DROPBEAR_SIGNKEY_ECDSA_NISTP384) || (type =? DROPBEAR_SIGNKEY_ECDSA_NISTP521).
(** [signkey_key_ptr] for an ECDSA type: the key it points to, and the
    assignment through it. *)
Definition signkey_ecc_key (key : sign_key) (type : Z) : option ecc_key :=
  if type =? DROPBEAR_SIGNKEY_ECDSA_NISTP256 then ecckey256 key
  else if type =? DROPBEAR_SIGNKEY_ECDSA_NISTP384 then ecckey384 key
  else if type =? DROPBEAR_SIGNKEY_ECDSA_NISTP521 then ecckey521 key else None.
Definition set_ecc_key (type : Z) (k : option ecc_key) (s : sign_key) : sign_key :=
  if type =? DROPBEAR_SIGNKEY_ECDSA_NISTP256 then mkSignKey (dsskey s) (rsakey s) k (ecckey384 s) (ecckey521 s)
  else if type =? DROPBEAR_SIGNKEY_ECDSA_NISTP384 then mkSignKey (dsskey s) (rsakey s) (ecckey256 s) k (ecckey521 s)
  else if type =? DROPBEAR_SIGNKEY_ECDSA_NISTP521 then mkSignKey (dsskey s) (rsakey s) (ecckey256 s) (ecckey384 s) k else s.

(** The routines of libtomcrypt that work on points: making a key pair, the
    [i]-th time, and the sum of two multiples of points ([LTC_ECC_SHAMIR] is
    defined, so [ecc_mul2add] is never null). *)
Class EccOps := {
  ecc_make_key_ex : nat → ltc_ecc_set → option ecc_key;
  ecc_mul2add : ecc_point → mp_int → ecc_point → mp_int → mp_int → option ecc_point
}.

Section keys.
Context (DIGIT_BIT : Z) `{!BigNum} `{!EccOps}.
Context (sha1 sha256 sha384 sha512 : list Z → list Z).
(** The random bytes, and how often a loop may ask for another number. *)
Context (draw : nat → Z → list Z) (fuel : nat).
Abbreviation getmpint := (buf_getmpint DIGIT_BIT).
Abbreviation putmpint := (buf_putmpint DIGIT_BIT).
Abbreviation bytes_to_mp := (mp_read_unsigned_bin DIGIT_BIT).
Abbreviation bin_size := (mp_unsigned_bin_size DIGIT_BIT).

(** An operation that must succeed. *)
Definition crypt {S A} (e : string) (o : option A) : M S A :=
  match o with Some a => mret a | None => dropbear_exit e end.
(** A pointer that is used without a check. *)
Definition ptr {S A} (o : option A) : M S A :=
  match o with Some a => mret a | None => undefined "null pointer" end.
(** A number padded with zeros to [size] bytes. *)
Definition putzeros (n : nat) : M buffer () := Nat.iter n (λ m, buf_putbyte 0;; m) (mret tt).
Definition put_padded (size : Z) (a : mp_int) : M buffer () :=
  let ssize := bin_size a in
  dropbear_assert (ssize <=? size);;
  putzeros (Z.to_nat (size - ssize));;
  p ← buf_getwriteptr ssize;
  buf_store p (mp_to_unsigned_bin DIGIT_BIT a);;
  buf_incrwritepos ssize.

(** ** RSA ([rsa.c]) *)
Definition buf_get_rsa_pub_key : M buffer (option dropbear_rsa_key) :=
  buf_incrpos (4 + zlen SSH_SIGNKEY_RSA);;
  e ← getmpint;
  match e with
  | None => mret None
  | Some e =>
      n ← getmpint;
      match n with
      | None => mret None
      | Some n =>
          if mp_count_bits DIGIT_BIT n <? MIN_RSA_KEYLEN then mret None
          else if mp_count_bits DIGIT_BIT e >? 64 then mret None
          else mret (Some (mkRsa n e None None None))
      end
  end.
Definition buf_get_rsa_priv_key : M buffer (option dropbear_rsa_key) :=
  key ← buf_get_rsa_pub_key;
  match key with
  | None => mret None
  | Some key =>
      d ← getmpint;
      match d with
      | None => mret None
      | Some d =>
          b ← get;
          if buf_pos b =? buf_len b then mret (Some (mkRsa (rsa_n key) (rsa_e key) (Some d) None None))
          else
            p ← getmpint;
            match p with
            | None => mret None
            | Some p =>
                q ← getmpint;
                match q with
                | None => mret None
                | Some q => mret (Some (mkRsa (rsa_n key) (rsa_e key) (Some d) (Some p) (Some q)))
                end
            end
      end
  end.
Definition buf_put_rsa_pub_key (key : dropbear_rsa_key) : M buffer () :=
  buf_putstring SSH_SIGNKEY_RSA (zlen SSH_SIGNKEY_RSA);;
  putmpint (rsa_e key);;
  putmpint (rsa_n key).
Definition buf_put_rsa_priv_key (key : dropbear_rsa_key) : M buffer () :=
  buf_put_rsa_pub_key key;;
  d ← ptr (rsa_d key);
  putmpint d;;
  match rsa_p key with Some p => putmpint p | None => mret tt end;;
  match rsa_q key with Some q => putmpint q | None => mret tt end.

Definition rsa_asn1_magic : list Z := [0x00; 0x30; 0x21; 0x30; 0x09; 0x06; 0x05; 0x2b; 0x0e; 0x03; 0x02; 0x1a; 0x05; 0x00; 0x04; 0x14].
Definition RSA_ASN1_MAGIC_LEN : Z := 16.
(** [while (rsa_EM->pos != ...) buf_putbyte(rsa_EM, 0xff)]. *)
Fixpoint pad_loop (fuel : nat) : M buffer () :=
  b ← get;
  if buf_pos b =? u32 (buf_size b - RSA_ASN1_MAGIC_LEN - SHA1_HASH_SIZE) then mret tt
  else match fuel with O => undefined "fuel" | S fuel => buf_putbyte 0xff;; pad_loop fuel end.
Definition rsa_pad_em (key : dropbear_rsa_key) (data_buf : buffer) : outcome mp_int :=
  let nsize := bin_size (rsa_n key) in
  rsa_EM ← buf_new (u32 (nsize - 1));
  fst <$>
  (buf_putbyte 0x01;;
   b ← get;
   pad_loop (Z.to_nat (buf_size b));;
   p ← buf_getwriteptr RSA_ASN1_MAGIC_LEN;
   buf_store p rsa_asn1_magic;;
   buf_incrwritepos RSA_ASN1_MAGIC_LEN;;
   p ← buf_getwriteptr SHA1_HASH_SIZE;
   buf_store p (sha1 (buf_content data_buf));;
   buf_incrwritepos SHA1_HASH_SIZE;;
   b ← get;
   dropbear_assert (buf_pos b =? buf_size b);;
   buf_setpos 0;;
   p ← buf_getptr (buf_size b);
   bs ← buf_load p (buf_size b);
   mret (bytes_to_mp bs)) rsa_EM.
Definition buf_rsa_verify (key : dropbear_rsa_key) (data_buf : buffer) : M buffer bool :=
  slen ← buf_getint;
  if negb (slen =? bin_size (rsa_n key)) then mret false
  else
    b ← get;
    p ← buf_getptr (buf_len b - buf_pos b);
    bs ← buf_load p (buf_len b - buf_pos b);
    let rsa_s := bytes_to_mp bs in
    match mp_cmp rsa_s (rsa_n key) with
    | Lt =>
        rsa_em ← lift (rsa_pad_em key data_buf);
        match mp_exptmod rsa_s (rsa_e key) (rsa_n key) with
        | None => mret false
        | Some rsa_mdash => mret (match mp_cmp rsa_em rsa_mdash with Eq => true | _ => false end)
        end
    | _ => mret false
    end.
Definition buf_put_rsa_sign (key : dropbear_rsa_key) (data_buf : buffer) : M buffer () :=
  em ← lift (rsa_pad_em key data_buf);
  r ← lift (gen_random_mpint DIGIT_BIT draw fuel (rsa_n key));
  re ← crypt "RSA error" (mp_exptmod r (rsa_e key) (rsa_n key));
  ri ← crypt "RSA error" (mp_invmod r (rsa_n key));
  em' ← crypt "RSA error" (mp_mulmod em re (rsa_n key));
  d ← ptr (rsa_d key);
  s' ← crypt "RSA error" (mp_exptmod em' d (rsa_n key));
  rsa_s ← crypt "RSA error" (mp_mulmod s' ri (rsa_n key));
  buf_putstring SSH_SIGNKEY_RSA (zlen SSH_SIGNKEY_RSA);;
  let nsize := bin_size (rsa_n key) in
  buf_putint nsize;;
  put_padded nsize rsa_s.

(** ** DSS ([dss.c]) *)
Definition buf_get_dss_pub_key : M buffer (option dropbear_dss_key) :=
  buf_incrpos (4 + zlen SSH_SIGNKEY_DSS);;
  p ← getmpint;
  match p with
  | None => mret None
  | Some p =>
      q ← getmpint;
      match q with
      | None => mret None
      | Some q =>
          g ← getmpint;
          match g with
          | None => mret None
          | Some g =>
              y ← getmpint;
              match y with
              | None => mret None
              | Some y =>
                  if negb (mp_count_bits DIGIT_BIT p =? DSS_P_BITS) then mret None
                  else if negb (mp_count_bits DIGIT_BIT q =? DSS_Q_BITS) then mret None
                  else match mp_cmp_d g 1 with
                       | Gt => match mp_cmp g p with Lt => mret (Some (mkDss p q g y None)) | _ => mret None end
                       | _ => mret None
                       end
              end
          end
      end
  end.
Definition buf_get_dss_priv_key : M buffer (option dropbear_dss_key) :=
  key ← buf_get_dss_pub_key;
  match key with
  | None => mret None
  | Some key =>
      x ← getmpint;
      match x with
      | None => mret None
      | Some x => mret (Some (mkDss (dss_p key) (dss_q key) (dss_g key) (dss_y key) (Some x)))
      end
  end.
Definition buf_put_dss_pub_key (key : dropbear_dss_key) : M buffer () :=
  buf_putstring SSH_SIGNKEY_DSS (zlen SSH_SIGNKEY_DSS);;
  putmpint (dss_p key);;
  putmpint (dss_q key);;
  putmpint (dss_g key);;
  putmpint (dss_y key).
Definition buf_put_dss_priv_key (key : dropbear_dss_key) : M buffer () :=
  buf_put_dss_pub_key key;;
  x ← ptr (dss_x key);
  putmpint x.
(** The numbers of a signature and the hash of the data. *)
Definition dss_verify_values (key : dropbear_dss_key) (r' s' msghash : list Z) : option bool :=
  let val1 := bytes_to_mp s' in
  match mp_cmp val1 (dss_q key), mp_cmp_d val1 0 with
  | Lt, Gt =>
      w ← mp_invmod val1 (dss_q key);
      u1 ← mp_mulmod (bytes_to_mp msghash) w (dss_q key);
      let val1 := bytes_to_mp r' in
      match mp_cmp val1 (dss_q key), mp_cmp_d val1 0 with
      | Lt, Gt =>
          u2 ← mp_mulmod val1 w (dss_q key);
          gu1 ← mp_exptmod (dss_g key) u1 (dss_p key);
          yu2 ← mp_exptmod (dss_y key) u2 (dss_p key);
          prod ← mp_mulmod gu1 yu2 (dss_p key);
          v ← mp_mod prod (dss_q key);
          Some (match mp_cmp v val1 with Eq => true | _ => false end)
      | _, _ => None
      end
  | _, _ => None
  end.
Definition buf_dss_verify (key : dropbear_dss_key) (data_buf : buffer) : M buffer bool :=
  string ← buf_getstring;
  if negb (zlen string =? 2 * SHA1_HASH_SIZE) then mret false
  else
    let msghash := sha1 (buf_content data_buf) in
    mret (default false (dss_verify_values key (take (Z.to_nat SHA1_HASH_SIZE) string) (drop (Z.to_nat SHA1_HASH_SIZE) string) msghash)).
Definition buf_put_dss_sign (key : dropbear_dss_key) (data_buf : buffer) : M buffer () :=
  dss_k ← lift (gen_random_mpint DIGIT_BIT draw fuel (dss_q key));
  let dss_m := bytes_to_mp (sha1 (buf_content data_buf)) in
  gk ← crypt "DSS error" (mp_exptmod (dss_g key) dss_k (dss_p key));
  dss_r ← crypt "DSS error" (mp_mod gk (dss_q key));
  x ← ptr (dss_x key);
  xr ← crypt "DSS error" (mp_mulmod dss_r x (dss_q key));
  sum ← crypt "DSS error" (mp_addmod dss_m xr (dss_q key));
  ki ← crypt "DSS error" (mp_invmod dss_k (dss_q key));
  dss_s ← crypt "DSS error" (mp_mulmod ki sum (dss_q key));
  buf_putstring SSH_SIGNKEY_DSS (zlen SSH_SIGNKEY_DSS);;
  buf_putint (2 * SHA1_HASH_SIZE);;
  put_padded SHA1_HASH_SIZE dss_r;;
  put_padded SHA1_HASH_SIZE dss_s.

(** ** Elliptic curves ([ecc.c]) *)
Definition ecc_curve_nistp256 : dropbear_ecc_curve := mkCurve 32 ecc_256 sha256 (bytes_of_string "nistp256").
Definition ecc_curve_nistp384 : dropbear_ecc_curve := mkCurve 48 ecc_384 sha384 (bytes_of_string "nistp384").
Definition ecc_curve_nistp521 : dropbear_ecc_curve := mkCurve 66 ecc_521 sha512 (bytes_of_string "nistp521").
Definition dropbear_ecc_curves : list dropbear_ecc_curve := [ecc_curve_nistp256; ecc_curve_nistp384; ecc_curve_nistp521].
Definition curve_for_dp {S} (dp : ltc_ecc_set) : M S dropbear_ecc_curve :=
  match list_find (λ c, curve_dp c = dp) dropbear_ecc_curves with
  | Some (_, c) => mret c
  | None => undefined "assert(*curve)"
  end.
(** The two loops that bring a residue into range: after [mp_mod] they do not
    run. *)
Fixpoint add_loop (fuel : nat) (t prime : Z) : outcome Z :=
  if t <? 0 then match fuel with O => UB "fuel" | S fuel => add_loop fuel (t + prime) prime end else Ok t.
Fixpoint sub_loop (fuel : nat) (t prime : Z) : outcome Z :=
  if negb (t <? prime) then match fuel with O => UB "fuel" | S fuel => sub_loop fuel (t - prime) prime end else Ok t.
(** Numbers are carried by their values. *)
Definition ecc_is_point (dp : ltc_ecc_set) (x y : mp_int) : outcome bool :=
  let prime := dp_prime dp in
  let x := mp_val DIGIT_BIT x in
  let t1 := mp_val DIGIT_BIT y * mp_val DIGIT_BIT y in
  let t2 := x * (x * x mod prime) in
  let t1 := (t1 - t2 + x + x + x) mod prime in
  t1 ← add_loop 0 t1 prime;
  t1 ← sub_loop 0 t1 prime;
  Ok (t1 =? dp_B dp).
(** [mp_set(z, 1)]. *)
Definition mp_one : mp_int := mkMp false [1].
Definition buf_get_ecc_raw_pubkey (curve : dropbear_ecc_curve) : M buffer (option ecc_key) :=
  let size := dp_size (curve_dp curve) in
  buf_setpos 0;;
  first ← buf_getbyte;
  b ← get;
  if (first =? 2) || (first =? 3) then mret None
  else if negb (first =? 4) || negb (buf_len b =? 1 + 2 * size) then mret None
  else
    p ← buf_getptr size;
    xs ← buf_load p size;
    buf_incrpos size;;
    p ← buf_getptr size;
    ys ← buf_load p size;
    buf_incrpos size;;
    let x := bytes_to_mp xs in
    let y := bytes_to_mp ys in
    ok ← lift (ecc_is_point (curve_dp curve) x y);
    if negb ok then mret None
    else match mp_cmp_d x 0, mp_cmp_d y 0 with
         | Eq, _ | _, Eq => mret None
         | _, _ => mret (Some (mkEcc (curve_dp curve) (mkPoint x y mp_one) mp_zero))
         end.
(** A coordinate in [numlen] bytes. *)
Definition x963_pad (numlen : Z) (a : mp_int) : list Z :=
  replicate (Z.to_nat (numlen - bin_size a)) 0 ++ mp_to_unsigned_bin DIGIT_BIT a.
(** [None] is [CRYPT_BUFFER_OVERFLOW]. *)
Definition ecc_ansi_x963_export (key : ecc_key) : option (list Z) :=
  let numlen := dp_size (ecc_dp key) in
  if (bin_size (pt_x (ecc_pubkey key)) >? numlen) || (bin_size (pt_y (ecc_pubkey key)) >? numlen) then None
  else Some ([4] ++ x963_pad numlen (pt_x (ecc_pubkey key)) ++ x963_pad numlen (pt_y (ecc_pubkey key))).
Definition buf_put_ecc_raw_pubkey_string (key : ecc_key) : M buffer () :=
  let len := dp_size (ecc_dp key) * 2 + 1 in
  buf_putint len;;
  p ← buf_getwriteptr len;
  bs ← crypt "ECC error" (ecc_ansi_x963_export key);
  buf_store p bs;;
  buf_incrwritepos len.

(** ** ECDSA ([ecdsa.c]) *)
Definition ecdsa_ident (curve : dropbear_ecc_curve) : list Z := bytes_of_string "ecdsa-sha2-" ++ curve_name curve.
(** [memcmp(identifier, name, strlen(name))]; an identifier has a terminator
    behind it. *)
Fixpoint find_curve (identifier : list Z) (curves : list dropbear_ecc_curve) : outcome (option dropbear_ecc_curve) :=
  match curves with
  | [] => Ok None
  | curve :: curves =>
      if zlen identifier + 1 <? zlen (curve_name curve) then UB "memcmp past the identifier"
      else if bool_decide (take (length (curve_name curve)) (identifier ++ [0]) = curve_name curve) then Ok (Some curve)
      else find_curve identifier curves
  end.
Definition buf_get_ecdsa_pub_key : M buffer (option ecc_key) :=
  key_ident ← buf_getstring;
  identifier ← buf_getstring;
  if negb (zlen key_ident =? zlen identifier + 11) then mret None
  else if negb (bool_decide (drop 11 key_ident = identifier)) then mret None
  else
    curve ← lift (find_curve identifier dropbear_ecc_curves);
    match curve with
    | None => mret None
    | Some curve =>
        q_buf ← buf_getstringbuf;
        lift (fst <$> buf_get_ecc_raw_pubkey curve q_buf)
    end.
Definition buf_get_ecdsa_priv_key : M buffer (option ecc_key) :=
  new_key ← buf_get_ecdsa_pub_key;
  match new_key with
  | None => mret None
  | Some key =>
      k ← getmpint;
      match k with
      | None => mret None
      | Some k => mret (Some (mkEcc (ecc_dp key) (ecc_pubkey key) k))
      end
  end.
Definition buf_put_ecdsa_pub_key (key : ecc_key) : M buffer () :=
  curve ← curve_for_dp (ecc_dp key);
  buf_putstring (ecdsa_ident curve) (zlen (ecdsa_ident curve));;
  buf_putstring (curve_name curve) (zlen (curve_name curve));;
  buf_put_ecc_raw_pubkey_string key.
Definition buf_put_ecdsa_priv_key (key : ecc_key) : M buffer () :=
  buf_put_ecdsa_pub_key key;;
  putmpint (ecc_k key).
(** [mp_read_radix] of a constant of the curve. *)
Definition mp_read_radix (v : Z) : mp_int := mp_of_Z DIGIT_BIT v.
(** The [for (;;)] loop: a new ephemeral key until [r] and [s] are not 0. *)
Fixpoint ecdsa_loop (fuel i : nat) (key : ecc_key) (e p : mp_int) : M buffer (mp_int * mp_int) :=
  match fuel with
  | O => undefined "fuel"
  | S fuel =>
      R_key ← crypt "ECC error" (ecc_make_key_ex i (ecc_dp key));
      r ← crypt "ECC error" (mp_mod (pt_x (ecc_pubkey R_key)) p);
      match mp_cmp_d r 0 with
      | Eq => ecdsa_loop fuel (S i) key e p
      | _ =>
          ki ← crypt "ECC error" (mp_invmod (ecc_k R_key) p);
          s ← crypt "ECC error" (mp_mulmod (ecc_k key) r p);
          s ← crypt "ECC error" (mp_add e s);
          s ← crypt "ECC error" (mp_mod s p);
          s ← crypt "ECC error" (mp_mulmod s ki p);
          match mp_cmp_d s 0 with
          | Eq => ecdsa_loop fuel (S i) key e p
          | _ => mret (r, s)
          end
      end
  end.
Definition buf_put_ecdsa_sign (key : ecc_key) (data_buf : buffer) : M buffer () :=
  curve ← curve_for_dp (ecc_dp key);
  let e := bytes_to_mp (hash_desc curve (buf_content data_buf)) in
  let p := mp_read_radix (dp_order (ecc_dp key)) in
  '(r, s) ← ecdsa_loop fuel 0 key e p;
  buf_putstring (ecdsa_ident curve) (zlen (ecdsa_ident curve));;
  sigbuf ← lift (buf_new 200);
  sigbuf ← lift (exec (putmpint r;; putmpint s) sigbuf);
  buf_putbufstring sigbuf.
Definition buf_get_ecdsa_verify_params : M buffer (option (mp_int * mp_int)) :=
  sig_len ← buf_getint;
  b ← get;
  let sig_pos := buf_pos b in
  r ← getmpint;
  match r with
  | None => mret None
  | Some r =>
      s ← getmpint;
      match s with
      | None => mret None
      | Some s =>
          b ← get;
          if negb (u32 (buf_pos b - sig_pos) =? sig_len) then mret None else mret (Some (r, s))
      end
  end.
Definition ecdsa_verify_values (key : ecc_key) (r s e : mp_int) : option bool :=
  let p := mp_read_radix (dp_order (ecc_dp key)) in
  let m := mp_read_radix (dp_prime (ecc_dp key)) in
  match mp_cmp_d r 0, mp_cmp_d s 0, mp_cmp r p, mp_cmp s p with
  | Eq, _, _, _ | _, Eq, _, _ => None
  | _, _, Lt, Lt =>
      w ← mp_invmod s p;
      u1 ← mp_mulmod e w p;
      u2 ← mp_mulmod r w p;
      let mG := mkPoint (mp_read_radix (dp_Gx (ecc_dp key))) (mp_read_radix (dp_Gy (ecc_dp key))) mp_one in
      mG ← ecc_mul2add mG u1 (ecc_pubkey key) u2 m;
      v ← mp_mod (pt_x mG) p;
      Some (match mp_cmp v r with Eq => true | _ => false end)
  | _, _, _, _ => None
  end.
Definition buf_ecdsa_verify (key : ecc_key) (data_buf : buffer) : M buffer bool :=
  curve ← curve_for_dp (ecc_dp key);
  rs ← buf_get_ecdsa_verify_params;
  match rs with
  | None => mret false
  | Some (r, s) => mret (default false (ecdsa_verify_values key r s (bytes_to_mp (hash_desc curve (buf_content data_buf)))))
  end.

(** ** Keys of any kind ([signkey.c]) *)

(** [dropbear_assert(key != NULL)]. *)
Definition assert_key {S A} (o : option A) : M S A :=
  match o with Some a => mret a | None => dropbear_exit "Failed assertion" end.
(** Whether it succeeded, and the key and the type it leaves. *)
Definition buf_get_key (get_dss : M buffer (option dropbear_dss_key)) (get_rsa : M buffer (option dropbear_rsa_key)) (get_ecdsa : M buffer (option ecc_key))
    (key : sign_key) (type : Z) : M buffer (bool * sign_key * Z) :=
  ident ← buf_getstring;
  let keytype := signkey_type_from_name ident in
  if negb (type =? DROPBEAR_SIGNKEY_ANY) && negb (type =? keytype) then mret (false, key, type)
  else
    buf_incrpos (i32 (- zlen ident - 4));;
    if keytype =? DROPBEAR_SIGNKEY_DSS then
      k ← get_dss; mret (bool_decide (is_Some k), set_dsskey k key, keytype)
    else if keytype =? DROPBEAR_SIGNKEY_RSA then
      k ← get_rsa; mret (bool_decide (is_Some k), set_rsakey k key, keytype)
    else if signkey_is_ecdsa keytype then
      k ← get_ecdsa; mret (bool_decide (is_Some k), set_ecc_key keytype k key, keytype)
    else mret (false, key, keytype).
Definition buf_get_pub_key : sign_key → Z → M buffer (bool * sign_key * Z) :=
  buf_get_key buf_get_dss_pub_key buf_get_rsa_pub_key buf_get_ecdsa_pub_key.
Definition buf_get_priv_key : sign_key → Z → M buffer (bool * sign_key * Z) :=
  buf_get_key buf_get_dss_priv_key buf_get_rsa_priv_key buf_get_ecdsa_priv_key.
Definition buf_put_pub_key (key : sign_key) (type : Z) : M buffer () :=
  pubkeys ← lift (buf_new MAX_PUBKEY_SIZE);
  pubkeys ← lift (exec
    (when (type =? DROPBEAR_SIGNKEY_DSS) (k ← assert_key (dsskey key); buf_put_dss_pub_key k);;
     when (type =? DROPBEAR_SIGNKEY_RSA) (k ← assert_key (rsakey key); buf_put_rsa_pub_key k);;
     when (signkey_is_ecdsa type)
       (match signkey_ecc_key key type with Some k => buf_put_ecdsa_pub_key k | None => mret tt end)) pubkeys);
  if buf_len pubkeys =? 0 then dropbear_exit "Bad key types in buf_put_pub_key"
  else buf_putbufstring pubkeys.
Definition buf_put_priv_key (key : sign_key) (type : Z) : M buffer () :=
  if type =? DROPBEAR_SIGNKEY_DSS then k ← assert_key (dsskey key); buf_put_dss_priv_key k
  else if type =? DROPBEAR_SIGNKEY_RSA then k ← assert_key (rsakey key); buf_put_rsa_priv_key k
  else
    match (if signkey_is_ecdsa type then signkey_ecc_key key type else None) with
    | Some k => buf_put_ecdsa_priv_key k
    | None => dropbear_exit "Bad key types in put pub key"
    end.
Definition buf_put_sign (key : sign_key) (type : Z) (data_buf : buffer) : M buffer () :=
  sigblob ← lift (buf_new MAX_PUBKEY_SIZE);
  sigblob ← lift (exec
    (when (type =? DROPBEAR_SIGNKEY_DSS) (k ← assert_key (dsskey key); buf_put_dss_sign k data_buf);;
     when (type =? DROPBEAR_SIGNKEY_RSA) (k ← assert_key (rsakey key); buf_put_rsa_sign k data_buf);;
     when (signkey_is_ecdsa type)
       (match signkey_ecc_key key type with Some k => buf_put_ecdsa_sign k data_buf | None => mret tt end)) sigblob);
  if buf_len sigblob =? 0 then dropbear_exit "Non-matching signing type"
  else buf_putbufstring sigblob.
Definition buf_verify (key : sign_key) (data_buf : buffer) : M buffer bool :=
  buf_getint;;
  type_name ← buf_getstring;
  let type := signkey_type_from_name type_name in
  if type =? DROPBEAR_SIGNKEY_DSS then
    match dsskey key with None => dropbear_exit "No DSS key to verify signature" | Some k => buf_dss_verify k data_buf end
  else if type =? DROPBEAR_SIGNKEY_RSA then
    match rsakey key with None => dropbear_exit "No RSA key to verify signature" | Some k => buf_rsa_verify k data_buf end
  else
    match (if signkey_is_ecdsa type then signkey_ecc_key key type else None) with
    | Some k => buf_ecdsa_verify k data_buf
    | None => dropbear_exit "Non-matching signing type"
    end.
End keys.
