(* ===== verification/SignKeyProps.v ===== *)
(** * Properties of the signing keys

    Reading a key never leaves the buffer and refines a parser; the keys it
    accepts; what a verified signature says; a signature that was made is
    accepted.  The interface [SignKey] of the authentication is implemented. *)
From S2P Require Import Prelude Buffer Mpint BufferProps BigNum SignKey.

(** ** Readers *)
#[local] Instance reader_match_option {A B} (m : option A) (f : A → M buffer B) g p q :
  (∀ a, Reader (f a) (p a)) → Reader g q →
  Reader (match m with Some a => f a | None => g end) (match m with Some a => p a | None => q end).
Proof. by destruct m. Qed.
Definition p_outcome {A} (o : outcome A) : parser A := match o with Ok a => p_ret a | _ => p_fail end.
Lemma reader_lift {A} (o : outcome A) : (∀ e, o ≠ UB e) → Reader (lift o) (p_outcome o).
Proof. intros Ho b Hb. destruct o as [a|e|e]; cbn; [by apply reader_ret|by exists e|by destruct (Ho e)]. Qed.

(** The bytes of a string as a buffer of their own. *)
Definition buf_of (bs : list Z) : buffer := mkBuf bs (zlen bs) 0 (zlen bs).
Lemma buf_of_wf bs : Forall is_byte bs → zlen bs ≤ BUF_MAX_SIZE → buf_wf (buf_of bs).
Proof. intros H1 H2. unfold buf_of. split; cbn; [lia|lia|lia|done|done]. Qed.
Lemma getstringbuf_string b : buf_wf b → buf_getstringbuf b = (bs ← buf_getstring; mret (buf_of bs)) b.
Proof.
  intros Hb. unfold buf_getstringbuf, buf_getstring. rewrite bind_assoc. pose proof (reader_refines (Reader := reader_getint) b Hb) as Hr.
  destruct (p_int (buf_rest b)) as [[n tl]|] eqn:E; [|destruct Hr as [e Hr]; by rewrite !(bind_exit _ _ _ _ Hr)].
  destruct Hr as (k & Hk & Hfit & _ & Hr). rewrite !(bind_ok _ _ _ _ _ Hr). apply p_int_range in E.
  destruct (Z.gtb_spec n MAX_STRING_LEN) as [|Hn]; [done|]. assert (Hw : buf_wf (buf_advance b k)) by (apply buf_wf_advance; [done|buf_facts; lia..]).
  destruct (buf_new_ok n) as (r & Er & Hrw & Hr1 & Hr2 & Hr3); [unfold MAX_STRING_LEN, BUF_MAX_SIZE in *; lia|]. rewrite Er. erewrite bind_ok by done.
  rewrite (bind_assoc (buf_getptr n)). pose proof (buf_getptr_eq _ Hw n E) as Hg.
  destruct (Z.leb_spec (buf_pos (buf_advance b k) + n) (buf_len (buf_advance b k))) as [Hl|]; [|by rewrite !(bind_exit _ _ _ _ Hg)].
  rewrite !(bind_ok _ _ _ _ _ Hg). pose proof Hw as Hw'. buf_facts.
  rewrite bind_assoc, !(bind_ok _ _ _ _ _ (buf_load_eq _ Hw n (proj1 E) ltac:(lia))). set (bs := take _ _).
  assert (Hbs : zlen bs = n) by (unfold bs; rewrite length_take, length_drop; lia).
  rewrite (bind_ok _ _ _ (set_data bs r) (buf_advance b k)).
  2: { unfold lift, exec. rewrite (bind_ok _ _ _ 0 r) by (rewrite (buf_getwriteptr_eq r Hrw n E), Hr2, Hr3, (proj2 (Z.leb_le _ _)) by lia; done).
       rewrite (buf_store_eq r Hrw 0 bs) by lia. cbn [fmap outcome_fmap obind snd]. do 3 f_equal. rewrite Hbs. cbn [Z.to_nat Nat.add take app].
       pose proof (wf_data _ Hrw). rewrite drop_ge by lia. by rewrite app_nil_r. }
  rewrite (bind_assoc (buf_incrpos _)). apply bind_ext. intros [] b2. erewrite bind_ok; [done|]. unfold lift, exec.
  assert (Hw2 : buf_wf (set_data bs r)).
  { destruct Hrw. split; cbn; try lia. unfold bs. auto with ssh. }
  rewrite (buf_incrlen_eq _ Hw2 n E). cbn [set_data buf_len buf_size]. rewrite Hr1, Hr3, Z.add_0_l, Z.leb_refl. cbn. unfold buf_of. rewrite Hbs.
  unfold set_len. cbn. by rewrite Hr2, Hr3.
Qed.
#[local] Instance reader_getstringbuf : Reader buf_getstringbuf (p_bind p_string (λ bs, p_ret (buf_of bs))).
Proof.
  intros b Hb. rewrite getstringbuf_string by done. apply (reader_bind _ _ _ _ reader_getstring); [intros; apply reader_ret|done].
Qed.

(** A string that was read, with the distance it moved. *)
Lemma getstring_cases b : buf_wf b →
  match p_string (buf_rest b) with
  | Some (ident, tl) => buf_getstring b = Ok (ident, buf_advance b (4 + zlen ident)) ∧ buf_wf (buf_advance b (4 + zlen ident)) ∧
      buf_rest (buf_advance b (4 + zlen ident)) = tl ∧ buf_pos b + 4 + zlen ident ≤ buf_len b ∧ zlen ident ≤ MAX_STRING_LEN
  | None => ∃ e, buf_getstring b = Exit e
  end.
Proof.
  intros Hb. pose proof (reader_refines (Reader := reader_getstring) b Hb) as Hr. destruct (p_string (buf_rest b)) as [[ident tl]|] eqn:E; [|done].
  destruct Hr as (n & Hn & Hfit & Ht & Hr). apply p_string_inv in E as [E Hl]; [|by apply buf_rest_bytes].
  assert (Hn' : n = 4 + zlen ident).
  { pose proof (buf_rest_length b Hb) as Hz. apply (f_equal length) in Ht. rewrite length_drop in Ht. rewrite E in Ht, Hz. unfold str in *.
    rewrite !length_app in *. cbn [length STORE32H] in *. lia. }
  rewrite <- Hn'. split_and!; [done| | |lia|done]; [apply buf_wf_advance; [done|buf_facts; lia..]|by rewrite buf_rest_advance].
Qed.

Section readers.
Context (DIGIT_BIT : Z) (HDB : 8 ≤ DIGIT_BIT).
Context (sha256 sha384 sha512 : list Z → list Z).
Abbreviation p_mp := (p_mpint DIGIT_BIT).

(** The numbers of a key, or a failure. *)
Definition p_num {A} (f : mp_int → parser (option A)) : parser (option A) :=
  p_bind p_mp (λ a, match a with Some a => f a | None => p_ret None end).
Definition rsa_accept (n e : mp_int) : option dropbear_rsa_key :=
  if mp_count_bits DIGIT_BIT n <? MIN_RSA_KEYLEN then None
  else if mp_count_bits DIGIT_BIT e >? 64 then None else Some (mkRsa n e None None None).
Definition dss_accept (p q g y : mp_int) : option dropbear_dss_key :=
  if negb (mp_count_bits DIGIT_BIT p =? DSS_P_BITS) then None
  else if negb (mp_count_bits DIGIT_BIT q =? DSS_Q_BITS) then None
  else match mp_cmp_d g 1, mp_cmp g p with Gt, Lt => Some (mkDss p q g y None) | _, _ => None end.
Definition p_rsa_pub : parser (option dropbear_rsa_key) := p_num (λ e, p_num (λ n, p_ret (rsa_accept n e))).
Definition p_dss_pub : parser (option dropbear_dss_key) :=
  p_num (λ p, p_num (λ q, p_num (λ g, p_num (λ y, p_ret (dss_accept p q g y))))).
Definition p_dss_priv : parser (option dropbear_dss_key) :=
  p_bind p_dss_pub (λ k, match k with
    | Some k => p_num (λ x, p_ret (Some (mkDss (dss_p k) (dss_q k) (dss_g k) (dss_y k) (Some x)))) | None => p_ret None end).
Definition p_rsa_priv : parser (option dropbear_rsa_key) :=
  p_bind p_rsa_pub (λ k, match k with
    | Some k => p_num (λ d l, match l with
        | [] => p_ret (Some (mkRsa (rsa_n k) (rsa_e k) (Some d) None None)) l
        | _ => p_num (λ p, p_num (λ q, p_ret (Some (mkRsa (rsa_n k) (rsa_e k) (Some d) (Some p) (Some q))))) l end)
    | None => p_ret None end).

Lemma reader_num {A} (f : mp_int → M buffer (option A)) p : (∀ a, Reader (f a) (p a)) →
  Reader (a ← buf_getmpint DIGIT_BIT; match a with None => mret None | Some a => f a end) (p_num p).
Proof. intros Hf. apply reader_bind; [by apply reader_getmpint|]. intros [a|]; [apply Hf|apply _]. Qed.
Lemma reader_at_end {A} (m1 m2 : M buffer A) p1 p2 : Reader m1 p1 → Reader m2 p2 →
  Reader (b ← get; if buf_pos b =? buf_len b then m1 else m2) (λ l, match l with [] => p1 l | _ => p2 l end).
Proof.
  intros H1 H2 b Hb. erewrite bind_ok by done. pose proof (buf_rest_length b Hb) as Hl.
  destruct (buf_rest b) as [|c l] eqn:E; cbn [length] in Hl.
  - rewrite (proj2 (Z.eqb_eq _ _)) by lia. rewrite <- E. by apply H1.
  - rewrite (proj2 (Z.eqb_neq _ _)) by lia. rewrite <- E. by apply H2.
Qed.

(** The reader of a key starts at the name, which it skips. *)
Definition skips {A} (n : Z) (m m' : M buffer A) : Prop :=
  ∀ b, buf_wf b → buf_pos b + n ≤ buf_len b → m b = m' (buf_advance b n).
Lemma incrpos_skips {A} n (m : M buffer A) : 0 ≤ n ≤ 2147483647 → skips n (buf_incrpos n;; m) m.
Proof.
  intros Hn b Hb Hl. erewrite bind_ok; [done|]. rewrite buf_incrpos_eq by (done || lia). pose proof Hb. buf_facts.
  rewrite (proj2 (Z.leb_le _ _)), (proj2 (Z.leb_le _ _)) by lia. done.
Qed.
Lemma skips_bind {A B} n (m m' : M buffer A) (f : A → M buffer B) : skips n m m' → skips n (m ≫= f) (m' ≫= f).
Proof. intros H b Hb Hl. unfold mbind, M_bind. by rewrite H. Qed.

Lemma rsa_pub_reads : ∃ m, skips 11 (buf_get_rsa_pub_key DIGIT_BIT) m ∧ Reader m p_rsa_pub.
Proof.
  eexists. split; [by apply incrpos_skips|]. apply reader_num. intros e. apply reader_num. intros n. unfold rsa_accept.
  destruct (_ <? _); [apply _|]. destruct (_ >? _); apply _.
Qed.
Lemma dss_pub_reads : ∃ m, skips 11 (buf_get_dss_pub_key DIGIT_BIT) m ∧ Reader m p_dss_pub.
Proof.
  eexists. split; [by apply incrpos_skips|]. do 4 (apply reader_num; intros ?). unfold dss_accept.
  destruct (negb _); [apply _|]. destruct (negb _); [apply _|]. destruct (mp_cmp_d _ _); [apply _..|]. destruct (mp_cmp _ _); apply _.
Qed.
Lemma dss_priv_reads : ∃ m, skips 11 (buf_get_dss_priv_key DIGIT_BIT) m ∧ Reader m p_dss_priv.
Proof.
  destruct dss_pub_reads as (m & Hs & Hr). eexists. split; [by apply skips_bind|]. apply reader_bind; [done|]. intros [k|]; [|apply _].
  apply reader_num. intros x. apply _.
Qed.
Lemma rsa_priv_reads : ∃ m, skips 11 (buf_get_rsa_priv_key DIGIT_BIT) m ∧ Reader m p_rsa_priv.
Proof.
  destruct rsa_pub_reads as (m & Hs & Hr). eexists. split; [by apply skips_bind|]. apply reader_bind; [done|]. intros [k|]; [|apply _].
  apply reader_num. intros d. apply reader_at_end; [apply _|]. apply reader_num. intros p. apply reader_num. intros q. apply _.
Qed.

(** ** Points *)

(** The curve [y^2 = x^3 - 3 x + B]. *)
Definition on_curve (dp : ltc_ecc_set) (x y : Z) : Prop := y * y mod dp_prime dp = (x * x * x - 3 * x + dp_B dp) mod dp_prime dp.
#[global] Instance on_curve_dec dp x y : Decision (on_curve dp x y).
Proof. unfold on_curve. apply _. Defined.
Definition set_ok (dp : ltc_ecc_set) : Prop := 0 ≤ dp_B dp < dp_prime dp ∧ 1 < dp_order dp ∧ 0 < dp_size dp ≤ 66.
Lemma curves_ok : set_ok ecc_256 ∧ set_ok ecc_384 ∧ set_ok ecc_521.
Proof. unfold set_ok. cbn. lia. Qed.

Lemma ecc_is_point_ok dp x y : set_ok dp →
  ecc_is_point DIGIT_BIT dp x y = Ok (bool_decide (on_curve dp (mp_val DIGIT_BIT x) (mp_val DIGIT_BIT y))).
Proof.
  intros (HB & _). unfold ecc_is_point. set (p := dp_prime dp) in *. set (a := mp_val DIGIT_BIT x). set (b := mp_val DIGIT_BIT y).
  set (t := _ mod p). assert (Ht : 0 ≤ t < p) by (apply Z.mod_pos_bound; lia).
  unfold add_loop. rewrite (proj2 (Z.ltb_ge t 0)) by lia. cbn [mbind outcome_bind obind]. unfold sub_loop. rewrite (proj2 (Z.ltb_lt t p)) by lia. cbn [negb mbind outcome_bind obind].
  f_equal. assert (E : t = (b * b - (a * a * a - 3 * a)) mod p).
  { unfold t. change (cong p (b * b - a * (a * a mod p) + a + a + a) (b * b - (a * a * a - 3 * a))).
    transitivity (b * b + (-1) * (a * (a * a mod p)) + (a + a + a)); [apply eq_subrelation; [apply _|ring]|].
    rewrite cong_mod. apply eq_subrelation; [apply _|ring]. }
  assert (Hiff : t = dp_B dp ↔ on_curve dp a b).
  { rewrite E. unfold on_curve. fold p. set (c := a * a * a - 3 * a). split; intros H.
    - change (cong p (b * b) (c + dp_B dp)). rewrite <- H, cong_mod. apply eq_subrelation; [apply _|ring].
    - transitivity (dp_B dp mod p); [|by apply Z.mod_small]. change (cong p (b * b - c) (dp_B dp)).
      transitivity (b * b + (-1) * c); [apply eq_subrelation; [apply _|ring]|]. change (cong p (b * b) (c + dp_B dp)) in H. rewrite H.
      apply eq_subrelation; [apply _|ring]. }
  destruct (Z.eqb_spec t (dp_B dp)); [rewrite bool_decide_eq_true_2 by (by apply Hiff)|rewrite bool_decide_eq_false_2 by (by rewrite <- Hiff)]; done.
Qed.

(** What a public point is accepted for: an uncompressed point of the curve
    with non-zero coordinates. *)
Definition point_of (bs : list Z) (dp : ltc_ecc_set) : mp_int * mp_int :=
  let xy := drop 1 bs in
  (mp_read_unsigned_bin DIGIT_BIT (take (Z.to_nat (dp_size dp)) xy), mp_read_unsigned_bin DIGIT_BIT (drop (Z.to_nat (dp_size dp)) xy)).
Definition point_accept (dp : ltc_ecc_set) (bs : list Z) : option ecc_key :=
  let '(x, y) := point_of bs dp in
  if bool_decide (head bs = Some 4 ∧ zlen bs = 1 + 2 * dp_size dp ∧ on_curve dp (mp_val DIGIT_BIT x) (mp_val DIGIT_BIT y) ∧
                  mp_val DIGIT_BIT x ≠ 0 ∧ mp_val DIGIT_BIT y ≠ 0)
  then Some (mkEcc dp (mkPoint x y mp_one) mp_zero) else None.
Lemma take_then {A} b n (f : list Z → M buffer A) : buf_wf b → 0 ≤ n → buf_pos b + n ≤ buf_len b →
  (p ← buf_getptr n; bs ← buf_load p n; buf_incrpos n;; f bs) b = f (take (Z.to_nat n) (buf_rest b)) (buf_advance b n).
Proof.
  intros Hb Hn Hl. pose proof Hb as Hb'. buf_facts.
  rewrite (bind_ok _ _ _ (buf_pos b) b) by (rewrite buf_getptr_eq, (proj2 (Z.leb_le _ _)) by (done || unfold U32; lia); done).
  erewrite bind_ok by (apply buf_load_eq; [done|lia..]).
  rewrite (bind_ok _ _ _ tt (buf_advance b n)); [by rewrite buf_rest_load by lia|].
  rewrite buf_incrpos_eq by (done || lia). rewrite !(proj2 (Z.leb_le _ _)) by lia. done.
Qed.
Lemma buf_of_rest bs : buf_rest (buf_of bs) = bs.
Proof. unfold buf_rest, buf_of. cbn [buf_len buf_pos buf_data]. rewrite drop_0, Z.sub_0_r. apply take_ge. lia. Qed.
Lemma ecc_raw_spec curve bs : set_ok (curve_dp curve) → Forall is_byte bs → zlen bs ≤ BUF_MAX_SIZE →
  match bs with
  | [] => ∃ e, buf_get_ecc_raw_pubkey DIGIT_BIT curve (buf_of bs) = Exit e
  | _ => ∃ q, buf_get_ecc_raw_pubkey DIGIT_BIT curve (buf_of bs) = Ok (point_accept (curve_dp curve) bs, q)
  end.
Proof.
  intros Hset Hb Hl. pose proof (buf_of_wf bs Hb Hl) as Hw. unfold buf_get_ecc_raw_pubkey. set (dp := curve_dp curve) in *. set (size := dp_size dp).
  assert (Hsz : 0 < size ≤ 66) by apply Hset. cbn zeta.
  rewrite (bind_ok _ _ _ tt (buf_of bs)) by (unfold buf_setpos; erewrite bind_ok by done; destruct (Z.gtb_spec 0 (buf_len (buf_of bs))) as [H|]; [cbn in H; lia|done]).
  destruct bs as [|c xy]; [eexists; apply bind_exit; done|].
  pose proof (reader_refines (Reader := reader_getbyte) _ Hw) as Hr. rewrite buf_of_rest in Hr. cbn [p_byte] in Hr. destruct Hr as (n & Hn & Hfit & Ht & Hr).
  assert (n = 1) as ->.
  { apply (f_equal length) in Ht. rewrite length_drop in Ht. cbn [length buf_of buf_pos buf_len] in *. lia. }
  rewrite (bind_ok _ _ _ _ _ Hr). erewrite bind_ok by done. set (b1 := buf_advance (buf_of (c :: xy)) 1).
  assert (Hw1 : buf_wf b1) by (apply buf_wf_advance; [done|cbn; lia..]). change (buf_len b1) with (zlen (c :: xy)).
  assert (Hr1 : buf_rest b1 = xy) by (unfold b1; rewrite buf_rest_advance, buf_of_rest by (done || lia); done).
  unfold point_accept, point_of. fold size. change (drop 1 (c :: xy)) with xy. set (x := mp_read_unsigned_bin DIGIT_BIT (take (Z.to_nat size) xy)). set (y := mp_read_unsigned_bin DIGIT_BIT (drop (Z.to_nat size) xy)).
  assert (Hrej : ∀ P : Prop, ∀ (HD : Decision P), ¬ P → ∃ q, Ok (None, b1) = Ok (if bool_decide P then Some (mkEcc dp (mkPoint x y mp_one) mp_zero) else None, q)).
  { intros P HD HP. rewrite bool_decide_eq_false_2 by done. by eexists. }
  destruct (Z.eqb_spec c 2) as [->|]; [apply Hrej; naive_solver|]. destruct (Z.eqb_spec c 3) as [->|]; [apply Hrej; naive_solver|]. cbn [orb].
  destruct (Z.eqb_spec c 4) as [->|]; [|apply Hrej; naive_solver]. destruct (Z.eqb_spec (zlen (4 :: xy)) (1 + 2 * size)) as [Hlen|]; [|apply Hrej; naive_solver]. cbn [negb orb].
  assert (Hl1 : buf_len b1 = 1 + 2 * size) by exact Hlen.
  rewrite take_then by (done || (cbn [b1 buf_advance set_pos buf_pos buf_of]; lia)). set (b2 := buf_advance b1 size).
  assert (Hw2 : buf_wf b2) by (apply buf_wf_advance; [done|cbn [b1 buf_advance set_pos buf_pos buf_of]; lia..]).
  rewrite take_then by (done || (cbn [b1 b2 buf_advance set_pos buf_pos buf_of]; change (buf_len b2) with (buf_len b1); lia)).
  unfold b2. rewrite buf_rest_advance by (done || (cbn [b1 buf_advance set_pos buf_pos buf_of]; lia)). rewrite Hr1.
  rewrite (take_ge (drop _ xy)) by (rewrite length_drop; cbn [length] in Hlen; lia). fold x y. rewrite ecc_is_point_ok by done.
  erewrite bind_ok by done. apply Forall_cons in Hb as [_ Hxy].
  assert (Hx : mp_nat DIGIT_BIT x) by (apply mp_read_nat; auto with ssh). assert (Hy : mp_nat DIGIT_BIT y) by (apply mp_read_nat; auto with ssh).
  rewrite !(mp_cmp_d_val DIGIT_BIT HDB) by (done || lia). set (vx := mp_val DIGIT_BIT x). set (vy := mp_val DIGIT_BIT y).
  destruct (decide (on_curve dp vx vy)) as [Hc|Hc]; [rewrite (bool_decide_eq_true_2 (on_curve dp vx vy)) by done|rewrite (bool_decide_eq_false_2 (on_curve dp vx vy)) by done]; cbn [negb].
  2: { eexists. rewrite bool_decide_eq_false_2 by naive_solver. done. }
  assert (0 ≤ vx ∧ 0 ≤ vy) as [Hvx Hvy] by (split; by apply mp_nat_nonneg).
  destruct (Z.compare_spec vx 0); [|lia|destruct (Z.compare_spec vy 0); [|lia|]]; eexists;
    [rewrite bool_decide_eq_false_2 by naive_solver; done..|].
  rewrite bool_decide_eq_true_2; [done|]. split; [done|]. split; [exact Hlen|]. unfold vx, vy in *. split; [done|lia].
Qed.

(** ** Keys of any kind *)
Abbreviation curves := (dropbear_ecc_curves sha256 sha384 sha512).
Definition curve_of_type (type : Z) : option dropbear_ecc_curve :=
  if type =? DROPBEAR_SIGNKEY_ECDSA_NISTP256 then Some (ecc_curve_nistp256 sha256)
  else if type =? DROPBEAR_SIGNKEY_ECDSA_NISTP384 then Some (ecc_curve_nistp384 sha384)
  else if type =? DROPBEAR_SIGNKEY_ECDSA_NISTP521 then Some (ecc_curve_nistp521 sha512) else None.
Lemma signkey_type_cases name : let t := signkey_type_from_name name in
  (t = DROPBEAR_SIGNKEY_DSS ∧ name = SSH_SIGNKEY_DSS) ∨ (t = DROPBEAR_SIGNKEY_RSA ∧ name = SSH_SIGNKEY_RSA) ∨
  (signkey_is_ecdsa t = true ∧ ∃ c, curve_of_type t = Some c ∧ name = ecdsa_ident c ∧ c ∈ curves) ∨
  (t = DROPBEAR_SIGNKEY_NONE ∧ curve_of_type t = None).
Proof.
  unfold signkey_type_from_name, signkey_names. cbn [signkey_type_loop].
  repeat match goal with |- context [bool_decide (?a = name)] => destruct (bool_decide_reflect (a = name)) as [<-|]; [rewrite Z.eqb_refl; cbn [andb]|rewrite andb_false_r] end.
  - right. by left.
  - by left.
  - right. right. left. split; [done|]. eexists. split; [done|]. split; [done|]. by left.
  - right. right. left. split; [done|]. eexists. split; [done|]. split; [done|]. right. by left.
  - right. right. left. split; [done|]. eexists. split; [done|]. split; [done|]. right. right. by left.
  - do 3 right. done.
Qed.
(** A reader that starts at the name of the key. *)
Definition reads {A} (ident : list Z) (m : M buffer A) (p : parser A) : Prop :=
  ∃ m', (∀ b, buf_wf b → buf_getstring b = Ok (ident, buf_advance b (4 + zlen ident)) →
             buf_pos b + 4 + zlen ident ≤ buf_len b → m b = m' (buf_advance b (4 + zlen ident))) ∧ Reader m' p.
Lemma reads_skips {A} ident (m : M buffer A) p : zlen ident = 7 → (∃ m', skips 11 m m' ∧ Reader m' p) → reads ident m p.
Proof. intros Hl (m' & Hs & Hr). exists m'. split; [|done]. rewrite Hl. intros b Hb _ Hfit. apply Hs; [done|lia]. Qed.
Lemma reads_bind {A B} ident (m : M buffer A) p (f : A → M buffer B) q : reads ident m p → (∀ a, Reader (f a) (q a)) →
  reads ident (m ≫= f) (p_bind p q).
Proof.
  intros (m' & Hm & Hr) Hf. exists (m' ≫= f). split; [|by apply reader_bind]. intros b Hb E Hfit. unfold mbind, M_bind. by rewrite Hm.
Qed.

Lemma reads_at {A} ident (m : M buffer A) p b : reads ident m p → buf_wf b → buf_getstring b = Ok (ident, buf_advance b (4 + zlen ident)) →
  buf_pos b + 4 + zlen ident ≤ buf_len b →
  match p (buf_rest (buf_advance b (4 + zlen ident))) with
  | Some (v, tl) => ∃ n, 0 ≤ n ∧ buf_pos b + n ≤ buf_len b ∧ tl = drop (Z.to_nat n) (buf_rest b) ∧ m b = Ok (v, buf_advance b n)
  | None => ∃ e, m b = Exit e
  end.
Proof.
  intros (m' & Hm & Hr) Hb Hs Hfit. set (n := 4 + zlen ident) in *. assert (Hw : buf_wf (buf_advance b n)) by (apply buf_wf_advance; [done|buf_facts; lia..]).
  specialize (Hr _ Hw). rewrite (Hm b Hb Hs Hfit). destruct (p _) as [[v tl]|]; [|done]. destruct Hr as (k & Hk & Hl & -> & E). cbn in Hl.
  exists (n + k). split_and!; [lia|lia| |].
  - rewrite buf_rest_advance, drop_drop by (done || lia). f_equal. lia.
  - by rewrite E, buf_advance_advance.
Qed.
Lemma i32_id x : -2147483648 ≤ x ≤ 2147483647 → i32 x = x.
Proof.
  intros Hx. destruct (Z.le_gt_cases 0 x); [apply i32_small; lia|]. unfold i32, u32. rewrite <- (Z_mod_plus_full x 1 U32), Z.mod_small by (unfold U32; lia).
  destruct (Z.ltb_spec (x + 1 * U32) 2147483648); unfold U32 in *; lia.
Qed.
Definition p_get_key (pd : parser (option dropbear_dss_key)) (pr : parser (option dropbear_rsa_key)) (pe : dropbear_ecc_curve → parser (option ecc_key))
    (key : sign_key) (type : Z) : parser (bool * sign_key * Z) := λ l,
  '(ident, tl) ← p_string l;
  let keytype := signkey_type_from_name ident in
  if negb (type =? DROPBEAR_SIGNKEY_ANY) && negb (type =? keytype) then Some ((false, key, type), tl)
  else if keytype =? DROPBEAR_SIGNKEY_DSS then p_bind pd (λ k, p_ret (bool_decide (is_Some k), set_dsskey k key, keytype)) tl
  else if keytype =? DROPBEAR_SIGNKEY_RSA then p_bind pr (λ k, p_ret (bool_decide (is_Some k), set_rsakey k key, keytype)) tl
  else match curve_of_type keytype with
       | Some c => p_bind (pe c) (λ k, p_ret (bool_decide (is_Some k), set_ecc_key keytype k key, keytype)) tl
       | None => Some ((false, key, keytype), l)
       end.
Lemma reader_get_key gd gr ge pd pr pe key type :
  reads SSH_SIGNKEY_DSS gd pd → reads SSH_SIGNKEY_RSA gr pr → (∀ c, c ∈ curves → reads (ecdsa_ident c) ge (pe c)) →
  Reader (buf_get_key gd gr ge key type) (p_get_key pd pr pe key type).
Proof.
  intros Hd Hr He b Hb. pose proof (getstring_cases b Hb) as Hs. unfold p_get_key, buf_get_key.
  destruct (p_string (buf_rest b)) as [[ident tl]|]; cbn [mbind option_bind]; [|destruct Hs as [e Hs]; exists e; by apply bind_exit].
  destruct Hs as (Hs & Hw & Ht & Hfit & Hl). rewrite (bind_ok _ _ _ _ _ Hs). set (n := 4 + zlen ident) in *. set (kt := signkey_type_from_name ident).
  assert (Hn : 0 ≤ n ∧ buf_pos b + n ≤ buf_len b) by lia. assert (Hdr : drop (Z.to_nat n) (buf_rest b) = tl) by (rewrite <- Ht; symmetry; apply buf_rest_advance; [done|lia..]).
  destruct (negb _ && negb _); [exists n; split_and!; [lia|lia|done|done]|].
  rewrite (bind_ok _ _ _ tt b).
  2: { rewrite i32_id by (unfold MAX_STRING_LEN in *; lia). pose proof Hw as Hw'. rewrite buf_incrpos_eq by (done || (unfold MAX_STRING_LEN in *; lia)).
       cbn [buf_advance set_pos buf_pos buf_len]. buf_facts. rewrite !(proj2 (Z.leb_le _ _)) by lia. cbn [andb]. do 2 f_equal. destruct b. unfold set_pos; cbn in *. f_equal. lia. }
  assert (Hkey : ∀ (m : M buffer (bool * sign_key * Z)) p, reads ident m p →
    match p tl with
    | Some (v, tl) => ∃ n, 0 ≤ n ∧ buf_pos b + n ≤ buf_len b ∧ tl = drop (Z.to_nat n) (buf_rest b) ∧ m b = Ok (v, buf_advance b n)
    | None => ∃ e, m b = Exit e
    end) by (intros m p Hm; rewrite <- Ht; by eapply reads_at).
  destruct (signkey_type_cases ident) as [[E1 E2]|[[E1 E2]|[[E1 (c & E2 & E3 & Hc)]|[E1 E2]]]]; fold kt in E1, E2.
  - rewrite E1. cbn [Z.eqb Pos.eqb DROPBEAR_SIGNKEY_DSS]. apply Hkey. apply reads_bind; [by rewrite E2|intros; apply _].
  - rewrite E1. cbn [Z.eqb Pos.eqb DROPBEAR_SIGNKEY_DSS DROPBEAR_SIGNKEY_RSA]. apply Hkey. apply reads_bind; [by rewrite E2|intros; apply _].
  - assert (kt ≠ DROPBEAR_SIGNKEY_DSS ∧ kt ≠ DROPBEAR_SIGNKEY_RSA) as [N1 N2] by (split; intros N; rewrite N in E2; by vm_compute in E2).
    rewrite E2, (proj2 (Z.eqb_neq kt _) N1), (proj2 (Z.eqb_neq kt _) N2), E1. apply Hkey. apply reads_bind; [rewrite E3; by apply He|intros; apply _].
  - rewrite E2, E1. cbn. exists 0. rewrite buf_advance_0. split_and!; [lia|lia|done|done].
Qed.

Lemma curves_cases (P : dropbear_ecc_curve → Prop) : P (ecc_curve_nistp256 sha256) → P (ecc_curve_nistp384 sha384) → P (ecc_curve_nistp521 sha512) →
  ∀ c, c ∈ curves → P c.
Proof. intros H1 H2 H3 c Hc. unfold dropbear_ecc_curves in Hc. rewrite !elem_of_cons, elem_of_nil in Hc. naive_solver. Qed.
Lemma curve_set_ok c : c ∈ curves → set_ok (curve_dp c).
Proof. revert c. apply curves_cases; apply curves_ok. Qed.
Lemma curve_ident c : c ∈ curves → drop 11 (ecdsa_ident c) = curve_name c ∧ zlen (ecdsa_ident c) = zlen (curve_name c) + 11.
Proof. revert c. apply curves_cases; by split. Qed.
Lemma find_curve_ok c : c ∈ curves → find_curve (curve_name c) curves = Ok (Some c).
Proof. revert c. apply curves_cases; vm_compute; reflexivity. Qed.

Definition p_point (c : dropbear_ecc_curve) (bs : list Z) : parser (option ecc_key) :=
  match bs with [] => p_fail | _ => p_ret (point_accept (curve_dp c) bs) end.
Definition p_ecdsa_pub (c : dropbear_ecc_curve) : parser (option ecc_key) :=
  p_bind p_string (λ identifier, if bool_decide (identifier = curve_name c) then p_bind p_string (p_point c) else p_ret None).
Definition p_ecdsa_priv (c : dropbear_ecc_curve) : parser (option ecc_key) :=
  p_bind (p_ecdsa_pub c) (λ k, match k with
    | Some k => p_num (λ x, p_ret (Some (mkEcc (ecc_dp k) (ecc_pubkey k) x))) | None => p_ret None end).

(** A string that was read consists of bytes and is short. *)
Lemma reader_string_post {B} (f : list Z → M buffer B) q : (∀ bs, Forall is_byte bs → zlen bs ≤ MAX_STRING_LEN → Reader (f bs) (q bs)) →
  Reader (bs ← buf_getstring; f bs) (p_bind p_string q).
Proof.
  intros Hf b Hb. pose proof (getstring_cases b Hb) as Hs. unfold p_bind. pose proof (buf_rest_bytes b Hb) as Hby.
  destruct (p_string (buf_rest b)) as [[bs tl]|] eqn:E; cbn [mbind option_bind]; [|destruct Hs as [e Hs]; exists e; by apply bind_exit].
  destruct Hs as (Hs & Hw & Ht & Hfit & Hl). rewrite (bind_ok _ _ _ _ _ Hs). apply p_string_inv in E as [E _]; [|done].
  assert (Hbs : Forall is_byte bs) by (rewrite E in Hby; unfold str in Hby; apply Forall_app in Hby as [[_ ?]%Forall_app _]; done).
  specialize (Hf bs Hbs Hl _ Hw). rewrite Ht in Hf. destruct (q bs tl) as [[v tl']|]; [|done]. destruct Hf as (k & Hk & Hk2 & -> & Ef). cbn in Hk2.
  exists (4 + zlen bs + k). split_and!; [lia|lia| |by rewrite Ef, buf_advance_advance]. rewrite <- Ht, buf_rest_advance, drop_drop by (done || lia). f_equal. lia.
Qed.
Lemma reader_point c bs : c ∈ curves → Forall is_byte bs → zlen bs ≤ MAX_STRING_LEN →
  Reader (lift (fst <$> buf_get_ecc_raw_pubkey DIGIT_BIT c (buf_of bs))) (p_point c bs).
Proof.
  intros Hc Hb Hl b Hw. pose proof (ecc_raw_spec c bs (curve_set_ok c Hc) Hb ltac:(unfold MAX_STRING_LEN, BUF_MAX_SIZE in *; lia)) as H.
  unfold p_point. destruct bs as [|x bs]; [destruct H as [e H]; exists e|destruct H as [q H]; exists 0; rewrite buf_advance_0]; unfold lift; rewrite H; [done|].
  cbn. buf_facts. split_and!; [lia|lia|done|done].
Qed.
Lemma ecdsa_pub_reads c : c ∈ curves → reads (ecdsa_ident c) (buf_get_ecdsa_pub_key DIGIT_BIT sha256 sha384 sha512) (p_ecdsa_pub c).
Proof.
  intros Hc. destruct (curve_ident c Hc) as [Hd Hz]. eexists (identifier ← buf_getstring; _). split; [intros b Hb E _; unfold buf_get_ecdsa_pub_key; erewrite bind_ok by exact E; reflexivity|].
  apply reader_bind; [apply _|]. intros identifier. rewrite Hd, Hz. destruct (bool_decide_reflect (identifier = curve_name c)) as [->|Hne].
  - rewrite Z.eqb_refl, bool_decide_eq_true_2 by done. cbn [negb]. eapply (reader_ext (q_buf ← buf_getstringbuf; lift (fst <$> buf_get_ecc_raw_pubkey DIGIT_BIT c q_buf))).
    { intros b. symmetry. rewrite (bind_ok _ _ _ (Some c) b); [done|]. unfold lift. by rewrite find_curve_ok. }
    intros b Hb. assert (E : ∀ f : buffer → M buffer (option ecc_key), (buf_getstringbuf ≫= f) b = (bs ← buf_getstring; f (buf_of bs)) b).
    { intros f. unfold mbind, M_bind at 1. rewrite getstringbuf_string by done. unfold mbind, M_bind. by destruct (buf_getstring b) as [[]| |]. }
    rewrite E. apply reader_string_post; [|done]. intros bs Hbs Hl. by apply reader_point.
  - destruct (Z.eqb_spec (zlen (curve_name c) + 11) (zlen identifier + 11)); [|apply _]. rewrite bool_decide_eq_false_2 by congruence. apply _.
Qed.
Lemma ecdsa_priv_reads c : c ∈ curves → reads (ecdsa_ident c) (buf_get_ecdsa_priv_key DIGIT_BIT sha256 sha384 sha512) (p_ecdsa_priv c).
Proof. intros Hc. apply reads_bind; [by apply ecdsa_pub_reads|]. intros [k|]; [|apply _]. apply reader_num. intros x. apply _. Qed.

(** The routines of [signkey.c] refine parsers. *)
Definition p_pub_key : sign_key → Z → parser (bool * sign_key * Z) := p_get_key p_dss_pub p_rsa_pub p_ecdsa_pub.
Definition p_priv_key : sign_key → Z → parser (bool * sign_key * Z) := p_get_key p_dss_priv p_rsa_priv p_ecdsa_priv.
Lemma reader_pub_key key type : Reader (buf_get_pub_key DIGIT_BIT sha256 sha384 sha512 key type) (p_pub_key key type).
Proof.
  apply reader_get_key; [by apply reads_skips, dss_pub_reads|by apply reads_skips, rsa_pub_reads|apply ecdsa_pub_reads].
Qed.
Lemma reader_priv_key key type : Reader (buf_get_priv_key DIGIT_BIT sha256 sha384 sha512 key type) (p_priv_key key type).
Proof.
  apply reader_get_key; [by apply reads_skips, dss_priv_reads|by apply reads_skips, rsa_priv_reads|apply ecdsa_priv_reads].
Qed.

(** ** Keys that are accepted *)
Definition rsa_ok (k : dropbear_rsa_key) : Prop :=
  mp_small DIGIT_BIT (rsa_n k) ∧ mp_small DIGIT_BIT (rsa_e k) ∧ MIN_RSA_KEYLEN ≤ mp_count_bits DIGIT_BIT (rsa_n k) ∧ mp_count_bits DIGIT_BIT (rsa_e k) ≤ 64.
Definition dss_ok (k : dropbear_dss_key) : Prop :=
  Forall (mp_small DIGIT_BIT) [dss_p k; dss_q k; dss_g k; dss_y k] ∧ mp_count_bits DIGIT_BIT (dss_p k) = DSS_P_BITS ∧
  mp_count_bits DIGIT_BIT (dss_q k) = DSS_Q_BITS ∧ 1 < mp_val DIGIT_BIT (dss_g k) < mp_val DIGIT_BIT (dss_p k).
Definition ecc_ok (c : dropbear_ecc_curve) (k : ecc_key) : Prop :=
  let x := pt_x (ecc_pubkey k) in let y := pt_y (ecc_pubkey k) in
  c ∈ curves ∧ ecc_dp k = curve_dp c ∧ mp_nat DIGIT_BIT x ∧ mp_nat DIGIT_BIT y ∧
  0 < mp_val DIGIT_BIT x < 256 ^ dp_size (curve_dp c) ∧ 0 < mp_val DIGIT_BIT y < 256 ^ dp_size (curve_dp c) ∧
  on_curve (curve_dp c) (mp_val DIGIT_BIT x) (mp_val DIGIT_BIT y) ∧ pt_z (ecc_pubkey k) = mp_one.
(** One key, of the type [type], that the reader accepts. *)
Definition key_ok (key : sign_key) (type : Z) : Prop :=
  (type = DROPBEAR_SIGNKEY_DSS ∧ ∃ k, key = set_dsskey (Some k) new_sign_key ∧ dss_ok k) ∨
  (type = DROPBEAR_SIGNKEY_RSA ∧ ∃ k, key = set_rsakey (Some k) new_sign_key ∧ rsa_ok k) ∨
  (∃ c k, curve_of_type type = Some c ∧ key = set_ecc_key type (Some k) new_sign_key ∧ ecc_ok c k).

Lemma p_num_inv {A} (f : mp_int → parser (option A)) l r tl : Forall is_byte l → p_num f l = Some (Some r, tl) →
  ∃ a tl1, mp_small DIGIT_BIT a ∧ Forall is_byte tl1 ∧ f a tl1 = Some (Some r, tl).
Proof.
  intros Hl. unfold p_num, p_bind. destruct (p_mpint DIGIT_BIT l) as [[[a|] tl1]|] eqn:E; cbn [mbind option_bind]; [|done|done].
  apply p_mpint_small in E as [Ha Ht]; [|done..]. eauto.
Qed.
Lemma rsa_pub_valid l k tl : Forall is_byte l → p_rsa_pub l = Some (Some k, tl) → rsa_ok k.
Proof.
  intros Hl H. apply p_num_inv in H as (e & tl1 & He & Hb1 & H); [|done]. apply p_num_inv in H as (n & tl2 & Hn & _ & H); [|done].
  injection H as H _. unfold rsa_accept in H. destruct (Z.ltb_spec (mp_count_bits DIGIT_BIT n) MIN_RSA_KEYLEN); [done|].
  destruct (Z.gtb_spec (mp_count_bits DIGIT_BIT e) 64); [done|]. injection H as <-. unfold rsa_ok. cbn. auto.
Qed.
Lemma dss_pub_valid l k tl : Forall is_byte l → p_dss_pub l = Some (Some k, tl) → dss_ok k.
Proof.
  intros Hl H. apply p_num_inv in H as (p & tl1 & Hp & Hb1 & H); [|done]. apply p_num_inv in H as (q & tl2 & Hq & Hb2 & H); [|done].
  apply p_num_inv in H as (g & tl3 & Hg & Hb3 & H); [|done]. apply p_num_inv in H as (y & tl4 & Hy & _ & H); [|done].
  injection H as H _. unfold dss_accept in H. destruct (Z.eqb_spec (mp_count_bits DIGIT_BIT p) DSS_P_BITS); [|done].
  destruct (Z.eqb_spec (mp_count_bits DIGIT_BIT q) DSS_Q_BITS); [|done]. cbn [negb] in H.
  assert (H1 : 1 < 2 ^ DIGIT_BIT) by (apply Z.pow_gt_1; lia). rewrite (mp_cmp_d_val DIGIT_BIT HDB) in H by (apply Hg || lia). rewrite (mp_cmp_val DIGIT_BIT HDB) in H by (apply Hg || apply Hp).
  destruct (Z.compare_spec (mp_val DIGIT_BIT g) 1); [done..|]. destruct (Z.compare_spec (mp_val DIGIT_BIT g) (mp_val DIGIT_BIT p)); [done| |done].
  injection H as <-. unfold dss_ok. cbn. split; [auto 6|]. auto.
Qed.
Lemma point_valid c bs k : c ∈ curves → Forall is_byte bs → point_accept (curve_dp c) bs = Some k → ecc_ok c k ∧ ecc_k k = mp_zero.
Proof.
  intros Hc Hb. unfold point_accept, point_of. set (dp := curve_dp c). set (x := mp_read_unsigned_bin _ _). set (y := mp_read_unsigned_bin _ _).
  destruct (bool_decide_reflect (head bs = Some 4 ∧ zlen bs = 1 + 2 * dp_size dp ∧ on_curve dp (mp_val DIGIT_BIT x) (mp_val DIGIT_BIT y) ∧
    mp_val DIGIT_BIT x ≠ 0 ∧ mp_val DIGIT_BIT y ≠ 0)) as [(_ & Hl & Ho & Hx & Hy)|]; [|done]. intros [= <-]. split; [|done].
  destruct (curve_set_ok c Hc) as (_ & _ & Hsz). fold dp in Hsz.
  assert (Hv : ∀ l, Forall is_byte l → zlen l = dp_size dp → mp_nat DIGIT_BIT (mp_read_unsigned_bin DIGIT_BIT l) ∧
    0 ≤ mp_val DIGIT_BIT (mp_read_unsigned_bin DIGIT_BIT l) < 256 ^ dp_size dp).
  { intros l Hlb Hll. split; [by apply mp_read_nat|]. rewrite mp_read_unsigned_bin_val by done. rewrite <- Hll. by apply be_val_bound. }
  assert (Hbd : Forall is_byte (drop 1 bs)) by auto with ssh.
  destruct (Hv (take (Z.to_nat (dp_size dp)) (drop 1 bs))) as [Nx Bx]; [auto with ssh|rewrite length_take, length_drop; lia|].
  destruct (Hv (drop (Z.to_nat (dp_size dp)) (drop 1 bs))) as [Ny By]; [auto with ssh|rewrite length_drop, length_drop; lia|].
  fold x in Nx, Bx. fold y in Ny, By. clearbody x y. unfold ecc_ok. cbn [ecc_pubkey ecc_dp pt_x pt_y pt_z]. fold dp. split_and!; try done; lia.
Qed.
Lemma ecdsa_pub_valid c l k tl : c ∈ curves → Forall is_byte l → p_ecdsa_pub c l = Some (Some k, tl) → ecc_ok c k ∧ ecc_k k = mp_zero.
Proof.
  intros Hc Hl. unfold p_ecdsa_pub, p_bind. destruct (p_string l) as [[id tl1]|] eqn:E1; [|done]. cbn [mbind option_bind]. apply p_string_inv in E1 as [-> _]; [|done].
  apply Forall_app in Hl as [_ Hl]. case_bool_decide; [|done]. destruct (p_string tl1) as [[bs tl2]|] eqn:E2; [|done]. cbn [mbind option_bind].
  apply p_string_inv in E2 as [-> _]; [|done]. apply Forall_app in Hl as [Hl _]. unfold str in Hl. apply Forall_app in Hl as [_ Hl].
  unfold p_point. destruct bs as [|b bs]; [done|]. intros [= Hk _]. by eapply point_valid.
Qed.
Lemma p_pub_key_valid l key t tl : Forall is_byte l → p_pub_key new_sign_key DROPBEAR_SIGNKEY_ANY l = Some ((true, key, t), tl) → key_ok key t.
Proof.
  intros Hl. unfold p_pub_key, p_get_key. destruct (p_string l) as [[id tl1]|] eqn:E; [|done]. cbn [mbind option_bind]. apply p_string_inv in E as [-> _]; [|done].
  apply Forall_app in Hl as [_ Hl]. cbn [Z.eqb Pos.eqb DROPBEAR_SIGNKEY_ANY negb andb]. set (kt := signkey_type_from_name id). unfold p_bind, p_ret.
  destruct (Z.eqb_spec kt DROPBEAR_SIGNKEY_DSS) as [Et|_].
  { destruct (p_dss_pub tl1) as [[[k|] tl2]|] eqn:E; cbn; [|done|done]. intros [= <- <- _]. left. split; [done|]. exists k. split; [done|]. by eapply dss_pub_valid. }
  destruct (Z.eqb_spec kt DROPBEAR_SIGNKEY_RSA) as [Et|_].
  { destruct (p_rsa_pub tl1) as [[[k|] tl2]|] eqn:E; cbn; [|done|done]. intros [= <- <- _]. right. left. split; [done|]. exists k. split; [done|]. by eapply rsa_pub_valid. }
  destruct (curve_of_type kt) as [c|] eqn:Ec; [|done]. assert (Hc : c ∈ curves).
  { destruct (signkey_type_cases id) as [[E _]|[[E _]|[[_ (c' & E & _ & ?)]|[_ E]]]]; fold kt in E; [by rewrite E in Ec..|congruence|congruence]. }
  destruct (p_ecdsa_pub c tl1) as [[[k|] tl2]|] eqn:E; cbn; [|done|done]. intros [= <- <- _]. right. right. exists c, k. split; [done|]. split; [done|]. by eapply ecdsa_pub_valid.
Qed.

(** Only sound public keys are accepted.  On any content of the packet
    reading a public key stays inside the buffer and ends; when it succeeds it
    has read one key of the type it reports, and that key is sound: an RSA
    modulus of at least 1024 bits and an exponent of at most 64, a DSS group
    with a prime of 1024 bits, an order of 160 bits and a generator between 1
    and the prime, or an uncompressed point, not 0, that satisfies the
    equation of the curve its name says. *)
Theorem pub_key_sound b : buf_wf b →
  wp (buf_get_pub_key DIGIT_BIT sha256 sha384 sha512 new_sign_key DROPBEAR_SIGNKEY_ANY)
    (λ '(ok, key, type) b', buf_wf b' ∧ (ok = true → key_ok key type)) b.
Proof.
  intros Hb. eapply reader_wp; [apply reader_pub_key|done|]. intros [[ok key] t] n Hn Hl Hw Hp. split; [done|]. intros ->.
  eapply p_pub_key_valid; [|exact Hp]. by apply buf_rest_bytes.
Qed.
End readers.
