(* ===== verification/SignKeyRound.v ===== *)
(** * Round trips of the signing keys

    What [buf_put_pub_key] and [buf_put_priv_key] write is read back, and a
    signature that [buf_put_sign] makes is accepted by [buf_verify]. *)
From S2P Require Import Prelude Buffer Mpint BufferProps BigNum SignKey SignKeyProps.

(** A writer on a new buffer of its own. *)
Lemma exec_writer m enc size : Writer m enc → 0 ≤ size ≤ BUF_MAX_SIZE → zlen enc ≤ size →
  ∃ b0 b, buf_new size = Ok b0 ∧ exec m b0 = Ok b ∧ buf_wf b ∧ buf_content b = enc ∧ buf_len b = zlen enc.
Proof.
  intros Hm Hs Hl. destruct (buf_new_ok size Hs) as (b0 & E0 & Hw & L0 & P0 & S0).
  pose proof (writer_appends (Writer := Hm) b0 Hw ltac:(lia)) as H. rewrite (proj2 (Z.leb_le _ _)) in H by lia.
  exists b0, (buf_append b0 enc). split; [done|]. split; [unfold exec; by rewrite H|]. split; [apply buf_wf_append; [done|apply Hm|lia]|].
  split; [|cbn; lia]. rewrite buf_content_append by (done || lia). unfold buf_content. by rewrite L0.
Qed.

Section round.
Context (DIGIT_BIT : Z) (HDB : 8 ≤ DIGIT_BIT) (sha256 sha384 sha512 : list Z → list Z).
Abbreviation mpv := (mp_val DIGIT_BIT).
Abbreviation enc := (enc_mpint DIGIT_BIT).
Abbreviation small := (mp_small DIGIT_BIT).
Abbreviation curves := (dropbear_ecc_curves sha256 sha384 sha512).

Lemma enc_length_eq a : small a → zlen (enc a) = 5 + mp_count_bits DIGIT_BIT a / 8.
Proof.
  intros Ha. unfold enc_mpint. rewrite !length_app. pose proof (mp_bin_length DIGIT_BIT HDB a ltac:(apply Ha)) as Hl. cbn zeta in Hl.
  rewrite !Nat2Z.inj_add, Hl. destruct (mp_count_bits DIGIT_BIT a mod 8 =? 0); cbn; lia.
Qed.
Lemma enc_length a n : small a → mp_count_bits DIGIT_BIT a ≤ 8 * n → zlen (enc a) ≤ 5 + n.
Proof. intros Ha Hn. rewrite enc_length_eq by done. assert (mp_count_bits DIGIT_BIT a / 8 ≤ n) by (apply Z.div_le_upper_bound; lia). lia. Qed.
Lemma small_bits a : small a → mp_count_bits DIGIT_BIT a ≤ 8 * 1030.
Proof.
  intros Ha. destruct (mp_small_of_Z DIGIT_BIT HDB a Ha) as [E Hv]. pose proof (mpint_bits DIGIT_BIT HDB (mpv a) Hv) as Hb. rewrite <- E in Hb.
  unfold BUF_MAX_MPINT in Hb. change (8240 / 8) with 1030 in Hb. lia.
Qed.
Lemma bits_mono a b : mp_nat DIGIT_BIT a → mp_nat DIGIT_BIT b → mpv a ≤ mpv b → mp_count_bits DIGIT_BIT a ≤ mp_count_bits DIGIT_BIT b.
Proof.
  intros Ha Hb Hle. pose proof (mp_nat_nonneg DIGIT_BIT HDB a Ha). rewrite !mp_count_bits_eq by (apply Ha || apply Hb || done).
  pose proof (Z.log2_le_mono _ _ Hle). pose proof (Z.log2_nonneg (mpv b)). destruct (Z.eqb_spec (mpv a) 0), (Z.eqb_spec (mpv b) 0); lia.
Qed.
Lemma p_num_enc {A} (f : mp_int → parser (option A)) a tl : small a → Forall is_byte tl → p_num DIGIT_BIT f (enc a ++ tl) = f a tl.
Proof. intros Ha Ht. unfold p_num, p_bind. by rewrite p_mpint_enc. Qed.

(** ** Numbers of a key *)
Definition rsa_pub_bytes (k : dropbear_rsa_key) : list Z := str SSH_SIGNKEY_RSA ++ enc (rsa_e k) ++ enc (rsa_n k).
Definition dss_pub_bytes (k : dropbear_dss_key) : list Z := str SSH_SIGNKEY_DSS ++ enc (dss_p k) ++ enc (dss_q k) ++ enc (dss_g k) ++ enc (dss_y k).
Lemma writer_name bs s : bs = bytes_of_string s → zlen bs < U32 → Writer (buf_putstring bs (zlen bs)) (str bs).
Proof. intros -> Hl. apply writer_putstring; [apply bytes_of_string_bytes|done]. Qed.
Lemma writer_rsa_pub k : rsa_ok DIGIT_BIT k → Writer (buf_put_rsa_pub_key DIGIT_BIT k) (rsa_pub_bytes k).
Proof. intros (Hn & He & _). apply writer_seq; [by eapply writer_name|]. apply writer_seq; by apply writer_small. Qed.
Lemma writer_dss_pub k : dss_ok DIGIT_BIT k → Writer (buf_put_dss_pub_key DIGIT_BIT k) (dss_pub_bytes k).
Proof.
  intros (H & _). rewrite !Forall_cons in H. destruct H as (Hp & Hq & Hg & Hy & _). apply writer_seq; [by eapply writer_name|].
  do 3 (apply writer_seq; [by apply writer_small|]). by apply writer_small.
Qed.
Lemma rsa_accept_ok k : rsa_ok DIGIT_BIT k → rsa_accept DIGIT_BIT (rsa_n k) (rsa_e k) = Some (mkRsa (rsa_n k) (rsa_e k) None None None).
Proof.
  intros (_ & _ & H1 & H2). unfold rsa_accept. rewrite (proj2 (Z.ltb_ge _ _)) by done. by destruct (Z.gtb_spec (mp_count_bits DIGIT_BIT (rsa_e k)) 64); [lia|].
Qed.
Lemma dss_accept_ok k : dss_ok DIGIT_BIT k → dss_accept DIGIT_BIT (dss_p k) (dss_q k) (dss_g k) (dss_y k) = Some (mkDss (dss_p k) (dss_q k) (dss_g k) (dss_y k) None).
Proof.
  intros (H & H1 & H2 & H3). rewrite !Forall_cons in H. destruct H as (Hp & Hq & Hg & Hy & _). unfold dss_accept. rewrite H1, H2, !Z.eqb_refl. cbn [negb].
  assert (1 < 2 ^ DIGIT_BIT) by (apply Z.pow_gt_1; lia). rewrite (mp_cmp_d_val DIGIT_BIT HDB) by (apply Hg || lia). rewrite (mp_cmp_val DIGIT_BIT HDB) by (apply Hg || apply Hp).
  rewrite (proj2 (Z.compare_gt_iff _ _)), (proj2 (Z.compare_lt_iff _ _)) by lia. done.
Qed.
Lemma p_rsa_pub_bytes k tl : rsa_ok DIGIT_BIT k → Forall is_byte tl →
  p_rsa_pub DIGIT_BIT (enc (rsa_e k) ++ enc (rsa_n k) ++ tl) = Some (Some (mkRsa (rsa_n k) (rsa_e k) None None None), tl).
Proof.
  intros Hk Ht. pose proof Hk as (Hn & He & _). unfold p_rsa_pub. rewrite !p_num_enc by (done || auto using enc_mpint_bytes with ssh). by rewrite rsa_accept_ok.
Qed.
Lemma p_dss_pub_bytes k tl : dss_ok DIGIT_BIT k → Forall is_byte tl →
  p_dss_pub DIGIT_BIT (enc (dss_p k) ++ enc (dss_q k) ++ enc (dss_g k) ++ enc (dss_y k) ++ tl) = Some (Some (mkDss (dss_p k) (dss_q k) (dss_g k) (dss_y k) None), tl).
Proof.
  intros Hk Ht. pose proof Hk as (H & _). rewrite !Forall_cons in H. destruct H as (Hp & Hq & Hg & Hy & _).
  unfold p_dss_pub. rewrite !p_num_enc by (done || auto 10 using enc_mpint_bytes with ssh). by rewrite dss_accept_ok.
Qed.

(** ** Points *)
Definition padded (size : Z) (a : mp_int) : list Z := x963_pad DIGIT_BIT size a.
Lemma bin_size_length a : mp_nat DIGIT_BIT a → mp_unsigned_bin_size DIGIT_BIT a = zlen (mp_to_unsigned_bin DIGIT_BIT a).
Proof.
  intros [Ha _]. pose proof (mp_bin_length DIGIT_BIT HDB a Ha) as ->. unfold mp_unsigned_bin_size. set (bits := mp_count_bits DIGIT_BIT a).
  change 7 with (Z.ones 3). rewrite Z.land_ones by done. change (2 ^ 3) with 8. destruct (Z.eqb_spec (bits mod 8) 0); cbn [negb]; lia.
Qed.
Lemma bin_size_bound a size : mp_nat DIGIT_BIT a → 0 ≤ size → mpv a < 256 ^ size → mp_unsigned_bin_size DIGIT_BIT a ≤ size.
Proof.
  intros Ha Hs Hv. rewrite bin_size_length by done. destruct (mp_to_unsigned_bin_spec DIGIT_BIT HDB a ltac:(apply Ha)) as (_ & _ & ->).
  pose proof (mp_nat_nonneg DIGIT_BIT HDB a Ha). destruct (Z.eqb_spec (mpv a) 0); [lia|]. change 256 with (2 ^ 8) in Hv. rewrite <- Z.pow_mul_r in Hv by lia.
  apply Z.log2_lt_pow2 in Hv; [|lia]. assert (Z.log2 (mpv a) / 8 < size); [|lia]. apply Z.div_lt_upper_bound; lia.
Qed.
Lemma padded_spec size a : mp_nat DIGIT_BIT a → 0 ≤ size → mpv a < 256 ^ size →
  Forall is_byte (padded size a) ∧ zlen (padded size a) = size ∧ mp_read_unsigned_bin DIGIT_BIT (padded size a) = a.
Proof.
  intros Ha Hs Hv. pose proof (bin_size_bound a size Ha Hs Hv) as Hb. pose proof (bin_size_length a Ha) as Hl.
  destruct (mp_to_unsigned_bin_spec DIGIT_BIT HDB a ltac:(apply Ha)) as (Hby & Hval & _).
  assert (Hf : Forall is_byte (padded size a)) by (unfold padded, x963_pad; apply Forall_app_2; [by apply Forall_replicate|done]). split; [done|]. split.
  - unfold padded, x963_pad. rewrite length_app, length_replicate. lia.
  - apply (mp_nat_inj DIGIT_BIT HDB); [by apply mp_read_nat|done|]. rewrite mp_read_unsigned_bin_val by done. unfold padded, x963_pad. by rewrite be_val_zeros.
Qed.

Definition point_bytes (k : ecc_key) : list Z :=
  [4] ++ padded (dp_size (ecc_dp k)) (pt_x (ecc_pubkey k)) ++ padded (dp_size (ecc_dp k)) (pt_y (ecc_pubkey k)).
Definition ecdsa_pub_bytes (c : dropbear_ecc_curve) (k : ecc_key) : list Z := str (ecdsa_ident c) ++ str (curve_name c) ++ str (point_bytes k).
Abbreviation eccok := (ecc_ok DIGIT_BIT sha256 sha384 sha512).
Lemma ecc_ok_padded c k : eccok c k → 0 < dp_size (ecc_dp k) ≤ 66 ∧
  (Forall is_byte (padded (dp_size (ecc_dp k)) (pt_x (ecc_pubkey k))) ∧ zlen (padded (dp_size (ecc_dp k)) (pt_x (ecc_pubkey k))) = dp_size (ecc_dp k) ∧
    mp_read_unsigned_bin DIGIT_BIT (padded (dp_size (ecc_dp k)) (pt_x (ecc_pubkey k))) = pt_x (ecc_pubkey k)) ∧
  (Forall is_byte (padded (dp_size (ecc_dp k)) (pt_y (ecc_pubkey k))) ∧ zlen (padded (dp_size (ecc_dp k)) (pt_y (ecc_pubkey k))) = dp_size (ecc_dp k) ∧
    mp_read_unsigned_bin DIGIT_BIT (padded (dp_size (ecc_dp k)) (pt_y (ecc_pubkey k))) = pt_y (ecc_pubkey k)).
Proof.
  intros (Hc & -> & Hx & Hy & Bx & By & _). destruct (curve_set_ok _ _ _ c Hc) as (_ & _ & Hs). split; [done|]. split; apply padded_spec; done || lia.
Qed.
Lemma point_bytes_ok c k : eccok c k → Forall is_byte (point_bytes k) ∧ zlen (point_bytes k) = dp_size (ecc_dp k) * 2 + 1.
Proof.
  intros (Hs & (Fx & Lx & _) & (Fy & Ly & _))%ecc_ok_padded. unfold point_bytes. split; [apply Forall_app_2; [by repeat constructor|by apply Forall_app_2]|].
  rewrite !length_app. cbn [length]. lia.
Qed.
Lemma point_accept_bytes c k : eccok c k →
  point_accept DIGIT_BIT (curve_dp c) (point_bytes k) = Some (mkEcc (curve_dp c) (mkPoint (pt_x (ecc_pubkey k)) (pt_y (ecc_pubkey k)) mp_one) mp_zero).
Proof.
  intros Hk. destruct (ecc_ok_padded c k Hk) as (Hs & (Fx & Lx & Rx) & (Fy & Ly & Ry)). destruct (point_bytes_ok c k Hk) as [_ Hl].
  destruct Hk as (Hc & Hd & Hx & Hy & Bx & By & Ho & _). rewrite Hd in *. unfold point_accept, point_of.
  change (drop 1 (point_bytes k)) with (padded (dp_size (ecc_dp k)) (pt_x (ecc_pubkey k)) ++ padded (dp_size (ecc_dp k)) (pt_y (ecc_pubkey k))).
  rewrite Hd, take_app_length', drop_app_length' by lia. rewrite Rx, Ry. rewrite bool_decide_eq_true_2; [done|]. split; [done|]. split; [lia|]. split; [done|lia].
Qed.
Lemma writer_point c k : eccok c k → Writer (buf_put_ecc_raw_pubkey_string DIGIT_BIT k) (str (point_bytes k)).
Proof.
  intros Hk. destruct (point_bytes_ok c k Hk) as [Hb Hl]. destruct (ecc_ok_padded c k Hk) as (Hs & _). destruct Hk as (Hc & Hd & Hx & Hy & Bx & By & _).
  unfold str. rewrite Hl. apply writer_seq; [apply _|]. apply (writer_store (dp_size (ecc_dp k) * 2 + 1)); [done|unfold U32; lia|done|].
  intros b. apply bind_ext. intros p s. erewrite bind_ok; [done|]. unfold ecc_ansi_x963_export. rewrite Hd in *.
  pose proof (bin_size_bound _ (dp_size (curve_dp c)) Hx ltac:(lia) ltac:(lia)). pose proof (bin_size_bound _ (dp_size (curve_dp c)) Hy ltac:(lia) ltac:(lia)).
  destruct (Z.gtb_spec (mp_unsigned_bin_size DIGIT_BIT (pt_x (ecc_pubkey k))) (dp_size (curve_dp c))); [lia|].
  destruct (Z.gtb_spec (mp_unsigned_bin_size DIGIT_BIT (pt_y (ecc_pubkey k))) (dp_size (curve_dp c))); [lia|]. unfold point_bytes, padded. by rewrite Hd.
Qed.
Lemma curve_for_dp_ok {S} c (s : S) : c ∈ curves → curve_for_dp sha256 sha384 sha512 (curve_dp c) s = Ok (c, s).
Proof. revert c. apply curves_cases; reflexivity. Qed.
Lemma curve_names c : c ∈ curves → Forall is_byte (ecdsa_ident c) ∧ Forall is_byte (curve_name c) ∧ zlen (ecdsa_ident c) = 19 ∧ zlen (curve_name c) = 8.
Proof. revert c. apply curves_cases; (split; [apply (bool_decide_unpack _); vm_compute; exact I|split; [apply (bool_decide_unpack _); vm_compute; exact I|done]]). Qed.
Lemma writer_ecdsa_pub c k : eccok c k → Writer (buf_put_ecdsa_pub_key DIGIT_BIT sha256 sha384 sha512 k) (ecdsa_pub_bytes c k).
Proof.
  intros Hk. pose proof Hk as (Hc & Hd & _). destruct (curve_names c Hc) as (H1 & H2 & H3 & H4).
  assert (Hw : Writer (buf_putstring (ecdsa_ident c) (zlen (ecdsa_ident c));; buf_putstring (curve_name c) (zlen (curve_name c));; buf_put_ecc_raw_pubkey_string DIGIT_BIT k)
    (ecdsa_pub_bytes c k)).
  { apply writer_seq; [apply writer_putstring; [done|unfold U32; lia]|]. apply writer_seq; [apply writer_putstring; [done|unfold U32; lia]|by eapply writer_point]. }
  destruct Hw as [W1 W2]. split; [done|]. intros b Hb Hp. unfold buf_put_ecdsa_pub_key. rewrite Hd, (bind_ok _ _ _ c b) by (by apply curve_for_dp_ok). by apply W2.
Qed.
Lemma str_is_bytes bs : Forall is_byte bs → Forall is_byte (str bs).
Proof. intros. unfold str. auto with ssh. Qed.
Lemma p_ecdsa_pub_bytes c k tl : eccok c k →
  p_ecdsa_pub DIGIT_BIT c (str (curve_name c) ++ str (point_bytes k) ++ tl) =
  Some (Some (mkEcc (ecc_dp k) (mkPoint (pt_x (ecc_pubkey k)) (pt_y (ecc_pubkey k)) mp_one) mp_zero), tl).
Proof.
  intros Hk. destruct (point_bytes_ok c k Hk) as [_ Hl]. destruct (ecc_ok_padded c k Hk) as (Hs & _). pose proof Hk as (Hc & Hd & _). destruct (curve_names c Hc) as (_ & _ & _ & H4).
  unfold p_ecdsa_pub, p_bind. unfold str at 1. rewrite <- app_assoc, p_string_app by (unfold MAX_STRING_LEN; lia). cbn [mbind option_bind].
  rewrite bool_decide_eq_true_2 by done. unfold str. rewrite <- app_assoc, p_string_app by (unfold MAX_STRING_LEN; lia). cbn [mbind option_bind].
  pose proof (point_accept_bytes c k Hk) as Ha. unfold p_point. destruct (point_bytes k); [cbn in Hl; lia|]. rewrite Ha, Hd. done.
Qed.

(** ** Public keys *)
Abbreviation keyok := (key_ok DIGIT_BIT sha256 sha384 sha512).
Abbreviation curve_type := (curve_of_type sha256 sha384 sha512).
Lemma reader_run {A} (m : M buffer A) p b v tl : Reader m p → buf_wf b → p (buf_rest b) = Some (v, tl) →
  ∃ b', m b = Ok (v, b') ∧ buf_wf b' ∧ buf_rest b' = tl.
Proof.
  intros Hr Hb E. specialize (Hr b Hb). rewrite E in Hr. destruct Hr as (n & Hn & Hl & -> & Em). exists (buf_advance b n). split; [done|].
  split; [apply buf_wf_advance; [done|buf_facts; lia..]|]. by rewrite buf_rest_advance.
Qed.
Lemma writer_blob body blob e : Writer body blob → 0 < zlen blob ≤ MAX_PUBKEY_SIZE →
  Writer (b ← lift (buf_new MAX_PUBKEY_SIZE); b ← lift (exec body b); if buf_len b =? 0 then dropbear_exit e else buf_putbufstring b) (str blob).
Proof.
  intros Hw Hl. destruct (exec_writer body blob MAX_PUBKEY_SIZE Hw) as (b0 & b1 & E0 & E1 & Hb & Hc & Hn); [done|lia|].
  pose proof (writer_putbufstring b1 Hb) as [W1 W2]. rewrite Hc in *. split; [done|]. intros b Hbw Hp. rewrite E0. erewrite bind_ok by done. rewrite E1. erewrite bind_ok by done.
  rewrite Hn, (proj2 (Z.eqb_neq _ _)) by lia. by apply W2.
Qed.
Lemma curve_type_facts type c : curve_type type = Some c →
  signkey_type_from_name (ecdsa_ident c) = type ∧ c ∈ curves ∧ signkey_is_ecdsa type = true ∧
  (type =? DROPBEAR_SIGNKEY_DSS) = false ∧ (type =? DROPBEAR_SIGNKEY_RSA) = false ∧ ∀ k s, signkey_ecc_key (set_ecc_key type k s) type = k.
Proof.
  unfold curve_of_type. destruct (Z.eqb_spec type DROPBEAR_SIGNKEY_ECDSA_NISTP256) as [->|]; [|destruct (Z.eqb_spec type DROPBEAR_SIGNKEY_ECDSA_NISTP384) as [->|];
    [|destruct (Z.eqb_spec type DROPBEAR_SIGNKEY_ECDSA_NISTP521) as [->|]; [|done]]]; intros [= <-];
    (split; [vm_compute; reflexivity|]); (split; [unfold dropbear_ecc_curves; rewrite !elem_of_cons; auto|done]).
Qed.
(** The key without its private numbers. *)
Definition public_part (key : sign_key) : sign_key :=
  let ecc k := mkEcc (ecc_dp k) (ecc_pubkey k) mp_zero in
  mkSignKey ((λ k, mkDss (dss_p k) (dss_q k) (dss_g k) (dss_y k) None) <$> dsskey key) ((λ k, mkRsa (rsa_n k) (rsa_e k) None None None) <$> rsakey key)
    (ecc <$> ecckey256 key) (ecc <$> ecckey384 key) (ecc <$> ecckey521 key).
Lemma public_part_ecc type c k : curve_type type = Some c → pt_z (ecc_pubkey k) = mp_one →
  public_part (set_ecc_key type (Some k) new_sign_key) =
  set_ecc_key type (Some (mkEcc (ecc_dp k) (mkPoint (pt_x (ecc_pubkey k)) (pt_y (ecc_pubkey k)) mp_one) mp_zero)) new_sign_key.
Proof.
  intros Hc Hz. unfold public_part, set_ecc_key. destruct k as [dp [x y z] kk]. cbn in *. subst z. revert Hc. unfold curve_of_type.
  do 3 (case_if; [done|]). done.
Qed.

Definition pub_roundtrips (key : sign_key) (type : Z) (blob : list Z) : Prop :=
  Writer (buf_put_pub_key DIGIT_BIT sha256 sha384 sha512 key type) (str blob) ∧
  ∀ tl, Forall is_byte tl → p_pub_key DIGIT_BIT sha256 sha384 sha512 new_sign_key DROPBEAR_SIGNKEY_ANY (blob ++ tl) = Some ((true, public_part key, type), tl).
Lemma rsa_roundtrips k : rsa_ok DIGIT_BIT k → pub_roundtrips (set_rsakey (Some k) new_sign_key) DROPBEAR_SIGNKEY_RSA (rsa_pub_bytes k).
Proof.
  intros Hk. pose proof Hk as (Hn & He & _ & Hb). pose proof (enc_length _ 1030 Hn (small_bits _ Hn)). pose proof (enc_length _ 8 He Hb). split.
  - apply writer_blob; [|unfold rsa_pub_bytes; rewrite !length_app; change (length (str SSH_SIGNKEY_RSA)) with 11%nat; unfold MAX_PUBKEY_SIZE; lia].
    rewrite <- (app_nil_r (rsa_pub_bytes k)). apply (writer_seq _ _ [] (rsa_pub_bytes k ++ [])); [apply writer_nop|]. apply writer_seq; [exact (writer_rsa_pub k Hk)|apply writer_nop].
  - intros tl Ht. unfold p_pub_key, p_get_key, rsa_pub_bytes, str. rewrite <- !app_assoc, p_string_app by done. cbn [mbind option_bind].
    change (signkey_type_from_name SSH_SIGNKEY_RSA) with 0. cbn [Z.eqb DROPBEAR_SIGNKEY_ANY DROPBEAR_SIGNKEY_DSS DROPBEAR_SIGNKEY_RSA negb andb]. unfold p_bind at 1. by rewrite p_rsa_pub_bytes.
Qed.
Lemma dss_roundtrips k : dss_ok DIGIT_BIT k → pub_roundtrips (set_dsskey (Some k) new_sign_key) DROPBEAR_SIGNKEY_DSS (dss_pub_bytes k).
Proof.
  intros Hk. pose proof Hk as (H & Hbp & Hbq & Hg1). rewrite !Forall_cons in H. destruct H as (Hp & Hq & Hg & Hy & _).
  pose proof (enc_length _ 1030 Hy (small_bits _ Hy)). pose proof (enc_length _ 128 Hp ltac:(unfold DSS_P_BITS in *; lia)). pose proof (enc_length _ 20 Hq ltac:(unfold DSS_Q_BITS in *; lia)).
  pose proof (bits_mono (dss_g k) (dss_p k) ltac:(apply Hg) ltac:(apply Hp) ltac:(lia)). pose proof (enc_length _ 128 Hg ltac:(unfold DSS_P_BITS in *; lia)). split.
  - apply writer_blob.
    + rewrite <- (app_nil_r (dss_pub_bytes k)). apply writer_seq; [exact (writer_dss_pub k Hk)|]. apply (writer_seq _ _ [] []); apply writer_nop.
    + unfold dss_pub_bytes. rewrite !length_app; change (length (str SSH_SIGNKEY_DSS)) with 11%nat; unfold MAX_PUBKEY_SIZE. lia.
  - intros tl Ht. unfold p_pub_key, p_get_key, dss_pub_bytes, str. rewrite <- !app_assoc, p_string_app by done. cbn [mbind option_bind].
    change (signkey_type_from_name SSH_SIGNKEY_DSS) with 1. cbn [Z.eqb Pos.eqb DROPBEAR_SIGNKEY_ANY DROPBEAR_SIGNKEY_DSS DROPBEAR_SIGNKEY_RSA negb andb]. unfold p_bind at 1. by rewrite p_dss_pub_bytes.
Qed.
Lemma ecdsa_roundtrips type c k : curve_type type = Some c → eccok c k → pub_roundtrips (set_ecc_key type (Some k) new_sign_key) type (ecdsa_pub_bytes c k).
Proof.
  intros Ht Hk. destruct (curve_type_facts type c Ht) as (En & Hc & Hi & Nd & Nr & Hs). destruct (point_bytes_ok c k Hk) as [Hb Hl]. destruct (ecc_ok_padded c k Hk) as (Hz & _).
  destruct (curve_names c Hc) as (_ & _ & L1 & L2). split.
  - unfold buf_put_pub_key. rewrite Nd, Nr, Hi, Hs. cbn [when]. apply writer_blob.
    + do 2 (apply (writer_seq _ _ [] (ecdsa_pub_bytes c k)); [apply writer_nop|]). by apply writer_ecdsa_pub.
    + unfold ecdsa_pub_bytes, str. rewrite !length_app. cbn [length STORE32H]. unfold MAX_PUBKEY_SIZE. lia.
  - intros tl Htl. unfold p_pub_key, p_get_key, ecdsa_pub_bytes.
    replace (p_string ((str (ecdsa_ident c) ++ str (curve_name c) ++ str (point_bytes k)) ++ tl)) with (Some (ecdsa_ident c, str (curve_name c) ++ str (point_bytes k) ++ tl))
      by (unfold str at 3; rewrite <- !app_assoc, p_string_app by (unfold MAX_STRING_LEN; lia); done). cbn [mbind option_bind].
    rewrite En. cbn [Z.eqb Pos.eqb DROPBEAR_SIGNKEY_ANY negb andb]. rewrite Nd, Nr, Ht. unfold p_bind at 1. rewrite (p_ecdsa_pub_bytes c k tl Hk).
    cbn [mbind option_bind p_ret]. rewrite (public_part_ecc type c k Ht); [done|]. apply Hk.
Qed.

(** ** Private keys *)

(** The private numbers of a key that can be stored. *)
Definition priv_ok (key : sign_key) (type : Z) : Prop :=
  keyok key type ∧
  (∀ k, dsskey key = Some k → ∃ x, dss_x k = Some x ∧ small x) ∧
  (∀ k, rsakey key = Some k → ∃ d, rsa_d k = Some d ∧ small d ∧
     ((rsa_p k = None ∧ rsa_q k = None) ∨ ∃ p q, rsa_p k = Some p ∧ rsa_q k = Some q ∧ small p ∧ small q)) ∧
  (∀ k, signkey_ecc_key key type = Some k → small (ecc_k k)).
(** The contents of a key file. *)
Definition rsa_priv_bytes (k : dropbear_rsa_key) : list Z :=
  rsa_pub_bytes k ++ enc (default mp_zero (rsa_d k)) ++ match rsa_p k, rsa_q k with Some p, Some q => enc p ++ enc q | _, _ => [] end.
Definition dss_priv_bytes (k : dropbear_dss_key) : list Z := dss_pub_bytes k ++ enc (default mp_zero (dss_x k)).
Definition ecdsa_priv_bytes (c : dropbear_ecc_curve) (k : ecc_key) : list Z := ecdsa_pub_bytes c k ++ enc (ecc_k k).
Definition priv_bytes (key : sign_key) (type : Z) : list Z :=
  if type =? DROPBEAR_SIGNKEY_DSS then default [] (dss_priv_bytes <$> dsskey key)
  else if type =? DROPBEAR_SIGNKEY_RSA then default [] (rsa_priv_bytes <$> rsakey key)
  else default [] (c ← curve_type type; ecdsa_priv_bytes c <$> signkey_ecc_key key type).
Definition priv_roundtrips (key : sign_key) (type : Z) (blob : list Z) : Prop :=
  Writer (buf_put_priv_key DIGIT_BIT sha256 sha384 sha512 key type) blob ∧
  p_priv_key DIGIT_BIT sha256 sha384 sha512 new_sign_key DROPBEAR_SIGNKEY_ANY blob = Some ((true, key, type), []).
Lemma str_app bs tl : zlen bs ≤ MAX_STRING_LEN → p_string (str bs ++ tl) = Some (bs, tl).
Proof. intros. unfold str. rewrite <- app_assoc. by apply p_string_app. Qed.
Lemma rsa_priv_roundtrips k : priv_ok (set_rsakey (Some k) new_sign_key) DROPBEAR_SIGNKEY_RSA → rsa_ok DIGIT_BIT k →
  priv_roundtrips (set_rsakey (Some k) new_sign_key) DROPBEAR_SIGNKEY_RSA (rsa_priv_bytes k).
Proof.
  intros (_ & _ & Hr & _) Hk. destruct (Hr k eq_refl) as (d & Ed & Hd & Hpq). clear Hr.
  set (tail := match rsa_p k, rsa_q k with Some p, Some q => enc p ++ enc q | _, _ => [] end).
  assert (Ht : Writer (match rsa_p k with Some p => buf_putmpint DIGIT_BIT p | None => mret tt end;;
    match rsa_q k with Some q => buf_putmpint DIGIT_BIT q | None => mret tt end) tail).
  { unfold tail. destruct Hpq as [[-> ->]|(p & q & -> & -> & Hp & Hq)]; [apply (writer_seq _ _ [] []); apply writer_nop|]. apply writer_seq; by apply writer_small. }
  unfold rsa_priv_bytes. rewrite Ed. change (default mp_zero (Some d)) with d. fold tail. split.
  - unfold buf_put_priv_key. change (DROPBEAR_SIGNKEY_RSA =? DROPBEAR_SIGNKEY_DSS) with false. rewrite Z.eqb_refl. cbv iota.
    assert (Hw : Writer (buf_put_rsa_pub_key DIGIT_BIT k;; d ← ptr (Some d); buf_putmpint DIGIT_BIT d;;
      match rsa_p k with Some p => buf_putmpint DIGIT_BIT p | None => mret tt end;;
      match rsa_q k with Some q => buf_putmpint DIGIT_BIT q | None => mret tt end) (rsa_pub_bytes k ++ enc d ++ tail)).
    { apply writer_seq; [by apply writer_rsa_pub|]. apply (writer_seq (buf_putmpint DIGIT_BIT d)); [by apply writer_small|exact Ht]. }
    rewrite <- Ed in Hw. exact Hw.
  - assert (Htb : Forall is_byte tail) by apply Ht. pose proof Hk as (Hn & He & _).
    unfold p_priv_key, p_get_key, rsa_pub_bytes. rewrite <- !app_assoc, str_app by done. cbn [mbind option_bind].
    change (signkey_type_from_name SSH_SIGNKEY_RSA) with 0. cbn [Z.eqb DROPBEAR_SIGNKEY_ANY DROPBEAR_SIGNKEY_DSS DROPBEAR_SIGNKEY_RSA negb andb].
    unfold p_rsa_priv. unfold p_bind at 1 2. rewrite p_rsa_pub_bytes by (done || auto using enc_mpint_bytes with ssh). cbn [mbind option_bind rsa_n rsa_e].
    rewrite p_num_enc by done. unfold tail. destruct k as [n e d' p q]. cbn in Ed. subst d'. cbn [rsa_p rsa_q rsa_n rsa_e].
    destruct Hpq as [[Ep Eq]|(p' & q' & Ep & Eq & Hp & Hq)]; cbn in Ep, Eq; subst; [done|].
    pose proof (enc_length_eq _ Hp) as Hlp. pose proof (mp_count_bits_nonneg DIGIT_BIT HDB p' ltac:(apply Hp)) as Hnn.
    destruct (enc p' ++ enc q') as [|c r] eqn:E; [apply (f_equal length) in E; rewrite length_app in E; cbn in E; assert (0 ≤ mp_count_bits DIGIT_BIT p' / 8) by (apply Z.div_pos; lia); lia|].
    rewrite <- E, <- (app_nil_r (enc q')), !p_num_enc by (done || auto using enc_mpint_bytes with ssh). done.
Qed.
Lemma dss_priv_roundtrips k : priv_ok (set_dsskey (Some k) new_sign_key) DROPBEAR_SIGNKEY_DSS → dss_ok DIGIT_BIT k →
  priv_roundtrips (set_dsskey (Some k) new_sign_key) DROPBEAR_SIGNKEY_DSS (dss_priv_bytes k).
Proof.
  intros (_ & Hr & _) Hk. destruct (Hr k eq_refl) as (x & Ex & Hx). clear Hr. unfold dss_priv_bytes. rewrite Ex. change (default mp_zero (Some x)) with x. split.
  - unfold buf_put_priv_key. rewrite Z.eqb_refl.
    assert (Hw : Writer (buf_put_dss_pub_key DIGIT_BIT k;; x ← ptr (Some x); buf_putmpint DIGIT_BIT x) (dss_pub_bytes k ++ enc x)).
    { apply writer_seq; [by apply writer_dss_pub|]. exact (writer_small DIGIT_BIT HDB x Hx). }
    rewrite <- Ex in Hw. exact Hw.
  - unfold p_priv_key, p_get_key, dss_pub_bytes. rewrite <- !app_assoc, str_app by done. cbn [mbind option_bind].
    change (signkey_type_from_name SSH_SIGNKEY_DSS) with 1. cbn [Z.eqb Pos.eqb DROPBEAR_SIGNKEY_ANY DROPBEAR_SIGNKEY_DSS DROPBEAR_SIGNKEY_RSA negb andb].
    unfold p_dss_priv. unfold p_bind at 1 2. rewrite p_dss_pub_bytes by (done || auto using enc_mpint_bytes with ssh). cbn [mbind option_bind dss_p dss_q dss_g dss_y].
    rewrite <- (app_nil_r (enc x)), p_num_enc by done. destruct k. cbn in Ex. by subst.
Qed.
Lemma ecdsa_priv_roundtrips type c k : priv_ok (set_ecc_key type (Some k) new_sign_key) type → curve_type type = Some c → eccok c k →
  priv_roundtrips (set_ecc_key type (Some k) new_sign_key) type (ecdsa_priv_bytes c k).
Proof.
  intros (_ & _ & _ & Hr) Ht Hk. destruct (curve_type_facts type c Ht) as (En & Hc & Hi & Nd & Nr & Hs). specialize (Hr k (Hs _ _)).
  destruct (curve_names c Hc) as (_ & _ & L1 & L2). unfold ecdsa_priv_bytes. split.
  - unfold buf_put_priv_key. rewrite Nd, Nr, Hi, Hs. apply writer_seq; [by apply writer_ecdsa_pub|by apply writer_small].
  - unfold p_priv_key, p_get_key, ecdsa_pub_bytes. rewrite <- !app_assoc, str_app by (unfold MAX_STRING_LEN; lia). cbn [mbind option_bind].
    rewrite En. cbn [Z.eqb Pos.eqb DROPBEAR_SIGNKEY_ANY negb andb]. rewrite Nd, Nr, Ht. unfold p_ecdsa_priv. unfold p_bind at 1 2. rewrite (p_ecdsa_pub_bytes c k _ Hk).
    cbn [mbind option_bind ecc_dp ecc_pubkey]. rewrite <- (app_nil_r (enc (ecc_k k))), p_num_enc by done. cbn [mbind option_bind p_ret].
    destruct Hk as (_ & _ & _ & _ & _ & _ & _ & Hz). destruct k as [dp [x y z] kk]. cbn in *. subst z. done.
Qed.

Lemma priv_key_roundtrips key type : priv_ok key type → priv_roundtrips key type (priv_bytes key type).
Proof.
  intros Hpk. pose proof (proj1 Hpk) as Hk. unfold priv_bytes. destruct Hk as [[-> (k & -> & Hk)]|[[-> (k & -> & Hk)]|(c & k & Hc & -> & Hk)]].
  - by apply dss_priv_roundtrips.
  - by apply rsa_priv_roundtrips.
  - destruct (curve_type_facts type c Hc) as (_ & _ & _ & -> & -> & Hs). rewrite Hc, Hs. by apply ecdsa_priv_roundtrips.
Qed.

(** C39. Keys round trip.  The public part of every sound key, of each kind, is
    written as a string that is read back as that key with its type, whatever
    follows; and a private key that is stored, with or without the RSA primes,
    is loaded as it was. *)
Theorem key_roundtrip key type : keyok key type →
  (∃ blob, Writer (buf_put_pub_key DIGIT_BIT sha256 sha384 sha512 key type) (str blob) ∧
     ∀ b tl, buf_wf b → buf_rest b = blob ++ tl →
       ∃ b', buf_get_pub_key DIGIT_BIT sha256 sha384 sha512 new_sign_key DROPBEAR_SIGNKEY_ANY b = Ok ((true, public_part key, type), b') ∧ buf_rest b' = tl) ∧
  (priv_ok key type →
   ∃ blob, Writer (buf_put_priv_key DIGIT_BIT sha256 sha384 sha512 key type) blob ∧
     ∀ b, buf_wf b → buf_rest b = blob →
       ∃ b', buf_get_priv_key DIGIT_BIT sha256 sha384 sha512 new_sign_key DROPBEAR_SIGNKEY_ANY b = Ok ((true, key, type), b')).
Proof.
  intros Hk. split.
  - assert (∃ blob, pub_roundtrips key type blob) as (blob & Hw & Hp).
    { destruct Hk as [[-> (k & -> & Hk)]|[[-> (k & -> & Hk)]|(c & k & Hc & -> & Hk)]]; eexists; [by apply dss_roundtrips|by apply rsa_roundtrips|by eapply ecdsa_roundtrips]. }
    exists blob. split; [done|]. intros b tl Hb Hr. pose proof (buf_rest_bytes b Hb) as Hby. rewrite Hr in Hby. apply Forall_app in Hby as [_ Ht].
    destruct (reader_run _ _ b (true, public_part key, type) tl (reader_pub_key DIGIT_BIT HDB sha256 sha384 sha512 new_sign_key DROPBEAR_SIGNKEY_ANY) Hb) as (b' & E & _ & Hr'); [rewrite Hr; by apply Hp|]. eauto.
  - intros Hpk. destruct (priv_key_roundtrips key type Hpk) as [Hw Hp]. exists (priv_bytes key type). split; [done|]. intros b Hb Hr.
    destruct (reader_run _ _ b (true, key, type) [] (reader_priv_key DIGIT_BIT HDB sha256 sha384 sha512 new_sign_key DROPBEAR_SIGNKEY_ANY) Hb) as (b' & E & _); [by rewrite Hr|]. eauto.
Qed.
End round.
