(* ===== verification/SignKeySign.v ===== *)
(** * Signatures

    [buf_verify] accepts a signature exactly when the equation of the scheme
    holds, and it accepts what [buf_put_sign] writes.  The implementation of the
    interface [SignKey]. *)
From S2P Require Import Prelude Buffer Mpint BufferProps BigNum SignKey SignKeyProps SignKeyRound.

Section sign.
Context (DIGIT_BIT : Z) (HDB : 8 ≤ DIGIT_BIT) `{BN : !BigNum} `{EO : !EccOps}.
Context (sha1 sha256 sha384 sha512 : list Z → list Z) (draw : nat → Z → list Z) (fuel : nat).
(** Hash functions return bytes, SHA-1 twenty of them. *)
Context (Hsha1 : ∀ l, Forall is_byte (sha1 l) ∧ zlen (sha1 l) = SHA1_HASH_SIZE).
Context (Hhash : ∀ l, Forall is_byte (sha256 l) ∧ Forall is_byte (sha384 l) ∧ Forall is_byte (sha512 l)).
Abbreviation mpv := (mp_val DIGIT_BIT).
Abbreviation nat_ := (mp_nat DIGIT_BIT).
Abbreviation bin_size := (mp_unsigned_bin_size DIGIT_BIT).
Abbreviation read := (mp_read_unsigned_bin DIGIT_BIT).
Abbreviation curves := (dropbear_ecc_curves sha256 sha384 sha512).

(** ** PKCS#1 padding *)
Definition pkcs1_bytes (size : Z) (hash : list Z) : list Z :=
  [1] ++ replicate (Z.to_nat (size - 38)) 255 ++ rsa_asn1_magic ++ hash.
Lemma pad_loop_ok n f b : buf_wf b → buf_pos b = buf_len b → buf_len b + Z.of_nat n = buf_size b - 36 → (n ≤ f)%nat →
  pad_loop f b = Ok (tt, buf_append b (replicate n 255)).
Proof.
  revert f b. induction n as [|n IH]; intros f b Hb Hp Hn Hf; pose proof Hb as Hb'; buf_facts.
  - destruct f; cbn [pad_loop]; erewrite bind_ok by done; unfold RSA_ASN1_MAGIC_LEN, SHA1_HASH_SIZE; rewrite u32_small by (unfold U32; lia);
      rewrite (proj2 (Z.eqb_eq _ _)) by lia; by rewrite buf_append_nil.
  - destruct f as [|f]; [lia|]. cbn [pad_loop]. erewrite bind_ok by done. unfold RSA_ASN1_MAGIC_LEN, SHA1_HASH_SIZE. rewrite u32_small by (unfold U32; lia).
    rewrite (proj2 (Z.eqb_neq _ _)) by lia. pose proof (writer_appends (Writer := writer_putbyte 255 ltac:(done)) b Hb Hp) as Hw.
    rewrite (proj2 (Z.leb_le _ _)) in Hw by (cbn; lia). rewrite (bind_ok _ _ _ _ _ Hw).
    assert (Hb1 : buf_wf (buf_append b [255])) by (apply buf_wf_append; [done|by apply Forall_singleton|cbn; lia]).
    rewrite IH by (done || (cbn; lia)). rewrite buf_append_append by (try done; cbn; rewrite length_replicate; lia). done.
Qed.
Lemma writer_run op e b : Writer op e → buf_wf b → buf_pos b = buf_len b → buf_len b + zlen e ≤ buf_size b →
  op b = Ok (tt, buf_append b e) ∧ buf_wf (buf_append b e).
Proof.
  intros Hw Hb Hp Hl. pose proof (writer_appends (Writer := Hw) b Hb Hp) as Ha. rewrite (proj2 (Z.leb_le _ _)) in Ha by lia.
  split; [done|]. apply buf_wf_append; [done|apply Hw|done].
Qed.
Lemma store_then {A} n bs (m : M buffer A) b : zlen bs = n → n < U32 → Forall is_byte bs → buf_wf b → buf_pos b = buf_len b → buf_len b + n ≤ buf_size b →
  (p ← buf_getwriteptr n; buf_store p bs;; buf_incrwritepos n;; m) b = m (buf_append b bs) ∧ buf_wf (buf_append b bs).
Proof.
  intros Hn Hu Hbs Hb Hp Hl. destruct (writer_run (p ← buf_getwriteptr n; buf_store p bs;; buf_incrwritepos n) bs b) as [E Hw]; [by apply (writer_store n); [|lia|..]|done|done|lia|].
  split; [|done]. rewrite <- (bind_ok _ (λ _, m) _ _ _ E). assoc.
Qed.
Lemma pad_em_ok key data : 38 ≤ bin_size (rsa_n key) ≤ 1100 → 
  rsa_pad_em DIGIT_BIT sha1 key data = Ok (read (pkcs1_bytes (bin_size (rsa_n key)) (sha1 (buf_content data)))).
Proof.
  set (n := bin_size (rsa_n key)). set (h := sha1 (buf_content data)). intros Hn. destruct (Hsha1 (buf_content data)) as [Hh1 Hh2]. fold h in Hh1, Hh2.
  unfold rsa_pad_em. fold n. rewrite u32_small by (unfold U32; lia). destruct (buf_new_ok (n - 1)) as (b0 & E0 & W0 & L0 & P0 & S0); [unfold BUF_MAX_SIZE; lia|].
  rewrite (obind_ok _ _ _ E0). fold h. unfold SHA1_HASH_SIZE in *.
  destruct (writer_run _ _ b0 (writer_putbyte 1 ltac:(done)) W0) as [E1 W1]; [lia|cbn; lia|]. rewrite (bind_ok _ _ _ _ _ E1). set (b1 := buf_append b0 [1]) in *.
  assert (L1 : buf_len b1 = 1) by (cbn; lia). assert (S1 : buf_size b1 = n - 1) by exact S0. erewrite bind_ok by done.
  rewrite (bind_ok _ _ _ tt (buf_append b1 (replicate (Z.to_nat (n - 38)) 255))) by (apply pad_loop_ok; [done|done|lia|lia]).
  assert (W2 : buf_wf (buf_append b1 (replicate (Z.to_nat (n - 38)) 255))) by (apply buf_wf_append; [done|by apply Forall_replicate|rewrite length_replicate; lia]).
  set (b2 := buf_append b1 _) in *. assert (L2 : buf_len b2 = n - 37) by (cbn [b2 buf_append buf_len]; rewrite length_replicate; lia). assert (S2 : buf_size b2 = n - 1) by exact S0.
  destruct (store_then RSA_ASN1_MAGIC_LEN rsa_asn1_magic (p ← buf_getwriteptr 20; buf_store p h;; buf_incrwritepos 20;; b ← get; dropbear_assert (buf_pos b =? buf_size b);;
    buf_setpos 0;; p ← buf_getptr (buf_size b); bs ← buf_load p (buf_size b); mret (read bs)) b2) as [E3 W3];
    [done|done|by repeat constructor|done|done|unfold RSA_ASN1_MAGIC_LEN; lia|]. rewrite E3. clear E3.
  set (b3 := buf_append b2 rsa_asn1_magic) in *. assert (L3 : buf_len b3 = n - 21) by (cbn [b3 buf_append buf_len]; rewrite L2; cbn; lia). assert (S3 : buf_size b3 = n - 1) by exact S0.
  destruct (store_then 20 h (b ← get; dropbear_assert (buf_pos b =? buf_size b);;
    buf_setpos 0;; p ← buf_getptr (buf_size b); bs ← buf_load p (buf_size b); mret (read bs)) b3) as [E4 W4]; [done|done|done|done|done|lia|]. rewrite E4. clear E4.
  set (b4 := buf_append b3 h) in *. assert (L4 : buf_len b4 = n - 1) by (cbn [b4 buf_append buf_len]; lia). assert (S4 : buf_size b4 = n - 1) by exact S0.
  assert (P4 : buf_pos b4 = buf_len b4) by done. erewrite bind_ok by done. rewrite (bind_ok _ _ _ tt b4) by (apply assert_ok; apply Z.eqb_eq; lia).
  rewrite (bind_ok _ _ _ tt (set_pos 0 b4)) by (unfold buf_setpos; erewrite bind_ok by done; destruct (Z.gtb_spec 0 (buf_len b4)); [lia|done]).
  assert (W5 : buf_wf (set_pos 0 b4)) by (apply buf_wf_set_pos; [done|lia]). set (b5 := set_pos 0 b4) in *.
  rewrite (bind_ok _ _ _ 0 b5) by (rewrite buf_getptr_eq by (done || (unfold U32; lia)); cbn [b5 set_pos buf_pos buf_len]; rewrite (proj2 (Z.leb_le _ _)) by lia; done).
  rewrite (bind_ok _ _ _ (buf_content b4) b5).
  2: { etrans; [exact (buf_load_eq b5 W5 (buf_size b4) ltac:(lia) ltac:(cbn [b5 set_pos buf_pos buf_size]; lia))|]. unfold buf_content. cbn [b5 set_pos buf_pos buf_data]. rewrite drop_0. do 4 f_equal. lia. }
  cbn. do 2 f_equal. unfold b4. rewrite buf_content_append by (done || lia). unfold b3. rewrite buf_content_append by (done || (rewrite L2; cbn; lia)).
  unfold b2. rewrite buf_content_append by (done || (rewrite length_replicate; lia)). unfold b1. rewrite buf_content_append by (done || (cbn; lia)).
  unfold pkcs1_bytes. rewrite <- !app_assoc. unfold buf_content. rewrite L0. done.
Qed.

(** The padded hash is a number below the modulus. *)
Lemma bin_size_lower a : nat_ a → 0 < mpv a → 256 ^ (bin_size a - 1) ≤ mpv a.
Proof.
  intros Ha Hv. rewrite bin_size_length by done. destruct (mp_to_unsigned_bin_spec DIGIT_BIT HDB a ltac:(apply Ha)) as (_ & _ & ->).
  rewrite (proj2 (Z.eqb_neq _ _)) by lia. replace (Z.log2 (mpv a) / 8 + 1 - 1) with (Z.log2 (mpv a) / 8) by lia. pose proof (Z.log2_nonneg (mpv a)).
  change 256 with (2 ^ 8). rewrite <- Z.pow_mul_r by (try apply Z.div_pos; lia). etrans; [|apply Z.log2_spec; lia].
  apply Z.pow_le_mono_r; [lia|]. pose proof (Z.mul_div_le (Z.log2 (mpv a)) 8). lia.
Qed.
Lemma rsa_size_ok key : rsa_ok DIGIT_BIT key → 38 ≤ bin_size (rsa_n key) ≤ 1100 ∧ 1 < mpv (rsa_n key).
Proof.
  intros (Hn & _ & Hb & _). pose proof (small_bits DIGIT_BIT HDB _ Hn) as Hs. unfold MIN_RSA_KEYLEN in Hb. split.
  - unfold mp_unsigned_bin_size. set (bits := mp_count_bits DIGIT_BIT (rsa_n key)) in *. assert (128 ≤ bits / 8 ≤ 1030) by (split; [apply Z.div_le_lower_bound|apply Z.div_le_upper_bound]; lia). destruct (negb _); lia.
  - rewrite mp_count_bits_eq in Hb by (apply Hn || done). destruct (Z.eqb_spec (mpv (rsa_n key)) 0); [lia|]. pose proof (mp_nat_nonneg DIGIT_BIT HDB _ ltac:(apply Hn)).
    destruct (Z.eq_dec (mpv (rsa_n key)) 1) as [E|]; [rewrite E in Hb; cbn in Hb; lia|lia].
Qed.
Lemma pkcs1_spec key data : rsa_ok DIGIT_BIT key → let em := read (pkcs1_bytes (bin_size (rsa_n key)) (sha1 (buf_content data))) in
  nat_ em ∧ 0 ≤ mpv em < mpv (rsa_n key).
Proof.
  intros Hk. destruct (rsa_size_ok key Hk) as [Hs Hn]. destruct (Hsha1 (buf_content data)) as [Hh1 Hh2]. set (h := sha1 _) in *. cbn zeta.
  assert (Hb : Forall is_byte (pkcs1_bytes (bin_size (rsa_n key)) h)).
  { unfold pkcs1_bytes. apply Forall_app_2; [by repeat constructor|]. apply Forall_app_2; [by apply Forall_replicate|]. apply Forall_app_2; [by repeat constructor|done]. }
  assert (Hl : zlen (pkcs1_bytes (bin_size (rsa_n key)) h) = bin_size (rsa_n key) - 1).
  { unfold pkcs1_bytes. rewrite !length_app, length_replicate. cbn [length rsa_asn1_magic]. unfold SHA1_HASH_SIZE in Hh2. lia. }
  split; [by apply mp_read_nat|]. rewrite mp_read_unsigned_bin_val by done. pose proof (be_val_bound _ Hb) as Hv. rewrite Hl in Hv. split; [lia|].
  eapply Z.lt_le_trans; [apply Hv|]. apply bin_size_lower; [apply Hk|lia].
Qed.

(** ** RSA *)
Context `{HL : !BigNumLaws DIGIT_BIT}.
Definition rsa_em (key : dropbear_rsa_key) (data : buffer) : Z := mpv (read (pkcs1_bytes (bin_size (rsa_n key)) (sha1 (buf_content data)))).
(** The equation of an RSA signature: [s^e mod n] is the padded hash. *)
Definition rsa_valid (key : dropbear_rsa_key) (data : buffer) (sig : list Z) : Prop :=
  be_val sig < mpv (rsa_n key) ∧ be_val sig ^ mpv (rsa_e key) mod mpv (rsa_n key) = rsa_em key data.
#[global] Instance rsa_valid_dec key data sig : Decision (rsa_valid key data sig).
Proof. unfold rsa_valid. apply _. Defined.
Lemma getint_cases b : buf_wf b →
  match p_int (buf_rest b) with
  | Some (v, tl) => buf_getint b = Ok (v, buf_advance b 4) ∧ buf_wf (buf_advance b 4) ∧ buf_rest (buf_advance b 4) = tl ∧ 0 ≤ v < U32
  | None => ∃ e, buf_getint b = Exit e
  end.
Proof.
  intros Hb. pose proof (reader_refines (Reader := reader_getint) b Hb) as Hr. destruct (p_int (buf_rest b)) as [[v tl]|] eqn:E; [|done].
  destruct Hr as (n & Hn & Hfit & Ht & Hr). pose proof (p_int_range _ _ _ E) as Hv. apply p_int_inv in E; [|by apply buf_rest_bytes].
  assert (Hn' : n = 4).
  { pose proof (buf_rest_length b Hb) as Hz. apply (f_equal length) in Ht. rewrite length_drop in Ht. rewrite E in Ht, Hz. rewrite !length_app in *. cbn [length STORE32H] in *. lia. }
  subst n. split; [done|]. split; [apply buf_wf_advance; [done|buf_facts; lia..]|]. split; [by rewrite buf_rest_advance|done].
Qed.
Lemma rest_ptr b : buf_wf b → buf_getptr (buf_len b - buf_pos b) b = Ok (buf_pos b, b) ∧ buf_load (buf_pos b) (buf_len b - buf_pos b) b = Ok (buf_rest b, b).
Proof.
  intros Hb. pose proof Hb as Hb'. buf_facts. split; [rewrite buf_getptr_eq by (done || (unfold U32; lia)); by rewrite (proj2 (Z.leb_le _ _)) by lia|].
  rewrite buf_load_eq by (done || lia). done.
Qed.
Lemma rsa_verify_spec key data b : rsa_ok DIGIT_BIT key → buf_wf b →
  match p_int (buf_rest b) with
  | Some (slen, sig) => buf_rsa_verify DIGIT_BIT sha1 key data b = Ok (bool_decide (slen = bin_size (rsa_n key) ∧ rsa_valid key data sig), buf_advance b 4)
  | None => ∃ e, buf_rsa_verify DIGIT_BIT sha1 key data b = Exit e
  end.
Proof.
  intros Hk Hb. pose proof (getint_cases b Hb) as Hi. unfold buf_rsa_verify. destruct (p_int (buf_rest b)) as [[slen sig]|]; [|destruct Hi as [e Hi]; exists e; by apply bind_exit].
  destruct Hi as (Hi & Hw & Hr & _). rewrite (bind_ok _ _ _ _ _ Hi). destruct (rsa_size_ok key Hk) as [Hs Hn].
  destruct (Z.eqb_spec slen (bin_size (rsa_n key))) as [->|Hne]; [|rewrite bool_decide_eq_false_2 by naive_solver; done]. cbn [negb].
  set (b1 := buf_advance b 4) in *. destruct (rest_ptr b1 Hw) as [E1 E2]. erewrite bind_ok by done. rewrite (bind_ok _ _ _ _ _ E1), (bind_ok _ _ _ _ _ E2), Hr.
  assert (Hsb : Forall is_byte sig) by (rewrite <- Hr; by apply buf_rest_bytes). pose proof (mp_read_nat DIGIT_BIT HDB sig Hsb) as Hsn.
  rewrite (mp_cmp_val DIGIT_BIT HDB) by (done || apply Hk). rewrite mp_read_unsigned_bin_val by done.
  destruct (Z.compare_spec (be_val sig) (mpv (rsa_n key))) as [Hc|Hc|Hc]; [rewrite bool_decide_eq_false_2 by (unfold rsa_valid; lia); done| |rewrite bool_decide_eq_false_2 by (unfold rsa_valid; lia); done].
  rewrite (bind_ok _ _ _ (read (pkcs1_bytes (bin_size (rsa_n key)) (sha1 (buf_content data)))) b1) by (unfold lift; by rewrite pad_em_ok).
  destruct (exptmod_law (read sig) (rsa_e key) (rsa_n key)) as (r & Er & Hrn & Hrv); [done|apply Hk..|done|]. rewrite Er, (mp_cmp_val DIGIT_BIT HDB) by (done || by apply pkcs1_spec).
  fold (rsa_em key data). rewrite Hrv, (mp_read_unsigned_bin_val DIGIT_BIT HDB sig) by done.
  destruct (Z.compare_spec (rsa_em key data) (be_val sig ^ mpv (rsa_e key) mod mpv (rsa_n key)));
    [rewrite bool_decide_eq_true_2 by (unfold rsa_valid; auto)|rewrite bool_decide_eq_false_2 by (unfold rsa_valid; lia)..]; done.
Qed.

(** Padded numbers are written. *)
Lemma writer_zeros n : Writer (putzeros n) (replicate n 0).
Proof. induction n as [|n IH]; [apply writer_nop|]. apply (writer_seq _ _ [0]); [by apply writer_putbyte|exact IH]. Qed.
Lemma writer_padded size a : nat_ a → 0 ≤ size < U32 → mpv a < 256 ^ size → Writer (put_padded DIGIT_BIT size a) (padded DIGIT_BIT size a).
Proof.
  intros Ha Hs Hv. pose proof (bin_size_bound DIGIT_BIT HDB a size Ha ltac:(lia) Hv) as Hb. pose proof (bin_size_length DIGIT_BIT HDB a Ha) as Hl.
  destruct (mp_to_unsigned_bin_spec DIGIT_BIT HDB a ltac:(apply Ha)) as (Hby & _). unfold put_padded. rewrite (proj2 (Z.leb_le _ _)) by done.
  apply (writer_seq _ _ []); [apply writer_nop|]. apply writer_seq; [apply writer_zeros|]. apply (writer_store (bin_size a)); [done|lia|done|done].
Qed.

(** A key that can sign: [d] undoes [e], and the blinding value it gets is
    invertible. *)
Definition rsa_signer (key : dropbear_rsa_key) : Prop :=
  rsa_ok DIGIT_BIT key ∧
  (∃ d, rsa_d key = Some d ∧ nat_ d ∧ ∀ x, 0 ≤ x < mpv (rsa_n key) → x ^ (mpv d * mpv (rsa_e key)) mod mpv (rsa_n key) = x) ∧
  ∃ r, gen_random_mpint DIGIT_BIT draw fuel (rsa_n key) = Ok r ∧ nat_ r ∧ Z.gcd (mpv r) (mpv (rsa_n key)) = 1.
Lemma rsa_sign_writes key data : rsa_signer key → ∃ sig,
  Writer (buf_put_rsa_sign DIGIT_BIT sha1 draw fuel key data) (str SSH_SIGNKEY_RSA ++ str sig) ∧ zlen sig = bin_size (rsa_n key) ∧ rsa_valid key data sig.
Proof.
  intros (Hk & (d & Ed & Hd & Hkey) & (r & Er & Hr & Hg)). destruct (rsa_size_ok key Hk) as [Hs Hn]. destruct (pkcs1_spec key data Hk) as [Hem Hemv]. fold (rsa_em key data) in Hemv.
  pose proof Hk as ([Hnn _] & [Hen _] & _). set (n := mpv (rsa_n key)) in *. set (e := mpv (rsa_e key)).
  destruct (exptmod_law r (rsa_e key) (rsa_n key)) as (re & E1 & N1 & V1); [done..|]. destruct (invmod_law r (rsa_n key)) as (vi & Bi & Mi & ri & E2 & N2 & V2); [done..|].
  destruct (mulmod_law (read (pkcs1_bytes (bin_size (rsa_n key)) (sha1 (buf_content data)))) re (rsa_n key)) as (em' & E3 & N3 & V3); [done..|fold n; lia|].
  destruct (exptmod_law em' d (rsa_n key)) as (s' & E4 & N4 & V4); [done..|]. destruct (mulmod_law s' ri (rsa_n key)) as (s & E5 & N5 & V5); [done..|fold n; lia|].
  fold n in V1, V3, V4, V5. fold (rsa_em key data) in V3. rewrite V1 in V3. fold e in V3. rewrite V3 in V4. rewrite V4, V2 in V5.
  assert (Hsn : 0 ≤ mpv s < n) by (rewrite V5; apply Z.mod_pos_bound; lia).
  assert (Hs256 : mpv s < 256 ^ bin_size (rsa_n key)).
  { destruct (mp_to_unsigned_bin_spec DIGIT_BIT HDB (rsa_n key) ltac:(apply Hnn)) as (Fb & Vb & _). pose proof (be_val_bound _ Fb) as Hbd. rewrite Vb, <- bin_size_length in Hbd by done. fold n in Hbd. lia. }
  destruct (padded_spec DIGIT_BIT HDB (bin_size (rsa_n key)) s N5) as (Fp & Lp & Rp); [lia|done|].
  exists (padded DIGIT_BIT (bin_size (rsa_n key)) s). split; [|split; [done|]].
  - apply (writer_ext _ (buf_putstring SSH_SIGNKEY_RSA (zlen SSH_SIGNKEY_RSA);; buf_putint (bin_size (rsa_n key));; put_padded DIGIT_BIT (bin_size (rsa_n key)) s)).
    { intros b. unfold buf_put_rsa_sign. rewrite pad_em_ok by done. erewrite bind_ok by done. rewrite Er. erewrite bind_ok by done. rewrite E1. erewrite bind_ok by done.
      rewrite E2. erewrite bind_ok by done. rewrite E3. erewrite bind_ok by done. rewrite Ed. erewrite bind_ok by done. rewrite E4. erewrite bind_ok by done. rewrite E5. by erewrite bind_ok by done. }
    apply writer_seq; [by eapply writer_name|]. unfold str. rewrite Lp. apply writer_seq; [apply _|]. apply writer_padded; [done|unfold U32; lia|done].
  - assert (Es : be_val (padded DIGIT_BIT (bin_size (rsa_n key)) s) = mpv s) by (rewrite <- Rp at 2; by rewrite mp_read_unsigned_bin_val).
    unfold rsa_valid. rewrite Es. fold n e. split; [lia|]. rewrite V5. apply rsa_blinding; try done; try lia; by apply mp_nat_nonneg.
Qed.
End sign.
