(* ===== verification/SignKeyDsa.v ===== *)
(** * DSS and ECDSA signatures

    [buf_dss_verify] and [buf_ecdsa_verify] accept a signature exactly when the
    equation of the scheme holds, and they accept what [buf_put_dss_sign] and
    [buf_put_ecdsa_sign] write. *)
From S2P Require Import Prelude Buffer Mpint BufferProps BigNum SignKey SignKeyProps SignKeyRound SignKeySign.

(** What the library promises of the points: [mulG dp k] is the multiple [k] of
    the base point, and [ecc_mul2add] adds multiples of points of the group. *)
Class EccLaws (DIGIT_BIT : Z) `{!EccOps} (mulG : ltc_ecc_set → Z → Z * Z) : Prop := {
  mulG_base dp : dp ∈ [ecc_256; ecc_384; ecc_521] → mulG dp 1 = (dp_Gx dp, dp_Gy dp);
  mul2add_nat A kA B kB m P : ecc_mul2add A kA B kB m = Some P → mp_nat DIGIT_BIT (pt_x P);
  mul2add_law dp A kA B kB m a b : dp ∈ [ecc_256; ecc_384; ecc_521] → mp_val DIGIT_BIT m = dp_prime dp →
    mp_nat DIGIT_BIT kA → mp_nat DIGIT_BIT kB → pt_z A = mp_one → pt_z B = mp_one →
    (mp_val DIGIT_BIT (pt_x A), mp_val DIGIT_BIT (pt_y A)) = mulG dp a → (mp_val DIGIT_BIT (pt_x B), mp_val DIGIT_BIT (pt_y B)) = mulG dp b →
    (a * mp_val DIGIT_BIT kA + b * mp_val DIGIT_BIT kB) mod dp_order dp ≠ 0 →
    ∃ P, ecc_mul2add A kA B kB m = Some P ∧ mp_val DIGIT_BIT (pt_x P) = fst (mulG dp ((a * mp_val DIGIT_BIT kA + b * mp_val DIGIT_BIT kB) mod dp_order dp));
  make_key_law i dp R : dp ∈ [ecc_256; ecc_384; ecc_521] → ecc_make_key_ex i dp = Some R →
    mp_nat DIGIT_BIT (ecc_k R) ∧ 0 < mp_val DIGIT_BIT (ecc_k R) < dp_order dp ∧ Z.gcd (mp_val DIGIT_BIT (ecc_k R)) (dp_order dp) = 1 ∧
    mp_nat DIGIT_BIT (pt_x (ecc_pubkey R)) ∧ mp_val DIGIT_BIT (pt_x (ecc_pubkey R)) = fst (mulG dp (mp_val DIGIT_BIT (ecc_k R)))
}.

Section dsa.
Context (DIGIT_BIT : Z) (HDB : 8 ≤ DIGIT_BIT) `{BN : !BigNum} `{EO : !EccOps}.
Context (sha1 sha256 sha384 sha512 : list Z → list Z) (draw : nat → Z → list Z) (fuel : nat).
Context (Hsha1 : ∀ l, Forall is_byte (sha1 l) ∧ zlen (sha1 l) = SHA1_HASH_SIZE).
Context `{HL : !BigNumLaws DIGIT_BIT} (mulG : ltc_ecc_set → Z → Z * Z) `{HE : !EccLaws DIGIT_BIT mulG}.
Abbreviation mpv := (mp_val DIGIT_BIT).
Abbreviation nat_ := (mp_nat DIGIT_BIT).
Abbreviation read := (mp_read_unsigned_bin DIGIT_BIT).
Abbreviation curves := (dropbear_ecc_curves sha256 sha384 sha512).

Context (Hhash : ∀ l, Forall is_byte (sha256 l) ∧ Forall is_byte (sha384 l) ∧ Forall is_byte (sha512 l)).

(** What both schemes check of the two numbers, in a group of order [q] in which
    [point u1 u2] is what they compare. *)
Definition dsa_valid (q h r s : Z) (point : Z → Z → Z → Prop) : Prop :=
  0 < r < q ∧ 0 < s < q ∧ ∃ w, 0 ≤ w < q ∧ s * w mod q = 1 ∧ point (h * w mod q) (r * w mod q) r.
Lemma cmp_d_0 a : nat_ a → mp_cmp_d a 0 = (mpv a ?= 0).
Proof. intros Ha. apply (mp_cmp_d_val DIGIT_BIT HDB); [done|]. split; [done|]. apply Z.pow_pos_nonneg; lia. Qed.
(** What both schemes compute from a nonce [k] is such a pair. *)
Lemma dsa_sign_valid q h x k ki r s point : 1 < q → 0 < r < q → ki * k mod q = 1 → Z.gcd ((h + r * x mod q) mod q) q = 1 →
  s = ki * ((h + r * x mod q) mod q) mod q → (∀ u1 u2, 0 ≤ u1 → 0 ≤ u2 → cong q (u1 + x * u2) k → point u1 u2 r) → dsa_valid q h r s point.
Proof.
  intros Hq Hr Hk Hg Es Hp. set (m := (h + r * x mod q) mod q) in *. destruct (inverse_exists q m Hq Hg) as (v & Bv & Mv).
  assert (Hw : s * (k * v mod q) mod q = 1).
  { transitivity (1 mod q); [|apply Z.mod_small; lia]. change (cong q (s * (k * v mod q)) 1). rewrite Es, !cong_mod.
    assert (C1 : cong q (ki * k) 1) by (unfold cong; by rewrite Hk, Z.mod_small by lia). assert (C2 : cong q (m * v) 1) by (unfold cong; by rewrite Mv, Z.mod_small by lia).
    transitivity ((ki * k) * (m * v)); [apply eq_subrelation; [apply _|ring]|]. by rewrite C1, C2. }
  pose proof (Z.mod_pos_bound (k * v) q ltac:(lia)) as Bw. set (w := k * v mod q) in *.
  assert (Hs : 0 ≤ s < q) by (rewrite Es; apply Z.mod_pos_bound; lia). split; [done|]. split.
  - split; [|lia]. destruct (Z.eq_dec s 0) as [E|]; [|lia]. rewrite E, Z.mul_0_l, Z.mod_0_l in Hw by lia. lia.
  - exists w. split; [done|]. split; [done|]. apply Hp; [apply Z.mod_pos_bound; lia..|]. by apply (dsa_nonce q h x r k ki w s).
Qed.

(** ** DSS *)
Definition dss_point (key : dropbear_dss_key) (u1 u2 r : Z) : Prop :=
  mpv (dss_g key) ^ u1 * mpv (dss_y key) ^ u2 mod mpv (dss_p key) mod mpv (dss_q key) = r.
Definition dss_valid (key : dropbear_dss_key) (data : buffer) (sig : list Z) : Prop :=
  zlen sig = 2 * SHA1_HASH_SIZE ∧
  dsa_valid (mpv (dss_q key)) (be_val (sha1 (buf_content data))) (be_val (take (Z.to_nat SHA1_HASH_SIZE) sig)) (be_val (drop (Z.to_nat SHA1_HASH_SIZE) sig)) (dss_point key).
Lemma bits_pos a n : nat_ a → mp_count_bits DIGIT_BIT a = n → 1 < n → 2 ^ (n - 1) ≤ mpv a < 2 ^ n.
Proof.
  intros Ha Hc Hn. pose proof (mp_nat_nonneg DIGIT_BIT HDB a Ha). rewrite mp_count_bits_eq in Hc by (done || apply Ha). destruct (Z.eqb_spec (mpv a) 0); [lia|].
  pose proof (Z.log2_spec (mpv a) ltac:(lia)) as Hl. replace (n - 1) with (Z.log2 (mpv a)) by lia. replace n with (Z.succ (Z.log2 (mpv a))) by lia. done.
Qed.
Lemma dss_group key : dss_ok DIGIT_BIT key → nat_ (dss_p key) ∧ nat_ (dss_q key) ∧ nat_ (dss_g key) ∧ nat_ (dss_y key) ∧
  1 < mpv (dss_p key) ∧ 1 < mpv (dss_q key) < 256 ^ SHA1_HASH_SIZE.
Proof.
  intros (H & Hp & Hq & Hg). rewrite !Forall_cons in H. destruct H as ([Np _] & [Nq _] & [Ng _] & [Ny _] & _). split_and!; try done; [lia|..];
    destruct (bits_pos _ _ Nq Hq ltac:(done)) as [B1 B2]; [|exact B2]. eapply Z.lt_le_trans; [|exact B1]. done.
Qed.
Lemma dss_values_spec key r' s' h : dss_ok DIGIT_BIT key → Forall is_byte r' → Forall is_byte s' → Forall is_byte h →
  dss_verify_values DIGIT_BIT key r' s' h = Some true ↔ dsa_valid (mpv (dss_q key)) (be_val h) (be_val r') (be_val s') (dss_point key).
Proof.
  intros Hk Hr Hs Hh. destruct (dss_group key Hk) as (Np & Nq & Ng & Ny & Vp & Vq & _). unfold dss_verify_values, dsa_valid. cbn zeta.
  pose proof (mp_read_nat DIGIT_BIT HDB _ Hr) as Nr. pose proof (mp_read_nat DIGIT_BIT HDB _ Hs) as Ns. pose proof (mp_read_nat DIGIT_BIT HDB _ Hh) as Nh.
  rewrite !cmp_d_0, !(mp_cmp_val DIGIT_BIT HDB) by done. rewrite !(mp_read_unsigned_bin_val DIGIT_BIT HDB) by done. set (q := mpv (dss_q key)) in *. set (s := be_val s'). set (r := be_val r').
  destruct (Z.compare_spec s q); [split; [done|lia]| |split; [done|lia]]. destruct (Z.compare_spec s 0); [split; [done|lia]..|].
  destruct (decide (Z.gcd s q = 1)) as [Hg|Hg].
  2: { rewrite invmod_none by (done || by rewrite (mp_read_unsigned_bin_val DIGIT_BIT HDB)). split; [done|]. intros (_ & _ & w & _ & Hw & _). destruct Hg. by eapply inverse_gcd. }
  destruct (invmod_law (read s') (dss_q key)) as (w & Bw & Mw & wr & Ew & Nw & Vw); [done..|by rewrite (mp_read_unsigned_bin_val DIGIT_BIT HDB)|].
  rewrite (mp_read_unsigned_bin_val DIGIT_BIT HDB) in Mw by done. fold q s in Bw, Mw. rewrite Ew. cbn [mbind option_bind].
  destruct (mulmod_law (read h) wr (dss_q key)) as (u1 & -> & N1 & V1); [done..|fold q; lia|]. cbn [mbind option_bind].
  destruct (Z.compare_spec r q); [split; [done|lia]| |split; [done|lia]]. destruct (Z.compare_spec r 0); [split; [done|lia]..|].
  destruct (mulmod_law (read r') wr (dss_q key)) as (u2 & -> & N2 & V2); [done..|fold q; lia|]. cbn [mbind option_bind].
  destruct (exptmod_law (dss_g key) u1 (dss_p key)) as (a & -> & Na & Va); [done..|]. cbn [mbind option_bind].
  destruct (exptmod_law (dss_y key) u2 (dss_p key)) as (b & -> & Nb & Vb); [done..|]. cbn [mbind option_bind].
  destruct (mulmod_law a b (dss_p key)) as (c & -> & Nc & Vc); [done..|lia|]. cbn [mbind option_bind].
  destruct (mod_law c (dss_q key)) as (v & -> & Nv & Vv); [done..|fold q; lia|]. cbn [mbind option_bind].
  rewrite (mp_cmp_val DIGIT_BIT HDB), Vv, Vc, Va, Vb, V1, V2, Vw, !(mp_read_unsigned_bin_val DIGIT_BIT HDB), <- Zmult_mod by done. fold q r.
  assert (Hp : ∀ w', 0 ≤ w' < q → s * w' mod q = 1 → w' = w) by (intros w' Bw' Mw'; pose proof (inverse_unique q s w' w ltac:(lia) Mw' Mw) as Hc; unfold cong in Hc; rewrite !Z.mod_small in Hc by lia; done).
  unfold dss_point. fold q. destruct (Z.compare_spec (mpv (dss_g key) ^ (be_val h * w mod q) * mpv (dss_y key) ^ (r * w mod q) mod mpv (dss_p key) mod q) r) as [Hc|Hc|Hc];
    (split; [|intros (_ & _ & w' & Bw' & Mw' & Hc'); rewrite (Hp w' Bw' Mw') in Hc'; first [done|lia]]); [|done|done].
  intros _. split; [lia|]. split; [lia|]. exists w. done.
Qed.
Lemma dss_verify_spec key data b : dss_ok DIGIT_BIT key → buf_wf b →
  match p_string (buf_rest b) with
  | Some (sig, _) => ∃ ok, buf_dss_verify DIGIT_BIT sha1 key data b = Ok (ok, buf_advance b (4 + zlen sig)) ∧ buf_wf (buf_advance b (4 + zlen sig)) ∧ (ok = true ↔ dss_valid key data sig)
  | None => ∃ e, buf_dss_verify DIGIT_BIT sha1 key data b = Exit e
  end.
Proof.
  intros Hk Hb. pose proof (getstring_cases b Hb) as Hs. pose proof (buf_rest_bytes b Hb) as Hby. unfold buf_dss_verify. destruct (p_string (buf_rest b)) as [[sig tl]|] eqn:E; [|destruct Hs as [e Hs]; exists e; by apply bind_exit].
  destruct Hs as (Hs & Hw & _). rewrite (bind_ok _ _ _ _ _ Hs). apply p_string_inv in E as [E _]; [|done].
  assert (Hsig : Forall is_byte sig) by (rewrite E in Hby; unfold str in Hby; by apply Forall_app in Hby as [[_ ?]%Forall_app _]).
  unfold dss_valid. destruct (Z.eqb_spec (zlen sig) (2 * SHA1_HASH_SIZE)) as [Hz|Hz]; cbn [negb]; [|exists false; split; [done|]; split; [done|]; split; [done|naive_solver]].
  eexists. split; [reflexivity|]. split; [done|]. rewrite <- (dss_values_spec key) by (try apply Hsha1; auto with ssh).
  destruct (dss_verify_values _ _ _ _ _) as [[]|]; naive_solver.
Qed.
(** A key that can sign the data: [y] is [g^x], [g] has the order [q], and the
    nonce it gets, the number [r] and the sum are invertible modulo [q], which
    they are for a prime [q] unless they are 0. *)
Definition dss_signer (key : dropbear_dss_key) (data : buffer) : Prop :=
  let p := mpv (dss_p key) in let q := mpv (dss_q key) in let g := mpv (dss_g key) in
  dss_ok DIGIT_BIT key ∧ g ^ q mod p = 1 ∧
  ∃ x k, dss_x key = Some x ∧ nat_ x ∧ mpv (dss_y key) = g ^ mpv x mod p ∧
    gen_random_mpint DIGIT_BIT draw fuel (dss_q key) = Ok k ∧ nat_ k ∧ Z.gcd (mpv k) q = 1 ∧
    let r := g ^ mpv k mod p mod q in
    0 < r ∧ Z.gcd ((be_val (sha1 (buf_content data)) + r * mpv x mod q) mod q) q = 1.
Lemma dss_point_nonce key x k u1 u2 : dss_ok DIGIT_BIT key → 0 ≤ x → 0 ≤ k → 0 ≤ u1 → 0 ≤ u2 →
  mpv (dss_g key) ^ mpv (dss_q key) mod mpv (dss_p key) = 1 → mpv (dss_y key) = mpv (dss_g key) ^ x mod mpv (dss_p key) →
  cong (mpv (dss_q key)) (u1 + x * u2) k → dss_point key u1 u2 (mpv (dss_g key) ^ k mod mpv (dss_p key) mod mpv (dss_q key)).
Proof.
  intros Hk Hx Hkn H1 H2 Hg Hy Hc. destruct (dss_group key Hk) as (_ & _ & _ & _ & Vp & Vq & _). unfold dss_point. f_equal.
  set (p := mpv (dss_p key)) in *. set (g := mpv (dss_g key)) in *. change (cong p (g ^ u1 * mpv (dss_y key) ^ u2) (g ^ k)). rewrite Hy.
  rewrite (cong_pow p _ (g ^ x) u2 H2 (cong_mod p _)), <- Z.pow_mul_r, <- Z.pow_add_r by lia. apply (pow_mod_order g p (mpv (dss_q key))); try done; nia.
Qed.
Lemma dss_sign_writes key data : dss_signer key data → ∃ sig,
  Writer (buf_put_dss_sign DIGIT_BIT sha1 draw fuel key data) (str SSH_SIGNKEY_DSS ++ str sig) ∧ Forall is_byte sig ∧ dss_valid key data sig.
Proof.
  intros (Hk & Hg & x & k & Ex & Nx & Hy & Er & Nk & Hgk & Hr & Hgm). destruct (dss_group key Hk) as (Np & Nq & Ng & Ny & Vp & Vq & Vq'). pose proof (mp_nat_nonneg DIGIT_BIT HDB) as Nn.
  set (q := mpv (dss_q key)) in *. set (p := mpv (dss_p key)) in *. set (g := mpv (dss_g key)) in *. set (h := sha1 (buf_content data)) in *.
  assert (Nh : nat_ (read h)) by (apply mp_read_nat; [done|apply Hsha1]).
  destruct (exptmod_law (dss_g key) k (dss_p key)) as (gk & E1 & N1 & V1); [done..|]. destruct (mod_law gk (dss_q key)) as (r & E2 & N2 & V2); [done..|fold q; lia|].
  destruct (mulmod_law r x (dss_q key)) as (xr & E3 & N3 & V3); [done..|fold q; lia|]. destruct (addmod_law (read h) xr (dss_q key)) as (sum & E4 & N4 & V4); [done..|fold q; lia|].
  destruct (invmod_law k (dss_q key)) as (vi & Bi & Mi & ki & E5 & N5 & V5); [done..|]. destruct (mulmod_law ki sum (dss_q key)) as (s & E6 & N6 & V6); [done..|fold q; lia|].
  fold q p g in V1, V2, V3, V4, V6, Bi, Mi. rewrite V1 in V2. rewrite <- V2 in Hr, Hgm. rewrite V3, (mp_read_unsigned_bin_val DIGIT_BIT HDB) in V4 by apply Hsha1. rewrite V4, V5 in V6.
  assert (Br : 0 ≤ mpv r < q) by (rewrite V2; apply Z.mod_pos_bound; lia). assert (Bs : 0 ≤ mpv s < q) by (rewrite V6; apply Z.mod_pos_bound; lia).
  destruct (padded_spec DIGIT_BIT HDB SHA1_HASH_SIZE r N2) as (F1 & L1 & R1); [done|lia|]. destruct (padded_spec DIGIT_BIT HDB SHA1_HASH_SIZE s N6) as (F2 & L2 & R2); [done|lia|].
  set (pr := padded DIGIT_BIT SHA1_HASH_SIZE r) in *. set (ps := padded DIGIT_BIT SHA1_HASH_SIZE s) in *. assert (Lz : zlen (pr ++ ps) = 2 * SHA1_HASH_SIZE) by (rewrite length_app; lia).
  exists (pr ++ ps). split; [|split; [by apply Forall_app_2|split; [done|]]].
  - apply (writer_ext _ (buf_putstring SSH_SIGNKEY_DSS (zlen SSH_SIGNKEY_DSS);; buf_putint (2 * SHA1_HASH_SIZE);; put_padded DIGIT_BIT SHA1_HASH_SIZE r;; put_padded DIGIT_BIT SHA1_HASH_SIZE s)).
    { intros b. unfold buf_put_dss_sign. fold h. cbn zeta. rewrite Er. erewrite bind_ok by done. rewrite E1. erewrite bind_ok by done. rewrite E2. erewrite bind_ok by done. rewrite Ex. erewrite bind_ok by done.
      rewrite E3. erewrite bind_ok by done. rewrite E4. erewrite bind_ok by done. rewrite E5. erewrite bind_ok by done. rewrite E6. by erewrite bind_ok by done. }
    apply writer_seq; [by eapply writer_name|]. unfold str. rewrite Lz. apply writer_seq; [apply _|]. apply writer_seq; apply writer_padded; done || lia.
  - rewrite take_app_length', drop_app_length' by lia.
    assert (be_val pr = mpv r ∧ be_val ps = mpv s) as [-> ->] by (split; [rewrite <- R1|rewrite <- R2]; by rewrite mp_read_unsigned_bin_val).
    apply (dsa_sign_valid q _ (mpv x) (mpv k) vi); [lia|lia|by rewrite Z.mul_comm|done|done|]. intros u1 u2 H1 H2 Hc. rewrite V2. apply (dss_point_nonce key (mpv x)); auto.
Qed.

(** ** ECDSA *)

(** The bytes a reader consumed. *)
Lemma reader_span {A B} (m : M buffer A) p (f : A → Z → M buffer B) q : Reader m p → (∀ a n, 0 ≤ n < U32 → Reader (f a n) (q a n)) →
  Reader (b ← get; a ← m; b' ← get; f a (buf_pos b' - buf_pos b)) (λ l, match p l with Some (a, tl) => q a (zlen l - zlen tl) tl | None => None end).
Proof.
  intros Hm Hf b Hb. erewrite bind_ok by done. specialize (Hm b Hb). destruct (p (buf_rest b)) as [[a tl]|]; [|destruct Hm as [e Hm]; exists e; by apply bind_exit].
  destruct Hm as (n & Hn & Hl & -> & Hm). rewrite (bind_ok _ _ _ _ _ Hm). erewrite bind_ok by done. assert (Hw : buf_wf (buf_advance b n)) by (apply buf_wf_advance; [done|buf_facts; lia..]).
  pose proof (buf_rest_length b Hb). rewrite length_drop. replace (zlen (buf_rest b) - Z.of_nat (length (buf_rest b) - Z.to_nat n)) with n by lia.
  replace (buf_pos (buf_advance b n) - buf_pos b) with n by (cbn; lia). pose proof Hb as Hb'. buf_facts. specialize (Hf a n ltac:(unfold U32; lia) _ Hw). rewrite buf_rest_advance in Hf by (done || lia).
  destruct (q a n _) as [[v tl']|]; [|done]. destruct Hf as (k & Hk & Hk2 & -> & Ef). cbn in Hk2.
  exists (n + k). split_and!; [lia|lia| |by rewrite Ef, buf_advance_advance]. rewrite drop_drop. f_equal. lia.
Qed.
Definition p_pair : parser (option (mp_int * mp_int)) := p_num DIGIT_BIT (λ r, p_num DIGIT_BIT (λ s, p_ret (Some (r, s)))).
Definition p_params : parser (option (mp_int * mp_int)) :=
  p_bind p_int (λ n l, match p_pair l with
    | Some (Some rs, tl) => p_ret (if negb (zlen l - zlen tl =? n) then None else Some rs) tl
    | Some (None, tl) => p_ret None tl
    | None => None end).
Lemma reader_params : Reader (buf_get_ecdsa_verify_params DIGIT_BIT) p_params.
Proof.
  apply reader_bind; [apply reader_getint|]. intros n.
  set (m := r ← buf_getmpint DIGIT_BIT; match r with None => mret None | Some r => s ← buf_getmpint DIGIT_BIT; match s with None => mret None | Some s => mret (Some (r, s)) end end : M buffer (option (mp_int * mp_int))).
  set (f := λ (o : option (mp_int * mp_int)) (k : Z), mret (M := M buffer) (match o with Some rs => if negb (u32 k =? n) then None else Some rs | None => None end)).
  set (q := λ (o : option (mp_int * mp_int)) (k : Z), p_ret (match o with Some rs => if negb (k =? n) then None else Some rs | None => None end)).
  assert (Hr : Reader m p_pair) by (apply reader_num; intros r; apply reader_num; intros s; apply _).
  assert (Hf : ∀ o k, 0 ≤ k < U32 → Reader (f o k) (q o k)) by (intros o k Hk; unfold f, q; rewrite u32_small by done; apply _).
  pose proof (reader_span m p_pair f q Hr Hf) as H. intros b Hb. specialize (H b Hb).
  replace ((λ l, match p_pair l with Some (Some rs, tl) => p_ret (if negb (zlen l - zlen tl =? n) then None else Some rs) tl | Some (None, tl) => p_ret None tl | None => None end) (buf_rest b))
    with (match p_pair (buf_rest b) with Some (a, tl) => q a (zlen (buf_rest b) - zlen tl) tl | None => None end) by (by destruct (p_pair (buf_rest b)) as [[[rs|] tl]|]).
  cbv beta in H. set (res := match p_pair (buf_rest b) with Some (a, tl) => q a (zlen (buf_rest b) - zlen tl) tl | None => None end) in *. clearbody res. revert H. unfold m, f. unfold mbind, M_bind, get, mret, M_ret. clear.
  destruct (buf_getmpint DIGIT_BIT b) as [[[r|] b1]|e|e]; [|exact (λ H, H)..]. destruct (buf_getmpint DIGIT_BIT b1) as [[[s|] b2]|e|e]; [|exact (λ H, H)..]. destruct (negb _); exact (λ H, H).
Qed.

Abbreviation mp := (mp_read_radix DIGIT_BIT).
Abbreviation eccok := (ecc_ok DIGIT_BIT sha256 sha384 sha512).
Definition base_point (dp : ltc_ecc_set) : ecc_point := mkPoint (mp (dp_Gx dp)) (mp (dp_Gy dp)) mp_one.
(** The multiple of the base point plus the one of the key has an abscissa that
    is [r] modulo the order. *)
Definition ecdsa_point (key : ecc_key) (u1 u2 r : Z) : Prop :=
  ∃ P, ecc_mul2add (base_point (ecc_dp key)) (mp u1) (ecc_pubkey key) (mp u2) (mp (dp_prime (ecc_dp key))) = Some P ∧
    mpv (pt_x P) mod dp_order (ecc_dp key) = r.
Definition ecdsa_hash (c : dropbear_ecc_curve) (data : buffer) : Z := be_val (hash_desc c (buf_content data)).
Definition ecdsa_valid (c : dropbear_ecc_curve) (key : ecc_key) (data : buffer) (rs : mp_int * mp_int) : Prop :=
  dsa_valid (dp_order (ecc_dp key)) (ecdsa_hash c data) (mpv rs.1) (mpv rs.2) (ecdsa_point key).
Lemma curve_dp_cases c : c ∈ curves → curve_dp c ∈ [ecc_256; ecc_384; ecc_521].
Proof. revert c. apply curves_cases; cbn; rewrite !elem_of_cons; auto. Qed.
Lemma mp_spec v : 0 ≤ v → nat_ (mp v) ∧ mpv (mp v) = v.
Proof. intros Hv. split; [split; [by apply mp_of_Z_wf|done]|by apply mp_of_Z_val]. Qed.
Lemma mp_eq a : nat_ a → a = mp (mpv a).
Proof. intros Ha. pose proof (mp_nat_nonneg DIGIT_BIT HDB a Ha) as Hv. destruct (mp_spec _ Hv) as [H1 H2]. by apply (mp_nat_inj DIGIT_BIT HDB). Qed.
Lemma ecdsa_values_spec key r s e : 1 < dp_order (ecc_dp key) → nat_ r → nat_ s → nat_ e →
  ecdsa_verify_values DIGIT_BIT key r s e = Some true ↔ dsa_valid (dp_order (ecc_dp key)) (mpv e) (mpv r) (mpv s) (ecdsa_point key).
Proof.
  intros Hq Nr Ns Ne. unfold ecdsa_verify_values, dsa_valid. cbn zeta. set (q := dp_order (ecc_dp key)) in *. destruct (mp_spec q ltac:(lia)) as [Nq Vq].
  rewrite !cmp_d_0, !(mp_cmp_val DIGIT_BIT HDB), !Vq by done. pose proof (mp_nat_nonneg DIGIT_BIT HDB r Nr). pose proof (mp_nat_nonneg DIGIT_BIT HDB s Ns).
  destruct (Z.compare_spec (mpv r) 0); [split; [done|lia]|lia|]. destruct (Z.compare_spec (mpv s) 0); [split; [done|lia]|lia|].
  destruct (Z.compare_spec (mpv r) q); [split; [done|lia]| |split; [done|lia]]. destruct (Z.compare_spec (mpv s) q); [split; [done|lia]| |split; [done|lia]].
  destruct (decide (Z.gcd (mpv s) q = 1)) as [Hg|Hg].
  2: { rewrite invmod_none by (done || by rewrite Vq). split; [done|]. intros (_ & _ & w & _ & Hw & _). destruct Hg. by eapply inverse_gcd. }
  destruct (invmod_law s (mp q)) as (w & Bw & Mw & wr & -> & Nw & Vw); [done..|by rewrite Vq|by rewrite Vq|]. rewrite Vq in Bw, Mw. cbn [mbind option_bind].
  destruct (mulmod_law e wr (mp q)) as (u1 & -> & N1 & V1); [done..|lia|]. cbn [mbind option_bind]. destruct (mulmod_law r wr (mp q)) as (u2 & -> & N2 & V2); [done..|lia|]. cbn [mbind option_bind].
  rewrite Vq, Vw in V1, V2. rewrite (mp_eq u1 N1), (mp_eq u2 N2), V1, V2. fold (base_point (ecc_dp key)).
  assert (Hp : ∀ w', 0 ≤ w' < q → mpv s * w' mod q = 1 → w' = w) by (intros w' Bw' Mw'; pose proof (inverse_unique q (mpv s) w' w ltac:(lia) Mw' Mw) as Hc; unfold cong in Hc; rewrite !Z.mod_small in Hc by lia; done).
  unfold ecdsa_point. fold q. destruct (ecc_mul2add _ _ _ _ _) as [P|] eqn:EP; cbn [mbind option_bind].
  2: { split; [done|]. intros (_ & _ & w' & Bw' & Mw' & P & EP' & _). rewrite (Hp w' Bw' Mw') in EP'. congruence. }
  pose proof (mul2add_nat _ _ _ _ _ _ EP) as NP. destruct (mod_law (pt_x P) (mp q)) as (v & -> & Nv & Vv); [done..|lia|]. cbn [mbind option_bind]. rewrite Vq in Vv.
  rewrite (mp_cmp_val DIGIT_BIT HDB), Vv by done. split.
  - destruct (Z.compare_spec (mpv (pt_x P) mod q) (mpv r)); [|done..]. intros _. split; [lia|]. split; [lia|]. exists w. split; [done|]. split; [done|]. eauto.
  - intros (_ & _ & w' & Bw' & Mw' & P' & EP' & Hr). rewrite (Hp w' Bw' Mw') in EP'. replace P' with P in Hr by congruence. by rewrite Hr, Z.compare_refl.
Qed.
Lemma p_params_small l rs tl : Forall is_byte l → p_params l = Some (Some rs, tl) → mp_small DIGIT_BIT rs.1 ∧ mp_small DIGIT_BIT rs.2.
Proof.
  intros Hl. unfold p_params. unfold p_bind at 1. destruct (p_int l) as [[n l1]|] eqn:E; [|done]. cbn [mbind option_bind]. apply p_int_inv in E; [|done].
  assert (Hl1 : Forall is_byte l1) by (rewrite E in Hl; by apply Forall_app in Hl as [_ ?]). destruct (p_pair l1) as [[[rs'|] tl1]|] eqn:Ep; [|done|done].
  unfold p_ret. destruct (negb _); [done|]. intros [= -> _]. apply p_num_inv in Ep as (r & tl2 & Hr & Hb & Ep); [|done..]. apply p_num_inv in Ep as (s & tl3 & Hs & _ & Ep); [|done..]. injection Ep as <- _. done.
Qed.
Lemma hash_bytes c l : c ∈ curves → Forall is_byte (hash_desc c l).
Proof. revert c. apply curves_cases; apply Hhash. Qed.
Lemma ecdsa_verify_spec c key data b : eccok c key → buf_wf b →
  match p_params (buf_rest b) with
  | Some (o, tl) => ∃ ok b', buf_ecdsa_verify DIGIT_BIT sha256 sha384 sha512 key data b = Ok (ok, b') ∧ buf_wf b' ∧ (ok = true ↔ ∃ rs, o = Some rs ∧ ecdsa_valid c key data rs)
  | None => ∃ e, buf_ecdsa_verify DIGIT_BIT sha256 sha384 sha512 key data b = Exit e
  end.
Proof.
  intros Hk Hb. pose proof Hk as (Hc & Hd & _). destruct (curve_set_ok _ _ _ c Hc) as (_ & Hq & _). unfold buf_ecdsa_verify. rewrite Hd, (bind_ok _ _ _ c b) by (by apply curve_for_dp_ok).
  destruct (p_params (buf_rest b)) as [[o tl]|] eqn:E; [|pose proof (reader_params b Hb) as Hr; rewrite E in Hr; destruct Hr as [e Hr]; exists e; by apply bind_exit].
  destruct (reader_run _ _ b o tl reader_params Hb E) as (b' & Em & Hw & _). rewrite (bind_ok _ _ _ _ _ Em). destruct o as [[r s]|]; [|exists false, b'; split; [done|]; split; [done|]; naive_solver].
  destruct (p_params_small _ _ _ (buf_rest_bytes b Hb) E) as [[Nr _] [Ns _]]. cbn in Nr, Ns. pose proof (hash_bytes c (buf_content data) Hc) as Hh.
  eexists _, b'. split; [reflexivity|]. split; [done|]. unfold ecdsa_valid, ecdsa_hash. rewrite <- (mp_read_unsigned_bin_val DIGIT_BIT HDB (hash_desc c _)) by done.
  pose proof (ecdsa_values_spec key r s (read (hash_desc c (buf_content data)))) as Hv. rewrite Hd in Hv at 1. specialize (Hv Hq Nr Ns ltac:(by apply mp_read_nat)).
  destruct (ecdsa_verify_values _ _ _ _ _) as [[]|]; cbn [default]; naive_solver.
Qed.

(** *** Signing *)
Definition nonce_r (key R : ecc_key) : Z := mpv (pt_x (ecc_pubkey R)) mod dp_order (ecc_dp key).
Definition nonce_sum (key : ecc_key) (h : Z) (R : ecc_key) : Z :=
  let q := dp_order (ecc_dp key) in (h + nonce_r key R * mpv (ecc_k key) mod q) mod q.
(** A key that can sign the data: its point is the multiple [k] of the base
    point, and among the first ephemeral keys there is one whose numbers are
    invertible after others that the loop skips because a number is 0. *)
Definition ecdsa_signer (c : dropbear_ecc_curve) (key : ecc_key) (data : buffer) : Prop :=
  eccok c key ∧ nat_ (ecc_k key) ∧
  (mpv (pt_x (ecc_pubkey key)), mpv (pt_y (ecc_pubkey key))) = mulG (ecc_dp key) (mpv (ecc_k key)) ∧
  ∃ j R, (j < fuel)%nat ∧ ecc_make_key_ex j (ecc_dp key) = Some R ∧ 0 < nonce_r key R ∧ Z.gcd (nonce_sum key (ecdsa_hash c data) R) (dp_order (ecc_dp key)) = 1 ∧
    ∀ i, (i < j)%nat → ∃ R, ecc_make_key_ex i (ecc_dp key) = Some R ∧ (nonce_r key R = 0 ∨ nonce_sum key (ecdsa_hash c data) R = 0).
Lemma ecdsa_step i key e R : ecc_dp key ∈ [ecc_256; ecc_384; ecc_521] → 1 < dp_order (ecc_dp key) → nat_ e → nat_ (ecc_k key) → ecc_make_key_ex i (ecc_dp key) = Some R →
  let q := dp_order (ecc_dp key) in
  ∃ r s ki, nat_ r ∧ nat_ s ∧ mpv r = nonce_r key R ∧ ki * mpv (ecc_k R) mod q = 1 ∧ mpv s = ki * nonce_sum key (mpv e) R mod q ∧
    ∀ f b, ecdsa_loop (S f) i key e (mp q) b = if (mpv r =? 0) || (mpv s =? 0) then ecdsa_loop f (S i) key e (mp q) b else Ok ((r, s), b).
Proof.
  intros Hdp Hq Ne Nk ER q. destruct (make_key_law _ _ _ Hdp ER) as (NR & BR & GR & Nx & _). destruct (mp_spec q ltac:(lia)) as [Nq Vq].
  destruct (mod_law (pt_x (ecc_pubkey R)) (mp q)) as (r & Er & Nr & Vr); [done..|lia|]. destruct (invmod_law (ecc_k R) (mp q)) as (vi & _ & Mi & ki & Ei & Ni & Vi); [done..|by rewrite Vq|by rewrite Vq|].
  destruct (mulmod_law (ecc_k key) r (mp q)) as (s1 & E1 & N1 & V1); [done..|lia|]. destruct (add_law e s1) as (s2 & E2 & N2 & V2); [done..|].
  destruct (mod_law s2 (mp q)) as (s3 & E3 & N3 & V3); [done..|lia|]. destruct (mulmod_law s3 ki (mp q)) as (s & E4 & N4 & V4); [done..|lia|]. rewrite Vq in *.
  exists r, s, vi. split; [done|]. split; [done|]. split; [done|]. split; [by rewrite Z.mul_comm|]. split.
  - rewrite V4, V3, V2, V1, Vr, Vi. unfold nonce_sum, nonce_r. fold q. by rewrite (Z.mul_comm vi), (Z.mul_comm (mpv (ecc_k key))).
  - intros f b. cbn [ecdsa_loop]. rewrite ER. erewrite bind_ok by done. rewrite Er. erewrite bind_ok by done. rewrite cmp_d_0 by done.
    pose proof (mp_nat_nonneg DIGIT_BIT HDB r Nr). pose proof (mp_nat_nonneg DIGIT_BIT HDB s N4).
    assert (Hs : (ki ← crypt "ECC error" (mp_invmod (ecc_k R) (mp q)); s ← crypt "ECC error" (mp_mulmod (ecc_k key) r (mp q)); s ← crypt "ECC error" (mp_add e s);
      s ← crypt "ECC error" (mp_mod s (mp q)); s ← crypt "ECC error" (mp_mulmod s ki (mp q)); match mp_cmp_d s 0 with Eq => ecdsa_loop f (S i) key e (mp q) | _ => mret (r, s) end) b
      = if mpv s =? 0 then ecdsa_loop f (S i) key e (mp q) b else Ok ((r, s), b)).
    { rewrite Ei. erewrite bind_ok by done. rewrite E1. erewrite bind_ok by done. rewrite E2. erewrite bind_ok by done. rewrite E3. erewrite bind_ok by done. rewrite E4. erewrite bind_ok by done.
      rewrite cmp_d_0 by done. destruct (Z.compare_spec (mpv s) 0) as [->| |]; [done|lia|]. by rewrite (proj2 (Z.eqb_neq _ _)) by lia. }
    destruct (Z.compare_spec (mpv r) 0) as [->| |]; [done|lia|]. rewrite (proj2 (Z.eqb_neq (mpv r) 0)) by lia. exact Hs.
Qed.
Lemma ecdsa_point_nonce c key R i u1 u2 : eccok c key → nat_ (ecc_k key) → (mpv (pt_x (ecc_pubkey key)), mpv (pt_y (ecc_pubkey key))) = mulG (ecc_dp key) (mpv (ecc_k key)) →
  ecc_make_key_ex i (ecc_dp key) = Some R → 0 ≤ u1 → 0 ≤ u2 → cong (dp_order (ecc_dp key)) (u1 + mpv (ecc_k key) * u2) (mpv (ecc_k R)) → ecdsa_point key u1 u2 (nonce_r key R).
Proof.
  intros Hk Nk HQ ER H1 H2 Hc. pose proof Hk as (Hcc & Hd & _ & _ & _ & _ & _ & Hz). destruct (curve_set_ok _ _ _ c Hcc) as (Hp & _).
  destruct (mp_spec u1 H1) as [N1 V1]. destruct (mp_spec u2 H2) as [N2 V2]. set (dp := ecc_dp key) in *. assert (Hdp : dp ∈ [ecc_256; ecc_384; ecc_521]) by (rewrite Hd; by apply curve_dp_cases).
  destruct (make_key_law _ _ _ Hdp ER) as (NR & BR & _ & _ & VR).
  assert (Hm : (1 * mpv (mp u1) + mpv (ecc_k key) * mpv (mp u2)) mod dp_order dp = mpv (ecc_k R)) by (rewrite V1, V2, Z.mul_1_l; unfold cong in Hc; rewrite Hc; by apply Z.mod_small; lia).
  assert (HG : 0 ≤ dp_Gx dp ∧ 0 ≤ dp_Gy dp) by (clear - Hdp; rewrite !elem_of_cons, elem_of_nil in Hdp; destruct Hdp as [->|[->|[->|[]]]]; done).
  destruct (mul2add_law dp (base_point dp) (mp u1) (ecc_pubkey key) (mp u2) (mp (dp_prime dp)) 1 (mpv (ecc_k key))) as (P & EP & VP); try done.
  - apply mp_spec. rewrite Hd. lia.
  - rewrite mulG_base by done. unfold base_point. cbn [pt_x pt_y]. f_equal; apply mp_spec, HG.
  - rewrite Hm. lia.
  - exists P. split; [done|]. rewrite VP, Hm, <- VR. done.
Qed.
Lemma ecdsa_loop_ok c key data : ecdsa_signer c key data → let q := dp_order (ecc_dp key) in
  ∃ r s, nat_ r ∧ nat_ s ∧ (∀ b, ecdsa_loop fuel 0 key (read (hash_desc c (buf_content data))) (mp q) b = Ok ((r, s), b)) ∧ ecdsa_valid c key data (r, s).
Proof.
  intros (Hk & Nk & HQ & j & R & Hj & ER & Hr & Hg & Hskip) q. pose proof Hk as (Hc & Hd & _). destruct (curve_set_ok _ _ _ c Hc) as (_ & Hq & _). rewrite <- Hd in Hq. fold q in Hq, Hg.
  assert (Hdp : ecc_dp key ∈ [ecc_256; ecc_384; ecc_521]) by (rewrite Hd; by apply curve_dp_cases).
  pose proof (hash_bytes c (buf_content data) Hc) as Hh. set (e := read (hash_desc c (buf_content data))). assert (Ne : nat_ e) by (by apply mp_read_nat).
  assert (Ve : mpv e = ecdsa_hash c data) by (by apply mp_read_unsigned_bin_val).
  assert (Hrun : ∀ i, (i ≤ j)%nat → ∀ b, ecdsa_loop fuel 0 key e (mp q) b = ecdsa_loop (fuel - i) i key e (mp q) b).
  { induction i as [|i IH]; intros Hi b; [by rewrite Nat.sub_0_r|]. rewrite IH by lia. destruct (Hskip i ltac:(lia)) as (Ri & Ei & Hz).
    destruct (ecdsa_step i key e Ri Hdp Hq Ne Nk Ei) as (r & s & ki & _ & _ & Vr & _ & Vs & Hl). replace (fuel - i)%nat with (S (fuel - S i)) by lia. rewrite Hl, Vr, Vs, Ve.
    destruct Hz as [Hz|Hz]; rewrite Hz; [done|]. rewrite Z.mul_0_r, Z.mod_0_l, orb_true_r by lia. done. }
  destruct (ecdsa_step j key e R Hdp Hq Ne Nk ER) as (r & s & ki & Nr & Ns & Vr & Mk & Vs & Hl). fold q in Mk, Vs. rewrite Ve in Vs.
  assert (Hval : ecdsa_valid c key data (r, s)).
  { unfold ecdsa_valid. cbn [fst snd]. fold q. assert (mpv r < q) by (rewrite Vr; apply Z.mod_pos_bound; lia). unfold nonce_sum in Vs, Hg. fold q in Vs, Hg. rewrite <- Vr in *.
    apply (dsa_sign_valid q (ecdsa_hash c data) (mpv (ecc_k key)) (mpv (ecc_k R)) ki); try done. intros u1 u2 H1 H2 Hcg. rewrite Vr. by eapply ecdsa_point_nonce. }
  exists r, s. split; [done|]. split; [done|]. split; [|done]. intros b. rewrite (Hrun j) by lia. replace (fuel - j)%nat with (S (fuel - S j)) by lia. rewrite Hl.
  destruct Hval as (B1 & B2 & _). cbn in B1, B2. rewrite !(proj2 (Z.eqb_neq _ _)) by lia. done.
Qed.
Lemma order_bits c : c ∈ curves → dp_order (curve_dp c) < 2 ^ 528.
Proof. revert c. apply curves_cases; done. Qed.
Lemma number_length a q : nat_ a → mpv a < q → q < 2 ^ 528 → mp_small DIGIT_BIT a ∧ zlen (enc_mpint DIGIT_BIT a) ≤ 71.
Proof.
  intros Na Hv Hq. assert (Hs : mp_small DIGIT_BIT a) by (split; [done|]; etrans; [exact Hv|]; etrans; [exact Hq|]; apply Z.pow_lt_mono_r; done). split; [done|].
  apply (enc_length DIGIT_BIT HDB a 66); [done|]. pose proof (mp_nat_nonneg DIGIT_BIT HDB a Na). rewrite mp_count_bits_eq by (done || apply Na). destruct (Z.eqb_spec (mpv a) 0); [lia|].
  assert (Z.log2 (mpv a) < 528) by (apply Z.log2_lt_pow2; lia). lia.
Qed.
Lemma ecdsa_sign_writes c key data : ecdsa_signer c key data → ∃ rs,
  mp_small DIGIT_BIT rs.1 ∧ mp_small DIGIT_BIT rs.2 ∧ ecdsa_valid c key data rs ∧ zlen (enc_mpint DIGIT_BIT rs.1 ++ enc_mpint DIGIT_BIT rs.2) ≤ 142 ∧
  Writer (buf_put_ecdsa_sign DIGIT_BIT sha256 sha384 sha512 fuel key data) (str (ecdsa_ident c) ++ str (enc_mpint DIGIT_BIT rs.1 ++ enc_mpint DIGIT_BIT rs.2)).
Proof.
  intros Hs. destruct (ecdsa_loop_ok c key data Hs) as (r & s & Nr & Ns & Hl & Hv). pose proof Hs as ((Hc & Hd & _) & _). pose proof Hv as (Br & Bs & _). cbn in Br, Bs. pose proof (order_bits c Hc) as Ho. rewrite <- Hd in Ho.
  destruct (number_length r _ Nr ltac:(apply Br) Ho) as [Sr Lr]. destruct (number_length s _ Ns ltac:(apply Bs) Ho) as [Ss Ls]. destruct (curve_names _ _ _ c Hc) as (F1 & _ & L1 & _).
  exists (r, s). cbn [fst snd]. split; [done|]. split; [done|]. split; [done|]. assert (L2 : zlen (enc_mpint DIGIT_BIT r ++ enc_mpint DIGIT_BIT s) ≤ 142) by (rewrite length_app; lia). split; [done|].
  assert (Hw : Writer (buf_putmpint DIGIT_BIT r;; buf_putmpint DIGIT_BIT s) (enc_mpint DIGIT_BIT r ++ enc_mpint DIGIT_BIT s)) by (apply writer_seq; by apply writer_small).
  destruct (exec_writer _ _ 200 Hw) as (b0 & b1 & E0 & E1 & W1 & C1 & _); [done|lia|].
  apply (writer_ext _ (buf_putstring (ecdsa_ident c) (zlen (ecdsa_ident c));; buf_putbufstring b1)).
  - intros b. unfold buf_put_ecdsa_sign. rewrite Hd, (bind_ok _ _ _ c b) by (by apply curve_for_dp_ok). rewrite <- Hd at 1. cbn zeta. rewrite (bind_ok _ _ _ (r, s) b) by apply Hl.
    apply bind_ext. intros [] b'. rewrite E0. erewrite bind_ok by done. rewrite E1. by erewrite bind_ok by done.
  - apply writer_seq; [apply writer_putstring; [done|unfold U32; lia]|]. rewrite <- C1. by apply writer_putbufstring.
Qed.
End dsa.
