(* ===== verification/SignKeyVerify.v ===== *)
(** * Signatures of every kind

    [buf_verify] accepts exactly the signatures for which the equation of the
    scheme holds under the key of the type that the signature names, and it
    accepts what [buf_put_sign] writes.  With it the module of the signing keys
    implements the interface [SignKey] that the authentication is proved
    against. *)
From S2P Require Import Prelude Buffer Mpint BufferProps BigNum SignKey SignKeyProps SignKeyRound SignKeySign SignKeyDsa.

Section verify.
Context (DIGIT_BIT : Z) (HDB : 8 ≤ DIGIT_BIT) `{BN : !BigNum} `{EO : !EccOps}.
Context (sha1 sha256 sha384 sha512 : list Z → list Z) (draw : nat → Z → list Z) (fuel : nat).
Context (Hsha1 : ∀ l, Forall is_byte (sha1 l) ∧ zlen (sha1 l) = SHA1_HASH_SIZE).
Context (Hhash : ∀ l, Forall is_byte (sha256 l) ∧ Forall is_byte (sha384 l) ∧ Forall is_byte (sha512 l)).
Context `{HL : !BigNumLaws DIGIT_BIT} (mulG : ltc_ecc_set → Z → Z * Z) `{HE : !EccLaws DIGIT_BIT mulG}.
Abbreviation curve_type := (curve_of_type sha256 sha384 sha512).
Abbreviation keyok := (key_ok DIGIT_BIT sha256 sha384 sha512).
Abbreviation verify := (buf_verify DIGIT_BIT sha1 sha256 sha384 sha512).
Abbreviation sign := (buf_put_sign DIGIT_BIT sha1 sha256 sha384 sha512 draw fuel).

(** What follows the name of the algorithm in a signature. *)
Definition body_valid (key : sign_key) (type : Z) (data : buffer) (l : list Z) : Prop :=
  (type = DROPBEAR_SIGNKEY_DSS ∧ ∃ k sig tl, dsskey key = Some k ∧ p_string l = Some (sig, tl) ∧ dss_valid DIGIT_BIT sha1 k data sig) ∨
  (type = DROPBEAR_SIGNKEY_RSA ∧ ∃ k sig, rsakey key = Some k ∧ p_int l = Some (mp_unsigned_bin_size DIGIT_BIT (rsa_n k), sig) ∧ rsa_valid DIGIT_BIT sha1 k data sig) ∨
  (∃ c k rs tl, curve_type type = Some c ∧ signkey_ecc_key key type = Some k ∧ p_params DIGIT_BIT l = Some (Some rs, tl) ∧ ecdsa_valid DIGIT_BIT c k data rs).
(** A signature that verifies under the key of the type [type]. *)
Definition sig_valid (key : sign_key) (type : Z) (data : buffer) (l : list Z) : Prop :=
  ∃ n l1 name tail, p_int l = Some (n, l1) ∧ p_string l1 = Some (name, tail) ∧ signkey_type_from_name name = type ∧ body_valid key type data tail.

(** [buf_verify] after the name. *)
Definition verify_typed (key : sign_key) (type : Z) (data : buffer) : M buffer bool :=
  if type =? DROPBEAR_SIGNKEY_DSS then
    match dsskey key with None => dropbear_exit "No DSS key to verify signature" | Some k => buf_dss_verify DIGIT_BIT sha1 k data end
  else if type =? DROPBEAR_SIGNKEY_RSA then
    match rsakey key with None => dropbear_exit "No RSA key to verify signature" | Some k => buf_rsa_verify DIGIT_BIT sha1 k data end
  else match (if signkey_is_ecdsa type then signkey_ecc_key key type else None) with
       | Some k => buf_ecdsa_verify DIGIT_BIT sha256 sha384 sha512 k data
       | None => dropbear_exit "Non-matching signing type"
       end.
Lemma verify_prefix key data b : buf_wf b →
  match p_int (buf_rest b) ≫= λ '(_, l), p_string l with
  | Some (name, tail) => ∃ b', verify key data b = verify_typed key (signkey_type_from_name name) data b' ∧ buf_wf b' ∧ buf_rest b' = tail
  | None => ∃ e, verify key data b = Exit e
  end.
Proof.
  intros Hb. unfold buf_verify. pose proof (getint_cases b Hb) as Hi. destruct (p_int (buf_rest b)) as [[n l]|]; cbn [mbind option_bind]; [|destruct Hi as [e Hi]; exists e; by apply bind_exit].
  destruct Hi as (Hi & Hw & <- & _). rewrite (bind_ok _ _ _ _ _ Hi). pose proof (getstring_cases _ Hw) as Hs.
  destruct (p_string _) as [[name tail]|]; [|destruct Hs as [e Hs]; exists e; by apply bind_exit]. destruct Hs as (Hs & Hw' & Hr & _). rewrite (bind_ok _ _ _ _ _ Hs). eauto.
Qed.
(** The result of a verification: it stays inside the buffer, and it is true
    exactly under the condition [P]. *)
Definition decides (o : outcome (bool * buffer)) (P : Prop) : Prop :=
  match o with Ok (ok, b') => buf_wf b' ∧ (ok = true ↔ P) | Exit _ => ¬ P | UB _ => False end.
Lemma other_ecc type c k t : curve_type type = Some c → let key := set_ecc_key type (Some k) new_sign_key in
  dsskey key = None ∧ rsakey key = None ∧ signkey_ecc_key key t = if t =? type then Some k else None.
Proof.
  unfold curve_of_type, set_ecc_key, signkey_ecc_key. destruct (Z.eqb_spec type DROPBEAR_SIGNKEY_ECDSA_NISTP256) as [->|]; [|destruct (Z.eqb_spec type DROPBEAR_SIGNKEY_ECDSA_NISTP384) as [->|];
    [|destruct (Z.eqb_spec type DROPBEAR_SIGNKEY_ECDSA_NISTP521) as [->|]; [|done]]]; intros _; (split; [done|]); (split; [done|]); cbn;
    destruct (Z.eqb_spec t DROPBEAR_SIGNKEY_ECDSA_NISTP256) as [->|]; try done; destruct (Z.eqb_spec t DROPBEAR_SIGNKEY_ECDSA_NISTP384) as [->|]; try done;
    destruct (Z.eqb_spec t DROPBEAR_SIGNKEY_ECDSA_NISTP521) as [->|]; try done.
Qed.
Lemma type_disjoint : curve_type DROPBEAR_SIGNKEY_DSS = None ∧ curve_type DROPBEAR_SIGNKEY_RSA = None.
Proof. done. Qed.
Lemma decides_ext o P Q : (P ↔ Q) → decides o P → decides o Q.
Proof. intros H. destruct o as [[ok b]|e|e]; cbn; tauto. Qed.
Lemma other_type key t : ((t =? DROPBEAR_SIGNKEY_DSS) = true → dsskey key = None) → ((t =? DROPBEAR_SIGNKEY_RSA) = true → rsakey key = None) →
  signkey_ecc_key key t = None → ∀ data b, ∃ e, verify_typed key t data b = Exit e.
Proof.
  intros H1 H2 H3 data b. unfold verify_typed. rewrite H3. destruct (t =? DROPBEAR_SIGNKEY_DSS); [rewrite H1 by done; by eexists|].
  destruct (t =? DROPBEAR_SIGNKEY_RSA); [rewrite H2 by done; by eexists|]. destruct (signkey_is_ecdsa t); by eexists.
Qed.
Lemma rsa_decides k data b : rsa_ok DIGIT_BIT k → buf_wf b →
  decides (buf_rsa_verify DIGIT_BIT sha1 k data b) (∃ sig, p_int (buf_rest b) = Some (mp_unsigned_bin_size DIGIT_BIT (rsa_n k), sig) ∧ rsa_valid DIGIT_BIT sha1 k data sig).
Proof.
  intros Hk Hb. pose proof (rsa_verify_spec DIGIT_BIT HDB sha1 sha256 sha384 sha512 Hsha1 Hhash k data b Hk Hb) as Hs. pose proof (getint_cases b Hb) as Hi.
  destruct (p_int (buf_rest b)) as [[n sig]|]; [|destruct Hs as [e ->]; cbn; naive_solver]. rewrite Hs. cbn. split; [apply Hi|]. rewrite bool_decide_eq_true. naive_solver.
Qed.
Lemma dss_decides k data b : dss_ok DIGIT_BIT k → buf_wf b →
  decides (buf_dss_verify DIGIT_BIT sha1 k data b) (∃ sig tl, p_string (buf_rest b) = Some (sig, tl) ∧ dss_valid DIGIT_BIT sha1 k data sig).
Proof.
  intros Hk Hb. pose proof (dss_verify_spec DIGIT_BIT HDB sha1 sha256 sha384 sha512 draw fuel Hsha1 Hhash k data b Hk Hb) as Hs.
  destruct (p_string (buf_rest b)) as [[sig tl]|]; [|destruct Hs as [e ->]; cbn; naive_solver]. destruct Hs as (ok & -> & Hw & Hi). cbn. split; [done|]. rewrite Hi. naive_solver.
Qed.
Lemma ecdsa_decides c k data b : ecc_ok DIGIT_BIT sha256 sha384 sha512 c k → buf_wf b →
  decides (buf_ecdsa_verify DIGIT_BIT sha256 sha384 sha512 k data b) (∃ rs tl, p_params DIGIT_BIT (buf_rest b) = Some (Some rs, tl) ∧ ecdsa_valid DIGIT_BIT c k data rs).
Proof.
  intros Hk Hb. pose proof (ecdsa_verify_spec DIGIT_BIT HDB sha1 sha256 sha384 sha512 draw fuel Hsha1 mulG Hhash c k data b Hk Hb) as Hs.
  destruct (p_params DIGIT_BIT (buf_rest b)) as [[o tl]|]; [|destruct Hs as [e ->]; cbn; naive_solver]. destruct Hs as (ok & b' & -> & Hw & Hi). cbn. split; [done|]. rewrite Hi. naive_solver.
Qed.
Lemma verify_typed_spec key type t data b : keyok key type → buf_wf b →
  decides (verify_typed key t data b) (t = type ∧ body_valid key type data (buf_rest b)).
Proof.
  intros Hk Hb. destruct (decide (t = type)) as [->|Hne].
  2: { assert (∃ e, verify_typed key t data b = Exit e) as [e ->]; [|cbn; naive_solver].
       destruct Hk as [[-> (k & -> & Hk)]|[[-> (k & -> & Hk)]|(c & k & Hc & -> & Hk)]]; apply other_type; try (by intros ?%Z.eqb_eq); try done.
       - unfold signkey_ecc_key. by repeat case_match.
       - unfold signkey_ecc_key. by repeat case_match.
       - by destruct (other_ecc type c k t Hc) as (E & _).
       - by destruct (other_ecc type c k t Hc) as (_ & E & _).
       - destruct (other_ecc type c k t Hc) as (_ & _ & ->). by rewrite (proj2 (Z.eqb_neq t type)). }
  destruct Hk as [[-> (k & -> & Hk)]|[[-> (k & -> & Hk)]|(c & k & Hc & -> & Hk)]]; unfold verify_typed, body_valid.
  - eapply decides_ext; [|by apply dss_decides]. destruct type_disjoint as [D _]. cbn [set_dsskey dsskey rsakey]. naive_solver.
  - eapply decides_ext; [|by apply rsa_decides]. destruct type_disjoint as [_ D]. cbn [set_rsakey dsskey rsakey]. naive_solver.
  - destruct (curve_type_facts _ _ _ type c Hc) as (_ & _ & Hi & Nd & Nr & Hs). rewrite Nd, Nr, Hi, Hs. eapply decides_ext; [|by apply (ecdsa_decides c)].
    apply Z.eqb_neq in Nd, Nr. rewrite Hc. naive_solver.
Qed.

Lemma verify_decides key type data b : keyok key type → buf_wf b → decides (verify key data b) (sig_valid key type data (buf_rest b)).
Proof.
  intros Hk Hb. pose proof (verify_prefix key data b Hb) as Hp. unfold sig_valid.
  destruct (p_int (buf_rest b)) as [[n l]|]; cbn [mbind option_bind] in Hp; [|destruct Hp as [e ->]; cbn; naive_solver].
  destruct (p_string l) as [[name tail]|] eqn:E; [|destruct Hp as [e ->]; cbn; naive_solver]. destruct Hp as (b1 & -> & Hw & <-).
  eapply decides_ext; [|by apply verify_typed_spec]. naive_solver.
Qed.
(** C5. A signature is accepted exactly when it is one.  For every accepted key
    and every content of the packet, [buf_verify] stays inside the buffer and
    ends; it returns success if and only if the signature names the type of the
    key and satisfies its equation: the power of the RSA signature is the padded
    hash, or the two numbers of DSS and ECDSA lie strictly between 0 and the
    order and the combination of the powers, or of the points, gives the first
    number back.  A signature of another type never succeeds. *)
Theorem verify_exact key type data b : keyok key type → buf_wf b →
  wp (verify key data) (λ ok b', buf_wf b' ∧ (ok = true ↔ sig_valid key type data (buf_rest b))) b ∧
  (sig_valid key type data (buf_rest b) → ∃ b', verify key data b = Ok (true, b')).
Proof.
  intros Hk Hb. pose proof (verify_decides key type data b Hk Hb) as Hd. unfold wp. destruct (verify key data b) as [[ok b']|e|e]; cbn in Hd; [|by split|done].
  split; [done|]. intros Hv. replace ok with true by (symmetry; by apply Hd). eauto.
Qed.

(** ** Signing *)

(** A key that can sign the data. *)
Definition sign_ok (key : sign_key) (type : Z) (data : buffer) : Prop :=
  (type = DROPBEAR_SIGNKEY_DSS ∧ ∃ k, key = set_dsskey (Some k) new_sign_key ∧ dss_signer DIGIT_BIT sha1 draw fuel k data) ∨
  (type = DROPBEAR_SIGNKEY_RSA ∧ ∃ k, key = set_rsakey (Some k) new_sign_key ∧ rsa_signer DIGIT_BIT draw fuel k) ∨
  (∃ c k, curve_type type = Some c ∧ key = set_ecc_key type (Some k) new_sign_key ∧ ecdsa_signer DIGIT_BIT sha256 sha384 sha512 fuel mulG c k data).
Definition signs (key : sign_key) (type : Z) (data : buffer) (sig : list Z) : Prop :=
  Writer (sign key type data) (str sig) ∧ keyok (public_part key) type ∧ zlen sig ≤ MAX_PUBKEY_SIZE ∧
  ∃ name body, sig = str name ++ str body ∧ zlen name ≤ MAX_STRING_LEN ∧ signkey_type_from_name name = type ∧ body_valid (public_part key) type data (str body).
Lemma p_int_str bs : 0 ≤ zlen bs < U32 → p_int (str bs) = Some (zlen bs, bs).
Proof. intros H. unfold str. by apply p_int_app. Qed.
Lemma signs_valid key type data sig : signs key type data sig → sig_valid (public_part key) type data (str sig).
Proof.
  intros (_ & _ & Hl & name & body & -> & Hn & Ht & Hv). exists (zlen (str name ++ str body)), (str name ++ str body), name, (str body).
  split; [apply p_int_str; unfold MAX_PUBKEY_SIZE, U32 in *; lia|]. split; [by apply str_app|]. done.
Qed.
Lemma rsa_signs k data : rsa_signer DIGIT_BIT draw fuel k → ∃ sig, signs (set_rsakey (Some k) new_sign_key) DROPBEAR_SIGNKEY_RSA data sig.
Proof.
  intros Hk. destruct (rsa_sign_writes DIGIT_BIT HDB sha1 draw fuel Hsha1 k data Hk) as (sig & Hw & Hl & Hv). destruct Hk as (Hk & _). destruct (rsa_size_ok DIGIT_BIT HDB k Hk) as [Hs _].
  assert (Hz : zlen (str SSH_SIGNKEY_RSA ++ str sig) = 15 + zlen sig) by (rewrite length_app; unfold str at 2; rewrite length_app; change (length (str SSH_SIGNKEY_RSA)) with 11%nat; cbn [length STORE32H]; lia).
  exists (str SSH_SIGNKEY_RSA ++ str sig). split; [|split; [|split; [unfold MAX_PUBKEY_SIZE; lia|]]].
  - apply writer_blob; [|unfold MAX_PUBKEY_SIZE; lia]. rewrite <- (app_nil_r (_ ++ _)). apply (writer_seq _ _ [] (_ ++ [])); [apply writer_nop|]. apply writer_seq; [exact Hw|apply writer_nop].
  - right. left. split; [done|]. eexists. split; [reflexivity|]. exact Hk.
  - exists SSH_SIGNKEY_RSA, sig. split; [done|]. split; [done|]. split; [done|]. right. left. split; [done|]. eexists _, sig. split; [reflexivity|]. split; [|exact Hv].
    cbn [rsa_n]. rewrite p_int_str by (unfold U32; lia). by rewrite Hl.
Qed.
Lemma dss_signs k data : dss_signer DIGIT_BIT sha1 draw fuel k data → ∃ sig, signs (set_dsskey (Some k) new_sign_key) DROPBEAR_SIGNKEY_DSS data sig.
Proof.
  intros Hk. destruct (dss_sign_writes DIGIT_BIT HDB sha1 draw fuel Hsha1 k data Hk) as (sig & Hw & Hb & Hv). destruct Hk as (Hk & _). pose proof Hv as [Hl _]. unfold SHA1_HASH_SIZE in Hl.
  assert (Hz : zlen (str SSH_SIGNKEY_DSS ++ str sig) = 55) by (rewrite length_app; unfold str at 2; rewrite length_app; change (length (str SSH_SIGNKEY_DSS)) with 11%nat; cbn [length STORE32H]; lia).
  exists (str SSH_SIGNKEY_DSS ++ str sig). split; [|split; [|split; [unfold MAX_PUBKEY_SIZE; lia|]]].
  - apply writer_blob; [|unfold MAX_PUBKEY_SIZE; lia]. rewrite <- (app_nil_r (_ ++ _)). apply writer_seq; [exact Hw|]. apply (writer_seq _ _ [] []); apply writer_nop.
  - left. split; [done|]. eexists. split; [reflexivity|]. exact Hk.
  - exists SSH_SIGNKEY_DSS, sig. split; [done|]. split; [done|]. split; [done|]. left. split; [done|]. eexists _, sig, []. split; [reflexivity|]. split; [|exact Hv].
    rewrite <- (app_nil_r (str sig)). apply str_app. unfold MAX_STRING_LEN. lia.
Qed.
Lemma p_params_str r s : mp_small DIGIT_BIT r → mp_small DIGIT_BIT s → zlen (enc_mpint DIGIT_BIT r ++ enc_mpint DIGIT_BIT s) < U32 →
  p_params DIGIT_BIT (str (enc_mpint DIGIT_BIT r ++ enc_mpint DIGIT_BIT s)) = Some (Some (r, s), []).
Proof.
  intros Hr Hs Hl. unfold p_params, p_bind. rewrite p_int_str by lia. cbn [mbind option_bind]. unfold p_pair.
  assert (E : p_num DIGIT_BIT (λ r, p_num DIGIT_BIT (λ s, p_ret (Some (r, s)))) (enc_mpint DIGIT_BIT r ++ enc_mpint DIGIT_BIT s) = Some (Some (r, s), [])).
  { rewrite (p_num_enc DIGIT_BIT HDB) by (done || by apply enc_mpint_bytes). rewrite <- (app_nil_r (enc_mpint DIGIT_BIT s)). by rewrite (p_num_enc DIGIT_BIT HDB). }
  rewrite E. cbn [length]. rewrite Z.sub_0_r, Z.eqb_refl. done.
Qed.
Lemma ecdsa_signs type c k data : curve_type type = Some c → ecdsa_signer DIGIT_BIT sha256 sha384 sha512 fuel mulG c k data →
  ∃ sig, signs (set_ecc_key type (Some k) new_sign_key) type data sig.
Proof.
  intros Ht Hk. destruct (ecdsa_sign_writes DIGIT_BIT HDB sha256 sha384 sha512 fuel mulG Hhash c k data Hk) as (rs & S1 & S2 & Hv & Hl & Hw). destruct Hk as (Hk & _).
  destruct (curve_type_facts _ _ _ type c Ht) as (En & Hc & Hi & Nd & Nr & Hs). destruct (curve_names _ _ _ c Hc) as (_ & _ & L1 & _). pose proof Hk as (_ & Hd & _ & _ & _ & _ & _ & Hz).
  set (body := enc_mpint DIGIT_BIT rs.1 ++ enc_mpint DIGIT_BIT rs.2) in *.
  assert (Hlen : 0 < zlen (str (ecdsa_ident c) ++ str body) ≤ MAX_PUBKEY_SIZE) by (unfold str; rewrite !length_app; cbn [length STORE32H]; unfold MAX_PUBKEY_SIZE; lia).
  assert (Ep : mkPoint (pt_x (ecc_pubkey k)) (pt_y (ecc_pubkey k)) mp_one = ecc_pubkey k) by (rewrite <- Hz; by destruct (ecc_pubkey k)).
  exists (str (ecdsa_ident c) ++ str body). split; [|split; [|split; [lia|]]].
  - unfold buf_put_sign. rewrite Nd, Nr, Hi, Hs. cbn [when]. apply writer_blob; [|done]. do 2 (apply (writer_seq _ _ [] (str (ecdsa_ident c) ++ str body)); [apply writer_nop|]). exact Hw.
  - right. right. exists c. eexists. split; [done|]. split; [by eapply public_part_ecc|]. unfold ecc_ok in *. cbn. naive_solver.
  - exists (ecdsa_ident c), body. split; [done|]. split; [unfold MAX_STRING_LEN; lia|]. split; [done|]. right. right. eexists c, _, rs, [].
    split; [done|]. rewrite (public_part_ecc _ _ _ type c k Ht Hz), Hs. split; [reflexivity|]. split; [destruct rs; apply p_params_str; [done|done|unfold U32, body in *; cbn in *; lia]|].
    rewrite Ep. exact Hv.
Qed.

(** C17. What is signed verifies.  A private key that can sign, of each kind,
    writes a signature of the data as a string, and the public part of the key
    accepts that string as a signature of the same data: through the blinding
    of RSA, the nonce of DSS, and the loop over ephemeral keys of ECDSA. *)
Theorem signature_accepted key type data : sign_ok key type data →
  ∃ sig, Writer (sign key type data) (str sig) ∧
    ∀ b, buf_wf b → buf_rest b = str sig → ∃ b', verify (public_part key) data b = Ok (true, b').
Proof.
  intros Hk. assert (∃ sig, signs key type data sig) as (sig & Hs).
  { destruct Hk as [[-> (k & -> & Hk)]|[[-> (k & -> & Hk)]|(c & k & Hc & -> & Hk)]]; [by apply dss_signs|by apply rsa_signs|by eapply ecdsa_signs]. }
  exists sig. split; [apply Hs|]. intros b Hb Hr. pose proof (signs_valid _ _ _ _ Hs) as Hv. rewrite <- Hr in Hv.
  pose proof (verify_decides (public_part key) type data b ltac:(apply Hs) Hb) as Hd. destruct (verify (public_part key) data b) as [[ok b']|e|e]; cbn in Hd; [|done|done].
  replace ok with true by (symmetry; by apply Hd). eauto.
Qed.
End verify.
