(* ===== verification/SignKeyWitness.v ===== *)
(** * Concrete keys

    An instance of the arithmetic over [Z] with its laws, a group of points, and
    keys with which the theorems on signing keys apply. *)
From S2P Require Import Prelude Ssh Buffer Mpint BufferProps BigNum.
From S2P Require Import SignKey SignKeyProps SignKeyRound SignKeySign SignKeyDsa SignKeyVerify.
From Stdlib Require Import Zpow_facts.

(** ** Modular inverses: the extended algorithm of Euclid *)
Fixpoint egcd (fuel : nat) (a b : Z) : Z * Z :=
  match fuel with
  | O => (1, 0)
  | S fuel => if b =? 0 then (1, 0) else let '(u, v) := egcd fuel b (a mod b) in (v, u - a / b * v)
  end.
Definition bezout_ok (r : Z * Z) (a b : Z) : Prop := r.1 * a + r.2 * b = Z.gcd a b.
Lemma mod_halves a b : 0 < b → 0 < a mod b → 2 * (b mod (a mod b)) < b.
Proof.
  intros Hb Hm. pose proof (Z.mod_pos_bound a b Hb). set (m := a mod b) in *. clearbody m.
  destruct (Z.le_gt_cases (2 * m) b); [pose proof (Z.mod_pos_bound b m Hm); lia|]. rewrite (Z.mod_eq b m) by lia. assert (b / m = 1) as -> by (symmetry; apply Z.div_unique with (b - m); lia). lia.
Qed.
Lemma egcd_zero f a : 0 ≤ a → bezout_ok (egcd f a 0) a 0.
Proof. intros Ha. unfold bezout_ok. rewrite Z.gcd_0_r, Z.abs_eq by done. destruct f; cbn; lia. Qed.
Lemma egcd_step f a b : 0 < b → bezout_ok (egcd f b (a mod b)) b (a mod b) → bezout_ok (egcd (S f) a b) a b.
Proof.
  intros Hb Hr. cbn [egcd]. rewrite (proj2 (Z.eqb_neq b 0)) by lia. destruct (egcd f b (a mod b)) as [u v]. unfold bezout_ok in *. cbn [fst snd] in *.
  rewrite (Z.gcd_comm b), Z.gcd_mod, (Z.gcd_comm b) in Hr by lia. rewrite <- Hr, (Z.mod_eq a b) by lia. ring.
Qed.
Lemma egcd_ok k f a b : 0 ≤ a → 0 ≤ b < 2 ^ Z.of_nat k → (2 * k < f)%nat → bezout_ok (egcd f a b) a b.
Proof.
  revert f a b. induction k as [|k IH]; intros f a b Ha Hb Hf.
  { assert (b = 0) as -> by (change (2 ^ Z.of_nat 0) with 1 in Hb; lia). by apply egcd_zero. }
  destruct (Z.eq_dec b 0) as [->|Hz]; [by apply egcd_zero|]. destruct f as [|[|f]]; [lia|lia|]. pose proof (Z.mod_pos_bound a b ltac:(lia)) as Hm.
  apply egcd_step; [lia|]. destruct (Z.eq_dec (a mod b) 0) as [->|Hmz]; [by apply egcd_zero; lia|]. apply egcd_step; [lia|].
  pose proof (mod_halves a b ltac:(lia) ltac:(lia)). pose proof (Z.mod_pos_bound b (a mod b) ltac:(lia)). rewrite Nat2Z.inj_succ, Z.pow_succ_r in Hb by lia. apply IH; lia.
Qed.
Definition inverse (a m : Z) : option Z :=
  let u := (egcd (S (2 * S (Z.to_nat (Z.log2 m)))) a m).1 mod m in if a * u mod m =? 1 then Some u else None.
Lemma inverse_some a m : 0 ≤ a → 1 < m → Z.gcd a m = 1 → ∃ v, 0 ≤ v < m ∧ a * v mod m = 1 ∧ inverse a m = Some v.
Proof.
  intros Ha Hm Hg. unfold inverse. pose proof (Z.log2_spec m ltac:(lia)) as Hl. pose proof (Z.log2_nonneg m).
  pose proof (egcd_ok (S (Z.to_nat (Z.log2 m))) (S (2 * S (Z.to_nat (Z.log2 m)))) a m Ha) as Hb. rewrite Nat2Z.inj_succ, Z2Nat.id in Hb by done. specialize (Hb ltac:(lia) ltac:(lia)).
  destruct (egcd _ a m) as [u v]. unfold bezout_ok in Hb. cbn [fst snd] in *. assert (E : a * (u mod m) mod m = 1).
  { rewrite Zmult_mod_idemp_r. replace (a * u) with (1 + (- v) * m) by lia. rewrite Z_mod_plus_full, Z.mod_small by lia. done. }
  exists (u mod m). split; [apply Z.mod_pos_bound; lia|]. rewrite E, Z.eqb_refl. done.
Qed.
Lemma inverse_none a m : 1 < m → Z.gcd a m ≠ 1 → inverse a m = None.
Proof. intros Hm Hg. unfold inverse. destruct (Z.eqb_spec (a * ((egcd (S (2 * S (Z.to_nat (Z.log2 m)))) a m).1 mod m) mod m) 1) as [E|]; [|done]. destruct Hg. by eapply inverse_gcd. Qed.

(** ** Arithmetic on values *)
Definition db : Z := 28.
Abbreviation mpv := (mp_val db).
Abbreviation mp := (mp_of_Z db).
#[export] Instance value_bignum : BigNum := {|
  mp_exptmod a e m := Some (mp (Zpow_mod (mpv a) (mpv e) (mpv m)));
  mp_invmod a m := mp <$> inverse (mpv a) (mpv m);
  mp_mulmod a b m := Some (mp (mpv a * mpv b mod mpv m));
  mp_addmod a b m := Some (mp ((mpv a + mpv b) mod mpv m));
  mp_mod a m := Some (mp (mpv a mod mpv m));
  mp_add a b := Some (mp (mpv a + mpv b)) |}.
Lemma db_ok : 8 ≤ db.
Proof. done. Qed.
Lemma mp_result_value v : 0 ≤ v → mp_result db (Some (mp v)) v.
Proof. intros Hv. exists (mp v). split; [done|]. split; [split; [by apply mp_of_Z_wf|done]|by apply mp_of_Z_val]. Qed.
#[export] Instance value_laws : BigNumLaws db.
Proof.
  pose proof (mp_nat_nonneg db db_ok) as Hn. split.
  - intros a e m Ha He Hm H1. cbn. rewrite Zpow_mod_correct by lia. apply mp_result_value, Z.mod_pos_bound. lia.
  - intros a m Ha Hm H1 Hg. destruct (inverse_some (mpv a) (mpv m)) as (v & Hv & Hi & E); [auto|done|done|]. exists v. split; [done|]. split; [done|]. cbn. rewrite E. cbn. apply mp_result_value. lia.
  - intros a m Ha Hm H1 Hg. cbn. by rewrite inverse_none.
  - intros a b m Ha Hb Hm H1. apply mp_result_value, Z.mod_pos_bound. lia.
  - intros a b m Ha Hb Hm H1. apply mp_result_value, Z.mod_pos_bound. lia.
  - intros a m Ha Hm H1. apply mp_result_value, Z.mod_pos_bound. lia.
  - intros a b Ha Hb. apply mp_result_value. pose proof (Hn a Ha). pose proof (Hn b Hb). lia.
Qed.

(** ** A group of points: the abscissa counts the multiples *)
Definition count_mul (dp : ltc_ecc_set) (k : Z) : Z * Z := (dp_Gx dp + k - 1, dp_Gy dp).
Definition set_of_prime (p : Z) : option ltc_ecc_set := snd <$> list_find (λ dp, dp_prime dp = p) [ecc_256; ecc_384; ecc_521].
#[export] Instance count_points : EccOps := {|
  ecc_make_key_ex _ dp := Some (mkEcc dp (mkPoint (mp (Z.abs (dp_Gx dp))) (mp (dp_Gy dp)) mp_one) (mp 1));
  ecc_mul2add A kA B kB m := match set_of_prime (mpv m) with
    | Some dp => let k := ((mpv (pt_x A) - dp_Gx dp + 1) * mpv kA + (mpv (pt_x B) - dp_Gx dp + 1) * mpv kB) mod dp_order dp in
        Some (mkPoint (mp (Z.abs (dp_Gx dp + k - 1))) (mp (dp_Gy dp)) mp_one)
    | None => None
    end |}.
Lemma sets_cases (P : ltc_ecc_set → Prop) : P ecc_256 → P ecc_384 → P ecc_521 → ∀ dp, dp ∈ [ecc_256; ecc_384; ecc_521] → P dp.
Proof. intros H1 H2 H3 dp. rewrite !elem_of_cons, elem_of_nil. naive_solver. Qed.
Lemma set_of_prime_ok dp : dp ∈ [ecc_256; ecc_384; ecc_521] → set_of_prime (dp_prime dp) = Some dp ∧ 1 < dp_order dp ∧ 0 < dp_Gx dp.
Proof. revert dp. apply sets_cases; (split; [by vm_compute|done]). Qed.
#[export] Instance count_laws : EccLaws db count_mul.
Proof.
  assert (Hv : ∀ v, mp_nat db (mp (Z.abs v)) ∧ mpv (mp (Z.abs v)) = Z.abs v).
  { intros v. destruct (mp_result_value (Z.abs v)) as (r & [= <-] & H1 & H2); [lia|done]. }
  split.
  - intros dp _. unfold count_mul. f_equal. lia.
  - intros A kA B kB m P. cbn [ecc_mul2add count_points]. destruct (set_of_prime (mpv m)) as [dp|]; [|discriminate]. intros [= <-]. apply Hv.
  - intros dp A kA B kB m a b Hdp Hm HkA HkB _ _ HA HB Hnz. destruct (set_of_prime_ok dp Hdp) as (Es & Ho & HG). cbn [ecc_mul2add count_points]. rewrite Hm, Es. eexists. split; [reflexivity|]. cbn [pt_x fst].
    injection HA as -> _. injection HB as -> _. rewrite (proj2 (Hv _)). set (k := _ mod _). replace ((a * mpv kA + b * mpv kB) mod dp_order dp) with k in * by (unfold k; f_equal; ring).
    assert (0 ≤ k < dp_order dp) by (apply Z.mod_pos_bound; lia). unfold count_mul. cbn. lia.
  - intros i dp R Hdp. cbn. intros [= <-]. cbn [ecc_k ecc_pubkey pt_x]. destruct (set_of_prime_ok dp Hdp) as (_ & Ho & HG). destruct (Hv 1) as [N1 V1]. change (Z.abs 1) with 1 in *.
    split; [done|]. rewrite V1. split; [lia|]. split; [by rewrite Z.gcd_1_l|]. split; [apply Hv|]. rewrite (proj2 (Hv _)). unfold count_mul. cbn. lia.
Qed.

(** ** Keys *)
Definition hash20 (l : list Z) : list Z := replicate 19 0 ++ [zlen l mod 256].
Lemma hash20_ok l : Forall is_byte (hash20 l) ∧ zlen (hash20 l) = SHA1_HASH_SIZE.
Proof. split; [|done]. unfold hash20. apply Forall_app_2; [by apply Forall_replicate|]. apply Forall_singleton. apply Z.mod_pos_bound. done. Qed.
Lemma hashes_ok (l : list Z) : Forall is_byte (hash20 l) ∧ Forall is_byte (hash20 l) ∧ Forall is_byte (hash20 l).
Proof. split_and!; apply hash20_ok. Qed.
Definition draw2 (i : nat) (len : Z) : list Z := replicate (Z.to_nat (len - 1)) 0 ++ [2].
Definition wit_n : mp_int := mp (2 ^ 1024 - 1).
Definition wit_rsa : dropbear_rsa_key := mkRsa wit_n (mp 1) (Some (mp 1)) None None.
Lemma mp_small_value v : 0 ≤ v < 2 ^ 8239 → mp_small db (mp v).
Proof. intros Hv. destruct (mp_result_value v) as (r & [= <-] & H1 & H2); [lia|]. split; [done|]. rewrite H2. apply Hv. Qed.
Lemma wit_rsa_ok : rsa_ok db wit_rsa.
Proof.
  split; [apply mp_small_value; split; [by apply Z.leb_le; vm_compute|by apply Z.ltb_lt; vm_compute]|]. split; [apply mp_small_value; split; [done|by apply Z.ltb_lt; vm_compute]|].
  split; apply Z.leb_le; vm_compute; reflexivity.
Qed.
Definition wit_key : sign_key := set_rsakey (Some wit_rsa) new_sign_key.
Lemma wit_key_ok : key_ok db hash20 hash20 hash20 wit_key DROPBEAR_SIGNKEY_RSA.
Proof. right. left. split; [done|]. exists wit_rsa. split; [done|]. exact wit_rsa_ok. Qed.
Definition wit_data : buffer := buf_of [1; 2; 3].
Definition wit_signature (data : list Z) : list Z := str (str SSH_SIGNKEY_RSA ++ str (0 :: pkcs1_bytes 128 (hash20 data))).
Lemma buf_of_check bs : bool_decide (Forall is_byte bs) = true → (zlen bs <=? BUF_MAX_SIZE) = true → buf_wf (buf_of bs).
Proof. intros H1%bool_decide_eq_true H2%Z.leb_le. by apply buf_of_wf. Qed.

Lemma pub_key_sound_witness :
  wp (buf_get_pub_key db hash20 hash20 hash20 new_sign_key DROPBEAR_SIGNKEY_ANY)
    (λ '(ok, key, type) b', buf_wf b' ∧ (ok = true → key_ok db hash20 hash20 hash20 key type)) (buf_of (rsa_pub_bytes db wit_rsa)).
Proof. apply (pub_key_sound db db_ok hash20 hash20 hash20). apply buf_of_check; vm_compute; reflexivity. Defined.
Lemma wit_priv_ok : priv_ok db hash20 hash20 hash20 wit_key DROPBEAR_SIGNKEY_RSA.
Proof.
  split; [exact wit_key_ok|]. split; [done|]. split; [|done]. intros k [= <-]. exists (mp 1). split; [done|]. split; [|by left].
  apply mp_small_value. split; [done|by apply Z.ltb_lt; vm_compute].
Qed.
Lemma key_roundtrip_witness : ∃ blob, Writer (buf_put_priv_key db hash20 hash20 hash20 wit_key DROPBEAR_SIGNKEY_RSA) blob ∧
  ∀ b, buf_wf b → buf_rest b = blob →
    ∃ b', buf_get_priv_key db hash20 hash20 hash20 new_sign_key DROPBEAR_SIGNKEY_ANY b = Ok ((true, wit_key, DROPBEAR_SIGNKEY_RSA), b').
Proof. apply (key_roundtrip db db_ok hash20 hash20 hash20 wit_key DROPBEAR_SIGNKEY_RSA); [exact wit_key_ok|exact wit_priv_ok]. Defined.
Lemma wit_verify_run : buf_wf (buf_of (wit_signature [1; 2; 3])) ∧
  buf_verify db hash20 hash20 hash20 hash20 wit_key wit_data (buf_of (wit_signature [1; 2; 3])) = Ok (true, buf_advance (buf_of (wit_signature [1; 2; 3])) 19).
Proof. split; [apply buf_of_check; vm_compute; reflexivity|vm_compute; reflexivity]. Qed.
Lemma verify_exact_witness :
  sig_valid db hash20 hash20 hash20 hash20 wit_key DROPBEAR_SIGNKEY_RSA wit_data (buf_rest (buf_of (wit_signature [1; 2; 3]))).
Proof.
  pose proof (verify_exact db db_ok hash20 hash20 hash20 hash20 draw2 5 hash20_ok hashes_ok count_mul wit_key DROPBEAR_SIGNKEY_RSA wit_data _ wit_key_ok (proj1 wit_verify_run)) as [Hw _].
  apply (wp_elim _ _ _ _ _ Hw (proj2 wit_verify_run)). reflexivity.
Defined.
Definition wit_ecc : ecc_key := mkEcc ecc_256 (mkPoint (mp (dp_Gx ecc_256)) (mp (dp_Gy ecc_256)) mp_one) (mp 1).
Definition wit_curve : dropbear_ecc_curve := ecc_curve_nistp256 hash20.
Lemma wit_value v : 0 ≤ v → mp_nat db (mp v) ∧ mpv (mp v) = v.
Proof. intros Hv. by destruct (mp_result_value v Hv) as (r & [= <-] & H1 & H2). Qed.
Lemma wit_rsa_signer : rsa_signer db draw2 5 wit_rsa.
Proof.
  destruct (wit_value 1 ltac:(done)) as [N1 V1]. destruct (wit_value (2 ^ 1024 - 1)) as [_ Vn]; [by apply Z.leb_le; vm_compute|]. split; [exact wit_rsa_ok|]. split.
  - exists (mp 1). split; [done|]. split; [done|]. intros x Hx. cbn [wit_rsa rsa_e]. rewrite V1. change (1 * 1) with 1. rewrite Z.pow_1_r. by apply Z.mod_small.
  - exists (mp 2). split; [vm_compute; reflexivity|]. split; [apply (wit_value 2); done|]. vm_compute. reflexivity.
Qed.
Lemma wit_ecc_ok : ecc_ok db hash20 hash20 hash20 wit_curve wit_ecc.
Proof.
  destruct (wit_value (dp_Gx ecc_256) ltac:(done)) as [Nx Vx]. destruct (wit_value (dp_Gy ecc_256) ltac:(done)) as [Ny Vy].
  unfold ecc_ok. cbn [wit_ecc ecc_pubkey pt_x pt_y pt_z ecc_dp]. rewrite Vx, Vy. split; [unfold dropbear_ecc_curves; rewrite elem_of_cons; by left|].
  split; [done|]. split; [done|]. split; [done|]. split; [split; by apply Z.ltb_lt; vm_compute|]. split; [split; by apply Z.ltb_lt; vm_compute|]. split; [|done].
  apply (bool_decide_unpack _). vm_compute. exact I.
Qed.
Lemma wit_ecdsa_signer : ecdsa_signer db hash20 hash20 hash20 5 count_mul wit_curve wit_ecc wit_data.
Proof.
  destruct (wit_value 1 ltac:(done)) as [N1 V1]. split; [exact wit_ecc_ok|]. split; [exact N1|]. split; [vm_compute; reflexivity|].
  exists 0%nat. eexists. split; [lia|]. split; [reflexivity|]. split; [apply Z.ltb_lt; vm_compute; reflexivity|]. split; [vm_compute; reflexivity|]. intros i Hi. lia.
Qed.
Lemma signature_accepted_witness :
  (∃ sig, Writer (buf_put_sign db hash20 hash20 hash20 hash20 draw2 5 wit_key DROPBEAR_SIGNKEY_RSA wit_data) (str sig) ∧
     ∀ b, buf_wf b → buf_rest b = str sig → ∃ b', buf_verify db hash20 hash20 hash20 hash20 (public_part wit_key) wit_data b = Ok (true, b')) ∧
  (let key := set_ecc_key DROPBEAR_SIGNKEY_ECDSA_NISTP256 (Some wit_ecc) new_sign_key in
   ∃ sig, Writer (buf_put_sign db hash20 hash20 hash20 hash20 draw2 5 key DROPBEAR_SIGNKEY_ECDSA_NISTP256 wit_data) (str sig) ∧
     ∀ b, buf_wf b → buf_rest b = str sig → ∃ b', buf_verify db hash20 hash20 hash20 hash20 (public_part key) wit_data b = Ok (true, b')).
Proof.
  split; apply (signature_accepted db db_ok hash20 hash20 hash20 hash20 draw2 5 hash20_ok hashes_ok count_mul).
  - right. left. split; [reflexivity|]. exists wit_rsa. split; [reflexivity|exact wit_rsa_signer].
  - right. right. exists wit_curve, wit_ecc. split; [reflexivity|]. split; [reflexivity|exact wit_ecdsa_signer].
Defined.
