(* ===== verification/HostKeys.v ===== *)
(** * Host keys ([svr-runopts.c], [common-runopts.c], [gensignkey.c], [svr-kex.c])

    Reading host keys at the start ([load_all_hostkeys]), which algorithms are
    offered with them, and making a key when a client asks for one that is not
    there ([svr_ensure_hostkey] with [signkey_generate]).  The files are part of
    the state; how [read] and [write] split a file, and whether [link] works,
    are parameters.  The making of the numbers of a key is behind an interface,
    [KeyGen]. *)
From stdpp Require Import gmap.
From S2P Require Import Prelude Buffer Mpint BufferProps Algo BigNum SignKey SignKeyProps SignKeyRound SignKeyWitness Jni RunOpts.

Definition MAX_PRIVKEY_SIZE : Z := 1700.
Definition ECDSA_DEFAULT_SIZE : Z := 256.
Definition DROPBEAR_DEFAULT_RSA_SIZE : Z := 2048.

(** [sshhostkey] of [common-algo.c]. *)
Abbreviation hkalgo := (algo_type () ()).
Definition hostkey_algo (n : list Z) (v : Z) : hkalgo := mkAlgo n v () true ().
Definition sshhostkey : list hkalgo :=
  [hostkey_algo (bytes_of_string "ecdsa-sha2-nistp256") DROPBEAR_SIGNKEY_ECDSA_NISTP256;
   hostkey_algo (bytes_of_string "ecdsa-sha2-nistp384") DROPBEAR_SIGNKEY_ECDSA_NISTP384;
   hostkey_algo (bytes_of_string "ecdsa-sha2-nistp521") DROPBEAR_SIGNKEY_ECDSA_NISTP521;
   hostkey_algo (bytes_of_string "ssh-rsa") DROPBEAR_SIGNKEY_RSA;
   hostkey_algo (bytes_of_string "ssh-dss") DROPBEAR_SIGNKEY_DSS].

(** The host keys, the algorithms and the files. *)
Record hkstate := mkHk { hk_key : sign_key; hk_algos : list hkalgo; hk_fs : gmap (list Z) (list Z) }.
Definition set_hk_key (v : sign_key) (s : hkstate) : hkstate := mkHk v (hk_algos s) (hk_fs s).
Definition set_hk_algos (v : list hkalgo) (s : hkstate) : hkstate := mkHk (hk_key s) v (hk_fs s).
Definition set_hk_fs (v : gmap (list Z) (list Z)) (s : hkstate) : hkstate := mkHk (hk_key s) (hk_algos s) v.

(** What [write] returns each time: a number of bytes, [EINTR] or an error;
    behind the list everything is written. *)
Inductive wr := WrSome (n : Z) | WrIntr | WrFail.

(** Making the numbers of a key ([genrsa.c], [gendss.c]): what this file needs
    of them, which [GenKeys] implements. *)
Class KeyGen := {
  gen_rsa_priv_key : Z → outcome dropbear_rsa_key;
  gen_dss_priv_key : Z → outcome dropbear_dss_key;
  gen_ecdsa_priv_key : Z → outcome ecc_key
}.

Section hostkeys.
Context (DIGIT_BIT : Z) (sha256 sha384 sha512 : list Z → list Z) `{!KeyGen}.
(** How the contents of a file arrive. *)
Context (reads : list Z → list rd).
Context (open_ok : list Z → bool) (writes : list wr) (link_works rename_works : bool) (pid : Z).
Context (conf_path : list Z).
Definition RSA_PRIV_FILENAME : list Z := conf_path_file conf_path (bytes_of_string "dropbear_rsa_host_key").
Definition DSS_PRIV_FILENAME : list Z := conf_path_file conf_path (bytes_of_string "dropbear_dss_host_key").
Definition ECDSA_PRIV_FILENAME : list Z := conf_path_file conf_path (bytes_of_string "dropbear_ecdsa_host_key").

(** ** Reading a key *)
Definition readhostkey (file : option (list rd)) (key : sign_key) (type : Z) : outcome (bool * sign_key * Z) :=
  b ← buf_new MAX_PRIVKEY_SIZE;
  r ← buf_readfile file b;
  if negb r.1 then Ok (false, key, type)
  else
    b ← exec (buf_setpos 0) r.2;
    _ ← buf_getptr (buf_len b) b;
    r ← buf_get_priv_key DIGIT_BIT sha256 sha384 sha512 key type b;
    Ok r.1.
Definition open_file (fn : list Z) (s : hkstate) : option (list rd) := reads <$> hk_fs s !! fn.

(** The new value of [*dst]. *)
Definition loadhostkey_helper {A} (src dst : option A) (fatal_duplicate : bool) : outcome (option A) :=
  match dst with
  | Some d => if fatal_duplicate then Exit "Only one key can be specified" else Ok (Some d)
  | None => Ok src
  end.
Definition loadhostkey (keyfile : list Z) (fatal_duplicate : bool) : M hkstate () :=
  s ← get;
  r ← lift (readhostkey (open_file keyfile s) new_sign_key DROPBEAR_SIGNKEY_ANY);
  let '(_, read_key, type) := r in
  let key := hk_key s in
  if type =? DROPBEAR_SIGNKEY_RSA then
    k ← lift (loadhostkey_helper (rsakey read_key) (rsakey key) fatal_duplicate); put (set_hk_key (set_rsakey k key) s)
  else if type =? DROPBEAR_SIGNKEY_DSS then
    k ← lift (loadhostkey_helper (dsskey read_key) (dsskey key) fatal_duplicate); put (set_hk_key (set_dsskey k key) s)
  else if signkey_is_ecdsa type then
    k ← lift (loadhostkey_helper (signkey_ecc_key read_key type) (signkey_ecc_key key type) fatal_duplicate);
    put (set_hk_key (set_ecc_key type k key) s)
  else mret tt.
Fixpoint loadhostkeys (fns : list (list Z)) (fatal_duplicate : bool) : M hkstate () :=
  match fns with [] => mret tt | fn :: fns => loadhostkey fn fatal_duplicate;; loadhostkeys fns fatal_duplicate end.

Fixpoint disable (type : Z) (l : list hkalgo) : list hkalgo :=
  match l with
  | [] => []
  | a :: l => if val a =? type then mkAlgo (name a) (val a) (data a) false (mode a) :: l else a :: disable type l
  end.
Definition disablekey (type : Z) : M hkstate () := modify (λ s, set_hk_algos (disable type (hk_algos s)) s).
Definition some {A} (o : option A) : bool := match o with Some _ => true | None => false end.
(** One of RSA and DSS: whether it counts as a key. *)
Definition check_key (type : Z) (delay_hostkey have : bool) : M hkstate bool :=
  if negb delay_hostkey && negb have then disablekey type;; mret false else mret true.
Definition check_ecdsa (type size : Z) (delay_hostkey loaded_any_ecdsa have : bool) : M hkstate () :=
  when (negb have && (negb delay_hostkey || loaded_any_ecdsa || negb (ECDSA_DEFAULT_SIZE =? size))) (disablekey type).
Definition load_all_hostkeys (delay_hostkey : bool) (hostkey_files : list (list Z)) : M hkstate () :=
  modify (set_hk_key new_sign_key);;
  loadhostkeys hostkey_files true;;
  when (zlen hostkey_files =? 0) (loadhostkeys [RSA_PRIV_FILENAME; DSS_PRIV_FILENAME; ECDSA_PRIV_FILENAME] false);;
  s ← get;
  let key := hk_key s in
  any_rsa ← check_key DROPBEAR_SIGNKEY_RSA delay_hostkey (some (rsakey key));
  any_dss ← check_key DROPBEAR_SIGNKEY_DSS delay_hostkey (some (dsskey key));
  let loaded_any_ecdsa := some (ecckey256 key) || some (ecckey384 key) || some (ecckey521 key) in
  let any_keys := any_rsa || any_dss || loaded_any_ecdsa || delay_hostkey in
  check_ecdsa DROPBEAR_SIGNKEY_ECDSA_NISTP256 256 delay_hostkey loaded_any_ecdsa (some (ecckey256 key));;
  check_ecdsa DROPBEAR_SIGNKEY_ECDSA_NISTP384 384 delay_hostkey loaded_any_ecdsa (some (ecckey384 key));;
  check_ecdsa DROPBEAR_SIGNKEY_ECDSA_NISTP521 521 delay_hostkey loaded_any_ecdsa (some (ecckey521 key));;
  if negb any_keys then dropbear_exit "No hostkeys available" else mret tt.

(** ** Making a key ([gensignkey.c]) *)

(** The loop of [buf_writefile]: success, and the bytes that were written. *)
Fixpoint writefile_loop (ws : list wr) : M buffer (bool * list Z) :=
  b ← get;
  if buf_pos b =? buf_len b then mret (true, [])
  else
    let n := u32 (buf_len b - buf_pos b) in
    p ← buf_getptr n;
    bs ← buf_load p n;
    match ws with
    | [] => buf_incrpos (i32 n);; mret (true, bs)
    | WrIntr :: ws => writefile_loop ws
    | WrFail :: _ => mret (false, [])
    | WrSome k :: ws =>
        let len := Z.min k n in
        if len <=? 0 then mret (false, [])
        else
          buf_incrpos (i32 len);;
          r ← writefile_loop ws;
          mret (r.1, take (Z.to_nat len) bs ++ r.2)
    end.
Definition buf_writefile (b : buffer) (filename : list Z) : M hkstate bool :=
  s ← get;
  if some (hk_fs s !! filename) || negb (open_ok filename) then mret false
  else
    r ← lift (writefile_loop writes b);
    let '(ok, bs) := r.1 in
    put (set_hk_fs (<[filename := bs]> (hk_fs s)) s);;
    mret ok.
Definition get_default_bits (keytype : Z) : Z :=
  if keytype =? DROPBEAR_SIGNKEY_RSA then DROPBEAR_DEFAULT_RSA_SIZE
  else if keytype =? DROPBEAR_SIGNKEY_DSS then 1024
  else if keytype =? DROPBEAR_SIGNKEY_ECDSA_NISTP521 then 521
  else if keytype =? DROPBEAR_SIGNKEY_ECDSA_NISTP384 then 384
  else if keytype =? DROPBEAR_SIGNKEY_ECDSA_NISTP256 then 256 else 0.
Definition signkey_generate_get_bits (keytype bits : Z) : Z := if bits =? 0 then get_default_bits keytype else bits.
Definition ecdsa_signkey_type (key : ecc_key) : Z :=
  if bool_decide (ecc_dp key = ecc_256) then DROPBEAR_SIGNKEY_ECDSA_NISTP256
  else if bool_decide (ecc_dp key = ecc_384) then DROPBEAR_SIGNKEY_ECDSA_NISTP384
  else if bool_decide (ecc_dp key = ecc_521) then DROPBEAR_SIGNKEY_ECDSA_NISTP521 else DROPBEAR_SIGNKEY_NONE.
(** The key and its type. *)
Definition generate_key (keytype bits : Z) : outcome (sign_key * Z) :=
  if keytype =? DROPBEAR_SIGNKEY_RSA then k ← gen_rsa_priv_key bits; Ok (set_rsakey (Some k) new_sign_key, keytype)
  else if keytype =? DROPBEAR_SIGNKEY_DSS then k ← gen_dss_priv_key bits; Ok (set_dsskey (Some k) new_sign_key, keytype)
  else if signkey_is_ecdsa keytype then
    k ← gen_ecdsa_priv_key bits;
    let keytype := ecdsa_signkey_type k in
    if signkey_is_ecdsa keytype then Ok (set_ecc_key keytype (Some k) new_sign_key, keytype) else UB "null pointer"
  else Exit "Internal error".
Definition temp_name (filename : list Z) : list Z := filename ++ bytes_of_string ".tmp" ++ print_int pid.
(** [link], and [rename] when there are no links or the name is taken and must
    not be. *)
Definition move_file (fn_temp filename : list Z) (skip_exist : bool) : M hkstate bool :=
  s ← get;
  let exists_ := some (hk_fs s !! filename) in
  let bs := default [] (hk_fs s !! fn_temp) in
  if link_works && negb exists_ then put (set_hk_fs (<[filename := bs]> (hk_fs s)) s);; mret true
  else if skip_exist && (link_works && exists_) then mret true
  else if rename_works then put (set_hk_fs (<[filename := bs]> (delete fn_temp (hk_fs s))) s);; mret true
  else mret false.
Definition signkey_generate (keytype bits : Z) (filename : list Z) (skip_exist : bool) : M hkstate bool :=
  r ← lift (generate_key keytype (signkey_generate_get_bits keytype bits));
  let '(key, keytype) := r in
  b ← lift (buf_new MAX_PRIVKEY_SIZE);
  b ← lift (exec (buf_put_priv_key DIGIT_BIT sha256 sha384 sha512 key keytype;; buf_setpos 0) b);
  let fn_temp := temp_name filename in
  ok ← buf_writefile b fn_temp;
  ok ← (if ok : bool then move_file fn_temp filename skip_exist else mret false);
  modify (λ s, set_hk_fs (delete fn_temp (hk_fs s)) s);;
  mret ok.

(** ** A key when it is needed ([svr-kex.c]) *)
Definition has_key (key : sign_key) (type : Z) : bool :=
  if type =? DROPBEAR_SIGNKEY_RSA then some (rsakey key)
  else if type =? DROPBEAR_SIGNKEY_DSS then some (dsskey key) else some (signkey_ecc_key key type).
Definition key_filename (type : Z) : option (list Z) :=
  if type =? DROPBEAR_SIGNKEY_RSA then Some RSA_PRIV_FILENAME
  else if type =? DROPBEAR_SIGNKEY_DSS then Some DSS_PRIV_FILENAME
  else if signkey_is_ecdsa type then Some ECDSA_PRIV_FILENAME else None.
(** [readhostkey] into the host keys. *)
Definition read_into (fn : list Z) (type : Z) : M hkstate bool :=
  s ← get;
  r ← lift (readhostkey (open_file fn s) (hk_key s) type);
  put (set_hk_key r.1.2 s);;
  mret r.1.1.
(** The fingerprint that is logged is left out. *)
Definition log_hostkey (type : Z) : M hkstate () :=
  s ← get;
  b ← lift (buf_new MAX_PUBKEY_SIZE);
  b ← lift (exec (buf_put_pub_key DIGIT_BIT sha256 sha384 sha512 (hk_key s) type;; buf_setpos 4) b);
  lift (buf_getptr (u32 (buf_len b - buf_pos b)) b);;
  mret tt.
Definition svr_ensure_hostkey (type : Z) : M hkstate () :=
  s ← get;
  if has_key (hk_key s) type then mret tt
  else
    match key_filename type with
    | None => dropbear_exit "Failed assertion"
    | Some fn =>
        ok ← read_into fn type;
        if ok : bool then mret tt
        else
          ok ← signkey_generate type 0 fn true;
          if negb ok then dropbear_exit "Couldn't read or generate hostkey"
          else
            ok ← read_into fn type;
            if ok : bool then log_hostkey type else dropbear_exit "Couldn't read or generate hostkey"
    end.
End hostkeys.

(** ** Which keys there are *)
Lemma has_set_rsa k key t : has_key (set_rsakey k key) t = if t =? DROPBEAR_SIGNKEY_RSA then some k else has_key key t.
Proof. unfold has_key, signkey_ecc_key. by destruct (t =? DROPBEAR_SIGNKEY_RSA). Qed.
Lemma has_set_dss k key t : has_key (set_dsskey k key) t = if t =? DROPBEAR_SIGNKEY_DSS then some k else has_key key t.
Proof. unfold has_key, signkey_ecc_key. destruct (Z.eqb_spec t DROPBEAR_SIGNKEY_RSA) as [->|]; [done|]. by destruct (t =? DROPBEAR_SIGNKEY_DSS). Qed.
Lemma is_ecdsa_cases type : signkey_is_ecdsa type = true →
  type = DROPBEAR_SIGNKEY_ECDSA_NISTP256 ∨ type = DROPBEAR_SIGNKEY_ECDSA_NISTP384 ∨ type = DROPBEAR_SIGNKEY_ECDSA_NISTP521.
Proof. unfold signkey_is_ecdsa. rewrite !orb_true_iff, !Z.eqb_eq. tauto. Qed.
Lemma has_set_ecc type k key t : signkey_is_ecdsa type = true → has_key (set_ecc_key type k key) t = if t =? type then some k else has_key key t.
Proof.
  intros Ht. unfold has_key, signkey_ecc_key. destruct (is_ecdsa_cases type Ht) as [->|[->| ->]]; cbn;
    repeat (match goal with |- context [?a =? ?b] => destruct (Z.eqb_spec a b); [try subst; try done|] end); done.
Qed.
Lemma has_ecc key type : signkey_is_ecdsa type = true → has_key key type = some (signkey_ecc_key key type).
Proof. intros Ht. by destruct (is_ecdsa_cases type Ht) as [->|[->| ->]]. Qed.
(** The types of keys there are. *)
Definition is_type (t : Z) : bool := (t =? DROPBEAR_SIGNKEY_RSA) || (t =? DROPBEAR_SIGNKEY_DSS) || signkey_is_ecdsa t.

Section props.
Context (DIGIT_BIT : Z) (HDB : 8 ≤ DIGIT_BIT) (sha256 sha384 sha512 : list Z → list Z) `{!KeyGen}.
Context (reads : list Z → list rd) (Hreads : ∀ bs, Forall is_byte bs → Forall rd_bytes (reads bs)).
Context (open_ok : list Z → bool) (writes : list wr) (link_works rename_works : bool) (pid : Z) (conf_path : list Z).
Abbreviation readhk := (readhostkey DIGIT_BIT sha256 sha384 sha512).
Abbreviation file s fn := (open_file reads fn s).
Definition fs_ok (s : hkstate) : Prop := map_Forall (λ _ bs, Forall is_byte bs) (hk_fs s).
Definition opt_rd_ok (o : option (list rd)) : Prop := match o with Some rs => Forall rd_bytes rs | None => True end.
Lemma open_file_ok s fn : fs_ok s → opt_rd_ok (file s fn).
Proof. intros Hs. unfold open_file. destruct (hk_fs s !! fn) as [bs|] eqn:E; cbn; [|done]. by apply Hreads, (Hs fn). Qed.

Lemma setpos_start b : buf_wf b → exec (buf_setpos 0) b = Ok (set_pos 0 b).
Proof. intros Hb. unfold exec, buf_setpos. run. case_if; [buf_facts; bool_lia|done]. Qed.
Lemma rewind_ok b bs : buf_wf b → buf_len b = 0 → Forall is_byte bs → zlen bs ≤ buf_size b →
  let b1 := set_pos 0 (buf_append b bs) in buf_wf (buf_append b bs) ∧ buf_wf b1 ∧ buf_rest b1 = bs ∧ buf_len b1 = zlen bs.
Proof.
  intros Hb Hl Hbs Hfit b1. assert (Hb' : buf_wf (buf_append b bs)) by (apply buf_wf_append; [done|done|lia]). split; [done|].
  split; [apply buf_wf_set_pos; [done|pose proof (wf_pos _ Hb'); lia]|]. split; [|unfold b1; cbn; lia].
  pose proof (buf_content_append b Hb bs ltac:(lia)) as Hc. unfold buf_content in Hc at 2. rewrite Hl in Hc. cbn in Hc.
  unfold b1, buf_rest. cbn [buf_pos buf_len set_pos buf_data]. rewrite Z.sub_0_r. exact Hc.
Qed.
(** What the parser of private keys leaves. *)
Lemma get_key_has pd pr pe key type l ok k t tl : p_get_key sha256 sha384 sha512 pd pr pe key type l = Some ((ok, k, t), tl) →
  (ok = true → has_key k t = true ∧ is_type t = true) ∧ (type ≠ DROPBEAR_SIGNKEY_ANY → t = type) ∧ (∀ t', t' ≠ t → has_key k t' = has_key key t').
Proof.
  unfold p_get_key. destruct (p_string l) as [[ident tl1]|]; cbn [mbind option_bind]; [|done]. generalize (signkey_type_from_name ident). intros kt.
  assert (Hkt : type ≠ DROPBEAR_SIGNKEY_ANY → negb (type =? DROPBEAR_SIGNKEY_ANY) && negb (type =? kt) = false → kt = type).
  { intros Hn. rewrite (proj2 (Z.eqb_neq _ _)) by done. cbn. rewrite negb_false_iff, Z.eqb_eq. done. }
  destruct (_ && _); [intros ?; simplify_eq; done|]. specialize (λ H, Hkt H eq_refl).
  destruct (Z.eqb_spec kt DROPBEAR_SIGNKEY_DSS) as [E|E]; [|destruct (Z.eqb_spec kt DROPBEAR_SIGNKEY_RSA) as [E'|E']; [|destruct (curve_of_type sha256 sha384 sha512 kt) as [c|] eqn:Ec]].
  - unfold p_bind. destruct (pd tl1) as [[ko tl2]|]; cbn; [|done]. intros [= <- <- <- _]. rewrite E in *. split_and!; [|auto|].
    + intros Ho%bool_decide_eq_true. rewrite has_set_dss. by destruct Ho as [? ->].
    + intros t' Ht'. rewrite has_set_dss. by rewrite (proj2 (Z.eqb_neq _ _)).
  - unfold p_bind. destruct (pr tl1) as [[ko tl2]|]; cbn; [|done]. intros [= <- <- <- _]. rewrite E' in *. split_and!; [|auto|].
    + intros Ho%bool_decide_eq_true. rewrite has_set_rsa. by destruct Ho as [? ->].
    + intros t' Ht'. rewrite has_set_rsa. by rewrite (proj2 (Z.eqb_neq _ _)).
  - assert (Hi : signkey_is_ecdsa kt = true). { revert Ec. unfold curve_of_type, signkey_is_ecdsa. by repeat case_match. }
    unfold p_bind. destruct (pe c tl1) as [[ko tl2]|]; cbn; [|done]. intros [= <- <- <- _]. split_and!; [|auto|].
    + intros Ho%bool_decide_eq_true. rewrite has_set_ecc, Z.eqb_refl by done. unfold is_type. rewrite Hi, orb_true_r. by destruct Ho as [? ->].
    + intros t' Ht'. rewrite has_set_ecc by done. by rewrite (proj2 (Z.eqb_neq _ _)).
  - intros ?; simplify_eq. done.
Qed.
(** Reading a key is parsing what is read of the file. *)
Lemma readhostkey_eq f key type : opt_rd_ok f →
  match f ≫= file_bytes (Z.to_nat MAX_PRIVKEY_SIZE) with
  | None => readhk f key type = Ok (false, key, type)
  | Some bs => Forall is_byte bs ∧
      match p_priv_key DIGIT_BIT sha256 sha384 sha512 key type bs with
      | Some (r, _) => readhk f key type = Ok r
      | None => ∃ e, readhk f key type = Exit e
      end
  end.
Proof.
  intros Hf. unfold readhostkey. destruct (buf_new_ok MAX_PRIVKEY_SIZE) as (b & -> & Hb & Hl & Hp & Hs); [unfold MAX_PRIVKEY_SIZE, BUF_MAX_SIZE; lia|].
  cbn [mbind outcome_bind obind]. destruct f as [rs|]; [|done]. cbn [buf_readfile mbind option_bind].
  pose proof (readfile_loop_ok False rs b Hb ltac:(lia) ltac:(rewrite Hs; unfold MAX_PRIVKEY_SIZE; lia) Hf) as Hw. unfold ewp in Hw.
  rewrite Hs, Hl, Z.sub_0_r in Hw.
  destruct (readfile_loop rs b) as [[ok b']| |]; [|done..]. destruct (file_bytes _ _) as [bs|] eqn:Eb; [|by subst ok]. destruct Hw as [-> ->].
  apply file_bytes_ok in Eb as [Eb1 Eb2]; [|done]. split; [done|]. cbn [mbind outcome_bind obind fst snd negb].
  destruct (rewind_ok b bs Hb Hl Eb2) as (Hb' & Hb1 & Hrest & Hl1); [unfold MAX_PRIVKEY_SIZE in *; lia|].
  rewrite (setpos_start _ Hb'). set (b1 := set_pos 0 (buf_append b bs)) in *. cbn [mbind outcome_bind obind].
  rewrite buf_getptr_eq by (done || (buf_facts; lia)). rewrite (proj2 (Z.leb_le _ _)) by (change (buf_pos b1) with 0; lia). cbn [mbind outcome_bind obind].
  pose proof (reader_priv_key DIGIT_BIT HDB sha256 sha384 sha512 key type b1 Hb1) as Hr. rewrite Hrest in Hr.
  destruct (p_priv_key _ _ _ _ key type bs) as [[r tl]|]; [|destruct Hr as [e ->]; by eexists].
  destruct Hr as (n & _ & _ & _ & ->). done.
Qed.
(** So it is safe, and ends with the key of the type it reports. *)
Lemma readhostkey_ok f key type : opt_rd_ok f →
  owp (λ r, (r.1.1 = true → has_key r.1.2 r.2 = true ∧ is_type r.2 = true) ∧ (type ≠ DROPBEAR_SIGNKEY_ANY → r.2 = type) ∧
    (∀ t', t' ≠ r.2 → has_key r.1.2 t' = has_key key t')) (readhk f key type).
Proof.
  intros Hf. pose proof (readhostkey_eq f key type Hf) as Hr. destruct (f ≫= _) as [bs|]; [|by rewrite Hr]. destruct Hr as [_ Hr].
  destruct (p_priv_key _ _ _ _ key type bs) as [[[[ok k] t] tl]|] eqn:Ep; [|by destruct Hr as [e ->]]. rewrite Hr. cbn. by apply get_key_has in Ep.
Qed.

(** ** Loading *)
Definition provides (s : hkstate) (fn : list Z) (t : Z) : bool :=
  match readhk (file s fn) new_sign_key DROPBEAR_SIGNKEY_ANY with Ok (_, k, t') => (t' =? t) && has_key k t | _ => false end.
Lemma helper_some {A} (src dst : option A) fatal : owp (λ k, some k = some dst || some src) (loadhostkey_helper src dst fatal).
Proof. destruct dst; cbn; [by case_if|done]. Qed.
Lemma loadhostkey_ok fn fatal s : fs_ok s →
  wp (loadhostkey DIGIT_BIT sha256 sha384 sha512 reads fn fatal) (λ _ s', hk_algos s' = hk_algos s ∧ hk_fs s' = hk_fs s ∧
    ∀ t, is_type t = true → has_key (hk_key s') t = has_key (hk_key s) t || provides s fn t) s.
Proof.
  intros Hs. pose proof (readhostkey_ok (file s fn) new_sign_key DROPBEAR_SIGNKEY_ANY (open_file_ok s fn Hs)) as Hr.
  unfold loadhostkey, provides. wp_step. wp_step. wp_step. apply wp_lift. destruct (readhk _ _ _) as [[[ok k] t]| |]; [|done..]. clear Hr.
  assert (Hset : ∀ A (src dst : option A) (f : option A → sign_key), (∀ k' t', has_key (f k') t' = if t' =? t then some k' else has_key (hk_key s) t') →
    some dst = has_key (hk_key s) t → some src = has_key k t →
    wp (k ← lift (loadhostkey_helper src dst fatal); put (set_hk_key (f k) s)) (λ _ s', hk_algos s' = hk_algos s ∧ hk_fs s' = hk_fs s ∧
      ∀ t', is_type t' = true → has_key (hk_key s') t' = has_key (hk_key s) t' || (t =? t') && has_key k t') s).
  { intros A src dst f Hf Hd Hk. wp_step. apply wp_lift. pose proof (helper_some src dst fatal) as Hh. destruct (loadhostkey_helper src dst fatal) as [k'| |]; [|done..].
    wp_step. split_and!; [done|done|]. intros t' _. cbn. rewrite Hf, (Z.eqb_sym t t'). destruct (Z.eqb_spec t' t) as [->|]; [|by rewrite orb_false_r].
    cbn in Hh. rewrite Hh, Hd, Hk. done. }
  destruct (Z.eqb_spec t DROPBEAR_SIGNKEY_RSA) as [Er|Er]; [|destruct (Z.eqb_spec t DROPBEAR_SIGNKEY_DSS) as [Ed|Ed]; [|destruct (signkey_is_ecdsa t) eqn:Ee]].
  - apply Hset; [|by rewrite Er..]. intros. by rewrite has_set_rsa, Er.
  - apply Hset; [|by rewrite Ed..]. intros. by rewrite has_set_dss, Ed.
  - apply Hset; [|by rewrite has_ecc..]. intros. by rewrite has_set_ecc.
  - wp_step. split_and!; [done|done|]. intros t' Ht'. destruct (Z.eqb_spec t t') as [<-|]; [|by rewrite orb_false_r].
    exfalso. revert Ht'. unfold is_type. rewrite (proj2 (Z.eqb_neq _ _) Er), (proj2 (Z.eqb_neq _ _) Ed), Ee. done.
Qed.
Lemma provides_same s s' fn t : hk_fs s' = hk_fs s → provides s' fn t = provides s fn t.
Proof. intros E. unfold provides, open_file. by rewrite E. Qed.
Lemma existsb_eq {A} (f g : A → bool) l : (∀ x, f x = g x) → existsb f l = existsb g l.
Proof. intros Hfg. induction l as [|x l IH]; cbn; [done|]. by rewrite Hfg, IH. Qed.
Lemma loadhostkeys_ok fns fatal s : fs_ok s →
  wp (loadhostkeys DIGIT_BIT sha256 sha384 sha512 reads fns fatal) (λ _ s', hk_algos s' = hk_algos s ∧ hk_fs s' = hk_fs s ∧
    ∀ t, is_type t = true → has_key (hk_key s') t = has_key (hk_key s) t || existsb (λ fn, provides s fn t) fns) s.
Proof.
  revert s. induction fns as [|fn fns IH]; intros s Hs; cbn [loadhostkeys existsb].
  { wp_step. split_and!; try done. intros t _. by rewrite orb_false_r. }
  wp_step. eapply wp_mono; [by apply loadhostkey_ok|]. intros [] s1 (Ha1 & Hf1 & Hk1).
  eapply wp_mono; [apply IH; unfold fs_ok; by rewrite Hf1|]. intros [] s2 (Ha2 & Hf2 & Hk2). split_and!; [congruence|congruence|].
  intros t Ht. rewrite Hk2, Hk1, orb_assoc by done. f_equal. apply existsb_eq. intros fn'. by apply provides_same.
Qed.

(** The algorithms that are offered: those there is a key for, and with
    [delay_hostkey] RSA, DSS, and the default curve unless there is another. *)
Definition any_ecdsa (key : sign_key) : bool := some (ecckey256 key) || some (ecckey384 key) || some (ecckey521 key).
Definition offered (delay : bool) (key : sign_key) (t : Z) : bool :=
  has_key key t ||
  delay && ((t =? DROPBEAR_SIGNKEY_RSA) || (t =? DROPBEAR_SIGNKEY_DSS) || (t =? DROPBEAR_SIGNKEY_ECDSA_NISTP256) && negb (any_ecdsa key)).
Definition offer (delay : bool) (key : sign_key) (a : hkalgo) : hkalgo := mkAlgo (name a) (val a) (data a) (offered delay key (val a)) (mode a).
Definition default_files : list (list Z) := [RSA_PRIV_FILENAME conf_path; DSS_PRIV_FILENAME conf_path; ECDSA_PRIV_FILENAME conf_path].
Definition key_files (hostkey_files : list (list Z)) : list (list Z) := if zlen hostkey_files =? 0 then default_files else hostkey_files.
(** What is left of the algorithms depends on five bits and [delay_hostkey]. *)
Lemma disable_offer (delay : bool) key :
  let a1 := if negb delay && negb (some (rsakey key)) then disable DROPBEAR_SIGNKEY_RSA sshhostkey else sshhostkey in
  let a2 := if negb delay && negb (some (dsskey key)) then disable DROPBEAR_SIGNKEY_DSS a1 else a1 in
  let off type size have l := if negb have && (negb delay || any_ecdsa key || negb (ECDSA_DEFAULT_SIZE =? size)) then disable type l else l in
  off DROPBEAR_SIGNKEY_ECDSA_NISTP521 521 (some (ecckey521 key)) (off DROPBEAR_SIGNKEY_ECDSA_NISTP384 384 (some (ecckey384 key))
    (off DROPBEAR_SIGNKEY_ECDSA_NISTP256 256 (some (ecckey256 key)) a2)) = offer delay key <$> sshhostkey.
Proof.
  destruct key as [[] [] [] [] []], delay; reflexivity.
Qed.
Lemma some_offered (delay : bool) key : delay || some (rsakey key) || (delay || some (dsskey key)) || any_ecdsa key || delay = true →
  ∃ a, a ∈ offer delay key <$> sshhostkey ∧ usable a = true.
Proof.
  destruct key as [d r e2 e3 e5]. unfold any_ecdsa. cbn [rsakey dsskey ecckey256 ecckey384 ecckey521]. intros Hany.
  assert (Hb : existsb usable (offer delay (mkSignKey d r e2 e3 e5) <$> sshhostkey) = true) by (by destruct d, r, e2, e3, e5, delay).
  apply existsb_exists in Hb as (a & Ha & Hu). exists a. split; [by apply list_elem_of_In|done].
Qed.
Lemma check_key_ok type (delay have : bool) Q s :
  Q (delay || have) (set_hk_algos (if negb delay && negb have then disable type (hk_algos s) else hk_algos s) s) → wp (check_key type delay have) Q s.
Proof. unfold check_key. intros HQ. by destruct delay, have, s; cbn in *. Qed.
Lemma check_ecdsa_ok type size (delay any have : bool) Q s :
  Q tt (set_hk_algos (if negb have && (negb delay || any || negb (ECDSA_DEFAULT_SIZE =? size)) then disable type (hk_algos s) else hk_algos s) s) →
  wp (check_ecdsa type size delay any have) Q s.
Proof. unfold check_ecdsa, when. destruct s. by case_if. Qed.

(** The curves that are offered, and those there is a key for. *)
Definition curves_offered (l : list hkalgo) : Z := zlen (filter (λ a, usable a && signkey_is_ecdsa (val a) = true) l).
Definition curves_loaded (key : sign_key) : Z :=
  zlen (filter (λ b, b = true) [some (ecckey256 key); some (ecckey384 key); some (ecckey521 key)]).
Lemma curves_offer delay key :
  curves_offered (offer delay key <$> sshhostkey) = if any_ecdsa key then curves_loaded key else if delay then 1 else 0.
Proof. destruct key as [[] [] [] [] []], delay; reflexivity. Qed.

(** What loading leaves. *)
Definition load_post (delay : bool) (hostkey_files : list (list Z)) (s s' : hkstate) : Prop :=
  hk_fs s' = hk_fs s ∧ hk_algos s' = offer delay (hk_key s') <$> sshhostkey ∧
  (∀ t, is_type t = true → has_key (hk_key s') t = existsb (λ fn, provides s fn t) (key_files hostkey_files)) ∧
  curves_offered (hk_algos s') = (if any_ecdsa (hk_key s') then curves_loaded (hk_key s') else if delay then 1 else 0) ∧
  ∃ a, a ∈ hk_algos s' ∧ usable a = true.
(** C35. Loading the host keys never performs an undefined access, whatever is in the
    files and however they are read.  If the server goes on, a type of key is
    there exactly if one of the files gives it (the files of the command line,
    or the three default files), and the algorithms offered to clients are
    exactly those with a key, or, with [delay_hostkey], those a key will be made
    for; at least one is offered.  The number of curves offered is that of the
    curves loaded, or one with [delay_hostkey] if none is loaded: so at most one,
    as the comments of [load_all_hostkeys] want it, if the files give at most
    one curve, and more than one if they give more, which the comments exclude
    ([two_curves]). *)
Theorem hostkeys_loaded delay hostkey_files s : fs_ok s → hk_algos s = sshhostkey →
  wp (load_all_hostkeys DIGIT_BIT sha256 sha384 sha512 reads conf_path delay hostkey_files) (λ _ s', load_post delay hostkey_files s s') s.
Proof.
  intros Hs Ha. unfold load_all_hostkeys. wp_step. wp_step. wp_step.
  eapply wp_mono; [by apply loadhostkeys_ok|]. intros [] s1 (Ha1 & Hf1 & Hk1). cbn [hk_algos hk_fs hk_key set_hk_key] in Ha1, Hf1, Hk1.
  wp_step. apply (wp_mono _ (λ _ s2, hk_algos s2 = sshhostkey ∧ hk_fs s2 = hk_fs s ∧
    ∀ t, is_type t = true → has_key (hk_key s2) t = existsb (λ fn, provides s fn t) (key_files hostkey_files))).
  { assert (Hz : ∀ t, is_type t = true → has_key (hk_key s1) t = existsb (λ fn, provides s fn t) hostkey_files).
    { intros t Ht. rewrite Hk1 by done. unfold has_key, signkey_ecc_key. repeat case_match; done. }
    unfold key_files. destruct (Z.eqb_spec (zlen hostkey_files) 0) as [E|E]; cbn [when]; [|split_and!; [congruence|done|done]].
    destruct hostkey_files; [|cbn in E; lia]. eapply wp_mono; [apply loadhostkeys_ok; unfold fs_ok; by rewrite Hf1|].
    intros [] s2 (Ha2 & Hf2 & Hk2). split_and!; [congruence|congruence|]. intros t Ht. rewrite Hk2, Hz by done.
    transitivity (existsb (λ fn, provides s1 fn t) default_files); [done|]. apply existsb_eq. intros fn. by apply provides_same. }
  intros [] s2 (Ha2 & Hf2 & Hk2). wp_step. apply wp_get. wp_step. apply check_key_ok. wp_step. apply check_key_ok.
  wp_step. apply check_ecdsa_ok. wp_step. apply check_ecdsa_ok. wp_step. apply check_ecdsa_ok.
  change (some (ecckey256 (hk_key s2)) || some (ecckey384 (hk_key s2)) || some (ecckey521 (hk_key s2))) with (any_ecdsa (hk_key s2)).
  cbn [hk_algos hk_fs hk_key set_hk_algos]. rewrite Ha2, disable_offer. destruct (negb _) eqn:En; [wp_step|]. wp_step.
  split_and!; [done|done|done|apply curves_offer|]. apply negb_false_iff in En. cbn [hk_algos set_hk_algos hk_key]. by apply some_offered.
Qed.
End props.
(** A file is read in one piece. *)
Definition one_read (bs : list Z) : list rd := match bs with [] => [] | _ => [RdData bs] end.
Lemma one_read_ok bs : Forall is_byte bs → Forall rd_bytes (one_read bs).
Proof. intros Hb. destruct bs; cbn; [done|by apply Forall_singleton]. Qed.
(** The default file of the RSA key holds a key. *)
Definition wit_files : hkstate :=
  mkHk new_sign_key sshhostkey {[ RSA_PRIV_FILENAME [] := priv_bytes db hash20 hash20 hash20 wit_key DROPBEAR_SIGNKEY_RSA ]}.
Lemma hostkeys_loaded_witness :
  ∃ s', load_all_hostkeys db hash20 hash20 hash20 one_read [] false [] wit_files = Ok (tt, s') ∧
    has_key (hk_key s') DROPBEAR_SIGNKEY_RSA = true ∧ usable <$> hk_algos s' = [false; false; false; true; false] ∧
    load_post db hash20 hash20 hash20 one_read [] false [] wit_files s'.
Proof.
  assert (Hfs : fs_ok wit_files).
  { intros fn bs. cbn [hk_fs wit_files]. rewrite lookup_singleton_Some. intros [_ <-].
    apply (bool_decide_unpack _). vm_compute. exact I. }
  pose proof (hostkeys_loaded db db_ok hash20 hash20 hash20 one_read one_read_ok [] false [] wit_files Hfs eq_refl) as H.
  unfold wp in H. destruct (load_all_hostkeys db hash20 hash20 hash20 one_read [] false [] wit_files) as [[[] s']|e|e] eqn:E.
  - exists s'. split; [reflexivity|]. split_and!; [| |exact H].
    + revert E. vm_compute. by intros [= <-].
    + revert E. vm_compute. by intros [= <-].
  - exfalso. revert E. vm_compute. discriminate.
  - destruct H.
Defined.
(** With two ECDSA keys both curves stay enabled. *)
Example two_curves k k' : let key := mkSignKey None None (Some k) (Some k') None in
  usable <$> (offer false key <$> sshhostkey) = [true; true; false; false; false].
Proof. done. Qed.
