(* ===== verification/HostKeysGen.v ===== *)
(** * Host keys that are made when they are needed

    What [svr_ensure_hostkey] of [HostKeys] leaves: on every path a key the
    server can sign with, and, when a key is made, the file a later start reads
    it from. *)
From stdpp Require Import gmap.
From S2P Require Import Prelude Buffer Mpint BufferProps Algo BigNum SignKey SignKeyProps SignKeyRound SignKeyWitness Jni RunOpts HostKeys.

(** The key of one type alone, and put beside others. *)
Definition only_key (key : sign_key) (t : Z) : sign_key :=
  if t =? DROPBEAR_SIGNKEY_RSA then set_rsakey (rsakey key) new_sign_key
  else if t =? DROPBEAR_SIGNKEY_DSS then set_dsskey (dsskey key) new_sign_key else set_ecc_key t (signkey_ecc_key key t) new_sign_key.
Definition put_key (k : sign_key) (t : Z) (key : sign_key) : sign_key :=
  if t =? DROPBEAR_SIGNKEY_RSA then set_rsakey (rsakey k) key
  else if t =? DROPBEAR_SIGNKEY_DSS then set_dsskey (dsskey k) key else set_ecc_key t (signkey_ecc_key k t) key.
Lemma type_cases t : is_type t = true → t = DROPBEAR_SIGNKEY_RSA ∨ t = DROPBEAR_SIGNKEY_DSS ∨ t = DROPBEAR_SIGNKEY_ECDSA_NISTP256 ∨
  t = DROPBEAR_SIGNKEY_ECDSA_NISTP384 ∨ t = DROPBEAR_SIGNKEY_ECDSA_NISTP521.
Proof. unfold is_type. rewrite !orb_true_iff, !Z.eqb_eq. intros [[->| ->]|H%is_ecdsa_cases]; tauto. Qed.
Ltac each_type H := destruct (type_cases _ H) as [->|[->|[->|[->| ->]]]].

Section gen.
Context (DIGIT_BIT : Z) (HDB : 8 ≤ DIGIT_BIT) (sha256 sha384 sha512 : list Z → list Z) `{!KeyGen}.
Context (reads : list Z → list rd) (Hreads : ∀ bs, Forall is_byte bs → Forall rd_bytes (reads bs)).
Context (open_ok : list Z → bool) (writes : list wr) (link_works rename_works : bool) (pid : Z) (conf_path : list Z).
Abbreviation keyok := (key_ok DIGIT_BIT sha256 sha384 sha512).
Abbreviation privok := (priv_ok DIGIT_BIT sha256 sha384 sha512).
Abbreviation blob := (priv_bytes DIGIT_BIT sha256 sha384 sha512).
Abbreviation p_priv := (p_priv_key DIGIT_BIT sha256 sha384 sha512).
Abbreviation readhk := (readhostkey DIGIT_BIT sha256 sha384 sha512).
Abbreviation putpub := (buf_put_pub_key DIGIT_BIT sha256 sha384 sha512).
Abbreviation putpriv := (buf_put_priv_key DIGIT_BIT sha256 sha384 sha512).
Abbreviation generate := (signkey_generate DIGIT_BIT sha256 sha384 sha512 open_ok writes link_works rename_works pid).
Abbreviation ensure := (svr_ensure_hostkey DIGIT_BIT sha256 sha384 sha512 reads open_ok writes link_works rename_works pid conf_path).
Abbreviation readinto := (read_into DIGIT_BIT sha256 sha384 sha512 reads).

(** ** Keys that are read *)
Lemma rsa_priv_valid l k tl : Forall is_byte l → p_rsa_priv DIGIT_BIT l = Some (Some k, tl) → rsa_ok DIGIT_BIT k.
Proof.
  intros Hl. unfold p_rsa_priv, p_bind at 1. destruct (p_rsa_pub DIGIT_BIT l) as [[[k0|] tl1]|] eqn:E; cbn [mbind option_bind]; [|done|done].
  apply rsa_pub_valid in E as Hk; [|done..]. unfold p_num, p_bind, p_ret. destruct (p_mpint DIGIT_BIT tl1) as [[[d|] tl2]|]; cbn; [|done|done].
  destruct tl2; [by intros [= <- _]|]. destruct (p_mpint DIGIT_BIT _) as [[[p|] tl3]|]; cbn; [|done|done].
  destruct (p_mpint DIGIT_BIT tl3) as [[[q|] tl4]|]; cbn; [|done|done]. by intros [= <- _].
Qed.
Lemma dss_priv_valid l k tl : Forall is_byte l → p_dss_priv DIGIT_BIT l = Some (Some k, tl) → dss_ok DIGIT_BIT k.
Proof.
  intros Hl. unfold p_dss_priv, p_bind at 1. destruct (p_dss_pub DIGIT_BIT l) as [[[k0|] tl1]|] eqn:E; cbn [mbind option_bind]; [|done|done].
  apply dss_pub_valid in E as Hk; [|done..]. unfold p_num, p_bind, p_ret. destruct (p_mpint DIGIT_BIT tl1) as [[[d|] tl2]|]; cbn; [|done|done].
  by intros [= <- _].
Qed.
Lemma ecdsa_priv_valid c l k tl : c ∈ dropbear_ecc_curves sha256 sha384 sha512 → Forall is_byte l → p_ecdsa_priv DIGIT_BIT c l = Some (Some k, tl) →
  ecc_ok DIGIT_BIT sha256 sha384 sha512 c k.
Proof.
  intros Hc Hl. unfold p_ecdsa_priv, p_bind at 1. destruct (p_ecdsa_pub DIGIT_BIT c l) as [[[k0|] tl1]|] eqn:E; cbn [mbind option_bind]; [|done|done].
  eapply ecdsa_pub_valid in E as [Hk _]; [|done..]. unfold p_num, p_bind, p_ret. destruct (p_mpint DIGIT_BIT tl1) as [[[d|] tl2]|]; cbn; [|done|done].
  by intros [= <- _].
Qed.
Lemma priv_valid key type l k t tl : Forall is_byte l → p_priv key type l = Some ((true, k, t), tl) → keyok (only_key k t) t.
Proof.
  intros Hl. unfold p_priv_key, p_get_key. destruct (p_string l) as [[id tl1]|] eqn:E; [|done]. cbn [mbind option_bind]. apply p_string_inv in E as [-> _]; [|done].
  apply Forall_app in Hl as [_ Hl]. destruct (_ && _); [done|]. generalize (signkey_type_from_name id). intros kt.
  destruct (Z.eqb_spec kt DROPBEAR_SIGNKEY_DSS) as [Et|_].
  { rewrite Et. unfold p_bind. destruct (p_dss_priv DIGIT_BIT tl1) as [[[ko|] tl2]|] eqn:E; cbn; [|done|done]. intros [= <- <- _]. left. split; [done|].
    exists ko. split; [done|]. by eapply dss_priv_valid. }
  destruct (Z.eqb_spec kt DROPBEAR_SIGNKEY_RSA) as [Et|_].
  { rewrite Et. unfold p_bind. destruct (p_rsa_priv DIGIT_BIT tl1) as [[[ko|] tl2]|] eqn:E; cbn; [|done|done]. intros [= <- <- _]. right. left. split; [done|].
    exists ko. split; [done|]. by eapply rsa_priv_valid. }
  destruct (curve_of_type sha256 sha384 sha512 kt) as [c|] eqn:Ec; [|done].
  destruct (curve_type_facts sha256 sha384 sha512 _ _ Ec) as (_ & Hc & _ & Nd & Nr & Hs).
  unfold p_bind. destruct (p_ecdsa_priv DIGIT_BIT c tl1) as [[[ko|] tl2]|] eqn:E; cbn; [|done|done]. intros [= <- <- _]. right. right. exists c, ko.
  split; [done|]. unfold only_key. rewrite Nd, Nr, Hs. split; [done|]. by eapply ecdsa_priv_valid.
Qed.
(** Reading a key of a known type keeps the others. *)
Lemma priv_into key l k t tl : is_type t = true → p_priv new_sign_key DROPBEAR_SIGNKEY_ANY l = Some ((true, k, t), tl) →
  p_priv key t l = Some ((true, put_key k t key, t), tl).
Proof.
  intros Ht. unfold p_priv_key, p_get_key. destruct (p_string l) as [[id tl1]|]; [|done]. cbn [mbind option_bind]. rewrite Z.eqb_refl. cbn [negb andb].
  generalize (signkey_type_from_name id). intros kt.
  assert (Hguard : kt = t → negb (t =? DROPBEAR_SIGNKEY_ANY) && negb (t =? kt) = false) by (intros ->; by rewrite Z.eqb_refl, andb_false_r).
  destruct (Z.eqb_spec kt DROPBEAR_SIGNKEY_DSS) as [Et|_].
  { rewrite Et in *. unfold p_bind. destruct (p_dss_priv DIGIT_BIT tl1) as [[[ko|] tl2]|] eqn:E; cbn; [|done|done]. intros [= <- <- <-]. done. }
  destruct (Z.eqb_spec kt DROPBEAR_SIGNKEY_RSA) as [Et|_].
  { rewrite Et in *. unfold p_bind. destruct (p_rsa_priv DIGIT_BIT tl1) as [[[ko|] tl2]|] eqn:E; cbn; [|done|done]. intros [= <- <- <-]. done. }
  destruct (curve_of_type sha256 sha384 sha512 kt) as [c|] eqn:Ec; [|done]. destruct (curve_type_facts sha256 sha384 sha512 _ _ Ec) as (_ & _ & _ & Nd & Nr & Hs).
  unfold p_bind. destruct (p_ecdsa_priv DIGIT_BIT c tl1) as [[[ko|] tl2]|] eqn:E; cbn; [|done|done]. intros [= <- <- <-]. rewrite Hguard by done.
  unfold put_key. by rewrite Nd, Nr, Hs.
Qed.
Lemma has_put_key k t key : is_type t = true → has_key (put_key k t key) t = has_key k t.
Proof. intros Ht. by each_type Ht. Qed.
(** Writing the public part of a key that is there. *)
Lemma putpub_only key t : is_type t = true → putpub key t = putpub (only_key key t) t.
Proof. intros Ht. by each_type Ht. Qed.
Lemma putpub_writer key t : is_type t = true → keyok (only_key key t) t → ∃ bs, Writer (putpub key t) (str bs).
Proof.
  intros Ht Hk. rewrite putpub_only by done. destruct Hk as [[-> (k & -> & Hk)]|[[-> (k & -> & Hk)]|(c & k & Hc & -> & Hk)]]; eexists.
  - by apply dss_roundtrips.
  - by apply rsa_roundtrips.
  - by eapply ecdsa_roundtrips.
Qed.

(** ** Writing a file *)
Definition good_wr (w : wr) : Prop := match w with WrSome n => 0 < n | WrIntr => True | WrFail => False end.
Lemma writefile_loop_ok E ws b : buf_wf b → ewp E (writefile_loop ws) (λ r _, (r.1 = true → r.2 = buf_rest b) ∧ Forall is_byte r.2 ∧ (Forall good_wr ws → r.1 = true)) b.
Proof.
  revert b. induction ws as [|w ws IH]; intros b Hb; cbn [writefile_loop]; (ewp_step; ewp_step; destruct (Z.eqb_spec (buf_pos b) (buf_len b)) as [Ee|Ee];
    [ewp_step; split_and!; [|done|done]; intros _; unfold buf_rest; by rewrite Ee, Z.sub_diag|]); set (n := u32 (buf_len b - buf_pos b)).
  all: assert (Hn : n = buf_len b - buf_pos b) by (unfold n; apply u32_small; buf_facts; lia); clearbody n; subst n.
  all: assert (Hp : buf_getptr (buf_len b - buf_pos b) b = Ok (buf_pos b, b)) by
    (rewrite buf_getptr_eq by (done || (buf_facts; lia)); by rewrite (proj2 (Z.leb_le _ _)) by lia).
  all: assert (Hl : buf_load (buf_pos b) (buf_len b - buf_pos b) b = Ok (buf_rest b, b)) by (rewrite buf_load_eq by (done || (buf_facts; lia)); done).
  all: ewp_step; eapply ewp_ok; [exact Hp|]; ewp_step; eapply ewp_ok; [exact Hl|].
  - ewp_step. rewrite i32_small by (buf_facts; lia). eapply ewp_ok; [rewrite buf_incrpos_eq by (done || (buf_facts; lia)); rewrite (proj2 (andb_true_iff _ _)) by (buf_facts; split; lia); done|].
    ewp_step. split_and!; [done|by apply buf_rest_bytes|done].
  - destruct w as [k| |].
    + set (len := Z.min k (buf_len b - buf_pos b)). destruct (Z.leb_spec len 0) as [Hle|Hgt].
      { ewp_step. split_and!; [done|done|]. intros Hg. apply Forall_cons in Hg as [Hg _]. cbn in Hg. unfold len in Hle. buf_facts. lia. }
      ewp_step. rewrite i32_small by (unfold len; buf_facts; lia).
      eapply ewp_ok; [rewrite buf_incrpos_eq by (done || (unfold len; buf_facts; lia)); rewrite (proj2 (andb_true_iff _ _)) by (unfold len; buf_facts; split; lia); done|].
      fold (buf_advance b len). assert (Hw : buf_wf (buf_advance b len)) by (apply buf_wf_advance; [done|unfold len; buf_facts; lia..]).
      ewp_step. eapply ewp_mono; [by apply IH|]. intros [ok bs] b' (H1 & H2 & H3). ewp_step. cbn [fst snd] in *. split_and!.
      * intros ->. rewrite H1 by done. rewrite buf_rest_advance by (done || (unfold len; buf_facts; lia)). by rewrite take_drop.
      * apply Forall_app_2; [apply Forall_take; by apply buf_rest_bytes|done].
      * intros Hg. apply H3. by apply Forall_cons in Hg as [_ ?].
    + eapply ewp_mono; [by apply IH|]. intros r b' (H1 & H2 & H3). split_and!; [done|done|]. intros Hg. apply H3. by apply Forall_cons in Hg as [_ ?].
    + ewp_step. split_and!; [done|done|]. intros Hg. by apply Forall_cons in Hg as [? _].
Qed.
Lemma fs_ok_insert fn bs s : fs_ok s → Forall is_byte bs → fs_ok (set_hk_fs (<[fn := bs]> (hk_fs s)) s).
Proof. intros Hs Hb. unfold fs_ok. cbn. by apply map_Forall_insert_2. Qed.
Lemma fs_ok_delete fn s : fs_ok s → fs_ok (set_hk_fs (delete fn (hk_fs s)) s).
Proof. intros Hs. unfold fs_ok. cbn. by apply map_Forall_delete. Qed.
Lemma buf_writefile_ok E b fn s : buf_wf b → fs_ok s →
  ewp E (buf_writefile open_ok writes b fn) (λ ok s', fs_ok s' ∧ hk_key s' = hk_key s ∧ hk_algos s' = hk_algos s ∧
    (ok = true → hk_fs s' = <[fn := buf_rest b]> (hk_fs s)) ∧ (hk_fs s !! fn = None → open_ok fn = true → Forall good_wr writes → ok = true)) s.
Proof.
  intros Hb Hs. unfold buf_writefile. ewp_step. ewp_step. destruct (some (hk_fs s !! fn) || negb (open_ok fn)) eqn:Eo.
  { ewp_step. split_and!; try done. intros En Ho. rewrite En, Ho in Eo. done. }
  ewp_step. apply ewp_lift. pose proof (writefile_loop_ok False writes b Hb) as Hw. unfold ewp in Hw.
  destruct (writefile_loop writes b) as [[[ok bs] b']| |]; [|done..]. destruct Hw as (H1 & H2 & H3). cbn [fst snd] in *.
  ewp_step. ewp_step. ewp_step. split_and!; [by apply fs_ok_insert|done|done| |].
  - intros ->. cbn. by rewrite H1.
  - intros _ _ Hg. by apply H3.
Qed.

(** ** Making a key *)

(** A key that can be stored and read again. *)
Definition gen_ok (key : sign_key) (t : Z) : Prop := privok key t ∧ zlen (blob key t) ≤ MAX_PRIVKEY_SIZE.
(** What is asked of the making of numbers, for the sizes that are used. *)
Class KeyGenLaws : Prop := {
  gen_rsa_law : owp (λ k, gen_ok (set_rsakey (Some k) new_sign_key) DROPBEAR_SIGNKEY_RSA) (gen_rsa_priv_key DROPBEAR_DEFAULT_RSA_SIZE);
  gen_dss_law : owp (λ k, gen_ok (set_dsskey (Some k) new_sign_key) DROPBEAR_SIGNKEY_DSS) (gen_dss_priv_key 1024);
  gen_ecdsa_law t dp bits : (t, dp, bits) ∈ [(DROPBEAR_SIGNKEY_ECDSA_NISTP256, ecc_256, 256); (DROPBEAR_SIGNKEY_ECDSA_NISTP384, ecc_384, 384); (DROPBEAR_SIGNKEY_ECDSA_NISTP521, ecc_521, 521)] →
    owp (λ k, ecc_dp k = dp ∧ gen_ok (set_ecc_key t (Some k) new_sign_key) t) (gen_ecdsa_priv_key bits)
}.
Context `{!KeyGenLaws}.
Lemma curve_signkey_type k : ecc_dp k = ecc_256 ∨ ecc_dp k = ecc_384 ∨ ecc_dp k = ecc_521 →
  ecdsa_signkey_type k = if dp_size (ecc_dp k) =? 32 then DROPBEAR_SIGNKEY_ECDSA_NISTP256 else if dp_size (ecc_dp k) =? 48 then DROPBEAR_SIGNKEY_ECDSA_NISTP384 else DROPBEAR_SIGNKEY_ECDSA_NISTP521.
Proof.
  intros Hdp. unfold ecdsa_signkey_type. destruct Hdp as [->|[->| ->]]; repeat first [rewrite bool_decide_eq_true_2 by reflexivity|
    rewrite bool_decide_eq_false_2 by (let E := fresh in intros E; apply (f_equal dp_size) in E; discriminate E)]; reflexivity.
Qed.
Definition default_key (t : Z) : outcome (sign_key * Z) := generate_key t (signkey_generate_get_bits t 0).
Lemma default_key_ok t : is_type t = true → owp (λ r, r.2 = t ∧ gen_ok r.1 t) (default_key t).
Proof.
  intros Ht. unfold default_key. each_type Ht; apply owp_bind.
  - eapply owp_mono; [apply gen_rsa_law|]. done.
  - eapply owp_mono; [apply gen_dss_law|]. done.
  - eapply owp_mono; [apply (gen_ecdsa_law DROPBEAR_SIGNKEY_ECDSA_NISTP256 ecc_256 256); rewrite !elem_of_cons; auto|]. intros k [Hdp Hk]. by rewrite (curve_signkey_type k), Hdp by (rewrite Hdp; auto).
  - eapply owp_mono; [apply (gen_ecdsa_law DROPBEAR_SIGNKEY_ECDSA_NISTP384 ecc_384 384); rewrite !elem_of_cons; auto|]. intros k [Hdp Hk]. by rewrite (curve_signkey_type k), Hdp by (rewrite Hdp; auto).
  - eapply owp_mono; [apply (gen_ecdsa_law DROPBEAR_SIGNKEY_ECDSA_NISTP521 ecc_521 521); rewrite !elem_of_cons; auto|]. intros k [Hdp Hk]. by rewrite (curve_signkey_type k), Hdp by (rewrite Hdp; auto).
Qed.
(** The file system lets a file be written and take its place. *)
Definition fs_works (fn : list Z) (s : hkstate) : Prop :=
  hk_fs s !! temp_name pid fn = None ∧ open_ok (temp_name pid fn) = true ∧ Forall good_wr writes ∧ (link_works = true ∨ rename_works = true).
Lemma temp_name_ne fn : temp_name pid fn ≠ fn.
Proof.
  unfold temp_name. intros E. apply (f_equal length) in E. rewrite !length_app in E. cbn in E. lia.
Qed.
Lemma move_file_ok E tmp fn s : tmp ≠ fn → fs_ok s → is_Some (hk_fs s !! tmp) →
  ewp E (move_file link_works rename_works tmp fn true) (λ ok s', fs_ok s' ∧ hk_key s' = hk_key s ∧ hk_algos s' = hk_algos s ∧
    (link_works = true ∨ rename_works = true → ok = true) ∧ (ok = true → hk_fs s !! fn = None → hk_fs s' !! fn = hk_fs s !! tmp)) s.
Proof.
  intros Hne Hs [bs Hbs]. assert (Hb : Forall is_byte bs) by (by apply (Hs tmp)). unfold move_file. ewp_step. ewp_step. rewrite Hbs. cbn [default from_option id].
  destruct (hk_fs s !! fn) as [old|] eqn:Ef; cbn [some negb].
  - rewrite andb_false_r. destruct link_works; cbn [andb].
    + ewp_step. split_and!; done.
    + destruct rename_works; [ewp_step; ewp_step; ewp_step|ewp_step]; (split_and!; try done).
      * unfold fs_ok. cbn. apply map_Forall_insert_2; [done|by apply map_Forall_delete].
      * intros [?|?]; done.
  - rewrite andb_true_r, andb_false_r. destruct link_works; [|destruct rename_works].
    + ewp_step. ewp_step. ewp_step. split_and!; [by apply fs_ok_insert|done|done|done|]. intros _ _. cbn. by rewrite lookup_insert_eq.
    + cbn [andb]. ewp_step. ewp_step. ewp_step. split_and!; [|done|done|done|].
      * unfold fs_ok. cbn. apply map_Forall_insert_2; [done|by apply map_Forall_delete].
      * intros _ _. cbn. by rewrite lookup_insert_eq.
    + cbn [andb]. ewp_step. split_and!; try done. intros [?|?]; done.
Qed.
Lemma signkey_generate_ok t fn s : fs_ok s → is_type t = true →
  ewp (∃ e, default_key t = Exit e) (generate t 0 fn true) (λ ok s', fs_ok s' ∧ hk_key s' = hk_key s ∧ hk_algos s' = hk_algos s ∧
    (fs_works fn s → ok = true ∧ (hk_fs s !! fn = None → ∃ key, default_key t = Ok (key, t) ∧ hk_fs s' !! fn = Some (blob key t)))) s.
Proof.
  intros Hs Ht. unfold signkey_generate. fold (default_key t). ewp_step. apply ewp_lift. pose proof (default_key_ok t Ht) as Hk.
  destruct (default_key t) as [[key t']|e|]; [|by exists e|done]. destruct Hk as [Et [Hpk Hlen]]. cbn in Et, Hpk, Hlen. subst t'.
  destruct (buf_new_ok MAX_PRIVKEY_SIZE) as (b & Eb & Hb & Hl & Hp & Hsz); [unfold MAX_PRIVKEY_SIZE, BUF_MAX_SIZE; lia|].
  rewrite Eb. ewp_step. apply ewp_lift. destruct (priv_key_roundtrips DIGIT_BIT HDB sha256 sha384 sha512 key t Hpk) as [Hw _].
  pose proof (writer_appends (Writer := Hw) b Hb ltac:(lia)) as Ha. rewrite (proj2 (Z.leb_le _ _)) in Ha by lia.
  destruct (rewind_ok b (blob key t) Hb Hl) as (Hb' & Hb1 & Hrest & _); [apply Hw|lia|].
  assert (Eex : exec (putpriv key t;; buf_setpos 0) b = Ok (set_pos 0 (buf_append b (blob key t)))).
  { rewrite <-(setpos_start _ Hb'). unfold exec. by erewrite bind_ok by exact Ha. }
  rewrite Eex. ewp_step. apply ewp_lift. set (b1 := set_pos 0 _) in *. ewp_step.
  eapply ewp_mono; [by apply buf_writefile_ok|]. intros ok s1 (Hs1 & Hk1 & Ha1 & Hf1 & Hg1). rewrite Hrest in Hf1. ewp_step.
  pose proof (temp_name_ne fn) as Hne. destruct ok.
  - specialize (Hf1 eq_refl). eapply ewp_mono; [apply move_file_ok; [done|done|rewrite Hf1, lookup_insert_eq; by eexists]|].
    intros ok s2 (Hs2 & Hk2 & Ha2 & Hok & Hf2). ewp_step. ewp_step. ewp_step. split_and!; [by apply fs_ok_delete|cbn; congruence|cbn; congruence|].
    intros (_ & _ & _ & Hlr). specialize (Hok Hlr). split; [done|]. intros Hnone. exists key. split; [done|]. cbn. rewrite lookup_delete_ne by done.
    rewrite Hf2; [by rewrite Hf1, lookup_insert_eq|done|]. by rewrite Hf1, lookup_insert_ne.
  - ewp_step. ewp_step. ewp_step. ewp_step. split_and!; [by apply fs_ok_delete|done|done|]. intros (Hn & Ho & Hgw & _). specialize (Hg1 Hn Ho Hgw). done.
Qed.

(** ** A key when it is needed *)
Lemma read_into_ok fn t s : fs_ok s → is_type t = true →
  wp (readinto fn t) (λ ok s', hk_fs s' = hk_fs s ∧ hk_algos s' = hk_algos s ∧ (∀ t', t' ≠ t → has_key (hk_key s') t' = has_key (hk_key s) t') ∧
    (ok = true → has_key (hk_key s') t = true ∧ keyok (only_key (hk_key s') t) t)) s.
Proof.
  intros Hs Ht. unfold read_into. do 3 wp_step. apply wp_lift.
  pose proof (readhostkey_eq DIGIT_BIT HDB sha256 sha384 sha512 _ (hk_key s) t (open_file_ok reads Hreads s fn Hs)) as Hr.
  destruct (_ ≫= file_bytes _) as [bs|]; [|rewrite Hr; wp_step; wp_step; wp_step; split_and!; done]. destruct Hr as [Hbs Hr].
  destruct (p_priv (hk_key s) t bs) as [[[[ok k] t'] tl]|] eqn:Ep; [|by destruct Hr as [e ->]]. rewrite Hr. wp_step. wp_step. wp_step.
  pose proof Ep as Eg. apply get_key_has in Eg as (H1 & H2 & H3). rewrite H2 in * by (by each_type Ht). split_and!; [done|done|done|].
  cbn [fst snd]. intros ->. split; [by apply H1|]. by eapply priv_valid.
Qed.
Lemma log_hostkey_ok t s bs : Writer (putpub (hk_key s) t) (str bs) →
  ewp (MAX_PUBKEY_SIZE < 4 + zlen bs) (log_hostkey DIGIT_BIT sha256 sha384 sha512 t) (λ _ s', s' = s) s.
Proof.
  intros Hw. unfold log_hostkey. ewp_step. ewp_step. destruct (buf_new_ok MAX_PUBKEY_SIZE) as (b & Eb & Hb & Hl & Hp & Hsz); [unfold MAX_PUBKEY_SIZE, BUF_MAX_SIZE; lia|].
  rewrite Eb. ewp_step. apply ewp_lift. pose proof (writer_appends (Writer := Hw) b Hb ltac:(lia)) as Ha.
  assert (Hls : zlen (str bs) = 4 + zlen bs) by (unfold str; rewrite length_app; cbn; lia). rewrite Hls, Hl, Hsz in Ha.
  ewp_step. apply ewp_lift. unfold exec. destruct (Z.leb_spec (0 + (4 + zlen bs)) MAX_PUBKEY_SIZE) as [Hfit|Hfit].
  - erewrite bind_ok by exact Ha. assert (Hb' : buf_wf (buf_append b (str bs))) by (apply buf_wf_append; [done|apply Hw|lia]).
    assert (Hl1 : buf_len (buf_append b (str bs)) = 4 + zlen bs) by (cbn [buf_append buf_len]; lia).
    assert (Esp : buf_setpos 4 (buf_append b (str bs)) = Ok (tt, set_pos 4 (buf_append b (str bs)))).
    { unfold buf_setpos, mbind, M_bind, get. rewrite Hl1. destruct (Z.gtb_spec 4 (4 + zlen bs)); [lia|done]. }
    rewrite Esp. set (b1 := set_pos 4 _). assert (Hb1 : buf_wf b1) by (apply buf_wf_set_pos; [done|lia]).
    assert (Hlb : buf_len b1 = 4 + zlen bs) by exact Hl1. cbn [fmap outcome_fmap obind snd]. change (buf_pos b1) with 4.
    ewp_step. apply ewp_lift. rewrite u32_small by (unfold U32, MAX_PUBKEY_SIZE in *; lia). rewrite buf_getptr_eq by (done || (unfold U32, MAX_PUBKEY_SIZE in *; lia)).
    change (buf_pos b1) with 4. rewrite (proj2 (Z.leb_le _ _)) by lia. by ewp_step.
  - destruct Ha as [e Ha]. erewrite bind_exit by exact Ha. cbn [fmap outcome_fmap obind]. lia.
Qed.
(** Whatever the files hold and whatever fails, [svr_ensure_hostkey] performs no
    undefined access, and when it returns there is a key of that type whose
    public part is sound; the other keys, and the algorithms, stay as they
    were. *)
Lemma ensure_ok t s : fs_ok s →
  wp (ensure t) (λ _ s', fs_ok s' ∧ has_key (hk_key s') t = true ∧ hk_algos s' = hk_algos s ∧ (∀ t', t' ≠ t → has_key (hk_key s') t' = has_key (hk_key s) t')) s.
Proof.
  intros Hs. unfold svr_ensure_hostkey. wp_step. wp_step. destruct (has_key (hk_key s) t) eqn:Eh; [by wp_step|].
  destruct (is_type t) eqn:Ht.
  2: { unfold key_filename. unfold is_type in Ht. apply orb_false_iff in Ht as [Ht ->]. apply orb_false_iff in Ht as [-> ->]. by wp_step. }
  assert (∃ fn, key_filename conf_path t = Some fn) as [fn ->] by (each_type Ht; by eexists). wp_step.
  eapply wp_mono; [by apply read_into_ok|]. intros ok s1 (Hf1 & Ha1 & Ho1 & Hk1). destruct ok; [wp_step; split_and!; [unfold fs_ok; by rewrite Hf1|by apply Hk1|done|done]|].
  assert (Hs1 : fs_ok s1) by (unfold fs_ok; by rewrite Hf1). wp_step.
  eapply wp_mono; [apply (ewp_wp (∃ e, default_key t = Exit e)); by apply signkey_generate_ok|]. intros ok s2 (Hs2 & Hk2 & Ha2 & _). destruct ok; cbn [negb]; [|wp_step].
  wp_step. eapply wp_mono; [by apply read_into_ok|]. intros ok s3 (Hf3 & Ha3 & Ho3 & Hk3). destruct ok; [|wp_step]. destruct (Hk3 eq_refl) as [Hh Hok].
  destruct (putpub_writer (hk_key s3) t Ht Hok) as [bs Hw]. eapply wp_mono; [eapply ewp_wp, log_hostkey_ok; exact Hw|]. intros [] s4 ->.
  split_and!; [unfold fs_ok; by rewrite Hf3|done|congruence|]. intros t' Hne. rewrite Ho3, Hk2, Ho1 by done. done.
Qed.

(** The file arrives in pieces, and as it is. *)
Definition reads_well : Prop := ∀ bs, ∃ pieces, reads bs = RdData <$> pieces ∧ Forall (λ p, p ≠ []) pieces ∧ concat pieces = bs.
Lemma readhostkey_blob key t k : reads_well → is_type t = true → gen_ok k t → readhk (Some (reads (blob k t))) key t = Ok (true, put_key k t key, t) ∧
  readhk (Some (reads (blob k t))) new_sign_key DROPBEAR_SIGNKEY_ANY = Ok (true, k, t).
Proof.
  intros Hrw Ht [Hk Hl]. destruct (priv_key_roundtrips DIGIT_BIT HDB sha256 sha384 sha512 k t Hk) as [Hw Hp].
  assert (Hb : Forall is_byte (blob k t)) by apply Hw. assert (Hf : file_bytes (Z.to_nat MAX_PRIVKEY_SIZE) (reads (blob k t)) = Some (blob k t)).
  { destruct (Hrw (blob k t)) as (pieces & -> & Hne & Hc). rewrite file_bytes_pieces by done. by rewrite Hc, take_ge by lia. }
  split.
  - pose proof (readhostkey_eq DIGIT_BIT HDB sha256 sha384 sha512 (Some (reads (blob k t))) key t (Hreads _ Hb)) as Hr.
    cbn [mbind option_bind] in Hr. rewrite Hf in Hr. destruct Hr as [_ Hr]. by rewrite (priv_into key _ _ _ _ Ht Hp) in Hr.
  - pose proof (readhostkey_eq DIGIT_BIT HDB sha256 sha384 sha512 (Some (reads (blob k t))) new_sign_key DROPBEAR_SIGNKEY_ANY (Hreads _ Hb)) as Hr.
    cbn [mbind option_bind] in Hr. rewrite Hf in Hr. destruct Hr as [_ Hr]. by rewrite Hp in Hr.
Qed.
(** The public part is shorter than the file. *)
Lemma enc_five a : mp_small DIGIT_BIT a → 5 ≤ zlen (enc_mpint DIGIT_BIT a).
Proof.
  intros Ha. rewrite enc_length_eq by done. pose proof (mp_count_bits_nonneg DIGIT_BIT HDB a ltac:(apply Ha)).
  assert (0 ≤ mp_count_bits DIGIT_BIT a / 8) by (apply Z.div_pos; lia). lia.
Qed.
Lemma putpub_made k t key : is_type t = true → privok k t → ∃ bs, Writer (putpub (put_key k t key) t) (str bs) ∧ zlen bs + 5 ≤ zlen (blob k t).
Proof.
  intros Ht (Hk & Hd & Hr & He). rewrite putpub_only by done.
  assert (Ho : only_key (put_key k t key) t = only_key k t) by (by each_type Ht). rewrite Ho. clear Ho.
  destruct Hk as [[-> (x & -> & Hk)]|[[-> (x & -> & Hk)]|(c & x & Hc & -> & Hk)]]; eexists.
  - split; [by apply dss_roundtrips|]. destruct (Hd x eq_refl) as (y & Ey & Hy). change (blob _ _) with (dss_priv_bytes DIGIT_BIT x). unfold dss_priv_bytes.
    rewrite Ey, length_app. change (default mp_zero (Some y)) with y. pose proof (enc_five y Hy). lia.
  - split; [by apply rsa_roundtrips|]. destruct (Hr x eq_refl) as (y & Ey & Hy & _). change (blob _ _) with (rsa_priv_bytes DIGIT_BIT x). unfold rsa_priv_bytes.
    rewrite Ey, (length_app _ (_ ++ _)), (length_app (enc_mpint _ _)). change (default mp_zero (Some y)) with y. pose proof (enc_five y Hy). lia.
  - destruct (curve_type_facts sha256 sha384 sha512 _ _ Hc) as (_ & _ & _ & Nd & Nr & Hs). unfold only_key. rewrite Nd, Nr, Hs in *.
    split; [by eapply ecdsa_roundtrips|]. specialize (He x eq_refl).
    assert (Hbl : blob (set_ecc_key t (Some x) new_sign_key) t = ecdsa_priv_bytes DIGIT_BIT c x) by (unfold priv_bytes; by rewrite Nd, Nr, Hc, Hs).
    rewrite Hbl. unfold ecdsa_priv_bytes. rewrite length_app. pose proof (enc_five (ecc_k x) He). lia.
Qed.
Lemma read_into_made fn t k s : reads_well → is_type t = true → gen_ok k t → hk_fs s !! fn = Some (blob k t) →
  readinto fn t s = Ok (true, set_hk_key (put_key k t (hk_key s)) s).
Proof.
  intros Hrw Ht Hk Hfs. unfold read_into, open_file. erewrite bind_ok by done. rewrite Hfs. cbn [fmap option_fmap option_map].
  destruct (readhostkey_blob (hk_key s) t k Hrw Ht Hk) as [E _]. rewrite E. done.
Qed.
Lemma load_made fn t k s : reads_well → is_type t = true → gen_ok k t → hk_fs s !! fn = Some (blob k t) → has_key (hk_key s) t = false →
  loadhostkey DIGIT_BIT sha256 sha384 sha512 reads fn false s = Ok (tt, set_hk_key (put_key k t (hk_key s)) s).
Proof.
  intros Hrw Ht Hk Hfs Hno. unfold loadhostkey, open_file. erewrite bind_ok by done. rewrite Hfs. cbn [fmap option_fmap option_map].
  destruct (readhostkey_blob (hk_key s) t k Hrw Ht Hk) as [_ E]. rewrite E. erewrite bind_ok by done.
  revert Hno. each_type Ht; cbn; [destruct (rsakey _)|destruct (dsskey _)|destruct (ecckey256 _)|destruct (ecckey384 _)|destruct (ecckey521 _)]; done.
Qed.
Lemma filename_type t fn : key_filename conf_path t = Some fn → is_type t = true.
Proof. unfold key_filename, is_type. by destruct (t =? DROPBEAR_SIGNKEY_RSA), (t =? DROPBEAR_SIGNKEY_DSS), (signkey_is_ecdsa t). Qed.
Lemma ensure_makes t fn key s : fs_ok s → has_key (hk_key s) t = false → key_filename conf_path t = Some fn → hk_fs s !! fn = None → fs_works fn s → reads_well →
  default_key t = Ok (key, t) →
  ewp False (ensure t) (λ _ s', hk_key s' = put_key key t (hk_key s) ∧ hk_fs s' !! fn = Some (blob key t)) s.
Proof.
  intros Hs Hno Hfn Hnone Hworks Hrw Hkey. pose proof (filename_type t fn Hfn) as Ht.
  assert (Hgen : gen_ok key t) by (pose proof (default_key_ok t Ht) as Hk; rewrite Hkey in Hk; apply Hk).
  unfold svr_ensure_hostkey. ewp_step. ewp_step. rewrite Hno, Hfn. ewp_step.
  assert (Hread : readinto fn t s = Ok (false, s)). { unfold read_into, open_file. erewrite bind_ok by done. rewrite Hnone. by destruct s. }
  eapply ewp_ok; [exact Hread|]. cbv beta iota. ewp_step.
  eapply ewp_mono; [eapply ewp_weaken; [|by apply (signkey_generate_ok t fn s)]; intros [e E]; congruence|].
  intros ok s1 (Hs1 & Hk1 & _ & Hmade). destruct (Hmade Hworks) as [-> Hmade']. destruct (Hmade' Hnone) as (key' & E' & Hf1).
  rewrite Hkey in E'. injection E' as <-. cbn [negb]. ewp_step. eapply ewp_ok; [by apply (read_into_made fn t key s1)|]. cbv beta iota.
  destruct (putpub_made key t (hk_key s1) Ht (proj1 Hgen)) as (bs & Hw & Hl). destruct Hgen as [_ Hsz].
  eapply ewp_mono; [eapply ewp_weaken; [|by eapply (log_hostkey_ok t (set_hk_key (put_key key t (hk_key s1)) s1))]; unfold MAX_PUBKEY_SIZE, MAX_PRIVKEY_SIZE in *; lia|].
  intros [] s2 ->. cbn. by rewrite Hk1.
Qed.

(** C34. A host key on demand.  Whatever the key files hold and whatever goes
    wrong, [svr_ensure_hostkey] performs no undefined access, and if it returns
    there is a key of the type that was negotiated; the other keys and the
    algorithms stay.  And if there is no file yet, a key can be made and the
    file system works, it does return: the key that was made is the host key,
    the file holds it, and a later start of the server loads that same key from
    it. *)
Theorem hostkey_on_demand t s : fs_ok s →
  wp (ensure t) (λ _ s', fs_ok s' ∧ has_key (hk_key s') t = true ∧ hk_algos s' = hk_algos s ∧ (∀ t', t' ≠ t → has_key (hk_key s') t' = has_key (hk_key s) t')) s ∧
  (∀ fn key, has_key (hk_key s) t = false → key_filename conf_path t = Some fn → hk_fs s !! fn = None → fs_works fn s → reads_well → default_key t = Ok (key, t) →
    ∃ s', ensure t s = Ok (tt, s') ∧ hk_key s' = put_key key t (hk_key s) ∧ hk_fs s' !! fn = Some (blob key t) ∧
      ∀ s0, hk_fs s0 = hk_fs s' → has_key (hk_key s0) t = false →
        loadhostkey DIGIT_BIT sha256 sha384 sha512 reads fn false s0 = Ok (tt, set_hk_key (put_key key t (hk_key s0)) s0)).
Proof.
  intros Hs. split; [by apply ensure_ok|]. intros fn key Hno Hfn Hnone Hworks Hrw Hkey.
  pose proof (ensure_makes t fn key s Hs Hno Hfn Hnone Hworks Hrw Hkey) as Hm. unfold ewp in Hm. destruct (ensure t s) as [[[] s']| |]; [|done..].
  destruct Hm as [Hk Hf]. exists s'. split_and!; [done|done|done|]. intros s0 Hs0 Hno0.
  pose proof (filename_type t fn Hfn) as Ht.
  apply load_made; try done; [|by rewrite Hs0]. pose proof (default_key_ok t Ht) as Hd. rewrite Hkey in Hd. apply Hd.
Qed.
End gen.

(** ** An instance *)
#[local] Instance wit_gen : KeyGen := {| gen_rsa_priv_key _ := Ok wit_rsa; gen_dss_priv_key _ := Exit "no key"; gen_ecdsa_priv_key _ := Exit "no key" |}.
#[local] Instance wit_gen_laws : KeyGenLaws db hash20 hash20 hash20.
Proof. split; [|done|done]. split; [exact wit_priv_ok|]. apply Z.leb_le. vm_compute. reflexivity. Qed.
Lemma hostkey_on_demand_witness : let s := mkHk new_sign_key sshhostkey ∅ in
  ∃ s', svr_ensure_hostkey db hash20 hash20 hash20 one_read (λ _, true) [WrSome 100; WrIntr] false true 7 [] DROPBEAR_SIGNKEY_RSA s = Ok (tt, s') ∧
    hk_key s' = put_key wit_key DROPBEAR_SIGNKEY_RSA new_sign_key ∧ hk_fs s' !! RSA_PRIV_FILENAME [] = Some (priv_bytes db hash20 hash20 hash20 wit_key DROPBEAR_SIGNKEY_RSA).
Proof.
  intros s. destruct (hostkey_on_demand db db_ok hash20 hash20 hash20 one_read one_read_ok
    (λ _, true) [WrSome 100; WrIntr] false true 7 [] DROPBEAR_SIGNKEY_RSA s) as [_ Hd]; [by intros k x Hk|].
  destruct (Hd (RSA_PRIV_FILENAME []) wit_key) as (s' & E & Hk & Hf & _).
  - reflexivity.
  - reflexivity.
  - apply lookup_empty.
  - split_and!; [apply lookup_empty|reflexivity|by repeat constructor|by right].
  - intros [|x bs]; [by exists []|]. exists [x :: bs]. cbn [one_read fmap list_fmap concat]. rewrite app_nil_r. split_and!; [done|by repeat constructor|done].
  - reflexivity.
  - exists s'. split; [exact E|]. split; [exact Hk|exact Hf].
Defined.
