(* ===== verification/NumTheory.v ===== *)
(** * Powers modulo primes

    What RSA and DSS keys need of Fermat's little theorem: exponents that undo
    each other, and elements of order [q]. *)
From Stdlib Require Import Zdivisibility ZmodInv.
From S2P Require Import Prelude Buffer Mpint BufferProps BigNum.

Lemma fermat_unit p a : Z.prime p → ¬ (p | a) → cong p (a ^ (p - 1)) 1.
Proof.
  intros Hp Hn. pose proof (Z.prime_ge_2 p Hp). unfold cong. rewrite (Z.mod_small 1) by lia. rewrite Z.sub_1_r. apply Z.fermat_nz; [done|].
  intros E. apply Hn, Z.mod_divide; [lia|done].
Qed.
(** An exponent that is 1 modulo [p - 1] changes nothing. *)
Lemma pow_one_mod p a m : Z.prime p → 0 ≤ a → 0 ≤ m → cong p (a ^ (1 + (p - 1) * m)) a.
Proof.
  intros Hp Ha Hm. pose proof (Z.prime_ge_2 p Hp). rewrite Z.pow_add_r, Z.pow_1_r, Z.pow_mul_r by nia.
  destruct (Z.eq_dec (a mod p) 0) as [Hd|Hn].
  - unfold cong. rewrite Zmult_mod, Hd, Z.mul_0_l. by rewrite Z.mod_0_l by lia.
  - rewrite (cong_pow p _ 1 m Hm (fermat_unit p a Hp ltac:(rewrite <-Z.mod_divide by lia; done))), Z.pow_1_l by lia. apply eq_subrelation; [apply _|lia].
Qed.
Lemma cong_both p q a b : Z.prime p → Z.prime q → p ≠ q → cong p a b → cong q a b → cong (p * q) a b.
Proof.
  intros Hp Hq Hne Ha Hb. pose proof (Z.prime_ge_2 p Hp). pose proof (Z.prime_ge_2 q Hq). unfold cong in *. apply Z.cong_iff_0, Z.mod_divide in Ha, Hb; [|lia..].
  apply Z.cong_iff_0, Z.mod_divide; [nia|]. destruct Ha as [c Hc]. rewrite Hc in *. rewrite Z.mul_comm. apply Z.mul_divide_mono_r.
  apply (Z.gauss _ p); [by rewrite Z.mul_comm|]. apply Z.coprime_prime_l; [done|]. intros Hd. by apply Z.divide_prime_prime in Hd.
Qed.
(** RSA: exponents whose product is 1 modulo the least common multiple. *)
Lemma rsa_exponents p q e d x : Z.prime p → Z.prime q → p ≠ q → 0 ≤ e → 0 ≤ d → e * d mod Z.lcm (p - 1) (q - 1) = 1 → 0 ≤ x < p * q → x ^ (d * e) mod (p * q) = x.
Proof.
  intros Hp Hq Hne He Hd Hed Hx. pose proof (Z.prime_ge_2 p Hp). pose proof (Z.prime_ge_2 q Hq). set (l := Z.lcm (p - 1) (q - 1)) in *.
  assert (Hl : 0 < l). { pose proof (Z.lcm_nonneg (p - 1) (q - 1)). assert (l ≠ 0) by (unfold l; rewrite Z.lcm_eq_0; lia). lia. }
  assert (Hde : d * e = 1 + l * (e * d / l)) by (pose proof (Z.div_mod (e * d) l ltac:(lia)); lia).
  assert (Hq0 : 0 ≤ e * d / l) by (apply Z.div_pos; nia).
  assert (Hmod : ∀ r, Z.prime r → (r - 1 | l) → cong r (x ^ (d * e)) x).
  { intros r Hr [c Hc]. pose proof (Z.prime_ge_2 r Hr). rewrite Hde, Hc. replace (c * (r - 1) * (e * d / (c * (r - 1)))) with ((r - 1) * (c * (e * d / (c * (r - 1))))) by ring.
    apply pow_one_mod; [done|lia|]. rewrite <-Hc. assert (0 ≤ c) by nia. nia. }
  rewrite <-(Z.mod_small x (p * q)) at 2 by lia. apply (cong_both p q); [done|done|done| |]; apply Hmod; try done; [apply Z.divide_lcm_l|apply Z.divide_lcm_r].
Qed.
