(* ===== verification/GenKeys.v ===== *)
(** * Making keys ([genrsa.c], [gendss.c], [gen_ecdsa_priv_key] of [ecdsa.c])

    The loops that look for the numbers of a new key.  The random bytes are
    [draw i len] for the [i]-th call of [genrandom], and the state is the number
    of calls so far; a loop that is not done after [fuel] turns is cut off with
    [UB "fuel"], so a statement about every [fuel] is one about every number of
    turns.  The arithmetic of libtommath is the class [PrimeNum]; its tests for
    primes are probabilistic, and nothing is asked of them: where a statement
    needs primes it says so. *)
From Stdlib Require Import Zdivisibility ZmodInv.
From S2P Require Import Prelude Buffer Mpint BufferProps Algo BigNum NumTheory.
From S2P Require Import SignKey SignKeyProps SignKeyRound SignKeyWitness Jni RunOpts HostKeys HostKeysGen.

Definition RSA_E : Z := 65537.
Definition QSIZE : Z := 20.

(** ** Arithmetic of libtommath *)
Class PrimeNum := {
  mp_set_int : Z → option mp_int;
  mp_prime_next_prime : mp_int → Z → option mp_int;
  mp_prime_is_prime : mp_int → Z → option bool;
  mp_sub_d : mp_int → Z → option mp_int;
  mp_add_d : mp_int → Z → option mp_int;
  mp_mul_d : mp_int → Z → option mp_int;
  mp_sub : mp_int → mp_int → option mp_int;
  mp_mul : mp_int → mp_int → option mp_int;
  mp_div : mp_int → mp_int → option mp_int;
  mp_gcd : mp_int → mp_int → option mp_int;
  mp_lcm : mp_int → mp_int → option mp_int
}.
Class PrimeLaws (DIGIT_BIT : Z) `{!PrimeNum} : Prop := {
  set_int_law v : 0 ≤ v < 2 ^ 32 → mp_result DIGIT_BIT (mp_set_int v) v;
  (** The next prime is above the number, and below twice the number. *)
  next_prime_law a t : mp_nat DIGIT_BIT a → 1 < mp_val DIGIT_BIT a → ∃ v, mp_val DIGIT_BIT a < v < 2 * mp_val DIGIT_BIT a ∧ mp_result DIGIT_BIT (mp_prime_next_prime a t) v;
  is_prime_law a t : mp_nat DIGIT_BIT a → ∃ b, mp_prime_is_prime a t = Some b;
  sub_d_law a d : mp_nat DIGIT_BIT a → 0 ≤ d < 256 → d ≤ mp_val DIGIT_BIT a → mp_result DIGIT_BIT (mp_sub_d a d) (mp_val DIGIT_BIT a - d);
  add_d_law a d : mp_nat DIGIT_BIT a → 0 ≤ d < 256 → mp_result DIGIT_BIT (mp_add_d a d) (mp_val DIGIT_BIT a + d);
  mul_d_law a d : mp_nat DIGIT_BIT a → 0 ≤ d < 256 → mp_result DIGIT_BIT (mp_mul_d a d) (mp_val DIGIT_BIT a * d);
  sub_law a b : mp_nat DIGIT_BIT a → mp_nat DIGIT_BIT b → mp_val DIGIT_BIT b ≤ mp_val DIGIT_BIT a → mp_result DIGIT_BIT (mp_sub a b) (mp_val DIGIT_BIT a - mp_val DIGIT_BIT b);
  mul_law a b : mp_nat DIGIT_BIT a → mp_nat DIGIT_BIT b → mp_result DIGIT_BIT (mp_mul a b) (mp_val DIGIT_BIT a * mp_val DIGIT_BIT b);
  div_law a b : mp_nat DIGIT_BIT a → mp_nat DIGIT_BIT b → 0 < mp_val DIGIT_BIT b → mp_result DIGIT_BIT (mp_div a b) (mp_val DIGIT_BIT a / mp_val DIGIT_BIT b);
  gcd_law a b : mp_nat DIGIT_BIT a → mp_nat DIGIT_BIT b → mp_result DIGIT_BIT (mp_gcd a b) (Z.gcd (mp_val DIGIT_BIT a) (mp_val DIGIT_BIT b));
  lcm_law a b : mp_nat DIGIT_BIT a → mp_nat DIGIT_BIT b → mp_result DIGIT_BIT (mp_lcm a b) (Z.lcm (mp_val DIGIT_BIT a) (mp_val DIGIT_BIT b))
}.
(** What [ecc_make_key_ex] promises: a point of the curve in affine form. *)
Class MakeKeyLaws (DIGIT_BIT : Z) `{!EccOps} : Prop := {
  make_key_point i dp k : dp ∈ [ecc_256; ecc_384; ecc_521] → ecc_make_key_ex i dp = Some k →
    let x := pt_x (ecc_pubkey k) in let y := pt_y (ecc_pubkey k) in
    ecc_dp k = dp ∧ mp_nat DIGIT_BIT x ∧ mp_nat DIGIT_BIT y ∧ 0 < mp_val DIGIT_BIT x < 256 ^ dp_size dp ∧ 0 < mp_val DIGIT_BIT y < 256 ^ dp_size dp ∧
    on_curve dp (mp_val DIGIT_BIT x) (mp_val DIGIT_BIT y) ∧ pt_z (ecc_pubkey k) = mp_one ∧
    mp_nat DIGIT_BIT (ecc_k k) ∧ mp_val DIGIT_BIT (ecc_k k) < dp_order dp
}.

Section generate.
Context (DIGIT_BIT : Z) `{!BigNum} `{!PrimeNum} `{!EccOps}.
Context (draw : nat → Z → list Z) (fuel : nat).
Abbreviation bytes_to_mp := (mp_read_unsigned_bin DIGIT_BIT).

Definition genrandom (len : Z) : M nat (list Z) := i ← get; put (S i);; mret (draw i len).
(** [buf[i] |= m]. *)
Definition or_byte (i m : Z) (buf : list Z) : outcome (list Z) :=
  match buf !! Z.to_nat i with Some c => Ok (<[Z.to_nat i := Z.lor c m]> buf) | None => UB "buf" end.

(** ** RSA ([genrsa.c]) *)
Abbreviation rsa_try := (crypt "RSA generation failed").
Fixpoint rsaprime_loop (turns : nat) (rsa_e : mp_int) (size_bytes : Z) : M nat (mp_int * mp_int) :=
  match turns with
  | O => undefined "fuel"
  | S turns =>
      buf ← genrandom size_bytes;
      buf ← lift (or_byte 0 0x80 buf);
      prime ← rsa_try (mp_prime_next_prime (bytes_to_mp buf) 8);
      primeminus ← rsa_try (mp_sub_d prime 1);
      temp_gcd ← rsa_try (mp_gcd primeminus rsa_e);
      match mp_cmp_d temp_gcd 1 with
      | Eq => mret (prime, primeminus)
      | _ => rsaprime_loop turns rsa_e size_bytes
      end
  end.
Definition getrsaprime : mp_int → Z → M nat (mp_int * mp_int) := rsaprime_loop fuel.
(** The primes with their predecessors, and their product. *)
Fixpoint rsa_loop (turns : nat) (e : mp_int) (size : Z) : M nat (mp_int * mp_int * (mp_int * mp_int) * mp_int) :=
  match turns with
  | O => undefined "fuel"
  | S turns =>
      p ← getrsaprime e (size / 16);
      q ← getrsaprime e (size / 16);
      n ← rsa_try (mp_mul p.1 q.1);
      if mp_count_bits DIGIT_BIT n =? size then mret (p, q, n) else rsa_loop turns e size
  end.
Definition gen_rsa_priv_key (size : Z) : M nat dropbear_rsa_key :=
  if (size <? 512) || (size >? 4096) || negb (size mod 8 =? 0) then dropbear_exit "Bits must satisfy 512 <= bits <= 4096, and be a multiple of 8"
  else
    e ← rsa_try (mp_set_int RSA_E);
    r ← rsa_loop fuel e size;
    let '(p, q, n) := r in
    lcm ← rsa_try (mp_lcm p.2 q.2);
    d ← rsa_try (mp_invmod e lcm);
    mret (mkRsa n e (Some d) (Some p.1) (Some q.1)).

(** ** DSS ([gendss.c]) *)
Abbreviation dss_try := (crypt "DSS key generation failed").
Definition getq : M nat mp_int :=
  buf ← genrandom QSIZE;
  buf ← lift (or_byte 0 0x80 buf);
  buf ← lift (or_byte (QSIZE - 1) 0x01 buf);
  dss_try (mp_prime_next_prime (bytes_to_mp buf) 18).
Fixpoint getp_loop (turns : nat) (temp2q : mp_int) (size : Z) : M nat mp_int :=
  match turns with
  | O => undefined "fuel"
  | S turns =>
      buf ← genrandom size;
      buf ← lift (or_byte 0 0x80 buf);
      let tempX := bytes_to_mp buf in
      tempC ← dss_try (mp_mod tempX temp2q);
      tempP ← dss_try (mp_sub tempX tempC);
      p ← dss_try (mp_add_d tempP 1);
      result ← dss_try (mp_prime_is_prime p 5);
      if result : bool then mret p else getp_loop turns temp2q size
  end.
Definition getp (q : mp_int) (size : Z) : M nat mp_int :=
  temp2q ← dss_try (mp_mul_d q 2);
  getp_loop fuel temp2q size.
Fixpoint getg_loop (turns : nat) (p div h : mp_int) : M nat mp_int :=
  match turns with
  | O => undefined "fuel"
  | S turns =>
      g ← dss_try (mp_exptmod h div p);
      h ← dss_try (mp_add_d h 1);
      match mp_cmp_d g 1 with Gt => mret g | _ => getg_loop turns p div h end
  end.
Definition getg (p q : mp_int) : M nat mp_int :=
  val ← dss_try (mp_sub_d p 1);
  div ← dss_try (mp_div val q);
  getg_loop fuel p div mp_one.
Definition getx (q : mp_int) : M nat mp_int :=
  i ← get;
  lift (gen_random_mpint DIGIT_BIT (λ j, draw (i + j)%nat) fuel q).
Definition gety (g x p : mp_int) : M nat mp_int := dss_try (mp_exptmod g x p).
Definition gen_dss_priv_key (size : Z) : M nat dropbear_dss_key :=
  if negb (size =? 1024) then dropbear_exit "DSS keys have a fixed size of 1024 bits"
  else
    q ← getq;
    p ← getp q (size / 8);
    g ← getg p q;
    x ← getx q;
    y ← gety g x p;
    mret (mkDss p q g y (Some x)).

(** ** ECDSA ([ecdsa.c]) *)
Definition bits_curve (bit_size : Z) : option ltc_ecc_set :=
  if bit_size =? 256 then Some ecc_256 else if bit_size =? 384 then Some ecc_384 else if bit_size =? 521 then Some ecc_521 else None.
Definition gen_ecdsa_priv_key (bit_size : Z) : M nat ecc_key :=
  match bits_curve bit_size with
  | None => dropbear_exit "Key size isn't valid"
  | Some dp => i ← get; crypt "ECC error" (ecc_make_key_ex i dp)
  end.
End generate.

(** ** Loops that may be cut off *)

(** No undefined behaviour and no exit; the loop is cut off only if [F]. *)
Definition fwp {S A} (F : Prop) (m : M S A) (Q : A → S → Prop) (s : S) : Prop :=
  match m s with Ok (a, s') => Q a s' | Exit _ => False | UB e => F ∧ e = "fuel"%string end.
Section fwp.
Context {S : Type} (F : Prop).
Lemma fwp_bind {A B} (m : M S A) (f : A → M S B) Q s : fwp F m (λ a s', fwp F (f a) Q s') s → fwp F (m ≫= f) Q s.
Proof. unfold fwp, mbind, M_bind. by destruct (m s) as [[]| |]. Qed.
Lemma fwp_mono {A} (F' : Prop) (m : M S A) (P Q : A → S → Prop) s : fwp F m P s → (F → F') → (∀ a s', P a s' → Q a s') → fwp F' m Q s.
Proof. unfold fwp. destruct (m s) as [[]| |]; naive_solver. Qed.
Lemma fwp_ok {A} (m : M S A) Q s a s' : m s = Ok (a, s') → Q a s' → fwp F m Q s.
Proof. unfold fwp. by intros ->. Qed.
Lemma fwp_crypt {A} e (o : option A) (Q : A → S → Prop) s a : o = Some a → Q a s → fwp F (crypt e o) Q s.
Proof. by intros ->. Qed.
Lemma fwp_out {A} (Q : A → S → Prop) s : F → fwp F (undefined "fuel") Q s.
Proof. by split. Qed.
End fwp.
Lemma fwp_ends {S A} (m : M S A) Q s : fwp False m Q s → ∃ a s', m s = Ok (a, s') ∧ Q a s'.
Proof. unfold fwp. destruct (m s) as [[a s']| |]; naive_solver. Qed.

Lemma fwp_elim {S A} F (m : M S A) Q s a s' : fwp F m Q s → m s = Ok (a, s') → Q a s'.
Proof. unfold fwp. by intros H E; rewrite E in H. Qed.

Section props.
Context (DIGIT_BIT : Z) (HDB : 8 ≤ DIGIT_BIT) `{BN : !BigNum, BL : !BigNumLaws DIGIT_BIT, PN : !PrimeNum, PL : !PrimeLaws DIGIT_BIT}.
Context (draw : nat → Z → list Z) (fuel : nat).
Context (Hdraw : ∀ i len, Forall is_byte (draw i len) ∧ (0 ≤ len → zlen (draw i len) = len)).
Abbreviation mpv := (mp_val DIGIT_BIT).
Abbreviation nat_ := (mp_nat DIGIT_BIT).
Abbreviation bits := (mp_count_bits DIGIT_BIT).
Abbreviation read := (mp_read_unsigned_bin DIGIT_BIT).

Lemma bits_iff a n : nat_ a → 1 ≤ n → bits a = n ↔ 2 ^ (n - 1) ≤ mpv a < 2 ^ n.
Proof.
  intros Ha Hn. pose proof (mp_nat_nonneg DIGIT_BIT HDB a Ha). rewrite mp_count_bits_eq by (done || apply Ha). pose proof (Z.pow_pos_nonneg 2 (n - 1) ltac:(lia) ltac:(lia)).
  destruct (Z.eqb_spec (mpv a) 0) as [E|E]; [lia|]. split.
  - intros <-. pose proof (Z.log2_spec (mpv a) ltac:(lia)). rewrite <-Z.add_1_r in *. by replace (Z.log2 (mpv a) + 1 - 1) with (Z.log2 (mpv a)) by lia.
  - intros Hb. rewrite (Z.log2_unique (mpv a) (n - 1)); [lia|lia|]. replace (Z.succ (n - 1)) with n by lia. done.
Qed.
(** Bytes with the top bit set. *)
Lemma byte_or m c : is_byte m → is_byte c → is_byte (Z.lor c m) ∧ m ≤ Z.lor c m.
Proof.
  unfold is_byte. intros Hm Hc. split; [split; [apply Z.lor_nonneg; lia|]|].
  - destruct (Z.eq_dec (Z.lor c m) 0) as [->|]; [done|]. change 256 with (2 ^ 8). apply Z.log2_lt_pow2; [pose proof (proj2 (Z.lor_nonneg c m) ltac:(lia)); lia|].
    rewrite Z.log2_lor by lia. apply Z.max_lub_lt; [destruct (Z.eq_dec c 0) as [->|]|destruct (Z.eq_dec m 0) as [->|]]; (done || (apply Z.log2_lt_pow2; lia)).
  - apply Z.ldiff_le; [apply Z.lor_nonneg; lia|]. apply Z.bits_inj'. intros n Hn. rewrite Z.ldiff_spec, Z.lor_spec, Z.bits_0. by destruct (Z.testbit c n), (Z.testbit m n).
Qed.
Lemma or_byte_ok i m bs : Forall is_byte bs → is_byte m → 0 ≤ i < zlen bs → ∃ c buf, bs !! Z.to_nat i = Some c ∧ or_byte i m bs = Ok buf ∧ buf = <[Z.to_nat i := Z.lor c m]> bs ∧ Forall is_byte buf ∧ zlen buf = zlen bs.
Proof.
  intros Hb Hm Hi. unfold or_byte. destruct (bs !! Z.to_nat i) as [c|] eqn:E; [|apply lookup_ge_None in E; lia]. exists c, (<[Z.to_nat i := Z.lor c m]> bs). split_and!; [done|done|done| |by rewrite length_insert].
  apply Forall_insert; [done|]. apply byte_or; [done|]. by apply (Forall_lookup_1 _ _ _ _ Hb E).
Qed.
Lemma top_val c bs sz : Forall is_byte (c :: bs) → zlen (c :: bs) = sz → 128 ≤ c → 2 ^ (8 * sz - 1) ≤ be_val (c :: bs) < 2 ^ (8 * sz).
Proof.
  intros Hb Hl Hc. pose proof (be_val_bound _ Hb) as Hub. rewrite Hl in Hub. rewrite (Z.pow_mul_r 2 8) by lia. split; [|apply Hub]. rewrite be_val_cons by done.
  apply Forall_cons in Hb as [_ Hb]. pose proof (be_val_bound bs Hb). cbn [length] in Hl. replace (8 * sz - 1) with (7 + 8 * zlen bs) by lia.
  rewrite Z.pow_add_r, (Z.pow_mul_r 2 8) by lia. change (2 ^ 7) with 128. change (2 ^ 8) with 256. nia.
Qed.
Lemma or_top i sz : 0 < sz → ∃ c bs, or_byte 0 0x80 (draw i sz) = Ok (c :: bs) ∧ Forall is_byte (c :: bs) ∧ zlen (c :: bs) = sz ∧ 128 ≤ c.
Proof.
  intros Hsz. destruct (Hdraw i sz) as [Hb Hl]. specialize (Hl ltac:(lia)). destruct (or_byte_ok 0 0x80 (draw i sz)) as (c & buf & Ec & E & Ebuf & Hbuf & Hlen); [done|done|rewrite Hl; lia|].
  destruct (draw i sz) as [|c' bs]; [done|]. injection Ec as ->. cbn in Ebuf. subst buf. exists (Z.lor c 128), bs. split_and!; [done|done|by rewrite <-Hl|]. apply byte_or; [done|]. by apply Forall_cons in Hb as [? _].
Qed.

(** ** RSA *)

(** The number a draw leads to, and draws that are taken. *)
Definition candidate (sz : Z) (i : nat) (p : mp_int) : Prop :=
  ∃ buf, or_byte 0 0x80 (draw i sz) = Ok buf ∧ mp_prime_next_prime (read buf) 8 = Some p.
Definition taken (sz : Z) (i : nat) : Prop := ∃ p, candidate sz i p ∧ Z.gcd (mpv p - 1) RSA_E = 1.
Lemma candidate_det sz i p p' : candidate sz i p → candidate sz i p' → p = p'.
Proof. intros (b & E & H) (b' & E' & H'). congruence. Qed.
Record prime_ok (sz : Z) (r : mp_int * mp_int) : Prop := {
  po_nat : nat_ r.1;
  po_minus : nat_ r.2;
  po_val : mpv r.2 = mpv r.1 - 1;
  po_gcd : Z.gcd (mpv r.1 - 1) RSA_E = 1;
  po_big : 2 ^ (8 * sz - 1) < mpv r.1
}.
Lemma prime_loop_ok turns e sz n : nat_ e → mpv e = RSA_E → 0 < sz →
  fwp (∀ j, (n ≤ j < n + turns)%nat → ¬ taken sz j) (rsaprime_loop DIGIT_BIT draw turns e sz)
    (λ r n', prime_ok sz r ∧ ∃ k, n' = S k ∧ (n ≤ k)%nat ∧ candidate sz k r.1 ∧ ∀ j, (n ≤ j < k)%nat → ¬ taken sz j) n.
Proof.
  intros He Ev Hsz. revert n. induction turns as [|turns IH]; intros n; cbn [rsaprime_loop]; [apply fwp_out; lia|].
  apply fwp_bind. eapply fwp_ok; [reflexivity|]. destruct (or_top n sz Hsz) as (c & bs & Eb & Hbuf & Hlen & Hc). pose proof (top_val c bs sz Hbuf Hlen Hc) as Hv. set (buf := c :: bs) in *.
  apply fwp_bind. rewrite Eb. eapply fwp_ok; [reflexivity|]. pose proof (mp_read_unsigned_bin_val DIGIT_BIT HDB buf Hbuf) as Vb. pose proof (proj1 (Z.pow_gt_1 2 (8 * sz - 1) ltac:(lia)) ltac:(lia)).
  destruct (next_prime_law (read buf) 8 ltac:(by apply mp_read_nat) ltac:(lia)) as (v & Hlt & p & Ep & Np & Vp). assert (Hp : 2 ^ (8 * sz - 1) < mpv p) by lia.
  apply fwp_bind. eapply fwp_crypt; [done|]. destruct (sub_d_law p 1 Np ltac:(lia) ltac:(lia)) as (pm & Em & Nm & Vm).
  apply fwp_bind. eapply fwp_crypt; [done|]. destruct (gcd_law pm e Nm He) as (g & Eg & Ng & Vg). apply fwp_bind. eapply fwp_crypt; [done|].
  rewrite (mp_cmp_d_val DIGIT_BIT HDB) by (done || (split; [done|]; apply Z.pow_gt_1; lia)). rewrite Vg, Vm, Ev.
  assert (Hcand : candidate sz n p) by (by exists buf). destruct (Z.compare_spec (Z.gcd (mpv p - 1) RSA_E) 1) as [E|E|E].
  { eapply fwp_ok; [reflexivity|]. split; [by split|]. exists n. split_and!; [done|done|done|lia]. }
  all: assert (Hno : ¬ taken sz n) by (intros (p' & Hc' & Hg); rewrite <-(candidate_det _ _ _ _ Hcand Hc') in Hg; lia);
    eapply fwp_mono; [apply IH|intros Hout j Hj; destruct (decide (j = n)) as [->|]; [done|apply Hout; lia]|];
    intros r n' (Hr & k & -> & Hk & Hck & Hskip); (split; [done|]); exists k; (split_and!; [done|lia|done|]); intros j Hj; (destruct (decide (j = n)) as [->|]; [done|apply Hskip; lia]).
Qed.
(** A draw that is taken and large enough for the product. *)
Definition lucky (sz : Z) (i : nat) : Prop := ∃ p, candidate sz i p ∧ Z.gcd (mpv p - 1) RSA_E = 1 ∧ 3 * 2 ^ (8 * sz - 2) ≤ mpv p < 2 ^ (8 * sz).
Lemma lucky_taken sz i : lucky sz i → taken sz i.
Proof. intros (p & ? & ? & _). by exists p. Qed.
Lemma lucky_bits sz i j p q n : 0 < sz → lucky sz i → lucky sz j → candidate sz i p → candidate sz j q → nat_ n → mpv n = mpv p * mpv q → bits n = 16 * sz.
Proof.
  intros Hsz (p' & Cp & _ & Hp) (q' & Cq & _ & Hq) Cp' Cq' Nn Vn. rewrite <-(candidate_det _ _ _ _ Cp' Cp) in Hp. rewrite <-(candidate_det _ _ _ _ Cq' Cq) in Hq.
  apply bits_iff; [done|lia|]. rewrite Vn. set (h := 2 ^ (8 * sz - 2)) in *. assert (0 < h) by (apply Z.pow_pos_nonneg; lia).
  assert (E1 : 2 ^ (8 * sz) = 4 * h) by (unfold h; replace (8 * sz) with (2 + (8 * sz - 2)) at 1 by lia; by rewrite Z.pow_add_r by lia).
  assert (E2 : 2 ^ (16 * sz) = 16 * (h * h)) by (replace (16 * sz) with (4 + (8 * sz - 2) + (8 * sz - 2)) by lia; rewrite !Z.pow_add_r by lia; fold h; change (2 ^ 4) with 16; ring).
  assert (E3 : 2 ^ (16 * sz - 1) = 8 * (h * h)) by (replace (16 * sz - 1) with (3 + (8 * sz - 2) + (8 * sz - 2)) by lia; rewrite !Z.pow_add_r by lia; fold h; change (2 ^ 3) with 8; ring).
  rewrite E1 in *. rewrite E2, E3. nia.
Qed.
(** The pair of numbers with their product. *)
Record pair_ok (size : Z) (r : mp_int * mp_int * (mp_int * mp_int) * mp_int) : Prop := {
  pr_p : prime_ok (size / 16) r.1.1;
  pr_q : prime_ok (size / 16) r.1.2;
  pr_n : nat_ r.2;
  pr_val : mpv r.2 = mpv r.1.1.1 * mpv r.1.2.1;
  pr_bits : bits r.2 = size
}.
(** Three lucky draws in a row end the search: two of them are tried together. *)
Lemma rsa_loop_ok (F : Prop) turns e size n j : nat_ e → mpv e = RSA_E → 0 < size / 16 →
  F ∨ (size mod 16 = 0 ∧ (∀ i, (j ≤ i ≤ j + 2)%nat → lucky (size / 16) i) ∧ (n ≤ j + 1)%nat ∧ (j + 2 ≤ turns + n)%nat ∧ (j + 2 < fuel + n)%nat) →
  fwp F (rsa_loop DIGIT_BIT draw fuel turns e size) (λ r _, pair_ok size r) n.
Proof.
  intros He Ev Hsz HF. revert n HF. induction turns as [|turns IH]; intros n HF; cbn [rsa_loop].
  { apply fwp_out. destruct HF as [|(_ & _ & ?)]; [done|lia]. }
  apply fwp_bind. eapply fwp_mono; [by apply prime_loop_ok| |].
  { intros Hout. destruct HF as [|(_ & Hl & ?)]; [done|]. destruct (Hout (n `max` j)%nat); [lia|]. apply lucky_taken, Hl. lia. }
  intros p n1 (Hp & k1 & -> & Hk1 & Cp & Hs1). apply fwp_bind. eapply fwp_mono; [by apply prime_loop_ok| |].
  { intros Hout. destruct HF as [|(_ & Hl & ?)]; [done|]. assert (k1 ≤ n `max` j)%nat.
    { destruct (decide (n `max` j < k1)%nat); [|lia]. destruct (Hs1 (n `max` j)%nat); [lia|]. apply lucky_taken, Hl. lia. }
    destruct (Hout (S k1 `max` j)%nat); [lia|]. apply lucky_taken, Hl. lia. }
  intros q n2 (Hq & k2 & -> & Hk2 & Cq & Hs2). destruct (mul_law p.1 q.1 (po_nat _ _ Hp) (po_nat _ _ Hq)) as (m & Em & Nm & Vm).
  apply fwp_bind. eapply fwp_crypt; [done|]. destruct (Z.eqb_spec (bits m) size) as [Eb|Eb]; [by eapply fwp_ok; [reflexivity|]|].
  apply IH. destruct HF as [|(Hmod & Hl & ? & ? & ?)]; [by left|right]. split_and!; [done|done| |lia|lia].
  assert (k1 ≤ n `max` j)%nat.
  { destruct (decide (n `max` j < k1)%nat); [|lia]. destruct (Hs1 (n `max` j)%nat); [lia|]. apply lucky_taken, Hl. lia. }
  assert (k2 ≤ S k1 `max` j)%nat.
  { destruct (decide (S k1 `max` j < k2)%nat); [|lia]. destruct (Hs2 (S k1 `max` j)%nat); [lia|]. apply lucky_taken, Hl. lia. }
  destruct (decide (S k2 ≤ j + 1)%nat) as [|Hgt]; [done|]. destruct Eb. rewrite (lucky_bits (size / 16) k1 k2 p.1 q.1 m); [| |apply Hl; lia|apply Hl; lia|done..].
  - pose proof (Z.div_mod size 16). lia.
  - done.
Qed.

Context (sha256 sha384 sha512 : list Z → list Z).
Abbreviation privok := (priv_ok DIGIT_BIT sha256 sha384 sha512).
Abbreviation genok := (gen_ok DIGIT_BIT sha256 sha384 sha512).
Abbreviation small := (mp_small DIGIT_BIT).

(** An RSA key: the modulus has the size and is the product of two numbers, and
    the exponents undo each other modulo the least common multiple of the
    numbers before them. *)
Record rsa_made (size : Z) (k : dropbear_rsa_key) (d p q : mp_int) : Prop := {
  rm_key : rsa_d k = Some d ∧ rsa_p k = Some p ∧ rsa_q k = Some q;
  rm_nat : Forall nat_ [rsa_n k; rsa_e k; d; p; q];
  rm_e : mpv (rsa_e k) = RSA_E;
  rm_n : mpv (rsa_n k) = mpv p * mpv q;
  rm_bits : bits (rsa_n k) = size;
  rm_pq : 2 < mpv p ∧ 2 < mpv q;
  rm_d : 0 ≤ mpv d < Z.lcm (mpv p - 1) (mpv q - 1);
  rm_inv : RSA_E * mpv d mod Z.lcm (mpv p - 1) (mpv q - 1) = 1
}.
Lemma lcm_coprime a b e : 1 < a → 1 < b → Z.gcd a e = 1 → Z.gcd b e = 1 → 1 < Z.lcm a b ∧ Z.gcd e (Z.lcm a b) = 1.
Proof.
  intros Ha Hb Ga Gb. assert (Hpos : 0 < Z.lcm a b). { pose proof (Z.lcm_nonneg a b). assert (Z.lcm a b ≠ 0) by (rewrite Z.lcm_eq_0; lia). lia. }
  split; [pose proof (Z.divide_pos_le a (Z.lcm a b) Hpos (Z.divide_lcm_l a b)); lia|].
  pose proof (Z.coprime_mul_l a b e Ga Gb) as Gm. apply Z.divide_1_r_nonneg; [apply Z.gcd_nonneg|]. unfold Z.coprime in Gm. rewrite <-Gm. apply Z.gcd_greatest; [|apply Z.gcd_divide_l].
  etrans; [apply Z.gcd_divide_r|]. apply Z.lcm_least; [apply Z.divide_factor_l|apply Z.divide_factor_r].
Qed.
Lemma gen_rsa_spec (F : Prop) size j i : 512 ≤ size ≤ 4096 → size mod 8 = 0 →
  F ∨ (size mod 16 = 0 ∧ (∀ i, (j ≤ i ≤ j + 2)%nat → lucky (size / 16) i) ∧ (i ≤ j)%nat ∧ (j + 2 < fuel + i)%nat) →
  fwp F (gen_rsa_priv_key DIGIT_BIT draw fuel size) (λ k _, ∃ d p q, rsa_made size k d p q) i.
Proof.
  intros Hs H8 HF. unfold gen_rsa_priv_key. rewrite (proj2 (Z.ltb_ge size 512)), (Z.gtb_ltb size 4096), (proj2 (Z.ltb_ge 4096 size)), (proj2 (Z.eqb_eq _ _) H8) by lia. cbn [orb negb].
  destruct (set_int_law RSA_E ltac:(done)) as (e & Ee & Ne & Ve). apply fwp_bind. eapply fwp_crypt; [done|].
  assert (Hsz : 32 ≤ size / 16) by (apply Z.div_le_lower_bound; lia). apply fwp_bind. eapply fwp_mono; [apply (rsa_loop_ok F fuel e size i j); [done|done|lia|]|done|].
  { destruct HF as [|(? & ? & ? & ?)]; [by left|right]. split_and!; [done|done|lia|lia|lia]. }
  intros [[p q] n] s [[Np Nm Vm Gp Bp] [Nq Nm' Vm' Gq Bq] Nn Vn Bn]. cbn [fst snd] in *.
  assert (4 ≤ 2 ^ (8 * (size / 16) - 1)) by (change 4 with (2 ^ 2); apply Z.pow_le_mono_r; lia). destruct (lcm_coprime (mpv p.1 - 1) (mpv q.1 - 1) RSA_E ltac:(lia) ltac:(lia) Gp Gq) as [Hl Gl].
  destruct (lcm_law p.2 q.2 Nm Nm') as (l & El & Nl & Vl). rewrite Vm, Vm' in Vl. apply fwp_bind. eapply fwp_crypt; [done|].
  destruct (invmod_law e l Ne Nl ltac:(by rewrite Vl) ltac:(by rewrite Vl, Ve)) as (v & Hv & Hi & d & Ed & Nd & Vd). rewrite Vl, Ve in *.
  apply fwp_bind. eapply fwp_crypt; [done|]. eapply fwp_ok; [reflexivity|]. exists d, p.1, q.1. rewrite <-Vd in *. split; try done; [by rewrite !Forall_cons|cbn [fst snd]; lia].
Qed.
Lemma small_below a n : nat_ a → mpv a < 2 ^ n → n ≤ 4096 → small a.
Proof. intros Ha Hv Hn. split; [done|]. eapply Z.lt_le_trans; [exact Hv|]. apply Z.pow_le_mono_r; [done|]. change BUF_MAX_MPINT with 1030. lia. Qed.
Lemma enc_below a n : nat_ a → 1 ≤ n → mpv a < 2 ^ n → zlen (enc_mpint DIGIT_BIT a) ≤ 5 + n / 8.
Proof.
  intros [Ha _] Hn Hv. unfold enc_mpint. rewrite !length_app, !Nat2Z.inj_add. pose proof (mp_bin_length DIGIT_BIT HDB a Ha) as Hl. cbn zeta in Hl. rewrite Hl.
  assert (Hb : bits a ≤ n). { rewrite mp_count_bits_eq by done. destruct (Z.eqb_spec (mpv a) 0); [lia|]. pose proof (proj1 (dp_val_bound DIGIT_BIT HDB (mp_dp a) (proj1 Ha))) as H0. fold (mpv a) in H0. pose proof (proj1 (Z.log2_lt_pow2 (mpv a) n ltac:(lia)) Hv). lia. }
  pose proof (Z.div_le_mono (bits a) n 8 ltac:(lia) Hb). cbn [length STORE32H]. destruct (bits a mod 8 =? 0); cbn [length]; lia.
Qed.
(** The numbers of a key are below its modulus. *)
Lemma rsa_made_bounds size k d p q : 512 ≤ size → rsa_made size k d p q → mpv (rsa_n k) < 2 ^ size ∧ mpv d < 2 ^ size ∧ mpv p < 2 ^ size ∧ mpv q < 2 ^ size.
Proof.
  intros Hs [_ Hn _ Vn Hb Hpq Hd _]. inversion_clear Hn as [|?? Nn _]. apply bits_iff in Hb; [|done|lia]. rewrite Vn in Hb. split_and!; [lia| |nia|nia].
  assert (Z.lcm (mpv p - 1) (mpv q - 1) ≤ (mpv p - 1) * (mpv q - 1)); [|nia].
  apply Z.divide_pos_le; [nia|]. apply Z.lcm_least; [apply Z.divide_factor_l|apply Z.divide_factor_r].
Qed.
Lemma rsa_made_priv size k d p q : 1024 ≤ size ≤ 4096 → rsa_made size k d p q → rsa_ok DIGIT_BIT k ∧ privok (set_rsakey (Some k) new_sign_key) DROPBEAR_SIGNKEY_RSA.
Proof.
  intros Hs Hm. destruct (rsa_made_bounds size k d p q ltac:(lia) Hm) as (Bn & Bd & Bp & Bq). destruct Hm as [(Ed & Ep & Eq) Hn Ve _ Hb _ _ _].
  rewrite !Forall_cons in Hn. destruct Hn as (Nn & Ne & Nd & Np & Nq & _).
  assert (Hok : rsa_ok DIGIT_BIT k).
  { split; [by apply (small_below _ size); [done|done|lia]|]. split; [by apply (small_below _ 17); [done|rewrite Ve|lia]|]. split; [unfold MIN_RSA_KEYLEN; lia|].
    rewrite (proj2 (bits_iff (rsa_e k) 17 Ne ltac:(lia))); [lia|]. by rewrite Ve. }
  split; [done|]. split; [right; left; split; [done|]; by exists k|]. split; [done|]. split; [|done]. intros k' [= <-]. exists d. split; [done|]. split; [by apply (small_below _ size); [done|done|lia]|].
  right. exists p, q. split_and!; [done|done|by apply (small_below _ size); [done|done|lia]|by apply (small_below _ size); [done|done|lia]].
Qed.
Lemma rsa_made_gen k d p q : rsa_made DROPBEAR_DEFAULT_RSA_SIZE k d p q → genok (set_rsakey (Some k) new_sign_key) DROPBEAR_SIGNKEY_RSA.
Proof.
  intros Hm. destruct (rsa_made_priv DROPBEAR_DEFAULT_RSA_SIZE k d p q ltac:(done) Hm) as [_ Hp]. split; [done|]. destruct (rsa_made_bounds DROPBEAR_DEFAULT_RSA_SIZE k d p q ltac:(done) Hm) as (Bn & Bd & Bp & Bq). destruct Hm as [(Ed & Ep & Eq) Hn Ve _ _ _ _ _].
  rewrite !Forall_cons in Hn. destruct Hn as (Nn & Ne & Nd & Np & Nq & _). unfold DROPBEAR_DEFAULT_RSA_SIZE in *.
  pose proof (enc_below _ 2048 Nn ltac:(lia) Bn). pose proof (enc_below _ 2048 Nd ltac:(lia) Bd). pose proof (enc_below _ 2048 Np ltac:(lia) Bp). pose proof (enc_below _ 2048 Nq ltac:(lia) Bq).
  pose proof (enc_below _ 17 Ne ltac:(lia) ltac:(by rewrite Ve)). change (2048 / 8) with 256 in *. change (17 / 8) with 2 in *.
  change (priv_bytes DIGIT_BIT sha256 sha384 sha512 (set_rsakey (Some k) new_sign_key) DROPBEAR_SIGNKEY_RSA) with (rsa_priv_bytes DIGIT_BIT k). unfold rsa_priv_bytes, rsa_pub_bytes. rewrite Ed, Ep, Eq.
  change (default mp_zero (Some d)) with d. rewrite !length_app, !Nat2Z.inj_add. change (zlen (str SSH_SIGNKEY_RSA)) with 11. unfold MAX_PRIVKEY_SIZE. lia.
Qed.
(** With prime factors, [d] undoes [e]. *)
Lemma rsa_made_inverse size k d p q x : rsa_made size k d p q → Z.prime (mpv p) → Z.prime (mpv q) → mpv p ≠ mpv q → 0 ≤ x < mpv (rsa_n k) →
  x ^ (mpv d * mpv (rsa_e k)) mod mpv (rsa_n k) = x.
Proof. intros [_ _ Ve Vn _ _ Hd Hi] Hp Hq Hne Hx. rewrite Vn, Ve in *. apply rsa_exponents; try done; lia. Qed.

Abbreviation gen_rsa := (gen_rsa_priv_key DIGIT_BIT draw fuel).
(** C33. A new RSA key.  For every admitted size and all random bytes, the
    generation does not fail and performs no undefined access; the key it
    returns has a modulus of exactly that many bits, the product of the two
    numbers that are stored with it, and exponents that are inverse modulo the
    least common multiple of their predecessors; from 1024 bits on it can be
    stored and is accepted when it is read.  If the two numbers are different
    primes, the private operation undoes the public one.  And for a multiple of
    16 it does return, at the latest when three draws in a row lead to numbers
    in the upper quarter of their range whose predecessors are coprime to the
    exponent. *)
Theorem generated_rsa_key size i : 512 ≤ size ≤ 4096 → size mod 8 = 0 →
  fwp True (gen_rsa size) (λ k _, ∃ d p q, rsa_made size k d p q ∧
    (1024 ≤ size → privok (set_rsakey (Some k) new_sign_key) DROPBEAR_SIGNKEY_RSA) ∧
    (Z.prime (mpv p) → Z.prime (mpv q) → mpv p ≠ mpv q → ∀ x, 0 ≤ x < mpv (rsa_n k) → x ^ (mpv d * mpv (rsa_e k)) mod mpv (rsa_n k) = x)) i ∧
  (∀ j, size mod 16 = 0 → (∀ l, (j ≤ l ≤ j + 2)%nat → lucky (size / 16) l) → (i ≤ j)%nat → (j + 2 < fuel + i)%nat →
    ∃ k s', gen_rsa size i = Ok (k, s')).
Proof.
  intros Hs H8. split.
  - eapply fwp_mono; [apply (gen_rsa_spec True size 0); [done|done|by left]|done|]. intros k _ (d & p & q & Hm). exists d, p, q. split; [done|]. split.
    + intros Hl. apply (rsa_made_priv size k d p q); [lia|done].
    + intros Hp Hq Hne x Hx. by apply (rsa_made_inverse size k d p q).
  - intros j H16 Hl Hi Hf. destruct (fwp_ends _ _ _ (gen_rsa_spec False size j i Hs H8 ltac:(by right))) as (k & s' & E & _). eauto.
Qed.
(** A size that is not a multiple of 16 passes the check, but the primes have
    [size / 16] bytes, and the product never has as many bits. *)
Theorem odd_size_never_ends size i : 512 ≤ size ≤ 4096 → size mod 16 = 8 → (∀ j p, candidate (size / 16) j p → mpv p < 2 ^ (8 * (size / 16))) →
  gen_rsa size i = UB "fuel".
Proof.
  intros Hs H8 Hsmall. assert (Hno : ∀ turns e n, nat_ e → mpv e = RSA_E → fwp True (rsa_loop DIGIT_BIT draw fuel turns e size) (λ _ _, False) n).
  { intros turns e n He Ev. assert (Hsz : 32 ≤ size / 16) by (apply Z.div_le_lower_bound; lia). revert n. induction turns as [|turns IH]; intros n; cbn [rsa_loop]; [by apply fwp_out|].
    apply fwp_bind. eapply fwp_mono; [apply prime_loop_ok; [done|done|lia]|done|]. intros p n1 (Hp & k1 & _ & _ & Cp & _).
    apply fwp_bind. eapply fwp_mono; [apply prime_loop_ok; [done|done|lia]|done|]. intros q n2 (Hq & k2 & _ & _ & Cq & _).
    destruct (mul_law p.1 q.1 (po_nat _ _ Hp) (po_nat _ _ Hq)) as (m & Em & Nm & Vm). apply fwp_bind. eapply fwp_crypt; [done|].
    destruct (Z.eqb_spec (bits m) size) as [Eb|Eb]; [|done]. exfalso. apply bits_iff in Eb; [|done|lia]. rewrite Vm in Eb. apply Hsmall in Cp, Cq.
    assert (Hle : 2 ^ (8 * (size / 16)) * 2 ^ (8 * (size / 16)) ≤ 2 ^ (size - 1)). { rewrite <-Z.pow_add_r by lia. apply Z.pow_le_mono_r; [lia|]. pose proof (Z.div_mod size 16). lia. }
    pose proof (mp_nat_nonneg DIGIT_BIT HDB _ (po_nat _ _ Hp)). pose proof (mp_nat_nonneg DIGIT_BIT HDB _ (po_nat _ _ Hq)). nia. }
  unfold gen_rsa_priv_key. rewrite (proj2 (Z.ltb_ge size 512)), (Z.gtb_ltb size 4096), (proj2 (Z.ltb_ge 4096 size)) by lia. rewrite (proj2 (Z.eqb_eq (size mod 8) 0)) by (Z.to_euclidean_division_equations; lia). cbn [orb negb].
  destruct (set_int_law RSA_E ltac:(done)) as (e & Ee & Ne & Ve). unfold mbind at 1, M_bind at 1. rewrite Ee. cbn [crypt mret M_ret]. unfold mbind at 1, M_bind at 1.
  specialize (Hno fuel e i Ne Ve). unfold fwp in Hno. destruct (rsa_loop _ _ _ _ _ _ _) as [[]| |]; [done|done|]. by destruct Hno as [_ ->].
Qed.

(** ** DSS *)
Definition q_candidate (i : nat) (q : mp_int) : Prop :=
  ∃ buf buf', or_byte 0 0x80 (draw i QSIZE) = Ok buf ∧ or_byte (QSIZE - 1) 0x01 buf = Ok buf' ∧ mp_prime_next_prime (read buf') 18 = Some q.
Lemma getq_ok F i : fwp F (getq DIGIT_BIT draw) (λ q s, s = S i ∧ q_candidate i q ∧ nat_ q ∧ 2 ^ 159 < mpv q < 2 ^ 161) i.
Proof.
  unfold getq. apply fwp_bind. eapply fwp_ok; [reflexivity|]. destruct (or_top i QSIZE ltac:(done)) as (c & bs & E & Hb & Hl & Hc). apply fwp_bind. rewrite E. eapply fwp_ok; [reflexivity|].
  destruct (or_byte_ok (QSIZE - 1) 1 (c :: bs)) as (c' & buf & Ec & Eb & Ebuf & Hbuf & Hlen); [done|done|rewrite Hl; done|]. apply fwp_bind. rewrite Eb. eapply fwp_ok; [reflexivity|].
  assert (∃ tl, buf = c :: tl) as [tl ->] by (subst buf; by eexists). pose proof (top_val c tl QSIZE Hbuf ltac:(by rewrite Hlen) Hc) as Hv. change (2 ^ (8 * QSIZE - 1)) with (2 ^ 159) in Hv. change (2 ^ (8 * QSIZE)) with (2 ^ 160) in Hv.
  pose proof (mp_read_unsigned_bin_val DIGIT_BIT HDB _ Hbuf) as Vb. assert (1 < 2 ^ 159) by done.
  destruct (next_prime_law (read (c :: tl)) 18 ltac:(by apply mp_read_nat) ltac:(lia)) as (v & Hlt & q & Eq & Nq & Vq). eapply fwp_crypt; [done|]. split_and!; [done| |done|lia|].
  - by eexists _, _.
  - assert (2 ^ 161 = 2 * 2 ^ 160) as -> by done. lia.
Qed.
(** The number a draw leads to: one more than a multiple of [2 q]. *)
Definition p_candidate (q : mp_int) (sz : Z) (i : nat) (p : mp_int) : Prop :=
  ∃ buf, or_byte 0 0x80 (draw i sz) = Ok buf ∧ nat_ p ∧ mpv p = be_val buf - be_val buf mod (2 * mpv q) + 1.
Definition p_accepted (q : mp_int) (sz : Z) (i : nat) (p : mp_int) : Prop := p_candidate q sz i p ∧ mp_prime_is_prime p 5 = Some true.
Lemma p_candidate_det q sz i p p' : p_candidate q sz i p → p_candidate q sz i p' → p = p'.
Proof. intros (b & E & N & V) (b' & E' & N' & V'). apply (mp_nat_inj DIGIT_BIT HDB); [done|done|]. rewrite V, V'. by assert (b = b') as -> by congruence. Qed.
Lemma getp_loop_ok turns t2q q sz n : nat_ q → 0 < mpv q → nat_ t2q → mpv t2q = 2 * mpv q → 0 < sz →
  fwp (∀ j p, (n ≤ j < n + turns)%nat → ¬ p_accepted q sz j p) (getp_loop DIGIT_BIT draw turns t2q sz)
    (λ p n', ∃ k, n' = S k ∧ (n ≤ k)%nat ∧ p_accepted q sz k p) n.
Proof.
  intros Nq Hq Nt Vt Hsz. revert n. induction turns as [|turns IH]; intros n; cbn [getp_loop]; [apply fwp_out; lia|].
  apply fwp_bind. eapply fwp_ok; [reflexivity|]. destruct (or_top n sz Hsz) as (c & bs & E & Hb & Hl & Hc). apply fwp_bind. rewrite E. eapply fwp_ok; [reflexivity|].
  set (buf := c :: bs) in *. pose proof (mp_read_nat DIGIT_BIT HDB buf Hb) as Nx. pose proof (mp_read_unsigned_bin_val DIGIT_BIT HDB buf Hb) as Vx. pose proof (be_val_bound buf Hb).
  destruct (mod_law (read buf) t2q Nx Nt ltac:(lia)) as (cc & Ec & Nc & Vc). rewrite Vx, Vt in Vc. pose proof (Z.mod_le (be_val buf) (2 * mpv q) ltac:(lia) ltac:(lia)).
  apply fwp_bind. eapply fwp_crypt; [done|]. destruct (sub_law (read buf) cc Nx Nc ltac:(lia)) as (d & Ed & Nd & Vd). apply fwp_bind. eapply fwp_crypt; [done|].
  destruct (add_d_law d 1 Nd ltac:(lia)) as (p & Ep & Np & Vp). apply fwp_bind. eapply fwp_crypt; [done|].
  assert (Hcand : p_candidate q sz n p) by (exists buf; split_and!; [done|done|lia]).
  destruct (is_prime_law p 5 Np) as [[] Eb]; apply fwp_bind; (eapply fwp_crypt; [done|]).
  { eapply fwp_ok; [reflexivity|]. exists n. split_and!; [done|done|by split]. }
  eapply fwp_mono; [apply IH| |].
  - intros Hout j p' Hj [Hc' Hp']. destruct (decide (j = n)) as [->|]; [|by apply (Hout j p' ltac:(lia))]. rewrite <-(p_candidate_det _ _ _ _ _ Hcand Hc') in Hp'. congruence.
  - intros p' n' (k & -> & Hk & Ha). exists k. split_and!; [done|lia|done].
Qed.
(** The factor [2 q] of the number before [p]. *)
Lemma p_candidate_shape q sz i p : 0 < mpv q → 0 < sz → p_candidate q sz i p → ∃ m, 0 ≤ m ∧ mpv p = 2 * mpv q * m + 1 ∧ 2 ^ (8 * sz - 1) - 2 * mpv q < mpv p ≤ 2 ^ (8 * sz).
Proof.
  intros Hq Hsz (buf & E & Np & Vp). destruct (or_top i sz Hsz) as (c & bs & E' & Hb & Hl & Hc). assert (buf = c :: bs) as -> by congruence. pose proof (top_val c bs sz Hb Hl Hc) as Hv.
  exists (be_val (c :: bs) / (2 * mpv q)). pose proof (Z.div_mod (be_val (c :: bs)) (2 * mpv q) ltac:(lia)). pose proof (Z.mod_pos_bound (be_val (c :: bs)) (2 * mpv q) ltac:(lia)).
  pose proof (Z.pow_pos_nonneg 2 (8 * sz - 1) ltac:(lia) ltac:(lia)). split; [apply Z.div_pos; lia|lia].
Qed.
Definition generates (p q : mp_int) (h : Z) : Prop := 1 < h ^ ((mpv p - 1) / mpv q) mod mpv p.
Lemma getg_loop_ok turns p q dv h n : nat_ p → 1 < mpv p → nat_ dv → mpv dv = (mpv p - 1) / mpv q → nat_ h → 1 ≤ mpv h →
  fwp (∀ v, mpv h ≤ v < mpv h + Z.of_nat turns → ¬ generates p q v) (getg_loop turns p dv h)
    (λ g n', n' = n ∧ nat_ g ∧ 1 < mpv g < mpv p ∧ ∃ v, 1 ≤ v ∧ mpv g = v ^ ((mpv p - 1) / mpv q) mod mpv p) n.
Proof.
  intros Np Hp Nd Vd. revert h. induction turns as [|turns IH]; intros h Nh Hh; cbn [getg_loop]; [apply fwp_out; lia|].
  destruct (exptmod_law h dv p Nh Nd Np Hp) as (g & Eg & Ng & Vg). apply fwp_bind. eapply fwp_crypt; [done|]. destruct (add_d_law h 1 Nh ltac:(lia)) as (h' & Eh & Nh' & Vh').
  apply fwp_bind. eapply fwp_crypt; [done|]. rewrite Vd in Vg. pose proof (Z.mod_pos_bound (mpv h ^ ((mpv p - 1) / mpv q)) (mpv p) ltac:(lia)).
  rewrite (mp_cmp_d_val DIGIT_BIT HDB) by (done || (split; [done|]; apply Z.pow_gt_1; lia)). destruct (Z.compare_spec (mpv g) 1) as [E|E|E].
  3: { eapply fwp_ok; [reflexivity|]. split_and!; [done|done|done|lia|by exists (mpv h)]. }
  all: eapply fwp_mono; [apply IH; [done|lia]| |done]; intros Hout v Hv Hg; (destruct (Z.eq_dec v (mpv h)) as [->|]; [unfold generates in Hg; lia|]); apply (Hout v); [lia|done].
Qed.
Lemma random_loop_cases draw' max mask len turns j : (∀ i, zlen (draw' i len) = len) → 0 < len →
  (∃ r, random_loop DIGIT_BIT draw' max mask len turns j = Ok r) ∨ random_loop DIGIT_BIT draw' max mask len turns j = UB "fuel".
Proof.
  intros Hl Hlen. revert j. induction turns as [|turns IH]; intros j; cbn [random_loop]; [by right|]. pose proof (Hl j) as Hj. destruct (draw' j len) as [|c tl]; [cbn in Hj; lia|].
  destruct (mp_cmp _ _); [apply IH| |apply IH]. destruct (mp_cmp_d _ _); [apply IH..|]. eauto.
Qed.
Abbreviation random_below i q := (gen_random_mpint DIGIT_BIT (λ j, draw (i + j)%nat) fuel q).
Lemma getx_ok q n : nat_ q → 0 < mpv q → fwp (random_below n q = UB "fuel") (getx DIGIT_BIT draw fuel q) (λ x _, nat_ x ∧ 0 < mpv x < mpv q) n.
Proof.
  intros Nq Hq. unfold getx. apply fwp_bind. eapply fwp_ok; [reflexivity|]. set (o := random_below n q). assert (Hbits : 0 < bits q).
  { rewrite mp_count_bits_eq by (done || apply Nq). rewrite (proj2 (Z.eqb_neq _ _)) by lia. pose proof (Z.log2_nonneg (mpv q)). lia. }
  assert (Hlen : 0 < bits q / 8 + (if negb (bits q mod 8 =? 0) then 1 else 0)) by (pose proof (Z.div_mod (bits q) 8 ltac:(lia)); pose proof (Z.div_pos (bits q) 8 ltac:(lia) ltac:(lia)); destruct (Z.eqb_spec (bits q mod 8) 0); cbn [negb]; lia).
  assert (Hcases : (∃ r, o = Ok r) ∨ o = UB "fuel") by (apply random_loop_cases; [intros j; apply Hdraw; lia|done]).
  unfold fwp, lift. destruct Hcases as [[r E]|E]; rewrite E; [|done]. destruct (gen_random_range DIGIT_BIT HDB (λ j, draw (n + j)%nat) fuel q r Nq) as [Hr1 Hr2]; [|done|done].
  intros j len. apply Hdraw.
Qed.

(** A DSS key: [2 q] divides [p - 1], and [g] is a power with the exponent
    [(p - 1) / q]. *)
Record dss_made (k : dropbear_dss_key) (x : mp_int) : Prop := {
  dm_x : dss_x k = Some x;
  dm_nat : Forall nat_ [dss_p k; dss_q k; dss_g k; dss_y k; x];
  dm_q : 2 ^ 159 < mpv (dss_q k) < 2 ^ 161;
  dm_p : ∃ m, 0 ≤ m ∧ mpv (dss_p k) = 2 * mpv (dss_q k) * m + 1;
  dm_size : 2 ^ 1023 - 2 * mpv (dss_q k) < mpv (dss_p k) ≤ 2 ^ 1024;
  dm_g : 1 < mpv (dss_g k) < mpv (dss_p k) ∧ ∃ h, 1 ≤ h ∧ mpv (dss_g k) = h ^ ((mpv (dss_p k) - 1) / mpv (dss_q k)) mod mpv (dss_p k);
  dm_secret : 0 < mpv x < mpv (dss_q k);
  dm_y : mpv (dss_y k) = mpv (dss_g k) ^ mpv x mod mpv (dss_p k)
}.
(** Draws that end the loops: a number is accepted as prime, a base leads to a
    [g] and a random [x] is in range. *)
Definition dss_luck (i : nat) : Prop := ∀ q, q_candidate i q →
  (∃ j p, (S i ≤ j < S i + fuel)%nat ∧ p_accepted q 128 j p) ∧
  ∀ j p, (i < j)%nat → p_accepted q 128 j p → (∃ h, 1 ≤ h ≤ Z.of_nat fuel ∧ generates p q h) ∧ ∃ r, random_below (S j) q = Ok r.
Lemma gen_dss_spec (F : Prop) i : F ∨ dss_luck i → fwp F (gen_dss_priv_key DIGIT_BIT draw fuel 1024) (λ k _, ∃ x, dss_made k x) i.
Proof.
  intros HF. unfold gen_dss_priv_key. cbn [negb Z.eqb Pos.eqb]. apply fwp_bind. eapply fwp_mono; [apply (getq_ok F)|done|]. intros q s (-> & Cq & Nq & Hq). change (1024 / 8) with 128.
  assert (0 < 2 ^ 159) by done. destruct (mul_d_law q 2 Nq ltac:(lia)) as (t & Et & Nt & Vt). apply fwp_bind. unfold getp. apply fwp_bind. eapply fwp_crypt; [done|].
  eapply fwp_mono; [apply (getp_loop_ok fuel t q 128 (S i)); [done|lia|done|lia|done]| |].
  { intros Hout. destruct HF as [|HF]; [done|]. destruct (HF q Cq) as [(j & p & Hj & Hp) _]. by destruct (Hout j p Hj). }
  intros p s (j & -> & Hj & Ha). destruct (p_candidate_shape q 128 j p ltac:(lia) ltac:(done) (proj1 Ha)) as (m & Hm & Vp & Hp). change (8 * 128 - 1) with 1023 in Hp. change (8 * 128) with 1024 in Hp.
  assert (Np : nat_ p) by (by destruct (proj1 Ha) as (? & _ & ? & _)). assert (H1 : 1 < mpv p) by (assert (2 ^ 1023 > 2 * 2 ^ 161 + 1) by done; lia).
  apply fwp_bind. unfold getg. destruct (sub_d_law p 1 Np ltac:(lia) ltac:(lia)) as (v & Ev & Nv & Vv). apply fwp_bind. eapply fwp_crypt; [done|].
  destruct (div_law v q Nv Nq ltac:(lia)) as (dv & Ed & Nd & Vd). rewrite Vv in Vd. apply fwp_bind. eapply fwp_crypt; [done|].
  assert (N1 : nat_ mp_one ∧ mpv mp_one = 1). { assert (0 ≤ 1 < 2 ^ DIGIT_BIT) by (split; [done|]; apply Z.pow_gt_1; lia). split; [split; [split; [by apply Forall_singleton|done]|done]|]. unfold mp_val, mp_one. cbn. lia. }
  destruct N1 as [N1 V1]. eapply fwp_mono; [apply (getg_loop_ok fuel p q dv mp_one (S j)); [done|done|done|done|done|lia]| |].
  { intros Hout. destruct HF as [|HF]; [done|]. destruct (HF q Cq) as [_ HF']. destruct (HF' j p ltac:(lia) Ha) as [(h & Hh & Hg) _]. destruct (Hout h); [lia|done]. }
  intros g s (-> & Ng & Hg & Hpow). apply fwp_bind. eapply fwp_mono; [apply (getx_ok q (S j)); [done|lia]| |].
  { intros Hout. destruct HF as [|HF]; [done|]. destruct (HF q Cq) as [_ HF']. destruct (HF' j p ltac:(lia) Ha) as [_ [r Hr]]. congruence. }
  intros x s [Nx Hx]. apply fwp_bind. unfold gety. destruct (exptmod_law g x p Ng Nx Np H1) as (y & Ey & Ny & Vy). eapply fwp_crypt; [done|]. eapply fwp_ok; [reflexivity|].
  exists x. split; cbn [dss_p dss_q dss_g dss_y dss_x]; [done|by rewrite !Forall_cons|done|by exists m|done|done|done|done].
Qed.
(** A prime [p] gives [g] the order [q]. *)
Lemma dss_made_order k x : dss_made k x → Z.prime (mpv (dss_p k)) → mpv (dss_g k) ^ mpv (dss_q k) mod mpv (dss_p k) = 1.
Proof.
  intros [_ _ Hq (m & Hm & Vp) _ (Hg & h & Hh & Vg) _ _] Hp. set (p := mpv (dss_p k)) in *. set (q := mpv (dss_q k)) in *. assert (0 < 2 ^ 159) by done.
  assert (Ed : (p - 1) / q = 2 * m) by (rewrite Vp; replace (2 * q * m + 1 - 1) with (2 * m * q) by ring; by rewrite Z.div_mul by lia). rewrite Ed in Vg.
  assert (Hn : ¬ (p | h)). { intros [c Hc]. assert (Hz : mpv (dss_g k) = 0); [|lia]. rewrite Vg, Hc. apply Z.mod_divide; [lia|]. assert (1 ≤ m) by (destruct (Z.eq_dec m 0) as [->|]; lia).
    rewrite <-(Z.succ_pred (2 * m)), Z.pow_succ_r by lia. exists (c * (c * p) ^ Z.pred (2 * m)). ring. }
  rewrite Vg. rewrite <-Zpow_facts.Zpower_mod by lia. rewrite <-Z.pow_mul_r by lia. replace (2 * m * q) with (p - 1) by lia.
  pose proof (fermat_unit p h Hp Hn) as Hf. unfold cong in Hf. by rewrite (Z.mod_small 1) in Hf by lia.
Qed.
Lemma dss_made_gen k x : dss_made k x → bits (dss_p k) = DSS_P_BITS → bits (dss_q k) = DSS_Q_BITS → genok (set_dsskey (Some k) new_sign_key) DROPBEAR_SIGNKEY_DSS.
Proof.
  intros [Ex Hn Hq _ _ (Hg & _) Hx Vy] Bp Bq. rewrite !Forall_cons in Hn. destruct Hn as (Np & Nq & Ng & Ny & Nx & _). unfold DSS_P_BITS, DSS_Q_BITS in *.
  pose proof (proj1 (bits_iff _ 1024 Np ltac:(lia)) Bp) as [_ Hp']. pose proof (proj1 (bits_iff _ 160 Nq ltac:(lia)) Bq) as [_ Hq'].
  pose proof (Z.mod_pos_bound (mpv (dss_g k) ^ mpv x) (mpv (dss_p k)) ltac:(lia)) as Hy. rewrite <-Vy in Hy.
  assert (Bg : mpv (dss_g k) < 2 ^ 1024) by lia. assert (By : mpv (dss_y k) < 2 ^ 1024) by lia. assert (Bx : mpv x < 2 ^ 160) by lia.
  assert (Hsmall : ∀ a, nat_ a → mpv a < 2 ^ 1024 → small a) by (intros a Na Ha; by apply (small_below a 1024)). assert (2 ^ 160 < 2 ^ 1024) by done. split.
  - assert (Hok : dss_ok DIGIT_BIT k) by (split; [rewrite !Forall_cons, Forall_nil; split_and!; [apply Hsmall; [done|lia]..|exact I]|]; split; [exact Bp|]; split; [exact Bq|exact Hg]).
    split; [left; split; [reflexivity|]; exists k; split; [reflexivity|exact Hok]|].
    split; [intros k' [= <-]; exists x; split; [exact Ex|]; apply Hsmall; [done|lia]|]. split; intros k' [=].
  - change (priv_bytes DIGIT_BIT sha256 sha384 sha512 (set_dsskey (Some k) new_sign_key) DROPBEAR_SIGNKEY_DSS) with (dss_priv_bytes DIGIT_BIT k). unfold dss_priv_bytes, dss_pub_bytes. rewrite Ex.
    change (default mp_zero (Some x)) with x. pose proof (enc_below _ 1024 Np ltac:(lia) Hp'). pose proof (enc_below _ 160 Nq ltac:(lia) Hq'). pose proof (enc_below _ 1024 Ng ltac:(lia) Bg).
    pose proof (enc_below _ 1024 Ny ltac:(lia) By). pose proof (enc_below _ 160 Nx ltac:(lia) Bx). change (1024 / 8) with 128 in *. change (160 / 8) with 20 in *.
    rewrite !length_app, !Nat2Z.inj_add. change (zlen (str SSH_SIGNKEY_DSS)) with 11. unfold MAX_PRIVKEY_SIZE. lia.
Qed.
Abbreviation gen_dss := (gen_dss_priv_key DIGIT_BIT draw fuel).
(** A new DSS key: whatever the random bytes, the generation does not fail; [q]
    divides [p - 1], [g] lies between 1 and [p], and has the order [q] if [p] is
    prime; [y] is [g^x].  The key is accepted when it is read if its numbers have
    the sizes 1024 and 160, which the generation does not check.  It returns once
    the loops find their numbers. *)
Theorem generated_dss_key i :
  fwp True (gen_dss 1024) (λ k _, ∃ x, dss_made k x ∧ (Z.prime (mpv (dss_p k)) → mpv (dss_g k) ^ mpv (dss_q k) mod mpv (dss_p k) = 1) ∧
    (bits (dss_p k) = DSS_P_BITS → bits (dss_q k) = DSS_Q_BITS → genok (set_dsskey (Some k) new_sign_key) DROPBEAR_SIGNKEY_DSS)) i ∧
  (dss_luck i → ∃ k s', gen_dss 1024 i = Ok (k, s')).
Proof.
  split.
  - eapply fwp_mono; [apply (gen_dss_spec True); by left|done|]. intros k _ [x Hm]. exists x. split_and!; [done|by apply (dss_made_order k x)|by apply dss_made_gen with x].
  - intros Hl. destruct (fwp_ends _ _ _ (gen_dss_spec False i ltac:(by right))) as (k & s' & E & _). eauto.
Qed.

(** ** The interface of the host keys *)
Context `{EO : !EccOps, ML : !MakeKeyLaws DIGIT_BIT} (start : nat).
Definition key_gen : KeyGen := {|
  HostKeys.gen_rsa_priv_key size := r ← gen_rsa size start; Ok r.1;
  HostKeys.gen_dss_priv_key size := r ← gen_dss size start; Ok r.1;
  HostKeys.gen_ecdsa_priv_key size := r ← gen_ecdsa_priv_key size start; Ok r.1 |}.
Record key_luck : Prop := {
  kl_rsa : ∃ j, (start ≤ j)%nat ∧ (j + 2 < fuel + start)%nat ∧ ∀ l, (j ≤ l ≤ j + 2)%nat → lucky 128 l;
  kl_dss : dss_luck start;
  kl_sizes k s : gen_dss 1024 start = Ok (k, s) → bits (dss_p k) = DSS_P_BITS ∧ bits (dss_q k) = DSS_Q_BITS
}.
Lemma fwp_owp {A} (m : M nat A) Q s : fwp False m (λ a _, Q a) s → owp Q (r ← m s; Ok r.1).
Proof. unfold fwp. destruct (m s) as [[]| |]; cbn; naive_solver. Qed.
Lemma ecdsa_gen t c k : curve_of_type sha256 sha384 sha512 t = Some c → ecc_ok DIGIT_BIT sha256 sha384 sha512 c k → nat_ (ecc_k k) → mpv (ecc_k k) < dp_order (curve_dp c) →
  genok (set_ecc_key t (Some k) new_sign_key) t.
Proof.
  intros Ht Hk Nk Hlt. assert (Hcases : (t = DROPBEAR_SIGNKEY_ECDSA_NISTP256 ∧ c = ecc_curve_nistp256 sha256) ∨ (t = DROPBEAR_SIGNKEY_ECDSA_NISTP384 ∧ c = ecc_curve_nistp384 sha384) ∨ (t = DROPBEAR_SIGNKEY_ECDSA_NISTP521 ∧ c = ecc_curve_nistp521 sha512)).
  { unfold curve_of_type in Ht. repeat (revert Ht; case_if; intros Ht); simplify_eq; repeat match goal with E : (_ =? _) = true |- _ => apply Z.eqb_eq in E end; auto. }
  assert (Ho : dp_order (curve_dp c) < 2 ^ 521) by (destruct Hcases as [[_ ->]|[[_ ->]|[_ ->]]]; done).
  destruct (point_bytes_ok DIGIT_BIT HDB sha256 sha384 sha512 c k Hk) as [_ Hpt]. pose proof (enc_below _ 521 Nk ltac:(lia) ltac:(lia)) as He. change (5 + 521 / 8) with 70 in He.
  pose proof (small_below _ 521 Nk ltac:(lia) ltac:(lia)) as Hs. pose proof Hk as (_ & Edp & _). rewrite Edp in Hpt. split.
  - split; [right; right; exists c, k; done|]. destruct Hcases as [[-> _]|[[-> _]|[-> _]]]; (split; [done|]; split; [done|]; intros k' [= <-]; done).
  - assert (Hb : priv_bytes DIGIT_BIT sha256 sha384 sha512 (set_ecc_key t (Some k) new_sign_key) t = ecdsa_priv_bytes DIGIT_BIT c k) by (destruct Hcases as [[-> ->]|[[-> ->]|[-> ->]]]; done).
    rewrite Hb. unfold ecdsa_priv_bytes, ecdsa_pub_bytes. rewrite !length_app, !Nat2Z.inj_add.
    assert (Hn : zlen (str (ecdsa_ident c)) = 23 ∧ zlen (str (curve_name c)) = 12 ∧ dp_size (curve_dp c) ≤ 66) by (destruct Hcases as [[_ ->]|[[_ ->]|[_ ->]]]; done).
    destruct Hn as (-> & -> & Hsz). unfold str. rewrite length_app, Nat2Z.inj_add, Hpt. cbn [length STORE32H]. unfold MAX_PRIVKEY_SIZE. lia.
Qed.
Lemma ecdsa_made t dp b i k : (t, dp, b) ∈ [(DROPBEAR_SIGNKEY_ECDSA_NISTP256, ecc_256, 256); (DROPBEAR_SIGNKEY_ECDSA_NISTP384, ecc_384, 384); (DROPBEAR_SIGNKEY_ECDSA_NISTP521, ecc_521, 521)] →
  bits_curve b = Some dp ∧ (ecc_make_key_ex i dp = Some k → ecc_dp k = dp ∧ genok (set_ecc_key t (Some k) new_sign_key) t).
Proof.
  intros Ht. assert (Hc : bits_curve b = Some dp ∧ dp ∈ [ecc_256; ecc_384; ecc_521] ∧ ∃ c, c ∈ dropbear_ecc_curves sha256 sha384 sha512 ∧ curve_of_type sha256 sha384 sha512 t = Some c ∧ curve_dp c = dp).
  { rewrite !elem_of_cons in Ht. destruct Ht as [[= -> -> ->]|[[= -> -> ->]|[[= -> -> ->]|[]%elem_of_nil]]]; (split; [done|]; split; [rewrite !elem_of_cons; auto|]); eexists; (split; [|split; reflexivity]); unfold dropbear_ecc_curves; rewrite !elem_of_cons; auto. }
  destruct Hc as (Eb & Hdp & c & Hc & Et & <-). split; [done|]. intros E. destruct (make_key_point i _ k Hdp E) as (Ed & Nx & Ny & Hx & Hy & Hcv & Hz & Nk & Hk). split; [done|].
  apply (ecdsa_gen t c k Et); [|done|done]. unfold ecc_ok. cbn zeta. split_and!; (assumption || apply Hx || apply Hy).
Qed.
(** With good luck the routines of this file are what making host keys asks for. *)
Theorem key_gen_laws : key_luck → @KeyGenLaws DIGIT_BIT sha256 sha384 sha512 key_gen.
Proof.
  intros [(j & Hj & Hf & Hl) Hd Hs]. split.
  - apply fwp_owp. eapply fwp_mono; [apply (gen_rsa_spec False DROPBEAR_DEFAULT_RSA_SIZE j start); [done|done|right; by split_and!]|done|]. intros k _ (d & p & q & Hm). by apply rsa_made_gen with d p q.
  - pose proof (gen_dss_spec False start ltac:(by right)) as Hg. destruct (fwp_ends _ _ _ Hg) as (k & s & E & x & Hm). cbn [HostKeys.gen_dss_priv_key key_gen]. rewrite E. cbn. destruct (Hs k s E) as [Bp Bq]. by apply dss_made_gen with x.
  - intros t dp b Ht. cbn [HostKeys.gen_ecdsa_priv_key key_gen]. destruct (ecc_make_key_ex start dp) as [k|] eqn:E; destruct (ecdsa_made t dp b start (default (mkEcc dp (mkPoint mp_one mp_one mp_one) mp_one) (ecc_make_key_ex start dp)) Ht) as [Eb Hk];
      unfold gen_ecdsa_priv_key; rewrite Eb; unfold mbind, M_bind, get; rewrite E in *; cbn; [by apply Hk|done].
Qed.
End props.

(** ** An instance *)
Abbreviation mp := (mp_of_Z db).
#[local] Instance value_primes : PrimeNum := {|
  mp_set_int v := Some (mp v);
  mp_prime_next_prime a _ := Some (mp (mp_val db a + 1));
  mp_prime_is_prime _ _ := Some true;
  mp_sub_d a d := Some (mp (mp_val db a - d));
  mp_add_d a d := Some (mp (mp_val db a + d));
  mp_mul_d a d := Some (mp (mp_val db a * d));
  mp_sub a b := Some (mp (mp_val db a - mp_val db b));
  mp_mul a b := Some (mp (mp_val db a * mp_val db b));
  mp_div a b := Some (mp (mp_val db a / mp_val db b));
  mp_gcd a b := Some (mp (Z.gcd (mp_val db a) (mp_val db b)));
  mp_lcm a b := Some (mp (Z.lcm (mp_val db a) (mp_val db b))) |}.
#[local] Instance value_primes_laws : PrimeLaws db.
Proof.
  pose proof (mp_nat_nonneg db db_ok) as Hn. split.
  - intros v Hv. apply mp_result_value. lia.
  - intros a t Ha H1. exists (mp_val db a + 1). split; [lia|]. apply mp_result_value. lia.
  - intros. by exists true.
  - intros. apply mp_result_value. lia.
  - intros a d Ha Hd. pose proof (Hn a Ha). apply mp_result_value. lia.
  - intros a d Ha Hd. pose proof (Hn a Ha). apply mp_result_value. nia.
  - intros. apply mp_result_value. lia.
  - intros a b Ha Hb. pose proof (Hn a Ha). pose proof (Hn b Hb). apply mp_result_value. nia.
  - intros a b Ha Hb Hp. pose proof (Hn a Ha). apply mp_result_value. apply Z.div_pos; lia.
  - intros. apply mp_result_value, Z.gcd_nonneg.
  - intros. apply mp_result_value, Z.lcm_nonneg.
Qed.
(** Random bytes that start with 192 and end with the number of the draw. *)
Definition draw_high (i : nat) (len : Z) : list Z := take (Z.to_nat len) (192 :: replicate (Z.to_nat (len - 2)) 0 ++ [Z.of_nat i mod 256]).
Lemma draw_high_ok i len : Forall is_byte (draw_high i len) ∧ (0 ≤ len → zlen (draw_high i len) = len).
Proof.
  assert (Hb : is_byte (Z.of_nat i mod 256)) by (apply Z.mod_pos_bound; done). split.
  - apply Forall_take, Forall_cons. split; [done|]. apply Forall_app_2; [by apply Forall_replicate|by apply Forall_singleton].
  - intros Hl. unfold draw_high. rewrite length_take. cbn [length]. rewrite length_app, length_replicate. cbn [length]. lia.
Qed.
Lemma draw_high_lucky i : (i ≤ 2)%nat → lucky db draw_high 64 i.
Proof.
  assert (H : ∀ i, i ∈ [0; 1; 2]%nat → ∃ buf p, or_byte 0 128 (draw_high i 64) = Ok buf ∧ mp_prime_next_prime (mp_read_unsigned_bin db buf) 8 = Some p ∧
    bool_decide (Z.gcd (mp_val db p - 1) RSA_E = 1 ∧ 3 * 2 ^ (8 * 64 - 2) ≤ mp_val db p < 2 ^ (8 * 64)) = true).
  { intros j. rewrite !elem_of_cons, elem_of_nil. intros [->|[->|[->|[]]]]; eexists _, _; (split; [reflexivity|split; [reflexivity|vm_compute; reflexivity]]). }
  intros Hi. destruct (H i) as (buf & p & E & Ep & Hp%bool_decide_eq_true); [destruct i as [|[|[|]]]; [rewrite !elem_of_cons; auto..|lia]|].
  exists p. split; [by exists buf|done].
Qed.
Lemma generated_rsa_key_witness : ∃ k s' d p q, gen_rsa_priv_key db draw_high 5 1024 0%nat = Ok (k, s') ∧ rsa_made db 1024 k d p q ∧
  priv_ok db hash20 hash20 hash20 (set_rsakey (Some k) new_sign_key) DROPBEAR_SIGNKEY_RSA.
Proof.
  destruct (generated_rsa_key db db_ok draw_high 5 draw_high_ok hash20 hash20 hash20 1024 0%nat) as [Hw He]; [lia|reflexivity|].
  destruct (He 0%nat) as (k & s' & E); [reflexivity|intros l Hl; change (1024 / 16) with 64; apply draw_high_lucky; lia|lia|lia|].
  destruct (fwp_elim _ _ _ _ _ _ Hw E) as (d & p & q & Hm & Hp & _). exists k, s', d, p, q. split; [exact E|]. split; [exact Hm|apply Hp; lia].
Defined.
