(* ===== verification/AuthSign.v ===== *)
(** * Authentication with the keys of the program

    The signing keys implement the interface the authentication is proved
    against, and with them a session that a public key authenticated carried a
    signature that satisfies the equation of its scheme. *)
From S2P Require Import Prelude Ssh Buffer Mpint BufferProps Packet Algo AuthKeys AuthKeysProps Auth AuthProps BigNum.
From S2P Require Import SignKey SignKeyProps SignKeyRound SignKeySign SignKeyDsa SignKeyVerify SignKeyWitness.

Section keys.
Context (DIGIT_BIT : Z) (HDB : 8 ≤ DIGIT_BIT) `{BN : !BigNum} `{EO : !EccOps}.
Context (sha1 sha256 sha384 sha512 : list Z → list Z).
Context (Hsha1 : ∀ l, Forall is_byte (sha1 l) ∧ zlen (sha1 l) = SHA1_HASH_SIZE).
Context (Hhash : ∀ l, Forall is_byte (sha256 l) ∧ Forall is_byte (sha384 l) ∧ Forall is_byte (sha512 l)).
Context `{HL : !BigNumLaws DIGIT_BIT} (mulG : ltc_ecc_set → Z → Z * Z) `{HE : !EccLaws DIGIT_BIT mulG}.
Abbreviation keyok := (key_ok DIGIT_BIT sha256 sha384 sha512).
Abbreviation valid := (sig_valid DIGIT_BIT sha1 sha256 sha384 sha512).
Abbreviation parse_key := (p_pub_key DIGIT_BIT sha256 sha384 sha512 new_sign_key DROPBEAR_SIGNKEY_ANY).

(** What [svr_auth_pubkey] does with a key: [new_sign_key], any type. *)
Definition read_key : M buffer (option (sign_key * Z)) :=
  r ← SignKey.buf_get_pub_key DIGIT_BIT sha256 sha384 sha512 new_sign_key DROPBEAR_SIGNKEY_ANY;
  let '(ok, key, type) := r in mret (if ok : bool then Some (key, type) else None).
Lemma read_key_wp b : buf_wf b → wp read_key (λ o b', buf_wf b' ∧ (∃ n, 0 ≤ n ∧ b' = buf_advance b n) ∧
  ∀ k, o = Some k → keyok k.1 k.2 ∧ parse_key (buf_rest b) = Some ((true, k.1, k.2), buf_rest b')) b.
Proof.
  intros Hb. unfold read_key. wp_step. eapply reader_wp; [by apply reader_pub_key|done|]. intros [[ok key] t] n Hn Hl Hw Hp. cbn beta iota. wp_step.
  split; [done|]. split; [eauto|]. destruct ok; [|done]. intros k [= <-]. split; [|done]. eapply p_pub_key_valid; [done| |exact Hp]. by apply buf_rest_bytes.
Qed.
#[export] Instance dropbear_keys : Auth.SignKey (sign_key * Z).
Proof.
  refine {| Auth.buf_get_pub_key := read_key; Auth.buf_verify k data := SignKey.buf_verify DIGIT_BIT sha1 sha256 sha384 sha512 k.1 data; key_sound k := keyok k.1 k.2 |}.
  - intros b Hb. eapply wp_mono; [by apply read_key_wp|]. intros o b' (Hw & Ha & Hk). split; [done|]. split; [done|]. intros k Hk'. by apply Hk.
  - intros k data b Hk Hb _. pose proof (verify_decides DIGIT_BIT HDB sha1 sha256 sha384 sha512 (λ _ _, []) 0 Hsha1 Hhash mulG k.1 k.2 data b Hk Hb) as Hd. unfold wp.
    destruct (SignKey.buf_verify _ _ _ _ _ _ _ _) as [[ok b']|e|e]; [apply Hd|done|done].
Defined.

(** ** Public key authentication, end to end *)
Context {D Mo : Type} (sshhostkey : list (algo_type D Mo)) (opts : auth_opts) (conf_home conf_shell : list Z).
Context (gettime : nat → Z * Z) (genrandom : nat → Z) (authfile : nat → option (list Z)).
Context (Hmax : maxauthtries opts < U32) (Hfile : ∀ t l, authfile t = Some l → Forall is_byte l).

(** A request that is signed with a listed key: the file lists the blob, the
    blob parses as a sound key, and the rest of the packet is a signature of the
    session identifier and the packet up to it that satisfies the equation. *)
Definition signed_request (sid p : buffer) (beg : Z) : Prop :=
  ∃ user service w algo keyblob tl t o key type p2 data,
    buf_rest p = str user ++ str service ++ str AUTH_METHOD_PUBKEY ++ [w] ++ str algo ++ str keyblob ++ tl ∧ w ≠ 0 ∧
    checkpubkey sshhostkey (authfile t) algo keyblob None = Ok (true, o) ∧
    parse_key (keyblob ++ tl) = Some ((true, key, type), buf_rest p2) ∧ keyok key type ∧
    (∃ n, p2 = buf_advance p n) ∧ buf_content data = signed_data sid p2 beg ∧ valid key type data (buf_rest p2).
Lemma signed_credential types sid p beg : types ≠ AUTH_TYPE_PASSWORD → credential sshhostkey authfile types sid p beg → signed_request sid p beg.
Proof.
  intros Ht [user service pw tl E _ _|user service p' n -> Hr Hc]; [done|].
  destruct Hc as (w & algo & keyblob & tl & t & o & p1 & [key type] & p2 & data & p3 & Hr1 & Hw & Hck & [n1 ->] & Hr2 & Hw1 & Hg & Hw2 & Hd & Hv).
  pose proof (read_key_wp _ Hw1) as Hk. cbn in Hg. unfold wp in Hk. rewrite Hg in Hk. destruct Hk as (_ & (n2 & _ & ->) & Hk). destruct (Hk _ eq_refl) as [Hok Hp]. cbn [fst snd] in Hok, Hp. rewrite Hr2 in Hp.
  exists user, service, w, algo, keyblob, tl, t, o, key, type. eexists _, data. split; [rewrite Hr, Hr1; done|]. split; [done|]. split; [done|]. split; [exact Hp|]. split; [done|].
  split; [rewrite !buf_advance_advance; eauto|]. split; [done|]. cbn in Hv.
  pose proof (verify_decides DIGIT_BIT HDB sha1 sha256 sha384 sha512 (λ _ _, []) 0 Hsha1 Hhash mulG key type data _ Hok Hw2) as Hdec. rewrite Hv in Hdec. by apply Hdec.
Qed.
(** C1. Public key authentication is sound, end to end.  When the device has an
    [authorized_keys] file, then whatever requests a client sends, no access is
    undefined, and if the session ends up authenticated one of the requests held
    a blob that the file lists, the blob parsed as a sound key, and what
    followed it in the request is a signature, valid under the equation of the
    key's scheme, of the session identifier and the request up to there. *)
Theorem pubkey_login_signed s reqs : session_start s → Forall request_ok reqs →
  let s0 := svr_authinitialise authfile s in
  authtypes s0 ≠ AUTH_TYPE_PASSWORD →
  wp (run_requests sshhostkey opts conf_home conf_shell gettime genrandom authfile reqs) (λ _ s', authdone s' = true →
    ∃ p beg, (p, beg) ∈ reqs ∧ signed_request (session_id s) p beg) s0.
Proof.
  intros Hs Hr s0 Ht. destruct (inv_initialise opts conf_shell authfile s Hs) as (Hi & Hd & Ho & Hsid & _). fold s0 in Hi, Hd, Ho, Hsid.
  eapply wp_mono; [by apply wp_requests|]. intros [] s' [_ H] Hd'. rewrite Hd', Hsid in H. destruct H as (p & beg & Hin & Hc). exists p, beg. split; [done|]. by eapply signed_credential.
Qed.
End keys.

(** ** A login with a listed key *)
Definition wit_blob : list Z := rsa_pub_bytes db wit_rsa.
Definition wit_keyfile (t : nat) : option (list Z) := Some (bytes_of_string
  "ssh-rsa AAAAB3NzaC1yc2EAAAABAQAAAIEA//////////////////////////////////////////////////////////////////////////////////////////////////////////////////////////////////////////////////////////////////////////8= phone" ++ [10]).
Definition wit_prefix : list Z :=
  str (bytes_of_string "root") ++ str SSH_SERVICE_CONNECTION ++ str AUTH_METHOD_PUBKEY ++ [1] ++ str SSH_SIGNKEY_RSA ++ str wit_blob.
Definition wit_login : buffer := wit_buffer (wit_prefix ++ wit_signature (str [1; 2; 3; 4] ++ wit_prefix)).
Definition wit_keys : Auth.SignKey (sign_key * Z) := dropbear_keys db db_ok hash20 hash20 hash20 hash20 hash20_ok hashes_ok count_mul.
Abbreviation wit_key_run := (@run_requests _ _ _ wit_keys hostkey_algos wit_opts wit_home wit_shell wit_time wit_random wit_keyfile).
Definition final_state (o : outcome (() * auth)) : auth := match o with Ok (_, s) => s | _ => wit_auth end.
Abbreviation wit_key_final := (final_state (wit_key_run [(wit_login, 0)] (svr_authinitialise wit_keyfile wit_auth))).
Lemma wit_key_login : wit_key_run [(wit_login, 0)] (svr_authinitialise wit_keyfile wit_auth) = Ok (tt, wit_key_final) ∧ authdone wit_key_final = true.
Proof. vm_compute. done. Qed.
Lemma wit_key_login_ok : Forall request_ok [(wit_login, 0)].
Proof. apply Forall_singleton. split; [|done]. apply wit_buffer_wf; [apply (bool_decide_unpack _); vm_compute; exact I|vm_compute; discriminate]. Qed.
Lemma wit_keyfile_bytes t l : wit_keyfile t = Some l → Forall is_byte l.
Proof. intros [= <-]. apply (bool_decide_unpack _). vm_compute. exact I. Qed.
Lemma pubkey_login_signed_witness :
  ∃ p beg, (p, beg) ∈ [(wit_login, 0)] ∧ signed_request db hash20 hash20 hash20 hash20 hostkey_algos wit_keyfile (session_id wit_auth) p beg.
Proof.
  refine (wp_elim _ _ _ _ _ (pubkey_login_signed db db_ok hash20 hash20 hash20 hash20 hash20_ok hashes_ok count_mul hostkey_algos wit_opts wit_home wit_shell
    wit_time wit_random wit_keyfile eq_refl wit_keyfile_bytes wit_auth _ wit_start wit_key_login_ok _) (proj1 wit_key_login) (proj2 wit_key_login)).
  vm_compute. discriminate.
Defined.
