(* ===== verification/SshBuf.v ===== *)
(** * OpenSSH's buffers ([openssh/sshbuf.c], [sshbuf-getput-basic.c])

    The buffers of [sftp-server]: an allocation that grows up to a maximum, with
    bytes appended at the end and consumed at the front; the consumed part is
    reclaimed by packing.  Routines return 0 or a negative error code; a routine
    that also gives a value through a pointer returns a sum.  Children of a
    buffer ([sshbuf_fromb]), [sshbuf_reset] and [sshbuf_set_max_size], which
    [sftp-server] does not use, are left out; the count of references the other
    routines look at is not.  [size_t] is
    taken at the width of the narrowest ABI; lengths stay so small that a wider
    one makes no difference. *)
From S2P Require Import Prelude Buffer.

Definition SSHBUF_SIZE_MAX : Z := 0x8000000.
Definition SSHBUF_REFS_MAX : Z := 0x100000.
Definition SSHBUF_SIZE_INIT : Z := 256.
Definition SSHBUF_SIZE_INC : Z := 256.
Definition SSHBUF_PACK_MIN : Z := 8192.
Definition SSH_ERR_ALLOC_FAIL : Z := -2.
Definition SSH_ERR_MESSAGE_INCOMPLETE : Z := -3.
Definition SSH_ERR_INVALID_FORMAT : Z := -4.
Definition SSH_ERR_STRING_TOO_LARGE : Z := -6.
Definition SSH_ERR_NO_BUFFER_SPACE : Z := -9.
Definition SSH_ERR_BUFFER_READ_ONLY : Z := -49.

(** [d] and [cd] point to the same allocation, [alloc] is its size. *)
Record sshbuf := mkSb {
  sb_d : list Z;
  sb_off : Z;
  sb_size : Z;
  sb_max_size : Z;
  sb_readonly : bool;
  sb_refcount : Z
}.
Abbreviation sb_alloc b := (zlen (sb_d b)).
Definition set_d (v : list Z) (b : sshbuf) : sshbuf :=
  mkSb v (sb_off b) (sb_size b) (sb_max_size b) (sb_readonly b) (sb_refcount b).
Definition set_off (v : Z) (b : sshbuf) : sshbuf :=
  mkSb (sb_d b) v (sb_size b) (sb_max_size b) (sb_readonly b) (sb_refcount b).
Definition set_size (v : Z) (b : sshbuf) : sshbuf :=
  mkSb (sb_d b) (sb_off b) v (sb_max_size b) (sb_readonly b) (sb_refcount b).
Section sshbuf.
(** Whether [malloc], [calloc] or [realloc] of a number of bytes succeeds. *)
Variable mem_ok : Z → bool.

(** A corrupted buffer raises [SIGSEGV]. *)
Definition sane (b : sshbuf) : bool :=
  negb ((sb_refcount b <? 1) || (sb_refcount b >? SSHBUF_REFS_MAX) || (sb_max_size b >? SSHBUF_SIZE_MAX) ||
        (sb_alloc b >? sb_max_size b) || (sb_size b >? sb_alloc b) || (sb_off b >? sb_size b)).
Definition sshbuf_check_sanity : M sshbuf () :=
  b ← get;
  if sane b then mret tt else undefined "corrupted buffer".
Definition shared (b : sshbuf) : bool := sb_readonly b || (sb_refcount b >? 1).

(** [realloc]; the contents of new bytes are not specified. *)
Definition realloc (d : list Z) (n : Z) : list Z :=
  take (Z.to_nat n) d ++ replicate (Z.to_nat (n - zlen d)) 0.
Definition roundup (x y : Z) : Z := u32 (u32 (x + (y - 1)) / y * y).

Definition sshbuf_maybe_pack (force : bool) : M sshbuf () :=
  b ← get;
  if (sb_off b =? 0) || sb_readonly b || (sb_refcount b >? 1) then mret tt
  else if force || ((sb_off b >=? SSHBUF_PACK_MIN) && (sb_off b >=? sb_size b / 2)) then
    bs ← lift (mem_load (sb_d b) (sb_off b) (u32 (sb_size b - sb_off b)));
    d ← lift (mem_store (sb_d b) 0 bs);
    put (set_off 0 (set_size (u32 (sb_size b - sb_off b)) (set_d d b)))
  else mret tt.

(** When [calloc] fails the first use of the buffer raises [SIGSEGV]. *)
Definition sshbuf_init : outcome sshbuf :=
  if mem_ok SSHBUF_SIZE_INIT then
    Ok (mkSb (replicate (Z.to_nat SSHBUF_SIZE_INIT) 0) 0 0 SSHBUF_SIZE_MAX false 1)
  else Exit "SIGSEGV".
Definition sshbuf_len : M sshbuf Z :=
  sshbuf_check_sanity;;
  b ← get;
  mret (u32 (sb_size b - sb_off b)).
Definition sshbuf_avail : M sshbuf Z :=
  sshbuf_check_sanity;;
  b ← get;
  mret (if shared b then 0 else u32 (sb_max_size b - u32 (sb_size b - sb_off b))).
(** A pointer into the allocation is an offset. *)
Definition sshbuf_ptr : M sshbuf Z :=
  sshbuf_check_sanity;;
  b ← get;
  mret (sb_off b).
Definition load (p n : Z) : M sshbuf (list Z) :=
  b ← get;
  lift (mem_load (sb_d b) p n).
Definition store (p : Z) (bs : list Z) : M sshbuf () :=
  b ← get;
  d ← lift (mem_store (sb_d b) p bs);
  put (set_d d b).

Definition sshbuf_check_reserve (len : Z) : M sshbuf Z :=
  sshbuf_check_sanity;;
  b ← get;
  mret (if shared b then SSH_ERR_BUFFER_READ_ONLY
        else if (len >? sb_max_size b) || (u32 (sb_max_size b - len) <? u32 (sb_size b - sb_off b)) then SSH_ERR_NO_BUFFER_SPACE
        else 0).
(** The part of [sshbuf_reserve] that makes the allocation larger. *)
Definition reserve_grow (len : Z) : M sshbuf Z :=
  b ← get;
  if u32 (len + sb_size b) >? sb_alloc b then
    let need := u32 (len + sb_size b - sb_alloc b) in
    let rlen := roundup (u32 (sb_alloc b + need)) SSHBUF_SIZE_INC in
    let rlen := if rlen >? sb_max_size b then u32 (sb_alloc b + need) else rlen in
    if mem_ok rlen then
      put (set_d (realloc (sb_d b) rlen) b);;
      sshbuf_check_reserve len
    else mret SSH_ERR_ALLOC_FAIL
  else mret 0.
Definition sshbuf_reserve (len : Z) : M sshbuf (Z + Z) :=
  r ← sshbuf_check_reserve len;
  if negb (r =? 0) then mret (inl r)
  else
    b ← get;
    sshbuf_maybe_pack (u32 (sb_size b + len) >? sb_max_size b);;
    r ← reserve_grow len;
    if r <? 0 then mret (inl r)
    else
      b ← get;
      put (set_size (u32 (sb_size b + len)) b);;
      mret (inr (sb_size b)).
Definition sshbuf_consume (len : Z) : M sshbuf Z :=
  sshbuf_check_sanity;;
  if len =? 0 then mret 0
  else
    n ← sshbuf_len;
    if len >? n then mret SSH_ERR_MESSAGE_INCOMPLETE
    else modify (λ b, set_off (u32 (sb_off b + len)) b);; mret 0.
Definition sshbuf_consume_end (len : Z) : M sshbuf Z :=
  sshbuf_check_sanity;;
  if len =? 0 then mret 0
  else
    n ← sshbuf_len;
    if len >? n then mret SSH_ERR_MESSAGE_INCOMPLETE
    else modify (λ b, set_size (u32 (sb_size b - len)) b);; mret 0.

(** ** Fields *)
(** [PEEK_U64] and [POKE_U64], [PEEK_U16] and [POKE_U16]; those of 32 bits are
    [LOAD32H] and [STORE32H]. *)
Definition U64 : Z := 18446744073709551616.
Definition u64 (x : Z) : Z := x mod U64.
Definition POKE_U64 (v : Z) : list Z := STORE32H (Z.shiftr v 32) ++ STORE32H v.
Definition PEEK_U64 (p : list Z) : Z := Z.lor (Z.shiftl (LOAD32H (take 4 p)) 32) (LOAD32H (drop 4 p)).
Definition POKE_U16 (v : Z) : list Z := [Z.land (Z.shiftr v 8) 255; Z.land v 255].
Definition PEEK_U16 (p : list Z) : Z :=
  match p with [a; b] => Z.lor (Z.shiftl a 8) b | _ => 0 end.

Definition sshbuf_get (len : Z) : M sshbuf (Z + list Z) :=
  p ← sshbuf_ptr;
  r ← sshbuf_consume len;
  if r <? 0 then mret (inl r) else bs ← load p len; mret (inr bs).
Definition sshbuf_get_u64 : M sshbuf (Z + Z) :=
  p ← sshbuf_ptr;
  r ← sshbuf_consume 8;
  if r <? 0 then mret (inl r) else bs ← load p 8; mret (inr (PEEK_U64 bs)).
Definition sshbuf_get_u32 : M sshbuf (Z + Z) :=
  p ← sshbuf_ptr;
  r ← sshbuf_consume 4;
  if r <? 0 then mret (inl r) else bs ← load p 4; mret (inr (LOAD32H bs)).
Definition sshbuf_get_u16 : M sshbuf (Z + Z) :=
  p ← sshbuf_ptr;
  r ← sshbuf_consume 2;
  if r <? 0 then mret (inl r) else bs ← load p 2; mret (inr (PEEK_U16 bs)).
Definition sshbuf_get_u8 : M sshbuf (Z + Z) :=
  p ← sshbuf_ptr;
  r ← sshbuf_consume 1;
  if r <? 0 then mret (inl r) else bs ← load p 1; mret (inr (default 0 (head bs))).
(** Where the string starts, and its length. *)
Definition sshbuf_peek_string_direct : M sshbuf (Z + Z * Z) :=
  p ← sshbuf_ptr;
  n ← sshbuf_len;
  if n <? 4 then mret (inl SSH_ERR_MESSAGE_INCOMPLETE)
  else
    bs ← load p 4;
    let len := LOAD32H bs in
    if len >? SSHBUF_SIZE_MAX - 4 then mret (inl SSH_ERR_STRING_TOO_LARGE)
    else if n - 4 <? len then mret (inl SSH_ERR_MESSAGE_INCOMPLETE)
    else mret (inr (p + 4, len)).
Definition sshbuf_get_string_direct : M sshbuf (Z + Z * Z) :=
  r ← sshbuf_peek_string_direct;
  match r with
  | inl r => mret (inl r)
  | inr (p, len) =>
      r ← sshbuf_consume (u32 (len + 4));
      if r =? 0 then mret (inr (p, len)) else undefined "SSHBUF_ABORT"
  end.
(** The copy, with its terminator left out. *)
Definition sshbuf_get_string : M sshbuf (Z + list Z) :=
  r ← sshbuf_get_string_direct;
  match r with
  | inl r => mret (inl r)
  | inr (p, len) => if mem_ok (len + 1) then bs ← load p len; mret (inr bs) else mret (inl SSH_ERR_ALLOC_FAIL)
  end.
Definition sshbuf_get_cstring : M sshbuf (Z + list Z) :=
  r ← sshbuf_peek_string_direct;
  match r with
  | inl r => mret (inl r)
  | inr (p, len) =>
      bs ← load p len;
      if (len >? 0) && (strlen bs <? len - 1) then mret (inl SSH_ERR_INVALID_FORMAT)
      else
        r ← sshbuf_get_string_direct;
        match r with
        | inl _ => mret (inl (-1))
        | inr _ => if mem_ok (len + 1) then mret (inr bs) else mret (inl SSH_ERR_ALLOC_FAIL)
        end
  end.

Definition put_bytes (n : Z) (bs : list Z) : M sshbuf Z :=
  r ← sshbuf_reserve n;
  match r with
  | inl r => mret r
  | inr p => store p bs;; mret 0
  end.
Definition sshbuf_put (v : list Z) (len : Z) : M sshbuf Z :=
  r ← sshbuf_reserve len;
  match r with
  | inl r => mret r
  | inr p => bs ← lift (mem_load v 0 len); store p bs;; mret 0
  end.
Definition sshbuf_put_u64 (val : Z) : M sshbuf Z := put_bytes 8 (POKE_U64 val).
Definition sshbuf_put_u32 (val : Z) : M sshbuf Z := put_bytes 4 (STORE32H val).
Definition sshbuf_put_u16 (val : Z) : M sshbuf Z := put_bytes 2 (POKE_U16 val).
Definition sshbuf_put_u8 (val : Z) : M sshbuf Z := put_bytes 1 [u8 val].
Definition sshbuf_put_string (v : list Z) (len : Z) : M sshbuf Z :=
  if len >? SSHBUF_SIZE_MAX - 4 then mret SSH_ERR_NO_BUFFER_SPACE
  else
    r ← sshbuf_reserve (u32 (len + 4));
    match r with
    | inl r => mret r
    | inr p =>
        store p (STORE32H len);;
        bs ← lift (mem_load v 0 len);
        store (p + 4) bs;;
        mret 0
    end.
Definition sshbuf_put_cstring (v : list Z) : M sshbuf Z := sshbuf_put_string v (strlen v).
End sshbuf.

(** ** The queue a buffer holds *)
Record sb_wf (b : sshbuf) : Prop := {
  sw_own : sb_readonly b = false ∧ sb_refcount b = 1;
  sw_off : 0 ≤ sb_off b ≤ sb_size b;
  sw_size : sb_size b ≤ sb_alloc b;
  sw_alloc : sb_alloc b ≤ sb_max_size b;
  sw_max : sb_max_size b ≤ SSHBUF_SIZE_MAX;
  sw_bytes : Forall is_byte (sb_d b)
}.
Definition sb_rest (b : sshbuf) : list Z :=
  take (Z.to_nat (sb_size b - sb_off b)) (drop (Z.to_nat (sb_off b)) (sb_d b)).
Ltac sb_facts :=
  repeat match goal with
  | H : sb_wf ?b |- _ =>
      lazymatch goal with
      | _ : 0 ≤ sb_off b ≤ sb_size b |- _ => fail
      | _ =>
          pose proof (sw_off b H); pose proof (sw_size b H); pose proof (sw_alloc b H);
          let Hm := fresh in pose proof (sw_max b H) as Hm; unfold SSHBUF_SIZE_MAX in Hm
      end
  end.

Section props.
Variable mem_ok : Z → bool.
Implicit Types b : sshbuf.

Lemma sb_rest_length b : sb_wf b → zlen (sb_rest b) = sb_size b - sb_off b.
Proof. intros Hb. sb_facts. unfold sb_rest. rewrite length_take, length_drop. lia. Qed.
Lemma sb_rest_bytes b : sb_wf b → Forall is_byte (sb_rest b).
Proof. intros []. unfold sb_rest. by apply Forall_take, Forall_drop. Qed.
Lemma sane_ok b : sb_wf b → sane b = true.
Proof. intros Hb. destruct (sw_own b Hb). sb_facts. unfold sane, SSHBUF_REFS_MAX, SSHBUF_SIZE_MAX in *. bool_lia. Qed.
Lemma check_sanity_ok b : sb_wf b → sshbuf_check_sanity b = Ok (tt, b).
Proof. intros Hb. unfold sshbuf_check_sanity, mbind, M_bind, get. by rewrite sane_ok. Qed.
Lemma not_shared b : sb_wf b → shared b = false.
Proof. intros Hb. destruct (sw_own b Hb) as [E1 E2]. unfold shared. by rewrite E1, E2. Qed.

Lemma len_ok b : sb_wf b → sshbuf_len b = Ok (zlen (sb_rest b), b).
Proof.
  intros Hb. unfold sshbuf_len. rewrite (bind_ok _ _ _ _ _ (check_sanity_ok b Hb)), sb_rest_length by done.
  unfold mbind, M_bind, get, mret, M_ret. sb_facts. rewrite u32_small by (unfold U32; lia). done.
Qed.
Lemma ptr_ok b : sb_wf b → sshbuf_ptr b = Ok (sb_off b, b).
Proof. intros Hb. unfold sshbuf_ptr. by rewrite (bind_ok _ _ _ _ _ (check_sanity_ok b Hb)). Qed.

(** What an operation that does not change the queue leaves alone. *)
Definition same_queue b b' : Prop := sb_wf b' ∧ sb_rest b' = sb_rest b ∧ sb_max_size b' = sb_max_size b.
Lemma same_refl b : sb_wf b → same_queue b b.
Proof. intros Hb. split; [done|by split]. Qed.
Lemma maybe_pack_ok force b : sb_wf b →
  ∃ b', sshbuf_maybe_pack force b = Ok (tt, b') ∧ same_queue b b' ∧ sb_alloc b' = sb_alloc b ∧ (force = true → sb_off b' = 0) ∧
    sb_size b' ≤ sb_size b.
Proof.
  intros Hb. pose proof (sb_rest_length b Hb) as Hl. unfold sshbuf_maybe_pack. unfold mbind at 1, M_bind at 1, get.
  destruct (sw_own b Hb) as [E1 E2]. rewrite E1, E2. cbn [orb]. rewrite orb_false_r.
  destruct (Z.eqb_spec (sb_off b) 0) as [E|E]; cbn [orb]; [by exists b; split_and!; [|apply same_refl|..]|].
  destruct (force || _) eqn:Ef; [|exists b; split_and!; [done|by apply same_refl|done| |done]; by intros ->].
  assert (Hu : u32 (sb_size b - sb_off b) = zlen (sb_rest b)) by (rewrite Hl; sb_facts; apply u32_small; unfold U32; lia).
  rewrite Hu. sb_facts. unfold lift at 1. rewrite mem_load_ok by lia. unfold mbind at 1, M_bind at 1.
  assert (Er : take (Z.to_nat (zlen (sb_rest b))) (drop (Z.to_nat (sb_off b)) (sb_d b)) = sb_rest b) by (by rewrite Hl).
  rewrite Er. unfold lift. rewrite mem_store_ok by lia. unfold mbind, M_bind, put.
  set (d := take _ _ ++ _). assert (Hd : d = sb_rest b ++ drop (length (sb_rest b)) (sb_d b)) by (unfold d; cbn; by rewrite Z.add_0_l, Nat2Z.id).
  assert (Hdl : length d = length (sb_d b)) by (rewrite Hd, length_app, length_drop; lia).
  eexists. split; [done|]. split; [split; [|split]|split; [|split; [done|cbn; lia]]].
  - split; cbn; unfold SSHBUF_SIZE_MAX; [done|lia..|]. rewrite Hd. apply Forall_app. split; [by apply sb_rest_bytes|by apply Forall_drop, sw_bytes].
  - unfold sb_rest at 1; cbn. rewrite Z.sub_0_r, Nat2Z.id, Hd, drop_0. apply take_app_length.
  - done.
  - cbn. by rewrite Hdl.
Qed.

Lemma check_reserve_ok len b : sb_wf b → 0 ≤ len < U32 →
  sshbuf_check_reserve len b = Ok (if zlen (sb_rest b) + len >? sb_max_size b then SSH_ERR_NO_BUFFER_SPACE else 0, b).
Proof.
  intros Hb Hlen. unfold sshbuf_check_reserve. rewrite (bind_ok _ _ _ _ _ (check_sanity_ok b Hb)). unfold mbind, M_bind, get, mret, M_ret.
  rewrite not_shared, sb_rest_length by done. sb_facts. repeat f_equal.
  destruct (Z.gtb_spec len (sb_max_size b)); cbn [orb].
  - destruct (Z.gtb_spec (sb_size b - sb_off b + len) (sb_max_size b)); [done|lia].
  - rewrite !u32_small by (unfold U32; lia). destruct (Z.ltb_spec (sb_max_size b - len) (sb_size b - sb_off b)), (Z.gtb_spec (sb_size b - sb_off b + len) (sb_max_size b)); (done || lia).
Qed.

(** An allocation the buffers can ask for fails. *)
Definition no_memory : Prop := ∃ n, n ≤ SSHBUF_SIZE_MAX ∧ mem_ok n = false.
Lemma roundup_ok x : 0 ≤ x ≤ 2 * SSHBUF_SIZE_MAX → x ≤ roundup x SSHBUF_SIZE_INC < U32.
Proof.
  unfold SSHBUF_SIZE_MAX, roundup, SSHBUF_SIZE_INC, U32. intros Hx. rewrite (u32_small (x + _)) by (unfold U32; lia).
  assert (x ≤ (x + (256 - 1)) / 256 * 256 ≤ x + 255) by (Z.to_euclidean_division_equations; lia).
  rewrite u32_small by (unfold U32; lia). lia.
Qed.
Lemma realloc_length d n : 0 ≤ n → zlen (realloc d n) = n.
Proof. intros. unfold realloc. rewrite length_app, length_take, length_replicate. lia. Qed.
Lemma realloc_bytes d n : Forall is_byte d → Forall is_byte (realloc d n).
Proof. intros. unfold realloc. apply Forall_app. split; [by apply Forall_take|]. apply Forall_replicate. done. Qed.
Lemma realloc_wf b n : sb_wf b → sb_alloc b ≤ n ≤ sb_max_size b → same_queue b (set_d (realloc (sb_d b) n) b).
Proof.
  intros Hb Hn. sb_facts. assert (Hl : zlen (realloc (sb_d b) n) = n) by (apply realloc_length; lia). split; [|split; [|done]].
  - split; cbn; unfold SSHBUF_SIZE_MAX; [apply Hb|lia..|]. by apply realloc_bytes, sw_bytes.
  - unfold sb_rest; cbn. unfold realloc. rewrite (take_ge (sb_d b)) by lia. rewrite drop_app_le by lia. rewrite take_app_le; [done|].
    rewrite length_drop. lia.
Qed.

Lemma grow_ok len b : sb_wf b → 0 ≤ len → sb_size b + len ≤ sb_max_size b →
  (reserve_grow mem_ok len b = Ok (SSH_ERR_ALLOC_FAIL, b) ∧ no_memory) ∨
  (∃ b', reserve_grow mem_ok len b = Ok (0, b') ∧ same_queue b b' ∧ sb_off b' = sb_off b ∧ sb_size b' = sb_size b ∧ sb_size b + len ≤ sb_alloc b').
Proof.
  intros Hb Hlen Hsz. unfold reserve_grow. unfold mbind at 1 3, M_bind at 1 3, get. sb_facts. rewrite !(u32_small (len + sb_size b)) by (unfold U32; lia).
  destruct (Z.gtb_spec (len + sb_size b) (sb_alloc b)) as [Hgt|Hle].
  - rewrite (u32_small (len + sb_size b - sb_alloc b)) by (unfold U32; lia). rewrite (u32_small (sb_alloc b + _)) by (unfold U32; lia).
    set (x := sb_alloc b + _). assert (Hx : x = sb_size b + len) by (unfold x; lia). clearbody x.
    pose proof (roundup_ok x ltac:(unfold SSHBUF_SIZE_MAX; lia)) as Hru. set (n := if _ >? _ then x else _).
    assert (Hn : x ≤ n ≤ sb_max_size b) by (unfold n; destruct (Z.gtb_spec (roundup x SSHBUF_SIZE_INC) (sb_max_size b)); lia). clearbody n.
    destruct (mem_ok n) eqn:Em; [right|left; split; [done|]; exists n; unfold SSHBUF_SIZE_MAX; split; [lia|done]].
    destruct (realloc_wf b n Hb ltac:(lia)) as (Hb2 & Hr2 & Hm2). set (b2 := set_d _ b) in *. exists b2.
    unfold mbind, M_bind, put. rewrite check_reserve_ok by (try done; unfold U32; lia). rewrite Hr2, sb_rest_length by done.
    split_and!; [|by split|done|done|cbn; rewrite realloc_length by lia; lia].
    destruct (Z.gtb_spec (sb_size b - sb_off b + len) (sb_max_size b2)); [|done]. change (sb_max_size b2) with (sb_max_size b) in *. lia.
  - right. exists b. split_and!; [done|by apply same_refl|done|done|lia].
Qed.
Lemma take_rest b b' : sb_d b' = sb_d b → sb_off b' = sb_off b → 0 ≤ sb_off b → sb_size b ≤ sb_size b' → sb_off b ≤ sb_size b → sb_size b ≤ sb_alloc b →
  take (length (sb_rest b)) (sb_rest b') = sb_rest b.
Proof.
  intros E1 E2 H0 H1 H2 H3. unfold sb_rest. rewrite E1, E2, length_take, length_drop, take_take. f_equal. lia.
Qed.
(** What [sshbuf_reserve] may return; it fails for lack of memory only if an
    allocation can fail. *)
Lemma reserve_ok len b : sb_wf b → 0 ≤ len < U32 →
  if zlen (sb_rest b) + len >? sb_max_size b then sshbuf_reserve mem_ok len b = Ok (inl SSH_ERR_NO_BUFFER_SPACE, b)
  else (∃ b', sshbuf_reserve mem_ok len b = Ok (inl SSH_ERR_ALLOC_FAIL, b') ∧ same_queue b b' ∧ no_memory) ∨
       (∃ b', sshbuf_reserve mem_ok len b = Ok (inr (sb_off b' + zlen (sb_rest b)), b') ∧ sb_wf b' ∧
          sb_size b' = sb_off b' + zlen (sb_rest b) + len ∧ sb_max_size b' = sb_max_size b ∧
          take (length (sb_rest b)) (sb_rest b') = sb_rest b).
Proof.
  intros Hb Hlen. unfold sshbuf_reserve. rewrite (bind_ok _ _ _ _ _ (check_reserve_ok len b Hb Hlen)).
  destruct (Z.gtb_spec (zlen (sb_rest b) + len) (sb_max_size b)) as [Hno|Hfit]; cbn [Z.eqb negb]; [done|].
  rewrite (bind_ok get _ b b b) by done. pose proof (sb_rest_length b Hb) as Hl. sb_facts.
  destruct (maybe_pack_ok (u32 (sb_size b + len) >? sb_max_size b) b Hb) as (b1 & Ep & (Hb1 & Hr1 & Hm1) & Ha1 & Ho1 & Hs1).
  rewrite (bind_ok _ _ _ _ _ Ep). pose proof (sb_rest_length b1 Hb1) as Hl1. rewrite Hr1 in Hl1. sb_facts.
  assert (Hsz : sb_size b1 + len ≤ sb_max_size b).
  { rewrite u32_small in Ho1 by (unfold U32; lia). destruct (Z.gtb_spec (sb_size b + len) (sb_max_size b)); [|lia]. rewrite Ho1 in Hl1 by done. lia. }
  destruct (grow_ok len b1 Hb1) as [[Eg Hno]|(b2 & Eg & (Hb2 & Hr2 & Hm2) & Ho2 & Hs2 & Hfit2)]; [lia..|left|right].
  - exists b1. rewrite (bind_ok _ _ _ _ _ Eg). split; [done|]. split; [by split|done].
  - rewrite (bind_ok _ _ _ _ _ Eg). cbn [Z.ltb Z.compare]. sb_facts. unfold mbind, M_bind, get, put, mret, M_ret.
    rewrite u32_small by (unfold U32; lia). exists (set_size (sb_size b2 + len) b2). split_and!; [| |cbn; lia|cbn; lia|].
    + cbn. repeat f_equal. lia.
    + destruct Hb2. split; cbn; done || (unfold SSHBUF_SIZE_MAX in *; lia).
    + rewrite <- Hr1, <- Hr2. apply take_rest; cbn; done || lia.
Qed.
Lemma fill_ok b n bs : sb_wf b → Forall is_byte bs → sb_size b = sb_off b + n + zlen bs → 0 ≤ n →
  ∃ b', store (sb_off b + n) bs b = Ok (tt, b') ∧ sb_wf b' ∧ sb_rest b' = take (Z.to_nat n) (sb_rest b) ++ bs ∧ sb_max_size b' = sb_max_size b.
Proof.
  intros Hb Hbs Hs Hn. sb_facts. unfold store, mbind, M_bind, get, lift. rewrite mem_store_ok by lia. unfold put. set (d := take _ _ ++ _).
  assert (Hd : length d = length (sb_d b)).
  { unfold d. replace (Z.to_nat (sb_off b + n + zlen bs)) with (Z.to_nat (sb_off b + n) + length bs)%nat by lia. apply splice_length. lia. }
  eexists. split; [done|]. split_and!; [| |done].
  - split; cbn; unfold SSHBUF_SIZE_MAX; [apply Hb|lia..|]. apply Forall_splice; [by apply sw_bytes|done].
  - unfold sb_rest at 1; cbn. unfold d. rewrite drop_app_le by (rewrite length_take; lia). rewrite take_app_ge by (rewrite length_drop, length_take; lia).
    rewrite length_drop, length_take. f_equal.
    + unfold sb_rest. rewrite take_take, take_drop_commute. do 2 f_equal. lia.
    + rewrite take_app_le by lia. apply take_ge. lia.
Qed.

(** ** Appending *)
Class Puts (op : M sshbuf Z) (bs : list Z) : Prop := {
  puts_bytes : Forall is_byte bs;
  puts_ok : ∀ b, sb_wf b →
    if zlen (sb_rest b) + zlen bs >? sb_max_size b then op b = Ok (SSH_ERR_NO_BUFFER_SPACE, b)
    else (∃ b', op b = Ok (SSH_ERR_ALLOC_FAIL, b') ∧ same_queue b b' ∧ no_memory) ∨
         (∃ b', op b = Ok (0, b') ∧ sb_wf b' ∧ sb_rest b' = sb_rest b ++ bs ∧ sb_max_size b' = sb_max_size b)
}.
Lemma puts_reserve (op : M sshbuf Z) (fill : Z → M sshbuf Z) bs : Forall is_byte bs → zlen bs < U32 →
  (∀ b, op b = (r ← sshbuf_reserve mem_ok (zlen bs); match r with inl r => mret r | inr p => fill p end) b) →
  (∀ b n, sb_wf b → sb_size b = sb_off b + n + zlen bs → 0 ≤ n → fill (sb_off b + n) b = (store (sb_off b + n) bs;; mret 0) b) →
  Puts op bs.
Proof.
  intros Hbs Hl Hop Hfill. split; [done|]. intros b Hb. rewrite Hop. pose proof (reserve_ok (zlen bs) b Hb ltac:(lia)) as Hr.
  destruct (_ >? _); [by rewrite (bind_ok _ _ _ _ _ Hr)|]. destruct Hr as [(b' & E & Hs & Hno)|(b' & E & Hb' & Hs' & Hm' & Ht)].
  - left. exists b'. rewrite (bind_ok _ _ _ _ _ E). by split.
  - right. rewrite (bind_ok _ _ _ _ _ E). rewrite Hfill by (done || lia).
    destruct (fill_ok b' (zlen (sb_rest b)) bs Hb' Hbs) as (b2 & E2 & Hb2 & Hr2 & Hm2); [lia..|]. exists b2.
    rewrite (bind_ok _ _ _ _ _ E2). rewrite Nat2Z.id, Ht in Hr2. split_and!; [done..|congruence].
Qed.
Lemma puts_put_bytes n bs : Forall is_byte bs → zlen bs = n → n < U32 → Puts (put_bytes mem_ok n bs) bs.
Proof. intros Hbs <- Hn. by apply (puts_reserve _ (λ p, store p bs;; mret 0)). Qed.
Lemma POKE_U64_bytes v : Forall is_byte (POKE_U64 v).
Proof. apply Forall_app. split; apply STORE32H_bytes. Qed.
#[export] Instance puts_u64 v : Puts (sshbuf_put_u64 mem_ok v) (POKE_U64 v).
Proof. by apply puts_put_bytes; [apply POKE_U64_bytes|..]. Qed.
#[export] Instance puts_u32 v : Puts (sshbuf_put_u32 mem_ok v) (STORE32H v).
Proof. by apply puts_put_bytes; [apply STORE32H_bytes|..]. Qed.
#[export] Instance puts_u16 v : Puts (sshbuf_put_u16 mem_ok v) (POKE_U16 v).
Proof. apply puts_put_bytes; [|done..]. unfold POKE_U16. rewrite !land_255. repeat constructor; by apply Z.mod_pos_bound. Qed.
#[export] Instance puts_u8 v : Puts (sshbuf_put_u8 mem_ok v) [u8 v].
Proof. apply puts_put_bytes; [|done..]. repeat constructor; apply u8_byte. Qed.
Lemma puts_put v len : Forall is_byte v → 0 ≤ len ≤ zlen v → len < U32 → Puts (sshbuf_put mem_ok v len) (take (Z.to_nat len) v).
Proof.
  intros Hv Hl Hlen. assert (E : zlen (take (Z.to_nat len) v) = len) by (rewrite length_take; lia).
  apply (puts_reserve _ (λ p, bs ← lift (mem_load v 0 len); store p bs;; mret 0)); [by apply Forall_take|lia|by rewrite E|].
  intros b n _ _ _. unfold lift. rewrite mem_load_ok by lia. cbn [Z.to_nat]. rewrite drop_0. done.
Qed.
Lemma store_store p a c b : 0 ≤ p → p + zlen a + zlen c ≤ sb_alloc b →
  (store p a;; store (p + zlen a) c) b = store p (a ++ c) b.
Proof.
  intros Hp Hfit. unfold store, mbind, M_bind, get, lift, put. rewrite (mem_store_ok _ p a), (mem_store_ok _ p (a ++ c)) by (rewrite ?length_app; lia).
  set (d1 := take _ _ ++ a ++ _). assert (Hd1 : length d1 = length (sb_d b)).
  { unfold d1. replace (Z.to_nat (p + zlen a)) with (Z.to_nat p + length a)%nat by lia. apply splice_length. lia. }
  change (sb_d (set_d d1 b)) with d1. rewrite mem_store_ok by lia.
  assert (E : take (Z.to_nat (p + zlen a)) d1 ++ c ++ drop (Z.to_nat (p + zlen a + zlen c)) d1 =
              take (Z.to_nat p) (sb_d b) ++ (a ++ c) ++ drop (Z.to_nat (p + zlen (a ++ c))) (sb_d b)); [|by rewrite E].
  unfold d1. rewrite (app_assoc (take (Z.to_nat p) _) a), take_app_le by (rewrite length_app, length_take; lia).
  rewrite take_ge by (rewrite length_app, length_take; lia). rewrite <- !app_assoc. do 3 f_equal.
  rewrite app_assoc, drop_app_ge by (rewrite length_app, length_take; lia). rewrite drop_drop, !length_app, length_take. f_equal. lia.
Qed.
Lemma puts_string v len : Forall is_byte v → 0 ≤ len ≤ zlen v → len ≤ SSHBUF_SIZE_MAX - 4 →
  Puts (sshbuf_put_string mem_ok v len) (STORE32H len ++ take (Z.to_nat len) v).
Proof.
  unfold SSHBUF_SIZE_MAX. intros Hv Hl Hlen. set (bs := take _ v). assert (E : zlen bs = len) by (unfold bs; rewrite length_take; lia).
  assert (El : zlen (STORE32H len ++ bs) = len + 4) by (rewrite length_app, STORE32H_length; lia).
  apply (puts_reserve _ (λ p, store p (STORE32H len);; (c ← lift (mem_load v 0 len); store (p + 4) c;; mret 0))).
  - apply Forall_app. split; [apply STORE32H_bytes|by apply Forall_take].
  - unfold U32. lia.
  - intros b. unfold sshbuf_put_string, SSHBUF_SIZE_MAX. destruct (Z.gtb_spec len (0x8000000 - 4)); [lia|]. rewrite u32_small by (unfold U32; lia).
    by rewrite El.
  - intros b n Hb Hs Hn. sb_facts. pose proof (store_store (sb_off b + n) (STORE32H len) bs b ltac:(lia) ltac:(rewrite STORE32H_length; lia)) as Hss.
    rewrite STORE32H_length in Hss. unfold mbind, M_bind in Hss |- *. rewrite <- Hss. destruct (store _ (STORE32H len) b) as [[]| |]; [|done..].
    unfold lift. rewrite mem_load_ok by lia. done.
Qed.

(** ** Consuming *)
Definition sb_advance b (n : Z) : sshbuf := set_off (sb_off b + n) b.
Lemma advance_ok b n : sb_wf b → 0 ≤ n ≤ zlen (sb_rest b) →
  sb_wf (sb_advance b n) ∧ sb_rest (sb_advance b n) = drop (Z.to_nat n) (sb_rest b).
Proof.
  intros Hb Hn. rewrite sb_rest_length in Hn by done. sb_facts. split.
  - destruct Hb. split; cbn; done || lia.
  - unfold sb_rest; cbn. rewrite skipn_firstn_comm, drop_drop. f_equal; [lia|]. f_equal. lia.
Qed.
Lemma consume_ok len b : sb_wf b → 0 ≤ len < U32 →
  sshbuf_consume len b = if len >? zlen (sb_rest b) then Ok (SSH_ERR_MESSAGE_INCOMPLETE, b) else Ok (0, sb_advance b len).
Proof.
  intros Hb Hlen. unfold sshbuf_consume. rewrite (bind_ok _ _ _ _ _ (check_sanity_ok b Hb)). pose proof (sb_rest_length b Hb).
  destruct (Z.eqb_spec len 0) as [->|Hne].
  - destruct (Z.gtb_spec 0 (zlen (sb_rest b))); [lia|]. unfold sb_advance, set_off, mret, M_ret. rewrite Z.add_0_r. by destruct b.
  - rewrite (bind_ok _ _ _ _ _ (len_ok b Hb)). destruct (Z.gtb_spec len (zlen (sb_rest b))); [done|]. sb_facts.
    unfold mbind, M_bind, modify, mret, M_ret. rewrite u32_small by (unfold U32; lia). done.
Qed.
Lemma consume_end_ok len b : sb_wf b → 0 ≤ len < U32 →
  if len >? zlen (sb_rest b) then sshbuf_consume_end len b = Ok (SSH_ERR_MESSAGE_INCOMPLETE, b)
  else ∃ b', sshbuf_consume_end len b = Ok (0, b') ∧ sb_wf b' ∧ sb_rest b' = take (length (sb_rest b) - Z.to_nat len) (sb_rest b) ∧
         sb_max_size b' = sb_max_size b.
Proof.
  intros Hb Hlen. unfold sshbuf_consume_end. rewrite (bind_ok _ _ _ _ _ (check_sanity_ok b Hb)). pose proof (sb_rest_length b Hb) as Hl.
  destruct (Z.eqb_spec len 0) as [->|Hne].
  - destruct (Z.gtb_spec 0 (zlen (sb_rest b))); [lia|]. exists b. split_and!; [done..| |done]. cbn. by rewrite Nat.sub_0_r, firstn_all.
  - rewrite (bind_ok _ _ _ _ _ (len_ok b Hb)). destruct (Z.gtb_spec len (zlen (sb_rest b))); [done|]. sb_facts.
    unfold mbind, M_bind, modify, mret, M_ret. rewrite u32_small by (unfold U32; lia). eexists. split_and!; [done| | |done].
    + destruct Hb. split; cbn; done || lia.
    + unfold sb_rest at 1 3; cbn. rewrite take_take. f_equal. lia.
Qed.
Lemma load_ok b n : sb_wf b → 0 ≤ n ≤ zlen (sb_rest b) → ∀ b', sb_d b' = sb_d b →
  load (sb_off b) n b' = Ok (take (Z.to_nat n) (sb_rest b), b').
Proof.
  intros Hb Hn b' E. rewrite sb_rest_length in Hn by done. sb_facts. unfold load, mbind, M_bind, get, lift. rewrite E, mem_load_ok by lia.
  unfold sb_rest. rewrite take_take. do 3 f_equal. lia.
Qed.

(** Reading refines a parser of the queue: it gives the parser's value and
    leaves its rest, or leaves the queue alone and returns an error; a string
    can also be lost because there is no memory for it. *)
Class Gets {A} (op : M sshbuf (Z + A)) (p : parser A) : Prop :=
  gets_refines : ∀ b, sb_wf b →
    match p (sb_rest b) with
    | Some (v, tl) =>
        ∃ r b', op b = Ok (r, b') ∧ sb_wf b' ∧ sb_rest b' = tl ∧ sb_max_size b' = sb_max_size b ∧
          (r = inr v ∨ r = inl SSH_ERR_ALLOC_FAIL ∧ no_memory)
    | None => ∃ e, op b = Ok (inl e, b) ∧ e < 0 ∧ e ≠ SSH_ERR_ALLOC_FAIL
    end.
Lemma gets_fixed {A} (n : Z) (f : list Z → A) (op : M sshbuf (Z + A)) : 0 ≤ n < U32 →
  (∀ b, op b = (p ← sshbuf_ptr; r ← sshbuf_consume n; if r <? 0 then mret (inl r) else bs ← load p n; mret (inr (f bs))) b) →
  Gets op (p_bind (p_bytes n) (λ bs, p_ret (f bs))).
Proof.
  intros Hn Hop b Hb. rewrite Hop, (bind_ok _ _ _ _ _ (ptr_ok b Hb)). pose proof (consume_ok n b Hb Hn) as Hc.
  unfold p_bind, p_bytes. destruct (Z.gtb_spec n (zlen (sb_rest b))), (Z.leb_spec n (zlen (sb_rest b))); try lia; cbn [mbind option_bind];
    rewrite (bind_ok _ _ _ _ _ Hc).
  - by exists SSH_ERR_MESSAGE_INCOMPLETE.
  - destruct (advance_ok b n Hb ltac:(lia)) as [Hw Hr]. cbn [Z.ltb Z.compare].
    rewrite (bind_ok _ _ _ _ _ (load_ok b n Hb ltac:(lia) (sb_advance b n) eq_refl)). eexists _, _. split_and!; [done..|by left].
Qed.
#[export] Instance gets_get n : 0 ≤ n < U32 → Gets (sshbuf_get n) (p_bind (p_bytes n) p_ret).
Proof. intros Hn. by apply (gets_fixed n (λ bs, bs)). Qed.
Definition p_u64 : parser Z := p_bind (p_bytes 8) (λ bs, p_ret (PEEK_U64 bs)).
#[export] Instance gets_u64 : Gets sshbuf_get_u64 p_u64.
Proof. by apply (gets_fixed 8 PEEK_U64). Qed.
#[export] Instance gets_u32 : Gets sshbuf_get_u32 p_int.
Proof. by apply (gets_fixed 4 LOAD32H). Qed.
Definition p_u16 : parser Z := p_bind (p_bytes 2) (λ bs, p_ret (PEEK_U16 bs)).
#[export] Instance gets_u16 : Gets sshbuf_get_u16 p_u16.
Proof. by apply (gets_fixed 2 PEEK_U16). Qed.
Lemma gets_ext {A} (op : M sshbuf (Z + A)) p q : (∀ l, p l = q l) → Gets op p → Gets op q.
Proof. intros E H b Hb. rewrite <- E. by apply H. Qed.
#[export] Instance gets_u8 : Gets sshbuf_get_u8 p_byte.
Proof.
  eapply gets_ext; [|by apply (gets_fixed 1 (λ bs, default 0 (head bs)))].
  intros [|c l]; [done|]. unfold p_bind, p_bytes. cbn [length]. destruct (Z.leb_spec 1 (Z.of_nat (S (length l)))); [|lia]. done.
Qed.

Definition p_sstring : parser (list Z) :=
  p_bind p_int (λ n, if n >? SSHBUF_SIZE_MAX - 4 then p_fail else p_bytes n).
Lemma p_sstring_inv l v tl : p_sstring l = Some (v, tl) →
  zlen v = LOAD32H (take 4 l) ∧ zlen v ≤ SSHBUF_SIZE_MAX - 4 ∧ 4 + zlen v ≤ zlen l ∧ v = take (length v) (drop 4 l) ∧ tl = drop (4 + length v) l.
Proof.
  unfold p_sstring, p_bind, p_int, p_bind. unfold p_bytes. destruct (Z.leb_spec 4 (zlen l)); [|done]. cbn [mbind option_bind p_ret].
  change (Z.to_nat 4) with 4%nat.
  destruct (Z.gtb_spec (LOAD32H (take 4 l)) (SSHBUF_SIZE_MAX - 4)); [done|]. pose proof (LOAD32H_range (take 4 l)).
  destruct (Z.leb_spec (LOAD32H (take 4 l)) (zlen (drop 4 l))) as [Hle|]; [|done]. intros [= <- <-]. rewrite length_drop in Hle.
  assert (Hlen : length (take (Z.to_nat (LOAD32H (take 4 l))) (drop 4 l)) = Z.to_nat (LOAD32H (take 4 l))) by (rewrite length_take, length_drop; lia).
  change (Z.to_nat 4) with 4%nat in *. rewrite Hlen, drop_drop. split_and!; [lia|lia|lia|done|done].
Qed.
Lemma peek_string_ok b : sb_wf b →
  match p_sstring (sb_rest b) with
  | Some (v, tl) => sshbuf_peek_string_direct b = Ok (inr (sb_off b + 4, zlen v), b)
  | None => ∃ e, sshbuf_peek_string_direct b = Ok (inl e, b) ∧ e < 0 ∧ e ≠ SSH_ERR_ALLOC_FAIL
  end.
Proof.
  intros Hb. unfold sshbuf_peek_string_direct. rewrite (bind_ok _ _ _ _ _ (ptr_ok b Hb)), (bind_ok _ _ _ _ _ (len_ok b Hb)).
  unfold p_sstring, p_bind, p_int, p_bind, p_bytes. destruct (Z.ltb_spec (zlen (sb_rest b)) 4), (Z.leb_spec 4 (zlen (sb_rest b))); try lia; cbn [mbind option_bind p_ret].
  - by exists SSH_ERR_MESSAGE_INCOMPLETE.
  - rewrite (bind_ok _ _ _ _ _ (load_ok b 4 Hb ltac:(lia) b eq_refl)). change (Z.to_nat 4) with 4%nat. set (n := LOAD32H _).
    pose proof (LOAD32H_range (take 4 (sb_rest b))) as Hn. fold n in Hn. destruct (Z.gtb_spec n (SSHBUF_SIZE_MAX - 4)); [by exists SSH_ERR_STRING_TOO_LARGE|].
    rewrite length_drop. destruct (Z.ltb_spec (zlen (sb_rest b) - 4) n), (Z.leb_spec n (Z.of_nat (length (sb_rest b) - 4))); try lia.
    + by exists SSH_ERR_MESSAGE_INCOMPLETE.
    + assert (E : zlen (take (Z.to_nat n) (drop 4 (sb_rest b))) = n) by (rewrite length_take, length_drop; lia). by rewrite E.
Qed.
Lemma get_string_direct_ok b : sb_wf b →
  match p_sstring (sb_rest b) with
  | Some (v, tl) => sshbuf_get_string_direct b = Ok (inr (sb_off b + 4, zlen v), sb_advance b (zlen v + 4))
  | None => ∃ e, sshbuf_get_string_direct b = Ok (inl e, b) ∧ e < 0 ∧ e ≠ SSH_ERR_ALLOC_FAIL
  end.
Proof.
  intros Hb. pose proof (peek_string_ok b Hb) as Hp. unfold sshbuf_get_string_direct. destruct (p_sstring (sb_rest b)) as [[v tl]|] eqn:E.
  - apply p_sstring_inv in E as (_ & Hmax & Hfit & _). unfold SSHBUF_SIZE_MAX in *. rewrite (bind_ok _ _ _ _ _ Hp), u32_small by (unfold U32; lia).
    pose proof (consume_ok (zlen v + 4) b Hb ltac:(unfold U32; lia)) as Hc. destruct (Z.gtb_spec (zlen v + 4) (zlen (sb_rest b))); [lia|].
    by rewrite (bind_ok _ _ _ _ _ Hc).
  - destruct Hp as (e & Hp & ? & ?). exists e. by rewrite (bind_ok _ _ _ _ _ Hp).
Qed.
Lemma load_string b v tl : sb_wf b → p_sstring (sb_rest b) = Some (v, tl) → ∀ b', sb_d b' = sb_d b →
  load (sb_off b + 4) (zlen v) b' = Ok (v, b').
Proof.
  intros Hb (_ & _ & Hfit & Hv & _)%p_sstring_inv b' E. rewrite sb_rest_length in Hfit by done. sb_facts.
  unfold load, mbind, M_bind, get, lift. rewrite E, mem_load_ok by lia. do 2 f_equal. rewrite Hv at 2. unfold sb_rest.
  rewrite skipn_firstn_comm, take_take, drop_drop, Nat2Z.id. f_equal; [|f_equal]; lia.
Qed.
#[export] Instance gets_string : Gets (sshbuf_get_string mem_ok) p_sstring.
Proof.
  intros b Hb. pose proof (get_string_direct_ok b Hb) as Hg. unfold sshbuf_get_string. destruct (p_sstring (sb_rest b)) as [[v tl]|] eqn:E.
  - pose proof (p_sstring_inv _ _ _ E) as (_ & Hmax & Hfit & _ & Htl). destruct (advance_ok b (zlen v + 4) Hb ltac:(lia)) as [Hw Hr].
    rewrite (bind_ok _ _ _ _ _ Hg). destruct (mem_ok (zlen v + 1)) eqn:Em.
    + rewrite (bind_ok _ _ _ _ _ (load_string b v tl Hb E (sb_advance b (zlen v + 4)) eq_refl)). eexists _, _. split_and!; [done..| |done|by left].
      rewrite Hr, Htl. f_equal. lia.
    + eexists _, _. split_and!; [done..| |done|right]. { rewrite Hr, Htl. f_equal. lia. }
      split; [done|]. exists (zlen v + 1). unfold SSHBUF_SIZE_MAX in *. split; [lia|done].
  - destruct Hg as (e & Hg & ? & ?). exists e. by rewrite (bind_ok _ _ _ _ _ Hg).
Qed.
Definition p_scstring : parser (list Z) :=
  p_bind p_sstring (λ v, if (zlen v >? 0) && (strlen v <? zlen v - 1) then p_fail else p_ret v).
#[export] Instance gets_cstring : Gets (sshbuf_get_cstring mem_ok) p_scstring.
Proof.
  intros b Hb. pose proof (peek_string_ok b Hb) as Hp. pose proof (get_string_direct_ok b Hb) as Hg.
  unfold sshbuf_get_cstring, p_scstring, p_bind. destruct (p_sstring (sb_rest b)) as [[v tl]|] eqn:E; cbn [mbind option_bind].
  - pose proof (p_sstring_inv _ _ _ E) as (_ & Hmax & Hfit & _ & Htl). destruct (advance_ok b (zlen v + 4) Hb ltac:(lia)) as [Hw Hr].
    assert (Hrest : sb_rest (sb_advance b (zlen v + 4)) = tl) by (rewrite Hr, Htl; f_equal; lia).
    rewrite (bind_ok _ _ _ _ _ Hp), (bind_ok _ _ _ _ _ (load_string b v tl Hb E b eq_refl)). destruct (_ && _); [by exists SSH_ERR_INVALID_FORMAT|].
    cbn [p_ret]. rewrite (bind_ok _ _ _ _ _ Hg). destruct (mem_ok (zlen v + 1)) eqn:Em; eexists _, _; split_and!; try done; [by left|right].
    split; [done|]. exists (zlen v + 1). unfold SSHBUF_SIZE_MAX in *. split; [lia|done].
  - destruct Hp as (e & Hp & ? & ?). exists e. by rewrite (bind_ok _ _ _ _ _ Hp).
Qed.
Lemma sshbuf_init_ok b : sshbuf_init mem_ok = Ok b → sb_wf b ∧ sb_rest b = [] ∧ sb_max_size b = SSHBUF_SIZE_MAX.
Proof. unfold sshbuf_init. destruct (mem_ok _); [|done]. intros [= <-]. split; [|done]. split; [done|cbn; lia|by vm_compute|by vm_compute|by vm_compute|apply (bool_decide_unpack _); by vm_compute]. Qed.

(** ** A buffer is a bounded queue *)
Inductive sbop :=
| SbPut (v : list Z) (len : Z) | SbPutU8 (v : Z) | SbPutU16 (v : Z) | SbPutU32 (v : Z) | SbPutU64 (v : Z) | SbPutString (v : list Z) (len : Z)
| SbGet (len : Z) | SbGetU8 | SbGetU16 | SbGetU32 | SbGetU64 | SbGetString | SbGetCstring
| SbConsume (len : Z) | SbConsumeEnd (len : Z) | SbCheckReserve (len : Z) | SbLen.
Inductive sbres := RCode (r : Z) | RNum (r : Z + Z) | RBytes (r : Z + list Z).
Definition as_res {A B S} (f : A → B) (m : M S A) : M S B := a ← m; mret (f a).
Definition sb_op (o : sbop) : M sshbuf sbres :=
  match o with
  | SbPut v len => as_res RCode (sshbuf_put mem_ok v len)
  | SbPutU8 v => as_res RCode (sshbuf_put_u8 mem_ok v)
  | SbPutU16 v => as_res RCode (sshbuf_put_u16 mem_ok v)
  | SbPutU32 v => as_res RCode (sshbuf_put_u32 mem_ok v)
  | SbPutU64 v => as_res RCode (sshbuf_put_u64 mem_ok v)
  | SbPutString v len => as_res RCode (sshbuf_put_string mem_ok v len)
  | SbGet len => as_res RBytes (sshbuf_get len)
  | SbGetU8 => as_res RNum sshbuf_get_u8
  | SbGetU16 => as_res RNum sshbuf_get_u16
  | SbGetU32 => as_res RNum sshbuf_get_u32
  | SbGetU64 => as_res RNum sshbuf_get_u64
  | SbGetString => as_res RBytes (sshbuf_get_string mem_ok)
  | SbGetCstring => as_res RBytes (sshbuf_get_cstring mem_ok)
  | SbConsume len => as_res RCode (sshbuf_consume len)
  | SbConsumeEnd len => as_res RCode (sshbuf_consume_end len)
  | SbCheckReserve len => as_res RCode (sshbuf_check_reserve len)
  | SbLen => as_res RCode sshbuf_len
  end.
Fixpoint sb_ops (os : list sbop) : M sshbuf (list sbres) :=
  match os with
  | [] => mret []
  | o :: os => r ← sb_op o; rs ← sb_ops os; mret (r :: rs)
  end.
(** Arguments the caller may give: the bytes are there. *)
Definition sbop_ok (o : sbop) : Prop :=
  match o with
  | SbPut v len | SbPutString v len => Forall is_byte v ∧ 0 ≤ len ≤ zlen v ∧ len < U32
  | SbGet len | SbConsume len | SbConsumeEnd len | SbCheckReserve len => 0 ≤ len < U32
  | _ => True
  end.

(** The queue: [mem] says whether there is memory for the operation.  Errors
    other than [SSH_ERR_ALLOC_FAIL] of the reading routines are not told
    apart. *)
Definition q_put (mem : bool) (max : Z) (bs q : list Z) : sbres * list Z :=
  if zlen q + zlen bs >? max then (RCode SSH_ERR_NO_BUFFER_SPACE, q)
  else if mem then (RCode 0, q ++ bs) else (RCode SSH_ERR_ALLOC_FAIL, q).
Definition q_get {A} (mem : bool) (c : Z + A → sbres) (p : parser A) (q : list Z) (r : sbres) (q' : list Z) : Prop :=
  match p q with
  | Some (v, tl) => q' = tl ∧ r = c (if mem then inr v else inl SSH_ERR_ALLOC_FAIL)
  | None => q' = q ∧ ∃ e, e < 0 ∧ e ≠ SSH_ERR_ALLOC_FAIL ∧ r = c (inl e)
  end.
Definition q_op (mem : bool) (max : Z) (o : sbop) (q : list Z) (r : sbres) (q' : list Z) : Prop :=
  match o with
  | SbPut v len => (r, q') = q_put mem max (take (Z.to_nat len) v) q
  | SbPutU8 v => (r, q') = q_put mem max [u8 v] q
  | SbPutU16 v => (r, q') = q_put mem max (POKE_U16 v) q
  | SbPutU32 v => (r, q') = q_put mem max (STORE32H v) q
  | SbPutU64 v => (r, q') = q_put mem max (POKE_U64 v) q
  | SbPutString v len => (r, q') = q_put mem max (STORE32H len ++ take (Z.to_nat len) v) q
  | SbGet len => q_get mem RBytes (p_bytes len) q r q'
  | SbGetU8 => q_get mem RNum p_byte q r q'
  | SbGetU16 => q_get mem RNum p_u16 q r q'
  | SbGetU32 => q_get mem RNum p_int q r q'
  | SbGetU64 => q_get mem RNum p_u64 q r q'
  | SbGetString => q_get mem RBytes p_sstring q r q'
  | SbGetCstring => q_get mem RBytes p_scstring q r q'
  | SbConsume len =>
      (r, q') = if len >? zlen q then (RCode SSH_ERR_MESSAGE_INCOMPLETE, q) else (RCode 0, drop (Z.to_nat len) q)
  | SbConsumeEnd len =>
      (r, q') = if len >? zlen q then (RCode SSH_ERR_MESSAGE_INCOMPLETE, q) else (RCode 0, take (length q - Z.to_nat len) q)
  | SbCheckReserve len => r = RCode (if zlen q + len >? max then SSH_ERR_NO_BUFFER_SPACE else 0) ∧ q' = q
  | SbLen => r = RCode (zlen q) ∧ q' = q
  end.
Inductive q_ops (max : Z) : list sbop → list Z → list sbres → list Z → Prop :=
| q_done q : q_ops max [] q [] q
| q_step o os q r q1 rs q2 mem : q_op mem max o q r q1 → (mem = false → no_memory) → q_ops max os q1 rs q2 →
    q_ops max (o :: os) q (r :: rs) q2.

(** An operation does what the queue does. *)
Definition step_ok (o : sbop) : Prop := ∀ b, sb_wf b → ∃ mem r b', sb_op o b = Ok (r, b') ∧ sb_wf b' ∧ sb_max_size b' = sb_max_size b ∧
  q_op mem (sb_max_size b) o (sb_rest b) r (sb_rest b') ∧ (mem = false → no_memory).
Lemma put_step o op bs : sb_op o = as_res RCode op → (∀ mem max q r q', (r, q') = q_put mem max bs q → q_op mem max o q r q') → Puts op bs → step_ok o.
Proof.
  intros Eo Hq [_ Hp] b Hb. specialize (Hp b Hb). rewrite Eo. unfold as_res, mbind, M_bind.
  destruct (_ >? _) eqn:E; [|destruct Hp as [(b' & -> & (Hw & Hr & Hm) & Hno)|(b' & -> & Hw & Hr & Hm)]].
  - rewrite Hp. exists true, (RCode SSH_ERR_NO_BUFFER_SPACE), b. split_and!; [done..|apply Hq; unfold q_put; by rewrite E|done].
  - exists false, (RCode SSH_ERR_ALLOC_FAIL), b'. split_and!; [done..|apply Hq; unfold q_put; by rewrite E, Hr|done].
  - exists true, (RCode 0), b'. split_and!; [done..|apply Hq; unfold q_put; by rewrite E, Hr|done].
Qed.
Lemma get_step {A} o (op : M sshbuf (Z + A)) (p : parser A) c : sb_op o = as_res c op →
  (∀ mem max q r q', q_get mem c p q r q' → q_op mem max o q r q') → Gets op p → step_ok o.
Proof.
  intros Eo Hq Hg b Hb. specialize (Hg b Hb). rewrite Eo. unfold as_res, mbind, M_bind, q_get in *.
  destruct (p (sb_rest b)) as [[v tl]|] eqn:E; [destruct Hg as (r & b' & -> & Hw & Hr & Hm & [->|[-> Hno]])|destruct Hg as (e & -> & ? & ?)].
  - exists true, (c (inr v)), b'. split_and!; [done..|apply Hq; by rewrite E|done].
  - exists false, (c (inl SSH_ERR_ALLOC_FAIL)), b'. split_and!; [done..|apply Hq; by rewrite E|done].
  - exists true, (c (inl e)), b. split_and!; [done..|apply Hq; rewrite E; split; [done|by exists e]|done].
Qed.
Lemma op_step o : sbop_ok o → step_ok o.
Proof.
  destruct o as [v len|v|v|v|v|v len|len| | | | | | |len|len|len|]; cbn [sbop_ok]; intros Ho.
  1: destruct Ho as (? & ? & ?); eapply put_step; [done| |by apply puts_put]; done.
  1-4: eapply put_step; [done| |apply _]; done.
  2: eapply get_step; [done| |eapply gets_ext; [|by apply gets_get]]; [done|]; intros l; unfold p_bind; by destruct (p_bytes len l) as [[]|].
  2-7: eapply get_step; [done| |apply _]; done.
  - destruct Ho as (Hv & Hl & Hlen). destruct (Z.gtb_spec len (SSHBUF_SIZE_MAX - 4)) as [Hbig|].
    + intros b Hb. exists true, (RCode SSH_ERR_NO_BUFFER_SPACE), b. sb_facts. unfold sb_op, as_res, sshbuf_put_string, mbind, M_bind.
      destruct (Z.gtb_spec len (SSHBUF_SIZE_MAX - 4)); [|lia]. split_and!; [done..| |done]. cbn [q_op]. unfold q_put.
      rewrite length_app, length_take, STORE32H_length. unfold SSHBUF_SIZE_MAX in *. rewrite (proj2 (Z.gtb_lt _ _)) by lia. done.
    + eapply put_step; [done| |by apply puts_string]; done.
  - intros b Hb. pose proof (consume_ok len b Hb Ho) as Hc. unfold sb_op, as_res. destruct (Z.gtb_spec len (zlen (sb_rest b))) as [Hgt|Hle].
    + exists true, (RCode SSH_ERR_MESSAGE_INCOMPLETE), b. rewrite (bind_ok _ _ _ _ _ Hc). split_and!; [done..| |done].
      cbn [q_op]. by rewrite (proj2 (Z.gtb_lt _ _)).
    + destruct (advance_ok b len Hb ltac:(lia)) as [Hw Hr]. exists true, (RCode 0), (sb_advance b len). rewrite (bind_ok _ _ _ _ _ Hc).
      split_and!; [done..| |done]. cbn [q_op]. destruct (Z.gtb_spec len (zlen (sb_rest b))); [lia|]. by rewrite Hr.
  - intros b Hb. pose proof (consume_end_ok len b Hb Ho) as Hc. unfold sb_op, as_res. cbn [q_op]. destruct (len >? zlen (sb_rest b)).
    + exists true, (RCode SSH_ERR_MESSAGE_INCOMPLETE), b. by rewrite (bind_ok _ _ _ _ _ Hc).
    + destruct Hc as (b' & E & Hw & Hr & Hm). exists true, (RCode 0), b'. rewrite (bind_ok _ _ _ _ _ E). by rewrite Hr.
  - intros b Hb. unfold sb_op, as_res. rewrite (bind_ok _ _ _ _ _ (check_reserve_ok len b Hb Ho)). by exists true, (RCode (if zlen (sb_rest b) + len >? sb_max_size b then SSH_ERR_NO_BUFFER_SPACE else 0)), b.
  - intros b Hb. unfold sb_op, as_res. rewrite (bind_ok _ _ _ _ _ (len_ok b Hb)). by exists true, (RCode (zlen (sb_rest b))), b.
Qed.
Lemma ops_ok os b : Forall sbop_ok os → sb_wf b → ∃ rs b', sb_ops os b = Ok (rs, b') ∧ sb_wf b' ∧ q_ops (sb_max_size b) os (sb_rest b) rs (sb_rest b').
Proof.
  intros Hos. revert b. induction Hos as [|o os Ho Hos IH]; intros b Hb; [by exists [], b; split_and!; [..|constructor]|].
  destruct (op_step o Ho b Hb) as (mem & r & b1 & E1 & Hb1 & Hm1 & Hq1 & Hmem). destruct (IH b1 Hb1) as (rs & b2 & E2 & Hb2 & Hq2).
  exists (r :: rs), b2. cbn [sb_ops]. rewrite (bind_ok _ _ _ _ _ E1), (bind_ok _ _ _ _ _ E2). split_and!; [done..|].
  rewrite Hm1 in Hq2. by econstructor.
Qed.
(** C26. A buffer is a bounded queue of bytes.  For every sequence of appending,
    reading and consuming operations with any arguments on a new buffer: the
    buffer never becomes one its sanity check would refuse, no access leaves
    the allocation, however it was packed and enlarged, and the results and the
    contents are those of a queue that holds [SSHBUF_SIZE_MAX] bytes; appending
    fails only when the bytes do not fit or an allocation fails, and then
    changes nothing. *)
Theorem sshbuf_refines_queue os b : Forall sbop_ok os → sshbuf_init mem_ok = Ok b →
  ∃ rs b', sb_ops os b = Ok (rs, b') ∧ sane b' = true ∧ q_ops SSHBUF_SIZE_MAX os [] rs (sb_rest b').
Proof.
  intros Hos Hi. apply sshbuf_init_ok in Hi as (Hb & Hr & Hm). destruct (ops_ok os b Hos Hb) as (rs & b' & E & Hb' & Hq). exists rs, b'.
  split; [done|]. split; [by apply sane_ok|]. by rewrite <- Hm, <- Hr.
Qed.
End props.

Definition wit_sbops : list sbop :=
  [SbPutU32 258; SbPutString (bytes_of_string "abc") 3; SbGetU32; SbPut (replicate 300 7) 300; SbGetString; SbGetU64; SbConsume 400; SbLen].
Lemma sshbuf_refines_queue_witness :
  (∃ b', sb_ops (λ _, true) wit_sbops (mkSb (replicate 256 0) 0 0 SSHBUF_SIZE_MAX false 1) =
    Ok ([RCode 0; RCode 0; RNum (inr 258); RCode 0; RBytes (inr (bytes_of_string "abc")); RNum (inr 506381209866536711);
         RCode SSH_ERR_MESSAGE_INCOMPLETE; RCode 292], b')) ∧
  ∃ rs b', sb_ops (λ _, true) wit_sbops (mkSb (replicate 256 0) 0 0 SSHBUF_SIZE_MAX false 1) = Ok (rs, b') ∧ sane b' = true ∧
    q_ops (λ _, true) SSHBUF_SIZE_MAX wit_sbops [] rs (sb_rest b').
Proof.
  split; [eexists; vm_compute; reflexivity|]. apply (sshbuf_refines_queue (λ _, true)); [|done].
  repeat constructor; try done; try (vm_compute; discriminate); try apply bytes_of_string_bytes; by apply Forall_replicate.
Defined.
