(* ===== verification/Sftp.v ===== *)
(** * The SFTP server ([openssh/sftp-server.c], [sftp-common.c], [bufaux.c],
    [buffer.c], [match.c], [pwcache.c])

    The program the application starts for the subsystem "sftp": requests come
    in through one queue, replies go out through another, open files and
    directories are entries of a table, numbered for the client.

    The file system is a parameter: a state and a function that says what each
    system call returns; the calls made are logged.  [fatal] ends the process.
    The buffers are those of [SshBuf]. *)
From S2P Require Import Prelude Buffer SshBuf.

(** ** Constants *)
Definition SFTP_MAX_MSG_LENGTH : Z := 256 * 1024.
Definition SSH2_FILEXFER_VERSION : Z := 3.
Definition SSH2_FXP_INIT : Z := 1.
Definition SSH2_FXP_VERSION : Z := 2.
Definition SSH2_FXP_OPEN : Z := 3.
Definition SSH2_FXP_CLOSE : Z := 4.
Definition SSH2_FXP_READ : Z := 5.
Definition SSH2_FXP_WRITE : Z := 6.
Definition SSH2_FXP_LSTAT : Z := 7.
Definition SSH2_FXP_FSTAT : Z := 8.
Definition SSH2_FXP_SETSTAT : Z := 9.
Definition SSH2_FXP_FSETSTAT : Z := 10.
Definition SSH2_FXP_OPENDIR : Z := 11.
Definition SSH2_FXP_READDIR : Z := 12.
Definition SSH2_FXP_REMOVE : Z := 13.
Definition SSH2_FXP_MKDIR : Z := 14.
Definition SSH2_FXP_RMDIR : Z := 15.
Definition SSH2_FXP_REALPATH : Z := 16.
Definition SSH2_FXP_STAT : Z := 17.
Definition SSH2_FXP_RENAME : Z := 18.
Definition SSH2_FXP_READLINK : Z := 19.
Definition SSH2_FXP_SYMLINK : Z := 20.
Definition SSH2_FXP_STATUS : Z := 101.
Definition SSH2_FXP_HANDLE : Z := 102.
Definition SSH2_FXP_DATA : Z := 103.
Definition SSH2_FXP_NAME : Z := 104.
Definition SSH2_FXP_ATTRS : Z := 105.
Definition SSH2_FXP_EXTENDED : Z := 200.
Definition SSH2_FILEXFER_ATTR_SIZE : Z := 0x00000001.
Definition SSH2_FILEXFER_ATTR_UIDGID : Z := 0x00000002.
Definition SSH2_FILEXFER_ATTR_PERMISSIONS : Z := 0x00000004.
Definition SSH2_FILEXFER_ATTR_ACMODTIME : Z := 0x00000008.
Definition SSH2_FILEXFER_ATTR_EXTENDED : Z := 0x80000000.
Definition SSH2_FXF_READ : Z := 0x00000001.
Definition SSH2_FXF_WRITE : Z := 0x00000002.
Definition SSH2_FXF_APPEND : Z := 0x00000004.
Definition SSH2_FXF_CREAT : Z := 0x00000008.
Definition SSH2_FXF_TRUNC : Z := 0x00000010.
Definition SSH2_FXF_EXCL : Z := 0x00000020.
Definition SSH2_FX_OK : Z := 0.
Definition SSH2_FX_EOF : Z := 1.
Definition SSH2_FX_NO_SUCH_FILE : Z := 2.
Definition SSH2_FX_PERMISSION_DENIED : Z := 3.
Definition SSH2_FX_FAILURE : Z := 4.
Definition SSH2_FX_BAD_MESSAGE : Z := 5.
Definition SSH2_FX_OP_UNSUPPORTED : Z := 8.
Definition SSH2_FX_MAX : Z := 8.
(** Of the system: numbers of Linux. *)
Definition MAXPATHLEN : Z := 4096.
Definition ENOENT : Z := 2.
Definition EXDEV : Z := 18.
Definition ENOSYS : Z := 38.
Definition EOPNOTSUPP : Z := 95.
Definition O_RDONLY : Z := 0.
Definition O_WRONLY : Z := 1.
Definition O_RDWR : Z := 2.
Definition O_ACCMODE : Z := 3.
Definition O_CREAT : Z := 64.
Definition O_EXCL : Z := 128.
Definition O_TRUNC : Z := 512.
Definition O_APPEND : Z := 1024.
(** [a & b], as a condition. *)
Definition has (a b : Z) : bool := negb (Z.land a b =? 0).

(** ** Data *)
Record Attrib := mkAttrib {
  a_flags : Z;
  a_size : Z;
  a_uid : Z;
  a_gid : Z;
  a_perm : Z;
  a_atime : Z;
  a_mtime : Z
}.
Record stat := mkStat {
  st_mode : Z;
  st_nlink : Z;
  st_size : Z;
  st_uid : Z;
  st_gid : Z;
  st_atime : Z;
  st_mtime : Z
}.
(** [Stat] of [sftp-server.c]: an entry of a reply with names. *)
Record Stat := mkName {
  n_name : list Z;
  n_long_name : list Z;
  n_attrib : Attrib
}.
Inductive handle_use := HANDLE_UNUSED | HANDLE_DIR | HANDLE_FILE.
#[global] Instance handle_use_eq : EqDecision handle_use.
Proof. solve_decision. Defined.
Record Handle := mkHandle {
  h_use : handle_use;
  h_dirp : Z;
  h_fd : Z;
  h_flags : Z;
  h_name : list Z;
  h_bytes_read : Z;
  h_bytes_write : Z;
  h_next_unused : Z
}.

(** ** System calls *)
(** Paths are C strings; converting the other arguments to the types of the
    call is part of the call. *)
Inductive syscall :=
| SysOpen (path : list Z) (flags mode : Z)
| SysClose (fd : Z)
| SysLseek (fd off : Z)
| SysRead (fd len : Z)
| SysWrite (fd : Z) (data : list Z)
| SysStat (path : list Z)
| SysLstat (path : list Z)
| SysFstat (fd : Z)
| SysTruncate (path : list Z) (size : Z)
| SysFtruncate (fd size : Z)
| SysChmod (path : list Z) (mode : Z)
| SysUtimes (path : list Z) (atime mtime : Z)
| SysChown (path : list Z) (uid gid : Z)
| SysOpendir (path : list Z)
| SysReaddir (dirp : Z)
| SysClosedir (dirp : Z)
| SysUnlink (path : list Z)
| SysMkdir (path : list Z) (mode : Z)
| SysRmdir (path : list Z)
| SysRealpath (path : list Z)
| SysRename (old new : list Z)
| SysLink (old new : list Z)
| SysReadlink (path : list Z) (size : Z)
| SysSymlink (old new : list Z)
| SysFsync (fd : Z).
(** The return value (negative also for a null pointer), [errno], bytes stored
    in the caller's buffer (or the name of a directory entry), and the [struct
    stat] filled in. *)
Record sysret := mkRet {
  sr_ret : Z;
  sr_errno : Z;
  sr_data : list Z;
  sr_stat : stat
}.

(** ** The process *)
Record sftp {FS : Type} := mkSftp {
  iqueue : sshbuf;
  oqueue : sshbuf;
  version : Z;
  init_done : bool;
  handles : list Handle;
  first_unused_handle : Z;
  c_uid : list (Z * option (list Z));
  c_gid : list (Z * option (list Z));
  fs : FS;
  sys_log : list syscall
}.
Arguments sftp FS : clear implicits.
Section setters.
Context {FS : Type}.
Definition set_iqueue (v : sshbuf) (s : sftp FS) : sftp FS :=
  mkSftp _ v (oqueue s) (version s) (init_done s) (handles s) (first_unused_handle s) (c_uid s) (c_gid s) (fs s) (sys_log s).
Definition set_oqueue (v : sshbuf) (s : sftp FS) : sftp FS :=
  mkSftp _ (iqueue s) v (version s) (init_done s) (handles s) (first_unused_handle s) (c_uid s) (c_gid s) (fs s) (sys_log s).
Definition set_version (v : Z) (s : sftp FS) : sftp FS :=
  mkSftp _ (iqueue s) (oqueue s) v (init_done s) (handles s) (first_unused_handle s) (c_uid s) (c_gid s) (fs s) (sys_log s).
Definition set_init_done (v : bool) (s : sftp FS) : sftp FS :=
  mkSftp _ (iqueue s) (oqueue s) (version s) v (handles s) (first_unused_handle s) (c_uid s) (c_gid s) (fs s) (sys_log s).
Definition set_handles (v : list Handle) (s : sftp FS) : sftp FS :=
  mkSftp _ (iqueue s) (oqueue s) (version s) (init_done s) v (first_unused_handle s) (c_uid s) (c_gid s) (fs s) (sys_log s).
Definition set_first_unused (v : Z) (s : sftp FS) : sftp FS :=
  mkSftp _ (iqueue s) (oqueue s) (version s) (init_done s) (handles s) v (c_uid s) (c_gid s) (fs s) (sys_log s).
Definition set_c_uid (v : list (Z * option (list Z))) (s : sftp FS) : sftp FS :=
  mkSftp _ (iqueue s) (oqueue s) (version s) (init_done s) (handles s) (first_unused_handle s) v (c_gid s) (fs s) (sys_log s).
Definition set_c_gid (v : list (Z * option (list Z))) (s : sftp FS) : sftp FS :=
  mkSftp _ (iqueue s) (oqueue s) (version s) (init_done s) (handles s) (first_unused_handle s) (c_uid s) v (fs s) (sys_log s).
Definition set_fs (v : FS) (s : sftp FS) : sftp FS :=
  mkSftp _ (iqueue s) (oqueue s) (version s) (init_done s) (handles s) (first_unused_handle s) (c_uid s) (c_gid s) v (sys_log s).
Definition set_sys_log (v : list syscall) (s : sftp FS) : sftp FS :=
  mkSftp _ (iqueue s) (oqueue s) (version s) (init_done s) (handles s) (first_unused_handle s) (c_uid s) (c_gid s) (fs s) v.
End setters.

(** ** Text *)
(** [printf] of an unsigned number; a number has at most 20 digits. *)
Fixpoint digits (fuel : nat) (n : Z) (acc : list Z) : list Z :=
  match fuel with
  | O => acc
  | S fuel => let acc := (48 + n mod 10) :: acc in if n <? 10 then acc else digits fuel (n / 10) acc
  end.
Definition decimal (n : Z) : list Z := digits 20 n [].
(** [%8u] and [%-8s]. *)
Definition pad_left (w : Z) (l : list Z) : list Z := replicate (Z.to_nat (w - zlen l)) 32 ++ l.
Definition pad_right (w : Z) (l : list Z) : list Z := l ++ replicate (Z.to_nat (w - zlen l)) 32.
(** [snprintf] into [size] bytes. *)
Definition snprint (size : Z) (l : list Z) : list Z := take (Z.to_nat (size - 1)) l.
Definition ch (c : string) : Z := default 0 (head (bytes_of_string c)).

(** [strmode]: the kind, the permissions, and a blank. *)
Definition exec_char (x special : bool) (lower upper : string) : Z :=
  match x, special with
  | false, false => ch "-"
  | true, false => ch "x"
  | false, true => ch upper
  | true, true => ch lower
  end.
Definition mode_bit (mode bit : Z) (c : string) : Z := if has mode bit then ch c else ch "-".
Definition strmode (mode : Z) : list Z :=
  let fmt := Z.land mode 61440 in
  [(if fmt =? 16384 then ch "d" else if fmt =? 8192 then ch "c" else if fmt =? 24576 then ch "b"
    else if fmt =? 32768 then ch "-" else if fmt =? 40960 then ch "l" else if fmt =? 49152 then ch "s"
    else if fmt =? 4096 then ch "p" else ch "?");
   mode_bit mode 256 "r"; mode_bit mode 128 "w"; exec_char (has mode 64) (has mode 2048) "s" "S";
   mode_bit mode 32 "r"; mode_bit mode 16 "w"; exec_char (has mode 8) (has mode 1024) "s" "S";
   mode_bit mode 4 "r"; mode_bit mode 2 "w"; exec_char (has mode 1) (has mode 512) "t" "T"; 32].

(** ** Lists of request names ([match_list]) *)
(** The pieces [strsep] gives, up to an empty one. *)
Fixpoint strsep_loop (l cur : list Z) : list (list Z) :=
  match l with
  | [] => if bool_decide (cur = []) then [] else [cur]
  | c :: l =>
      if c =? 44 then if bool_decide (cur = []) then [] else cur :: strsep_loop l []
      else strsep_loop l (cur ++ [c])
  end.
Definition MAX_PROP : nat := 40.
Definition match_list (client server : list Z) : option (list Z) :=
  let sproposals := take MAX_PROP (strsep_loop (cstr server) []) in
  list_find (λ p, p ∈ sproposals) (strsep_loop (cstr client) []) ≫= λ x, Some x.2.

(** ** Attributes *)
Definition attrib_clear : Attrib := mkAttrib 0 0 0 0 0 0 0.
Definition stat_to_attrib (st : stat) : Attrib :=
  mkAttrib (Z.lor (Z.lor (Z.lor SSH2_FILEXFER_ATTR_SIZE SSH2_FILEXFER_ATTR_UIDGID) SSH2_FILEXFER_ATTR_PERMISSIONS) SSH2_FILEXFER_ATTR_ACMODTIME)
    (u64 (st_size st)) (u32 (st_uid st)) (u32 (st_gid st)) (u32 (st_mode st)) (u32 (st_atime st)) (u32 (st_mtime st)).

(** ** Status *)
Definition errno_to_portable (e : Z) : Z :=
  if e =? 0 then SSH2_FX_OK
  else if bool_decide (e ∈ [ENOENT; 20; 9; 40]) then SSH2_FX_NO_SUCH_FILE        (* ENOTDIR, EBADF, ELOOP *)
  else if bool_decide (e ∈ [1; 13; 14]) then SSH2_FX_PERMISSION_DENIED           (* EPERM, EACCES, EFAULT *)
  else if bool_decide (e ∈ [36; 22]) then SSH2_FX_BAD_MESSAGE                    (* ENAMETOOLONG, EINVAL *)
  else if e =? ENOSYS then SSH2_FX_OP_UNSUPPORTED
  else SSH2_FX_FAILURE.
Definition flags_from_portable (pflags : Z) : Z :=
  let flags :=
    if has pflags SSH2_FXF_READ && has pflags SSH2_FXF_WRITE then O_RDWR
    else if has pflags SSH2_FXF_READ then O_RDONLY
    else if has pflags SSH2_FXF_WRITE then O_WRONLY
    else 0 in
  let flags := if has pflags SSH2_FXF_APPEND then Z.lor flags O_APPEND else flags in
  let flags := if has pflags SSH2_FXF_CREAT then Z.lor flags O_CREAT else flags in
  let flags := if has pflags SSH2_FXF_TRUNC then Z.lor flags O_TRUNC else flags in
  if has pflags SSH2_FXF_EXCL then Z.lor flags O_EXCL else flags.
Definition status_messages : list (list Z) :=
  bytes_of_string <$> ["Success"; "End of file"; "No such file"; "Permission denied"; "Failure"; "Bad message";
                       "No connection"; "Connection lost"; "Operation unsupported"; "Unknown error"].
Definition status_to_message (status : Z) : outcome (list Z) :=
  match status_messages !! Z.to_nat (Z.min status SSH2_FX_MAX) with
  | Some m => Ok m
  | None => UB "status_messages"
  end.

Section buffers.
Variable mem_ok : Z → bool.
(** *** Buffers that end the process when an operation fails *)
Definition fatal {S A} (msg : string) : M S A := dropbear_exit msg.
Definition put_fatal (op : M sshbuf Z) : M sshbuf () :=
  r ← op; if negb (r =? 0) then fatal "%s: %s" else mret tt.
Definition get_fatal {A} (op : M sshbuf (Z + A)) : M sshbuf A :=
  r ← op; match r with inl _ => fatal "%s: buffer error" | inr v => mret v end.
Definition buffer_append (data : list Z) (len : Z) : M sshbuf () := put_fatal (sshbuf_put mem_ok data len).
Definition buffer_put_int (value : Z) : M sshbuf () := put_fatal (sshbuf_put_u32 mem_ok value).
Definition buffer_put_int64 (value : Z) : M sshbuf () := put_fatal (sshbuf_put_u64 mem_ok value).
Definition buffer_put_char (value : Z) : M sshbuf () := put_fatal (sshbuf_put_u8 mem_ok value).
Definition buffer_put_string (buf : list Z) (len : Z) : M sshbuf () := put_fatal (sshbuf_put_string mem_ok buf len).
Definition buffer_put_cstring (s : list Z) : M sshbuf () := put_fatal (sshbuf_put_cstring mem_ok s).
Definition buffer_get_int : M sshbuf Z := get_fatal sshbuf_get_u32.
Definition buffer_get_int64 : M sshbuf Z := get_fatal sshbuf_get_u64.
Definition buffer_get_char : M sshbuf Z := get_fatal sshbuf_get_u8.
Definition buffer_get_string : M sshbuf (list Z) := get_fatal (sshbuf_get_string mem_ok).
Definition buffer_consume (bytes : Z) : M sshbuf () :=
  r ← sshbuf_consume bytes;
  if r =? 0 then mret tt else if r =? SSH_ERR_MESSAGE_INCOMPLETE then fatal "%s: buffer error" else fatal "%s: %s".
Definition buffer_check_alloc (len : Z) : M sshbuf bool :=
  r ← sshbuf_check_reserve len;
  if r =? 0 then mret true else if r =? SSH_ERR_NO_BUFFER_SPACE then mret false else fatal "%s: %s".

(** *** Attributes on the wire *)
Fixpoint skip_extended (count : nat) : M sshbuf () :=
  match count with
  | O => mret tt
  | S count => buffer_get_string;; buffer_get_string;; skip_extended count
  end.
Definition get_if (b : bool) (m : M sshbuf Z) : M sshbuf Z := if b then m else mret 0.
Definition decode_attrib : M sshbuf Attrib :=
  flags ← buffer_get_int;
  size ← get_if (has flags SSH2_FILEXFER_ATTR_SIZE) buffer_get_int64;
  uid ← get_if (has flags SSH2_FILEXFER_ATTR_UIDGID) buffer_get_int;
  gid ← get_if (has flags SSH2_FILEXFER_ATTR_UIDGID) buffer_get_int;
  perm ← get_if (has flags SSH2_FILEXFER_ATTR_PERMISSIONS) buffer_get_int;
  atime ← get_if (has flags SSH2_FILEXFER_ATTR_ACMODTIME) buffer_get_int;
  mtime ← get_if (has flags SSH2_FILEXFER_ATTR_ACMODTIME) buffer_get_int;
  when (has flags SSH2_FILEXFER_ATTR_EXTENDED)
    (count ← buffer_get_int; skip_extended (Z.to_nat (i32 count)));;
  mret (mkAttrib flags size uid gid perm atime mtime).
Definition encode_attrib (a : Attrib) : M sshbuf () :=
  buffer_put_int (a_flags a);;
  when (has (a_flags a) SSH2_FILEXFER_ATTR_SIZE) (buffer_put_int64 (a_size a));;
  when (has (a_flags a) SSH2_FILEXFER_ATTR_UIDGID) (buffer_put_int (a_uid a);; buffer_put_int (a_gid a));;
  when (has (a_flags a) SSH2_FILEXFER_ATTR_PERMISSIONS) (buffer_put_int (a_perm a));;
  when (has (a_flags a) SSH2_FILEXFER_ATTR_ACMODTIME) (buffer_put_int (a_atime a);; buffer_put_int (a_mtime a)).
End buffers.

Section server.
Context {FS : Type}.
Variable mem_ok : Z → bool.
(** What a system call returns in a state of the file system, and the next
    state. *)
Variable os : FS → syscall → sysret * FS.
(** [readdir] calls left for a directory stream. *)
Variable dir_len : FS → Z → nat.
(** The databases of users and groups, the clock, and [strftime] of a local time
    (empty on failure). *)
Variable getpwuid getgrgid : Z → option (list Z).
Variable now : FS → Z.
Variable strftime : string → Z → list Z.
(** Options [-R], [-p] and [-P]. *)
Variable readonly : bool.
Variable request_whitelist request_blacklist : option (list Z).
Abbreviation st := (sftp FS).

Definition on_iqueue {A} (m : M sshbuf A) : M st A := zoom iqueue set_iqueue m.
Definition on_oqueue {A} (m : M sshbuf A) : M st A := zoom oqueue set_oqueue m.
Definition sys (c : syscall) : M st sysret :=
  s ← get;
  let '(r, f) := os (fs s) c in
  put (set_fs f (set_sys_log (sys_log s ++ [c]) s));;
  mret r.
Definition xmalloc (size : Z) : M st () :=
  if mem_ok size then mret tt else fatal "xmalloc: out of memory (allocating %zu bytes)".
Definition SIZE_T_MAX : Z := U32 - 1.
Definition xrealloc (nmemb size : Z) : M st () :=
  if u32 (nmemb * size) =? 0 then fatal "xrealloc: zero size"
  else if SIZE_T_MAX / nmemb <? size then fatal "xrealloc: nmemb * size > SIZE_T_MAX"
  else if mem_ok (nmemb * size) then mret tt else fatal "xrealloc: out of memory (new_size %zu bytes)".
Definition xstrdup (str : list Z) : M st (list Z) := xmalloc (strlen str + 1);; mret (cstr str).

Definition get_int : M st Z := on_iqueue buffer_get_int.
Definition get_int64 : M st Z := on_iqueue buffer_get_int64.
Definition get_string : M st (list Z) := on_iqueue (buffer_get_string mem_ok).
Definition get_attrib : M st Attrib := on_iqueue (decode_attrib mem_ok).

(** ** Handles *)
Definition SIZEOF_HANDLE : Z := 48.
Definition get_entry (i : Z) : M st Handle :=
  s ← get;
  if i <? 0 then undefined "handles" else match handles s !! Z.to_nat i with Some h => mret h | None => undefined "handles" end.
Definition set_entry (i : Z) (h : Handle) : M st () :=
  s ← get;
  if (0 <=? i) && (i <? zlen (handles s)) then put (set_handles (<[Z.to_nat i := h]> (handles s)) s) else undefined "handles".
Definition handle_unused (i : Z) : M st () :=
  h ← get_entry i;
  s ← get;
  set_entry i (mkHandle HANDLE_UNUSED (h_dirp h) (h_fd h) (h_flags h) (h_name h) (h_bytes_read h) (h_bytes_write h) (first_unused_handle s));;
  modify (set_first_unused i).
(** The contents of a new entry are not specified. *)
Definition grow_handles : M st bool :=
  s ← get;
  let num_handles := zlen (handles s) in
  if u32 (num_handles + 1) <=? num_handles then mret false
  else
    xrealloc (num_handles + 1) SIZEOF_HANDLE;;
    modify (λ s, set_handles (handles s ++ [mkHandle HANDLE_UNUSED 0 0 0 [] 0 0 0]) s);;
    handle_unused (i32 num_handles);;
    mret true.
Definition handle_new (use : handle_use) (name : list Z) (fd flags dirp : Z) : M st Z :=
  s ← get;
  ok ← (if first_unused_handle s =? -1 then grow_handles else mret true);
  if negb ok then mret (-1)
  else
    s ← get;
    let i := first_unused_handle s in
    h ← get_entry i;
    modify (set_first_unused (h_next_unused h));;
    name ← xstrdup name;
    set_entry i (mkHandle use dirp fd flags name 0 0 (h_next_unused h));;
    mret i.
Definition handle_is_ok (s : st) (i : Z) (type : handle_use) : bool :=
  (i >=? 0) && (u32 i <? zlen (handles s)) &&
  match handles s !! Z.to_nat i with Some h => bool_decide (h_use h = type) | None => false end.
Definition handle_to_string (handle : Z) : M st (list Z) := xmalloc 4;; mret (STORE32H (u32 handle)).
Definition handle_from_string (handle : list Z) : M st Z :=
  if negb (zlen handle =? 4) then mret (-1)
  else
    s ← get;
    let val := i32 (LOAD32H handle) in
    mret (if handle_is_ok s val HANDLE_FILE || handle_is_ok s val HANDLE_DIR then val else -1).
Definition handle_to_name (handle : Z) : M st (option (list Z)) :=
  s ← get;
  if handle_is_ok s handle HANDLE_DIR || handle_is_ok s handle HANDLE_FILE then h ← get_entry handle; mret (Some (h_name h))
  else mret None.
Definition handle_to_dir (handle : Z) : M st (option Z) :=
  s ← get;
  if handle_is_ok s handle HANDLE_DIR then h ← get_entry handle; mret (Some (h_dirp h)) else mret None.
Definition handle_to_fd (handle : Z) : M st Z :=
  s ← get;
  if handle_is_ok s handle HANDLE_FILE then h ← get_entry handle; mret (h_fd h) else mret (-1).
Definition handle_to_flags (handle : Z) : M st Z :=
  s ← get;
  if handle_is_ok s handle HANDLE_FILE then h ← get_entry handle; mret (h_flags h) else mret 0.
Definition handle_update_read (handle bytes : Z) : M st () :=
  s ← get;
  when (handle_is_ok s handle HANDLE_FILE && (bytes >? 0))
    (h ← get_entry handle;
     set_entry handle (mkHandle (h_use h) (h_dirp h) (h_fd h) (h_flags h) (h_name h) (u64 (h_bytes_read h + bytes)) (h_bytes_write h) (h_next_unused h))).
Definition handle_update_write (handle bytes : Z) : M st () :=
  s ← get;
  when (handle_is_ok s handle HANDLE_FILE && (bytes >? 0))
    (h ← get_entry handle;
     set_entry handle (mkHandle (h_use h) (h_dirp h) (h_fd h) (h_flags h) (h_name h) (h_bytes_read h) (u64 (h_bytes_write h + bytes)) (h_next_unused h))).
(** The return value, and [errno]. *)
Definition handle_close (handle : Z) : M st (Z * Z) :=
  s ← get;
  if handle_is_ok s handle HANDLE_FILE then
    h ← get_entry handle;
    r ← sys (SysClose (h_fd h));
    handle_unused handle;;
    mret (sr_ret r, sr_errno r)
  else if handle_is_ok s handle HANDLE_DIR then
    h ← get_entry handle;
    r ← sys (SysClosedir (h_dirp h));
    handle_unused handle;;
    mret (sr_ret r, sr_errno r)
  else mret (-1, ENOENT).
Definition get_handle : M st Z :=
  handle ← get_string;
  if zlen handle <? 256 then handle_from_string handle else mret (-1).

(** ** Replies *)
Definition send_msg (m : sshbuf) : M st () :=
  lm ← lift (sshbuf_len m);
  let '(mlen, m) := lm in
  on_oqueue (buffer_put_int mem_ok mlen);;
  pm ← lift ((p ← sshbuf_ptr; load p mlen) m);
  on_oqueue (buffer_append mem_ok pm.1 mlen);;
  lift (buffer_consume mlen m);;
  mret tt.
(** A message in a buffer of its own. *)
Definition send_buffer (fill : M sshbuf ()) : M st () :=
  msg ← lift (sshbuf_init mem_ok);
  msg ← lift (exec fill msg);
  send_msg msg.
Definition send_status (id status : Z) : M st () :=
  s ← get;
  send_buffer (
    buffer_put_char mem_ok SSH2_FXP_STATUS;;
    buffer_put_int mem_ok id;;
    buffer_put_int mem_ok status;;
    when (version s >=? 3) (
      m ← lift (status_to_message status);
      buffer_put_cstring mem_ok m;;
      buffer_put_cstring mem_ok [])).
Definition send_data_or_handle (type id : Z) (data : list Z) (dlen : Z) : M st () :=
  send_buffer (buffer_put_char mem_ok type;; buffer_put_int mem_ok id;; buffer_put_string mem_ok data dlen).
Definition send_data (id : Z) (data : list Z) (dlen : Z) : M st () := send_data_or_handle SSH2_FXP_DATA id data dlen.
Definition send_handle (id handle : Z) : M st () :=
  string ← handle_to_string handle;
  send_data_or_handle SSH2_FXP_HANDLE id string 4.
Fixpoint put_names (stats : list Stat) : M sshbuf () :=
  match stats with
  | [] => mret tt
  | x :: stats =>
      buffer_put_cstring mem_ok (n_name x);;
      buffer_put_cstring mem_ok (n_long_name x);;
      encode_attrib mem_ok (n_attrib x);;
      put_names stats
  end.
Definition send_names (id : Z) (stats : list Stat) : M st () :=
  send_buffer (
    buffer_put_char mem_ok SSH2_FXP_NAME;;
    buffer_put_int mem_ok id;;
    buffer_put_int mem_ok (zlen stats);;
    put_names stats).
Definition send_attrib (id : Z) (a : Attrib) : M st () :=
  send_buffer (buffer_put_char mem_ok SSH2_FXP_ATTRS;; buffer_put_int mem_ok id;; encode_attrib mem_ok a).

(** The names of users and groups ([pwcache.c]), with their caches.  The result
    of [strdup] is not tested: [None] is a null pointer, in the cache and as the
    result. *)
Definition NCACHE : Z := 64.
Definition MASK : Z := NCACHE - 1.
Definition from_id (cache : st → list (Z * option (list Z))) (set_cache : list (Z * option (list Z)) → st → st)
    (lookup : Z → option (list Z)) (id : Z) : M st (option (list Z)) :=
  s ← get;
  let i := Z.to_nat (Z.land id MASK) in
  let refill :=
    let name := match lookup id with Some name => cstr name | None => snprint 15 (decimal id) end in
    let copy := if mem_ok (strlen name + 1) then Some name else None in
    modify (set_cache (<[i := (id, copy)]> (cache s)));; mret copy in
  match cache s !! i with
  | Some (id', Some name) => if id' =? id then mret (Some name) else refill
  | Some (_, None) => refill
  | None => undefined "c_uid"
  end.
Definition user_from_uid (uid : Z) : M st (option (list Z)) := from_id c_uid set_c_uid getpwuid uid.
Definition group_from_gid (gid : Z) : M st (option (list Z)) := from_id c_gid set_c_gid getgrgid gid.
(** [ls_file] as the server calls it: local names, no units. *)
Definition ls_file (name : list Z) (x : stat) : M st (list Z) :=
  user ← user_from_uid (st_uid x);
  group ← group_from_gid (st_gid x);
  s ← get;
  user ← (match user with Some user => mret user | None => undefined "strlen(user)" end);
  group ← (match group with Some group => mret group | None => undefined "strlen(group)" end);
  let tbuf := if (now (fs s) - 365 * 24 * 60 * 60 / 2 <? st_mtime x) && (now (fs s) >=? st_mtime x)
              then strftime "%b %e %H:%M" (st_mtime x) else strftime "%b %e  %Y" (st_mtime x) in
  xstrdup (snprint 1024 (strmode (st_mode x) ++ [32] ++ pad_left 3 (decimal (u32 (st_nlink x))) ++ [32] ++
    pad_right (Z.max (zlen user) 8) user ++ [32] ++ pad_right (Z.max (zlen group) 8) group ++ [32] ++
    pad_left 8 (decimal (u64 (st_size x))) ++ [32] ++ tbuf ++ [32] ++ name)).

(** ** Requests *)
(** [(ret == -1) ? errno_to_portable(errno) : SSH2_FX_OK]. *)
Definition ret_status (r : sysret) : Z := if sr_ret r =? -1 then errno_to_portable (sr_errno r) else SSH2_FX_OK.
Definition process_init : M st () :=
  v ← get_int;
  modify (set_version v);;
  send_buffer (
    buffer_put_char mem_ok SSH2_FXP_VERSION;;
    buffer_put_int mem_ok SSH2_FILEXFER_VERSION;;
    buffer_put_cstring mem_ok (bytes_of_string "posix-rename@openssh.com");;
    buffer_put_cstring mem_ok (bytes_of_string "1");;
    buffer_put_cstring mem_ok (bytes_of_string "hardlink@openssh.com");;
    buffer_put_cstring mem_ok (bytes_of_string "1");;
    buffer_put_cstring mem_ok (bytes_of_string "fsync@openssh.com");;
    buffer_put_cstring mem_ok (bytes_of_string "1")).
Definition send_unless_ok (id status : Z) : M st () := when (negb (status =? SSH2_FX_OK)) (send_status id status).
Definition process_open (id : Z) : M st () :=
  name ← get_string;
  pflags ← get_int;
  a ← get_attrib;
  let flags := flags_from_portable (i32 pflags) in
  let mode := if has (a_flags a) SSH2_FILEXFER_ATTR_PERMISSIONS then a_perm a else 438 in
  status ← (
    if readonly && ((Z.land flags O_ACCMODE =? O_WRONLY) || (Z.land flags O_ACCMODE =? O_RDWR)) then mret SSH2_FX_PERMISSION_DENIED
    else
      r ← sys (SysOpen (cstr name) flags mode);
      if sr_ret r <? 0 then mret (errno_to_portable (sr_errno r))
      else
        handle ← handle_new HANDLE_FILE name (sr_ret r) flags 0;
        if handle <? 0 then sys (SysClose (sr_ret r));; mret SSH2_FX_FAILURE
        else send_handle id handle;; mret SSH2_FX_OK);
  send_unless_ok id status.
Definition process_close (id : Z) : M st () :=
  handle ← get_handle;
  r ← handle_close handle;
  send_status id (if r.1 =? -1 then errno_to_portable r.2 else SSH2_FX_OK).
Definition process_read (id : Z) : M st () :=
  handle ← get_handle;
  off ← get_int64;
  len ← get_int;
  let len := if len >? 65536 then 65536 else len in
  fd ← handle_to_fd handle;
  status ← (
    if fd >=? 0 then
      r ← sys (SysLseek fd off);
      if sr_ret r <? 0 then mret (errno_to_portable (sr_errno r))
      else
        r ← sys (SysRead fd len);
        if sr_ret r <? 0 then mret (errno_to_portable (sr_errno r))
        else if sr_ret r =? 0 then mret SSH2_FX_EOF
        else send_data id (sr_data r) (sr_ret r);; handle_update_read handle (sr_ret r);; mret SSH2_FX_OK
    else mret SSH2_FX_FAILURE);
  send_unless_ok id status.
Definition process_write (id : Z) : M st () :=
  handle ← get_handle;
  off ← get_int64;
  data ← get_string;
  fd ← handle_to_fd handle;
  status ← (
    if fd <? 0 then mret SSH2_FX_FAILURE
    else
      flags ← handle_to_flags handle;
      failed ← (if has flags O_APPEND then mret None
                else r ← sys (SysLseek fd off);
                     mret (if sr_ret r <? 0 then Some (errno_to_portable (sr_errno r)) else None));
      match failed with
      | Some status => mret status
      | None =>
          r ← sys (SysWrite fd data);
          if sr_ret r <? 0 then mret (errno_to_portable (sr_errno r))
          else if sr_ret r =? zlen data then handle_update_write handle (sr_ret r);; mret SSH2_FX_OK
          else mret SSH2_FX_FAILURE
      end);
  send_status id status.
Definition process_do_stat (id : Z) (do_lstat : bool) : M st () :=
  name ← get_string;
  r ← sys (if do_lstat then SysLstat (cstr name) else SysStat (cstr name));
  status ← (
    if sr_ret r <? 0 then mret (errno_to_portable (sr_errno r))
    else send_attrib id (stat_to_attrib (sr_stat r));; mret SSH2_FX_OK);
  send_unless_ok id status.
Definition process_stat (id : Z) : M st () := process_do_stat id false.
Definition process_lstat (id : Z) : M st () := process_do_stat id true.
Definition process_fstat (id : Z) : M st () :=
  handle ← get_handle;
  fd ← handle_to_fd handle;
  status ← (
    if fd >=? 0 then
      r ← sys (SysFstat fd);
      if sr_ret r <? 0 then mret (errno_to_portable (sr_errno r))
      else send_attrib id (stat_to_attrib (sr_stat r));; mret SSH2_FX_OK
    else mret SSH2_FX_FAILURE);
  send_unless_ok id status.
(** One step of [process_setstat]: the call if its flag is set, and the status
    so far. *)
Definition try_set (b : bool) (c : syscall) (status : Z) : M st Z :=
  if b then r ← sys c; mret (if sr_ret r =? -1 then errno_to_portable (sr_errno r) else status) else mret status.
(** The build has no [fchmod], [futimes] and [fchown] ([config.h]), so that an
    open file is changed by its name. *)
Definition set_attribs (truncate : syscall) (name : list Z) (a : Attrib) : M st Z :=
  status ← try_set (has (a_flags a) SSH2_FILEXFER_ATTR_SIZE) truncate SSH2_FX_OK;
  status ← try_set (has (a_flags a) SSH2_FILEXFER_ATTR_PERMISSIONS) (SysChmod name (Z.land (a_perm a) 4095)) status;
  status ← try_set (has (a_flags a) SSH2_FILEXFER_ATTR_ACMODTIME) (SysUtimes name (a_atime a) (a_mtime a)) status;
  try_set (has (a_flags a) SSH2_FILEXFER_ATTR_UIDGID) (SysChown name (a_uid a) (a_gid a)) status.
Definition process_setstat (id : Z) : M st () :=
  name ← get_string;
  a ← get_attrib;
  status ← set_attribs (SysTruncate (cstr name) (a_size a)) (cstr name) a;
  send_status id status.
Definition process_fsetstat (id : Z) : M st () :=
  handle ← get_handle;
  a ← get_attrib;
  fd ← handle_to_fd handle;
  status ← (
    if fd <? 0 then mret SSH2_FX_FAILURE
    else
      name ← handle_to_name handle;
      match name with
      | Some name => set_attribs (SysFtruncate fd (a_size a)) name a
      | None => undefined "null name"
      end);
  send_status id status.
Definition process_opendir (id : Z) : M st () :=
  path ← get_string;
  r ← sys (SysOpendir (cstr path));
  status ← (
    if sr_ret r <? 0 then mret (errno_to_portable (sr_errno r))
    else
      handle ← handle_new HANDLE_DIR path 0 0 (sr_ret r);
      if handle <? 0 then sys (SysClosedir (sr_ret r));; mret SSH2_FX_FAILURE
      else send_handle id handle;; mret SSH2_FX_OK);
  send_unless_ok id status.
Definition SIZEOF_STAT : Z := 48.
(** At most 100 entries; those [lstat] fails on are left out. *)
Fixpoint readdir_loop (fuel : nat) (dirp : Z) (path : list Z) (nstats : Z) (stats : list Stat) : M st (list Stat) :=
  match fuel with
  | O => undefined "fuel"
  | S fuel =>
      d ← sys (SysReaddir dirp);
      if sr_ret d <? 0 then mret stats
      else
        let d_name := cstr (sr_data d) in
        let full := zlen stats >=? nstats in
        let nstats := if full then nstats * 2 else nstats in
        when full (xrealloc nstats SIZEOF_STAT);;
        r ← sys (SysLstat (snprint MAXPATHLEN (path ++ (if bool_decide (path = [47]) then [] else [47]) ++ d_name)));
        if sr_ret r <? 0 then readdir_loop fuel dirp path nstats stats
        else
          name ← xstrdup d_name;
          long_name ← ls_file d_name (sr_stat r);
          let stats := stats ++ [mkName name long_name (stat_to_attrib (sr_stat r))] in
          if zlen stats =? 100 then mret stats else readdir_loop fuel dirp path nstats stats
  end.
Definition process_readdir (id : Z) : M st () :=
  handle ← get_handle;
  dirp ← handle_to_dir handle;
  path ← handle_to_name handle;
  match dirp, path with
  | Some dirp, Some path =>
      xmalloc (10 * SIZEOF_STAT);;
      s ← get;
      stats ← readdir_loop (S (dir_len (fs s) dirp)) dirp path 10 [];
      if zlen stats >? 0 then send_names id stats else send_status id SSH2_FX_EOF
  | _, _ => send_status id SSH2_FX_FAILURE
  end.
Definition process_remove (id : Z) : M st () :=
  name ← get_string;
  r ← sys (SysUnlink (cstr name));
  send_status id (ret_status r).
Definition process_mkdir (id : Z) : M st () :=
  name ← get_string;
  a ← get_attrib;
  let mode := if has (a_flags a) SSH2_FILEXFER_ATTR_PERMISSIONS then Z.land (a_perm a) 4095 else 511 in
  r ← sys (SysMkdir (cstr name) mode);
  send_status id (ret_status r).
Definition process_rmdir (id : Z) : M st () :=
  name ← get_string;
  r ← sys (SysRmdir (cstr name));
  send_status id (ret_status r).
Definition process_realpath (id : Z) : M st () :=
  path ← get_string;
  path ← (if bool_decide (cstr path = []) then xstrdup [46] else mret (cstr path));
  r ← sys (SysRealpath path);
  if sr_ret r <? 0 then send_status id (errno_to_portable (sr_errno r))
  else
    let resolvedname := cstr (sr_data r) in
    send_names id [mkName resolvedname resolvedname attrib_clear].
(** [stat], then [rename] if the new name does not exist. *)
Definition stat_rename (oldpath newpath : list Z) : M st Z :=
  r ← sys (SysStat newpath);
  if sr_ret r =? -1 then r ← sys (SysRename oldpath newpath); mret (ret_status r) else mret SSH2_FX_FAILURE.
Definition S_ISREG (mode : Z) : bool := Z.land mode 61440 =? 32768.
Definition rename_status (oldpath newpath : list Z) : M st Z :=
  sb ← sys (SysLstat oldpath);
  if sr_ret sb =? -1 then mret (errno_to_portable (sr_errno sb))
  else if S_ISREG (st_mode (sr_stat sb)) then
    r ← sys (SysLink oldpath newpath);
    if sr_ret r =? -1 then
      if (sr_errno r =? EOPNOTSUPP) || (sr_errno r =? ENOSYS) || (sr_errno r =? EXDEV) then stat_rename oldpath newpath
      else mret (errno_to_portable (sr_errno r))
    else
      r ← sys (SysUnlink oldpath);
      if sr_ret r =? -1 then sys (SysUnlink newpath);; mret (errno_to_portable (sr_errno r)) else mret SSH2_FX_OK
  else stat_rename oldpath newpath.
Definition process_rename (id : Z) : M st () :=
  oldpath ← get_string;
  newpath ← get_string;
  status ← rename_status (cstr oldpath) (cstr newpath);
  send_status id status.
Definition process_readlink (id : Z) : M st () :=
  path ← get_string;
  r ← sys (SysReadlink (cstr path) (MAXPATHLEN - 1));
  if sr_ret r =? -1 then send_status id (errno_to_portable (sr_errno r))
  else
    buf ← lift (mem_load (sr_data r) 0 (sr_ret r));
    send_names id [mkName (cstr buf) (cstr buf) attrib_clear].
Definition two_paths (c : list Z → list Z → syscall) (id : Z) : M st () :=
  oldpath ← get_string;
  newpath ← get_string;
  r ← sys (c (cstr oldpath) (cstr newpath));
  send_status id (ret_status r).
Definition process_symlink (id : Z) : M st () := two_paths SysSymlink id.
Definition process_extended_posix_rename (id : Z) : M st () := two_paths SysRename id.
Definition process_extended_hardlink (id : Z) : M st () := two_paths SysLink id.
Definition process_extended_fsync (id : Z) : M st () :=
  handle ← get_handle;
  fd ← handle_to_fd handle;
  status ← (
    if fd <? 0 then mret SSH2_FX_NO_SUCH_FILE
    else
      s ← get;
      if handle_is_ok s handle HANDLE_FILE then r ← sys (SysFsync fd); mret (ret_status r) else mret SSH2_FX_OP_UNSUPPORTED);
  send_status id status.

(** ** Dispatch *)
Record sftp_handler := mkHandler {
  sh_name : list Z;
  sh_ext_name : list Z;
  sh_type : Z;
  sh_handler : Z → M st ();
  sh_does_write : bool
}.
Definition handler_table : list sftp_handler :=
  [mkHandler (bytes_of_string "open") [] SSH2_FXP_OPEN process_open false;
   mkHandler (bytes_of_string "close") [] SSH2_FXP_CLOSE process_close false;
   mkHandler (bytes_of_string "read") [] SSH2_FXP_READ process_read false;
   mkHandler (bytes_of_string "write") [] SSH2_FXP_WRITE process_write true;
   mkHandler (bytes_of_string "lstat") [] SSH2_FXP_LSTAT process_lstat false;
   mkHandler (bytes_of_string "fstat") [] SSH2_FXP_FSTAT process_fstat false;
   mkHandler (bytes_of_string "setstat") [] SSH2_FXP_SETSTAT process_setstat true;
   mkHandler (bytes_of_string "fsetstat") [] SSH2_FXP_FSETSTAT process_fsetstat true;
   mkHandler (bytes_of_string "opendir") [] SSH2_FXP_OPENDIR process_opendir false;
   mkHandler (bytes_of_string "readdir") [] SSH2_FXP_READDIR process_readdir false;
   mkHandler (bytes_of_string "remove") [] SSH2_FXP_REMOVE process_remove true;
   mkHandler (bytes_of_string "mkdir") [] SSH2_FXP_MKDIR process_mkdir true;
   mkHandler (bytes_of_string "rmdir") [] SSH2_FXP_RMDIR process_rmdir true;
   mkHandler (bytes_of_string "realpath") [] SSH2_FXP_REALPATH process_realpath false;
   mkHandler (bytes_of_string "stat") [] SSH2_FXP_STAT process_stat false;
   mkHandler (bytes_of_string "rename") [] SSH2_FXP_RENAME process_rename true;
   mkHandler (bytes_of_string "readlink") [] SSH2_FXP_READLINK process_readlink false;
   mkHandler (bytes_of_string "symlink") [] SSH2_FXP_SYMLINK process_symlink true].
Definition extended_handlers : list sftp_handler :=
  [mkHandler (bytes_of_string "posix-rename") (bytes_of_string "posix-rename@openssh.com") 0 process_extended_posix_rename true;
   mkHandler (bytes_of_string "hardlink") (bytes_of_string "hardlink@openssh.com") 0 process_extended_hardlink true;
   mkHandler (bytes_of_string "fsync") (bytes_of_string "fsync@openssh.com") 0 process_extended_fsync true].
Definition on_list (name : list Z) (l : option (list Z)) : bool :=
  match l with Some l => bool_decide (is_Some (match_list name l)) | None => false end.
Definition request_permitted (h : sftp_handler) : bool :=
  if readonly && sh_does_write h then false
  else if on_list (sh_name h) request_blacklist then false
  else if on_list (sh_name h) request_whitelist then true
  else bool_decide (request_whitelist = None).
Fixpoint find_request (f : sftp_handler → bool) (l : list sftp_handler) : option sftp_handler :=
  match l with
  | [] => None
  | h :: l => if f h then Some h else find_request f l
  end.
Definition run_permitted (h : sftp_handler) (id : Z) : M st () :=
  if request_permitted h then sh_handler h id else send_status id SSH2_FX_PERMISSION_DENIED.
Definition process_extended (id : Z) : M st () :=
  request ← get_string;
  match find_request (λ h, strcmp_eq request (sh_ext_name h)) extended_handlers with
  | Some h => run_permitted h id
  | None => send_status id SSH2_FX_OP_UNSUPPORTED
  end.
(** The request [type]; one of an unknown type is dropped. *)
Definition process_type (type : Z) : M st () :=
  if type =? SSH2_FXP_INIT then process_init;; modify (set_init_done true)
  else if type =? SSH2_FXP_EXTENDED then
    s ← get;
    if negb (init_done s) then fatal "Received extended request before init"
    else id ← get_int; process_extended id
  else
    s ← get;
    if negb (init_done s) then fatal "Received %u request before init"
    else
      id ← get_int;
      match find_request (λ h, type =? sh_type h) handler_table with
      | Some h => run_permitted h id
      | None => mret tt
      end.
Definition sftp_server_cleanup_exit {A} (code : Z) : M st A := dropbear_exit "exit".
Definition process : M st () :=
  buf_len ← on_iqueue sshbuf_len;
  if buf_len <? 5 then mret tt
  else
    cp ← on_iqueue (p ← sshbuf_ptr; load p 4);
    let msg_len := LOAD32H cp in
    if msg_len >? SFTP_MAX_MSG_LENGTH then sftp_server_cleanup_exit 11
    else if buf_len <? u32 (msg_len + 4) then mret tt
    else
      on_iqueue (buffer_consume 4);;
      let buf_len := u32 (buf_len - 4) in
      type ← on_iqueue buffer_get_char;
      process_type type;;
      left ← on_iqueue sshbuf_len;
      if buf_len <? left then sftp_server_cleanup_exit 255
      else
        let consumed := u32 (buf_len - left) in
        if msg_len <? consumed then sftp_server_cleanup_exit 255
        else when (msg_len >? consumed) (on_iqueue (buffer_consume (u32 (msg_len - consumed)))).

(** ** The main loop *)
(** What [select], [read] and [write] return in a turn: a descriptor that is
    not ready is [None]; a failed call is [Some None].  [write] takes at most the
    bytes it is given. *)
Inductive turn :=
| SelectFails (eintr : bool)
| Selected (rd : option (option (list Z))) (wr : option (option Z)).
(** The bytes read from the client, and those written to it. *)
Definition sftp_turn (t : turn) : M st (list Z * list Z) :=
  can ← on_iqueue (buffer_check_alloc 16384);
  can ← (if can : bool then on_oqueue (buffer_check_alloc SFTP_MAX_MSG_LENGTH) else mret false);
  olen ← on_oqueue sshbuf_len;
  match t with
  | SelectFails true => mret ([], [])
  | SelectFails false => sftp_server_cleanup_exit 2
  | Selected rd wr =>
      inp ← (match rd with
             | Some r =>
                 if can : bool then
                   match r with
                   | None => sftp_server_cleanup_exit 1
                   | Some [] => sftp_server_cleanup_exit 0
                   | Some bs => on_iqueue (buffer_append mem_ok bs (zlen bs));; mret bs
                   end
                 else mret []
             | None => mret []
             end);
      out ← (match wr with
             | Some r =>
                 if olen >? 0 then
                   match r with
                   | None => sftp_server_cleanup_exit 1
                   | Some n => let n := Z.min n olen in bs ← on_oqueue (p ← sshbuf_ptr; load p n); on_oqueue (buffer_consume n);; mret bs
                   end
                 else mret []
             | None => mret []
             end);
      ok ← on_oqueue (buffer_check_alloc SFTP_MAX_MSG_LENGTH);
      when ok process;;
      mret (inp, out)
  end.
Fixpoint sftp_turns (ts : list turn) : M st (list Z * list Z) :=
  match ts with
  | [] => mret ([], [])
  | t :: ts => a ← sftp_turn t; b ← sftp_turns ts; mret (a.1 ++ b.1, a.2 ++ b.2)
  end.
(** The process before the main loop. *)
Definition sftp_start (f : FS) : outcome st :=
  i ← sshbuf_init mem_ok;
  o ← sshbuf_init mem_ok;
  let empty := replicate (Z.to_nat NCACHE) (0, None) in
  Ok (mkSftp _ i o 0 false [] (-1) empty empty f []).
End server.
