(* ===== verification/SftpProps.v ===== *)
(** * What the SFTP server is made of: its messages and its table of handles

    Reading arguments refines a grammar, filling a message gives its bytes, and
    attributes survive the round trip; the table of handles keeps its free
    list. *)
From S2P Require Import Prelude Buffer SshBuf Sftp.

(** ** Parsers that look at a prefix only *)
Class Prefix {A} (p : parser A) : Prop :=
  prefix_spec : ∀ l v tl, p l = Some (v, tl) → ∃ pre, l = pre ++ tl ∧ ∀ x, p (pre ++ x) = Some (v, x).
#[export] Instance prefix_ret {A} (a : A) : Prefix (p_ret a).
Proof. intros l v tl [= <- <-]. by exists []. Qed.
#[export] Instance prefix_fail {A} : Prefix (@p_fail A).
Proof. by intros l v tl. Qed.
#[export] Instance prefix_bytes n : Prefix (p_bytes n).
Proof.
  intros l v tl. unfold p_bytes. destruct (Z.leb_spec n (zlen l)) as [Hn|]; [|done]. intros [= <- <-]. exists (take (Z.to_nat n) l).
  split; [by rewrite take_drop|]. intros x. rewrite length_app, length_take. destruct (Z.leb_spec n (Z.of_nat (Z.to_nat n `min` length l + length x))); [|lia].
  rewrite take_app_le by (rewrite length_take; lia). rewrite drop_app_ge by (rewrite length_take; lia). rewrite length_take, take_take.
  replace (Z.to_nat n `min` Z.to_nat n)%nat with (Z.to_nat n) by lia. replace (Z.to_nat n - Z.to_nat n `min` length l)%nat with 0%nat by lia. done.
Qed.
#[export] Instance prefix_bind {A B} (p : parser A) (f : A → parser B) : Prefix p → (∀ a, Prefix (f a)) → Prefix (p_bind p f).
Proof.
  intros Hp Hf l v tl. unfold p_bind. destruct (p l) as [[a l1]|] eqn:E; [|done]. cbn. intros E2.
  apply Hp in E as (pre1 & -> & H1). apply Hf in E2 as (pre2 & -> & H2). exists (pre1 ++ pre2). split; [by rewrite app_assoc|].
  intros x. rewrite <- app_assoc, H1. cbn. apply H2.
Qed.
#[export] Instance prefix_if {A} (b : bool) (p q : parser A) : Prefix p → Prefix q → Prefix (if b then p else q).
Proof. by destruct b. Qed.
#[export] Instance prefix_byte : Prefix p_byte.
Proof. intros [|c l] v tl; [done|]. intros [= <- <-]. by exists [c]. Qed.
#[export] Instance prefix_int : Prefix p_int.
Proof. apply _. Qed.
#[export] Instance prefix_u64 : Prefix p_u64.
Proof. apply _. Qed.
#[export] Instance prefix_sstring : Prefix p_sstring.
Proof. apply _. Qed.
Fixpoint p_many (n : nat) : parser () :=
  match n with O => p_ret tt | S n => p_bind p_sstring (λ _, p_bind p_sstring (λ _, p_many n)) end.
#[export] Instance prefix_many n : Prefix (p_many n).
Proof. induction n; apply _. Qed.
Definition p_if (b : bool) (p : parser Z) : parser Z := if b then p else p_ret 0.
Definition p_attrib : parser Attrib :=
  p_bind p_int (λ flags,
  p_bind (p_if (has flags SSH2_FILEXFER_ATTR_SIZE) p_u64) (λ size,
  p_bind (p_if (has flags SSH2_FILEXFER_ATTR_UIDGID) p_int) (λ uid,
  p_bind (p_if (has flags SSH2_FILEXFER_ATTR_UIDGID) p_int) (λ gid,
  p_bind (p_if (has flags SSH2_FILEXFER_ATTR_PERMISSIONS) p_int) (λ perm,
  p_bind (p_if (has flags SSH2_FILEXFER_ATTR_ACMODTIME) p_int) (λ atime,
  p_bind (p_if (has flags SSH2_FILEXFER_ATTR_ACMODTIME) p_int) (λ mtime,
  p_bind (if has flags SSH2_FILEXFER_ATTR_EXTENDED then p_bind p_int (λ n, p_many (Z.to_nat (i32 n))) else p_ret tt) (λ _,
  p_ret (mkAttrib flags size uid gid perm atime mtime))))))))).
#[export] Instance prefix_p_if b p : Prefix p → Prefix (p_if b p).
Proof. unfold p_if. apply _. Qed.
#[export] Instance prefix_attrib : Prefix p_attrib.
Proof. unfold p_attrib. apply _. Qed.

Section buffers.
Variable mem_ok : Z → bool.
Abbreviation nomem := (no_memory mem_ok).
Implicit Types b : sshbuf.

(** ** Reading from a queue *)
Class Reads {A} (op : M sshbuf A) (p : parser A) : Prop :=
  reads_refines : ∀ b, sb_wf b →
    ewp (nomem ∨ p (sb_rest b) = None) op (λ v b', sb_wf b' ∧ sb_max_size b' = sb_max_size b ∧ p (sb_rest b) = Some (v, sb_rest b')) b.
#[export] Instance reads_get {A} (op : M sshbuf (Z + A)) p : Gets mem_ok op p → Reads (get_fatal op) p.
Proof.
  intros Hg b Hb. specialize (Hg b Hb). unfold get_fatal, fatal. ewp_step. destruct (p (sb_rest b)) as [[v tl]|].
  - destruct Hg as (r & b' & E & Hw & Hr & Hm & [->|[-> Hn]]); (eapply ewp_ok; [exact E|]); [apply ewp_ret; by rewrite Hr|apply ewp_exit; by left].
  - destruct Hg as (e & E & _). eapply ewp_ok; [exact E|]. apply ewp_exit. by right.
Qed.
#[export] Instance reads_ret {A} (a : A) : Reads (mret a) (p_ret a).
Proof. by intros b Hb. Qed.
#[export] Instance reads_seq {A B} (m : M sshbuf A) (f : A → M sshbuf B) p q : Reads m p → (∀ a, Reads (f a) (q a)) → Reads (m ≫= f) (p_bind p q).
Proof.
  intros Hm Hf b Hb. ewp_step. unfold p_bind. eapply ewp_weaken; [|eapply ewp_mono; [by apply Hm|]].
  - intros [?|E]; [by left|]. right. by rewrite E.
  - intros a b1 (Hb1 & Hm1 & E1). rewrite E1. cbn. eapply ewp_weaken; [|eapply ewp_mono; [by apply Hf|]]; [done|].
    intros v b2 (Hb2 & Hm2 & E2). by rewrite Hm2, Hm1.
Qed.
#[export] Instance reads_if {A} (c : bool) (m1 m2 : M sshbuf A) p1 p2 : Reads m1 p1 → Reads m2 p2 → Reads (if c then m1 else m2) (if c then p1 else p2).
Proof. by destruct c. Qed.
#[export] Instance reads_skip n : Reads (skip_extended mem_ok n) (p_many n).
Proof. induction n as [|n IH]; cbn; apply _. Qed.
#[export] Instance reads_get_if c m p : Reads m p → Reads (get_if c m) (p_if c p).
Proof. by destruct c. Qed.
#[export] Instance reads_when c m p : Reads m p → Reads (when c m) (if c then p else p_ret tt).
Proof. destruct c; [done|]. intros _. apply reads_ret. Qed.
#[export] Instance reads_attrib : Reads (decode_attrib mem_ok) p_attrib.
Proof. unfold decode_attrib, p_attrib. apply _. Qed.

(** ** Filling a message *)
Class Fills (op : M sshbuf ()) (bs : list Z) : Prop := {
  fills_bytes : Forall is_byte bs;
  fills_ok : ∀ b, sb_wf b → zlen (sb_rest b) + zlen bs ≤ sb_max_size b →
    ewp nomem op (λ _ b', sb_wf b' ∧ sb_rest b' = sb_rest b ++ bs ∧ sb_max_size b' = sb_max_size b) b
}.
#[export] Instance fills_put op bs : Puts mem_ok op bs → Fills (put_fatal op) bs.
Proof.
  intros [Hb Hp]. split; [done|]. intros b Hw Hfit. specialize (Hp b Hw). destruct (Z.gtb_spec (zlen (sb_rest b) + zlen bs) (sb_max_size b)); [lia|].
  unfold put_fatal. ewp_step. destruct Hp as [(b' & E & _ & Hn)|(b' & E & Hok)]; (eapply ewp_ok; [exact E|]); [by apply ewp_exit|done].
Qed.
#[export] Instance fills_ret : Fills (mret tt) [].
Proof. split; [done|]. intros b Hb _. ewp_step. by rewrite app_nil_r. Qed.
#[export] Instance fills_seq op1 op2 bs1 bs2 : Fills op1 bs1 → Fills op2 bs2 → Fills (op1 ≫= λ _, op2) (bs1 ++ bs2).
Proof.
  intros [Hb1 H1] [Hb2 H2]. split; [by apply Forall_app|]. intros b Hb Hfit. rewrite length_app in Hfit. ewp_step.
  eapply ewp_mono; [apply H1; [done|lia]|]. intros [] b1 (Hw1 & Hr1 & Hm1). eapply ewp_mono; [apply H2; [done|]|].
  - rewrite Hr1, length_app, Hm1. lia.
  - intros [] b2 (Hw2 & Hr2 & Hm2). rewrite Hr2, Hr1, app_assoc. split_and!; [done..|congruence].
Qed.
#[export] Instance fills_when (c : bool) op bs : Fills op bs → Fills (when c op) (if c then bs else []).
Proof. destruct c; [done|]. intros _. apply fills_ret. Qed.
#[export] Instance fills_if (c : bool) op1 op2 bs1 bs2 : Fills op1 bs1 → Fills op2 bs2 → Fills (if c then op1 else op2) (if c then bs1 else bs2).
Proof. by destruct c. Qed.
Lemma fills_string v len : Forall is_byte v → 0 ≤ len ≤ zlen v → len ≤ SSHBUF_SIZE_MAX - 4 →
  Fills (buffer_put_string mem_ok v len) (STORE32H len ++ take (Z.to_nat len) v).
Proof. intros. apply fills_put. by apply puts_string. Qed.
Lemma fills_cstring v : Forall is_byte v → strlen v ≤ SSHBUF_SIZE_MAX - 4 →
  Fills (buffer_put_cstring mem_ok v) (STORE32H (strlen v) ++ cstr v).
Proof.
  intros Hv Hl. pose proof (puts_string mem_ok v (strlen v) Hv (strlen_le v) Hl) as Hp. unfold strlen in Hp at 3. rewrite Nat2Z.id, <- cstr_take in Hp.
  by apply fills_put.
Qed.
Definition enc_attrib (a : Attrib) : list Z :=
  STORE32H (a_flags a) ++
  (if has (a_flags a) SSH2_FILEXFER_ATTR_SIZE then POKE_U64 (a_size a) else []) ++
  (if has (a_flags a) SSH2_FILEXFER_ATTR_UIDGID then STORE32H (a_uid a) ++ STORE32H (a_gid a) else []) ++
  (if has (a_flags a) SSH2_FILEXFER_ATTR_PERMISSIONS then STORE32H (a_perm a) else []) ++
  (if has (a_flags a) SSH2_FILEXFER_ATTR_ACMODTIME then STORE32H (a_atime a) ++ STORE32H (a_mtime a) else []).
#[export] Instance fills_attrib a : Fills (encode_attrib mem_ok a) (enc_attrib a).
Proof. unfold encode_attrib, enc_attrib, buffer_put_int, buffer_put_int64. apply _. Qed.
End buffers.

(** ** The table of handles *)
(** The unused entries are the list that starts at [first_unused_handle]. *)
Fixpoint chain (hs : list Handle) (first : Z) (free : list nat) : Prop :=
  match free with
  | [] => first = -1
  | i :: free => first = Z.of_nat i ∧ ∃ h, hs !! i = Some h ∧ h_use h = HANDLE_UNUSED ∧ chain hs (h_next_unused h) free
  end.
Definition TABLE_MAX : Z := SIZE_T_MAX / SIZEOF_HANDLE.
Record table_ok (hs : list Handle) (first : Z) : Prop := {
  to_free : ∃ free, chain hs first free ∧ NoDup free ∧ ∀ i h, hs !! i = Some h → h_use h = HANDLE_UNUSED → i ∈ free;
  to_fd : ∀ i h, hs !! i = Some h → h_use h = HANDLE_FILE → 0 ≤ h_fd h;
  to_size : zlen hs ≤ TABLE_MAX
}.
Lemma chain_insert hs first free i h : i ∉ free → chain hs first free → chain (<[i := h]> hs) first free.
Proof.
  revert first. induction free as [|j free IH]; intros first Hi; [done|]. apply not_elem_of_cons in Hi as [Hne Hi]. cbn.
  intros (-> & h' & Hj & Hu & Hc). split; [done|]. exists h'. rewrite list_lookup_insert_ne by done. by split_and!; [..|apply IH].
Qed.
Lemma chain_unused hs first free i : chain hs first free → i ∈ free → ∃ h, hs !! i = Some h ∧ h_use h = HANDLE_UNUSED.
Proof.
  revert first. induction free as [|j free IH]; intros first; [by intros _ ?%not_elem_of_nil|]. cbn. intros (_ & h & Hj & Hu & Hc) [->|Hi]%elem_of_cons.
  - by exists h.
  - by eapply IH.
Qed.
(** An entry in use becomes the head of the list. *)
Lemma table_release hs first i h h' : table_ok hs first → hs !! i = Some h → h_use h ≠ HANDLE_UNUSED →
  h_use h' = HANDLE_UNUSED → h_next_unused h' = first → table_ok (<[i := h']> hs) (Z.of_nat i).
Proof.
  intros [(free & Hc & Hnd & Hall) Hfd Hsz] Hi Hu Hu' Hn'. assert (Hfr : i ∉ free).
  { intros Hin. destruct (chain_unused _ _ _ _ Hc Hin) as (h0 & H0 & Hu0). congruence. }
  assert (Hlt : (i < length hs)%nat) by (by eapply lookup_lt_Some). split.
  - exists (i :: free). split; [|split].
    + cbn. split; [done|]. exists h'. rewrite list_lookup_insert_eq by done. split_and!; [done..|]. rewrite Hn'. by apply chain_insert.
    + by constructor.
    + intros j hj. destruct (decide (j = i)) as [->|Hne]; [intros; left|]. rewrite list_lookup_insert_ne by done. intros. right. by eapply Hall.
  - intros j hj. destruct (decide (j = i)) as [->|Hne]; [rewrite list_lookup_insert_eq by done; intros [= <-]; congruence|].
    rewrite list_lookup_insert_ne by done. by apply Hfd.
  - by rewrite length_insert.
Qed.
(** The head of the list is taken into use. *)
Lemma table_take hs first i h h' : table_ok hs first → first = Z.of_nat i → hs !! i = Some h → h_use h = HANDLE_UNUSED →
  h_use h' ≠ HANDLE_UNUSED → (h_use h' = HANDLE_FILE → 0 ≤ h_fd h') → table_ok (<[i := h']> hs) (h_next_unused h).
Proof.
  intros [(free & Hc & Hnd & Hall) Hfd Hsz] -> Hi Hu Hu' Hf'. assert (Hlt : (i < length hs)%nat) by (by eapply lookup_lt_Some).
  destruct free as [|j free]; [cbn in Hc; lia|]. cbn in Hc. destruct Hc as (Ej & hj & Hj & _ & Hc). apply Nat2Z.inj in Ej as <-.
  assert (hj = h) as -> by congruence. apply NoDup_cons in Hnd as [Hni Hnd]. split.
  - exists free. split; [by apply chain_insert|]. split; [done|]. intros k hk. destruct (decide (k = i)) as [->|Hne].
    + rewrite list_lookup_insert_eq by done. intros [= <-]. congruence.
    + rewrite list_lookup_insert_ne by done. intros Hk Hku. destruct (elem_of_cons free k i) as [He _]. destruct He; [by eapply Hall|done|done].
  - intros k hk. destruct (decide (k = i)) as [->|Hne]; [rewrite list_lookup_insert_eq by done; by intros [= <-]|].
    rewrite list_lookup_insert_ne by done. by apply Hfd.
  - by rewrite length_insert.
Qed.
(** A new entry, when there is no unused one. *)
Lemma table_grow hs h : table_ok hs (-1) → h_use h = HANDLE_UNUSED → h_next_unused h = -1 → zlen hs < TABLE_MAX →
  table_ok (hs ++ [h]) (zlen hs).
Proof.
  intros [(free & Hc & Hnd & Hall) Hfd Hsz] Hu Hn Hlt. destruct free as [|j free]; [|cbn in Hc; lia]. split.
  - exists [length hs]. split; [|split; [apply NoDup_singleton|]].
    + cbn. split; [done|]. exists h. rewrite lookup_app_r, Nat.sub_diag by lia. by split_and!.
    + intros i hi [Hi|[Hge Hi]]%lookup_app_Some Hui; [by apply Hall in Hi as ?%not_elem_of_nil|].
      destruct (i - length hs)%nat eqn:E; [|done]. replace i with (length hs) by lia. by left.
  - intros i hi [Hi|[Hge Hi]]%lookup_app_Some Hui; [by eapply Hfd|]. destruct (i - length hs)%nat; [|done]. injection Hi as <-. congruence.
  - rewrite length_app. cbn. lia.
Qed.
(** An entry in use is changed. *)
Lemma table_update hs first i h h' : table_ok hs first → hs !! i = Some h → h_use h ≠ HANDLE_UNUSED → h_use h' = h_use h → h_fd h' = h_fd h →
  table_ok (<[i := h']> hs) first.
Proof.
  intros [(free & Hc & Hnd & Hall) Hfd Hsz] Hi Hu Hu' Hf'. assert (Hlt : (i < length hs)%nat) by (by eapply lookup_lt_Some). split.
  - exists free. split; [|split; [done|]].
    + apply chain_insert; [|done]. intros Hin. destruct (chain_unused _ _ _ _ Hc Hin) as (h0 & H0 & Hu0). congruence.
    + intros j hj. destruct (decide (j = i)) as [->|Hne]; [rewrite list_lookup_insert_eq by done; intros [= <-]; congruence|].
      rewrite list_lookup_insert_ne by done. by apply Hall.
  - intros j hj. destruct (decide (j = i)) as [->|Hne]; [rewrite list_lookup_insert_eq by done; intros [= <-]; rewrite Hu', Hf'; by apply (Hfd i)|].
    rewrite list_lookup_insert_ne by done. by apply Hfd.
  - by rewrite length_insert.
Qed.

(** What the entries in use say. *)
Definition entry : Type := handle_use * list Z * Z * Z * Z.
Definition live (hs : list Handle) (i : nat) : option entry :=
  h ← hs !! i; if decide (h_use h = HANDLE_UNUSED) then None else Some (h_use h, h_name h, h_fd h, h_flags h, h_dirp h).
Lemma live_unused hs i h : hs !! i = Some h → h_use h = HANDLE_UNUSED → live hs i = None.
Proof. intros E Hu. unfold live. rewrite E. cbn. by rewrite decide_True. Qed.
Lemma live_grow hs h j : h_use h = HANDLE_UNUSED → live (hs ++ [h]) j = live hs j.
Proof.
  intros Hu. unfold live. destruct (decide (j < length hs)%nat) as [Hlt|Hge]; [by rewrite lookup_app_l|].
  rewrite lookup_app_r, (lookup_ge_None_2 hs) by lia. destruct (j - length hs)%nat; [|done]. cbn. by rewrite decide_True.
Qed.
Lemma live_insert hs i h j : (i < length hs)%nat →
  live (<[i := h]> hs) j = if decide (j = i) then
    (if decide (h_use h = HANDLE_UNUSED) then None else Some (h_use h, h_name h, h_fd h, h_flags h, h_dirp h)) else live hs j.
Proof.
  intros Hi. unfold live. destruct (decide (j = i)) as [->|Hne]; [by rewrite list_lookup_insert_eq|by rewrite list_lookup_insert_ne].
Qed.

(** ** Attributes survive the wire *)
(** The fields fit, and those the flags do not announce are clear. *)
Definition attrib_ok (a : Attrib) : Prop :=
  0 ≤ a_flags a < U32 ∧ has (a_flags a) SSH2_FILEXFER_ATTR_EXTENDED = false ∧
  (0 ≤ a_size a < U64 ∧ (has (a_flags a) SSH2_FILEXFER_ATTR_SIZE = false → a_size a = 0)) ∧
  (0 ≤ a_uid a < U32 ∧ 0 ≤ a_gid a < U32 ∧ (has (a_flags a) SSH2_FILEXFER_ATTR_UIDGID = false → a_uid a = 0 ∧ a_gid a = 0)) ∧
  (0 ≤ a_perm a < U32 ∧ (has (a_flags a) SSH2_FILEXFER_ATTR_PERMISSIONS = false → a_perm a = 0)) ∧
  (0 ≤ a_atime a < U32 ∧ 0 ≤ a_mtime a < U32 ∧ (has (a_flags a) SSH2_FILEXFER_ATTR_ACMODTIME = false → a_atime a = 0 ∧ a_mtime a = 0)).
Lemma low_byte v d e : 0 < d → d * (e * 256) = U32 → (v / d) mod 256 = ((v mod U32) / d) mod 256.
Proof.
  intros Hd E. rewrite (Z.div_mod v U32) at 1 by done. replace (U32 * (v / U32) + v mod U32) with ((v / U32 * e * 256) * d + v mod U32) by (rewrite <- E; ring).
  rewrite Z.div_add_l by lia. rewrite Z.add_comm. apply Z.mod_add. done.
Qed.
Lemma STORE32H_u32 v : STORE32H v = STORE32H (u32 v).
Proof.
  unfold STORE32H. rewrite !land_255, !Z.shiftr_div_pow2 by lia. unfold u32. rewrite (low_byte v (2 ^ 24) 1), (low_byte v (2 ^ 16) 256), (low_byte v (2 ^ 8) 65536) by done.
  pose proof (low_byte v 1 16777216 ltac:(done) eq_refl) as H. rewrite !Z.div_1_r in H. by rewrite H.
Qed.
Lemma PEEK_POKE_U64 v : 0 ≤ v < U64 → PEEK_U64 (POKE_U64 v) = v.
Proof.
  intros Hv. unfold PEEK_U64, POKE_U64. rewrite take_app_length', drop_app_length' by (by rewrite STORE32H_length).
  rewrite (STORE32H_u32 v), !LOAD32H_STORE32H.
  - unfold u32, U32. change 4294967296 with (2 ^ 32). rewrite <- Z.land_ones by lia. apply Z.bits_inj'. intros i Hi.
    rewrite Z.lor_spec, Z.land_spec, Z.testbit_ones_nonneg by lia. destruct (Z.ltb_spec i 32).
    + rewrite Z.shiftl_spec_low by done. by rewrite andb_true_r.
    + rewrite Z.shiftl_spec, Z.shiftr_spec by lia. rewrite andb_false_r, orb_false_r. f_equal. lia.
  - apply u32_range.
  - rewrite Z.shiftr_div_pow2 by lia. unfold U64, U32 in *. change (2 ^ 32) with 4294967296. Z.to_euclidean_division_equations. lia.
Qed.
Lemma p_u64_app v tl : 0 ≤ v < U64 → p_u64 (POKE_U64 v ++ tl) = Some (v, tl).
Proof.
  intros Hv. assert (Hl : length (POKE_U64 v) = 8%nat) by (unfold POKE_U64; by rewrite length_app, !STORE32H_length).
  unfold p_u64, p_bind, p_bytes. rewrite length_app, Hl. destruct (Z.leb_spec 8 (Z.of_nat (8 + length tl))); [|lia]. cbn [mbind option_bind].
  change (Z.to_nat 8) with 8%nat. rewrite take_app_length', drop_app_length', PEEK_POKE_U64 by done. done.
Qed.
Lemma p_attrib_enc a tl : attrib_ok a → p_attrib (enc_attrib a ++ tl) = Some (a, tl).
Proof.
  intros (Hf & Hx & (Hs & Hs0) & (Hu & Hg & Hug0) & (Hp & Hp0) & (Hat & Hmt & Ht0)). destruct a as [fl sz uid gid perm at_ mt].
  cbn [a_flags a_size a_uid a_gid a_perm a_atime a_mtime] in *.
  unfold p_attrib, enc_attrib, p_if. cbn [a_flags a_size a_uid a_gid a_perm a_atime a_mtime]. unfold p_bind at 1. rewrite <- !app_assoc, p_int_app by done. cbn [mbind option_bind].
  rewrite Hx. destruct (has fl SSH2_FILEXFER_ATTR_SIZE); [|rewrite (Hs0 eq_refl)]; (destruct (has fl SSH2_FILEXFER_ATTR_UIDGID); [|destruct (Hug0 eq_refl) as [-> ->]]);
    (destruct (has fl SSH2_FILEXFER_ATTR_PERMISSIONS); [|rewrite (Hp0 eq_refl)]); (destruct (has fl SSH2_FILEXFER_ATTR_ACMODTIME); [|destruct (Ht0 eq_refl) as [-> ->]]);
    unfold p_bind, p_ret; cbn [app]; rewrite <- ?app_assoc;
    repeat first [rewrite p_u64_app by done|rewrite p_int_app by done|progress cbn [mbind option_bind app]]; done.
Qed.
Lemma enc_attrib_length a : zlen (enc_attrib a) ≤ 32.
Proof. unfold enc_attrib, POKE_U64. repeat case_match; rewrite ?length_app, ?STORE32H_length; cbn; lia. Qed.
(** Attributes survive the wire.  [encode_attrib] appends to a buffer what
    [decode_attrib] reads back from any buffer that holds it, whatever follows:
    the same attributes, and nothing else is consumed. *)
Theorem attrib_roundtrip mem_ok a b : (∀ n, n ≤ SSHBUF_SIZE_MAX → mem_ok n = true) → attrib_ok a → sb_wf b → zlen (sb_rest b) + 32 ≤ sb_max_size b →
  ∃ b1, encode_attrib mem_ok a b = Ok (tt, b1) ∧
    ∀ b2 tl, sb_wf b2 → sb_rest b1 ++ tl = sb_rest b ++ sb_rest b2 → ∃ b3, decode_attrib mem_ok b2 = Ok (a, b3) ∧ sb_rest b3 = tl.
Proof.
  intros Hmem Ha Hb Hfit. assert (Hno : ¬ no_memory mem_ok) by (intros (n & Hn & E); by rewrite Hmem in E).
  pose proof (enc_attrib_length a). pose proof (@fills_ok mem_ok _ _ (fills_attrib mem_ok a) b Hb ltac:(lia)) as Hf. unfold ewp in Hf.
  destruct (encode_attrib mem_ok a b) as [[[] b1]| |]; [|done..]. destruct Hf as (_ & Hr1 & _). exists b1. split; [done|].
  intros b2 tl Hb2 E. rewrite Hr1, <- app_assoc in E. apply app_inv_head in E. pose proof (reads_attrib mem_ok b2 Hb2) as Hd. unfold ewp in Hd.
  rewrite <- E, p_attrib_enc in Hd by done. destruct (decode_attrib mem_ok b2) as [[v b3]| |]; [|by destruct Hd|done].
  destruct Hd as (_ & _ & Hd). injection Hd as -> ->. by exists b3.
Qed.
Definition wit_attrib : Attrib := stat_to_attrib (mkStat 33188 1 5000000000 10001 10002 1700000000 (-1)).
Lemma attrib_roundtrip_witness :
  ∃ b1, encode_attrib (λ _, true) wit_attrib (mkSb (replicate 256 7) 3 9 SSHBUF_SIZE_MAX false 1) = Ok (tt, b1) ∧
    ∀ b2 tl, sb_wf b2 → sb_rest b1 ++ tl = replicate 6 7 ++ sb_rest b2 → ∃ b3, decode_attrib (λ _, true) b2 = Ok (wit_attrib, b3) ∧ sb_rest b3 = tl.
Proof.
  apply (attrib_roundtrip (λ _, true) wit_attrib (mkSb (replicate 256 7) 3 9 SSHBUF_SIZE_MAX false 1)); [reflexivity|by vm_compute| |by vm_compute].
  split; [done|cbn; lia|by vm_compute|by vm_compute|by vm_compute|by apply (Forall_replicate is_byte 256 7)].
Defined.
