(* ===== verification/SftpReply.v ===== *)
(** * The handlers of the SFTP server send one reply each

    A handler reads the arguments its grammar says, uses the file system, whose
    documented behaviour is [os_ok], and puts one reply with the number of its
    request into the queue, or the process ends because there is no memory or
    the arguments are malformed.  Handlers are taken apart by judgements:
    [Steps] for parts that send nothing, [Sends] for a reply, [Maybe] for parts
    that send a reply or return an error, [Answers] for a whole handler. *)
From S2P Require Import Prelude Buffer SshBuf Sftp SftpProps.

(** A message with its length. *)
Definition frame (r : list Z) : list Z := STORE32H (zlen r) ++ r.
Definition reply_types : list Z := [SSH2_FXP_STATUS; SSH2_FXP_HANDLE; SSH2_FXP_DATA; SSH2_FXP_NAME; SSH2_FXP_ATTRS].
Definition reply_to (id : Z) (r : list Z) : Prop :=
  ∃ type body, r = [type] ++ STORE32H id ++ body ∧ type ∈ reply_types ∧ zlen r ≤ SFTP_MAX_MSG_LENGTH - 4.
Definition status_ok (v : Z) : Prop := 0 ≤ v ≤ 8.
Definition status_bad (v : Z) : Prop := 1 ≤ v ≤ 8.
(** What POSIX promises of the system calls. *)
Definition ret_ok (c : syscall) (r : sysret) : Prop :=
  (sr_ret r = -1 ∧ 0 < sr_errno r) ∨
  (0 ≤ sr_ret r ∧
   match c with
   | SysRead _ len | SysReadlink _ len => Forall is_byte (sr_data r) ∧ zlen (sr_data r) = sr_ret r ∧ sr_ret r ≤ len
   | SysRealpath _ => Forall is_byte (sr_data r) ∧ strlen (sr_data r) < MAXPATHLEN
   | SysReaddir _ => Forall is_byte (sr_data r) ∧ strlen (sr_data r) < 256
   | _ => True
   end).
(** The table takes no more memory than a buffer. *)
Definition MAX_HANDLES : Z := SSHBUF_SIZE_MAX / SIZEOF_HANDLE.

Lemma errno_bad e : 0 < e → status_bad (errno_to_portable e).
Proof.
  intros He. unfold errno_to_portable. destruct (Z.eqb_spec e 0); [lia|]. unfold status_bad.
  repeat match goal with |- context[if ?b then _ else _] => destruct b end; by vm_compute.
Qed.
Lemma ret_bad c r : ret_ok c r → sr_ret r < 0 → status_bad (errno_to_portable (sr_errno r)).
Proof. intros [[_ He]|[? _]] Hr; [by apply errno_bad|lia]. Qed.
Lemma bad_ok v : status_bad v → status_ok v.
Proof. unfold status_bad, status_ok. lia. Qed.
Lemma ret_status_ok c r : ret_ok c r → status_ok (ret_status r).
Proof. intros Hr. unfold ret_status. destruct (Z.eqb_spec (sr_ret r) (-1)); [eapply bad_ok, ret_bad; [done|lia]|done]. Qed.

Section reply.
Context {FS : Type}.
Variable mem_ok : Z → bool.
Variable os : FS → syscall → sysret * FS.
Variable dir_len : FS → Z → nat.
Variable getpwuid getgrgid : Z → option (list Z).
Variable now : FS → Z.
Variable strftime : string → Z → list Z.
Variable readonly : bool.
Variable request_whitelist request_blacklist : option (list Z).
Abbreviation st := (sftp FS).
Abbreviation nomem := (no_memory mem_ok).
Implicit Types s : st.

Record os_ok : Prop := {
  os_ret : ∀ f c, ret_ok c (os f c).1;
  os_readdir : ∀ f d, 0 ≤ sr_ret (os f (SysReaddir d)).1 → (dir_len (os f (SysReaddir d)).2 d < dir_len f d)%nat;
  os_lstat : ∀ f d p, dir_len (os f (SysLstat p)).2 d = dir_len f d;
  os_user : ∀ u n, getpwuid u = Some n → Forall is_byte n ∧ strlen n < 256;
  os_group : ∀ g n, getgrgid g = Some n → Forall is_byte n ∧ strlen n < 256;
  os_time : ∀ fmt t, Forall is_byte (strftime fmt t)
}.

(** ** The invariant *)
Definition cache_ok (c : list (Z * option (list Z))) : Prop := zlen c = NCACHE ∧ Forall (λ e, ∀ n, e.2 = Some n → Forall is_byte n) c.
Record sftp_inv (k : Z) s : Prop := {
  si_iq : sb_wf (iqueue s);
  si_imax : sb_max_size (iqueue s) = SSHBUF_SIZE_MAX;
  si_oq : sb_wf (oqueue s);
  si_omax : sb_max_size (oqueue s) = SSHBUF_SIZE_MAX;
  si_table : table_ok (handles s) (first_unused_handle s);
  si_count : zlen (handles s) ≤ k;
  si_uid : cache_ok (c_uid s);
  si_gid : cache_ok (c_gid s)
}.
Abbreviation irest s := (sb_rest (iqueue s)).
Abbreviation orest s := (sb_rest (oqueue s)).
Definition room s : Prop := zlen (orest s) + SFTP_MAX_MSG_LENGTH ≤ SSHBUF_SIZE_MAX.
Definition kept s s' : Prop := version s' = version s ∧ init_done s' = init_done s.
Definition calm s s' : Prop := irest s' = irest s ∧ orest s' = orest s ∧ kept s s'.
Definition answered (id : Z) s s' : Prop := kept s s' ∧ ∃ r, reply_to id r ∧ orest s' = orest s ++ frame r.
Definition stuck (k : Z) : Prop := nomem ∨ MAX_HANDLES ≤ k.
Lemma inv_mono k k' s : sftp_inv k s → k ≤ k' → sftp_inv k' s.
Proof. intros [] Hk. split; (done || lia). Qed.
Lemma inv_iqueue k s b : sftp_inv k s → sb_wf b → sb_max_size b = sb_max_size (iqueue s) → sftp_inv k (set_iqueue b s).
Proof. intros [] Hb Hm. split; cbn; (done || congruence). Qed.
Lemma inv_oqueue k s b : sftp_inv k s → sb_wf b → sb_max_size b = sb_max_size (oqueue s) → sftp_inv k (set_oqueue b s).
Proof. intros [] Hb Hm. split; cbn; (done || congruence). Qed.
Lemma calm_refl s : calm s s.
Proof. done. Qed.
Lemma calm_trans s1 s2 s3 : calm s1 s2 → calm s2 s3 → calm s1 s3.
Proof. unfold calm, kept. intuition congruence. Qed.
Lemma calm_answered id s1 s2 s3 : calm s1 s2 → answered id s2 s3 → answered id s1 s3.
Proof. unfold calm, answered, kept. intros (? & -> & ? & ?) ((? & ?) & ?). intuition congruence. Qed.
Lemma answered_calm id s1 s2 s3 : answered id s1 s2 → calm s2 s3 → answered id s1 s3.
Proof. unfold calm, answered, kept. intros ((? & ?) & r & Hr & E) (? & -> & ? & ?). split; [intuition congruence|by exists r]. Qed.
Lemma calm_room s s' : calm s s' → room s → room s'.
Proof. unfold room. by intros (_ & -> & _). Qed.

(** ** Judgements *)
Definition Steps {A} (m : M st A) (P : A → Prop) : Prop := ∀ k s, sftp_inv k s →
  ewp nomem m (λ v s', P v ∧ sftp_inv k s' ∧ calm s s') s.
Definition Sends (id : Z) (m : M st ()) : Prop := ∀ k s, sftp_inv k s → room s →
  ewp nomem m (λ _ s', sftp_inv k s' ∧ irest s' = irest s ∧ answered id s s') s.
Definition Maybe (id : Z) (m : M st Z) : Prop := ∀ k s, sftp_inv k s → room s →
  ewp (stuck k) m (λ v s', sftp_inv (k + 1) s' ∧ irest s' = irest s ∧
    (v = SSH2_FX_OK ∧ answered id s s' ∨ status_bad v ∧ calm s s')) s.
Definition Replies (id : Z) (m : M st ()) : Prop := ∀ k s, sftp_inv k s → room s →
  ewp (stuck k) m (λ _ s', sftp_inv (k + 1) s' ∧ irest s' = irest s ∧ answered id s s') s.
Definition Answers (p : parser ()) (id : Z) (m : M st ()) : Prop := ∀ k s, sftp_inv k s → room s →
  ewp (stuck k ∨ p (irest s) = None) m (λ _ s', sftp_inv (k + 1) s' ∧ p (irest s) = Some (tt, irest s') ∧ answered id s s') s.

Lemma steps_ret {A} (a : A) (P : A → Prop) : P a → Steps (mret a) P.
Proof. intros Ha k s Hs. ewp_step. done. Qed.
Lemma steps_bind {A B} (m : M st A) (f : A → M st B) P Q : Steps m P → (∀ a, P a → Steps (f a) Q) → Steps (m ≫= f) Q.
Proof.
  intros Hm Hf k s Hs. ewp_step. eapply ewp_mono; [by apply Hm|]. intros a s1 (Ha & Hs1 & Hc1).
  eapply ewp_mono; [by apply Hf|]. intros b s2 (Hb & Hs2 & Hc2). split_and!; [done..|by eapply calm_trans].
Qed.
Lemma steps_if {A} (b : bool) (m1 m2 : M st A) P : (b = true → Steps m1 P) → (b = false → Steps m2 P) → Steps (if b then m1 else m2) P.
Proof. destruct b; auto. Qed.
Lemma steps_when (b : bool) (m : M st ()) (P : () → Prop) : Steps m P → P tt → Steps (when b m) P.
Proof. intros Hm HP. destruct b; [done|by apply steps_ret]. Qed.
Lemma steps_mono {A} (m : M st A) (P Q : A → Prop) : Steps m P → (∀ a, P a → Q a) → Steps m Q.
Proof. intros Hm HPQ k s Hs. eapply ewp_mono; [by apply Hm|]. intros a s' (? & ? & ?). auto. Qed.
Lemma steps_get : Steps (@get st) (λ _, True).
Proof. intros k s Hs. ewp_step. done. Qed.
Lemma replies_bind {A} id (m : M st A) (f : A → M st ()) P : Steps m P → (∀ a, P a → Replies id (f a)) → Replies id (m ≫= f).
Proof.
  intros Hm Hf k s Hs Hr. ewp_step. eapply ewp_weaken; [|eapply ewp_mono; [by apply Hm|]]; [by left|]. intros a s1 (Ha & Hs1 & Hc1).
  eapply ewp_mono; [apply Hf; [done..|by eapply calm_room]|].
  intros [] s2 (Hs2 & Hi2 & Ha2). split_and!; [done|by rewrite Hi2; apply Hc1|by eapply calm_answered].
Qed.
Lemma replies_sends id m : Sends id m → Replies id m.
Proof.
  intros Hm k s Hs Hr. eapply ewp_weaken; [|eapply ewp_mono; [by apply Hm|]]; [by left|]. intros [] s' (Hs' & ? & ?).
  split_and!; [|done..]. eapply inv_mono; [done|lia].
Qed.
Lemma replies_if id (b : bool) m1 m2 : (b = true → Replies id m1) → (b = false → Replies id m2) → Replies id (if b then m1 else m2).
Proof. destruct b; auto. Qed.
Lemma maybe_bind {A} id (m : M st A) (f : A → M st Z) P : Steps m P → (∀ a, P a → Maybe id (f a)) → Maybe id (m ≫= f).
Proof.
  intros Hm Hf k s Hs Hr. ewp_step. eapply ewp_weaken; [|eapply ewp_mono; [by apply Hm|]]; [by left|]. intros a s1 (Ha & Hs1 & Hc1).
  eapply ewp_mono; [apply Hf; [done..|by eapply calm_room]|]. intros v s2 (Hs2 & Hi2 & Ha2). split_and!; [done|by rewrite Hi2; apply Hc1|].
  destruct Ha2 as [[? ?]|[? ?]]; [left|right]; (split; [done|]); [by eapply calm_answered|by eapply calm_trans].
Qed.
Lemma maybe_if id (b : bool) m1 m2 : (b = true → Maybe id m1) → (b = false → Maybe id m2) → Maybe id (if b then m1 else m2).
Proof. destruct b; auto. Qed.
Lemma maybe_fail id v : status_bad v → Maybe id (mret v).
Proof. intros Hv k s Hs Hr. ewp_step. split_and!; [eapply inv_mono; [done|lia]|done|by right]. Qed.
Lemma maybe_sends id m (r : M st Z) : Sends id m → Steps r (λ v, v = SSH2_FX_OK) → Maybe id (m ≫= λ _, r).
Proof.
  intros Hm Hk k s Hs Hr. ewp_step. eapply ewp_weaken; [|eapply ewp_mono; [by apply Hm|]]; [by left|]. intros [] s1 (Hs1 & Hi1 & Ha1).
  eapply ewp_weaken; [|eapply ewp_mono; [by apply Hk|]]; [by left|]. intros v s2 (-> & Hs2 & Hc2).
  split_and!; [eapply inv_mono; [done|lia]|by rewrite (proj1 Hc2)|left]. split; [done|by eapply answered_calm].
Qed.
Lemma replies_maybe id (m : M st Z) : (∀ v, status_bad v → Sends id (send_status mem_ok id v)) → Maybe id m →
  Replies id (v ← m; send_unless_ok mem_ok id v).
Proof.
  intros Hst Hm k s Hs Hr. ewp_step. eapply ewp_mono; [by apply Hm|]. intros v s1 (Hs1 & Hi1 & [[-> Ha]|[Hv Hc]]); [done|].
  unfold send_unless_ok. destruct (Z.eqb_spec v SSH2_FX_OK) as [->|]; [by destruct Hv|]. cbn [negb when].
  eapply ewp_weaken; [|eapply ewp_mono; [by eapply Hst, calm_room|]]; [by left|]. intros [] s2 (Hs2 & Hi2 & Ha2).
  split_and!; [done|congruence|by eapply calm_answered].
Qed.
Lemma answers_done id m : Replies id m → Answers (p_ret tt) id m.
Proof.
  intros Hm k s Hs Hr. eapply ewp_weaken; [|eapply ewp_mono; [by apply Hm|]]; [by left|]. intros [] s' (Hs' & Hi & ?). by rewrite Hi.
Qed.
Lemma answers_read {A} id (op : M sshbuf A) p q (f : A → M st ()) : Reads mem_ok op p →
  (∀ a l tl, p l = Some (a, tl) → Answers (q a) id (f a)) → Answers (p_bind p q) id (on_iqueue op ≫= f).
Proof.
  intros Hop Hf k s Hs Hr. unfold on_iqueue, p_bind. do 2 ewp_step. eapply ewp_weaken; [|eapply ewp_mono; [apply Hop; apply Hs|]].
  { intros [? | ->]; [by left; left|by right]. }
  intros a b (Hb & Hm & E). rewrite E. cbn. eapply ewp_mono; [eapply Hf; [exact E|by apply inv_iqueue|done]|]. intros [] s' (Hs' & Hi' & Ha'). done.
Qed.
Lemma answers_step {A} id p (m : M st A) (f : A → M st ()) P : Steps m P → (∀ a, P a → Answers p id (f a)) → Answers p id (m ≫= f).
Proof.
  intros Hm Hf k s Hs Hr. ewp_step. eapply ewp_weaken; [|eapply ewp_mono; [by apply Hm|]]; [by left; left|]. intros a s1 (Ha & Hs1 & Hc1).
  rewrite <- (proj1 Hc1). eapply ewp_mono; [apply Hf; [done..|by eapply calm_room]|]. intros [] s2 (Hs2 & Hi2 & Ha2).
  split_and!; [done..|by eapply calm_answered].
Qed.

(** ** Calls and memory *)
Context (Hos : os_ok).
Definition after_sys c s : st := set_fs (os (fs s) c).2 (set_sys_log (sys_log s ++ [c]) s).
Lemma sys_eq c s : sys os c s = Ok ((os (fs s) c).1, after_sys c s).
Proof. unfold sys, after_sys, mbind, M_bind, get. by destruct (os (fs s) c). Qed.
Lemma inv_sys k c s : sftp_inv k s → sftp_inv k (after_sys c s).
Proof. intros []. by split. Qed.
Lemma steps_sys c : Steps (sys os c) (ret_ok c).
Proof.
  intros k s Hs. eapply ewp_ok; [apply sys_eq|]. split; [apply (os_ret Hos)|]. split; [by apply inv_sys|done].
Qed.
Lemma ewp_xmalloc n (Q : () → st → Prop) s : n ≤ SSHBUF_SIZE_MAX → Q tt s → ewp nomem (xmalloc mem_ok n) Q s.
Proof. intros Hn HQ. unfold xmalloc. destruct (mem_ok n) eqn:E; [by ewp_step|]. apply ewp_exit. by exists n. Qed.
Lemma ewp_xstrdup v (Q : list Z → st → Prop) s : strlen v < SSHBUF_SIZE_MAX → Q (cstr v) s → ewp nomem (xstrdup mem_ok v) Q s.
Proof. intros Hv HQ. unfold xstrdup. ewp_step. apply ewp_xmalloc; [lia|]. by ewp_step. Qed.
Lemma ewp_xrealloc n size (Q : () → st → Prop) s : 0 < n * size ≤ SSHBUF_SIZE_MAX → 0 < n → Q tt s → ewp nomem (xrealloc mem_ok n size) Q s.
Proof.
  intros Hs Hn HQ. unfold xrealloc. unfold SSHBUF_SIZE_MAX in *. rewrite u32_small by (unfold U32; lia). destruct (Z.eqb_spec (n * size) 0); [lia|].
  destruct (Z.ltb_spec (SIZE_T_MAX / n) size) as [Hlt|_].
  { pose proof (Z.mul_succ_div_gt SIZE_T_MAX n Hn). assert (n * Z.succ (SIZE_T_MAX / n) ≤ n * size) by (apply Z.mul_le_mono_nonneg_l; lia).
    unfold SIZE_T_MAX, U32 in *. lia. }
  destruct (mem_ok (n * size)) eqn:E; [by ewp_step|]. apply ewp_exit. exists (n * size). unfold SSHBUF_SIZE_MAX. split; [lia|done].
Qed.
Lemma steps_xmalloc n : n ≤ SSHBUF_SIZE_MAX → Steps (xmalloc mem_ok n) (λ _, True).
Proof. intros Hn k s Hs. by apply ewp_xmalloc. Qed.
Lemma steps_xstrdup v : strlen v < SSHBUF_SIZE_MAX → Steps (xstrdup mem_ok v) (λ w, w = cstr v).
Proof. intros Hv k s Hs. by apply ewp_xstrdup. Qed.

(** ** Messages *)
Lemma buffer_consume_ok b n : sb_wf b → 0 ≤ n ≤ zlen (sb_rest b) → buffer_consume n b = Ok (tt, sb_advance b n).
Proof.
  intros Hb Hn. pose proof (sb_rest_length b Hb). sb_facts. unfold buffer_consume. pose proof (consume_ok n b Hb ltac:(unfold U32; lia)) as Hc.
  destruct (Z.gtb_spec n (zlen (sb_rest b))); [lia|]. by rewrite (bind_ok _ _ _ _ _ Hc).
Qed.
Lemma fills_append bs : Forall is_byte bs → zlen bs < U32 → Fills mem_ok (buffer_append mem_ok bs (zlen bs)) bs.
Proof.
  intros Hb Hl. pose proof (puts_put mem_ok bs (zlen bs) Hb ltac:(lia) Hl) as Hp. rewrite Nat2Z.id, firstn_all in Hp. by apply fills_put.
Qed.
Lemma send_buffer_ok fill bs k s : Fills mem_ok fill bs → zlen bs ≤ SFTP_MAX_MSG_LENGTH - 4 → sftp_inv k s → room s →
  ewp nomem (send_buffer mem_ok fill) (λ _ s', sftp_inv k s' ∧ irest s' = irest s ∧ kept s s' ∧ orest s' = orest s ++ frame bs) s.
Proof.
  intros [Hbs Hf] Hlen Hs Hr. unfold send_buffer, SFTP_MAX_MSG_LENGTH, room in *. unfold SFTP_MAX_MSG_LENGTH in Hr. ewp_step. apply ewp_lift.
  destruct (sshbuf_init mem_ok) as [m| |] eqn:Ei; cycle 1.
  { unfold sshbuf_init in Ei. destruct (mem_ok SSHBUF_SIZE_INIT) eqn:E; [done|]. by exists SSHBUF_SIZE_INIT. }
  { unfold sshbuf_init in Ei. by destruct (mem_ok SSHBUF_SIZE_INIT). }
  apply sshbuf_init_ok in Ei as (Hm & Hmr & Hmm). apply ewp_exec. eapply ewp_mono; [apply Hf; [done|]|].
  { rewrite Hmr, Hmm. cbn [length]. unfold SSHBUF_SIZE_MAX. lia. }
  intros [] m1 (Hm1 & Hr1 & _). rewrite Hmr in Hr1. cbn in Hr1. unfold send_msg, on_oqueue. ewp_step. apply ewp_run.
  eapply ewp_ok; [by apply len_ok|]. rewrite Hr1. pose proof (si_omax _ _ Hs) as Hmax. unfold SSHBUF_SIZE_MAX in *. do 2 ewp_step.
  eapply ewp_mono; [apply (@fills_ok mem_ok (buffer_put_int mem_ok (zlen bs)) (STORE32H (zlen bs)) _); [apply Hs|]|].
  { rewrite STORE32H_length. lia. }
  intros [] o1 (Ho1 & Hor1 & Hom1). ewp_step. apply ewp_run. ewp_step. eapply ewp_ok; [by apply ptr_ok|].
  eapply ewp_ok; [apply load_ok; [done|rewrite Hr1; lia|done]|]. rewrite Hr1, Nat2Z.id, firstn_all. do 2 ewp_step.
  eapply ewp_mono; [apply (@fills_ok mem_ok (buffer_append mem_ok bs (zlen bs)) bs (fills_append bs Hbs ltac:(unfold U32; lia))); [done|]|].
  { cbn. rewrite Hor1, length_app, STORE32H_length, Hom1. lia. }
  intros [] o2 (Ho2 & Hor2 & Hom2). ewp_step. apply ewp_run. eapply ewp_ok; [apply buffer_consume_ok; [done|rewrite Hr1; lia]|]. ewp_step.
  split; [|split; [done|split; [done|]]].
  - change (set_oqueue o2 _) with (set_oqueue o2 s). apply inv_oqueue; [done..|]. rewrite Hom2. exact Hom1.
  - change (sb_rest o2 = orest s ++ frame bs). rewrite Hor2. change (sb_rest o1 ++ bs = orest s ++ frame bs). unfold frame. by rewrite Hor1, app_assoc.
Qed.
Lemma fills_lift {A} (o : outcome A) a (f : A → M sshbuf ()) bs : o = Ok a → Fills mem_ok (f a) bs → Fills mem_ok (lift o ≫= f) bs.
Proof. intros -> [Hb Hf]. split; [done|]. intros b Hw Hfit. ewp_step. apply ewp_lift. by apply Hf. Qed.
(** A reply with the number of its request. *)
Lemma sends_buffer id type op bs : Fills mem_ok op bs → type ∈ reply_types → 5 + zlen bs ≤ SFTP_MAX_MSG_LENGTH - 4 →
  Sends id (send_buffer mem_ok (buffer_put_char mem_ok type;; (buffer_put_int mem_ok id;; op))).
Proof.
  intros Hop Ht Hlen k s Hs Hr. assert (Hu : [u8 type] = [type]) by
    (unfold reply_types in Ht; repeat (apply elem_of_cons in Ht as [->|Ht]; [done|]); by apply not_elem_of_nil in Ht).
  assert (Hl : zlen ([u8 type] ++ STORE32H id ++ bs) = 5 + zlen bs) by (rewrite !length_app, STORE32H_length; cbn; lia).
  eapply ewp_mono; [apply (send_buffer_ok _ ([u8 type] ++ STORE32H id ++ bs) k); [|by rewrite Hl|assumption..]|].
  { apply fills_seq; [apply fills_put, puts_u8|]. apply fills_seq; [apply fills_put, puts_u32|done]. }
  intros [] s' (Hs' & Hi & Hk & Ho). split_and!; [done..|]. split; [done|]. eexists. split; [|exact Ho]. exists type, bs. rewrite Hl. by rewrite Hu.
Qed.
Lemma sends_status id v : status_ok v → Sends id (send_status mem_ok id v).
Proof.
  intros Hv k s Hs Hr. unfold send_status. ewp_step. ewp_step.
  assert (∃ m, status_to_message v = Ok m ∧ Forall is_byte m ∧ strlen m ≤ 100) as (m & Em & Hm & Hml).
  { assert (v ∈ [0; 1; 2; 3; 4; 5; 6; 7; 8]) as Hin by (unfold status_ok in Hv; set_unfold; lia).
    repeat (apply elem_of_cons in Hin as [->|Hin]; [eexists; split; [vm_compute; reflexivity|split; [apply (bool_decide_unpack _); by vm_compute|by vm_compute]]|]).
    by apply not_elem_of_nil in Hin. }
  apply (sends_buffer id SSH2_FXP_STATUS _
    (STORE32H v ++ if version s >=? 3 then (STORE32H (strlen m) ++ cstr m) ++ (STORE32H (strlen []) ++ cstr []) else [])); [|by left| |done..].
  - apply fills_seq; [apply fills_put, puts_u32|]. apply fills_when. eapply fills_lift; [done|].
    apply fills_seq; (apply fills_cstring; [done|unfold SSHBUF_SIZE_MAX; try done; lia]).
  - unfold SFTP_MAX_MSG_LENGTH, strlen in *. destruct (_ >=? _); rewrite !length_app, ?STORE32H_length; cbn; lia.
Qed.
Lemma sends_data id type data dlen : Forall is_byte data → 0 ≤ dlen ≤ zlen data → dlen ≤ 65536 → type ∈ reply_types →
  Sends id (send_data_or_handle mem_ok type id data dlen).
Proof.
  intros Hd Hl Hmax Ht. apply (sends_buffer id type _ (STORE32H dlen ++ take (Z.to_nat dlen) data)); [|done|].
  - apply fills_string; [done..|unfold SSHBUF_SIZE_MAX; lia].
  - rewrite length_app, STORE32H_length, length_take. unfold SFTP_MAX_MSG_LENGTH. lia.
Qed.
Lemma sends_handle id h : Sends id (send_handle mem_ok id h).
Proof.
  intros k s Hs Hr. unfold send_handle, handle_to_string. do 2 ewp_step. eapply ewp_mono; [by apply steps_xmalloc|]. intros [] s1 (_ & Hs1 & Hc1).
  ewp_step. eapply ewp_mono; [apply sends_data; [apply STORE32H_bytes|by rewrite STORE32H_length|done|set_solver|done|by eapply calm_room]|].
  intros [] s2 (Hs2 & Hi2 & Ha2). split_and!; [done|by rewrite Hi2; apply Hc1|by eapply calm_answered].
Qed.
Lemma sends_attrib id a : Sends id (send_attrib mem_ok id a).
Proof.
  apply (sends_buffer id SSH2_FXP_ATTRS _ (enc_attrib a)); [apply _|set_solver|]. pose proof (enc_attrib_length a). unfold SFTP_MAX_MSG_LENGTH. lia.
Qed.
Definition enc_name (x : Stat) : list Z :=
  (STORE32H (strlen (n_name x)) ++ cstr (n_name x)) ++ (STORE32H (strlen (n_long_name x)) ++ cstr (n_long_name x)) ++ enc_attrib (n_attrib x).
Definition name_ok (max : Z) (x : Stat) : Prop :=
  Forall is_byte (n_name x) ∧ Forall is_byte (n_long_name x) ∧ strlen (n_name x) + strlen (n_long_name x) ≤ max.
Lemma fills_names max stats : Forall (name_ok max) stats → max ≤ 65536 → Fills mem_ok (put_names mem_ok stats) (concat (enc_name <$> stats)).
Proof.
  intros Hst Hmax. induction Hst as [|x stats (Hn & Hl & Hx) Hst IH]; [apply fills_ret|]. cbn [put_names fmap list_fmap concat]. unfold enc_name.
  rewrite <- !app_assoc, 2!(app_assoc (STORE32H _)). apply fills_seq; [apply fills_cstring; [done|]|].
  { unfold SSHBUF_SIZE_MAX, strlen in *. lia. }
  apply fills_seq; [apply fills_cstring; [done|unfold SSHBUF_SIZE_MAX, strlen in *; lia]|]. apply fills_seq; [apply _|done].
Qed.
Lemma sends_names id max stats : Forall (name_ok max) stats → 0 ≤ max → (max + 40) * zlen stats ≤ 250000 → max ≤ 65536 →
  Sends id (send_names mem_ok id stats).
Proof.
  intros Hst H0 Hmax Hm. apply (sends_buffer id SSH2_FXP_NAME _ (STORE32H (zlen stats) ++ concat (enc_name <$> stats))); [|set_solver|].
  - apply fills_seq; [apply fills_put, puts_u32|by eapply fills_names].
  - assert (zlen (concat (enc_name <$> stats)) ≤ (max + 40) * zlen stats).
    { clear Hmax. induction Hst as [|x stats (Hn & Hl & Hx) Hst IH]; [cbn; lia|]. cbn [fmap list_fmap concat length]. unfold enc_name at 1.
      pose proof (enc_attrib_length (n_attrib x)). unfold strlen in *. rewrite !length_app, !STORE32H_length. lia. }
    rewrite length_app, STORE32H_length. unfold SFTP_MAX_MSG_LENGTH. lia.
Qed.

(** ** Handles *)
Lemma is_ok_entry s i use : handle_is_ok s i use = true → ∃ h, 0 ≤ i < zlen (handles s) ∧ handles s !! Z.to_nat i = Some h ∧ h_use h = use.
Proof.
  unfold handle_is_ok. rewrite !andb_true_iff. intros [[Hi _] Hl]. apply Z.geb_le in Hi. destruct (handles s !! Z.to_nat i) as [h|] eqn:E; [|done].
  apply bool_decide_eq_true in Hl. exists h. split_and!; [done| |done..]. apply lookup_lt_Some in E. lia.
Qed.
Lemma get_entry_ok s i h : 0 ≤ i → handles s !! Z.to_nat i = Some h → get_entry i s = Ok (h, s).
Proof. intros Hi E. unfold get_entry, mbind, M_bind, get. destruct (Z.ltb_spec i 0); [lia|]. by rewrite E. Qed.
Lemma set_entry_ok s i h : 0 ≤ i < zlen (handles s) → set_entry i h s = Ok (tt, set_handles (<[Z.to_nat i := h]> (handles s)) s).
Proof.
  intros Hi. unfold set_entry, mbind, M_bind, get. destruct (Z.leb_spec 0 i), (Z.ltb_spec i (zlen (handles s))); try lia. done.
Qed.
(** Looking into an entry that is in use. *)
Lemma steps_entry {A} (c : st → bool) i (f : Handle → A) d : (∀ s, c s = true → ∃ h, 0 ≤ i ∧ handles s !! Z.to_nat i = Some h) →
  Steps (s ← get; if c s then h ← get_entry i; mret (f h) else mret d) (λ _, True).
Proof.
  intros Hc k s Hs. do 2 ewp_step. apply ewp_if; intros E; [|by ewp_step]. destruct (Hc s E) as (h & Hi & Hl).
  ewp_step. eapply ewp_ok; [by apply get_entry_ok|]. by ewp_step.
Qed.
Lemma steps_to_fd i : Steps (handle_to_fd i) (λ _, True).
Proof. apply steps_entry. intros s (h & ? & ? & _)%is_ok_entry. exists h. split; [lia|done]. Qed.
Lemma steps_to_flags i : Steps (handle_to_flags i) (λ _, True).
Proof. apply steps_entry. intros s (h & ? & ? & _)%is_ok_entry. exists h. split; [lia|done]. Qed.
Lemma steps_to_dir i : Steps (handle_to_dir i) (λ _, True).
Proof. apply steps_entry. intros s (h & ? & ? & _)%is_ok_entry. exists h. split; [lia|done]. Qed.
Lemma steps_to_name i : Steps (handle_to_name i) (λ _, True).
Proof. apply steps_entry. intros s [(h & ? & ? & _)%is_ok_entry|(h & ? & ? & _)%is_ok_entry]%orb_true_iff; (exists h; split; [lia|done]). Qed.
Lemma inv_table k s hs f : sftp_inv k s → table_ok hs f → zlen hs ≤ k → sftp_inv k (set_first_unused f (set_handles hs s)).
Proof. intros []. by split. Qed.
Lemma steps_update i (g : Handle → Handle) b : (∀ h, h_use (g h) = h_use h ∧ h_fd (g h) = h_fd h) →
  Steps (s ← get; when (handle_is_ok s i HANDLE_FILE && b) (h ← get_entry i; set_entry i (g h))) (λ _, True).
Proof.
  intros Hg k s Hs. do 2 ewp_step. apply ewp_when; [|done]. intros [(h & Hi & Hl & Hu)%is_ok_entry _]%andb_true_iff. ewp_step.
  eapply ewp_ok; [apply get_entry_ok; [lia|done]|]. eapply ewp_ok; [by apply set_entry_ok|]. destruct (Hg h) as [Hgu Hgf].
  split; [done|]. split; [|done]. destruct Hs. split; cbn; try done; [|by rewrite length_insert].
  eapply table_update; [done..|by rewrite Hu|done|done].
Qed.
Lemma steps_update_read i n : Steps (handle_update_read i n) (λ _, True).
Proof. by apply (steps_update i (λ h, mkHandle (h_use h) (h_dirp h) (h_fd h) (h_flags h) (h_name h) (u64 (h_bytes_read h + n)) (h_bytes_write h) (h_next_unused h))). Qed.
Lemma steps_update_write i n : Steps (handle_update_write i n) (λ _, True).
Proof. by apply (steps_update i (λ h, mkHandle (h_use h) (h_dirp h) (h_fd h) (h_flags h) (h_name h) (h_bytes_read h) (u64 (h_bytes_write h + n)) (h_next_unused h))). Qed.
Lemma steps_from_string v : Steps (handle_from_string v) (λ _, True).
Proof. unfold handle_from_string. apply steps_if; intros _; [by apply steps_ret|]. eapply steps_bind; [apply steps_get|]. intros s _. by apply steps_ret. Qed.
(** Closing. *)
Lemma unused_ok k s i h : sftp_inv k s → 0 ≤ i → handles s !! Z.to_nat i = Some h → h_use h ≠ HANDLE_UNUSED →
  ewp nomem (handle_unused i) (λ _ s', sftp_inv k s' ∧ calm s s') s.
Proof.
  intros Hs Hi Hl Hu. unfold handle_unused. pose proof (lookup_lt_Some _ _ _ Hl). ewp_step. eapply ewp_ok; [by apply get_entry_ok|]. do 3 ewp_step.
  eapply ewp_ok; [apply set_entry_ok; lia|]. ewp_step. split; [|done]. apply inv_table; [done| |rewrite length_insert; apply Hs].
  rewrite <- (Z2Nat.id i) at 2 by done. eapply table_release; [apply Hs|done..].
Qed.
Lemma close_entry k s i h c : sftp_inv k s → 0 ≤ i → handles s !! Z.to_nat i = Some h → h_use h ≠ HANDLE_UNUSED →
  ewp nomem (r ← sys os c; handle_unused i;; mret (sr_ret r, sr_errno r)) (λ r s', (r.1 = -1 → 0 < r.2) ∧ sftp_inv k s' ∧ calm s s') s.
Proof.
  intros Hs Hi Hl Hu. ewp_step. eapply ewp_ok; [apply sys_eq|]. ewp_step. eapply ewp_mono; [eapply unused_ok; [by apply inv_sys|done..]|].
  intros [] s' [Hs' Hc']. ewp_step. split; [|done]. cbn. intros E. destruct (os_ret Hos (fs s) c) as [[_ ?]|[? _]]; [done|lia].
Qed.
Lemma steps_close i : Steps (handle_close os i) (λ r, r.1 = -1 → 0 < r.2).
Proof.
  intros k s Hs. unfold handle_close. do 2 ewp_step. apply ewp_if; intros E1; [|apply ewp_if; intros E2; [|by ewp_step]].
  - apply is_ok_entry in E1 as (h & Hi & Hl & Hu). ewp_step. eapply ewp_ok; [apply get_entry_ok; [lia|done]|]. eapply close_entry; [done|lia|done|congruence].
  - apply is_ok_entry in E2 as (h & Hi & Hl & Hu). ewp_step. eapply ewp_ok; [apply get_entry_ok; [lia|done]|]. eapply close_entry; [done|lia|done|congruence].
Qed.
(** Opening. *)
Lemma grow_handles_ok k s : sftp_inv k s → first_unused_handle s = -1 →
  ewp (stuck k) (grow_handles mem_ok) (λ r s', r = true ∧ sftp_inv (k + 1) s' ∧ calm s s' ∧ first_unused_handle s' = zlen (handles s) ∧
    sys_log s' = sys_log s ∧ ∃ h, h_use h = HANDLE_UNUSED ∧ handles s' = handles s ++ [h]) s.
Proof.
  intros Hs Hf. pose proof (si_count _ _ Hs) as Hk. pose proof (to_size _ _ (si_table _ _ Hs)) as Hsz. unfold grow_handles. do 2 ewp_step.
  set (n := zlen (handles s)) in *. assert (0 ≤ n) by (unfold n; lia). assert (TABLE_MAX = 89478485) as HT by done. rewrite HT in Hsz. rewrite u32_small by (unfold U32; lia).
  destruct (Z.leb_spec (n + 1) n); [lia|]. ewp_step.
  apply (ewp_mono _ _ (λ _ s', s' = s ∧ n < TABLE_MAX)).
  { destruct (decide (n < MAX_HANDLES)) as [Hlt|Hge].
    - eapply ewp_weaken; [by left|]. assert (MAX_HANDLES = 2796202) as HM by done. unfold SIZEOF_HANDLE, SSHBUF_SIZE_MAX.
      apply ewp_xrealloc; [unfold SSHBUF_SIZE_MAX; lia|lia|split; [done|lia]].
    - assert (stuck k) by (right; lia). unfold xrealloc. destruct (_ =? 0); [by apply ewp_exit|].
      destruct (Z.ltb_spec (SIZE_T_MAX / (n + 1)) SIZEOF_HANDLE) as [|Hle]; [by apply ewp_exit|].
      destruct (mem_ok _); [|by apply ewp_exit]. ewp_step. split; [done|].
      pose proof (Z.mul_div_le SIZE_T_MAX (n + 1) ltac:(lia)). unfold SIZE_T_MAX, U32, SIZEOF_HANDLE in *. nia. }
  intros [] s1 [-> Hlt]. do 3 ewp_step. rewrite i32_small by lia. unfold handle_unused. ewp_step.
  assert (Hn : Z.to_nat n = length (handles s)) by (unfold n; lia).
  eapply ewp_ok; [apply get_entry_ok; [lia|]; cbn; by rewrite lookup_app_r, Hn, Nat.sub_diag by lia|].
  do 3 ewp_step. eapply ewp_ok; [apply set_entry_ok; cbn; rewrite length_app; cbn; lia|]. do 2 ewp_step. split; [done|].
  cbn. rewrite Hn, insert_app_r_alt, Nat.sub_diag by lia. cbn. rewrite Hf. split; [|split; [done|split; [done|split; [done|eexists; by split; [|reflexivity]]]]].
  destruct Hs. split; cbn; try done; [|rewrite length_app; cbn; lia]. apply table_grow; [by rewrite <- Hf|done..].
Qed.
Lemma handle_new_ok k s use name fd flags dirp : sftp_inv k s → use ≠ HANDLE_UNUSED → (use = HANDLE_FILE → 0 ≤ fd) → strlen name < SSHBUF_SIZE_MAX →
  ewp (stuck k) (handle_new mem_ok use name fd flags dirp) (λ i s', 0 ≤ i ∧ sftp_inv (k + 1) s' ∧ calm s s' ∧ sys_log s' = sys_log s ∧ live (handles s) (Z.to_nat i) = None ∧
    ∀ j, live (handles s') j = if decide (j = Z.to_nat i) then Some (use, cstr name, fd, flags, dirp) else live (handles s) j) s.
Proof.
  intros Hs Hu Hfd Hn. unfold handle_new. do 3 ewp_step.
  apply (ewp_mono _ _ (λ r s', r = true ∧ sftp_inv (k + 1) s' ∧ calm s s' ∧ first_unused_handle s' ≠ -1 ∧ sys_log s' = sys_log s ∧ ∀ j, live (handles s') j = live (handles s) j)).
  { apply ewp_if; intros E.
    - apply Z.eqb_eq in E. eapply ewp_mono; [by apply grow_handles_ok|]. intros r s' (? & ? & ? & -> & ? & h & Hh & ->). split_and!; [done..|lia|done|by intros; apply live_grow].
    - apply Z.eqb_neq in E. ewp_step. split_and!; [done|eapply inv_mono; [done|lia]|done..]. }
  intros r s1 (-> & Hs1 & Hc1 & Hf1 & Hlog & Hlive). cbn [negb]. do 2 ewp_step. destruct (to_free _ _ (si_table _ _ Hs1)) as ([|i free] & Hch & _ & _); [done|].
  destruct Hch as (Ei & h & Hl & Hhu & _). rewrite Ei. ewp_step. eapply ewp_ok; [apply get_entry_ok; [lia|by rewrite Nat2Z.id]|]. do 3 ewp_step.
  eapply ewp_weaken; [by left|]. apply ewp_xstrdup; [done|]. pose proof (lookup_lt_Some _ _ _ Hl). ewp_step.
  eapply ewp_ok; [apply set_entry_ok; cbn; lia|]. ewp_step. split; [lia|]. rewrite Nat2Z.id. split; [|split; [done|split; [done|split]]]; cycle 1.
  { rewrite <- Hlive. by eapply live_unused. }
  { intros j. cbn. rewrite live_insert, <- Hlive by done. cbn. by rewrite (decide_False (P := use = HANDLE_UNUSED)). }
  cbn.
  change (sftp_inv (k + 1) (set_first_unused (h_next_unused h) (set_handles (<[i := mkHandle use dirp fd flags (cstr name) 0 0 (h_next_unused h)]> (handles s1)) s1))).
  apply inv_table; [done| |rewrite length_insert; apply Hs1]. eapply table_take; [apply Hs1|done..].
Qed.
Lemma maybe_new id use name fd flags dirp (m : M st Z) : use ≠ HANDLE_UNUSED → (use = HANDLE_FILE → 0 ≤ fd) → strlen name < SSHBUF_SIZE_MAX →
  Maybe id (handle ← handle_new mem_ok use name fd flags dirp; if handle <? 0 then m else send_handle mem_ok id handle;; mret SSH2_FX_OK).
Proof.
  intros Hu Hfd Hn k s Hs Hr. ewp_step. eapply ewp_mono; [by apply handle_new_ok|]. intros i s1 (Hi & Hs1 & Hc1 & _).
  destruct (Z.ltb_spec i 0); [lia|]. ewp_step. eapply ewp_weaken; [by left|]. eapply ewp_mono; [apply sends_handle; [done|by eapply calm_room]|].
  intros [] s2 (Hs2 & Hi2 & Ha2). ewp_step. split_and!; [done|by rewrite Hi2; apply Hc1|left]. split; [done|by eapply calm_answered].
Qed.

(** ** Handlers *)
Lemma answers_string id q (f : list Z → M st ()) : (∀ v, strlen v < SSHBUF_SIZE_MAX → Answers (q v) id (f v)) →
  Answers (p_bind p_sstring q) id (get_string mem_ok ≫= f).
Proof.
  intros Hf. apply answers_read; [apply _|]. intros v l tl (_ & Hl & _)%p_sstring_inv. apply Hf. pose proof (strlen_le v). lia.
Qed.
Lemma answers_int id q (f : Z → M st ()) : (∀ v, Answers (q v) id (f v)) → Answers (p_bind p_int q) id (get_int ≫= f).
Proof. intros Hf. apply answers_read; [apply _|]. intros v l tl _. apply Hf. Qed.
Lemma answers_int64 id q (f : Z → M st ()) : (∀ v, Answers (q v) id (f v)) → Answers (p_bind p_u64 q) id (get_int64 ≫= f).
Proof. intros Hf. apply answers_read; [apply _|]. intros v l tl _. apply Hf. Qed.
Lemma answers_attrib id q (f : Attrib → M st ()) : (∀ v, Answers (q v) id (f v)) → Answers (p_bind p_attrib q) id (get_attrib mem_ok ≫= f).
Proof. intros Hf. apply answers_read; [apply _|]. intros v l tl _. apply Hf. Qed.
Lemma answers_handle id q (f : Z → M st ()) : (∀ v, Answers q id (f v)) → Answers (p_bind p_sstring (λ _, q)) id (get_handle mem_ok ≫= f).
Proof.
  intros Hf k s Hs Hr. unfold get_handle. ewp_step.
  assert (Ha : Answers (p_bind p_sstring (λ _, q)) id (get_string mem_ok ≫= λ h, (if zlen h <? 256 then handle_from_string h else mret (-1)) ≫= f)).
  { apply answers_string. intros v _. eapply answers_step; [|intros i _; apply Hf]. apply steps_if; intros _; [apply steps_from_string|by apply steps_ret]. }
  specialize (Ha k s Hs Hr). unfold ewp, mbind, M_bind in *. destruct (get_string mem_ok s) as [[h s1]| |]; [|done..].
  by destruct ((if zlen h <? 256 then handle_from_string h else mret (-1)) s1) as [[]| |].
Qed.
Lemma steps_lift {A} (o : outcome A) a (P : A → Prop) : o = Ok a → P a → Steps (lift o) P.
Proof. intros -> HP k s Hs. apply ewp_lift. done. Qed.
Create HintDb sftp.
#[local] Hint Resolve steps_sys steps_to_fd steps_to_flags steps_to_dir steps_to_name steps_update_read steps_update_write steps_close steps_get : sftp.
Lemma replies_status id (m : M st Z) : Steps m status_ok → Replies id (v ← m; send_status mem_ok id v).
Proof. intros Hm. eapply replies_bind; [done|]. intros v Hv. by apply replies_sends, sends_status. Qed.
Ltac sftp_leaf := solve [eauto with sftp].
Ltac sftp_step :=
  lazymatch goal with
  | |- Answers (p_ret _) _ _ => apply answers_done
  | |- Answers _ _ (get_string _ ≫= _) => apply answers_string; intros ? ?
  | |- Answers _ _ (get_handle _ ≫= _) => apply answers_handle; intros ?
  | |- Answers _ _ (get_int ≫= _) => apply answers_int; intros ?
  | |- Answers _ _ (get_int64 ≫= _) => apply answers_int64; intros ?
  | |- Answers _ _ (get_attrib _ ≫= _) => apply answers_attrib; intros ?
  | |- Replies _ (_ ≫= (λ v, send_unless_ok _ _ v)) => apply replies_maybe; [intros; by apply sends_status, bad_ok|]
  | |- Replies _ (_ ≫= (λ v, send_status _ _ v)) => apply replies_status
  | |- Replies _ (_ ≫= _) => eapply replies_bind; [sftp_leaf|intros ? ?]
  | |- Replies _ (if _ then _ else _) => apply replies_if; intros ?
  | |- Replies _ (send_status _ _ _) => apply replies_sends, sends_status
  | |- Maybe _ (mret _) => apply maybe_fail
  | |- Maybe _ (if _ then _ else _) => apply maybe_if; intros ?
  | |- Maybe _ (send_data_or_handle _ _ _ _ _ ≫= _) => apply maybe_sends
  | |- Maybe _ (send_attrib _ _ _ ≫= _) => apply maybe_sends; [apply sends_attrib|]
  | |- Maybe _ (handle_new _ _ _ _ _ _ ≫= _) => apply maybe_new
  | |- Maybe _ (_ ≫= _) => eapply maybe_bind; [sftp_leaf|intros ? ?]
  | |- Steps (mret _) _ => apply steps_ret
  | |- Steps (if _ then _ else _) _ => apply steps_if; intros ?
  | |- Steps (_ ≫= _) _ => eapply steps_bind; [sftp_leaf|intros ? ?]
  | |- status_bad (errno_to_portable _) => eapply ret_bad; [eassumption|bool_lia]
  | |- status_ok (ret_status _) => by eapply ret_status_ok
  | |- status_ok (errno_to_portable _) => apply bad_ok
  | |- status_bad _ => by vm_compute
  | |- status_ok _ => by vm_compute
  end.
Definition p_seq {A} (p : parser A) (q : parser ()) : parser () := p_bind p (λ _, q).
Definition p_end : parser () := p_ret tt.
Tactic Notation "handler" reference(f) reference(p) := unfold f, p, p_seq, p_end; cbv zeta; repeat sftp_step; try done; try bool_lia.
Definition p_open : parser () := p_seq p_sstring (p_seq p_int (p_seq p_attrib p_end)).
Lemma answers_open id : Answers p_open id (process_open mem_ok os readonly id).
Proof. handler process_open p_open. Qed.
Definition p_handle : parser () := p_seq p_sstring p_end.
Lemma answers_close id : Answers p_handle id (process_close mem_ok os id).
Proof.
  handler process_close p_handle. destruct (Z.eqb_spec a.1 (-1)); [apply bad_ok, errno_bad; auto|done].
Qed.
Definition p_read : parser () := p_seq p_sstring (p_seq p_u64 (p_seq p_int p_end)).
Lemma answers_read_request id : Answers p_read id (process_read mem_ok os id).
Proof.
  handler process_read p_read. match goal with H : ret_ok (SysRead _ _) _ |- _ => destruct H as [[? _]|(_ & Hd & Hl & Hle)] end; [lia|].
  apply maybe_sends; [|by repeat sftp_step]. apply sends_data; [done|lia| |set_solver]. destruct (65536 <? v1) eqn:?; bool_lia.
Qed.
Definition p_write : parser () := p_seq p_sstring (p_seq p_u64 (p_seq p_sstring p_end)).
Lemma steps_seek (b : bool) fd off : Steps (if b then mret None else r ← sys os (SysLseek fd off);
  mret (if sr_ret r <? 0 then Some (errno_to_portable (sr_errno r)) else None)) (λ v, ∀ e, v = Some e → status_ok e).
Proof.
  repeat sftp_step; [done|]. intros e. destruct (Z.ltb_spec (sr_ret a) 0); [|done]. intros [= <-]. by eapply bad_ok, ret_bad.
Qed.
Lemma answers_write id : Answers p_write id (process_write mem_ok os id).
Proof.
  handler process_write p_write. eapply steps_bind; [apply steps_seek|]. intros [e|] He; [apply steps_ret; by apply He|].
  repeat sftp_step; try done; bool_lia.
Qed.
Definition p_path : parser () := p_seq p_sstring p_end.
Lemma answers_do_stat id b : Answers p_path id (process_do_stat mem_ok os id b).
Proof. handler process_do_stat p_path. Qed.
Lemma answers_fstat id : Answers p_handle id (process_fstat mem_ok os id).
Proof. handler process_fstat p_handle. Qed.
Lemma answers_opendir id : Answers p_path id (process_opendir mem_ok os id).
Proof. handler process_opendir p_path. Qed.
Lemma answers_remove id : Answers p_path id (process_remove mem_ok os id).
Proof. handler process_remove p_path. Qed.
Lemma answers_rmdir id : Answers p_path id (process_rmdir mem_ok os id).
Proof. handler process_rmdir p_path. Qed.
Definition p_path_attrib : parser () := p_seq p_sstring (p_seq p_attrib p_end).
Lemma answers_mkdir id : Answers p_path_attrib id (process_mkdir mem_ok os id).
Proof. handler process_mkdir p_path_attrib. Qed.
Definition p_two_paths : parser () := p_seq p_sstring (p_seq p_sstring p_end).
Lemma answers_two_paths c id : Answers p_two_paths id (two_paths mem_ok os c id).
Proof. handler two_paths p_two_paths. Qed.
Lemma answers_fsync id : Answers p_handle id (process_extended_fsync mem_ok os id).
Proof. handler process_extended_fsync p_handle. Qed.
Lemma steps_try_set b c v : status_ok v → Steps (try_set os b c v) status_ok.
Proof. intros Hv. unfold try_set. repeat sftp_step; try done. destruct (Z.eqb_spec (sr_ret a) (-1)); [eapply bad_ok, ret_bad; [done|lia]|done]. Qed.
Lemma steps_set_attribs c name a : Steps (set_attribs os c name a) status_ok.
Proof. unfold set_attribs. repeat (eapply steps_bind; [by apply steps_try_set|intros ? ?]). by apply steps_try_set. Qed.
Lemma answers_setstat id : Answers p_path_attrib id (process_setstat mem_ok os id).
Proof. handler process_setstat p_path_attrib. apply steps_set_attribs. Qed.
(** The entry of a file has a name. *)
Lemma answers_fsetstat id : Answers p_path_attrib id (process_fsetstat mem_ok os id).
Proof.
  unfold process_fsetstat, p_path_attrib, p_seq, p_end. apply answers_handle. intros i. apply answers_attrib. intros a. apply answers_done.
  intros k s Hs Hr. destruct (handle_is_ok s i HANDLE_FILE) eqn:Eok.
  - destruct (is_ok_entry _ _ _ Eok) as (h & Hi & Hl & Hu). pose proof (get_entry_ok s i h ltac:(lia) Hl) as Eh. ewp_step.
    assert (Ef : handle_to_fd i s = Ok (h_fd h, s)) by (unfold handle_to_fd; rewrite (bind_ok get _ _ s s), Eok by done; by rewrite (bind_ok _ _ _ _ _ Eh)).
    eapply ewp_ok; [exact Ef|].
    assert (En : handle_to_name i s = Ok (Some (h_name h), s))
      by (unfold handle_to_name; rewrite (bind_ok get _ _ s s), Eok, orb_true_r by done; by rewrite (bind_ok _ _ _ _ _ Eh)).
    destruct (h_fd h <? 0); [by apply replies_status; [by apply steps_ret|..]|].
    assert (Hr2 : Replies id (v ← set_attribs os (SysFtruncate (h_fd h) (a_size a)) (h_name h) a; send_status mem_ok id v))
      by (apply replies_status, steps_set_attribs).
    specialize (Hr2 k s Hs Hr). unfold ewp, mbind, M_bind in *. by rewrite En.
  - assert (Ef : handle_to_fd i s = Ok (-1, s)) by (unfold handle_to_fd; by rewrite (bind_ok get _ _ s s), Eok by done).
    ewp_step. eapply ewp_ok; [exact Ef|]. by apply replies_status; [by apply steps_ret|..].
Qed.
Lemma steps_stat_rename o n : Steps (stat_rename os o n) status_ok.
Proof. unfold stat_rename. by repeat sftp_step. Qed.
Lemma steps_rename o n : Steps (rename_status os o n) status_ok.
Proof. unfold rename_status. repeat sftp_step; try apply steps_stat_rename; try done; bool_lia. Qed.
Lemma answers_rename id : Answers p_two_paths id (process_rename mem_ok os id).
Proof. handler process_rename p_two_paths. apply steps_rename. Qed.
Lemma one_name id v : Forall is_byte v → strlen v ≤ 4096 → Sends id (send_names mem_ok id [mkName v v attrib_clear]).
Proof.
  intros Hv Hl. apply (sends_names id 8192); [|lia|cbn; lia|lia]. constructor; [|done]. split_and!; [done..|cbn [n_name n_long_name]; lia].
Qed.
Lemma strlen_cstr v : strlen (cstr v) ≤ strlen v.
Proof. unfold strlen at 2. apply strlen_le. Qed.
Lemma answers_realpath id : Answers p_path id (process_realpath mem_ok os id).
Proof.
  unfold process_realpath, p_path, p_seq, p_end. apply answers_string. intros path _. apply answers_done. eapply replies_bind.
  { apply (steps_if _ _ _ (λ _, True)); intros _; [eapply steps_mono; [by apply steps_xstrdup|done]|by apply steps_ret]. }
  intros p _. repeat sftp_step. cbv zeta. apply replies_sends.
  match goal with H : ret_ok (SysRealpath _) _ |- _ => destruct H as [[? _]|(_ & Hd & Hl)] end; [bool_lia|].
  apply one_name; [by apply cstr_bytes|]. pose proof (strlen_cstr (sr_data a)). unfold MAXPATHLEN in *. lia.
Qed.
Lemma answers_readlink id : Answers p_path id (process_readlink mem_ok os id).
Proof.
  unfold process_readlink, p_path, p_seq, p_end. repeat sftp_step.
  match goal with H : ret_ok (SysReadlink _ _) _ |- _ => destruct H as [[? _]|(H0' & Hd & Hl & Hle)] end; [bool_lia|]. unfold MAXPATHLEN in *.
  eapply (replies_bind _ _ _ (λ b, b = sr_data a)); [eapply steps_lift; [apply mem_load_ok; lia|]|].
  { rewrite drop_0, take_ge by lia. done. }
  intros b ->. apply replies_sends, one_name; [by apply cstr_bytes|]. pose proof (strlen_cstr (sr_data a)). pose proof (strlen_le (sr_data a)). lia.
Qed.

(** ** Listing a directory *)
Lemma replicate_blank n : Forall is_byte (replicate n 32).
Proof. apply Forall_replicate. done. Qed.
Lemma digits_bytes fuel n acc : Forall is_byte acc → Forall is_byte (digits fuel n acc).
Proof.
  revert n acc. induction fuel as [|fuel IH]; intros n acc Ha; [done|]. cbn. assert (Forall is_byte ((48 + n mod 10) :: acc)).
  { constructor; [|done]. pose proof (Z.mod_pos_bound n 10). unfold is_byte. lia. }
  destruct (n <? 10); [done|]. by apply IH.
Qed.
Lemma strmode_bytes mode : Forall is_byte (strmode mode).
Proof. unfold strmode, mode_bit, exec_char. cbv zeta. repeat (constructor; [repeat case_match; (apply (bool_decide_unpack _); by vm_compute)|]). constructor. Qed.
Lemma decimal_bytes n : Forall is_byte (decimal n).
Proof. by apply digits_bytes. Qed.
Lemma snprint_ok size l : 0 < size → Forall is_byte l → Forall is_byte (snprint size l) ∧ strlen (snprint size l) < size.
Proof.
  intros Hs Hl. unfold snprint. split; [by apply Forall_take|]. pose proof (strlen_le (take (Z.to_nat (size - 1)) l)) as Hx. rewrite length_take in Hx. lia.
Qed.
(** The copies of names can be allocated: they have at most 256 bytes. *)
Definition names_kept : Prop := ∀ n, n ≤ 256 → mem_ok n = true.
Context (Hnames : names_kept).

(** A name, from the cache or into it. *)
Lemma from_id_ok (cache : st → list (Z * option (list Z))) set_cache lookup id (Q : st → Prop) s :
  cache_ok (cache s) → (∀ u n, lookup u = Some n → Forall is_byte n ∧ strlen n < 256) → Q s → (∀ c, cache_ok c → Q (set_cache c s)) →
  ewp nomem (from_id mem_ok cache set_cache lookup id) (λ o s', (∃ n, o = Some n ∧ Forall is_byte n) ∧ Q s') s.
Proof.
  intros [Hc Hb] Hl HQ HQ2. unfold from_id. ewp_step. ewp_step. cbv zeta. set (i := Z.to_nat (Z.land id MASK)).
  assert (Hi : (i < length (cache s))%nat).
  { unfold i, MASK, NCACHE in *. change (64 - 1) with (Z.ones 6). rewrite Z.land_ones by done. pose proof (Z.mod_pos_bound id (2 ^ 6)). lia. }
  set (name := match lookup id with Some name => cstr name | None => snprint 15 (decimal id) end).
  assert (Hn : Forall is_byte name ∧ strlen name < 256).
  { unfold name. destruct (lookup id) as [n|] eqn:E.
    - destruct (Hl id n E). split; [by apply cstr_bytes|]. pose proof (strlen_cstr n). lia.
    - destruct (snprint_ok 15 (decimal id) ltac:(done) (decimal_bytes id)). split; [done|lia]. }
  destruct Hn as [Hn Hnl]. clearbody name.
  rewrite (Hnames (strlen name + 1)) by lia.
  assert (Hre : ewp nomem (modify (set_cache (<[i := (id, Some name)]> (cache s)));; mret (Some name))
    (λ o s', (∃ n, o = Some n ∧ Forall is_byte n) ∧ Q s') s).
  { do 3 ewp_step. split; [by eexists|]. apply HQ2. split; [by rewrite length_insert|]. apply Forall_insert; [done|]. cbn. congruence. }
  destruct (cache s !! i) as [[id' [n|]]|] eqn:E; [|done|by apply lookup_ge_None in E; lia]. destruct (id' =? id); [|done].
  ewp_step. split; [|done]. eexists. split; [done|]. by eapply (Forall_lookup_1 _ _ _ _ Hb E).
Qed.
Abbreviation srv_ls_file := (ls_file mem_ok getpwuid getgrgid now strftime).
Lemma ls_file_ok k name x s : sftp_inv k s → Forall is_byte name →
  ewp nomem (srv_ls_file name x) (λ l s', (Forall is_byte l ∧ strlen l < 1024) ∧ sftp_inv k s' ∧ calm s s' ∧ fs s' = fs s) s.
Proof.
  intros Hs Hn. unfold ls_file, user_from_uid, group_from_gid. ewp_step.
  eapply ewp_mono; [apply (from_id_ok _ _ _ _ (λ s', sftp_inv k s' ∧ calm s s' ∧ fs s' = fs s)); [apply Hs|apply (os_user Hos)|done|]|].
  { intros c Hc. split; [destruct Hs; by split|done]. }
  intros user' s1 ((user & -> & Hu) & Hs1 & Hc1 & Hf1). ewp_step.
  eapply ewp_mono; [apply (from_id_ok _ _ _ _ (λ s', sftp_inv k s' ∧ calm s s' ∧ fs s' = fs s)); [apply Hs1|apply (os_group Hos)|done|]|].
  { intros c Hc. split; [destruct Hs1; by split|done]. }
  intros group' s2 ((group & -> & Hg) & Hs2 & Hc2 & Hf2). do 6 ewp_step. cbv zeta. set (l := snprint 1024 _).
  assert (Hl : Forall is_byte l ∧ strlen l < 1024).
  { apply snprint_ok; [done|]. unfold pad_left, pad_right. pose proof (os_time Hos).
    repeat apply Forall_app_2; auto using strmode_bytes, replicate_blank, decimal_bytes; try (by constructor). by destruct (_ && _). }
  destruct Hl as [Hl1 Hl2]. clearbody l. apply ewp_xstrdup; [unfold SSHBUF_SIZE_MAX; lia|]. split; [|done]. split; [by apply cstr_bytes|].
  pose proof (strlen_cstr l). lia.
Qed.
Lemma readdir_ok dirp path fuel : ∀ k s nstats stats, sftp_inv k s → (dir_len (fs s) dirp < fuel)%nat → Forall (name_ok 1300) stats →
  zlen stats < 100 → 0 < nstats < 200 →
  ewp nomem (readdir_loop mem_ok os getpwuid getgrgid now strftime fuel dirp path nstats stats)
    (λ l s', (Forall (name_ok 1300) l ∧ zlen l ≤ 100) ∧ sftp_inv k s' ∧ calm s s') s.
Proof.
  induction fuel as [|fuel IH]; intros k s nstats stats Hs Hfuel Hst Hlen Hn; [lia|]. cbn [readdir_loop]. ewp_step. eapply ewp_ok; [apply sys_eq|].
  set (d := (os (fs s) (SysReaddir dirp)).1). set (s1 := after_sys (SysReaddir dirp) s). assert (Hs1 : sftp_inv k s1) by (by apply inv_sys).
  destruct (Z.ltb_spec (sr_ret d) 0) as [|Hd]; [ewp_step; split_and!; [done|lia|done|done]|]. cbv zeta.
  assert (Hf1 : (dir_len (fs s1) dirp < fuel)%nat) by (pose proof (os_readdir Hos (fs s) dirp Hd); cbn; lia).
  destruct (os_ret Hos (fs s) (SysReaddir dirp)) as [[? _]|(_ & Hdb & Hdl)]; [unfold d in *; lia|]. fold d in Hdb, Hdl.
  set (n2 := if zlen stats >=? nstats then _ else _). assert (Hn2 : 0 < n2 < 200) by (unfold n2; destruct (Z.geb_spec (zlen stats) nstats); lia).
  ewp_step. apply (ewp_mono _ _ (λ _ s', s' = s1)).
  { apply ewp_when; [|done]. intros _. apply ewp_xrealloc; [|lia|done]. unfold SIZEOF_STAT, SSHBUF_SIZE_MAX. lia. }
  intros [] ? ->. ewp_step. eapply ewp_ok; [apply sys_eq|]. set (c := SysLstat _). set (r := (os (fs s1) c).1). set (s2 := after_sys c s1).
  assert (Hs2 : sftp_inv k s2) by (by apply inv_sys). assert (Hf2 : (dir_len (fs s2) dirp < fuel)%nat) by (cbn; unfold c; by rewrite (os_lstat Hos)).
  assert (Hc2 : calm s s2) by done. destruct (sr_ret r <? 0).
  { eapply ewp_mono; [by apply IH|]. intros l s' ([? ?] & ? & ?). split_and!; [done..|by eapply calm_trans]. }
  pose proof (strlen_cstr (sr_data d)). pose proof (strlen_cstr (cstr (sr_data d))). assert (Hdb2 : Forall is_byte (cstr (sr_data d))) by (by apply cstr_bytes).
  ewp_step. apply ewp_xstrdup; [unfold SSHBUF_SIZE_MAX; lia|]. ewp_step. eapply ewp_mono; [by apply (ls_file_ok k)|].
  intros lf s3 ([Hlb Hll] & Hs3 & Hc3 & Hf3). rewrite <- Hf3 in Hf2. assert (Hc : calm s s3) by (by eapply calm_trans).
  set (stats2 := stats ++ _). assert (Hst2 : Forall (name_ok 1300) stats2).
  { apply Forall_app_2; [done|]. constructor; [|done]. split_and!; cbn [n_name n_long_name]; [by do 2 apply cstr_bytes|done|lia]. }
  assert (Hl2 : zlen stats2 = zlen stats + 1) by (unfold stats2; rewrite length_app; cbn; lia). clearbody stats2.
  destruct (Z.eqb_spec (zlen stats2) 100); [ewp_step; split_and!; [done|lia|done|done]|].
  eapply ewp_mono; [apply IH; [done..|lia|done]|]. intros l s' ([? ?] & ? & ?). split_and!; [done..|by eapply calm_trans].
Qed.
Lemma answers_readdir id : Answers p_handle id (process_readdir mem_ok os dir_len getpwuid getgrgid now strftime id).
Proof.
  unfold process_readdir, p_handle, p_seq, p_end. repeat sftp_step. destruct a as [dirp|], a0 as [path|]; try (by repeat sftp_step).
  eapply replies_bind; [by apply steps_xmalloc|]. intros _ _ k s Hs Hr. do 3 ewp_step. eapply ewp_weaken; [by left|].
  eapply ewp_mono; [apply (readdir_ok dirp path _ k); [done|lia|done|cbn; lia|lia]|]. intros l s1 ([Hl Hlen] & Hs1 & Hc1).
  assert (Hsend : Sends id (if zlen l >? 0 then send_names mem_ok id l else send_status mem_ok id SSH2_FX_EOF)).
  { destruct (_ >? _); [|by apply sends_status]. apply (sends_names id 1300); [done|lia..]. }
  eapply ewp_weaken; [by left|]. eapply ewp_mono; [apply Hsend; [done|by eapply calm_room]|]. intros [] s2 (Hs2 & Hi2 & Ha2).
  split_and!; [eapply inv_mono; [done|lia]|by rewrite Hi2; apply Hc1|by eapply calm_answered].
Qed.
End reply.
