(* ===== verification/SftpServer.v ===== *)
(** * The SFTP server answers every request

    The grammar of requests, the dispatch and [process], the turns of the main
    loop: whatever the client sends, the requests are read off the stream one
    after the other and each is answered by one reply with its number, and a
    request that follows the grammar is answered. *)
From S2P Require Import Prelude Buffer SshBuf Sftp SftpProps SftpReply.

(** ** The grammar of requests *)
Definition p_body (type : Z) : parser () :=
  if type =? SSH2_FXP_OPEN then p_open
  else if type =? SSH2_FXP_READ then p_read
  else if type =? SSH2_FXP_WRITE then p_write
  else if bool_decide (type ∈ [SSH2_FXP_CLOSE; SSH2_FXP_FSTAT; SSH2_FXP_READDIR]) then p_handle
  else if bool_decide (type ∈ [SSH2_FXP_SETSTAT; SSH2_FXP_FSETSTAT; SSH2_FXP_MKDIR]) then p_path_attrib
  else if bool_decide (type ∈ [SSH2_FXP_RENAME; SSH2_FXP_SYMLINK]) then p_two_paths
  else p_path.
Definition p_ext_body (name : list Z) : parser () :=
  if bool_decide (name = bytes_of_string "fsync@openssh.com") then p_handle else p_two_paths.
(** Types of requests that are answered. *)
Definition known (type : Z) : bool := (3 <=? type) && (type <=? 20) || (type =? SSH2_FXP_EXTENDED).
Definition version_reply : list Z :=
  [SSH2_FXP_VERSION] ++ STORE32H SSH2_FILEXFER_VERSION ++
  concat ((λ x : string, STORE32H (zlen (bytes_of_string x)) ++ bytes_of_string x) <$>
    ["posix-rename@openssh.com"; "1"; "hardlink@openssh.com"; "1"; "fsync@openssh.com"; "1"]).
#[export] Instance prefix_seq {A} (p : parser A) q : Prefix p → Prefix q → Prefix (p_seq p q).
Proof. unfold p_seq. apply _. Qed.
#[export] Instance prefix_end : Prefix p_end.
Proof. unfold p_end. apply _. Qed.
#[export] Instance prefix_body type : Prefix (p_body type).
Proof. unfold p_body, p_open, p_read, p_write, p_handle, p_path_attrib, p_two_paths, p_path. apply _. Qed.
#[export] Instance prefix_ext_body name : Prefix (p_ext_body name).
Proof. unfold p_ext_body, p_handle, p_two_paths. apply _. Qed.

Section server.
Context {FS : Type}.
Variable mem_ok : Z → bool.
Variable os : FS → syscall → sysret * FS.
Variable dir_len : FS → Z → nat.
Variable getpwuid getgrgid : Z → option (list Z).
Variable now : FS → Z.
Variable strftime : string → Z → list Z.
Variable readonly : bool.
Variable request_whitelist request_blacklist : option (list Z).
Abbreviation st := (sftp FS).
Abbreviation nomem := (no_memory mem_ok).
Abbreviation irest s := (sb_rest (iqueue s)).
Abbreviation orest s := (sb_rest (oqueue s)).
Abbreviation handlers := (handler_table mem_ok os dir_len getpwuid getgrgid now strftime readonly).
Abbreviation ext_handlers := (extended_handlers mem_ok os).
Abbreviation permitted := (request_permitted readonly request_whitelist request_blacklist).
Abbreviation srv_process := (process mem_ok os dir_len getpwuid getgrgid now strftime readonly request_whitelist request_blacklist).
Abbreviation srv_type := (process_type mem_ok os dir_len getpwuid getgrgid now strftime readonly request_whitelist request_blacklist).
Abbreviation srv_turn := (sftp_turn mem_ok os dir_len getpwuid getgrgid now strftime readonly request_whitelist request_blacklist).
Abbreviation srv_turns := (sftp_turns mem_ok os dir_len getpwuid getgrgid now strftime readonly request_whitelist request_blacklist).
Implicit Types s : st.

(** The arguments of a request that is not permitted are not read. *)
Definition p_extended : parser () :=
  p_bind p_sstring (λ name,
    match find_request (λ h, strcmp_eq name (sh_ext_name h)) ext_handlers with
    | Some h => if permitted h then p_ext_body (sh_ext_name h) else p_end
    | None => p_end
    end).
Definition p_args (type : Z) : parser () :=
  if type =? SSH2_FXP_EXTENDED then p_extended
  else match find_request (λ h, type =? sh_type h) handlers with
       | Some h => if permitted h then p_body type else p_end
       | None => p_end
       end.
(** A request but for its type: the version, or the number and the arguments. *)
Definition p_message (type : Z) : parser Z :=
  if type =? SSH2_FXP_INIT then p_int else p_bind p_int (λ id, p_bind (p_args type) (λ _, p_ret id)).
#[export] Instance prefix_args type : Prefix (p_args type).
Proof.
  unfold p_args, p_extended. apply prefix_if; [apply prefix_bind; [apply _|intros name]|]; (destruct (find_request _ _); apply _).
Qed.
#[export] Instance prefix_message type : Prefix (p_message type).
Proof. unfold p_message. apply _. Qed.
(** What a request is answered by. *)
Definition replies_for (type v : Z) (reps : list (list Z)) : Prop :=
  if type =? SSH2_FXP_INIT then reps = [version_reply]
  else if known type then ∃ r, reps = [r] ∧ reply_to v r
  else reps = [].
Definition responds (body : list Z) (reps : list (list Z)) : Prop :=
  ∃ type args v junk, body = type :: args ∧ p_message type args = Some (v, junk) ∧ replies_for type v reps.
Definition frames (l : list (list Z)) : list Z := concat (frame <$> l).
Lemma frames_app l l' : frames (l ++ l') = frames l ++ frames l'.
Proof. unfold frames. by rewrite fmap_app, concat_app. Qed.

(** ** Dispatch *)
Lemma find_request_some (f : @sftp_handler FS → bool) l h : find_request f l = Some h → h ∈ l ∧ f h = true.
Proof. induction l as [|x l IH]; [done|]. cbn. destruct (f x) eqn:E; [intros [= ->]; split; [left|done]|]. intros [? ?]%IH. split; [by right|done]. Qed.
Lemma find_request_none (f : @sftp_handler FS → bool) l : find_request f l = None → Forall (λ h, f h = false) l.
Proof. induction l as [|x l IH]; [by constructor|]. cbn. destruct (f x) eqn:E; [done|]. intros ?%IH. by constructor. Qed.
Context (Hos : os_ok os dir_len getpwuid getgrgid strftime) (Hnames : names_kept mem_ok).
Lemma table_answers id : Forall (λ h, Answers mem_ok (p_body (sh_type h)) id (sh_handler h id)) handlers.
Proof.
  unfold handler_table, process_stat, process_lstat, process_symlink.
  repeat (apply Forall_cons; split; [cbn [sh_type sh_handler]|]); [..|by constructor].
  - eapply answers_open, Hos.
  - eapply answers_close, Hos.
  - eapply answers_read_request, Hos.
  - eapply answers_write, Hos.
  - eapply answers_do_stat, Hos.
  - eapply answers_fstat, Hos.
  - eapply answers_setstat, Hos.
  - eapply answers_fsetstat, Hos.
  - eapply answers_opendir, Hos.
  - eapply answers_readdir; [exact Hos|exact Hnames].
  - eapply answers_remove, Hos.
  - eapply answers_mkdir, Hos.
  - eapply answers_rmdir, Hos.
  - eapply answers_realpath, Hos.
  - eapply answers_do_stat, Hos.
  - eapply answers_rename, Hos.
  - eapply answers_readlink, Hos.
  - eapply answers_two_paths, Hos.
Qed.
Lemma ext_answers id : Forall (λ h, Answers mem_ok (p_ext_body (sh_ext_name h)) id (sh_handler h id)) ext_handlers.
Proof.
  repeat (apply Forall_cons; split; [cbn [sh_ext_name sh_handler]|]); [..|by constructor].
  - eapply answers_two_paths, Hos.
  - eapply answers_two_paths, Hos.
  - eapply answers_fsync, Hos.
Qed.
Lemma status_replies id v : status_ok v → Replies mem_ok id (send_status mem_ok (FS := FS) id v).
Proof. intros Hv. apply replies_sends. eapply sends_status; [exact Hos|done]. Qed.
Lemma run_answers p id (h : @sftp_handler FS) : Answers mem_ok p id (sh_handler h id) →
  Answers mem_ok (if permitted h then p else p_end) id (run_permitted mem_ok readonly request_whitelist request_blacklist h id).
Proof. intros Hh. unfold run_permitted. destruct (permitted h); [done|]. by apply answers_done, status_replies. Qed.
Lemma extended_answers id : Answers mem_ok p_extended id (process_extended mem_ok os readonly request_whitelist request_blacklist id).
Proof.
  apply answers_string. intros name _. destruct (find_request _ _) as [h|] eqn:E; [|by apply answers_done, status_replies].
  apply run_answers. apply find_request_some in E as [Hin _]. exact (proj1 (Forall_forall _ _) (ext_answers id) h Hin).
Qed.
Lemma init_fills : Fills mem_ok (
    buffer_put_char mem_ok SSH2_FXP_VERSION;;
    buffer_put_int mem_ok SSH2_FILEXFER_VERSION;;
    buffer_put_cstring mem_ok (bytes_of_string "posix-rename@openssh.com");;
    buffer_put_cstring mem_ok (bytes_of_string "1");;
    buffer_put_cstring mem_ok (bytes_of_string "hardlink@openssh.com");;
    buffer_put_cstring mem_ok (bytes_of_string "1");;
    buffer_put_cstring mem_ok (bytes_of_string "fsync@openssh.com");;
    buffer_put_cstring mem_ok (bytes_of_string "1")) version_reply.
Proof.
  assert (Hc : ∀ x : string, (zlen (bytes_of_string x) <? 100) && bool_decide (cstr (bytes_of_string x) = bytes_of_string x) = true →
    Fills mem_ok (buffer_put_cstring mem_ok (bytes_of_string x)) (STORE32H (zlen (bytes_of_string x)) ++ bytes_of_string x)).
  { intros x [Hl%Z.ltb_lt E%bool_decide_eq_true]%andb_true_iff. pose proof (fills_cstring mem_ok (bytes_of_string x)) as Hf. unfold strlen in Hf.
    rewrite E in Hf. apply Hf; [apply bytes_of_string_bytes|unfold SSHBUF_SIZE_MAX; lia]. }
  apply fills_seq; [apply fills_put, puts_u8|]. apply fills_seq; [apply fills_put, puts_u32|]. cbn [fmap list_fmap concat].
  repeat (apply fills_seq; [by apply Hc|]). rewrite app_nil_r. by apply Hc.
Qed.
(** What [process_type] does. *)
Definition greeted (type : Z) s s' : Prop := init_done s' = true ∧ (init_done s = true ∨ type = SSH2_FXP_INIT).
Lemma answered_replies id type s s' : type ≠ SSH2_FXP_INIT → known type = true → answered id s s' →
  ∃ reps, orest s' = orest s ++ frames reps ∧ replies_for type id reps.
Proof.
  intros Hne Hk (_ & r & Hr & E). exists [r]. split; [unfold frames; cbn; by rewrite app_nil_r|]. unfold replies_for.
  destruct (Z.eqb_spec type SSH2_FXP_INIT); [done|]. rewrite Hk. by exists r.
Qed.
Lemma handler_types : sh_type <$> handlers = [3; 4; 5; 6; 7; 8; 9; 10; 11; 12; 13; 14; 15; 16; 17; 18; 19; 20].
Proof. reflexivity. Qed.
Lemma find_known type : type ≠ SSH2_FXP_EXTENDED → known type = bool_decide (is_Some (find_request (λ h, type =? sh_type h) handlers)).
Proof.
  intros Hne. assert (Hk : known type = true ↔ type ∈ sh_type <$> handlers).
  { rewrite handler_types. unfold known, SSH2_FXP_EXTENDED in *. set_unfold. bool_lia. }
  destruct (find_request _ _) as [h|] eqn:E; rewrite ?bool_decide_true, ?bool_decide_false by (done || by intros []).
  - apply Hk. apply find_request_some in E as [Hin ->%Z.eqb_eq]. by apply list_elem_of_fmap_2.
  - apply not_true_is_false. intros (h & -> & Hin)%Hk%list_elem_of_fmap. apply find_request_none in E.
    pose proof (proj1 (Forall_forall _ _) E h Hin) as Hf. cbn in Hf. by rewrite Z.eqb_refl in Hf.
Qed.
Lemma args_answers id type : known type = true → type ≠ SSH2_FXP_EXTENDED →
  Answers mem_ok (p_args type) id
    (match find_request (λ h, type =? sh_type h) handlers with
     | Some h => run_permitted mem_ok readonly request_whitelist request_blacklist h id
     | None => mret tt
     end).
Proof.
  intros Hk Hne. rewrite find_known in Hk by done. unfold p_args. destruct (Z.eqb_spec type SSH2_FXP_EXTENDED); [done|].
  destruct (find_request _ _) as [h|] eqn:E; [|done]. apply run_answers. apply find_request_some in E as [Hin Ht%Z.eqb_eq].
  rewrite Ht. exact (proj1 (Forall_forall _ _) (table_answers id) h Hin).
Qed.
(** A number is read, and what follows answers it. *)
Lemma numbered type k s (f : Z → M st ()) : type ≠ SSH2_FXP_INIT → known type = true → (∀ id, Answers mem_ok (p_args type) id (f id)) →
  sftp_inv k s → room s →
  ewp (stuck mem_ok k ∨ p_message type (irest s) = None) (get_int ≫= f)
    (λ _ s', sftp_inv (k + 1) s' ∧ init_done s' = init_done s ∧
      ∃ v reps, p_message type (irest s) = Some (v, irest s') ∧ replies_for type v reps ∧ orest s' = orest s ++ frames reps) s.
Proof.
  intros Hne Hk Hf Hs Hr. unfold p_message. destruct (Z.eqb_spec type SSH2_FXP_INIT); [done|]. unfold get_int, on_iqueue. do 2 ewp_step.
  pose proof (reads_get mem_ok sshbuf_get_u32 p_int _ (iqueue s) (si_iq _ _ Hs)) as Hg. unfold p_bind. eapply ewp_weaken; [|eapply ewp_mono; [exact Hg|]].
  { intros [? | ->]; [by left; left|by right]. }
  intros id b (Hb & Hm & E). rewrite E. cbn. eapply ewp_weaken; [|eapply ewp_mono; [apply (Hf id k); [by apply inv_iqueue|done]|]].
  { cbn. intros [? | ->]; [by left|by right]. }
  intros [] s' (Hs' & Hp & Ha). cbn in Hp. split; [done|]. split; [by destruct Ha as [[_ ?] _]|]. rewrite Hp. cbn.
  destruct (answered_replies id type (set_iqueue b s) s' Hne Hk Ha) as (reps & Eo & Hreps). by exists id, reps.
Qed.
Lemma process_type_ok type k s : sftp_inv k s → room s →
  ewp (stuck mem_ok k ∨ p_message type (irest s) = None ∨ (type ≠ SSH2_FXP_INIT ∧ init_done s = false)) (srv_type type)
    (λ _ s', sftp_inv (k + 1) s' ∧ greeted type s s' ∧
      ∃ v reps, p_message type (irest s) = Some (v, irest s') ∧ replies_for type v reps ∧ orest s' = orest s ++ frames reps) s.
Proof.
  intros Hs Hr. unfold process_type. destruct (Z.eqb_spec type SSH2_FXP_INIT) as [->|Hne].
  - unfold process_init, get_int, on_iqueue. do 3 ewp_step. pose proof (reads_get mem_ok sshbuf_get_u32 p_int _ (iqueue s) (si_iq _ _ Hs)) as Hg.
    eapply ewp_weaken; [|eapply ewp_mono; [exact Hg|]]. { intros [?|?]; [by left; left|by right; left]. }
    intros v b (Hb & Hm & E). do 2 ewp_step. pose proof init_fills as Hf. eapply ewp_weaken; [by left; left|]. set (s1 := set_version v (set_iqueue b s)).
    assert (Hs1 : sftp_inv k s1) by (destruct (inv_iqueue k s b Hs Hb Hm); by split).
    eapply ewp_mono; [eapply send_buffer_ok; [exact Hf|by vm_compute|exact Hs1|exact Hr]|]. intros [] s2 (Hs2 & Hi2 & Hk2 & Ho2). ewp_step.
    split; [apply (inv_mono k); [destruct Hs2; by split|lia]|]. split; [by split; [|right]|]. exists v, [version_reply]. cbn [set_init_done iqueue oqueue].
    rewrite Hi2, Ho2. split_and!; [exact E|done|]. unfold frames. cbn [fmap list_fmap concat]. by rewrite app_nil_r.
  - destruct (Z.eqb_spec type SSH2_FXP_EXTENDED) as [->|Hnx]; do 2 ewp_step; (destruct (init_done s) eqn:Ei; [|apply ewp_exit; by right; right]); cbn [negb].
    + eapply ewp_weaken; [|eapply ewp_mono; [apply (numbered SSH2_FXP_EXTENDED k); [done..|apply extended_answers|done|done]|]].
      { intros [?|?]; [by left|by right; left]. }
      intros [] s' (Hs' & Hi' & Hx). split; [done|]. split; [|done]. split; [congruence|by left].
    + destruct (known type) eqn:Ek.
      * eapply ewp_weaken; [|eapply ewp_mono; [apply (numbered type k); [done..|intros id; by apply args_answers|done|done]|]].
        { intros [?|?]; [by left|by right; left]. }
        intros [] s' (Hs' & Hi' & Hx). split; [done|]. split; [|done]. split; [congruence|by left].
      * pose proof Ek as Ef. rewrite find_known in Ef by done. apply bool_decide_eq_false in Ef. unfold p_message, p_args.
        destruct (Z.eqb_spec type SSH2_FXP_INIT), (Z.eqb_spec type SSH2_FXP_EXTENDED); [done..|].
        destruct (find_request _ _) as [h|]; [by destruct Ef|]. unfold get_int, on_iqueue, p_bind. do 2 ewp_step.
        pose proof (reads_get mem_ok sshbuf_get_u32 p_int _ (iqueue s) (si_iq _ _ Hs)) as Hg.
        eapply ewp_weaken; [|eapply ewp_mono; [exact Hg|]]. { intros [? | ->]; [by left; left|by right; left]. }
        intros v b (Hb & Hm & E). rewrite E. cbn. split; [eapply inv_mono; [by apply inv_iqueue|lia]|]. split; [by split; [|left]|].
        exists v, []. unfold replies_for, frames. cbn. rewrite app_nil_r. destruct (Z.eqb_spec type SSH2_FXP_INIT); [done|]. by rewrite Ek.
Qed.
(** ** One request *)
Definition msg_len s : Z := LOAD32H (take 4 (irest s)).
(** The queue does not begin with a whole request. *)
Definition incomplete s : Prop := zlen (irest s) < 5 ∨ zlen (irest s) < msg_len s + 4.
(** The request in front is one the grammar has, as far as it is there. *)
Definition well_formed (init : bool) (body : list Z) : Prop :=
  ∃ type args v junk, body = type :: args ∧ p_message type args = Some (v, junk) ∧ (type = SSH2_FXP_INIT ∨ init = true).
Definition next_ok s : Prop := 5 ≤ zlen (irest s) →
  msg_len s ≤ SFTP_MAX_MSG_LENGTH ∧
  (msg_len s + 4 ≤ zlen (irest s) → well_formed (init_done s) (take (Z.to_nat (msg_len s)) (drop 4 (irest s)))).
Definition took s s' (body : list Z) (reps : list (list Z)) : Prop :=
  irest s = frame body ++ irest s' ∧ orest s' = orest s ++ frames reps ∧ responds body reps ∧
  (init_done s = true ∨ head body = Some SSH2_FXP_INIT) ∧ init_done s' = true.
Lemma set_iqueue_id s : set_iqueue (iqueue s) s = s.
Proof. by destruct s. Qed.
Lemma set_oqueue_id s : set_oqueue (oqueue s) s = s.
Proof. by destruct s. Qed.
(** The grammar looks at the message only, if it follows the grammar. *)
Lemma message_in type rest n v tl : p_message type rest = Some (v, tl) → zlen rest - zlen tl ≤ n ≤ zlen rest →
  ∃ junk, p_message type (take (Z.to_nat n) rest) = Some (v, junk) ∧ drop (Z.to_nat (n - (zlen rest - zlen tl))) tl = drop (Z.to_nat n) rest.
Proof.
  intros (pre & -> & Hpre)%prefix_message Hn. rewrite length_app in Hn. exists (take (Z.to_nat n - length pre) tl).
  rewrite take_app_ge by lia. split; [apply Hpre|]. rewrite drop_app_ge by lia. f_equal. rewrite length_app. lia.
Qed.
Lemma message_out type rest n v junk : p_message type (take (Z.to_nat n) rest) = Some (v, junk) → 0 ≤ n ≤ zlen rest →
  ∃ tl, p_message type rest = Some (v, tl) ∧ zlen rest - zlen tl ≤ n.
Proof.
  intros (pre & E & Hpre)%prefix_message Hn. exists (junk ++ drop (Z.to_nat n) rest). rewrite <- (take_drop (Z.to_nat n) rest) at 1.
  rewrite E, <- app_assoc, Hpre. split; [done|]. apply (f_equal length) in E. rewrite length_take, length_app in E.
  rewrite length_app, length_drop. lia.
Qed.
(** What an acceptable request tells about the whole queue. *)
Lemma next_message s type args : next_ok s → msg_len s + 4 ≤ zlen (irest s) → 0 ≤ msg_len s → drop 4 (irest s) = type :: args →
  1 ≤ msg_len s ∧ (type = SSH2_FXP_INIT ∨ init_done s = true) ∧
  ∃ v tl, p_message type args = Some (v, tl) ∧ 1 + zlen args - zlen tl ≤ msg_len s.
Proof.
  intros Hn Hw H0 E. assert (Hl : zlen (type :: args) = zlen (irest s) - 4).
  { rewrite <- E, length_drop. apply (f_equal length) in E. rewrite length_drop in E. cbn in E. lia. }
  cbn in Hl. destruct Hn as [_ Hn]; [lia|]. destruct (Hn Hw) as (ty & ar & v & junk & Eb & Hp & Hi). rewrite E in Eb.
  destruct (Z.to_nat (msg_len s)) as [|m] eqn:Em; [done|]. injection Eb as <- <-. split; [lia|]. split; [done|].
  replace m with (Z.to_nat (msg_len s - 1)) in Hp by lia. apply message_out in Hp as (tl & Hp & Htl); [|lia]. exists v, tl. split; [done|lia].
Qed.
(** The message, when its type and arguments have been read and its rest is skipped. *)
Lemma took_message s s' type args v tl reps : drop 4 (irest s) = type :: args → Forall is_byte (irest s) → p_message type args = Some (v, tl) →
  replies_for type v reps → (init_done s = true ∨ type = SSH2_FXP_INIT) →
  1 + zlen args - zlen tl ≤ msg_len s → msg_len s ≤ 1 + zlen args → zlen tl ≤ zlen args →
  irest s' = drop (Z.to_nat (msg_len s - (1 + zlen args - zlen tl))) tl → orest s' = orest s ++ frames reps → init_done s' = true →
  took s s' (take (Z.to_nat (msg_len s)) (type :: args)) reps.
Proof.
  intros Ed Hbytes Hp Hrep Hg Hin Hw Htl Hi Ho Hd. destruct (message_in type args (msg_len s - 1) v tl Hp ltac:(lia)) as (junk & Hp2 & Hdr).
  assert (H4 : (4 ≤ length (irest s))%nat) by (apply (f_equal length) in Ed; rewrite length_drop in Ed; cbn in Ed; lia).
  assert (Eb : take (Z.to_nat (msg_len s)) (type :: args) = type :: take (Z.to_nat (msg_len s - 1)) args)
    by (replace (Z.to_nat (msg_len s)) with (S (Z.to_nat (msg_len s - 1))) by lia; done).
  split_and!; [|done| |rewrite Eb; destruct Hg; [by left|right; cbn; congruence]|done].
  - rewrite <- (take_drop 4 (irest s)), Ed at 1. unfold frame. rewrite Hi.
    assert (El : zlen (take (Z.to_nat (msg_len s)) (type :: args)) = msg_len s) by (rewrite length_take; cbn; lia).
    rewrite El. unfold msg_len at 1. rewrite STORE32H_LOAD32H by (rewrite ?length_take; (lia || by apply Forall_take)). rewrite <- app_assoc. f_equal.
    replace (msg_len s - (1 + zlen args - zlen tl)) with (msg_len s - 1 - (zlen args - zlen tl)) by lia. rewrite Hdr, Eb. cbn. f_equal.
    symmetry. apply take_drop.
  - exists type, (take (Z.to_nat (msg_len s - 1)) args), v, junk. done.
Qed.
Lemma process_ok k s : sftp_inv k s → room s →
  ewp (stuck mem_ok k ∨ ¬ next_ok s) srv_process
    (λ _ s', sftp_inv (k + 1) s' ∧ (s' = s ∧ incomplete s ∨ ∃ body reps, took s s' body reps)) s.
Proof.
  intros Hs Hr. pose proof (si_iq _ _ Hs) as Hiq. pose proof (sb_rest_length _ Hiq) as Hlen. pose proof (sb_rest_bytes _ Hiq) as Hbytes. sb_facts.
  assert (Hs1 : sftp_inv (k + 1) s) by (eapply inv_mono; [done|lia]).
  unfold process, on_iqueue. do 2 ewp_step. eapply ewp_ok; [by apply len_ok|]. rewrite set_iqueue_id.
  destruct (Z.ltb_spec (zlen (irest s)) 5) as [Hshort|H5]; [ewp_step; split; [done|]; left; split; [done|]; by left|].
  do 3 ewp_step. eapply ewp_ok; [by apply ptr_ok|]. eapply ewp_ok; [apply load_ok; [done|lia|done]|]. rewrite set_iqueue_id.
  change (Z.to_nat 4) with 4%nat. fold (msg_len s). pose proof (LOAD32H_range (take 4 (irest s))) as Hml. fold (msg_len s) in Hml.
  unfold sftp_server_cleanup_exit. destruct (Z.gtb_spec (msg_len s) SFTP_MAX_MSG_LENGTH) as [Hbig|Hbig].
  { apply ewp_exit. right. intros Hn. destruct (Hn H5). lia. }
  unfold SFTP_MAX_MSG_LENGTH in Hbig. rewrite (u32_small (msg_len s + 4)) by (unfold U32; lia).
  destruct (Z.ltb_spec (zlen (irest s)) (msg_len s + 4)) as [Hpart|Hwhole]; [ewp_step; split; [done|]; left; split; [done|]; by right|].
  assert (Hml0 : 0 ≤ msg_len s) by lia. clear Hml. rewrite (u32_small (zlen (irest s) - 4)) by (unfold U32; lia).
  do 2 ewp_step. eapply ewp_ok; [apply buffer_consume_ok; [done|lia]|]. destruct (advance_ok (iqueue s) 4 Hiq ltac:(lia)) as [Hb1 Hr1].
  change (Z.to_nat 4) with 4%nat in Hr1. set (b1 := sb_advance (iqueue s) 4) in *. destruct (drop 4 (irest s)) as [|type args] eqn:Ed.
  { apply (f_equal length) in Ed. rewrite length_drop in Ed. cbn in Ed. lia. }
  assert (Hal : zlen args = zlen (irest s) - 5) by (apply (f_equal length) in Ed; rewrite length_drop in Ed; cbn in Ed; lia).
  do 2 ewp_step. pose proof (reads_get mem_ok sshbuf_get_u8 p_byte _ b1 Hb1) as Hg. rewrite Hr1 in Hg.
  eapply ewp_weaken; [|eapply ewp_mono; [exact Hg|]]. { intros [?|?]; [by left; left|done]. }
  intros ty b2 (Hb2 & Hm2 & E2). injection E2 as <- E2. ewp_step. set (s2 := set_iqueue b2 _).
  assert (Hs2 : sftp_inv k s2) by (change s2 with (set_iqueue b2 s); by apply inv_iqueue; [..|rewrite Hm2]).
  assert (Ei2 : irest s2 = args) by done.
  eapply ewp_weaken; [|eapply ewp_mono; [apply (process_type_ok type k s2 Hs2 Hr)|]].
  { rewrite Ei2. intros [?|Hbad]; [by left|]. right. intros Hn. destruct (next_message s type args Hn Hwhole Hml0 Ed) as (_ & Hi & v & tl & Hp & _).
    destruct Hbad as [?|[? Hf]]; [congruence|]. change (init_done s2) with (init_done s) in Hf. destruct Hi; congruence. }
  intros [] s3 (Hs3 & [Hg3 Hg2] & v & reps & Hp & Hrep & Ho). rewrite Ei2 in Hp. change (orest s2) with (orest s) in Ho. change (init_done s2) with (init_done s) in Hg2.
  pose proof (si_iq _ _ Hs3) as Hiq3. do 2 ewp_step. eapply ewp_ok; [by apply len_ok|]. rewrite set_iqueue_id.
  assert (Htl : zlen (irest s3) ≤ zlen args) by (destruct (prefix_message _ _ _ _ Hp) as (pre & -> & _); rewrite length_app; lia).
  destruct (Z.ltb_spec (zlen (irest s) - 4) (zlen (irest s3))); [lia|]. rewrite (u32_small (zlen (irest s) - 4 - _)) by (unfold U32; lia).
  destruct (Z.ltb_spec (msg_len s) (zlen (irest s) - 4 - zlen (irest s3))) as [Hover|Hin].
  { apply ewp_exit. right. intros Hn. destruct (next_message s type args Hn Hwhole Hml0 Ed) as (_ & _ & v' & tl & Hp' & Hl').
    rewrite Hp in Hp'. injection Hp' as _ <-. lia. }
  set (n := msg_len s - (zlen (irest s) - 4 - zlen (irest s3))) in *.
  assert (Hdone : ∀ s4, sftp_inv (k + 1) s4 → irest s4 = drop (Z.to_nat n) (irest s3) → oqueue s4 = oqueue s3 → init_done s4 = init_done s3 →
    sftp_inv (k + 1) s4 ∧ (s4 = s ∧ incomplete s ∨ ∃ body reps, took s s4 body reps)).
  { intros s4 Hs4 Hi4 Ho4 Hd4. split; [done|]. right. eexists _, reps. eapply took_message; [done..|lia|lia|done|by rewrite Hi4; unfold n; do 2 f_equal; lia|by rewrite Ho4|congruence]. }
  apply ewp_when; intros Hn.
  - apply Z.gtb_lt in Hn. rewrite u32_small by (unfold U32; lia). ewp_step. eapply ewp_ok; [apply buffer_consume_ok; [done|]|].
    { destruct (prefix_message _ _ _ _ Hp) as (pre & Epre & _). apply (f_equal length) in Epre. rewrite length_app in Epre. unfold n. lia. }
    destruct (advance_ok (iqueue s3) n Hiq3) as [Hb4 Hr4]. { unfold n. lia. }
    apply Hdone; [by apply inv_iqueue|done..].
  - apply Hdone; [done| |done..]. rewrite Z.gtb_ltb in Hn. apply Z.ltb_ge in Hn. by replace (Z.to_nat n) with 0%nat by (unfold n; lia).
Qed.
(** ** The main loop *)
(** What [read] and [write] may return. *)
Definition turn_ok (t : turn) : Prop :=
  match t with
  | Selected rd wr =>
      (∀ bs, rd = Some (Some bs) → Forall is_byte bs ∧ zlen bs ≤ 16384) ∧ (∀ n, wr = Some (Some n) → 0 ≤ n)
  | SelectFails _ => True
  end.
(** [i] was read and [o] written: requests were taken off the one stream, and
    their replies were put on the other. *)
Record served s (i o : list Z) s' (reqs : list (list Z)) (reps : list (list (list Z))) : Prop := {
  sv_in : irest s ++ i = frames reqs ++ irest s';
  sv_out : orest s ++ frames (concat reps) = o ++ orest s';
  sv_each : Forall2 responds reqs reps;
  sv_first : if init_done s then init_done s' = true
             else (reqs = [] ∧ init_done s' = false) ∨ (∃ body reqs', reqs = body :: reqs' ∧ head body = Some SSH2_FXP_INIT ∧ init_done s' = true)
}.
Lemma served_refl s s' i o : irest s ++ i = irest s' → orest s = o ++ orest s' → init_done s' = init_done s → served s i o s' [] [].
Proof. intros Hi Ho Hd. split; [done|by rewrite app_nil_r|done|]. destruct (init_done s); [done|by left]. Qed.
Lemma served_trans s1 i1 o1 s2 r1 p1 i2 o2 s3 r2 p2 : served s1 i1 o1 s2 r1 p1 → served s2 i2 o2 s3 r2 p2 →
  served s1 (i1 ++ i2) (o1 ++ o2) s3 (r1 ++ r2) (p1 ++ p2).
Proof.
  intros [Hi1 Ho1 He1 Hf1] [Hi2 Ho2 He2 Hf2]. split.
  - by rewrite app_assoc, Hi1, frames_app, <- !app_assoc, Hi2.
  - by rewrite concat_app, frames_app, app_assoc, Ho1, <- !app_assoc, Ho2.
  - by apply Forall2_app.
  - destruct (init_done s1); [by rewrite Hf1 in Hf2|]. destruct Hf1 as [[-> E]|(b & r & -> & Hb & E)]; rewrite E in Hf2; [done|]. right. by exists b, (r ++ r2).
Qed.
Lemma served_took s s' body reps : took s s' body reps → served s [] [] s' [body] [reps].
Proof.
  intros (Hi & Ho & Hr & Hf & Hd). split; [|by cbn; rewrite app_nil_r|by repeat constructor|].
  - rewrite app_nil_r, Hi. unfold frames. cbn. by rewrite app_nil_r.
  - destruct (init_done s); [done|]. destruct Hf as [?|Hf]; [done|]. right. by exists body, [].
Qed.
Lemma check_alloc_ok b n : sb_wf b → 0 ≤ n < U32 → buffer_check_alloc n b = Ok (zlen (sb_rest b) + n <=? sb_max_size b, b).
Proof.
  intros Hb Hn. unfold buffer_check_alloc. rewrite (bind_ok _ _ _ _ _ (check_reserve_ok n b Hb Hn)).
  destruct (Z.gtb_spec (zlen (sb_rest b) + n) (sb_max_size b)), (Z.leb_spec (zlen (sb_rest b) + n) (sb_max_size b)); done || lia.
Qed.
(** Reading into the queue. *)
Lemma turn_read k s (bs : list Z) : sftp_inv k s → Forall is_byte bs → zlen bs ≤ 16384 → zlen (irest s) + 16384 ≤ SSHBUF_SIZE_MAX →
  ewp True (on_iqueue (buffer_append mem_ok bs (zlen bs))) (λ _ s', sftp_inv k s' ∧ irest s' = irest s ++ bs ∧ oqueue s' = oqueue s ∧ init_done s' = init_done s) s.
Proof.
  intros Hs Hbs Hl Hfit. unfold on_iqueue. ewp_step. pose proof (si_imax _ _ Hs) as Hm. eapply ewp_weaken; [done|].
  eapply ewp_mono; [apply (@fills_ok mem_ok _ _ (fills_append mem_ok bs Hbs ltac:(unfold U32; lia))); [apply Hs|lia]|].
  intros [] b (Hb & Hr & Hmb). split_and!; [by apply inv_iqueue|done..].
Qed.
(** Writing from the queue. *)
Lemma turn_write k s n : sftp_inv k s → 0 ≤ n ≤ zlen (orest s) →
  ewp True (bs ← on_oqueue (p ← sshbuf_ptr; load p n); on_oqueue (buffer_consume n);; mret bs)
    (λ bs s', sftp_inv k s' ∧ orest s = bs ++ orest s' ∧ iqueue s' = iqueue s ∧ init_done s' = init_done s) s.
Proof.
  intros Hs Hn. pose proof (si_oq _ _ Hs) as Ho. unfold on_oqueue. do 3 ewp_step. eapply ewp_ok; [by apply ptr_ok|].
  eapply ewp_ok; [by apply load_ok|]. rewrite set_oqueue_id. do 2 ewp_step. eapply ewp_ok; [by apply buffer_consume_ok|]. ewp_step.
  destruct (advance_ok _ n Ho Hn) as [Hb Hr]. split_and!; [by apply inv_oqueue| |done..]. cbn. by rewrite Hr, take_drop.
Qed.
Lemma turn_served t k s : sftp_inv k s → turn_ok t →
  ewp True (srv_turn t) (λ io s', sftp_inv (k + 1) s' ∧ ∃ reqs reps, served s io.1 io.2 s' reqs reps) s.
Proof.
  intros Hs Ht. assert (Hs1 : sftp_inv (k + 1) s) by (eapply inv_mono; [done|lia]). pose proof (si_iq _ _ Hs) as Hiq. pose proof (si_oq _ _ Hs) as Hoq.
  pose proof (si_imax _ _ Hs) as Him. pose proof (si_omax _ _ Hs) as Hom.
  unfold sftp_turn, sftp_server_cleanup_exit. ewp_step. unfold on_iqueue at 1. ewp_step. eapply ewp_ok; [by apply check_alloc_ok|]. rewrite set_iqueue_id. ewp_step.
  apply (ewp_mono _ _ (λ can s', s' = s ∧ (can = true → zlen (irest s) + 16384 ≤ SSHBUF_SIZE_MAX))).
  { destruct (Z.leb_spec (zlen (irest s) + 16384) (sb_max_size (iqueue s))); [|by ewp_step]. unfold on_oqueue. ewp_step.
    eapply ewp_ok; [by apply check_alloc_ok|]. rewrite set_oqueue_id. split; [done|]. intros _. by rewrite <- Him. }
  intros can ? [-> Hcan]. ewp_step. unfold on_oqueue at 1. ewp_step. eapply ewp_ok; [by apply len_ok|]. rewrite set_oqueue_id.
  destruct t as [[]|rd wr]; [ewp_step; split; [done|]; exists [], []; apply served_refl; [by rewrite app_nil_r|done..]|by apply ewp_exit|].
  destruct Ht as [Hrd Hwr]. ewp_step.
  apply (ewp_mono _ _ (λ i s', sftp_inv k s' ∧ irest s' = irest s ++ i ∧ oqueue s' = oqueue s ∧ init_done s' = init_done s)).
  { assert (Hno : sftp_inv k s ∧ irest s = irest s ++ [] ∧ oqueue s = oqueue s ∧ init_done s = init_done s) by (by rewrite app_nil_r).
    destruct rd as [[bs|]|], can; try (by ewp_step); try (by apply ewp_exit). destruct (Hrd bs eq_refl) as [Hbs Hl]. destruct bs as [|c bs]; [by apply ewp_exit|].
    ewp_step. eapply ewp_mono; [by apply (turn_read k); auto|]. intros [] s' Hs'. by ewp_step. }
  intros i s1 (Hsi & Hi1 & Ho1 & Hd1). ewp_step.
  apply (ewp_mono _ _ (λ o s', sftp_inv k s' ∧ orest s = o ++ orest s' ∧ iqueue s' = iqueue s1 ∧ init_done s' = init_done s1)).
  { assert (Hno : sftp_inv k s1 ∧ orest s = [] ++ orest s1 ∧ iqueue s1 = iqueue s1 ∧ init_done s1 = init_done s1) by (by rewrite Ho1).
    destruct wr as [[n|]|], (zlen (orest s) >? 0); try (by ewp_step); try (by apply ewp_exit). rewrite <- Ho1. apply turn_write; [done|].
    specialize (Hwr n eq_refl). lia. }
  intros o s2 (Hs2 & Ho2 & Hi2 & Hd2). ewp_step. unfold on_oqueue. ewp_step. eapply ewp_ok; [apply check_alloc_ok; [apply Hs2|done]|]. rewrite set_oqueue_id. ewp_step.
  assert (Hsv : served s i o s2 [] []) by (apply served_refl; [by rewrite Hi2, Hi1|done|congruence]).
  apply ewp_when; [intros Hroom%Z.leb_le|intros _; ewp_step; split; [eapply inv_mono; [done|lia]|by exists [], []]].
  rewrite (si_omax _ _ Hs2) in Hroom. eapply ewp_weaken; [done|]. eapply ewp_mono; [by apply (process_ok k)|].
  intros [] s3 [Hs3 Hp]. ewp_step. split; [done|]. destruct Hp as [[-> _]|(body & reps & Htk)]; [by exists [], []|].
  pose proof (served_trans _ _ _ _ _ _ _ _ _ _ _ Hsv (served_took _ _ _ _ Htk)) as Hx. rewrite !app_nil_r in Hx. by exists ([] ++ [body]), ([] ++ [reps]).
Qed.
Lemma turns_served ts : ∀ k s, sftp_inv k s → Forall turn_ok ts →
  ewp True (srv_turns ts) (λ io s', sftp_inv (k + zlen ts) s' ∧ ∃ reqs reps, served s io.1 io.2 s' reqs reps) s.
Proof.
  induction ts as [|t ts IH]; intros k s Hs Hts; cbn [sftp_turns length].
  - ewp_step. split; [by rewrite Z.add_0_r|]. exists [], []. by apply served_refl; [rewrite app_nil_r|..].
  - apply Forall_cons in Hts as [Ht Hts]. ewp_step. eapply ewp_mono; [by apply turn_served|]. intros a s1 (Hs1 & r1 & p1 & Hv1). ewp_step.
    eapply ewp_mono; [by apply IH|]. intros b s2 (Hs2 & r2 & p2 & Hv2). ewp_step. split.
    + by replace (k + Z.of_nat (S (length ts))) with (k + 1 + zlen ts) by lia.
    + exists (r1 ++ r2), (p1 ++ p2). by eapply served_trans.
Qed.
Lemma sftp_start_ok f s : sftp_start mem_ok f = Ok s → sftp_inv 0 s ∧ irest s = [] ∧ orest s = [] ∧ init_done s = false.
Proof.
  unfold sftp_start, mbind, outcome_bind. destruct (sshbuf_init mem_ok) as [b| |] eqn:E; [|done..]. intros [= <-].
  apply sshbuf_init_ok in E as (Hb & Hr & Hm). split_and!; [|done..]. split; [done..| |done| |].
  - split; [|done|by vm_compute]. exists []. split; [done|]. split; [apply NoDup_nil_2|done].
  - split; [done|by apply (Forall_replicate (λ e : Z * option (list Z), ∀ n, e.2 = Some n → Forall is_byte n) 64 (0, None))].
  - split; [done|by apply (Forall_replicate (λ e : Z * option (list Z), ∀ n, e.2 = Some n → Forall is_byte n) 64 (0, None))].
Qed.
Lemma frame_inj a x b y : zlen a < U32 → zlen b < U32 → frame a ++ x = frame b ++ y → a = b ∧ x = y.
Proof.
  intros Ha Hb E. unfold frame in E. rewrite <- !app_assoc in E. apply app_inj_1 in E as [El E]; [|by rewrite !STORE32H_length].
  apply (f_equal LOAD32H) in El. rewrite !LOAD32H_STORE32H in El by lia. apply app_inj_1 in E; [done|lia].
Qed.
(** A whole request in front of the queue is taken. *)
Lemma process_frame k s body tl : sftp_inv k s → room s → irest s = frame body ++ tl → zlen body ≤ SFTP_MAX_MSG_LENGTH → well_formed (init_done s) body →
  ewp (stuck mem_ok k) srv_process
    (λ _ s', irest s' = tl ∧ ∃ reps, responds body reps ∧ orest s' = orest s ++ frames reps ∧ init_done s' = true) s.
Proof.
  intros Hs Hr E Hmax Hwf. unfold SFTP_MAX_MSG_LENGTH in Hmax.
  assert (Hlen : zlen (irest s) = 4 + zlen body + zlen tl) by (rewrite E; unfold frame; rewrite !length_app, STORE32H_length; lia).
  assert (Hm : msg_len s = zlen body).
  { unfold msg_len. rewrite E. unfold frame. rewrite <- app_assoc, take_app_le, take_ge by (rewrite STORE32H_length; lia).
    apply LOAD32H_STORE32H. unfold U32. lia. }
  assert (Hb : 1 ≤ zlen body) by (destruct Hwf as (ty & ar & v & j & -> & _); cbn; lia).
  assert (Hn : next_ok s).
  { intros _. rewrite Hm. split; [unfold SFTP_MAX_MSG_LENGTH; lia|]. intros _. rewrite E. unfold frame. rewrite <- app_assoc, drop_app_length' by (by rewrite STORE32H_length).
    rewrite Nat2Z.id. by rewrite take_app_length. }
  eapply ewp_weaken; [|eapply ewp_mono; [by apply (process_ok k)|]]; [by intros [?|?]|]. intros [] s' [_ Hp].
  destruct Hp as [[_ Hinc]|(body' & reps & Hi & Ho & Hres & _ & Hd)]; [destruct Hinc; lia|].
  assert (Hl' : zlen (irest s) = 4 + zlen body' + zlen (irest s')) by (rewrite Hi; unfold frame; rewrite !length_app, STORE32H_length; lia).
  pose proof (sb_rest_length _ (si_iq _ _ Hs)). pose proof (si_iq _ _ Hs). sb_facts.
  rewrite E in Hi. apply frame_inj in Hi as [<- <-]; [|unfold U32; lia..]. split; [done|]. by exists reps.
Qed.
End server.

(** C23. A request is answered.  In a session of fewer than [MAX_HANDLES] turns so
    far, when a whole request that follows the grammar is in front of the queue,
    and there is memory and room for the reply, [process] returns, has taken
    exactly the request, and has put the reply into the queue. *)
Theorem sftp_request_answered {FS} mem_ok os dir_len getpwuid getgrgid now strftime readonly wl bl (f : FS) s0 ts io s body tl :
  os_ok os dir_len getpwuid getgrgid strftime → (∀ n, n ≤ SSHBUF_SIZE_MAX → mem_ok n = true) →
  sftp_start mem_ok f = Ok s0 → Forall turn_ok ts → zlen ts < MAX_HANDLES →
  sftp_turns mem_ok os dir_len getpwuid getgrgid now strftime readonly wl bl ts s0 = Ok (io, s) →
  zlen (sb_rest (oqueue s)) + SFTP_MAX_MSG_LENGTH ≤ SSHBUF_SIZE_MAX → sb_rest (iqueue s) = frame body ++ tl → zlen body ≤ SFTP_MAX_MSG_LENGTH →
  well_formed mem_ok os dir_len getpwuid getgrgid now strftime readonly wl bl (init_done s) body →
  ∃ s' reps, process mem_ok os dir_len getpwuid getgrgid now strftime readonly wl bl s = Ok (tt, s') ∧ sb_rest (iqueue s') = tl ∧
    responds mem_ok os dir_len getpwuid getgrgid now strftime readonly wl bl body reps ∧
    sb_rest (oqueue s') = sb_rest (oqueue s) ++ frames reps.
Proof.
  intros Hos Hmem Hs0 Hts Hk Hrun Hr Hi Hmax Hwf. apply sftp_start_ok in Hs0 as (Hs0 & _).
  assert (Hnk : names_kept mem_ok) by (intros n Hn; apply Hmem; unfold SSHBUF_SIZE_MAX; lia).
  pose proof (turns_served mem_ok os dir_len getpwuid getgrgid now strftime readonly wl bl Hos Hnk ts 0 s0 Hs0 Hts) as Ht.
  unfold ewp in Ht. rewrite Hrun in Ht. destruct Ht as [Hs _].
  pose proof (process_frame mem_ok os dir_len getpwuid getgrgid now strftime readonly wl bl Hos Hnk _ s body tl Hs Hr Hi Hmax Hwf) as Hp.
  unfold ewp in Hp. destruct (process _ _ _ _ _ _ _ _ _ _ s) as [[[] s']| |]; [|destruct Hp as [(n & Hn & E)|?]; [by rewrite Hmem in E|lia]|done].
  destruct Hp as (Hi' & reps & Hres & Ho & _). by exists s', reps.
Qed.

(** ** A session *)
(** A file system with one file, in which "hi" can be read at any offset. *)
Definition wit_stat : stat := mkStat 33188 1 2 0 0 0 0.
Definition wit_os (f : ()) (c : syscall) : sysret * () :=
  match c with
  | SysOpen _ _ _ => (mkRet 3 0 [] wit_stat, tt)
  | SysClose _ | SysLseek _ _ | SysFstat _ => (mkRet 0 0 [] wit_stat, tt)
  | SysRead _ len => if 2 <=? len then (mkRet 2 0 (bytes_of_string "hi") wit_stat, tt) else (mkRet (-1) 5 [] wit_stat, tt)
  | _ => (mkRet (-1) ENOENT [] wit_stat, tt)
  end.
Definition wit_dir_len (f : ()) (d : Z) : nat := 0.
Definition wit_names (u : Z) : option (list Z) := Some (bytes_of_string "user").
Definition wit_now (f : ()) : Z := 0.
Definition wit_strftime (fmt : string) (t : Z) : list Z := bytes_of_string "Jan  1 00:00".
Lemma wit_os_ok : os_ok wit_os wit_dir_len wit_names wit_names wit_strftime.
Proof.
  split; [|done|done|by intros u n [= <-]; split; [apply bytes_of_string_bytes|]..|by intros; apply bytes_of_string_bytes].
  intros [] []; cbn -[bytes_of_string]; try (by left); try (by right). destruct (Z.leb_spec 2 len); [|by left]. right. split_and!; [done|apply bytes_of_string_bytes|done..].
Qed.
Definition wit_string (x : string) : list Z := STORE32H (zlen (bytes_of_string x)) ++ bytes_of_string x.
Definition wit_init : list Z := frame ([SSH2_FXP_INIT] ++ STORE32H 3).
Definition wit_open (pflags : Z) : list Z := [SSH2_FXP_OPEN] ++ STORE32H 7 ++ wit_string "a" ++ STORE32H pflags ++ STORE32H 0.
Definition wit_read : list Z := [SSH2_FXP_READ] ++ STORE32H 8 ++ (STORE32H 4 ++ STORE32H 0) ++ POKE_U64 0 ++ STORE32H 100.
(** The requests arrive in pieces; the replies are written byte by byte, and
    then all that there is. *)
Definition wit_turns : list turn :=
  [Selected (Some (Some wit_init)) None; Selected (Some (Some (take 10 (frame (wit_open 1))))) (Some (Some 1));
   SelectFails true; Selected (Some (Some (drop 10 (frame (wit_open 1)) ++ frame wit_read))) (Some (Some 1000)); Selected None None].
Abbreviation wit_run := (sftp_turns (λ _, true) wit_os wit_dir_len wit_names wit_names wit_now wit_strftime false None None).
Definition wit_start : outcome (sftp ()) := sftp_start (λ _, true) tt.
Definition wit_state (ts : list turn) : sftp () :=
  match wit_start with Ok s => match wit_run ts s with Ok (_, s') => s' | _ => s end | _ => mkSftp _ (mkSb [] 0 0 0 false 1) (mkSb [] 0 0 0 false 1) 0 false [] 0 [] [] tt [] end.
Lemma wit_session_ok : Forall turn_ok wit_turns.
Proof.
  unfold wit_turns. repeat (apply Forall_cons; split); try done; (split; [intros ? [= <-]|by intros ? [= <-]]);
    (split; [apply (bool_decide_unpack _); vm_compute; exact I|vm_compute; discriminate]).
Qed.
Definition wit_output (r : outcome (list Z * list Z * sftp ())) : option (list Z * list Z) :=
  match r with Ok (io, s) => Some (io.2, sb_rest (oqueue s)) | _ => None end.
(** The second request of the last session, before it is handled. *)
Definition wit_before : list turn := [Selected (Some (Some (wit_init ++ frame (wit_open 1) ++ frame wit_read))) None].
Lemma sftp_request_answered_witness :
  ∃ s' reps, process (λ _, true) wit_os wit_dir_len wit_names wit_names wit_now wit_strftime false None None (wit_state wit_before) = Ok (tt, s') ∧
    sb_rest (iqueue s') = frame wit_read ∧
    responds (λ _, true) wit_os wit_dir_len wit_names wit_names wit_now wit_strftime false None None (wit_open 1) reps ∧
    sb_rest (oqueue s') = sb_rest (oqueue (wit_state wit_before)) ++ frames reps.
Proof.
  apply (sftp_request_answered (λ _, true) wit_os wit_dir_len wit_names wit_names wit_now wit_strftime false None None tt (wit_state []) wit_before
    (match wit_run wit_before (wit_state []) with Ok (io, _) => io | _ => ([], []) end)).
  - apply wit_os_ok.
  - reflexivity.
  - reflexivity.
  - constructor; [|constructor]. split; [|intros ? [=]]. intros ? [= <-]. split; [apply (bool_decide_unpack _); vm_compute; exact I|vm_compute; discriminate].
  - reflexivity.
  - vm_compute. reflexivity.
  - vm_compute. discriminate.
  - vm_compute. reflexivity.
  - vm_compute. discriminate.
  - eexists _, _, _, _. split; [reflexivity|]. split; [vm_compute; reflexivity|]. right. reflexivity.
Defined.

(** When [strdup] fails for the name of the owner, the listing of a directory
    reads through a null pointer. *)
Lemma names_unchecked :
  ls_file (λ n, negb (n =? 5)) wit_names wit_names wit_now wit_strftime (bytes_of_string "a") wit_stat (wit_state []) =
  UB "strlen(user)".
Proof. vm_compute. reflexivity. Qed.
