(* ===== verification/SftpReadonly.v ===== *)
(** * The SFTP server in read-only mode

    With the option [-R] a session is the same whatever the calls that change
    files would do, but for one kind of call: an [open] for reading that
    creates or truncates a file is made ([readonly_truncates]). *)
From S2P Require Import Prelude Buffer SshBuf Sftp SftpProps SftpReply SftpServer.

(** Calls that can change what is in the file system, an [open] that creates
    or truncates among them. *)
Definition changes_files (c : syscall) : bool :=
  match c with
  | SysOpen _ flags _ =>
      negb (Z.land flags O_ACCMODE =? O_RDONLY) || negb (Z.land flags O_CREAT =? 0) || negb (Z.land flags O_TRUNC =? 0)
  | SysClose _ | SysLseek _ _ | SysRead _ _ | SysStat _ | SysLstat _ | SysFstat _ | SysOpendir _ | SysReaddir _ | SysClosedir _
  | SysRealpath _ | SysReadlink _ _ => false
  | SysWrite _ _ | SysTruncate _ _ | SysFtruncate _ _ | SysChmod _ _ | SysUtimes _ _ _ | SysChown _ _ _ | SysUnlink _ | SysMkdir _ _
  | SysRmdir _ | SysRename _ _ | SysLink _ _ | SysSymlink _ _ | SysFsync _ => true
  end.
(** The gap of [process_open]: its test looks at the access mode only. *)
Definition opens_for_reading (c : syscall) : bool :=
  match c with SysOpen _ flags _ => Z.land flags O_ACCMODE =? O_RDONLY | _ => false end.
(** A file system that refuses ([EROFS]) every call that can change files, but
    for the openings for reading. *)
Definition EROFS : Z := 30.
Definition write_protected {FS} (os : FS → syscall → sysret * FS) (f : FS) (c : syscall) : sysret * FS :=
  if changes_files c && negb (opens_for_reading c) then (mkRet (-1) EROFS [] (mkStat 0 0 0 0 0 0 0), f) else os f c.

Section same.
Context {FS : Type}.
Variable mem_ok : Z → bool.
Variable os1 os2 : FS → syscall → sysret * FS.
Variable dir_len : FS → Z → nat.
Variable getpwuid getgrgid : Z → option (list Z).
Variable now : FS → Z.
Variable strftime : string → Z → list Z.
Variable wl bl : option (list Z).
Context (Hagree : ∀ f c, changes_files c && negb (opens_for_reading c) = false → os1 f c = os2 f c).
Abbreviation st := (sftp FS).

Definition Same {A} (m1 m2 : M st A) : Prop := ∀ s, m1 s = m2 s.
Lemma run_refl {A} (m : M st A) : Same m m.
Proof. done. Qed.
Lemma same_bind {A B} (m1 m2 : M st A) (f1 f2 : A → M st B) : Same m1 m2 → (∀ a, Same (f1 a) (f2 a)) → Same (m1 ≫= f1) (m2 ≫= f2).
Proof. intros Hm Hf s. unfold mbind, M_bind. rewrite Hm. destruct (m2 s) as [[a s']| |]; [apply Hf|done..]. Qed.
Lemma same_sys c : changes_files c && negb (opens_for_reading c) = false → Same (sys os1 c) (sys os2 c).
Proof. intros Hc s. unfold sys, mbind, M_bind, get. by rewrite Hagree. Qed.
Lemma same_when b m1 m2 : Same m1 m2 → Same (when b m1) (when b m2).
Proof. by destruct b. Qed.
Ltac same :=
  repeat first
    [ lazymatch goal with
      | |- Same ?m ?m => exact (run_refl m)
      | |- Same (sys _ _) (sys _ _) => apply same_sys; reflexivity
      | |- Same (_ ≫= _) (_ ≫= _) => apply same_bind; [|intros ?]
      | |- Same (when _ _) (when _ _) => apply same_when
      | |- Same (if ?b then _ else _) _ => destruct b eqn:?
      | |- Same (match ?x with _ => _ end) _ => destruct x eqn:?
      end ].
Lemma flags_access pflags : Z.land (flags_from_portable pflags) O_ACCMODE ∈ [O_RDONLY; O_WRONLY; O_RDWR].
Proof. unfold flags_from_portable. repeat case_match; vm_compute; set_solver. Qed.
Lemma same_open id : Same (process_open mem_ok os1 true id) (process_open mem_ok os2 true id).
Proof.
  unfold process_open. same. apply same_sys. cbn. pose proof (flags_access (i32 a0)) as Hf. cbn [andb] in *.
  match goal with H : _ || _ = false |- _ => apply orb_false_iff in H as [?%Z.eqb_neq ?%Z.eqb_neq] end.
  rewrite (proj2 (Z.eqb_eq _ O_RDONLY)) by set_solver. apply andb_false_r.
Qed.
Lemma same_close id : Same (process_close mem_ok os1 id) (process_close mem_ok os2 id).
Proof. unfold process_close, handle_close. same. Qed.
Lemma same_read id : Same (process_read mem_ok os1 id) (process_read mem_ok os2 id).
Proof. unfold process_read. same. Qed.
Lemma same_do_stat id b : Same (process_do_stat mem_ok os1 id b) (process_do_stat mem_ok os2 id b).
Proof. unfold process_do_stat. destruct b; same. Qed.
Lemma same_fstat id : Same (process_fstat mem_ok os1 id) (process_fstat mem_ok os2 id).
Proof. unfold process_fstat. same. Qed.
Lemma same_opendir id : Same (process_opendir mem_ok os1 id) (process_opendir mem_ok os2 id).
Proof. unfold process_opendir. same. Qed.
Lemma same_readdir_loop fuel dirp path n stats :
  Same (readdir_loop mem_ok os1 getpwuid getgrgid now strftime fuel dirp path n stats)
       (readdir_loop mem_ok os2 getpwuid getgrgid now strftime fuel dirp path n stats).
Proof. revert n stats. induction fuel as [|fuel IH]; intros n stats; [done|]. cbn [readdir_loop]. cbv zeta. same; apply IH. Qed.
Lemma same_readdir id : Same (process_readdir mem_ok os1 dir_len getpwuid getgrgid now strftime id)
  (process_readdir mem_ok os2 dir_len getpwuid getgrgid now strftime id).
Proof. unfold process_readdir. same. apply same_readdir_loop. Qed.
Lemma same_realpath id : Same (process_realpath mem_ok os1 id) (process_realpath mem_ok os2 id).
Proof. unfold process_realpath. same. Qed.
Lemma same_readlink id : Same (process_readlink mem_ok os1 id) (process_readlink mem_ok os2 id).
Proof. unfold process_readlink. same. Qed.

(** ** Dispatch *)
Definition same_handler (h1 h2 : @sftp_handler FS) : Prop :=
  sh_name h1 = sh_name h2 ∧ sh_ext_name h1 = sh_ext_name h2 ∧ sh_type h1 = sh_type h2 ∧ sh_does_write h1 = sh_does_write h2 ∧
  (sh_does_write h1 = false → ∀ id, Same (sh_handler h1 id) (sh_handler h2 id)).
Abbreviation table os := (handler_table mem_ok os dir_len getpwuid getgrgid now strftime true).
Lemma same_table : Forall2 same_handler (table os1) (table os2).
Proof.
  repeat (apply Forall2_cons; split; [split_and!; [reflexivity..|cbn; try done; intros _ id]|]); [..|by constructor].
  - apply same_open.
  - apply same_close.
  - apply same_read.
  - apply same_do_stat.
  - apply same_fstat.
  - apply same_opendir.
  - apply same_readdir.
  - apply same_realpath.
  - apply same_do_stat.
  - apply same_readlink.
Qed.
Lemma same_extended_table : Forall2 same_handler (extended_handlers mem_ok os1) (extended_handlers mem_ok os2).
Proof. by repeat (apply Forall2_cons; split; [by split_and!|]). Qed.
Lemma same_run h1 h2 id : same_handler h1 h2 → Same (run_permitted mem_ok true wl bl h1 id) (run_permitted mem_ok true wl bl h2 id).
Proof.
  intros (En & _ & _ & Ew & Hh). unfold run_permitted, request_permitted. rewrite <- En, <- Ew. cbn [andb].
  destruct (sh_does_write h1); [done|]. specialize (Hh eq_refl id). same; exact Hh.
Qed.
Lemma same_find (f : @sftp_handler FS → bool) l1 l2 (d : M st ()) id : (∀ h1 h2, same_handler h1 h2 → f h1 = f h2) → Forall2 same_handler l1 l2 →
  Same (match find_request f l1 with Some h => run_permitted mem_ok true wl bl h id | None => d end)
       (match find_request f l2 with Some h => run_permitted mem_ok true wl bl h id | None => d end).
Proof.
  intros Hf Hl. induction Hl as [|h1 h2 l1 l2 Hh Hl IH]; [done|]. cbn. rewrite (Hf h1 h2 Hh). destruct (f h2); [by apply same_run|done].
Qed.
Lemma same_extended id : Same (process_extended mem_ok os1 true wl bl id) (process_extended mem_ok os2 true wl bl id).
Proof.
  apply same_bind; [done|]. intros name. apply same_find; [|apply same_extended_table]. by intros h1 h2 (_ & -> & _).
Qed.
Lemma same_type type : Same (process_type mem_ok os1 dir_len getpwuid getgrgid now strftime true wl bl type)
  (process_type mem_ok os2 dir_len getpwuid getgrgid now strftime true wl bl type).
Proof.
  unfold process_type. destruct (type =? SSH2_FXP_INIT); [done|]. destruct (type =? SSH2_FXP_EXTENDED);
    (apply same_bind; [done|]; intros s; destruct (negb (init_done s)); [done|]; apply same_bind; [done|]; intros id).
  - apply same_extended.
  - apply same_find; [|apply same_table]. by intros h1 h2 (_ & _ & -> & _).
Qed.
Lemma same_process : Same (process mem_ok os1 dir_len getpwuid getgrgid now strftime true wl bl)
  (process mem_ok os2 dir_len getpwuid getgrgid now strftime true wl bl).
Proof. unfold process. same. apply same_type. Qed.
Lemma same_turns ts : Same (sftp_turns mem_ok os1 dir_len getpwuid getgrgid now strftime true wl bl ts)
  (sftp_turns mem_ok os2 dir_len getpwuid getgrgid now strftime true wl bl ts).
Proof.
  induction ts as [|t ts IH]; [done|]. cbn [sftp_turns]. apply same_bind; [|intros a; apply same_bind; [exact IH|done]].
  unfold sftp_turn. same; apply same_process.
Qed.
End same.

(** C24. Read-only mode.  A session with the option [-R] is, whatever the client
    sends and whatever the file system answers, the session on the same file
    system with every call that writes, truncates, renames, links, removes,
    creates a directory or a link or changes attributes, and every [open] for
    writing, refused without any effect: the same bytes are exchanged, the same
    state is reached, the same calls are made, or the process ends in the same
    way.  The one exception is stated in [write_protected]: an [open] for
    reading takes effect whatever its other flags, so it can still create or
    truncate a file; [readonly_truncates] below shows that it does. *)
Theorem sftp_readonly {FS} mem_ok os dir_len getpwuid getgrgid now strftime wl bl ts (s : sftp FS) :
  sftp_turns mem_ok os dir_len getpwuid getgrgid now strftime true wl bl ts s =
  sftp_turns mem_ok (write_protected os) dir_len getpwuid getgrgid now strftime true wl bl ts s.
Proof. apply same_turns. intros f c Hc. unfold write_protected. by rewrite Hc. Qed.

(** The flags of an [open] for reading are not looked at: in read-only mode a
    client can create a file and truncate one. *)
Lemma readonly_truncates :
  match wit_start with
  | Ok s =>
      match sftp_turns (λ _, true) wit_os wit_dir_len wit_names wit_names wit_now wit_strftime true None None
              [Selected (Some (Some (wit_init ++ frame (wit_open (Z.lor SSH2_FXF_READ (Z.lor SSH2_FXF_CREAT SSH2_FXF_TRUNC)))))) None; Selected None None] s with
      | Ok (_, s') => sys_log s' = [SysOpen (bytes_of_string "a") (Z.lor O_RDONLY (Z.lor O_CREAT O_TRUNC)) 438]
      | _ => False
      end
  | _ => False
  end.
Proof. vm_compute. reflexivity. Qed.
