(* ===== verification/SftpHandles.v ===== *)
(** * The table of handles of the SFTP server is a map

    Opening gives a number that is not in use, closing takes exactly this number
    out and closes its descriptor, and a number the client sends finds what was
    opened under it or nothing. *)
From S2P Require Import Prelude Buffer SshBuf Sftp SftpProps SftpReply SftpServer.

Inductive hop :=
| HNew (use : handle_use) (name : list Z) (fd flags dirp : Z)
| HClose (i : Z)
| HLook (handle : list Z).
(** A new number; what closing returns; the number, descriptor, flags,
    directory and name found for a handle. *)
Inductive hres :=
| RNew (i : Z)
| RClosed (ret : Z * Z)
| RLook (i fd flags : Z) (dirp : option Z) (name : option (list Z)).
Definition hop_ok (o : hop) : Prop :=
  match o with
  | HNew use name fd _ _ => use ≠ HANDLE_UNUSED ∧ strlen name < SSHBUF_SIZE_MAX ∧ (use = HANDLE_FILE → 0 ≤ fd)
  | _ => True
  end.

Section handles.
Context {FS : Type}.
Variable mem_ok : Z → bool.
Variable os : FS → syscall → sysret * FS.
Abbreviation st := (sftp FS).
Implicit Types s : st.
Definition h_op (o : hop) : M st hres :=
  match o with
  | HNew use name fd flags dirp => i ← handle_new mem_ok use name fd flags dirp; mret (RNew i)
  | HClose i => r ← handle_close os i; mret (RClosed r)
  | HLook handle =>
      i ← handle_from_string handle;
      fd ← handle_to_fd i;
      flags ← handle_to_flags i;
      dirp ← handle_to_dir i;
      name ← handle_to_name i;
      mret (RLook i fd flags dirp name)
  end.
Fixpoint h_ops (l : list hop) : M st (list hres) :=
  match l with
  | [] => mret []
  | o :: l => r ← h_op o; rs ← h_ops l; mret (r :: rs)
  end.

(** ** The map *)
Definition find_entry (m : gmap nat entry) (i : Z) : option entry := if i <? 0 then None else m !! Z.to_nat i.
Definition look (m : gmap nat entry) (handle : list Z) : hres :=
  let i := i32 (LOAD32H handle) in
  match (if zlen handle =? 4 then find_entry m i else None) with
  | Some (HANDLE_FILE, name, fd, flags, _) => RLook i fd flags None (Some name)
  | Some (_, name, _, _, dirp) => RLook i (-1) 0 (Some dirp) (Some name)
  | None => RLook (-1) (-1) 0 None None
  end.
(** The call that closes an entry. *)
Definition close_call (e : entry) : syscall :=
  let '(use, _, fd, _, dirp) := e in if decide (use = HANDLE_FILE) then SysClose fd else SysClosedir dirp.
Inductive m_op : hop → gmap nat entry → hres → list syscall → gmap nat entry → Prop :=
| m_new use name fd flags dirp m i : m !! i = None →
    m_op (HNew use name fd flags dirp) m (RNew (Z.of_nat i)) [] (<[i := (use, cstr name, fd, flags, dirp)]> m)
| m_close i m e r : find_entry m i = Some e → m_op (HClose i) m (RClosed r) [close_call e] (delete (Z.to_nat i) m)
| m_close_none i m : find_entry m i = None → m_op (HClose i) m (RClosed (-1, ENOENT)) [] m
| m_look handle m : m_op (HLook handle) m (look m handle) [] m.
Inductive m_ops : list hop → gmap nat entry → list hres → list syscall → gmap nat entry → Prop :=
| m_nil m : m_ops [] m [] [] m
| m_cons o os m r c m1 rs cs m2 : m_op o m r c m1 → m_ops os m1 rs cs m2 → m_ops (o :: os) m (r :: rs) (c ++ cs) m2.

(** ** The table is the map *)
Definition shows (m : gmap nat entry) s : Prop := ∀ i, m !! i = live (handles s) i.
Lemma count_bound k s : sftp_inv k s → zlen (handles s) < 2147483648.
Proof. intros Hs. pose proof (to_size _ _ (si_table _ _ Hs)) as Hz. assert (TABLE_MAX = 89478485) as HT by done. lia. Qed.
Lemma is_ok_live k s m i use : sftp_inv k s → shows m s → use ≠ HANDLE_UNUSED →
  handle_is_ok s i use = match find_entry m i with Some e => bool_decide (e.1.1.1.1 = use) | None => false end.
Proof.
  intros Hs Hm Hu. pose proof (count_bound k s Hs). unfold handle_is_ok, find_entry. destruct (Z.geb_spec i 0), (Z.ltb_spec i 0); try lia; cbn [andb]; try done.
  rewrite (Hm (Z.to_nat i)). unfold live. destruct (handles s !! Z.to_nat i) as [h|] eqn:E; cbn; [|by rewrite andb_false_r].
  apply lookup_lt_Some in E. rewrite u32_small by (unfold U32; lia). rewrite (proj2 (Z.ltb_lt _ _)) by lia. cbn.
  destruct (decide (h_use h = HANDLE_UNUSED)) as [E2|]; [|done]. rewrite E2. apply bool_decide_eq_false. congruence.
Qed.
Lemma entry_at s m i e : shows m s → find_entry m i = Some e → ∃ h, 0 ≤ i ∧ handles s !! Z.to_nat i = Some h ∧
  e = (h_use h, h_name h, h_fd h, h_flags h, h_dirp h) ∧ h_use h ≠ HANDLE_UNUSED.
Proof.
  intros Hm. unfold find_entry. destruct (Z.ltb_spec i 0); [done|]. rewrite (Hm (Z.to_nat i)). unfold live.
  destruct (handles s !! Z.to_nat i) as [h|] eqn:E; [|done]. cbn. destruct (decide (h_use h = HANDLE_UNUSED)); [done|]. intros [= <-]. by exists h.
Qed.
Lemma find_minus m : find_entry m (-1) = None.
Proof. done. Qed.
(** Looking at an entry, or at none. *)
Lemma look_entry {A} k s m i use (f : Handle → A) d : sftp_inv k s → shows m s → use ≠ HANDLE_UNUSED →
  (s ← get; if handle_is_ok s i use then h ← get_entry i; mret (f h) else mret d) s =
  Ok (match find_entry m i with
      | Some (u, name, fd, flags, dirp) => if decide (u = use) then f (default (mkHandle u dirp fd flags name 0 0 0) (handles s !! Z.to_nat i)) else d
      | None => d
      end, s).
Proof.
  intros Hs Hm Hu. rewrite (bind_ok get _ _ s s) by done. rewrite (is_ok_live k s m i use Hs Hm Hu). destruct (find_entry m i) as [e|] eqn:E; [|done].
  destruct (entry_at s m i e Hm E) as (h & Hi & Hl & -> & Hne). cbn [fst]. destruct (decide (h_use h = use)) as [Eu|Eu].
  - rewrite bool_decide_true by done. rewrite (bind_ok _ _ _ _ _ (get_entry_ok s i h Hi Hl)), Hl. done.
  - by rewrite bool_decide_false.
Qed.
Lemma look_name k s m i : sftp_inv k s → shows m s → handle_to_name i s = Ok ((λ e : entry, e.1.1.1.2) <$> find_entry m i, s).
Proof.
  intros Hs Hm. unfold handle_to_name. rewrite (bind_ok get _ _ s s) by done. rewrite !(is_ok_live k s m) by done.
  destruct (find_entry m i) as [e|] eqn:E; [|done]. destruct (entry_at s m i e Hm E) as (h & Hi & Hl & -> & Hne). cbn [fst snd fmap option_fmap option_map].
  destruct (h_use h); [done|..]; match goal with |- context[if ?b then _ else _] => replace b with true by reflexivity end;
    by rewrite (bind_ok _ _ _ _ _ (get_entry_ok s i h Hi Hl)).
Qed.
Lemma look_step k s m handle : sftp_inv k s → shows m s → h_op (HLook handle) s = Ok (look m handle, s).
Proof.
  intros Hs Hm. assert (Hfrom : handle_from_string handle s =
    Ok (if zlen handle =? 4 then match find_entry m (i32 (LOAD32H handle)) with Some _ => i32 (LOAD32H handle) | None => -1 end else -1, s)).
  { unfold handle_from_string. destruct (zlen handle =? 4); cbn [negb]; [|done]. rewrite (bind_ok get _ _ s s) by done.
    rewrite !(is_ok_live k s m) by done. destruct (find_entry m _) as [e|] eqn:E; [|done]. destruct (entry_at _ _ _ _ Hm E) as (h & _ & _ & -> & Hne). cbn [fst].
    destruct (h_use h); [done|..]; done. }
  unfold h_op. rewrite (bind_ok _ _ _ _ _ Hfrom). set (i := if zlen handle =? 4 then _ else _).
  rewrite (bind_ok _ _ _ _ _ (look_entry k s m i HANDLE_FILE h_fd (-1) Hs Hm ltac:(done))).
  rewrite (bind_ok _ _ _ _ _ (look_entry k s m i HANDLE_FILE h_flags 0 Hs Hm ltac:(done))).
  rewrite (bind_ok _ _ _ _ _ (look_entry k s m i HANDLE_DIR (λ h, Some (h_dirp h)) None Hs Hm ltac:(done))).
  rewrite (bind_ok _ _ _ _ _ (look_name k s m i Hs Hm)). unfold look, mret, M_ret. do 2 f_equal.
  unfold i. clear i. destruct (zlen handle =? 4); [|done]. destruct (find_entry m _) as [e|] eqn:E; [|done]. rewrite E.
  destruct (entry_at _ _ _ _ Hm E) as (h & _ & Hl & -> & Hne). rewrite Hl. by destruct (h_use h).
Qed.
(** Closing. *)
Lemma unused_eq k s i h : sftp_inv k s → 0 ≤ i → handles s !! Z.to_nat i = Some h →
  ∃ h', h_use h' = HANDLE_UNUSED ∧ handle_unused i s = Ok (tt, set_first_unused i (set_handles (<[Z.to_nat i := h']> (handles s)) s)).
Proof.
  intros Hs Hi Hl. pose proof (lookup_lt_Some _ _ _ Hl). unfold handle_unused. rewrite (bind_ok _ _ _ _ _ (get_entry_ok s i h Hi Hl)), (bind_ok get _ _ s s) by done.
  eexists. split; [|rewrite (bind_ok _ _ _ _ _ (set_entry_ok s i _ ltac:(lia))); reflexivity]. done.
Qed.
Lemma shows_close m s s' i h h' : shows m s → handles s !! i = Some h → h_use h' = HANDLE_UNUSED → handles s' = <[i := h']> (handles s) → shows (delete i m) s'.
Proof.
  intros Hm Hl Hu E j. rewrite E, live_insert by (by eapply lookup_lt_Some). destruct (decide (j = i)) as [->|Hne].
  - rewrite lookup_delete_eq. by rewrite decide_True.
  - by rewrite lookup_delete_ne.
Qed.
(** Closing an entry in use: the system call, and the entry is unused. *)
Lemma close_live k s m i e h c : sftp_inv k s → shows m s → find_entry m i = Some e → handles s !! Z.to_nat i = Some h → h_use h ≠ HANDLE_UNUSED → 0 ≤ i →
  c = close_call e →
  ewp (no_memory mem_ok) (r ← sys os c; handle_unused i;; mret (sr_ret r, sr_errno r))
    (λ r s', sftp_inv k s' ∧ ∃ c' m', m_op (HClose i) m (RClosed r) c' m' ∧ shows m' s' ∧ sys_log s' = sys_log s ++ c') s.
Proof.
  intros Hs Hm He Hl Hu Hi ->. ewp_step. eapply ewp_ok; [apply sys_eq|]. set (s1 := after_sys os _ s). assert (Hs1 : sftp_inv k s1) by (by apply inv_sys).
  destruct (unused_eq k s1 i h Hs1 Hi Hl) as (h' & Hu' & E). ewp_step. pose proof (unused_ok mem_ok k s1 i h Hs1 Hi Hl Hu) as Hinv. unfold ewp in Hinv.
  rewrite E in Hinv. destruct Hinv as [Hinv _]. eapply ewp_ok; [exact E|]. ewp_step. split; [done|]. eexists _, _. split; [by econstructor|]. split; [|done].
  by eapply (shows_close m s).
Qed.
Lemma close_step k s m i : sftp_inv k s → shows m s →
  ewp (no_memory mem_ok) (h_op (HClose i)) (λ r s', sftp_inv k s' ∧ ∃ c m', m_op (HClose i) m r c m' ∧ shows m' s' ∧ sys_log s' = sys_log s ++ c) s.
Proof.
  intros Hs Hm. unfold h_op, handle_close. destruct (find_entry m i) as [e|] eqn:E.
  - destruct (entry_at s m i e Hm E) as (h & Hi & Hl & -> & Hne).
    pose proof (close_live k s m i _ h (close_call (h_use h, h_name h, h_fd h, h_flags h, h_dirp h)) Hs Hm E Hl Hne Hi eq_refl) as Hc.
    do 3 ewp_step. rewrite !(is_ok_live k s m), E by done. cbn [fst]. destruct (h_use h); [done|..];
      rewrite ?bool_decide_false, ?bool_decide_true by done; ewp_step; (eapply ewp_ok; [by apply get_entry_ok|]); exact Hc.
  - do 3 ewp_step. rewrite !(is_ok_live k s m), E by done. do 2 ewp_step. split; [done|]. exists [], m. split; [by constructor|]. split; [done|by rewrite app_nil_r].
Qed.
Definition stepped (o : hop) k m s (r : hres) s' : Prop :=
  sftp_inv (k + 1) s' ∧ ∃ c m', m_op o m r c m' ∧ shows m' s' ∧ sys_log s' = sys_log s ++ c.
Lemma hop_step k s m o : sftp_inv k s → shows m s → hop_ok o → ewp (stuck mem_ok k) (h_op o) (stepped o k m s) s.
Proof.
  intros Hs Hm Ho. assert (Hs1 : sftp_inv (k + 1) s) by (eapply inv_mono; [done|lia]). destruct o as [use name fd flags dirp|i|handle].
  - destruct Ho as (Hu & Hn & Hfd). unfold h_op. ewp_step. eapply ewp_mono; [by apply handle_new_ok|]. intros i s' (Hi & Hs' & _ & Hlog & Hnone & Hlive).
    ewp_step. split; [done|]. eexists [], _. rewrite <- (Z2Nat.id i) at 1 by done. split; [constructor; by rewrite Hm|]. split; [|by rewrite app_nil_r].
    intros j. rewrite Hlive. destruct (decide (j = Z.to_nat i)) as [->|Hne]; [by rewrite lookup_insert_eq|by rewrite lookup_insert_ne].
  - eapply ewp_weaken; [by left|]. eapply ewp_mono; [by apply close_step|]. intros r s' (Hs' & Hx). split; [eapply inv_mono; [done|lia]|done].
  - eapply ewp_ok; [by eapply look_step|]. split; [done|]. exists [], m. split; [constructor|]. split; [done|by rewrite app_nil_r].
Qed.
Lemma hops_step l : ∀ k s m, sftp_inv k s → shows m s → Forall hop_ok l →
  ewp (stuck mem_ok (k + zlen l)) (h_ops l) (λ rs s', ∃ cs m', m_ops l m rs cs m' ∧ shows m' s' ∧ sys_log s' = sys_log s ++ cs) s.
Proof.
  induction l as [|o l IH]; intros k s m Hs Hm Hl; cbn [h_ops length].
  - ewp_step. exists [], m. split; [constructor|]. split; [done|by rewrite app_nil_r].
  - apply Forall_cons in Hl as [Ho Hl]. ewp_step. eapply ewp_weaken; [|eapply ewp_mono; [by apply (hop_step k)|]]. { intros [?|?]; [by left|right; lia]. }
    intros r s1 (Hs1 & c & m1 & Hop & Hm1 & Hlog). ewp_step. eapply ewp_weaken; [|eapply ewp_mono; [by apply (IH (k + 1))|]].
    { by replace (k + Z.of_nat (S (length l))) with (k + 1 + zlen l) by lia. }
    intros rs s2 (cs & m2 & Hops & Hm2 & Hlog2). ewp_step. exists (c ++ cs), m2. split; [by econstructor|]. split; [done|]. by rewrite Hlog2, Hlog, app_assoc.
Qed.
End handles.

(** C25. The table of handles is a map.  For every sequence of openings, closings
    and uses of a handle, the numbers given out, what a handle leads to and what
    is closed are those of a map from numbers to open files and directories: a
    new handle is not one in use, it leads to what was opened under it until it
    is closed, whatever is opened and closed in between, closing it closes its
    descriptor once, and any other bytes the client sends as a handle are
    refused.  The process ends only when there is no memory or the table has
    [MAX_HANDLES] entries. *)
Theorem handles_refine_map {FS} mem_ok os (f : FS) s l : sftp_start mem_ok f = Ok s → Forall hop_ok l →
  ewp (stuck mem_ok (zlen l)) (h_ops mem_ok os l) (λ rs s', ∃ m, m_ops l ∅ rs (sys_log s') m ∧ ∀ i, m !! i = live (handles s') i) s.
Proof.
  intros Hst Hl. destruct (sftp_start_ok mem_ok f s Hst) as (Hs & _). assert (Hlog : sys_log s = [] ∧ handles s = []).
  { unfold sftp_start in Hst. destruct (sshbuf_init mem_ok) as [b| |]; [|done..]. by injection Hst as <-. }
  destruct Hlog as [Hlog Hh]. eapply ewp_mono; [apply (hops_step mem_ok os l 0 s ∅ Hs); [|done]|].
  - intros i. by rewrite Hh, lookup_empty.
  - intros rs s' (cs & m & Hops & Hm & E). rewrite Hlog in E. cbn in E. subst cs. by exists m.
Qed.
Definition wit_hops : list hop :=
  [HNew HANDLE_FILE (bytes_of_string "a") 5 0 0; HNew HANDLE_DIR (bytes_of_string "d") 0 0 9; HClose 0; HLook (STORE32H 0);
   HNew HANDLE_FILE (bytes_of_string "b") 6 1 0; HLook (STORE32H 0); HLook (STORE32H 1); HClose 7].
Lemma handles_refine_map_witness :
  (∃ s', h_ops (λ _, true) wit_os wit_hops (wit_state []) =
    Ok ([RNew 0; RNew 1; RClosed (0, 0); RLook (-1) (-1) 0 None None; RNew 0; RLook 0 6 1 None (Some (bytes_of_string "b"));
         RLook 1 (-1) 0 (Some 9) (Some (bytes_of_string "d")); RClosed (-1, ENOENT)], s') ∧ sys_log s' = [SysClose 5]) ∧
  ewp (stuck (λ _, true) (zlen wit_hops)) (h_ops (λ _, true) wit_os wit_hops)
    (λ rs s', ∃ m, m_ops wit_hops ∅ rs (sys_log s') m ∧ ∀ i, m !! i = live (handles s') i) (wit_state []).
Proof.
  split; [eexists; split; [vm_compute; reflexivity|reflexivity]|].
  apply (handles_refine_map (λ _, true) wit_os tt); [reflexivity|]. repeat constructor; try discriminate; vm_compute; discriminate.
Defined.
